(* ===== verification/_CoqProject ===== *)
-Q . S2P
Prelude.v
Memory.v
Riscv.v
Spinlock.v
Kalloc.v
Vm.v
VmWalk.v
VmUser.v
VmCopy.v
VmFree.v
Bio.v
Log.v
Txn.v
Fs.v
FsFrame.v
ExecMem.v
FsBlock.v
FsInode.v
FsFile.v
FsDir.v
FsExample.v
FsPath.v
FsLink.v
FsTrunc.v
Mkfs.v
MkfsSpec.v
MkfsImage.v
MkfsBoot.v
Kern.v
Proc.v
Pipe.v
File.v
FsBound.v
Life.v
Exec.v
Sysfile.v
Printf.v
Console.v
Syscall.v
Ring.v
PipeQueue.v
PrintfSpec.v
ConsoleSpec.v
KernExample.v
SleepWakeup.v
Virtio.v
VirtioSpec.v
Grep.v
Sh.v
ShSpec.v
Views.v
ExecRun.v
ExecSpec.v
FileRefs.v
CallExample.v
ExecExample.v
Ulib.v
Umalloc.v
UmallocSpec.v
Uprog.v
Uprintf.v
Primes.v
PrimesSpec.v
Upgms.v
UpgmsSpec.v
ShRun.v
ShRunSpec.v
KvmSpec.v
Hart.v
Lowlevel.v
HartSpec.v
TrapSpec.v
LowSpec.v
TimerSpec.v
LowExample.v
