(* ===== verification/Prelude.v ===== *)
(** * xv6-riscv (MIT 6.1810), a verification development

    xv6 is a small Unix for RISC-V: a kernel (src/kernel), user programs
    (src/user) and the tool that makes the disk image (src/mkfs).  This
    library models the three and proves what makes each part correct, from the
    trap and context switch code up to the shell.

    ** The program and its parts

    A hart starts in kernel/entry.S and kernel/start.c in machine mode and goes
    on in the kernel, in supervisor mode on the page table of [kvmmake].
    Processes run in user mode; system calls, faults and interrupts bring them
    through kernel/trampoline.S to [usertrap], and [usertrapret] takes them
    back.  [syscall] dispatches to the calls of kernel/sysproc.c and
    kernel/sysfile.c.  These use processes (kernel/proc.c), virtual memory
    (kernel/vm.c over kernel/kalloc.c), open files and pipes, and the file
    system, whose layers are, from the top: path names, directories, file
    contents, inodes, blocks (kernel/fs.c), transactions (kernel/log.c), the
    buffer cache (kernel/bio.c) and the disk driver (kernel/virtio_disk.c).

    ** How code is modelled

    A C function is a program [M S A] over the state [S] of its component; its
    outcome is [Done] with a value and a state, [Panic] with the message,
    [Sleep] when it gives up the CPU, [Undef] for behaviour that C or the
    machine does not define (an index out of range, a refused access), or
    [Diverge] for a loop that used up its fuel.  Integers are [Z], cut to
    their width where the code does it ([u8], [u32], [u64], [i32]); memory is
    a map from addresses to bytes; pointers to the elements of a static array
    are indices.  Components are put together with lenses ([lens]): the code
    of a component runs unchanged on its part of the kernel's state.  A
    function that calls [sched] ends with [Sleep]; what it does when it runs
    again is a definition of its own ([sleep_resume],
    [virtio_disk_rw_resume]).

    Code that interleaves is a step relation: the harts at a spin lock
    ([SpinHart]), [sleep] against [wakeup] ([SleepWakeup]), processes, device
    and interrupt handler of the disk (Virtio), and the processes of user
    programs ([ustep] of Uprog).  Elsewhere a function is run by one process
    with the locks it takes free; a lock that is held is a [Diverge] (a
    spin lock) or a [Sleep] (a sleep lock).

    ** The files

    Shared: Prelude (the monad, lenses, machine integers, lists), Memory
    (bytes, kernel/string.c), Riscv (kernel/riscv.h and memlayout.h: pages,
    table entries, the address map).

    Locks: Spinlock (kernel/spinlock.c, sleeplock.c).

    Memory management: Kalloc (kalloc.c); Vm (vm.c and the page table
    functions of proc.c), with the theorems in VmWalk ([walk], [mappages]),
    VmUser ([uvmalloc], [uvmdealloc], [uvmunmap]), VmCopy ([uvmcopy],
    [copyin], [copyout], [copyinstr]), VmFree ([freewalk], [uvmfree],
    [proc_pagetable], [proc_freepagetable], and with them what a failed
    [uvmcopy] leaves) and KvmSpec ([kvmmake]).

    Disk and file system: Bio (bio.c), Log (log.c), Txn (the interface
    between the log and the file system: the class [Txn] of calls and [TxnOk]
    of laws, which the code of Log and Bio is shown to satisfy), Fs (fs.c),
    with the theorems in FsBlock, FsInode, FsFile, FsDir, FsPath, FsLink,
    FsTrunc and FsBound, what any call that returns leaves alone in FsFrame,
    and a small disk in FsExample; Virtio and VirtioSpec
    (virtio_disk.c).  Mkfs, MkfsSpec, MkfsImage, MkfsBoot: mkfs/mkfs.c and the
    kernel on its image.

    The kernel above: Kern (the state, one record [kern]; proc.h, file.h),
    Proc, Life (proc.c), Pipe (pipe.c), File (file.c), Exec (exec.c, the
    arguments of syscall.c), Sysfile (sysfile.c), Printf (uart.c, printf.c),
    Console (console.c), Syscall (sysproc.c, syscall.c, trap.c, plic.c).
    Theorems: Ring and PipeQueue (pipes as queues), PrintfSpec, ConsoleSpec,
    SleepWakeup, Views (what code leaves alone), ExecMem (the address space
    that [exec] builds), ExecRun (its loops on memory and inode references),
    ExecSpec, FileRefs; runs in KernExample, CallExample and ExecExample.

    The machine level: Hart (a RISC-V hart: registers, control and status
    registers, traps, Sv39, memory protection; this is the machine and not
    code of the repository), Lowlevel (entry.S, start.c, swtch.S,
    trampoline.S, kernelvec.S, the inline assembly of riscv.h, plic.c,
    [kvminithart]), HartSpec (blocks of loads and stores, translation through
    the tables of Vm), TrapSpec, LowSpec, TimerSpec and LowExample.

    User programs: Ulib (the routines of ulib.c on memory), Umalloc and
    UmallocSpec (umalloc.c), Uprog (programs as trees of system calls, and
    what the calls do to processes, descriptors and pipes), Uprintf
    (user/printf.c), Primes and PrimesSpec (primes.c), Upgms and UpgmsSpec
    (find.c, pingpong.c, ls.c, cat.c, wc.c, echo.c, init.c and other small
    programs), Sh and ShSpec (the parser of sh.c), ShRun and ShRunSpec
    ([runcmd], [getcmd], [main] of sh.c), Grep (grep.c).

    ** What the theorems show

    - Crashes: a transaction is atomic and durable wherever the machine
      stops, in recovery as well ([transaction_atomic], [recovery_correct]).
    - The buffer cache and the disk driver refine a disk of atomic blocks
      ([bcache_transparent], [virtio_refines_disk_rw]), and no completion is
      missed ([virtio_no_lost_completion]).
    - Locks and sleeping: mutual exclusion, no lost wakeups
      ([spinlock_mutual_exclusion], [no_lost_wakeup]).
    - Crossing between user and kernel: a process comes back to what the
      trapframe says, and whatever it does in user mode the kernel gets
      control with all its state saved ([trap_cycle]); interrupts in the
      kernel are invisible to it but for the hart number
      ([kernelvec_transparent]); [swtch] resumes where it stopped
      ([swtch_resumes]); booting and the timer ([timer_interrupts]).
    - Memory: the page allocator refines a list of free pages
      ([kalloc_refines_spec]); the kernel's table has exactly its mappings
      ([kvmmake_correct]); address spaces are created, copied and freed
      without losing, sharing or leaking a page ([proc_pagetable_correct],
      [uvmcopy_correct], [proc_freepagetable_correct]; when [uvmcopy] fails
      the page-table pages it added stay in the child's table, which [fork]
      frees); [copyout] and [copyin] agree ([copyout_copyin]).
    - The file system: reading, writing, lookup, linking, freeing and path
      names against the bytes and directories on disk ([readi_correct],
      [writei_correct], [dirlink_correct], [iput_last], [namex_correct]),
      and mkfs makes such a disk ([mkfs_correct], [mkfs_kernel_reads]).
    - The kernel's calls: reference counts of open files through all system
      calls ([file_refs_invariant]), [exec] as all or nothing, for memory, page
      tables, trap frame, processes, files, inode references and free pages
      alike ([exec_all_or_nothing]), pipes as queues ([pipewrite_correct],
      [piperead_correct]), the console and [printf] ([consoleintr_correct],
      [consoleread_correct], [printf_correct]).
    - User programs: the allocator ([heap_refines]), the shell's parser
      ([parsecmd_terminates], [parsecmd_roundtrip]), the descriptors it gives
      to each program of a command, which pipe, which file and in which mode
      ([shell_descriptors]),
      [primes_correct], [find_correct], [pingpong_runs], [match_correct],
      [grep_correct].

    ** Bounds and fuel

    A loop with a bound in the code has that bound as its fuel: the pages of a
    range plus one for vm.c, [NBUF] plus one for the lists of bio.c, the
    bytes, blocks, entries or path elements left for fs.c, the bytes asked
    for in pipes and the console.  The theorems say [Done], [Panic] or
    [Sleep], so [Diverge] is excluded where they apply.  Waiting for the
    UART is bounded by the list of values its status register will return.
    Sv39 has three levels, so [freewalk] recurses to depth 3.  The shell's
    parser has the length of the line, and it is proved to be enough for
    every line.  [malloc] follows the free list for at most the number of
    blocks the memory can hold.  [primes] may recurse 100 deep and needs 11;
    it ends after at most 2550 system calls.  [find] has a tree of height at
    most 12, beyond which its descriptors run out.  [kvmmake] needs at most
    72 pages for the table and 64 for the stacks.

    ** Parameters

    What the linker, the boot loader or the hardware decides is a class:
    [Ctx] (the hart and the process that run), [Image], [Syms] and [Lsyms]
    (addresses of symbols), [Frame] and [ExecFrame] (addresses of local
    variables), [Devs] (the device switch), [Uproc] and [Uenv] (what a user
    process finds outside).  Hypotheses on them are those of the linker
    script and the memory layout.

    ** Not modelled

    - kernel/main.c is the sequence of initialisation calls, which are
      modelled one by one; [kvminit] stores the result of [kvmmake].
    - user/initcode.S: an [exec] call that the kernel holds as bytes.
    - user/xargs.c writes through an uninitialised pointer: no run with
      arguments has a defined result.
    - user/usertests.c, grind.c, forktest.c and stressfs.c are tests: long,
      partly random sequences of calls, with faults on purpose.
    - kernel/ramdisk.c is not built, and refers to fields that do not exist.
    - [main] of user/grep.c opens the files it is given; [_main] of ulib.c
      calls [exit].
    - The stubs usys.pl generates, the linker scripts, headers that only
      declare.  The calls of Uprog are a process's view of the kernel's; that
      the kernel's functions of Sysfile and Proc implement that view is not
      proved.  In that view [fork] always has room for one more process.
    - Counts without a bound in the code are not cut to their width: the depth
      of [push_off] and the references of an inode.  Negating the least [int],
      which C leaves undefined, wraps around.
    - The critical sections of the disk driver are single steps, also for the
      device; [start] is run without the general registers that its compiled
      code uses.
    - Hardware: memory is sequentially consistent; SUM and MXR are zero, as
      xv6 leaves them; accessed and dirty bits of page table entries are not
      looked at; instruction fetch is checked for the pages of the straight
      line code that runs; floating point and counters are left out. *)

From Stdlib Require Export ZArith Lia.
From stdpp Require Export base functions strings option gmap.
From stdpp Require Export list.

#[global] Open Scope Z_scope.
#[global] Set Default Goal Selector "!".

Create HintDb xv6.

(** ** Outcomes of kernel code

    A kernel function run by one thread either returns, calls [panic],
    goes to sleep on a channel (the run modelled here ends at that point, in
    the state the thread left behind), runs into behaviour C does not define
    (an array index out of range, a wild pointer), or never leaves a loop. *)

Definition chan : Type := string * Z.

Inductive outcome (S A : Type) : Type :=
| Done (a : A) (s : S)
| Panic (msg : string)
| Sleep (c : chan) (s : S)
| Undef
| Diverge.
Arguments Done {S A} a s.
Arguments Panic {S A} msg.
Arguments Sleep {S A} c s.
Arguments Undef {S A}.
Arguments Diverge {S A}.

Definition M (S A : Type) : Type := S -> outcome S A.

Definition ret {S A} (a : A) : M S A := fun s => Done a s.
Definition bind {S A B} (m : M S A) (k : A -> M S B) : M S B :=
  fun s => match m s with
           | Done a s' => k a s'
           | Panic msg => Panic msg
           | Sleep c s' => Sleep c s'
           | Undef => Undef
           | Diverge => Diverge
           end.
Definition panic {S A} (msg : string) : M S A := fun _ => Panic msg.
Definition undef {S A} : M S A := fun _ => Undef.
Definition diverge {S A} : M S A := fun _ => Diverge.
Definition gets {S A} (f : S -> A) : M S A := fun s => Done (f s) s.
Definition modify {S} (f : S -> S) : M S unit := fun s => Done tt (f s).
Definition sleep_on {S A} (c : chan) : M S A := fun s => Sleep c s.

Declare Scope xv6_scope.
Delimit Scope xv6_scope with xv6.
#[global] Open Scope xv6_scope.

Notation "x '<-!' m ;; k" := (bind m (fun x => k))
  (at level 100, m at next level, right associativity) : xv6_scope.
Notation "m ;;; k" := (bind m (fun _ => k))
  (at level 100, right associativity) : xv6_scope.

(** [if(c) panic(msg);] *)
Definition panic_if {S} (c : bool) (msg : string) : M S unit :=
  if c then panic msg else ret tt.
(** [if(c) m;] *)
Definition when {S} (c : bool) (m : M S unit) : M S unit :=
  if c then m else ret tt.

Lemma bind_Done {S A B} (m : M S A) (k : A -> M S B) s a s' :
  m s = Done a s' -> bind m k s = k a s'.
Proof. unfold bind. now intros ->. Qed.

Lemma bind_Done_inv {S A B} (m : M S A) (k : A -> M S B) s b s' :
  bind m k s = Done b s' -> exists a s1, m s = Done a s1 /\ k a s1 = Done b s'.
Proof. unfold bind. destruct (m s); naive_solver. Qed.

Lemma bind_assoc {S A B C} (m : M S A) (f : A -> M S B) (g : B -> M S C) s :
  bind (bind m f) g s = bind m (fun a => bind (f a) g) s.
Proof. unfold bind. now destruct (m s). Qed.

(** ** Lenses: a component's state inside the state of its clients *)

Record lens (S T : Type) := Lens { lget : S -> T; lset : T -> S -> S }.
Arguments Lens {S T} _ _.
Arguments lget {S T} _ _.
Arguments lset {S T} _ _ _.

Class LensLaws {S T} (l : lens S T) : Prop := {
  lget_lset : forall t s, lget l (lset l t s) = t;
  lset_lget : forall s, lset l (lget l s) s = s;
  lset_lset : forall t t' s, lset l t (lset l t' s) = lset l t s
}.

Definition lift {S T A} (l : lens S T) (m : M T A) : M S A :=
  fun s => match m (lget l s) with
           | Done a t => Done a (lset l t s)
           | Panic msg => Panic msg
           | Sleep c t => Sleep c (lset l t s)
           | Undef => Undef
           | Diverge => Diverge
           end.

Lemma lift_Done {S T A} (l : lens S T) (m : M T A) s a t :
  m (lget l s) = Done a t -> lift l m s = Done a (lset l t s).
Proof. unfold lift. now intros ->. Qed.

Lemma lift_Done_inv {S T A} (l : lens S T) (m : M T A) s a s' :
  lift l m s = Done a s' -> exists t, m (lget l s) = Done a t /\ s' = lset l t s.
Proof. unfold lift. destruct (m (lget l s)); naive_solver. Qed.

(** ** Machine integers: [int], [uint], [uint64] ... of kernel/types.h *)

Definition u8 (x : Z) : Z := x mod 2 ^ 8.
Definition u16 (x : Z) : Z := x mod 2 ^ 16.
Definition u32 (x : Z) : Z := x mod 2 ^ 32.
Definition u64 (x : Z) : Z := x mod 2 ^ 64.
Definition i16 (x : Z) : Z := (x + 2 ^ 15) mod 2 ^ 16 - 2 ^ 15.
Definition i32 (x : Z) : Z := (x + 2 ^ 31) mod 2 ^ 32 - 2 ^ 31.

Lemma u64_small x : 0 <= x < 2 ^ 64 -> u64 x = x.
Proof. intros. now apply Z.mod_small. Qed.
Lemma u32_small x : 0 <= x < 2 ^ 32 -> u32 x = x.
Proof. intros. now apply Z.mod_small. Qed.
Lemma u16_small x : 0 <= x < 2 ^ 16 -> u16 x = x.
Proof. intros. now apply Z.mod_small. Qed.
Lemma u8_small x : 0 <= x < 2 ^ 8 -> u8 x = x.
Proof. intros. now apply Z.mod_small. Qed.
Lemma u64_range x : 0 <= u64 x < 2 ^ 64.
Proof. now apply Z.mod_pos_bound. Qed.
Lemma u32_range x : 0 <= u32 x < 2 ^ 32.
Proof. now apply Z.mod_pos_bound. Qed.
Lemma u8_range x : 0 <= u8 x < 2 ^ 8.
Proof. now apply Z.mod_pos_bound. Qed.
Lemma i32_small x : - 2 ^ 31 <= x < 2 ^ 31 -> i32 x = x.
Proof. intros. unfold i32. rewrite Z.mod_small; lia. Qed.
Lemma i32_range x : - 2 ^ 31 <= i32 x < 2 ^ 31.
Proof. unfold i32. pose proof (Z.mod_pos_bound (x + 2 ^ 31) (2 ^ 32)). lia. Qed.

Lemma lor_bound n a b :
  0 <= n -> 0 <= a < 2 ^ n -> 0 <= b < 2 ^ n -> 0 <= Z.lor a b < 2 ^ n.
Proof.
  intros Hn Ha Hb. assert (H0 : 0 <= Z.lor a b) by (apply Z.lor_nonneg; lia).
  split; [done|]. destruct (decide (Z.lor a b = 0)) as [->|Hne]; [lia|].
  apply Z.log2_lt_pow2; [lia|]. rewrite Z.log2_lor by lia. apply Z.max_lub_lt.
  - destruct (decide (a = 0)) as [->|]; [|apply Z.log2_lt_pow2; lia].
    destruct (decide (n = 0)) as [->|]; [|simpl; lia].
    assert (b = 0) as -> by (simpl in *; lia). done.
  - destruct (decide (b = 0)) as [->|]; [|apply Z.log2_lt_pow2; lia].
    destruct (decide (n = 0)) as [->|]; [|simpl; lia].
    assert (a = 0) as -> by (simpl in *; lia). done.
Qed.

#[export] Hint Rewrite u64_small u32_small u16_small u8_small using lia : xv6.

(** ** Loops *)

(** [for(x in l) f(x);] *)
Fixpoint for_each {S A} (l : list A) (f : A -> M S unit) : M S unit :=
  match l with
  | [] => ret tt
  | x :: l' => f x ;;; for_each l' f
  end.

(** [0, 1, ..., n-1] *)
Definition upto (n : Z) : list Z := Z.of_nat <$> seq 0 (Z.to_nat n).

Lemma elem_upto n i : i ∈ upto n <-> 0 <= i < n.
Proof.
  unfold upto. rewrite list_elem_of_fmap. split.
  - intros (j & -> & Hj). apply elem_of_seq in Hj. lia.
  - intros Hi. exists (Z.to_nat i). rewrite elem_of_seq. lia.
Qed.

Lemma NoDup_upto n : NoDup (upto n).
Proof. unfold upto. apply NoDup_fmap; [intros ? ? ?; lia|]. apply NoDup_seq. Qed.

Lemma for_each_app {S A} (l1 l2 : list A) (f : A -> M S unit) s :
  for_each (l1 ++ l2) f s = (for_each l1 f ;;; for_each l2 f) s.
Proof.
  revert s. induction l1 as [|x l1 IH]; intros s; [done|].
  simpl. rewrite bind_assoc. unfold bind at 1 2. destruct (f x s); auto.
Qed.

Lemma upto_S n : upto (Z.of_nat (S n)) = upto (Z.of_nat n) ++ [Z.of_nat n].
Proof.
  unfold upto. rewrite !Nat2Z.id, seq_S, fmap_app. reflexivity.
Qed.

Lemma length_upto n : length (upto n) = Z.to_nat n.
Proof. unfold upto. by rewrite length_fmap, length_seq. Qed.

Lemma upto_lookup n k : Z.of_nat k < n -> upto n !! k = Some (Z.of_nat k).
Proof. intros Hk. unfold upto. rewrite list_lookup_fmap, lookup_seq_lt by lia. done. Qed.

Lemma upto_snoc n : 0 <= n -> upto (n + 1) = upto n ++ [n].
Proof.
  intros Hn. rewrite <- (Z2Nat.id n) at 1 by done. change 1 with (Z.of_nat 1).
  rewrite <- Nat2Z.inj_add, Nat.add_1_r, upto_S, Z2Nat.id by done. done.
Qed.

Lemma upto_cons n : 0 <= n -> upto (n + 1) = 0 :: (Z.succ <$> upto n).
Proof.
  intros Hn. unfold upto. rewrite Z2Nat.inj_add, Nat.add_1_r by lia. cbn [seq fmap list_fmap]. f_equal.
  rewrite <- fmap_S_seq, <- !list_fmap_compose. apply list_fmap_ext. intros. simpl. lia.
Qed.

(** A counting loop whose body keeps an invariant. *)
Lemma for_upto {S} (n : nat) (f : Z -> M S unit) (I : nat -> S -> Prop) s :
  I O s ->
  (forall k s, (k < n)%nat -> I k s -> exists s', f (Z.of_nat k) s = Done tt s' /\ I (k + 1)%nat s') ->
  exists s', for_each (upto (Z.of_nat n)) f s = Done tt s' /\ I n s'.
Proof.
  intros H0 Hstep. induction n as [|n IH]; [by exists s|].
  destruct IH as (s1 & H1 & I1); [intros k s1 Hk; apply Hstep; lia|].
  destruct (Hstep n s1 ltac:(lia) I1) as (s2 & H2 & I2). exists s2.
  rewrite upto_S, for_each_app, (bind_Done _ _ _ _ _ H1). simpl. rewrite (bind_Done _ _ _ _ _ H2).
  split; [done|]. now rewrite Nat.add_1_r in I2.
Qed.

(** Split conjunctions that are visible as such, without unfolding. *)
Ltac conjs := repeat match goal with |- _ /\ _ => split end.

(** ** Weakest preconditions

    [wp m Q s]: run from [s], [m] returns (it does not panic, sleep, run into
    undefined behaviour or loop) and its result and final state satisfy [Q]. *)

Definition wp {S A} (m : M S A) (Q : A -> S -> Prop) (s : S) : Prop :=
  exists a s', m s = Done a s' /\ Q a s'.

Lemma wp_ret {S A} (a : A) (Q : A -> S -> Prop) s : Q a s -> wp (ret a) Q s.
Proof. intros H. by exists a, s. Qed.
Lemma wp_gets {S A} (f : S -> A) (Q : A -> S -> Prop) s : Q (f s) s -> wp (gets f) Q s.
Proof. intros H. by exists (f s), s. Qed.
Lemma wp_modify {S} (f : S -> S) (Q : unit -> S -> Prop) s : Q tt (f s) -> wp (modify f) Q s.
Proof. intros H. by exists tt, (f s). Qed.
Lemma wp_bind {S A B} (m : M S A) (k : A -> M S B) Q s :
  wp m (fun a => wp (k a) Q) s -> wp (bind m k) Q s.
Proof. intros (a & s1 & H1 & b & s2 & H2 & HQ). exists b, s2. now rewrite (bind_Done _ _ _ _ _ H1). Qed.
Lemma wp_mono {S A} (m : M S A) (P Q : A -> S -> Prop) s :
  wp m P s -> (forall a s', P a s' -> Q a s') -> wp m Q s.
Proof. intros (a & s' & H & HP) HQ. exists a, s'. auto. Qed.
Lemma wp_lift {S T A} (l : lens S T) (m : M T A) (Q : A -> S -> Prop) s :
  wp m (fun a t => Q a (lset l t s)) (lget l s) -> wp (lift l m) Q s.
Proof. intros (a & t & H & HQ). exists a, (lset l t s). split; [by apply lift_Done|done]. Qed.
Lemma wp_panic_if {S} (c : bool) msg (Q : unit -> S -> Prop) s :
  c = false -> Q tt s -> wp (panic_if c msg) Q s.
Proof. intros -> H. by apply wp_ret. Qed.
(** A value just assigned, whether or not a branch ran. *)
Lemma wp_when {S} (c : bool) (m : M S unit) (Q : unit -> S -> Prop) s :
  (c = true -> wp m Q s) -> (c = false -> Q tt s) -> wp (when c m) Q s.
Proof. destruct c; intros H1 H2; [by apply H1|]. apply wp_ret. auto. Qed.

(** A counting loop whose body keeps an invariant. *)
Lemma wp_upto {S} (I : Z -> S -> Prop) n (f : Z -> M S unit) (Q : unit -> S -> Prop) s :
  I 0 s -> (forall k s, 0 <= k < n -> I k s -> wp (f k) (fun _ => I (k + 1)) s) ->
  (forall s, I (Z.max 0 n) s -> Q tt s) -> wp (for_each (upto n) f) Q s.
Proof.
  intros H0 Hstep HQ.
  destruct (for_upto (Z.to_nat n) f (fun k => I (Z.of_nat k)) s H0) as (s' & Hrun & Hs').
  - intros k s1 Hk Hk1. destruct (Hstep (Z.of_nat k) s1 ltac:(lia) Hk1) as ([] & s2 & Hf & H2).
    exists s2. split; [done|]. now replace (Z.of_nat (k + 1)) with (Z.of_nat k + 1) by lia.
  - exists tt, s'. split.
    + rewrite <- Hrun. unfold upto. now rewrite Nat2Z.id.
    + apply HQ. now replace (Z.max 0 n) with (Z.of_nat (Z.to_nat n)) by lia.
Qed.

(** Go through the binds and the reads of the state up to the next call. *)
Ltac wp_go :=
  repeat first
    [ apply wp_bind | apply wp_gets | apply wp_modify | apply wp_ret
    | apply wp_panic_if; [first [reflexivity | lia | done]|] ].
(** Use the specification [H] of the call in front. *)
Tactic Notation "wp_use" uconstr(H) := eapply wp_mono; [eapply H|].
