(* ===== verification/Memory.v ===== *)
(** * Byte-addressed memory, and the routines of kernel/string.c over it

    A memory maps 64-bit addresses to bytes; a byte never written reads as 0.
    [mget]/[mset] are the load and store of an [unsigned char] ([char] is
    unsigned in the RISC-V ABI), [ld64]/[st64] those of a little-endian
    [uint64].  Two memories are [≈] when every load agrees. *)

From S2P Require Import Prelude.

Notation mem := (gmap Z Z).

Definition mget (m : mem) (a : Z) : Z := u8 (default 0 (m !! a)).
Definition mset (m : mem) (a v : Z) : mem := <[a := u8 v]> m.

Fixpoint ldn (n : nat) (m : mem) (a : Z) : Z :=
  match n with
  | O => 0
  | S n' => mget m a + 256 * ldn n' m (a + 1)
  end.
Fixpoint stn (n : nat) (m : mem) (a v : Z) : mem :=
  match n with
  | O => m
  | S n' => stn n' (mset m a v) (a + 1) (v / 256)
  end.
Notation ld64 := (ldn 8).
Notation st64 := (stn 8).

Fixpoint read_bytes (m : mem) (a : Z) (n : nat) : list Z :=
  match n with
  | O => []
  | S n' => mget m a :: read_bytes m (a + 1) n'
  end.
Fixpoint write_bytes (m : mem) (a : Z) (bs : list Z) : mem :=
  match bs with
  | [] => m
  | b :: bs' => write_bytes (mset m a b) (a + 1) bs'
  end.

(** ** kernel/string.c *)

(** [for(i = 0; i < n; i++) cdst[i] = c;] *)
Fixpoint memset_loop (m : mem) (cdst c : Z) (n : nat) : mem :=
  match n with
  | O => m
  | S n' => memset_loop (mset m cdst c) (cdst + 1) c n'
  end.
Definition memset (m : mem) (dst c n : Z) : mem :=
  memset_loop m dst c (Z.to_nat n).

Fixpoint memcmp_loop (m : mem) (s1 s2 : Z) (n : nat) : Z :=
  match n with
  | O => 0
  | S n' => if negb (mget m s1 =? mget m s2) then mget m s1 - mget m s2
            else memcmp_loop m (s1 + 1) (s2 + 1) n'
  end.
Definition memcmp (m : mem) (v1 v2 n : Z) : Z :=
  memcmp_loop m v1 v2 (Z.to_nat n).

(** [while(n-- > 0) *--d = *--s;] *)
Fixpoint memmove_down (m : mem) (d s : Z) (n : nat) : mem :=
  match n with
  | O => m
  | S n' => memmove_down (mset m (d - 1) (mget m (s - 1))) (d - 1) (s - 1) n'
  end.
(** [while(n-- > 0) *d++ = *s++;] *)
Fixpoint memmove_up (m : mem) (d s : Z) (n : nat) : mem :=
  match n with
  | O => m
  | S n' => memmove_up (mset m d (mget m s)) (d + 1) (s + 1) n'
  end.
Definition memmove (m : mem) (dst src n : Z) : mem :=
  if n =? 0 then m
  else if (src <? dst) && (dst <? src + n)
       then memmove_down m (dst + n) (src + n) (Z.to_nat n)
       else memmove_up m dst src (Z.to_nat n).
Definition memcpy (m : mem) (dst src n : Z) : mem := memmove m dst src n.

Fixpoint strncmp_loop (m : mem) (p q : Z) (n : nat) : Z :=
  match n with
  | O => 0
  | S n' => if negb (mget m p =? 0) && (mget m p =? mget m q)
            then strncmp_loop m (p + 1) (q + 1) n'
            else mget m p - mget m q
  end.
Definition strncmp (m : mem) (p q n : Z) : Z :=
  strncmp_loop m p q (Z.to_nat n).

(** [while(n-- > 0) *s++ = 0;] *)
Fixpoint strncpy_pad (m : mem) (s : Z) (n : nat) : mem :=
  match n with
  | O => m
  | S n' => strncpy_pad (mset m s 0) (s + 1) n'
  end.
(** [while(n-- > 0 && ( *s++ = *t++) != 0);] followed by the padding loop. *)
Fixpoint strncpy_loop (m : mem) (s t : Z) (n : nat) : mem :=
  match n with
  | O => m
  | S n' =>
      let m' := mset m s (mget m t) in
      if mget m t =? 0 then strncpy_pad m' (s + 1) n'
      else strncpy_loop m' (s + 1) (t + 1) n'
  end.
Definition strncpy (m : mem) (s t n : Z) : mem :=
  strncpy_loop m s t (Z.to_nat n).

(** [while(--n > 0 && ( *s++ = *t++) != 0); *s = 0;], [n] being the value
    after the first decrement. *)
Fixpoint safestrcpy_loop (m : mem) (s t : Z) (n : nat) : mem :=
  match n with
  | O => mset m s 0
  | S n' =>
      let m' := mset m s (mget m t) in
      if mget m t =? 0 then mset m' (s + 1) 0
      else safestrcpy_loop m' (s + 1) (t + 1) n'
  end.
Definition safestrcpy (m : mem) (s t n : Z) : mem :=
  if n <=? 0 then m else safestrcpy_loop m s t (Z.to_nat (n - 1)).

(** [strlen] looks for the first NUL; [fuel] bounds the search and the
    function diverges (reads on for ever) past it. *)
Fixpoint strlen_loop (m : mem) (s n : Z) (fuel : nat) : option Z :=
  match fuel with
  | O => None
  | S f => if mget m (s + n) =? 0 then Some n else strlen_loop m s (n + 1) f
  end.
Definition strlen (fuel : nat) (m : mem) (s : Z) : option Z :=
  strlen_loop m s 0 fuel.

(** ** Memory extensionality *)

#[global] Instance mem_equiv : Equiv mem := fun m1 m2 => forall a, mget m1 a = mget m2 a.

#[global] Instance mem_equivalence : Equivalence (≡@{mem}).
Proof.
  split; unfold equiv, mem_equiv.
  - now intros m a.
  - intros m1 m2 H a. now rewrite H.
  - intros m1 m2 m3 H1 H2 a. now rewrite H1, H2.
Qed.

Lemma mget_range m a : 0 <= mget m a < 256.
Proof. apply u8_range. Qed.

Lemma mget_mset m a v x : mget (mset m a v) x = if x =? a then u8 v else mget m x.
Proof.
  unfold mget, mset. destruct (Z.eqb_spec x a) as [->|Hne].
  - rewrite lookup_insert_eq. unfold u8; simpl. now rewrite Z.mod_mod by lia.
  - now rewrite lookup_insert_ne by congruence.
Qed.

Lemma mget_mset_eq m a v : mget (mset m a v) a = u8 v.
Proof. now rewrite mget_mset, Z.eqb_refl. Qed.
Lemma mget_mset_ne m a v x : x <> a -> mget (mset m a v) x = mget m x.
Proof. intros. rewrite mget_mset. now destruct (Z.eqb_spec x a). Qed.
Lemma u8_mget m a : u8 (mget m a) = mget m a.
Proof. apply u8_small, mget_range. Qed.
#[export] Hint Rewrite mget_mset_eq u8_mget : xv6.
#[export] Hint Resolve mget_range : xv6.

#[global] Instance mget_proper : Proper ((≡) ==> eq ==> eq) mget.
Proof. intros m1 m2 H a ? <-. apply H. Qed.
#[global] Instance mset_proper : Proper ((≡) ==> eq ==> eq ==> (≡)) mset.
Proof. intros m1 m2 H a ? <- v ? <- x. rewrite !mget_mset. now rewrite (H x). Qed.

Lemma ldn_ext n m1 m2 a :
  (forall i, a <= i < a + Z.of_nat n -> mget m1 i = mget m2 i) -> ldn n m1 a = ldn n m2 a.
Proof.
  revert a. induction n as [|n IH]; intros a H; simpl; [done|].
  rewrite (H a) by lia. rewrite (IH (a + 1)); [done|]. intros. apply H. lia.
Qed.

#[global] Instance ldn_proper n : Proper ((≡) ==> eq ==> eq) (ldn n).
Proof. intros m1 m2 H a ? <-. apply ldn_ext. intros. apply H. Qed.

Lemma ldn_range n m a : 0 <= ldn n m a < 256 ^ Z.of_nat n.
Proof.
  revert a. induction n as [|n IH]; intros a; simpl ldn; [simpl; lia|].
  specialize (IH (a + 1)). pose proof (mget_range m a).
  rewrite Nat2Z.inj_succ, Z.pow_succ_r by lia. lia.
Qed.
Lemma ld64_range m a : 0 <= ld64 m a < 2 ^ 64.
Proof. exact (ldn_range 8 m a). Qed.
#[export] Hint Resolve ld64_range : xv6.

Lemma mget_stn_ne n m a v x :
  ~ (a <= x < a + Z.of_nat n) -> mget (stn n m a v) x = mget m x.
Proof.
  revert m a v. induction n as [|n IH]; intros m a v Hx; simpl; [done|].
  rewrite IH by lia. apply mget_mset_ne. lia.
Qed.

Lemma ldn_stn_eq n m a v : ldn n (stn n m a v) a = v mod 256 ^ Z.of_nat n.
Proof.
  revert m a v. induction n as [|n IH]; intros m a v; simpl ldn; simpl stn.
  - now rewrite Z.mod_1_r.
  - rewrite IH, mget_stn_ne, mget_mset_eq by lia.
    rewrite Nat2Z.inj_succ, Z.pow_succ_r by lia.
    rewrite Z.rem_mul_r by (try apply Z.pow_pos_nonneg; lia). reflexivity.
Qed.

Lemma ldn_stn_ne k n m a b v :
  b + Z.of_nat k <= a \/ a + Z.of_nat n <= b -> ldn k (stn n m a v) b = ldn k m b.
Proof. intros H. apply ldn_ext. intros i Hi. apply mget_stn_ne. lia. Qed.

Lemma ld64_st64_eq m a v : ld64 (st64 m a v) a = u64 v.
Proof. apply ldn_stn_eq. Qed.
Lemma ld64_st64_ne m a b v :
  b + 8 <= a \/ a + 8 <= b -> ld64 (st64 m a v) b = ld64 m b.
Proof. intros. apply ldn_stn_ne. lia. Qed.

(** ** Byte ranges *)

Lemma length_read_bytes m a n : length (read_bytes m a n) = n.
Proof. revert a. induction n; intros; simpl; auto. Qed.

Lemma lookup_read_bytes m a n i :
  (i < n)%nat -> read_bytes m a n !! i = Some (mget m (a + Z.of_nat i)).
Proof.
  revert a i. induction n as [|n IH]; intros a i Hi; [lia|].
  destruct i as [|i]; simpl.
  - now rewrite Z.add_0_r.
  - rewrite IH by lia. do 2 f_equal. lia.
Qed.

Lemma read_bytes_ext m1 m2 a n :
  (forall i, a <= i < a + Z.of_nat n -> mget m1 i = mget m2 i) ->
  read_bytes m1 a n = read_bytes m2 a n.
Proof.
  revert a. induction n as [|n IH]; intros a H; simpl; [done|].
  rewrite (H a) by lia. f_equal. apply IH. intros. apply H. lia.
Qed.

#[global] Instance read_bytes_proper : Proper ((≡) ==> eq ==> eq ==> eq) read_bytes.
Proof. intros m1 m2 H a ? <- n ? <-. apply read_bytes_ext. intros. apply H. Qed.

Lemma read_bytes_app m a n1 n2 :
  read_bytes m a (n1 + n2) = read_bytes m a n1 ++ read_bytes m (a + Z.of_nat n1) n2.
Proof.
  revert a. induction n1 as [|n1 IH]; intros a; simpl.
  - now rewrite Z.add_0_r.
  - rewrite IH. do 3 f_equal. lia.
Qed.

Lemma write_bytes_app m a bs1 bs2 :
  write_bytes m a (bs1 ++ bs2) = write_bytes (write_bytes m a bs1) (a + Z.of_nat (length bs1)) bs2.
Proof.
  revert m a. induction bs1 as [|b bs1 IH]; intros m a; simpl; [f_equal; lia|]. rewrite IH. f_equal. lia.
Qed.

Lemma mget_write_bytes_ne m a bs x :
  ~ (a <= x < a + Z.of_nat (length bs)) -> mget (write_bytes m a bs) x = mget m x.
Proof.
  revert m a. induction bs as [|b bs IH]; intros m a Hx; simpl in *; [done|].
  rewrite IH by lia. apply mget_mset_ne. lia.
Qed.

(** [bs] laid over the byte [old] at address [x], from [base] on. *)
Definition overlay (bs : list Z) (base x old : Z) : Z :=
  match (if base <=? x then bs !! Z.to_nat (x - base) else None) with
  | Some b => u8 b
  | None => old
  end.

Lemma overlay_app bs1 bs2 base x old :
  overlay (bs1 ++ bs2) base x old =
  overlay bs2 (base + Z.of_nat (length bs1)) x (overlay bs1 base x old).
Proof.
  unfold overlay. destruct (Z.leb_spec base x), (Z.leb_spec (base + Z.of_nat (length bs1)) x);
    try lia; try done.
  - rewrite lookup_app_r by lia. rewrite (lookup_ge_None_2 bs1) by lia.
    replace (Z.to_nat (x - base) - length bs1)%nat
      with (Z.to_nat (x - (base + Z.of_nat (length bs1)))) by lia. done.
  - now rewrite lookup_app_l by lia.
Qed.

Lemma overlay_out bs base x old :
  ~ (base <= x < base + Z.of_nat (length bs)) -> overlay bs base x old = old.
Proof.
  intros H. unfold overlay. destruct (Z.leb_spec base x); [|done].
  now rewrite lookup_ge_None_2 by lia.
Qed.

Lemma overlay_shift bs base x d old : overlay bs (base + d) (x + d) old = overlay bs base x old.
Proof.
  unfold overlay. replace (x + d - (base + d)) with (x - base) by lia.
  now destruct (Z.leb_spec (base + d) (x + d)), (Z.leb_spec base x); try lia.
Qed.

Lemma mget_write_bytes m a bs x : mget (write_bytes m a bs) x = overlay bs a x (mget m x).
Proof.
  revert m a. induction bs as [|b bs IH]; intros m a; simpl.
  - unfold overlay. now destruct (a <=? x).
  - rewrite IH, mget_mset. change (b :: bs) with ([b] ++ bs). rewrite overlay_app. f_equal.
    unfold overlay. destruct (Z.eqb_spec x a) as [->|]; [now rewrite Z.leb_refl, Z.sub_diag|].
    destruct (Z.leb_spec a x); [|done]. now rewrite lookup_ge_None_2 by (simpl; lia).
Qed.

Lemma read_write_bytes m a bs :
  Forall (fun b => 0 <= b < 256) bs ->
  read_bytes (write_bytes m a bs) a (length bs) = bs.
Proof.
  revert m a. induction bs as [|b bs IH]; intros m a Hb; simpl; [done|].
  apply Forall_cons_1 in Hb as [Hb Hbs].
  rewrite mget_write_bytes_ne, mget_mset_eq, u8_small by lia.
  f_equal. now apply IH.
Qed.

Lemma read_write_bytes_ne m a bs b n :
  b + Z.of_nat n <= a \/ a + Z.of_nat (length bs) <= b ->
  read_bytes (write_bytes m a bs) b n = read_bytes m b n.
Proof. intros H. apply read_bytes_ext. intros i Hi. apply mget_write_bytes_ne. lia. Qed.

Lemma ldn_write_bytes_ne k m a bs b :
  b + Z.of_nat k <= a \/ a + Z.of_nat (length bs) <= b ->
  ldn k (write_bytes m a bs) b = ldn k m b.
Proof. intros H. apply ldn_ext. intros i Hi. apply mget_write_bytes_ne. lia. Qed.

(** ** Correctness of kernel/string.c *)

Lemma mget_memset m dst c n x :
  mget (memset m dst c n) x =
  if (dst <=? x) && (x <? dst + n) then u8 c else mget m x.
Proof.
  unfold memset.
  assert (Hl : forall k m dst, mget (memset_loop m dst c k) x =
    if (dst <=? x) && (x <? dst + Z.of_nat k) then u8 c else mget m x).
  { clear. induction k as [|k IH]; intros m dst; simpl memset_loop.
    - destruct (Z.leb_spec dst x), (Z.ltb_spec x (dst + Z.of_nat 0)); simpl; lia || done.
    - rewrite IH, mget_mset.
      destruct (Z.leb_spec (dst + 1) x), (Z.leb_spec dst x), (Z.eqb_spec x dst),
        (Z.ltb_spec x (dst + 1 + Z.of_nat k)), (Z.ltb_spec x (dst + Z.of_nat (S k)));
        simpl; lia || done. }
  rewrite Hl.
  destruct (Z.leb_spec dst x), (Z.ltb_spec x (dst + Z.of_nat (Z.to_nat n))),
    (Z.ltb_spec x (dst + n)); simpl; lia || done.
Qed.

Lemma mget_memset_in m dst c n x : dst <= x < dst + n -> mget (memset m dst c n) x = u8 c.
Proof.
  intros. rewrite mget_memset.
  destruct (Z.leb_spec dst x), (Z.ltb_spec x (dst + n)); simpl; lia || done.
Qed.
Lemma mget_memset_ne m dst c n x :
  ~ (dst <= x < dst + n) -> mget (memset m dst c n) x = mget m x.
Proof.
  intros. rewrite mget_memset.
  destruct (Z.leb_spec dst x), (Z.ltb_spec x (dst + n)); simpl; lia || done.
Qed.

Lemma ldn_memset_ne k m dst c n a :
  a + Z.of_nat k <= dst \/ dst + n <= a -> ldn k (memset m dst c n) a = ldn k m a.
Proof. intros H. apply ldn_ext. intros. apply mget_memset_ne. lia. Qed.

Lemma ld64_memset_0 m dst n a :
  dst <= a -> a + 8 <= dst + n -> ld64 (memset m dst 0 n) a = 0.
Proof.
  intros. simpl. rewrite !mget_memset_in by lia. reflexivity.
Qed.

Lemma mget_memmove_up n m d s x :
  d <= s \/ s + Z.of_nat n <= d ->
  mget (memmove_up m d s n) x =
  if (d <=? x) && (x <? d + Z.of_nat n) then mget m (s + (x - d)) else mget m x.
Proof.
  revert m d s. induction n as [|n IH]; intros m d s H; simpl memmove_up.
  - destruct (Z.leb_spec d x), (Z.ltb_spec x (d + Z.of_nat 0)); simpl; lia || done.
  - rewrite IH by lia. rewrite !mget_mset, u8_mget.
    destruct (Z.leb_spec (d + 1) x), (Z.leb_spec d x), (Z.eqb_spec x d),
      (Z.ltb_spec x (d + 1 + Z.of_nat n)), (Z.ltb_spec x (d + Z.of_nat (S n)));
      simpl; try lia; try done;
      destruct (Z.eqb_spec (s + 1 + (x - (d + 1))) d); lia || (f_equal; lia).
Qed.

Lemma mget_memmove_down n m d s x :
  s <= d ->
  mget (memmove_down m d s n) x =
  if (d - Z.of_nat n <=? x) && (x <? d) then mget m (s + (x - d)) else mget m x.
Proof.
  revert m d s. induction n as [|n IH]; intros m d s H; simpl memmove_down.
  - destruct (Z.leb_spec (d - Z.of_nat 0) x), (Z.ltb_spec x d); simpl; lia || done.
  - rewrite IH by lia. rewrite !mget_mset, u8_mget.
    destruct (Z.leb_spec (d - 1 - Z.of_nat n) x), (Z.leb_spec (d - Z.of_nat (S n)) x),
      (Z.eqb_spec x (d - 1)), (Z.ltb_spec x (d - 1)), (Z.ltb_spec x d);
      simpl; try lia; try done;
      destruct (Z.eqb_spec (s - 1 + (x - (d - 1))) (d - 1)); lia || (f_equal; lia).
Qed.

(** What [memmove] computes, byte by byte. *)
Lemma mget_memmove m dst src n x :
  0 <= n ->
  mget (memmove m dst src n) x =
  if (dst <=? x) && (x <? dst + n) then mget m (src + (x - dst)) else mget m x.
Proof.
  intros Hn. unfold memmove. destruct (Z.eqb_spec n 0) as [->|Hn0].
  - destruct (Z.leb_spec dst x), (Z.ltb_spec x (dst + 0)); simpl; lia || done.
  - destruct (Z.ltb_spec src dst); simpl; [destruct (Z.ltb_spec dst (src + n))|].
    + rewrite mget_memmove_down by lia. rewrite Z2Nat.id by lia.
      replace (dst + n - n) with dst by lia.
      replace (src + n + (x - (dst + n))) with (src + (x - dst)) by lia. done.
    + rewrite mget_memmove_up by lia. now rewrite Z2Nat.id by lia.
    + rewrite mget_memmove_up by lia. now rewrite Z2Nat.id by lia.
Qed.

Lemma mget_memmove_ne m dst src n x :
  0 <= n -> ~ (dst <= x < dst + n) -> mget (memmove m dst src n) x = mget m x.
Proof.
  intros. rewrite mget_memmove by lia.
  destruct (Z.leb_spec dst x), (Z.ltb_spec x (dst + n)); simpl; lia || done.
Qed.

Lemma ldn_memmove_ne k m dst src n a :
  0 <= n -> a + Z.of_nat k <= dst \/ dst + n <= a ->
  ldn k (memmove m dst src n) a = ldn k m a.
Proof. intros Hn H. apply ldn_ext. intros. apply mget_memmove_ne; lia. Qed.

Lemma read_bytes_memmove m dst src n :
  read_bytes (memmove m dst src (Z.of_nat n)) dst n = read_bytes m src n.
Proof.
  apply list_eq. intros i. destruct (decide (i < n)%nat) as [Hi|Hi].
  - rewrite !lookup_read_bytes by done. rewrite mget_memmove by lia.
    destruct (Z.leb_spec dst (dst + Z.of_nat i)), (Z.ltb_spec (dst + Z.of_nat i) (dst + Z.of_nat n));
      simpl; try lia. do 2 f_equal. lia.
  - rewrite !lookup_ge_None_2; rewrite ?length_read_bytes; lia || done.
Qed.

(** The C string at [a], as far as it goes within [n] bytes. *)
Fixpoint cstr (m : mem) (a : Z) (n : nat) : list Z :=
  match n with
  | O => []
  | S n' => if mget m a =? 0 then [] else mget m a :: cstr m (a + 1) n'
  end.

Lemma cstr_ext n m1 m2 a :
  (forall i, a <= i < a + Z.of_nat n -> mget m1 i = mget m2 i) -> cstr m1 a n = cstr m2 a n.
Proof.
  revert a. induction n as [|n IH]; intros a H; simpl; [done|].
  rewrite (H a) by lia. rewrite (IH (a + 1)); [done|]. intros. apply H. lia.
Qed.

Lemma length_cstr n m a : (length (cstr m a n) <= n)%nat.
Proof.
  revert a. induction n as [|n IH]; intros a; simpl; [lia|].
  specialize (IH (a + 1)). destruct (mget m a =? 0); simpl; lia.
Qed.

Lemma strncmp_loop_0 n m p q : strncmp_loop m p q n = 0 <-> cstr m p n = cstr m q n.
Proof.
  revert p q. induction n as [|n IH]; intros p q; simpl; [done|].
  destruct (Z.eqb_spec (mget m p) 0) as [Hp|Hp]; simpl.
  - rewrite Hp. destruct (Z.eqb_spec (mget m q) 0); split; try done; intros; lia.
  - destruct (Z.eqb_spec (mget m p) (mget m q)) as [He|He].
    + rewrite IH, <- He. destruct (Z.eqb_spec (mget m p) 0); [lia|].
      split; [now intros ->|]. intros Hx. now injection Hx.
    + destruct (Z.eqb_spec (mget m q) 0); split; intros Hx; try lia; try done.
      injection Hx. intros. lia.
Qed.

Lemma mget_strncpy_pad_ne n m s x :
  ~ (s <= x < s + Z.of_nat n) -> mget (strncpy_pad m s n) x = mget m x.
Proof.
  revert m s. induction n as [|n IH]; intros m s H; simpl; [done|].
  rewrite IH by lia. apply mget_mset_ne. lia.
Qed.

Lemma read_strncpy_pad n m s :
  read_bytes (strncpy_pad m s n) s n = replicate n 0.
Proof.
  revert m s. induction n as [|n IH]; intros m s; simpl; [done|].
  rewrite mget_strncpy_pad_ne by lia. rewrite mget_mset_eq. f_equal. apply IH.
Qed.

Lemma mget_strncpy_loop_ne n m s t x :
  ~ (s <= x < s + Z.of_nat n) -> mget (strncpy_loop m s t n) x = mget m x.
Proof.
  revert m s t. induction n as [|n IH]; intros m s t H; simpl; [done|].
  destruct (mget m t =? 0).
  - rewrite mget_strncpy_pad_ne by lia. apply mget_mset_ne. lia.
  - rewrite IH by lia. apply mget_mset_ne. lia.
Qed.

Lemma read_strncpy_loop n m s t :
  s + Z.of_nat n <= t \/ t + Z.of_nat n <= s ->
  read_bytes (strncpy_loop m s t n) s n =
  cstr m t n ++ replicate (n - length (cstr m t n)) 0.
Proof.
  revert m s t. induction n as [|n IH]; intros m s t H; simpl; [done|].
  destruct (Z.eqb_spec (mget m t) 0) as [Ht|Ht].
  - rewrite mget_strncpy_pad_ne, read_strncpy_pad by lia.
    rewrite mget_mset_eq, Ht. simpl. done.
  - rewrite mget_strncpy_loop_ne by lia. rewrite mget_mset_eq, u8_mget. simpl. f_equal.
    rewrite IH by lia.
    rewrite (cstr_ext n (mset m s (mget m t)) m (t + 1)); [done|].
    intros. apply mget_mset_ne. lia.
Qed.

Lemma mget_safestrcpy_loop_ne n m s t x :
  ~ (s <= x < s + Z.of_nat n + 1) -> mget (safestrcpy_loop m s t n) x = mget m x.
Proof.
  revert m s t. induction n as [|n IH]; intros m s t H; simpl.
  - apply mget_mset_ne. lia.
  - destruct (mget m t =? 0).
    + rewrite !mget_mset_ne by lia. done.
    + rewrite IH by lia. apply mget_mset_ne. lia.
Qed.

Lemma cstr_safestrcpy_loop n m s t :
  s + Z.of_nat n + 1 <= t \/ t + Z.of_nat n <= s ->
  cstr (safestrcpy_loop m s t n) s (S n) = cstr m t n.
Proof.
  revert m s t. induction n as [|n IH]; intros m s t H.
  - simpl. now rewrite mget_mset_eq.
  - simpl safestrcpy_loop. destruct (Z.eqb_spec (mget m t) 0) as [Ht|Ht].
    + simpl. rewrite (mget_mset_ne _ (s + 1)), mget_mset_eq, Ht by lia. simpl. done.
    + rewrite (eq_refl : cstr _ s (S (S n)) = if _ =? 0 then [] else _ :: cstr _ (s + 1) (S n)).
      rewrite mget_safestrcpy_loop_ne, mget_mset_eq, u8_mget by lia.
      rewrite IH by lia. simpl. destruct (Z.eqb_spec (mget m t) 0); [lia|]. f_equal.
      apply cstr_ext. intros. apply mget_mset_ne. lia.
Qed.

Lemma strlen_loop_spec fuel m s n :
  (length (cstr m (s + n) fuel) < fuel)%nat ->
  strlen_loop m s n fuel = Some (n + Z.of_nat (length (cstr m (s + n) fuel))).
Proof.
  revert n. induction fuel as [|fuel IH]; intros n H; [simpl in H; lia|].
  simpl in *. destruct (Z.eqb_spec (mget m (s + n)) 0) as [Hz|Hz].
  - simpl. f_equal. lia.
  - simpl in H. rewrite IH; replace (s + (n + 1)) with (s + n + 1) by lia; [|lia].
    f_equal. simpl length. lia.
Qed.

(** ** The contracts *)

(** [memmove] copies correctly whatever the overlap of source and
    destination: afterwards the destination holds the bytes the source held
    before the call, and no other byte of memory has changed. *)
Theorem memmove_correct (m : mem) (dst src : Z) (n : nat) :
  read_bytes (memmove m dst src (Z.of_nat n)) dst n = read_bytes m src n /\
  forall x, ~ (dst <= x < dst + Z.of_nat n) ->
    mget (memmove m dst src (Z.of_nat n)) x = mget m x.
Proof.
  split; [apply read_bytes_memmove|]. intros x Hx. apply mget_memmove_ne; lia.
Qed.

(** The string copies of string.c, for buffers that do not overlap:
    [strncpy] leaves the source string padded with NULs to exactly [n] bytes;
    [safestrcpy] leaves the source truncated to [n-1] bytes and always
    NUL-terminated within [n]; [strncmp] returns 0 exactly on strings that
    agree up to [n] bytes; none of them writes outside its destination. *)
Theorem string_copy_correct (m : mem) (s t : Z) (n : nat) :
  s + Z.of_nat n <= t \/ t + Z.of_nat n <= s ->
  (0 < n)%nat ->
  read_bytes (strncpy m s t (Z.of_nat n)) s n =
    cstr m t n ++ replicate (n - length (cstr m t n)) 0 /\
  cstr (safestrcpy m s t (Z.of_nat n)) s n = cstr m t (n - 1) /\
  (length (cstr (safestrcpy m s t (Z.of_nat n)) s n) < n)%nat /\
  (strncmp m s t (Z.of_nat n) = 0 <-> cstr m s n = cstr m t n) /\
  (forall x, ~ (s <= x < s + Z.of_nat n) ->
     mget (strncpy m s t (Z.of_nat n)) x = mget m x /\
     mget (safestrcpy m s t (Z.of_nat n)) x = mget m x).
Proof.
  intros H Hn. unfold strncpy, safestrcpy, strncmp.
  rewrite !Nat2Z.id. destruct (Z.leb_spec (Z.of_nat n) 0); [lia|].
  assert (Hc : cstr (safestrcpy_loop m s t (Z.to_nat (Z.of_nat n - 1))) s n = cstr m t (n - 1)).
  { replace (Z.to_nat (Z.of_nat n - 1)) with (n - 1)%nat by lia.
    replace n with (S (n - 1)) at 2 by lia. apply cstr_safestrcpy_loop. lia. }
  rewrite Hc. repeat split.
  - apply read_strncpy_loop. lia.
  - pose proof (length_cstr (n - 1) m t). lia.
  - apply strncmp_loop_0.
  - apply strncmp_loop_0.
  - apply mget_strncpy_loop_ne. lia.
  - apply mget_safestrcpy_loop_ne. lia.
Qed.

Lemma string_copy_correct_witness :
  exists m : mem, cstr (safestrcpy m 100 200 3) 100 3 = [104; 105].
Proof.
  exists (write_bytes ∅ 200 [104; 105; 106; 0]).
  destruct (string_copy_correct (write_bytes ∅ 200 [104; 105; 106; 0]) 100 200 3)
    as (_ & H & _); [left; vm_compute; discriminate | lia |].
  change (Z.of_nat 3) with 3 in H. rewrite H. reflexivity.
Defined.

#[global] Arguments ldn : simpl never.
#[global] Arguments stn : simpl never.
#[global] Arguments mget : simpl never.
#[global] Arguments mset : simpl never.
#[global] Arguments memset : simpl never.
#[global] Arguments memmove : simpl never.
#[global] Opaque memset memmove ldn stn.
