(* ===== verification/Riscv.v ===== *)
(** * Page and page-table-entry arithmetic of kernel/riscv.h and the address
    map of kernel/memlayout.h, as operations on 64-bit words. *)

From S2P Require Import Prelude.

Definition PGSIZE : Z := 4096.
Definition PGSHIFT : Z := 12.

(** [~(PGSIZE-1)] is an [int], sign-extended when it meets a [uint64]. *)
Definition PGROUNDUP (sz : Z) : Z := Z.land (u64 (sz + PGSIZE - 1)) (u64 (Z.lnot (PGSIZE - 1))).
Definition PGROUNDDOWN (a : Z) : Z := Z.land (u64 a) (u64 (Z.lnot (PGSIZE - 1))).

Definition PTE_V : Z := Z.shiftl 1 0.
Definition PTE_R : Z := Z.shiftl 1 1.
Definition PTE_W : Z := Z.shiftl 1 2.
Definition PTE_X : Z := Z.shiftl 1 3.
Definition PTE_U : Z := Z.shiftl 1 4.

Definition PA2PTE (pa : Z) : Z := u64 (Z.shiftl (Z.shiftr pa 12) 10).
Definition PTE2PA (pte : Z) : Z := u64 (Z.shiftl (Z.shiftr pte 10) 12).
Definition PTE_FLAGS (pte : Z) : Z := Z.land pte 0x3FF.

Definition PXMASK : Z := 0x1FF.
Definition PXSHIFT (level : Z) : Z := PGSHIFT + 9 * level.
Definition PX (level va : Z) : Z := Z.land (Z.shiftr va (PXSHIFT level)) PXMASK.

Definition MAXVA : Z := Z.shiftl 1 (9 + 9 + 9 + 12 - 1).

(** kernel/memlayout.h *)
Definition UART0 : Z := 0x10000000.
Definition VIRTIO0 : Z := 0x10001000.
Definition PLIC : Z := 0x0c000000.
Definition KERNBASE : Z := 0x80000000.
Definition PHYSTOP : Z := KERNBASE + 128 * 1024 * 1024.
Definition TRAMPOLINE : Z := MAXVA - PGSIZE.
Definition KSTACK (p : Z) : Z := TRAMPOLINE - (p + 1) * 2 * PGSIZE.
Definition TRAPFRAME : Z := TRAMPOLINE - PGSIZE.

(** ** What the masks and shifts compute *)

Lemma land_pgmask a : 0 <= a < 2 ^ 64 -> Z.land a (u64 (Z.lnot (PGSIZE - 1))) = a - a mod 4096.
Proof.
  intros Ha. change (u64 (Z.lnot (PGSIZE - 1))) with (Z.ones 64 - Z.ones 12).
  assert (E : Z.land a (Z.ones 64 - Z.ones 12) = Z.ldiff a (Z.ones 12)).
  { apply Z.bits_inj'. intros n Hn. rewrite Z.land_spec, Z.ldiff_spec.
    change (Z.ones 64 - Z.ones 12) with (Z.ldiff (Z.ones 64) (Z.ones 12)).
    rewrite Z.ldiff_spec. destruct (Z.ltb_spec n 64).
    - rewrite Z.ones_spec_low by lia. now destruct (Z.testbit a n).
    - rewrite (Z.bits_above_log2 a) by (destruct (decide (a = 0)) as [->|]; [simpl; lia|apply Z.log2_lt_pow2; [lia|]; eapply Z.lt_le_trans; [apply Ha|]; apply Z.pow_le_mono_r; lia] || lia).
      done. }
  rewrite E. rewrite Z.ldiff_ones_r by lia. rewrite Z.shiftr_div_pow2, Z.shiftl_mul_pow2 by lia.
  change (2 ^ 12) with 4096. pose proof (Z.div_mod a 4096). lia.
Qed.

Lemma PGROUNDDOWN_eq a : 0 <= a < 2 ^ 64 -> PGROUNDDOWN a = a - a mod 4096.
Proof. intros. unfold PGROUNDDOWN. rewrite u64_small by lia. now apply land_pgmask. Qed.

Lemma PGROUNDUP_eq sz :
  0 <= sz < 2 ^ 64 - 4096 -> PGROUNDUP sz = (sz + 4095) - (sz + 4095) mod 4096.
Proof.
  intros. unfold PGROUNDUP. replace (sz + PGSIZE - 1) with (sz + 4095) by (unfold PGSIZE; lia).
  rewrite u64_small by lia. apply land_pgmask. lia.
Qed.

Lemma PGROUNDDOWN_aligned a : 0 <= a < 2 ^ 64 -> PGROUNDDOWN a mod 4096 = 0.
Proof. intros. rewrite PGROUNDDOWN_eq by lia. Z.div_mod_to_equations. lia. Qed.

Lemma PGROUNDUP_aligned a : 0 <= a < 2 ^ 64 - 4096 -> PGROUNDUP a mod 4096 = 0.
Proof. intros. rewrite PGROUNDUP_eq by lia. Z.div_mod_to_equations. lia. Qed.

Lemma PGROUNDDOWN_id a : 0 <= a < 2 ^ 64 -> a mod 4096 = 0 -> PGROUNDDOWN a = a.
Proof. intros. rewrite PGROUNDDOWN_eq by lia. lia. Qed.

Lemma PGROUNDUP_id a : 0 <= a < 2 ^ 64 - 4096 -> a mod 4096 = 0 -> PGROUNDUP a = a.
Proof. intros. rewrite PGROUNDUP_eq by lia. Z.div_mod_to_equations. lia. Qed.

Lemma PGROUNDUP_bounds a : 0 <= a < 2 ^ 64 - 4096 -> a <= PGROUNDUP a < a + 4096.
Proof. intros. rewrite PGROUNDUP_eq by lia. Z.div_mod_to_equations. lia. Qed.

Lemma PGROUNDDOWN_bounds a : 0 <= a < 2 ^ 64 -> PGROUNDDOWN a <= a < PGROUNDDOWN a + 4096.
Proof. intros. rewrite PGROUNDDOWN_eq by lia. Z.div_mod_to_equations. lia. Qed.

Lemma PGROUNDDOWN_nonneg a : 0 <= a < 2 ^ 64 -> 0 <= PGROUNDDOWN a.
Proof. intros. rewrite PGROUNDDOWN_eq by done. Z.div_mod_to_equations. lia. Qed.

Lemma PX_eq level va : 0 <= level -> PX level va = (va / 2 ^ (12 + 9 * level)) mod 512.
Proof.
  intros. unfold PX, PXMASK, PXSHIFT, PGSHIFT. change 0x1FF with (Z.ones 9).
  rewrite Z.land_ones, Z.shiftr_div_pow2 by lia. done.
Qed.

Lemma PX_range level va : 0 <= level -> 0 <= PX level va < 512.
Proof. intros. rewrite PX_eq by lia. apply Z.mod_pos_bound. lia. Qed.

(** Page-aligned addresses below [MAXVA] are determined by their indices. *)
Lemma PX_inj va1 va2 :
  0 <= va1 < MAXVA -> 0 <= va2 < MAXVA -> va1 mod 4096 = 0 -> va2 mod 4096 = 0 ->
  PX 2 va1 = PX 2 va2 -> PX 1 va1 = PX 1 va2 -> PX 0 va1 = PX 0 va2 -> va1 = va2.
Proof.
  unfold MAXVA. rewrite !PX_eq by lia.
  change (Z.shiftl 1 (9 + 9 + 9 + 12 - 1)) with 274877906944.
  change (2 ^ (12 + 9 * 2)) with 1073741824. change (2 ^ (12 + 9 * 1)) with 2097152.
  change (2 ^ (12 + 9 * 0)) with 4096.
  intros. Z.div_mod_to_equations. lia.
Qed.

Lemma land_shiftl_low q n mk : 0 <= n -> 0 <= mk < 2 ^ n -> Z.land (Z.shiftl q n) mk = 0.
Proof.
  intros Hn Hm. apply Z.bits_inj'. intros i Hi. rewrite Z.land_spec, Z.bits_0.
  destruct (Z.ltb_spec i n).
  - now rewrite Z.shiftl_spec_low by lia.
  - rewrite <- (Z.mod_small mk (2 ^ n)) by lia.
    rewrite Z.mod_pow2_bits_high by lia. apply andb_false_r.
Qed.

Lemma PA2PTE_eq pa : 0 <= pa < 2 ^ 56 -> PA2PTE pa = Z.shiftl (pa / 4096) 10.
Proof.
  intros. unfold PA2PTE. rewrite Z.shiftr_div_pow2 by lia. change (2 ^ 12) with 4096.
  apply u64_small. rewrite Z.shiftl_mul_pow2 by lia. Z.div_mod_to_equations. lia.
Qed.

(** A page-table entry built by [PA2PTE(pa) | flags]: its address and its
    flag bits read back. *)
Lemma PTE2PA_make pa f :
  0 <= pa < 2 ^ 56 -> pa mod 4096 = 0 -> 0 <= f < 1024 -> PTE2PA (Z.lor (PA2PTE pa) f) = pa.
Proof.
  intros Hpa Hal Hf. rewrite PA2PTE_eq by lia. unfold PTE2PA.
  rewrite Z.shiftr_lor, Z.shiftr_shiftl_l, Z.shiftl_0_r by lia.
  rewrite (Z.shiftr_div_pow2 f), (Z.div_small f), Z.lor_0_r by lia.
  rewrite Z.shiftl_mul_pow2 by lia. rewrite u64_small; Z.div_mod_to_equations; lia.
Qed.

Lemma land_PTE_make pa f mk :
  0 <= pa < 2 ^ 56 -> 0 <= mk < 1024 -> Z.land (Z.lor (PA2PTE pa) f) mk = Z.land f mk.
Proof.
  intros. rewrite PA2PTE_eq, Z.land_lor_distr_l, land_shiftl_low by lia. done.
Qed.

Lemma PTE_make_range pa f :
  0 <= pa < 2 ^ 56 -> 0 <= f < 1024 -> 0 <= Z.lor (PA2PTE pa) f < 2 ^ 64.
Proof.
  intros Hpa Hf. rewrite PA2PTE_eq by lia.
  assert (Hq : 0 <= Z.shiftl (pa / 4096) 10 < 2 ^ 64)
    by (rewrite Z.shiftl_mul_pow2 by lia; Z.div_mod_to_equations; lia).
  apply (lor_bound 64); lia.
Qed.

(** Two's-complement facts about the flag tests the code makes. *)
Lemma land_lor_V f : Z.land (Z.lor f PTE_V) PTE_V = PTE_V.
Proof. rewrite Z.land_lor_distr_l. apply Z.bits_inj'. intros n Hn.
  rewrite Z.lor_spec, !Z.land_spec. now destruct (Z.testbit f n), (Z.testbit PTE_V n).
Qed.

(** The indices of an address determine its page. *)
Lemma PX_page va1 va2 :
  0 <= va1 < MAXVA -> 0 <= va2 < MAXVA ->
  (PX 2 va1 = PX 2 va2 /\ PX 1 va1 = PX 1 va2 /\ PX 0 va1 = PX 0 va2) <->
  va1 / 4096 = va2 / 4096.
Proof.
  unfold MAXVA. rewrite !PX_eq by lia.
  change (Z.shiftl 1 (9 + 9 + 9 + 12 - 1)) with 274877906944.
  change (2 ^ (12 + 9 * 2)) with 1073741824. change (2 ^ (12 + 9 * 1)) with 2097152.
  change (2 ^ (12 + 9 * 0)) with 4096.
  intros. Z.div_mod_to_equations. lia.
Qed.

Lemma PX_low va : 0 <= va < MAXVA -> PX 2 va < 256.
Proof.
  unfold MAXVA. rewrite !PX_eq by lia.
  change (Z.shiftl 1 (9 + 9 + 9 + 12 - 1)) with 274877906944.
  change (2 ^ (12 + 9 * 2)) with 1073741824. intros. Z.div_mod_to_equations. lia.
Qed.

Lemma MAXVA_eq : MAXVA = 2 ^ 38.
Proof. reflexivity. Qed.

Lemma PTE_V_range : 0 <= PTE_V < 1024.
Proof. vm_compute. split; [discriminate|reflexivity]. Qed.
#[export] Hint Resolve PTE_V_range : xv6.

#[global] Arguments PX : simpl never.
#[global] Arguments PGROUNDUP : simpl never.
#[global] Arguments PGROUNDDOWN : simpl never.
#[global] Arguments PA2PTE : simpl never.
#[global] Arguments PTE2PA : simpl never.
#[global] Arguments PTE_FLAGS : simpl never.
#[global] Arguments MAXVA : simpl never.
#[global] Arguments PHYSTOP : simpl never.
