(* ===== verification/Spinlock.v ===== *)
(** * Spin locks and sleep locks: kernel/spinlock.c and kernel/sleeplock.c

    [SpinHart] models [push_off], [pop_off], [acquire] and [release] on one
    hart, and then several harts that run acquire / critical section / release
    over one lock, one shared-memory access per step.  The second half gives
    the lock operations as the other components use them, on a [spinlock]
    embedded in the component's own state. *)

From stdpp Require Import relations.
From S2P Require Import Prelude.

(** The thread that runs: its hart ([mycpu()]) and its process ([myproc()->pid]). *)
Class Ctx := { mycpu : Z; mypid : Z }.

(** kernel/spinlock.h *)
Record spinlock := Spinlock {
  locked : bool;
  lk_name : string;
  lk_cpu : option Z
}.

(** The fields of kernel/proc.h's [struct cpu] the locks use, and the hart's
    interrupt-enable bit [sstatus.SIE]. *)
Record cpu := Cpu { noff : Z; intena : bool; sie : bool }.

(** kernel/sleeplock.h *)
Record sleeplock := Sleeplock {
  sl_locked : bool;
  sl_lk : spinlock;
  sl_name : string;
  sl_pid : Z
}.

Definition initlock (name : string) : spinlock := Spinlock false name None.
Definition initsleeplock (name : string) : sleeplock :=
  Sleeplock false (initlock "sleep lock") name 0.

Definition holding (h : Z) (lk : spinlock) : bool :=
  locked lk && bool_decide (lk_cpu lk = Some h).

Definition push_off (c : cpu) : cpu :=
  let old := sie c in
  let c := Cpu (noff c) (intena c) false in
  let c := if noff c =? 0 then Cpu (noff c) old (sie c) else c in
  Cpu (noff c + 1) (intena c) (sie c).

Definition pop_off : M cpu unit := fun c =>
  if sie c then Panic "pop_off - interruptible"
  else if noff c <? 1 then Panic "pop_off"
  else let c := Cpu (noff c - 1) (intena c) (sie c) in
       Done tt (if (noff c =? 0) && intena c then Cpu (noff c) (intena c) true else c).

(** ** Several harts over one lock *)

Module SpinHart.

(** Where a hart is in [acquire(lk); ...; release(lk);].  Each step makes one
    access to the shared lock; [__sync_lock_test_and_set] is one access. *)
Inductive pc :=
| Idle
| AcqHold1 | AcqHold2
| AcqSwap
| AcqSetCpu
| Crit
| RelHold1 | RelHold2
| RelClrCpu
| RelStore
| RelPop
| Panicked.

Record hart := Hart { h_pc : pc; h_cpu : cpu }.

Definition goto (p : pc) (ht : hart) : hart := Hart p (h_cpu ht).

Definition hart_step (h : Z) (lk : spinlock) (ht : hart) : spinlock * hart :=
  match h_pc ht with
  | Idle => (lk, Hart AcqHold1 (push_off (h_cpu ht)))
  | AcqHold1 => (lk, goto (if locked lk then AcqHold2 else AcqSwap) ht)
  | AcqHold2 => (lk, goto (if bool_decide (lk_cpu lk = Some h) then Panicked else AcqSwap) ht)
  | AcqSwap => (Spinlock true (lk_name lk) (lk_cpu lk),
                goto (if locked lk then AcqSwap else AcqSetCpu) ht)
  | AcqSetCpu => (Spinlock (locked lk) (lk_name lk) (Some h), goto Crit ht)
  | Crit => (lk, goto RelHold1 ht)
  | RelHold1 => (lk, goto (if locked lk then RelHold2 else Panicked) ht)
  | RelHold2 => (lk, goto (if bool_decide (lk_cpu lk = Some h) then RelClrCpu else Panicked) ht)
  | RelClrCpu => (Spinlock (locked lk) (lk_name lk) None, goto RelStore ht)
  | RelStore => (Spinlock false (lk_name lk) (lk_cpu lk), goto RelPop ht)
  | RelPop => match pop_off (h_cpu ht) with
              | Done _ c => (lk, Hart Idle c)
              | _ => (lk, goto Panicked ht)
              end
  | Panicked => (lk, ht)
  end.

Record config := Config { c_lk : spinlock; c_harts : gmap Z hart }.

Inductive step : config -> config -> Prop :=
| step_hart h ht lk hs lk' ht' :
    hs !! h = Some ht ->
    hart_step h lk ht = (lk', ht') ->
    step (Config lk hs) (Config lk' (<[h := ht']> hs)).

(** A hart not using the lock: its nesting depth is a count, and it is
    non-zero only with interrupts off. *)
Definition cpu_ok (c : cpu) : Prop := 0 <= noff c /\ (0 < noff c -> sie c = false).

Definition init (c : config) : Prop :=
  locked (c_lk c) = false /\ lk_cpu (c_lk c) = None /\
  forall h ht, c_harts c !! h = Some ht -> h_pc ht = Idle /\ cpu_ok (h_cpu ht).

Definition in_cs (p : pc) : bool :=
  match p with
  | AcqSetCpu | Crit | RelHold1 | RelHold2 | RelClrCpu | RelStore => true
  | _ => false
  end.
Definition owns (p : pc) : bool :=
  match p with
  | Crit | RelHold1 | RelHold2 | RelClrCpu => true
  | _ => false
  end.

(** Interrupts are off, and the nesting count is positive, from [push_off] to
    [pop_off]. *)
Definition hart_ok (ht : hart) : Prop :=
  match h_pc ht with
  | Idle => cpu_ok (h_cpu ht)
  | Panicked => False
  | _ => sie (h_cpu ht) = false /\ 1 <= noff (h_cpu ht)
  end.

Record inv (c : config) : Prop := {
  inv_harts : forall h ht, c_harts c !! h = Some ht -> hart_ok ht;
  inv_locked : forall h ht, c_harts c !! h = Some ht -> in_cs (h_pc ht) = true ->
    locked (c_lk c) = true;
  inv_unique : forall h1 h2 ht1 ht2,
    c_harts c !! h1 = Some ht1 -> c_harts c !! h2 = Some ht2 ->
    in_cs (h_pc ht1) = true -> in_cs (h_pc ht2) = true -> h1 = h2;
  inv_cpu : forall h ht, c_harts c !! h = Some ht ->
    lk_cpu (c_lk c) = Some h <-> owns (h_pc ht) = true
}.

Lemma init_inv c : init c -> inv c.
Proof.
  intros (Hl & Hc & Hh). split.
  - intros h ht Hht. destruct (Hh h ht Hht) as [Hp ?]. unfold hart_ok. now rewrite Hp.
  - intros h ht Hht Hi. destruct (Hh h ht Hht) as [Hp ?]. now rewrite Hp in Hi.
  - intros h1 h2 ht1 ht2 H1 H2 Hi. destruct (Hh h1 ht1 H1) as [Hp ?]. now rewrite Hp in Hi.
  - intros h ht Hht. destruct (Hh h ht Hht) as [Hp ?]. now rewrite Hp, Hc.
Qed.

Lemma push_off_ok c : cpu_ok c -> sie (push_off c) = false /\ 1 <= noff (push_off c).
Proof. intros [H1 H2]. unfold push_off; simpl. destruct (noff c =? 0); simpl; lia. Qed.

Lemma pop_off_ok c :
  sie c = false -> 1 <= noff c -> exists c', pop_off c = Done tt c' /\ cpu_ok c'.
Proof.
  intros H1 H2. unfold pop_off. rewrite H1. destruct (Z.ltb_spec (noff c) 1); [lia|].
  eexists. split; [done|]. simpl.
  destruct (Z.eqb_spec (noff c - 1) 0), (intena c); simpl; split; simpl; lia || done.
Qed.

(** One hart moves and the lock changes: what has to be re-established. *)
Lemma inv_update lk hs h ht lk' ht' :
  inv (Config lk hs) -> hs !! h = Some ht ->
  hart_ok ht' ->
  (in_cs (h_pc ht') = true -> locked lk' = true) ->
  (in_cs (h_pc ht') = true -> in_cs (h_pc ht) = true \/ locked lk = false) ->
  (locked lk' = locked lk \/ locked lk' = true \/ in_cs (h_pc ht) = true) ->
  (lk_cpu lk' = Some h <-> owns (h_pc ht') = true) ->
  (lk_cpu lk' = lk_cpu lk \/ in_cs (h_pc ht) = true /\ (lk_cpu lk' = Some h \/ lk_cpu lk' = None)) ->
  inv (Config lk' (<[h := ht']> hs)).
Proof.
  intros [IH IL IU IC] Hh Hok Hl1 Hl2 Hl3 Hc1 Hc2. simpl in *.
  assert (Hother : forall h2 ht2, h2 <> h -> hs !! h2 = Some ht2 ->
            in_cs (h_pc ht) = true -> in_cs (h_pc ht2) = false).
  { intros h2 ht2 Hne H2 Hi. destruct (in_cs (h_pc ht2)) eqn:E; [|done].
    exfalso. apply Hne. eapply IU; eauto. }
  assert (Howns : forall p, in_cs p = false -> owns p = false) by now intros [].
  split; simpl.
  - intros h2 ht2 H2. rewrite lookup_insert in H2. case_decide; naive_solver.
  - intros h2 ht2 H2 Hi. rewrite lookup_insert in H2. case_decide; [naive_solver|].
    specialize (IL _ _ H2 Hi). destruct Hl3 as [?|[?|Hi']]; [congruence|done|].
    rewrite (Hother h2 ht2) in Hi; congruence.
  - intros h1 h2 ht1 ht2 H1 H2 Hi1 Hi2. rewrite lookup_insert in H1, H2.
    destruct (decide (h = h1)), (decide (h = h2)); subst; simplify_eq; try done.
    + destruct (Hl2 Hi1) as [Hx|Hx]; [eauto|]. rewrite (IL _ _ H2 Hi2) in Hx. done.
    + destruct (Hl2 Hi2) as [Hx|Hx]; [eauto|]. rewrite (IL _ _ H1 Hi1) in Hx. done.
    + eauto.
  - intros h2 ht2 H2. rewrite lookup_insert in H2. case_decide; [naive_solver|].
    destruct Hc2 as [->|[Hi [->| ->]]]; [eauto| |].
    + rewrite (Howns (h_pc ht2)) by eauto. naive_solver.
    + rewrite (Howns (h_pc ht2)) by eauto. naive_solver.
Qed.

Lemma step_inv c c' : inv c -> step c c' -> inv c'.
Proof.
  intros Hinv Hs. destruct Hs as [h [p c] lk hs lk' ht' Hh Hst].
  pose proof (inv_harts _ Hinv h _ Hh) as Hok. pose proof (inv_cpu _ Hinv h _ Hh) as Hcpu.
  pose proof (inv_locked _ Hinv h _ Hh) as Hlk. simpl in *.
  unfold hart_step, goto in Hst. apply (inv_update lk hs h _ lk' ht' Hinv Hh).
  all: destruct p; simpl in *; simplify_eq; unfold hart_ok in *; simpl in *; try done; eauto using push_off_ok.
  all: repeat case_match; simplify_eq; simpl in *; try done; eauto.
  all: repeat case_bool_decide.
  all: try (intuition congruence).
  all: try (destruct Hok; split; [done|lia]).
  all: destruct (pop_off_ok c) as (c' & Hp & Hc'); [tauto|tauto|congruence].
Qed.

Lemma reachable_inv c c' : init c -> rtc step c c' -> inv c'.
Proof.
  intros Hi%init_inv Hr. induction Hr; eauto using step_inv.
Qed.

(** C5: mutual exclusion of [acquire]/[release].  Whatever the interleaving of
    the harts' accesses to the lock, from a free lock no two harts are ever
    between winning the test-and-set and releasing the lock; no hart panics in
    [acquire], [release] or [pop_off]; and a hart runs with interrupts off
    from [acquire] to [release]. *)
Theorem spinlock_mutual_exclusion c c' :
  init c -> rtc step c c' ->
  (forall h1 h2 ht1 ht2,
     c_harts c' !! h1 = Some ht1 -> c_harts c' !! h2 = Some ht2 ->
     in_cs (h_pc ht1) = true -> in_cs (h_pc ht2) = true -> h1 = h2) /\
  (forall h ht, c_harts c' !! h = Some ht ->
     h_pc ht <> Panicked /\ (h_pc ht <> Idle -> sie (h_cpu ht) = false)).
Proof.
  intros Hi Hr. pose proof (reachable_inv _ _ Hi Hr) as Hinv. split.
  - intros. eapply (inv_unique _ Hinv); eauto.
  - intros h ht Hh. pose proof (inv_harts _ Hinv h ht Hh) as Hok. unfold hart_ok in Hok.
    destruct (h_pc ht); naive_solver.
Qed.

(** Two harts; hart 1 takes the lock while hart 0 spins on it. *)
Definition two_harts : config :=
  Config (initlock "demo")
    {[ 0 := Hart Idle (Cpu 0 false true); 1 := Hart Idle (Cpu 0 false true) ]}.
Fixpoint run (sched : list Z) (c : config) : config :=
  match sched with
  | [] => c
  | h :: sched' =>
      match c_harts c !! h with
      | Some ht => let '(lk', ht') := hart_step h (c_lk c) ht in
                   run sched' (Config lk' (<[h := ht']> (c_harts c)))
      | None => run sched' c
      end
  end.

Lemma run_steps sched c : rtc step c (run sched c).
Proof.
  revert c. induction sched as [|h sched IH]; intros [lk hs]; simpl; [reflexivity|].
  destruct (hs !! h) as [ht|] eqn:Hh; [|apply IH].
  destruct (hart_step h lk ht) as [lk' ht'] eqn:Hs.
  eapply rtc_l; [by econstructor|apply IH].
Qed.

Lemma spinlock_mutual_exclusion_witness :
  (h_pc <$> c_harts (run [0; 1; 0; 1; 1; 1; 0; 0] two_harts) !! 1) = Some Crit /\
  (h_pc <$> c_harts (run [0; 1; 0; 1; 1; 1; 0; 0] two_harts) !! 0) = Some AcqSwap /\
  (forall h1 h2 ht1 ht2,
     c_harts (run [0; 1; 0; 1; 1; 1; 0; 0] two_harts) !! h1 = Some ht1 ->
     c_harts (run [0; 1; 0; 1; 1; 1; 0; 0] two_harts) !! h2 = Some ht2 ->
     in_cs (h_pc ht1) = true -> in_cs (h_pc ht2) = true -> h1 = h2).
Proof.
  split; [vm_compute; reflexivity|]. split; [vm_compute; reflexivity|].
  apply (spinlock_mutual_exclusion two_harts _).
  - split; [reflexivity|]. split; [reflexivity|]. intros h ht Hh. simpl in Hh.
    apply lookup_insert_Some in Hh as [[_ <-]|[_ Hh]];
      [split; [reflexivity|split; simpl; lia]|].
    apply lookup_singleton_Some in Hh as [_ <-]. split; [reflexivity|split; simpl; lia].
  - apply run_steps.
Defined.
End SpinHart.

(** ** Nesting of [push_off] and [pop_off] *)

Inductive intr_op := PushOff | PopOff.
Definition intr_run1 (o : intr_op) : M cpu unit :=
  match o with
  | PushOff => modify push_off
  | PopOff => pop_off
  end.
Fixpoint intr_run (os : list intr_op) : M cpu unit :=
  match os with
  | [] => ret tt
  | o :: os' => intr_run1 o ;;; intr_run os'
  end.

(** Matched sequences: every [push_off] has its [pop_off]. *)
Inductive matched : list intr_op -> Prop :=
| matched_nil : matched []
| matched_nest os : matched os -> matched (PushOff :: os ++ [PopOff])
| matched_app os1 os2 : matched os1 -> matched os2 -> matched (os1 ++ os2).

Lemma intr_run_app os1 os2 c :
  intr_run (os1 ++ os2) c = (intr_run os1 ;;; intr_run os2) c.
Proof.
  revert c. induction os1 as [|o os1 IH]; intros c; [done|].
  simpl. rewrite bind_assoc. unfold bind at 1 2. destruct (intr_run1 o c); auto.
Qed.

Lemma matched_run os :
  matched os -> forall c, SpinHart.cpu_ok c ->
  exists c', intr_run os c = Done tt c' /\ noff c' = noff c /\ sie c' = sie c /\
    (0 < noff c -> intena c' = intena c).
Proof.
  induction 1 as [|os Hm IH|os1 os2 H1 IH1 H2 IH2]; intros c Hc.
  - exists c. done.
  - simpl. destruct (SpinHart.push_off_ok c Hc) as [Hs Hn].
    destruct (IH (push_off c)) as (c1 & Hr & Hn1 & Hs1 & Hi1); [split; lia || done|].
    rewrite (bind_Done (modify push_off) _ c tt (push_off c) eq_refl).
    rewrite intr_run_app, (bind_Done _ _ _ _ _ Hr). destruct Hc as [Hc1 Hc2].
    change (intr_run [PopOff]) with (pop_off ;;; ret tt).
    destruct c1 as [n1 i1 s1]. unfold push_off in *; simpl in *.
    unfold bind, pop_off; simpl. rewrite Hs1, Hs, Hn1.
    destruct (Z.eqb_spec (noff c) 0) as [Hz|Hz]; simpl in *.
    + rewrite Hz, Hi1 by lia. simpl. eexists. split; [reflexivity|].
      destruct (sie c); simpl; split_and!; lia || done.
    + destruct (Z.ltb_spec (noff c + 1) 1); [lia|].
      destruct (Z.eqb_spec (noff c + 1 - 1) 0); [lia|]. simpl.
      eexists. split; [reflexivity|]. simpl. rewrite Hi1, Hc2 by lia. split_and!; lia || done.
  - destruct (IH1 c Hc) as (c1 & Hr1 & Hn1 & Hs1 & Hi1).
    destruct (IH2 c1) as (c2 & Hr2 & Hn2 & Hs2 & Hi2).
    { destruct Hc. split; [lia|]. rewrite Hn1, Hs1. done. }
    exists c2. rewrite intr_run_app. erewrite bind_Done by exact Hr1. split; [done|].
    split_and!; try congruence. intros. rewrite Hi2, Hi1 by lia. done.
Qed.

(** [push_off] and [pop_off] nest.  Any matched sequence of them runs
    without panic and leaves the hart's nesting depth and interrupt-enable bit
    as they were: interrupts come back on exactly when the outermost pair was
    entered with them on. *)
Theorem push_pop_off_matched os c :
  matched os -> SpinHart.cpu_ok c ->
  exists c', intr_run os c = Done tt c' /\ noff c' = noff c /\ sie c' = sie c.
Proof.
  intros Hm Hc. destruct (matched_run os Hm c Hc) as (c' & ? & ? & ? & _). eauto.
Qed.

Lemma push_pop_off_matched_witness :
  exists c', intr_run [PushOff; PushOff; PopOff; PopOff] (Cpu 0 false true) = Done tt c' /\
    sie c' = true.
Proof.
  destruct (push_pop_off_matched [PushOff; PushOff; PopOff; PopOff] (Cpu 0 false true))
    as (c' & H & _ & Hs).
  - apply (matched_nest [PushOff; PopOff]), (matched_nest []), matched_nil.
  - split; simpl; lia.
  - exists c'. split; [exact H|exact Hs].
Defined.

(** ** Locks inside a component's state *)

Section Locks.
Context `{Ctx}.

(** The part of [acquire] that follows [push_off], and of [release] that
    precedes [pop_off]: what they do to the lock itself. A thread that spins
    on a lock another hart holds does not proceed in the run modelled. *)
Definition lk_acquire : M spinlock unit := fun lk =>
  if holding mycpu lk then Panic "acquire"
  else if locked lk then Diverge
  else Done tt (Spinlock true (lk_name lk) (Some mycpu)).
Definition lk_release : M spinlock unit := fun lk =>
  if negb (holding mycpu lk) then Panic "release"
  else Done tt (Spinlock false (lk_name lk) None).

(** The whole of [acquire] and [release], on the lock and the hart. *)
Definition fst_lens {A B} : lens (A * B) A := Lens fst (fun a s => (a, s.2)).
Definition snd_lens {A B} : lens (A * B) B := Lens snd (fun b s => (s.1, b)).
Definition hart_acquire : M (spinlock * cpu) unit :=
  lift snd_lens (modify push_off) ;;; lift fst_lens lk_acquire.
Definition hart_release : M (spinlock * cpu) unit :=
  lift fst_lens lk_release ;;; lift snd_lens pop_off.

Section Lens.
Context {S : Type}.

Definition acquire (l : lens S spinlock) : M S unit := lift l lk_acquire.
Definition release (l : lens S spinlock) : M S unit := lift l lk_release.

(** [sleep(chan, lk)] releases [lk] and gives up the CPU. *)
Definition sleep {A} (c : chan) (l : lens S spinlock) : M S A :=
  release l ;;; sleep_on c.

Definition sl_lk_lens : lens sleeplock spinlock :=
  Lens sl_lk (fun lk sl => Sleeplock (sl_locked sl) lk (sl_name sl) (sl_pid sl)).
End Lens.

Definition acquiresleep (c : chan) : M sleeplock unit :=
  acquire sl_lk_lens ;;;
  b <-! gets sl_locked ;;
  (if (b : bool) then sleep c sl_lk_lens else ret tt) ;;;
  modify (fun sl => Sleeplock true (sl_lk sl) (sl_name sl) mypid) ;;;
  release sl_lk_lens.

(** The [wakeup(lk)] in [releasesleep] makes the sleepers runnable; it does
    not touch the lock. *)
Definition releasesleep : M sleeplock unit :=
  acquire sl_lk_lens ;;;
  modify (fun sl => Sleeplock false (sl_lk sl) (sl_name sl) 0) ;;;
  release sl_lk_lens.

Definition holdingsleep : M sleeplock bool :=
  acquire sl_lk_lens ;;;
  r <-! gets (fun sl => sl_locked sl && (sl_pid sl =? mypid)) ;;
  release sl_lk_lens ;;;
  ret r.

(** ** Their effect when nobody else holds the lock *)

Definition unlocked (lk : spinlock) : Prop := locked lk = false /\ lk_cpu lk = None.
Definition held (lk : spinlock) : spinlock := Spinlock true (lk_name lk) (Some mycpu).

Lemma lk_acquire_free lk : locked lk = false -> lk_acquire lk = Done tt (held lk).
Proof. intros E. unfold lk_acquire, holding. now rewrite E. Qed.

Lemma lk_release_held lk : unlocked lk -> lk_release (held lk) = Done tt lk.
Proof.
  intros [E1 E2]. unfold lk_release, holding; simpl. rewrite bool_decide_true by done.
  simpl. destruct lk; simpl in *; congruence.
Qed.

Lemma acquire_free {S} (l : lens S spinlock) s :
  locked (lget l s) = false -> acquire l s = Done tt (lset l (held (lget l s)) s).
Proof. intros E. apply lift_Done. now apply lk_acquire_free. Qed.

Lemma release_held {S} (l : lens S spinlock) s lk :
  lget l s = held lk -> unlocked lk -> release l s = Done tt (lset l lk s).
Proof. intros E Hu. apply lift_Done. rewrite E. now apply lk_release_held. Qed.

Lemma acquiresleep_free c sl :
  sl_locked sl = false -> unlocked (sl_lk sl) ->
  acquiresleep c sl = Done tt (Sleeplock true (sl_lk sl) (sl_name sl) mypid).
Proof.
  intros E Hu. unfold acquiresleep.
  rewrite (bind_Done _ _ _ _ _ (acquire_free sl_lk_lens sl (proj1 Hu))).
  rewrite (bind_Done (gets sl_locked) _ _ _ _ eq_refl). simpl. rewrite E. simpl.
  unfold bind, ret, modify. erewrite (release_held sl_lk_lens) by done. done.
Qed.

Lemma acquiresleep_busy c sl :
  sl_locked sl = true -> unlocked (sl_lk sl) -> acquiresleep c sl = Sleep c sl.
Proof.
  intros E Hu. unfold acquiresleep.
  rewrite (bind_Done _ _ _ _ _ (acquire_free sl_lk_lens sl (proj1 Hu))).
  rewrite (bind_Done (gets sl_locked) _ _ _ _ eq_refl). simpl. rewrite E.
  unfold sleep, bind at 1 2. erewrite release_held by done. simpl.
  destruct sl; simpl in *; now subst.
Qed.

Lemma releasesleep_spec sl :
  unlocked (sl_lk sl) -> releasesleep sl = Done tt (Sleeplock false (sl_lk sl) (sl_name sl) 0).
Proof.
  intros Hu. unfold releasesleep.
  rewrite (bind_Done _ _ _ _ _ (acquire_free sl_lk_lens sl (proj1 Hu))).
  unfold bind, modify. erewrite (release_held sl_lk_lens) by done. done.
Qed.

Lemma holdingsleep_spec sl :
  unlocked (sl_lk sl) -> holdingsleep sl = Done (sl_locked sl && (sl_pid sl =? mypid)) sl.
Proof.
  intros Hu. unfold holdingsleep.
  rewrite (bind_Done _ _ _ _ _ (acquire_free sl_lk_lens sl (proj1 Hu))).
  unfold bind, gets. erewrite release_held by done. simpl. now destruct sl.
Qed.

(** A hart that acquires a free lock and then releases it is back where it
    started, with the lock free again; acquiring a lock it already holds
    panics. *)
Theorem acquire_release lk c :
  unlocked lk -> SpinHart.cpu_ok c ->
  exists c1 c2, hart_acquire (lk, c) = Done tt (held lk, c1) /\
    sie c1 = false /\
    hart_release (held lk, c1) = Done tt (lk, c2) /\
    noff c2 = noff c /\ sie c2 = sie c /\
    hart_acquire (held lk, c1) = Panic "acquire".
Proof.
  intros Hu Hc.
  destruct (matched_run [PushOff; PopOff] (matched_nest [] matched_nil) c Hc)
    as (c2 & Hr & Hn & Hs & _).
  rewrite (eq_refl : intr_run [PushOff; PopOff] c = (pop_off ;;; ret tt) (push_off c)) in Hr.
  exists (push_off c), c2.
  destruct (SpinHart.push_off_ok c Hc) as [Hoff _].
  unfold hart_acquire, hart_release, bind, lift; simpl.
  rewrite (lk_acquire_free lk) by apply Hu. rewrite lk_release_held by done. simpl.
  unfold bind, ret in Hr. destruct (pop_off (push_off c)) as [[] c'| | | |]; [|discriminate..].
  simplify_eq/=.
  split_and!; try done.
  unfold lk_acquire, holding; simpl. now rewrite bool_decide_true.
Qed.
End Locks.

Lemma acquire_release_witness :
  let H := {| mycpu := 0; mypid := 1 |} in
  exists c1 c2,
    hart_acquire (initlock "lk", Cpu 0 false true) = Done tt (held (initlock "lk"), c1) /\
    sie c1 = false /\
    hart_release (held (initlock "lk"), c1) = Done tt (initlock "lk", c2) /\
    noff c2 = 0 /\ sie c2 = true /\
    hart_acquire (held (initlock "lk"), c1) = Panic "acquire".
Proof.
  intros H. apply (acquire_release (initlock "lk") (Cpu 0 false true)); split; simpl; lia || done.
Defined.
