(* ===== verification/Kalloc.v ===== *)
(** * Physical page allocator: kernel/kalloc.c

    The free list is a linked list threaded through the free pages
    themselves: [kmem.freelist] points to a page whose first 8 bytes hold the
    address of the next.  [free_list m p l] says that following it from [p]
    visits the pages [l]; the theorems relate the operations to an allocator
    that keeps an explicit list. *)

From S2P Require Import Prelude Memory Riscv Spinlock.

(** The addresses kernel.ld fixes when the kernel is linked. *)
Class Image := { image_end : Z; etext : Z; trampoline : Z }.

Class ImageOk `{Image} : Prop := {
  etext_range : KERNBASE < etext <= image_end;
  end_range : KERNBASE < image_end <= PHYSTOP
}.

(** [kmem], and the physical memory it allocates from. *)
Record kst := Kst { k_mem : mem; k_lock : spinlock; k_freelist : Z }.

Definition k_lock_lens : lens kst spinlock :=
  Lens k_lock (fun lk s => Kst (k_mem s) lk (k_freelist s)).
Definition set_mem (m : mem) (s : kst) : kst := Kst m (k_lock s) (k_freelist s).
Definition set_freelist (p : Z) (s : kst) : kst := Kst (k_mem s) (k_lock s) p.

Section Kalloc.
Context `{HC : Ctx} `{HI : Image}.

Definition kfree (pa : Z) : M kst unit :=
  panic_if (negb (u64 pa mod PGSIZE =? 0) || (pa <? image_end) || (PHYSTOP <=? u64 pa)) "kfree" ;;;
  modify (fun s => set_mem (memset (k_mem s) pa 1 PGSIZE) s) ;;;
  acquire k_lock_lens ;;;
  modify (fun s => set_mem (st64 (k_mem s) pa (k_freelist s)) s) ;;;
  modify (set_freelist pa) ;;;
  release k_lock_lens.

Definition kalloc : M kst Z :=
  acquire k_lock_lens ;;;
  r <-! gets k_freelist ;;
  when (negb (r =? 0)) (modify (fun s => set_freelist (ld64 (k_mem s) r) s)) ;;;
  release k_lock_lens ;;;
  when (negb (r =? 0)) (modify (fun s => set_mem (memset (k_mem s) r 5 PGSIZE) s)) ;;;
  ret r.

(** [for(; p + PGSIZE <= (char* )pa_end; p += PGSIZE) kfree(p);] *)
Fixpoint freerange_loop (fuel : nat) (p pa_end : Z) : M kst unit :=
  match fuel with
  | O => diverge
  | S fuel' =>
      if p + PGSIZE <=? pa_end
      then kfree p ;;; freerange_loop fuel' (p + PGSIZE) pa_end
      else ret tt
  end.
Definition freerange (pa_start pa_end : Z) : M kst unit :=
  let p := PGROUNDUP pa_start in
  freerange_loop (S (Z.to_nat ((pa_end - p) / PGSIZE))) p pa_end.

Definition kinit : M kst unit :=
  modify (fun s => Kst (k_mem s) (initlock "kmem") (k_freelist s)) ;;;
  freerange image_end PHYSTOP.

(** ** The free list *)

Definition page_ok (p : Z) : Prop := p mod PGSIZE = 0 /\ image_end <= p < PHYSTOP.

Fixpoint free_list (m : mem) (p : Z) (l : list Z) : Prop :=
  match l with
  | [] => p = 0
  | q :: l' => p = q /\ free_list m (ld64 m q) l'
  end.

Record kinv (s : kst) (l : list Z) : Prop := {
  kinv_lock : unlocked (k_lock s);
  kinv_list : free_list (k_mem s) (k_freelist s) l;
  kinv_nodup : NoDup l;
  kinv_pages : Forall page_ok l
}.

(** The bytes of two page-aligned pages are the same or disjoint. *)
Definition in_page (p x : Z) : Prop := p <= x < p + PGSIZE.

Context `{HO : !ImageOk}.

Lemma page_ok_pos p : page_ok p -> 0 < p < 2 ^ 32.
Proof.
  destruct end_range as [? _]. unfold page_ok, PHYSTOP, KERNBASE in *. lia.
Qed.

Lemma page_disjoint p q x : page_ok p -> page_ok q -> in_page p x -> in_page q x -> p = q.
Proof.
  unfold page_ok, in_page, PGSIZE. intros [Hp _] [Hq _] ? ?.
  Z.div_mod_to_equations. lia.
Qed.

Lemma page_ok_check p : page_ok p ->
  negb (u64 p mod PGSIZE =? 0) || (p <? image_end) || (PHYSTOP <=? u64 p) = false.
Proof.
  intros Hp. pose proof (page_ok_pos p Hp). destruct Hp as [Hal Hr].
  rewrite u64_small by lia. rewrite Hal. simpl.
  destruct (Z.ltb_spec p image_end), (Z.leb_spec PHYSTOP p); simpl; lia || done.
Qed.

(** The list only depends on its own pages. *)
Lemma free_list_ext m1 m2 p l :
  (forall q, q ∈ l -> ld64 m1 q = ld64 m2 q) -> free_list m1 p l -> free_list m2 p l.
Proof.
  revert p. induction l as [|q l IH]; intros p Hq; simpl; [done|].
  intros [-> Hl]. split; [done|]. rewrite <- (Hq q) by left. apply IH; [|done].
  intros. apply Hq. now right.
Qed.

Lemma free_list_frame m1 m2 p l q :
  Forall page_ok l -> page_ok q -> q ∉ l ->
  (forall x, ~ in_page q x -> mget m2 x = mget m1 x) ->
  free_list m1 p l -> free_list m2 p l.
Proof.
  intros Hl Hq Hn Hm. apply free_list_ext. intros r Hr. apply ldn_ext. intros i Hi.
  symmetry. apply Hm. intros Hi2. apply Hn.
  rewrite Forall_forall in Hl.
  rewrite (page_disjoint q r i); [done|done|now apply Hl|done|unfold in_page, PGSIZE; lia].
Qed.

(** Writing anywhere but in the free pages leaves the allocator alone. *)
Lemma kinv_frame s l m' :
  kinv s l -> (forall p x, p ∈ l -> in_page p x -> mget m' x = mget (k_mem s) x) ->
  kinv (set_mem m' s) l.
Proof.
  intros [Hu Hl Hnd Hok] Hm. split; simpl; try done.
  eapply free_list_ext; [|exact Hl]. intros q Hq. apply ldn_ext. intros i Hi.
  symmetry. apply (Hm q); [done|]. unfold in_page, PGSIZE. lia.
Qed.

(** ** What the operations compute *)

Lemma kalloc_empty s : kinv s [] -> kalloc s = Done 0 s.
Proof.
  intros [Hu Hl _ _]. simpl in Hl. unfold kalloc.
  rewrite (bind_Done _ _ _ _ _ (acquire_free k_lock_lens s (proj1 Hu))).
  unfold bind, gets, when, ret; simpl. rewrite Hl. simpl.
  erewrite (release_held k_lock_lens) by done. simpl. destruct s; simpl in *; now subst.
Qed.

Lemma kalloc_cons s p l :
  kinv s (p :: l) ->
  kalloc s = Done p (Kst (memset (k_mem s) p 5 PGSIZE) (k_lock s) (ld64 (k_mem s) p)).
Proof.
  intros [Hu [Hp _] _ Hok]. apply Forall_cons_1 in Hok as [Hok _].
  pose proof (page_ok_pos p Hok). unfold kalloc.
  rewrite (bind_Done _ _ _ _ _ (acquire_free k_lock_lens s (proj1 Hu))).
  unfold bind, gets, when, ret; simpl. rewrite Hp.
  destruct (Z.eqb_spec p 0); [lia|]. simpl. unfold modify.
  erewrite (release_held k_lock_lens) by done. done.
Qed.

Lemma kfree_eq s p :
  page_ok p -> unlocked (k_lock s) ->
  kfree p s = Done tt (Kst (st64 (memset (k_mem s) p 1 PGSIZE) p (k_freelist s)) (k_lock s) p).
Proof.
  intros Hok Hu. unfold kfree. rewrite page_ok_check by done.
  unfold bind at 1, panic_if, ret. unfold bind at 1, modify at 1.
  rewrite (bind_Done _ _ _ _ _ (acquire_free k_lock_lens (set_mem _ s) (proj1 Hu))).
  unfold bind, modify. erewrite (release_held k_lock_lens) by done. done.
Qed.

Lemma kalloc_inv s p l :
  kinv s (p :: l) ->
  exists s', kalloc s = Done p s' /\ kinv s' l /\
    (forall x, ~ in_page p x -> mget (k_mem s') x = mget (k_mem s) x) /\
    (forall x, in_page p x -> mget (k_mem s') x = 5).
Proof.
  intros Hi. rewrite (kalloc_cons s p l Hi). eexists. split; [done|]. simpl.
  destruct Hi as [Hu [Hp Hl] Hnd Hok].
  apply NoDup_cons in Hnd as [Hn Hnd]. apply Forall_cons_1 in Hok as [Hp' Hok].
  assert (Hout : forall x, ~ in_page p x ->
            mget (memset (k_mem s) p 5 PGSIZE) x = mget (k_mem s) x)
    by (intros; now apply mget_memset_ne).
  split; [|split; [done|intros; now apply mget_memset_in]].
  split; simpl; try done. eapply free_list_frame; eauto.
Qed.

Lemma kfree_inv s p l :
  kinv s l -> page_ok p -> p ∉ l ->
  exists s', kfree p s = Done tt s' /\ kinv s' (p :: l) /\
    (forall x, ~ in_page p x -> mget (k_mem s') x = mget (k_mem s) x).
Proof.
  intros [Hu Hl Hnd Hok] Hp Hn. rewrite kfree_eq by done. eexists. split; [done|]. simpl.
  pose proof (page_ok_pos p Hp).
  assert (Hout : forall x, ~ in_page p x ->
    mget (st64 (memset (k_mem s) p 1 PGSIZE) p (k_freelist s)) x = mget (k_mem s) x).
  { unfold in_page, PGSIZE. intros x Hx. rewrite mget_stn_ne, mget_memset_ne by lia. done. }
  split; [|done]. split; simpl; try done.
  - split; [done|]. rewrite ld64_st64_eq.
    assert (Hf : u64 (k_freelist s) = k_freelist s).
    { destruct l as [|q l]; simpl in Hl; [now rewrite Hl|]. destruct Hl as [-> _].
      apply Forall_cons_1 in Hok as [Hq _]. apply page_ok_pos in Hq. apply u64_small. lia. }
    rewrite Hf. eapply free_list_frame; eauto.
  - now constructor.
  - now constructor.
Qed.

(** ** Initialisation *)

Fixpoint page_range (p : Z) (n : nat) : list Z :=
  match n with
  | O => []
  | S n' => p :: page_range (p + PGSIZE) n'
  end.

Lemma elem_page_range p n q :
  q ∈ page_range p n <-> exists i, (i < n)%nat /\ q = p + Z.of_nat i * PGSIZE.
Proof.
  revert p. induction n as [|n IH]; intros p; simpl.
  - rewrite elem_of_nil. split; [done|]. intros (i & ? & _). lia.
  - rewrite elem_of_cons, IH. split.
    + intros [->|(i & Hi & ->)]; [exists O|exists (S i)]; lia.
    + intros ([|i] & Hi & ->); [left; lia|right]. exists i. lia.
Qed.

Lemma freerange_loop_spec n fuel p pa_end s l :
  (n < fuel)%nat -> p mod PGSIZE = 0 -> image_end <= p -> pa_end <= PHYSTOP ->
  p + Z.of_nat n * PGSIZE <= pa_end < p + Z.of_nat (S n) * PGSIZE ->
  kinv s l -> (forall q, q ∈ l -> ~ p <= q < pa_end) ->
  exists s', freerange_loop fuel p pa_end s = Done tt s' /\
    kinv s' (reverse (page_range p n) ++ l).
Proof.
  revert fuel p s l. induction n as [|n IH]; intros fuel p s l Hf Hal Hlo Hhi Hn Hi Hl;
    (destruct fuel as [|fuel]; [lia|]); cbn [freerange_loop].
  - destruct (Z.leb_spec (p + PGSIZE) pa_end); [lia|]. exists s. done.
  - destruct (Z.leb_spec (p + PGSIZE) pa_end); [|unfold PGSIZE in *; lia].
    destruct (kfree_inv s p l Hi) as (s1 & Hk & Hi1 & _).
    { split; [done|]. unfold PGSIZE in *. lia. }
    { intros Hp. apply (Hl _ Hp). unfold PGSIZE in *. lia. }
    rewrite (bind_Done _ _ _ _ _ Hk).
    destruct (IH fuel (p + PGSIZE) s1 (p :: l)) as (s' & Hr & Hi'); try done; try lia.
    { unfold PGSIZE in *. Z.div_mod_to_equations. lia. }
    { intros q [->|Hq]%elem_of_cons; [unfold PGSIZE; lia|].
      specialize (Hl q Hq). unfold PGSIZE in *. lia. }
    exists s'. split; [done|]. simpl page_range. rewrite reverse_cons, <- app_assoc. done.
Qed.

(** The pages [kinit] hands to the allocator. *)
Definition all_pages : list Z :=
  page_range (PGROUNDUP image_end) (Z.to_nat ((PHYSTOP - PGROUNDUP image_end) / PGSIZE)).

Lemma elem_all_pages q : q ∈ all_pages <-> page_ok q.
Proof.
  unfold all_pages, page_ok. rewrite elem_page_range.
  pose proof end_range as He.
  assert (Hr : PGROUNDUP image_end = (image_end + 4095) - (image_end + 4095) mod 4096).
  { apply PGROUNDUP_eq. unfold PHYSTOP, KERNBASE in *. lia. }
  rewrite Hr. unfold PHYSTOP, KERNBASE, PGSIZE in *. split.
  - intros (i & Hi & ->). Z.div_mod_to_equations. lia.
  - intros [Hq1 Hq2].
    exists (Z.to_nat ((q - ((image_end + 4095) - (image_end + 4095) mod 4096)) / 4096)).
    Z.div_mod_to_equations. lia.
Qed.

Lemma kinit_inv s :
  k_freelist s = 0 -> exists s', kinit s = Done tt s' /\ kinv s' (reverse all_pages).
Proof.
  intros Hf. unfold kinit. rewrite (bind_Done (modify _) _ s tt _ eq_refl).
  unfold freerange, all_pages. pose proof end_range as He.
  assert (Hr : PGROUNDUP image_end = (image_end + 4095) - (image_end + 4095) mod 4096).
  { apply PGROUNDUP_eq. unfold PHYSTOP, KERNBASE in *. lia. }
  assert (Hb : 0 <= PHYSTOP - PGROUNDUP image_end).
  { rewrite Hr. unfold PHYSTOP, KERNBASE in *. Z.div_mod_to_equations. lia. }
  destruct (freerange_loop_spec
    (Z.to_nat ((PHYSTOP - PGROUNDUP image_end) / PGSIZE))
    (S (Z.to_nat ((PHYSTOP - PGROUNDUP image_end) / PGSIZE)))
    (PGROUNDUP image_end) PHYSTOP (Kst (k_mem s) (initlock "kmem") (k_freelist s)) [])
    as (s' & Hs & Hi).
  - lia.
  - rewrite Hr. unfold PGSIZE. Z.div_mod_to_equations. lia.
  - rewrite Hr. Z.div_mod_to_equations. lia.
  - lia.
  - unfold PGSIZE in *. Z.div_mod_to_equations. lia.
  - split; simpl; try done; constructor.
  - intros q Hq. now apply not_elem_of_nil in Hq.
  - exists s'. split; [exact Hs|]. now rewrite app_nil_r in Hi.
Qed.

(** ** The allocator as a client sees it

    The specification keeps the free pages and the pages handed out; [None]
    is a request the specification does not allow (freeing a page that is not
    handed out). *)

Inductive kreq := ReqAlloc | ReqFree (p : Z).

Definition spec_step (r : kreq) (st : list Z * list Z) : option (Z * (list Z * list Z)) :=
  let '(free, used) := st in
  match r with
  | ReqAlloc => match free with
                | [] => Some (0, (free, used))
                | p :: free' => Some (p, (free', p :: used))
                end
  | ReqFree p => if decide (p ∈ used)
                 then Some (0, (p :: free, list_difference used [p]))
                 else None
  end.
Fixpoint spec_run (rs : list kreq) (st : list Z * list Z) : option (list Z * (list Z * list Z)) :=
  match rs with
  | [] => Some ([], st)
  | r :: rs' =>
      match spec_step r st with
      | None => None
      | Some (v, st') => match spec_run rs' st' with
                         | None => None
                         | Some (vs, st'') => Some (v :: vs, st'')
                         end
      end
  end.

Definition kreq_step (r : kreq) : M kst Z :=
  match r with
  | ReqAlloc => kalloc
  | ReqFree p => kfree p ;;; ret 0
  end.
Fixpoint kreq_run (rs : list kreq) : M kst (list Z) :=
  match rs with
  | [] => ret []
  | r :: rs' => v <-! kreq_step r ;; vs <-! kreq_run rs' ;; ret (v :: vs)
  end.

(** The pages are split between the free list and the clients. *)
Definition split_ok (free used : list Z) : Prop :=
  (forall p, p ∈ free -> p ∈ used -> False) /\
  (forall p, page_ok p <-> p ∈ free \/ p ∈ used).

Lemma kreq_step_refines r s free used v free' used' :
  kinv s free -> split_ok free used -> NoDup used ->
  spec_step r (free, used) = Some (v, (free', used')) ->
  exists s', kreq_step r s = Done v s' /\ kinv s' free' /\ split_ok free' used' /\ NoDup used'.
Proof.
  intros Hi [Hd Hall] Hnd Hs. destruct r as [|p]; simpl in *.
  - destruct free as [|p free]; simplify_eq.
    + exists s. rewrite kalloc_empty by done. done.
    + destruct (kalloc_inv _ _ _ Hi) as (s' & Hk & Hi' & _). exists s'. rewrite Hk.
      pose proof (kinv_nodup _ _ Hi) as Hnf. apply NoDup_cons in Hnf as [Hnp _].
      split; [done|]. split; [done|]. split; [split|].
      * intros q Hq [->|Hu]%elem_of_cons; [done|]. apply (Hd q); [now right|done].
      * intros q. rewrite Hall, !elem_of_cons. tauto.
      * constructor; [|done]. intros Hu. apply (Hd v); [left|done].
  - case_decide as Hu; simplify_eq.
    assert (Hp : page_ok p) by (apply Hall; now right).
    destruct (kfree_inv s p free Hi Hp) as (s' & Hk & Hi' & _); [eauto|].
    exists s'. rewrite (bind_Done _ _ _ _ _ Hk).
    split; [done|]. split; [done|]. split; [split|].
    + intros q Hq [Hq1 Hq2]%list_elem_of_difference. rewrite list_elem_of_singleton in Hq2.
      apply elem_of_cons in Hq as [->|Hq]; [done|]. eauto.
    + intros q. rewrite Hall, elem_of_cons, list_elem_of_difference, list_elem_of_singleton.
      destruct (decide (q = p)) as [->|]; tauto.
    + now apply NoDup_list_difference.
Qed.

Lemma kreq_run_refines rs s free used vs free' used' :
  kinv s free -> split_ok free used -> NoDup used ->
  spec_run rs (free, used) = Some (vs, (free', used')) ->
  exists s', kreq_run rs s = Done vs s' /\ kinv s' free' /\ split_ok free' used' /\ NoDup used'.
Proof.
  revert s free used vs. induction rs as [|r rs IH]; intros s free used vs Hi Hok Hnd Hs.
  - simpl in Hs. simplify_eq. exists s. done.
  - cbn [spec_run] in Hs. destruct (spec_step r (free, used)) as [[v [f1 u1]]|] eqn:E1; [|done].
    destruct (spec_run rs (f1, u1)) as [[vs1 [f2 u2]]|] eqn:E2; simplify_eq.
    destruct (kreq_step_refines _ _ _ _ _ _ _ Hi Hok Hnd E1) as (s1 & H1 & Hi1 & Hok1 & Hnd1).
    destruct (IH _ _ _ _ Hi1 Hok1 Hnd1 E2) as (s2 & H2 & Hrest).
    exists s2. split; [|done]. cbn [kreq_run].
    rewrite (bind_Done _ _ _ _ _ H1), (bind_Done _ _ _ _ _ H2). done.
Qed.

(** C8: the linked-list allocator refines an allocator that keeps an explicit
    list.  After [kinit], every sequence of [kalloc]s and of [kfree]s of pages
    then in use returns exactly what the specification returns, without
    panicking; the pages of RAM above the kernel image stay split between the
    free list and the clients, no page being in both or handed out twice. *)
Theorem kalloc_refines_spec rs s vs free' used' :
  k_freelist s = 0 ->
  spec_run rs (reverse all_pages, []) = Some (vs, (free', used')) ->
  exists s', (kinit ;;; kreq_run rs) s = Done vs s' /\
    kinv s' free' /\ split_ok free' used' /\ NoDup used'.
Proof.
  intros Hf Hs. destruct (kinit_inv s Hf) as (s1 & Hk & Hi).
  rewrite (bind_Done _ _ _ _ _ Hk). eapply kreq_run_refines; eauto.
  - split; [intros p _ Hp; now apply not_elem_of_nil in Hp|].
    intros p. rewrite elem_of_reverse, elem_all_pages, elem_of_nil. tauto.
  - constructor.
Qed.

(** What a successful [kalloc] gives its caller: the page at the head of
    the free list, filled with the byte 5; every byte outside the page keeps
    its value, and the rest of the free list is intact.  With an empty free
    list [kalloc] returns 0 and changes nothing. *)
Theorem kalloc_page s l :
  kinv s l ->
  match l with
  | [] => kalloc s = Done 0 s
  | p :: l' => exists s', kalloc s = Done p s' /\ kinv s' l' /\ page_ok p /\ p ∉ l' /\
      (forall x, in_page p x -> mget (k_mem s') x = 5) /\
      (forall x, ~ in_page p x -> mget (k_mem s') x = mget (k_mem s) x)
  end.
Proof.
  intros Hi. destruct l as [|p l']; [now apply kalloc_empty|].
  destruct (kalloc_inv _ _ _ Hi) as (s' & Hk & Hi' & Hout & Hin). exists s'.
  pose proof (kinv_nodup _ _ Hi) as Hnd. apply NoDup_cons in Hnd as [Hn _].
  pose proof (kinv_pages _ _ Hi) as Hp. apply Forall_cons_1 in Hp as [Hp _]. done.
Qed.

(** [kfree] panics exactly on addresses that are not page-aligned or do
    not lie between the end of the kernel image and the top of RAM. *)
Theorem kfree_panics_iff s pa :
  unlocked (k_lock s) -> 0 <= pa < 2 ^ 64 ->
  (kfree pa s = Panic "kfree" <-> ~ page_ok pa).
Proof.
  intros Hu Hpa. split.
  - intros Hk Hok. now rewrite kfree_eq in Hk.
  - intros Hn. unfold kfree, bind, panic_if.
    destruct (_ || _ || _) eqn:E; [done|]. exfalso. apply Hn. unfold page_ok.
    rewrite u64_small in E by lia.
    apply orb_false_iff in E as [[E1 E2]%orb_false_iff E3].
    apply negb_false_iff, Z.eqb_eq in E1. apply Z.ltb_ge in E2. apply Z.leb_gt in E3. lia.
Qed.
End Kalloc.

(** A kernel image that leaves two pages of RAM. *)
Module KallocExample.
#[export] Instance ctx : Ctx := {| mycpu := 0; mypid := 1 |}.
#[export] Instance image : Image :=
  {| image_end := PHYSTOP - 2 * PGSIZE - 100; etext := KERNBASE + PGSIZE; trampoline := KERNBASE |}.
#[export] Instance image_ok : ImageOk.
Proof. split; split; vm_compute; reflexivity || discriminate. Qed.
Definition boot : kst := Kst ∅ (initlock "") 0.

Lemma kalloc_refines_spec_witness :
  exists s', (kinit ;;; kreq_run [ReqAlloc; ReqAlloc; ReqAlloc; ReqFree (PHYSTOP - PGSIZE); ReqAlloc])
               boot
    = Done [PHYSTOP - PGSIZE; PHYSTOP - 2 * PGSIZE; 0; 0; PHYSTOP - PGSIZE] s'.
Proof.
  destruct (kalloc_refines_spec
    [ReqAlloc; ReqAlloc; ReqAlloc; ReqFree (PHYSTOP - PGSIZE); ReqAlloc] boot
    [PHYSTOP - PGSIZE; PHYSTOP - 2 * PGSIZE; 0; 0; PHYSTOP - PGSIZE]
    [] [PHYSTOP - PGSIZE; PHYSTOP - 2 * PGSIZE]) as (s' & H & _);
    [reflexivity|vm_compute; reflexivity|]. exists s'. exact H.
Defined.

(** One free page, whose [next] pointer is null. *)
Definition one_page : kst := Kst ∅ (initlock "kmem") (PHYSTOP - PGSIZE).

Lemma kalloc_page_witness :
  exists s', kalloc one_page = Done (PHYSTOP - PGSIZE) s' /\ mget (k_mem s') (PHYSTOP - 1) = 5.
Proof.
  destruct (kalloc_page one_page [PHYSTOP - PGSIZE]) as (s' & H & _ & _ & _ & H5 & _).
  - split; [split; reflexivity|split; [reflexivity|vm_compute; reflexivity]| |].
    + apply NoDup_singleton.
    + constructor; [|constructor]. split; [reflexivity|vm_compute; split; [discriminate|reflexivity]].
  - exists s'. split; [exact H|]. apply H5. vm_compute. split; [discriminate|reflexivity].
Defined.

Lemma kfree_panics_iff_witness : kfree 4097 boot = Panic "kfree".
Proof.
  apply (kfree_panics_iff boot 4097); [split; reflexivity|lia|].
  intros [H _]. vm_compute in H. discriminate.
Defined.
End KallocExample.
