(* ===== verification/Vm.v ===== *)
(** * Virtual memory: kernel/vm.c (and [proc_mapstacks], [proc_pagetable],
    [proc_freepagetable] of kernel/proc.c)

    Page tables live in physical memory, one Sv39 page of 512 entries per
    node; a [pagetable_t] is the address of the root page and a [pte_t*] the
    address of an entry, 0 standing for the null pointer. A kernel buffer that
    is copied to or from user memory is a list of bytes. *)

From S2P Require Import Prelude Memory Riscv Spinlock Kalloc.

Definition NPROC : Z := 64.

Section Vm.
Context `{HC : Ctx} `{HI : Image}.

Definition load (a : Z) : M kst Z := gets (fun s => ld64 (k_mem s) a).
Definition store (a v : Z) : M kst unit := modify (fun s => set_mem (st64 (k_mem s) a v) s).
Definition kmemset (a c n : Z) : M kst unit := modify (fun s => set_mem (memset (k_mem s) a c n) s).

(** The loop of [walk] from [level] down; it ends with the entry's address. *)
Fixpoint walk_loop (level : nat) (pagetable va : Z) (alloc : bool) : M kst Z :=
  match level with
  | O => ret (pagetable + 8 * PX 0 va)
  | S level' =>
      let pte := pagetable + 8 * PX (Z.of_nat level) va in
      v <-! load pte ;;
      if negb (Z.land v PTE_V =? 0) then walk_loop level' (PTE2PA v) va alloc
      else if negb alloc then ret 0
      else p <-! kalloc ;;
           if p =? 0 then ret 0
           else kmemset p 0 PGSIZE ;;;
                store pte (Z.lor (PA2PTE p) PTE_V) ;;;
                walk_loop level' p va alloc
  end.
Definition walk (pagetable va : Z) (alloc : bool) : M kst Z :=
  panic_if (MAXVA <=? va) "walk" ;;;
  walk_loop 2 pagetable va alloc.

Definition walkaddr (pagetable va : Z) : M kst Z :=
  if MAXVA <=? va then ret 0
  else pte <-! walk pagetable va false ;;
       if pte =? 0 then ret 0
       else v <-! load pte ;;
            if Z.land v PTE_V =? 0 then ret 0
            else if Z.land v PTE_U =? 0 then ret 0
            else ret (PTE2PA v).

Fixpoint mappages_loop (fuel : nat) (pagetable a last pa perm : Z) : M kst Z :=
  match fuel with
  | O => diverge
  | S fuel' =>
      pte <-! walk pagetable a true ;;
      if pte =? 0 then ret (-1)
      else v <-! load pte ;;
           panic_if (negb (Z.land v PTE_V =? 0)) "mappages: remap" ;;;
           store pte (Z.lor (Z.lor (PA2PTE pa) perm) PTE_V) ;;;
           if a =? last then ret 0
           else mappages_loop fuel' pagetable (u64 (a + PGSIZE)) last (u64 (pa + PGSIZE)) perm
  end.
(** When [va + size - 1] wraps around, [a] runs past [last] and the loop ends
    in [walk]'s panic at [MAXVA]. *)
Definition mappages_fuel (a last : Z) : nat :=
  S (Z.to_nat (if a <=? last then (last - a) / PGSIZE else MAXVA / PGSIZE)).
Definition mappages (pagetable va size pa perm : Z) : M kst Z :=
  panic_if (size =? 0) "mappages: size" ;;;
  let a := PGROUNDDOWN va in
  let last := PGROUNDDOWN (u64 (va + size - 1)) in
  mappages_loop (mappages_fuel a last) pagetable a last pa perm.

Definition kvmmap (kpgtbl va pa sz perm : Z) : M kst unit :=
  r <-! mappages kpgtbl va sz pa perm ;;
  panic_if (negb (r =? 0)) "kvmmap".

(** kernel/proc.c *)
Definition proc_mapstacks (kpgtbl : Z) : M kst unit :=
  for_each (upto NPROC) (fun p =>
    pa <-! kalloc ;;
    panic_if (pa =? 0) "kalloc" ;;;
    kvmmap kpgtbl (KSTACK p) pa PGSIZE (Z.lor PTE_R PTE_W)).

(** [kvmmake] does not check its [kalloc]: with no free page it clears
    memory through a null pointer. *)
Definition kvmmake : M kst Z :=
  kpgtbl <-! kalloc ;;
  (if kpgtbl =? 0 then undef else ret tt) ;;;
  kmemset kpgtbl 0 PGSIZE ;;;
  kvmmap kpgtbl UART0 UART0 PGSIZE (Z.lor PTE_R PTE_W) ;;;
  kvmmap kpgtbl VIRTIO0 VIRTIO0 PGSIZE (Z.lor PTE_R PTE_W) ;;;
  kvmmap kpgtbl PLIC PLIC 0x400000 (Z.lor PTE_R PTE_W) ;;;
  kvmmap kpgtbl KERNBASE KERNBASE (etext - KERNBASE) (Z.lor PTE_R PTE_X) ;;;
  kvmmap kpgtbl etext etext (PHYSTOP - etext) (Z.lor PTE_R PTE_W) ;;;
  kvmmap kpgtbl TRAMPOLINE trampoline PGSIZE (Z.lor PTE_R PTE_X) ;;;
  proc_mapstacks kpgtbl ;;;
  ret kpgtbl.

Fixpoint uvmunmap_loop (fuel : nat) (pagetable a bound : Z) (do_free : bool) : M kst unit :=
  match fuel with
  | O => diverge
  | S fuel' =>
      if a <? bound then
        pte <-! walk pagetable a false ;;
        panic_if (pte =? 0) "uvmunmap: walk" ;;;
        v <-! load pte ;;
        panic_if (Z.land v PTE_V =? 0) "uvmunmap: not mapped" ;;;
        panic_if (PTE_FLAGS v =? PTE_V) "uvmunmap: not a leaf" ;;;
        when do_free (kfree (PTE2PA v)) ;;;
        store pte 0 ;;;
        uvmunmap_loop fuel' pagetable (u64 (a + PGSIZE)) bound do_free
      else ret tt
  end.
Definition uvmunmap (pagetable va npages : Z) (do_free : bool) : M kst unit :=
  panic_if (negb (va mod PGSIZE =? 0)) "uvmunmap: not aligned" ;;;
  uvmunmap_loop (S (Z.to_nat npages)) pagetable va (u64 (va + npages * PGSIZE)) do_free.

Definition uvmcreate : M kst Z :=
  pagetable <-! kalloc ;;
  if pagetable =? 0 then ret 0
  else kmemset pagetable 0 PGSIZE ;;; ret pagetable.

(** Like [kvmmake], [uvmfirst] trusts its [kalloc]. *)
Definition uvmfirst (pagetable : Z) (src : list Z) : M kst unit :=
  let sz := Z.of_nat (length src) in
  panic_if (PGSIZE <=? sz) "uvmfirst: more than a page" ;;;
  p <-! kalloc ;;
  (if p =? 0 then undef else ret tt) ;;;
  kmemset p 0 PGSIZE ;;;
  _ <-! mappages pagetable 0 PGSIZE p (Z.lor (Z.lor (Z.lor PTE_W PTE_R) PTE_X) PTE_U) ;;
  modify (fun s => set_mem (write_bytes (k_mem s) p src) s).

Definition uvmdealloc (pagetable oldsz newsz : Z) : M kst Z :=
  if oldsz <=? newsz then ret oldsz
  else
    when (PGROUNDUP newsz <? PGROUNDUP oldsz)
      (let npages := i32 ((PGROUNDUP oldsz - PGROUNDUP newsz) / PGSIZE) in
       uvmunmap pagetable (PGROUNDUP newsz) (u64 npages) true) ;;;
    ret newsz.

Fixpoint uvmalloc_loop (fuel : nat) (pagetable a oldsz newsz xperm : Z) : M kst Z :=
  match fuel with
  | O => diverge
  | S fuel' =>
      if a <? newsz then
        p <-! kalloc ;;
        if p =? 0 then
          _ <-! uvmdealloc pagetable a oldsz ;; ret 0
        else
          kmemset p 0 PGSIZE ;;;
          r <-! mappages pagetable a PGSIZE p (Z.lor (Z.lor PTE_R PTE_U) xperm) ;;
          if negb (r =? 0) then
            kfree p ;;;
            _ <-! uvmdealloc pagetable a oldsz ;; ret 0
          else uvmalloc_loop fuel' pagetable (u64 (a + PGSIZE)) oldsz newsz xperm
      else ret newsz
  end.
Definition uvmalloc (pagetable oldsz newsz xperm : Z) : M kst Z :=
  if newsz <? oldsz then ret oldsz
  else
    let oldsz := PGROUNDUP oldsz in
    uvmalloc_loop (S (S (Z.to_nat ((newsz - oldsz) / PGSIZE)))) pagetable oldsz oldsz newsz xperm.

(** Page tables have three levels: [depth] bounds the recursion. *)
Fixpoint freewalk_rec (depth : nat) (pagetable : Z) : M kst unit :=
  match depth with
  | O => diverge
  | S depth' =>
      for_each (upto 512) (fun i =>
        pte <-! load (pagetable + 8 * i) ;;
        if negb (Z.land pte PTE_V =? 0) &&
           (Z.land pte (Z.lor (Z.lor PTE_R PTE_W) PTE_X) =? 0)
        then freewalk_rec depth' (PTE2PA pte) ;;;
             store (pagetable + 8 * i) 0
        else panic_if (negb (Z.land pte PTE_V =? 0)) "freewalk: leaf") ;;;
      kfree pagetable
  end.
Definition freewalk (pagetable : Z) : M kst unit := freewalk_rec 3 pagetable.

Definition uvmfree (pagetable sz : Z) : M kst unit :=
  when (0 <? sz) (uvmunmap pagetable 0 (PGROUNDUP sz / PGSIZE) true) ;;;
  freewalk pagetable.

Fixpoint uvmcopy_loop (fuel : nat) (old new i sz : Z) : M kst Z :=
  match fuel with
  | O => diverge
  | S fuel' =>
      if i <? sz then
        pte <-! walk old i false ;;
        panic_if (pte =? 0) "uvmcopy: pte should exist" ;;;
        v <-! load pte ;;
        panic_if (Z.land v PTE_V =? 0) "uvmcopy: page not present" ;;;
        let pa := PTE2PA v in
        let flags := PTE_FLAGS v in
        p <-! kalloc ;;
        if p =? 0 then
          uvmunmap new 0 (i / PGSIZE) true ;;; ret (-1)
        else
          modify (fun s => set_mem (memmove (k_mem s) p pa PGSIZE) s) ;;;
          r <-! mappages new i PGSIZE p flags ;;
          if negb (r =? 0) then
            kfree p ;;;
            uvmunmap new 0 (i / PGSIZE) true ;;; ret (-1)
          else uvmcopy_loop fuel' old new (u64 (i + PGSIZE)) sz
      else ret 0
  end.
Definition uvmcopy (old new sz : Z) : M kst Z :=
  uvmcopy_loop (S (S (Z.to_nat (sz / PGSIZE)))) old new 0 sz.

Definition uvmclear (pagetable va : Z) : M kst unit :=
  pte <-! walk pagetable va false ;;
  panic_if (pte =? 0) "uvmclear" ;;;
  v <-! load pte ;;
  store pte (Z.land v (u64 (Z.lnot PTE_U))).

Fixpoint copyout_loop (fuel : nat) (pagetable dstva : Z) (src : list Z) : M kst Z :=
  match fuel with
  | O => diverge
  | S fuel' =>
      let len := Z.of_nat (length src) in
      if 0 <? len then
        let va0 := PGROUNDDOWN dstva in
        pa0 <-! walkaddr pagetable va0 ;;
        if pa0 =? 0 then ret (-1)
        else
          let n := PGSIZE - (dstva - va0) in
          let n := if len <? n then len else n in
          modify (fun s => set_mem (write_bytes (k_mem s) (pa0 + (dstva - va0)) (take (Z.to_nat n) src)) s) ;;;
          copyout_loop fuel' pagetable (u64 (va0 + PGSIZE)) (drop (Z.to_nat n) src)
      else ret 0
  end.
Definition copyout (pagetable dstva : Z) (src : list Z) : M kst Z :=
  copyout_loop (S (length src)) pagetable dstva src.

(** [copyin] returns its result and the bytes it stored at [dst], which are
    fewer than [len] when it fails half way. *)
Fixpoint copyin_loop (fuel : nat) (pagetable srcva len : Z) (dst : list Z) : M kst (Z * list Z) :=
  match fuel with
  | O => diverge
  | S fuel' =>
      if 0 <? len then
        let va0 := PGROUNDDOWN srcva in
        pa0 <-! walkaddr pagetable va0 ;;
        if pa0 =? 0 then ret (-1, dst)
        else
          let n := PGSIZE - (srcva - va0) in
          let n := if len <? n then len else n in
          bs <-! gets (fun s => read_bytes (k_mem s) (pa0 + (srcva - va0)) (Z.to_nat n)) ;;
          copyin_loop fuel' pagetable (u64 (va0 + PGSIZE)) (len - n) (dst ++ bs)
      else ret (0, dst)
  end.
Definition copyin (pagetable srcva len : Z) : M kst (Z * list Z) :=
  copyin_loop (S (Z.to_nat len)) pagetable srcva len [].

(** The inner loop of [copyinstr] over the bytes of one page: the bytes
    stored and whether the NUL was among them. *)
Fixpoint copyinstr_page (m : mem) (p : Z) (n : nat) : bool * list Z :=
  match n with
  | O => (false, [])
  | S n' => if mget m p =? 0 then (true, [0])
            else let '(got_null, bs) := copyinstr_page m (p + 1) n' in
                 (got_null, mget m p :: bs)
  end.
Fixpoint copyinstr_loop (fuel : nat) (pagetable srcva max : Z) (got_null : bool) (dst : list Z) : M kst (Z * list Z) :=
  match fuel with
  | O => diverge
  | S fuel' =>
      if negb got_null && (0 <? max) then
        let va0 := PGROUNDDOWN srcva in
        pa0 <-! walkaddr pagetable va0 ;;
        if pa0 =? 0 then ret (-1, dst)
        else
          let n := PGSIZE - (srcva - va0) in
          let n := if max <? n then max else n in
          r <-! gets (fun s => copyinstr_page (k_mem s) (pa0 + (srcva - va0)) (Z.to_nat n)) ;;
          copyinstr_loop fuel' pagetable (u64 (va0 + PGSIZE))
            (if r.1 then max - Z.of_nat (length r.2) + 1 else max - n) r.1 (dst ++ r.2)
      else ret (if got_null then 0 else -1, dst)
  end.
Definition copyinstr (pagetable srcva max : Z) : M kst (Z * list Z) :=
  copyinstr_loop (S (S (Z.to_nat max))) pagetable srcva max false [].

(** kernel/proc.c; [p->trapframe] is the argument. *)
Definition proc_pagetable (trapframe : Z) : M kst Z :=
  pagetable <-! uvmcreate ;;
  if pagetable =? 0 then ret 0
  else
    r <-! mappages pagetable TRAMPOLINE PGSIZE trampoline (Z.lor PTE_R PTE_X) ;;
    if r <? 0 then uvmfree pagetable 0 ;;; ret 0
    else
      r <-! mappages pagetable TRAPFRAME PGSIZE trapframe (Z.lor PTE_R PTE_W) ;;
      if r <? 0 then
        uvmunmap pagetable TRAMPOLINE 1 false ;;;
        uvmfree pagetable 0 ;;; ret 0
      else ret pagetable.

Definition proc_freepagetable (pagetable sz : Z) : M kst unit :=
  uvmunmap pagetable TRAMPOLINE 1 false ;;;
  uvmunmap pagetable TRAPFRAME 1 false ;;;
  uvmfree pagetable sz.

(** [either_copyout] and [either_copyin] with [p->pagetable]; the kernel side
    of the copy is the list of bytes. *)
Definition either_copyout (pagetable : Z) (user_dst : bool) (dst : Z) (src : list Z) : M kst Z :=
  if user_dst then copyout pagetable dst src
  else modify (fun s => set_mem (write_bytes (k_mem s) dst src) s) ;;; ret 0.
Definition either_copyin (pagetable : Z) (user_src : bool) (src len : Z) : M kst (Z * list Z) :=
  if user_src then copyin pagetable src len
  else bs <-! gets (fun s => read_bytes (k_mem s) src (Z.to_nat len)) ;; ret (0, bs).
End Vm.
