(* ===== verification/VmWalk.v ===== *)
(** * Page tables as trees: [walk], [walkaddr] and [mappages]

    A ghost tree [T] names the pages of a page table by the indices that lead
    to them from the root ([[]], [[i2]] or [[i2; i1]]).  [wf m T root] says
    that the entries in memory are those of the tree; [pte_at m T va] is the
    leaf entry for [va], the abstract page table the theorems speak about. *)

From S2P Require Import Prelude Memory Riscv Spinlock Kalloc Vm.

Notation tree := (gmap (list Z) Z).

(** The indices [walk] follows below level [n]. *)
Fixpoint path (n : nat) (va : Z) : list Z :=
  match n with
  | O => []
  | S n' => PX (Z.of_nat n) va :: path n' va
  end.

Definition tpage (T : tree) (p : Z) : Prop := exists k, T !! k = Some p.

Definition pte_at (m : mem) (T : tree) (va : Z) : Z :=
  match T !! path 2 va with
  | Some p => ld64 m (p + 8 * PX 0 va)
  | None => 0
  end.

Lemma path2 va : path 2 va = [PX 2 va; PX 1 va].
Proof. reflexivity. Qed.

Section VmWalk.
Context `{HC : Ctx} `{HI : Image} `{HO : !ImageOk}.

Record wf (m : mem) (T : tree) (root : Z) : Prop := {
  wf_root : T !! [] = Some root;
  wf_page : forall k p, T !! k = Some p -> page_ok p /\ (length k <= 2)%nat;
  wf_inj : forall k1 k2 p, T !! k1 = Some p -> T !! k2 = Some p -> k1 = k2;
  wf_closed : forall k i q, T !! (k ++ [i]) = Some q -> 0 <= i < 512 /\ is_Some (T !! k);
  wf_entry : forall k p i, T !! k = Some p -> (length k < 2)%nat -> 0 <= i < 512 ->
    match T !! (k ++ [i]) with
    | Some q => ld64 m (p + 8 * i) = Z.lor (PA2PTE q) PTE_V
    | None => Z.land (ld64 m (p + 8 * i)) PTE_V = 0
    end;
  wf_low : forall i k p, T !! (i :: k) = Some p -> i < 256
}.

(** The tree's pages are the allocator's, none of them free. *)
Record pt_inv (s : kst) (l : list Z) (T : tree) (root : Z) : Prop := {
  pt_kinv : kinv s l;
  pt_wf : wf (k_mem s) T root;
  pt_free : forall p, tpage T p -> p ∉ l
}.

(** The table grew: nodes were added from the head of the free list, no leaf
    entry changed, and memory outside the tree is untouched. *)
Record grows (s : kst) (l : list Z) (T : tree) (s' : kst) (l' : list Z) (T' : tree) : Prop := {
  grows_sub : T ⊆ T';
  grows_list : exists used, l = used ++ l' /\ forall p, tpage T' p <-> tpage T p \/ p ∈ used;
  grows_pte : forall va, pte_at (k_mem s') T' va = pte_at (k_mem s) T va;
  grows_frame : forall x, (forall p, tpage T' p -> ~ in_page p x) ->
    mget (k_mem s') x = mget (k_mem s) x
}.

Lemma tpage_sub T T' p : T ⊆ T' -> tpage T p -> tpage T' p.
Proof. intros Hs [k Hk]. exists k. eapply lookup_weaken; eauto. Qed.

Lemma grows_refl s l T : grows s l T s l T.
Proof. split; try done. exists []. split; [done|]. intros p. rewrite elem_of_nil. tauto. Qed.

Lemma grows_trans s l T s1 l1 T1 s2 l2 T2 :
  grows s l T s1 l1 T1 -> grows s1 l1 T1 s2 l2 T2 -> grows s l T s2 l2 T2.
Proof.
  intros [S1 (u1 & L1 & P1) E1 F1] [S2 (u2 & L2 & P2) E2 F2]. split.
  - by etrans.
  - exists (u1 ++ u2). split; [subst; now rewrite app_assoc|].
    intros p. rewrite P2, P1, elem_of_app. tauto.
  - intros. now rewrite E2, E1.
  - intros x Hx. rewrite F2 by done. apply F1. intros p Hp. apply Hx.
    eapply tpage_sub; eauto.
Qed.

(** ** Addresses of entries *)

Lemma entry_in_page p i x : 0 <= i < 512 -> p + 8 * i <= x < p + 8 * i + 8 -> in_page p x.
Proof. unfold in_page, PGSIZE. lia. Qed.

Lemma ld64_page_ext m1 m2 p i :
  0 <= i < 512 -> (forall x, in_page p x -> mget m2 x = mget m1 x) ->
  ld64 m2 (p + 8 * i) = ld64 m1 (p + 8 * i).
Proof.
  intros Hi H. apply ldn_ext. intros x Hx. apply H. apply (entry_in_page p i); lia.
Qed.

Lemma ld64_other_page m a v p q i :
  page_ok p -> page_ok q -> p <> q -> 0 <= i < 512 ->
  (forall x, a <= x < a + 8 -> in_page p x) ->
  ld64 (st64 m a v) (q + 8 * i) = ld64 m (q + 8 * i).
Proof.
  intros Hp Hq Hne Hi Ha. apply ld64_page_ext; [done|]. intros x Hx.
  apply mget_stn_ne. intros Hx2. apply Hne. eapply page_disjoint; eauto.
Qed.

Lemma page_ok_56 p : page_ok p -> 0 <= p < 2 ^ 56 /\ p mod 4096 = 0.
Proof. intros Hp. pose proof (page_ok_pos p Hp). destruct Hp. unfold PGSIZE in *. lia. Qed.

Lemma wf_prefix m T root k k' q : wf m T root -> T !! (k ++ k') = Some q -> is_Some (T !! k).
Proof.
  intros Hwf. revert q. induction k' as [|i k' IH] using rev_ind; intros q Hq.
  - rewrite app_nil_r in Hq. eauto.
  - rewrite app_assoc in Hq. apply (wf_closed _ _ _ Hwf) in Hq as [_ [q' Hq']]. eauto.
Qed.

Lemma path_range n va i : i ∈ path n va -> 0 <= i < 512.
Proof.
  induction n as [|n IH]; simpl; [intros H; now apply elem_of_nil in H|].
  intros [->|H]%elem_of_cons; [apply PX_range; lia|auto].
Qed.

(** ** Walking without allocating *)

Lemma node_entry m T root k p i :
  wf m T root -> T !! k = Some p -> (length k < 2)%nat -> 0 <= i < 512 ->
  match T !! (k ++ [i]) with
  | Some q => Z.land (ld64 m (p + 8 * i)) PTE_V <> 0 /\ PTE2PA (ld64 m (p + 8 * i)) = q
  | None => Z.land (ld64 m (p + 8 * i)) PTE_V = 0
  end.
Proof.
  intros Hwf Hk Hlen Hi. pose proof (wf_entry _ _ _ Hwf k p i Hk Hlen Hi) as He.
  destruct (T !! (k ++ [i])) as [q|] eqn:Hq; [|done].
  destruct (wf_page _ _ _ Hwf _ _ Hq) as [Hok _]. apply page_ok_56 in Hok as [H1 H2].
  rewrite He. split.
  - rewrite land_PTE_make by auto with xv6. discriminate.
  - apply PTE2PA_make; auto with xv6.
Qed.

Lemma walk_loop_noalloc n k p va s T root :
  wf (k_mem s) T root -> T !! k = Some p -> (length k + n = 2)%nat ->
  walk_loop n p va false s =
  Done (match T !! (k ++ path n va) with Some q => q + 8 * PX 0 va | None => 0 end) s.
Proof.
  intros Hwf. revert k p. induction n as [|n IH]; intros k p Hk Hlen.
  - simpl. now rewrite app_nil_r, Hk.
  - cbn [walk_loop path]. unfold load, bind at 1, gets.
    pose proof (node_entry _ _ _ k p (PX (Z.of_nat (S n)) va) Hwf Hk ltac:(lia)
      ltac:(apply PX_range; lia)) as He.
    replace (k ++ PX (Z.of_nat (S n)) va :: path n va)
      with ((k ++ [PX (Z.of_nat (S n)) va]) ++ path n va) by now rewrite <- app_assoc.
    destruct (T !! (k ++ [PX (Z.of_nat (S n)) va])) as [q|] eqn:Hq.
    + destruct He as [Hv <-]. apply Z.eqb_neq in Hv. rewrite Hv. simpl negb. cbv iota.
      apply IH; [done|]. rewrite length_app. simpl. lia.
    + rewrite He. simpl. destruct (T !! ((k ++ _) ++ _)) eqn:Hx; [|done].
      apply (wf_prefix _ _ _ _ _ _ Hwf) in Hx as [? Hx]. congruence.
Qed.

(** A node that is there is found whether or not [walk] may allocate. *)
Lemma walk_loop_found n k p va s T root :
  wf (k_mem s) T root -> T !! k = Some p -> (length k + n = 2)%nat ->
  forall q, T !! (k ++ path n va) = Some q -> forall alloc,
  walk_loop n p va alloc s = Done (q + 8 * PX 0 va) s.
Proof.
  intros Hwf. revert k p. induction n as [|n IH]; intros k p Hk Hlen q Hq alloc.
  - cbn [path walk_loop] in *. rewrite app_nil_r, Hk in Hq. now injection Hq as ->.
  - cbn [walk_loop path] in *. unfold load. rewrite (bind_Done (gets _) _ s _ s eq_refl).
    pose proof (node_entry _ _ _ k p (PX (Z.of_nat (S n)) va) Hwf Hk ltac:(lia)
      ltac:(apply PX_range; lia)) as He.
    replace (k ++ PX (Z.of_nat (S n)) va :: path n va)
      with ((k ++ [PX (Z.of_nat (S n)) va]) ++ path n va) in Hq by now rewrite <- app_assoc.
    destruct (wf_prefix _ _ _ _ _ _ Hwf Hq) as [q1 Hq1]. rewrite Hq1 in He.
    destruct He as [Hv <-]. apply Z.eqb_neq in Hv. rewrite Hv. cbn [negb].
    apply (IH (k ++ [PX (Z.of_nat (S n)) va])); try done. rewrite length_app. simpl. lia.
Qed.

Lemma walk_noalloc va s T root :
  wf (k_mem s) T root -> va < MAXVA ->
  walk root va false s =
  Done (match T !! path 2 va with Some q => q + 8 * PX 0 va | None => 0 end) s.
Proof.
  intros Hwf Hva. unfold walk, panic_if, bind. destruct (Z.leb_spec MAXVA va); [lia|].
  simpl. apply (walk_loop_noalloc 2 [] root va s T root Hwf); [apply Hwf|done].
Qed.

(** ** Allocating a node *)

Section AllocNode.
Context (s : kst) (q : Z) (l : list Z) (T : tree) (root : Z) (k : list Z) (p i : Z).
Context (Hinv : pt_inv s (q :: l) T root) (Hk : T !! k = Some p)
  (Hlen : (length k < 2)%nat) (Hi : 0 <= i < 512) (Hnone : T !! (k ++ [i]) = None)
  (Hlow : k = [] -> i < 256).
Context (m1 : mem).
Context (Hm1 : forall x, ~ in_page q x -> mget m1 x = mget (k_mem s) x).

Let m2 := st64 (memset m1 q 0 PGSIZE) (p + 8 * i) (Z.lor (PA2PTE q) PTE_V).
Let T' := <[k ++ [i] := q]> T.

Lemma an_pages : page_ok p /\ page_ok q /\ p <> q /\ ~ tpage T q /\ q ∉ l.
Proof.
  destruct Hinv as [[_ _ Hnd Hok] Hwf Hfree].
  apply Forall_cons_1 in Hok as [Hq _]. apply NoDup_cons in Hnd as [Hn _].
  destruct (wf_page _ _ _ Hwf _ _ Hk) as [Hp _].
  assert (Hnt : ~ tpage T q) by (intros Ht; apply (Hfree q Ht); left).
  conjs; try done. intros ->. apply Hnt. eexists; eauto.
Qed.

Lemma an_outside x :
  ~ in_page q x -> ~ (p + 8 * i <= x < p + 8 * i + 8) -> mget m2 x = mget (k_mem s) x.
Proof.
  intros H1 H2. unfold m2. rewrite mget_stn_ne by lia.
  rewrite mget_memset_ne by (unfold in_page in *; lia). auto.
Qed.

Lemma an_new_entry : ld64 m2 (p + 8 * i) = Z.lor (PA2PTE q) PTE_V.
Proof.
  destruct an_pages as (_ & Hq & _). apply page_ok_56 in Hq as [Hq _].
  unfold m2. rewrite ld64_st64_eq. apply u64_small, PTE_make_range; auto with xv6.
Qed.

Lemma an_new_page j : 0 <= j < 512 -> ld64 m2 (q + 8 * j) = 0.
Proof.
  intros Hj. destruct an_pages as (Hp & Hq & Hne & _).
  unfold m2. rewrite (ld64_other_page _ _ _ p q j) by
    (try done; intros x Hx; apply (entry_in_page p i); lia).
  apply ld64_memset_0; unfold PGSIZE; lia.
Qed.

Lemma an_old_entry r j :
  page_ok r -> r <> q -> 0 <= j < 512 -> r <> p \/ i <> j ->
  ld64 m2 (r + 8 * j) = ld64 (k_mem s) (r + 8 * j).
Proof.
  intros Hr Hrq Hj Hor. destruct an_pages as (Hp & Hq & Hne & _).
  apply ldn_ext. intros x Hx.
  assert (Hxr : in_page r x) by (apply (entry_in_page r j); lia).
  apply an_outside.
  - intros Hxq. apply Hrq. eapply page_disjoint; eauto.
  - intros Hxp. destruct Hor as [Hrp|Hij].
    + apply Hrp. eapply page_disjoint; eauto. apply (entry_in_page p i); lia.
    + destruct (decide (r = p)) as [->|Hrp]; [lia|].
      apply Hrp. eapply page_disjoint; eauto. apply (entry_in_page p i); lia.
Qed.

Lemma an_lookup k2 p2 : T !! k2 = Some p2 -> k2 <> k ++ [i] /\ p2 <> q /\ page_ok p2.
Proof.
  intros H2. destruct an_pages as (_ & _ & _ & Hnt & _). conjs.
  - congruence.
  - intros ->. apply Hnt. eexists; eauto.
  - eapply (wf_page _ _ _ (pt_wf _ _ _ _ Hinv)); eauto.
Qed.

Lemma an_wf : wf m2 T' root.
Proof.
  destruct an_pages as (Hp & Hq & Hne & Hnt & Hnl).
  pose proof (pt_wf _ _ _ _ Hinv) as Hwf. unfold T'. split.
  - rewrite lookup_insert_ne by (now destruct k). apply Hwf.
  - intros k2 p2 H2. apply lookup_insert_Some in H2 as [[<- <-]|[_ H2]].
    + rewrite length_app. simpl. split; [done|lia].
    + eapply Hwf; eauto.
  - intros k1 k2 r H1 H2.
    apply lookup_insert_Some in H1 as [[E1 F1]|[_ H1]];
      apply lookup_insert_Some in H2 as [[E2 F2]|[_ H2]].
    + congruence.
    + exfalso. apply Hnt. exists k2. congruence.
    + exfalso. apply Hnt. exists k1. congruence.
    + eapply Hwf; eauto.
  - intros k2 j r H2. apply lookup_insert_Some in H2 as [[He _]|[_ H2]].
    + apply app_inj_tail in He as [<- <-]. split; [done|].
      rewrite lookup_insert_ne by (intros Hx; apply (f_equal length) in Hx;
        rewrite length_app in Hx; simpl in Hx; lia). eauto.
    + destruct (wf_closed _ _ _ Hwf _ _ _ H2) as [Hj [p2 Hp2]]. split; [done|].
      destruct (an_lookup _ _ Hp2) as [Hn _]. rewrite lookup_insert_ne by done. eauto.
  - intros k2 p2 j H2 Hl2 Hj. apply lookup_insert_Some in H2 as [[<- <-]|[Hn H2]].
    + rewrite lookup_insert_ne by (intros Hx; apply (f_equal length) in Hx;
        rewrite !length_app in Hx; simpl in Hx; lia).
      destruct (T !! ((k ++ [i]) ++ [j])) eqn:Hx.
      * apply (wf_closed _ _ _ Hwf) in Hx as [_ [? Hx]]. congruence.
      * now rewrite an_new_page.
    + destruct (an_lookup _ _ H2) as (_ & Hpq & Hok2).
      destruct (decide (k ++ [i] = k2 ++ [j])) as [He|He].
      * apply app_inj_tail in He as [<- <-]. rewrite lookup_insert_eq.
        assert (p2 = p) as -> by congruence. apply an_new_entry.
      * rewrite lookup_insert_ne by done. rewrite an_old_entry; try done.
        -- eapply Hwf; eauto.
        -- destruct (decide (p2 = p)) as [->|]; [right|now left]. intros <-.
           apply He. f_equal. eapply Hwf; eauto.
  - intros j k2 p2 [[He _]|[_ H2]]%lookup_insert_Some; [|by eapply (wf_low _ _ _ Hwf)].
    destruct k as [|j' k'] eqn:Ek; injection He as <- _; [auto|by eapply (wf_low _ _ _ Hwf)].
Qed.

Lemma an_pte va : pte_at m2 T' va = pte_at (k_mem s) T va.
Proof.
  unfold pte_at, T'. pose proof (pt_wf _ _ _ _ Hinv) as Hwf.
  destruct (decide (k ++ [i] = path 2 va)) as [He|He].
  - rewrite <- He, lookup_insert_eq, Hnone.
    apply an_new_page, PX_range. lia.
  - rewrite lookup_insert_ne by done. destruct (T !! path 2 va) as [r|] eqn:Hr; [|done].
    destruct (an_lookup _ _ Hr) as (_ & Hrq & Hrok). apply an_old_entry; try done.
    + apply PX_range. lia.
    + left. intros Hrp. subst r. pose proof (wf_inj _ _ _ Hwf _ _ _ Hr Hk) as Hx.
      pose proof Hlen as Hl2. rewrite <- Hx in Hl2. simpl in Hl2. lia.
Qed.

Lemma an_tpage r : tpage T' r <-> tpage T r \/ r = q.
Proof.
  unfold T'. split.
  - intros [k2 H2]. apply lookup_insert_Some in H2 as [[_ <-]|[_ H2]]; [now right|].
    left. eexists; eauto.
  - intros [[k2 H2]| ->].
    + exists k2. rewrite lookup_insert_ne; [done|]. congruence.
    + exists (k ++ [i]). apply lookup_insert_eq.
Qed.
End AllocNode.

(** One level of [walk] that finds no node and allocates one. *)
Lemma alloc_node s q l T root k p i :
  pt_inv s (q :: l) T root -> T !! k = Some p -> (length k < 2)%nat -> 0 <= i < 512 ->
  T !! (k ++ [i]) = None -> (k = [] -> i < 256) ->
  exists s', (r <-! kalloc ;; kmemset r 0 PGSIZE ;;; store (p + 8 * i) (Z.lor (PA2PTE r) PTE_V) ;;; ret r) s
      = Done q s' /\
    pt_inv s' l (<[k ++ [i] := q]> T) root /\ grows s (q :: l) T s' l (<[k ++ [i] := q]> T).
Proof.
  intros Hinv Hk Hlen Hi Hnone Hlow.
  destruct (kalloc_inv _ _ _ (pt_kinv _ _ _ _ Hinv)) as (s1 & Hka & Hk1 & Hout & _).
  destruct (an_pages s q l T root k p i Hinv Hk (k_mem s1)) as (Hp & Hq & Hne & Hnt & Hnl).
  exists (set_mem (st64 (memset (k_mem s1) q 0 PGSIZE) (p + 8 * i) (Z.lor (PA2PTE q) PTE_V)) s1).
  rewrite (bind_Done _ _ _ _ _ Hka). split; [done|].
  pose proof (an_wf s q l T root k p i Hinv Hk Hlen Hi Hnone Hlow _ Hout) as Hwf'.
  pose proof (an_outside s q k p i Hlen _ Hout) as Hfr.
  pose proof (an_tpage q T k i Hnone) as Htp.
  assert (Hframe : forall x, (forall r, tpage (<[k ++ [i] := q]> T) r -> ~ in_page r x) ->
    mget (st64 (memset (k_mem s1) q 0 PGSIZE) (p + 8 * i) (Z.lor (PA2PTE q) PTE_V)) x
    = mget (k_mem s) x).
  { intros x Hx. apply Hfr.
    - apply Hx, Htp. now right.
    - intros Hx2. apply (Hx p).
      + apply Htp. left. exists k. exact Hk.
      + apply (entry_in_page p i); lia. }
  split.
  - split.
    + apply kinv_frame; [done|]. intros r x Hr Hx.
      assert (Hrok : page_ok r).
      { pose proof (kinv_pages _ _ Hk1) as Hf. rewrite Forall_forall in Hf. auto. }
      assert (r <> q) by congruence.
      assert (Hrp : r <> p).
      { intros ->. apply (pt_free _ _ _ _ Hinv p); [exists k; exact Hk|now right]. }
      rewrite Hfr.
      * symmetry. apply Hout. intros Hx2. apply H. eapply page_disjoint; eauto.
      * intros Hx2. apply H. eapply page_disjoint; eauto.
      * intros Hx2. apply Hrp. eapply page_disjoint; eauto. apply (entry_in_page p i); lia.
    + exact Hwf'.
    + intros r Hr Hrl. apply Htp in Hr as [Hr| ->]; [|done].
      apply (pt_free _ _ _ _ Hinv r Hr). now right.
  - split.
    + apply insert_subseteq. exact Hnone.
    + exists [q]. split; [done|]. intros r. rewrite list_elem_of_singleton. apply Htp.
    + intros va. apply (an_pte s q l T root k p i Hinv Hk Hlen Hi Hnone _ Hout).
    + exact Hframe.
Qed.

(** New nodes are on the path of [va]. *)
Definition keys_from (T T' : tree) (P : list Z -> Prop) : Prop := forall k, is_Some (T' !! k) -> is_Some (T !! k) \/ P k.
Lemma keys_from_trans T1 T2 T3 P : keys_from T1 T2 P -> keys_from T2 T3 P -> keys_from T1 T3 P.
Proof. intros H1 H2 k Hk. apply H2 in Hk as [Hk|Hk]; [by apply H1|by right]. Qed.

Lemma walk_loop_alloc n k p va s l T root :
  pt_inv s l T root -> T !! k = Some p -> (length k + n = 2)%nat -> 0 <= va < MAXVA ->
  exists r s' l' T', walk_loop n p va true s = Done r s' /\ pt_inv s' l' T' root /\
    grows s l T s' l' T' /\ keys_from T T' (fun k' => k' `prefix_of` (k ++ path n va)) /\
    (r = 0 /\ l' = [] \/ exists q, T' !! (k ++ path n va) = Some q /\ r = q + 8 * PX 0 va).
Proof.
  revert k p s l T. induction n as [|n IH]; intros k p s l T Hinv Hk Hlen Hva.
  - exists (p + 8 * PX 0 va), s, l, T. simpl. conjs; auto using grows_refl; [by left|].
    right. exists p. now rewrite app_nil_r.
  - set (i := PX (Z.of_nat (S n)) va).
    assert (Hi : 0 <= i < 512) by (apply PX_range; lia).
    pose proof (node_entry _ _ _ k p i (pt_wf _ _ _ _ Hinv) Hk ltac:(lia) Hi) as He.
    cbn [walk_loop path]. fold i. unfold load. rewrite (bind_Done (gets _) _ s _ s eq_refl).
    replace (k ++ i :: path n va) with ((k ++ [i]) ++ path n va) by now rewrite <- app_assoc.
    destruct (T !! (k ++ [i])) as [q|] eqn:Hq.
    + destruct He as [Hv Hpa]. apply Z.eqb_neq in Hv. rewrite Hv, Hpa. simpl negb. cbv iota.
      apply IH; [done|done| |done]. rewrite length_app. simpl. lia.
    + rewrite He, Z.eqb_refl. cbn [negb]. destruct l as [|q l].
      * rewrite (bind_Done _ _ _ _ _ (kalloc_empty s (pt_kinv _ _ _ _ Hinv))). simpl.
        exists 0, s, [], T. conjs; auto using grows_refl. by left.
      * assert (Hlow : k = [] -> i < 256).
        { intros ->. assert (n = 1%nat) as -> by (simpl in Hlen; lia). now apply PX_low. }
        destruct (alloc_node s q l T root k p i Hinv Hk ltac:(lia) Hi Hq Hlow)
          as (s1 & Hs1 & Hinv1 & Hg1).
        pose proof (pt_kinv _ _ _ _ Hinv) as Hki. destruct (kalloc_inv _ _ _ Hki) as (s0 & Hka & _).
        rewrite (bind_Done _ _ _ _ _ Hka) in Hs1. rewrite (bind_Done _ _ _ _ _ Hka).
        destruct Hki as [_ _ _ Hok]. apply Forall_cons_1 in Hok as [Hok _].
        apply page_ok_pos in Hok. destruct (Z.eqb_spec q 0); [lia|].
        apply bind_Done_inv in Hs1 as ([] & s2 & Hs2 & Hs1).
        apply bind_Done_inv in Hs1 as ([] & s3 & Hs3 & Hs1). injection Hs1 as <-.
        rewrite (bind_Done _ _ _ _ _ Hs2), (bind_Done _ _ _ _ _ Hs3).
        destruct (IH (k ++ [i]) q s3 l (<[k ++ [i] := q]> T) Hinv1) as (r & s' & l' & T' & Hw & Hi' & Hg & Hks & Hr).
        { apply lookup_insert_eq. }
        { rewrite length_app. simpl. lia. }
        { done. }
        exists r, s', l', T'. conjs; try done; [eapply grows_trans; eauto|].
        intros k' Hk'. apply Hks in Hk' as [Hk'|Hk']; [|by right]. destruct (decide (k' = k ++ [i])) as [->|Hne]; [right; by exists (path n va)|].
        left. by rewrite lookup_insert_ne in Hk' by done.
Qed.

Lemma walk_alloc va s l T root :
  pt_inv s l T root -> 0 <= va < MAXVA ->
  exists r s' l' T', walk root va true s = Done r s' /\ pt_inv s' l' T' root /\
    grows s l T s' l' T' /\ keys_from T T' (fun k => k `prefix_of` path 2 va) /\
    (r = 0 /\ l' = [] \/ exists q, T' !! path 2 va = Some q /\ r = q + 8 * PX 0 va).
Proof.
  intros Hinv Hva. unfold walk, panic_if. destruct (Z.leb_spec MAXVA va); [lia|].
  rewrite (bind_Done (ret tt) _ s tt s eq_refl).
  apply (walk_loop_alloc 2 [] root va s l T root Hinv); [apply Hinv|done|done].
Qed.

(** ** Writing a leaf entry *)

Lemma page_entry_pos p i : page_ok p -> 0 <= i -> 0 < p + 8 * i.
Proof. intros Hp Hi. apply page_ok_pos in Hp. lia. Qed.

Lemma store_leaf s l T root va q v :
  pt_inv s l T root -> T !! path 2 va = Some q -> 0 <= va < MAXVA ->
  pt_inv (set_mem (st64 (k_mem s) (q + 8 * PX 0 va) v) s) l T root /\
  (forall va', 0 <= va' < MAXVA ->
     pte_at (st64 (k_mem s) (q + 8 * PX 0 va) v) T va' =
     if va' / 4096 =? va / 4096 then u64 v else pte_at (k_mem s) T va') /\
  (forall x, ~ in_page q x -> mget (st64 (k_mem s) (q + 8 * PX 0 va) v) x = mget (k_mem s) x).
Proof.
  intros [Hk Hwf Hfree] Hq Hva.
  assert (Hi : 0 <= PX 0 va < 512) by (apply PX_range; lia).
  destruct (wf_page _ _ _ Hwf _ _ Hq) as [Hqok _].
  assert (Hfr : forall x, ~ in_page q x ->
            mget (st64 (k_mem s) (q + 8 * PX 0 va) v) x = mget (k_mem s) x).
  { intros x Hx. apply mget_stn_ne. intros Hx2. apply Hx.
    apply (entry_in_page q (PX 0 va)); lia. }
  split; [|split; [|done]].
  - split.
    + apply kinv_frame; [done|]. intros r x Hr Hx. apply Hfr. intros Hx2.
      apply (Hfree q); [eexists; eauto|].
      assert (page_ok r) by (pose proof (kinv_pages _ _ Hk) as Hf; rewrite Forall_forall in Hf; auto).
      now rewrite (page_disjoint q r x).
    + destruct Hwf as [W1 W2 W3 W4 W5]. split; try done.
      intros k p i Hkp Hlen Hj. specialize (W5 k p i Hkp Hlen Hj). cbn [set_mem k_mem].
      rewrite (ld64_other_page _ _ _ q p i); try done.
      * now destruct (W2 _ _ Hkp).
      * intros <-. pose proof (W3 _ _ _ Hq Hkp) as Hx. rewrite <- Hx in Hlen. simpl in Hlen. lia.
      * intros x Hx. apply (entry_in_page q (PX 0 va)); lia.
    + done.
  - intros va' Hva'. unfold pte_at.
    pose proof (PX_page va' va Hva' Hva) as Hpx.
    destruct (Z.eqb_spec (va' / 4096) (va / 4096)) as [He|He].
    + apply Hpx in He as (E2 & E1 & E0).
      assert (path 2 va' = path 2 va) as -> by (rewrite !path2; now rewrite E2, E1).
      rewrite Hq, E0. apply ld64_st64_eq.
    + destruct (T !! path 2 va') as [q'|] eqn:Hq'; [|done].
      assert (Hj : 0 <= PX 0 va' < 512) by (apply PX_range; lia).
      destruct (decide (q' = q)) as [->|Hne].
      * pose proof (wf_inj _ _ _ Hwf _ _ _ Hq Hq') as Hx. rewrite !path2 in Hx. injection Hx as Hx2 Hx1.
        apply ld64_st64_ne. destruct (Z.lt_trichotomy (PX 0 va) (PX 0 va')) as [?|[Hx0|?]]; [lia| |lia].
        exfalso. apply He, Hpx. auto.
      * apply (ld64_other_page _ _ _ q q'); try done.
        -- eapply (wf_page _ _ _ Hwf); eauto.
        -- intros x Hx. apply (entry_in_page q (PX 0 va)); lia.
Qed.

(** ** Mapping a range *)

(** What an operation on a table may do besides changing leaf entries: take
    pages off the free list for new nodes, and write inside its own nodes. *)
Record pt_step (s : kst) (l : list Z) (T : tree) (s' : kst) (l' : list Z) (T' : tree)
  (root : Z) : Prop := {
  ps_inv : pt_inv s' l' T' root;
  ps_sub : T ⊆ T';
  ps_list : exists used, l = used ++ l' /\ forall p, tpage T' p <-> tpage T p \/ p ∈ used;
  ps_frame : forall x, (forall p, tpage T' p -> ~ in_page p x) ->
    mget (k_mem s') x = mget (k_mem s) x
}.

Lemma pt_step_trans s l T s1 l1 T1 s2 l2 T2 root :
  pt_step s l T s1 l1 T1 root -> pt_step s1 l1 T1 s2 l2 T2 root -> pt_step s l T s2 l2 T2 root.
Proof.
  intros [_ S1 (u1 & L1 & P1) F1] [I2 S2 (u2 & L2 & P2) F2]. split; [done|by etrans| |].
  - exists (u1 ++ u2). split; [subst; now rewrite app_assoc|].
    intros p. rewrite P2, P1, elem_of_app. tauto.
  - intros x Hx. rewrite F2 by done. apply F1. intros p Hp. apply Hx. eapply tpage_sub; eauto.
Qed.

Lemma pt_step_refl s l T root : pt_inv s l T root -> pt_step s l T s l T root.
Proof. intros Hi. split; try done. exists []. split; [done|]. intros p. rewrite elem_of_nil. tauto. Qed.

Lemma grows_step s l T s' l' T' root :
  grows s l T s' l' T' -> pt_inv s' l' T' root -> pt_step s l T s' l' T' root.
Proof. intros [S L _ F] Hi. by split. Qed.

Definition map_range (f : Z -> Z) (a j pa perm va : Z) : Z :=
  if (a <=? va) && (va <? a + j * 4096)
  then Z.lor (Z.lor (PA2PTE (pa + (va / 4096 * 4096 - a))) perm) PTE_V
  else f va.

Lemma lor_perm_range pa perm :
  0 <= pa < 2 ^ 56 -> 0 <= perm < 1024 ->
  Z.lor (Z.lor (PA2PTE pa) perm) PTE_V = Z.lor (PA2PTE pa) (Z.lor perm PTE_V) /\
  0 <= Z.lor perm PTE_V < 1024.
Proof.
  intros Hpa Hp. split; [now rewrite Z.lor_assoc|]. split; [apply Z.lor_nonneg; split; [lia|apply PTE_V_range]|].
  apply (lor_bound 10); [lia|done|apply PTE_V_range].
Qed.

Lemma map_range_one f a pa perm va :
  a mod 4096 = 0 ->
  map_range f a 1 pa perm va =
  if va / 4096 =? a / 4096 then Z.lor (Z.lor (PA2PTE pa) perm) PTE_V else f va.
Proof.
  intros Ha. unfold map_range.
  destruct (Z.eqb_spec (va / 4096) (a / 4096)) as [He|He].
  - destruct (Z.leb_spec a va), (Z.ltb_spec va (a + 1 * 4096));
      try (exfalso; Z.div_mod_to_equations; lia).
    simpl. do 2 f_equal. f_equal. Z.div_mod_to_equations. lia.
  - destruct (Z.leb_spec a va), (Z.ltb_spec va (a + 1 * 4096)); try done.
    exfalso. apply He. Z.div_mod_to_equations. lia.
Qed.

Lemma map_range_cons f a j pa perm va :
  a mod 4096 = 0 -> 0 <= j ->
  map_range (map_range f a 1 pa perm) (a + 4096) j (pa + 4096) perm va =
  map_range f a (1 + j) pa perm va.
Proof.
  intros Ha Hj. unfold map_range.
  destruct (Z.leb_spec (a + 4096) va), (Z.ltb_spec va (a + 4096 + j * 4096)),
    (Z.leb_spec a va), (Z.ltb_spec va (a + (1 + j) * 4096)), (Z.ltb_spec va (a + 1 * 4096));
    simpl; try lia; try done.
  do 2 f_equal. f_equal. lia.
Qed.

Lemma mappages_one fuel a pa s l T root perm last :
  pt_inv s l T root -> a mod 4096 = 0 -> 0 <= a < MAXVA ->
  0 <= pa < 2 ^ 56 -> 0 <= perm < 1024 ->
  Z.land (pte_at (k_mem s) T a) PTE_V = 0 ->
  exists s' l' T', pt_step s l T s' l' T' root /\ keys_from T T' (fun k => k `prefix_of` path 2 a) /\
    (mappages_loop (S fuel) root a last pa perm s = Done (-1) s' /\ l' = [] /\
       (forall va, pte_at (k_mem s') T' va = pte_at (k_mem s) T va) \/
     mappages_loop (S fuel) root a last pa perm s =
       (if a =? last then ret 0
        else mappages_loop fuel root (u64 (a + PGSIZE)) last (u64 (pa + PGSIZE)) perm) s' /\
       (forall va, 0 <= va < MAXVA ->
          pte_at (k_mem s') T' va = map_range (pte_at (k_mem s) T) a 1 pa perm va)).
Proof.
  intros Hinv Hal Ha Hpa Hperm Hv.
  destruct (walk_alloc a s l T root Hinv ltac:(lia)) as (r & s1 & l1 & T1 & Hw & Hi1 & Hg & Hks & Hr).
  cbn [mappages_loop]. rewrite (bind_Done _ _ _ _ _ Hw).
  destruct Hr as [[-> ->]|(q & Hq & ->)].
  - exists s1, [], T1. split; [now apply grows_step|]. split; [done|]. left. split; [done|].
    split; [done|]. apply Hg.
  - destruct (store_leaf s1 l1 T1 root a q (Z.lor (Z.lor (PA2PTE pa) perm) PTE_V) Hi1 Hq Ha)
      as (Hi2 & Hpte & Hfr).
    destruct (wf_page _ _ _ (pt_wf _ _ _ _ Hi1) _ _ Hq) as [Hqok _].
    pose proof (page_entry_pos q (PX 0 a) Hqok ltac:(apply PX_range; lia)).
    destruct (Z.eqb_spec (q + 8 * PX 0 a) 0); [lia|].
    eexists (set_mem _ s1), l1, T1. split; [eapply pt_step_trans; [eapply grows_step; eassumption|]|split; [done|]].
    + split; [exact Hi2|done|exists []; split; [done|intros p; rewrite elem_of_nil; tauto]|].
      intros x Hx. apply Hfr. apply Hx. eexists; eauto.
    + right. split.
      * unfold load. rewrite (bind_Done (gets _) _ s1 _ s1 eq_refl).
        pose proof (grows_pte _ _ _ _ _ _ Hg a) as Hp. unfold pte_at at 1 in Hp.
        rewrite Hq in Hp. rewrite Hp, Hv. done.
      * intros va Hva. simpl. rewrite Hpte, map_range_one by done.
        destruct (_ =? _).
        -- destruct (lor_perm_range pa perm Hpa Hperm) as [-> Hx]. apply u64_small.
           now apply PTE_make_range.
        -- apply Hg.
Qed.

Lemma mappages_loop_spec n fuel a pa s l T root perm :
  (n < fuel)%nat -> pt_inv s l T root -> a mod 4096 = 0 -> 0 <= a ->
  a + (Z.of_nat n + 1) * 4096 <= MAXVA -> 0 <= pa ->
  pa + (Z.of_nat n + 1) * 4096 <= 2 ^ 56 -> 0 <= perm < 1024 ->
  (forall j, 0 <= j <= Z.of_nat n -> Z.land (pte_at (k_mem s) T (a + j * 4096)) PTE_V = 0) ->
  exists r j s' l' T',
    mappages_loop fuel root a (a + Z.of_nat n * 4096) pa perm s = Done r s' /\
    pt_step s l T s' l' T' root /\ keys_from T T' (fun k => exists x, a <= x < a + (Z.of_nat n + 1) * 4096 /\ k `prefix_of` path 2 x) /\
    (r = 0 /\ j = Z.of_nat n + 1 \/ r = -1 /\ 0 <= j <= Z.of_nat n /\ l' = []) /\
    forall va, 0 <= va < MAXVA ->
      pte_at (k_mem s') T' va = map_range (pte_at (k_mem s) T) a j pa perm va.
Proof.
  revert fuel a pa s l T. induction n as [|n IH];
    intros fuel a pa s l T Hf Hinv Hal Ha0 Ha Hpa0 Hpa Hperm Hv;
    (destruct fuel as [|fuel]; [lia|]).
  - pose proof (Hv 0 ltac:(lia)) as Hv0. rewrite Z.mul_0_l, Z.add_0_r in Hv0.
    destruct (mappages_one fuel a pa s l T root perm (a + Z.of_nat 0 * 4096))
      as (s1 & l1 & T1 & Hstep & Hks & [(Hm & -> & Hp)|(Hm & Hp)]); try done; try lia;
    (assert (Hks' : forall n, 0 <= n -> keys_from T T1 (fun k => exists x, a <= x < a + (n + 1) * 4096 /\ k `prefix_of` path 2 x)) by (intros n' Hn' k Hk; apply Hks in Hk as [?|?]; [by left|right; exists a; split; [lia|done]])).
    + exists (-1), 0, s1, [], T1. conjs; try done; [apply Hks'; lia|right; conjs; lia || done|]. intros va Hva.
      rewrite Hp. unfold map_range.
      destruct (Z.leb_spec a va), (Z.ltb_spec va (a + 0 * 4096)); simpl; lia || done.
    + exists 0, 1, s1, l1, T1. conjs; try done; [|apply Hks'; lia|now left].
      rewrite Hm. destruct (Z.eqb_spec a (a + Z.of_nat 0 * 4096)); [done|lia].
  - pose proof (Hv 0 ltac:(lia)) as Hv0. rewrite Z.mul_0_l, Z.add_0_r in Hv0.
    destruct (mappages_one fuel a pa s l T root perm (a + Z.of_nat (S n) * 4096))
      as (s1 & l1 & T1 & Hstep & Hks & [(Hm & -> & Hp)|(Hm & Hp)]); try done; try lia;
    (assert (Hks' : forall n, 0 <= n -> keys_from T T1 (fun k => exists x, a <= x < a + (n + 1) * 4096 /\ k `prefix_of` path 2 x)) by (intros n' Hn' k Hk; apply Hks in Hk as [?|?]; [by left|right; exists a; split; [lia|done]])).
    + exists (-1), 0, s1, [], T1. conjs; try done; [apply Hks'; lia|right; conjs; lia || done|]. intros va Hva.
      rewrite Hp. unfold map_range.
      destruct (Z.leb_spec a va), (Z.ltb_spec va (a + 0 * 4096)); simpl; lia || done.
    + destruct (IH fuel (a + 4096) (pa + 4096) s1 l1 T1)
        as (r & j & s2 & l2 & T2 & Hr & Hst & Hks2 & Hj & Hp2); try lia.
      * apply Hstep.
      * Z.div_mod_to_equations. lia.
      * intros j Hj. rewrite Hp by lia.
        unfold map_range. destruct (Z.leb_spec a (a + 4096 + j * 4096)), (Z.ltb_spec (a + 4096 + j * 4096) (a + 1 * 4096)); simpl; try lia.
        replace (a + 4096 + j * 4096) with (a + (1 + j) * 4096) by lia. apply Hv. lia.
      * exists r, (1 + j), s2, l2, T2. conjs.
        -- rewrite Hm. destruct (Z.eqb_spec a (a + Z.of_nat (S n) * 4096)); [lia|].
           unfold PGSIZE. rewrite !u64_small by (rewrite MAXVA_eq in *; lia).
           replace (a + Z.of_nat (S n) * 4096) with (a + 4096 + Z.of_nat n * 4096) by lia. done.
        -- eapply pt_step_trans; eauto.
        -- eapply keys_from_trans; [apply Hks'; lia|]. intros k Hk. apply Hks2 in Hk as [?|(x & Hx & ?)]; [by left|right; exists x; split; [lia|done]].
        -- destruct Hj as [Hj|(? & ? & ?)]; [left; lia|right; conjs; lia || done].
        -- intros va Hva. rewrite Hp2 by done. rewrite <- map_range_cons by lia.
           unfold map_range at 1 2. destruct (_ && _); [done|]. apply Hp. done.
Qed.

(** The number of pages [mappages] maps. *)
Definition npages (va size : Z) : Z :=
  (PGROUNDDOWN (va + size - 1) - PGROUNDDOWN va) / 4096 + 1.

Lemma mappages_keys va size pa perm s l T root :
  pt_inv s l T root -> 0 < size -> 0 <= va -> va + size <= MAXVA ->
  0 <= pa -> pa + npages va size * 4096 <= 2 ^ 56 -> 0 <= perm < 1024 ->
  (forall j, 0 <= j < npages va size ->
     Z.land (pte_at (k_mem s) T (PGROUNDDOWN va + j * 4096)) PTE_V = 0) ->
  exists r j s' l' T', mappages root va size pa perm s = Done r s' /\
    pt_step s l T s' l' T' root /\ keys_from T T' (fun k => exists x, PGROUNDDOWN va <= x < PGROUNDDOWN va + npages va size * 4096 /\ k `prefix_of` path 2 x) /\
    (r = 0 /\ j = npages va size \/ r = -1 /\ 0 <= j < npages va size /\ l' = []) /\
    forall va', 0 <= va' < MAXVA ->
      pte_at (k_mem s') T' va' =
      map_range (pte_at (k_mem s) T) (PGROUNDDOWN va) j pa perm va'.
Proof.
  intros Hinv Hsz Hva Hmax Hpa0 Hpa Hperm Hv.
  unfold mappages, npages in *. rewrite MAXVA_eq in Hmax.
  unfold panic_if. destruct (Z.eqb_spec size 0); [lia|].
  rewrite (bind_Done (ret tt) _ s tt s eq_refl).
  rewrite (u64_small (va + size - 1)) by lia.
  pose proof (PGROUNDDOWN_aligned va ltac:(lia)) as A1.
  pose proof (PGROUNDDOWN_aligned (va + size - 1) ltac:(lia)) as A2.
  pose proof (PGROUNDDOWN_bounds va ltac:(lia)) as B1.
  pose proof (PGROUNDDOWN_bounds (va + size - 1) ltac:(lia)) as B2.
  set (a := PGROUNDDOWN va) in *. set (last := PGROUNDDOWN (va + size - 1)) in *.
  assert (Hle : 0 <= a <= last) by (Z.div_mod_to_equations; lia).
  pose proof (Z.div_pos (last - a) 4096 ltac:(lia) ltac:(lia)) as Hn0.
  assert (Hlast : last = a + Z.of_nat (Z.to_nat ((last - a) / 4096)) * 4096).
  { rewrite Z2Nat.id by lia. Z.div_mod_to_equations. lia. }
  destruct (mappages_loop_spec (Z.to_nat ((last - a) / 4096)) (mappages_fuel a last) a pa s l T root perm)
    as (r & j & s' & l' & T' & Hr & Hst & Hks & Hj & Hp); try done; try lia.
  - unfold mappages_fuel, PGSIZE. destruct (Z.leb_spec a last); lia.
  - rewrite MAXVA_eq. rewrite Z2Nat.id by lia. Z.div_mod_to_equations. lia.
  - intros i Hi. apply Hv. lia.
  - exists r, j, s', l', T'. rewrite <- Hlast in Hr. conjs; try done.
    + intros k Hk. apply Hks in Hk as [?|(x & Hx & ?)]; [by left|right; exists x; split; [lia|done]].
    + destruct Hj as [?|(? & ? & ?)]; [left; lia|right; conjs; lia || done].
Qed.

Lemma mappages_spec va size pa perm s l T root :
  pt_inv s l T root -> 0 < size -> 0 <= va -> va + size <= MAXVA ->
  0 <= pa -> pa + npages va size * 4096 <= 2 ^ 56 -> 0 <= perm < 1024 ->
  (forall j, 0 <= j < npages va size ->
     Z.land (pte_at (k_mem s) T (PGROUNDDOWN va + j * 4096)) PTE_V = 0) ->
  exists r j s' l' T', mappages root va size pa perm s = Done r s' /\
    pt_step s l T s' l' T' root /\
    (r = 0 /\ j = npages va size \/ r = -1 /\ 0 <= j < npages va size /\ l' = []) /\
    forall va', 0 <= va' < MAXVA ->
      pte_at (k_mem s') T' va' =
      map_range (pte_at (k_mem s) T) (PGROUNDDOWN va) j pa perm va'.
Proof.
  intros. destruct (mappages_keys va size pa perm s l T root) as (r & j & s' & l' & T' & ? & ? & _ & ?); try done. by exists r, j, s', l', T'.
Qed.

Lemma walkaddr_spec va s T root :
  wf (k_mem s) T root ->
  walkaddr root va s = Done (
    if MAXVA <=? va then 0
    else let v := pte_at (k_mem s) T va in
         if (Z.land v PTE_V =? 0) || (Z.land v PTE_U =? 0) then 0 else PTE2PA v) s.
Proof.
  intros Hwf. unfold walkaddr. destruct (Z.leb_spec MAXVA va); [done|].
  rewrite (bind_Done _ _ _ _ _ (walk_noalloc va s T root Hwf ltac:(lia))).
  unfold pte_at. destruct (T !! path 2 va) as [q|] eqn:Hq; [|done].
  destruct (wf_page _ _ _ Hwf _ _ Hq) as [Hok _].
  pose proof (page_entry_pos q (PX 0 va) Hok ltac:(apply PX_range; lia)).
  destruct (Z.eqb_spec (q + 8 * PX 0 va) 0); [lia|].
  unfold load. rewrite (bind_Done (gets _) _ s _ s eq_refl). cbv zeta.
  destruct (_ =? 0); [done|]. simpl. now destruct (_ =? 0).
Qed.

(** ** The contracts *)

(** [walk] finds the leaf entry.  Without [alloc] it returns the address
    of the leaf entry for [va] in the table, or 0 when the table has no node
    for it, and changes nothing.  With [alloc] it returns the leaf's address in
    a table that has at most gained nodes taken from the free list, or 0 with
    the free list exhausted; no leaf entry of the table and no memory outside
    the table's own pages changes. *)
Theorem walk_correct va s l T root :
  pt_inv s l T root -> 0 <= va < MAXVA ->
  walk root va false s =
    Done (match T !! path 2 va with Some q => q + 8 * PX 0 va | None => 0 end) s /\
  exists r s' l' T', walk root va true s = Done r s' /\ pt_inv s' l' T' root /\
    grows s l T s' l' T' /\
    (r = 0 /\ l' = [] \/ exists q, T' !! path 2 va = Some q /\ r = q + 8 * PX 0 va).
Proof.
  intros Hinv Hva. split; [apply walk_noalloc; [apply Hinv|lia]|].
  destruct (walk_alloc va s l T root Hinv) as (r & s' & l' & T' & ? & ? & ? & _ & ?); [lia|]. by exists r, s', l', T'.
Qed.

(** [mappages] maps exactly the pages of [va .. va+size-1].  On a range
    with no valid entry it returns 0 and the entry of the i-th page is
    [PA2PTE(pa + i*PGSIZE) | perm | PTE_V], or it returns -1, with the free
    list exhausted, having mapped only an initial part of the range; every
    other entry of the table, and every byte outside the table's pages, is as
    before. *)
Theorem mappages_correct va size pa perm s l T root :
  pt_inv s l T root -> 0 < size -> 0 <= va -> va + size <= MAXVA ->
  0 <= pa -> pa + npages va size * 4096 <= 2 ^ 56 -> 0 <= perm < 1024 ->
  (forall j, 0 <= j < npages va size ->
     Z.land (pte_at (k_mem s) T (PGROUNDDOWN va + j * 4096)) PTE_V = 0) ->
  exists r j s' l' T', mappages root va size pa perm s = Done r s' /\
    pt_step s l T s' l' T' root /\
    (r = 0 /\ j = npages va size \/ r = -1 /\ 0 <= j < npages va size /\ l' = []) /\
    forall va', 0 <= va' < MAXVA ->
      pte_at (k_mem s') T' va' =
      if (PGROUNDDOWN va <=? va') && (va' <? PGROUNDDOWN va + j * 4096)
      then Z.lor (Z.lor (PA2PTE (pa + (va' / 4096 * 4096 - PGROUNDDOWN va))) perm) PTE_V
      else pte_at (k_mem s) T va'.
Proof. exact (mappages_spec va size pa perm s l T root). Qed.

(** [mappages] refuses to remap: when the first page of the range already
    has a valid entry the kernel panics. *)
Theorem mappages_remap_panics va size pa perm s l T root :
  pt_inv s l T root -> 0 < size -> 0 <= va < MAXVA ->
  Z.land (pte_at (k_mem s) T (PGROUNDDOWN va)) PTE_V <> 0 ->
  mappages root va size pa perm s = Panic "mappages: remap".
Proof.
  intros Hinv Hsz Hva Hv. unfold mappages, panic_if. destruct (Z.eqb_spec size 0); [lia|].
  rewrite (bind_Done (ret tt) _ s tt s eq_refl).
  pose proof (PGROUNDDOWN_bounds va ltac:(rewrite MAXVA_eq in *; lia)).
  pose proof (PGROUNDDOWN_nonneg va ltac:(rewrite MAXVA_eq in *; lia)).
  unfold mappages_fuel. cbn [mappages_loop].
  destruct (walk_alloc (PGROUNDDOWN va) s l T root Hinv ltac:(lia))
    as (r & s1 & l1 & T1 & Hw & Hi1 & Hg & _ & Hr).
  rewrite (bind_Done _ _ _ _ _ Hw). unfold pte_at in Hv.
  destruct (T !! path 2 (PGROUNDDOWN va)) as [q|] eqn:Hq; [|done].
  pose proof (lookup_weaken _ _ _ _ Hq (grows_sub _ _ _ _ _ _ Hg)) as Hq1.
  destruct (wf_page _ _ _ (pt_wf _ _ _ _ Hi1) _ _ Hq1) as [Hqok _].
  pose proof (page_entry_pos q (PX 0 (PGROUNDDOWN va)) Hqok ltac:(apply PX_range; lia)).
  assert (Hr' : r = q + 8 * PX 0 (PGROUNDDOWN va)).
  { destruct Hr as [[-> ->]|(q' & Hq' & ->)]; [|congruence].
    pose proof (walk_noalloc (PGROUNDDOWN va) s T root (pt_wf _ _ _ _ Hinv) ltac:(lia)) as Hn.
    exfalso. revert Hw. unfold walk, panic_if in *.
    destruct (MAXVA <=? PGROUNDDOWN va); [done|].
    rewrite !(bind_Done (ret tt) _ s tt s eq_refl) in *.
    rewrite (walk_loop_found 2 [] root (PGROUNDDOWN va) s T root (pt_wf _ _ _ _ Hinv)
      (wf_root _ _ _ (pt_wf _ _ _ _ Hinv)) eq_refl q Hq true). intros [= Hx _]. lia. }
  subst r. destruct (Z.eqb_spec (q + 8 * PX 0 (PGROUNDDOWN va)) 0); [lia|].
  unfold load. rewrite (bind_Done (gets _) _ s1 _ s1 eq_refl).
  pose proof (grows_pte _ _ _ _ _ _ Hg (PGROUNDDOWN va)) as Hp. unfold pte_at in Hp.
  rewrite Hq, Hq1 in Hp. rewrite Hp. apply Z.eqb_neq in Hv. now rewrite Hv.
Qed.
End VmWalk.

(** ** A table with an empty root and three free pages *)
Module VmExample.
#[export] Instance ctx : Ctx := {| mycpu := 0; mypid := 1 |}.
#[export] Instance image : Image :=
  {| image_end := KERNBASE + 0x22000; etext := KERNBASE + 0x8000; trampoline := KERNBASE + 0x7000 |}.
#[export] Instance image_ok : ImageOk.
Proof. split; split; vm_compute; reflexivity || discriminate. Qed.

Definition page (i : Z) : Z := KERNBASE + 0x100000 + i * PGSIZE.
(** Pages 0, 1, 2, 3 linked in this order. *)
Definition links : mem := st64 (st64 (st64 ∅ (page 0) (page 1)) (page 1) (page 2)) (page 2) (page 3).
Definition st : kst := Kst links (initlock "kmem") (page 0).
Definition tr (root : Z) : tree := {[ [] := root ]}.

Lemma page_ok_ex i : 0 <= i < 16 -> page_ok (page i).
Proof.
  intros Hi. unfold page, page_ok, image_end, image, PHYSTOP, KERNBASE, PGSIZE. split; [|lia].
  Z.div_mod_to_equations. lia.
Qed.

Lemma kinv_ex : kinv st [page 0; page 1; page 2; page 3].
Proof.
  split; [split; reflexivity| | |].
  - repeat (split; [vm_compute; reflexivity|]). vm_compute. reflexivity.
  - apply (bool_decide_unpack _). vm_compute. exact I.
  - repeat constructor; apply page_ok_ex; lia.
Qed.

Lemma links_ne x : ~ (page 0 <= x < page 3) -> mget links x = 0.
Proof.
  unfold page, PGSIZE. intros Hx. unfold links.
  rewrite !mget_stn_ne by (unfold page, PGSIZE; lia). reflexivity.
Qed.

Lemma ld64_links i j : 3 <= i < 16 -> 0 <= j < 512 -> ld64 links (page i + 8 * j) = 0.
Proof.
  intros Hi Hj. rewrite <- (ld64_memset_0 links (page i) 4096 (page i + 8 * j)) by lia.
  apply ldn_ext. intros x Hx. rewrite mget_memset_in by (unfold page, PGSIZE in *; lia).
  apply links_ne. unfold page, PGSIZE in *. lia.
Qed.

Lemma pt_inv_ex : pt_inv st [page 0; page 1; page 2; page 3] (tr (page 4)) (page 4).
Proof.
  assert (Hk : forall k p, tr (page 4) !! k = Some p -> k = [] /\ p = page 4).
  { intros k p. unfold tr. rewrite lookup_singleton_Some. naive_solver. }
  split; [exact kinv_ex| |].
  - split.
    + reflexivity.
    + intros k p [-> ->]%Hk. split; [apply page_ok_ex; lia|simpl; lia].
    + intros k1 k2 p [-> _]%Hk [-> _]%Hk. done.
    + intros k i q [Hx _]%Hk. now apply app_nil in Hx as [_ ?].
    + intros k p i [-> ->]%Hk _ Hi. unfold tr. rewrite lookup_singleton_ne by done.
      cbn [k_mem st]. rewrite ld64_links by lia. reflexivity.
    + intros i k p [Hx _]%Hk. done.
  - intros p [k [_ ->]%Hk]. apply (bool_decide_unpack _). vm_compute. exact I.
Qed.

Lemma walk_correct_witness : exists r s', walk (page 4) 0x5000 true st = Done r s'.
Proof.
  destruct (walk_correct 0x5000 st _ _ _ pt_inv_ex) as (_ & r & s' & l' & T' & H & _).
  - split; [lia|reflexivity].
  - exists r, s'. exact H.
Defined.

Lemma pte_ex va : pte_at links (tr (page 4)) va = 0.
Proof. unfold pte_at, tr. now rewrite path2, lookup_singleton_ne by done. Qed.

Lemma mappages_correct_witness :
  exists r s', mappages (page 4) 0x5000 0x2001 0 (Z.lor PTE_R PTE_W) st = Done r s'.
Proof.
  destruct (mappages_correct 0x5000 0x2001 0 (Z.lor PTE_R PTE_W) st _ _ _ pt_inv_ex)
    as (r & j & s' & l' & T' & H & _);
    [lia|lia|discriminate|lia|discriminate|split; [discriminate|reflexivity]| |].
  - intros j Hj. cbn [k_mem st]. now rewrite pte_ex.
  - exists r, s'. exact H.
Defined.

(** The same table after two user pages have been mapped at address 0. *)
Definition out_state {A} (s0 : kst) (o : outcome kst A) : kst :=
  match o with Done _ s => s | _ => s0 end.
Definition st2 : kst :=
  out_state st (mappages (page 4) 0 0x2000 (page 7) (Z.lor (Z.lor PTE_R PTE_W) PTE_U) st).

Lemma low_pages p : p ∈ [page 0; page 1; page 2; page 3; page 4] -> page 0 <= p <= page 4.
Proof. unfold page, PGSIZE. rewrite !elem_of_cons, elem_of_nil. lia. Qed.

Lemma pt_inv_ex2 : exists l T, pt_inv st2 l T (page 4) /\
  (forall p, tpage T p \/ p ∈ l -> p ∈ [page 0; page 1; page 2; page 3; page 4]) /\
  (forall x, page 5 <= x -> mget (k_mem st2) x = 0) /\
  forall va, 0 <= va < MAXVA ->
    pte_at (k_mem st2) T va =
    map_range (fun _ => 0) 0 2 (page 7) (Z.lor (Z.lor PTE_R PTE_W) PTE_U) va.
Proof.
  destruct (mappages_spec 0 0x2000 (page 7) (Z.lor (Z.lor PTE_R PTE_W) PTE_U) st _ _ _ pt_inv_ex)
    as (r & j & s' & l' & T' & H & Hst & Hr & Hp);
    [lia|lia|discriminate|discriminate|discriminate|split; [discriminate|reflexivity]| |].
  { intros j Hj. cbn [k_mem st]. now rewrite pte_ex. }
  assert (Hs : st2 = s') by (unfold st2; now rewrite H). rewrite Hs.
  exists l', T'. split; [apply Hst|].
  assert (Hr0 : (match mappages (page 4) 0 0x2000 (page 7) (Z.lor (Z.lor PTE_R PTE_W) PTE_U) st
                 with Done r _ => r | _ => 1 end) = 0) by (vm_compute; reflexivity).
  rewrite H in Hr0. subst r. destruct Hr as [[_ ->]|[? _]]; [|lia].
  assert (Hown : forall p, tpage T' p \/ p ∈ l' -> p ∈ [page 0; page 1; page 2; page 3; page 4]).
  { destruct (ps_list _ _ _ _ _ _ _ Hst) as (used & Hl & Hu).
    assert (Hin : forall p, p ∈ used \/ p ∈ l' -> p ∈ [page 0; page 1; page 2; page 3]).
    { intros p. rewrite Hl, elem_of_app. tauto. }
    intros p [Ht|Hp']; [|apply elem_of_app with (l1 := [page 0; page 1; page 2; page 3]); auto].
    apply (elem_of_app [page 0; page 1; page 2; page 3] [page 4]).
    destruct (proj1 (Hu p) Ht) as [[k Hk]|]; [|auto]. right.
    unfold tr in Hk. apply lookup_singleton_Some in Hk as [_ <-]. left. }
  split; [done|]. split.
  - intros x Hx. rewrite (ps_frame _ _ _ _ _ _ _ Hst).
    + apply links_ne. unfold page, PGSIZE in *. lia.
    + intros p Hp'. pose proof (low_pages p (Hown p (or_introl Hp'))). unfold in_page.
      unfold page, PGSIZE in *. lia.
  - intros va Hva. rewrite Hp by done. unfold map_range. change (npages 0 0x2000) with 2.
    change (PGROUNDDOWN 0) with 0. cbn [k_mem st]. now rewrite pte_ex.
Qed.

Lemma mappages_remap_panics_witness :
  mappages (page 4) 0x1000 0x1000 (page 9) PTE_R st2 = Panic "mappages: remap".
Proof.
  destruct pt_inv_ex2 as (l & T & Hinv & _ & _ & Hp).
  apply (mappages_remap_panics _ _ _ _ _ l T _ Hinv); [lia|split; [lia|reflexivity]|].
  rewrite Hp by (split; [discriminate|reflexivity]). vm_compute. discriminate.
Defined.
End VmExample.
