(* ===== verification/VmUser.v ===== *)
(** * User address spaces: [uvmunmap], [uvmdealloc], [uvmalloc], [uvmcopy]

    An address space is a page table together with the data pages it owns: [D]
    maps a virtual page number to the physical page that backs it.  [as_inv]
    says that these pages are allocated, are not shared and are mapped by a
    leaf; [vstep P] relates the states around an operation: no page is lost or
    invented, and the bytes in [P] (kept data pages, other address spaces) do
    not change. *)

From S2P Require Import Prelude Memory Riscv Spinlock Kalloc Vm VmWalk.

Section VmUser.
Context `{HC : Ctx} `{HI : Image} `{HO : !ImageOk}.

(** A leaf entry for [pa] with flags [f]. *)
Definition leaf_flags (f : Z) : Prop := 0 <= f < 1024 /\ Z.land f PTE_V <> 0 /\ f <> PTE_V.
Definition leaf (v pa : Z) : Prop := exists f, leaf_flags f /\ v = Z.lor (PA2PTE pa) f.

Record as_inv (s : kst) (l : list Z) (T : tree) (root : Z) (D : gmap Z Z) : Prop := {
  as_pt : pt_inv s l T root;
  as_page : forall v pa, D !! v = Some pa ->
    page_ok pa /\ pa ∉ l /\ ~ tpage T pa /\ 0 <= v < 2 ^ 26;
  as_inj : forall v1 v2 pa, D !! v1 = Some pa -> D !! v2 = Some pa -> v1 = v2;
  as_leaf : forall v pa, D !! v = Some pa -> leaf (pte_at (k_mem s) T (v * 4096)) pa
}.

Definition owns (l : list Z) (T : tree) (D : gmap Z Z) (p : Z) : Prop :=
  p ∈ l \/ tpage T p \/ exists v, D !! v = Some p.

(** No byte of [P] is in a free page or in a node of the table. *)
Definition avoid (P : Z -> Prop) (l : list Z) (T : tree) : Prop :=
  forall p x, p ∈ l \/ tpage T p -> in_page p x -> ~ P x.

Record vstep (P : Z -> Prop) (s : kst) (l : list Z) (T : tree) (D : gmap Z Z)
  (s' : kst) (l' : list Z) (T' : tree) (D' : gmap Z Z) (root : Z) : Prop := {
  vs_inv : as_inv s' l' T' root D';
  vs_owns : forall p, owns l' T' D' p <-> owns l T D p;
  vs_avoid : avoid P l' T';
  vs_frame : forall x, P x -> mget (k_mem s') x = mget (k_mem s) x
}.

Lemma vstep_refl P s l T D root :
  as_inv s l T root D -> avoid P l T -> vstep P s l T D s l T D root.
Proof. by split. Qed.

Lemma vstep_trans P s l T D s1 l1 T1 D1 s2 l2 T2 D2 root :
  vstep P s l T D s1 l1 T1 D1 root -> vstep P s1 l1 T1 D1 s2 l2 T2 D2 root ->
  vstep P s l T D s2 l2 T2 D2 root.
Proof.
  intros [_ O1 _ F1] [I2 O2 A2 F2]. split; [done| |done|].
  - intros p. now rewrite O2.
  - intros x Hx. now rewrite F2, F1.
Qed.

Lemma wf_frame m m' T root :
  wf m T root -> (forall p x, tpage T p -> in_page p x -> mget m' x = mget m x) -> wf m' T root.
Proof.
  intros [W1 W2 W3 W4 W5] Hm. split; try done.
  intros k p i Hk Hl Hi. rewrite (ld64_page_ext m m' p i Hi); [by apply W5|].
  intros x. apply Hm. eexists; eauto.
Qed.

Lemma pte_at_frame m m' T va :
  (forall p x, tpage T p -> in_page p x -> mget m' x = mget m x) ->
  pte_at m' T va = pte_at m T va.
Proof.
  intros Hm. unfold pte_at. destruct (T !! path 2 va) as [q|] eqn:Hq; [|done].
  apply ld64_page_ext; [apply PX_range; lia|]. intros x. apply Hm. eexists; eauto.
Qed.

Lemma leaf_facts v pa : page_ok pa -> leaf v pa ->
  Z.land v PTE_V <> 0 /\ PTE_FLAGS v <> PTE_V /\ PTE2PA v = pa /\
  v = Z.lor (PA2PTE pa) (PTE_FLAGS v) /\ leaf_flags (PTE_FLAGS v).
Proof.
  intros Hp (f & Hf & ->). apply page_ok_56 in Hp as [H1 H2].
  assert (Hfl : PTE_FLAGS (Z.lor (PA2PTE pa) f) = f).
  { unfold PTE_FLAGS. rewrite land_PTE_make by lia. change 0x3FF with (Z.ones 10).
    rewrite Z.land_ones by lia. apply Z.mod_small. destruct Hf. lia. }
  rewrite Hfl, land_PTE_make by auto with xv6. rewrite PTE2PA_make by (destruct Hf; lia).
  destruct Hf as (? & ? & ?). conjs; done.
Qed.

(** ** Freeing pages *)

(** Returning a page that is neither free nor part of the table. *)
Lemma kfree_pt s l T root p :
  pt_inv s l T root -> page_ok p -> p ∉ l -> ~ tpage T p ->
  exists s', kfree p s = Done tt s' /\ pt_inv s' (p :: l) T root /\
    (forall va, pte_at (k_mem s') T va = pte_at (k_mem s) T va) /\
    (forall x, ~ in_page p x -> mget (k_mem s') x = mget (k_mem s) x).
Proof.
  intros [Hk Hwf Hfr] Hp Hn Ht. destruct (kfree_inv s p l Hk Hp Hn) as (s' & Hs & Hk' & Hout).
  assert (Hm : forall q x, tpage T q -> in_page q x -> mget (k_mem s') x = mget (k_mem s) x).
  { intros q x Hq Hx. apply Hout. intros Hx'. apply Ht.
    destruct Hq as [k Hq]. destruct (wf_page _ _ _ Hwf _ _ Hq).
    rewrite (page_disjoint p q x) by done. eexists; eauto. }
  exists s'. conjs; try done.
  - split; [done|by eapply wf_frame|]. intros q Hq [->|Hx]%elem_of_cons; [done|].
    by apply (Hfr q).
  - intros va. now apply pte_at_frame.
Qed.

(** Clearing one leaf, as the body of [uvmunmap]'s loop does. *)
Lemma clear_leaf s l T root a q :
  pt_inv s l T root -> T !! path 2 a = Some q -> 0 <= a < MAXVA ->
  exists s', store (q + 8 * PX 0 a) 0 s = Done tt s' /\ pt_inv s' l T root /\
    (forall va, 0 <= va < MAXVA ->
       pte_at (k_mem s') T va = if va / 4096 =? a / 4096 then 0 else pte_at (k_mem s) T va) /\
    (forall x, ~ in_page q x -> mget (k_mem s') x = mget (k_mem s) x).
Proof.
  intros Hi Hq Ha. destruct (store_leaf s l T root a q 0 Hi Hq Ha) as (H1 & H2 & H3).
  eexists. split; [reflexivity|]. conjs; done.
Qed.

Lemma pte_at_valid m T va : Z.land (pte_at m T va) PTE_V <> 0 ->
  exists q, T !! path 2 va = Some q /\ pte_at m T va = ld64 m (q + 8 * PX 0 va).
Proof. unfold pte_at. destruct (T !! path 2 va); [eauto|done]. Qed.

(** One iteration of [uvmunmap]'s loop up to the call of [kfree]. *)
Lemma unmap_entry s l T root a :
  pt_inv s l T root -> 0 <= a < MAXVA ->
  Z.land (pte_at (k_mem s) T a) PTE_V <> 0 -> PTE_FLAGS (pte_at (k_mem s) T a) <> PTE_V ->
  exists q, T !! path 2 a = Some q /\ forall fuel bound do_free, a < bound ->
    uvmunmap_loop (S fuel) root a bound do_free s =
    (when do_free (kfree (PTE2PA (pte_at (k_mem s) T a))) ;;;
     store (q + 8 * PX 0 a) 0 ;;;
     uvmunmap_loop fuel root (u64 (a + PGSIZE)) bound do_free) s.
Proof.
  intros Hi Ha Hv Hf. destruct (pte_at_valid _ _ _ Hv) as (q & Hq & Hp).
  exists q. split; [done|]. intros fuel bound do_free Hb. cbn [uvmunmap_loop].
  destruct (Z.ltb_spec a bound); [|lia].
  rewrite (bind_Done _ _ _ _ _ (walk_noalloc a s T root (pt_wf _ _ _ _ Hi) ltac:(lia))).
  rewrite Hq. destruct (wf_page _ _ _ (pt_wf _ _ _ _ Hi) _ _ Hq) as [Hqok _].
  pose proof (page_entry_pos q (PX 0 a) Hqok ltac:(apply PX_range; lia)).
  destruct (Z.eqb_spec (q + 8 * PX 0 a) 0); [lia|].
  rewrite (bind_Done (panic_if false _) _ s tt s eq_refl).
  unfold load. rewrite (bind_Done (gets _) _ s _ s eq_refl). rewrite <- Hp.
  apply Z.eqb_neq in Hv, Hf. rewrite Hv, Hf.
  now rewrite !(bind_Done (panic_if false _) _ s tt s eq_refl).
Qed.

(** The pages [v .. v+n-1] removed. *)
Fixpoint del_range (D : gmap Z Z) (v : Z) (n : nat) : gmap Z Z :=
  match n with
  | O => D
  | S n' => del_range (delete v D) (v + 1) n'
  end.

Lemma lookup_del_range D v n w :
  del_range D v n !! w = if (v <=? w) && (w <? v + Z.of_nat n) then None else D !! w.
Proof.
  revert D v. induction n as [|n IH]; intros D v; cbn [del_range].
  - destruct (Z.leb_spec v w), (Z.ltb_spec w (v + Z.of_nat 0)); simpl; try done. lia.
  - rewrite IH. rewrite lookup_delete.
    destruct (decide (v = w)), (Z.leb_spec v w), (Z.leb_spec (v + 1) w),
      (Z.ltb_spec w (v + 1 + Z.of_nat n)), (Z.ltb_spec w (v + Z.of_nat (S n)));
      simpl; try done; lia.
Qed.

Lemma del_range_out D v n w : ~ (v <= w < v + Z.of_nat n) -> del_range D v n !! w = D !! w.
Proof.
  intros H. rewrite lookup_del_range.
  destruct (Z.leb_spec v w), (Z.ltb_spec w (v + Z.of_nat n)); simpl; try done. lia.
Qed.

Lemma page_div v w : 0 <= v -> v * 4096 / 4096 = v /\ (w * 4096 / 4096 = v * 4096 / 4096 <-> w = v).
Proof. intros. rewrite !Z.div_mul by lia. done. Qed.

(** One iteration of the loop on an owned page. *)
Lemma unmap_page P s l T root D v pa :
  as_inv s l T root D -> avoid P l T -> D !! v = Some pa ->
  (forall x, in_page pa x -> ~ P x) ->
  exists s', (forall fuel bound, v * 4096 < bound ->
      uvmunmap_loop (S fuel) root (v * 4096) bound true s =
      uvmunmap_loop fuel root (v * 4096 + 4096) bound true s') /\
    vstep P s l T D s' (pa :: l) T (delete v D) root /\
    (forall va, 0 <= va < MAXVA ->
       pte_at (k_mem s') T va = if va / 4096 =? v then 0 else pte_at (k_mem s) T va).
Proof.
  intros [Hpt Hpg Hinj Hlf] Hav HD HP. destruct (Hpg v pa HD) as (Hok & Hnl & Hnt & Hv).
  assert (Ha : 0 <= v * 4096 < MAXVA) by (rewrite MAXVA_eq; lia).
  destruct (leaf_facts _ _ Hok (Hlf v pa HD)) as (Hval & Hfl & Hpa & _).
  destruct (unmap_entry _ _ _ _ _ Hpt Ha Hval Hfl) as (q & Hq & Hrun).
  destruct (kfree_pt s l T root pa Hpt Hok Hnl Hnt) as (s1 & Hs1 & Hpt1 & Hpte1 & Hout1).
  destruct (clear_leaf s1 (pa :: l) T root (v * 4096) q Hpt1 Hq Ha) as (s2 & Hs2 & Hpt2 & Hpte2 & Hout2).
  destruct (wf_page _ _ _ (pt_wf _ _ _ _ Hpt) _ _ Hq) as [Hqok _].
  assert (Hqt : tpage T q) by (eexists; eauto).
  assert (Hpte : forall va, 0 <= va < MAXVA ->
    pte_at (k_mem s2) T va = if va / 4096 =? v then 0 else pte_at (k_mem s) T va).
  { intros va Hva. rewrite Hpte2, Hpte1, Z.div_mul by (done || lia). done. }
  exists s2. split; [|split; [split|done]].
  - intros fuel bound Hb. rewrite Hrun, Hpa by done. cbn [when].
    rewrite (bind_Done _ _ _ _ _ Hs1), (bind_Done _ _ _ _ _ Hs2).
    rewrite u64_small by (rewrite MAXVA_eq in *; unfold PGSIZE; lia). done.
  - split; [done| | |].
    + intros w p [Hne Hw]%lookup_delete_Some. destruct (Hpg w p Hw) as (? & ? & ? & ?).
      conjs; try done; try lia. rewrite elem_of_cons. intros [->|?]; [|done].
      apply Hne. eapply Hinj; eauto.
    + intros v1 v2 p [_ H1]%lookup_delete_Some [_ H2]%lookup_delete_Some. eauto.
    + intros w p [Hne Hw]%lookup_delete_Some. destruct (Hpg w p Hw) as (_ & _ & _ & Hw26).
      rewrite Hpte by (rewrite MAXVA_eq; lia). rewrite Z.div_mul by lia.
      destruct (Z.eqb_spec w v); [congruence|]. now apply Hlf.
  - intros p. unfold owns. rewrite elem_of_cons. split.
    + intros [[->|?]|[?|(w & [_ Hw]%lookup_delete_Some)]]; eauto.
    + intros [?|[?|(w & Hw)]]; [auto|auto|]. destruct (decide (v = w)) as [<-|Hne].
      * left. left. congruence.
      * right. right. exists w. by apply lookup_delete_Some.
  - intros p x [[->|Hp]%elem_of_cons|Hp]; [apply HP|apply Hav; auto|apply Hav; auto].
  - intros x Hx. rewrite Hout2, Hout1; [done| |].
    + intros Hin. by apply (HP x).
    + intros Hin. apply (Hav q x); auto.
Qed.

(** The whole loop: every page of the range is returned to the allocator. *)
Lemma unmap_loop_spec n P s l T root D v :
  as_inv s l T root D -> avoid P l T -> 0 <= v -> v + Z.of_nat n <= 2 ^ 26 ->
  (forall w, v <= w < v + Z.of_nat n -> exists pa, D !! w = Some pa /\ forall x, in_page pa x -> ~ P x) ->
  exists s' l', uvmunmap_loop (S n) root (v * 4096) ((v + Z.of_nat n) * 4096) true s = Done tt s' /\
    vstep P s l T D s' l' T (del_range D v n) root /\
    (forall va, 0 <= va < MAXVA -> pte_at (k_mem s') T va =
       if (v <=? va / 4096) && (va / 4096 <? v + Z.of_nat n) then 0 else pte_at (k_mem s) T va).
Proof.
  revert s l D v. induction n as [|n IH]; intros s l D v Hinv Hav Hv Hmax HD.
  - exists s, l. split; [|split; [now apply vstep_refl|]].
    + cbn [uvmunmap_loop]. destruct (Z.ltb_spec (v * 4096) ((v + Z.of_nat 0) * 4096)); [lia|done].
    + intros va _. destruct (Z.leb_spec v (va / 4096)), (Z.ltb_spec (va / 4096) (v + Z.of_nat 0));
        simpl; try done. lia.
  - destruct (HD v ltac:(lia)) as (pa & Hpa & HP).
    destruct (unmap_page P s l T root D v pa Hinv Hav Hpa HP) as (s1 & Hrun & Hst1 & Hpte1).
    destruct (IH s1 (pa :: l) (delete v D) (v + 1)) as (s2 & l2 & Hrun2 & Hst2 & Hpte2);
      [apply Hst1|apply Hst1|lia|lia| |].
    { intros w Hw. destruct (HD w ltac:(lia)) as (p & Hp & HPp). exists p. split; [|done].
      apply lookup_delete_Some. split; [lia|done]. }
    exists s2, l2. split; [|split; [eapply vstep_trans; eauto|]].
    + rewrite Hrun by lia. replace (v * 4096 + 4096) with ((v + 1) * 4096) by lia.
      replace (v + Z.of_nat (S n)) with (v + 1 + Z.of_nat n) by lia. done.
    + intros va Hva. rewrite Hpte2, Hpte1 by done.
      destruct (Z.leb_spec (v + 1) (va / 4096)), (Z.ltb_spec (va / 4096) (v + 1 + Z.of_nat n)),
        (Z.eqb_spec (va / 4096) v), (Z.leb_spec v (va / 4096)),
        (Z.ltb_spec (va / 4096) (v + Z.of_nat (S n))); simpl; try done; lia.
Qed.

Lemma uvmunmap_spec P s l T root D v n :
  as_inv s l T root D -> avoid P l T -> 0 <= v -> 0 <= n -> v + n <= 2 ^ 26 ->
  (forall w, v <= w < v + n -> exists pa, D !! w = Some pa /\ forall x, in_page pa x -> ~ P x) ->
  exists s' l', uvmunmap root (v * 4096) n true s = Done tt s' /\
    vstep P s l T D s' l' T (del_range D v (Z.to_nat n)) root /\
    (forall va, 0 <= va < MAXVA -> pte_at (k_mem s') T va =
       if (v <=? va / 4096) && (va / 4096 <? v + n) then 0 else pte_at (k_mem s) T va).
Proof.
  intros Hinv Hav Hv Hn Hmax HD. unfold uvmunmap.
  change PGSIZE with 4096. rewrite Z.mod_mul by lia. cbn [Z.eqb negb].
  rewrite (bind_Done (panic_if false _) _ s tt s eq_refl).
  rewrite u64_small by lia. replace (v * 4096 + n * 4096) with ((v + n) * 4096) by lia.
  destruct (unmap_loop_spec (Z.to_nat n) P s l T root D v) as (s' & l' & H1 & H2 & H3);
    rewrite ?Z2Nat.id by lia; try done.
  exists s', l'. rewrite Z2Nat.id in * by lia. done.
Qed.

(** The number of pages a process of [sz] bytes has. *)
Definition pgs (sz : Z) : Z := PGROUNDUP sz / 4096.

Lemma pgs_eq sz : 0 <= sz < 2 ^ 64 - 4096 ->
  PGROUNDUP sz = pgs sz * 4096 /\ sz <= pgs sz * 4096 < sz + 4096.
Proof.
  intros H. unfold pgs. pose proof (PGROUNDUP_aligned sz H). pose proof (PGROUNDUP_bounds sz H).
  Z.div_mod_to_equations. lia.
Qed.

Lemma pgs_mono a b : 0 <= a <= b -> b < 2 ^ 64 - 4096 -> pgs a <= pgs b.
Proof.
  intros. pose proof (pgs_eq a). pose proof (pgs_eq b). lia.
Qed.

Lemma pgs_page v : 0 <= v < 2 ^ 50 -> pgs (v * 4096) = v.
Proof. intros. pose proof (pgs_eq (v * 4096)). lia. Qed.

Lemma uvmdealloc_spec P s l T root D oldsz newsz :
  as_inv s l T root D -> avoid P l T -> 0 <= newsz < 2 ^ 64 - 4096 -> 0 <= oldsz <= MAXVA ->
  (forall w, pgs newsz <= w < pgs oldsz ->
     exists pa, D !! w = Some pa /\ forall x, in_page pa x -> ~ P x) ->
  exists s' l', uvmdealloc root oldsz newsz s = Done (Z.min oldsz newsz) s' /\
    vstep P s l T D s' l' T (del_range D (pgs newsz) (Z.to_nat (pgs oldsz - pgs newsz))) root /\
    (forall va, 0 <= va < MAXVA -> pte_at (k_mem s') T va =
       if (pgs newsz <=? va / 4096) && (va / 4096 <? pgs oldsz) then 0 else pte_at (k_mem s) T va).
Proof.
  intros Hinv Hav Hn Ho HD. unfold uvmdealloc. rewrite MAXVA_eq in Ho.
  pose proof (pgs_eq oldsz ltac:(lia)) as [Eo Bo].
  assert (Hskip : pgs oldsz <= pgs newsz ->
    vstep P s l T D s l T (del_range D (pgs newsz) (Z.to_nat (pgs oldsz - pgs newsz))) root /\
    (forall va, 0 <= va < MAXVA -> pte_at (k_mem s) T va =
       if (pgs newsz <=? va / 4096) && (va / 4096 <? pgs oldsz) then 0 else pte_at (k_mem s) T va)).
  { intros Hle. replace (Z.to_nat (pgs oldsz - pgs newsz)) with O by lia.
    split; [now apply vstep_refl|].
    intros va _. destruct (Z.leb_spec (pgs newsz) (va / 4096)), (Z.ltb_spec (va / 4096) (pgs oldsz));
      simpl; try done. lia. }
  pose proof (pgs_eq newsz ltac:(lia)) as [En Bn].
  destruct (Z.leb_spec oldsz newsz).
  { exists s, l. rewrite Z.min_l by lia. split; [done|]. apply Hskip. now apply pgs_mono. }
  rewrite Z.min_r, Eo, En by lia.
  destruct (Z.ltb_spec (pgs newsz * 4096) (pgs oldsz * 4096)); cbn [when].
  - replace ((pgs oldsz * 4096 - pgs newsz * 4096) / PGSIZE) with (pgs oldsz - pgs newsz)
      by (unfold PGSIZE; Z.div_mod_to_equations; lia).
    rewrite i32_small, u64_small by lia.
    destruct (uvmunmap_spec P s l T root D (pgs newsz) (pgs oldsz - pgs newsz))
      as (s' & l' & H1 & H2 & H3); try done; try lia.
    { intros w Hw. apply HD. lia. }
    exists s', l'. rewrite (bind_Done _ _ _ _ _ H1). split; [done|]. split; [done|].
    replace (pgs newsz + (pgs oldsz - pgs newsz)) with (pgs oldsz) in H3 by lia. done.
  - exists s, l. split; [done|]. apply Hskip. lia.
Qed.

(** ** Adding a page

    Both [uvmalloc] and [uvmcopy] take a page from the allocator, fill it and
    map it; when [mappages] fails they give it back. *)

Section AddPage.
Context (P : Z -> Prop) (s : kst) (p : Z) (l : list Z) (T : tree) (root : Z) (D : gmap Z Z).
Context (Hinv : as_inv s (p :: l) T root D) (Hav : avoid P (p :: l) T).
(** [s1]: after [kalloc] and the writes to the new page. *)
Context (s1 : kst) (Hk1 : kinv s1 l)
  (Hout1 : forall x, ~ in_page p x -> mget (k_mem s1) x = mget (k_mem s) x).

Lemma ap_page : page_ok p /\ p ∉ l /\ ~ tpage T p /\ (forall v, D !! v <> Some p).
Proof.
  destruct Hinv as [[[_ _ Hnd Hok] _ Hfr] Hpg _ _].
  apply NoDup_cons in Hnd as [Hn _]. apply Forall_cons_1 in Hok as [Hok _]. conjs; try done.
  - intros Ht. apply (Hfr p Ht). left.
  - intros v Hv. destruct (Hpg v p Hv) as (_ & Hx & _). apply Hx. left.
Qed.

Lemma ap_tree q x : tpage T q -> in_page q x -> mget (k_mem s1) x = mget (k_mem s) x.
Proof.
  intros [k Hk] Hx. destruct ap_page as (Hp & _ & Ht & _). apply Hout1. intros Hx'. apply Ht.
  destruct (wf_page _ _ _ (pt_wf _ _ _ _ (as_pt _ _ _ _ _ Hinv)) _ _ Hk).
  rewrite (page_disjoint p q x) by done. eexists; eauto.
Qed.

Lemma ap_pt : pt_inv s1 l T root /\ forall va, pte_at (k_mem s1) T va = pte_at (k_mem s) T va.
Proof.
  destruct Hinv as [[Hk Hwf Hfr] _ _ _]. split.
  - split; [done|eapply wf_frame; [done|apply ap_tree]|].
    intros q Hq Hl. apply (Hfr q Hq). now right.
  - intros va. apply pte_at_frame, ap_tree.
Qed.

Context (s2 : kst) (l2 : list Z) (T2 : tree) (Hst : pt_step s1 l T s2 l2 T2 root).

Lemma ap_pages q : tpage T2 q \/ q ∈ l2 <-> tpage T q \/ q ∈ l.
Proof.
  destruct Hst as [_ _ (used & -> & Hu) _]. rewrite elem_of_app, Hu. tauto.
Qed.

Lemma ap_avoid : avoid P l2 T2 /\ forall x, P x -> mget (k_mem s2) x = mget (k_mem s) x.
Proof.
  assert (H : avoid P l2 T2).
  { intros q x Hq. apply Hav. assert (Hq' : tpage T q \/ q ∈ l) by (apply ap_pages; tauto).
    rewrite elem_of_cons. tauto. }
  split; [done|]. intros x Hx. rewrite (ps_frame _ _ _ _ _ _ _ Hst).
  - apply Hout1. intros Hin. apply (Hav p x); auto. left. left.
  - intros q Hq Hin. apply (H q x); auto.
Qed.

(** The data pages are none of the pages the table may have taken. *)
Lemma ap_data v pa : D !! v = Some pa -> pa <> p /\ pa ∉ l2 /\ ~ tpage T2 pa.
Proof.
  intros Hv. destruct (as_page _ _ _ _ _ Hinv v pa Hv) as (_ & Hn & Ht & _).
  assert (~ (tpage T2 pa \/ pa ∈ l2)).
  { rewrite ap_pages. intros [?|?]; [done|]. apply Hn. now right. }
  conjs; try tauto. intros ->. apply Hn. left.
Qed.

Lemma ap_self : p ∉ l2 /\ ~ tpage T2 p.
Proof.
  destruct ap_page as (_ & H1 & H2 & _).
  assert (~ (tpage T2 p \/ p ∈ l2)) by (rewrite ap_pages; tauto). tauto.
Qed.

(** [mappages] failed: the page goes back and nothing was mapped. *)
Lemma ap_undo :
  (forall va, 0 <= va < MAXVA -> pte_at (k_mem s2) T2 va = pte_at (k_mem s) T va) ->
  exists s3, kfree p s2 = Done tt s3 /\ vstep P s (p :: l) T D s3 (p :: l2) T2 D root /\
    forall va, 0 <= va < MAXVA -> pte_at (k_mem s3) T2 va = pte_at (k_mem s) T va.
Proof.
  intros Hpte. destruct ap_page as (Hok & Hn & Ht & HD). destruct ap_self as [Hn2 Ht2].
  destruct ap_avoid as [Ha2 Hf2].
  destruct (kfree_pt s2 l2 T2 root p (ps_inv _ _ _ _ _ _ _ Hst) Hok Hn2 Ht2)
    as (s3 & Hs3 & Hpt3 & Hpte3 & Hout3).
  assert (Hpp : forall va, 0 <= va < MAXVA -> pte_at (k_mem s3) T2 va = pte_at (k_mem s) T va)
    by (intros; rewrite Hpte3; auto).
  exists s3. split; [done|]. split; [|done]. split.
  - split; [done| |apply Hinv|].
    + intros v pa Hv. destruct (as_page _ _ _ _ _ Hinv v pa Hv) as (? & _ & _ & ?).
      destruct (ap_data v pa Hv) as (? & ? & ?). conjs; try done; try lia. set_solver.
    + intros v pa Hv. destruct (as_page _ _ _ _ _ Hinv v pa Hv) as (_ & _ & _ & ?).
      rewrite Hpp by (rewrite MAXVA_eq; lia). eapply as_leaf; eauto.
  - intros q. unfold owns. rewrite !elem_of_cons. pose proof (ap_pages q). tauto.
  - intros q x [[->|?]%elem_of_cons|?]; [apply Hav; left; left|apply Ha2; auto|apply Ha2; auto].
  - intros x Hx. rewrite Hout3; [auto|]. intros Hin. apply (Hav p x); auto. left; left.
Qed.

(** [mappages] succeeded: the page is now part of the address space. *)
Lemma ap_done v perm :
  0 <= v < 2 ^ 26 -> D !! v = None -> leaf_flags (Z.lor perm PTE_V) ->
  (forall va, 0 <= va < MAXVA -> pte_at (k_mem s2) T2 va =
     if va / 4096 =? v then Z.lor (Z.lor (PA2PTE p) perm) PTE_V else pte_at (k_mem s) T va) ->
  vstep P s (p :: l) T D s2 l2 T2 (<[v := p]> D) root /\
  forall x, in_page p x -> mget (k_mem s2) x = mget (k_mem s1) x.
Proof.
  intros Hv HDv Hperm Hpte. destruct ap_page as (Hok & Hn & Ht & HD). destruct ap_self as [Hn2 Ht2].
  destruct ap_avoid as [Ha2 Hf2]. split; [split; try done|].
  - split; [apply Hst| | |].
    + intros w pa [[<- <-]|[Hne Hw]]%lookup_insert_Some; [conjs; done || lia|].
      destruct (as_page _ _ _ _ _ Hinv w pa Hw) as (? & _ & _ & ?).
      destruct (ap_data w pa Hw) as (? & ? & ?). conjs; done || lia.
    + intros w1 w2 pa [[<- <-]|[Hne1 Hw1]]%lookup_insert_Some
        [[<- H2]|[Hne2 Hw2]]%lookup_insert_Some; try done; try congruence.
      eapply as_inj; eauto.
    + intros w pa [[<- <-]|[Hne Hw]]%lookup_insert_Some.
      * rewrite Hpte by (rewrite MAXVA_eq; lia). rewrite Z.div_mul, Z.eqb_refl by lia.
        exists (Z.lor perm PTE_V). split; [done|]. now rewrite Z.lor_assoc.
      * destruct (as_page _ _ _ _ _ Hinv w pa Hw) as (_ & _ & _ & ?).
        rewrite Hpte by (rewrite MAXVA_eq; lia). rewrite Z.div_mul by lia.
        destruct (Z.eqb_spec w v); [congruence|]. eapply as_leaf; eauto.
  - intros q. unfold owns. rewrite !elem_of_cons. pose proof (ap_pages q).
    assert ((exists w, <[v := p]> D !! w = Some q) <-> q = p \/ exists w, D !! w = Some q).
    { split.
      - intros (w & [[_ <-]|[_ Hw]]%lookup_insert_Some); eauto.
      - intros [->|[w Hw]]; [exists v; now rewrite lookup_insert_eq|].
        exists w. rewrite lookup_insert_ne; [done|congruence]. }
    tauto.
  - intros x Hx. apply (ps_frame _ _ _ _ _ _ _ Hst). intros q [k Hq] Hin. apply Ht2.
    destruct (wf_page _ _ _ (pt_wf _ _ _ _ (ps_inv _ _ _ _ _ _ _ Hst)) _ _ Hq).
    rewrite (page_disjoint p q x) by done. eexists; eauto.
Qed.
End AddPage.

Lemma npages_one v : 0 <= v < 2 ^ 26 ->
  npages (v * 4096) PGSIZE = 1 /\ PGROUNDDOWN (v * 4096) = v * 4096.
Proof.
  intros Hv. assert (H : PGROUNDDOWN (v * 4096) = v * 4096)
    by (apply PGROUNDDOWN_id; [lia|now rewrite Z.mod_mul by lia]).
  split; [|done]. unfold npages. rewrite H. unfold PGSIZE.
  pose proof (PGROUNDDOWN_bounds (v * 4096 + 4096 - 1) ltac:(lia)).
  pose proof (PGROUNDDOWN_aligned (v * 4096 + 4096 - 1) ltac:(lia)).
  Z.div_mod_to_equations. lia.
Qed.

Lemma not_mapped_D s l T root D v :
  as_inv s l T root D -> Z.land (pte_at (k_mem s) T (v * 4096)) PTE_V = 0 -> D !! v = None.
Proof.
  intros Hinv Hv. destruct (D !! v) as [pa|] eqn:E; [|done].
  destruct (as_page _ _ _ _ _ Hinv v pa E) as (Hok & _).
  now destruct (leaf_facts _ _ Hok (as_leaf _ _ _ _ _ Hinv v pa E)).
Qed.

Lemma add_page P s p l T root D s1 v perm :
  as_inv s (p :: l) T root D -> avoid P (p :: l) T -> kinv s1 l ->
  (forall x, ~ in_page p x -> mget (k_mem s1) x = mget (k_mem s) x) ->
  0 <= v < 2 ^ 26 -> 0 <= perm < 1024 -> leaf_flags (Z.lor perm PTE_V) ->
  Z.land (pte_at (k_mem s) T (v * 4096)) PTE_V = 0 ->
  exists r s2, mappages root (v * 4096) PGSIZE p perm s1 = Done r s2 /\
    ((r = 0 /\ exists l2 T2, vstep P s (p :: l) T D s2 l2 T2 (<[v := p]> D) root /\
        (forall x, in_page p x -> mget (k_mem s2) x = mget (k_mem s1) x) /\
        (forall va, 0 <= va < MAXVA -> pte_at (k_mem s2) T2 va =
           if va / 4096 =? v then Z.lor (Z.lor (PA2PTE p) perm) PTE_V else pte_at (k_mem s) T va)) \/
     (r = -1 /\ exists s3 l3 T3, kfree p s2 = Done tt s3 /\ vstep P s (p :: l) T D s3 l3 T3 D root /\
        (forall va, 0 <= va < MAXVA -> pte_at (k_mem s3) T3 va = pte_at (k_mem s) T va))).
Proof.
  intros Hinv Hav Hk1 Hout1 Hv Hperm Hlf HV.
  destruct (ap_page s p l T root D Hinv) as (Hok & _). pose proof (page_ok_56 _ Hok) as [Hp56 _].
  pose proof (page_ok_pos p Hok) as Hp32.
  destruct (ap_pt s p l T root D Hinv s1 Hk1 Hout1) as [Hpt1 Hpte1].
  destruct (npages_one v Hv) as [Hnp Hpd].
  destruct (mappages_spec (v * 4096) PGSIZE p perm s1 l T root Hpt1)
    as (r & j & s2 & l2 & T2 & Hm & Hst & Hr & Hpte);
    [unfold PGSIZE; lia|lia|rewrite MAXVA_eq; unfold PGSIZE; lia|lia|rewrite Hnp; lia|lia| |].
  { intros j. rewrite Hnp, Hpd. intros Hj. replace (v * 4096 + j * 4096) with (v * 4096) by lia.
    now rewrite Hpte1. }
  rewrite Hnp, Hpd in *. exists r, s2. split; [done|].
  destruct Hr as [[-> ->]|(-> & Hj & ->)].
  - left. split; [done|]. exists l2, T2.
    assert (Hpte' : forall va, 0 <= va < MAXVA -> pte_at (k_mem s2) T2 va =
      if va / 4096 =? v then Z.lor (Z.lor (PA2PTE p) perm) PTE_V else pte_at (k_mem s) T va).
    { intros va Hva. rewrite Hpte, map_range_one, Z.div_mul by (done || lia || now rewrite Z.mod_mul).
      now rewrite Hpte1. }
    destruct (ap_done P s p l T root D Hinv Hav s1 Hk1 Hout1 s2 l2 T2 Hst v perm Hv
      (not_mapped_D _ _ _ _ _ _ Hinv HV) Hlf Hpte') as [H1 H2]. done.
  - right. split; [done|].
    destruct (ap_undo P s p l T root D Hinv Hav s1 Hk1 Hout1 s2 [] T2 Hst) as (s3 & H1 & H2 & H3).
    { intros va Hva. rewrite Hpte by done. assert (j = 0) as -> by lia. unfold map_range.
      destruct (Z.leb_spec (v * 4096) va), (Z.ltb_spec va (v * 4096 + 0 * 4096)); simpl; auto; lia. }
    exists s3, [p], T2. done.
Qed.

(** ** Growing an address space *)

(** [kalloc] followed by [memset(mem, 0, PGSIZE)]. *)
Lemma kalloc_zero s p l :
  kinv s (p :: l) -> exists s0 s1, kalloc s = Done p s0 /\ kmemset p 0 PGSIZE s0 = Done tt s1 /\
    kinv s1 l /\
    (forall x, ~ in_page p x -> mget (k_mem s1) x = mget (k_mem s) x) /\
    (forall x, in_page p x -> mget (k_mem s1) x = 0).
Proof.
  intros Hk. pose proof (kalloc_cons s p l Hk) as Hc.
  destruct (kalloc_inv s p l Hk) as (s0 & Hs0 & Hk0 & Hout & _). rewrite Hc in Hs0. injection Hs0 as <-.
  eexists _, _. split; [exact Hc|]. split; [reflexivity|]. conjs.
  - apply (kinv_frame (Kst _ _ _)); [done|]. intros q x Hq Hx. cbn [k_mem].
    apply mget_memset_ne. intros Hin. destruct Hk as [_ _ Hnd Hok].
    apply NoDup_cons in Hnd as [Hn _]. rewrite Forall_forall in Hok.
    apply Hn. rewrite (page_disjoint p q x); auto; apply Hok; [left|now right].
  - intros x Hx. cbn [k_mem set_mem]. rewrite mget_memset_ne by done. now apply Hout.
  - intros x Hx. cbn [k_mem set_mem]. now apply mget_memset_in.
Qed.

Definition user_perm (xperm : Z) : Z := Z.lor (Z.lor PTE_R PTE_U) xperm.

Lemma user_perm_ok xperm : 0 <= xperm < 1024 ->
  0 <= user_perm xperm < 1024 /\ leaf_flags (Z.lor (user_perm xperm) PTE_V).
Proof.
  intros Hx. assert (H : 0 <= user_perm xperm < 1024)
    by (apply (lor_bound 10); [lia|vm_compute; split; [discriminate|reflexivity]|lia]).
  split; [done|]. split; [apply (lor_bound 10); [lia|done|apply PTE_V_range]|].
  rewrite land_lor_V. split; [discriminate|]. intros He. apply (f_equal (fun z => Z.testbit z 1)) in He.
  unfold user_perm in He. rewrite !Z.lor_spec in He. discriminate He.
Qed.

(** What an operation establishes on the pages [v .. v+n-1] it adds: page [w]
    has the permissions [perm w] and its contents satisfy [C w]. *)
Definition added (perm : Z -> Z) (C : Z -> Z -> mem -> Prop)
  (s' : kst) (T' : tree) (D' : gmap Z Z) (v n : Z) : Prop :=
  forall w, v <= w < v + n -> exists pa, D' !! w = Some pa /\
    pte_at (k_mem s') T' (w * 4096) = Z.lor (Z.lor (PA2PTE pa) (perm w)) PTE_V /\
    C w pa (k_mem s').
Definition zeroed (w pa : Z) (m : mem) : Prop := forall x, in_page pa x -> mget m x = 0.

(** What it leaves when it fails: the pages [old .. v-1] are gone again and
    nothing else is mapped below page [top]. *)
Definition undone (s : kst) (T : tree) (D : gmap Z Z) (s' : kst) (T' : tree) (D' : gmap Z Z)
  (old v top : Z) : Prop :=
  D' = del_range D old (Z.to_nat (v - old)) /\
  forall va, 0 <= va < MAXVA ->
    if (old <=? va / 4096) && (va / 4096 <? top) then Z.land (pte_at (k_mem s') T' va) PTE_V = 0
    else pte_at (k_mem s') T' va = pte_at (k_mem s) T va.

Lemma vstep_weaken (P R : Z -> Prop) s l T D s' l' T' D' root :
  (forall x, P x -> R x) -> vstep R s l T D s' l' T' D' root -> vstep P s l T D s' l' T' D' root.
Proof. intros H [H1 H2 H3 H4]. split; [done|done| |auto]. intros p x Hp Hx HP. eapply H3; eauto. Qed.

Lemma vstep_or P Q s l T D s' l' T' D' root :
  vstep (fun x => P x \/ Q x) s l T D s' l' T' D' root ->
  vstep P s l T D s' l' T' D' root /\ vstep Q s l T D s' l' T' D' root.
Proof. intros H. split; (eapply vstep_weaken; [|exact H]); simpl; auto. Qed.

Lemma page_va va : 0 <= va < MAXVA -> 0 <= va / 4096 * 4096 < MAXVA.
Proof. rewrite MAXVA_eq. intros. Z.div_mod_to_equations. lia. Qed.

Lemma pte_at_page m T va : 0 <= va < MAXVA -> pte_at m T (va / 4096 * 4096) = pte_at m T va.
Proof.
  intros Hva. pose proof (page_va va Hva).
  destruct (PX_page (va / 4096 * 4096) va) as [_ Hx]; [done|done|].
  rewrite Z.div_mul in Hx by lia. destruct (Hx eq_refl) as (E2 & E1 & E0).
  unfold pte_at. now rewrite !path2, E2, E1, E0.
Qed.

Lemma avoid_page (Q : Z -> Prop) s l T root D v p :
  avoid Q l T -> as_inv s l T root D -> D !! v = Some p ->
  avoid (fun x => Q x \/ in_page p x) l T.
Proof.
  intros HQ Hinv Hv q x Hq Hin [HQx|Hp]; [by apply (HQ q x)|].
  destruct (as_page _ _ _ _ _ Hinv v p Hv) as (Hok & Hn & Ht & _).
  assert (Hqok : page_ok q).
  { destruct Hq as [Hq|[k Hq]].
    - pose proof (kinv_pages _ _ (pt_kinv _ _ _ _ (as_pt _ _ _ _ _ Hinv))) as Hf.
      rewrite Forall_forall in Hf. auto.
    - eapply (wf_page _ _ _ (pt_wf _ _ _ _ (as_pt _ _ _ _ _ Hinv))); eauto. }
  rewrite (page_disjoint q p x) in Hq by done. tauto.
Qed.

(** Giving back the pages [old .. v-1]. *)
Lemma give_back P s l T D s1 l1 T1 root old v top :
  vstep P s l T D s1 l1 T1 D root -> 0 <= old <= v -> v <= top -> v < 2 ^ 26 ->
  (forall va, 0 <= va < MAXVA -> pte_at (k_mem s1) T1 va = pte_at (k_mem s) T va) ->
  (forall w, v <= w < top -> Z.land (pte_at (k_mem s) T (w * 4096)) PTE_V = 0) ->
  (forall w, old <= w < v -> exists pa, D !! w = Some pa /\ forall x, in_page pa x -> ~ P x) ->
  exists s' l' D', uvmdealloc root (v * 4096) (old * 4096) s1 = Done (old * 4096) s' /\
    vstep P s l T D s' l' T1 D' root /\ undone s T D s' T1 D' old v top.
Proof.
  intros Hst1 Ho Ht Hv Hp1 HV HD.
  destruct (uvmdealloc_spec P s1 l1 T1 root D (v * 4096) (old * 4096)) as (s' & l' & H1 & H2 & H3);
    [apply Hst1|apply Hst1|lia|rewrite MAXVA_eq; lia| |].
  { rewrite !pgs_page by lia. done. }
  rewrite !pgs_page in * by lia. rewrite Z.min_r in H1 by lia. eexists s', l', _. split; [done|].
  split; [eapply vstep_trans; eauto|]. split; [done|]. intros va Hva. rewrite H3, Hp1 by done.
  destruct (Z.leb_spec old (va / 4096)), (Z.ltb_spec (va / 4096) v), (Z.ltb_spec (va / 4096) top);
    simpl; try done; try lia.
  specialize (HV (va / 4096) ltac:(lia)). now rewrite pte_at_page in HV.
Qed.

Lemma del_range_insert D old v p :
  D !! v = None -> 0 <= old <= v ->
  del_range (<[v := p]> D) old (Z.to_nat (v + 1 - old)) = del_range D old (Z.to_nat (v - old)).
Proof.
  intros HD Hv. apply map_eq. intros w. rewrite !lookup_del_range, !Z2Nat.id by lia.
  destruct (decide (w = v)) as [->|Hne].
  - destruct (Z.leb_spec old v), (Z.ltb_spec v (old + (v + 1 - old))),
      (Z.ltb_spec v (old + (v - old))); simpl; try done; lia.
  - rewrite lookup_insert_ne by done.
    destruct (Z.leb_spec old w), (Z.ltb_spec w (old + (v + 1 - old))),
      (Z.ltb_spec w (old + (v - old))); simpl; try done; lia.
Qed.

(** One page at [v] added, followed by the rest of the loop. *)
Section OneMore.
Context (s : kst) (T : tree) (D : gmap Z Z) (p v : Z) (s2 : kst) (T2 : tree).
Context (perm : Z -> Z) (C : Z -> Z -> mem -> Prop).
Context (Hv : 0 <= v < 2 ^ 26) (HDv : D !! v = None)
  (Hpte : forall va, 0 <= va < MAXVA -> pte_at (k_mem s2) T2 va =
     if va / 4096 =? v then Z.lor (Z.lor (PA2PTE p) (perm v)) PTE_V else pte_at (k_mem s) T va).
Context (s' : kst) (T' : tree) (D' : gmap Z Z) (n : nat).

Lemma more_added :
  added perm C s' T' D' (v + 1) (Z.of_nat n) ->
  (forall w, ~ (v + 1 <= w < v + 1 + Z.of_nat n) -> D' !! w = <[v := p]> D !! w) ->
  (forall va, 0 <= va < MAXVA -> ~ (v + 1 <= va / 4096 < v + 1 + Z.of_nat n) ->
     pte_at (k_mem s') T' va = pte_at (k_mem s2) T2 va) ->
  C v p (k_mem s') ->
  added perm C s' T' D' v (Z.of_nat (S n)) /\
  (forall w, ~ (v <= w < v + Z.of_nat (S n)) -> D' !! w = D !! w) /\
  (forall va, 0 <= va < MAXVA -> ~ (v <= va / 4096 < v + Z.of_nat (S n)) ->
     pte_at (k_mem s') T' va = pte_at (k_mem s) T va).
Proof.
  intros Hadd HDo Hpo Hz. split; [|split].
  - intros w Hw. destruct (decide (w = v)) as [->|]; [|apply Hadd; lia].
    exists p. rewrite HDo, lookup_insert_eq by lia. split; [done|]. split; [|done].
    rewrite Hpo, Hpte by (rewrite ?Z.div_mul, ?MAXVA_eq; lia).
    now rewrite Z.div_mul, Z.eqb_refl by lia.
  - intros w Hw. rewrite HDo, lookup_insert_ne by lia. done.
  - intros va Hva Hout. rewrite Hpo, Hpte by (done || lia).
    destruct (Z.eqb_spec (va / 4096) v); [lia|done].
Qed.

Lemma more_undone old top :
  0 <= old <= v -> v < top ->
  undone s2 T2 (<[v := p]> D) s' T' D' old (v + 1) top -> undone s T D s' T' D' old v top.
Proof.
  intros Ho Ht [-> Hp]. split; [now apply del_range_insert|]. intros va Hva. specialize (Hp va Hva).
  destruct ((old <=? va / 4096) && (va / 4096 <? top)) eqn:E; [done|].
  rewrite Hp, Hpte by done. destruct (Z.eqb_spec (va / 4096) v) as [He|]; [|done].
  rewrite He in E. apply andb_false_iff in E as [?%Z.leb_gt|?%Z.ltb_ge]; lia.
Qed.
End OneMore.

(** One iteration of [uvmalloc]'s loop. *)
Lemma uvmalloc_step fuel P Q s l T root D old v newsz xperm top :
  as_inv s l T root D -> avoid P l T -> avoid Q l T ->
  0 <= old <= v -> v < top <= 2 ^ 26 -> v * 4096 < newsz -> 0 <= xperm < 1024 ->
  (forall w, v <= w < top -> Z.land (pte_at (k_mem s) T (w * 4096)) PTE_V = 0) ->
  (forall w, old <= w < v -> exists pa, D !! w = Some pa /\ forall x, in_page pa x -> ~ P x) ->
  (exists s' l' T' D', uvmalloc_loop (S fuel) root (v * 4096) (old * 4096) newsz xperm s = Done 0 s' /\
     vstep P s l T D s' l' T' D' root /\ undone s T D s' T' D' old v top) \/
  (exists p s2 l2 T2, uvmalloc_loop (S fuel) root (v * 4096) (old * 4096) newsz xperm s =
       uvmalloc_loop fuel root ((v + 1) * 4096) (old * 4096) newsz xperm s2 /\
     vstep (fun x => P x \/ Q x) s l T D s2 l2 T2 (<[v := p]> D) root /\
     zeroed v p (k_mem s2) /\ (forall x, in_page p x -> ~ P x) /\
     (forall va, 0 <= va < MAXVA -> pte_at (k_mem s2) T2 va =
        if va / 4096 =? v then Z.lor (Z.lor (PA2PTE p) (user_perm xperm)) PTE_V
        else pte_at (k_mem s) T va)).
Proof.
  intros Hinv HavP HavQ Ho Hv Hsz Hx HV HD. cbn [uvmalloc_loop].
  destruct (Z.ltb_spec (v * 4096) newsz); [|lia]. destruct l as [|p l].
  { pose proof (kalloc_empty s (pt_kinv _ _ _ _ (as_pt _ _ _ _ _ Hinv))) as Hka.
    rewrite (bind_Done _ _ _ _ _ Hka). cbn [Z.eqb].
    destruct (give_back P s [] T D s [] T root old v top)
      as (s' & l' & D' & H1 & H2 & H3); try done; try lia.
    left. exists s', l', T, D'. by rewrite (bind_Done _ _ _ _ _ H1). }
  destruct (kalloc_zero s p l (pt_kinv _ _ _ _ (as_pt _ _ _ _ _ Hinv)))
    as (s0 & s1 & Hka & Hms & Hk1 & Hout1 & Hz1).
  destruct (ap_page s p l T root D Hinv) as (Hok & _). pose proof (page_ok_pos p Hok).
  rewrite (bind_Done _ _ _ _ _ Hka). destruct (Z.eqb_spec p 0); [lia|].
  rewrite (bind_Done _ _ _ _ _ Hms). destruct (user_perm_ok xperm Hx) as [Hup Hul].
  destruct (add_page (fun x => P x \/ Q x) s p l T root D s1 v (user_perm xperm))
    as (r & s2 & Hm & Hr); try done; try lia.
  { intros q x Hq Hin [?|?]; [eapply HavP|eapply HavQ]; eauto. }
  { apply HV. lia. }
  unfold user_perm in Hm. rewrite (bind_Done _ _ _ _ _ Hm).
  destruct Hr as [(-> & l2 & T2 & Hst & Hcont & Hpte)|(-> & s3 & l3 & T3 & Hkf & Hst & Hpte)];
    cbn [Z.eqb negb].
  - right. exists p, s2, l2, T2. rewrite u64_small by (unfold PGSIZE; lia).
    replace (v * 4096 + PGSIZE) with ((v + 1) * 4096) by (unfold PGSIZE; lia). conjs; try done.
    + intros x Hin. rewrite Hcont by done. auto.
    + intros x. apply HavP. left. left.
  - rewrite (bind_Done _ _ _ _ _ Hkf). destruct (vstep_or P Q _ _ _ _ _ _ _ _ _ Hst) as [HstP _].
    destruct (give_back P s (p :: l) T D s3 l3 T3 root old v top)
      as (s' & l' & D' & H1 & H2 & H3); try done; try lia.
    left. exists s', l', T3, D'. by rewrite (bind_Done _ _ _ _ _ H1).
Qed.

Lemma uvmalloc_loop_spec n fuel P Q s l T root D old v newsz xperm :
  as_inv s l T root D -> avoid P l T -> avoid Q l T -> (n <= fuel)%nat ->
  0 <= old <= v -> pgs newsz = v + Z.of_nat n -> 0 <= newsz <= MAXVA -> 0 <= xperm < 1024 ->
  (forall w, v <= w < v + Z.of_nat n -> Z.land (pte_at (k_mem s) T (w * 4096)) PTE_V = 0) ->
  (forall w, old <= w < v -> exists pa, D !! w = Some pa /\ forall x, in_page pa x -> ~ P x) ->
  exists r s' l' T' D',
    uvmalloc_loop (S fuel) root (v * 4096) (old * 4096) newsz xperm s = Done r s' /\
    (r = newsz /\ vstep Q s l T D s' l' T' D' root /\
      added (fun _ => user_perm xperm) zeroed s' T' D' v (Z.of_nat n) /\
      (forall w, ~ (v <= w < v + Z.of_nat n) -> D' !! w = D !! w) /\
      (forall va, 0 <= va < MAXVA -> ~ (v <= va / 4096 < v + Z.of_nat n) ->
         pte_at (k_mem s') T' va = pte_at (k_mem s) T va) \/
     r = 0 /\ vstep P s l T D s' l' T' D' root /\ undone s T D s' T' D' old v (v + Z.of_nat n)).
Proof.
  revert fuel Q s l T D v. induction n as [|n IH];
    intros fuel Q s l T D v Hinv HavP HavQ Hfuel Hov Hn Hsz Hx HV HD;
    pose proof MAXVA_eq as HM; pose proof (pgs_eq newsz ltac:(lia)) as [_ Hb].
  - cbn [uvmalloc_loop]. destruct (Z.ltb_spec (v * 4096) newsz); [lia|].
    exists newsz, s, l, T, D. split; [done|].
    left. split; [done|]. split; [now apply vstep_refl|]. split; [intros w Hw; lia|]. done.
  - destruct (uvmalloc_step fuel P Q s l T root D old v newsz xperm (v + Z.of_nat (S n)))
      as [(s' & l' & T' & D' & H)|(p & s2 & l2 & T2 & -> & Hst & Hc & Hpp & Hpte)]; try done; try lia.
    { exists 0, s', l', T', D'. naive_solver. }
    assert (HDn : D !! v = None) by (eapply not_mapped_D; [done|apply HV; lia]).
    destruct fuel as [|fuel]; [lia|]. destruct (vstep_or P Q _ _ _ _ _ _ _ _ _ Hst) as [HstP HstQ].
    destruct (IH fuel (fun x => Q x \/ in_page p x) s2 l2 T2 (<[v := p]> D) (v + 1))
      as (r & s' & l' & T' & D' & Hrun & Hres); try done; try lia.
    + apply Hst.
    + apply HstP.
    + eapply avoid_page; [apply HstQ|apply Hst|apply lookup_insert_eq].
    + intros w Hw. rewrite Hpte, Z.div_mul by lia.
      destruct (Z.eqb_spec w v); [lia|]. apply HV. lia.
    + intros w Hw. destruct (decide (w = v)) as [->|Hne]; [rewrite lookup_insert_eq; eauto|].
      rewrite lookup_insert_ne by done. apply HD. lia.
    + exists r, s', l', T', D'. split; [done|].
      destruct Hres as [(-> & Hst' & Hadd & HDo & Hpo)|(-> & Hst' & Hun)].
      * left. split; [done|].
        destruct (more_added s T D p v s2 T2 (fun _ => user_perm xperm) zeroed ltac:(lia) Hpte
          s' T' D' n Hadd HDo Hpo) as (H1 & H2 & H3).
        { intros x Hin. rewrite (vs_frame _ _ _ _ _ _ _ _ _ _ Hst') by auto. auto. }
        split; [|done]. eapply vstep_trans; [exact HstQ|].
        apply (vstep_or Q (in_page p) _ _ _ _ _ _ _ _ _ Hst').
      * right. split; [done|]. replace (v + Z.of_nat (S n)) with (v + 1 + Z.of_nat n) in * by lia.
        split; [eapply vstep_trans; eauto|].
        apply (more_undone s T D p v s2 T2 (fun _ => user_perm xperm) HDn Hpte); done || lia.
Qed.

Lemma uvmalloc_spec P s l T root D oldsz newsz xperm :
  as_inv s l T root D -> avoid P l T -> 0 <= oldsz <= newsz -> newsz <= MAXVA ->
  0 <= xperm < 1024 ->
  (forall w, pgs oldsz <= w < pgs newsz -> Z.land (pte_at (k_mem s) T (w * 4096)) PTE_V = 0) ->
  exists r s' l' T' D', uvmalloc root oldsz newsz xperm s = Done r s' /\
    vstep P s l T D s' l' T' D' root /\
    (forall va, 0 <= va < MAXVA -> ~ (pgs oldsz <= va / 4096 < pgs newsz) ->
       pte_at (k_mem s') T' va = pte_at (k_mem s) T va) /\
    (r = newsz /\
       added (fun _ => user_perm xperm) zeroed s' T' D' (pgs oldsz) (pgs newsz - pgs oldsz) /\
       (forall w, ~ (pgs oldsz <= w < pgs newsz) -> D' !! w = D !! w) \/
     r = 0 /\ D' = D /\
       (forall w, pgs oldsz <= w < pgs newsz -> Z.land (pte_at (k_mem s') T' (w * 4096)) PTE_V = 0)).
Proof.
  intros Hinv Hav Ho Hn Hx HV. unfold uvmalloc.
  destruct (Z.ltb_spec newsz oldsz); [lia|]. pose proof MAXVA_eq as HM.
  pose proof (pgs_eq oldsz ltac:(lia)) as [Eo Bo]. pose proof (pgs_eq newsz ltac:(lia)) as [En Bn].
  pose proof (pgs_mono oldsz newsz ltac:(lia) ltac:(lia)) as Hm. cbv zeta. rewrite Eo.
  destruct (uvmalloc_loop_spec (Z.to_nat (pgs newsz - pgs oldsz))
    (S (Z.to_nat ((newsz - pgs oldsz * 4096) / PGSIZE))) P P s l T root D (pgs oldsz) (pgs oldsz) newsz xperm)
    as (r & s' & l' & T' & D' & Hrun & Hres); try done; try lia.
  { unfold PGSIZE. Z.div_mod_to_equations. lia. }
  { intros w Hw. apply HV. lia. }
  rewrite Z2Nat.id in Hres by lia. replace (pgs oldsz + (pgs newsz - pgs oldsz)) with (pgs newsz) in Hres by lia.
  exists r, s', l', T', D'. split; [done|].
  destruct Hres as [(-> & Hst & Hadd & HD & Hp)|(-> & Hst & HD & Hp)].
  - split; [done|]. split; [done|]. left. done.
  - split; [done|]. replace (Z.to_nat (pgs oldsz - pgs oldsz)) with O in HD by lia. split.
    + intros va Hva Hout. specialize (Hp va Hva).
      destruct ((pgs oldsz <=? va / 4096) && (va / 4096 <? pgs newsz)) eqn:E; [|done].
      apply andb_true_iff in E as [?%Z.leb_le ?%Z.ltb_lt]. lia.
    + right. split; [done|]. split; [done|]. intros w Hw. specialize (Hp (w * 4096) ltac:(lia)).
      rewrite Z.div_mul in Hp by lia.
      destruct (Z.leb_spec (pgs oldsz) w), (Z.ltb_spec w (pgs newsz)); done || lia.
Qed.

(** [uvmalloc] grows an address space from [oldsz] to [newsz] bytes or
    leaves it as it was.  On success each new page is backed by its own page
    of zeroes, mapped user readable with the requested permissions; when memory
    runs out it returns 0 with the data pages of the address space exactly as
    before.  Either way no page is leaked, no other entry of the table changes,
    and nothing is written outside free pages and the table's nodes. *)
Theorem uvmalloc_correct P s l T root D oldsz newsz xperm :
  as_inv s l T root D -> avoid P l T -> 0 <= oldsz <= newsz -> newsz <= MAXVA ->
  0 <= xperm < 1024 ->
  (forall w, pgs oldsz <= w < pgs newsz -> Z.land (pte_at (k_mem s) T (w * 4096)) PTE_V = 0) ->
  exists r s' l' T' D', uvmalloc root oldsz newsz xperm s = Done r s' /\
    vstep P s l T D s' l' T' D' root /\
    (forall va, 0 <= va < MAXVA -> ~ (pgs oldsz <= va / 4096 < pgs newsz) ->
       pte_at (k_mem s') T' va = pte_at (k_mem s) T va) /\
    (r = newsz /\
       added (fun _ => user_perm xperm) zeroed s' T' D' (pgs oldsz) (pgs newsz - pgs oldsz) /\
       (forall w, ~ (pgs oldsz <= w < pgs newsz) -> D' !! w = D !! w) \/
     r = 0 /\ D' = D /\
       (forall w, pgs oldsz <= w < pgs newsz -> Z.land (pte_at (k_mem s') T' (w * 4096)) PTE_V = 0)).
Proof. exact (uvmalloc_spec P s l T root D oldsz newsz xperm). Qed.

(** [uvmdealloc] shrinks an address space: the pages between the two sizes
    are unmapped and returned to the allocator, each exactly once, the others
    stay mapped with their contents, and the new size is returned; growing or
    equal sizes change nothing. *)
Theorem uvmdealloc_correct P s l T root D oldsz newsz :
  as_inv s l T root D -> avoid P l T -> 0 <= newsz < 2 ^ 64 - 4096 -> 0 <= oldsz <= MAXVA ->
  (forall w, pgs newsz <= w < pgs oldsz ->
     exists pa, D !! w = Some pa /\ forall x, in_page pa x -> ~ P x) ->
  exists s' l', uvmdealloc root oldsz newsz s = Done (Z.min oldsz newsz) s' /\
    vstep P s l T D s' l' T (del_range D (pgs newsz) (Z.to_nat (pgs oldsz - pgs newsz))) root /\
    (forall va, 0 <= va < MAXVA -> pte_at (k_mem s') T va =
       if (pgs newsz <=? va / 4096) && (va / 4096 <? pgs oldsz) then 0 else pte_at (k_mem s) T va).
Proof. exact (uvmdealloc_spec P s l T root D oldsz newsz). Qed.
End VmUser.

(** ** The example table with its two data pages *)
Module AsExample.
Import VmExample.
Definition D2 : gmap Z Z := {[ 0 := page 7; 1 := page 8 ]}.
(** The bytes of the first data page. *)
Definition P7 (x : Z) : Prop := in_page (page 7) x.

Lemma D2_lookup v pa : D2 !! v = Some pa -> v = 0 /\ pa = page 7 \/ v = 1 /\ pa = page 8.
Proof. unfold D2. rewrite lookup_insert_Some, lookup_singleton_Some. naive_solver. Qed.

Lemma as_ex : exists l T, as_inv st2 l T (page 4) D2 /\
  (forall p, tpage T p \/ p ∈ l -> p ∈ [page 0; page 1; page 2; page 3; page 4]) /\
  (forall x, page 5 <= x -> mget (k_mem st2) x = 0) /\
  forall va, 0 <= va < MAXVA -> pte_at (k_mem st2) T va =
    map_range (fun _ => 0) 0 2 (page 7) (Z.lor (Z.lor PTE_R PTE_W) PTE_U) va.
Proof.
  destruct pt_inv_ex2 as (l & T & Hinv & Hown & Hz & Hp). exists l, T. conjs; try done.
  assert (Hn : forall i, 5 <= i -> ~ (tpage T (page i) \/ page i ∈ l)).
  { intros i Hi Hx%Hown%low_pages. unfold page, PGSIZE in Hx. lia. }
  split; [done| | |].
  - intros v pa [[-> ->]|[-> ->]]%D2_lookup.
    + specialize (Hn 7 ltac:(lia)). conjs; tauto || lia || (apply page_ok_ex; lia).
    + specialize (Hn 8 ltac:(lia)). conjs; tauto || lia || (apply page_ok_ex; lia).
  - intros v1 v2 pa [[-> ->]|[-> ->]]%D2_lookup [[-> H]|[-> H]]%D2_lookup; try done;
      unfold page, PGSIZE in H; lia.
  - intros v pa [[-> ->]|[-> ->]]%D2_lookup; rewrite Hp by (rewrite MAXVA_eq; lia);
      exists (Z.lor (Z.lor (Z.lor PTE_R PTE_W) PTE_U) PTE_V);
      (split; [vm_compute; repeat split; discriminate|vm_compute; reflexivity]).
Qed.

Lemma P7_avoid (l : list Z) T :
  (forall p, tpage T p \/ p ∈ l -> p ∈ [page 0; page 1; page 2; page 3; page 4]) -> avoid P7 l T.
Proof.
  intros Hown p x Hp Hin. assert (Hp' : tpage T p \/ p ∈ l) by tauto. apply Hown, low_pages in Hp'.
  unfold P7, in_page, page, PGSIZE in *. lia.
Qed.

Lemma uvmalloc_correct_witness :
  exists r s', uvmalloc (page 4) 0x2000 0x2064 PTE_W st2 = Done r s' /\
    forall x, in_page (page 7) x -> mget (k_mem s') x = mget (k_mem st2) x.
Proof.
  destruct as_ex as (l & T & Hinv & Hown & Hz & Hp).
  destruct (uvmalloc_correct P7 st2 l T (page 4) D2 0x2000 0x2064 PTE_W Hinv (P7_avoid l T Hown))
    as (r & s' & l' & T' & D' & H & Hst & _);
    [lia|rewrite MAXVA_eq; lia|vm_compute; split; [discriminate|reflexivity]| |].
  - change (pgs 0x2000) with 2. change (pgs 0x2064) with 3. intros w Hw.
    rewrite Hp by (rewrite MAXVA_eq; lia). assert (w = 2) as -> by lia. reflexivity.
  - exists r, s'. split; [exact H|]. exact (vs_frame _ _ _ _ _ _ _ _ _ _ Hst).
Defined.

Lemma uvmdealloc_correct_witness :
  exists s', uvmdealloc (page 4) 0x2000 0x1000 st2 = Done 0x1000 s'.
Proof.
  destruct as_ex as (l & T & Hinv & Hown & Hz & Hp).
  destruct (uvmdealloc_correct P7 st2 l T (page 4) D2 0x2000 0x1000 Hinv (P7_avoid l T Hown))
    as (s' & l' & H & _); [lia|rewrite MAXVA_eq; lia| |exists s'; exact H].
  change (pgs 0x2000) with 2. change (pgs 0x1000) with 1. intros w Hw.
  exists (page 8). split; [assert (w = 1) as -> by lia; reflexivity|].
  intros x. unfold P7, in_page, page, PGSIZE. lia.
Defined.
End AsExample.
