(* ===== verification/VmCopy.v ===== *)
(** * Copying address spaces and user data: [uvmcopy], [copyout], [copyin],
    [copyinstr]

    [uvmcopy] duplicates a parent's pages for [fork]; the copy functions move
    bytes between the kernel and the user memory an address space denotes. *)

From S2P Require Import Prelude Memory Riscv Spinlock Kalloc Vm VmWalk VmUser.

Section VmCopy.
Context `{HC : Ctx} `{HI : Image} `{HO : !ImageOk}.

Lemma lor_V f : Z.land f PTE_V <> 0 -> Z.lor f PTE_V = f.
Proof.
  intros Hf. apply Z.bits_inj'. intros n Hn. rewrite Z.lor_spec.
  change PTE_V with (2 ^ 0) in *. rewrite Z.pow2_bits_eqb by lia.
  destruct (Z.eqb_spec 0 n) as [<-|]; [|apply orb_false_r].
  rewrite orb_true_r. symmetry. apply not_false_is_true. intros Hb. apply Hf.
  apply Z.bits_inj'. intros i Hi. rewrite Z.land_spec, Z.pow2_bits_eqb, Z.bits_0 by lia.
  destruct (Z.eqb_spec 0 i) as [<-|]; [now rewrite Hb|apply andb_false_r].
Qed.

(** ** [uvmcopy] *)

(** The parent: its table [T0] rooted at [old] in memory [m0], its pages [D0]. *)
Section Uvmcopy.
Context (m0 : mem) (T0 : tree) (old : Z) (D0 : gmap Z Z) (top : Z).
Context (Hwf0 : wf m0 T0 old) (Htop : 0 <= top <= 2 ^ 26)
  (HD0 : forall w, 0 <= w < top -> exists pa, D0 !! w = Some pa /\ page_ok pa /\
     leaf (pte_at m0 T0 (w * 4096)) pa).

Definition parent (x : Z) : Prop :=
  (exists p, tpage T0 p /\ in_page p x) \/
  (exists w pa, 0 <= w < top /\ D0 !! w = Some pa /\ in_page pa x).
Definition parent_same (m : mem) : Prop := forall x, parent x -> mget m x = mget m0 x.

Definition flags0 (w : Z) : Z := PTE_FLAGS (pte_at m0 T0 (w * 4096)).
Definition same_bytes (w pa : Z) (m : mem) : Prop :=
  exists pa0, D0 !! w = Some pa0 /\ forall o, 0 <= o < 4096 -> mget m (pa + o) = mget m0 (pa0 + o).

Lemma parent_pte m va : parent_same m -> wf m T0 old /\ pte_at m T0 va = pte_at m0 T0 va.
Proof.
  intros Hs. assert (Hm : forall p x, tpage T0 p -> in_page p x -> mget m x = mget m0 x).
  { intros p x Hp Hx. apply Hs. left. eauto. }
  split; [by eapply wf_frame|by apply pte_at_frame].
Qed.

(** The body of the loop up to [kalloc]. *)
Lemma uvmcopy_entry s v : parent_same (k_mem s) -> 0 <= v < top ->
  exists pa, D0 !! v = Some pa /\ page_ok pa /\ leaf_flags (flags0 v) /\
  forall fuel new sz, v * 4096 < sz ->
    uvmcopy_loop (S fuel) old new (v * 4096) sz s =
    (p <-! kalloc ;;
     if p =? 0 then uvmunmap new 0 v true ;;; ret (-1)
     else
       modify (fun s => set_mem (memmove (k_mem s) p pa PGSIZE) s) ;;;
       r <-! mappages new (v * 4096) PGSIZE p (flags0 v) ;;
       if negb (r =? 0) then kfree p ;;; uvmunmap new 0 v true ;;; ret (-1)
       else uvmcopy_loop fuel old new (u64 (v * 4096 + PGSIZE)) sz) s.
Proof.
  intros Hs Hv. destruct (HD0 v Hv) as (pa & HD & Hok & Hlf). exists pa.
  destruct (leaf_facts _ _ Hok Hlf) as (Hval & _ & Hpa & _ & Hfl). conjs; try done.
  intros fuel new sz Hsz. cbn [uvmcopy_loop]. destruct (Z.ltb_spec (v * 4096) sz); [|lia].
  destruct (parent_pte (k_mem s) (v * 4096) Hs) as [Hwf Hpte].
  rewrite (bind_Done _ _ _ _ _ (walk_noalloc (v * 4096) s T0 old Hwf ltac:(rewrite MAXVA_eq; lia))).
  rewrite <- Hpte in Hval. destruct (pte_at_valid _ _ _ Hval) as (q & Hq & Hp).
  rewrite Hq. destruct (wf_page _ _ _ Hwf _ _ Hq) as [Hqok _].
  pose proof (page_entry_pos q (PX 0 (v * 4096)) Hqok ltac:(apply PX_range; lia)).
  destruct (Z.eqb_spec (q + 8 * PX 0 (v * 4096)) 0); [lia|].
  rewrite (bind_Done (panic_if false _) _ s tt s eq_refl).
  unfold load. rewrite (bind_Done (gets _) _ s _ s eq_refl). rewrite <- Hp.
  apply Z.eqb_neq in Hval. rewrite Hval.
  rewrite (bind_Done (panic_if false _) _ s tt s eq_refl). rewrite Hpte, Hpa.
  replace (v * 4096 / PGSIZE) with v by (unfold PGSIZE; now rewrite Z.div_mul by lia). done.
Qed.

(** Undoing a partial copy. *)
Lemma give_back_all P s l T D s1 l1 T1 root v :
  vstep P s l T D s1 l1 T1 D root -> 0 <= v <= top ->
  (forall va, 0 <= va < MAXVA -> pte_at (k_mem s1) T1 va = pte_at (k_mem s) T va) ->
  (forall w, v <= w < top -> Z.land (pte_at (k_mem s) T (w * 4096)) PTE_V = 0) ->
  (forall w, 0 <= w < v -> exists pa, D !! w = Some pa /\ forall x, in_page pa x -> ~ P x) ->
  exists s' l' D', uvmunmap root 0 v true s1 = Done tt s' /\
    vstep P s l T D s' l' T1 D' root /\ undone s T D s' T1 D' 0 v top.
Proof.
  intros Hst1 Hv Hp1 HV HD.
  destruct (uvmunmap_spec P s1 l1 T1 root D 0 v) as (s' & l' & H1 & H2 & H3);
    [apply Hst1|apply Hst1|lia|lia|lia|done|]. eexists s', l', _. split; [done|].
  split; [eapply vstep_trans; eauto|]. split; [now rewrite Z.sub_0_r|].
  intros va Hva. rewrite H3, Hp1 by done.
  destruct (Z.leb_spec 0 (va / 4096)), (Z.ltb_spec (va / 4096) (0 + v)), (Z.ltb_spec (va / 4096) top);
    simpl; try done; try lia.
  specialize (HV (va / 4096) ltac:(lia)). now rewrite pte_at_page in HV.
Qed.

Lemma kalloc_copy s p l pa :
  kinv s (p :: l) -> page_ok pa -> pa <> p ->
  exists s0 s1, kalloc s = Done p s0 /\
    modify (fun s => set_mem (memmove (k_mem s) p pa PGSIZE) s) s0 = Done tt s1 /\
    kinv s1 l /\
    (forall x, ~ in_page p x -> mget (k_mem s1) x = mget (k_mem s) x) /\
    (forall o, 0 <= o < 4096 -> mget (k_mem s1) (p + o) = mget (k_mem s) (pa + o)).
Proof.
  intros Hk Hpa Hne. destruct (kalloc_inv s p l Hk) as (s0 & Hs0 & Hk0 & Hout & _).
  pose proof (kinv_pages _ _ Hk) as Hf. rewrite Forall_forall in Hf.
  assert (Hp : page_ok p) by (apply Hf; left).
  eexists s0, _. split; [done|]. split; [reflexivity|]. cbn [k_mem set_mem]. conjs.
  - apply kinv_frame; [done|]. intros q x Hq Hx. apply mget_memmove_ne; [done|]. intros Hin.
    destruct Hk as [_ _ Hnd _]. apply NoDup_cons in Hnd as [Hn _].
    apply Hn. rewrite (page_disjoint p q x); auto. apply Hf. now right.
  - intros x Hx. rewrite mget_memmove_ne by done. now apply Hout.
  - intros o Ho. rewrite mget_memmove by done.
    destruct (Z.leb_spec p (p + o)), (Z.ltb_spec (p + o) (p + PGSIZE)); cbn [andb];
      unfold PGSIZE in *; try lia.
    replace (pa + (p + o - p)) with (pa + o) by lia. apply Hout. intros Hin. apply Hne.
    apply (page_disjoint pa p (pa + o)); try done. unfold in_page, PGSIZE. lia.
Qed.

(** One iteration: it fails and everything is undone, or page [v] is copied
    and the loop goes on. *)
Lemma uvmcopy_step fuel P Q s l T root D v sz :
  as_inv s l T root D -> avoid P l T -> avoid Q l T ->
  (forall x, parent x -> P x) -> parent_same (k_mem s) -> 0 <= v < top -> v * 4096 < sz ->
  (forall w, v <= w < top -> Z.land (pte_at (k_mem s) T (w * 4096)) PTE_V = 0) ->
  (forall w, 0 <= w < v -> exists pa, D !! w = Some pa /\ forall x, in_page pa x -> ~ P x) ->
  (exists s' l' T' D', uvmcopy_loop (S fuel) old root (v * 4096) sz s = Done (-1) s' /\
     vstep P s l T D s' l' T' D' root /\ undone s T D s' T' D' 0 v top) \/
  (exists p s2 l2 T2, uvmcopy_loop (S fuel) old root (v * 4096) sz s =
       uvmcopy_loop fuel old root ((v + 1) * 4096) sz s2 /\
     vstep (fun x => P x \/ Q x) s l T D s2 l2 T2 (<[v := p]> D) root /\
     same_bytes v p (k_mem s2) /\ (forall x, in_page p x -> ~ P x) /\
     (forall va, 0 <= va < MAXVA -> pte_at (k_mem s2) T2 va =
        if va / 4096 =? v then Z.lor (Z.lor (PA2PTE p) (flags0 v)) PTE_V else pte_at (k_mem s) T va)).
Proof.
  intros Hinv HavP HavQ HpP Hsame Hv Hsz HV HD.
  destruct (uvmcopy_entry s v Hsame ltac:(lia)) as (pa & HDpa & Hpaok & Hfl & Hstep).
  rewrite Hstep by lia. clear Hstep. destruct l as [|p l].
  { pose proof (kalloc_empty s (pt_kinv _ _ _ _ (as_pt _ _ _ _ _ Hinv))) as Hka.
    rewrite (bind_Done _ _ _ _ _ Hka). cbn [Z.eqb].
    destruct (give_back_all P s [] T D s [] T root v) as (s' & l' & D' & H1 & H2 & H3);
      try done; try lia.
    left. exists s', l', T, D'. by rewrite (bind_Done _ _ _ _ _ H1). }
  destruct (ap_page s p l T root D Hinv) as (Hok & _). pose proof (page_ok_pos p Hok).
  assert (Hpne : pa <> p).
  { intros ->. apply (HavP p p); [left; left|unfold in_page, PGSIZE; lia|].
    apply HpP. right. exists v, p. conjs; try done; try lia. unfold in_page, PGSIZE. lia. }
  destruct (kalloc_copy s p l pa (pt_kinv _ _ _ _ (as_pt _ _ _ _ _ Hinv)) Hpaok Hpne)
    as (s0 & s1 & Hka & Hms & Hk1 & Hout1 & Hc1).
  rewrite (bind_Done _ _ _ _ _ Hka). destruct (Z.eqb_spec p 0); [lia|].
  rewrite (bind_Done _ _ _ _ _ Hms).
  destruct (add_page (fun x => P x \/ Q x) s p l T root D s1 v (flags0 v))
    as (r & s2 & Hm & Hr); try done; try lia.
  { intros q x Hq Hin [?|?]; [eapply HavP|eapply HavQ]; eauto. }
  { apply Hfl. }
  { rewrite lor_V by apply Hfl. done. }
  { apply HV. lia. }
  rewrite (bind_Done _ _ _ _ _ Hm).
  destruct Hr as [(-> & l2 & T2 & Hst & Hcont & Hpte)|(-> & s3 & l3 & T3 & Hkf & Hst & Hpte)];
    cbn [Z.eqb negb].
  - right. exists p, s2, l2, T2. rewrite u64_small by (unfold PGSIZE; lia).
    replace (v * 4096 + PGSIZE) with ((v + 1) * 4096) by (unfold PGSIZE; lia). conjs; try done.
    + exists pa. split; [done|]. intros o Ho. rewrite Hcont, Hc1 by (unfold in_page, PGSIZE; lia).
      apply Hsame. right. exists v, pa. unfold in_page, PGSIZE. conjs; done || lia.
    + intros x. apply HavP. left. left.
  - rewrite (bind_Done _ _ _ _ _ Hkf). destruct (vstep_or P Q _ _ _ _ _ _ _ _ _ Hst) as [HstP _].
    destruct (give_back_all P s (p :: l) T D s3 l3 T3 root v) as (s' & l' & D' & H1 & H2 & H3);
      try done; try lia.
    left. exists s', l', T3, D'. by rewrite (bind_Done _ _ _ _ _ H1).
Qed.

Lemma uvmcopy_loop_spec n fuel P Q s l T root D v sz :
  as_inv s l T root D -> avoid P l T -> avoid Q l T ->
  (forall x, parent x -> P x) -> parent_same (k_mem s) ->
  (n <= fuel)%nat -> 0 <= v -> pgs sz = v + Z.of_nat n -> pgs sz = top -> 0 <= sz <= MAXVA ->
  (forall w, v <= w < top -> Z.land (pte_at (k_mem s) T (w * 4096)) PTE_V = 0) ->
  (forall w, 0 <= w < v -> exists pa, D !! w = Some pa /\ forall x, in_page pa x -> ~ P x) ->
  exists r s' l' T' D', uvmcopy_loop (S fuel) old root (v * 4096) sz s = Done r s' /\
    (r = 0 /\ vstep Q s l T D s' l' T' D' root /\
      added flags0 same_bytes s' T' D' v (Z.of_nat n) /\
      (forall w, ~ (v <= w < v + Z.of_nat n) -> D' !! w = D !! w) /\
      (forall va, 0 <= va < MAXVA -> ~ (v <= va / 4096 < v + Z.of_nat n) ->
         pte_at (k_mem s') T' va = pte_at (k_mem s) T va) \/
     r = -1 /\ vstep P s l T D s' l' T' D' root /\ undone s T D s' T' D' 0 v top).
Proof.
  revert fuel Q s l T D v. induction n as [|n IH];
    intros fuel Q s l T D v Hinv HavP HavQ HpP Hsame Hfuel Hv Hn Htp Hsz HV HD;
    pose proof (pgs_eq sz ltac:(rewrite MAXVA_eq in *; lia)) as [_ Hb].
  - cbn [uvmcopy_loop]. destruct (Z.ltb_spec (v * 4096) sz); [lia|].
    exists 0, s, l, T, D. split; [done|].
    left. split; [done|]. split; [now apply vstep_refl|]. split; [intros w Hw; lia|]. done.
  - destruct (uvmcopy_step fuel P Q s l T root D v sz)
      as [(s' & l' & T' & D' & H)|(p & s2 & l2 & T2 & -> & Hst & Hc & Hpp & Hpte)]; try done; try lia.
    { exists (-1), s', l', T', D'. naive_solver. }
    assert (HDn : D !! v = None) by (eapply not_mapped_D; [done|apply HV; lia]).
    destruct fuel as [|fuel]; [lia|]. destruct (vstep_or P Q _ _ _ _ _ _ _ _ _ Hst) as [HstP HstQ].
    destruct (IH fuel (fun x => Q x \/ in_page p x) s2 l2 T2 (<[v := p]> D) (v + 1))
      as (r & s' & l' & T' & D' & Hrun & Hres); try done; try lia.
    + apply Hst.
    + apply HstP.
    + eapply avoid_page; [apply HstQ|apply Hst|apply lookup_insert_eq].
    + intros x Hx. rewrite (vs_frame _ _ _ _ _ _ _ _ _ _ HstP) by auto. auto.
    + intros w Hw. rewrite Hpte, Z.div_mul by (rewrite ?MAXVA_eq in *; lia).
      destruct (Z.eqb_spec w v); [lia|]. apply HV. lia.
    + intros w Hw. destruct (decide (w = v)) as [->|Hne]; [rewrite lookup_insert_eq; eauto|].
      rewrite lookup_insert_ne by done. apply HD. lia.
    + exists r, s', l', T', D'. split; [done|].
      destruct Hres as [(-> & Hst' & Hadd & HDo & Hpo)|(-> & Hst' & Hun)].
      * left. split; [done|].
        destruct (more_added s T D p v s2 T2 flags0 same_bytes ltac:(lia) Hpte s' T' D' n Hadd HDo Hpo)
          as (H1 & H2 & H3).
        { destruct Hc as (pa0 & Hpa0 & Hbs). exists pa0. split; [done|]. intros o Ho.
          rewrite (vs_frame _ _ _ _ _ _ _ _ _ _ Hst'); [auto|].
          right. unfold in_page, PGSIZE. lia. }
        split; [|done]. eapply vstep_trans; [exact HstQ|].
        apply (vstep_or Q (in_page p) _ _ _ _ _ _ _ _ _ Hst').
      * right. split; [done|]. split; [eapply vstep_trans; eauto|].
        apply (more_undone s T D p v s2 T2 flags0 HDn Hpte); done || lia.
Qed.
End Uvmcopy.

(** [uvmcopy]: the copy of all the pages below [sz], or the mappings as they
    were. *)
Lemma uvmcopy_spec P s l T new D T0 old D0 sz :
  wf (k_mem s) T0 old ->
  (forall w, 0 <= w < pgs sz -> exists pa, D0 !! w = Some pa /\ page_ok pa /\
     leaf (pte_at (k_mem s) T0 (w * 4096)) pa) ->
  as_inv s l T new D -> avoid P l T -> (forall x, parent T0 D0 (pgs sz) x -> P x) ->
  0 <= sz <= MAXVA ->
  (forall w, 0 <= w < pgs sz -> Z.land (pte_at (k_mem s) T (w * 4096)) PTE_V = 0) ->
  exists r s' l' T' D', uvmcopy old new sz s = Done r s' /\
    vstep P s l T D s' l' T' D' new /\
    (r = 0 /\
      added (flags0 (k_mem s) T0) (same_bytes (k_mem s) D0) s' T' D' 0 (pgs sz) /\
      (forall w, ~ (0 <= w < pgs sz) -> D' !! w = D !! w) /\
      (forall va, 0 <= va < MAXVA -> ~ (0 <= va / 4096 < pgs sz) ->
         pte_at (k_mem s') T' va = pte_at (k_mem s) T va) \/
     r = -1 /\ undone s T D s' T' D' 0 0 (pgs sz)).
Proof.
  intros Hwf HD0 Hinv Hav HP Hsz HV. pose proof MAXVA_eq as HM.
  pose proof (pgs_eq sz ltac:(lia)) as [_ Hb].
  destruct (uvmcopy_loop_spec (k_mem s) T0 old D0 (pgs sz) Hwf ltac:(lia) HD0 (Z.to_nat (pgs sz))
    (S (Z.to_nat (sz / PGSIZE))) P P s l T new D 0 sz)
    as (r & s' & l' & T' & D' & Hrun & Hres); try done; try lia.
  { unfold PGSIZE. Z.div_mod_to_equations. lia. }
  exists r, s', l', T', D'. split; [done|]. rewrite Z2Nat.id in Hres by lia. rewrite Z.add_0_l in Hres.
  tauto.
Qed.

(** ** User memory *)

(** The physical address a user virtual address denotes: mapped, with
    [PTE_V] and [PTE_U]. *)
Definition uaddr (m : mem) (T : tree) (va : Z) : option Z :=
  let v := pte_at m T va in
  if (0 <=? va) && (va <? MAXVA) && negb (Z.land v PTE_V =? 0) && negb (Z.land v PTE_U =? 0)
  then Some (PTE2PA v + va mod 4096) else None.

(** No user page is at physical address 0 (which [walkaddr] reports as
    "not mapped"). *)
Definition no_page0 (m : mem) (T : tree) : Prop := forall va, uaddr m T va <> Some (va mod 4096).

Lemma pte_at_off m T va o :
  0 <= va < MAXVA -> va mod 4096 = 0 -> 0 <= o < 4096 -> pte_at m T (va + o) = pte_at m T va.
Proof.
  rewrite MAXVA_eq. intros Hva Hal Ho. rewrite <- (pte_at_page m T (va + o)).
  - f_equal. Z.div_mod_to_equations. lia.
  - rewrite MAXVA_eq. Z.div_mod_to_equations. lia.
Qed.

Lemma uaddr_off m T va o :
  va mod 4096 = 0 -> 0 <= o < 4096 -> uaddr m T (va + o) = (fun pa => pa + o) <$> uaddr m T va.
Proof.
  intros Hal Ho. unfold uaddr. pose proof MAXVA_eq as HM.
  assert ((0 <=? va + o) && (va + o <? MAXVA) = (0 <=? va) && (va <? MAXVA)) as ->.
  { rewrite HM. destruct (Z.leb_spec 0 (va + o)), (Z.ltb_spec (va + o) (2 ^ 38)), (Z.leb_spec 0 va),
      (Z.ltb_spec va (2 ^ 38)); try done; Z.div_mod_to_equations; lia. }
  destruct ((0 <=? va) && (va <? MAXVA)) eqn:E; [|done].
  apply andb_true_iff in E as [?%Z.leb_le ?%Z.ltb_lt].
  rewrite pte_at_off by (done || lia). cbn [andb].
  destruct (negb _ && negb _); [|done]. simpl. f_equal.
  replace ((va + o) mod 4096) with o by (Z.div_mod_to_equations; lia). lia.
Qed.

Lemma walkaddr_uaddr va s T root :
  wf (k_mem s) T root -> 0 <= va -> va mod 4096 = 0 ->
  walkaddr root va s = Done (default 0 (uaddr (k_mem s) T va)) s.
Proof.
  intros Hwf Hva Hal. rewrite (walkaddr_spec va s T root Hwf). f_equal. unfold uaddr.
  destruct (Z.leb_spec 0 va); [|lia].
  destruct (Z.leb_spec MAXVA va), (Z.ltb_spec va MAXVA); try lia; [done|]. cbv zeta. cbn [andb].
  destruct (_ =? 0); cbn [orb negb andb]; [done|]. destruct (_ =? 0); cbn [orb negb andb]; [done|].
  simpl. lia.
Qed.

(** [bs] are the bytes of user memory from [va] on. *)
Definition ureads (m : mem) (T : tree) (va : Z) (bs : list Z) : Prop :=
  forall i b, bs !! i = Some b ->
    exists pa, uaddr m T (va + Z.of_nat i) = Some pa /\ b = mget m pa.

Lemma ureads_app m T va bs1 bs2 :
  ureads m T va bs1 -> ureads m T (va + Z.of_nat (length bs1)) bs2 -> ureads m T va (bs1 ++ bs2).
Proof.
  intros H1 H2 i b [Hi|[Hlen Hi]]%lookup_app_Some; [auto|].
  destruct (H2 _ _ Hi) as (pa & Hpa & ->). exists pa. split; [|done]. rewrite <- Hpa. f_equal. lia.
Qed.

Lemma ureads_page m T va0 pa0 off n :
  uaddr m T va0 = Some pa0 -> va0 mod 4096 = 0 -> 0 <= off -> off + Z.of_nat n <= 4096 ->
  ureads m T (va0 + off) (read_bytes m (pa0 + off) n).
Proof.
  intros Hu Hal Ho Hn i b Hi. pose proof (lookup_lt_Some _ _ _ Hi) as Hlt.
  rewrite length_read_bytes in Hlt. rewrite lookup_read_bytes in Hi by done. injection Hi as <-.
  exists (pa0 + off + Z.of_nat i). split; [|done].
  rewrite <- Z.add_assoc, uaddr_off, Hu by (done || lia). simpl. f_equal. lia.
Qed.

(** What one iteration of the copy loops sees: the page of [va], or that it
    is not accessible. *)
Lemma copy_page va s T root :
  wf (k_mem s) T root -> no_page0 (k_mem s) T -> 0 <= va < 2 ^ 64 ->
  exists off, va = PGROUNDDOWN va + off /\ 0 <= off < 4096 /\
    (walkaddr root (PGROUNDDOWN va) s = Done 0 s /\ uaddr (k_mem s) T va = None \/
     exists pa0, walkaddr root (PGROUNDDOWN va) s = Done pa0 s /\ pa0 <> 0 /\
       uaddr (k_mem s) T (PGROUNDDOWN va) = Some pa0 /\ PGROUNDDOWN va < MAXVA).
Proof.
  intros Hwf H0 Hva. pose proof (PGROUNDDOWN_bounds va Hva) as Hb.
  pose proof (PGROUNDDOWN_aligned va Hva) as Hal.
  pose proof (PGROUNDDOWN_nonneg va Hva) as Hnn.
  exists (va - PGROUNDDOWN va). split; [lia|]. split; [lia|].
  rewrite (walkaddr_uaddr _ _ _ _ Hwf Hnn Hal). specialize (H0 (PGROUNDDOWN va)). rewrite Hal in H0.
  pose proof (uaddr_off (k_mem s) T (PGROUNDDOWN va) (va - PGROUNDDOWN va) Hal ltac:(lia)) as Hoff.
  replace (PGROUNDDOWN va + (va - PGROUNDDOWN va)) with va in Hoff by lia.
  destruct (uaddr (k_mem s) T (PGROUNDDOWN va)) as [pa0|] eqn:E; [right|left; done].
  exists pa0. conjs; try done; [congruence|]. unfold uaddr in E.
  destruct (Z.ltb_spec (PGROUNDDOWN va) MAXVA); [done|]. rewrite andb_false_r in E. done.
Qed.

Lemma copyin_loop_spec fuel va len dst s T root :
  wf (k_mem s) T root -> no_page0 (k_mem s) T -> 0 <= va < 2 ^ 64 -> 0 <= len < Z.of_nat fuel ->
  exists r bs, copyin_loop fuel root va len dst s = Done (r, dst ++ bs) s /\
    ureads (k_mem s) T va bs /\
    (r = 0 /\ Z.of_nat (length bs) = len \/
     r = -1 /\ Z.of_nat (length bs) < len /\
       uaddr (k_mem s) T (va + Z.of_nat (length bs)) = None).
Proof.
  intros Hwf H0. revert va len dst. induction fuel as [|fuel IH]; intros va len dst Hva Hlen; [lia|].
  cbn [copyin_loop]. destruct (Z.ltb_spec 0 len) as [Hl|Hl].
  2: { exists 0, []. rewrite app_nil_r. conjs; [done|by intros ? ? ?|left; simpl; lia]. }
  destruct (copy_page va s T root Hwf H0 Hva) as (off & Hoff & Ho & [[Hw Hn]|(pa0 & Hw & Hne & Hu & Hmax)]);
    rewrite (bind_Done _ _ _ _ _ Hw).
  { exists (-1), []. rewrite app_nil_r. conjs; [done|by intros ? ? ?|right]. simpl.
    rewrite Z.add_0_r. conjs; lia || done. }
  apply Z.eqb_neq in Hne. rewrite Hne.
  set (n := if len <? PGSIZE - (va - PGROUNDDOWN va) then len else PGSIZE - (va - PGROUNDDOWN va)).
  assert (Hn : 0 < n <= len /\ off + n <= 4096 /\ (n = len \/ off + n = 4096)).
  { unfold n, PGSIZE. destruct (Z.ltb_spec len (4096 - (va - PGROUNDDOWN va))); lia. }
  rewrite (bind_Done (gets _) _ s _ s eq_refl).
  replace (va - PGROUNDDOWN va) with off by lia. rewrite MAXVA_eq in Hmax.
  pose proof (PGROUNDDOWN_aligned va Hva) as Hal.
  pose proof (ureads_page (k_mem s) T _ pa0 off (Z.to_nat n) Hu Hal ltac:(lia) ltac:(lia)) as Hr.
  set (b1 := read_bytes (k_mem s) (pa0 + off) (Z.to_nat n)) in *.
  assert (Hb1 : Z.of_nat (length b1) = n) by (unfold b1; rewrite length_read_bytes; lia).
  replace (PGROUNDDOWN va + off) with va in Hr by lia.
  rewrite u64_small by (unfold PGSIZE; lia).
  destruct (IH (PGROUNDDOWN va + PGSIZE) (len - n) (dst ++ b1)) as (r & bs & -> & Hrd & Hres);
    [unfold PGSIZE; lia|lia|].
  destruct (decide (n = len)) as [Hnl|Hnl].
  - assert (bs = []) as -> by (apply nil_length_inv; lia).
    exists r, b1. rewrite app_nil_r. split; [done|]. split; [done|]. lia.
  - exists r, (b1 ++ bs). rewrite app_assoc. split; [done|].
    replace (PGROUNDDOWN va + PGSIZE) with (va + Z.of_nat (length b1)) in * by (unfold PGSIZE; lia).
    split; [now apply ureads_app|]. rewrite length_app, Nat2Z.inj_add.
    destruct Hres as [[-> ?]|(-> & ? & Hx)]; [left; lia|right].
    rewrite Z.add_assoc. conjs; done || lia.
Qed.

Lemma copyinstr_page_spec n m p : exists k,
  (k <= n)%nat /\ snd (copyinstr_page m p n) = read_bytes m p k /\
  if fst (copyinstr_page m p n)
  then exists cs, read_bytes m p k = cs ++ [0] /\ 0 ∉ cs
  else k = n /\ 0 ∉ read_bytes m p k.
Proof.
  revert p. induction n as [|n IH]; intros p; cbn [copyinstr_page].
  - exists O. split; [lia|]. split; [done|]. split; [done|apply not_elem_of_nil].
  - destruct (Z.eqb_spec (mget m p) 0) as [He|He].
    + exists 1%nat. split; [lia|]. cbn [fst snd read_bytes]. rewrite He. split; [done|].
      exists []. split; [done|apply not_elem_of_nil].
    + destruct (IH (p + 1)) as (k & Hk & Hs & Hf). exists (S k).
      destruct (copyinstr_page m (p + 1) n) as [g bs]. cbn [fst snd read_bytes] in *.
      split; [lia|]. split; [congruence|]. destruct g.
      * destruct Hf as (cs & -> & Hcs). exists (mget m p :: cs). split; [done|].
        rewrite not_elem_of_cons. auto.
      * destruct Hf as [-> Hf]. split; [done|]. rewrite not_elem_of_cons. auto.
Qed.

Lemma copyinstr_loop_spec fuel va max dst s T root :
  wf (k_mem s) T root -> no_page0 (k_mem s) T -> 0 <= va < 2 ^ 64 -> 0 <= max ->
  max + 1 < Z.of_nat fuel ->
  exists r bs, copyinstr_loop fuel root va max false dst s = Done (r, dst ++ bs) s /\
    ureads (k_mem s) T va bs /\ Z.of_nat (length bs) <= max /\
    (r = 0 /\ (exists cs, bs = cs ++ [0] /\ 0 ∉ cs) \/
     r = -1 /\ 0 ∉ bs /\ (Z.of_nat (length bs) = max \/
       uaddr (k_mem s) T (va + Z.of_nat (length bs)) = None)).
Proof.
  intros Hwf H0. revert va max dst.
  induction fuel as [|fuel IH]; intros va max dst Hva Hmax Hfuel; [lia|].
  cbn [copyinstr_loop negb andb]. destruct (Z.ltb_spec 0 max) as [Hl|Hl].
  2: { exists (-1), []. rewrite app_nil_r. conjs; [done|by intros ? ? ?|simpl; lia|right].
       conjs; [done|apply not_elem_of_nil|left; simpl; lia]. }
  destruct (copy_page va s T root Hwf H0 Hva) as (off & Hoff & Ho & [[Hw Hn]|(pa0 & Hw & Hne & Hu & Hmx)]);
    rewrite (bind_Done _ _ _ _ _ Hw).
  { exists (-1), []. rewrite app_nil_r. conjs; [done|by intros ? ? ?|simpl; lia|right]. simpl.
    rewrite Z.add_0_r. conjs; [done|apply not_elem_of_nil|auto]. }
  apply Z.eqb_neq in Hne. rewrite Hne. replace (va - PGROUNDDOWN va) with off by lia.
  set (n := if max <? PGSIZE - off then max else PGSIZE - off).
  assert (Hn : 0 < n <= max /\ off + n <= 4096 /\ (n = max \/ off + n = 4096)).
  { unfold n, PGSIZE. destruct (Z.ltb_spec max (4096 - off)); lia. }
  rewrite (bind_Done (gets _) _ s _ s eq_refl). rewrite MAXVA_eq in Hmx.
  pose proof (PGROUNDDOWN_aligned va Hva) as Hal.
  destruct (copyinstr_page_spec (Z.to_nat n) (k_mem s) (pa0 + off)) as (k & Hk & Hs & Hf).
  rewrite Hs. pose proof (ureads_page (k_mem s) T _ pa0 off k Hu Hal ltac:(lia) ltac:(lia)) as Hr.
  set (b1 := read_bytes (k_mem s) (pa0 + off) k) in *.
  assert (Hb1 : length b1 = k) by apply length_read_bytes.
  replace (PGROUNDDOWN va + off) with va in Hr by lia. rewrite u64_small by (unfold PGSIZE; lia).
  destruct (fst (copyinstr_page (k_mem s) (pa0 + off) (Z.to_nat n))).
  - destruct fuel as [|fuel]; [lia|]. cbn [copyinstr_loop negb andb].
    exists 0, b1. conjs; try done; [lia|]. left. done.
  - destruct Hf as [-> Hz].
    destruct (IH (PGROUNDDOWN va + PGSIZE) (max - n) (dst ++ b1)) as (r & bs & -> & Hrd & Hle & Hres);
      [unfold PGSIZE; lia|lia|lia|].
    destruct (decide (n = max)) as [Hnl|Hnl].
    + assert (bs = []) as -> by (apply nil_length_inv; lia).
      exists r, b1. rewrite app_nil_r. conjs; [done|done|lia|].
      destruct Hres as [[_ (cs & Hx & _)]|(-> & _)]; [now destruct cs|].
      right. conjs; [done|done|lia].
    + exists r, (b1 ++ bs). rewrite app_assoc. split; [done|].
      replace (PGROUNDDOWN va + PGSIZE) with (va + Z.of_nat (length b1)) in * by (unfold PGSIZE; lia).
      split; [now apply ureads_app|]. rewrite length_app, Nat2Z.inj_add. split; [lia|].
      destruct Hres as [[-> (cs & -> & Hcs)]|(-> & Hz' & Hx)]; [left|right]; split; try done.
      * exists (b1 ++ cs). rewrite app_assoc. split; [done|]. rewrite elem_of_app. tauto.
      * rewrite elem_of_app, Z.add_assoc. split; [tauto|]. destruct Hx; [left; lia|auto].
Qed.

(** ** Writing user memory *)

(** Every page user code can reach is a data page of the address space. *)
Definition user_owned (m : mem) (T : tree) (D : gmap Z Z) : Prop :=
  forall va, is_Some (uaddr m T va) -> is_Some (D !! (va / 4096)).

Lemma uaddr_owned s l T root D va pa :
  as_inv s l T root D -> user_owned (k_mem s) T D -> uaddr (k_mem s) T va = Some pa ->
  exists p, D !! (va / 4096) = Some p /\ page_ok p /\ pa = p + va mod 4096.
Proof.
  intros Hinv Hu Hpa. destruct (Hu va ltac:(eauto)) as [p Hp]. exists p. split; [done|].
  destruct (as_page _ _ _ _ _ Hinv _ _ Hp) as (Hok & _). split; [done|].
  destruct (leaf_facts _ _ Hok (as_leaf _ _ _ _ _ Hinv _ _ Hp)) as (_ & _ & Hpp & _).
  unfold uaddr in Hpa. destruct (_ && _ && _ && _) eqn:E; [|done]. injection Hpa as <-.
  rewrite !andb_true_iff in E. destruct E as [[[?%Z.leb_le ?%Z.ltb_lt] _] _].
  rewrite pte_at_page in Hpp by done. now rewrite Hpp.
Qed.

Lemma owned_no_page0 s l T root D :
  as_inv s l T root D -> user_owned (k_mem s) T D -> no_page0 (k_mem s) T.
Proof.
  intros Hinv Hu va Hva. destruct (uaddr_owned _ _ _ _ _ _ _ Hinv Hu Hva) as (p & _ & Hok & Hp).
  apply page_ok_pos in Hok. lia.
Qed.

Definition data_page (D : gmap Z Z) (x : Z) : Prop := exists w pa, D !! w = Some pa /\ in_page pa x.

Lemma as_frame s l T root D m' :
  as_inv s l T root D -> (forall x, ~ data_page D x -> mget m' x = mget (k_mem s) x) ->
  as_inv (set_mem m' s) l T root D /\ forall va, pte_at m' T va = pte_at (k_mem s) T va.
Proof.
  intros [[Hk Hwf Hfr] Hpg Hinj Hlf] Hm.
  assert (Hout : forall p x, page_ok p -> p ∈ l \/ tpage T p -> in_page p x ->
                   mget m' x = mget (k_mem s) x).
  { intros p x Hok Hp Hx. apply Hm. intros (w & pa & Hw & Hx2).
    destruct (Hpg w pa Hw) as (Hok2 & Hn & Ht & _).
    rewrite (page_disjoint p pa x) in Hp by done. tauto. }
  pose proof (kinv_pages _ _ Hk) as Hf. rewrite Forall_forall in Hf.
  assert (Htp : forall p x, tpage T p -> in_page p x -> mget m' x = mget (k_mem s) x).
  { intros p x Hp. apply Hout; [|auto]. destruct Hp as [k Hp]. by eapply (wf_page _ _ _ Hwf). }
  assert (Hpte : forall va, pte_at m' T va = pte_at (k_mem s) T va) by (intros; by apply pte_at_frame).
  split; [|done]. split; try done.
  - split; [apply kinv_frame; eauto|by eapply wf_frame|done].
  - intros w pa Hw. cbn [k_mem set_mem]. rewrite Hpte. auto.
Qed.

(** The data pages after [bs] was written at the user address [va]. *)
Definition uwritten (D : gmap Z Z) (m m' : mem) (va : Z) (bs : list Z) : Prop :=
  (forall x, ~ data_page D x -> mget m' x = mget m x) /\
  (forall w pa o, D !! w = Some pa -> 0 <= o < 4096 ->
     mget m' (pa + o) = overlay bs va (w * 4096 + o) (mget m (pa + o))).

Lemma uwritten_app D m m1 m2 va bs1 bs2 :
  uwritten D m m1 va bs1 -> uwritten D m1 m2 (va + Z.of_nat (length bs1)) bs2 ->
  uwritten D m m2 va (bs1 ++ bs2).
Proof.
  intros [O1 W1] [O2 W2]. split; [intros; rewrite O2; auto|].
  intros w pa o Hw Ho. rewrite overlay_app, (W2 w pa o), (W1 w pa o) by done. done.
Qed.

Lemma uwritten_page s l T root D w0 pa0 off bs :
  as_inv s l T root D -> D !! w0 = Some pa0 -> 0 <= off ->
  off + Z.of_nat (length bs) <= 4096 ->
  uwritten D (k_mem s) (write_bytes (k_mem s) (pa0 + off) bs) (w0 * 4096 + off) bs.
Proof.
  intros Hinv Hw0 Hoff Hlen. split.
  - intros x Hx. apply mget_write_bytes_ne. intros Hin. apply Hx. exists w0, pa0.
    split; [done|]. unfold in_page, PGSIZE. lia.
  - intros w pa o Hw Ho. rewrite mget_write_bytes. destruct (decide (w = w0)) as [->|Hne].
    + assert (pa = pa0) as -> by congruence.
      rewrite <- (overlay_shift bs (w0 * 4096 + off) (w0 * 4096 + o) (pa0 - w0 * 4096)).
      f_equal; lia.
    + rewrite !overlay_out; [done|lia|]. intros Hin. apply Hne.
      destruct (as_page _ _ _ _ _ Hinv w pa Hw) as (Hok & _).
      destruct (as_page _ _ _ _ _ Hinv w0 pa0 Hw0) as (Hok0 & _).
      assert (pa = pa0) as -> by (apply (page_disjoint pa pa0 (pa + o)); unfold in_page, PGSIZE; done || lia).
      by eapply (as_inj _ _ _ _ _ Hinv).
Qed.

Lemma uaddr_ext m m' T : (forall va, pte_at m' T va = pte_at m T va) ->
  forall va, uaddr m' T va = uaddr m T va.
Proof. intros H va. unfold uaddr. now rewrite H. Qed.

Lemma copyout_loop_spec fuel va src s l T root D :
  as_inv s l T root D -> user_owned (k_mem s) T D -> 0 <= va < 2 ^ 64 -> (length src < fuel)%nat ->
  exists r s' n, copyout_loop fuel root va src s = Done r s' /\ as_inv s' l T root D /\
    (forall va', pte_at (k_mem s') T va' = pte_at (k_mem s) T va') /\
    uwritten D (k_mem s) (k_mem s') va (take n src) /\
    (forall i, (i < n)%nat -> is_Some (uaddr (k_mem s) T (va + Z.of_nat i))) /\
    (r = 0 /\ n = length src \/
     r = -1 /\ (n < length src)%nat /\ uaddr (k_mem s) T (va + Z.of_nat n) = None).
Proof.
  revert va src s. induction fuel as [|fuel IH]; intros va src s Hinv Hu Hva Hlen; [lia|].
  assert (Hstop : forall m, uwritten D m m va (take 0 src)).
  { intros m. split; [done|]. intros. rewrite overlay_out; [done|simpl; lia]. }
  cbn [copyout_loop]. destruct (Z.ltb_spec 0 (Z.of_nat (length src))) as [Hl|Hl].
  2: { exists 0, s, O. conjs; try done; [intros; lia|left; lia]. }
  pose proof (pt_wf _ _ _ _ (as_pt _ _ _ _ _ Hinv)) as Hwf.
  destruct (copy_page va s T root Hwf (owned_no_page0 _ _ _ _ _ Hinv Hu) Hva)
    as (off & Hoff & Ho & [[Hw Hn]|(pa0 & Hw & Hne & Hua & Hmax)]); rewrite (bind_Done _ _ _ _ _ Hw).
  { exists (-1), s, O. conjs; try done; [intros; lia|]. right. rewrite Z.add_0_r. conjs; done || lia. }
  apply Z.eqb_neq in Hne. rewrite Hne. replace (va - PGROUNDDOWN va) with off by lia.
  set (n := if Z.of_nat (length src) <? PGSIZE - off then Z.of_nat (length src) else PGSIZE - off).
  assert (Hn : 0 < n <= Z.of_nat (length src) /\ off + n <= 4096 /\
               (n = Z.of_nat (length src) \/ off + n = 4096)).
  { unfold n, PGSIZE. destruct (Z.ltb_spec (Z.of_nat (length src)) (4096 - off)); lia. }
  pose proof (PGROUNDDOWN_aligned va Hva) as Hal. rewrite MAXVA_eq in Hmax.
  destruct (uaddr_owned _ _ _ _ _ _ _ Hinv Hu Hua) as (p & HD & Hok & Hp).
  rewrite Hal, Z.add_0_r in Hp. subst p.
  pose proof (uwritten_page s l T root D _ pa0 off (take (Z.to_nat n) src) Hinv HD ltac:(lia)
    ltac:(rewrite length_take; lia)) as Hwr.
  replace (PGROUNDDOWN va / 4096 * 4096 + off) with va in Hwr by (Z.div_mod_to_equations; lia).
  destruct (as_frame s l T root D _ Hinv (proj1 Hwr)) as [Hinv1 Hpte1].
  rewrite (bind_Done (modify _) _ s tt _ eq_refl). rewrite u64_small by (unfold PGSIZE; lia).
  set (s1 := set_mem _ s) in *.
  destruct (IH (PGROUNDDOWN va + PGSIZE) (drop (Z.to_nat n) src) s1) as (r & s' & k & -> & Hi & Hpt & Hw' & Hac & Hr);
    [done| |unfold PGSIZE; lia|rewrite length_drop; lia|].
  { intros va' Hx. apply Hu. rewrite (uaddr_ext (k_mem s)) in Hx by done. done. }
  rewrite length_drop in Hr.
  exists r, s', (Z.to_nat n + k)%nat. conjs; [done|done|intros; rewrite Hpt; auto| | |].
  - rewrite <- take_take_drop. destruct (decide (n = Z.of_nat (length src))) as [He|He].
    + rewrite (drop_ge src) in * by lia. rewrite take_nil, app_nil_r in *.
      destruct Hw' as [W1 W2]. split; [intros x Hx; rewrite W1 by done; now apply Hwr|].
      intros w pa o Hw2 Ho2. rewrite (W2 w pa o) by done. rewrite overlay_out by (simpl; lia).
      now apply Hwr.
    + eapply uwritten_app; [exact Hwr|]. rewrite length_take, Nat.min_l by lia.
      replace (va + Z.of_nat (Z.to_nat n)) with (PGROUNDDOWN va + PGSIZE) by (unfold PGSIZE; lia). done.
  - intros i Hi2. destruct (decide (i < Z.to_nat n)%nat) as [Hin|Hin].
    + rewrite Hoff, <- Z.add_assoc, uaddr_off, Hua by (done || lia). eauto.
    + specialize (Hac (i - Z.to_nat n)%nat ltac:(lia)). rewrite (uaddr_ext (k_mem s)) in Hac by done.
      destruct (decide (n = Z.of_nat (length src))) as [He|He].
      * destruct Hr as [[_ Hr]|(_ & Hr & _)]; lia.
      * replace (va + Z.of_nat i) with (PGROUNDDOWN va + PGSIZE + Z.of_nat (i - Z.to_nat n))
          by (unfold PGSIZE; lia). done.
  - destruct Hr as [[-> Hk]|(-> & Hk & Hx)]; [left; lia|right]. conjs; [done|lia|].
    rewrite (uaddr_ext (k_mem s)) in Hx by done. rewrite <- Hx. f_equal. unfold PGSIZE. lia.
Qed.

(** [copyin] reads user memory.  It returns 0 and exactly the [len] bytes
    user code sees from [srcva] on, or -1 when it meets a page user code cannot
    access, having copied exactly the bytes before it; it changes nothing. *)
Theorem copyin_correct s T root srcva len :
  wf (k_mem s) T root -> no_page0 (k_mem s) T -> 0 <= srcva < 2 ^ 64 -> 0 <= len ->
  exists r bs, copyin root srcva len s = Done (r, bs) s /\ ureads (k_mem s) T srcva bs /\
    (r = 0 /\ Z.of_nat (length bs) = len \/
     r = -1 /\ Z.of_nat (length bs) < len /\
       uaddr (k_mem s) T (srcva + Z.of_nat (length bs)) = None).
Proof. intros. apply (copyin_loop_spec _ srcva len []); try done. lia. Qed.

(** [copyinstr] reads a NUL-terminated string of at most [max] bytes from
    user memory: on success the bytes end in the first NUL; it fails with -1
    exactly when no NUL was met in the first [max] bytes or before a page that
    user code cannot access. *)
Theorem copyinstr_correct s T root srcva max :
  wf (k_mem s) T root -> no_page0 (k_mem s) T -> 0 <= srcva < 2 ^ 64 -> 0 <= max ->
  exists r bs, copyinstr root srcva max s = Done (r, bs) s /\
    ureads (k_mem s) T srcva bs /\ Z.of_nat (length bs) <= max /\
    (r = 0 /\ (exists cs, bs = cs ++ [0] /\ 0 ∉ cs) \/
     r = -1 /\ 0 ∉ bs /\ (Z.of_nat (length bs) = max \/
       uaddr (k_mem s) T (srcva + Z.of_nat (length bs)) = None)).
Proof. intros. apply (copyinstr_loop_spec _ srcva max []); try done. lia. Qed.

(** [copyout] writes user memory.  It returns 0 after storing all of [src]
    at [dstva], or -1 when it meets a page user code cannot access, having
    stored exactly the bytes before it.  Every other byte of the address space,
    the page table and all memory of others keep their contents. *)
Theorem copyout_correct s l T root D dstva src :
  as_inv s l T root D -> user_owned (k_mem s) T D -> 0 <= dstva < 2 ^ 64 ->
  exists r s' n, copyout root dstva src s = Done r s' /\ as_inv s' l T root D /\
    (forall va', pte_at (k_mem s') T va' = pte_at (k_mem s) T va') /\
    uwritten D (k_mem s) (k_mem s') dstva (take n src) /\
    (forall i, (i < n)%nat -> is_Some (uaddr (k_mem s) T (dstva + Z.of_nat i))) /\
    (r = 0 /\ n = length src \/
     r = -1 /\ (n < length src)%nat /\ uaddr (k_mem s) T (dstva + Z.of_nat n) = None).
Proof. intros. apply copyout_loop_spec; try done. lia. Qed.

(** C23: What [copyout] stored, [copyin] reads back: after a successful
    [copyout] of [src] to a user address, [copyin] of as many bytes from there
    returns 0 and [src]. *)
Theorem copyout_copyin s l T root D va src s' :
  as_inv s l T root D -> user_owned (k_mem s) T D -> 0 <= va < 2 ^ 64 ->
  Forall (fun b => 0 <= b < 256) src -> copyout root va src s = Done 0 s' ->
  copyin root va (Z.of_nat (length src)) s' = Done (0, src) s'.
Proof.
  intros Hinv Hu Hva Hb Hout.
  destruct (copyout_loop_spec (S (length src)) va src s l T root D Hinv Hu Hva ltac:(lia))
    as (r & s1 & n & Hrun & Hinv1 & Hpte & Hwr & Hac & Hr).
  unfold copyout in Hout. rewrite Hrun in Hout. injection Hout as -> ->.
  destruct Hr as [[_ ->]|[? _]]; [|lia]. rewrite firstn_all in Hwr.
  assert (Hu1 : user_owned (k_mem s') T D).
  { intros va' Hx. rewrite (uaddr_ext (k_mem s)) in Hx by done. auto. }
  destruct (copyin_loop_spec (S (Z.to_nat (Z.of_nat (length src)))) va (Z.of_nat (length src)) [] s' T root)
    as (r & bs & Hrun' & Hrd & Hr); [apply Hinv1|by eapply owned_no_page0|done|lia|].
  unfold copyin. rewrite Hrun'. simpl.
  destruct Hr as [[-> Hlen]|(_ & Hlt & Hx)].
  2: { destruct (Hac (length bs)) as [pa Hpa]; [lia|].
       rewrite (uaddr_ext (k_mem s)) in Hx by done. congruence. }
  do 2 f_equal. apply list_eq. intros i. destruct (decide (i < length src)%nat) as [Hi|Hi].
  2: { rewrite !lookup_ge_None_2 by lia. done. }
  destruct (lookup_lt_is_Some_2 bs i) as [b Hbi]; [lia|].
  destruct (lookup_lt_is_Some_2 src i Hi) as [c Hci].
  destruct (Hrd i b Hbi) as (pa & Hpa & ->). rewrite Hbi, Hci. f_equal.
  destruct (uaddr_owned _ _ _ _ _ _ _ Hinv1 Hu1 Hpa) as (p & HD & _ & ->).
  rewrite (proj2 Hwr _ _ _ HD) by (apply Z.mod_pos_bound; lia). unfold overlay.
  replace ((va + Z.of_nat i) / 4096 * 4096 + (va + Z.of_nat i) mod 4096) with (va + Z.of_nat i)
    by (Z.div_mod_to_equations; lia).
  destruct (Z.leb_spec va (va + Z.of_nat i)); [|lia].
  replace (Z.to_nat (va + Z.of_nat i - va)) with i by lia. rewrite Hci.
  apply u8_small. rewrite Forall_lookup in Hb. by eapply Hb.
Qed.
End VmCopy.

(** ** The example address space, and an empty child *)
Module CopyExample.
Import VmExample AsExample.

Definition child : tree := tr (page 5).
Lemma st2_zero i j : 5 <= i < 16 -> 0 <= j < 512 ->
  (forall x, page 5 <= x -> mget (k_mem st2) x = 0) -> ld64 (k_mem st2) (page i + 8 * j) = 0.
Proof.
  intros Hi Hj Hz. rewrite <- (ld64_memset_0 (k_mem st2) (page i) 4096 (page i + 8 * j)) by lia.
  apply ldn_ext. intros x Hx. rewrite mget_memset_in by (unfold page, PGSIZE in *; lia).
  apply Hz. unfold page, PGSIZE in *. lia.
Qed.

Lemma child_ex l T :
  as_inv st2 l T (page 4) D2 ->
  (forall p, tpage T p \/ p ∈ l -> p ∈ [page 0; page 1; page 2; page 3; page 4]) ->
  (forall x, page 5 <= x -> mget (k_mem st2) x = 0) -> as_inv st2 l child (page 5) ∅.
Proof.
  intros Hinv Hown Hz.
  assert (Hk : forall k p, child !! k = Some p -> k = [] /\ p = page 5).
  { intros k p. unfold child, tr. rewrite lookup_singleton_Some. naive_solver. }
  split; try (intros; now rewrite lookup_empty in * ). split; [apply Hinv| |].
  - split.
    + reflexivity.
    + intros k p [-> ->]%Hk. split; [apply page_ok_ex; lia|simpl; lia].
    + intros k1 k2 p [-> _]%Hk [-> _]%Hk. done.
    + intros k i q [Hx _]%Hk. now apply app_nil in Hx as [_ ?].
    + intros k p i [-> ->]%Hk _ Hi. unfold child, tr. rewrite lookup_singleton_ne by done.
      rewrite st2_zero by (done || lia). reflexivity.
    + intros i k p [Hx _]%Hk. done.
  - intros p [k [_ ->]%Hk] Hl. pose proof (low_pages _ (Hown _ (or_intror Hl))).
    unfold page, PGSIZE in *. lia.
Qed.

Lemma parent_avoid l T :
  as_inv st2 l T (page 4) D2 ->
  (forall p, tpage T p \/ p ∈ l -> p ∈ [page 0; page 1; page 2; page 3; page 4]) ->
  avoid (parent T D2 2) l child.
Proof.
  intros Hinv Hown p x Hp Hin Hpar.
  assert (Hok : page_ok p).
  { destruct Hp as [Hp|[k Hp]].
    - pose proof (kinv_pages _ _ (pt_kinv _ _ _ _ (as_pt _ _ _ _ _ Hinv))) as Hf.
      rewrite Forall_forall in Hf. auto.
    - unfold child, tr in Hp. apply lookup_singleton_Some in Hp as [_ <-]. apply page_ok_ex. lia. }
  assert (Hp5 : p = page 5 \/ p ∈ l).
  { destruct Hp as [?|[k Hp]]; [auto|]. left.
    unfold child, tr in Hp. apply lookup_singleton_Some in Hp as [_ <-]. done. }
  destruct Hpar as [(q & Hq & Hx)|(w & pa & _ & Hw & Hx)].
  - assert (p = q) as ->.
    { apply (page_disjoint p q x); try done. destruct Hq as [k Hq].
      by eapply (wf_page _ _ _ (pt_wf _ _ _ _ (as_pt _ _ _ _ _ Hinv))). }
    destruct Hp5 as [->|Hl]; [|by eapply (pt_free _ _ _ _ (as_pt _ _ _ _ _ Hinv))].
    pose proof (low_pages _ (Hown _ (or_introl Hq))). unfold page, PGSIZE in *. lia.
  - destruct (as_page _ _ _ _ _ Hinv w pa Hw) as (Hpok & Hn & _).
    assert (p = pa) as -> by by apply (page_disjoint p pa x).
    destruct Hp5 as [->|?]; [|done].
    destruct (D2_lookup _ _ Hw) as [[_ H]|[_ H]]; unfold page, PGSIZE in H; lia.
Qed.

Lemma user_ex T :
  (forall va, 0 <= va < MAXVA -> pte_at (k_mem st2) T va =
    map_range (fun _ => 0) 0 2 (page 7) (Z.lor (Z.lor PTE_R PTE_W) PTE_U) va) ->
  user_owned (k_mem st2) T D2.
Proof.
  intros Hp va [pa Hva]. unfold uaddr in Hva.
  destruct (Z.leb_spec 0 va), (Z.ltb_spec va MAXVA); cbn [andb] in Hva; try done.
  rewrite Hp in Hva by done. unfold map_range in Hva.
  destruct (Z.leb_spec 0 va), (Z.ltb_spec va (0 + 2 * 4096)); try done.
  assert (Hc : va / 4096 = 0 \/ va / 4096 = 1) by (Z.div_mod_to_equations; lia).
  destruct Hc as [-> | ->]; eexists; reflexivity.
Qed.

(** Three bytes across the boundary of the two pages. *)
Lemma copyout_correct_witness :
  exists r s', copyout (page 4) 0xFFE [1; 2; 3] st2 = Done r s'.
Proof.
  destruct as_ex as (l & T & Hinv & Hown & Hz & Hp).
  destruct (copyout_correct st2 l T (page 4) D2 0xFFE [1; 2; 3] Hinv (user_ex T Hp))
    as (r & s' & n & H & _); [lia|]. exists r, s'. exact H.
Defined.

Lemma copyin_correct_witness : exists r bs, copyin (page 4) 0xFFE 3 st2 = Done (r, bs) st2.
Proof.
  destruct as_ex as (l & T & Hinv & Hown & Hz & Hp).
  destruct (copyin_correct st2 T (page 4) 0xFFE 3) as (r & bs & H & _).
  - apply Hinv.
  - exact (owned_no_page0 _ _ _ _ _ Hinv (user_ex T Hp)).
  - lia.
  - lia.
  - exists r, bs. exact H.
Defined.

Lemma copyinstr_correct_witness :
  exists r bs, copyinstr (page 4) 0xFFE 10 st2 = Done (r, bs) st2.
Proof.
  destruct as_ex as (l & T & Hinv & Hown & Hz & Hp).
  destruct (copyinstr_correct st2 T (page 4) 0xFFE 10) as (r & bs & H & _).
  - apply Hinv.
  - exact (owned_no_page0 _ _ _ _ _ Hinv (user_ex T Hp)).
  - lia.
  - lia.
  - exists r, bs. exact H.
Defined.

Definition st3 : kst := out_state st2 (copyout (page 4) 0xFFE [1; 2; 3] st2).

Lemma copyout_copyin_witness : copyin (page 4) 0xFFE 3 st3 = Done (0, [1; 2; 3]) st3.
Proof.
  destruct as_ex as (l & T & Hinv & Hown & Hz & Hp).
  apply (copyout_copyin st2 l T (page 4) D2 0xFFE [1; 2; 3] st3 Hinv (user_ex T Hp)).
  - lia.
  - repeat constructor; lia.
  - unfold st3. destruct (copyout_loop_spec 4 0xFFE [1; 2; 3] st2 l T (page 4) D2 Hinv (user_ex T Hp))
      as (r & s' & n & H & _ & _ & _ & _ & Hr); [lia|simpl; lia|].
    assert (E : copyout (page 4) 0xFFE [1; 2; 3] st2 = Done r s') by exact H.
    rewrite E. cbn [out_state]. destruct Hr as [[-> _]|(_ & Hn & Hu)]; [reflexivity|]. exfalso.
    unfold uaddr in Hu. rewrite Hp in Hu by (rewrite MAXVA_eq; simpl in Hn; lia).
    assert (Hc : n = 0%nat \/ n = 1%nat \/ n = 2%nat) by (simpl in Hn; lia).
    destruct Hc as [-> |[-> | ->]]; vm_compute in Hu; discriminate Hu.
Defined.
End CopyExample.
