(* ===== verification/VmFree.v ===== *)
(** * Tearing an address space down: [freewalk], [uvmfree], [proc_pagetable],
    [proc_freepagetable]

    Every page of the table and every data page goes back to the allocator
    exactly once. *)

From S2P Require Import Prelude Memory Riscv Spinlock Kalloc Vm VmWalk VmUser VmCopy.

Section VmFree.
Context `{HC : Ctx} `{HI : Image} `{HO : !ImageOk}.

(** The pages of the subtree below the path [k]; [d] levels are left. *)
Definition in_sub (T : tree) (k : list Z) (q : Z) : Prop := exists k', T !! (k ++ k') = Some q.

Section Freewalk.
Context (m : mem) (T : tree) (root : Z) (Hwf : wf m T root).
Context (Hleaf : forall k p i, T !! k = Some p -> length k = 2%nat -> 0 <= i < 512 ->
  Z.land (ld64 m (p + 8 * i)) PTE_V = 0).

Lemma in_sub_self k p : T !! k = Some p -> in_sub T k p.
Proof. exists []. now rewrite app_nil_r. Qed.

Lemma in_sub_child k i q : in_sub T (k ++ [i]) q -> in_sub T k q.
Proof. intros [k' Hk]. exists (i :: k'). now rewrite <- app_assoc in Hk. Qed.

Lemma in_sub_ok k q : in_sub T k q -> page_ok q.
Proof. intros [k' Hk]. by eapply (wf_page _ _ _ Hwf). Qed.

Lemma in_sub_disjoint k i j q : in_sub T (k ++ [i]) q -> in_sub T (k ++ [j]) q -> i = j.
Proof.
  intros [k1 H1] [k2 H2]. pose proof (wf_inj _ _ _ Hwf _ _ _ H1 H2) as He.
  rewrite <- !app_assoc in He. apply app_inv_head in He. now injection He.
Qed.

Lemma in_sub_not_parent k i p : T !! k = Some p -> ~ in_sub T (k ++ [i]) p.
Proof.
  intros Hk [k' Hk']. pose proof (wf_inj _ _ _ Hwf _ _ _ Hk Hk') as He.
  apply (f_equal length) in He. rewrite !length_app in He. simpl in He. lia.
Qed.

Lemma in_sub_cases k p q : T !! k = Some p -> in_sub T k q ->
  q = p \/ exists i, 0 <= i < 512 /\ in_sub T (k ++ [i]) q.
Proof.
  intros Hk [k' Hq]. destruct k' as [|i k']; [left; rewrite app_nil_r in Hq; congruence|].
  right. exists i. change (i :: k') with ([i] ++ k') in Hq. rewrite app_assoc in Hq.
  destruct (wf_prefix _ _ _ _ _ _ Hwf Hq) as [q' Hq'].
  split; [by eapply (wf_closed _ _ _ Hwf)|]. by exists k'.
Qed.

(** What freeing a set of pages [Q] does to the allocator and the memory. *)
Record freed (Q : Z -> Prop) (s : kst) (l : list Z) (s' : kst) (l' : list Z) : Prop := {
  fr_kinv : kinv s' l';
  fr_list : forall q, q ∈ l' <-> q ∈ l \/ Q q;
  fr_frame : forall x, (forall q, Q q -> ~ in_page q x) -> mget (k_mem s') x = mget (k_mem s) x
}.

(** Memory still has the original contents in the pages [Q]. *)
Definition intact (Q : Z -> Prop) (s : kst) : Prop :=
  forall q x, Q q -> in_page q x -> mget (k_mem s) x = mget m x.

Lemma freed_trans (Q1 Q2 : Z -> Prop) s l s1 l1 s2 l2 :
  freed Q1 s l s1 l1 -> freed Q2 s1 l1 s2 l2 -> freed (fun q => Q1 q \/ Q2 q) s l s2 l2.
Proof.
  intros [K1 L1 F1] [K2 L2 F2]. split; [done| |].
  - intros q. rewrite L2, L1. tauto.
  - intros x Hx. rewrite F2, F1; auto.
Qed.

Lemma freed_iff (Q1 Q2 : Z -> Prop) s l s' l' :
  (forall q, Q1 q <-> Q2 q) -> freed Q1 s l s' l' -> freed Q2 s l s' l'.
Proof.
  intros H [K L F]. split; [done| |].
  - intros q. now rewrite L, H.
  - intros x Hx. apply F. intros q Hq. apply Hx. now apply H.
Qed.

Definition sub_body (d : nat) (p i : Z) : M kst unit :=
  pte <-! load (p + 8 * i) ;;
  if negb (Z.land pte PTE_V =? 0) && (Z.land pte (Z.lor (Z.lor PTE_R PTE_W) PTE_X) =? 0)
  then freewalk_rec d (PTE2PA pte) ;;; store (p + 8 * i) 0
  else panic_if (negb (Z.land pte PTE_V =? 0)) "freewalk: leaf".

(** The claim about [freewalk] on a node with [d] levels left. *)
Definition freewalk_ok (d : nat) : Prop := forall k p s l,
  T !! k = Some p -> (length k + d = 3)%nat -> kinv s l -> intact (in_sub T k) s ->
  (forall q, in_sub T k q -> q ∉ l) ->
  exists s' l', freewalk_rec d p s = Done tt s' /\ freed (in_sub T k) s l s' l'.

(** The state between two entries of the node [p] at path [k]: the entries
    [js] are still to be visited. *)
Record todo (k : list Z) (p : Z) (js : list Z) (s : kst) (l : list Z) : Prop := {
  td_kinv : kinv s l;
  td_node : p ∉ l;
  td_intact : forall i, i ∈ js -> intact (in_sub T (k ++ [i])) s;
  td_free : forall i q, i ∈ js -> in_sub T (k ++ [i]) q -> q ∉ l;
  td_entry : forall i, i ∈ js -> ld64 (k_mem s) (p + 8 * i) = ld64 m (p + 8 * i)
}.

Lemma other_page q1 q2 x :
  page_ok q1 -> page_ok q2 -> q1 <> q2 -> in_page q1 x -> ~ in_page q2 x.
Proof. intros H1 H2 Hne Hx Hy. apply Hne. by eapply page_disjoint. Qed.

(** Visiting an entry that points to a node. *)
Lemma visit_node d k p i js s l q :
  freewalk_ok d -> T !! k = Some p -> (length k + S d = 3)%nat -> NoDup (i :: js) ->
  (forall j, j ∈ i :: js -> 0 <= j < 512) -> todo k p (i :: js) s l -> T !! (k ++ [i]) = Some q ->
  exists s' l', sub_body d p i s = Done tt s' /\ todo k p js s' l' /\
    (forall r, r ∈ l' <-> r ∈ l \/ in_sub T (k ++ [i]) r) /\
    (forall x, ~ in_page p x -> (forall r, in_sub T (k ++ [i]) r -> ~ in_page r x) ->
       mget (k_mem s') x = mget (k_mem s) x).
Proof.
  intros Hd Hk Hlen Hnd Hrng [K N I F E] Hq. apply NoDup_cons in Hnd as [Hni _].
  destruct (wf_page _ _ _ Hwf _ _ Hk) as [Hpok _]. destruct (wf_page _ _ _ Hwf _ _ Hq) as [Hqok Hlq].
  rewrite length_app in Hlq. simpl in Hlq. assert (Hi : 0 <= i < 512) by (apply Hrng; left).
  pose proof (wf_entry _ _ _ Hwf k p i Hk ltac:(lia) Hi) as He. rewrite Hq in He.
  pose proof (page_ok_56 _ Hqok) as [Hq56 Hqal].
  destruct (Hd (k ++ [i]) q s l Hq) as (s1 & l1 & Hrun & [K1 L1 F1]);
    [rewrite length_app; simpl; lia|done|apply I; left|intros r; apply F; left|].
  assert (Hp1 : p ∉ l1) by (rewrite L1; intros [?|Hx]; [done|exact (in_sub_not_parent k i p Hk Hx)]).
  assert (Hst : forall x, ~ in_page p x -> mget (st64 (k_mem s1) (p + 8 * i) 0) x = mget (k_mem s1) x).
  { intros x Hx. apply mget_stn_ne. intros Hx2. apply Hx. apply (entry_in_page p i); lia. }
  assert (Hout : forall x, ~ in_page p x -> (forall r, in_sub T (k ++ [i]) r -> ~ in_page r x) ->
            mget (st64 (k_mem s1) (p + 8 * i) 0) x = mget (k_mem s) x).
  { intros x Hx Hr. rewrite Hst by done. now apply F1. }
  exists (set_mem (st64 (k_mem s1) (p + 8 * i) 0) s1), l1. conjs; [|split|done|done].
  - unfold sub_body, load. rewrite (bind_Done (gets _) _ s _ s eq_refl).
    rewrite E, He by left. rewrite !land_PTE_make by (auto with xv6; vm_compute; split; discriminate || done).
    change (negb (Z.land PTE_V PTE_V =? 0) && (Z.land PTE_V (Z.lor (Z.lor PTE_R PTE_W) PTE_X) =? 0)) with true.
    cbv iota. rewrite PTE2PA_make by auto with xv6. now rewrite (bind_Done _ _ _ _ _ Hrun).
  - apply kinv_frame; [done|]. intros r x Hr Hx. apply Hst.
    apply (other_page r p); [|done|congruence|done].
    pose proof (kinv_pages _ _ K1) as Hf. rewrite Forall_forall in Hf. auto.
  - done.
  - intros j Hj r x Hr Hx. cbn [k_mem set_mem]. rewrite Hout.
    + apply (I j ltac:(by right) r); done.
    + apply (other_page r p); try done; [by eapply in_sub_ok|]. intros ->.
      exact (in_sub_not_parent k j p Hk Hr).
    + intros r' Hr'. apply (other_page r r'); try done; [by eapply in_sub_ok..|].
      intros ->. pose proof (in_sub_disjoint _ _ _ _ Hr Hr'). congruence.
  - intros j r Hj Hr. rewrite L1. intros [Hx|Hx]; [by eapply (F j); [right|..]|].
    pose proof (in_sub_disjoint _ _ _ _ Hr Hx). congruence.
  - intros j Hj. cbn [k_mem set_mem]. assert (j <> i) by congruence.
    assert (0 <= j < 512) by (apply Hrng; by right).
    rewrite ld64_st64_ne by lia. rewrite <- E by (by right). apply ld64_page_ext; [done|].
    intros x Hx. apply F1. intros r Hr. apply (other_page p r); try done; [by eapply in_sub_ok|].
    intros <-. exact (in_sub_not_parent k i p Hk Hr).
Qed.

Lemma no_sub k i q : T !! (k ++ [i]) = None -> ~ in_sub T (k ++ [i]) q.
Proof. intros Hn [k' Hk]. destruct (wf_prefix _ _ _ _ _ _ Hwf Hk). congruence. Qed.

Lemma visit_none d k p i js s l :
  T !! k = Some p -> (length k + S d = 3)%nat ->
  0 <= i < 512 -> todo k p (i :: js) s l -> T !! (k ++ [i]) = None ->
  sub_body d p i s = Done tt s /\ todo k p js s l.
Proof.
  intros Hk Hlen Hi [K N I F E] Hn. split.
  - unfold sub_body, load. rewrite (bind_Done (gets _) _ s _ s eq_refl). rewrite E by left.
    assert (Hv : Z.land (ld64 m (p + 8 * i)) PTE_V = 0).
    { destruct (decide (length k = 2%nat)); [by eapply Hleaf|].
      pose proof (wf_entry _ _ _ Hwf k p i Hk ltac:(lia) Hi) as He. now rewrite Hn in He. }
    rewrite Hv. reflexivity.
  - split; try done.
    + intros j Hj. apply I. by right.
    + intros j q Hj. apply F. by right.
    + intros j Hj. apply E. by right.
Qed.

Lemma visit_all d k p js s l :
  freewalk_ok d -> T !! k = Some p -> (length k + S d = 3)%nat -> NoDup js ->
  (forall j, j ∈ js -> 0 <= j < 512) -> todo k p js s l ->
  exists s' l', for_each js (sub_body d p) s = Done tt s' /\ kinv s' l' /\ p ∉ l' /\
    (forall r, r ∈ l' <-> r ∈ l \/ exists i, i ∈ js /\ in_sub T (k ++ [i]) r) /\
    (forall x, ~ in_page p x -> (forall i r, i ∈ js -> in_sub T (k ++ [i]) r -> ~ in_page r x) ->
       mget (k_mem s') x = mget (k_mem s) x).
Proof.
  intros Hd Hk Hlen. revert s l. induction js as [|i js IH]; intros s l Hnd Hrng Htd.
  - exists s, l. destruct Htd as [K N _ _ _]. conjs; try done.
    intros r. split; [auto|]. intros [?|(j & Hj & _)]; [done|]. now apply elem_of_nil in Hj.
  - assert (Hrng' : forall j, j ∈ js -> 0 <= j < 512) by (intros j Hj; apply Hrng; by right).
    pose proof Hnd as Hnd2. apply NoDup_cons in Hnd2 as [_ Hnd'].
    cbn [for_each]. destruct (T !! (k ++ [i])) as [q|] eqn:Hq.
    + destruct (visit_node d k p i js s l q Hd Hk Hlen Hnd Hrng Htd Hq) as (s1 & l1 & H1 & T1 & L1 & F1).
      destruct (IH s1 l1 Hnd' Hrng' T1) as (s2 & l2 & H2 & K2 & N2 & L2 & F2).
      exists s2, l2. rewrite (bind_Done _ _ _ _ _ H1). conjs; try done.
      * intros r. rewrite L2, L1. set_solver.
      * intros x Hx Hr. rewrite F2, F1; try done; [intros r; apply Hr; left|].
        intros j r Hj. apply Hr. by right.
    + destruct (visit_none d k p i js s l Hk Hlen ltac:(apply Hrng; left) Htd Hq) as [H1 T1].
      destruct (IH s l Hnd' Hrng' T1) as (s2 & l2 & H2 & K2 & N2 & L2 & F2).
      exists s2, l2. rewrite (bind_Done _ _ _ _ _ H1). conjs; try done.
      * intros r. rewrite L2. pose proof (no_sub k i r Hq). set_solver.
      * intros x Hx Hr. apply F2; [done|]. intros j r Hj. apply Hr. by right.
Qed.

Lemma freewalk_rec_ok d : freewalk_ok d.
Proof.
  induction d as [|d IH]; intros k p s l Hk Hlen HK Hint Hfree.
  - destruct (wf_page _ _ _ Hwf _ _ Hk). lia.
  - destruct (wf_page _ _ _ Hwf _ _ Hk) as [Hpok _].
    destruct (visit_all d k p (upto 512) s l IH Hk Hlen (NoDup_upto _)) as (s1 & l1 & H1 & K1 & N1 & L1 & F1).
    { intros j. now rewrite elem_upto. }
    { split; [done|apply Hfree; by apply in_sub_self| | |].
      - intros i _ q x Hq. apply Hint. by eapply in_sub_child.
      - intros i q _ Hq. apply Hfree. by eapply in_sub_child.
      - intros i Hi. apply elem_upto in Hi. apply ld64_page_ext; [done|].
        intros x. apply Hint. by apply in_sub_self. }
    destruct (kfree_inv s1 p l1 K1 Hpok N1) as (s2 & H2 & K2 & F2).
    exists s2, (p :: l1). cbn [freewalk_rec]. rewrite (bind_Done _ _ _ _ _ H1). split; [done|].
    split; [done| |].
    + intros q. rewrite elem_of_cons, L1. split.
      * intros [->|[?|(i & _ & Hi)]]; [right; by apply in_sub_self|auto|].
        right. by eapply in_sub_child.
      * intros [?|Hq]; [auto|]. destruct (in_sub_cases k p q Hk Hq) as [->|(i & Hi & Hq')]; [auto|].
        right. right. exists i. by rewrite elem_upto.
    + intros x Hx. rewrite F2, F1; [done| | |].
      * apply Hx. by apply in_sub_self.
      * intros i r _ Hr. apply Hx. by eapply in_sub_child.
      * apply Hx. by apply in_sub_self.
Qed.
End Freewalk.

(** Every leaf slot of the table is the entry of some virtual page. *)
Lemma leaf_slot m T root k p i :
  wf m T root -> T !! k = Some p -> length k = 2%nat -> 0 <= i < 512 ->
  exists va, 0 <= va < MAXVA /\ ld64 m (p + 8 * i) = pte_at m T va.
Proof.
  intros Hwf Hk Hlen Hi. destruct k as [|a [|b [|c k]]]; try done.
  pose proof (wf_low _ _ _ Hwf _ _ _ Hk) as Ha.
  destruct (wf_closed _ _ _ Hwf [a] b p Hk) as [Hb [pa Hpa]].
  destruct (wf_closed _ _ _ Hwf [] a pa Hpa) as [Ha' _].
  exists (a * 1073741824 + b * 2097152 + i * 4096).
  assert (Hva : 0 <= a * 1073741824 + b * 2097152 + i * 4096 < MAXVA) by (rewrite MAXVA_eq; lia).
  split; [done|]. unfold pte_at. rewrite path2, !PX_eq by lia.
  change (2 ^ (12 + 9 * 2)) with 1073741824. change (2 ^ (12 + 9 * 1)) with 2097152.
  change (2 ^ (12 + 9 * 0)) with 4096.
  replace ((a * 1073741824 + b * 2097152 + i * 4096) / 1073741824 mod 512) with a
    by (Z.div_mod_to_equations; lia).
  replace ((a * 1073741824 + b * 2097152 + i * 4096) / 2097152 mod 512) with b
    by (Z.div_mod_to_equations; lia).
  replace ((a * 1073741824 + b * 2097152 + i * 4096) / 4096 mod 512) with i
    by (Z.div_mod_to_equations; lia).
  now rewrite Hk.
Qed.

Lemma freewalk_spec s l T root :
  pt_inv s l T root ->
  (forall va, 0 <= va < MAXVA -> Z.land (pte_at (k_mem s) T va) PTE_V = 0) ->
  exists s' l', freewalk root s = Done tt s' /\ freed (tpage T) s l s' l'.
Proof.
  intros [Hk Hwf Hfr] Hv.
  assert (Hleaf : forall k p i, T !! k = Some p -> length k = 2%nat -> 0 <= i < 512 ->
    Z.land (ld64 (k_mem s) (p + 8 * i)) PTE_V = 0).
  { intros k p i Hk' Hlen Hi. destruct (leaf_slot _ _ _ _ _ _ Hwf Hk' Hlen Hi) as (va & Hva & ->). auto. }
  destruct (freewalk_rec_ok (k_mem s) T root Hwf Hleaf 3 [] root s l) as (s' & l' & H1 & H2);
    [apply Hwf|done|done|done| |].
  - intros q [k Hq]. apply Hfr. by exists k.
  - exists s', l'. done.
Qed.

(** An address space of [sz] bytes: its data pages are those below [sz] and
    nothing else is mapped, except where [special] says so. *)
Definition sized (s : kst) (T : tree) (D : gmap Z Z) (sz : Z) (special : Z -> Prop) : Prop :=
  (forall w, is_Some (D !! w) <-> 0 <= w < pgs sz) /\
  (forall va, 0 <= va < MAXVA -> ~ (0 <= va / 4096 < pgs sz) -> ~ special (va / 4096) ->
     Z.land (pte_at (k_mem s) T va) PTE_V = 0).

(** All pages of the address space are free again and nothing outside them
    and the free pages was written. *)
Definition torn_down (s : kst) (l : list Z) (T : tree) (D : gmap Z Z) (s' : kst) (l' : list Z) : Prop :=
  kinv s' l' /\ (forall p, p ∈ l' <-> owns l T D p) /\
  forall x, (forall p, owns l T D p -> ~ in_page p x) -> mget (k_mem s') x = mget (k_mem s) x.

Lemma freed_torn_down P s l T D s1 l1 D1 s2 l2 root :
  vstep P s l T D s1 l1 T D1 root -> (forall w, D1 !! w = None) ->
  (forall x, (forall p, owns l T D p -> ~ in_page p x) -> P x) ->
  freed (tpage T) s1 l1 s2 l2 -> torn_down s l T D s2 l2.
Proof.
  intros Hst HD HP [K L F]. assert (Hown : forall p, p ∈ l2 <-> owns l T D p).
  { intros p. rewrite L, <- (vs_owns _ _ _ _ _ _ _ _ _ _ Hst). unfold owns.
    split; [tauto|]. intros [?|[?|[v Hv]]]; [auto|auto|]. rewrite HD in Hv. done. }
  split; [done|]. split; [done|]. intros x Hx. rewrite F.
  - apply (vs_frame _ _ _ _ _ _ _ _ _ _ Hst). auto.
  - intros q Hq. apply Hx. right. now left.
Qed.

Definition outside (l : list Z) (T : tree) (D : gmap Z Z) (x : Z) : Prop :=
  forall p, owns l T D p -> ~ in_page p x.

Lemma uvmfree_spec s l T root D sz :
  as_inv s l T root D -> 0 <= sz <= MAXVA -> sized s T D sz (fun _ => False) ->
  exists s' l', uvmfree root sz s = Done tt s' /\ torn_down s l T D s' l'.
Proof.
  intros Hinv Hsz [HD Hp]. pose proof MAXVA_eq as HM. pose proof (pgs_eq sz ltac:(lia)) as [Er Br].
  unfold uvmfree.
  assert (Hav : avoid (outside l T D) l T).
  { intros p x Hpp Hin Hx. apply (Hx p); [|done]. unfold owns. tauto. }
  assert (Hun : exists s1 l1 D1,
    when (0 <? sz) (uvmunmap root 0 (PGROUNDUP sz / PGSIZE) true) s = Done tt s1 /\
    vstep (outside l T D) s l T D s1 l1 T D1 root /\ (forall w, D1 !! w = None) /\
    (forall va, 0 <= va < MAXVA -> Z.land (pte_at (k_mem s1) T va) PTE_V = 0)).
  { destruct (Z.ltb_spec 0 sz) as [Hpos|Hz]; cbn [when].
    - destruct (uvmunmap_spec (outside l T D) s l T root D 0 (pgs sz)) as (s1 & l1 & H1 & H2 & H3);
        [done|done|lia|lia|lia| |].
      { intros w Hw. destruct (proj2 (HD w) ltac:(lia)) as [pa Hpa]. exists pa. split; [done|].
        intros x Hin Hx. apply (Hx pa); [|done]. unfold owns. eauto. }
      eexists s1, l1, _. split; [exact H1|]. split; [exact H2|]. split.
      + intros w. rewrite lookup_del_range, Z2Nat.id by lia.
        destruct (Z.leb_spec 0 w), (Z.ltb_spec w (0 + pgs sz)); simpl; try done;
          apply eq_None_not_Some; rewrite HD; lia.
      + intros va Hva. rewrite H3 by done.
        destruct (Z.leb_spec 0 (va / 4096)), (Z.ltb_spec (va / 4096) (0 + pgs sz)); simpl; try done;
          (apply Hp; [done|lia|auto]).
    - exists s, l, D. assert (pgs sz = 0) by lia. conjs; [done|by apply vstep_refl| |].
      + intros w. apply eq_None_not_Some. rewrite HD. lia.
      + intros va Hva. apply Hp; [done|lia|auto]. }
  destruct Hun as (s1 & l1 & D1 & H1 & Hst & HD1 & Hv1). rewrite (bind_Done _ _ _ _ _ H1).
  destruct (freewalk_spec s1 l1 T root (as_pt _ _ _ _ _ (vs_inv _ _ _ _ _ _ _ _ _ _ Hst)) Hv1)
    as (s2 & l2 & H2 & Hfr).
  exists s2, l2. split; [done|]. by eapply freed_torn_down.
Qed.

(** ** Pages that are mapped but not owned: the trampoline and the trapframe *)

(** [special w]: the entry of page [w] is a valid leaf of somebody else's page. *)
Definition foreign (s : kst) (T : tree) (D : gmap Z Z) (w : Z) : Prop :=
  0 <= w < 2 ^ 26 /\ D !! w = None /\ Z.land (pte_at (k_mem s) T (w * 4096)) PTE_V <> 0 /\
  PTE_FLAGS (pte_at (k_mem s) T (w * 4096)) <> PTE_V.

Lemma unmap_foreign P s l T root D w :
  as_inv s l T root D -> avoid P l T -> foreign s T D w ->
  exists s', uvmunmap root (w * 4096) 1 false s = Done tt s' /\
    vstep P s l T D s' l T D root /\
    (forall va, 0 <= va < MAXVA ->
       pte_at (k_mem s') T va = if va / 4096 =? w then 0 else pte_at (k_mem s) T va).
Proof.
  intros Hinv Hav (Hw & HDw & Hv & Hf). pose proof MAXVA_eq as HM.
  pose proof (as_pt _ _ _ _ _ Hinv) as Hpt.
  destruct (unmap_entry s l T root (w * 4096) Hpt ltac:(lia) Hv Hf) as (q & Hq & Hrun).
  destruct (clear_leaf s l T root (w * 4096) q Hpt Hq ltac:(lia)) as (s' & Hs & Hpt' & Hpte & Hout).
  assert (Hpte' : forall va, 0 <= va < MAXVA ->
    pte_at (k_mem s') T va = if va / 4096 =? w then 0 else pte_at (k_mem s) T va).
  { intros va Hva. rewrite Hpte, Z.div_mul by (done || lia). done. }
  exists s'. split; [|split; [split|done]].
  - unfold uvmunmap. change PGSIZE with 4096. rewrite Z.mod_mul by lia. cbn [Z.eqb negb].
    rewrite (bind_Done (panic_if false _) _ s tt s eq_refl). rewrite u64_small by lia.
    change (S (Z.to_nat 1)) with 2%nat. rewrite Hrun by lia. cbn [when].
    rewrite (bind_Done (ret tt) _ s tt s eq_refl), (bind_Done _ _ _ _ _ Hs).
    rewrite u64_small by (unfold PGSIZE; lia). cbn [uvmunmap_loop]. unfold PGSIZE.
    destruct (Z.ltb_spec (w * 4096 + 4096) (w * 4096 + 1 * 4096)); [lia|done].
  - destruct Hinv as [_ Hpg Hinj Hlf]. split; try done.
    intros v pa Hvpa. destruct (Hpg v pa Hvpa) as (_ & _ & _ & Hv26).
    rewrite Hpte' by lia. rewrite Z.div_mul by lia.
    destruct (Z.eqb_spec v w); [congruence|]. auto.
  - done.
  - done.
  - intros x Hx. apply Hout. intros Hin. apply (Hav q x); [|done|done]. right. by exists (path 2 (w * 4096)).
Qed.

Lemma torn_down_step s l T D s1 s2 l2 root :
  vstep (outside l T D) s l T D s1 l T D root -> torn_down s1 l T D s2 l2 -> torn_down s l T D s2 l2.
Proof.
  intros Hst (K & L & F). split; [done|]. split; [done|]. intros x Hx. rewrite F by done.
  by apply (vs_frame _ _ _ _ _ _ _ _ _ _ Hst).
Qed.

Definition TRAMPOLINE_page : Z := TRAMPOLINE / 4096.
Definition TRAPFRAME_page : Z := TRAPFRAME / 4096.
Definition special (w : Z) : Prop := w = TRAMPOLINE_page \/ w = TRAPFRAME_page.

Lemma special_pages :
  TRAMPOLINE = TRAMPOLINE_page * 4096 /\ TRAPFRAME = TRAPFRAME_page * 4096 /\
  TRAMPOLINE_page = 2 ^ 26 - 1 /\ TRAPFRAME_page = 2 ^ 26 - 2.
Proof. done. Qed.

Lemma outside_avoid l T D : avoid (outside l T D) l T.
Proof. intros p x Hp Hin Hx. apply (Hx p); [|done]. unfold owns. tauto. Qed.

Lemma foreign_after s s' T D v w :
  foreign s T D w -> v <> w ->
  (forall va, 0 <= va < MAXVA ->
     pte_at (k_mem s') T va = if va / 4096 =? v then 0 else pte_at (k_mem s) T va) ->
  foreign s' T D w.
Proof.
  intros (Hw & HD & Hv & Hf) Hne Hp. pose proof MAXVA_eq.
  assert (E : pte_at (k_mem s') T (w * 4096) = pte_at (k_mem s) T (w * 4096)).
  { rewrite Hp, Z.div_mul by lia. destruct (Z.eqb_spec w v); [congruence|done]. }
  unfold foreign. rewrite E. done.
Qed.

Lemma proc_freepagetable_spec s l T root D sz :
  as_inv s l T root D -> 0 <= sz <= TRAPFRAME -> sized s T D sz special ->
  foreign s T D TRAMPOLINE_page -> foreign s T D TRAPFRAME_page ->
  exists s' l', proc_freepagetable root sz s = Done tt s' /\ torn_down s l T D s' l'.
Proof.
  intros Hinv Hsz [HD Hp] Ht1 Ht2. destruct special_pages as (E1 & E2 & N1 & N2).
  pose proof MAXVA_eq as HM.
  destruct (unmap_foreign _ s l T root D TRAMPOLINE_page Hinv (outside_avoid l T D) Ht1)
    as (s1 & H1 & V1 & P1).
  destruct (unmap_foreign (outside l T D) s1 l T root D TRAPFRAME_page) as (s2 & H2 & V2 & P2);
    [apply V1|apply V1|apply (foreign_after s s1 T D TRAMPOLINE_page); [exact Ht2|lia|done]|].
  destruct (uvmfree_spec s2 l T root D sz) as (s3 & l3 & H3 & TD); [apply V2|lia| |].
  { split; [done|]. intros va Hva Hn _. rewrite P2, P1 by done.
    destruct (Z.eqb_spec (va / 4096) TRAPFRAME_page) as [|Hn2]; [done|].
    destruct (Z.eqb_spec (va / 4096) TRAMPOLINE_page) as [|Hn1]; [done|].
    apply Hp; [done|done|]. unfold special. tauto. }
  exists s3, l3. split.
  - unfold proc_freepagetable. rewrite E1, E2.
    rewrite (bind_Done _ _ _ _ _ H1), (bind_Done _ _ _ _ _ H2). done.
  - eapply torn_down_step; [|exact TD]. by eapply vstep_trans.
Qed.

(** ** Creating a table *)

Definition new_tree (root : Z) : tree := {[ [] := root ]}.

Lemma tpage_new root p : tpage (new_tree root) p <-> p = root.
Proof.
  unfold tpage, new_tree. split.
  - intros [k [_ <-]%lookup_singleton_Some]. done.
  - intros ->. exists []. apply lookup_singleton_eq.
Qed.

Lemma uvmcreate_spec s l : kinv s l ->
  match l with
  | [] => uvmcreate s = Done 0 s
  | p :: l' => exists s', uvmcreate s = Done p s' /\ as_inv s' l' (new_tree p) p ∅ /\
      (forall va, pte_at (k_mem s') (new_tree p) va = 0) /\
      (forall x, ~ in_page p x -> mget (k_mem s') x = mget (k_mem s) x)
  end.
Proof.
  intros Hk. destruct l as [|p l].
  { unfold uvmcreate. now rewrite (bind_Done _ _ _ _ _ (kalloc_empty s Hk)). }
  destruct (kalloc_zero s p l Hk) as (s0 & s1 & H0 & H1 & K1 & O1 & Z1).
  pose proof (kinv_pages _ _ Hk) as Hf. apply Forall_cons_1 in Hf as [Hok _].
  pose proof (kinv_nodup _ _ Hk) as Hnd. apply NoDup_cons in Hnd as [Hn _].
  pose proof (page_ok_pos p Hok). exists s1.
  assert (Hz : forall i, 0 <= i < 512 -> ld64 (k_mem s1) (p + 8 * i) = 0).
  { intros i Hi. rewrite (ld64_page_ext (memset (k_mem s1) p 0 PGSIZE)); [|done|].
    - apply ld64_memset_0; unfold PGSIZE; lia.
    - intros x Hx. rewrite mget_memset_in by done. now apply Z1. }
  assert (Hl : forall k q, new_tree p !! k = Some q -> k = [] /\ q = p).
  { intros k q. unfold new_tree. rewrite lookup_singleton_Some. naive_solver. }
  split; [|split; [|split; [|done]]].
  - unfold uvmcreate. rewrite (bind_Done _ _ _ _ _ H0). destruct (Z.eqb_spec p 0); [lia|].
    now rewrite (bind_Done _ _ _ _ _ H1).
  - split; try (intros; now rewrite lookup_empty in *). split; [done| |].
    + split.
      * apply lookup_singleton_eq.
      * intros k q [-> ->]%Hl. split; [done|simpl; lia].
      * intros k1 k2 q [-> _]%Hl [-> _]%Hl. done.
      * intros k i q [Hx _]%Hl. now apply app_nil in Hx as [_ ?].
      * intros k q i [-> ->]%Hl _ Hi. unfold new_tree. rewrite lookup_singleton_ne by done.
        now rewrite Hz.
      * intros i k q [Hx _]%Hl. done.
    + intros q ->%tpage_new. done.
  - intros va. unfold pte_at, new_tree. now rewrite path2, lookup_singleton_ne by done.
Qed.

(** Mapping somebody else's page into a table that owns no data pages. *)
Lemma map_foreign s l T root w pa perm :
  as_inv s l T root ∅ -> 0 <= w < 2 ^ 26 -> 0 <= pa -> pa + 4096 <= 2 ^ 56 -> 0 <= perm < 1024 ->
  Z.land (pte_at (k_mem s) T (w * 4096)) PTE_V = 0 ->
  exists r s' l' T', mappages root (w * 4096) PGSIZE pa perm s = Done r s' /\
    vstep (outside l T ∅) s l T ∅ s' l' T' ∅ root /\
    (r = 0 /\ (forall va, 0 <= va < MAXVA -> pte_at (k_mem s') T' va =
       if va / 4096 =? w then Z.lor (Z.lor (PA2PTE pa) perm) PTE_V else pte_at (k_mem s) T va) \/
     r = -1 /\ (forall va, 0 <= va < MAXVA -> pte_at (k_mem s') T' va = pte_at (k_mem s) T va)).
Proof.
  intros Hinv Hw Hpa Hpa2 Hperm Hv. destruct (npages_one w Hw) as [Hnp Hpd]. pose proof MAXVA_eq as HM.
  destruct (mappages_spec (w * 4096) PGSIZE pa perm s l T root (as_pt _ _ _ _ _ Hinv))
    as (r & j & s' & l' & T' & Hm & Hst & Hr & Hpte);
    [unfold PGSIZE; lia|lia|unfold PGSIZE; lia|lia|rewrite Hnp; lia|lia| |].
  { intros j. rewrite Hnp, Hpd. intros Hj. replace (w * 4096 + j * 4096) with (w * 4096) by lia. done. }
  rewrite Hnp, Hpd in *. exists r, s', l', T'. split; [done|]. destruct Hst as [I2 S2 (u & -> & Hu) F2].
  split; [split|].
  - split; [done|intros; now rewrite lookup_empty in *..].
  - intros p. unfold owns. rewrite elem_of_app, Hu. tauto.
  - intros p x Hp Hin Hx. apply (Hx p); [|done]. unfold owns. rewrite elem_of_app, Hu in *. tauto.
  - intros x Hx. apply F2. intros p Hp. apply Hx. unfold owns. rewrite elem_of_app. rewrite Hu in Hp. tauto.
  - destruct Hr as [[-> ->]|(-> & Hj & ->)]; [left|right]; split; try done; intros va Hva; rewrite Hpte by done.
    + rewrite map_range_one, Z.div_mul by (done || lia || now rewrite Z.mod_mul). done.
    + assert (j = 0) as -> by lia. unfold map_range.
      destruct (Z.leb_spec (w * 4096) va), (Z.ltb_spec va (w * 4096 + 0 * 4096)); simpl; auto; lia.
Qed.

(** The pages of [l] are all the call may touch. *)
Definition only_pages (l : list Z) (s s' : kst) : Prop :=
  forall x, (forall p, p ∈ l -> ~ in_page p x) -> mget (k_mem s') x = mget (k_mem s) x.

Lemma outside_pages (l0 l : list Z) T x :
  (forall p, owns l T ∅ p <-> p ∈ l0) -> (forall p, p ∈ l0 -> ~ in_page p x) -> outside l T ∅ x.
Proof. intros H Hx p Hp. apply Hx. now apply H. Qed.

Lemma uvmfree_empty s l T root (l0 : list Z) :
  as_inv s l T root ∅ -> (forall va, 0 <= va < MAXVA -> Z.land (pte_at (k_mem s) T va) PTE_V = 0) ->
  (forall p, owns l T ∅ p <-> p ∈ l0) ->
  exists s' l', uvmfree root 0 s = Done tt s' /\ kinv s' l' /\ (forall p, p ∈ l' <-> p ∈ l0) /\
    only_pages l0 s s'.
Proof.
  intros Hinv Hv Hown. destruct (uvmfree_spec s l T root ∅ 0 Hinv) as (s' & l' & H & K & L & F).
  - rewrite MAXVA_eq. lia.
  - split; [|auto]. intros w. rewrite lookup_empty. change (pgs 0) with 0.
    split; [intros [? ?]; done|lia].
  - exists s', l'. conjs; try done; [intros p; rewrite L; apply Hown|].
    intros x Hx. apply F. intros p Hp. apply Hx. now apply Hown.
Qed.

Definition tramp_pte : Z := Z.lor (Z.lor (PA2PTE trampoline) (Z.lor PTE_R PTE_X)) PTE_V.
Definition tf_pte (trapframe : Z) : Z := Z.lor (Z.lor (PA2PTE trapframe) (Z.lor PTE_R PTE_W)) PTE_V.

Lemma perm_small : 0 <= Z.lor PTE_R PTE_X < 1024 /\ 0 <= Z.lor PTE_R PTE_W < 1024.
Proof. vm_compute. repeat split; discriminate || reflexivity. Qed.

Lemma uvmunmap_made s l T root w pa perm D :
  as_inv s l T root D -> 0 <= w < 2 ^ 26 -> D !! w = None -> 0 <= pa < 2 ^ 56 ->
  leaf_flags (Z.lor perm PTE_V) ->
  pte_at (k_mem s) T (w * 4096) = Z.lor (Z.lor (PA2PTE pa) perm) PTE_V -> foreign s T D w.
Proof.
  intros Hinv Hw HD Hpa (Hr & Hv & Hf) Hp. unfold foreign. rewrite Hp, <- Z.lor_assoc. conjs; try done; try lia.
  - now rewrite land_PTE_make by auto with xv6.
  - unfold PTE_FLAGS. rewrite land_PTE_make by lia. change 0x3FF with (Z.ones 10).
    rewrite Z.land_ones, Z.mod_small by lia. done.
Qed.

Lemma leaf_flags_RX : leaf_flags (Z.lor (Z.lor PTE_R PTE_X) PTE_V).
Proof. vm_compute. repeat split; discriminate. Qed.
Lemma leaf_flags_RW : leaf_flags (Z.lor (Z.lor PTE_R PTE_W) PTE_V).
Proof. vm_compute. repeat split; discriminate. Qed.

(** The outcome of [proc_pagetable]: nothing, with every page free again, or a
    table that maps exactly the trampoline and the trapframe. *)
Definition proc_table (l : list Z) (trapframe r : Z) (s' : kst) : Prop :=
  exists l', (r = 0 /\ kinv s' l' /\ (forall p, p ∈ l' <-> p ∈ l)) \/
  (r <> 0 /\ exists T, as_inv s' l' T r ∅ /\ (forall p, owns l' T ∅ p <-> p ∈ l) /\
     (forall va, 0 <= va < MAXVA -> pte_at (k_mem s') T va =
        if va / 4096 =? TRAPFRAME_page then tf_pte trapframe
        else if va / 4096 =? TRAMPOLINE_page then tramp_pte else 0)).

Lemma only_pages_trans l s s1 s2 : only_pages l s s1 -> only_pages l s1 s2 -> only_pages l s s2.
Proof. intros H1 H2 x Hx. rewrite H2, H1 by done. done. Qed.

(** The second half of [proc_pagetable]: the trampoline is mapped. *)
Lemma proc_pagetable_tf s l T root (l0 : list Z) trapframe :
  as_inv s l T root ∅ -> root <> 0 -> (forall q, owns l T ∅ q <-> q ∈ l0) ->
  0 <= trampoline -> trampoline + 4096 <= 2 ^ 56 -> page_ok trapframe ->
  (forall va, 0 <= va < MAXVA -> pte_at (k_mem s) T va =
     if va / 4096 =? TRAMPOLINE_page then tramp_pte else 0) ->
  exists r s', (r <-! mappages root TRAPFRAME PGSIZE trapframe (Z.lor PTE_R PTE_W) ;;
      if r <? 0 then uvmunmap root TRAMPOLINE 1 false ;;; uvmfree root 0 ;;; ret 0
      else ret root) s = Done r s' /\ proc_table l0 trapframe r s' /\ only_pages l0 s s'.
Proof.
  intros Hinv Hr0 Hown Ht0 Ht Htf HP. destruct special_pages as (E1 & E2 & N1 & N2).
  pose proof MAXVA_eq as HM. pose proof (page_ok_pos _ Htf) as Htf32. destruct perm_small as [PX PW].
  destruct (map_foreign s l T root TRAPFRAME_page trapframe (Z.lor PTE_R PTE_W) Hinv)
    as (r & s1 & l1 & T1 & H1 & V1 & R1); [lia|lia|lia|done| |].
  { rewrite HP, Z.div_mul by lia. destruct (Z.eqb_spec TRAPFRAME_page TRAMPOLINE_page); [lia|done]. }
  rewrite <- E2 in H1. rewrite (bind_Done _ _ _ _ _ H1).
  assert (Own1 : forall q, owns l1 T1 ∅ q <-> q ∈ l0)
    by (intros q; rewrite <- Hown; apply (vs_owns _ _ _ _ _ _ _ _ _ _ V1)).
  assert (Op1 : only_pages l0 s s1).
  { intros x Hx. apply (vs_frame _ _ _ _ _ _ _ _ _ _ V1). by eapply outside_pages. }
  destruct R1 as [[-> P1]|[-> P1]]; cbn [Z.ltb Z.compare].
  { exists root, s1. conjs; [done| |done]. exists l1. right. split; [done|]. exists T1.
    conjs; [apply V1|done|]. intros va Hva. rewrite P1, HP by done. done. }
  destruct (unmap_foreign (outside l1 T1 ∅) s1 l1 T1 root ∅ TRAMPOLINE_page) as (s2 & H2 & V2 & P2);
    [apply V1|apply outside_avoid| |].
  { eapply uvmunmap_made; [apply V1|lia|done|split; [exact Ht0|lia]|apply leaf_flags_RX|].
    rewrite P1, HP, Z.div_mul, Z.eqb_refl by lia. done. }
  rewrite <- E1 in H2. rewrite (bind_Done _ _ _ _ _ H2).
  destruct (uvmfree_empty s2 l1 T1 root l0) as (s3 & l3 & H3 & K3 & L3 & Op3); [apply V2| |done|].
  { intros va Hva. rewrite P2, P1, HP by done. now destruct (va / 4096 =? TRAMPOLINE_page). }
  exists 0, s3. rewrite (bind_Done _ _ _ _ _ H3). conjs; [done|exists l3; by left|].
  eapply only_pages_trans; [exact Op1|]. eapply only_pages_trans; [|exact Op3].
  intros x Hx. apply (vs_frame _ _ _ _ _ _ _ _ _ _ V2). by eapply outside_pages.
Qed.

Lemma proc_pagetable_spec s l trapframe :
  kinv s l -> 0 <= trampoline -> trampoline + 4096 <= 2 ^ 56 -> page_ok trapframe ->
  exists r s', proc_pagetable trapframe s = Done r s' /\ proc_table l trapframe r s' /\
    only_pages l s s'.
Proof.
  intros Hk Ht0 Ht Htf. destruct special_pages as (E1 & E2 & N1 & N2). pose proof MAXVA_eq as HM.
  pose proof (page_ok_pos _ Htf) as Htf32. destruct perm_small as [PX PW].
  unfold proc_pagetable. pose proof (uvmcreate_spec s l Hk) as Hc. destruct l as [|p l].
  { rewrite (bind_Done _ _ _ _ _ Hc). exists 0, s. conjs; [done| |done]. exists []. left. done. }
  destruct Hc as (s1 & H1 & I1 & P1 & O1). rewrite (bind_Done _ _ _ _ _ H1).
  pose proof (kinv_pages _ _ Hk) as Hf. apply Forall_cons_1 in Hf as [Hok _].
  pose proof (page_ok_pos p Hok). destruct (Z.eqb_spec p 0); [lia|].
  assert (Own1 : forall q, owns l (new_tree p) ∅ q <-> q ∈ p :: l).
  { intros q. unfold owns. rewrite tpage_new, elem_of_cons. split; [|tauto].
    intros [?|[?|[v Hv]]]; [auto|auto|]. now rewrite lookup_empty in Hv. }
  assert (Op1 : only_pages (p :: l) s s1) by (intros x Hx; apply O1, Hx; left).
  destruct (map_foreign s1 l (new_tree p) p TRAMPOLINE_page trampoline (Z.lor PTE_R PTE_X) I1)
    as (r2 & s2 & l2 & T2 & H2 & V2 & R2); [lia|lia|lia|done|now rewrite P1|].
  rewrite <- E1 in H2. rewrite (bind_Done _ _ _ _ _ H2).
  assert (Own2 : forall q, owns l2 T2 ∅ q <-> q ∈ p :: l)
    by (intros q; rewrite <- Own1; apply (vs_owns _ _ _ _ _ _ _ _ _ _ V2)).
  assert (Op2 : only_pages (p :: l) s s2).
  { eapply only_pages_trans; [exact Op1|]. intros x Hx. apply (vs_frame _ _ _ _ _ _ _ _ _ _ V2).
    by eapply outside_pages. }
  destruct R2 as [[-> P2]|[-> P2]].
  2: { simpl. destruct (uvmfree_empty s2 l2 T2 p (p :: l)) as (s3 & l3 & H3 & K3 & L3 & Op3);
         [apply V2|intros va Hva; rewrite P2, P1 by done; done|done|].
       exists 0, s3. rewrite (bind_Done _ _ _ _ _ H3). conjs; [done| |by eapply only_pages_trans].
       exists l3. left. done. }
  cbn [Z.ltb Z.compare].
  destruct (proc_pagetable_tf s2 l2 T2 p (p :: l) trapframe) as (r & s3 & H3 & R3 & Op3);
    [apply V2|done|done|done|done|done|intros va Hva; rewrite P2, P1 by done; done|].
  exists r, s3. conjs; [done|done|by eapply only_pages_trans].
Qed.

(** ** The contracts *)

(** [uvmfree] leaks nothing: freeing an address space of [sz] bytes
    terminates without a panic and returns every data page and every page of
    the three level table to the free list, exactly these pages, without
    writing to any byte outside them and the pages that were free. *)
Theorem uvmfree_frees_all s l T root D sz :
  as_inv s l T root D -> 0 <= sz <= MAXVA -> sized s T D sz (fun _ => False) ->
  exists s' l', uvmfree root sz s = Done tt s' /\ kinv s' l' /\
    (forall p, p ∈ l' <-> p ∈ l \/ tpage T p \/ exists v, D !! v = Some p) /\
    forall x, (forall p, owns l T D p -> ~ in_page p x) -> mget (k_mem s') x = mget (k_mem s) x.
Proof. exact (uvmfree_spec s l T root D sz). Qed.

(** C21: [proc_pagetable] builds a process's table or fails cleanly: on success
    exactly the trampoline and the trapframe are mapped, neither of them with
    [PTE_U]; when memory runs out at any point it returns 0 with every page it
    had taken free again. *)
Theorem proc_pagetable_correct s l trapframe :
  kinv s l -> 0 <= trampoline -> trampoline + 4096 <= 2 ^ 56 -> page_ok trapframe ->
  exists r s', proc_pagetable trapframe s = Done r s' /\ only_pages l s s' /\
   exists l', (r = 0 /\ kinv s' l' /\ (forall p, p ∈ l' <-> p ∈ l)) \/
    (r <> 0 /\ exists T, as_inv s' l' T r ∅ /\ (forall p, owns l' T ∅ p <-> p ∈ l) /\
     (forall va, 0 <= va < MAXVA -> pte_at (k_mem s') T va =
        if va / 4096 =? TRAPFRAME_page then tf_pte trapframe
        else if va / 4096 =? TRAMPOLINE_page then tramp_pte else 0)).
Proof.
  intros Hk H1 H2 H3. destruct (proc_pagetable_spec s l trapframe Hk H1 H2 H3) as (r & s' & ? & ? & ?).
  exists r, s'. done.
Qed.

(** C22: [proc_freepagetable] undoes [proc_pagetable] and everything mapped
    below [sz] since: the trampoline and the trapframe are unmapped but not
    freed, all the pages the process owned return to the free list. *)
Theorem proc_freepagetable_correct s l T root D sz :
  as_inv s l T root D -> 0 <= sz <= TRAPFRAME -> sized s T D sz special ->
  foreign s T D TRAMPOLINE_page -> foreign s T D TRAPFRAME_page ->
  exists s' l', proc_freepagetable root sz s = Done tt s' /\ kinv s' l' /\
    (forall p, p ∈ l' <-> owns l T D p) /\
    forall x, (forall p, owns l T D p -> ~ in_page p x) -> mget (k_mem s') x = mget (k_mem s) x.
Proof. exact (proc_freepagetable_spec s l T root D sz). Qed.
(** The data pages are the same, so the rest is. *)
Lemma vstep_same_pages P s l T D s' l' T' root :
  as_inv s l T root D -> vstep P s l T D s' l' T' D root -> forall p, p ∈ l' \/ tpage T' p <-> p ∈ l \/ tpage T p.
Proof.
  intros Hinv Hst p. pose proof (vs_owns _ _ _ _ _ _ _ _ _ _ Hst p) as Ho. unfold owns in Ho.
  assert (H1 : p ∈ l \/ tpage T p -> ~ exists v, D !! v = Some p) by (intros Hp [v Hv]; destruct (as_page _ _ _ _ _ Hinv v p Hv) as (_ & ? & ? & _); tauto).
  assert (H2 : p ∈ l' \/ tpage T' p -> ~ exists v, D !! v = Some p) by (intros Hp [v Hv]; destruct (as_page _ _ _ _ _ (vs_inv _ _ _ _ _ _ _ _ _ _ Hst) v p Hv) as (_ & ? & ? & _); tauto).
  tauto.
Qed.
(** A failed [uvmcopy] into a table that maps nothing of its own: what it has
    left in the child goes back with [proc_freepagetable]. *)
Lemma undone_freed s l T new s1 l1 T1 P top :
  as_inv s l T new ∅ -> vstep P s l T ∅ s1 l1 T1 ∅ new -> undone s T ∅ s1 T1 ∅ 0 0 top -> top <= TRAPFRAME_page ->
  sized s T ∅ 0 special -> foreign s T ∅ TRAMPOLINE_page -> foreign s T ∅ TRAPFRAME_page ->
  exists s2 l2, proc_freepagetable new 0 s1 = Done tt s2 /\ kinv s2 l2 /\ forall p, p ∈ l2 <-> p ∈ l \/ tpage T p.
Proof.
  intros Hinv Hst [_ Hu] Htop [Hz1 Hz2] Hf1 Hf2. destruct special_pages as (_ & _ & E1 & E2). pose proof MAXVA_eq as HM.
  assert (Hpte : forall w, special w -> pte_at (k_mem s1) T1 (w * 4096) = pte_at (k_mem s) T (w * 4096)).
  { intros w Hw. assert (Hw' : 2 ^ 26 - 2 <= w < 2 ^ 26) by (destruct Hw as [-> | ->]; lia). specialize (Hu (w * 4096) ltac:(lia)). rewrite Z.div_mul in Hu by lia.
    destruct (Z.ltb_spec w top); [lia|]. by rewrite andb_false_r in Hu. }
  assert (Hfor : forall w, special w -> foreign s T ∅ w -> foreign s1 T1 ∅ w) by (intros w Hw (? & ? & ? & ?); unfold foreign; by rewrite Hpte).
  destruct (proc_freepagetable_spec s1 l1 T1 new ∅ 0) as (s2 & l2 & Hrun & Hk & Hl & _).
  - apply Hst.
  - by vm_compute.
  - split; [done|]. intros va Hva Hn Hs. specialize (Hu va Hva). destruct (_ && _); [done|]. rewrite Hu. by apply Hz2.
  - apply Hfor; [by left|done].
  - apply Hfor; [by right|done].
  - exists s2, l2. split; [done|]. split; [done|]. intros p. rewrite Hl, (vs_owns _ _ _ _ _ _ _ _ _ _ Hst). unfold owns.
    split; [intros [?|[?|[v Hv]]]; auto; by rewrite lookup_empty in Hv|tauto].
Qed.

(** C9: [uvmcopy] gives the child a copy of the parent's memory or none of it.
    On success every page of the parent below [sz] has a page of the child
    with the same flags and the same 4096 bytes, in a physical page of its own.
    On failure (-1) no page below [sz] is mapped in the child, its other
    mappings are as they were, and every data page that was allocated is free
    again; page-table pages that [mappages] has added stay in the child's
    table, and the [proc_freepagetable] by which [fork] gives the child up
    frees those too: the allocator then has all it had and the pages of the
    child's table.  The parent's table and pages are untouched and no page is
    lost in either case. *)
Theorem uvmcopy_correct P s l T new D T0 old D0 sz :
  wf (k_mem s) T0 old ->
  (forall w, 0 <= w < pgs sz -> exists pa, D0 !! w = Some pa /\ page_ok pa /\
     leaf (pte_at (k_mem s) T0 (w * 4096)) pa) ->
  as_inv s l T new D -> avoid P l T -> (forall x, parent T0 D0 (pgs sz) x -> P x) ->
  0 <= sz <= MAXVA ->
  (forall w, 0 <= w < pgs sz -> Z.land (pte_at (k_mem s) T (w * 4096)) PTE_V = 0) ->
  exists r s' l' T' D', uvmcopy old new sz s = Done r s' /\
    vstep P s l T D s' l' T' D' new /\
    (r = 0 /\
      added (flags0 (k_mem s) T0) (same_bytes (k_mem s) D0) s' T' D' 0 (pgs sz) /\
      (forall w, ~ (0 <= w < pgs sz) -> D' !! w = D !! w) /\
      (forall va, 0 <= va < MAXVA -> ~ (0 <= va / 4096 < pgs sz) ->
         pte_at (k_mem s') T' va = pte_at (k_mem s) T va) \/
     r = -1 /\ D' = D /\
      (forall va, 0 <= va < MAXVA ->
         if va / 4096 <? pgs sz then Z.land (pte_at (k_mem s') T' va) PTE_V = 0
         else pte_at (k_mem s') T' va = pte_at (k_mem s) T va) /\
      (forall p, p ∈ l' \/ tpage T' p <-> p ∈ l \/ tpage T p) /\
      (D = ∅ -> sz <= TRAPFRAME -> sized s T D 0 special ->
       foreign s T D TRAMPOLINE_page -> foreign s T D TRAPFRAME_page ->
       exists s'' l'', proc_freepagetable new 0 s' = Done tt s'' /\ kinv s'' l'' /\
         forall p, p ∈ l'' <-> p ∈ l \/ tpage T p)).
Proof.
  intros Hwf HD0 Hinv Hav HP Hsz HV.
  destruct (uvmcopy_spec P s l T new D T0 old D0 sz Hwf HD0 Hinv Hav HP Hsz HV) as (r & s' & l' & T' & D' & Hrun & Hst & Hr).
  exists r, s', l', T', D'. split; [done|]. split; [done|]. destruct Hr as [Hr|[-> Hu]]; [by left|right]. assert (D' = D) as -> by apply Hu.
  split; [done|]. split; [done|]. split.
  { intros va Hva. pose proof (proj2 Hu va Hva) as H. assert (0 <= va / 4096) by (apply Z.div_pos; lia). by destruct (Z.leb_spec 0 (va / 4096)); [|lia]. }
  split; [by apply (vstep_same_pages P s l T D s' l' T' new)|].
  intros -> Hs2 Hz Hf1 Hf2. apply (undone_freed s l T new s' l' T' P (pgs sz)); try done. pose proof (pgs_mono sz TRAPFRAME ltac:(lia) ltac:(done)) as Hle.
  etransitivity; [exact Hle|]. done.
Qed.
End VmFree.

Module FreeExample.
Import VmExample AsExample CopyExample.

Lemma uvmfree_frees_all_witness :
  exists s' (l' : list Z), uvmfree (page 4) 0x2000 st2 = Done tt s' /\ page 8 ∈ l'.
Proof.
  destruct as_ex as (l & T & Hinv & Hown & Hz & Hp).
  destruct (uvmfree_frees_all st2 l T (page 4) D2 0x2000 Hinv) as (s' & l' & H & _ & L & _).
  - rewrite MAXVA_eq. lia.
  - split; change (pgs 0x2000) with 2.
    + intros w. split.
      * intros [pa Hw]. destruct (D2_lookup _ _ Hw) as [[-> _]|[-> _]]; lia.
      * intros Hw. assert (Hc : w = 0 \/ w = 1) by lia.
        destruct Hc as [-> | ->]; eexists; reflexivity.
    + intros va Hva Hn _. rewrite Hp by exact Hva. unfold map_range.
      destruct (Z.leb_spec 0 va), (Z.ltb_spec va (0 + 2 * 4096)); try reflexivity.
      exfalso. apply Hn. Z.div_mod_to_equations. lia.
  - exists s', l'. split; [exact H|]. apply L. right. right. exists 1. reflexivity.
Defined.

Lemma proc_pagetable_correct_witness : exists r s', proc_pagetable (page 9) st = Done r s'.
Proof.
  destruct (proc_pagetable_correct st [page 0; page 1; page 2; page 3] (page 9) kinv_ex)
    as (r & s' & H & _); [discriminate|discriminate|apply page_ok_ex; lia|].
  exists r, s'. exact H.
Defined.

Lemma uvmcopy_correct_witness : exists r s', uvmcopy (page 4) (page 5) 0x2000 st2 = Done r s'.
Proof.
  destruct as_ex as (l & T & Hinv & Hown & Hz & Hp).
  destruct (uvmcopy_correct (parent T D2 2) st2 l child (page 5) ∅ T (page 4) D2 0x2000)
    as (r & s' & l' & T' & D' & H & _).
  - apply Hinv.
  - change (pgs 0x2000) with 2. intros w Hw. assert (Hc : w = 0 \/ w = 1) by lia.
    destruct Hc as [-> | ->]; eexists; (split; [reflexivity|split; [apply page_ok_ex; lia|]]);
      eapply (as_leaf _ _ _ _ _ Hinv); reflexivity.
  - exact (child_ex l T Hinv Hown Hz).
  - exact (parent_avoid l T Hinv Hown).
  - intros x Hx. exact Hx.
  - rewrite MAXVA_eq. lia.
  - intros w Hw. unfold pte_at, child, tr. rewrite path2, lookup_singleton_ne by done. reflexivity.
  - exists r, s'. exact H.
Defined.

(** The table [proc_pagetable] makes. *)
Definition st4 : kst := out_state st (proc_pagetable (page 9) st).

Lemma made_ex : exists l T, as_inv st4 l T (page 0) ∅ /\
  forall va, 0 <= va < MAXVA -> pte_at (k_mem st4) T va =
    if va / 4096 =? TRAPFRAME_page then tf_pte (page 9)
    else if va / 4096 =? TRAMPOLINE_page then tramp_pte else 0.
Proof.
  destruct (proc_pagetable_spec st [page 0; page 1; page 2; page 3] (page 9) kinv_ex)
    as (r & s' & H & [l' Hr] & _); [discriminate|discriminate|apply page_ok_ex; lia|].
  assert (Hr0 : (match proc_pagetable (page 9) st with Done r _ => r | _ => 0 end) = page 0)
    by (vm_compute; reflexivity).
  assert (Hs : st4 = s') by (unfold st4; rewrite H; reflexivity).
  rewrite H in Hr0. rewrite Hs. subst r.
  destruct Hr as [[Hx _]|(_ & T & Hinv & _ & Hp)]; [discriminate Hx|]. exists l', T. split; assumption.
Qed.

Lemma proc_freepagetable_correct_witness : exists s', proc_freepagetable (page 0) 0 st4 = Done tt s'.
Proof.
  destruct made_ex as (l & T & Hinv & Hp). pose proof MAXVA_eq as HM.
  destruct special_pages as (_ & _ & N1 & N2).
  destruct (proc_freepagetable_correct st4 l T (page 0) ∅ 0 Hinv) as (s' & l' & H & _).
  - split; discriminate.
  - split.
    + intros w. change (pgs 0) with 0. split; [intros [? Hx]; discriminate Hx|lia].
    + intros va Hva _ Hns. rewrite Hp by exact Hva.
      destruct (Z.eqb_spec (va / 4096) TRAPFRAME_page); [exfalso; apply Hns; now right|].
      destruct (Z.eqb_spec (va / 4096) TRAMPOLINE_page); [exfalso; apply Hns; now left|]. reflexivity.
  - split; [rewrite N1; lia|]. split; [reflexivity|]. rewrite Hp by (rewrite N1; lia).
    vm_compute. split; discriminate.
  - split; [rewrite N2; lia|]. split; [reflexivity|]. rewrite Hp by (rewrite N2; lia).
    vm_compute. split; discriminate.
  - exists s'. exact H.
Defined.
End FreeExample.
