(* ===== verification/Bio.v ===== *)
(** * Buffer cache: kernel/bio.c

    The cache is an array of [NBUF] buffers on a doubly linked list in order
    of use.  A [struct buf*] is the index of the buffer, [HEAD] that of
    [bcache.head].  [disk_rw] is the effect of [virtio_disk_rw] on a buffer; the
    disk also keeps the history of the writes, for crash reasoning. *)

From S2P Require Import Prelude Memory Riscv Spinlock.

Definition NBUF : Z := 30.
Definition BSIZE : Z := 1024.
Notation block := (list Z).

Record buf := Buf {
  b_valid : bool;
  b_dev : Z;
  b_blockno : Z;
  b_lock : sleeplock;
  b_refcnt : Z;
  b_prev : Z;
  b_next : Z;
  b_data : block
}.

(** [bcache]; [bc_buf] also holds [bcache.head]. *)
Record bcache := Bcache { bc_lock : spinlock; bc_buf : gmap Z buf }.
Definition HEAD : Z := NBUF.

Record disk := Disk { d_blocks : gmap Z block; d_hist : list (Z * block) }.
Definition zero_block : block := replicate (Z.to_nat BSIZE) 0.
Definition dread (d : disk) (bn : Z) : block := default zero_block (d_blocks d !! bn).
Definition dwrite (bn : Z) (v : block) (d : disk) : disk :=
  Disk (<[bn := v]> (d_blocks d)) (d_hist d ++ [(bn, v)]).

Record bst := Bst { bs_cache : bcache; bs_disk : disk }.

Definition bc_lock_lens : lens bst spinlock :=
  Lens (fun s => bc_lock (bs_cache s))
       (fun lk s => Bst (Bcache lk (bc_buf (bs_cache s))) (bs_disk s)).
Definition bufs (s : bst) : gmap Z buf := bc_buf (bs_cache s).
Definition put (i : Z) (b : buf) (s : bst) : bst :=
  Bst (Bcache (bc_lock (bs_cache s)) (<[i := b]> (bufs s))) (bs_disk s).

(** Assignments to the fields of a [struct buf]. *)
Definition set_valid (v : bool) (b : buf) : buf :=
  Buf v (b_dev b) (b_blockno b) (b_lock b) (b_refcnt b) (b_prev b) (b_next b) (b_data b).
Definition set_id (d n : Z) (b : buf) : buf :=
  Buf (b_valid b) d n (b_lock b) (b_refcnt b) (b_prev b) (b_next b) (b_data b).
Definition set_lock (l : sleeplock) (b : buf) : buf :=
  Buf (b_valid b) (b_dev b) (b_blockno b) l (b_refcnt b) (b_prev b) (b_next b) (b_data b).
Definition set_refcnt (r : Z) (b : buf) : buf :=
  Buf (b_valid b) (b_dev b) (b_blockno b) (b_lock b) (u32 r) (b_prev b) (b_next b) (b_data b).
Definition set_prev (p : Z) (b : buf) : buf :=
  Buf (b_valid b) (b_dev b) (b_blockno b) (b_lock b) (b_refcnt b) p (b_next b) (b_data b).
Definition set_next (n : Z) (b : buf) : buf :=
  Buf (b_valid b) (b_dev b) (b_blockno b) (b_lock b) (b_refcnt b) (b_prev b) n (b_data b).
Definition set_data (v : block) (b : buf) : buf :=
  Buf (b_valid b) (b_dev b) (b_blockno b) (b_lock b) (b_refcnt b) (b_prev b) (b_next b) v.

(** Reading and changing the buffer a pointer denotes. *)
Definition getb (i : Z) : M bst buf := fun s =>
  match bufs s !! i with Some b => Done b s | None => Undef end.
Definition updb (i : Z) (f : buf -> buf) : M bst unit := fun s =>
  match bufs s !! i with Some b => Done tt (put i (f b) s) | None => Undef end.
(** An operation on [b->lock]. *)
Definition on_lock {A} (i : Z) (m : M sleeplock A) : M bst A := fun s =>
  match bufs s !! i with
  | Some b => lift (Lens (fun _ => b_lock b) (fun l s => put i (set_lock l b) s)) m s
  | None => Undef
  end.

(** [virtio_disk_rw(b, write)]: transfer between the buffer and the disk. *)
Definition disk_rw (i : Z) (write : bool) : M bst unit :=
  b <-! getb i ;;
  if write then modify (fun s => Bst (bs_cache s) (dwrite (b_blockno b) (b_data b) (bs_disk s)))
  else d <-! gets (fun s => dread (bs_disk s) (b_blockno b)) ;; updb i (set_data d).

Section Bio.
Context `{HC : Ctx}.

Definition binit_buf (i : Z) : M bst unit :=
  h <-! getb HEAD ;;
  updb i (set_next (b_next h)) ;;;
  updb i (set_prev HEAD) ;;;
  updb i (set_lock (initsleeplock "buffer")) ;;;
  h <-! getb HEAD ;;
  updb (b_next h) (set_prev i) ;;;
  updb HEAD (set_next i).
Definition binit : M bst unit :=
  modify (fun s => Bst (Bcache (initlock "bcache") (bufs s)) (bs_disk s)) ;;;
  updb HEAD (set_prev HEAD) ;;;
  updb HEAD (set_next HEAD) ;;;
  for_each (upto NBUF) binit_buf.

(** [for(b = bcache.head.next; b != &bcache.head; b = b->next)] looking for
    the block. *)
Fixpoint bget_cached (fuel : nat) (b dev blockno : Z) : M bst (option Z) :=
  match fuel with
  | O => diverge
  | S fuel' =>
      if b =? HEAD then ret None
      else p <-! getb b ;;
           if (b_dev p =? dev) && (b_blockno p =? blockno) then ret (Some b)
           else bget_cached fuel' (b_next p) dev blockno
  end.
(** [for(b = bcache.head.prev; b != &bcache.head; b = b->prev)] looking for an
    unused buffer. *)
Fixpoint bget_lru (fuel : nat) (b : Z) : M bst (option Z) :=
  match fuel with
  | O => diverge
  | S fuel' =>
      if b =? HEAD then ret None
      else p <-! getb b ;;
           if b_refcnt p =? 0 then ret (Some b)
           else bget_lru fuel' (b_prev p)
  end.
Definition list_fuel : nat := S (Z.to_nat NBUF).

Definition bget (dev blockno : Z) : M bst Z :=
  acquire bc_lock_lens ;;;
  h <-! getb HEAD ;;
  r <-! bget_cached list_fuel (b_next h) dev blockno ;;
  match r with
  | Some b =>
      updb b (fun p => set_refcnt (b_refcnt p + 1) p) ;;;
      release bc_lock_lens ;;;
      on_lock b (acquiresleep ("buf"%string, b)) ;;;
      ret b
  | None =>
      h <-! getb HEAD ;;
      r <-! bget_lru list_fuel (b_prev h) ;;
      match r with
      | Some b =>
          updb b (set_id dev blockno) ;;;
          updb b (set_valid false) ;;;
          updb b (set_refcnt 1) ;;;
          release bc_lock_lens ;;;
          on_lock b (acquiresleep ("buf"%string, b)) ;;;
          ret b
      | None => panic "bget: no buffers"
      end
  end.

Definition bread (dev blockno : Z) : M bst Z :=
  b <-! bget dev blockno ;;
  p <-! getb b ;;
  when (negb (b_valid p)) (disk_rw b false ;;; updb b (set_valid true)) ;;;
  ret b.

Definition bwrite (b : Z) : M bst unit :=
  h <-! on_lock b holdingsleep ;;
  panic_if (negb h) "bwrite" ;;;
  disk_rw b true.

Definition brelse (b : Z) : M bst unit :=
  h <-! on_lock b holdingsleep ;;
  panic_if (negb h) "brelse" ;;;
  on_lock b releasesleep ;;;
  acquire bc_lock_lens ;;;
  updb b (fun p => set_refcnt (b_refcnt p - 1) p) ;;;
  p <-! getb b ;;
  when (b_refcnt p =? 0)
    (updb (b_next p) (set_prev (b_prev p)) ;;;
     p <-! getb b ;;
     updb (b_prev p) (set_next (b_next p)) ;;;
     h <-! getb HEAD ;;
     updb b (set_next (b_next h)) ;;;
     updb b (set_prev HEAD) ;;;
     h <-! getb HEAD ;;
     updb (b_next h) (set_prev b) ;;;
     updb HEAD (set_next b)) ;;;
  release bc_lock_lens.

Definition bpin (b : Z) : M bst unit :=
  acquire bc_lock_lens ;;;
  updb b (fun p => set_refcnt (b_refcnt p + 1) p) ;;;
  release bc_lock_lens.

Definition bunpin (b : Z) : M bst unit :=
  acquire bc_lock_lens ;;;
  updb b (fun p => set_refcnt (b_refcnt p - 1) p) ;;;
  release bc_lock_lens.
End Bio.

(** ** The doubly linked list *)

Section Seg.
Implicit Types (nx pv : Z -> Z).

(** From [a] along [nx] through [l] to [z], and back along [pv]. *)
Fixpoint seg nx pv (a : Z) (l : list Z) (z : Z) : Prop :=
  match l with
  | [] => nx a = z /\ pv z = a
  | x :: l' => nx a = x /\ pv x = a /\ seg nx pv x l' z
  end.

Lemma seg_app nx pv a l1 x l2 z :
  seg nx pv a (l1 ++ x :: l2) z <-> seg nx pv a l1 x /\ seg nx pv x l2 z.
Proof.
  revert a. induction l1 as [|y l1 IH]; intros a; simpl; [tauto|]. rewrite IH. tauto.
Qed.

Lemma seg_ext nx pv nx' pv' a l z :
  (forall x, x ∈ a :: l -> nx' x = nx x) -> (forall x, x ∈ l \/ x = z -> pv' x = pv x) ->
  seg nx pv a l z -> seg nx' pv' a l z.
Proof.
  revert a. induction l as [|x l IH]; intros a Hn Hp; simpl.
  - intros [H1 H2]. rewrite Hn by left. rewrite Hp by auto. done.
  - intros (<- & Hpx & Hs). rewrite Hn by left. rewrite Hp by (left; left). split; [done|].
    split; [done|]. apply IH; [|intros y Hy|done].
    + intros y Hy. apply Hn. now right.
    + apply Hp. rewrite elem_of_cons. tauto.
Qed.

Lemma seg_last nx pv a l z : seg nx pv a l z -> pv z ∈ a :: l.
Proof.
  revert a. induction l as [|x l IH]; intros a; simpl.
  - intros [_ ->]. left.
  - intros (_ & _ & Hs). right. now apply IH.
Qed.

Lemma seg_first nx pv a l z : seg nx pv a l z -> nx a ∈ l \/ nx a = z.
Proof. destruct l; simpl; [tauto|]. intros (-> & _). left. left. Qed.

Lemma seg_unlink nx pv a l1 b l2 z :
  seg nx pv a (l1 ++ b :: l2) z -> NoDup (a :: l1 ++ b :: l2) -> z ∉ l1 ++ b :: l2 ->
  seg (<[pv b := nx b]> nx) (<[nx b := pv b]> pv) a (l1 ++ l2) z.
Proof.
  revert a. induction l1 as [|c l1 IH]; intros a Hs Hnd Hz.
  - destruct Hs as (Ha & Hb & Hs). apply NoDup_cons in Hnd as [Ha2 Hnd].
    apply NoDup_cons in Hnd as [Hb2 Hnd]. rewrite Hb. destruct l2 as [|d l2].
    + destruct Hs as [-> _]. simpl. now rewrite !fn_lookup_insert.
    + destruct Hs as (-> & Hd & Hs). simpl. rewrite !fn_lookup_insert. split; [done|]. split; [done|].
      apply NoDup_cons in Hnd as [Hd2 Hnd]. eapply seg_ext; [| |exact Hs].
      * intros x Hx. apply fn_lookup_insert_ne. set_solver.
      * intros x Hx. apply fn_lookup_insert_ne. set_solver.
  - destruct Hs as (Ha & Hc & Hs). apply NoDup_cons in Hnd as [Ha2 Hnd].
    pose proof (proj1 (seg_app _ _ _ _ _ _ _) Hs) as [Hs1 Hs2].
    pose proof (seg_last _ _ _ _ _ Hs1) as Hl. pose proof (seg_first _ _ _ _ _ Hs2) as Hf.
    pose proof (proj1 (NoDup_cons _ _) Hnd) as [Hc2 _].
    simpl. split; [|split].
    + rewrite fn_lookup_insert_ne; [done|]. intros He. apply Ha2. rewrite <- He in *.
      simpl. set_solver.
    + rewrite fn_lookup_insert_ne; [done|]. intros He. rewrite He in Hf. set_solver.
    + apply IH; [done|done|set_solver].
Qed.

Lemma seg_push nx pv h l b :
  seg nx pv h l h -> NoDup (h :: l) -> b ∉ h :: l ->
  seg (<[h := b]> (<[b := nx h]> nx)) (<[nx h := b]> (<[b := h]> pv)) h (b :: l) h.
Proof.
  intros Hs Hnd Hb. apply NoDup_cons in Hnd as [Hh Hnd].
  pose proof (seg_first _ _ _ _ _ Hs) as Hf.
  assert (Hbh : b <> h) by set_solver. assert (Hbn : nx h <> b) by set_solver.
  cbn [seg]. rewrite fn_lookup_insert. split; [done|]. rewrite fn_lookup_insert_ne, fn_lookup_insert by done.
  split; [done|]. destruct l as [|x l]; destruct Hs as [Hx Hs].
  - simpl. rewrite fn_lookup_insert_ne, !fn_lookup_insert by done. rewrite Hx.
    now rewrite fn_lookup_insert.
  - destruct Hs as [Hpx Hs]. apply NoDup_cons in Hnd as [Hxl Hnd]. simpl.
    rewrite fn_lookup_insert_ne, fn_lookup_insert by done. split; [done|]. rewrite Hx.
    rewrite fn_lookup_insert. split; [done|]. eapply seg_ext; [| |exact Hs].
    + intros y Hy. rewrite !fn_lookup_insert_ne by set_solver. done.
    + intros y Hy. rewrite !fn_lookup_insert_ne by set_solver. done.
Qed.
End Seg.

Definition nxt (m : gmap Z buf) (i : Z) : Z := match m !! i with Some b => b_next b | None => -1 end.
Definition prv (m : gmap Z buf) (i : Z) : Z := match m !! i with Some b => b_prev b | None => -1 end.

(** ** The cache as a map from block numbers *)

(** What the cache holds of the blocks of one device: the contents a reader
    sees, the reference count, the process that has the buffer locked; the
    contents of the disk and the writes it received. *)
Record babs := Babs {
  ab_view : Z -> block;
  ab_ref : Z -> Z;
  ab_holder : Z -> option Z;
  ab_disk : Z -> block;
  ab_hist : list (Z * block)
}.

Definition holder (b : buf) : option Z :=
  if sl_locked (b_lock b) then Some (sl_pid (b_lock b)) else None.

Definition slot (s : bst) (i : Z) (b : buf) : Prop := 0 <= i < NBUF /\ bufs s !! i = Some b.

Definition slot_ok (D : Z) (a : babs) (b : buf) : Prop :=
  unlocked (sl_lk (b_lock b)) /\ 0 <= b_refcnt b < 2 ^ 32 /\
  (b_dev b = D /\ b_refcnt b = ab_ref a (b_blockno b) /\ holder b = ab_holder a (b_blockno b) /\
     (if b_valid b then b_data b = ab_view a (b_blockno b)
      else ab_view a (b_blockno b) = ab_disk a (b_blockno b)) \/
   b_dev b <> D /\ b_refcnt b = 0 /\ holder b = None).

(** The invariant: list, locks, and the abstract state the cache represents.
    A buffer nobody refers to is clean. *)
Record bio_rep (D : Z) (s : bst) (a : babs) : Prop := {
  br_lock : unlocked (bc_lock (bs_cache s));
  br_dom : forall i, is_Some (bufs s !! i) <-> 0 <= i <= NBUF;
  br_list : exists ord, NoDup (HEAD :: ord) /\ (forall i, i ∈ ord <-> 0 <= i < NBUF) /\
    seg (nxt (bufs s)) (prv (bufs s)) HEAD ord HEAD;
  br_slot : forall i b, slot s i b -> slot_ok D a b;
  br_uniq : forall i j b c, slot s i b -> slot s j c -> b_dev b = D -> b_dev c = D ->
    b_blockno b = b_blockno c -> i = j;
  br_absent : forall bn, (forall i b, slot s i b -> b_dev b = D -> b_blockno b <> bn) ->
    ab_ref a bn = 0;
  br_clean : forall bn, ab_ref a bn = 0 -> ab_holder a bn = None /\ ab_view a bn = ab_disk a bn;
  br_disk : forall bn, ab_disk a bn = dread (bs_disk s) bn;
  br_hist : ab_hist a = d_hist (bs_disk s)
}.

(** Abstract states with the same blocks are interchangeable. *)
#[global] Instance babs_equiv : Equiv babs := fun a a' =>
  (forall bn, ab_view a bn = ab_view a' bn /\ ab_ref a bn = ab_ref a' bn /\
     ab_holder a bn = ab_holder a' bn /\ ab_disk a bn = ab_disk a' bn) /\ ab_hist a = ab_hist a'.
#[global] Instance babs_equivalence : Equivalence (≡@{babs}).
Proof.
  split.
  - by intros a.
  - intros a a' [H1 H2]. split; [|done]. intros bn. now destruct (H1 bn) as (-> & -> & -> & ->).
  - intros a b c [H1 H2] [H3 H4]. split; [|congruence]. intros bn.
    destruct (H1 bn) as (-> & -> & -> & ->). apply H3.
Qed.

Lemma slot_ok_equiv D a a' b : a ≡ a' -> slot_ok D a b -> slot_ok D a' b.
Proof.
  intros [Ha _] (H1 & H2 & H3). split; [done|]. split; [done|].
  destruct H3 as [(Ed & Er & Eh & Ev)|?]; [left|by right].
  destruct (Ha (b_blockno b)) as (-> & -> & -> & ->) in Er, Eh, Ev. done.
Qed.

#[global] Instance bio_rep_proper D s : Proper ((≡) ==> iff) (bio_rep D s).
Proof.
  assert (Himp : forall a a', a ≡ a' -> bio_rep D s a -> bio_rep D s a').
  { intros a a' He [R1 R2 R3 R4 R5 R6 R7 R8 R9]. pose proof He as [Ha Hh]. split; try done.
    - intros i b Hb. eapply slot_ok_equiv; eauto.
    - intros bn Hno. destruct (Ha bn) as (_ & <- & _). auto.
    - intros bn. destruct (Ha bn) as (<- & <- & <- & <-). auto.
    - intros bn. destruct (Ha bn) as (_ & _ & _ & <-). auto.
    - congruence. }
  intros a a' He. split; [by apply Himp|]. apply Himp. by symmetry.
Qed.

(** [b] is the buffer of block [bn]. *)
Definition buf_of (D : Z) (s : bst) (i bn : Z) : Prop :=
  exists b, slot s i b /\ b_dev b = D /\ b_blockno b = bn /\ b_valid b = true.

Section Steps.
Context `{HC : Ctx}.

Lemma getb_Done i b s : bufs s !! i = Some b -> getb i s = Done b s.
Proof. unfold getb. now intros ->. Qed.
Lemma updb_Done i f b s : bufs s !! i = Some b -> updb i f s = Done tt (put i (f b) s).
Proof. unfold updb. now intros ->. Qed.
Lemma on_lock_Done {A} i (m : M sleeplock A) b s a l :
  bufs s !! i = Some b -> m (b_lock b) = Done a l ->
  on_lock i m s = Done a (put i (set_lock l b) s).
Proof. unfold on_lock, lift. intros ->. simpl. now intros ->. Qed.
Lemma on_lock_Sleep {A} i (m : M sleeplock A) b s c l :
  bufs s !! i = Some b -> m (b_lock b) = Sleep c l ->
  on_lock i m s = Sleep c (put i (set_lock l b) s).
Proof. unfold on_lock, lift. intros ->. simpl. now intros ->. Qed.

Lemma bufs_put i b s : bufs (put i b s) = <[i := b]> (bufs s).
Proof. reflexivity. Qed.
Lemma put_put i b b' s : put i b (put i b' s) = put i b s.
Proof. unfold put, bufs. cbn. now rewrite insert_insert_eq. Qed.
Lemma put_same i b s : bufs s !! i = Some b -> put i b s = s.
Proof.
  intros H. unfold put. rewrite insert_id by done. now destruct s as [[? ?] ?].
Qed.

(** Taking the cache lock around a change of one buffer. *)
Definition bc_held (s : bst) : bst := lset bc_lock_lens (held (bc_lock (bs_cache s))) s.

Lemma bc_acquire s : unlocked (bc_lock (bs_cache s)) -> acquire bc_lock_lens s = Done tt (bc_held s).
Proof. intros H. exact (acquire_free bc_lock_lens s (proj1 H)). Qed.

Lemma bc_release s m d :
  unlocked (bc_lock (bs_cache s)) ->
  release bc_lock_lens (Bst (Bcache (held (bc_lock (bs_cache s))) m) d) =
  Done tt (Bst (Bcache (bc_lock (bs_cache s)) m) d).
Proof. intros H. now erewrite (release_held bc_lock_lens) by done. Qed.

(** ** Searching the list *)

Lemma bget_cached_spec fuel s a l dev bn :
  seg (nxt (bufs s)) (prv (bufs s)) a l HEAD -> HEAD ∉ l -> (length l < fuel)%nat ->
  (forall i, i ∈ l -> is_Some (bufs s !! i)) ->
  exists r, bget_cached fuel (nxt (bufs s) a) dev bn s = Done r s /\
    match r with
    | Some i => i ∈ l /\ exists b, bufs s !! i = Some b /\ b_dev b = dev /\ b_blockno b = bn
    | None => forall i b, i ∈ l -> bufs s !! i = Some b -> ~ (b_dev b = dev /\ b_blockno b = bn)
    end.
Proof.
  revert a fuel. induction l as [|x l IH]; intros a fuel Hs Hh Hf Hd; (destruct fuel as [|fuel]; [simpl in Hf; lia|]).
  - destruct Hs as [-> _]. exists None. split; [reflexivity|].
    intros i b Hi. now apply elem_of_nil in Hi.
  - destruct Hs as (-> & _ & Hs). destruct (Hd x) as [b Hb]; [left|].
    cbn [bget_cached]. destruct (Z.eqb_spec x HEAD) as [->|_]; [exfalso; apply Hh; left|].
    rewrite (bind_Done _ _ _ _ _ (getb_Done x b s Hb)).
    destruct (Z.eqb_spec (b_dev b) dev) as [Ed|Ed]; [destruct (Z.eqb_spec (b_blockno b) bn) as [En|En]|]; cbn [andb].
    1: { exists (Some x). split; [done|]. split; [left|eauto]. }
    all: destruct (IH x fuel) as (r & Hr & Hres); [done|set_solver|simpl in Hf; lia|set_solver|];
      unfold nxt in Hr at 1; rewrite Hb in Hr; exists r; split; [done|]; destruct r as [i|];
      [destruct Hres; split; [now right|done]|];
      intros i c [->|Hi]%elem_of_cons Hc; [rewrite Hb in Hc; injection Hc as <-; tauto|eauto].
Qed.

Lemma bget_lru_spec fuel s l z :
  seg (nxt (bufs s)) (prv (bufs s)) HEAD l z -> HEAD ∉ l -> (length l < fuel)%nat ->
  (forall i, i ∈ l -> is_Some (bufs s !! i)) ->
  exists r, bget_lru fuel (prv (bufs s) z) s = Done r s /\
    match r with
    | Some i => i ∈ l /\ exists b, bufs s !! i = Some b /\ b_refcnt b = 0
    | None => forall i b, i ∈ l -> bufs s !! i = Some b -> b_refcnt b <> 0
    end.
Proof.
  revert z fuel. induction l as [|x l IH] using rev_ind; intros z fuel Hs Hh Hf Hd;
    (destruct fuel as [|fuel]; [simpl in Hf; lia|]).
  - destruct Hs as [_ ->]. exists None. split; [reflexivity|].
    intros i b Hi. now apply elem_of_nil in Hi.
  - apply seg_app in Hs as [Hs [_ ->]]. destruct (Hd x) as [b Hb]; [set_solver|].
    rewrite length_app in Hf. simpl in Hf.
    cbn [bget_lru]. destruct (Z.eqb_spec x HEAD) as [->|_]; [exfalso; set_solver|].
    rewrite (bind_Done _ _ _ _ _ (getb_Done x b s Hb)).
    destruct (Z.eqb_spec (b_refcnt b) 0) as [Er|Er].
    + exists (Some x). split; [done|]. split; [set_solver|eauto].
    + destruct (IH x fuel) as (r & Hr & Hres); [done|set_solver|lia|set_solver|].
      unfold prv in Hr at 1. rewrite Hb in Hr. exists r. split; [done|]. destruct r as [i|].
      * destruct Hres. split; [set_solver|done].
      * intros i c [Hi|Hi%list_elem_of_singleton]%elem_of_app Hc; [eauto|]. congruence.
Qed.

(** ** Changing one buffer of the represented state *)

Section Rep.
Context (D : Z) (s : bst) (a : babs) (Hrep : bio_rep D s a).

Lemma rep_slot i : 0 <= i < NBUF -> exists b, slot s i b.
Proof. intros Hi. destruct (proj2 (br_dom _ _ _ Hrep i)) as [b Hb]; [lia|]. by exists b. Qed.

Lemma slot_put i b j c :
  0 <= i < NBUF -> slot (put i b s) j c <-> (j = i /\ c = b) \/ (j <> i /\ slot s j c).
Proof.
  intros Hi. unfold slot. rewrite bufs_put, lookup_insert_Some. naive_solver.
Qed.

Lemma links_put i b b' :
  bufs s !! i = Some b -> b_prev b' = b_prev b -> b_next b' = b_next b ->
  forall j, nxt (bufs (put i b' s)) j = nxt (bufs s) j /\ prv (bufs (put i b' s)) j = prv (bufs s) j.
Proof.
  intros Hb Hp Hn j. unfold nxt, prv. rewrite bufs_put. destruct (decide (i = j)) as [<-|Hne].
  - rewrite lookup_insert_eq, Hb. done.
  - now rewrite lookup_insert_ne.
Qed.

Lemma list_put i b b' :
  0 <= i < NBUF -> bufs s !! i = Some b -> b_prev b' = b_prev b -> b_next b' = b_next b ->
  (forall j, is_Some (bufs (put i b' s) !! j) <-> 0 <= j <= NBUF) /\
  exists ord, NoDup (HEAD :: ord) /\ (forall j, j ∈ ord <-> 0 <= j < NBUF) /\
    seg (nxt (bufs (put i b' s))) (prv (bufs (put i b' s))) HEAD ord HEAD.
Proof.
  intros Hi Hb Hp Hn. split.
  - intros j. rewrite <- (br_dom _ _ _ Hrep j), bufs_put, lookup_insert_is_Some.
    destruct (decide (i = j)) as [<-|]; [rewrite Hb; naive_solver|]. naive_solver.
  - destruct (br_list _ _ _ Hrep) as (ord & Hnd & Hin & Hs). exists ord. conjs; try done.
    eapply seg_ext; [| |exact Hs]; intros x _; apply (links_put i b b'); done.
Qed.

Definition same_elsewhere (a' : babs) (bn : Z) : Prop := forall bn', bn' <> bn ->
  ab_view a' bn' = ab_view a bn' /\ ab_ref a' bn' = ab_ref a bn' /\
  ab_holder a' bn' = ab_holder a bn'.
Definition same_disk (a' : babs) : Prop :=
  (forall bn, ab_disk a' bn = ab_disk a bn) /\ ab_hist a' = ab_hist a.
Definition clean_at (a' : babs) (bn : Z) : Prop :=
  ab_ref a' bn = 0 -> ab_holder a' bn = None /\ ab_view a' bn = ab_disk a' bn.

Lemma slot_ok_else a' bn b :
  same_elsewhere a' bn -> same_disk a' -> b_dev b <> D \/ b_blockno b <> bn ->
  slot_ok D a b -> slot_ok D a' b.
Proof.
  intros He [Hd _] Hor (H1 & H2 & H3). split; [done|]. split; [done|].
  destruct H3 as [(Ed & Er & Eh & Ev)|?]; [left|by right].
  destruct (He (b_blockno b)) as (-> & -> & ->); [tauto|]. rewrite Hd. done.
Qed.

(** Buffer [i] gets the contents [b'], which holds block [bn]: it held it
    already, or nobody held it and [i] was not in use. *)
Lemma rep_put i b b' a' bn :
  slot s i b -> b_prev b' = b_prev b -> b_next b' = b_next b ->
  b_dev b' = D -> b_blockno b' = bn -> slot_ok D a' b' ->
  (b_dev b = D /\ b_blockno b = bn \/
   b_refcnt b = 0 /\ forall j c, slot s j c -> b_dev c = D -> b_blockno c <> bn) ->
  same_elsewhere a' bn -> same_disk a' -> clean_at a' bn -> bio_rep D (put i b' s) a'.
Proof.
  intros [Hi Hb] Hp Hn Hd Hbn Hok Hor He Hdk Hcl. destruct (list_put i b b' Hi Hb Hp Hn) as [Hdom Hls].
  destruct Hrep as [R1 R2 R3 R4 R5 R6 R7 R8 R9].
  assert (Huniq : forall j c, j <> i -> slot s j c -> b_dev c = D -> b_blockno c <> bn).
  { intros j c Hj Hc Hcd Hcn. destruct Hor as [[Ed En]|[_ Hno]]; [|by eapply Hno].
    apply Hj. apply (R5 j i c b); [done|by split|done|done|congruence]. }
  split; try done.
  - intros j c [[-> ->]|[Hj Hc]]%slot_put; [done| |done]. eapply slot_ok_else; eauto.
    destruct (decide (b_dev c = D)); [right; eauto|by left].
  - intros j k c e [[-> ->]|[Hj Hc]]%slot_put [[-> ->]|[Hk Hk2]]%slot_put; try done; intros Hcd Hed Hbe.
    + exfalso. eapply Huniq; eauto. congruence.
    + exfalso. eapply Huniq; eauto. congruence.
    + by eapply R5.
  - intros bn' Hno. destruct (decide (bn' = bn)) as [->|Hne].
    { exfalso. apply (Hno i b'); [|done|done]. apply slot_put; [done|]. by left. }
    destruct (He bn' Hne) as (_ & -> & _).
    destruct (decide (b_dev b = D /\ b_blockno b = bn')) as [[E1 E2]|E].
    + destruct Hor as [[_ ?]|[Hr _]]; [congruence|].
      destruct (R4 i b ltac:(by split)) as (_ & _ & [(_ & Er & _)|[? _]]); [|congruence].
      rewrite <- E2, <- Er. done.
    + apply R6. intros j c Hc Hcd Hcn. destruct (decide (j = i)) as [->|Hj].
      * apply E. destruct Hc as [_ Hc]. rewrite Hb in Hc. injection Hc as <-. done.
      * apply (Hno j c); try done. apply slot_put; [done|]. by right.
  - intros bn'. destruct (decide (bn' = bn)) as [->|Hne]; [done|].
    destruct (He bn' Hne) as (-> & -> & ->). rewrite (proj1 Hdk). apply R7.
  - intros bn'. rewrite (proj1 Hdk). apply R8.
  - rewrite (proj2 Hdk). apply R9.
Qed.
End Rep.

(** ** [bread] *)

(** Fewer blocks than buffers are in use. *)
Definition room (a : babs) : Prop := exists L : list Z,
  Z.of_nat (length L) < NBUF /\ forall bn, ab_ref a bn <> 0 -> bn ∈ L.

Lemma free_slot D s a : bio_rep D s a -> room a -> exists i b, slot s i b /\ b_refcnt b = 0.
Proof.
  intros Hrep (L & HL & Hin).
  destruct (decide (Exists (fun i => b_refcnt <$> bufs s !! i = Some 0) (upto NBUF))) as [He|Hne].
  - apply Exists_exists in He as (i & Hi & (b & Hb & Hx)%fmap_Some). apply elem_upto in Hi.
    by exists i, b.
  - exfalso. set (f := fun i => match bufs s !! i with Some b => b_blockno b | None => 0 end).
    assert (Hall : forall i, i ∈ upto NBUF -> exists b, slot s i b /\ b_dev b = D /\
                     ab_ref a (b_blockno b) <> 0 /\ f i = b_blockno b).
    { intros i Hi. pose proof Hi as Hi2. apply elem_upto in Hi2.
      destruct (rep_slot D s a Hrep i Hi2) as [b [_ Hb]].
      assert (Hr : b_refcnt b <> 0).
      { intros Hr. apply Hne, Exists_exists. exists i. split; [done|]. rewrite Hb. simpl. now rewrite Hr. }
      destruct (br_slot _ _ _ Hrep i b ltac:(by split)) as (_ & _ & [(Ed & Er & _)|(_ & Er & _)]); [|done].
      exists b. unfold f. rewrite Hb. conjs; done || congruence. }
    assert (Hnd : NoDup (f <$> upto NBUF)).
    { apply NoDup_fmap_2_strong; [|apply NoDup_upto].
      intros i j Hi Hj Hf. destruct (Hall i Hi) as (b & Hb & Ed & _ & Fi).
      destruct (Hall j Hj) as (c & Hc & Ec & _ & Fj).
      apply (br_uniq _ _ _ Hrep i j b c); done || congruence. }
    assert (Hsub : f <$> upto NBUF ⊆+ L).
    { apply NoDup_submseteq; [done|]. intros bn (i & -> & Hi)%list_elem_of_fmap.
      destruct (Hall i Hi) as (b & _ & _ & Hr & ->). auto. }
    apply submseteq_length in Hsub. rewrite length_fmap in Hsub. unfold upto in Hsub.
    rewrite length_fmap, length_seq in Hsub. lia.
Qed.

Definition take_lock (b : buf) : buf :=
  set_lock (Sleeplock true (sl_lk (b_lock b)) (sl_name (b_lock b)) mypid) b.
(** The buffer after [bread]'s check of [b->valid]. *)
Definition fetched (s : bst) (b : buf) : buf :=
  if b_valid b then b else set_valid true (set_data (dread (bs_disk s) (b_blockno b)) b).

Lemma fetched_id s b : b_prev (fetched s b) = b_prev b /\ b_next (fetched s b) = b_next b /\
  b_dev (fetched s b) = b_dev b /\ b_blockno (fetched s b) = b_blockno b /\
  b_valid (fetched s b) = true.
Proof. unfold fetched. destruct (b_valid b) eqn:E; cbn; auto. Qed.

Lemma fetch_eq s i b :
  (p <-! getb i ;;
   when (negb (b_valid p)) (disk_rw i false ;;; updb i (set_valid true)) ;;;
   ret i) (put i b s) = Done i (put i (fetched s b) s).
Proof.
  assert (Hb : bufs (put i b s) !! i = Some b) by (rewrite bufs_put; apply lookup_insert_eq).
  rewrite (bind_Done _ _ _ _ _ (getb_Done i b _ Hb)). unfold fetched.
  destruct (b_valid b); [done|]. cbn [negb when]. unfold disk_rw. rewrite !bind_assoc.
  rewrite (bind_Done _ _ _ _ _ (getb_Done i b _ Hb)). rewrite bind_assoc.
  rewrite (bind_Done (gets _) _ _ _ _ eq_refl). rewrite (bind_Done _ _ _ _ _ (updb_Done i _ b _ Hb)).
  rewrite put_put. erewrite (bind_Done (updb _ _)).
  2: { apply updb_Done. rewrite bufs_put. apply lookup_insert_eq. }
  now rewrite put_put.
Qed.

Lemma rep_ord D s a : bio_rep D s a -> exists ord,
  HEAD ∉ ord /\ NoDup ord /\ (forall i, i ∈ ord <-> 0 <= i < NBUF) /\ (length ord < list_fuel)%nat /\
  (forall i, i ∈ ord -> is_Some (bufs s !! i)) /\
  seg (nxt (bufs s)) (prv (bufs s)) HEAD ord HEAD.
Proof.
  intros Hrep. destruct (br_list _ _ _ Hrep) as (ord & Hnd & Hin & Hs). exists ord.
  apply NoDup_cons in Hnd as [Hho Hnd]. conjs; try done.
  - assert (Hl : ord ≡ₚ upto NBUF)
      by (apply NoDup_Permutation; [done|apply NoDup_upto|]; intros j; now rewrite elem_upto, Hin).
    rewrite Hl. unfold upto. rewrite length_fmap, length_seq. unfold list_fuel. lia.
  - intros j Hj. apply (br_dom _ _ _ Hrep). apply Hin in Hj. lia.
Qed.

Lemma bread_hit D s a i b bn :
  bio_rep D s a -> slot s i b -> b_dev b = D -> b_blockno b = bn -> holder b = None ->
  unlocked (sl_lk (b_lock b)) ->
  bread D bn s = Done i (put i (fetched s (take_lock (set_refcnt (b_refcnt b + 1) b))) s).
Proof.
  intros Hrep Hsl Hd Hn Hh Hu. destruct (rep_ord D s a Hrep) as (ord & Hho & Hnd & Hin & Hf & Hd2 & Hs).
  pose proof (br_lock _ _ _ Hrep) as Hlk.
  destruct (proj2 (br_dom _ _ _ Hrep HEAD)) as [h Hh2]; [unfold HEAD, NBUF; lia|].
  destruct (bget_cached_spec list_fuel (bc_held s) HEAD ord D bn Hs Hho Hf Hd2) as (r & Hr & Hres).
  unfold bread, bget. rewrite !bind_assoc. rewrite (bind_Done _ _ _ _ _ (bc_acquire s Hlk)).
  rewrite bind_assoc, (bind_Done _ _ _ _ _ (getb_Done HEAD h (bc_held s) Hh2)).
  unfold nxt in Hr at 1. change (bufs (bc_held s)) with (bufs s) in *. rewrite Hh2 in Hr.
  rewrite bind_assoc, (bind_Done _ _ _ _ _ Hr). destruct r as [j|].
  2: { exfalso. destruct Hsl as [Hi Hb]. apply (Hres i b); [by apply Hin|done|done]. }
  destruct Hres as (Hj & c & Hc & Hcd & Hcn).
  assert (Hcs : slot s j c) by (split; [by apply Hin|done]).
  assert (j = i) as -> by (apply (br_uniq _ _ _ Hrep j i c b); done || congruence).
  assert (c = b) as -> by (destruct Hsl; congruence).
  rewrite bind_assoc, (bind_Done _ _ _ _ _ (updb_Done i _ b (bc_held s) Hc)).
  rewrite bind_assoc. erewrite bind_Done by (apply (bc_release s); done).
  rewrite bind_assoc. erewrite bind_Done.
  2: { apply on_lock_Done with (b := set_refcnt (b_refcnt b + 1) b).
       - apply lookup_insert_eq.
       - apply acquiresleep_free; [|done]. unfold holder in Hh. cbn. now destruct (sl_locked (b_lock b)). }
  change (Bst _ _) with (put i (set_refcnt (b_refcnt b + 1) b) s). rewrite put_put.
  apply fetch_eq.
Qed.

Definition recycled (D bn : Z) (b : buf) : buf := set_refcnt 1 (set_valid false (set_id D bn b)).

Lemma bread_miss D s a bn :
  bio_rep D s a -> (forall i b, slot s i b -> b_dev b = D -> b_blockno b <> bn) -> room a ->
  exists i b, slot s i b /\ b_refcnt b = 0 /\
    bread D bn s = Done i (put i (fetched s (take_lock (recycled D bn b))) s).
Proof.
  intros Hrep Hno Hroom. destruct (rep_ord D s a Hrep) as (ord & Hho & Hnd & Hin & Hf & Hd2 & Hs).
  pose proof (br_lock _ _ _ Hrep) as Hlk.
  destruct (proj2 (br_dom _ _ _ Hrep HEAD)) as [h Hh2]; [unfold HEAD, NBUF; lia|].
  destruct (bget_cached_spec list_fuel (bc_held s) HEAD ord D bn Hs Hho Hf Hd2) as (r & Hr & Hres).
  destruct (bget_lru_spec list_fuel (bc_held s) ord HEAD Hs Hho Hf Hd2) as (r2 & Hr2 & Hres2).
  change (bufs (bc_held s)) with (bufs s) in *.
  destruct r as [j|].
  { exfalso. destruct Hres as (Hj & c & Hc & Hcd & Hcn). apply (Hno j c); try done.
    split; [by apply Hin|done]. }
  destruct r2 as [i|].
  2: { exfalso. destruct (free_slot D s a Hrep Hroom) as (i & b & [Hi Hb] & Hz).
       apply (Hres2 i b); [by apply Hin|done|done]. }
  destruct Hres2 as (Hi & b & Hb & Hz). assert (Hsl : slot s i b) by (split; [by apply Hin|done]).
  exists i, b. split; [done|]. split; [done|].
  destruct (br_slot _ _ _ Hrep i b Hsl) as (Hu & _ & Hok).
  assert (Hh : holder b = None).
  { destruct Hok as [(_ & Er & -> & _)|(_ & _ & Hh)]; [|done].
    apply (br_clean _ _ _ Hrep). congruence. }
  unfold bread, bget. rewrite !bind_assoc, (bind_Done _ _ _ _ _ (bc_acquire s Hlk)).
  rewrite bind_assoc, (bind_Done _ _ _ _ _ (getb_Done HEAD h (bc_held s) Hh2)).
  unfold nxt in Hr at 1. unfold prv in Hr2 at 1. rewrite Hh2 in Hr, Hr2.
  rewrite bind_assoc, (bind_Done _ _ _ _ _ Hr), bind_assoc.
  rewrite (bind_Done _ _ _ _ _ (getb_Done HEAD h (bc_held s) Hh2)), bind_assoc, (bind_Done _ _ _ _ _ Hr2).
  rewrite bind_assoc, (bind_Done _ _ _ _ _ (updb_Done i _ b (bc_held s) Hb)).
  rewrite bind_assoc. erewrite bind_Done by (apply updb_Done, lookup_insert_eq). rewrite put_put.
  rewrite bind_assoc. erewrite bind_Done by (apply updb_Done, lookup_insert_eq). rewrite put_put.
  rewrite bind_assoc. erewrite bind_Done by (apply (bc_release s); done).
  rewrite bind_assoc. erewrite bind_Done.
  2: { apply on_lock_Done with (b := recycled D bn b); [apply lookup_insert_eq|].
       apply acquiresleep_free; [|done]. unfold holder in Hh. cbn. now destruct (sl_locked (b_lock b)). }
  change (Bst _ _) with (put i (recycled D bn b) s). rewrite put_put. apply fetch_eq.
Qed.

(** The abstract effect of [bread]: one more reference, held by the caller. *)
Definition ab_bread (bn : Z) (a : babs) : babs :=
  Babs (ab_view a) (<[bn := ab_ref a bn + 1]> (ab_ref a)) (<[bn := Some mypid]> (ab_holder a))
    (ab_disk a) (ab_hist a).

Lemma ab_bread_else a bn : same_elsewhere a (ab_bread bn a) bn /\ same_disk a (ab_bread bn a).
Proof.
  split; [|done]. intros bn' Hne. cbn. now rewrite !fn_lookup_insert_ne by done.
Qed.

(** A buffer in use stays where it is. *)
Definition keeps (D : Z) (s s' : bst) (a : babs) : Prop :=
  forall j bn, buf_of D s j bn -> ab_ref a bn <> 0 -> buf_of D s' j bn.

Lemma keeps_put D s a i b b' :
  bio_rep D s a -> slot s i b ->
  (b_refcnt b = 0 \/ b_dev b' = b_dev b /\ b_blockno b' = b_blockno b /\ b_valid b' = true) ->
  keeps D s (put i b' s) a.
Proof.
  intros Hrep [Hi Hb] Hor j bn (c & Hc & Hd & Hn & Hv) Hr. destruct (decide (j = i)) as [->|Hne].
  - assert (c = b) as -> by (destruct Hc; congruence).
    destruct Hor as [Hz|(E1 & E2 & E3)].
    + destruct (br_slot _ _ _ Hrep i b Hc) as (_ & _ & [(_ & Er & _)|[? _]]); congruence.
    + exists b'. conjs; try congruence. apply slot_put; [done|]. by left.
  - exists c. conjs; try done. apply slot_put; [done|]. by right.
Qed.

Lemma fetched_ok D s a b bn :
  bio_rep D s a -> b_dev b = D -> b_blockno b = bn -> unlocked (sl_lk (b_lock b)) ->
  0 <= ab_ref a bn -> ab_ref a bn + 1 < 2 ^ 32 -> b_refcnt b = ab_ref a bn + 1 ->
  (if b_valid b then b_data b = ab_view a bn else ab_view a bn = ab_disk a bn) ->
  slot_ok D (ab_bread bn a) (fetched s (take_lock b)).
Proof.
  intros Hrep Hd Hn Hu H0 Hr Hr2 Hv. unfold slot_ok, fetched.
  assert (Hdk := br_disk _ _ _ Hrep bn).
  revert Hv. destruct (b_valid b) eqn:Ev; intros Hv; cbn; rewrite ?Ev; cbn; rewrite Hn, Hr2, !fn_lookup_insert;
    (split; [done|]); (split; [lia|]); left; conjs; try done; rewrite ?Ev; congruence.
Qed.

(** The contract of [bread]. *)
Lemma bread_spec D s a bn :
  bio_rep D s a -> ab_holder a bn = None -> ab_ref a bn + 1 < 2 ^ 32 ->
  ab_ref a bn <> 0 \/ room a ->
  exists i s', bread D bn s = Done i s' /\ bio_rep D s' (ab_bread bn a) /\
    buf_of D s' i bn /\ keeps D s s' a.
Proof.
  intros Hrep Hh Hr Hor. destruct (ab_bread_else a bn) as [He Hdk].
  assert (Hcl : 0 <= ab_ref a bn -> clean_at (ab_bread bn a) bn).
  { intros H0. unfold clean_at. cbn. rewrite fn_lookup_insert. lia. }
  destruct (decide (Exists (fun i => (fun b => (b_dev b, b_blockno b)) <$> bufs s !! i = Some (D, bn))
    (upto NBUF))) as [Hx|Hx].
  - apply Exists_exists in Hx as (i & Hi%elem_upto & (b & Hb & Heq)%fmap_Some). simplify_eq/=.
    assert (Hsl : slot s i b) by done.
    destruct (br_slot _ _ _ Hrep i b Hsl) as (Hu & Hrg & [(_ & Er & Eh & Ev)|[? _]]); [|done].
    eexists i, _. split; [apply (bread_hit (b_dev b) s a i b); done || congruence|].
    assert (Hok : slot_ok (b_dev b) (ab_bread (b_blockno b) a)
      (fetched s (take_lock (set_refcnt (b_refcnt b + 1) b)))).
    { apply fetched_ok; try done; [lia|cbn; rewrite u32_small; lia]. }
    destruct (fetched_id s (take_lock (set_refcnt (b_refcnt b + 1) b))) as (F1 & F2 & F3 & F4 & F5).
    split; [|split].
    + apply (rep_put (b_dev b) s a Hrep i b _ _ (b_blockno b) Hsl F1 F2 F3 F4 Hok); auto.
      apply Hcl. lia.
    + eexists. split; [apply slot_put; [done|]; by left|]. done.
    + apply (keeps_put _ _ _ i b _ Hrep Hsl). right. done.
  - assert (Hno : forall i b, slot s i b -> b_dev b = D -> b_blockno b <> bn).
    { intros i b [Hi Hb] Hd Hn. apply Hx, Exists_exists. exists i. rewrite elem_upto. split; [done|].
      rewrite Hb. cbn. now subst. }
    pose proof (br_absent _ _ _ Hrep bn Hno) as Hz.
    destruct (bread_miss D s a bn Hrep Hno) as (i & b & Hsl & Hbz & Hrun); [tauto|].
    eexists i, _. split; [exact Hrun|].
    assert (Hok : slot_ok D (ab_bread bn a) (fetched s (take_lock (recycled D bn b)))).
    { apply fetched_ok; try done; [apply (br_slot _ _ _ Hrep i b Hsl)|lia|cbn; rewrite Hz, u32_small; lia|].
      cbn. now apply (br_clean _ _ _ Hrep). }
    split; [|split].
    + apply (rep_put D s a Hrep i b _ _ bn Hsl); auto. apply Hcl. lia.
    + eexists. split; [apply slot_put; [apply Hsl|]; by left|]. done.
    + apply (keeps_put _ _ _ i b _ Hrep Hsl). by left.
Qed.

(** ** [bwrite] and changes of the data *)

Lemma holding_eq D s a i b :
  bio_rep D s a -> slot s i b -> on_lock i holdingsleep s = Done (bool_decide (holder b = Some mypid)) s.
Proof.
  intros Hrep Hsl. destruct (br_slot _ _ _ Hrep i b Hsl) as (Hu & _). destruct Hsl as [Hi Hb].
  rewrite (on_lock_Done i holdingsleep b s _ _ Hb (holdingsleep_spec _ Hu)). f_equal.
  - unfold holder. destruct (sl_locked (b_lock b)); cbn [andb]; case_bool_decide; try done;
      destruct (Z.eqb_spec (sl_pid (b_lock b)) mypid); congruence.
  - apply put_same. rewrite Hb. now destruct b.
Qed.

Lemma holding_ok D s a i bn :
  bio_rep D s a -> buf_of D s i bn -> ab_holder a bn = Some mypid -> on_lock i holdingsleep s = Done true s.
Proof.
  intros Hrep (b & Hsl & Hd & Hn & _) Hh. rewrite (holding_eq D s a i b Hrep Hsl).
  destruct (br_slot _ _ _ Hrep i b Hsl) as (_ & _ & [(_ & _ & -> & _)|[? _]]); [|done].
  rewrite Hn, Hh. now rewrite bool_decide_true.
Qed.

Definition ab_bwrite (bn : Z) (a : babs) : babs :=
  Babs (ab_view a) (ab_ref a) (ab_holder a) (<[bn := ab_view a bn]> (ab_disk a))
    (ab_hist a ++ [(bn, ab_view a bn)]).

Lemma dread_dwrite bn v d bn' : dread (dwrite bn v d) bn' = <[bn := v]> (dread d) bn'.
Proof.
  unfold dread, dwrite. simpl. destruct (decide (bn = bn')) as [<-|Hne].
  - now rewrite lookup_insert_eq, fn_lookup_insert.
  - now rewrite lookup_insert_ne, fn_lookup_insert_ne by done.
Qed.

Lemma bwrite_spec D s a i bn :
  bio_rep D s a -> buf_of D s i bn -> ab_holder a bn = Some mypid ->
  exists s', bwrite i s = Done tt s' /\ bio_rep D s' (ab_bwrite bn a) /\ bufs s' = bufs s.
Proof.
  intros Hrep Hbo Hh. unfold bwrite. rewrite (bind_Done _ _ _ _ _ (holding_ok _ _ _ _ _ Hrep Hbo Hh)).
  rewrite (bind_Done (panic_if false _) _ s tt s eq_refl). unfold disk_rw.
  destruct Hbo as (b & Hsl & Hd & Hn & Hv). pose proof (proj2 Hsl) as Hb.
  rewrite (bind_Done _ _ _ _ _ (getb_Done i b s Hb)). eexists. split; [reflexivity|]. split; [|done].
  destruct (br_slot _ _ _ Hrep i b Hsl) as (_ & _ & [(_ & _ & _ & Ev)|[? _]]); [|done].
  rewrite Hv, Hn in Ev. destruct Hrep as [R1 R2 R3 R4 R5 R6 R7 R8 R9]. split; try done.
  - intros j c Hc. destruct (R4 j c Hc) as (H1 & H2 & H3). split; [done|]. split; [done|].
    destruct H3 as [(Ed & Er & Eh & Ecv)|?]; [left|by right]. conjs; try done.
    destruct (b_valid c) eqn:Ecv'; [done|]. cbn. destruct (decide (b_blockno c = bn)) as [->|Hne].
    + now rewrite fn_lookup_insert.
    + now rewrite fn_lookup_insert_ne.
  - intros bn' Hr. destruct (R7 bn' Hr) as [H1 H2]. split; [done|]. cbn.
    destruct (decide (bn' = bn)) as [->|Hne]; [now rewrite fn_lookup_insert|].
    now rewrite fn_lookup_insert_ne.
  - intros bn'. cbn. rewrite dread_dwrite, Hn, Ev. destruct (decide (bn = bn')) as [<-|Hne].
    + now rewrite !fn_lookup_insert.
    + now rewrite !fn_lookup_insert_ne.
  - cbn. rewrite R9, Hn, Ev. done.
Qed.

Definition ab_set (bn : Z) (v : block) (a : babs) : babs :=
  Babs (<[bn := v]> (ab_view a)) (ab_ref a) (ab_holder a) (ab_disk a) (ab_hist a).

(** [memmove(b->data, ...)] *)
Lemma set_data_spec D s a i bn v :
  bio_rep D s a -> buf_of D s i bn -> ab_ref a bn <> 0 ->
  exists s', updb i (set_data v) s = Done tt s' /\ bio_rep D s' (ab_set bn v a) /\
    forall j bn', buf_of D s j bn' -> buf_of D s' j bn'.
Proof.
  intros Hrep (b & Hsl & Hd & Hn & Hv) Hr. pose proof (proj2 Hsl) as Hb.
  eexists. split; [apply (updb_Done i _ b s Hb)|].
  destruct (br_slot _ _ _ Hrep i b Hsl) as (H1 & H2 & [(_ & Er & Eh & Ev)|[? _]]); [|done].
  split.
  - apply (rep_put D s a Hrep i b (set_data v b) _ bn Hsl eq_refl eq_refl Hd Hn).
    + split; [done|]. split; [done|]. left. cbn. rewrite Hv, Hn, fn_lookup_insert.
      rewrite Hn in Er, Eh. done.
    + by left.
    + intros bn' Hne. cbn. now rewrite fn_lookup_insert_ne by done.
    + done.
    + intros Hx. cbn in Hx. done.
  - intros j bn' (c & Hc & Hcd & Hcn & Hcv). destruct (decide (j = i)) as [->|Hne].
    + assert (c = b) as -> by (destruct Hc; congruence). eexists.
      split; [apply slot_put; [apply Hsl|]; by left|]. done.
    + exists c. split; [apply slot_put; [apply Hsl|]; by right|]. done.
Qed.

Lemma data_spec D s a i bn b :
  bio_rep D s a -> buf_of D s i bn -> bufs s !! i = Some b -> b_data b = ab_view a bn.
Proof.
  intros Hrep (c & Hsl & Hd & Hn & Hv) Hb. assert (c = b) as -> by (destruct Hsl; congruence).
  destruct (br_slot _ _ _ Hrep i b Hsl) as (_ & _ & [(_ & _ & _ & Ev)|[? _]]); [|done].
  now rewrite Hv, Hn in Ev.
Qed.

(** ** Relinking *)

Definition payload (b : buf) : bool * Z * Z * sleeplock * Z * block :=
  (b_valid b, b_dev b, b_blockno b, b_lock b, b_refcnt b, b_data b).

(** A state seen as links [nx], [pv] and the other fields [pl]. *)
Record linked (lk : spinlock) (d : disk) (nx pv : Z -> Z)
  (pl : Z -> bool * Z * Z * sleeplock * Z * block) (s : bst) : Prop := {
  ln_lock : bc_lock (bs_cache s) = lk;
  ln_disk : bs_disk s = d;
  ln_in : forall i, 0 <= i <= NBUF -> exists b, bufs s !! i = Some b /\
    b_next b = nx i /\ b_prev b = pv i /\ payload b = pl i;
  ln_out : forall i, ~ (0 <= i <= NBUF) -> bufs s !! i = None
}.

Lemma linked_getb lk d nx pv pl s i :
  linked lk d nx pv pl s -> 0 <= i <= NBUF ->
  exists b, getb i s = Done b s /\ b_next b = nx i /\ b_prev b = pv i.
Proof.
  intros [_ _ Hin _] Hi. destruct (Hin i Hi) as (b & Hb & ? & ? & _). exists b.
  split; [by apply getb_Done|done].
Qed.

Lemma linked_upd lk d nx pv pl s i f nx' pv' :
  linked lk d nx pv pl s -> 0 <= i <= NBUF ->
  (forall b, b_next b = nx i -> b_prev b = pv i ->
     b_next (f b) = nx' i /\ b_prev (f b) = pv' i /\ payload (f b) = payload b) ->
  (forall j, j <> i -> nx' j = nx j /\ pv' j = pv j) ->
  exists s', updb i f s = Done tt s' /\ linked lk d nx' pv' pl s'.
Proof.
  intros [H1 H2 Hin Hout] Hi Hf Hn. destruct (Hin i Hi) as (b & Hb & Hx & Hp & Hpl).
  eexists. split; [by apply updb_Done|]. destruct (Hf b Hx Hp) as (F1 & F2 & F3). split; try done.
  - intros j Hj. rewrite bufs_put. destruct (decide (i = j)) as [<-|Hne].
    + rewrite lookup_insert_eq. exists (f b). conjs; congruence.
    + rewrite lookup_insert_ne by done. destruct (Hn j) as [-> ->]; [congruence|]. auto.
  - intros j Hj. rewrite bufs_put, lookup_insert_ne by (intros ->; lia). auto.
Qed.

Lemma linked_next lk d nx pv pl s i v :
  linked lk d nx pv pl s -> 0 <= i <= NBUF ->
  exists s', updb i (set_next v) s = Done tt s' /\ linked lk d (<[i := v]> nx) pv pl s'.
Proof.
  intros Hl Hi. eapply linked_upd; [exact Hl|done| |].
  - intros b Hx Hp. cbn. rewrite fn_lookup_insert. done.
  - intros j Hj. now rewrite fn_lookup_insert_ne by done.
Qed.
Lemma linked_prev lk d nx pv pl s i v :
  linked lk d nx pv pl s -> 0 <= i <= NBUF ->
  exists s', updb i (set_prev v) s = Done tt s' /\ linked lk d nx (<[i := v]> pv) pl s'.
Proof.
  intros Hl Hi. eapply linked_upd; [exact Hl|done| |].
  - intros b Hx Hp. cbn. rewrite fn_lookup_insert. done.
  - intros j Hj. now rewrite fn_lookup_insert_ne by done.
Qed.

Lemma linked_self s :
  (forall i, is_Some (bufs s !! i) <-> 0 <= i <= NBUF) ->
  exists pl, linked (bc_lock (bs_cache s)) (bs_disk s) (nxt (bufs s)) (prv (bufs s)) pl s.
Proof.
  intros Hd. exists (fun i => match bufs s !! i with Some b => payload b | None => payload (Buf false 0 0 (initsleeplock EmptyString) 0 0 0 []) end).
  split; try done.
  - intros i Hi. destruct (proj2 (Hd i) Hi) as [b Hb]. exists b. unfold nxt, prv. now rewrite Hb.
  - intros i Hi. apply eq_None_not_Some. now rewrite Hd.
Qed.

Lemma slot_ok_payload D a b b' : payload b = payload b' -> slot_ok D a b -> slot_ok D a b'.
Proof. destruct b, b'. unfold payload, slot_ok, holder. simpl. intros [=]. by subst. Qed.

(** Only the links differ: the abstract state is the same. *)
Lemma rep_relink D s a lk nx pv pl nx' pv' s' ord :
  bio_rep D s a -> linked lk (bs_disk s) nx pv pl s -> linked lk (bs_disk s) nx' pv' pl s' ->
  NoDup (HEAD :: ord) -> (forall i, i ∈ ord <-> 0 <= i < NBUF) -> seg nx' pv' HEAD ord HEAD ->
  bio_rep D s' a /\ forall j bn, buf_of D s j bn -> buf_of D s' j bn.
Proof.
  intros [R1 R2 R3 R4 R5 R6 R7 R8 R9] [L1 L2 L3 L4] [L1' L2' L3' L4'] Hnd Hin Hs.
  assert (Hsl : forall i b', slot s' i b' -> exists b, slot s i b /\ payload b = payload b').
  { intros i b' [Hi Hb']. destruct (L3 i ltac:(lia)) as (b & Hb & _ & _ & Hp).
    destruct (L3' i ltac:(lia)) as (c & Hc & _ & _ & Hp'). exists b. split; [done|]. congruence. }
  assert (Hsl2 : forall i b, slot s i b -> exists b', slot s' i b' /\ payload b = payload b').
  { intros i b [Hi Hb]. destruct (L3 i ltac:(lia)) as (c & Hc & _ & _ & Hp).
    destruct (L3' i ltac:(lia)) as (b' & Hb' & _ & _ & Hp'). exists b'. split; [done|]. congruence. }
  split; [split; try done|].
  - congruence.
  - intros i. split.
    + intros Hx. destruct (decide (0 <= i <= NBUF)) as [|Hn]; [done|]. rewrite L4' in Hx by done. by destruct Hx.
    + intros Hi. destruct (L3' i Hi) as (b & Hb & _). eauto.
  - exists ord. conjs; try done. eapply seg_ext; [| |exact Hs].
    + intros x Hx. unfold nxt. destruct (L3' x) as (b & -> & ? & _); [|done].
      apply elem_of_cons in Hx as [->|Hx%Hin]; unfold HEAD, NBUF in *; lia.
    + intros x Hx. unfold prv. destruct (L3' x) as (b & -> & _ & ? & _); [|done].
      destruct Hx as [Hx%Hin| ->]; unfold HEAD, NBUF in *; lia.
  - intros i b' Hb'. destruct (Hsl i b' Hb') as (b & Hb & Hp). eapply slot_ok_payload; eauto.
  - intros i j b' c' Hb' Hc'. destruct (Hsl i b' Hb') as (b & Hb & [=]).
    destruct (Hsl j c' Hc') as (c & Hc & [=]). intros. apply (R5 i j b c); congruence.
  - intros bn Hno. apply R6. intros i b Hb. destruct (Hsl2 i b Hb) as (b' & Hb' & [=]).
    intros Hd Hn. apply (Hno i b' Hb'); congruence.
  - congruence.
  - congruence.
  - intros j bn (b & Hb & ? & ? & ?). destruct (Hsl2 j b Hb) as (b' & Hb' & [=]).
    exists b'. conjs; congruence.
Qed.

(** ** [brelse], [bpin], [bunpin] *)

Definition ab_ref_upd (bn r : Z) (a : babs) : babs :=
  Babs (ab_view a) (<[bn := r]> (ab_ref a)) (ab_holder a) (ab_disk a) (ab_hist a).
Definition ab_brelse (bn : Z) (a : babs) : babs :=
  Babs (ab_view a) (<[bn := ab_ref a bn - 1]> (ab_ref a)) (<[bn := None]> (ab_holder a))
    (ab_disk a) (ab_hist a).

Definition keeps_all (D : Z) (s s' : bst) : Prop :=
  forall j bn, buf_of D s j bn -> buf_of D s' j bn.

Lemma keeps_all_put D s i b b' :
  slot s i b -> b_dev b' = b_dev b -> b_blockno b' = b_blockno b -> b_valid b' = b_valid b ->
  keeps_all D s (put i b' s).
Proof.
  intros Hsl E1 E2 E3 j bn (c & Hc & Hcd & Hcn & Hcv). destruct (decide (j = i)) as [->|Hne].
  - assert (c = b) as -> by (destruct Hc, Hsl; congruence). exists b'.
    split; [apply slot_put; [apply Hsl|]; by left|]. conjs; congruence.
  - exists c. split; [apply slot_put; [apply Hsl|]; by right|]. done.
Qed.

(** Moving a buffer to the front of the list. *)
Definition move_front (b : Z) : M bst unit :=
  p <-! getb b ;;
  updb (b_next p) (set_prev (b_prev p)) ;;;
  p <-! getb b ;;
  updb (b_prev p) (set_next (b_next p)) ;;;
  h <-! getb HEAD ;;
  updb b (set_next (b_next h)) ;;;
  updb b (set_prev HEAD) ;;;
  h <-! getb HEAD ;;
  updb (b_next h) (set_prev b) ;;;
  updb HEAD (set_next b).

Lemma move_front_links lk d nx pv pl s ord b :
  linked lk d nx pv pl s -> NoDup (HEAD :: ord) -> (forall i, i ∈ ord <-> 0 <= i < NBUF) ->
  seg nx pv HEAD ord HEAD -> 0 <= b < NBUF ->
  exists s' nx' pv' ord', move_front b s = Done tt s' /\ linked lk d nx' pv' pl s' /\
    NoDup (HEAD :: ord') /\ (forall i, i ∈ ord' <-> 0 <= i < NBUF) /\ seg nx' pv' HEAD ord' HEAD.
Proof.
  intros Hl Hnd Hin Hs Hb. destruct (list_elem_of_split ord b) as (l1 & l2 & ->); [by apply Hin|].
  pose proof (proj1 (NoDup_cons _ _) Hnd) as [Hho Hnd2].
  pose proof (proj1 (seg_app _ _ _ _ _ _ _) Hs) as [Hs1 Hs2].
  assert (Hrange : forall x, x ∈ HEAD :: l1 \/ x ∈ l2 \/ x = HEAD -> 0 <= x <= NBUF).
  { intros x Hx. assert (Hx' : x = HEAD \/ x ∈ l1 ++ b :: l2) by set_solver.
    destruct Hx' as [->|Hx']; [unfold HEAD, NBUF; lia|]. apply Hin in Hx'. lia. }
  assert (Hnx : 0 <= nx b <= NBUF) by (apply Hrange; destruct (seg_first _ _ _ _ _ Hs2); auto).
  assert (Hpv : 0 <= pv b <= NBUF) by (apply Hrange; left; by eapply seg_last).
  assert (HH : 0 <= HEAD <= NBUF) by (unfold HEAD, NBUF; lia).
  assert (Hbh : b <> HEAD) by (intros ->; apply Hho; set_solver).
  assert (Hbn : nx b <> b).
  { intros He. pose proof (seg_first _ _ _ _ _ Hs2) as [Hx|Hx]; rewrite He in Hx; [|done].
    apply NoDup_app in Hnd2 as (_ & _ & Hnd2). by apply NoDup_cons in Hnd2 as [? _]. }
  destruct (linked_getb _ _ _ _ _ _ b Hl ltac:(lia)) as (p0 & G0 & N0 & P0).
  destruct (linked_prev _ _ _ _ _ s (nx b) (pv b) Hl Hnx) as (s1 & U1 & L1).
  destruct (linked_getb _ _ _ _ _ _ b L1 ltac:(lia)) as (p1 & G1 & N1 & P1).
  rewrite fn_lookup_insert_ne in P1 by done.
  destruct (linked_next _ _ _ _ _ s1 (pv b) (nx b) L1 Hpv) as (s2 & U2 & L2).
  pose proof (seg_unlink nx pv HEAD l1 b l2 HEAD Hs Hnd Hho) as Hs'.
  set (nx2 := <[pv b := nx b]> nx) in *. set (pv2 := <[nx b := pv b]> pv) in *.
  destruct (linked_getb _ _ _ _ _ _ HEAD L2 HH) as (h2 & G2 & N2 & P2).
  destruct (linked_next _ _ _ _ _ s2 b (nx2 HEAD) L2 ltac:(lia)) as (s3 & U3 & L3).
  destruct (linked_prev _ _ _ _ _ s3 b HEAD L3 ltac:(lia)) as (s4 & U4 & L4).
  destruct (linked_getb _ _ _ _ _ _ HEAD L4 HH) as (h4 & G4 & N4 & P4).
  rewrite fn_lookup_insert_ne in N4 by done.
  assert (Hnh : 0 <= nx2 HEAD <= NBUF).
  { apply Hrange. destruct (seg_first _ _ _ _ _ Hs') as [Hx|Hx]; [set_solver|auto]. }
  destruct (linked_prev _ _ _ _ _ s4 (nx2 HEAD) b L4 Hnh) as (s5 & U5 & L5).
  destruct (linked_next _ _ _ _ _ s5 HEAD b L5 HH) as (s6 & U6 & L6).
  eexists s6, _, _, (b :: l1 ++ l2). split; [|split; [exact L6|]].
  - unfold move_front. rewrite (bind_Done _ _ _ _ _ G0), N0, P0, (bind_Done _ _ _ _ _ U1).
    rewrite (bind_Done _ _ _ _ _ G1), N1, P1, (bind_Done _ _ _ _ _ U2).
    rewrite (bind_Done _ _ _ _ _ G2), N2, (bind_Done _ _ _ _ _ U3), (bind_Done _ _ _ _ _ U4).
    rewrite (bind_Done _ _ _ _ _ G4), N4, (bind_Done _ _ _ _ _ U5). exact U6.
  - assert (Hp : HEAD :: b :: l1 ++ l2 ≡ₚ HEAD :: l1 ++ b :: l2) by (f_equiv; apply Permutation_middle).
    split; [by rewrite Hp|]. split; [intros i; rewrite <- Hin; set_solver|].
    apply seg_push; [done| |].
    + rewrite <- Permutation_middle in Hnd. apply NoDup_cons in Hnd as [Hx Hnd].
      apply NoDup_cons in Hnd as [_ Hnd]. apply NoDup_cons. split; [set_solver|done].
    + rewrite <- Permutation_middle in Hnd2. apply NoDup_cons in Hnd2 as [Hx _]. set_solver.
Qed.

(** The buffer with its lock free and one reference less. *)
Definition dropped (b : buf) : buf :=
  set_refcnt (b_refcnt b - 1)
    (set_lock (Sleeplock false (sl_lk (b_lock b)) (sl_name (b_lock b)) 0) b).

Lemma dropped_rep D s a i b bn :
  bio_rep D s a -> slot s i b -> b_dev b = D -> b_blockno b = bn -> 0 < ab_ref a bn ->
  1 < ab_ref a bn \/ ab_view a bn = ab_disk a bn ->
  bio_rep D (put i (dropped b) s) (ab_brelse bn a) /\ keeps_all D s (put i (dropped b) s).
Proof.
  intros Hrep Hsl Hd Hn Hr Hor. split; [|by apply (keeps_all_put D s i b)].
  destruct (br_slot _ _ _ Hrep i b Hsl) as (H1 & H2 & [(_ & Er & Eh & Ev)|[? _]]); [|done].
  apply (rep_put D s a Hrep i b (dropped b) _ bn Hsl eq_refl eq_refl Hd Hn).
  - split; [done|]. cbn. rewrite Hn in *. rewrite !fn_lookup_insert, Er, u32_small by lia.
    split; [lia|]. left. done.
  - by left.
  - intros bn' Hne. cbn. now rewrite !fn_lookup_insert_ne by done.
  - done.
  - unfold clean_at. cbn. rewrite !fn_lookup_insert. intros. split; [done|]. destruct Hor; [lia|done].
Qed.

Lemma rep_held_lock D s a :
  bio_rep D s a -> linked (bc_lock (bs_cache s)) (bs_disk s) (nxt (bufs s)) (prv (bufs s))
    (fun i => match bufs s !! i with Some b => payload b
              | None => payload (Buf false 0 0 (initsleeplock EmptyString) 0 0 0 []) end) s.
Proof.
  intros Hrep. split; try done.
  - intros i Hi. destruct (proj2 (br_dom _ _ _ Hrep i) Hi) as [b Hb]. exists b.
    unfold nxt, prv. now rewrite Hb.
  - intros i Hi. apply eq_None_not_Some. now rewrite (br_dom _ _ _ Hrep).
Qed.

(** Everything but the lock: used to run the relinking with the lock held. *)
Lemma linked_lock lk lk' d nx pv pl s :
  linked lk d nx pv pl s ->
  linked lk' d nx pv pl (lset bc_lock_lens lk' s).
Proof. intros [H1 H2 H3 H4]. by split. Qed.

Lemma brelse_spec D s a i bn :
  bio_rep D s a -> buf_of D s i bn -> ab_holder a bn = Some mypid -> 0 < ab_ref a bn ->
  1 < ab_ref a bn \/ ab_view a bn = ab_disk a bn ->
  exists s', brelse i s = Done tt s' /\ bio_rep D s' (ab_brelse bn a) /\ keeps_all D s s'.
Proof.
  intros Hrep Hbo Hh Hr Hor. pose proof (holding_ok _ _ _ _ _ Hrep Hbo Hh) as Hhold.
  destruct Hbo as (b & Hsl & Hd & Hn & Hv). pose proof (proj2 Hsl) as Hb. pose proof (proj1 Hsl) as Hi.
  destruct (dropped_rep D s a i b bn Hrep Hsl Hd Hn Hr Hor) as [Hrep1 Hk1].
  destruct (br_slot _ _ _ Hrep i b Hsl) as (Hu & Hrg & [(_ & Er & _)|[? _]]); [|done].
  pose proof (br_lock _ _ _ Hrep) as Hlk.
  unfold brelse. rewrite (bind_Done _ _ _ _ _ Hhold). cbn [negb].
  rewrite (bind_Done (panic_if false _) _ s tt s eq_refl).
  rewrite (bind_Done _ _ _ _ _ (on_lock_Done i _ b s _ _ Hb (releasesleep_spec _ Hu))).
  set (b1 := set_lock _ b). rewrite (bind_Done _ _ _ _ _ (bc_acquire (put i b1 s) Hlk)).
  rewrite (bind_Done _ _ _ _ _ (updb_Done i _ b1 (bc_held (put i b1 s)) (lookup_insert_eq _ _ _))).
  set (s2 := put i _ (bc_held (put i b1 s))).
  assert (Hs2 : s2 = lset bc_lock_lens (held (bc_lock (bs_cache s))) (put i (dropped b) s)).
  { unfold s2, put, bc_held, bufs. cbn. now rewrite insert_insert_eq. }
  assert (Hb2 : bufs s2 !! i = Some (dropped b)) by (rewrite Hs2; apply lookup_insert_eq).
  rewrite (bind_Done _ _ _ _ _ (getb_Done i _ s2 Hb2)).
  destruct (Z.eqb_spec (b_refcnt (dropped b)) 0) as [Hz|Hz]; cbn [when].
  - pose proof (rep_held_lock D _ _ Hrep1) as Hl. destruct (br_list _ _ _ Hrep1) as (ord & Hnd & Hin & Hs).
    set (lk := bc_lock (bs_cache s)) in *.
    pose proof (linked_lock _ (held lk) _ _ _ _ _ Hl) as Hl2. rewrite <- Hs2 in Hl2.
    destruct (move_front_links _ _ _ _ _ s2 ord i Hl2 Hnd Hin Hs Hi)
      as (s3 & nx' & pv' & ord' & Hrun & Hl3 & Hnd' & Hin' & Hs').
    unfold move_front in Hrun. rewrite (bind_Done _ _ _ _ _ (getb_Done i _ s2 Hb2)) in Hrun.
    rewrite (bind_Done _ _ _ _ _ Hrun).
    pose proof (linked_lock _ lk _ _ _ _ _ Hl3) as Hl4.
    destruct (rep_relink D _ _ lk _ _ _ nx' pv' _ ord' Hrep1 Hl Hl4 Hnd' Hin' Hs') as [Hrep4 Hk4].
    exists (lset bc_lock_lens lk s3). split; [|split; [done|]].
    + apply (release_held bc_lock_lens); [apply (ln_lock _ _ _ _ _ _ Hl3)|done].
    + intros j bn' Hj. apply Hk4, Hk1, Hj.
  - rewrite (bind_Done (ret tt) _ s2 tt s2 eq_refl). exists (put i (dropped b) s).
    split; [|done]. rewrite Hs2. rewrite (release_held bc_lock_lens _ (bc_lock (bs_cache s))) by done. done.
Qed.

(** Changing the reference count of a buffer under the cache lock. *)
Lemma ref_change D s a i bn f r :
  bio_rep D s a -> buf_of D s i bn -> 0 < r < 2 ^ 32 ->
  (forall b, b_refcnt b = ab_ref a bn -> f b = set_refcnt r b) ->
  exists s', (acquire bc_lock_lens ;;; updb i f ;;; release bc_lock_lens) s = Done tt s' /\
    bio_rep D s' (ab_ref_upd bn r a) /\ keeps_all D s s'.
Proof.
  intros Hrep (b & Hsl & Hd & Hn & Hv) Hr Hf. pose proof (br_lock _ _ _ Hrep) as Hlk.
  destruct (br_slot _ _ _ Hrep i b Hsl) as (Hu & Hrg & [(_ & Er & Eh & Ev)|[? _]]); [|done].
  rewrite (bind_Done _ _ _ _ _ (bc_acquire s Hlk)).
  rewrite (bind_Done _ _ _ _ _ (updb_Done i f b (bc_held s) (proj2 Hsl))).
  rewrite Hf by congruence. exists (put i (set_refcnt r b) s). split; [|split].
  - now rewrite (release_held bc_lock_lens _ (bc_lock (bs_cache s))) by done.
  - apply (rep_put D s a Hrep i b (set_refcnt r b) _ bn Hsl eq_refl eq_refl Hd Hn).
    + split; [done|]. cbn. rewrite Hn, u32_small, fn_lookup_insert by lia. rewrite Hn in *.
      split; [lia|]. left. done.
    + by left.
    + intros bn' Hne. cbn. now rewrite !fn_lookup_insert_ne by done.
    + done.
    + unfold clean_at. cbn. rewrite fn_lookup_insert. lia.
  - by apply (keeps_all_put D s i b).
Qed.

Lemma bpin_spec D s a i bn :
  bio_rep D s a -> buf_of D s i bn -> 0 <= ab_ref a bn -> ab_ref a bn + 1 < 2 ^ 32 ->
  exists s', bpin i s = Done tt s' /\ bio_rep D s' (ab_ref_upd bn (ab_ref a bn + 1) a) /\ keeps_all D s s'.
Proof. intros. apply ref_change; try done; [lia|]. now intros b ->. Qed.

Lemma bunpin_spec D s a i bn :
  bio_rep D s a -> buf_of D s i bn -> 1 < ab_ref a bn < 2 ^ 32 ->
  exists s', bunpin i s = Done tt s' /\ bio_rep D s' (ab_ref_upd bn (ab_ref a bn - 1) a) /\ keeps_all D s s'.
Proof. intros. apply ref_change; try done; [lia|]. now intros b ->. Qed.
End Steps.

(** ** Initialisation *)

Definition zero_buf : buf := Buf false 0 0 (Sleeplock false (initlock EmptyString) EmptyString 0) 0 0 0 zero_block.
(** [bcache] as the loader leaves it, and the kernel just booted. *)
Definition boot_bufs : gmap Z buf := list_to_map ((fun i => (i, zero_buf)) <$> upto (NBUF + 1)).
Definition bio_boot (d : disk) : bst := Bst (Bcache (initlock EmptyString) boot_bufs) d.

Definition ab_boot (d : disk) : babs :=
  Babs (dread d) (fun _ => 0) (fun _ => None) (dread d) (d_hist d).

Section Boot.
Context `{HC : Ctx}.

Definition binit_bufs : gmap Z buf :=
  match binit (bio_boot (Disk ∅ [])) with Done _ s => bufs s | _ => ∅ end.

Lemma binit_eq d : binit (bio_boot d) = Done tt (Bst (Bcache (initlock "bcache") binit_bufs) d).
Proof. unfold binit_bufs. destruct d. vm_compute. reflexivity. Qed.

#[local] Opaque binit_bufs.

Definition fresh_buf (b : buf) : bool :=
  (b_dev b =? 0) && (b_refcnt b =? 0) && negb (b_valid b) && negb (sl_locked (b_lock b)) &&
  negb (locked (sl_lk (b_lock b))) && match lk_cpu (sl_lk (b_lock b)) with None => true | _ => false end.

Lemma binit_fresh :
  forallb (fun i => match binit_bufs !! i with Some b => fresh_buf b | None => false end) (upto NBUF) = true.
Proof. vm_compute. reflexivity. Qed.

Lemma binit_slot d i b :
  slot (Bst (Bcache (initlock "bcache") binit_bufs) d) i b ->
  b_dev b = 0 /\ b_refcnt b = 0 /\ holder b = None /\ unlocked (sl_lk (b_lock b)).
Proof.
  intros [Hi Hb]. pose proof binit_fresh as Hf. rewrite forallb_forall in Hf.
  specialize (Hf i ltac:(apply list_elem_of_In, elem_upto; done)). cbn in Hb. rewrite Hb in Hf. clear Hb.
  unfold fresh_buf in Hf. rewrite !andb_true_iff, !negb_true_iff, !Z.eqb_eq in Hf.
  destruct Hf as (((((H1 & H2) & H3) & H4) & H5) & H6). conjs; try done.
  - unfold holder. now rewrite H4.
  - split; [done|]. now destruct (lk_cpu (sl_lk (b_lock b))).
Qed.

Lemma binit_spec D d : D <> 0 ->
  exists s, binit (bio_boot d) = Done tt s /\ bio_rep D s (ab_boot d).
Proof.
  intros HD. eexists. split; [apply binit_eq|].
  split; try done.
  - intros i. split.
    + intros [b Hb]. cbn in Hb.
      assert (Hall : Forall (fun k => 0 <= k <= NBUF) (map_to_list binit_bufs).*1)
        by (apply (bool_decide_unpack _); vm_compute; exact I).
      rewrite Forall_forall in Hall. apply Hall. apply list_elem_of_fmap. exists (i, b).
      split; [done|]. by apply elem_of_map_to_list.
    + intros Hi. cbn.
      assert (Hall : Forall (fun k => is_Some (binit_bufs !! k)) (upto (NBUF + 1)))
        by (apply (bool_decide_unpack _); vm_compute; exact I).
      rewrite Forall_forall in Hall. apply Hall, elem_upto. lia.
  - exists (reverse (upto NBUF)). split; [|split].
    + apply (bool_decide_unpack _). vm_compute. exact I.
    + intros i. now rewrite elem_of_reverse, elem_upto.
    + vm_compute. repeat split.
  - intros i b Hsl. destruct (binit_slot d i b Hsl) as (E1 & E2 & E3 & E4).
    split; [done|]. split; [lia|]. right. split; [congruence|done].
  - intros i j b c Hb Hc Hd. destruct (binit_slot d i b Hb) as (E1 & _). congruence.
Qed.
End Boot.

(** ** The cache is transparent *)

Section Transparent.
Context `{HC : Ctx}.

(** A client that reads a block, or replaces it and writes it through. *)
Inductive breq := RdReq (bn : Z) | WrReq (bn : Z) (v : block).

Definition breq_step (D : Z) (r : breq) : M bst block :=
  match r with
  | RdReq bn => b <-! bread D bn ;; p <-! getb b ;; brelse b ;;; ret (b_data p)
  | WrReq bn v => b <-! bread D bn ;; updb b (set_data v) ;;; bwrite b ;;; brelse b ;;; ret v
  end.
Fixpoint breq_run (D : Z) (rs : list breq) : M bst (list block) :=
  match rs with
  | [] => ret []
  | r :: rs' => v <-! breq_step D r ;; vs <-! breq_run D rs' ;; ret (v :: vs)
  end.

(** The specification: no cache at all. *)
Definition bspec_step (r : breq) (f : Z -> block) : block * (Z -> block) :=
  match r with
  | RdReq bn => (f bn, f)
  | WrReq bn v => (v, <[bn := v]> f)
  end.
Fixpoint bspec_run (rs : list breq) (f : Z -> block) : list block * (Z -> block) :=
  match rs with
  | [] => ([], f)
  | r :: rs' => let '(v, f1) := bspec_step r f in
                let '(vs, f2) := bspec_run rs' f1 in (v :: vs, f2)
  end.

(** Nobody uses a buffer; readers see [f] and so does the disk. *)
Definition quiet (a : babs) (f : Z -> block) : Prop := forall bn,
  ab_ref a bn = 0 /\ ab_holder a bn = None /\ ab_view a bn = f bn /\ ab_disk a bn = f bn.

Lemma quiet_room a f : quiet a f -> room a.
Proof. intros Hq. exists []. split; [done|]. intros bn Hr. by destruct (Hq bn). Qed.

Lemma bread_quiet D s a f bn :
  bio_rep D s a -> quiet a f ->
  exists i s1, bread D bn s = Done i s1 /\ bio_rep D s1 (ab_bread bn a) /\ buf_of D s1 i bn.
Proof.
  intros Hrep Hq. destruct (Hq bn) as (Hr & Hh & _).
  destruct (bread_spec D s a bn Hrep Hh ltac:(lia) (or_intror (quiet_room _ _ Hq)))
    as (i & s1 & H1 & H2 & H3 & _). eauto.
Qed.

Lemma breq_step_spec D r s a f :
  bio_rep D s a -> quiet a f ->
  exists s' a', breq_step D r s = Done (fst (bspec_step r f)) s' /\ bio_rep D s' a' /\
    quiet a' (snd (bspec_step r f)).
Proof.
  intros Hrep Hq. destruct r as [bn|bn v]; destruct (bread_quiet D s a f bn Hrep Hq) as (i & s1 & H1 & R1 & B1);
    destruct (Hq bn) as (Hr & Hh & Hv & Hd); unfold breq_step; rewrite (bind_Done _ _ _ _ _ H1).
  - destruct B1 as (b & Hsl & Hrest). pose proof (proj2 Hsl) as Hb.
    assert (B1 : buf_of D s1 i bn) by (by exists b).
    rewrite (bind_Done _ _ _ _ _ (getb_Done i b s1 Hb)).
    destruct (brelse_spec D s1 _ i bn R1 B1) as (s2 & H2 & R2 & _);
      try (cbn; rewrite ?fn_lookup_insert; done || lia).
    { right. cbn. congruence. }
    rewrite (bind_Done _ _ _ _ _ H2). exists s2. eexists. split; [|split; [exact R2|]].
    + rewrite (data_spec D s1 _ i bn b R1 B1 Hb). cbn. now rewrite Hv.
    + intros bn'. destruct (Hq bn') as (Q1 & Q2 & Q3 & Q4). cbn.
      destruct (decide (bn = bn')) as [<-|Hne].
      * rewrite !fn_lookup_insert. conjs; done || lia.
      * rewrite !fn_lookup_insert_ne by done. done.
  - destruct (set_data_spec D s1 _ i bn v R1 B1) as (s2 & H2 & R2 & K2).
    { cbn. rewrite fn_lookup_insert. lia. }
    rewrite (bind_Done _ _ _ _ _ H2).
    destruct (bwrite_spec D s2 _ i bn R2 (K2 _ _ B1)) as (s3 & H3 & R3 & E3).
    { cbn. now rewrite fn_lookup_insert. }
    rewrite (bind_Done _ _ _ _ _ H3).
    assert (B3 : buf_of D s3 i bn).
    { destruct (K2 _ _ B1) as (b & [Hi Hb] & Hrest). exists b. split; [|done]. split; [done|]. by rewrite E3. }
    destruct (brelse_spec D s3 _ i bn R3 B3) as (s4 & H4 & R4 & _);
      try (cbn; rewrite ?fn_lookup_insert; done || lia).
    { right. cbn. now rewrite !fn_lookup_insert. }
    rewrite (bind_Done _ _ _ _ _ H4). exists s4. eexists. split; [done|]. split; [exact R4|].
    intros bn'. destruct (Hq bn') as (Q1 & Q2 & Q3 & Q4). cbn. destruct (decide (bn = bn')) as [<-|Hne].
    + rewrite !fn_lookup_insert. conjs; done || lia.
    + rewrite !fn_lookup_insert_ne by done. done.
Qed.

Lemma breq_run_spec D rs s a f :
  bio_rep D s a -> quiet a f ->
  exists s' a', breq_run D rs s = Done (fst (bspec_run rs f)) s' /\ bio_rep D s' a' /\
    quiet a' (snd (bspec_run rs f)).
Proof.
  revert s a f. induction rs as [|r rs IH]; intros s a f Hrep Hq; [by exists s, a|].
  destruct (breq_step_spec D r s a f Hrep Hq) as (s1 & a1 & H1 & R1 & Q1).
  destruct (IH s1 a1 _ R1 Q1) as (s2 & a2 & H2 & R2 & Q2).
  exists s2, a2. cbn [breq_run bspec_run]. rewrite (bind_Done _ _ _ _ _ H1), (bind_Done _ _ _ _ _ H2).
  destruct (bspec_step r f) as [v f1]. cbn in *. destruct (bspec_run rs f1) as [vs f2]. done.
Qed.

(** C3: The buffer cache is transparent: after [binit], for any sequence of
    reads and write-throughs by a client that releases its buffers, every read
    returns the block's current contents, no call panics or blocks however
    many blocks compete for the [NBUF] buffers, and the disk ends up with every
    write. *)
Theorem bcache_transparent D d rs :
  D <> 0 -> exists s, (binit ;;; breq_run D rs) (bio_boot d) = Done (fst (bspec_run rs (dread d))) s /\
    forall bn, dread (bs_disk s) bn = snd (bspec_run rs (dread d)) bn.
Proof.
  intros HD. destruct (binit_spec D d HD) as (s0 & H0 & R0).
  destruct (breq_run_spec D rs s0 (ab_boot d) (dread d) R0) as (s1 & a1 & H1 & R1 & Q1).
  { clear H0. done. }
  exists s1. rewrite (bind_Done _ _ _ _ _ H0). split; [exact H1|].
  intros bn. rewrite <- (br_disk _ _ _ R1). apply Q1.
Qed.

(** [bread] returns the locked, up to date buffer of the block: whatever
    the cache holds, if the block is not locked and some buffer is not in use,
    it succeeds, changes no block's contents and no other buffer in use, and
    takes exactly one reference. *)
Theorem bread_correct D s a bn :
  bio_rep D s a -> ab_holder a bn = None -> ab_ref a bn + 1 < 2 ^ 32 ->
  ab_ref a bn <> 0 \/ room a ->
  exists i s', bread D bn s = Done i s' /\ bio_rep D s' (ab_bread bn a) /\
    buf_of D s' i bn /\ keeps D s s' a.
Proof. exact (bread_spec D s a bn). Qed.
End Transparent.

Module BioExample.
#[export] Instance ctx : Ctx := {| mycpu := 0; mypid := 1 |}.

Lemma bcache_transparent_witness :
  exists s, (binit ;;; breq_run 1 [WrReq 7 [1; 2]; RdReq 8; RdReq 7]) (bio_boot (Disk ∅ []))
    = Done [[1; 2]; zero_block; [1; 2]] s.
Proof.
  destruct (bcache_transparent 1 (Disk ∅ []) [WrReq 7 [1; 2]; RdReq 8; RdReq 7]) as (s & H & _);
    [discriminate|]. exists s. exact H.
Defined.

Lemma bread_correct_witness : exists s i s',
  binit (bio_boot (Disk ∅ [])) = Done tt s /\ bread 1 7 s = Done i s'.
Proof.
  destruct (binit_spec 1 (Disk ∅ [])) as (s & H0 & R0); [discriminate|].
  destruct (bread_correct 1 s (ab_boot (Disk ∅ [])) 7 R0) as (i & s' & H & _).
  - reflexivity.
  - simpl. lia.
  - right. exists []. split; [reflexivity|]. intros bn Hr. exfalso. apply Hr. reflexivity.
  - exists s, i, s'. split; [exact H0|exact H].
Defined.
End BioExample.
