(* ===== verification/Log.v ===== *)
(** * The logging layer: kernel/log.c

    Blocks that a transaction changes stay in the buffer cache, pinned, until
    [commit] copies them to the log area, writes the header, installs them at
    their home location and clears the header.  [recover_from_log] replays a
    committed transaction after a crash.  [struct logheader] is stored in the
    bytes of block [log.start]. *)

From S2P Require Import Prelude Memory Riscv Spinlock Bio.

Definition MAXOPBLOCKS : Z := 10.
Definition LOGSIZE : Z := MAXOPBLOCKS * 3.

(** ** Little-endian 32 bit fields of a block *)

Definition get8 (d : block) (off : Z) : Z := nth (Z.to_nat off) d 0.
Definition get32 (d : block) (off : Z) : Z :=
  get8 d off + 256 * get8 d (off + 1) + 65536 * get8 d (off + 2) + 16777216 * get8 d (off + 3).
Definition put8 (off v : Z) (d : block) : block := <[Z.to_nat off := v mod 256]> d.
Definition put32 (off v : Z) (d : block) : block :=
  put8 (off + 3) (v / 16777216) (put8 (off + 2) (v / 65536) (put8 (off + 1) (v / 256) (put8 off v d))).

(** [struct log] *)
Record logst := Logst {
  lg_lock : spinlock;
  lg_start : Z;
  lg_size : Z;
  lg_outstanding : Z;
  lg_committing : bool;
  lg_dev : Z;
  lg_n : Z;
  lg_block : list Z
}.
Record lst := Lst { ls_log : logst; ls_bio : bst }.

Definition ls_bio_lens : lens lst bst := Lens ls_bio (fun b s => Lst (ls_log s) b).
Definition upd_log (f : logst -> logst) (s : lst) : lst := Lst (f (ls_log s)) (ls_bio s).
Definition lg_lock_lens : lens lst spinlock :=
  Lens (fun s => lg_lock (ls_log s))
    (fun lk s => upd_log (fun l => Logst lk (lg_start l) (lg_size l) (lg_outstanding l)
       (lg_committing l) (lg_dev l) (lg_n l) (lg_block l)) s).
Definition bio {A} (m : M bst A) : M lst A := lift ls_bio_lens m.

Definition set_n (n : Z) (l : logst) : logst :=
  Logst (lg_lock l) (lg_start l) (lg_size l) (lg_outstanding l) (lg_committing l) (lg_dev l) n (lg_block l).
Definition set_outstanding (o : Z) (l : logst) : logst :=
  Logst (lg_lock l) (lg_start l) (lg_size l) o (lg_committing l) (lg_dev l) (lg_n l) (lg_block l).
Definition set_committing (c : bool) (l : logst) : logst :=
  Logst (lg_lock l) (lg_start l) (lg_size l) (lg_outstanding l) c (lg_dev l) (lg_n l) (lg_block l).

Definition log_get {A} (f : logst -> A) : M lst A := gets (fun s => f (ls_log s)).
Definition log_set (f : logst -> logst) : M lst unit := modify (upd_log f).
(** [log.lh.block[i]] *)
Definition get_block (i : Z) : M lst Z := fun s =>
  match lg_block (ls_log s) !! Z.to_nat i with Some b => Done b s | None => Undef end.
Definition set_block (i b : Z) : M lst unit := fun s =>
  if decide (0 <= i < Z.of_nat (length (lg_block (ls_log s))))
  then log_set (fun l => Logst (lg_lock l) (lg_start l) (lg_size l) (lg_outstanding l)
         (lg_committing l) (lg_dev l) (lg_n l) (<[Z.to_nat i := b]> (lg_block l))) s
  else Undef.

Section Log.
Context `{HC : Ctx}.

(** [memmove(to->data, from->data, BSIZE)] *)
Definition copy_data (to from : Z) : M bst unit :=
  p <-! getb from ;; updb to (set_data (b_data p)).

Definition install_step (recovering : bool) (tail : Z) : M lst unit :=
  dev <-! log_get lg_dev ;;
  start <-! log_get lg_start ;;
  lbuf <-! bio (bread dev (u32 (start + tail + 1))) ;;
  home <-! get_block tail ;;
  dbuf <-! bio (bread dev (u32 home)) ;;
  bio (copy_data dbuf lbuf) ;;;
  bio (bwrite dbuf) ;;;
  when (negb recovering) (bio (bunpin dbuf)) ;;;
  bio (brelse lbuf) ;;;
  bio (brelse dbuf).
Definition install_trans (recovering : bool) : M lst unit :=
  n <-! log_get lg_n ;; for_each (upto n) (install_step recovering).

Definition read_head : M lst unit :=
  dev <-! log_get lg_dev ;;
  start <-! log_get lg_start ;;
  b <-! bio (bread dev (u32 start)) ;;
  p <-! bio (getb b) ;;
  log_set (set_n (i32 (get32 (b_data p) 0))) ;;;
  n <-! log_get lg_n ;;
  for_each (upto n) (fun i => set_block i (i32 (get32 (b_data p) (4 + 4 * i)))) ;;;
  bio (brelse b).

Definition write_head : M lst unit :=
  dev <-! log_get lg_dev ;;
  start <-! log_get lg_start ;;
  b <-! bio (bread dev (u32 start)) ;;
  n <-! log_get lg_n ;;
  bio (updb b (fun p => set_data (put32 0 n (b_data p)) p)) ;;;
  for_each (upto n) (fun i =>
    blk <-! get_block i ;;
    bio (updb b (fun p => set_data (put32 (4 + 4 * i) blk (b_data p)) p))) ;;;
  bio (bwrite b) ;;;
  bio (brelse b).

Definition recover_from_log : M lst unit :=
  read_head ;;;
  install_trans true ;;;
  log_set (set_n 0) ;;;
  write_head.

(** [sizeof(struct logheader)] *)
Definition sizeof_logheader : Z := 4 + 4 * LOGSIZE.
Definition initlog (dev logstart nlog : Z) : M lst unit :=
  panic_if (BSIZE <=? sizeof_logheader) "initlog: too big logheader" ;;;
  log_set (fun l => Logst (initlock "log") (i32 logstart) (i32 nlog) (lg_outstanding l)
    (lg_committing l) dev (lg_n l) (lg_block l)) ;;;
  recover_from_log.

(** One turn of the [while(1)] loop: a caller that sleeps is woken with the
    lock held again and tries anew. *)
Definition begin_op : M lst unit :=
  acquire lg_lock_lens ;;;
  l <-! log_get id ;;
  if lg_committing l then sleep ("log"%string, 0) lg_lock_lens
  else if LOGSIZE <? lg_n l + (lg_outstanding l + 1) * MAXOPBLOCKS
  then sleep ("log"%string, 0) lg_lock_lens
  else log_set (set_outstanding (lg_outstanding l + 1)) ;;; release lg_lock_lens.

Definition write_log_step (tail : Z) : M lst unit :=
  dev <-! log_get lg_dev ;;
  start <-! log_get lg_start ;;
  to <-! bio (bread dev (u32 (start + tail + 1))) ;;
  home <-! get_block tail ;;
  from <-! bio (bread dev (u32 home)) ;;
  bio (copy_data to from) ;;;
  bio (bwrite to) ;;;
  bio (brelse from) ;;;
  bio (brelse to).
Definition write_log : M lst unit :=
  n <-! log_get lg_n ;; for_each (upto n) write_log_step.

Definition commit : M lst unit :=
  n <-! log_get lg_n ;;
  when (0 <? n)
    (write_log ;;;
     write_head ;;;
     install_trans false ;;;
     log_set (set_n 0) ;;;
     write_head).

(** The calls of [wakeup(&log)] make sleepers runnable; they do not touch the
    log. *)
Definition end_op : M lst unit :=
  acquire lg_lock_lens ;;;
  o <-! log_get lg_outstanding ;;
  log_set (set_outstanding (o - 1)) ;;;
  l <-! log_get id ;;
  panic_if (lg_committing l) "log.committing" ;;;
  let do_commit := lg_outstanding l =? 0 in
  when do_commit (log_set (set_committing true)) ;;;
  release lg_lock_lens ;;;
  when do_commit
    (commit ;;;
     acquire lg_lock_lens ;;;
     log_set (set_committing false) ;;;
     release lg_lock_lens).

(** [for(i = 0; i < log.lh.n; i++) if(log.lh.block[i] == b->blockno) break;] *)
Fixpoint absorb_loop (fuel : nat) (i n blockno : Z) : M lst Z :=
  match fuel with
  | O => ret i
  | S fuel' =>
      if i <? n then
        blk <-! get_block i ;;
        if u32 blk =? blockno then ret i else absorb_loop fuel' (i + 1) n blockno
      else ret i
  end.

Definition log_write (b : Z) : M lst unit :=
  acquire lg_lock_lens ;;;
  l <-! log_get id ;;
  panic_if ((LOGSIZE <=? lg_n l) || (lg_size l - 1 <=? lg_n l)) "too big a transaction" ;;;
  panic_if (lg_outstanding l <? 1) "log_write outside of trans" ;;;
  p <-! bio (getb b) ;;
  i <-! absorb_loop (Z.to_nat (lg_n l)) 0 (lg_n l) (b_blockno p) ;;
  set_block i (i32 (b_blockno p)) ;;;
  when (i =? lg_n l)
    (bio (bpin b) ;;;
     log_set (set_n (lg_n l + 1))) ;;;
  release lg_lock_lens.
End Log.

(** ** Fields of a block read back *)

Lemma length_put8 off v d : length (put8 off v d) = length d.
Proof. apply length_insert. Qed.
Lemma length_put32 off v d : length (put32 off v d) = length d.
Proof. unfold put32. now rewrite !length_put8. Qed.

Lemma get8_put8 off v d o :
  0 <= off < Z.of_nat (length d) -> 0 <= o ->
  get8 (put8 off v d) o = if o =? off then v mod 256 else get8 d o.
Proof.
  intros Ho Ho2. unfold get8, put8. rewrite !nth_lookup. destruct (Z.eqb_spec o off) as [->|Hne].
  - now rewrite list_lookup_insert_eq by lia.
  - now rewrite list_lookup_insert_ne by lia.
Qed.

Lemma le32 v : v mod 256 + 256 * ((v / 256) mod 256) + 65536 * ((v / 65536) mod 256)
  + 16777216 * ((v / 16777216) mod 256) = u32 v.
Proof. unfold u32. change (2 ^ 32) with 4294967296. Z.div_mod_to_equations. lia. Qed.

Lemma get32_put32 off v d :
  0 <= off -> off + 4 <= Z.of_nat (length d) -> get32 (put32 off v d) off = u32 v.
Proof.
  intros H0 H1. rewrite <- le32. unfold get32, put32.
  rewrite !get8_put8 by (rewrite ?length_put8; lia).
  repeat match goal with |- context [?a =? ?b] =>
    destruct (Z.eqb_spec a b); try (exfalso; lia) end. reflexivity.
Qed.

Lemma get32_put32_ne off v d o :
  0 <= off -> off + 4 <= Z.of_nat (length d) -> 0 <= o -> o + 4 <= off \/ off + 4 <= o ->
  get32 (put32 off v d) o = get32 d o.
Proof.
  intros H0 H1 H2 H3. unfold get32, put32.
  rewrite !get8_put8 by (rewrite ?length_put8; lia).
  repeat match goal with |- context [?a =? ?b] =>
    destruct (Z.eqb_spec a b); try (exfalso; lia) end. reflexivity.
Qed.

(** ** The log header *)

Definition head_n (d : block) : Z := i32 (get32 d 0).
Definition head_blocks (d : block) : list Z := (fun i => i32 (get32 d (4 + 4 * i))) <$> upto (head_n d).

(** What [write_head] stores. *)
Fixpoint put_entries (i : Z) (bl : list Z) (d : block) : block :=
  match bl with
  | [] => d
  | b :: bl' => put_entries (i + 1) bl' (put32 (4 + 4 * i) b d)
  end.
Definition put_head (bl : list Z) (d : block) : block :=
  put_entries 0 bl (put32 0 (Z.of_nat (length bl)) d).

Lemma length_put_entries i bl d : length (put_entries i bl d) = length d.
Proof. revert i d. induction bl as [|b bl IH]; intros; simpl; [done|]. now rewrite IH, length_put32. Qed.
Lemma length_put_head bl d : length (put_head bl d) = length d.
Proof. unfold put_head. now rewrite length_put_entries, length_put32. Qed.

Lemma get32_put_entries_lt i bl d o :
  0 <= i -> 4 + 4 * (i + Z.of_nat (length bl)) <= Z.of_nat (length d) -> 0 <= o -> o + 4 <= 4 + 4 * i ->
  get32 (put_entries i bl d) o = get32 d o.
Proof.
  revert i d. induction bl as [|b bl IH]; intros i d Hi Hl Ho Hoi; simpl in *; [done|].
  rewrite IH by (rewrite ?length_put32; lia). apply get32_put32_ne; lia.
Qed.

Lemma get32_put_entries i bl d k b :
  0 <= i -> 4 + 4 * (i + Z.of_nat (length bl)) <= Z.of_nat (length d) -> bl !! k = Some b ->
  get32 (put_entries i bl d) (4 + 4 * (i + Z.of_nat k)) = u32 b.
Proof.
  revert i d k. induction bl as [|c bl IH]; intros i d k Hi Hl Hk; [done|]. simpl in Hl.
  destruct k as [|k]; simpl in Hk.
  - injection Hk as <-. simpl. rewrite Z.add_0_r.
    rewrite get32_put_entries_lt by (rewrite ?length_put32; lia). apply get32_put32; lia.
  - simpl. replace (i + Z.of_nat (S k)) with (i + 1 + Z.of_nat k) by lia.
    apply IH; [lia|rewrite length_put32; lia|done].
Qed.

Lemma i32_u32 x : - 2 ^ 31 <= x < 2 ^ 31 -> i32 (u32 x) = x.
Proof. unfold i32, u32. intros. change (2 ^ 32) with 4294967296 in *. change (2 ^ 31) with 2147483648 in *.
  Z.div_mod_to_equations. lia. Qed.

Definition home_ok (b : Z) : Prop := 0 <= b < 2 ^ 31.

(** Header round trip. *)
Lemma head_put_head bl d :
  length d = Z.to_nat BSIZE -> Z.of_nat (length bl) <= LOGSIZE -> Forall home_ok bl ->
  head_n (put_head bl d) = Z.of_nat (length bl) /\ head_blocks (put_head bl d) = bl.
Proof.
  intros Hd Hl Hb. unfold LOGSIZE, MAXOPBLOCKS in Hl. unfold BSIZE in Hd.
  assert (Hn : head_n (put_head bl d) = Z.of_nat (length bl)).
  { unfold head_n, put_head. rewrite get32_put_entries_lt by (rewrite ?length_put32; lia).
    rewrite get32_put32 by lia. apply i32_u32. lia. }
  split; [done|]. unfold head_blocks. rewrite Hn. unfold upto. rewrite Nat2Z.id.
  apply list_eq. intros k. rewrite !list_lookup_fmap.
  destruct (decide (k < length bl)%nat) as [Hk|Hk].
  - rewrite lookup_seq_lt by done. simpl. destruct (lookup_lt_is_Some_2 bl k Hk) as [b Hkb].
    rewrite Hkb. f_equal. unfold put_head.
    pose proof (get32_put_entries 0 bl (put32 0 (Z.of_nat (length bl)) d) k b ltac:(lia)
      ltac:(rewrite length_put32; lia) Hkb) as He. rewrite Z.add_0_l in He. rewrite He.
    apply i32_u32. rewrite Forall_lookup in Hb. specialize (Hb k b Hkb). unfold home_ok in Hb. lia.
  - rewrite lookup_seq_ge by lia. simpl. symmetry. apply lookup_ge_None_2. lia.
Qed.

(** ** The logical contents of a disk

    If the header records a transaction, the blocks it names are those in the
    log area. *)

Fixpoint install (at_ : Z) (bl : list Z) (rd base : Z -> block) : Z -> block :=
  match bl with
  | [] => base
  | b :: bl' => install (at_ + 1) bl' rd (<[b := rd at_]> base)
  end.
Definition logical (start : Z) (f : Z -> block) : Z -> block :=
  install (start + 1) (head_blocks (f start)) f f.

Lemma install_out at_ bl rd base bn : bn ∉ bl -> install at_ bl rd base bn = base bn.
Proof.
  revert at_ base. induction bl as [|b bl IH]; intros at_ base Hn; [done|]. simpl.
  rewrite IH by set_solver. apply fn_lookup_insert_ne. set_solver.
Qed.

Lemma install_in at_ bl rd base base' bn :
  bn ∈ bl -> install at_ bl rd base bn = install at_ bl rd base' bn.
Proof.
  revert at_ base base'. induction bl as [|b bl IH]; intros at_ base base' Hn; [by apply elem_of_nil in Hn|].
  simpl. destruct (decide (bn ∈ bl)) as [|Hn']; [by apply IH|].
  rewrite !install_out by done. assert (bn = b) as -> by set_solver. now rewrite !fn_lookup_insert.
Qed.

Lemma install_base at_ bl rd base base' :
  (forall bn, bn ∉ bl -> base bn = base' bn) ->
  forall bn, install at_ bl rd base bn = install at_ bl rd base' bn.
Proof.
  intros H bn. destruct (decide (bn ∈ bl)) as [Hi|Hi]; [by apply install_in|].
  rewrite !install_out by done. auto.
Qed.

Lemma install_ext at_ bl rd rd' base base' :
  (forall i, at_ <= i < at_ + Z.of_nat (length bl) -> rd i = rd' i) ->
  (forall bn, base bn = base' bn) ->
  forall bn, install at_ bl rd base bn = install at_ bl rd' base' bn.
Proof.
  revert at_ base base'. induction bl as [|b bl IH]; intros at_ base base' Hr Hb bn; simpl in *; [auto|].
  apply IH; [intros; apply Hr; lia|]. intros x. destruct (decide (b = x)) as [<-|].
  - rewrite !fn_lookup_insert. apply Hr. lia.
  - now rewrite !fn_lookup_insert_ne.
Qed.

Lemma install_app at_ bl1 bl2 rd base :
  install at_ (bl1 ++ bl2) rd base = install (at_ + Z.of_nat (length bl1)) bl2 rd (install at_ bl1 rd base).
Proof.
  revert at_ base. induction bl1 as [|b bl IH]; intros at_ base; simpl; [now rewrite Z.add_0_r|].
  rewrite IH. f_equal. lia.
Qed.

(** ** Running the log on the buffer cache *)

(** No buffer is locked; exactly the blocks [pins] have one reference each;
    readers see [V], the disk holds [F] and has received the writes [H]. *)
Record at_rest (a : babs) (pins : list Z) (V F : Z -> block) (H : list (Z * block)) : Prop := {
  ar_ref : forall bn, ab_ref a bn = if decide (bn ∈ pins) then 1 else 0;
  ar_holder : forall bn, ab_holder a bn = None;
  ar_view : forall bn, ab_view a bn = V bn;
  ar_disk : forall bn, ab_disk a bn = F bn;
  ar_hist : ab_hist a = H
}.

Definition bio_at (D : Z) (b : bst) (pins : list Z) (V F : Z -> block) (H : list (Z * block)) : Prop :=
  exists a, bio_rep D b a /\ at_rest a pins V F H.

Ltac absimp :=
  cbn [ab_view ab_ref ab_holder ab_disk ab_hist ab_bread ab_bwrite ab_set ab_ref_upd ab_brelse];
  repeat first [rewrite fn_lookup_insert | rewrite fn_lookup_insert_ne by (done || congruence)].

Section Run.
Context `{HC : Ctx} (D : Z).

Lemma at_rest_room a pins V F H :
  at_rest a pins V F H -> Z.of_nat (length pins) < NBUF -> room a.
Proof.
  intros Ha Hl. exists pins. split; [done|]. intros bn. rewrite (ar_ref _ _ _ _ _ Ha).
  destruct (decide (bn ∈ pins)); [done|lia].
Qed.

Lemma bio_at_ext b pins V F H V' F' :
  (forall bn, V bn = V' bn) -> (forall bn, F bn = F' bn) ->
  bio_at D b pins V F H -> bio_at D b pins V' F' H.
Proof.
  intros HV HF (a & Hrep & [A1 A2 A3 A4 A5]). exists a. split; [done|]. split; try done.
  - intros. now rewrite A3.
  - intros. now rewrite A4.
Qed.

(** Copying the block [src] over [dst] and to the disk; [dst] was pinned, and
    is not afterwards, or it was not pinned. *)
Definition cp_install (unpin : bool) (src dst : Z) : M bst unit :=
  lbuf <-! bread D src ;;
  dbuf <-! bread D dst ;;
  copy_data dbuf lbuf ;;;
  bwrite dbuf ;;;
  when unpin (bunpin dbuf) ;;;
  brelse lbuf ;;;
  brelse dbuf.

Lemma copy_data_spec b a to from bt bf :
  bio_rep D b a -> buf_of D b to bt -> buf_of D b from bf -> ab_ref a bt <> 0 ->
  exists b', copy_data to from b = Done tt b' /\ bio_rep D b' (ab_set bt (ab_view a bf) a) /\
    keeps_all D b b'.
Proof.
  intros Hrep Ht Hf Hr. pose proof Hf as (p & [Hi Hp] & _).
  unfold copy_data. rewrite (bind_Done _ _ _ _ _ (getb_Done from p b Hp)).
  rewrite (data_spec D b a from bf p Hrep Hf Hp).
  exact (set_data_spec D b a to bt (ab_view a bf) Hrep Ht Hr).
Qed.

(** Reading an unpinned block and then another one. *)
Lemma fetch_two b a x y pins V F H :
  bio_rep D b a -> at_rest a pins V F H -> x <> y -> x ∉ pins ->
  (if decide (y ∈ pins) then Z.of_nat (length pins) < NBUF else Z.of_nat (length pins) + 1 < NBUF) ->
  exists i j b1 b2, bread D x b = Done i b1 /\ bread D y b1 = Done j b2 /\
    bio_rep D b2 (ab_bread y (ab_bread x a)) /\ buf_of D b2 i x /\ buf_of D b2 j y.
Proof.
  intros Hrep Ha Hne Hx Hl.
  assert (Hr0 : ab_ref a x = 0) by (rewrite (ar_ref _ _ _ _ _ Ha); now rewrite decide_False).
  pose proof (ar_ref _ _ _ _ _ Ha y) as Hry.
  assert (Hlen : Z.of_nat (length pins) < NBUF) by (destruct (decide (y ∈ pins)); lia).
  destruct (bread_spec D b a x Hrep (ar_holder _ _ _ _ _ Ha x) ltac:(lia)
    (or_intror (at_rest_room _ _ _ _ _ Ha Hlen))) as (i & b1 & H1 & R1 & B1 & K1).
  destruct (bread_spec D b1 _ y R1) as (j & b2 & H2 & R2 & B2 & K2).
  { absimp. apply (ar_holder _ _ _ _ _ Ha). }
  { absimp. destruct (decide (y ∈ pins)); lia. }
  { destruct (decide (y ∈ pins)); [left; absimp; lia|right]. exists (x :: pins). split; [simpl; lia|].
    intros bn. cbn. destruct (decide (x = bn)) as [<-|Hn]; [intros; left|].
    rewrite fn_lookup_insert_ne, (ar_ref _ _ _ _ _ Ha) by done.
    destruct (decide (bn ∈ pins)); [intros; by right|done]. }
  exists i, j, b1, b2. conjs; try done. apply K2; [done|absimp; lia].
Qed.

Lemma bwrite_keeps b a i bn :
  bio_rep D b a -> buf_of D b i bn -> ab_holder a bn = Some mypid ->
  exists b', bwrite i b = Done tt b' /\ bio_rep D b' (ab_bwrite bn a) /\ keeps_all D b b'.
Proof.
  intros Hrep Hb Hh. destruct (bwrite_spec D b a i bn Hrep Hb Hh) as (b' & H1 & H2 & E).
  exists b'. split; [done|]. split; [done|].
  intros x y (c & [Hx Hc] & Hrest). exists c. split; [|done]. split; [done|]. by rewrite E.
Qed.

Lemma cp_install_spec b (unpin : bool) src dst pins V F H :
  bio_at D b pins V F H -> src <> dst -> src ∉ pins -> (if unpin then dst ∈ pins else dst ∉ pins) ->
  (if unpin then Z.of_nat (length pins) < NBUF else Z.of_nat (length pins) + 1 < NBUF) ->
  exists b', cp_install unpin src dst b = Done tt b' /\
    bio_at D b' (filter (fun x => x <> dst) pins)
      (<[dst := V src]> V) (<[dst := V src]> F) (H ++ [(dst, V src)]).
Proof.
  intros (a & Hrep & Ha) Hne Hsrc Hdst Hlen.
  assert (Hr0 : ab_ref a src = 0) by (rewrite (ar_ref _ _ _ _ _ Ha); now rewrite decide_False).
  assert (Hrd : ab_ref a dst = if unpin then 1 else 0).
  { rewrite (ar_ref _ _ _ _ _ Ha). destruct unpin; [now rewrite decide_True|now rewrite decide_False]. }
  destruct (fetch_two b a src dst pins V F H Hrep Ha Hne Hsrc) as (i & j & b1 & b2 & H1 & H2 & R2 & B1 & B2).
  { destruct unpin; [now rewrite decide_True|now rewrite decide_False]. }
  destruct (copy_data_spec b2 _ j i dst src R2 B2 B1) as (b3 & H3 & R3 & K3).
  { absimp. destruct unpin; lia. }
  destruct (bwrite_keeps b3 _ j dst R3 (K3 _ _ B2)) as (b4 & H4 & R4 & K4); [absimp; done|].
  set (a4 := ab_bwrite dst _) in *.
  assert (Hr4 : ab_ref a4 dst = if unpin then 2 else 1) by (unfold a4; absimp; destruct unpin; lia).
  assert (Hun : exists b5, when unpin (bunpin j) b4 = Done tt b5 /\ keeps_all D b4 b5 /\
    bio_rep D b5 (ab_ref_upd dst 1 a4)).
  { destruct unpin; cbn [when].
    - destruct (bunpin_spec D b4 a4 j dst R4) as (b5 & H5 & R5 & K5); [by apply K4, K3|lia|].
      rewrite Hr4 in R5. by exists b5.
    - exists b4. split; [done|]. split; [by intros x y|]. eapply bio_rep_proper; [|exact R4].
      split; [|done]. intros bn. cbn. destruct (decide (dst = bn)) as [<-|]; absimp; rewrite ?Hrd; done. }
  destruct Hun as (b5 & H5 & K5 & R5).
  destruct (brelse_spec D b5 _ i src R5) as (b6 & H6 & R6 & K6);
    [by apply K5, K4, K3|unfold a4; absimp; done|unfold a4; absimp; lia| |].
  { right. unfold a4. absimp. destruct (br_clean _ _ _ Hrep src Hr0) as [_ ->]. done. }
  destruct (brelse_spec D b6 _ j dst R6) as (b7 & H7 & R7 & K7);
    [by apply K6, K5, K4, K3|unfold a4; absimp; done|unfold a4; absimp; lia|right; unfold a4; absimp; done|].
  exists b7. split.
  - unfold cp_install. rewrite (bind_Done _ _ _ _ _ H1), (bind_Done _ _ _ _ _ H2), (bind_Done _ _ _ _ _ H3),
      (bind_Done _ _ _ _ _ H4), (bind_Done _ _ _ _ _ H5), (bind_Done _ _ _ _ _ H6). exact H7.
  - eexists. split; [exact R7|]. unfold a4. clear -Ha Hne Hsrc Hr0 Hrd. split; intros; absimp.
    + destruct (decide (dst = bn)) as [<-|Hn1]; absimp;
        [rewrite decide_False by (rewrite list_elem_of_filter; tauto); lia|].
      destruct (decide (src = bn)) as [<-|Hn2]; absimp;
        [rewrite decide_False by (rewrite list_elem_of_filter; tauto); lia|].
      rewrite (ar_ref _ _ _ _ _ Ha). apply decide_ext. rewrite list_elem_of_filter. naive_solver.
    + destruct (decide (dst = bn)) as [<-|Hn1]; absimp; [done|].
      destruct (decide (src = bn)) as [<-|Hn2]; absimp; [done|]. apply (ar_holder _ _ _ _ _ Ha).
    + rewrite (ar_view _ _ _ _ _ Ha). destruct (decide (dst = bn)) as [<-|Hn1]; absimp; [done|].
      apply (ar_view _ _ _ _ _ Ha).
    + rewrite (ar_view _ _ _ _ _ Ha). destruct (decide (dst = bn)) as [<-|Hn1]; absimp; [done|].
      apply (ar_disk _ _ _ _ _ Ha).
    + rewrite (ar_view _ _ _ _ _ Ha), (ar_hist _ _ _ _ _ Ha). done.
Qed.

(** Copying the pinned block [from] to the log block [to] and to the disk. *)
Definition cp_log (to_ from_ : Z) : M bst unit :=
  to <-! bread D to_ ;;
  from <-! bread D from_ ;;
  copy_data to from ;;;
  bwrite to ;;;
  brelse from ;;;
  brelse to.

Lemma cp_log_spec b to_ from_ pins V F H :
  bio_at D b pins V F H -> to_ <> from_ -> to_ ∉ pins -> from_ ∈ pins ->
  Z.of_nat (length pins) < NBUF ->
  exists b', cp_log to_ from_ b = Done tt b' /\
    bio_at D b' pins (<[to_ := V from_]> V) (<[to_ := V from_]> F) (H ++ [(to_, V from_)]).
Proof.
  intros (a & Hrep & Ha) Hne Hto Hfrom Hlen.
  assert (Hr0 : ab_ref a to_ = 0) by (rewrite (ar_ref _ _ _ _ _ Ha); now rewrite decide_False).
  assert (Hrf : ab_ref a from_ = 1) by (rewrite (ar_ref _ _ _ _ _ Ha); now rewrite decide_True).
  destruct (fetch_two b a to_ from_ pins V F H Hrep Ha Hne Hto) as (i & j & b1 & b2 & H1 & H2 & R2 & B1 & B2).
  { now rewrite decide_True. }
  destruct (copy_data_spec b2 _ i j to_ from_ R2 B1 B2) as (b3 & H3 & R3 & K3); [absimp; lia|].
  destruct (bwrite_keeps b3 _ i to_ R3 (K3 _ _ B1)) as (b4 & H4 & R4 & K4); [absimp; done|].
  destruct (brelse_spec D b4 _ j from_ R4) as (b5 & H5 & R5 & K5);
    [by apply K4, K3|absimp; done|absimp; lia|left; absimp; lia|].
  destruct (brelse_spec D b5 _ i to_ R5) as (b6 & H6 & R6 & K6);
    [by apply K5, K4, K3|absimp; done|absimp; lia|right; absimp; done|].
  exists b6. split.
  - unfold cp_log. rewrite (bind_Done _ _ _ _ _ H1), (bind_Done _ _ _ _ _ H2), (bind_Done _ _ _ _ _ H3),
      (bind_Done _ _ _ _ _ H4), (bind_Done _ _ _ _ _ H5). exact H6.
  - eexists. split; [exact R6|]. clear -Ha Hne Hto Hfrom Hr0 Hrf. split; intros; absimp.
    + destruct (decide (to_ = bn)) as [<-|Hn1]; absimp; [rewrite decide_False by done; lia|].
      destruct (decide (from_ = bn)) as [<-|Hn2]; absimp; [rewrite decide_True by done; lia|].
      apply (ar_ref _ _ _ _ _ Ha).
    + destruct (decide (to_ = bn)) as [<-|Hn1]; absimp; [done|].
      destruct (decide (from_ = bn)) as [<-|Hn2]; absimp; [done|]. apply (ar_holder _ _ _ _ _ Ha).
    + rewrite (ar_view _ _ _ _ _ Ha). destruct (decide (to_ = bn)) as [<-|Hn1]; absimp; [done|].
      apply (ar_view _ _ _ _ _ Ha).
    + rewrite (ar_view _ _ _ _ _ Ha). destruct (decide (to_ = bn)) as [<-|Hn1]; absimp; [done|].
      apply (ar_disk _ _ _ _ _ Ha).
    + rewrite (ar_view _ _ _ _ _ Ha), (ar_hist _ _ _ _ _ Ha). done.
Qed.

(** Rewriting one unpinned block in place. *)
Lemma head_spec b bn pins V F H :
  bio_at D b pins V F H -> bn ∉ pins -> Z.of_nat (length pins) < NBUF ->
  exists i b1, bread D bn b = Done i b1 /\
    (exists p, bufs b1 !! i = Some p /\ b_data p = V bn) /\
    (exists b2, brelse i b1 = Done tt b2 /\ bio_at D b2 pins V F H) /\
    forall d, exists b2 b3 b4, updb i (set_data d) b1 = Done tt b2 /\
      bwrite i b2 = Done tt b3 /\ brelse i b3 = Done tt b4 /\
      bio_at D b4 pins (<[bn := d]> V) (<[bn := d]> F) (H ++ [(bn, d)]).
Proof.
  intros (a & Hrep & Ha) Hn Hlen.
  assert (Hr0 : ab_ref a bn = 0) by (rewrite (ar_ref _ _ _ _ _ Ha); now rewrite decide_False).
  destruct (bread_spec D b a bn Hrep (ar_holder _ _ _ _ _ Ha bn) ltac:(lia)
    (or_intror (at_rest_room _ _ _ _ _ Ha Hlen))) as (i & b1 & H1 & R1 & B1 & _).
  exists i, b1. split; [done|]. split; [|split].
  - pose proof B1 as (p & [Hi Hp] & _). exists p. split; [done|].
    rewrite (data_spec D b1 _ i bn p R1 B1 Hp). apply (ar_view _ _ _ _ _ Ha).
  - destruct (brelse_spec D b1 _ i bn R1 B1) as (b2 & H2 & R2 & _);
      [absimp; done|absimp; lia|right; absimp; by apply (br_clean _ _ _ Hrep)|].
    exists b2. split; [done|]. eexists. split; [exact R2|]. destruct Ha as [A1 A2 A3 A4 A5].
    split; intros; absimp; try done; destruct (decide (bn = bn0)) as [<-|Hx]; absimp; try done.
    rewrite decide_False by done. lia.
  - intros d. destruct (set_data_spec D b1 _ i bn d R1 B1) as (b2 & H2 & R2 & K2); [absimp; lia|].
    destruct (bwrite_keeps b2 _ i bn R2 (K2 _ _ B1)) as (b3 & H3 & R3 & K3); [absimp; done|].
    destruct (brelse_spec D b3 _ i bn R3) as (b4 & H4 & R4 & K4);
      [by apply K3, K2|absimp; done|absimp; lia|right; absimp; done|].
    exists b2, b3, b4. conjs; try done. eexists. split; [exact R4|]. destruct Ha as [A1 A2 A3 A4 A5].
    split; intros; absimp; try (destruct (decide (bn = bn0)) as [<-|Hx]; absimp; try done).
    + rewrite decide_False by done. lia.
    + now rewrite A5.
Qed.
End Run.

(** ** The phases of a commit *)

(** The log area after the blocks [bl] were copied to it from [rd]. *)
Fixpoint logged (at_ : Z) (bl : list Z) (rd base : Z -> block) : Z -> block :=
  match bl with
  | [] => base
  | b :: bl' => logged (at_ + 1) bl' rd (<[at_ := rd b]> base)
  end.
(** The writes of the two copying phases. *)
Fixpoint log_writes (at_ : Z) (bl : list Z) (rd : Z -> block) : list (Z * block) :=
  match bl with
  | [] => []
  | b :: bl' => (at_, rd b) :: log_writes (at_ + 1) bl' rd
  end.
Fixpoint inst_writes (at_ : Z) (bl : list Z) (rd : Z -> block) : list (Z * block) :=
  match bl with
  | [] => []
  | b :: bl' => (b, rd at_) :: inst_writes (at_ + 1) bl' rd
  end.

Lemma logged_snoc at_ bl b rd base :
  logged at_ (bl ++ [b]) rd base = <[at_ + Z.of_nat (length bl) := rd b]> (logged at_ bl rd base).
Proof.
  revert at_ base. induction bl as [|c bl IH]; intros at_ base; simpl; [now rewrite Z.add_0_r|].
  rewrite IH. f_equal. lia.
Qed.
Lemma log_writes_snoc at_ bl b rd :
  log_writes at_ (bl ++ [b]) rd = log_writes at_ bl rd ++ [(at_ + Z.of_nat (length bl), rd b)].
Proof.
  revert at_. induction bl as [|c bl IH]; intros at_; simpl; [now rewrite Z.add_0_r|].
  rewrite IH. do 4 f_equal. lia.
Qed.
Lemma inst_writes_snoc at_ bl b rd :
  inst_writes at_ (bl ++ [b]) rd = inst_writes at_ bl rd ++ [(b, rd (at_ + Z.of_nat (length bl)))].
Proof.
  revert at_. induction bl as [|c bl IH]; intros at_; simpl; [now rewrite Z.add_0_r|].
  rewrite IH. do 5 f_equal. lia.
Qed.
Lemma install_snoc at_ bl b rd base :
  install at_ (bl ++ [b]) rd base = <[b := rd (at_ + Z.of_nat (length bl))]> (install at_ bl rd base).
Proof. rewrite install_app. reflexivity. Qed.

Lemma logged_out at_ bl rd base bn :
  ~ (at_ <= bn < at_ + Z.of_nat (length bl)) -> logged at_ bl rd base bn = base bn.
Proof.
  revert at_ base. induction bl as [|c bl IH]; intros at_ base Hn; simpl in *; [done|].
  rewrite IH by lia. apply fn_lookup_insert_ne. lia.
Qed.

Lemma logged_in at_ bl rd base k b :
  bl !! k = Some b -> logged at_ bl rd base (at_ + Z.of_nat k) = rd b.
Proof.
  revert at_ base k. induction bl as [|c bl IH]; intros at_ base k Hk; [done|].
  destruct k as [|k]; cbn [logged].
  - injection Hk as ->. rewrite logged_out by lia. rewrite Z.add_0_r. apply fn_lookup_insert.
  - replace (at_ + Z.of_nat (S k)) with (at_ + 1 + Z.of_nat k) by lia. exact (IH (at_ + 1) _ k Hk).
Qed.

Section LogRun.
Context `{HC : Ctx} (D : Z).

(** The log between operations: the transaction in memory is [bl]. *)
Record log_at (s : lst) (st : Z) (bl pins : list Z) (V F : Z -> block) (H : list (Z * block)) : Prop := {
  la_dev : lg_dev (ls_log s) = D;
  la_start : lg_start (ls_log s) = st;
  la_n : lg_n (ls_log s) = Z.of_nat (length bl);
  la_blocks : take (length bl) (lg_block (ls_log s)) = bl;
  la_len : Z.of_nat (length (lg_block (ls_log s))) = LOGSIZE;
  la_bio : bio_at D (ls_bio s) pins V F H
}.

(** Where the log area is, and that home blocks are outside of it. *)
Record area_ok (st : Z) (bl : list Z) : Prop := {
  ao_st : 0 <= st < 2 ^ 31 - 64;
  ao_len : Z.of_nat (length bl) < LOGSIZE;
  ao_home : forall b, b ∈ bl -> home_ok b /\ ~ (st <= b < st + LOGSIZE)
}.

Lemma bio_Done {A} (m : M bst A) s a b : m (ls_bio s) = Done a b -> bio m s = Done a (Lst (ls_log s) b).
Proof. apply (lift_Done ls_bio_lens). Qed.

Lemma get_block_at s bl k b :
  take (length bl) (lg_block (ls_log s)) = bl -> bl !! k = Some b ->
  get_block (Z.of_nat k) s = Done b s.
Proof.
  intros Hl Hk. unfold get_block. rewrite Nat2Z.id.
  pose proof (lookup_lt_Some _ _ _ Hk) as Hlt. rewrite <- Hl in Hk.
  rewrite lookup_take in Hk. rewrite decide_True in Hk by done. now rewrite Hk.
Qed.

Lemma log_at_bio s st bl pins V F H b pins' V' F' H' :
  log_at s st bl pins V F H -> bio_at D b pins' V' F' H' ->
  log_at (Lst (ls_log s) b) st bl pins' V' F' H'.
Proof. intros [L1 L2 L3 L4 L5 _] Hb. by split. Qed.

Lemma step_addr st k : 0 <= st < 2 ^ 31 - 64 -> Z.of_nat k < LOGSIZE ->
  u32 (st + Z.of_nat k + 1) = st + 1 + Z.of_nat k.
Proof. unfold LOGSIZE, MAXOPBLOCKS. intros. rewrite u32_small by lia. lia. Qed.

Lemma write_log_step_spec s st bl pins V F H k b :
  log_at s st bl pins V F H -> area_ok st bl -> bl !! k = Some b -> b ∈ pins ->
  (forall x, x ∈ pins -> x ∈ bl) -> Z.of_nat (length pins) < NBUF ->
  exists s', write_log_step (Z.of_nat k) s = Done tt s' /\
    log_at s' st bl pins (<[st + 1 + Z.of_nat k := V b]> V) (<[st + 1 + Z.of_nat k := V b]> F)
      (H ++ [(st + 1 + Z.of_nat k, V b)]).
Proof.
  intros Hl [A1 A2 A3] Hk Hb Hpins Hlen. pose proof (lookup_lt_Some _ _ _ Hk) as Hlt.
  destruct (A3 b) as [Hho Hn]; [by eapply list_elem_of_lookup_2|].
  pose proof (step_addr st k A1 ltac:(lia)) as Hu.
  destruct (cp_log_spec D (ls_bio s) (st + 1 + Z.of_nat k) b pins V F H (la_bio _ _ _ _ _ _ _ Hl))
    as (b' & Hrun & Hb'); try done; [lia| |].
  { intros Hin%Hpins. destruct (A3 _ Hin). lia. }
  exists (Lst (ls_log s) b'). split; [|by eapply log_at_bio].
  unfold cp_log in Hrun. unfold write_log_step, log_get.
  rewrite (bind_Done (gets _) _ s _ s eq_refl), (bind_Done (gets _) _ s _ s eq_refl).
  rewrite (la_dev _ _ _ _ _ _ _ Hl), (la_start _ _ _ _ _ _ _ Hl), Hu.
  apply bind_Done_inv in Hrun as (to & b1 & H1 & Hrun).
  rewrite (bind_Done _ _ _ _ _ (bio_Done _ s _ _ H1)).
  rewrite (bind_Done _ _ _ _ _ (get_block_at (Lst (ls_log s) b1) bl k b (la_blocks _ _ _ _ _ _ _ Hl) Hk)).
  unfold home_ok in Hho. rewrite (u32_small b) by lia.
  apply bind_Done_inv in Hrun as (from & b2 & H2 & Hrun).
  rewrite (bind_Done _ _ _ _ _ (bio_Done _ (Lst (ls_log s) b1) _ _ H2)).
  apply bind_Done_inv in Hrun as ([] & b3 & H3 & Hrun).
  rewrite (bind_Done _ _ _ _ _ (bio_Done _ (Lst (ls_log s) b2) _ _ H3)).
  apply bind_Done_inv in Hrun as ([] & b4 & H4 & Hrun).
  rewrite (bind_Done _ _ _ _ _ (bio_Done _ (Lst (ls_log s) b3) _ _ H4)).
  apply bind_Done_inv in Hrun as ([] & b5 & H5 & Hrun).
  rewrite (bind_Done _ _ _ _ _ (bio_Done _ (Lst (ls_log s) b4) _ _ H5)).
  exact (bio_Done _ (Lst (ls_log s) b5) _ _ Hrun).
Qed.

Lemma install_step_spec s st bl pins V F H k b (recovering : bool) :
  log_at s st bl pins V F H -> area_ok st bl -> bl !! k = Some b ->
  (if recovering then pins = [] else b ∈ pins /\ Z.of_nat (length pins) < NBUF) ->
  (forall x, x ∈ pins -> x ∈ bl) ->
  exists s', install_step recovering (Z.of_nat k) s = Done tt s' /\
    log_at s' st bl (filter (fun x => x <> b) pins) (<[b := V (st + 1 + Z.of_nat k)]> V)
      (<[b := V (st + 1 + Z.of_nat k)]> F) (H ++ [(b, V (st + 1 + Z.of_nat k))]).
Proof.
  intros Hl [A1 A2 A3] Hk Hb Hpins. pose proof (lookup_lt_Some _ _ _ Hk) as Hlt.
  destruct (A3 b) as [Hho Hn]; [by eapply list_elem_of_lookup_2|].
  pose proof (step_addr st k A1 ltac:(lia)) as Hu.
  destruct (cp_install_spec D (ls_bio s) (negb recovering) (st + 1 + Z.of_nat k) b pins V F H
    (la_bio _ _ _ _ _ _ _ Hl)) as (b' & Hrun & Hb'); try done; [lia| | | |].
  { intros Hin%Hpins. destruct (A3 _ Hin). lia. }
  { destruct recovering; cbn [negb]; [subst; apply not_elem_of_nil|tauto]. }
  { destruct recovering; cbn [negb]; [subst; done|tauto]. }
  exists (Lst (ls_log s) b'). split; [|by eapply log_at_bio].
  unfold cp_install in Hrun. unfold install_step, log_get.
  rewrite (bind_Done (gets _) _ s _ s eq_refl), (bind_Done (gets _) _ s _ s eq_refl).
  rewrite (la_dev _ _ _ _ _ _ _ Hl), (la_start _ _ _ _ _ _ _ Hl), Hu.
  apply bind_Done_inv in Hrun as (lb & b1 & H1 & Hrun).
  rewrite (bind_Done _ _ _ _ _ (bio_Done _ s _ _ H1)).
  rewrite (bind_Done _ _ _ _ _ (get_block_at (Lst (ls_log s) b1) bl k b (la_blocks _ _ _ _ _ _ _ Hl) Hk)).
  unfold home_ok in Hho. rewrite (u32_small b) by lia.
  apply bind_Done_inv in Hrun as (db & b2 & H2 & Hrun).
  rewrite (bind_Done _ _ _ _ _ (bio_Done _ (Lst (ls_log s) b1) _ _ H2)).
  apply bind_Done_inv in Hrun as ([] & b3 & H3 & Hrun).
  rewrite (bind_Done _ _ _ _ _ (bio_Done _ (Lst (ls_log s) b2) _ _ H3)).
  apply bind_Done_inv in Hrun as ([] & b4 & H4 & Hrun).
  rewrite (bind_Done _ _ _ _ _ (bio_Done _ (Lst (ls_log s) b3) _ _ H4)).
  apply bind_Done_inv in Hrun as ([] & b5 & H5 & Hrun).
  assert (H5' : when (negb recovering) (bio (bunpin db)) (Lst (ls_log s) b4) = Done tt (Lst (ls_log s) b5)).
  { destruct recovering; cbn [negb when] in *; [injection H5 as ->; done|].
    exact (bio_Done _ (Lst (ls_log s) b4) _ _ H5). }
  rewrite (bind_Done _ _ _ _ _ H5').
  apply bind_Done_inv in Hrun as ([] & b6 & H6 & Hrun).
  rewrite (bind_Done _ _ _ _ _ (bio_Done _ (Lst (ls_log s) b5) _ _ H6)).
  exact (bio_Done _ (Lst (ls_log s) b6) _ _ Hrun).
Qed.

Lemma log_at_ext s st bl pins V F H V' F' :
  (forall bn, V bn = V' bn) -> (forall bn, F bn = F' bn) ->
  log_at s st bl pins V F H -> log_at s st bl pins V' F' H.
Proof. intros HV HF [L1 L2 L3 L4 L5 L6]. split; try done. by eapply bio_at_ext. Qed.

Lemma write_log_spec s st bl V F H :
  log_at s st bl bl V F H -> area_ok st bl -> Z.of_nat (length bl) < NBUF ->
  exists s', write_log s = Done tt s' /\
    log_at s' st bl bl (logged (st + 1) bl V V) (logged (st + 1) bl V F)
      (H ++ log_writes (st + 1) bl V).
Proof.
  intros Hl Ha Hlen. unfold write_log, log_get. rewrite (bind_Done (gets _) _ s _ s eq_refl).
  rewrite (la_n _ _ _ _ _ _ _ Hl).
  destruct (for_upto (length bl) write_log_step (fun k s => log_at s st bl bl
    (logged (st + 1) (take k bl) V V) (logged (st + 1) (take k bl) V F)
    (H ++ log_writes (st + 1) (take k bl) V)) s) as (s' & Hrun & Hs').
  - simpl. now rewrite app_nil_r.
  - intros k s1 Hk Hs1. destruct (lookup_lt_is_Some_2 bl k Hk) as [b Hb].
    destruct (write_log_step_spec s1 st bl bl _ _ _ k b Hs1 Ha Hb) as (s2 & H2 & Hl2); try done.
    { by eapply list_elem_of_lookup_2. }
    exists s2. split; [done|]. rewrite Nat.add_1_r, (take_S_r bl k b Hb).
    rewrite !logged_snoc, log_writes_snoc, length_take, Nat.min_l, app_assoc by lia.
    destruct Ha as [A1 A2 A3]. destruct (A3 b) as [_ Hn]; [by eapply list_elem_of_lookup_2|].
    assert (Hv : logged (st + 1) (take k bl) V V b = V b).
    { apply logged_out. rewrite length_take. lia. }
    rewrite Hv in Hl2. done.
  - rewrite firstn_all in Hs'. eauto.
Qed.

Lemma filter_head (b : Z) l : NoDup (b :: l) -> filter (fun x => x <> b) (b :: l) = l.
Proof.
  intros [Hb Hnd]%NoDup_cons. rewrite filter_cons_False by (intros Hx; now apply Hx).
  clear Hnd. induction l as [|x l IH]; [done|].
  rewrite filter_cons_True by set_solver. f_equal. apply IH. set_solver.
Qed.

Lemma install_trans_spec s st bl V F H (recovering : bool) :
  log_at s st bl (if recovering then [] else bl) V F H -> area_ok st bl ->
  (if recovering then True else NoDup bl /\ Z.of_nat (length bl) < NBUF) ->
  exists s', install_trans recovering s = Done tt s' /\
    log_at s' st bl [] (install (st + 1) bl V V) (install (st + 1) bl V F)
      (H ++ inst_writes (st + 1) bl V).
Proof.
  intros Hl Ha Hlen. unfold install_trans, log_get. rewrite (bind_Done (gets _) _ s _ s eq_refl).
  rewrite (la_n _ _ _ _ _ _ _ Hl).
  destruct (for_upto (length bl) (install_step recovering) (fun k s => log_at s st bl
    (if recovering then [] else drop k bl)
    (install (st + 1) (take k bl) V V) (install (st + 1) (take k bl) V F)
    (H ++ inst_writes (st + 1) (take k bl) V)) s) as (s' & Hrun & Hs').
  - simpl. now rewrite app_nil_r.
  - intros k s1 Hk Hs1. destruct (lookup_lt_is_Some_2 bl k Hk) as [b Hb].
    destruct (install_step_spec s1 st bl _ _ _ _ k b recovering Hs1 Ha Hb) as (s2 & H2 & Hl2).
    { destruct recovering; [done|]. rewrite (drop_S bl b k Hb). split; [left|].
      simpl. rewrite length_drop. lia. }
    { destruct recovering; [intros x Hx; by apply elem_of_nil in Hx|].
      intros x (j & Hx)%list_elem_of_lookup. rewrite lookup_drop in Hx. by eapply list_elem_of_lookup_2. }
    exists s2. split; [done|]. rewrite Nat.add_1_r, (take_S_r bl k b Hb).
    rewrite !install_snoc, inst_writes_snoc, length_take, Nat.min_l, app_assoc by lia.
    assert (Hv : install (st + 1) (take k bl) V V (st + 1 + Z.of_nat k) = V (st + 1 + Z.of_nat k)).
    { apply install_out. intros (j & Hj)%list_elem_of_lookup. rewrite lookup_take_Some in Hj.
      destruct Hj as [Hj _]. destruct Ha as [_ A2 A3].
      destruct (A3 _ (list_elem_of_lookup_2 _ _ _ Hj)) as [_ Hn]. lia. }
    rewrite Hv in Hl2. destruct recovering; [done|].
    rewrite (drop_S bl b k Hb), filter_head in Hl2; [done|].
    rewrite <- (drop_S bl b k Hb). destruct Hlen as [Hnd _].
    rewrite <- (take_drop k bl) in Hnd. by apply NoDup_app in Hnd as (_ & _ & ?).
  - rewrite firstn_all in Hs'. exists s'. split; [done|].
    destruct recovering; [done|]. now rewrite drop_all in Hs'.
Qed.

Lemma put_entries_snoc i bl b d :
  put_entries i (bl ++ [b]) d = put32 (4 + 4 * (i + Z.of_nat (length bl))) b (put_entries i bl d).
Proof.
  revert i d. induction bl as [|c bl IH]; intros i d; simpl; [now rewrite Z.add_0_r|].
  rewrite IH. do 3 f_equal. lia.
Qed.

Lemma updb_data i d p b f :
  bufs b !! i = Some p ->
  updb i (fun p => set_data (f (b_data p)) p) (put i (set_data d p) b) = Done tt (put i (set_data (f d) p) b).
Proof.
  intros Hp. rewrite (updb_Done i _ (set_data d p)) by (rewrite bufs_put; apply lookup_insert_eq).
  rewrite put_put. reflexivity.
Qed.

Lemma write_head_spec s st bl pins V F H :
  log_at s st bl pins V F H -> 0 <= st < 2 ^ 31 - 64 -> st ∉ pins -> Z.of_nat (length pins) < NBUF ->
  exists s', write_head s = Done tt s' /\
    log_at s' st bl pins (<[st := put_head bl (V st)]> V) (<[st := put_head bl (V st)]> F)
      (H ++ [(st, put_head bl (V st))]).
Proof.
  intros Hl Hst Hn Hlen.
  destruct (head_spec D (ls_bio s) st pins V F H (la_bio _ _ _ _ _ _ _ Hl) Hn Hlen)
    as (i & b1 & H1 & (p & Hp & Hd) & _ & Hset).
  destruct (Hset (put_head bl (V st))) as (b2 & b3 & b4 & H2 & H3 & H4 & Hb4).
  exists (Lst (ls_log s) b4). split; [|by eapply log_at_bio].
  unfold write_head, log_get. do 2 rewrite (bind_Done (gets _) _ s _ s eq_refl).
  rewrite (la_dev _ _ _ _ _ _ _ Hl), (la_start _ _ _ _ _ _ _ Hl), u32_small by lia.
  rewrite (bind_Done _ _ _ _ _ (bio_Done _ s _ _ H1)).
  rewrite (bind_Done (gets _) _ _ _ _ eq_refl). cbn [ls_log]. rewrite (la_n _ _ _ _ _ _ _ Hl).
  set (d1 := put32 0 (Z.of_nat (length bl)) (V st)).
  assert (Hu1 : updb i (fun p => set_data (put32 0 (Z.of_nat (length bl)) (b_data p)) p) b1 =
                Done tt (put i (set_data d1 p) b1)).
  { rewrite (updb_Done i _ p) by done. now rewrite Hd. }
  rewrite (bind_Done _ _ _ _ _ (bio_Done _ (Lst (ls_log s) b1) _ _ Hu1)).
  match goal with |- context [for_each _ ?f] =>
    destruct (for_upto (length bl) f (fun k s' =>
      s' = Lst (ls_log s) (put i (set_data (put_entries 0 (take k bl) d1) p) b1))
      (Lst (ls_log s) (put i (set_data d1 p) b1))) as (s2 & Hrun & Hs2) end.
  - reflexivity.
  - intros k s1 Hk ->. destruct (lookup_lt_is_Some_2 bl k Hk) as [b Hb].
    eexists. split; [|reflexivity].
    erewrite bind_Done by
      (eapply (get_block_at (Lst (ls_log s) _)); [exact (la_blocks _ _ _ _ _ _ _ Hl)|exact Hb]).
    rewrite Nat.add_1_r, (take_S_r bl k b Hb), put_entries_snoc, length_take, Nat.min_l by lia.
    rewrite Z.add_0_l. apply (bio_Done _ (Lst (ls_log s) _)). cbn [ls_bio]. by apply updb_data.
  - rewrite (bind_Done _ _ _ _ _ Hrun), Hs2, firstn_all.
    rewrite (updb_Done i _ p) in H2 by done. injection H2 as <-.
    rewrite (bind_Done _ _ _ _ _ (bio_Done _ (Lst (ls_log s) _) _ _ H3)).
    exact (bio_Done _ (Lst (ls_log s) b3) _ _ H4).
Qed.

Lemma set_block_Done i b s :
  0 <= i < Z.of_nat (length (lg_block (ls_log s))) ->
  set_block i b s = Done tt (upd_log (fun l => Logst (lg_lock l) (lg_start l) (lg_size l)
    (lg_outstanding l) (lg_committing l) (lg_dev l) (lg_n l) (<[Z.to_nat i := b]> (lg_block l))) s).
Proof. intros Hi. unfold set_block. now rewrite decide_True. Qed.

(** [read_head] leaves the transaction of the header in memory. *)
Lemma read_head_spec s st bl V F H :
  log_at s st bl [] V F H -> 0 <= st < 2 ^ 31 - 64 -> 0 <= head_n (V st) <= LOGSIZE ->
  exists s', read_head s = Done tt s' /\ log_at s' st (head_blocks (V st)) [] V F H /\
    lg_outstanding (ls_log s') = lg_outstanding (ls_log s) /\
    lg_committing (ls_log s') = lg_committing (ls_log s) /\
    lg_size (ls_log s') = lg_size (ls_log s) /\ lg_lock (ls_log s') = lg_lock (ls_log s).
Proof.
  intros Hl Hst Hn.
  destruct (head_spec D (ls_bio s) st [] V F H (la_bio _ _ _ _ _ _ _ Hl)) as (i & b1 & H1 & (p & Hp & Hd) & (b2 & H2 & Hb2) & _);
    [apply not_elem_of_nil|done|].
  unfold read_head, log_get. do 2 rewrite (bind_Done (gets _) _ s _ s eq_refl).
  rewrite (la_dev _ _ _ _ _ _ _ Hl), (la_start _ _ _ _ _ _ _ Hl), u32_small by lia.
  rewrite (bind_Done _ _ _ _ _ (bio_Done _ s _ _ H1)).
  rewrite (bind_Done _ _ _ _ _ (bio_Done _ (Lst (ls_log s) b1) _ _ (getb_Done i p b1 Hp))).
  rewrite (bind_Done (log_set _) _ _ _ _ eq_refl), (bind_Done (gets _) _ _ _ _ eq_refl).
  cbn [ls_log upd_log set_n lg_n]. rewrite Hd. fold (head_n (V st)).
  set (l0 := ls_log s).
  assert (Hlen : length (head_blocks (V st)) = Z.to_nat (head_n (V st)))
    by (unfold head_blocks, upto; now rewrite !length_fmap, length_seq).
  pose proof (la_len _ _ _ _ _ _ _ Hl) as HL.
  replace (head_n (V st)) with (Z.of_nat (length (head_blocks (V st)))) by lia.
  match goal with |- context [for_each _ ?f] =>
    destruct (for_upto (length (head_blocks (V st))) f (fun k s' => exists bs,
      s' = Lst (Logst (lg_lock l0) (lg_start l0) (lg_size l0) (lg_outstanding l0) (lg_committing l0)
                 (lg_dev l0) (Z.of_nat (length (head_blocks (V st)))) bs) b1 /\
      length bs = length (lg_block l0) /\ take k bs = take k (head_blocks (V st)))
      (Lst (Logst (lg_lock l0) (lg_start l0) (lg_size l0) (lg_outstanding l0) (lg_committing l0)
        (lg_dev l0) (Z.of_nat (length (head_blocks (V st)))) (lg_block l0)) b1)) as (s2 & Hrun & (bs & Hs2 & Hbs & Htk)) end.
  - exists (lg_block l0). done.
  - intros k s1 Hk (bs & -> & Hbs & Htk). destruct (lookup_lt_is_Some_2 (head_blocks (V st)) k Hk) as [b Hb].
    rewrite set_block_Done by (cbn; unfold l0 in Hbs; lia). eexists. split; [reflexivity|].
    eexists. split; [reflexivity|]. cbn. rewrite length_insert, Nat2Z.id. split; [done|].
    assert (Hbv : i32 (get32 (V st) (4 + 4 * Z.of_nat k)) = b).
    { unfold head_blocks, upto in Hb. rewrite !list_lookup_fmap, lookup_seq_lt in Hb by lia. simpl in Hb. congruence. }
    rewrite Hbv, Nat.add_1_r, (take_S_r (head_blocks (V st)) k b Hb).
    rewrite (take_S_r (<[k:=b]> bs) k b) by (apply list_lookup_insert_eq; unfold l0 in Hbs; lia).
    rewrite take_insert_ge, Htk by lia. done.
  - rewrite (bind_Done _ _ _ _ _ Hrun), Hs2. eexists.
    split; [exact (bio_Done _ (Lst _ b1) _ _ H2)|]. split; [|done].
    rewrite firstn_all in Htk. destruct Hl as [L1 L2 L3 L4 L5 _].
    split; cbn; try done. unfold l0 in Hbs. lia.
Qed.
End LogRun.

(** ** Crashes *)

(** The disk after a sequence of block writes; a crash leaves some prefix of
    the writes that were under way. *)
Definition apply_writes (ws : list (Z * block)) (f : Z -> block) : Z -> block :=
  foldl (fun f w => <[w.1 := w.2]> f) f ws.

Lemma apply_writes_app ws1 ws2 f : apply_writes (ws1 ++ ws2) f = apply_writes ws2 (apply_writes ws1 f).
Proof. apply foldl_app. Qed.
Lemma apply_log_writes at_ bl rd f : apply_writes (log_writes at_ bl rd) f = logged at_ bl rd f.
Proof. revert at_ f. induction bl as [|b bl IH]; intros; [done|]. apply IH. Qed.
Lemma apply_inst_writes at_ bl rd f : apply_writes (inst_writes at_ bl rd) f = install at_ bl rd f.
Proof. revert at_ f. induction bl as [|b bl IH]; intros; [done|]. apply IH. Qed.
Lemma take_log_writes k at_ bl rd : take k (log_writes at_ bl rd) = log_writes at_ (take k bl) rd.
Proof. revert k at_. induction bl as [|b bl IH]; intros [|k] at_; simpl; [done..|]. now rewrite IH. Qed.
Lemma take_inst_writes k at_ bl rd : take k (inst_writes at_ bl rd) = inst_writes at_ (take k bl) rd.
Proof. revert k at_. induction bl as [|b bl IH]; intros [|k] at_; simpl; [done..|]. now rewrite IH. Qed.
Lemma length_log_writes at_ bl rd : length (log_writes at_ bl rd) = length bl.
Proof. revert at_. induction bl; intros; simpl; auto. Qed.
Lemma length_inst_writes at_ bl rd : length (inst_writes at_ bl rd) = length bl.
Proof. revert at_. induction bl; intros; simpl; auto. Qed.

Lemma install_at at_ bl rd base k b :
  NoDup bl -> bl !! k = Some b -> install at_ bl rd base b = rd (at_ + Z.of_nat k).
Proof.
  revert at_ base k. induction bl as [|c bl IH]; intros at_ base k Hnd Hk; [done|].
  apply NoDup_cons in Hnd as [Hc Hnd]. destruct k as [|k]; simpl in Hk |- *.
  - injection Hk as ->. rewrite install_out by done. now rewrite fn_lookup_insert, Z.add_0_r.
  - rewrite (IH _ _ k Hnd Hk). f_equal. lia.
Qed.

(** A prefix of a list in two parts. *)
Lemma take_app_cases {A} k (l1 l2 : list A) :
  (k <= length l1)%nat /\ take k (l1 ++ l2) = take k l1 \/
  exists j, take k (l1 ++ l2) = l1 ++ take j l2.
Proof.
  destruct (decide (k <= length l1)%nat) as [Hk|Hk].
  - left. split; [done|]. rewrite take_app. replace (k - length l1)%nat with O by lia.
    now rewrite app_nil_r.
  - right. exists (k - length l1)%nat. rewrite take_app. now rewrite (take_ge l1) by lia.
Qed.

(** Blocks outside the log area. *)
Definition home (st bn : Z) : Prop := ~ (st <= bn < st + LOGSIZE).
(** The header is one [read_head] can load. *)
Definition head_ok (st : Z) (f : Z -> block) : Prop :=
  0 <= head_n (f st) < LOGSIZE /\ area_ok st (head_blocks (f st)) /\ length (f st) = Z.to_nat BSIZE.

Lemma head_blocks_0 d : head_n d = 0 -> head_blocks d = [].
Proof. unfold head_blocks. now intros ->. Qed.

Lemma area_nil st bl : area_ok st bl -> area_ok st [].
Proof. intros Ha. destruct Ha as [A1 A2 A3]. split; [done|done|]. intros b Hb. by apply elem_of_nil in Hb. Qed.

Lemma head_ok_0 st bl f : area_ok st bl -> length (f st) = Z.to_nat BSIZE -> head_n (f st) = 0 -> head_ok st f.
Proof.
  intros Ha Hl Hn. split; [rewrite Hn; unfold LOGSIZE, MAXOPBLOCKS; lia|].
  rewrite (head_blocks_0 _ Hn). split; [by eapply area_nil|done].
Qed.

Section Crash.
Context (st : Z) (bl : list Z) (V F : Z -> block).
Context (Ha : area_ok st bl) (Hnd : NoDup bl) (Hst : V st = F st) (Hlen : length (F st) = Z.to_nat BSIZE)
  (Hempty : head_n (F st) = 0).

Context (Hclean : forall bn, bn ∉ bl -> V bn = F bn).

Definition old_state (f : Z -> block) : Prop := forall bn, home st bn -> logical st f bn = F bn.
Definition new_state (f : Z -> block) : Prop := forall bn, home st bn -> logical st f bn = V bn.
(** While the log is being written the transaction is not there yet. *)
Lemma crash_log k : old_state (logged (st + 1) (take k bl) V F) /\ head_ok st (logged (st + 1) (take k bl) V F).
Proof.
  assert (Hh : logged (st + 1) (take k bl) V F st = F st) by (apply logged_out; lia).
  split; [|apply (head_ok_0 st bl); [done|..]; now rewrite Hh]. intros bn Hbn. unfold logical.
  rewrite Hh, head_blocks_0 by done. simpl. apply logged_out. rewrite length_take.
  destruct Ha as [_ A2 _]. unfold home in Hbn. lia.
Qed.

Definition V1 : Z -> block := logged (st + 1) bl V V.
Definition F1 : Z -> block := logged (st + 1) bl V F.
Definition hd1 : block := put_head bl (F st).
Definition F2 : Z -> block := <[st := hd1]> F1.

Lemma V1_st : V1 st = F st.
Proof. unfold V1. rewrite logged_out by lia. done. Qed.

Lemma hd1_ok : head_n hd1 = Z.of_nat (length bl) /\ head_blocks hd1 = bl /\ length hd1 = Z.to_nat BSIZE.
Proof.
  destruct Ha as [_ A2 A3]. destruct (head_put_head bl (F st)) as [H1 H2]; [done|lia| |].
  - rewrite Forall_forall. intros b Hb. now destruct (A3 b Hb).
  - unfold hd1. now rewrite length_put_head.
Qed.

Lemma F2_head : F2 st = hd1.
Proof. apply fn_lookup_insert. Qed.
Lemma F2_log i : 0 <= i < Z.of_nat (length bl) -> F2 (st + 1 + i) = V1 (st + 1 + i).
Proof.
  intros Hi. unfold F2. rewrite fn_lookup_insert_ne by lia.
  destruct (lookup_lt_is_Some_2 bl (Z.to_nat i)) as [b Hb]; [lia|].
  rewrite <- (Z2Nat.id i) by lia. unfold F1, V1. now rewrite !(logged_in _ _ _ _ _ _ Hb).
Qed.
Lemma F2_home bn : home st bn -> F2 bn = F bn.
Proof.
  intros Hbn. unfold home in Hbn. destruct Ha as [_ A2 _].
  unfold F2. rewrite fn_lookup_insert_ne by lia. unfold F1. apply logged_out. lia.
Qed.

(** Once the header is on disk, the transaction is there, however much of it
    has been installed. *)
Lemma crash_installed k :
  let f := install (st + 1) (take k bl) V1 F2 in
  new_state f /\ head_ok st f /\ (k = length bl -> forall bn, home st bn -> f bn = V bn).
Proof.
  intros f. destruct hd1_ok as (E1 & E2 & E3).
  assert (Hout : forall bn, ~ home st bn -> f bn = F2 bn).
  { intros bn Hbn. apply install_out. intros (j & [Hj _]%lookup_take_Some)%list_elem_of_lookup.
    destruct Ha as [_ _ A3]. destruct (A3 _ (list_elem_of_lookup_2 _ _ _ Hj)) as [_ Hn]. by apply Hbn. }
  assert (Hin : forall j, st <= j < st + LOGSIZE -> f j = F2 j) by (intros j Hj; apply Hout; unfold home; lia).
  assert (Hf : f st = hd1) by (rewrite Hin, F2_head by (unfold LOGSIZE, MAXOPBLOCKS; lia); done).
  assert (Hval : forall base bn, home st bn -> (forall bn, bn ∉ bl -> base bn = F2 bn) ->
    install (st + 1) bl V1 base bn = V bn).
  { intros base bn Hbn Hbase. destruct (decide (bn ∈ bl)) as [(j & Hj)%list_elem_of_lookup|Hno].
    - rewrite (install_at _ _ _ _ _ _ Hnd Hj). unfold V1. now rewrite (logged_in _ _ _ _ _ _ Hj).
    - rewrite install_out, Hbase, F2_home by done. symmetry. auto. }
  assert (Hrest : forall bn, bn ∉ bl -> f bn = F2 bn).
  { intros bn Hbn. apply install_out. intros (j & [Hj _]%lookup_take_Some)%list_elem_of_lookup.
    apply Hbn. by eapply list_elem_of_lookup_2. }
  split; [|split].
  - intros bn Hbn. unfold logical. rewrite Hf, E2. rewrite <- (Hval f bn Hbn Hrest).
    apply install_ext; [|done]. intros i Hi. destruct Ha as [_ A2 _].
    rewrite Hin by lia. replace i with (st + 1 + (i - st - 1)) by lia. apply F2_log. lia.
  - unfold head_ok. rewrite Hf, E1, E2, E3. split; [|done]. destruct Ha. lia.
  - intros -> bn Hbn. unfold f. rewrite firstn_all. by apply Hval.
Qed.
End Crash.

(** ** Commit and recovery *)

Section Commit.
Context `{HC : Ctx} (D : Z).

(** The writes of [commit], in order. *)
Definition commit_writes (st : Z) (bl : list Z) (V F : Z -> block) : list (Z * block) :=
  log_writes (st + 1) bl V ++ [(st, hd1 st bl F)] ++ inst_writes (st + 1) bl (V1 st bl V)
    ++ [(st, put_head [] (hd1 st bl F))].

Lemma log_at_n0 s st bl pins V F H :
  log_at D s st bl pins V F H -> log_at D (upd_log (set_n 0) s) st [] pins V F H.
Proof. intros []. split; simpl; try done. Qed.

Lemma put_head_empty d : length d = Z.to_nat BSIZE ->
  head_n (put_head [] d) = 0 /\ length (put_head [] d) = Z.to_nat BSIZE.
Proof. intros Hd. rewrite length_put_head. split; [|done]. apply head_put_head; [done|done|by constructor]. Qed.

Lemma bio_at_clean b pins V F H bn : bio_at D b pins V F H -> bn ∉ pins -> V bn = F bn.
Proof.
  intros (a & Hrep & [E1 E2 E3 E4 E5]) Hbn. rewrite <- E3, <- E4. apply (br_clean _ _ _ Hrep). rewrite E1.
  now destruct (decide (bn ∈ pins)).
Qed.

(** What is on the disk when [commit] returns. *)
Definition committed (st : Z) (bl : list Z) (V F : Z -> block) : Z -> block :=
  <[st := put_head [] (hd1 st bl F)]> (install (st + 1) bl (V1 st bl V) (F2 st bl V F)).

Lemma committed_writes st bl V F : apply_writes (commit_writes st bl V F) F = committed st bl V F.
Proof.
  unfold commit_writes. rewrite !apply_writes_app, apply_log_writes, apply_inst_writes. done.
Qed.

Lemma install_rd at_ bl rd rd' base :
  (forall i, at_ <= i < at_ + Z.of_nat (length bl) -> rd i = rd' i) ->
  install at_ bl rd base = install at_ bl rd' base /\ inst_writes at_ bl rd = inst_writes at_ bl rd'.
Proof.
  revert at_ base. induction bl as [|b bl IH]; intros at_ base Hr; simpl in *; [done|].
  rewrite (Hr at_) by lia. destruct (IH (at_ + 1) (<[b := rd' at_]> base)) as [-> ->]; [intros; apply Hr; lia|done].
Qed.

Lemma commit_run s st bl V F H :
  log_at D s st bl bl V F H -> area_ok st bl -> NoDup bl -> 0 < Z.of_nat (length bl) < NBUF ->
  exists s' V', commit s = Done tt s' /\
    log_at D s' st [] [] V' (committed st bl V F) (H ++ commit_writes st bl V F).
Proof.
  intros Hl Ha Hnd Hlen. pose proof Ha as [A1 A2 A3].
  assert (Hn : st ∉ bl). { intros Hin. destruct (A3 st Hin) as [_ Hb]. apply Hb. unfold LOGSIZE, MAXOPBLOCKS. lia. }
  assert (Hst : V st = F st) by (apply (bio_at_clean _ _ _ _ _ _ (la_bio _ _ _ _ _ _ _ _ Hl)); done).
  destruct (write_log_spec D s st bl V F H Hl Ha) as (s1 & R1 & L1); [lia|].
  destruct (write_head_spec D s1 st bl bl _ _ _ L1 A1 Hn) as (s2 & R2 & L2); [lia|].
  destruct (install_trans_spec D s2 st bl _ _ _ false L2 Ha) as (s3 & R3 & L3); [split; [done|lia]|].
  destruct (write_head_spec D (upd_log (set_n 0) s3) st [] [] _ _ _ (log_at_n0 _ _ _ _ _ _ _ L3) A1)
    as (s4 & R4 & L4); [apply not_elem_of_nil|done|].
  exists s4. eexists. split.
  - unfold commit, log_get. rewrite (bind_Done (gets _) _ s _ s eq_refl), (la_n _ _ _ _ _ _ _ _ Hl).
    replace (0 <? Z.of_nat (length bl)) with true by lia. unfold when.
    rewrite (bind_Done _ _ _ _ _ R1), (bind_Done _ _ _ _ _ R2), (bind_Done _ _ _ _ _ R3).
    rewrite (bind_Done (log_set _) _ _ _ _ eq_refl). exact R4.
  - assert (Hh : logged (st + 1) bl V V st = F st) by (rewrite logged_out by lia; done).
    rewrite Hh in L4. fold (hd1 st bl F) in L4.
    assert (Hrd : forall i, st + 1 <= i < st + 1 + Z.of_nat (length bl) ->
      <[st:=hd1 st bl F]> (logged (st + 1) bl V V) i = V1 st bl V i)
      by (intros i Hi; apply fn_lookup_insert_ne; lia).
    pose proof (fun base => install_rd (st + 1) bl _ _ base Hrd) as Hi.
    rewrite !(fun base => proj1 (Hi base)), (proj2 (Hi V)) in L4.
    rewrite install_out, fn_lookup_insert in L4 by done.
    unfold commit_writes. rewrite <- !app_assoc in L4. exact L4.
Qed.

(** The writes of [recover_from_log] on a disk with contents [f]. *)
Definition recover_writes (st : Z) (f : Z -> block) : list (Z * block) :=
  inst_writes (st + 1) (head_blocks (f st)) f ++ [(st, put_head [] (f st))].
Definition recovered (st : Z) (f : Z -> block) : Z -> block :=
  <[st := put_head [] (f st)]> (logical st f).

Lemma recover_run s st bl f H :
  log_at D s st bl [] f f H -> head_ok st f ->
  exists s', recover_from_log s = Done tt s' /\
    log_at D s' st [] [] (recovered st f) (recovered st f) (H ++ recover_writes st f).
Proof.
  intros Hl (Hn & Ha & Hlen). pose proof Ha as [A1 A2 A3].
  destruct (read_head_spec D s st bl f f H Hl A1 ltac:(lia)) as (s1 & R1 & L1 & _).
  destruct (install_trans_spec D s1 st _ _ _ _ true L1 Ha) as (s2 & R2 & L2); [done|].
  destruct (write_head_spec D (upd_log (set_n 0) s2) st [] [] _ _ _ (log_at_n0 _ _ _ _ _ _ _ L2) A1)
    as (s3 & R3 & L3); [apply not_elem_of_nil|done|].
  exists s3. split.
  - unfold recover_from_log. rewrite (bind_Done _ _ _ _ _ R1), (bind_Done _ _ _ _ _ R2).
    rewrite (bind_Done (log_set _) _ _ _ _ eq_refl). exact R3.
  - rewrite install_out in L3.
    2:{ intros Hin. destruct (A3 st Hin) as [_ Hb]. apply Hb. unfold LOGSIZE, MAXOPBLOCKS. lia. }
    rewrite <- app_assoc in L3. exact L3.
Qed.

(** Recovery may be interrupted anywhere: what the log says is unchanged. *)
Lemma recover_crash st f k :
  head_ok st f ->
  let f' := apply_writes (take k (recover_writes st f)) f in
  head_ok st f' /\ forall bn, home st bn -> logical st f' bn = logical st f bn.
Proof.
  intros Hh f'. pose proof Hh as (Hn & Ha & Hlen). pose proof Ha as [A1 A2 A3].
  unfold f', recover_writes.
  destruct (take_app_cases k (inst_writes (st + 1) (head_blocks (f st)) f) [(st, put_head [] (f st))])
    as [[Hk ->]|(j & ->)].
  - rewrite take_inst_writes, apply_inst_writes. set (g := install _ _ _ _).
    assert (Hrest : forall bn, bn ∉ head_blocks (f st) -> g bn = f bn).
    { intros bn Hbn. apply install_out. intros (i & [Hi _]%lookup_take_Some)%list_elem_of_lookup.
      apply Hbn. by eapply list_elem_of_lookup_2. }
    assert (Hin : forall bn, st <= bn < st + LOGSIZE -> g bn = f bn).
    { intros bn Hbn. apply Hrest. intros Hb. by destruct (A3 bn Hb) as [_ []]. }
    assert (Hg : g st = f st) by (apply Hin; unfold LOGSIZE, MAXOPBLOCKS; lia).
    unfold head_ok. rewrite Hg. split; [done|]. intros bn Hbn. unfold logical. rewrite Hg.
    rewrite (install_ext _ _ g f g g); [by apply install_base| |done]. intros i Hi. apply Hin. lia.
  - rewrite apply_writes_app, apply_inst_writes. fold (logical st f).
    assert (Hs : logical st f st = f st).
    { apply install_out. intros Hb. destruct (A3 _ Hb) as [_ []]. unfold LOGSIZE, MAXOPBLOCKS. lia. }
    assert (Hlog : forall bn, st <= bn < st + LOGSIZE -> logical st f bn = f bn).
    { intros bn Hbn. apply install_out. intros Hb. by destruct (A3 _ Hb) as [_ []]. }
    destruct j as [|j]; simpl.
    + unfold head_ok. rewrite Hs. split; [done|]. intros bn Hbn. unfold logical at 1. rewrite Hs.
      rewrite (install_ext _ _ (logical st f) f _ (logical st f)); [|intros i Hi; apply Hlog; lia|done].
      apply install_base. intros b Hb. by apply install_out.
    + rewrite take_nil. simpl. destruct (put_head_empty (f st) Hlen) as [E1 E2].
      assert (Hst : <[st := put_head [] (f st)]> (logical st f) st = put_head [] (f st))
        by apply fn_lookup_insert.
      split; [apply (head_ok_0 st (head_blocks (f st))); rewrite ?Hst; done|].
      intros bn Hbn. unfold logical at 1. rewrite Hst, head_blocks_0 by done. simpl.
      apply fn_lookup_insert_ne. intros ->. apply Hbn. unfold LOGSIZE, MAXOPBLOCKS. lia.
Qed.

Lemma commit_crash st bl V F k :
  area_ok st bl -> NoDup bl -> V st = F st -> length (F st) = Z.to_nat BSIZE -> head_n (F st) = 0 ->
  (forall bn, bn ∉ bl -> V bn = F bn) ->
  let f := apply_writes (take k (commit_writes st bl V F)) F in
  head_ok st f /\ (old_state st F f \/ new_state st V f).
Proof.
  intros Ha Hnd Hst Hlen H0 Hcl. cbv zeta. unfold commit_writes.
  destruct (take_app_cases k (log_writes (st + 1) bl V) ([(st, hd1 st bl F)] ++
    inst_writes (st + 1) bl (V1 st bl V) ++ [(st, put_head [] (hd1 st bl F))])) as [[Hk ->]|(j & ->)].
  { rewrite take_log_writes, apply_log_writes. destruct (crash_log st bl V F Ha Hlen H0 k). tauto. }
  rewrite apply_writes_app, apply_log_writes. fold (F1 st bl V F).
  destruct j as [|j].
  { destruct (crash_log st bl V F Ha Hlen H0 (length bl)) as [C1 C2]. rewrite firstn_all in C1, C2.
    simpl. tauto. }
  change (take (S j) ([(st, hd1 st bl F)] ++ ?r)) with ((st, hd1 st bl F) :: take j r).
  change (apply_writes ((st, hd1 st bl F) :: ?r) (F1 st bl V F)) with (apply_writes r (F2 st bl V F)).
  destruct (take_app_cases j (inst_writes (st + 1) bl (V1 st bl V)) [(st, put_head [] (hd1 st bl F))])
    as [[Hj ->]|(m & ->)].
  { rewrite take_inst_writes, apply_inst_writes.
    destruct (crash_installed st bl V F Ha Hnd Hlen Hcl j) as (C1 & C2 & _). tauto. }
  rewrite apply_writes_app, apply_inst_writes.
  destruct (crash_installed st bl V F Ha Hnd Hlen Hcl (length bl)) as (C1 & C2 & C3).
  rewrite firstn_all in C1, C2, C3. destruct m as [|m]; [simpl; tauto|]. simpl. rewrite take_nil. simpl.
  destruct (hd1_ok st bl F Ha Hlen) as (_ & _ & E3). destruct (put_head_empty _ E3) as [E4 E5].
  set (g := <[st := _]> _). assert (Hg : g st = put_head [] (hd1 st bl F)) by apply fn_lookup_insert.
  split; [apply (head_ok_0 st bl); rewrite ?Hg; done|]. right. intros bn Hbn. unfold logical.
  rewrite Hg, head_blocks_0 by done. simpl. unfold g. rewrite fn_lookup_insert_ne; [by apply C3|].
  intros ->. apply Hbn. unfold LOGSIZE, MAXOPBLOCKS. lia.
Qed.

Lemma logical_ext st f g : (forall bn, f bn = g bn) -> forall bn, logical st f bn = logical st g bn.
Proof. intros E bn. unfold logical. rewrite E. by apply install_ext. Qed.
Lemma head_ok_ext st f g : (forall bn, f bn = g bn) -> head_ok st g -> head_ok st f.
Proof. intros E. unfold head_ok. now rewrite E. Qed.

(** A kernel that starts on the disk [d] and recovers. *)
Definition log_boot (d : disk) : lst :=
  Lst (Logst (initlock EmptyString) 0 0 0 false 0 0 (replicate (Z.to_nat LOGSIZE) 0)) (bio_boot d).
Definition start_log (st nlog : Z) : M lst unit := bio binit ;;; initlog D st nlog.
Definition lst_disk (s : lst) : disk := bs_disk (ls_bio s).

Lemma log_at_disk s st bl pins V F H : log_at D s st bl pins V F H ->
  (forall bn, dread (lst_disk s) bn = F bn) /\ d_hist (lst_disk s) = H.
Proof.
  intros Hl. destruct (la_bio _ _ _ _ _ _ _ _ Hl) as (a & Hr & [E1 E2 E3 E4 E5]). split.
  - intros bn. rewrite <- E4. symmetry. apply (br_disk _ _ _ Hr).
  - rewrite <- E5. symmetry. apply (br_hist _ _ _ Hr).
Qed.

Lemma start_log_run d st nlog :
  D <> 0 -> head_ok st (dread d) ->
  exists s, start_log st nlog (log_boot d) = Done tt s /\
    log_at D s st [] [] (recovered st (dread d)) (recovered st (dread d))
      (d_hist d ++ recover_writes st (dread d)).
Proof.
  intros HD Hh. destruct (binit_spec D d HD) as (b & B1 & B2).
  pose proof Hh as (_ & [A1 _ _] & _).
  unfold start_log. rewrite (bind_Done _ _ _ _ _ (bio_Done _ (log_boot d) _ _ B1)).
  unfold initlog. rewrite (bind_Done (panic_if (BSIZE <=? sizeof_logheader) _) _ (Lst _ _) tt _ eq_refl), (bind_Done (log_set _) _ _ _ _ eq_refl).
  clear B1. apply (recover_run _ st []); [|exact Hh].
  split; cbn [ls_log ls_bio upd_log lg_dev lg_start lg_n lg_block log_boot]; try done.
  - apply i32_small. lia.
  - eexists. split; [exact B2|]. split; done.
Qed.

(** [d'] is what a crash leaves on [d] while the writes [ws] are under way:
    each block write happens or does not, in order. *)
Definition crash (ws : list (Z * block)) (d d' : disk) : Prop :=
  exists k, forall bn, dread d' bn = apply_writes (take k ws) (dread d) bn.
(** [d'] is what a crash during the recovery of [d] leaves. *)
Definition interrupted (st nlog : Z) (d d' : disk) : Prop :=
  exists s ws, start_log st nlog (log_boot d) = Done tt s /\ d_hist (lst_disk s) = d_hist d ++ ws /\ crash ws d d'.

Lemma interrupted_step st nlog d d' :
  D <> 0 -> head_ok st (dread d) -> interrupted st nlog d d' ->
  head_ok st (dread d') /\ forall bn, home st bn -> logical st (dread d') bn = logical st (dread d) bn.
Proof.
  intros HD Hh (s & ws & Hs & Hw & k & Hd). destruct (start_log_run d st nlog HD Hh) as (s2 & Hs2 & Hl).
  rewrite Hs in Hs2. injection Hs2 as <-. clear Hs.
  rewrite (proj2 (log_at_disk _ _ _ _ _ _ _ Hl)) in Hw. apply app_inv_head in Hw as <-.
  destruct (recover_crash st (dread d) k Hh) as [C1 C2]. split; [exact (head_ok_ext _ _ _ Hd C1)|].
  intros bn Hbn. rewrite <- (C2 bn Hbn). by apply logical_ext.
Qed.

Lemma interrupted_steps st nlog d d' :
  D <> 0 -> head_ok st (dread d) -> rtc (interrupted st nlog) d d' ->
  head_ok st (dread d') /\ forall bn, home st bn -> logical st (dread d') bn = logical st (dread d) bn.
Proof.
  intros HD Hh Hr. induction Hr as [d|d d1 d2 H1 _ IH]; [done|].
  destruct (interrupted_step st nlog d d1 HD Hh H1) as [C1 C2]. destruct (IH C1) as [C3 C4].
  split; [done|]. intros bn Hbn. now rewrite C4, C2.
Qed.

Lemma recovered_home st f bn : home st bn -> recovered st f bn = logical st f bn.
Proof. intros Hbn. apply fn_lookup_insert_ne. intros ->. apply Hbn. unfold LOGSIZE, MAXOPBLOCKS. lia. Qed.

Lemma apply_writes_ext ws f g : (forall bn, f bn = g bn) -> forall bn, apply_writes ws f bn = apply_writes ws g bn.
Proof.
  revert f g. induction ws as [|[b v] ws IH]; intros f g E; [done|]. apply IH. intros bn. simpl.
  destruct (decide (b = bn)) as [<-|]; [now rewrite !fn_lookup_insert|now rewrite !fn_lookup_insert_ne].
Qed.

Lemma recovery_run st nlog d d' :
  D <> 0 -> head_ok st (dread d) -> rtc (interrupted st nlog) d d' ->
  exists s, start_log st nlog (log_boot d') = Done tt s /\
    (forall bn, home st bn -> dread (lst_disk s) bn = logical st (dread d) bn) /\
    head_n (dread (lst_disk s) st) = 0 /\ lg_n (ls_log s) = 0.
Proof.
  intros HD Hh Hr. destruct (interrupted_steps st nlog d d' HD Hh Hr) as [C1 C2].
  destruct (start_log_run d' st nlog HD C1) as (s & Hs & Hl).
  destruct (log_at_disk _ _ _ _ _ _ _ Hl) as [E1 _].
  exists s. split; [exact Hs|]. clear Hs. conjs.
  - intros bn Hbn. rewrite E1, recovered_home by done. auto.
  - rewrite E1. unfold recovered. rewrite fn_lookup_insert. apply put_head_empty, C1.
  - exact (la_n _ _ _ _ _ _ _ _ Hl).
Qed.

(** C2: recovery installs what the log header says and leaves an empty log,
    also when it was itself interrupted by any number of crashes before. *)
Theorem recovery_correct st nlog d d' :
  D <> 0 -> head_ok st (dread d) -> rtc (interrupted st nlog) d d' ->
  exists s, start_log st nlog (log_boot d') = Done tt s /\
    (forall bn, home st bn -> dread (lst_disk s) bn = logical st (dread d) bn) /\
    head_n (dread (lst_disk s) st) = 0 /\ lg_n (ls_log s) = 0.
Proof. apply recovery_run. Qed.

(** A transaction is atomic.  However far [commit] got when the machine
    stopped, and however often recovery was interrupted after that, the kernel
    that finally recovers finds every block as it was before the transaction,
    or every block as the transaction left it in the buffer cache. *)
Lemma commit_atomic s st nlog bl V F H :
  D <> 0 -> log_at D s st bl bl V F H -> area_ok st bl -> NoDup bl -> 0 < Z.of_nat (length bl) < NBUF ->
  head_n (F st) = 0 -> length (F st) = Z.to_nat BSIZE ->
  exists s' ws, commit s = Done tt s' /\ d_hist (lst_disk s') = d_hist (lst_disk s) ++ ws /\
    lg_n (ls_log s') = 0 /\ (forall bn, home st bn -> dread (lst_disk s') bn = V bn) /\
    forall d d', crash ws (lst_disk s) d -> rtc (interrupted st nlog) d d' ->
      exists r, start_log st nlog (log_boot d') = Done tt r /\
        ((forall bn, home st bn -> dread (lst_disk r) bn = dread (lst_disk s) bn) \/
         (forall bn, home st bn -> dread (lst_disk r) bn = V bn)).
Proof.
  intros HD Hl Ha Hnd Hlen H0 Hb. destruct (log_at_disk _ _ _ _ _ _ _ Hl) as [E1 E2].
  assert (Hcl : forall bn, bn ∉ bl -> V bn = F bn)
    by (intros bn; apply (bio_at_clean _ _ _ _ _ _ (la_bio _ _ _ _ _ _ _ _ Hl))).
  assert (Hst : V st = F st).
  { apply Hcl. intros Hin. destruct (ao_home _ _ Ha st Hin) as [_ []]. unfold LOGSIZE, MAXOPBLOCKS. lia. }
  destruct (commit_run s st bl V F H Hl Ha Hnd Hlen) as (s' & V' & R & L).
  destruct (log_at_disk _ _ _ _ _ _ _ L) as [E3 E4].
  exists s', (commit_writes st bl V F). split; [exact R|]. clear R. conjs.
  - congruence.
  - exact (la_n _ _ _ _ _ _ _ _ L).
  - intros bn Hbn. rewrite E3. unfold committed. rewrite fn_lookup_insert_ne.
    2:{ intros ->. apply Hbn. unfold LOGSIZE, MAXOPBLOCKS. lia. }
    destruct (crash_installed st bl V F Ha Hnd Hb Hcl (length bl)) as (_ & _ & C).
    rewrite firstn_all in C. by apply C.
  - intros d d' (k & Hd) Hr. destruct (commit_crash st bl V F k Ha Hnd Hst Hb H0 Hcl) as [C1 C2].
    assert (Hk : forall bn, dread d bn = apply_writes (take k (commit_writes st bl V F)) F bn).
    { intros bn. rewrite Hd. apply apply_writes_ext. exact E1. }
    destruct (recovery_run st nlog d d' HD (head_ok_ext _ _ _ Hk C1) Hr) as (r & Hrun & C3 & _).
    exists r. split; [exact Hrun|]. clear Hrun. destruct C2 as [C2|C2]; [left|right]; intros bn Hbn;
      rewrite C3, (logical_ext _ _ _ Hk), C2 by done; [symmetry; apply E1|done].
Qed.
End Commit.
