(* ===== verification/Txn.v ===== *)
(** * Transactions: what the log and the buffer cache promise to the file system

    The file system works on locked buffers ([bread], [b->data], [brelse]) and
    marks the ones it changed with [log_write].  [Txn] lists these calls
    (and [initlog]),
    [TxnOk] states what a caller inside a transaction may rely on, and the
    code of kernel/bio.c and kernel/log.c is shown to provide it. *)

From S2P Require Import Prelude Memory Riscv Spinlock Bio Log.

(** What the file system sees inside a transaction: the contents of the
    blocks, the blocks logged so far, the buffers it holds (with their block
    numbers) and the blocks it has changed and not logged yet. *)
Record txabs := Tx {
  t_view : Z -> block;
  t_log : list Z;
  t_held : list (Z * Z);
  t_dirty : list Z
}.

Class Txn (S : Type) := {
  tx_bread : Z -> Z -> M S Z;
  tx_data : Z -> M S block;
  tx_put : Z -> block -> M S unit;
  tx_log_write : Z -> M S unit;
  tx_brelse : Z -> M S unit;
  tx_initlog : Z -> Z -> Z -> M S unit
}.

(** [log_write] on a transaction: block [bn] is in the log afterwards. *)
Definition log_add (bn : Z) (l : list Z) : list Z := if decide (bn ∈ l) then l else l ++ [bn].

Class TxnOk (S : Type) {T : Txn S} (dev : Z) (rep : txabs -> S -> Prop) (loggable : Z -> Prop) : Prop := {
  tx_ext : forall V V' L h d s, (forall bn, V bn = V' bn) -> rep (Tx V L h d) s -> rep (Tx V' L h d) s;
  tx_bread_ok : forall V L h d bn s,
    rep (Tx V L h d) s -> 0 <= bn < 2 ^ 31 -> bn ∉ h.*2 -> bn ∈ L \/ Z.of_nat (length L + length h) < NBUF ->
    wp (tx_bread dev bn) (fun i => rep (Tx V L ((i, bn) :: h) d)) s;
  tx_data_ok : forall V L h d i bn s,
    rep (Tx V L h d) s -> (i, bn) ∈ h -> wp (tx_data i) (fun v s' => v = V bn /\ s' = s) s;
  tx_put_ok : forall V L h d i bn v s,
    rep (Tx V L h d) s -> (i, bn) ∈ h ->
    wp (tx_put i v) (fun _ => rep (Tx (<[bn := v]> V) L h (bn :: d))) s;
  tx_log_write_ok : forall V L h d i bn s,
    rep (Tx V L h d) s -> (i, bn) ∈ h -> loggable bn -> Z.of_nat (length L) < LOGSIZE - 1 ->
    wp (tx_log_write i) (fun _ => rep (Tx V (log_add bn L) h (filter (fun b => b <> bn) d))) s;
  tx_brelse_ok : forall V L h d i bn s,
    rep (Tx V L ((i, bn) :: h) d) s -> bn ∉ d -> wp (tx_brelse i) (fun _ => rep (Tx V L h d)) s
}.

(** ** The implementation *)

#[export] Instance log_txn `{HC : Ctx} : Txn lst := {
  tx_bread dev bn := bio (bread dev bn);
  tx_data i := p <-! bio (getb i) ;; ret (b_data p);
  tx_put i v := bio (updb i (set_data v));
  tx_log_write i := log_write i;
  tx_brelse i := bio (brelse i);
  tx_initlog := initlog
}.

Section LogTxn.
Context `{HC : Ctx} (D st nop : Z) (F : Z -> block) (H : list (Z * block)).

(** A state of the kernel inside a transaction, with [nop] system calls in it;
    the disk still holds [F], after the writes [H]. *)
Record tx_bio (b : bst) (a : txabs) (ab : babs) : Prop := {
  tb_rep : bio_rep D b ab;
  tb_view : forall bn, ab_view ab bn = t_view a bn;
  tb_ref : forall bn, ab_ref ab bn =
    (if decide (bn ∈ t_log a) then 1 else 0) + (if decide (bn ∈ (t_held a).*2) then 1 else 0);
  tb_holder : forall bn, ab_holder ab bn = if decide (bn ∈ (t_held a).*2) then Some mypid else None;
  tb_clean : forall bn, bn ∉ t_log a -> bn ∉ t_dirty a -> ab_view ab bn = ab_disk ab bn;
  tb_disk : forall bn, ab_disk ab bn = F bn;
  tb_hist : ab_hist ab = H;
  tb_bufs : forall i bn, (i, bn) ∈ t_held a -> buf_of D b i bn;
  tb_nodup : NoDup (t_held a).*2
}.
Record tx_log (l : logst) (L : list Z) : Prop := {
  tl_dev : lg_dev l = D;
  tl_start : lg_start l = st;
  tl_size : lg_size l = LOGSIZE;
  tl_n : lg_n l = Z.of_nat (length L);
  tl_blocks : take (length L) (lg_block l) = L;
  tl_len : Z.of_nat (length (lg_block l)) = LOGSIZE;
  tl_out : lg_outstanding l = nop /\ 1 <= nop;
  tl_comm : lg_committing l = false;
  tl_lock : unlocked (lg_lock l);
  tl_nodup : NoDup L;
  tl_max : Z.of_nat (length L) < LOGSIZE;
  tl_area : area_ok st L
}.
Definition tx_rep (a : txabs) (s : lst) : Prop := (exists ab, tx_bio (ls_bio s) a ab) /\ tx_log (ls_log s) (t_log a).
Definition loggable (bn : Z) : Prop := home_ok bn /\ home st bn.

Lemma held_in (h : list (Z * Z)) i bn : (i, bn) ∈ h -> bn ∈ h.*2.
Proof. intros Hi. apply list_elem_of_fmap. by exists (i, bn). Qed.

Lemma held_eq {A} (h : list (Z * Z)) i bn (x y : A) :
  (if decide (bn ∈ ((i, bn) :: h).*2) then x else y) = x.
Proof. apply decide_True. left. Qed.
Lemma held_ne {A} (h : list (Z * Z)) i bn b (x y : A) : bn <> b ->
  (if decide (b ∈ ((i, bn) :: h).*2) then x else y) = (if decide (b ∈ h.*2) then x else y).
Proof.
  intros Hne. apply decide_ext. rewrite fmap_cons, elem_of_cons. simpl. split; [intros [?|?]|]; auto; congruence.
Qed.

Lemma tx_rep_ext V V' L h d s : (forall bn, V bn = V' bn) -> tx_rep (Tx V L h d) s -> tx_rep (Tx V' L h d) s.
Proof.
  intros E [(ab & [T1 T2 T3 T4 T5 Tf Th T6 T7]) Hl]. split; [|done]. exists ab. split; try done.
  intros bn. rewrite T2. apply E.
Qed.

Lemma held_ref (L : list Z) (h : list (Z * Z)) i bn : (i, bn) ∈ h ->
  (if decide (bn ∈ L) then 1 else 0) + (if decide (bn ∈ h.*2) then 1 else 0) <> 0.
Proof. intros Hin%held_in. destruct (decide (bn ∈ L)), (decide (bn ∈ h.*2)); done || lia. Qed.

Lemma tx_bread_spec V L h d bn s :
  tx_rep (Tx V L h d) s -> bn ∉ h.*2 -> bn ∈ L \/ Z.of_nat (length L + length h) < NBUF ->
  wp (bio (bread D bn)) (fun i => tx_rep (Tx V L ((i, bn) :: h) d)) s.
Proof.
  intros [(ab & [T1 T2 T3 T4 T5 Tf Th T6 T7]) Hl] Hbn Hroom. cbn [t_view t_log t_held t_dirty] in *. apply wp_lift.
  pose proof (T3 bn) as Hr. rewrite (decide_False _ _ Hbn) in Hr.
  destruct (bread_spec D (ls_bio s) ab bn) as (i & b' & H1 & R1 & B1 & K1); try done.
  - rewrite T4. now rewrite decide_False.
  - rewrite Hr. destruct (decide _); lia.
  - destruct (decide (bn ∈ L)) as [Hin|Hin]; [left; lia|right]. destruct Hroom as [?|Hroom]; [done|].
    exists (L ++ h.*2). rewrite length_app, length_fmap. split; [lia|]. intros b Hb. rewrite T3 in Hb.
    rewrite elem_of_app. destruct (decide (b ∈ L)); [by left|]. destruct (decide (b ∈ h.*2)); [by right|lia].
  - exists i, b'. split; [done|]. split; [|done]. exists (ab_bread bn ab). split; cbn [t_view t_log t_held t_dirty ab_bread ab_brelse ab_set ab_view ab_ref ab_holder ab_disk]; try done.
    + intros b. destruct (decide (bn = b)) as [<-|Hne].
      * rewrite fn_lookup_insert, Hr, held_eq. lia.
      * now rewrite fn_lookup_insert_ne, T3, held_ne.
    + intros b. destruct (decide (bn = b)) as [<-|Hne].
      * now rewrite fn_lookup_insert, held_eq.
      * now rewrite fn_lookup_insert_ne, T4, held_ne.
    + intros j b [E|Hj]%elem_of_cons; [by injection E as -> ->|]. apply K1; [by apply T6|].
      rewrite T3. by eapply held_ref.
    + by constructor.
Qed.

Lemma tx_data_spec V L h d i bn s :
  tx_rep (Tx V L h d) s -> (i, bn) ∈ h ->
  wp (p <-! bio (getb i) ;; ret (b_data p)) (fun v s' => v = V bn /\ s' = s) s.
Proof.
  intros [(ab & [T1 T2 T3 T4 T5 Tf Th T6 T7]) Hl] Hin. cbn [t_view t_log t_held t_dirty] in *. pose proof (T6 _ _ Hin) as Hbo.
  pose proof Hbo as (p & [Hi Hp] & _). apply wp_bind, wp_lift. exists p, (ls_bio s). split; [by apply getb_Done|].
  apply wp_ret. split; [|by destruct s]. rewrite <- T2. exact (data_spec D _ ab i bn p T1 Hbo Hp).
Qed.

Lemma tx_put_spec V L h d i bn v s :
  tx_rep (Tx V L h d) s -> (i, bn) ∈ h ->
  wp (bio (updb i (set_data v))) (fun _ => tx_rep (Tx (<[bn := v]> V) L h (bn :: d))) s.
Proof.
  intros [(ab & [T1 T2 T3 T4 T5 Tf Th T6 T7]) Hl] Hin. cbn [t_view t_log t_held t_dirty] in *. apply wp_lift.
  destruct (set_data_spec D (ls_bio s) ab i bn v T1 (T6 _ _ Hin)) as (b' & H1 & R1 & K1).
  { rewrite T3. by eapply held_ref. }
  exists tt, b'. split; [done|]. split; [|done]. exists (ab_set bn v ab). split; cbn [t_view t_log t_held t_dirty ab_bread ab_brelse ab_set ab_view ab_ref ab_holder ab_disk]; try done.
  - intros b. destruct (decide (bn = b)) as [<-|Hne]; [now rewrite !fn_lookup_insert|].
    rewrite !fn_lookup_insert_ne by done. apply T2.
  - intros b Hb Hd. rewrite fn_lookup_insert_ne by set_solver. apply T5; set_solver.
  - intros j b Hj. by apply K1, T6.
Qed.

Lemma tx_brelse_spec V L h d i bn s :
  tx_rep (Tx V L ((i, bn) :: h) d) s -> bn ∉ d -> wp (bio (brelse i)) (fun _ => tx_rep (Tx V L h d)) s.
Proof.
  intros [(ab & [T1 T2 T3 T4 T5 Tf Th T6 T7]) Hl] Hd. cbn [t_view t_log t_held t_dirty] in *. apply wp_lift.
  apply NoDup_cons in T7 as [Hnh T7].
  pose proof (T3 bn) as Hr. rewrite held_eq in Hr.
  pose proof (T4 bn) as Hh. rewrite held_eq in Hh.
  destruct (brelse_spec D (ls_bio s) ab i bn T1 (T6 _ _ ltac:(left))) as (b' & H1 & R1 & K1); try done.
  - rewrite Hr. destruct (decide _); lia.
  - rewrite Hr. destruct (decide (bn ∈ L)); [left; lia|right; auto].
  - exists tt, b'. split; [done|]. split; [|done]. exists (ab_brelse bn ab). split; cbn [t_view t_log t_held t_dirty ab_bread ab_brelse ab_set ab_view ab_ref ab_holder ab_disk]; try done.
    + intros b. destruct (decide (bn = b)) as [<-|Hne].
      * rewrite fn_lookup_insert, Hr, (decide_False (P := bn ∈ h.*2)) by done. destruct (decide _); lia.
      * now rewrite fn_lookup_insert_ne, T3, held_ne.
    + intros b. destruct (decide (bn = b)) as [<-|Hne].
      * rewrite fn_lookup_insert. by rewrite decide_False.
      * now rewrite fn_lookup_insert_ne, T4, held_ne.
    + intros j b Hj. apply K1, T6. by right.
Qed.

(** The search of [log_write] for the block in the log. *)
Lemma absorb_loop_spec fuel k (L : list Z) bn s :
  take (length L) (lg_block (ls_log s)) = L -> Forall home_ok L -> home_ok bn ->
  (k + fuel = length L)%nat -> bn ∉ take k L ->
  exists r, absorb_loop fuel (Z.of_nat k) (Z.of_nat (length L)) bn s = Done (Z.of_nat r) s /\
    (if decide (bn ∈ L) then L !! r = Some bn else r = length L).
Proof.
  intros Hb HL Hbn. revert k. induction fuel as [|fuel IH]; intros k Hk Hno; simpl.
  - exists k. split; [done|]. rewrite take_ge in Hno by lia. rewrite decide_False by done. lia.
  - destruct (Z.ltb_spec (Z.of_nat k) (Z.of_nat (length L))); [|lia].
    destruct (lookup_lt_is_Some_2 L k ltac:(lia)) as [b Hkb].
    assert (Hget : get_block (Z.of_nat k) s = Done b s).
    { apply (get_block_at s L k b Hb Hkb). }
    rewrite (bind_Done _ _ _ _ _ Hget).
    pose proof (proj1 (Forall_lookup _ _) HL k b Hkb) as [H1 H2].
    rewrite u32_small by lia. destruct (Z.eqb_spec b bn) as [->|Hne].
    + exists k. split; [done|]. rewrite decide_True; [done|]. by eapply list_elem_of_lookup_2.
    + replace (Z.of_nat k + 1) with (Z.of_nat (S k)) by lia. apply IH; [lia|].
      rewrite (take_S_r _ _ _ Hkb), elem_of_app. set_solver.
Qed.

Lemma tx_log_set_same (L : list Z) l r bn :
  tx_log l L -> L !! r = Some bn -> home_ok bn ->
  <[Z.to_nat (Z.of_nat r) := i32 bn]> (lg_block l) = lg_block l.
Proof.
  intros Hl Hr Hh. rewrite Nat2Z.id, i32_small by (unfold home_ok in Hh; lia). apply list_insert_id.
  pose proof (lookup_lt_Some _ _ _ Hr) as Hlt. rewrite <- (tl_blocks _ _ Hl) in Hr.
  rewrite lookup_take in Hr. by rewrite decide_True in Hr.
Qed.

Lemma tx_log_snoc (L : list Z) l bn :
  tx_log l L -> Z.of_nat (length L) < LOGSIZE - 1 -> bn ∉ L -> loggable bn ->
  tx_log (Logst (lg_lock l) (lg_start l) (lg_size l) (lg_outstanding l) (lg_committing l) (lg_dev l)
    (lg_n l + 1) (<[length L := bn]> (lg_block l))) (L ++ [bn]).
Proof.
  intros [E1 E2 E3 E4 E5 E6 E7 Ec E8 E9 Em E10] Hlen Hn [Hh1 Hh2].
  split; cbn; rewrite ?length_app, ?length_insert; simpl; try done; try lia.
  - rewrite Nat.add_1_r. erewrite take_S_r by (apply list_lookup_insert_eq; lia).
    now rewrite take_insert_ge, E5 by lia.
  - apply NoDup_app. split; [done|]. split; [set_solver|]. apply NoDup_singleton.
  - destruct E10 as [A1 A2 A3]. split; [done|rewrite length_app; simpl; lia|].
    intros b [Hb| ->%list_elem_of_singleton]%elem_of_app; [by apply A3|done].
Qed.

Lemma tx_pin (L h : list _) d b b' ab i bn V :
  tx_bio b (Tx V L h d) ab -> (i, bn) ∈ h -> bn ∉ L ->
  bio_rep D b' (ab_ref_upd bn (ab_ref ab bn + 1) ab) -> keeps_all D b b' ->
  tx_bio b' (Tx V (L ++ [bn]) h (filter (fun b => b <> bn) d)) (ab_ref_upd bn (ab_ref ab bn + 1) ab).
Proof.
  intros [T1 T2 T3 T4 T5 Tf Th T6 T7] Hin Hn R K. cbn [t_view t_log t_held t_dirty] in *.
  split; cbn [t_view t_log t_held t_dirty ab_ref_upd ab_view ab_ref ab_holder ab_disk]; try done.
  - intros x. destruct (decide (bn = x)) as [<-|Hne].
    + rewrite fn_lookup_insert, T3, (decide_False (P := bn ∈ L)) by done.
      rewrite (decide_True (P := bn ∈ L ++ [bn])) by set_solver. lia.
    + rewrite fn_lookup_insert_ne, T3 by done. f_equal. apply decide_ext. set_solver.
  - intros x Hx1 Hx2. apply T5; [set_solver|]. intros Hx. apply Hx2, list_elem_of_filter. set_solver.
  - intros j x Hj. by apply K, T6.
Qed.

Ltac lgsimp :=
  unfold tx_rep, upd_log; cbn [ls_log ls_bio lset lget lg_lock_lens upd_log lg_lock lg_start lg_size lg_outstanding
    lg_committing lg_dev lg_n lg_block set_n t_log].

Lemma tx_log_write_spec V L h d i bn s :
  tx_rep (Tx V L h d) s -> (i, bn) ∈ h -> loggable bn -> Z.of_nat (length L) < LOGSIZE - 1 ->
  wp (log_write i) (fun _ => tx_rep (Tx V (log_add bn L) h (filter (fun b => b <> bn) d))) s.
Proof.
  intros [(ab & Hb) Hl] Hin Hlg Hlen. pose proof Hb as [T1 T2 T3 T4 T5 Tf Th T6 T7]. pose proof Hl as [E1 E2 E3 E4 E5 E6 E7 Ec E8 E9 Em E10].
  cbn [t_view t_log t_held t_dirty] in *. pose proof Hlg as [Hh1 Hh2].
  pose proof (T6 _ _ Hin) as Hbo. pose proof Hbo as (p & [Hi Hp] & _ & Hpn & _).
  unfold log_write. apply wp_bind. eexists tt, _. split; [apply (acquire_free lg_lock_lens s (proj1 E8))|].
  set (s1 := lset _ _ _). apply wp_bind, wp_gets. unfold id. apply wp_bind, wp_panic_if.
  { cbn. rewrite E3, E4. lia. }
  apply wp_bind, wp_panic_if; [cbn; lia|].
  apply wp_bind. exists p, s1. split; [apply (bio_Done _ s1); by apply getb_Done|].
  change (lg_n (ls_log s1)) with (lg_n (ls_log s)). rewrite E4, Hpn, Nat2Z.id.
  destruct (absorb_loop_spec (length L) 0 L bn s1 E5) as (r & Hr & Hrv); try done.
  { apply Forall_forall. intros b Hb2. by destruct (ao_home _ _ E10 b Hb2). }
  { set_solver. }
  apply wp_bind. exists (Z.of_nat r), s1. split; [exact Hr|]. clear Hr.
  assert (Hrl : (r <= length L)%nat).
  { destruct (decide (bn ∈ L)); [apply lookup_lt_Some in Hrv|]; lia. }
  apply wp_bind. eexists tt, _. split; [apply set_block_Done; cbn; rewrite E6; lia|].
  unfold log_add. destruct (decide (bn ∈ L)) as [HL|HL].
  - pose proof (lookup_lt_Some _ _ _ Hrv). apply wp_bind, wp_when; [lia|]. intros _.
    eexists tt, _. split; [eapply (release_held lg_lock_lens); [reflexivity|exact E8]|].
    subst s1. lgsimp. rewrite (tx_log_set_same L _ r bn Hl Hrv Hh1). split; [|by destruct Hl].
    exists ab. split; try done. cbn. intros x Hx1 Hx2. apply T5; [done|]. intros Hx.
    apply Hx2, list_elem_of_filter. set_solver.
  - subst r. apply wp_bind, wp_when; [|lia]. intros _. apply wp_bind.
    destruct (bpin_spec D (ls_bio s) ab i bn T1 Hbo) as (b' & H1 & R1 & K1).
    1,2: rewrite T3; repeat case_decide; lia.
    eexists tt, _. split; [apply bio_Done; exact H1|]. apply wp_modify.
    eexists tt, _. split; [eapply (release_held lg_lock_lens); [reflexivity|exact E8]|].
    subst s1. lgsimp. split; [exists (ab_ref_upd bn (ab_ref ab bn + 1) ab); by eapply tx_pin|].
    rewrite Nat2Z.id, i32_small by (unfold home_ok in Hh1; lia). rewrite <- E4. by apply tx_log_snoc.
Qed.

#[export] Instance log_txn_ok : TxnOk lst D tx_rep loggable.
Proof.
  split.
  - exact tx_rep_ext.
  - intros. by apply tx_bread_spec.
  - exact tx_data_spec.
  - exact tx_put_spec.
  - exact tx_log_write_spec.
  - exact tx_brelse_spec.
Qed.
End LogTxn.

(** ** The control fields of the log

    Only [begin_op], [end_op] and [initlog] touch them. *)

Definition ctl (l : logst) : spinlock * Z * Z * bool := (lg_lock l, lg_size l, lg_outstanding l, lg_committing l).
Class KeepsCtl {A} (m : M lst A) : Prop :=
  keeps_ctl : forall s a s', m s = Done a s' -> ctl (ls_log s') = ctl (ls_log s).

#[export] Instance keeps_bind {A B} (m : M lst A) (k : A -> M lst B) :
  KeepsCtl m -> (forall a, KeepsCtl (k a)) -> KeepsCtl (bind m k).
Proof.
  intros Hm Hk s b s' (a & s1 & H1 & H2)%bind_Done_inv.
  rewrite (Hk a _ _ _ H2). exact (Hm _ _ _ H1).
Qed.
#[export] Instance keeps_bio {A} (m : M bst A) : KeepsCtl (bio m).
Proof. intros s a s' (b & _ & ->)%lift_Done_inv. done. Qed.
#[export] Instance keeps_get {A} (f : logst -> A) : KeepsCtl (log_get f).
Proof. intros s a s' [= _ <-]. done. Qed.
#[export] Instance keeps_set_n n : KeepsCtl (log_set (set_n n)).
Proof. intros s a s' [= _ <-]. done. Qed.
#[export] Instance keeps_get_block i : KeepsCtl (get_block i).
Proof. intros s a s'. unfold get_block. destruct (_ !! _); [|done]. by intros [= _ <-]. Qed.
#[export] Instance keeps_ret {A} (a : A) : KeepsCtl (ret a).
Proof. intros s b s' [= _ <-]. done. Qed.
#[export] Instance keeps_when c (m : M lst unit) : KeepsCtl m -> KeepsCtl (when c m).
Proof. intros Hm. destruct c; [exact Hm|apply keeps_ret]. Qed.
#[export] Instance keeps_for {A} (l : list A) (f : A -> M lst unit) :
  (forall a, KeepsCtl (f a)) -> KeepsCtl (for_each l f).
Proof. intros Hf. induction l as [|x l IH]; simpl; apply _. Qed.

#[export] Instance commit_keeps_ctl `{HC : Ctx} : KeepsCtl commit.
Proof. unfold commit, write_log, write_log_step, write_head, install_trans, install_step. apply _. Qed.

#[export] Instance keeps_set_block i b : KeepsCtl (set_block i b).
Proof. intros s a s'. unfold set_block. destruct (decide _); [|done]. by intros [= _ <-]. Qed.
#[export] Instance recover_keeps_ctl `{HC : Ctx} : KeepsCtl recover_from_log.
Proof. unfold recover_from_log, read_head, write_head, install_trans, install_step. apply _. Qed.

(** ** The life of a transaction *)

Section Life.
Context `{HC : Ctx} (D st : Z).

(** Between transactions: nothing is pinned, the header on disk is empty. *)
Record idle (F : Z -> block) (H : list (Z * block)) (s : lst) : Prop := {
  id_at : log_at D s st [] [] F F H;
  id_out : lg_outstanding (ls_log s) = 0;
  id_comm : lg_committing (ls_log s) = false;
  id_size : lg_size (ls_log s) = LOGSIZE;
  id_lock : unlocked (lg_lock (ls_log s));
  id_st : 0 <= st < 2 ^ 31 - 64;
  id_head : head_n (F st) = 0;
  id_len : length (F st) = Z.to_nat BSIZE
}.

Lemma tx_rep_log_at nop F H V L s :
  tx_rep D st nop F H (Tx V L [] []) s -> log_at D s st L L V F H.
Proof.
  intros [(ab & [T1 T2 T3 T4 T5 Tf Th T6 T7]) [E1 E2 E3 E4 E5 E6 E7 Ec E8 E9 Em E10]].
  cbn [t_view t_log t_held t_dirty] in *. split; try done. exists ab. split; [done|]. split; try done.
  - intros bn. rewrite T3. rewrite (decide_False (P := bn ∈ [].*2)) by apply not_elem_of_nil. lia.
Qed.

Lemma idle_tx F H s : idle F H s ->
  tx_rep D st 1 F H (Tx F [] [] []) (upd_log (set_outstanding 1) s).
Proof.
  intros [[L1 L2 L3 L4 L5 (ab & R & [A1 A2 A3 A4 A5])] I2 I3 I4 I5 I6 I7 I8]. split.
  - exists ab. split; cbn [t_view t_log t_held t_dirty]; try done.
    + intros bn _ _. now rewrite A3, A4.
    + intros i bn Hi. by apply elem_of_nil in Hi.
    + by constructor.
  - split; try done; [constructor|]. split; [done|done|]. intros b Hb. by apply elem_of_nil in Hb.
Qed.

(** [begin_op] inside a transaction: admitted when the log has room for the
    writes all admitted calls may make, asleep otherwise. *)
Lemma begin_op_spec nop F H a s :
  tx_rep D st nop F H a s ->
  if Z.of_nat (length (t_log a)) + (nop + 1) * MAXOPBLOCKS <=? LOGSIZE
  then exists s', begin_op s = Done tt s' /\ tx_rep D st (nop + 1) F H a s'
  else begin_op s = Sleep ("log"%string, 0) s.
Proof.
  intros [Hb [E1 E2 E3 E4 E5 E6 [E7 En] Ec E8 E9 Em E10]].
  unfold begin_op. rewrite (bind_Done _ _ _ _ _ (acquire_free lg_lock_lens s (proj1 E8))).
  rewrite (bind_Done (log_get _) _ _ _ _ eq_refl). unfold id.
  match goal with |- context [lg_committing ?x] => change (lg_committing x) with (lg_committing (ls_log s));
    change (lg_n x) with (lg_n (ls_log s)); change (lg_outstanding x) with (lg_outstanding (ls_log s)) end.
  rewrite Ec, E4, E7. destruct (Z.leb_spec (Z.of_nat (length (t_log a)) + (nop + 1) * MAXOPBLOCKS) LOGSIZE) as [Hle|Hgt].
  - replace (LOGSIZE <? _) with false by lia.
    rewrite (bind_Done (log_set _) _ _ _ _ eq_refl). eexists.
    split; [eapply (release_held lg_lock_lens); [reflexivity|exact E8]|].
    split; [exact Hb|]. split; try done. cbn. lia.
  - replace (LOGSIZE <? _) with true by lia. unfold sleep, bind. erewrite (release_held lg_lock_lens); [|reflexivity|exact E8].
    unfold sleep_on. f_equal. now destruct s as [[] ?].
Qed.

(** Recovery after a crash during the writes [ws] on [F] finds [F] or [V]. *)
Definition atomic (F V : Z -> block) (ws : list (Z * block)) (d0 : disk) : Prop :=
  forall nlog d d', crash ws d0 d -> rtc (interrupted D st nlog) d d' ->
    exists r, start_log D st nlog (log_boot d') = Done tt r /\
      ((forall bn, home st bn -> dread (lst_disk r) bn = F bn) \/
       (forall bn, home st bn -> dread (lst_disk r) bn = V bn)).

Lemma atomic_nil F V bl d0 :
  D <> 0 -> area_ok st bl -> (forall bn, dread d0 bn = F bn) -> head_n (F st) = 0 -> length (F st) = Z.to_nat BSIZE ->
  atomic F V [] d0.
Proof.
  intros HD Ha Hd H0 Hl nlog d d' (k & Hk) Hr. rewrite take_nil in Hk. simpl in Hk.
  assert (Hst : dread d st = F st) by now rewrite Hk, Hd.
  assert (Hh : head_ok st (dread d)) by (apply (head_ok_0 st bl); rewrite ?Hst; done).
  destruct (recovery_run D st nlog d d' HD Hh Hr) as (r & Hrun & C & _).
  exists r. split; [exact Hrun|]. clear Hrun. left. intros bn Hbn. rewrite C by done. unfold logical.
  rewrite Hst, head_blocks_0 by done. simpl. now rewrite Hk, Hd.
Qed.

Lemma commit_tx F H V L s :
  D <> 0 -> log_at D s st L L V F H -> area_ok st L -> NoDup L -> Z.of_nat (length L) < NBUF ->
  head_n (F st) = 0 -> length (F st) = Z.to_nat BSIZE ->
  exists s' F' ws, commit s = Done tt s' /\ log_at D s' st [] [] F' F' (H ++ ws) /\
    head_n (F' st) = 0 /\ length (F' st) = Z.to_nat BSIZE /\
    (forall bn, home st bn -> F' bn = V bn) /\ atomic F V ws (lst_disk s).
Proof.
  intros HD Hl Ha Hnd Hlen H0 Hb. destruct (log_at_disk D _ _ _ _ _ _ _ Hl) as [E1 E2].
  destruct (decide (L = [])) as [->|Hne].
  - exists s, F, []. rewrite app_nil_r. pose proof (fun bn => bio_at_clean D _ _ _ _ _ bn (la_bio _ _ _ _ _ _ _ _ Hl)) as Hcl.
    conjs; try done.
    + unfold commit, log_get. rewrite (bind_Done (gets _) _ s _ s eq_refl), (la_n _ _ _ _ _ _ _ _ Hl). done.
    + apply (log_at_ext D s st [] [] V F H F F); [|done|done]. intros bn. apply Hcl, not_elem_of_nil.
    + intros bn _. symmetry. apply Hcl, not_elem_of_nil.
    + by apply (atomic_nil F V []).
  - assert (Hpos : 0 < Z.of_nat (length L)) by (destruct L; simpl; [done|lia]).
    destruct (commit_run D s st L V F H Hl Ha Hnd ltac:(lia)) as (s' & V' & R & L').
    pose proof (fun bn => bio_at_clean D _ _ _ _ _ bn (la_bio _ _ _ _ _ _ _ _ L')) as Hcl.
    exists s', (committed st L V F), (commit_writes st L V F).
    destruct (hd1_ok st L F Ha Hb) as (_ & _ & E3). destruct (put_head_empty _ E3) as [E4 E5].
    assert (Hst : committed st L V F st = put_head [] (hd1 st L F)) by apply fn_lookup_insert.
    split; [exact R|]. split; [|rewrite Hst; split; [exact E4|split; [exact E5|split]]].
    + apply (log_at_ext D s' st [] [] V' (committed st L V F)); [|reflexivity|exact L']. intros bn. apply Hcl, not_elem_of_nil.
    + intros bn Hbn.
      destruct (commit_atomic D s st 0 L V F H HD Hl Ha Hnd ltac:(lia) H0 Hb) as (s2 & ws & R2 & _ & _ & HV & _).
      rewrite R in R2. injection R2 as <-. rewrite <- (HV bn Hbn).
      symmetry. apply (proj1 (log_at_disk D _ _ _ _ _ _ _ L')).
    + intros nlog d d' Hc Hr.
      destruct (commit_atomic D s st nlog L V F H HD Hl Ha Hnd ltac:(lia) H0 Hb) as (s2 & ws & R2 & Hw & _ & _ & C).
      rewrite R in R2. injection R2 as <-. rewrite E2, (proj2 (log_at_disk D _ _ _ _ _ _ _ L')) in Hw.
      apply app_inv_head in Hw as <-. destruct (C d d' Hc Hr) as (r & Hrun & C1). clear R.
      exists r. split; [exact Hrun|]. clear Hrun. destruct C1 as [C1|C1]; [left|by right].
      intros bn Hbn. now rewrite C1, E1.
Qed.

Lemma log_at_ctl s st' bl pins V F H lk o c :
  log_at D s st' bl pins V F H ->
  log_at D (upd_log (fun l => Logst lk (lg_start l) (lg_size l) o c (lg_dev l) (lg_n l) (lg_block l)) s)
    st' bl pins V F H.
Proof. intros []. by split. Qed.

(** [end_op] of the last call in the transaction commits it. *)
Lemma end_op_last F H V L s :
  D <> 0 -> tx_rep D st 1 F H (Tx V L [] []) s -> head_n (F st) = 0 -> length (F st) = Z.to_nat BSIZE ->
  exists s' F' ws, end_op s = Done tt s' /\ idle F' (H ++ ws) s' /\
    (forall bn, home st bn -> F' bn = V bn) /\ atomic F V ws (lst_disk s).
Proof.
  intros HD Htx H0 Hb. pose proof (tx_rep_log_at _ _ _ _ _ _ Htx) as Hl.
  destruct Htx as [_ [E1 E2 E3 E4 E5 E6 [E7 _] Ec E8 E9 Em E10]]. cbn [t_log] in *.
  destruct (commit_tx F H V L _ HD (log_at_ctl s _ _ _ _ _ _ (lg_lock (ls_log s)) (lg_outstanding (ls_log s) - 1) true Hl) E10 E9 Em H0 Hb)
    as (s1 & F' & ws & R & L1 & B1 & B2 & B3 & B4).
  pose proof (commit_keeps_ctl _ _ _ R) as K. injection K as K1 K2 K3 K4.
  unfold end_op. rewrite (bind_Done _ _ _ _ _ (acquire_free lg_lock_lens s (proj1 E8))).
  rewrite (bind_Done (log_get _) _ _ _ _ eq_refl), (bind_Done (log_set _) _ _ _ _ eq_refl),
    (bind_Done (log_get _) _ _ _ _ eq_refl).
  match goal with |- context [lg_committing ?x] => change (lg_committing x) with (lg_committing (ls_log s));
    change (lg_outstanding x) with (lg_outstanding (ls_log s) - 1) end.
  rewrite Ec, E7. change (1 - 1 =? 0) with true. unfold when, panic_if. cbv zeta iota.
  rewrite (bind_Done (ret tt) _ _ _ _ eq_refl). rewrite (bind_Done (log_set _) _ _ _ _ eq_refl).
  erewrite (bind_Done (release _)); [|eapply (release_held lg_lock_lens); [reflexivity|exact E8]].
  match goal with |- context [bind commit _ ?x] => change x with (upd_log (fun l => Logst (lg_lock (ls_log s)) (lg_start l) (lg_size l) (lg_outstanding (ls_log s) - 1) true
    (lg_dev l) (lg_n l) (lg_block l)) s) end.
  rewrite (bind_Done _ _ _ _ _ R). clear R.
  assert (Hu : unlocked (lg_lock (ls_log s1))) by (rewrite K1; exact E8).
  rewrite (bind_Done _ _ _ _ _ (acquire_free lg_lock_lens s1 (proj1 Hu))), (bind_Done (log_set _) _ _ _ _ eq_refl).
  eexists _, F', ws. split; [eapply (release_held lg_lock_lens); [reflexivity|exact Hu]|].
  split; [|split; [exact B3|exact B4]].
  split; try done; [| | |by destruct E10].
  - destruct L1. by split.
  - transitivity (lg_outstanding (ls_log s) - 1); [exact K3|]. rewrite E7. done.
  - rewrite <- E3. exact K2.
Qed.

(** A kernel that has just recovered is ready for transactions. *)
Lemma start_log_idle d :
  D <> 0 -> head_ok st (dread d) ->
  exists s, start_log D st LOGSIZE (log_boot d) = Done tt s /\
    idle (recovered st (dread d)) (d_hist d ++ recover_writes st (dread d)) s.
Proof.
  intros HD Hh. destruct (start_log_run D d st LOGSIZE HD Hh) as (s & Hs & Hl). exists s. split; [exact Hs|].
  unfold start_log in Hs. apply bind_Done_inv in Hs as ([] & s1 & H1 & H2).
  apply lift_Done_inv in H1 as (b & _ & ->).
  unfold initlog in H2. rewrite (bind_Done (panic_if (BSIZE <=? sizeof_logheader) _) _ _ tt _ eq_refl),
    (bind_Done (log_set _) _ _ _ _ eq_refl) in H2.
  pose proof (recover_keeps_ctl _ _ _ H2) as K. clear H2. injection K as K1 K2 K3 K4.
  destruct Hh as (_ & [A1 _ _] & Hlen). destruct (put_head_empty _ Hlen) as [B1 B2].
  assert (Hst : recovered st (dread d) st = put_head [] (dread d st)) by apply fn_lookup_insert.
  split; try done; rewrite ?Hst; try done.
  rewrite K1. done.
Qed.

Lemma atomic_ext F V ws d0 d1 :
  (forall bn, dread d0 bn = dread d1 bn) -> atomic F V ws d0 -> atomic F V ws d1.
Proof.
  intros E Ha nlog d d' (k & Hk) Hr. apply (Ha nlog d d'); [|done]. exists k. intros bn. rewrite Hk.
  apply apply_writes_ext. intros b. symmetry. apply E.
Qed.

Lemma tx_rep_disk nop F H V L s bn : tx_rep D st nop F H (Tx V L [] []) s -> dread (lst_disk s) bn = F bn.
Proof. intros Ht. apply (proj1 (log_at_disk D _ _ _ _ _ _ _ (tx_rep_log_at _ _ _ _ _ _ Ht))). Qed.

Lemma begin_op_idle F H s : idle F H s ->
  exists s', begin_op s = Done tt s' /\ tx_rep D st 1 F H (Tx F [] [] []) s'.
Proof.
  intros Hi. pose proof (idle_tx F H s Hi) as Ht. destruct Hi as [[] I2 I3 I4 I5 I6 I7 I8].
  eexists. split; [|exact Ht].
  unfold begin_op. rewrite (bind_Done _ _ _ _ _ (acquire_free lg_lock_lens s (proj1 I5))).
  rewrite (bind_Done (log_get _) _ _ _ _ eq_refl). unfold id.
  match goal with |- context [lg_committing ?x] => change (lg_committing x) with (lg_committing (ls_log s));
    change (lg_n x) with (lg_n (ls_log s)); change (lg_outstanding x) with (lg_outstanding (ls_log s)) end.
  rewrite I2, I3, la_n. change (LOGSIZE <? Z.of_nat (length (@nil Z)) + (0 + 1) * MAXOPBLOCKS) with false.
  cbv iota. rewrite (bind_Done (log_set _) _ _ _ _ eq_refl).
  erewrite (release_held lg_lock_lens); [|reflexivity|exact I5]. reflexivity.
Qed.

(** C1: a system call that changes blocks inside [begin_op] and [end_op],
    through the buffer cache and [log_write] only, is atomic and durable: when
    it has returned, every block is on the disk as the call left it, and if
    the machine stops at any point of it (and again, any number of times,
    while it recovers), the next recovery leaves all blocks as they were
    before the call, or all blocks as the call left them. *)
Theorem transaction_atomic F H V L (body : M lst unit) s :
  D <> 0 -> idle F H s ->
  (forall s1, tx_rep D st 1 F H (Tx F [] [] []) s1 ->
     wp body (fun _ => tx_rep D st 1 F H (Tx V L [] [])) s1) ->
  exists s' F' ws, (begin_op ;;; body ;;; end_op) s = Done tt s' /\ idle F' (H ++ ws) s' /\
    (forall bn, home st bn -> F' bn = V bn) /\ atomic F V ws (lst_disk s).
Proof.
  intros HD Hi Hbody. destruct (begin_op_idle F H s Hi) as (s1 & R1 & T1).
  destruct (Hbody s1 T1) as ([] & s2 & R2 & T2).
  destruct (end_op_last F H V L s2 HD T2 (id_head _ _ _ Hi) (id_len _ _ _ Hi)) as (s3 & F' & ws & R3 & I3 & E3 & A3).
  exists s3, F', ws. split.
  { rewrite (bind_Done _ _ _ _ _ R1), (bind_Done _ _ _ _ _ R2). exact R3. }
  clear R1 R2 R3. split; [exact I3|]. split; [exact E3|]. revert A3. apply atomic_ext. intros bn.
  rewrite (tx_rep_disk _ _ _ _ _ _ bn T2). symmetry. apply (log_at_disk D _ _ _ _ _ _ _ (id_at _ _ _ Hi)).
Qed.

(** [begin_op] admits a call exactly when the log has room for the blocks
    logged so far and for [MAXOPBLOCKS] blocks of each call in the
    transaction and of the new one; otherwise it sleeps with the lock free and
    the log unchanged. *)
Theorem begin_op_admits nop F H a s :
  tx_rep D st nop F H a s ->
  if Z.of_nat (length (t_log a)) + (nop + 1) * MAXOPBLOCKS <=? LOGSIZE
  then exists s', begin_op s = Done tt s' /\ tx_rep D st (nop + 1) F H a s'
  else begin_op s = Sleep ("log"%string, 0) s.
Proof. apply begin_op_spec. Qed.

(** [log_write] puts a changed block into the log, once: a block that is
    there already is absorbed, a new one is appended and pinned in the cache,
    so that releasing the buffer does not lose the change. *)
Theorem log_write_correct nop F H V L h d i bn s :
  tx_rep D st nop F H (Tx V L ((i, bn) :: h) d) s -> loggable st bn -> Z.of_nat (length L) < LOGSIZE - 1 ->
  exists s' s'', log_write i s = Done tt s' /\ bio (brelse i) s' = Done tt s'' /\
    tx_rep D st nop F H (Tx V (log_add bn L) h (filter (fun b => b <> bn) d)) s''.
Proof.
  intros Ht Hlg Hlen.
  destruct (tx_log_write_spec D st nop F H V L _ d i bn s Ht ltac:(left) Hlg Hlen) as ([] & s' & R1 & T1).
  assert (Hd : bn ∉ filter (fun b => b <> bn) d) by (rewrite list_elem_of_filter; tauto).
  destruct (tx_brelse_spec D st nop F H V _ h _ i bn s' T1 Hd) as ([] & s'' & R2 & T2).
  exists s', s''. split; [exact R1|]. split; [exact R2|exact T2].
Qed.
End Life.

(** ** Concrete runs *)

Module TxnExample.
#[export] Instance ctx : Ctx := {| mycpu := 0; mypid := 1 |}.

(** Change one block inside a transaction. *)
Definition write_one (bn : Z) (v : block) : M lst unit :=
  i <-! bio (bread 1 bn) ;; bio (updb i (set_data v)) ;;; log_write i ;;; bio (brelse i).

Definition empty : disk := Disk ∅ [].
Lemma head_empty : head_ok 2 (dread empty).
Proof.
  apply (head_ok_0 2 []); [|reflexivity|reflexivity]. split; [lia|done|]. intros b Hb. by apply elem_of_nil in Hb.
Qed.
Lemma loggable_50 : loggable 2 50.
Proof. split; [unfold home_ok; lia|unfold home, LOGSIZE, MAXOPBLOCKS; lia]. Qed.

Lemma write_one_ok nop F H s :
  tx_rep 1 2 nop F H (Tx F [] [] []) s ->
  wp (write_one 50 [7]) (fun _ => tx_rep 1 2 nop F H (Tx (<[50 := [7]]> F) [50] [] [])) s.
Proof.
  intros Ht. apply wp_bind. wp_use tx_bread_spec; [exact Ht|apply not_elem_of_nil|by right|].
  intros i s1 T1. apply wp_bind. wp_use tx_put_spec; [exact T1|left|].
  intros [] s2 T2. apply wp_bind. wp_use tx_log_write_spec; [exact T2|left|exact loggable_50|done|].
  intros [] s3 T3. wp_use tx_brelse_spec; [exact T3|apply not_elem_of_nil|]. intros [] s4 T4. exact T4.
Qed.

Lemma transaction_atomic_witness :
  exists s F', (start_log 1 2 LOGSIZE ;;; begin_op ;;; write_one 50 [7] ;;; end_op) (log_boot empty) = Done tt s /\
    F' 50 = [7] /\ exists H, idle 1 2 F' H s.
Proof.
  destruct (start_log_idle 1 2 empty) as (s0 & R0 & I0); [discriminate|exact head_empty|].
  destruct (transaction_atomic 1 2 (recovered 2 (dread empty)) (d_hist empty ++ recover_writes 2 (dread empty)) (<[50 := [7]]> (recovered 2 (dread empty))) [50] (write_one 50 [7]) s0)
    as (s1 & F' & ws & R1 & I1 & E1 & _); [discriminate|exact I0|intros s1 T1; by apply write_one_ok|].
  exists s1, F'. split; [rewrite (bind_Done _ _ _ _ _ R0); exact R1|].
  split; [|eexists; exact I1]. rewrite E1; [reflexivity|]. unfold home, LOGSIZE, MAXOPBLOCKS. lia.
Defined.

(** The machine stopped after the commit of a transaction that changed block
    50, and again when recovery had installed the block and the log was still
    full. *)
Definition stopped : disk := Disk {[ 2 := put_head [50] zero_block; 3 := [7] ]} [].
Definition stopped_again : disk := Disk (<[50 := [7]]> (d_blocks stopped)) [].
Lemma head_stopped : head_ok 2 (dread stopped).
Proof.
  split; [vm_compute; intuition discriminate|]. split; [|vm_compute; reflexivity]. change (head_blocks (dread stopped 2)) with [50].
  split; [lia|done|]. intros b ->%list_elem_of_singleton. unfold home_ok, LOGSIZE, MAXOPBLOCKS. lia.
Qed.
Lemma interrupted_stopped : interrupted 1 2 LOGSIZE stopped stopped_again.
Proof.
  destruct (start_log_run 1 stopped 2 LOGSIZE) as (s & R & L); [discriminate|exact head_stopped|].
  exists s, (recover_writes 2 (dread stopped)). split; [exact R|]. split; [apply (log_at_disk _ _ _ _ _ _ _ _ L)|]. exists 1%nat. intros bn.
  change (take 1 (recover_writes 2 (dread stopped))) with [(50, [7])]. cbn [apply_writes foldl]. destruct (decide (50 = bn)) as [<-|Hne].
  - rewrite fn_lookup_insert. unfold dread, stopped_again. cbn [d_blocks]. by rewrite lookup_insert_eq.
  - rewrite fn_lookup_insert_ne by done. unfold dread, stopped_again. cbn [d_blocks]. by rewrite lookup_insert_ne.
Qed.
Lemma recovery_correct_witness :
  exists s, start_log 1 2 LOGSIZE (log_boot stopped_again) = Done tt s /\ dread (lst_disk s) 50 = [7] /\ lg_n (ls_log s) = 0.
Proof.
  destruct (recovery_correct 1 2 LOGSIZE stopped stopped_again) as (s & R & B & _ & E);
    [discriminate|exact head_stopped|apply rtc_once; exact interrupted_stopped|]. exists s. split; [exact R|]. split; [|exact E].
  rewrite B by (unfold home, LOGSIZE, MAXOPBLOCKS; lia). vm_compute. reflexivity.
Defined.

Lemma begin_op_admits_witness : exists s s', begin_op s = Done tt s' /\ lg_outstanding (ls_log s) = 1.
Proof.
  destruct (start_log_idle 1 2 empty) as (s0 & R0 & I0); [discriminate|exact head_empty|].
  destruct (begin_op_idle 1 2 _ _ s0 I0) as (s1 & R1 & T1).
  pose proof (begin_op_admits 1 2 1 _ _ _ s1 T1) as (s2 & R2 & _).
  exists s1, s2. split; [exact R2|]. apply (tl_out _ _ _ _ _ (proj2 T1)).
Defined.

Lemma log_write_correct_witness : exists i s s', log_write i s = Done tt s'.
Proof.
  destruct (start_log_idle 1 2 empty) as (s0 & R0 & I0); [discriminate|exact head_empty|].
  destruct (begin_op_idle 1 2 _ _ s0 I0) as (s1 & R1 & T1).
  destruct (tx_bread_spec 1 2 1 _ _ _ [] [] [] 50 s1 T1) as (i & s2 & R2 & T2); [apply not_elem_of_nil|by right|].
  destruct (log_write_correct 1 2 1 _ _ _ [] [] [] i 50 s2 T2 loggable_50) as (s3 & s4 & R3 & _); [done|].
  exists i, s2, s3. exact R3.
Defined.

(** The room [begin_op] sets aside is more than [log_write] accepts.  With
    the [LOGSIZE] log blocks mkfs makes, one of which is the header, three
    calls are admitted at once; when each of them logs [MAXOPBLOCKS] blocks,
    the last block makes [log_write] panic. *)
Theorem log_reservation_too_large :
  (start_log 1 2 LOGSIZE ;;; begin_op ;;; begin_op ;;; begin_op ;;;
   for_each (upto (3 * MAXOPBLOCKS)) (fun k => write_one (100 + k) [k])) (log_boot empty)
  = Panic "too big a transaction".
Proof. vm_compute. reflexivity. Qed.
End TxnExample.
