(* ===== verification/Fs.v ===== *)
(** * The file system: kernel/fs.c

    Definitions for the five layers of fs.c: the block allocator, inodes, file
    contents, directories and path names, over the calls of [Txn].  A pointer
    to an inode is its index in [itable.inode]; a buffer is what [tx_bread]
    returned.  The theorems are in FsBlock, FsInode, FsFile and FsDir. *)

From S2P Require Import Prelude Memory Riscv Spinlock Kalloc Vm Bio Log Txn.

(** ** On-disk format (kernel/fs.h) *)

Definition ROOTINO : Z := 1.
Definition ROOTDEV : Z := 1.
Definition FSMAGIC : Z := 0x10203040.
Definition NDIRECT : Z := 12.
Definition NINDIRECT : Z := BSIZE / 4.
Definition MAXFILE : Z := NDIRECT + NINDIRECT.
Definition IPB : Z := BSIZE / 64.
Definition BPB : Z := BSIZE * 8.
Definition DIRSIZ : Z := 14.
Definition NINODE : Z := 50.
Definition T_DIR : Z := 1.
Definition T_FILE : Z := 2.
Definition T_DEVICE : Z := 3.
(** [sizeof(struct dirent)] *)
Definition DESIZE : Z := 16.

Record superblock := Superblock {
  sb_magic : Z; sb_size : Z; sb_nblocks : Z; sb_ninodes : Z;
  sb_nlog : Z; sb_logstart : Z; sb_inodestart : Z; sb_bmapstart : Z
}.
Definition IBLOCK (i : Z) (sb : superblock) : Z := i / IPB + sb_inodestart sb.
Definition BBLOCK (b : Z) (sb : superblock) : Z := b / BPB + sb_bmapstart sb.

Definition decode_sb (d : block) : superblock :=
  Superblock (get32 d 0) (get32 d 4) (get32 d 8) (get32 d 12)
    (get32 d 16) (get32 d 20) (get32 d 24) (get32 d 28).

(** 16 bit fields, and a run of bytes stored into a block. *)
Definition get16 (d : block) (off : Z) : Z := get8 d off + 256 * get8 d (off + 1).
Definition put16 (off v : Z) (d : block) : block := put8 (off + 1) (v / 256) (put8 off v d).
Fixpoint splice (off : Z) (bs : list Z) (d : block) : block :=
  match bs with [] => d | b :: bs' => splice (off + 1) bs' (put8 off b d) end.
Definition slice (d : block) (off n : Z) : list Z := (fun k => get8 d (off + k)) <$> upto n.

(** [struct inode] in memory; [i_valid], [i_type], ... are a copy of the
    [struct dinode] on disk. *)
Record inode := Inode {
  i_dev : Z; i_inum : Z; i_ref : Z; i_lock : sleeplock; i_valid : bool;
  i_type : Z; i_major : Z; i_minor : Z; i_nlink : Z; i_size : Z; i_addrs : list Z
}.
Definition ino_ref (r : Z) (p : inode) : inode :=
  Inode (i_dev p) (i_inum p) r (i_lock p) (i_valid p) (i_type p) (i_major p) (i_minor p) (i_nlink p) (i_size p) (i_addrs p).
Definition ino_lock (l : sleeplock) (p : inode) : inode :=
  Inode (i_dev p) (i_inum p) (i_ref p) l (i_valid p) (i_type p) (i_major p) (i_minor p) (i_nlink p) (i_size p) (i_addrs p).
Definition ino_valid (v : bool) (p : inode) : inode :=
  Inode (i_dev p) (i_inum p) (i_ref p) (i_lock p) v (i_type p) (i_major p) (i_minor p) (i_nlink p) (i_size p) (i_addrs p).
Definition ino_type (t : Z) (p : inode) : inode :=
  Inode (i_dev p) (i_inum p) (i_ref p) (i_lock p) (i_valid p) t (i_major p) (i_minor p) (i_nlink p) (i_size p) (i_addrs p).
Definition ino_nlink (n : Z) (p : inode) : inode :=
  Inode (i_dev p) (i_inum p) (i_ref p) (i_lock p) (i_valid p) (i_type p) (i_major p) (i_minor p) (i16 n) (i_size p) (i_addrs p).
Definition ino_majmin (a b : Z) (p : inode) : inode :=
  Inode (i_dev p) (i_inum p) (i_ref p) (i_lock p) (i_valid p) (i_type p) a b (i_nlink p) (i_size p) (i_addrs p).
Definition ino_size (n : Z) (p : inode) : inode :=
  Inode (i_dev p) (i_inum p) (i_ref p) (i_lock p) (i_valid p) (i_type p) (i_major p) (i_minor p) (i_nlink p) n (i_addrs p).
Definition ino_addr (k a : Z) (p : inode) : inode :=
  Inode (i_dev p) (i_inum p) (i_ref p) (i_lock p) (i_valid p) (i_type p) (i_major p) (i_minor p) (i_nlink p) (i_size p)
    (<[Z.to_nat k := a]> (i_addrs p)).

(** Offset of inode [inum] in its block: [(struct dinode* )bp->data + inum%IPB] *)
Definition di_off (inum : Z) : Z := 64 * (inum mod IPB).
(** [ip->type = dip->type; ...; memmove(ip->addrs, dip->addrs, ...);] *)
Definition load_dinode (o : Z) (d : block) (p : inode) : inode :=
  Inode (i_dev p) (i_inum p) (i_ref p) (i_lock p) (i_valid p)
    (i16 (get16 d o)) (i16 (get16 d (o + 2))) (i16 (get16 d (o + 4))) (i16 (get16 d (o + 6)))
    (get32 d (o + 8)) ((fun k => get32 d (o + 12 + 4 * k)) <$> upto (NDIRECT + 1)).
Fixpoint put_addrs (o : Z) (l : list Z) (d : block) : block :=
  match l with [] => d | a :: l' => put_addrs (o + 4) l' (put32 o a d) end.
(** [dip->type = ip->type; ...; memmove(dip->addrs, ip->addrs, ...);] *)
Definition store_dinode (o : Z) (p : inode) (d : block) : block :=
  put_addrs (o + 12) (i_addrs p)
    (put32 (o + 8) (i_size p) (put16 (o + 6) (i_nlink p) (put16 (o + 4) (i_minor p)
      (put16 (o + 2) (i_major p) (put16 o (i_type p) d))))).

(** ** State *)

(** The file system of a kernel whose log and buffer cache are in state [S];
    [fs_k] is physical memory, [fs_pt] and [fs_cwd] are the [pagetable] and
    [cwd] of [myproc()]. *)
Record fsst (S : Type) := Fsst {
  fs_tx : S; fs_sb : superblock; fs_itlock : spinlock; fs_it : list inode;
  fs_k : kst; fs_pt : Z; fs_cwd : Z
}.
Arguments Fsst {S}.
Arguments fs_tx {S}. Arguments fs_sb {S}. Arguments fs_itlock {S}. Arguments fs_it {S}.
Arguments fs_k {S}. Arguments fs_pt {S}. Arguments fs_cwd {S}.

(** Where the local variable [de] (or [elf], [ph]) of a kernel function is. *)
Class Frame := { local_addr : Z }.

Section Fs.
Context `{HC : Ctx} `{HI : Image} `{HF : Frame} {S : Type} `{HT : Txn S}.
Notation fs := (fsst S).

Definition tx_lens : lens fs S :=
  Lens fs_tx (fun t s => Fsst t (fs_sb s) (fs_itlock s) (fs_it s) (fs_k s) (fs_pt s) (fs_cwd s)).
Definition it_lens : lens fs spinlock :=
  Lens fs_itlock (fun l s => Fsst (fs_tx s) (fs_sb s) l (fs_it s) (fs_k s) (fs_pt s) (fs_cwd s)).
Definition k_lens : lens fs kst :=
  Lens fs_k (fun k s => Fsst (fs_tx s) (fs_sb s) (fs_itlock s) (fs_it s) k (fs_pt s) (fs_cwd s)).
Definition tx {A} (m : M S A) : M fs A := lift tx_lens m.
Definition set_it (l : list inode) (s : fs) : fs :=
  Fsst (fs_tx s) (fs_sb s) (fs_itlock s) l (fs_k s) (fs_pt s) (fs_cwd s).

Definition bread_ (dev bn : Z) : M fs Z := tx (tx_bread dev (u32 bn)).
Definition data_ (b : Z) : M fs block := tx (tx_data b).
Definition put_ (b : Z) (v : block) : M fs unit := tx (tx_put b v).
Definition log_write_ (b : Z) : M fs unit := tx (tx_log_write b).
Definition brelse_ (b : Z) : M fs unit := tx (tx_brelse b).

(** Reading and changing the inode a pointer denotes. *)
Definition geti (ip : Z) : M fs inode := fun s =>
  if ip <? 0 then Undef else match fs_it s !! Z.to_nat ip with Some p => Done p s | None => Undef end.
Definition seti (ip : Z) (f : inode -> inode) : M fs unit :=
  p <-! geti ip ;; modify (fun s => set_it (<[Z.to_nat ip := f p]> (fs_it s)) s).
Definition on_ilock {A} (ip : Z) (m : M sleeplock A) : M fs A :=
  p <-! geti ip ;;
  lift (Lens (fun _ => i_lock p) (fun l s => set_it (<[Z.to_nat ip := ino_lock l p]> (fs_it s)) s)) m.

(** ** Super block *)

Definition readsb (dev : Z) : M fs unit :=
  bp <-! bread_ dev 1 ;;
  d <-! data_ bp ;;
  modify (fun s => Fsst (fs_tx s) (decode_sb d) (fs_itlock s) (fs_it s) (fs_k s) (fs_pt s) (fs_cwd s)) ;;;
  brelse_ bp.
Definition fsinit (dev : Z) : M fs unit :=
  readsb dev ;;;
  sb <-! gets fs_sb ;;
  panic_if (negb (sb_magic sb =? FSMAGIC)) "invalid file system" ;;;
  tx (tx_initlog dev (sb_logstart sb) (sb_nlog sb)).

(** ** Blocks *)

Definition bzero (dev bno : Z) : M fs unit :=
  bp <-! bread_ dev bno ;;
  put_ bp zero_block ;;;
  log_write_ bp ;;;
  brelse_ bp.

(** [m = 1 << (bi % 8); (bp->data[bi/8] & m) == 0] *)
Definition bit_clear (d : block) (bi : Z) : bool := Z.land (get8 d (bi / 8)) (Z.shiftl 1 (bi mod 8)) =? 0.
Definition bit_mark (bi : Z) (d : block) : block :=
  put8 (bi / 8) (Z.lor (get8 d (bi / 8)) (Z.shiftl 1 (bi mod 8))) d.
Definition bit_unmark (bi : Z) (d : block) : block :=
  put8 (bi / 8) (Z.land (get8 d (bi / 8)) (Z.lnot (Z.shiftl 1 (bi mod 8)))) d.
(** [for(bi = 0; bi < BPB && b + bi < sb.size; bi++)] up to a clear bit. *)
Fixpoint balloc_scan (fuel : nat) (d : block) (b bi size : Z) : option Z :=
  match fuel with
  | O => None
  | Datatypes.S fuel' =>
      if (bi <? BPB) && (b + bi <? size) then
        if bit_clear d bi then Some bi else balloc_scan fuel' d b (bi + 1) size
      else None
  end.
Fixpoint balloc_loop (fuel : nat) (dev b : Z) : M fs Z :=
  match fuel with
  | O => diverge
  | Datatypes.S fuel' =>
      sb <-! gets fs_sb ;;
      if b <? sb_size sb then
        bp <-! bread_ dev (BBLOCK b sb) ;;
        d <-! data_ bp ;;
        match balloc_scan (Z.to_nat BPB) d b 0 (sb_size sb) with
        | Some bi =>
            put_ bp (bit_mark bi d) ;;;
            log_write_ bp ;;;
            brelse_ bp ;;;
            bzero dev (b + bi) ;;;
            ret (b + bi)
        | None => brelse_ bp ;;; balloc_loop fuel' dev (b + BPB)
        end
      else ret 0
  end.
Definition balloc (dev : Z) : M fs Z :=
  sb <-! gets fs_sb ;; balloc_loop (Z.to_nat (sb_size sb / BPB + 2)) dev 0.

Definition bfree (dev b : Z) : M fs unit :=
  sb <-! gets fs_sb ;;
  bp <-! bread_ dev (BBLOCK b sb) ;;
  let bi := b mod BPB in
  d <-! data_ bp ;;
  panic_if (bit_clear d bi) "freeing free block" ;;;
  put_ bp (bit_unmark bi d) ;;;
  log_write_ bp ;;;
  brelse_ bp.

(** ** Inodes *)

Definition iinit : M fs unit :=
  modify (fun s => Fsst (fs_tx s) (fs_sb s) (initlock "itable") (fs_it s) (fs_k s) (fs_pt s) (fs_cwd s)) ;;;
  for_each (upto NINODE) (fun i => seti i (ino_lock (initsleeplock "inode"))).

(** The loop of [iget]: the entry of the inode, and the first entry not in use
    before it. *)
Fixpoint iget_find (l : list inode) (i dev inum : Z) : option Z :=
  match l with
  | [] => None
  | p :: l' => if (0 <? i_ref p) && (i_dev p =? dev) && (i_inum p =? inum) then Some i
               else iget_find l' (i + 1) dev inum
  end.
Fixpoint iget_empty (l : list inode) (i : Z) : option Z :=
  match l with
  | [] => None
  | p :: l' => if i_ref p =? 0 then Some i else iget_empty l' (i + 1)
  end.
Definition iget (dev inum : Z) : M fs Z :=
  acquire it_lens ;;;
  it <-! gets fs_it ;;
  match iget_find it 0 dev inum with
  | Some ip =>
      seti ip (fun p => ino_ref (i_ref p + 1) p) ;;;
      release it_lens ;;;
      ret ip
  | None =>
      match iget_empty it 0 with
      | None => panic "iget: no inodes"
      | Some ip =>
          seti ip (fun p => Inode dev inum 1 (i_lock p) false (i_type p) (i_major p) (i_minor p)
                              (i_nlink p) (i_size p) (i_addrs p)) ;;;
          release it_lens ;;;
          ret ip
      end
  end.

Fixpoint ialloc_loop (fuel : nat) (dev type inum : Z) : M fs (option Z) :=
  match fuel with
  | O => diverge
  | Datatypes.S fuel' =>
      sb <-! gets fs_sb ;;
      if inum <? sb_ninodes sb then
        bp <-! bread_ dev (IBLOCK inum sb) ;;
        d <-! data_ bp ;;
        if i16 (get16 d (di_off inum)) =? 0 then
          put_ bp (put16 (di_off inum) type (splice (di_off inum) (replicate 64 0) d)) ;;;
          log_write_ bp ;;;
          brelse_ bp ;;;
          ip <-! iget dev inum ;;
          ret (Some ip)
        else brelse_ bp ;;; ialloc_loop fuel' dev type (inum + 1)
      else ret None
  end.
Definition ialloc (dev type : Z) : M fs (option Z) :=
  sb <-! gets fs_sb ;; ialloc_loop (Z.to_nat (sb_ninodes sb) + 1) dev type 1.

Definition iupdate (ip : Z) : M fs unit :=
  p <-! geti ip ;;
  sb <-! gets fs_sb ;;
  bp <-! bread_ (i_dev p) (IBLOCK (i_inum p) sb) ;;
  d <-! data_ bp ;;
  put_ bp (store_dinode (di_off (i_inum p)) p d) ;;;
  log_write_ bp ;;;
  brelse_ bp.

Definition idup (ip : Z) : M fs Z :=
  acquire it_lens ;;;
  seti ip (fun p => ino_ref (i_ref p + 1) p) ;;;
  release it_lens ;;;
  ret ip.

Definition ilock (ip : Z) : M fs unit :=
  p <-! geti ip ;;
  panic_if (i_ref p <? 1) "ilock" ;;;
  on_ilock ip (acquiresleep ("inode"%string, ip)) ;;;
  p <-! geti ip ;;
  if i_valid p then ret tt else
    sb <-! gets fs_sb ;;
    bp <-! bread_ (i_dev p) (IBLOCK (i_inum p) sb) ;;
    d <-! data_ bp ;;
    seti ip (load_dinode (di_off (i_inum p)) d) ;;;
    brelse_ bp ;;;
    seti ip (ino_valid true) ;;;
    p <-! geti ip ;;
    panic_if (i_type p =? 0) "ilock: no type".

Definition iunlock (ip : Z) : M fs unit :=
  p <-! geti ip ;;
  h <-! on_ilock ip holdingsleep ;;
  panic_if (negb h || (i_ref p <? 1)) "iunlock" ;;;
  on_ilock ip releasesleep.

(** ** Inode content *)

Definition geta (p : inode) (k : Z) : Z := nth (Z.to_nat k) (i_addrs p) 0.

Definition bmap (ip bn : Z) : M fs Z :=
  p <-! geti ip ;;
  if bn <? NDIRECT then
    if geta p bn =? 0 then
      addr <-! balloc (i_dev p) ;;
      if addr =? 0 then ret 0
      else seti ip (ino_addr bn addr) ;;; ret addr
    else ret (geta p bn)
  else
    let bn := bn - NDIRECT in
    if bn <? NINDIRECT then
      addr <-! (if geta p NDIRECT =? 0 then
                  addr <-! balloc (i_dev p) ;;
                  if addr =? 0 then ret 0
                  else seti ip (ino_addr NDIRECT addr) ;;; ret addr
                else ret (geta p NDIRECT)) ;;
      if addr =? 0 then ret 0 else
      bp <-! bread_ (i_dev p) addr ;;
      a <-! data_ bp ;;
      addr <-! (if get32 a (4 * bn) =? 0 then
                  addr <-! balloc (i_dev p) ;;
                  (if addr =? 0 then ret tt
                   else a <-! data_ bp ;; put_ bp (put32 (4 * bn) addr a) ;;; log_write_ bp) ;;;
                  ret addr
                else ret (get32 a (4 * bn))) ;;
      brelse_ bp ;;;
      ret addr
    else panic "bmap: out of range".

Definition itrunc (ip : Z) : M fs unit :=
  for_each (upto NDIRECT) (fun i =>
    p <-! geti ip ;;
    when (negb (geta p i =? 0)) (bfree (i_dev p) (geta p i) ;;; seti ip (ino_addr i 0))) ;;;
  p <-! geti ip ;;
  when (negb (geta p NDIRECT =? 0))
    (bp <-! bread_ (i_dev p) (geta p NDIRECT) ;;
     for_each (upto NINDIRECT) (fun j =>
       a <-! data_ bp ;;
       when (negb (get32 a (4 * j) =? 0)) (bfree (i_dev p) (get32 a (4 * j)))) ;;;
     brelse_ bp ;;;
     bfree (i_dev p) (geta p NDIRECT) ;;;
     seti ip (ino_addr NDIRECT 0)) ;;;
  seti ip (ino_size 0) ;;;
  iupdate ip.

Definition iput (ip : Z) : M fs unit :=
  acquire it_lens ;;;
  p <-! geti ip ;;
  when ((i_ref p =? 1) && i_valid p && (i_nlink p =? 0))
    (on_ilock ip (acquiresleep ("inode"%string, ip)) ;;;
     release it_lens ;;;
     itrunc ip ;;;
     seti ip (ino_type 0) ;;;
     iupdate ip ;;;
     seti ip (ino_valid false) ;;;
     on_ilock ip releasesleep ;;;
     acquire it_lens) ;;;
  seti ip (fun p => ino_ref (i_ref p - 1) p) ;;;
  release it_lens.
Definition iunlockput (ip : Z) : M fs unit := iunlock ip ;;; iput ip.

Record stat := Stat { st_dev : Z; st_ino : Z; st_type : Z; st_nlink : Z; st_size : Z }.
Definition stati (ip : Z) : M fs stat :=
  p <-! geti ip ;; ret (Stat (i_dev p) (i_inum p) (i_type p) (i_nlink p) (i_size p)).

Definition copyout_ (user_dst : bool) (dst : Z) (src : list Z) : M fs Z :=
  pt <-! gets fs_pt ;; lift k_lens (either_copyout pt user_dst dst src).
Definition copyin_ (user_src : bool) (src len : Z) : M fs (Z * list Z) :=
  pt <-! gets fs_pt ;; lift k_lens (either_copyin pt user_src src len).

Fixpoint readi_loop (fuel : nat) (ip : Z) (user_dst : bool) (dst off n tot : Z) : M fs Z :=
  match fuel with
  | O => diverge
  | Datatypes.S fuel' =>
      if tot <? n then
        addr <-! bmap ip (off / BSIZE) ;;
        if addr =? 0 then ret tot else
        p <-! geti ip ;;
        bp <-! bread_ (i_dev p) addr ;;
        let m := Z.min (n - tot) (BSIZE - off mod BSIZE) in
        d <-! data_ bp ;;
        r <-! copyout_ user_dst dst (slice d (off mod BSIZE) m) ;;
        if r =? -1 then brelse_ bp ;;; ret (-1)
        else brelse_ bp ;;; readi_loop fuel' ip user_dst (u64 (dst + m)) (u32 (off + m)) n (u32 (tot + m))
      else ret tot
  end.
Definition readi (ip : Z) (user_dst : bool) (dst off n : Z) : M fs Z :=
  p <-! geti ip ;;
  if (i_size p <? off) || (u32 (off + n) <? off) then ret 0
  else
    let n := if i_size p <? u32 (off + n) then i_size p - off else n in
    r <-! readi_loop (Z.to_nat (n / BSIZE + 3)) ip user_dst dst off n 0 ;;
    ret (i32 r).

Fixpoint writei_loop (fuel : nat) (ip : Z) (user_src : bool) (src off n tot : Z) : M fs (Z * Z) :=
  match fuel with
  | O => diverge
  | Datatypes.S fuel' =>
      if tot <? n then
        addr <-! bmap ip (off / BSIZE) ;;
        if addr =? 0 then ret (tot, off) else
        p <-! geti ip ;;
        bp <-! bread_ (i_dev p) addr ;;
        let m := Z.min (n - tot) (BSIZE - off mod BSIZE) in
        r <-! copyin_ user_src src m ;;
        d <-! data_ bp ;;
        put_ bp (splice (off mod BSIZE) r.2 d) ;;;
        if r.1 =? -1 then brelse_ bp ;;; ret (tot, off)
        else
          log_write_ bp ;;;
          brelse_ bp ;;;
          writei_loop fuel' ip user_src (u64 (src + m)) (u32 (off + m)) n (u32 (tot + m))
      else ret (tot, off)
  end.
Definition writei (ip : Z) (user_src : bool) (src off n : Z) : M fs Z :=
  p <-! geti ip ;;
  if (i_size p <? off) || (u32 (off + n) <? off) then ret (-1)
  else if MAXFILE * BSIZE <? u32 (off + n) then ret (-1)
  else
    r <-! writei_loop (Z.to_nat (n / BSIZE + 3)) ip user_src src off n 0 ;;
    p <-! geti ip ;;
    when (i_size p <? r.2) (seti ip (ino_size r.2)) ;;;
    iupdate ip ;;;
    ret (i32 r.1).

(** ** Directories *)

(** [strncmp(s, t, n)] and [strncpy(s, t, n)] on the bytes at the pointers;
    bytes past the end of a list count as NUL. *)
Fixpoint strncmp_bytes (n : nat) (p q : list Z) : Z :=
  match n with
  | O => 0
  | Datatypes.S n' =>
      if negb (hd 0 p =? 0) && (hd 0 p =? hd 0 q) then strncmp_bytes n' (tl p) (tl q)
      else hd 0 p - hd 0 q
  end.
Fixpoint strncpy_bytes (n : nat) (t : list Z) : list Z :=
  match n with
  | O => []
  | Datatypes.S n' => if hd 0 t =? 0 then replicate n 0 else hd 0 t :: strncpy_bytes n' (tl t)
  end.
Definition namecmp (s t : list Z) : Z := strncmp_bytes (Z.to_nat DIRSIZ) s t.

(** The local [struct dirent de]. *)
Definition de_inum : M fs Z := gets (fun s => ldn 2 (k_mem (fs_k s)) local_addr).
Definition de_name : M fs (list Z) := gets (fun s => read_bytes (k_mem (fs_k s)) (local_addr + 2) (Z.to_nat DIRSIZ)).
Definition set_de (inum : Z) (name : list Z) : M fs unit :=
  lift k_lens (modify (fun k => set_mem (stn 2 (write_bytes (k_mem k) (local_addr + 2) name) local_addr inum) k)).

(** The entry found, with its inode and its offset. *)
Fixpoint dirlookup_loop (fuel : nat) (dp : Z) (name : list Z) (off : Z) : M fs (option (Z * Z)) :=
  match fuel with
  | O => diverge
  | Datatypes.S fuel' =>
      p <-! geti dp ;;
      if off <? i_size p then
        r <-! readi dp false local_addr off DESIZE ;;
        panic_if (negb (r =? DESIZE)) "dirlookup read" ;;;
        inum <-! de_inum ;;
        if inum =? 0 then dirlookup_loop fuel' dp name (u32 (off + DESIZE))
        else
          nm <-! de_name ;;
          if namecmp name nm =? 0 then
            ip <-! iget (i_dev p) inum ;; ret (Some (ip, off))
          else dirlookup_loop fuel' dp name (u32 (off + DESIZE))
      else ret None
  end.
Definition dirlookup (dp : Z) (name : list Z) : M fs (option (Z * Z)) :=
  p <-! geti dp ;;
  panic_if (negb (i_type p =? T_DIR)) "dirlookup not DIR" ;;;
  dirlookup_loop (Z.to_nat (i_size p / DESIZE + 2)) dp name 0.

Fixpoint dirlink_loop (fuel : nat) (dp off : Z) : M fs Z :=
  match fuel with
  | O => diverge
  | Datatypes.S fuel' =>
      p <-! geti dp ;;
      if off <? i_size p then
        r <-! readi dp false local_addr off DESIZE ;;
        panic_if (negb (r =? DESIZE)) "dirlink read" ;;;
        inum <-! de_inum ;;
        if inum =? 0 then ret off else dirlink_loop fuel' dp (off + DESIZE)
      else ret off
  end.
Definition dirlink (dp : Z) (name : list Z) (inum : Z) : M fs Z :=
  r <-! dirlookup dp name ;;
  match r with
  | Some (ip, _) => iput ip ;;; ret (-1)
  | None =>
      p <-! geti dp ;;
      off <-! dirlink_loop (Z.to_nat (i_size p / DESIZE + 2)) dp 0 ;;
      set_de inum (strncpy_bytes (Z.to_nat DIRSIZ) name) ;;;
      w <-! writei dp false local_addr off DESIZE ;;
      ret (if w =? DESIZE then 0 else -1)
  end.

(** ** Paths *)

Definition SLASH : Z := 47.
(** [while( *path == '/') path++;] *)
Fixpoint skip_slashes (path : list Z) : list Z :=
  match path with c :: path' => if c =? SLASH then skip_slashes path' else path | [] => [] end.
(** [while( *path != '/' && *path != 0) path++;]: the element and the rest. *)
Fixpoint take_elem (path : list Z) : list Z * list Z :=
  match path with
  | [] => ([], [])
  | c :: path' => if c =? SLASH then ([], path)
                  else let '(e, r) := take_elem path' in (c :: e, r)
  end.
(** [memmove(name, s, len)], with the terminating NUL of a short name. *)
Definition store_name (e name : list Z) : list Z :=
  let len := Z.of_nat (length e) in
  if DIRSIZ <=? len then take (Z.to_nat DIRSIZ) e ++ drop (Z.to_nat DIRSIZ) name
  else e ++ [0] ++ drop (length e + 1) name.
(** The path is the C string without its NUL; [name] the caller's buffer. *)
Definition skipelem (path name : list Z) : option (list Z * list Z) :=
  let path := skip_slashes path in
  match path with
  | [] => None
  | _ => let '(e, rest) := take_elem path in Some (skip_slashes rest, store_name e name)
  end.

(** The loop of [namex]; the result is the inode (or none) and [name]. *)
Fixpoint namex_loop (fuel : nat) (ip : Z) (path : list Z) (parent : bool) (name : list Z) : M fs (option Z * list Z) :=
  match fuel with
  | O => diverge
  | Datatypes.S fuel' =>
      match skipelem path name with
      | Some (path, name) =>
          ilock ip ;;;
          p <-! geti ip ;;
          if negb (i_type p =? T_DIR) then iunlockput ip ;;; ret (None, name)
          else if parent && bool_decide (path = []) then iunlock ip ;;; ret (Some ip, name)
          else
            next <-! dirlookup ip name ;;
            match next with
            | None => iunlockput ip ;;; ret (None, name)
            | Some (next, _) => iunlockput ip ;;; namex_loop fuel' next path parent name
            end
      | None => if parent then iput ip ;;; ret (None, name) else ret (Some ip, name)
      end
  end.
Definition namex (path : list Z) (parent : bool) (name : list Z) : M fs (option Z * list Z) :=
  ip <-! (if hd 0 path =? SLASH then iget ROOTDEV ROOTINO else cwd <-! gets fs_cwd ;; idup cwd) ;;
  namex_loop (length path + 1) ip path parent name.
Definition namei (path : list Z) : M fs (option Z) :=
  r <-! namex path false (replicate (Z.to_nat DIRSIZ) 0) ;; ret r.1.
Definition nameiparent (path name : list Z) : M fs (option Z * list Z) := namex path true name.
End Fs.
