(* ===== verification/FsFrame.v ===== *)
(** * What the calls of the file system leave alone

    For every call that [exec] makes: the memory it may write, and what it does
    to the reference counts of the inodes.  Nothing is assumed of the disk, the
    log or the inode table: the calls are those that return. *)

From S2P Require Import Prelude Memory Riscv Spinlock Kalloc Vm Bio Log Txn Fs.

(** The bytes outside [P] and the allocator are as they were. *)
Record touched (P : Z -> Prop) (k k' : kst) : Prop := {
  to_lock : k_lock k' = k_lock k;
  to_free : k_freelist k' = k_freelist k;
  to_mem : forall x, ~ P x -> mget (k_mem k') x = mget (k_mem k) x
}.
#[export] Instance touched_pre P : PreOrder (touched P).
Proof.
  split; [done|]. intros k1 k2 k3 [A1 A2 A3] [B1 B2 B3]. split; [congruence..|]. intros x Hx. by rewrite B3, A3.
Qed.
Lemma touched_weaken (P Q : Z -> Prop) k k' : (forall x, P x -> Q x) -> touched P k k' -> touched Q k k'.
Proof. intros H [H1 H2 H3]. split; [done..|]. auto. Qed.
(** The [n] bytes at [a]. *)
Definition span (a n x : Z) : Prop := a <= x < a + n.

(** One entry of a list of counts. *)
Definition bump (i d : Z) (l : list Z) : list Z := alter (Z.add d) (Z.to_nat i) l.
Lemma bump_comm i j d e l : bump i d (bump j e l) = bump j e (bump i d l).
Proof.
  unfold bump. destruct (decide (Z.to_nat i = Z.to_nat j)) as [E|E]; [|by apply list_alter_alter_ne].
  rewrite E, !list_alter_alter_eq. apply list_alter_ext; [|done]. intros x _. simpl. lia.
Qed.
Lemma bump_back i d l : bump i (-d) (bump i d l) = l.
Proof.
  unfold bump. rewrite list_alter_alter_eq. apply list_eq. intros k. destruct (decide (k = Z.to_nat i)) as [->|Hne].
  - rewrite list_lookup_alter_eq. destruct (l !! _); simpl; [f_equal; lia|done].
  - by rewrite list_lookup_alter_ne.
Qed.
(** One more reference to the inode, if there is one. *)
Definition bump_opt (r : option Z) (l : list Z) : list Z := match r with Some i => bump i 1 l | None => l end.

Create HintDb framed.

Section FsFrame.
Context `{HC : Ctx} `{HI : Image} `{HF : Frame} {S : Type} `{HT : Txn S}.
Notation fs := (fsst S).

Definition irefs (s : fs) : list Z := i_ref <$> fs_it s.
(** Only bytes of [P] are written, no reference is taken or given up. *)
Definition framed {A} (P : Z -> Prop) (m : M fs A) : Prop :=
  forall s a s', m s = Done a s' -> irefs s' = irefs s /\ touched P (fs_k s) (fs_k s').

Section Calls.
Context (P : Z -> Prop).

Lemma framed_ret {A} (a : A) : framed P (ret a).
Proof. by intros s ? s' [= _ <-]. Qed.
Lemma framed_bind {A B} (m : M fs A) (k : A -> M fs B) : framed P m -> (forall a, framed P (k a)) -> framed P (bind m k).
Proof.
  intros Hm Hk s b s' (a & s1 & H1 & H2)%bind_Done_inv. apply Hm in H1 as [E1 T1]. apply Hk in H2 as [E2 T2].
  split; [congruence|]. by etransitivity.
Qed.
Lemma framed_gets {A} (g : fs -> A) : framed P (gets g).
Proof. by intros s ? s' [= _ <-]. Qed.
Lemma framed_stop {A} (m : M fs A) : (forall s a s', m s <> Done a s') -> framed P m.
Proof. intros H s a s' E. by destruct (H s a s'). Qed.
Lemma framed_panic_if b msg : framed P (panic_if b msg).
Proof. destruct b; [by apply framed_stop|apply framed_ret]. Qed.
Lemma framed_when (b : bool) m : framed P m -> framed P (when b m).
Proof. destruct b; [done|]. intros _. apply framed_ret. Qed.
Lemma framed_for_each {A} (l : list A) (g : A -> M fs unit) : (forall a, framed P (g a)) -> framed P (for_each l g).
Proof. intros H. induction l as [|a l IH]; [apply framed_ret|]. cbn [for_each]. by apply framed_bind. Qed.
Lemma framed_tx {A} (m : M S A) : framed P (tx m).
Proof. by intros s a s' (t & _ & ->)%lift_Done_inv. Qed.
Lemma framed_it {A} (m : M spinlock A) : framed P (lift it_lens m).
Proof. by intros s a s' (t & _ & ->)%lift_Done_inv. Qed.
Lemma geti_inv ip (s : fs) p s' : geti ip s = Done p s' -> s' = s /\ fs_it s !! Z.to_nat ip = Some p.
Proof. unfold geti. destruct (ip <? 0); [done|]. destruct (fs_it s !! _); [|done]. by intros [= -> ->]. Qed.
Lemma framed_geti ip : framed P (geti ip).
Proof. by intros s p s' [-> _]%geti_inv. Qed.
Lemma refs_insert ip p q (s : fs) : fs_it s !! Z.to_nat ip = Some p -> i_ref q = i_ref p -> i_ref <$> <[Z.to_nat ip := q]> (fs_it s) = irefs s.
Proof. intros Hp E. unfold irefs. rewrite list_fmap_insert, E. apply list_insert_id. by rewrite list_lookup_fmap, Hp. Qed.
Lemma framed_seti ip g : (forall p, i_ref (g p) = i_ref p) -> framed P (seti ip g).
Proof.
  intros Hg s [] s' (p & s1 & [-> Hp]%geti_inv & [= <-])%bind_Done_inv. split; [|done]. by eapply refs_insert.
Qed.
Lemma framed_on_ilock {A} ip (m : M sleeplock A) : framed P (on_ilock ip m).
Proof.
  intros s a s' (p & s1 & [-> Hp]%geti_inv & (l & _ & ->)%lift_Done_inv)%bind_Done_inv. split; [|done]. by eapply refs_insert.
Qed.
End Calls.
End FsFrame.
#[export] Hint Resolve framed_ret framed_gets framed_panic_if framed_tx framed_it framed_geti framed_on_ilock : framed.
#[export] Hint Extern 2 (framed _ (seti _ _)) => apply framed_seti; reflexivity : framed.

(** Walks through code, leaving what the database does not know. *)
Ltac framed :=
  repeat first
    [ progress intros
    | progress cbv zeta
    | match goal with
      | |- framed _ (bind _ _) => apply framed_bind
      | |- framed _ (when _ _) => apply framed_when
      | |- framed _ (for_each _ _) => apply framed_for_each
      | |- framed _ (match (if ?b then _ else _) with _ => _ end) => destruct b
      | |- framed _ (match ?x with _ => _ end) => destruct x
      | |- framed _ diverge => apply framed_stop; done
      | |- framed _ (panic _) => apply framed_stop; done
      end
    | solve [eauto with framed typeclass_instances] ].

Section FsCalls.
Context `{HC : Ctx} `{HI : Image} `{HF : Frame} {S : Type} `{HT : Txn S}.
Notation fs := (fsst S).
Implicit Types (P : Z -> Prop).

Lemma framed_acquire P : framed (S := S) P (acquire it_lens : M fs unit).
Proof. apply framed_it. Qed.
Lemma framed_release P : framed (S := S) P (release it_lens : M fs unit).
Proof. apply framed_it. Qed.
Lemma framed_bread P dev bn : framed (S := S) P (bread_ dev bn).
Proof. apply framed_tx. Qed.
Lemma framed_data P b : framed (S := S) P (data_ b).
Proof. apply framed_tx. Qed.
Lemma framed_put P b v : framed (S := S) P (put_ b v).
Proof. apply framed_tx. Qed.
Lemma framed_log_write P b : framed (S := S) P (log_write_ b).
Proof. apply framed_tx. Qed.
Lemma framed_brelse P b : framed (S := S) P (brelse_ b).
Proof. apply framed_tx. Qed.
#[local] Hint Resolve framed_acquire framed_release framed_bread framed_data framed_put framed_log_write framed_brelse : framed.

Lemma framed_bzero P dev b : framed (S := S) P (bzero dev b).
Proof. unfold bzero. framed. Qed.
#[local] Hint Resolve framed_bzero : framed.
Lemma framed_balloc P dev : framed (S := S) P (balloc dev).
Proof.
  unfold balloc. apply framed_bind; [framed|]. intros sb. generalize 0. induction (Z.to_nat (sb_size sb / BPB + 2)) as [|n IH]; intros b; cbn [balloc_loop]; framed; apply IH.
Qed.
Lemma framed_bfree P dev b : framed (S := S) P (bfree dev b).
Proof. unfold bfree. framed. Qed.
Lemma framed_iupdate P ip : framed (S := S) P (iupdate ip).
Proof. unfold iupdate. framed. Qed.
#[local] Hint Resolve framed_balloc framed_bfree framed_iupdate : framed.
Lemma framed_ilock P ip : framed (S := S) P (ilock ip).
Proof. unfold ilock. framed. Qed.
Lemma framed_iunlock P ip : framed (S := S) P (iunlock ip).
Proof. unfold iunlock. framed. Qed.
Lemma framed_bmap P ip bn : framed (S := S) P (bmap ip bn).
Proof. unfold bmap. framed. Qed.
Lemma framed_itrunc P ip : framed (S := S) P (itrunc ip).
Proof. unfold itrunc. framed. Qed.
#[local] Hint Resolve framed_ilock framed_iunlock framed_bmap framed_itrunc : framed.

(** Reading into kernel memory. *)
Lemma framed_store P (dst : Z) bs : (forall x, span dst (Z.of_nat (length bs)) x -> P x) -> framed (S := S) P (copyout_ false dst bs).
Proof.
  intros HP s r s' (pt & s1 & [= <- <-] & H)%bind_Done_inv. apply lift_Done_inv in H as (k & H & ->).
  apply bind_Done_inv in H as (u & k1 & [= <- <-] & [= <- <-]). split; [done|]. split; [done..|]. intros x Hx. simpl.
  apply mget_write_bytes_ne. intros Hin. by apply Hx, HP.
Qed.
Lemma length_slice d off n : 0 <= n -> Z.of_nat (length (slice d off n)) = n.
Proof. intros H. unfold slice. rewrite length_fmap. unfold upto. rewrite length_fmap, length_seq. lia. Qed.
Lemma framed_readi_loop P fuel ip dst off n tot : 0 <= tot -> n < 2 ^ 32 -> 0 <= off -> 0 <= dst -> dst + (n - tot) < 2 ^ 64 ->
  (forall x, span dst (n - tot) x -> P x) -> framed (S := S) P (readi_loop fuel ip false dst off n tot).
Proof.
  intros Ht Hn. revert dst off tot Ht. induction fuel as [|fuel IH]; intros dst off tot Ht Ho Hd Hd2 HP; [by apply framed_stop|]. cbn [readi_loop].
  destruct (Z.ltb_spec tot n); [|framed]. apply framed_bind; [framed|]. intros addr. destruct (addr =? 0); [framed|].
  apply framed_bind; [framed|]. intros p. apply framed_bind; [framed|]. intros bp. cbv zeta. set (m := Z.min (n - tot) (BSIZE - off mod BSIZE)).
  assert (Hm : 0 < m <= n - tot) by (unfold m, BSIZE in *; Z.div_mod_to_equations; lia).
  apply framed_bind; [framed|]. intros d. apply framed_bind.
  { apply framed_store. rewrite length_slice by lia. intros x Hx. apply HP. unfold span in *. lia. }
  intros r. destruct (r =? -1); [framed|]. apply framed_bind; [framed|]. intros _. rewrite (u32_small (tot + m)), (u64_small (dst + m)) by lia.
  apply IH; try lia; [apply u32_range|]. intros x Hx. apply HP. unfold span in *. lia.
Qed.
Lemma framed_readi P ip dst off n : 0 <= off -> 0 <= n < 2 ^ 32 -> 0 <= dst -> dst + n < 2 ^ 64 -> (forall x, span dst n x -> P x) ->
 framed (S := S) P (readi ip false dst off n).
Proof.
  intros Ho Hn Hd Hd2 HP. unfold readi. apply framed_bind; [framed|]. intros p. destruct ((i_size p <? off) || (u32 (off + n) <? off)) eqn:E; [framed|].
  apply orb_false_iff in E as [E1%Z.ltb_ge E2%Z.ltb_ge]. cbv zeta. assert (Hlt : off + n < 2 ^ 32 \/ 2 ^ 32 <= off + n) by lia.
  set (n' := if i_size p <? u32 (off + n) then i_size p - off else n).
  assert (Hn' : 0 <= n' <= n).
  { unfold n'. destruct (Z.ltb_spec (i_size p) (u32 (off + n))); [|lia]. unfold u32 in *. Z.div_mod_to_equations. lia. }
  apply framed_bind; [|framed]. apply framed_readi_loop; try lia. intros x Hx. apply HP. unfold span in *. lia.
Qed.

(** Taking and giving up references. *)
Lemma seti_refs P ip g d (s : fs) u s' : (forall p, fs_it s !! Z.to_nat ip = Some p -> i_ref (g p) = d + i_ref p) -> seti ip g s = Done u s' ->
  irefs s' = bump ip d (irefs s) /\ touched P (fs_k s) (fs_k s').
Proof.
  intros Hg (p & s1 & [-> Hp]%geti_inv & [= _ <-])%bind_Done_inv. split; [|done]. unfold irefs, bump. simpl. apply list_eq. intros k.
  rewrite list_lookup_fmap. destruct (decide (k = Z.to_nat ip)) as [->|Hne].
  - rewrite list_lookup_alter_eq, list_lookup_fmap, Hp, list_lookup_insert_eq by (by eapply lookup_lt_Some). simpl. by rewrite Hg.
  - by rewrite list_lookup_alter_ne, list_lookup_fmap, list_lookup_insert_ne.
Qed.
Lemma iget_empty_ref l i j : iget_empty l i = Some j -> 0 <= i -> exists p, l !! Z.to_nat (j - i) = Some p /\ i_ref p = 0 /\ i <= j.
Proof.
  revert i. induction l as [|p l IH]; intros i; simpl; [done|]. destruct (Z.eqb_spec (i_ref p) 0) as [E|E].
  - intros [= ->] _. exists p. rewrite Z.sub_diag. split_and!; [done|done|lia].
  - intros H Hi. destruct (IH (i + 1) H ltac:(lia)) as (q & Hq & Hr & Hj). exists q. split_and!; [|done|lia].
    replace (Z.to_nat (j - i)) with (Datatypes.S (Z.to_nat (j - (i + 1)))) by lia. done.
Qed.
End FsCalls.

(** Takes the first step off a run, which is framed by [P]. *)
Ltac off_frame P H a :=
  let s := fresh "s" in let H1 := fresh "H1" in let E := fresh "E" in let T := fresh "T" in
  apply bind_Done_inv in H as (a & s & H1 & H);
  assert (E : irefs s = irefs _ /\ touched P _ (fs_k s)) by (eapply (fun K : framed P _ => K _ _ _ H1); framed);
  destruct E as [E T]; clear H1.

#[export] Hint Resolve framed_acquire framed_release framed_bread framed_data framed_put framed_log_write framed_brelse framed_bzero framed_balloc framed_bfree framed_iupdate
  framed_ilock framed_iunlock framed_bmap framed_itrunc : framed.

Section References.
Context `{HC : Ctx} `{HI : Image} `{HF : Frame} {S : Type} `{HT : Txn S}.
Notation fs := (fsst S).
Context (P : Z -> Prop).

(** The call [m] changes the count of [ip] by [d] and no other. *)
Definition moves (ip d : Z) (s s' : fs) : Prop := irefs s' = bump ip d (irefs s) /\ touched P (fs_k s) (fs_k s').
Lemma moves_then ip d (s0 s s' s1 : fs) : irefs s = irefs s0 -> touched P (fs_k s0) (fs_k s) -> moves ip d s s' -> irefs s1 = irefs s' -> touched P (fs_k s') (fs_k s1) -> moves ip d s0 s1.
Proof. intros E T [E' T'] E1 T1. split; [congruence|]. etransitivity; [exact T|]. by etransitivity. Qed.
Lemma idup_moves ip (s : fs) r s' : idup ip s = Done r s' -> r = ip /\ moves ip 1 s s'.
Proof.
  unfold idup. intros H. off_frame P H u. apply bind_Done_inv in H as (u1 & s1 & H1 & H). apply (seti_refs P _ _ 1) in H1; [|intros; simpl; lia].
  off_frame P H u2. injection H as <- <-. split; [done|]. by eapply moves_then.
Qed.
Lemma iget_moves dev inum (s : fs) ip s' : iget dev inum s = Done ip s' -> moves ip 1 s s'.
Proof.
  unfold iget. intros H. off_frame P H u. apply bind_Done_inv in H as (it & s1 & [= <- <-] & H). destruct (iget_find _ _ _ _) as [j|].
  - apply bind_Done_inv in H as (u1 & s1 & H1 & H). apply (seti_refs P _ _ 1) in H1; [|intros; simpl; lia].
    off_frame P H u2. injection H as <- <-. by eapply moves_then.
  - destruct (iget_empty _ _) as [j|] eqn:Ej; [|done]. apply iget_empty_ref in Ej as (p & Hp & Hr & _); [|done]. rewrite Z.sub_0_r in Hp.
    apply bind_Done_inv in H as (u1 & s1 & H1 & H). apply (seti_refs P _ _ 1) in H1; [|intros q Hq; simpl; assert (q = p) as -> by congruence; lia].
    off_frame P H u2. injection H as <- <-. by eapply moves_then.
Qed.
Lemma iput_moves ip (s : fs) u s' : iput ip s = Done u s' -> moves ip (-1) s s'.
Proof.
  unfold iput. intros H. off_frame P H u1. off_frame P H p. off_frame P H u2.
  apply bind_Done_inv in H as (u3 & s3 & H1 & H). apply (seti_refs P _ _ (-1)) in H1; [|intros; simpl; lia].
  destruct (framed_release P _ _ _ H) as [E3 T3]. eapply moves_then; [|..|exact H1|done|done]; [congruence|]. etransitivity; [done|]. by etransitivity.
Qed.
Lemma iunlockput_moves ip (s : fs) u s' : iunlockput ip s = Done u s' -> moves ip (-1) s s'.
Proof. unfold iunlockput. intros H. off_frame P H u1. apply iput_moves in H. by eapply moves_then. Qed.

(** Looking up names reads directory entries into the local [de]. *)
Context (HP : forall x, span local_addr DESIZE x -> P x) (Ha : 0 <= local_addr) (Ha2 : local_addr + DESIZE < 2 ^ 64).
Lemma framed_read_de dp off : 0 <= off -> framed (S := S) P (readi dp false local_addr off DESIZE).
Proof. intros Ho. apply framed_readi; try done; unfold DESIZE in *; lia. Qed.
Lemma framed_de_inum : framed (S := S) P de_inum.
Proof. apply framed_gets. Qed.
Lemma framed_de_name : framed (S := S) P de_name.
Proof. apply framed_gets. Qed.
Lemma dirlookup_moves dp name (s : fs) r s' : dirlookup dp name s = Done r s' ->
  irefs s' = bump_opt (fst <$> r) (irefs s) /\ touched P (fs_k s) (fs_k s').
Proof.
  unfold dirlookup. intros H. apply bind_Done_inv in H as (p & s1 & [-> _]%geti_inv & H). off_frame P H u1. revert H. rewrite <- E. intros H.
  cut (irefs s' = bump_opt (fst <$> r) (irefs s0) /\ touched P (fs_k s0) (fs_k s')); [intros [? ?]; split; [done|]; by etransitivity|]. clear E T s.
  revert s0 H. generalize (Z.le_refl 0). generalize 0 at 2 3. induction (Z.to_nat (i_size p / DESIZE + 2)) as [|n IH]; intros off Hoff s0 H; [done|]. cbn [dirlookup_loop] in H.
  apply bind_Done_inv in H as (p1 & s1 & [-> _]%geti_inv & H). destruct (off <? i_size p1); [|by injection H as <- <-].
  apply bind_Done_inv in H as (k & s1 & H1 & H). apply (framed_read_de dp off Hoff) in H1 as [E1 T1].
  off_frame P H u2. apply bind_Done_inv in H as (i & s2 & [= <- <-] & H). assert (Hn : 0 <= u32 (off + DESIZE)) by apply u32_range.
  assert (Hrec : dirlookup_loop n dp name (u32 (off + DESIZE)) s = Done r s' -> irefs s' = bump_opt (fst <$> r) (irefs s0) /\ touched P (fs_k s0) (fs_k s')).
  { intros H1. apply IH in H1 as [E2 T2]; [|done]. split; [congruence|]. etransitivity; [exact T1|]. by etransitivity. }
  destruct (_ =? 0); [auto|]. apply bind_Done_inv in H as (nm & s2 & [= <- <-] & H). destruct (_ =? 0); [|auto].
  apply bind_Done_inv in H as (ip & s2 & H1 & [= <- <-]). apply iget_moves in H1 as [E2 T2]. split; [simpl; congruence|]. etransitivity; [exact T1|]. by etransitivity.
Qed.
(** One reference goes in, one to the result comes out. *)
Lemma namex_loop_moves fuel ip path parent name (s : fs) r s' l : namex_loop fuel ip path parent name s = Done r s' -> irefs s = bump ip 1 l ->
  irefs s' = bump_opt r.1 l /\ touched P (fs_k s) (fs_k s').
Proof.
  revert ip path name s. induction fuel as [|fuel IH]; intros ip path name s H Hl; [done|]. cbn [namex_loop] in H.
  assert (Hback : forall s1 u s2, irefs s1 = irefs s -> iunlockput ip s1 = Done u s2 -> irefs s2 = l /\ touched P (fs_k s1) (fs_k s2)).
  { intros s1 u s2 E H1. apply iunlockput_moves in H1 as [E1 T1]. split; [|done]. rewrite E1, E, Hl. apply (bump_back ip 1). }
  destruct (skipelem path name) as [[path' name']|].
  - off_frame P H u1. off_frame P H p. destruct (negb _).
    { apply bind_Done_inv in H as (u2 & s2 & H2 & [= <- <-]). apply Hback in H2 as [E2 T2]; [|congruence]. split; [done|]. etransitivity; [done|]. by etransitivity. }
    destruct (_ && _).
    { off_frame P H u2. injection H as <- <-. simpl. split; [congruence|]. etransitivity; [done|]. by etransitivity. }
    apply bind_Done_inv in H as (nx & s2 & H2 & H). apply dirlookup_moves in H2 as [E2 T2]. destruct nx as [[next off]|]; simpl in E2.
    + apply bind_Done_inv in H as (u2 & s3 & H3 & H). apply iunlockput_moves in H3 as [E3 T3]. apply IH in H as [E4 T4].
      * split; [done|]. etransitivity; [done|]. etransitivity; [done|]. etransitivity; [done|]. by etransitivity.
      * rewrite E3, E2, E0, E, Hl, (bump_comm next ip). apply (bump_back ip 1).
    + apply bind_Done_inv in H as (u2 & s3 & H3 & [= <- <-]). apply Hback in H3 as [E3 T3]; [|congruence]. split; [done|]. etransitivity; [done|]. etransitivity; [done|]. by etransitivity.
  - destruct parent; [|injection H as <- <-; by split].
    apply bind_Done_inv in H as (u2 & s2 & H2 & [= <- <-]). apply iput_moves in H2 as [E2 T2]. split; [|done]. simpl. rewrite E2, Hl. apply (bump_back ip 1).
Qed.
(** [namei] takes one reference, to the inode it returns. *)
Lemma namei_moves path (s : fs) r s' : namei path s = Done r s' -> irefs s' = bump_opt r (irefs s) /\ touched P (fs_k s) (fs_k s').
Proof.
  unfold namei, namex. intros H. apply bind_Done_inv in H as (rn & s1 & H & [= <- <-]). apply bind_Done_inv in H as (ip & s2 & H2 & H).
  assert (Hm : moves ip 1 s s2).
  { destruct (_ =? _); [by apply iget_moves in H2|]. apply bind_Done_inv in H2 as (cwd & s3 & [= <- <-] & H2). by apply idup_moves in H2 as [-> H2]. }
  destruct Hm as [E2 T2]. eapply namex_loop_moves in H as [E3 T3]; [|exact E2]. split; [done|]. by etransitivity.
Qed.
End References.
