(* ===== verification/ExecMem.v ===== *)
(** * The address space that [exec] builds

    The memory side of [exec]: a new table is built out of free pages only,
    from [proc_pagetable] over [uvmalloc], [loadseg], [uvmclear] and [copyout],
    and either it is given up again, with every page free as before, or the old
    address space is. *)

From S2P Require Import Prelude Memory Riscv Spinlock Kalloc Vm VmWalk VmUser VmCopy VmFree Bio Log Txn Fs FsFrame.

Section ExecMem.
Context `{HC : Ctx} `{HI : Image} `{HO : !ImageOk}.

(** ** The address space of a process of [sz] bytes *)

Definition special_pte (tf w : Z) : Z := if w =? TRAPFRAME_page then tf_pte tf else tramp_pte.
Record uspace (tf : Z) (k : kst) (l : list Z) (T : tree) (pt : Z) (D : gmap Z Z) (sz : Z) : Prop := {
  sp_inv : as_inv k l T pt D;
  sp_sz : 0 <= sz <= TRAPFRAME;
  sp_sized : sized k T D sz special;
  sp_special : forall w, special w -> pte_at (k_mem k) T (w * 4096) = special_pte tf w
}.

(** The same table in a state with other free pages. *)
Lemma as_other k l T pt D k' (l' : list Z) :
  as_inv k l T pt D -> kinv k' l' -> (forall p, tpage T p \/ (exists v, D !! v = Some p) -> p ∉ l') ->
  (forall p x, tpage T p -> in_page p x -> mget (k_mem k') x = mget (k_mem k) x) ->
  as_inv k' l' T pt D /\ forall va, pte_at (k_mem k') T va = pte_at (k_mem k) T va.
Proof.
  intros [[Hk Hwf Hfr] Hpg Hinj Hlf] Hk' Hd Hm. assert (Hp : forall va, pte_at (k_mem k') T va = pte_at (k_mem k) T va) by (intros; by apply pte_at_frame).
  split; [|done]. split; try done.
  - split; [done|by eapply wf_frame|]. intros p Hp'. apply Hd. by left.
  - intros v pa Hv. destruct (Hpg v pa Hv) as (? & _ & ? & ?). split_and!; try done; try lia. apply Hd. right. by exists v.
  - intros v pa Hv. rewrite Hp. auto.
Qed.
Lemma sized_ptes k k' T D sz (sp : Z -> Prop) : (forall va, pte_at (k_mem k') T va = pte_at (k_mem k) T va) -> sized k T D sz sp -> sized k' T D sz sp.
Proof. intros H [H1 H2]. split; [done|]. intros va Hva Hn Hs. rewrite H. auto. Qed.
Lemma foreign_ptes k k' T D w : (forall va, pte_at (k_mem k') T va = pte_at (k_mem k) T va) -> foreign k T D w -> foreign k' T D w.
Proof. intros H (? & ? & ? & ?). unfold foreign. by rewrite !H. Qed.
Lemma uspace_ptes tf k k' l l' T pt D sz : as_inv k' l' T pt D -> (forall va, pte_at (k_mem k') T va = pte_at (k_mem k) T va) -> uspace tf k l T pt D sz -> uspace tf k' l' T pt D sz.
Proof. intros Hinv H [_ H1 H2 H3]. split; [done|done|by eapply sized_ptes|]. intros w Hw. rewrite H. auto. Qed.

(** Writing outside the free pages and the pages of the table. *)
Lemma kinv_touched (P : Z -> Prop) k k' l : touched P k k' -> (forall p x, p ∈ l -> in_page p x -> ~ P x) -> kinv k l -> kinv k' l.
Proof.
  intros [E1 E2 E3] Hd Hk. assert (k' = set_mem (k_mem k') k) as -> by (destruct k, k'; unfold set_mem; simpl in *; by subst).
  apply kinv_frame; [done|]. intros p x Hp Hx. apply E3. by eapply Hd.
Qed.
Lemma as_touched (P : Z -> Prop) k k' l T pt D : touched P k k' -> (forall p x, p ∈ l \/ tpage T p -> in_page p x -> ~ P x) -> as_inv k l T pt D ->
  as_inv k' l T pt D /\ forall va, pte_at (k_mem k') T va = pte_at (k_mem k) T va.
Proof.
  intros Ht Hd Hinv. apply (as_other k l).
  - done.
  - eapply kinv_touched; [done| |apply Hinv]. intros p x Hp. apply Hd. by left.
  - intros p [Hp|[v Hv]]; [by apply Hinv|]. by apply (as_page _ _ _ _ _ Hinv v p).
  - intros p x Hp Hx. apply Ht. eapply Hd; [|done]. by right.
Qed.

Context (tf : Z) (Htf : page_ok tf) (Ht0 : 0 <= trampoline) (Ht : trampoline + 4096 <= 2 ^ 56).

Lemma pgs_below sz : 0 <= sz <= TRAPFRAME -> 0 <= pgs sz <= TRAPFRAME_page.
Proof.
  intros H. destruct special_pages as (_ & E2 & _ & N2). pose proof (pgs_eq sz ltac:(rewrite E2 in H; lia)). lia.
Qed.
Lemma uspace_out k l T pt D sz w : uspace tf k l T pt D sz -> special w -> D !! w = None.
Proof.
  intros [_ Hsz [H1 _] _] Hw. destruct (D !! w) eqn:E; [|done]. assert (H : is_Some (D !! w)) by by eexists. apply H1 in H.
  pose proof (pgs_below sz Hsz). destruct special_pages as (_ & _ & N1 & N2). destruct Hw; lia.
Qed.
Lemma uspace_foreign k l T pt D sz w : uspace tf k l T pt D sz -> special w -> foreign k T D w.
Proof.
  intros Hu Hw. pose proof (uspace_out _ _ _ _ _ _ _ Hu Hw) as HD. pose proof (sp_special _ _ _ _ _ _ _ Hu w Hw) as Hp.
  destruct special_pages as (_ & _ & N1 & N2). assert (Hr : 0 <= w < 2 ^ 26) by (destruct Hw; lia). unfold special_pte in Hp.
  pose proof (page_ok_pos tf Htf). destruct (w =? TRAPFRAME_page).
  - eapply (uvmunmap_made k l T pt w tf); [apply Hu|done|done|lia|apply leaf_flags_RW|done].
  - eapply (uvmunmap_made k l T pt w trampoline); [apply Hu|done|done|lia|apply leaf_flags_RX|done].
Qed.
(** The pages of others are not user pages. *)
Lemma special_not_user w : Z.land (special_pte tf w) PTE_U = 0.
Proof.
  pose proof (page_ok_pos tf Htf). unfold special_pte, tf_pte, tramp_pte. destruct (w =? TRAPFRAME_page); rewrite <- Z.lor_assoc, land_PTE_make by (auto with xv6 || lia); done.
Qed.
Lemma uspace_user k l T pt D sz : uspace tf k l T pt D sz -> user_owned (k_mem k) T D.
Proof.
  intros Hu va [pa Hva]. unfold uaddr in Hva. destruct (Z.leb_spec 0 va); [|done]. destruct (Z.ltb_spec va MAXVA); [|done]. cbn [andb] in Hva.
  destruct (Z.eqb_spec (Z.land (pte_at (k_mem k) T va) PTE_V) 0) as [|HV]; [done|]. destruct (Z.eqb_spec (Z.land (pte_at (k_mem k) T va) PTE_U) 0) as [|HU]; [done|].
  apply (sp_sized _ _ _ _ _ _ _ Hu). destruct (decide (0 <= va / 4096 < pgs sz)) as [|Hn]; [done|]. exfalso.
  assert (Hsp : ~ ~ special (va / 4096)). { intros Hs. apply HV. by apply (sp_sized _ _ _ _ _ _ _ Hu). }
  apply Hsp. intros Hs. apply HU. rewrite <- (pte_at_page _ _ va) by done. rewrite (sp_special _ _ _ _ _ _ _ Hu _ Hs). apply special_not_user.
Qed.

(** ** Growing it *)

(** There are at most 32768 pages of memory. *)
Lemma few_pages k l T pt D v : as_inv k l T pt D -> (forall w, 0 <= w < v -> is_Some (D !! w)) -> v <= 32768.
Proof.
  intros Hinv HD. apply Z.le_ngt. intros Hv. set (index := fun w => (default 0 (D !! w) - KERNBASE) / 4096).
  assert (Hi : forall w, 0 <= w < v -> exists pa, D !! w = Some pa /\ pa = KERNBASE + index w * 4096 /\ 0 <= index w < 32768).
  { intros w Hw. destruct (HD w Hw) as [pa Hpa]. exists pa. split; [done|]. destruct (as_page _ _ _ _ _ Hinv w pa Hpa) as ([Hm Hr] & _).
    destruct end_range as [Hend _]. unfold index. rewrite Hpa. simpl. unfold PGSIZE, PHYSTOP, KERNBASE in *. Z.div_mod_to_equations. lia. }
  assert (Hsub : index <$> upto 32769 ⊆+ upto 32768).
  { apply NoDup_submseteq.
    - apply NoDup_fmap_2_strong.
      + intros w1 w2 H1%elem_upto H2%elem_upto E. destruct (Hi w1 ltac:(lia)) as (p1 & D1 & E1 & _), (Hi w2 ltac:(lia)) as (p2 & D2 & E2 & _).
        apply (as_inj _ _ _ _ _ Hinv _ _ p1 D1). rewrite D2. f_equal. congruence.
      + apply (NoDup_fmap_2 Z.of_nat), NoDup_seq.
    - intros x (w & -> & Hw%elem_upto)%list_elem_of_fmap. apply elem_upto. by destruct (Hi w ltac:(lia)) as (_ & _ & _ & ?). }
  apply submseteq_length in Hsub. revert Hsub. rewrite length_fmap. unfold upto. rewrite !length_fmap, !length_seq. lia.
Qed.

(** A size that does not fit below the trap frame cannot be allocated. *)
Lemma uvmalloc_big n : forall fuel P k l T pt D old v newsz xperm,
  as_inv k l T pt D -> avoid P l T -> 0 <= old <= v -> v + Z.of_nat n = 32769 -> TRAPFRAME < newsz -> 0 <= xperm < 1024 ->
  (forall w, v <= w < TRAPFRAME_page -> Z.land (pte_at (k_mem k) T (w * 4096)) PTE_V = 0) ->
  (forall w, 0 <= w < old -> is_Some (D !! w)) ->
  (forall w, old <= w < v -> exists pa, D !! w = Some pa /\ forall x, in_page pa x -> ~ P x) -> (n <= fuel)%nat ->
  exists k' l' T' D', uvmalloc_loop (S fuel) pt (v * 4096) (old * 4096) newsz xperm k = Done 0 k' /\
    vstep P k l T D k' l' T' D' pt /\ undone k T D k' T' D' old v TRAPFRAME_page.
Proof.
  destruct special_pages as (_ & E2 & _ & N2). induction n as [|n IH]; intros fuel P k l T pt D old v newsz xperm Hinv Hav Ho Hv Hn Hx HV HD0 HD Hf.
  { assert (v <= 32768); [|lia]. eapply few_pages; [exact Hinv|]. intros w Hw. destruct (decide (w < old)); [apply HD0; lia|]. destruct (HD w ltac:(lia)) as (pa & -> & _). by eexists. }
  destruct fuel as [|fuel]; [lia|].
  destruct (uvmalloc_step (S fuel) P P k l T pt D old v newsz xperm TRAPFRAME_page) as [?|(p & k2 & l2 & T2 & Hrun & Hst & _ & HpP & Hpte)]; try done; try lia.
  pose proof (not_mapped_D _ _ _ _ _ v Hinv (HV v ltac:(lia))) as HDv. apply vstep_or in Hst as [Hst _].
  destruct (IH fuel P k2 l2 T2 pt (<[v := p]> D) old (v + 1) newsz xperm) as (k' & l' & T' & D' & Hrun' & Hst' & Hu); [apply Hst|apply Hst|lia|lia|done|done| | | |lia|].
  - intros w Hw. pose proof MAXVA_eq. rewrite Hpte, Z.div_mul by lia. destruct (Z.eqb_spec w v); [lia|]. apply HV. lia.
  - intros w Hw. rewrite lookup_insert_ne by lia. by apply HD0.
  - intros w Hw. destruct (decide (w = v)) as [->|]; [exists p; by rewrite lookup_insert_eq|]. rewrite lookup_insert_ne by done. apply HD. lia.
  - exists k', l', T', D'. split; [by rewrite Hrun|]. split; [by eapply vstep_trans|].
    apply (more_undone k T D p v k2 T2 (fun _ => user_perm xperm) HDv Hpte); done || lia.
Qed.

(** [uvmalloc] for any size: nothing has changed that matters, or the address
    space has grown. *)
Definition grown (xperm : Z) (k' : kst) (T' : tree) (D' : gmap Z Z) (old new : Z) : Prop :=
  forall w, old <= w < new -> exists pa, D' !! w = Some pa /\ pte_at (k_mem k') T' (w * 4096) = Z.lor (Z.lor (PA2PTE pa) (user_perm xperm)) PTE_V.
Lemma special_va w : special w -> 0 <= w * 4096 < MAXVA /\ w * 4096 / 4096 = w /\ TRAPFRAME_page <= w.
Proof. destruct special_pages as (_ & _ & N1 & N2). pose proof MAXVA_eq. intros Hw. rewrite Z.div_mul by lia. destruct Hw; lia. Qed.
Lemma uspace_undone k l T pt D sz k' l' T' P top : uspace tf k l T pt D sz -> vstep P k l T D k' l' T' D pt -> top <= TRAPFRAME_page ->
  (forall va, 0 <= va < MAXVA -> ~ (pgs sz <= va / 4096 < top) -> pte_at (k_mem k') T' va = pte_at (k_mem k) T va) ->
  (forall w, pgs sz <= w < top -> Z.land (pte_at (k_mem k') T' (w * 4096)) PTE_V = 0) -> uspace tf k' l' T' pt D sz.
Proof.
  intros Hu Hst Htop H1 H2. split; [apply Hst|apply Hu| |].
  - split; [apply Hu|]. intros va Hva Hn Hs. destruct (decide (pgs sz <= va / 4096 < top)) as [Hin|Hout].
    + rewrite <- (pte_at_page _ _ va) by done. by apply H2.
    + rewrite H1 by done. by apply (sp_sized _ _ _ _ _ _ _ Hu).
  - intros w Hw. destruct (special_va w Hw) as (? & E & ?). rewrite H1; [by apply (sp_special _ _ _ _ _ _ _ Hu)|done|rewrite E; lia].
Qed.
Definition allocs (P : Z -> Prop) k l T pt D sz newsz xperm : Prop :=
  exists r k' l' T' D', uvmalloc pt sz newsz xperm k = Done r k' /\ vstep P k l T D k' l' T' D' pt /\
    (r = 0 /\ uspace tf k' l' T' pt D' sz \/
     r = Z.max sz newsz /\ uspace tf k' l' T' pt D' r /\ grown xperm k' T' D' (pgs sz) (pgs r)).
Section Uvmalloc.
Context (P : Z -> Prop) k l T pt D sz newsz xperm (Hu : uspace tf k l T pt D sz) (Hav : avoid P l T) (Hn : sz <= newsz) (Hx : 0 <= xperm < 1024).
Lemma above_invalid w : pgs sz <= w < TRAPFRAME_page -> Z.land (pte_at (k_mem k) T (w * 4096)) PTE_V = 0.
Proof.
  intros Hw. pose proof MAXVA_eq as HM. destruct special_pages as (_ & _ & _ & N2). pose proof (pgs_below sz (sp_sz _ _ _ _ _ _ _ Hu)).
  apply (sp_sized _ _ _ _ _ _ _ Hu); rewrite ?Z.div_mul by lia; [lia|lia|]. intros Hs. apply special_va in Hs. lia.
Qed.
Lemma uvmalloc_fits : newsz <= TRAPFRAME -> allocs P k l T pt D sz newsz xperm.
Proof.
  intros Hle. pose proof (sp_sz _ _ _ _ _ _ _ Hu) as Hsz. destruct special_pages as (_ & E2 & _ & N2). pose proof MAXVA_eq as HM.
  pose proof (pgs_below newsz ltac:(lia)) as Hpn. pose proof (pgs_mono sz newsz ltac:(lia) ltac:(lia)) as Hmono. destruct (sp_sized _ _ _ _ _ _ _ Hu) as [HD HV].
  destruct (uvmalloc_spec P k l T pt D sz newsz xperm) as (r & k' & l' & T' & D' & Hrun & Hst & Hpte & Hr); [apply Hu|done|lia|lia|done|intros w Hw; apply above_invalid; lia|].
  exists r, k', l', T', D'. split; [done|]. split; [done|]. destruct Hr as [(-> & Hadd & HD')|(-> & -> & Hinval)].
  - right. split; [lia|]. split; [|intros w Hw; destruct (Hadd w ltac:(lia)) as (pa & ? & ? & _); by exists pa]. split; [apply Hst|lia| |].
    + split.
      * intros w. destruct (decide (pgs sz <= w < pgs newsz)) as [Hw|Hw].
        -- destruct (Hadd w ltac:(lia)) as (pa & Hpa & _). rewrite Hpa. pose proof (pgs_below sz Hsz). split; [lia|by eexists].
        -- rewrite HD', HD by done. lia.
      * intros va Hva Hout Hs. assert (0 <= va / 4096) by (apply Z.div_pos; lia). rewrite Hpte by (done || lia). apply HV; [done|lia|done].
    + intros w Hw. destruct (special_va w Hw) as (? & E & ?). rewrite Hpte; [by apply (sp_special _ _ _ _ _ _ _ Hu)|done|rewrite E; lia].
  - left. split; [done|]. apply (uspace_undone k l T pt D sz k' l' T' P (pgs newsz)); [done|done|lia|done|done].
Qed.
Lemma uvmalloc_never : TRAPFRAME < newsz -> allocs P k l T pt D sz newsz xperm.
Proof.
  intros Hbig. pose proof (sp_sz _ _ _ _ _ _ _ Hu) as Hsz. destruct special_pages as (_ & E2 & _ & N2). pose proof MAXVA_eq as HM.
  pose proof (pgs_below sz Hsz) as Hps. destruct (pgs_eq sz ltac:(lia)) as [Er Eb]. destruct (sp_sized _ _ _ _ _ _ _ Hu) as [HD HV].
  assert (H3 : pgs sz <= 32768) by (eapply few_pages; [apply Hu|]; intros w Hw; by apply HD).
  destruct (uvmalloc_big (Z.to_nat (32769 - pgs sz)) (S (Z.to_nat ((newsz - pgs sz * 4096) / PGSIZE))) P k l T pt D (pgs sz) (pgs sz) newsz xperm) as (k' & l' & T' & D' & Hrun & Hst & HD' & Hun);
    [apply Hu|done|lia|lia|lia|done|apply above_invalid|intros w Hw; by apply HD|intros; lia|unfold PGSIZE; Z.div_mod_to_equations; lia|].
  exists 0, k', l', T', D'. split; [|split; [done|left; split; [done|]]].
  { unfold uvmalloc. destruct (Z.ltb_spec newsz sz); [lia|]. by rewrite Er. }
  rewrite Z.sub_diag in HD'. simpl in HD'. subst D'. apply (uspace_undone k l T pt D sz k' l' T' P TRAPFRAME_page); [done|done|lia|..].
  - intros va Hva Hout. specialize (Hun va Hva). destruct (Z.leb_spec (pgs sz) (va / 4096)), (Z.ltb_spec (va / 4096) TRAPFRAME_page); simpl in Hun; lia || done.
  - intros w Hw. specialize (Hun (w * 4096) ltac:(lia)). rewrite Z.div_mul in Hun by lia. by destruct (Z.leb_spec (pgs sz) w), (Z.ltb_spec w TRAPFRAME_page); simpl in Hun; try lia.
Qed.
End Uvmalloc.
Lemma uvmalloc_any P k l T pt D sz newsz xperm : uspace tf k l T pt D sz -> avoid P l T -> 0 <= xperm < 1024 -> allocs P k l T pt D sz newsz xperm.
Proof.
  intros Hu Hav Hx. destruct (Z.ltb_spec newsz sz).
  - exists sz, k, l, T, D. unfold uvmalloc. destruct (Z.ltb_spec newsz sz); [|lia]. split; [done|]. split; [by apply vstep_refl; [apply Hu|]|].
    right. split; [lia|]. split; [done|]. intros w Hw. lia.
  - destruct (decide (newsz <= TRAPFRAME)); [by apply uvmalloc_fits|]. apply uvmalloc_never; done || lia.
Qed.

(** ** The guard page of the stack *)

Lemma clear_U pa f : 0 <= pa < 2 ^ 56 -> Z.land (Z.lor (PA2PTE pa) f) (u64 (Z.lnot PTE_U)) = Z.lor (PA2PTE pa) (Z.land f (u64 (Z.lnot PTE_U))).
Proof.
  intros Hpa. rewrite Z.land_lor_distr_l. f_equal. rewrite PA2PTE_eq by done. apply Z.bits_inj'. intros n Hn. rewrite Z.land_spec.
  destruct (Z.testbit (Z.shiftl (pa / 4096) 10) n) eqn:E; [|done]. simpl. assert (Hn' : 10 <= n < 64).
  { destruct (Z.ltb_spec n 10); [by rewrite Z.shiftl_spec_low in E by lia|]. split; [lia|]. apply Z.nle_gt. intros H64.
    rewrite <- (Z.mod_small (Z.shiftl (pa / 4096) 10) (2 ^ 64)) in E; [by rewrite Z.mod_pow2_bits_high in E by lia|].
    rewrite Z.shiftl_mul_pow2 by lia. Z.div_mod_to_equations. lia. }
  unfold u64. rewrite Z.mod_pow2_bits_low, Z.lnot_spec by lia. change PTE_U with (2 ^ 4). by rewrite Z.pow2_bits_false by lia.
Qed.
Lemma uvmclear_spec k l T pt D sz w pa : uspace tf k l T pt D sz -> D !! w = Some pa ->
  pte_at (k_mem k) T (w * 4096) = Z.lor (Z.lor (PA2PTE pa) (user_perm PTE_W)) PTE_V ->
  exists k', uvmclear pt (w * 4096) k = Done tt k' /\ uspace tf k' l T pt D sz /\
    forall x, (forall p, tpage T p -> ~ in_page p x) -> mget (k_mem k') x = mget (k_mem k) x.
Proof.
  intros Hu Hw Hp. destruct (sp_inv _ _ _ _ _ _ _ Hu) as [Hpt Hpg Hinj Hlf]. destruct (Hpg w pa Hw) as (Hok & _ & _ & Hr). pose proof MAXVA_eq as HM.
  pose proof (page_ok_56 pa Hok) as [H56 _]. assert (Hva : 0 <= w * 4096 < MAXVA) by lia. unfold pte_at in Hp. destruct (T !! path 2 (w * 4096)) as [q|] eqn:Eq.
  2: { exfalso. assert (H : Z.land 0 PTE_V = 1) by (rewrite Hp; apply land_lor_V). done. }
  destruct (store_leaf k l T pt (w * 4096) q (Z.land (ld64 (k_mem k) (q + 8 * PX 0 (w * 4096))) (u64 (Z.lnot PTE_U))) Hpt Eq Hva) as (S1 & S2 & S3).
  set (f := Z.land (Z.lor (user_perm PTE_W) PTE_V) (u64 (Z.lnot PTE_U))) in *. assert (Hf : leaf_flags f) by (vm_compute; repeat split; discriminate).
  assert (Ev : Z.land (ld64 (k_mem k) (q + 8 * PX 0 (w * 4096))) (u64 (Z.lnot PTE_U)) = Z.lor (PA2PTE pa) f) by (by rewrite Hp, <- Z.lor_assoc, clear_U).
  rewrite Ev, (u64_small (Z.lor (PA2PTE pa) f)) in S2 by (apply PTE_make_range; [done|apply Hf]). rewrite Ev in S1, S3.
  exists (set_mem (st64 (k_mem k) (q + 8 * PX 0 (w * 4096)) (Z.lor (PA2PTE pa) f)) k). split; [|split].
  - unfold uvmclear. rewrite (bind_Done _ _ _ _ _ (walk_noalloc (w * 4096) k T pt (pt_wf _ _ _ _ Hpt) ltac:(lia))). rewrite Eq, <- Ev.
    assert (0 < q + 8 * PX 0 (w * 4096)); [|destruct (Z.eqb_spec (q + 8 * PX 0 (w * 4096)) 0); [lia|reflexivity]].
    apply page_entry_pos; [by eapply (wf_page _ _ _ (pt_wf _ _ _ _ Hpt))|apply PX_range; lia].
  - split; [|apply Hu|..].
    + split; [exact S1|done|done|]. intros v pa' Hv. destruct (Hpg v pa' Hv) as (_ & _ & _ & Hv'). cbn [k_mem set_mem]. rewrite S2, !Z.div_mul by lia.
      destruct (Z.eqb_spec v w) as [->|]; [|by apply Hlf]. assert (pa' = pa) as -> by congruence. by exists f.
    + destruct (sp_sized _ _ _ _ _ _ _ Hu) as [HD HV]. split; [done|]. intros va Hva' Hn Hs. cbn [k_mem set_mem]. rewrite S2, Z.div_mul by (done || lia).
      destruct (Z.eqb_spec (va / 4096) w) as [E|]; [|by apply HV]. exfalso. apply Hn. rewrite E. apply HD. by eexists.
    + intros v Hv. destruct (special_va v Hv) as (Hv1 & Ew & Hv2). cbn [k_mem set_mem]. rewrite S2, Ew, Z.div_mul by (done || lia).
      destruct (Z.eqb_spec v w) as [->|]; [|by apply (sp_special _ _ _ _ _ _ _ Hu)]. rewrite (uspace_out _ _ _ _ _ _ _ Hu Hv) in Hw. done.
  - intros x Hx. apply S3. apply Hx. by eexists.
Qed.

(** ** The table under construction *)

(** It is made of the pages [l0], which were free in the state [k0].  [loc] are
    the local variables of the kernel functions. *)
Section Building.
Context (l0 : list Z) (k0 : kst) (loc : Z -> Prop) (Hloc : forall p x, p ∈ l0 -> in_page p x -> ~ loc x).

Definition outside_l0 (x : Z) : Prop := forall p, p ∈ l0 -> ~ in_page p x.
Definition only (k : kst) : Prop := forall x, ~ loc x -> outside_l0 x -> mget (k_mem k) x = mget (k_mem k0) x.
Definition building (k : kst) (pt sz : Z) : Prop :=
  exists l T D, uspace tf k l T pt D sz /\ (forall p, owns l T D p <-> p ∈ l0) /\ only k.

Lemma outside_l0_avoid l T D : (forall p, owns l T D p <-> p ∈ l0) -> avoid outside_l0 l T.
Proof. intros Ho p x Hp Hx Hout. apply (Hout p); [|done]. apply Ho. unfold owns. tauto. Qed.
Lemma only_step k k' : only k -> (forall x, outside_l0 x -> mget (k_mem k') x = mget (k_mem k) x) -> only k'.
Proof. intros H1 H2 x Hl Hx. rewrite H2 by done. by apply H1. Qed.
Lemma data_l0 l T D x : (forall p, owns l T D p <-> p ∈ l0) -> outside_l0 x -> ~ data_page D x.
Proof. intros Ho Hout (w & pa & Hw & Hx). apply (Hout pa); [|done]. apply Ho. right. right. by exists w. Qed.

(** A page that is in [l0] and in the table [T] or free is none of its data pages. *)
Lemma data_apart k l T pt D sz w pa p x : uspace tf k l T pt D sz -> D !! w = Some pa -> in_page pa x -> p ∈ l \/ tpage T p -> ~ in_page p x.
Proof.
  intros Hu Hw Hx Hp Hin. destruct (sp_inv _ _ _ _ _ _ _ Hu) as [Hpt Hpg _ _]. destruct (Hpg w pa Hw) as (Hok & Hl & Hnt & _).
  assert (Hp' : page_ok p).
  { destruct Hp as [Hp|[kk Hp]]; [|by eapply (wf_page _ _ _ (pt_wf _ _ _ _ Hpt))]. pose proof (kinv_pages _ _ (pt_kinv _ _ _ _ Hpt)) as Hf. rewrite Forall_forall in Hf. auto. }
  rewrite (page_disjoint p pa x Hp' Hok Hin Hx) in Hp. tauto.
Qed.

(** Writes to the local variables and to data pages. *)
Lemma building_touched (P : Z -> Prop) k k' l T pt D sz : uspace tf k l T pt D sz -> (forall p, owns l T D p <-> p ∈ l0) -> only k ->
  touched P k k' -> (forall x, P x -> loc x \/ data_page D x) -> building k' pt sz.
Proof.
  intros Hu Ho Hk Htc HP. exists l, T, D. destruct (as_touched P k k' l T pt D Htc) as [Hinv Hpte]; [|apply Hu|].
  - intros p x Hp Hx [Hl|(w & pa & Hw & Hpa)]%HP; [|by eapply data_apart]. apply (Hloc p x); [|done|done]. apply Ho. unfold owns. tauto.
  - split; [by eapply uspace_ptes|]. split; [done|]. intros x Hl Hout. rewrite (to_mem _ _ _ Htc); [by apply Hk|].
    intros [?|Hd]%HP; [done|]. by eapply data_l0.
Qed.
Lemma building_loc k k' pt sz : building k pt sz -> touched loc k k' -> building k' pt sz.
Proof. intros (l & T & D & Hu & Ho & Hk) Htc. eapply (building_touched loc); [done..|]. auto. Qed.

Lemma building_root k pt sz : building k pt sz -> pt <> 0.
Proof.
  intros (l & T & D & Hu & _). destruct (as_pt _ _ _ _ _ (sp_inv _ _ _ _ _ _ _ Hu)) as [_ Hwf _].
  pose proof (page_ok_pos pt (proj1 (wf_page _ _ _ Hwf _ _ (wf_root _ _ _ Hwf)))). lia.
Qed.
(** A new table. *)
Lemma building_start k l r k' : kinv k l -> (forall p, p ∈ l <-> p ∈ l0) -> only k -> proc_pagetable tf k = Done r k' ->
  r = 0 /\ (exists l, kinv k' l /\ forall p, p ∈ l <-> p ∈ l0) /\ only k' \/ building k' r 0.
Proof.
  intros Hk Hl0 Hon Hrun. destruct (proc_pagetable_spec k l tf Hk Ht0 Ht Htf) as (r1 & k1 & H1 & [l1 Hr] & Hop). rewrite H1 in Hrun. injection Hrun as <- <-.
  assert (Hon1 : only k1) by (apply (only_step k); [done|]; intros x Hx; apply Hop; intros p Hp; by apply Hx, Hl0).
  destruct Hr as [(-> & Hk1 & Hl)|(_ & T & Hinv & Ho & Hp)]; [left; split; [done|]; split; [exists l1; split; [done|]; intros p; by rewrite Hl|done]|right].
  exists l1, T, ∅. split; [|split; [intros p; by rewrite Ho|done]]. destruct special_pages as (_ & _ & N1 & N2). split; [done|done| |].
  - split; [intros w; rewrite lookup_empty; change (pgs 0) with 0; split; [by intros []|lia]|]. intros va Hva _ Hs. rewrite Hp by done.
    destruct (Z.eqb_spec (va / 4096) TRAPFRAME_page); [by destruct Hs; right|]. by destruct (Z.eqb_spec (va / 4096) TRAMPOLINE_page); [destruct Hs; left|].
  - intros w Hw. destruct (special_va w Hw) as (Hva & E & _). rewrite Hp, E by done. unfold special_pte. destruct (Z.eqb_spec w TRAPFRAME_page); [done|].
    by destruct Hw as [-> | ->]; [rewrite Z.eqb_refl|].
Qed.
(** Giving it up. *)
Lemma building_free k pt sz k' u : building k pt sz -> proc_freepagetable pt sz k = Done u k' ->
  (exists l, kinv k' l /\ forall p, p ∈ l <-> p ∈ l0) /\ only k'.
Proof.
  intros (l & T & D & Hu & Ho & Hk) Hrun. destruct (proc_freepagetable_spec k l T pt D sz) as (k1 & l1 & H1 & Hk1 & Hl1 & Hf).
  - apply Hu.
  - apply Hu.
  - apply Hu.
  - apply (uspace_foreign _ _ _ _ _ _ _ Hu). by left.
  - apply (uspace_foreign _ _ _ _ _ _ _ Hu). by right.
  - rewrite H1 in Hrun. injection Hrun as <- <-. split.
    + exists l1. split; [done|]. intros p. rewrite Hl1. apply Ho.
    + apply (only_step k); [done|]. intros x Hx. apply Hf. intros p Hp. apply Hx, Ho, Hp.
Qed.
(** Growing it. *)
Lemma building_alloc k pt sz newsz xperm r k' : building k pt sz -> 0 <= xperm < 1024 -> uvmalloc pt sz newsz xperm k = Done r k' ->
  r = 0 /\ building k' pt sz \/ r = Z.max sz newsz /\ building k' pt r.
Proof.
  intros (l & T & D & Hu & Ho & Hk) Hx Hrun. destruct (uvmalloc_any outside_l0 k l T pt D sz newsz xperm Hu) as (r1 & k1 & l1 & T1 & D1 & H1 & Hst & Hr); [by eapply outside_l0_avoid|done|].
  rewrite H1 in Hrun. injection Hrun as <- <-.
  assert (Ho1 : forall p, owns l1 T1 D1 p <-> p ∈ l0) by (intros p; rewrite (vs_owns _ _ _ _ _ _ _ _ _ _ Hst); apply Ho).
  pose proof (only_step k k1 Hk (vs_frame _ _ _ _ _ _ _ _ _ _ Hst)) as Hk1.
  destruct Hr as [[-> Hr]|(-> & Hr & _)]; [left|right]; (split; [done|]); by exists l1, T1, D1.
Qed.
Lemma building_round k pt sz : building k pt sz -> building k pt (PGROUNDUP sz).
Proof.
  intros (l & T & D & [H1 H2 [H3 H4] H5] & Ho & Hk). exists l, T, D. split; [|done]. destruct special_pages as (_ & E2 & _ & N2).
  pose proof (pgs_below sz H2). destruct (pgs_eq sz ltac:(lia)) as [E _]. assert (Ep : pgs (PGROUNDUP sz) = pgs sz) by (rewrite E; apply pgs_page; lia).
  split; [done|lia| |done]. unfold sized. by rewrite Ep.
Qed.
(** Its stack, with the guard page. *)
Lemma building_stack k pt sz r k1 u k2 : building k pt sz -> sz mod 4096 = 0 -> uvmalloc pt sz (u64 (sz + 2 * PGSIZE)) PTE_W k = Done r k1 -> r <> 0 ->
  uvmclear pt (u64 (r - 2 * PGSIZE)) k1 = Done u k2 -> r = sz + 2 * PGSIZE /\ building k2 pt r.
Proof.
  intros (l & T & D & Hu & Ho & Hk) Hm Hrun Hr0 Hclr. destruct special_pages as (_ & E2 & _ & N2). pose proof (sp_sz _ _ _ _ _ _ _ Hu) as Hsz.
  destruct (uvmalloc_any outside_l0 k l T pt D sz (u64 (sz + 2 * PGSIZE)) PTE_W Hu) as (r1 & k1' & l1 & T1 & D1 & H1 & Hst & Hr); [by eapply outside_l0_avoid|done|].
  rewrite H1 in Hrun. injection Hrun as -> ->. destruct Hr as [[-> _]|(E & Hu1 & Hg)]; [done|].
  rewrite u64_small in E by (unfold PGSIZE; lia). rewrite Z.max_r in E by (unfold PGSIZE; lia). unfold PGSIZE in *. assert (Es : sz = sz / 4096 * 4096) by (Z.div_mod_to_equations; lia).
  assert (Ep : pgs sz = sz / 4096) by (rewrite Es at 1; apply pgs_page; lia).
  assert (Er : pgs r = sz / 4096 + 2) by (rewrite E; replace (sz + 2 * 4096) with ((sz / 4096 + 2) * 4096) by lia; apply pgs_page; lia).
  destruct (Hg (sz / 4096) ltac:(lia)) as (pa & HD & Hpte). rewrite u64_small in Hclr by lia. replace (r - 2 * 4096) with (sz / 4096 * 4096) in Hclr by lia.
  destruct (uvmclear_spec k1 l1 T1 pt D1 r (sz / 4096) pa Hu1 HD Hpte) as (k2' & H2 & Hu2 & Hf2). rewrite H2 in Hclr. injection Hclr as <- <-. split; [done|].
  assert (Ho1 : forall p, owns l1 T1 D1 p <-> p ∈ l0) by (intros p; rewrite (vs_owns _ _ _ _ _ _ _ _ _ _ Hst); apply Ho).
  exists l1, T1, D1. split; [done|]. split; [done|]. apply (only_step k1); [by apply (only_step k); [|apply Hst]|].
  intros x Hx. apply Hf2. intros p Hp. apply Hx, Ho1. unfold owns. tauto.
Qed.
(** Where a segment is loaded. *)
Lemma building_load k pt sz va pa k' : building k pt sz -> 0 <= va -> va mod 4096 = 0 -> walkaddr pt va k = Done pa k' -> pa <> 0 ->
  k' = k /\ page_ok pa /\ forall k1, touched (fun x => loc x \/ in_page pa x) k k1 -> building k1 pt sz.
Proof.
  intros (l & T & D & Hu & Ho & Hk) Hva Hm Hrun Hpa. pose proof (sp_inv _ _ _ _ _ _ _ Hu) as Hinv.
  rewrite (walkaddr_uaddr va k T pt (pt_wf _ _ _ _ (as_pt _ _ _ _ _ Hinv)) Hva Hm) in Hrun. injection Hrun as E ->. split; [done|].
  destruct (uaddr (k_mem k') T va) as [q|] eqn:Eq; simpl in E; [|by subst]. subst q.
  destruct (uaddr_owned _ _ _ _ _ _ _ Hinv (uspace_user _ _ _ _ _ _ Hu) Eq) as (p & HD & Hok & ->). rewrite Hm, Z.add_0_r in *. split; [done|].
  intros k1 Ht1. eapply building_touched; [done..|]. intros x [Hx|Hx]; [by left|right]. by exists (va / 4096), p.
Qed.
(** Arguments on its stack. *)
Lemma building_copyout k pt sz va bs r k' : building k pt sz -> 0 <= va < 2 ^ 64 -> copyout pt va bs k = Done r k' -> building k' pt sz.
Proof.
  intros (l & T & D & Hu & Ho & Hk) Hva Hrun. destruct (copyout_loop_spec (S (length bs)) va bs k l T pt D (sp_inv _ _ _ _ _ _ _ Hu) (uspace_user _ _ _ _ _ _ Hu) Hva ltac:(lia)) as (r1 & k1 & n & H1 & Hinv & Hpte & [Hw _] & _).
  unfold copyout in Hrun. rewrite H1 in Hrun. injection Hrun as <- <-. exists l, T, D. split; [by eapply uspace_ptes|]. split; [done|].
  apply (only_step k); [done|]. intros x Hx. apply Hw. by eapply data_l0.
Qed.
End Building.

Lemma building_mono l0 k0 (loc loc' : Z -> Prop) k pt sz : (forall x, loc x -> loc' x) -> building l0 k0 loc k pt sz -> building l0 k0 loc' k pt sz.
Proof. intros H (l & T & D & Hu & Ho & Hk). exists l, T, D. split; [done|]. split; [done|]. intros x Hx. apply Hk. auto. Qed.

(** ** The old address space *)

Section Old.
Context (l0 : list Z) (k0 : kst) (loc : Z -> Prop) (T0 : tree) (old : Z) (D0 : gmap Z Z) (oldsz : Z).
Context (Hold : uspace tf k0 l0 T0 old D0 oldsz) (Hloc : forall p x, owns l0 T0 D0 p -> in_page p x -> ~ loc x).

Lemma owned_page p : owns l0 T0 D0 p -> page_ok p.
Proof.
  destruct (sp_inv _ _ _ _ _ _ _ Hold) as [Hpt Hpg _ _]. intros [Hp|[[k Hp]|[v Hv]]]; [|by eapply (wf_page _ _ _ (pt_wf _ _ _ _ Hpt))|by apply (Hpg v)].
  pose proof (kinv_pages _ _ (pt_kinv _ _ _ _ Hpt)) as Hf. rewrite Forall_forall in Hf. auto.
Qed.
Lemma old_not_free p : tpage T0 p \/ (exists v, D0 !! v = Some p) -> p ∉ l0.
Proof. destruct (sp_inv _ _ _ _ _ _ _ Hold) as [Hpt Hpg _ _]. intros [Hp|[v Hv]]; [by apply Hpt|by apply (Hpg v p)]. Qed.
(** It is still there as long as only free pages and local variables are
    written. *)
Lemma old_stays k l : only l0 k0 loc k -> kinv k l -> (forall p, p ∈ l -> p ∈ l0) -> uspace tf k l T0 old D0 oldsz.
Proof.
  intros Hon Hk Hl. destruct (as_other k0 l0 T0 old D0 k l) as [Hinv Hpte]; [apply Hold|done| | |by eapply uspace_ptes].
  - intros p Hp Hin. by apply (old_not_free p Hp), Hl.
  - intros p x Hp Hx. apply Hon.
    + eapply Hloc; [|done]. unfold owns. tauto.
    + intros q Hq Hqx. apply (old_not_free p); [by left|]. rewrite <- (page_disjoint q p x); [done|apply owned_page; unfold owns; tauto..|done|done].
Qed.
(** The new table takes its place. *)
Lemma replaced k pt sz u k' : building l0 k0 loc k pt sz -> proc_freepagetable old oldsz k = Done u k' ->
  exists l T D, uspace tf k' l T pt D sz /\ (forall p, owns l T D p <-> owns l0 T0 D0 p) /\
    forall x, (forall p, owns l0 T0 D0 p -> ~ in_page p x) -> mget (k_mem k') x = mget (k_mem k) x.
Proof.
  intros (l & T & D & Hu & Ho & Hon) Hrun. pose proof (sp_inv _ _ _ _ _ _ _ Hu) as Hinv.
  assert (Hl : forall p, p ∈ l -> p ∈ l0) by (intros p Hp; apply Ho; by left).
  pose proof (old_stays k l Hon (pt_kinv _ _ _ _ (as_pt _ _ _ _ _ Hinv)) Hl) as Hu0.
  destruct (proc_freepagetable_spec k l T0 old D0 oldsz) as (k1 & l1 & H1 & Hk1 & Hl1 & Hf).
  - apply Hu0.
  - apply Hu0.
  - apply Hu0.
  - apply (uspace_foreign _ _ _ _ _ _ _ Hu0). by left.
  - apply (uspace_foreign _ _ _ _ _ _ _ Hu0). by right.
  - rewrite H1 in Hrun. injection Hrun as <- <-.
    assert (Hout : forall p, tpage T p \/ (exists v, D !! v = Some p) -> p ∈ l0 /\ p ∉ l1).
    { intros p Hp. assert (Hp0 : p ∈ l0) by (apply Ho; unfold owns; tauto). split; [done|]. rewrite Hl1. intros [Hin|Hin]; [|by apply (old_not_free p)].
      destruct Hp as [Hp|[v Hv]]; [by destruct (pt_free _ _ _ _ (as_pt _ _ _ _ _ Hinv) p Hp)|by destruct (as_page _ _ _ _ _ Hinv v p Hv) as (_ & [] & _)]. }
    destruct (as_other k l T pt D k1 l1) as [Hinv1 Hpte]; [done|done|intros p Hp; by apply Hout| |].
    { intros p x Hp Hx. apply Hf. intros q Hq Hqx. assert (Hp0 : p ∈ l0) by (apply Hout; by left). assert (E : q = p).
      { apply (page_disjoint q p x); [|by apply owned_page; left|done|done]. apply owned_page. unfold owns in *. destruct Hq as [?|?]; [left; auto|by right]. }
      subst q. destruct (Hout p (or_introl Hp)) as [_ Hn]. apply Hn. by apply Hl1. }
    exists l1, T, D. split; [by eapply uspace_ptes|]. split.
    + intros p. unfold owns at 1. rewrite Hl1. pose proof (Ho p) as Hp. unfold owns in *. tauto.
    + intros x Hx. apply Hf. intros p Hp. apply Hx. unfold owns in *. destruct Hp as [?|?]; [left; auto|by right].
Qed.
End Old.
End ExecMem.
