(* ===== verification/FsBlock.v ===== *)
(** * The block allocator of kernel/fs.c

    The free map on disk as a set of bits; [balloc] takes the first free block
    and zeroes it, [bfree] gives a block back.  The lemmas of [FsRep] lift the
    calls of a transaction to the state of the file system, for all files of
    the file system proofs. *)

From S2P Require Import Prelude Memory Riscv Spinlock Kalloc Vm Bio Log Txn Fs.

(** ** Blocks as bytes *)

Definition blk_ok (d : block) : Prop := length d = Z.to_nat BSIZE /\ Forall (fun x => 0 <= x < 256) d.

Lemma get8_range d o : blk_ok d -> 0 <= get8 d o < 256.
Proof.
  intros [_ Hf]. unfold get8. destruct (nth_in_or_default (Z.to_nat o) d 0) as [Hin| ->]; [|lia].
  rewrite Forall_forall in Hf. apply Hf. by apply list_elem_of_In.
Qed.
Lemma put8_ok o v d : blk_ok d -> blk_ok (put8 o v d).
Proof.
  intros [Hl Hf]. split; [now rewrite length_put8|]. unfold put8. apply Forall_insert; [done|].
  apply Z.mod_pos_bound. lia.
Qed.
Lemma zero_block_ok : blk_ok zero_block.
Proof. split; [apply length_replicate|]. apply Forall_replicate. lia. Qed.
Lemma put32_ok o v d : blk_ok d -> blk_ok (put32 o v d).
Proof. intros H. unfold put32. by repeat apply put8_ok. Qed.
Lemma put16_ok o v d : blk_ok d -> blk_ok (put16 o v d).
Proof. intros H. unfold put16. by repeat apply put8_ok. Qed.
#[export] Hint Resolve put8_ok put16_ok put32_ok zero_block_ok : xv6.

(** ** Bits of the free map *)

Lemma bit_clear_testbit d bi : bit_clear d bi = negb (Z.testbit (get8 d (bi / 8)) (bi mod 8)).
Proof.
  unfold bit_clear. set (x := get8 d (bi / 8)). set (k := bi mod 8).
  assert (0 <= k) by (subst k; apply Z.mod_pos_bound; lia).
  destruct (Z.testbit x k) eqn:E; simpl.
  - apply Z.eqb_neq. intros H0. assert (Hb : Z.testbit (Z.land x (Z.shiftl 1 k)) k = false)
      by now rewrite H0, Z.bits_0.
    rewrite Z.land_spec, E, Z.shiftl_spec in Hb by lia. now rewrite Z.sub_diag in Hb.
  - apply Z.eqb_eq, Z.bits_inj'. intros j Hj. rewrite Z.land_spec, Z.bits_0, Z.shiftl_spec by lia.
    destruct (decide (j = k)) as [->|]; [now rewrite E|].
    destruct (decide (j < k)); [rewrite (Z.testbit_neg_r 1) by lia; apply andb_false_r|].
    change 1 with (2 ^ 0). rewrite Z.pow2_bits_false by lia. apply andb_false_r.
Qed.

Lemma put8_same_byte off v d o :
  blk_ok d -> 0 <= off < BSIZE -> 0 <= o -> get8 (put8 off v d) o = if o =? off then v mod 256 else get8 d o.
Proof. intros [Hl _] H1 H2. apply get8_put8; [rewrite Hl; unfold BSIZE in *; lia|done]. Qed.

Lemma bit_range bi : 0 <= bi < BPB -> 0 <= bi / 8 < BSIZE /\ 0 <= bi mod 8 < 8.
Proof. unfold BPB. intros H. split; [|apply Z.mod_pos_bound; lia]. split; [apply Z.div_pos; lia|apply Z.div_lt_upper_bound; lia]. Qed.

Lemma same_bit bi bj : bj / 8 = bi / 8 -> bj mod 8 = bi mod 8 -> bj = bi.
Proof. intros. rewrite (Z.div_mod bj 8), (Z.div_mod bi 8) by lia. lia. Qed.

Lemma testbit_byte x k : k < 8 -> Z.testbit (x mod 256) k = Z.testbit x k.
Proof. intros H. change 256 with (2 ^ 8). destruct (decide (0 <= k)); [now apply Z.mod_pow2_bits_low|].
  now rewrite !Z.testbit_neg_r by lia. Qed.

Lemma bit_clear_mark d bi bj :
  blk_ok d -> 0 <= bi < BPB -> 0 <= bj < BPB ->
  bit_clear (bit_mark bi d) bj = bit_clear d bj && negb (bj =? bi).
Proof.
  intros Hd Hi Hj. destruct (bit_range _ Hi), (bit_range _ Hj).
  rewrite !bit_clear_testbit. unfold bit_mark. rewrite put8_same_byte by (done || lia).
  destruct (Z.eqb_spec (bj / 8) (bi / 8)) as [E|E].
  - rewrite testbit_byte, Z.lor_spec, Z.shiftl_spec by lia. rewrite E, negb_orb. f_equal.
    destruct (Z.eqb_spec bj bi) as [->|Hne]; [now rewrite Z.sub_diag|].
    assert (bj mod 8 <> bi mod 8) by (intros E2; by apply Hne, same_bit).
    destruct (decide (bj mod 8 < bi mod 8)); [now rewrite Z.testbit_neg_r by lia|].
    change 1 with (2 ^ 0). now rewrite Z.pow2_bits_false by lia.
  - destruct (Z.eqb_spec bj bi) as [->|Hne]; [done|]. now rewrite andb_true_r.
Qed.

Lemma bit_clear_unmark d bi bj :
  blk_ok d -> 0 <= bi < BPB -> 0 <= bj < BPB ->
  bit_clear (bit_unmark bi d) bj = bit_clear d bj || (bj =? bi).
Proof.
  intros Hd Hi Hj. destruct (bit_range _ Hi), (bit_range _ Hj).
  rewrite !bit_clear_testbit. unfold bit_unmark. rewrite put8_same_byte by (done || lia).
  destruct (Z.eqb_spec (bj / 8) (bi / 8)) as [E|E].
  - rewrite testbit_byte, Z.land_spec, Z.lnot_spec, Z.shiftl_spec by lia. rewrite E, negb_andb, negb_involutive. f_equal.
    destruct (Z.eqb_spec bj bi) as [->|Hne]; [now rewrite Z.sub_diag|].
    assert (bj mod 8 <> bi mod 8) by (intros E2; by apply Hne, same_bit).
    destruct (decide (bj mod 8 < bi mod 8)); [now rewrite Z.testbit_neg_r by lia|].
    change 1 with (2 ^ 0). now rewrite Z.pow2_bits_false by lia.
  - destruct (Z.eqb_spec bj bi) as [->|Hne]; [done|]. now rewrite orb_false_r.
Qed.

Lemma balloc_scan_spec fuel d b bi size :
  0 <= bi -> Z.of_nat fuel = BPB - bi ->
  match balloc_scan fuel d b bi size with
  | Some r => bi <= r < BPB /\ b + r < size /\ bit_clear d r = true /\ forall j, bi <= j < r -> bit_clear d j = false
  | None => forall j, bi <= j < BPB -> b + j < size -> bit_clear d j = false
  end.
Proof.
  revert bi. induction fuel as [|fuel IH]; intros bi H0 Hf; simpl; [intros; lia|].
  destruct (Z.ltb_spec bi BPB); simpl; [|lia].
  destruct (Z.ltb_spec (b + bi) size); [|intros; lia].
  destruct (bit_clear d bi) eqn:E; [split; [lia|]; split; [lia|]; split; [done|intros; lia]|].
  specialize (IH (bi + 1) ltac:(lia) ltac:(lia)). destruct (balloc_scan fuel d b (bi + 1) size).
  - destruct IH as (I1 & I2 & I3 & I4). conjs; try done; try lia. intros j Hj.
    destruct (decide (j = bi)) as [->|]; [done|]. apply I4. lia.
  - intros j Hj Hs. destruct (decide (j = bi)) as [->|]; [done|]. apply IH; lia.
Qed.

(** ** The state of the file system inside a transaction *)

(** Everything but the log and the buffer cache. *)
Record fsrest := Rest {
  r_sb : superblock; r_itlock : spinlock; r_it : list inode; r_k : kst; r_pt : Z; r_cwd : Z
}.
Definition rest {S} (s : fsst S) : fsrest := Rest (fs_sb s) (fs_itlock s) (fs_it s) (fs_k s) (fs_pt s) (fs_cwd s).

Section FsRep.
Context `{HC : Ctx} `{HI : Image} `{HF : Frame} {S : Type} `{HT : Txn S} (D : Z) (rep : txabs -> S -> Prop)
  (loggable : Z -> Prop) `{HO : !TxnOk S D rep loggable}.

Definition fsr (a : txabs) (r : fsrest) (s : fsst S) : Prop := rep a (fs_tx s) /\ rest s = r.

Lemma fsr_ext V V' L h d r s : (forall bn, V bn = V' bn) -> fsr (Tx V L h d) r s -> fsr (Tx V' L h d) r s.
Proof. intros E [H1 H2]. split; [|done]. by apply (tx_ext V V'). Qed.

Lemma wp_tx {A} (m : M S A) (P : A -> S -> Prop) (Q : A -> fsst S -> Prop) s :
  wp m P (fs_tx s) -> (forall a s', P a (fs_tx s') -> rest s' = rest s -> Q a s') -> wp (tx m) Q s.
Proof.
  intros Hm HQ. apply wp_lift. eapply wp_mono; [exact Hm|]. intros a t Ht. apply HQ; [exact Ht|done].
Qed.

Lemma bread_fs V L h d bn r s :
  fsr (Tx V L h d) r s -> 0 <= bn < 2 ^ 31 -> bn ∉ h.*2 -> bn ∈ L \/ Z.of_nat (length L + length h) < NBUF ->
  wp (bread_ D bn) (fun i => fsr (Tx V L ((i, bn) :: h) d) r) s.
Proof.
  intros [H1 H2] Hb Hh Hr. unfold bread_. rewrite u32_small by lia.
  eapply wp_tx; [by apply tx_bread_ok|]. intros a s' Ha Hs. split; congruence.
Qed.
Lemma data_fs V L h d i bn r s :
  fsr (Tx V L h d) r s -> (i, bn) ∈ h -> wp (data_ i) (fun v s' => v = V bn /\ fsr (Tx V L h d) r s') s.
Proof.
  intros [H1 H2] Hi. eapply wp_tx; [by apply (tx_data_ok V L h d i bn)|].
  intros a s' [-> Ha] Hs. split; [done|]. split; congruence.
Qed.
Lemma put_fs V L h d i bn v r s :
  fsr (Tx V L h d) r s -> (i, bn) ∈ h -> wp (put_ i v) (fun _ => fsr (Tx (<[bn := v]> V) L h (bn :: d)) r) s.
Proof.
  intros [H1 H2] Hi. eapply wp_tx; [by apply (tx_put_ok V L h d i bn v)|].
  intros a s' Ha Hs. split; congruence.
Qed.
Lemma log_write_fs V L h d i bn r s :
  fsr (Tx V L h d) r s -> (i, bn) ∈ h -> loggable bn -> Z.of_nat (length L) < LOGSIZE - 1 ->
  wp (log_write_ i) (fun _ => fsr (Tx V (log_add bn L) h (filter (fun b => b <> bn) d)) r) s.
Proof.
  intros [H1 H2] Hi Hl Hn. eapply wp_tx; [by apply (tx_log_write_ok V L h d i bn)|].
  intros a s' Ha Hs. split; congruence.
Qed.
Lemma brelse_fs V L h d i bn r s :
  fsr (Tx V L ((i, bn) :: h) d) r s -> bn ∉ d -> wp (brelse_ i) (fun _ => fsr (Tx V L h d) r) s.
Proof.
  intros [H1 H2] Hd. eapply wp_tx; [by apply (tx_brelse_ok V L h d i bn)|].
  intros a s' Ha Hs. split; congruence.
Qed.

Lemma fsr_sb a r s : fsr a r s -> fs_sb s = r_sb r.
Proof. intros [_ <-]. done. Qed.
Lemma fsr_it a r s : fsr a r s -> fs_it s = r_it r.
Proof. intros [_ <-]. done. Qed.

Lemma log_add_length bn L : (length L <= length (log_add bn L) <= length L + 1)%nat.
Proof. unfold log_add. destruct (decide _); rewrite ?length_app; simpl; lia. Qed.
Lemma log_add_in bn b L : b ∈ log_add bn L <-> b = bn \/ b ∈ L.
Proof.
  unfold log_add. destruct (decide (bn ∈ L)) as [Hi|Hi].
  - split; [auto|]. by intros [->|?].
  - rewrite elem_of_app, list_elem_of_singleton. tauto.
Qed.

(** Changing a block that was read: [memset/memmove; log_write; brelse]. *)
Lemma commit_buf_seq {A} V L h i bn v r s (k : M (fsst S) A) (Q : A -> fsst S -> Prop) :
  fsr (Tx V L ((i, bn) :: h) []) r s -> loggable bn -> Z.of_nat (length L) < LOGSIZE - 1 ->
  (forall s', fsr (Tx (<[bn := v]> V) (log_add bn L) h []) r s' -> wp k Q s') ->
  wp (put_ i v ;;; log_write_ i ;;; brelse_ i ;;; k) Q s.
Proof.
  intros Hs Hl Hn HQ. apply wp_bind. wp_use put_fs; [exact Hs|left|].
  intros [] s1 H1. apply wp_bind. wp_use log_write_fs; [exact H1|left|done|done|].
  intros [] s2 H2. apply wp_bind. wp_use brelse_fs; [exact H2| |].
  - rewrite list_elem_of_filter. tauto.
  - intros [] s3 H3. apply HQ. unfold filter in H3. simpl in H3.
    rewrite decide_False in H3 by tauto. exact H3.
Qed.
Lemma commit_buf_end V L h i bn v r s (Q : unit -> fsst S -> Prop) :
  fsr (Tx V L ((i, bn) :: h) []) r s -> loggable bn -> Z.of_nat (length L) < LOGSIZE - 1 ->
  (forall s', fsr (Tx (<[bn := v]> V) (log_add bn L) h []) r s' -> Q tt s') ->
  wp (put_ i v ;;; log_write_ i ;;; brelse_ i) Q s.
Proof.
  intros Hs Hl Hn HQ.
  destruct (commit_buf_seq V L h i bn v r s (ret tt) Q Hs Hl Hn) as ([] & s' & Hrun & HQ').
  { intros s' Hs'. apply wp_ret. auto. }
  exists tt, s'. split; [|done]. rewrite <- Hrun. unfold bind.
  destruct (put_ i v s); [|done..]. destruct (log_write_ i _); [|done..]. by destruct (brelse_ i _) as [[]| | | |].
Qed.

(** ** Allocation *)

Section Alloc.
Context (sb : superblock).

Definition is_bmap (bn : Z) : Prop := exists b, 0 <= b < sb_size sb /\ bn = BBLOCK b sb.
Definition is_ino (bn : Z) : Prop := exists i, 0 <= i < sb_ninodes sb /\ bn = IBLOCK i sb.

(** What a transaction has logged, [L], together with the blocks of the free
    map that it may still log: [balloc] adds one block to it at most. *)
Definition mapblocks : list Z := (fun q => q + sb_bmapstart sb) <$> upto ((sb_size sb - 1) / BPB + 1).
Definition lcost (L : list Z) : Z := Z.of_nat (length L + length (filter (.∉ L) mapblocks)).

Lemma is_bmap_in bn : is_bmap bn -> bn ∈ mapblocks.
Proof.
  intros (b & Hb & ->). apply list_elem_of_fmap. exists (b / BPB). split; [done|]. apply elem_upto.
  assert (HB : 0 < BPB) by (unfold BPB, BSIZE; lia). pose proof (Z.div_pos b BPB ltac:(lia) HB).
  pose proof (Z.div_le_mono b (sb_size sb - 1) BPB HB ltac:(lia)). lia.
Qed.
Lemma filter_log_add bn L l : (length (filter (.∉ log_add bn L) l) <= length (filter (.∉ L) l))%nat.
Proof.
  induction l as [|x l IH]; [done|]. rewrite !filter_cons. destruct (decide (x ∉ log_add bn L)) as [H1|H1], (decide (x ∉ L)) as [H2|H2]; simpl; try lia.
  exfalso. apply H2. intros Hx. apply H1, log_add_in. by right.
Qed.
Lemma filter_log_add_in bn L l : bn ∈ l -> bn ∉ L -> (length (filter (.∉ log_add bn L) l) + 1 <= length (filter (.∉ L) l))%nat.
Proof.
  intros Hin Hn. induction l as [|x l IH]; [by apply elem_of_nil in Hin|]. rewrite !filter_cons. apply elem_of_cons in Hin as [E|Hin].
  - subst x. rewrite decide_False by (intros H; by apply H, log_add_in; left). rewrite decide_True by done. pose proof (filter_log_add bn L l). simpl. lia.
  - specialize (IH Hin). destruct (decide (x ∉ log_add bn L)) as [H1|H1], (decide (x ∉ L)) as [H2|H2]; simpl; try lia.
    exfalso. apply H2. intros Hx. apply H1, log_add_in. by right.
Qed.
Lemma lcost_len L : Z.of_nat (length L) <= lcost L.
Proof. unfold lcost. lia. Qed.
Lemma lcost_add bn L : lcost (log_add bn L) <= lcost L + 1.
Proof. unfold lcost. pose proof (filter_log_add bn L mapblocks). pose proof (log_add_length bn L). lia. Qed.
Lemma lcost_map bn L : is_bmap bn -> lcost (log_add bn L) <= lcost L.
Proof.
  intros Hb%is_bmap_in. destruct (decide (bn ∈ L)) as [Hi|Hi].
  - unfold log_add. by rewrite decide_True.
  - unfold lcost. pose proof (filter_log_add_in bn L mapblocks Hb Hi). pose proof (log_add_length bn L). lia.
Qed.

(** Where mkfs puts the inodes and the free map. *)
Record layout : Prop := {
  lo_size : 0 < sb_size sb < 2 ^ 30;
  lo_ninodes : 0 < sb_ninodes sb < 2 ^ 16;
  lo_bmap : forall bn, is_bmap bn -> loggable bn /\ 0 <= bn < 2 ^ 31;
  lo_ino : forall bn, is_ino bn -> loggable bn /\ 0 <= bn < 2 ^ 31;
  lo_disj : forall bn, is_bmap bn -> is_ino bn -> False
}.

(** The bit of block [b] in the free map: in use. *)
Definition bit (V : Z -> block) (b : Z) : bool := negb (bit_clear (V (BBLOCK b sb)) (b mod BPB)).
(** A block that can hold file data. *)
Definition data (b : Z) : Prop := loggable b /\ 0 < b < 2 ^ 31 /\ ~ is_bmap b /\ ~ is_ino b.
Record fs_ok (V : Z -> block) : Prop := {
  fo_blk : forall bn, blk_ok (V bn);
  fo_free : forall b, 0 <= b < sb_size sb -> bit V b = false -> data b
}.

Definition alloced (b : Z) (V : Z -> block) : Z -> block :=
  <[b := zero_block]> (<[BBLOCK b sb := bit_mark (b mod BPB) (V (BBLOCK b sb))]> V).
Definition freed (b : Z) (V : Z -> block) : Z -> block :=
  <[BBLOCK b sb := bit_unmark (b mod BPB) (V (BBLOCK b sb))]> V.

Lemma bit_mod b : 0 <= b mod BPB < BPB.
Proof. apply Z.mod_pos_bound. unfold BPB, BSIZE. lia. Qed.

Lemma same_bblock b b' : BBLOCK b sb = BBLOCK b' sb -> (b mod BPB =? b' mod BPB) = (b =? b').
Proof.
  unfold BBLOCK. intros E. assert (E2 : b / BPB = b' / BPB) by lia.
  destruct (Z.eqb_spec b b') as [->|Hne]; [apply Z.eqb_refl|]. apply Z.eqb_neq. intros E3. apply Hne.
  rewrite (Z.div_mod b BPB), (Z.div_mod b' BPB) by (unfold BPB, BSIZE; lia). lia.
Qed.

Lemma bit_marked V b b' v :
  blk_ok (V (BBLOCK b sb)) -> v = bit_mark (b mod BPB) (V (BBLOCK b sb)) ->
  bit (<[BBLOCK b sb := v]> V) b' = bit V b' || (b' =? b).
Proof.
  intros Hok ->. unfold bit. destruct (decide (BBLOCK b sb = BBLOCK b' sb)) as [E|E].
  - rewrite <- E, fn_lookup_insert, bit_clear_mark, negb_andb, negb_involutive by (done || apply bit_mod).
    f_equal. by apply same_bblock.
  - rewrite fn_lookup_insert_ne by done. destruct (Z.eqb_spec b' b) as [->|]; [done|]. now rewrite orb_false_r.
Qed.
Lemma bit_freed V b b' :
  blk_ok (V (BBLOCK b sb)) -> bit (freed b V) b' = bit V b' && negb (b' =? b).
Proof.
  intros Hok. unfold bit, freed. destruct (decide (BBLOCK b sb = BBLOCK b' sb)) as [E|E].
  - rewrite <- E, fn_lookup_insert, bit_clear_unmark, negb_orb by (done || apply bit_mod).
    do 2 f_equal. by apply same_bblock.
  - rewrite fn_lookup_insert_ne by done. destruct (Z.eqb_spec b' b) as [->|]; [done|]. now rewrite andb_true_r.
Qed.
Lemma bit_ne V x v b : (forall b', 0 <= b' < sb_size sb -> x <> BBLOCK b' sb) -> 0 <= b < sb_size sb ->
  bit (<[x := v]> V) b = bit V b.
Proof. intros Hx Hb. unfold bit. now rewrite fn_lookup_insert_ne by (by apply Hx). Qed.

Lemma data_not_bmap b : data b -> forall b', 0 <= b' < sb_size sb -> b <> BBLOCK b' sb.
Proof. intros (_ & _ & Hn & _) b' Hb' ->. apply Hn. by exists b'. Qed.

Lemma bit_alloced V b b' :
  fs_ok V -> 0 <= b < sb_size sb -> bit V b = false -> 0 <= b' < sb_size sb ->
  bit (alloced b V) b' = bit V b' || (b' =? b).
Proof.
  intros [H1 H2] Hb Hbit Hb'. unfold alloced. rewrite bit_ne by (done || by apply data_not_bmap, H2).
  by apply bit_marked.
Qed.

Lemma alloced_ok V b : fs_ok V -> 0 <= b < sb_size sb -> bit V b = false -> fs_ok (alloced b V).
Proof.
  intros Hok Hb Hbit. split.
  - intros bn. unfold alloced. destruct (decide (b = bn)) as [<-|]; [rewrite fn_lookup_insert; apply zero_block_ok|].
    rewrite fn_lookup_insert_ne by done. destruct (decide (BBLOCK b sb = bn)) as [<-|].
    + rewrite fn_lookup_insert. apply put8_ok, Hok.
    + rewrite fn_lookup_insert_ne by done. apply Hok.
  - intros b' Hb'. rewrite bit_alloced by done. intros [Hx _]%orb_false_iff. by apply Hok.
Qed.

(** Data blocks do not matter to the free map. *)
Lemma fs_ok_put V x v : fs_ok V -> ~ is_bmap x -> blk_ok v -> fs_ok (<[x := v]> V).
Proof.
  intros [H1 H2] Hx Hv. split.
  - intros bn. destruct (decide (x = bn)) as [<-|]; [now rewrite fn_lookup_insert|].
    rewrite fn_lookup_insert_ne by done. apply H1.
  - intros b Hb. rewrite bit_ne by (done || (intros b' Hb' ->; apply Hx; by exists b')). by apply H2.
Qed.

Context (Hlay : layout).

(** Buffers held while allocating: not of the free map, and of blocks in use. *)
Definition held_ok (V : Z -> block) (h : list (Z * Z)) : Prop :=
  forall bn, bn ∈ h.*2 -> ~ is_bmap bn /\ (0 <= bn < sb_size sb -> bit V bn = true).

Lemma bmap_range b : 0 <= b < sb_size sb -> 0 <= BBLOCK b sb < 2 ^ 31.
Proof. intros Hb. apply lo_bmap; [done|]. by exists b. Qed.

Lemma bzero_fs V L h b r s :
  fsr (Tx V L h []) r s -> loggable b -> 0 <= b < 2 ^ 31 -> b ∉ h.*2 ->
  Z.of_nat (length L + length h) < LOGSIZE - 1 ->
  wp (bzero D b) (fun _ => fsr (Tx (<[b := zero_block]> V) (log_add b L) h []) r) s.
Proof.
  intros Hs Hl Hb Hh Hn. unfold bzero. apply wp_bind.
  wp_use bread_fs; [exact Hs|done|done|right; unfold NBUF, LOGSIZE, MAXOPBLOCKS in *; lia|].
  intros i s1 H1. eapply commit_buf_end; [exact H1|done|lia|auto].
Qed.

(** The result of [balloc] from block [b0] on. *)
Definition balloc_post V L h (r : fsrest) (b0 a : Z) (s : fsst S) : Prop :=
  a = 0 /\ fsr (Tx V L h []) r s /\ (forall b, b0 <= b < sb_size sb -> bit V b = true) \/
  b0 <= a < sb_size sb /\ bit V a = false /\ (forall b, b0 <= b < a -> bit V b = true) /\
  fsr (Tx (alloced a V) (log_add a (log_add (BBLOCK a sb) L)) h []) r s.

Lemma div_BPB q x : 0 <= x < BPB -> (q * BPB + x) / BPB = q /\ (q * BPB + x) mod BPB = x.
Proof.
  intros Hx. assert (BPB <> 0) by (unfold BPB, BSIZE; lia).
  split; [rewrite Z.div_add_l, Z.div_small; lia|]. rewrite Z.add_comm, Z.mod_add by done. by apply Z.mod_small.
Qed.

Lemma balloc_loop_fs fuel V L h q r s :
  fsr (Tx V L h []) r s -> r_sb r = sb -> fs_ok V -> held_ok V h ->
  lcost L + Z.of_nat (length h) < LOGSIZE - 1 -> 0 <= q ->
  sb_size sb <= (q + Z.of_nat fuel - 1) * BPB -> (0 < fuel)%nat ->
  wp (balloc_loop fuel D (q * BPB)) (balloc_post V L h r (q * BPB)) s.
Proof.
  intros Hs Hsb Hok Hh Hn. pose proof (lcost_len L) as HlL. revert q s Hs. induction fuel as [|fuel IH]; intros q s Hs Hq Hf Hpos; [lia|].
  cbn [balloc_loop]. apply wp_bind, wp_gets. rewrite (fsr_sb _ _ _ Hs), Hsb.
  assert (HB : 0 < BPB) by (unfold BPB, BSIZE; lia).
  destruct (Z.ltb_spec (q * BPB) (sb_size sb)) as [Hlt|Hge].
  2:{ apply wp_ret. left. split; [done|]. split; [done|]. intros; lia. }
  assert (Hqs : 0 <= q * BPB < sb_size sb) by lia.
  assert (Hbb : BBLOCK (q * BPB) sb ∉ h.*2) by (intros Hin; apply (Hh _ Hin); by exists (q * BPB)).
  apply wp_bind. wp_use bread_fs; [exact Hs|by apply bmap_range|done|right; unfold NBUF, LOGSIZE, MAXOPBLOCKS in *; lia|].
  intros i s1 H1. apply wp_bind. wp_use data_fs; [exact H1|left|]. intros d s2 [-> H2].
  pose proof (balloc_scan_spec (Z.to_nat BPB) (V (BBLOCK (q * BPB) sb)) (q * BPB) 0 (sb_size sb) ltac:(lia) ltac:(lia)) as Hsc.
  assert (Hbit : forall x, 0 <= x < BPB -> BBLOCK (q * BPB + x) sb = BBLOCK (q * BPB) sb /\
            bit V (q * BPB + x) = negb (bit_clear (V (BBLOCK (q * BPB) sb)) x)).
  { intros x Hx. destruct (div_BPB q x Hx) as [E1 E2]. destruct (div_BPB q 0 ltac:(lia)) as [E3 E4].
    rewrite Z.add_0_r in E3. unfold bit, BBLOCK. now rewrite E1, E2, E3. }
  destruct (balloc_scan _ _ _ _ _) as [bi|].
  - destruct Hsc as (I1 & I2 & I3 & I4). destruct (Hbit bi I1) as [Eb Ebit]. rewrite I3 in Ebit. simpl in Ebit.
    pose proof (fo_free _ Hok (q * BPB + bi) ltac:(lia) Ebit) as (D1 & D2 & D3 & D4).
    eapply commit_buf_seq; [exact H2|apply lo_bmap; [done|by exists (q * BPB)]|lia|]. intros s3 H3.
    pose proof (lcost_map (BBLOCK (q * BPB) sb) L ltac:(by exists (q * BPB))) as Hcm. pose proof (lcost_len (log_add (BBLOCK (q * BPB) sb) L)).
    apply wp_bind. wp_use bzero_fs; [exact H3|done|lia| |lia|].
    + intros Hin. rewrite (proj2 (Hh _ Hin)) in Ebit by lia. done.
    + intros [] s4 H4. apply wp_ret. right. split; [lia|]. split; [done|]. split.
      * intros b Hb. replace b with (q * BPB + (b - q * BPB)) by lia.
        rewrite (proj2 (Hbit (b - q * BPB) ltac:(lia))), I4 by lia. done.
      * unfold alloced. rewrite Eb, (proj2 (div_BPB q bi I1)). exact H4.
  - apply wp_bind. wp_use brelse_fs; [exact H2|apply not_elem_of_nil|]. intros [] s3 H3.
    replace (q * BPB + BPB) with ((q + 1) * BPB) by lia.
    assert (Hprev : forall b, q * BPB <= b < (q + 1) * BPB -> b < sb_size sb -> bit V b = true).
    { intros b Hb Hb2. replace b with (q * BPB + (b - q * BPB)) by lia.
      rewrite (proj2 (Hbit (b - q * BPB) ltac:(lia))), Hsc by lia. done. }
    destruct (decide (fuel = O)) as [->|]; [nia|].
    wp_use IH; [exact H3|lia|lia|lia|]. intros a s4 [(-> & F1 & F2)|(F1 & F2 & F3 & F4)]; [left|right].
    + split; [done|]. split; [done|]. intros b Hb. destruct (decide (b < (q + 1) * BPB)); [apply Hprev|apply F2]; lia.
    + split; [lia|]. split; [done|]. split; [|done].
      intros b Hb. destruct (decide (b < (q + 1) * BPB)); [apply Hprev|apply F3]; lia.
Qed.

Lemma balloc_fs V L h r s :
  fsr (Tx V L h []) r s -> r_sb r = sb -> fs_ok V -> held_ok V h -> lcost L + Z.of_nat (length h) < LOGSIZE - 1 ->
  wp (balloc D) (balloc_post V L h r 0) s.
Proof.
  intros Hs Hsb Hok Hh Hn. unfold balloc. apply wp_bind, wp_gets. rewrite (fsr_sb _ _ _ Hs), Hsb.
  pose proof (lo_size Hlay). assert (0 < BPB) by (unfold BPB, BSIZE; lia).
  pose proof (Z.div_pos (sb_size sb) BPB ltac:(lia) ltac:(lia)).
  change 0 with (0 * BPB). apply balloc_loop_fs; try done; try lia.
  rewrite Z2Nat.id by lia. pose proof (Z.mul_succ_div_gt (sb_size sb) BPB ltac:(lia)). nia.
Qed.

Lemma bfree_fs V L h b r s :
  fsr (Tx V L h []) r s -> r_sb r = sb -> held_ok V h -> 0 <= b < sb_size sb -> bit V b = true ->
  Z.of_nat (length L + length h) < LOGSIZE - 1 ->
  wp (bfree D b) (fun _ => fsr (Tx (freed b V) (log_add (BBLOCK b sb) L) h []) r) s.
Proof.
  intros Hs Hsb Hh Hb Hbit Hn. unfold bfree. apply wp_bind, wp_gets. rewrite (fsr_sb _ _ _ Hs), Hsb.
  assert (Hbb : BBLOCK b sb ∉ h.*2) by (intros Hin; apply (Hh _ Hin); by exists b).
  apply wp_bind. wp_use bread_fs; [exact Hs|by apply bmap_range|done|right; unfold NBUF, LOGSIZE, MAXOPBLOCKS in *; lia|].
  intros i s1 H1. apply wp_bind. wp_use data_fs; [exact H1|left|]. intros d s2 [-> H2].
  apply wp_bind, wp_panic_if; [unfold bit in Hbit; by destruct (bit_clear _ _)|].
  eapply commit_buf_end; [exact H2|apply lo_bmap; [done|by exists b]|lia|auto].
Qed.

(** [balloc] takes the first block that is free in the map on disk, marks
    it there and fills it with zeros; it returns 0, changing nothing, exactly
    when every block is in use. *)
Theorem balloc_correct V L h r s :
  fsr (Tx V L h []) r s -> r_sb r = sb -> fs_ok V -> held_ok V h -> lcost L + Z.of_nat (length h) < LOGSIZE - 1 ->
  wp (balloc D) (balloc_post V L h r 0) s.
Proof. apply balloc_fs. Qed.

End Alloc.
End FsRep.
