(* ===== verification/FsInode.v ===== *)
(** * Inodes of kernel/fs.c

    The on-disk inode as bytes of its block, the inode table with its reference
    counts, [ilock] and [iupdate] as the two directions of the copy between
    them. *)

From S2P Require Import Prelude Memory Riscv Spinlock Kalloc Vm Bio Log Txn Fs FsBlock.

(** ** Fields of an inode in its block *)

Definition in_blk (o n : Z) : Prop := 0 <= o /\ o + n <= BSIZE.

Lemma get8_put16 o v d x : blk_ok d -> in_blk o 2 -> 0 <= x ->
  get8 (put16 o v d) x = if x =? o then v mod 256 else if x =? o + 1 then (v / 256) mod 256 else get8 d x.
Proof.
  intros Hd [H1 H2] Hx. unfold put16. rewrite !put8_same_byte by (auto with xv6; lia).
  destruct (Z.eqb_spec x o), (Z.eqb_spec x (o + 1)); try done; lia.
Qed.
Lemma get8_put32 o v d x : blk_ok d -> in_blk o 4 -> 0 <= x ->
  get8 (put32 o v d) x =
    if x =? o then v mod 256 else if x =? o + 1 then (v / 256) mod 256
    else if x =? o + 2 then (v / 65536) mod 256 else if x =? o + 3 then (v / 16777216) mod 256 else get8 d x.
Proof.
  intros Hd [H1 H2] Hx. unfold put32. rewrite !put8_same_byte by (auto with xv6; lia).
  destruct (Z.eqb_spec x o), (Z.eqb_spec x (o + 1)), (Z.eqb_spec x (o + 2)), (Z.eqb_spec x (o + 3)); try done; lia.
Qed.

(** A stored field leaves the bytes around it alone. *)
Lemma get8_put16_out o v d x : blk_ok d -> in_blk o 2 -> 0 <= x -> x < o \/ o + 2 <= x ->
  get8 (put16 o v d) x = get8 d x.
Proof. intros. rewrite get8_put16 by done. destruct (Z.eqb_spec x o), (Z.eqb_spec x (o + 1)); lia. Qed.
Lemma get8_put32_out o v d x : blk_ok d -> in_blk o 4 -> 0 <= x -> x < o \/ o + 4 <= x ->
  get8 (put32 o v d) x = get8 d x.
Proof. intros. rewrite get8_put32 by done.
  destruct (Z.eqb_spec x o), (Z.eqb_spec x (o + 1)), (Z.eqb_spec x (o + 2)), (Z.eqb_spec x (o + 3)); lia. Qed.

Lemma get16_ext d d' o : (forall x, o <= x < o + 2 -> get8 d x = get8 d' x) -> get16 d o = get16 d' o.
Proof. intros H. unfold get16. now rewrite !H by lia. Qed.
Lemma get32_ext d d' o : (forall x, o <= x < o + 4 -> get8 d x = get8 d' x) -> get32 d o = get32 d' o.
Proof. intros H. unfold get32. now rewrite !H by lia. Qed.

Lemma get16_put16 o v d : blk_ok d -> in_blk o 2 -> get16 (put16 o v d) o = u16 v.
Proof.
  intros Hd Ho. unfold get16. rewrite !get8_put16 by (done || destruct Ho; lia).
  rewrite Z.eqb_refl, Z.eqb_refl. destruct (Z.eqb_spec (o + 1) o); [lia|].
  unfold u16. change (2 ^ 16) with 65536. Z.div_mod_to_equations. lia.
Qed.
Lemma i16_u16 v : - 2 ^ 15 <= v < 2 ^ 15 -> i16 (u16 v) = v.
Proof. intros H. unfold i16, u16. Z.div_mod_to_equations. lia. Qed.
Lemma i16_range v : - 2 ^ 15 <= i16 v < 2 ^ 15.
Proof. unfold i16. pose proof (Z.mod_pos_bound (v + 2 ^ 15) (2 ^ 16) ltac:(lia)). lia. Qed.

Lemma put_addrs_ok o l d : blk_ok d -> blk_ok (put_addrs o l d).
Proof. revert o d. induction l; intros; simpl; auto with xv6. Qed.
#[export] Hint Resolve put_addrs_ok : xv6.

Lemma get8_put_addrs_out o l d x :
  blk_ok d -> in_blk o (4 * Z.of_nat (length l)) -> 0 <= x -> x < o \/ o + 4 * Z.of_nat (length l) <= x ->
  get8 (put_addrs o l d) x = get8 d x.
Proof.
  revert o d. induction l as [|a l IH]; intros o d Hd [H1 H2] Hx Hout; simpl in *; [done|].
  rewrite IH by (auto with xv6; split || idtac; lia). apply get8_put32_out; [done|split; lia|done|lia].
Qed.

Lemma get32_put_addrs o l d k a :
  blk_ok d -> in_blk o (4 * Z.of_nat (length l)) -> l !! k = Some a ->
  get32 (put_addrs o l d) (o + 4 * Z.of_nat k) = u32 a.
Proof.
  revert o d k. induction l as [|b l IH]; intros o d k Hd [H1 H2] Hk; [done|].
  simpl in *. destruct k as [|k]; simpl in Hk.
  - injection Hk as ->. rewrite (get32_ext _ (put32 o a d)).
    + replace (o + 4 * Z.of_nat 0) with o by lia. apply get32_put32; [done|].
      destruct Hd as [-> _]. unfold BSIZE in *. lia.
    + intros x Hx. apply get8_put_addrs_out; [auto with xv6|split; lia|lia|lia].
  - replace (o + 4 * Z.of_nat (S k)) with (o + 4 + 4 * Z.of_nat k) by lia.
    apply IH; [auto with xv6|split; lia|done].
Qed.

(** ** The two directions of the copy *)

(** The fields of an inode are in range of their types. *)
Record ino_ok (p : inode) : Prop := {
  io_type : - 2 ^ 15 <= i_type p < 2 ^ 15;
  io_major : - 2 ^ 15 <= i_major p < 2 ^ 15;
  io_minor : - 2 ^ 15 <= i_minor p < 2 ^ 15;
  io_nlink : - 2 ^ 15 <= i_nlink p < 2 ^ 15;
  io_size : 0 <= i_size p < 2 ^ 32;
  io_len : length (i_addrs p) = 13%nat;
  io_addrs : Forall (fun a => 0 <= a < 2 ^ 32) (i_addrs p)
}.

Lemma store_dinode_ok o p d : blk_ok d -> blk_ok (store_dinode o p d).
Proof. intros. unfold store_dinode. auto 10 with xv6. Qed.
#[export] Hint Resolve store_dinode_ok : xv6.

(** [dip] is a slot of the block. *)
Definition slot_off (o : Z) : Prop := 0 <= o /\ o + 64 <= BSIZE.

Lemma store_dinode_out o p d x :
  blk_ok d -> slot_off o -> length (i_addrs p) = 13%nat -> 0 <= x -> x < o \/ o + 64 <= x ->
  get8 (store_dinode o p d) x = get8 d x.
Proof.
  intros Hd [H1 H2] Hl Hx Hout. unfold store_dinode.
  rewrite get8_put_addrs_out; [|auto 10 with xv6|rewrite Hl; split; lia|done|rewrite Hl; lia].
  rewrite get8_put32_out, !get8_put16_out; auto 10 with xv6; try lia; split; lia.
Qed.

Lemma get16_put_addrs o l d x : blk_ok d -> in_blk o (4 * Z.of_nat (length l)) -> 0 <= x -> x + 2 <= o ->
  get16 (put_addrs o l d) x = get16 d x.
Proof. intros. apply get16_ext. intros y Hy. apply get8_put_addrs_out; try done; lia. Qed.
Lemma get16_put32_ne o v d x : blk_ok d -> in_blk o 4 -> 0 <= x -> x + 2 <= o \/ o + 4 <= x ->
  get16 (put32 o v d) x = get16 d x.
Proof. intros. apply get16_ext. intros y Hy. apply get8_put32_out; try done; lia. Qed.
Lemma get16_put16_ne o v d x : blk_ok d -> in_blk o 2 -> 0 <= x -> x + 2 <= o \/ o + 2 <= x ->
  get16 (put16 o v d) x = get16 d x.
Proof. intros. apply get16_ext. intros y Hy. apply get8_put16_out; try done; lia. Qed.

(** The fields of [q] other than the copy of the disk inode, which is [p]'s. *)
Definition copy_dinode (p q : inode) : inode :=
  Inode (i_dev q) (i_inum q) (i_ref q) (i_lock q) (i_valid q)
    (i_type p) (i_major p) (i_minor p) (i_nlink p) (i_size p) (i_addrs p).

Lemma load_store_dinode o p q d :
  blk_ok d -> slot_off o -> ino_ok p -> load_dinode o (store_dinode o p d) q = copy_dinode p q.
Proof.
  intros Hd [H1 H2] [P1 P2 P3 P4 P5 P6 P7]. unfold load_dinode, copy_dinode. f_equal.
  1-4: unfold store_dinode; rewrite get16_put_addrs by (auto 10 with xv6; try rewrite P6; try split; lia);
    rewrite get16_put32_ne by (auto 10 with xv6; try split; lia);
    repeat rewrite get16_put16_ne by (auto 10 with xv6; try split; lia);
    rewrite get16_put16 by (auto 10 with xv6; split; lia); now apply i16_u16.
  - unfold store_dinode. rewrite (get32_ext _ (put32 (o + 8) (i_size p) (put16 (o + 6) (i_nlink p) (put16 (o + 4) (i_minor p)
      (put16 (o + 2) (i_major p) (put16 o (i_type p) d)))))).
    + rewrite get32_put32; [now apply u32_small|lia|]. unfold put16. rewrite !length_put8, (proj1 Hd).
      unfold BSIZE in *. lia.
    + intros x Hx. apply get8_put_addrs_out; [auto 10 with xv6|rewrite P6; split; lia|lia|lia].
  - apply list_eq. intros k. rewrite list_lookup_fmap. unfold upto. rewrite list_lookup_fmap.
    destruct (decide (k < 13)%nat) as [Hk|Hk].
    + rewrite lookup_seq_lt by (unfold NDIRECT; lia). simpl.
      destruct (lookup_lt_is_Some_2 (i_addrs p) k ltac:(lia)) as [a Ha]. rewrite Ha. f_equal.
      unfold store_dinode. rewrite (get32_put_addrs _ _ _ k a); [|auto 10 with xv6|rewrite P6; split; lia|done].
      apply u32_small. by apply (proj1 (Forall_lookup _ _) P7 k a).
    + rewrite lookup_seq_ge by (unfold NDIRECT; lia). rewrite (proj2 (lookup_ge_None _ _)) by lia. done.
Qed.

(** Another inode of the same block does not change. *)
Lemma load_store_other o o' p q d :
  blk_ok d -> slot_off o -> slot_off o' -> length (i_addrs p) = 13%nat -> o' + 64 <= o \/ o + 64 <= o' ->
  load_dinode o' (store_dinode o p d) q = load_dinode o' d q.
Proof.
  intros Hd Ho [H1 H2] Hl Hne. unfold load_dinode.
  assert (Hb : forall x, o' <= x < o' + 64 -> get8 (store_dinode o p d) x = get8 d x)
    by (intros x Hx; apply store_dinode_out; try done; lia).
  f_equal; [f_equal; apply get16_ext; intros; apply Hb; lia..|apply get32_ext; intros; apply Hb; lia|].
  apply list_fmap_ext. intros k x Hk. apply get32_ext. intros y Hy. apply Hb.
  apply list_elem_of_lookup_2, elem_upto in Hk. unfold NDIRECT in Hk. lia.
Qed.

Lemma di_off_slot inum : slot_off (di_off inum).
Proof.
  unfold slot_off, di_off, IPB, BSIZE. change (1024 / 64) with 16.
  pose proof (Z.mod_pos_bound inum 16 ltac:(lia)). lia.
Qed.

(** Two inodes in one block have different slots. *)
Lemma di_off_ne sb i j : i <> j -> IBLOCK i sb = IBLOCK j sb -> di_off i + 64 <= di_off j \/ di_off j + 64 <= di_off i.
Proof.
  unfold IBLOCK, di_off, IPB, BSIZE. change (1024 / 64) with 16. intros Hne E.
  rewrite (Z.div_mod i 16), (Z.div_mod j 16) in Hne by lia. lia.
Qed.

(** The disk inode [inum] of a disk. *)
Definition dinode_at (sb : superblock) (V : Z -> block) (inum : Z) (q : inode) : inode :=
  load_dinode (di_off inum) (V (IBLOCK inum sb)) q.

(** ** Access to the inode table *)

Definition set_rit (l : list inode) (r : fsrest) : fsrest := Rest (r_sb r) (r_itlock r) l (r_k r) (r_pt r) (r_cwd r).
Definition set_ritlock (l : spinlock) (r : fsrest) : fsrest := Rest (r_sb r) l (r_it r) (r_k r) (r_pt r) (r_cwd r).
(** The inode a pointer denotes. *)
Definition ino (r : fsrest) (ip : Z) (p : inode) : Prop := 0 <= ip /\ r_it r !! Z.to_nat ip = Some p.
Definition upd_ino (ip : Z) (p : inode) (r : fsrest) : fsrest := set_rit (<[Z.to_nat ip := p]> (r_it r)) r.

Lemma ino_upd r ip p q : ino r ip p -> ino (upd_ino ip q r) ip q.
Proof. intros [H1 H2]. split; [done|]. cbn. apply list_lookup_insert_eq. by eapply lookup_lt_Some. Qed.
Lemma ino_upd_ne r ip jp p q : ino r ip p -> 0 <= jp -> ip <> jp -> ino (upd_ino jp q r) ip p.
Proof. intros [H1 H2] Hj Hne. split; [done|]. cbn. rewrite list_lookup_insert_ne by lia. done. Qed.
Lemma upd_ino_upd ip p q r : upd_ino ip p (upd_ino ip q r) = upd_ino ip p r.
Proof. unfold upd_ino, set_rit. cbn. now rewrite list_insert_insert_eq. Qed.
Lemma upd_ino_id ip p r : ino r ip p -> upd_ino ip p r = r.
Proof. intros [_ H]. unfold upd_ino, set_rit. rewrite list_insert_id by done. by destruct r. Qed.

(** ** The table as a map of reference counts *)

Definition live (p : inode) (dev inum : Z) : Prop := 0 < i_ref p /\ i_dev p = dev /\ i_inum p = inum.

Record it_ok (it : list inode) : Prop := {
  to_ref : forall i p, it !! i = Some p -> 0 <= i_ref p;
  to_uniq : forall i j p q dev inum, it !! i = Some p -> it !! j = Some q ->
    live p dev inum -> live q dev inum -> i = j
}.

(** The number of references to inode [inum]. *)
Definition refs (it : list inode) (dev inum : Z) : Z :=
  match iget_find it 0 dev inum with
  | Some ip => default 0 (i_ref <$> it !! Z.to_nat ip)
  | None => 0
  end.

Lemma iget_find_spec l i dev inum :
  match iget_find l i dev inum with
  | Some j => exists k p, j = i + Z.of_nat k /\ l !! k = Some p /\ live p dev inum
  | None => forall k p, l !! k = Some p -> ~ live p dev inum
  end.
Proof.
  revert i. induction l as [|p l IH]; intros i; simpl; [done|].
  destruct ((0 <? i_ref p) && (i_dev p =? dev) && (i_inum p =? inum)) eqn:E.
  - exists O, p. split; [lia|]. split; [done|]. unfold live. lia.
  - specialize (IH (i + 1)). destruct (iget_find l (i + 1) dev inum) as [j|].
    + destruct IH as (k & q & -> & Hk & Hq). exists (S k), q. split; [lia|done].
    + intros [|k] q Hk; simpl in Hk; [|by apply (IH k)]. injection Hk as <-. unfold live. lia.
Qed.
Lemma iget_empty_spec l i :
  match iget_empty l i with
  | Some j => exists k p, j = i + Z.of_nat k /\ l !! k = Some p /\ i_ref p = 0
  | None => forall k p, l !! k = Some p -> i_ref p <> 0
  end.
Proof.
  revert i. induction l as [|p l IH]; intros i; simpl; [done|]. destruct (Z.eqb_spec (i_ref p) 0) as [E|E].
  - exists O, p. split; [lia|done].
  - specialize (IH (i + 1)). destruct (iget_empty l (i + 1)) as [j|].
    + destruct IH as (k & q & -> & Hk & Hq). exists (S k), q. split; [lia|done].
    + intros [|k] q Hk; simpl in Hk; [congruence|by apply (IH k)].
Qed.

Lemma refs_live it i p dev inum : it_ok it -> it !! i = Some p -> live p dev inum -> refs it dev inum = i_ref p.
Proof.
  intros Hok Hi Hl. unfold refs. pose proof (iget_find_spec it 0 dev inum) as H.
  destruct (iget_find it 0 dev inum) as [j|]; [|by destruct (H i p Hi)].
  destruct H as (k & q & -> & Hk & Hq). rewrite Z.add_0_l, Nat2Z.id, Hk. simpl.
  rewrite (to_uniq _ Hok i k p q dev inum Hi Hk Hl Hq) in Hi. congruence.
Qed.
Lemma refs_none it dev inum : (forall i p, it !! i = Some p -> ~ live p dev inum) -> refs it dev inum = 0.
Proof.
  intros Hn. unfold refs. pose proof (iget_find_spec it 0 dev inum) as H.
  destruct (iget_find it 0 dev inum) as [j|]; [|done]. destruct H as (k & q & _ & Hk & Hq). by destruct (Hn k q Hk).
Qed.
Lemma refs_pos it dev inum : it_ok it -> 0 < refs it dev inum -> exists i p, it !! i = Some p /\ live p dev inum.
Proof.
  intros Hok Hp. unfold refs in Hp. pose proof (iget_find_spec it 0 dev inum) as H.
  destruct (iget_find it 0 dev inum) as [j|]; [|lia]. destruct H as (k & q & -> & Hk & Hq). by exists k, q.
Qed.

(** Changing the count of an entry changes the count of its inode only. *)
Lemma it_change it i p p' dev inum :
  it_ok it -> it !! i = Some p -> i_dev p' = dev -> i_inum p' = inum -> 0 <= i_ref p' ->
  (live p dev inum \/ i_ref p = 0 /\ forall j q, it !! j = Some q -> ~ live q dev inum) ->
  it_ok (<[i := p']> it) /\
  (forall d n, refs (<[i := p']> it) d n = if decide ((d, n) = (dev, inum)) then i_ref p' else refs it d n).
Proof.
  intros Hok Hi E1 E2 Hr Hor. pose proof (lookup_lt_Some _ _ _ Hi) as Hlt.
  assert (Hoth : forall j q d n, j <> i -> it !! j = Some q -> live q d n -> (d, n) <> (dev, inum)).
  { intros j q d n Hne Hj Hl [= -> ->]. destruct Hor as [Hp|[_ Hno]]; [|by apply (Hno j q Hj)].
    apply Hne. by apply (to_uniq _ Hok j i q p dev inum). }
  assert (Hok' : it_ok (<[i := p']> it)).
  { split.
    - intros j q Hj. destruct (decide (i = j)) as [<-|Hne].
      + rewrite list_lookup_insert_eq in Hj by done. congruence.
      + rewrite list_lookup_insert_ne in Hj by done. by eapply (to_ref _ Hok).
    - intros j k q q' d n Hj Hk Hq Hq'.
      destruct (decide (i = j)) as [<-|Hnj], (decide (i = k)) as [<-|Hnk]; [done|..].
      + rewrite list_lookup_insert_eq in Hj by done. rewrite list_lookup_insert_ne in Hk by done.
        destruct (Hoth k q' d n); try done. destruct Hq as (_ & <- & <-). congruence.
      + rewrite list_lookup_insert_eq in Hk by done. rewrite list_lookup_insert_ne in Hj by done.
        destruct (Hoth j q d n); try done. destruct Hq' as (_ & <- & <-). congruence.
      + rewrite list_lookup_insert_ne in Hj, Hk by done. by apply (to_uniq _ Hok j k q q' d n). }
  split; [done|]. intros d n. destruct (decide ((d, n) = (dev, inum))) as [[= -> ->]|Hne].
  - destruct (decide (0 < i_ref p')) as [Hpos|Hz].
    + apply (refs_live _ i p' dev inum); [done|by apply list_lookup_insert_eq|done].
    + rewrite refs_none; [lia|]. intros j q Hj Hl. destruct (decide (i = j)) as [<-|Hnj].
      * rewrite list_lookup_insert_eq in Hj by done. destruct Hl as [Hl _]. injection Hj as <-. lia.
      * rewrite list_lookup_insert_ne in Hj by done. by destruct (Hoth j q dev inum).
  - destruct (decide (0 < refs it d n)) as [Hpos|Hz].
    + destruct (refs_pos _ _ _ Hok Hpos) as (j & q & Hj & Hl).
      assert (j <> i). { intros ->. assert (q = p) as -> by congruence. destruct Hl as (Hx & <- & <-).
        destruct Hor as [(_ & <- & <-)|[H0 _]]; [done|lia]. }
      rewrite (refs_live _ j q d n Hok Hj Hl). apply (refs_live _ j q d n Hok'); [|done].
      by rewrite list_lookup_insert_ne.
    + assert (Hno : forall j q, it !! j = Some q -> ~ live q d n).
      { intros j q Hj Hl. apply Hz. rewrite (refs_live _ j q d n Hok Hj Hl). apply Hl. }
      rewrite (refs_none it) by done. apply refs_none. intros j q Hj Hl. destruct (decide (i = j)) as [<-|Hnj].
      * rewrite list_lookup_insert_eq in Hj by done. injection Hj as <-. destruct Hl as (_ & <- & <-). congruence.
      * rewrite list_lookup_insert_ne in Hj by done. by apply (Hno j q).
Qed.

Section FsInode.
Context `{HC : Ctx} `{HI : Image} `{HF : Frame} {S : Type} `{HT : Txn S} (D : Z) (rep : txabs -> S -> Prop)
  (loggable : Z -> Prop) `{HO : !TxnOk S D rep loggable} (sb : superblock) (Hlay : layout loggable sb).
Notation fsr := (fsr rep).
Notation bread_fs := (bread_fs D rep loggable).
Notation data_fs := (data_fs D rep loggable).
Notation brelse_fs := (brelse_fs D rep loggable).
Notation commit_buf_end := (commit_buf_end D rep loggable).

Lemma geti_fs a r ip p s : fsr a r s -> ino r ip p -> wp (geti ip) (fun q s' => q = p /\ fsr a r s') s.
Proof.
  intros Hs [H1 H2]. exists p, s. split; [|done]. unfold geti. rewrite (fsr_it _ _ _ _ Hs), H2.
  now destruct (Z.ltb_spec ip 0); [lia|].
Qed.

Lemma seti_fs a r ip p f s : fsr a r s -> ino r ip p -> wp (seti ip f) (fun _ => fsr a (upd_ino ip (f p) r)) s.
Proof.
  intros Hs Hi. unfold seti. apply wp_bind. wp_use geti_fs; [exact Hs|exact Hi|]. intros q s1 [-> H1].
  apply wp_modify. destruct H1 as [H1 <-]. split; [exact H1|done].
Qed.

Lemma on_ilock_fs {A} (m : M sleeplock A) a r ip p s x l' :
  fsr a r s -> ino r ip p -> m (i_lock p) = Done x l' ->
  wp (on_ilock ip m) (fun y s' => y = x /\ fsr a (upd_ino ip (ino_lock l' p) r) s') s.
Proof.
  intros Hs Hi Hm. unfold on_ilock. apply wp_bind. wp_use geti_fs; [exact Hs|exact Hi|]. intros q s1 [-> H1].
  apply wp_lift. exists x, l'. split; [exact Hm|]. split; [done|]. destruct H1 as [H1 <-]. split; [exact H1|done].
Qed.

(** The fields the other code relies on when the inode is locked. *)
Record ilocked (p : inode) : Prop := {
  il_held : sl_locked (i_lock p) = true;
  il_pid : sl_pid (i_lock p) = mypid;
  il_lk : unlocked (sl_lk (i_lock p));
  il_ref : 1 <= i_ref p;
  il_valid : i_valid p = true;
  il_dev : i_dev p = D;
  il_inum : 0 <= i_inum p < sb_ninodes sb
}.

Lemma is_ino_at inum : 0 <= inum < sb_ninodes sb -> is_ino sb (IBLOCK inum sb).
Proof. intros H. by exists inum. Qed.

(** [iupdate] writes the inode to its slot. *)
Lemma iupdate_fs V L h ip p r s :
  fsr (Tx V L h []) r s -> r_sb r = sb -> ino r ip p -> i_dev p = D -> 0 <= i_inum p < sb_ninodes sb ->
  IBLOCK (i_inum p) sb ∉ h.*2 -> Z.of_nat (length L + length h) < LOGSIZE - 1 ->
  wp (iupdate ip) (fun _ => fsr (Tx (<[IBLOCK (i_inum p) sb :=
        store_dinode (di_off (i_inum p)) p (V (IBLOCK (i_inum p) sb))]> V)
      (log_add (IBLOCK (i_inum p) sb) L) h []) r) s.
Proof.
  intros Hs Hsb Hi Hd Hn Hh Hl. unfold iupdate. apply wp_bind. wp_use geti_fs; [exact Hs|exact Hi|].
  intros q s1 [-> H1]. apply wp_bind, wp_gets. rewrite (fsr_sb _ _ _ _ H1), Hsb, Hd.
  destruct (lo_ino _ _ Hlay _ (is_ino_at _ Hn)) as [Hlg Hrg]. apply wp_bind.
  wp_use bread_fs; [exact H1|done|done|right; unfold NBUF, LOGSIZE, MAXOPBLOCKS in *; lia|].
  intros i s2 H2. apply wp_bind. wp_use data_fs; [exact H2|left|]. intros d s3 [-> H3].
  eapply commit_buf_end; [exact H3|done|lia|auto].
Qed.

(** [ilock] of an inode nobody has locked: the lock is taken, and the fields
    are read from the disk unless they were read before. *)
Definition locked_ino (V : Z -> block) (p : inode) : inode :=
  let q := ino_lock (Sleeplock true (sl_lk (i_lock p)) (sl_name (i_lock p)) mypid) p in
  if i_valid p then q else ino_valid true (dinode_at sb V (i_inum p) q).

Lemma ilock_fs V L h ip p r s :
  fsr (Tx V L h []) r s -> r_sb r = sb -> ino r ip p -> i_dev p = D -> 0 <= i_inum p < sb_ninodes sb ->
  1 <= i_ref p -> sl_locked (i_lock p) = false -> unlocked (sl_lk (i_lock p)) ->
  IBLOCK (i_inum p) sb ∉ h.*2 -> Z.of_nat (length L + length h) < NBUF -> i_type (locked_ino V p) <> 0 ->
  wp (ilock ip) (fun _ => fsr (Tx V L h []) (upd_ino ip (locked_ino V p) r)) s.
Proof.
  intros Hs Hsb Hi Hd Hn Hr Hlk Hu Hh Hl Hty. unfold ilock. apply wp_bind. wp_use geti_fs; [exact Hs|exact Hi|].
  intros q s1 [-> H1]. apply wp_bind, wp_panic_if; [lia|]. apply wp_bind.
  wp_use on_ilock_fs; [exact H1|exact Hi|by apply acquiresleep_free|]. intros [] s2 [_ H2]. apply wp_bind.
  wp_use geti_fs; [exact H2|by eapply ino_upd|]. intros q s3 [-> H3]. cbn [i_valid ino_lock]. unfold locked_ino in *.
  destruct (i_valid p) eqn:Ev; [apply wp_ret; exact H3|].
  apply wp_bind, wp_gets. rewrite (fsr_sb _ _ _ _ H3). cbn [r_sb upd_ino set_rit i_dev i_inum ino_lock]. rewrite Hsb, Hd.
  destruct (lo_ino _ _ Hlay _ (is_ino_at _ Hn)) as [_ Hrg]. apply wp_bind.
  wp_use bread_fs; [exact H3|done|done|by right|]. intros i s4 H4. apply wp_bind.
  wp_use data_fs; [exact H4|left|]. intros d s5 [-> H5]. apply wp_bind.
  wp_use seti_fs; [exact H5|by eapply ino_upd|]. intros [] s6 H6. rewrite upd_ino_upd in H6. apply wp_bind.
  wp_use brelse_fs; [exact H6|apply not_elem_of_nil|]. intros [] s7 H7. apply wp_bind.
  wp_use seti_fs; [exact H7|by eapply ino_upd|]. intros [] s8 H8. rewrite upd_ino_upd in H8. apply wp_bind.
  wp_use geti_fs; [exact H8|by eapply ino_upd|]. intros q s9 [-> H9].
  apply wp_panic_if; [|exact H9]. by apply Z.eqb_neq.
Qed.

Lemma iunlock_fs a ip p r s :
  fsr a r s -> ino r ip p -> ilocked p ->
  wp (iunlock ip) (fun _ => fsr a (upd_ino ip (ino_lock (Sleeplock false (sl_lk (i_lock p)) (sl_name (i_lock p)) 0) p) r)) s.
Proof.
  intros Hs Hi [L1 L2 L3 L4 _ _ _]. unfold iunlock. apply wp_bind. wp_use geti_fs; [exact Hs|exact Hi|].
  intros q s1 [-> H1]. apply wp_bind. wp_use on_ilock_fs; [exact H1|exact Hi|by apply holdingsleep_spec|].
  intros b s2 [-> H2]. rewrite L1, L2, Z.eqb_refl. apply wp_bind, wp_panic_if; [simpl; lia|].
  wp_use on_ilock_fs; [exact H2|by eapply ino_upd|by apply releasesleep_spec|].
  intros [] s3 [_ H3]. rewrite upd_ino_upd in H3. exact H3.
Qed.

Lemma acq_it a r s : fsr a r s -> unlocked (r_itlock r) ->
  wp (acquire it_lens) (fun _ => fsr a (set_ritlock (held (r_itlock r)) r)) s.
Proof.
  intros [H1 <-] Hu. eexists tt, _. split; [apply (acquire_free it_lens), Hu|]. split; [exact H1|done].
Qed.
Lemma rel_it a r lk s : fsr a r s -> r_itlock r = held lk -> unlocked lk ->
  wp (release it_lens) (fun _ => fsr a (set_ritlock lk r)) s.
Proof.
  intros [H1 <-] Hh Hu. eexists tt, _. split; [by apply (release_held it_lens)|]. split; [exact H1|done].
Qed.

(** The entry [iget] returns in a table that has room. *)
Definition iget_entry (r : fsrest) (dev inum ip : Z) (p p' : inode) : Prop :=
  ino r ip p /\ i_dev p' = dev /\ i_inum p' = inum /\ i_lock p' = i_lock p /\ i_ref p' = refs (r_it r) dev inum + 1 /\
  (live p dev inum /\ p' = ino_ref (i_ref p + 1) p \/
   i_ref p = 0 /\ refs (r_it r) dev inum = 0 /\ i_valid p' = false).

Lemma iget_fs a r dev inum s :
  fsr a r s -> unlocked (r_itlock r) -> it_ok (r_it r) ->
  0 < refs (r_it r) dev inum \/ (exists i p, r_it r !! i = Some p /\ i_ref p = 0) ->
  wp (iget dev inum) (fun ip s' => exists p p', iget_entry r dev inum ip p p' /\ fsr a (upd_ino ip p' r) s' /\
    it_ok (r_it (upd_ino ip p' r)) /\
    forall d n, refs (r_it (upd_ino ip p' r)) d n =
      refs (r_it r) d n + if decide ((d, n) = (dev, inum)) then 1 else 0) s.
Proof.
  intros Hs Hu Hok Hroom. unfold iget. apply wp_bind. wp_use acq_it; [exact Hs|exact Hu|]. intros [] s1 H1.
  apply wp_bind, wp_gets. rewrite (fsr_it _ _ _ _ H1). cbn [r_it set_ritlock].
  pose proof (iget_find_spec (r_it r) 0 dev inum) as Hfind.
  assert (Hend : forall ip (p p' : inode) f, f p = p' -> ino r ip p -> i_dev p' = dev -> i_inum p' = inum ->
    i_lock p' = i_lock p -> i_ref p' = refs (r_it r) dev inum + 1 -> 0 <= refs (r_it r) dev inum ->
    (live p dev inum /\ p' = ino_ref (i_ref p + 1) p \/
     i_ref p = 0 /\ refs (r_it r) dev inum = 0 /\ i_valid p' = false) ->
    (live p dev inum \/ i_ref p = 0 /\ forall j q, r_it r !! j = Some q -> ~ live q dev inum) ->
    wp (seti ip f ;;; release it_lens ;;; ret ip) (fun ip s' => exists p p', iget_entry r dev inum ip p p' /\ fsr a (upd_ino ip p' r) s' /\
    it_ok (r_it (upd_ino ip p' r)) /\ forall d n, refs (r_it (upd_ino ip p' r)) d n =
      refs (r_it r) d n + if decide ((d, n) = (dev, inum)) then 1 else 0) s1).
  { intros ip p p' f Hf Hi E1 E2 E3 E4 E5 E6 E7. apply wp_bind. wp_use seti_fs; [exact H1|exact Hi|].
    intros [] s2 H2. rewrite Hf in H2. apply wp_bind. wp_use (rel_it _ _ (r_itlock r)); [exact H2|done|done|]. intros [] s3 H3.
    apply wp_ret. exists p, p'. split; [done|]. split; [exact H3|].
    destruct (it_change (r_it r) (Z.to_nat ip) p p' dev inum Hok (proj2 Hi) E1 E2 ltac:(lia) E7) as [C1 C2].
    split; [exact C1|]. intros d n. cbn [r_it upd_ino set_rit]. rewrite C2. destruct (decide _) as [[= -> ->]|]; lia. }
  destruct (iget_find (r_it r) 0 dev inum) as [ip|] eqn:Ef.
  - destruct Hfind as (k & p & -> & Hk & Hl). rewrite Z.add_0_l.
    assert (Hi : ino r (Z.of_nat k) p) by (split; [lia|now rewrite Nat2Z.id]).
    pose proof (refs_live _ _ _ _ _ Hok Hk Hl) as Hr. pose proof Hl as (L1 & L2 & L3).
    apply (Hend (Z.of_nat k) p (ino_ref (i_ref p + 1) p)); try done; [cbn; lia|lia|by left|by left].
  - assert (Hz : refs (r_it r) dev inum = 0) by (apply refs_none; exact Hfind).
    pose proof (iget_empty_spec (r_it r) 0) as He. destruct (iget_empty (r_it r) 0) as [ip|].
    + destruct He as (k & p & -> & Hk & Hl). rewrite Z.add_0_l.
      assert (Hi : ino r (Z.of_nat k) p) by (split; [lia|now rewrite Nat2Z.id]).
      eapply (Hend (Z.of_nat k) p); try done; try reflexivity; [cbn; lia|lia|right; done|right; done].
    + exfalso. destruct Hroom as [?|(i & p & Hi & Hp)]; [lia|]. by apply (He i p).
Qed.

Lemma idup_fs a r ip p s :
  fsr a r s -> unlocked (r_itlock r) -> ino r ip p ->
  wp (idup ip) (fun q s' => q = ip /\ fsr a (upd_ino ip (ino_ref (i_ref p + 1) p) r) s') s.
Proof.
  intros Hs Hu Hi. unfold idup. apply wp_bind. wp_use acq_it; [exact Hs|exact Hu|]. intros [] s1 H1.
  apply wp_bind. wp_use seti_fs; [exact H1|exact Hi|]. intros [] s2 H2. apply wp_bind.
  wp_use (rel_it _ _ (r_itlock r)); [exact H2|done|done|]. intros [] s3 H3. apply wp_ret. split; [done|exact H3].
Qed.

(** [iput] of an inode that is still referenced or linked. *)
Lemma iput_fs a r ip p s :
  fsr a r s -> unlocked (r_itlock r) -> ino r ip p -> i_ref p <> 1 \/ i_valid p = false \/ i_nlink p <> 0 ->
  wp (iput ip) (fun _ => fsr a (upd_ino ip (ino_ref (i_ref p - 1) p) r)) s.
Proof.
  intros Hs Hu Hi Hor. unfold iput. apply wp_bind. wp_use acq_it; [exact Hs|exact Hu|]. intros [] s1 H1.
  apply wp_bind. wp_use geti_fs; [exact H1|exact Hi|]. intros q s2 [-> H2].
  apply wp_bind, wp_when; [intros E; exfalso; destruct (i_valid p), Hor as [?|[?|?]]; lia|]. intros _.
  apply wp_bind. wp_use seti_fs; [exact H2|exact Hi|]. intros [] s3 H3.
  wp_use (rel_it _ _ (r_itlock r)); [exact H3|done|done|]. intros [] s4 H4. exact H4.
Qed.

(** [iget] counts one more reference to the inode and to no other: it
    finds the entry of an inode that is in the table, and otherwise takes an
    entry nobody refers to, to be filled by [ilock].  No inode ever has two
    entries. *)
Theorem iget_correct a r dev inum s :
  fsr a r s -> unlocked (r_itlock r) -> it_ok (r_it r) ->
  0 < refs (r_it r) dev inum \/ (exists i p, r_it r !! i = Some p /\ i_ref p = 0) ->
  wp (iget dev inum) (fun ip s' => exists p p', iget_entry r dev inum ip p p' /\ fsr a (upd_ino ip p' r) s' /\
    it_ok (r_it (upd_ino ip p' r)) /\
    forall d n, refs (r_it (upd_ino ip p' r)) d n =
      refs (r_it r) d n + if decide ((d, n) = (dev, inum)) then 1 else 0) s.
Proof. apply iget_fs. Qed.

End FsInode.
