(* ===== verification/FsFile.v ===== *)
(** * File contents of kernel/fs.c: bmap, readi, writei

    A file is the sequence of bytes its block map leads to; a block that is not
    mapped counts as zeros.  [readi] delivers a range of it, [writei] replaces
    or appends a range and allocates the blocks it needs. *)

From S2P Require Import Prelude Memory Riscv Spinlock Kalloc Vm VmWalk VmUser VmCopy Bio Log Txn Fs FsBlock FsInode.

(** ** The block map *)

(** Address of block [k] of the file, 0 when there is none. *)
Definition fblk (V : Z -> block) (p : inode) (k : Z) : Z :=
  if k <? NDIRECT then geta p k
  else if geta p NDIRECT =? 0 then 0 else get32 (V (geta p NDIRECT)) (4 * (k - NDIRECT)).
Definition fbyte (V : Z -> block) (p : inode) (o : Z) : Z :=
  if fblk V p (o / BSIZE) =? 0 then 0 else get8 (V (fblk V p (o / BSIZE))) (o mod BSIZE).
(** The bytes of the file from [off] on. *)
Definition fbytes (V : Z -> block) (p : inode) (off n : Z) : list Z := (fun k => fbyte V p (off + k)) <$> upto n.

Definition blkno (k : Z) : Prop := 0 <= k < MAXFILE.
(** Blocks that belong to the file. *)
Definition owned (V : Z -> block) (p : inode) (b : Z) : Prop :=
  b <> 0 /\ ((exists k, blkno k /\ fblk V p k = b) \/ b = geta p NDIRECT).

Section FsFile.
Context `{HC : Ctx} `{HI : Image} `{HF : Frame} {S : Type} `{HT : Txn S} (D : Z) (rep : txabs -> S -> Prop)
  (loggable : Z -> Prop) `{HO : !TxnOk S D rep loggable} (sb : superblock) (Hlay : layout loggable sb).
Notation fsr := (fsr rep).
Notation bread_fs := (bread_fs D rep loggable).
Notation data_fs := (data_fs D rep loggable).
Notation brelse_fs := (brelse_fs D rep loggable).
Notation bit := (bit sb).
Notation data := (data loggable sb).
Notation fs_ok := (fs_ok loggable sb).

Record file_ok (V : Z -> block) (p : inode) : Prop := {
  fk_owned : forall b, owned V p b -> data b /\ 0 <= b < sb_size sb /\ bit V b = true;
  fk_inj : forall j k, blkno j -> blkno k -> fblk V p j = fblk V p k -> fblk V p j <> 0 -> j = k;
  fk_ind : forall k, blkno k -> fblk V p k <> 0 -> fblk V p k <> geta p NDIRECT;
  fk_map : forall k, 0 <= k -> k * BSIZE < i_size p -> fblk V p k <> 0;
  fk_size : 0 <= i_size p <= MAXFILE * BSIZE
}.

(** [bmap] of a block that is there. *)
Lemma bmap_mapped V L h ip p k r s :
  fsr (Tx V L h []) r s -> ino r ip p -> i_dev p = D -> file_ok V p -> blkno k -> fblk V p k <> 0 ->
  geta p NDIRECT ∉ h.*2 -> Z.of_nat (length L + length h) < NBUF ->
  wp (bmap ip k) (fun a s' => a = fblk V p k /\ fsr (Tx V L h []) r s') s.
Proof.
  intros Hs Hi Hd Hf Hk Hne Hh Hl. unfold bmap. apply wp_bind. wp_use geti_fs; [exact Hs|exact Hi|].
  intros q s1 [-> H1]. unfold fblk in *. destruct (Z.ltb_spec k NDIRECT) as [Hlt|Hge].
  - destruct (Z.eqb_spec (geta p k) 0); [done|]. by apply wp_ret.
  - destruct (Z.eqb_spec (geta p NDIRECT) 0) as [|Hn0]; [done|].
    assert (Hb : 0 <= geta p NDIRECT < 2 ^ 31).
    { destruct (fk_owned _ _ Hf (geta p NDIRECT)) as ((_ & Hr & _) & _); [split; [done|by right]|lia]. }
    cbv zeta. replace (k - NDIRECT <? NINDIRECT) with true by (unfold blkno, MAXFILE in Hk; lia).
    apply wp_bind, wp_ret. destruct (Z.eqb_spec (geta p NDIRECT) 0); [done|]. rewrite Hd.
    apply wp_bind. wp_use bread_fs; [exact H1|done|done|by right|]. intros i s2 H2. apply wp_bind.
    wp_use data_fs; [exact H2|left|]. intros d s3 [-> H3].
    destruct (Z.eqb_spec (get32 (V (geta p NDIRECT)) (4 * (k - NDIRECT))) 0); [done|].
    apply wp_bind, wp_ret. apply wp_bind. wp_use brelse_fs; [exact H3|apply not_elem_of_nil|]. intros [] s4 H4.
    apply wp_ret. done.
Qed.

(** ** readi *)

Lemma BSIZE_pos : 0 < BSIZE.
Proof. done. Qed.
Lemma upto_app n m : 0 <= n -> 0 <= m -> upto (n + m) = upto n ++ ((fun k => n + k) <$> upto m).
Proof.
  intros Hn Hm. unfold upto. rewrite Z2Nat.inj_add, seq_app, fmap_app by done. f_equal.
  rewrite <- list_fmap_compose, <- (fmap_add_seq _ 0 _), <- list_fmap_compose || idtac.
  apply list_eq. intros i. rewrite !list_lookup_fmap. destruct (decide (i < Z.to_nat m)%nat) as [Hi|Hi].
  - rewrite !lookup_seq_lt by done. simpl. f_equal. lia.
  - now rewrite !lookup_seq_ge by lia.
Qed.

Lemma fbytes_app V p off n m : 0 <= n -> 0 <= m -> fbytes V p off (n + m) = fbytes V p off n ++ fbytes V p (off + n) m.
Proof.
  intros Hn Hm. unfold fbytes. rewrite upto_app, fmap_app, <- list_fmap_compose by done. f_equal.
  apply list_fmap_ext. intros i x _. simpl. f_equal. lia.
Qed.
Lemma length_fbytes V p off n : 0 <= n -> Z.of_nat (length (fbytes V p off n)) = n.
Proof. intros. unfold fbytes. rewrite length_fmap, length_upto. lia. Qed.

(** Part of one block. *)
Lemma slice_fbytes V p off m :
  0 <= off -> 0 <= m -> off mod BSIZE + m <= BSIZE -> fblk V p (off / BSIZE) <> 0 ->
  slice (V (fblk V p (off / BSIZE))) (off mod BSIZE) m = fbytes V p off m.
Proof.
  intros Ho Hm Hb Hne. unfold slice, fbytes. apply list_fmap_ext. intros i k Hk.
  apply list_elem_of_lookup_2, elem_upto in Hk. unfold fbyte.
  pose proof (Z.mod_pos_bound off BSIZE BSIZE_pos). pose proof (Z.div_mod off BSIZE ltac:(done)).
  assert (E : (off + k) / BSIZE = off / BSIZE /\ (off + k) mod BSIZE = off mod BSIZE + k).
  { destruct (Z.div_mod_unique BSIZE ((off + k) / BSIZE) (off / BSIZE) ((off + k) mod BSIZE) (off mod BSIZE + k)); [..|done].
    - left. apply Z.mod_pos_bound. done.
    - lia.
    - pose proof (Z.div_mod (off + k) BSIZE ltac:(done)). lia. }
  destruct E as [-> ->]. now destruct (Z.eqb_spec (fblk V p (off / BSIZE)) 0).
Qed.

(** A destination that accepts [N] bytes: [W done k] says that [done] has been
    delivered. *)
Definition sink (pt : Z) (user : bool) (dst N : Z) (W : list Z -> kst -> Prop) : Prop :=
  forall done bs k, W done k -> Z.of_nat (length done + length bs) <= N ->
    exists k', either_copyout pt user (u64 (dst + Z.of_nat (length done))) bs k = Done 0 k' /\ W (done ++ bs) k'.

Definition set_rk (k : kst) (r : fsrest) : fsrest := Rest (r_sb r) (r_itlock r) (r_it r) k (r_pt r) (r_cwd r).

Lemma copyout_fs a r user dst bs s k' x :
  fsr a r s -> either_copyout (r_pt r) user dst bs (r_k r) = Done x k' ->
  wp (copyout_ user dst bs) (fun y s' => y = x /\ fsr a (set_rk k' r) s') s.
Proof.
  intros [H1 <-] H. unfold copyout_. apply wp_bind, wp_gets, wp_lift. exists x, k'. split; [exact H|].
  split; [done|]. split; [exact H1|done].
Qed.

Lemma block_step off m n tot :
  0 <= off -> 0 <= tot < n -> m = Z.min (n - tot) (BSIZE - off mod BSIZE) ->
  0 < m /\ off mod BSIZE + m <= BSIZE /\ tot + m <= n /\ (tot + m = n \/ (off + m) / BSIZE = off / BSIZE + 1).
Proof.
  intros Ho Ht ->. pose proof (Z.mod_pos_bound off BSIZE BSIZE_pos). split; [lia|]. split; [lia|]. split; [lia|].
  destruct (Z.min_spec (n - tot) (BSIZE - off mod BSIZE)) as [[_ ->]|[_ ->]]; [left; lia|right].
  pose proof (Z.div_mod off BSIZE ltac:(done)).
  replace (off + (BSIZE - off mod BSIZE)) with ((off / BSIZE + 1) * BSIZE) by lia. now apply Z.div_mul.
Qed.

Lemma block_same off m o :
  0 <= off -> off mod BSIZE + m <= BSIZE -> off <= o < off + m -> o / BSIZE = off / BSIZE.
Proof.
  intros Ho Hm Hx. pose proof (Z.div_mod off BSIZE ltac:(done)) as Q. pose proof (Z.mod_pos_bound off BSIZE BSIZE_pos).
  symmetry. apply (Z.div_unique_pos o BSIZE (off / BSIZE) (off mod BSIZE + (o - off))); lia.
Qed.

Lemma readi_loop_fs fuel V L ip p user dst off0 n tot W r s :
  fsr (Tx V L [] []) r s -> ino r ip p -> i_dev p = D -> file_ok V p ->
  Z.of_nat (length L) + 1 < NBUF -> 0 <= off0 -> off0 + n <= i_size p -> 0 <= tot <= n -> 0 <= dst < 2 ^ 64 ->
  sink (r_pt r) user dst n W -> W (fbytes V p off0 tot) (r_k r) ->
  (tot < n -> (off0 + n) / BSIZE - (off0 + tot) / BSIZE + 2 <= Z.of_nat fuel) -> (0 < fuel)%nat ->
  wp (readi_loop fuel ip user (u64 (dst + tot)) (off0 + tot) n tot)
    (fun t s' => t = n /\ exists k', W (fbytes V p off0 n) k' /\ fsr (Tx V L [] []) (set_rk k' r) s') s.
Proof.
  intros Hs Hi Hd Hf Hl Ho Hsz Ht Hdst Hsink. revert tot r s Hs Hi Ht Hsink.
  induction fuel as [|fuel IH]; intros tot r s Hs Hi Ht Hsink HW Hfuel Hpos; [lia|].
  cbn [readi_loop]. destruct (Z.ltb_spec tot n) as [Hlt|Hge].
  2:{ apply wp_ret. assert (tot = n) as -> by lia. split; [done|]. exists (r_k r). split; [done|]. by destruct r. }
  pose proof (fk_size _ _ Hf) as Hmax. assert (H32 : MAXFILE * BSIZE < 2 ^ 32) by done.
  set (off := off0 + tot) in *. pose proof (Z.div_pos off BSIZE ltac:(lia) BSIZE_pos) as P1.
  pose proof (Z.mod_pos_bound off BSIZE BSIZE_pos) as P2. pose proof (Z.div_mod off BSIZE ltac:(done)) as P3.
  assert (Hm : fblk V p (off / BSIZE) <> 0) by (apply (fk_map _ _ Hf); lia).
  assert (Hk : blkno (off / BSIZE)) by (split; [lia|]; apply Z.div_lt_upper_bound; lia).
  apply wp_bind. wp_use bmap_mapped; [exact Hs|exact Hi|done|done|done|done|apply not_elem_of_nil|simpl; lia|].
  intros a s1 [-> H1]. destruct (Z.eqb_spec (fblk V p (off / BSIZE)) 0); [done|].
  apply wp_bind. wp_use geti_fs; [exact H1|exact Hi|]. intros q s2 [-> H2]. rewrite Hd.
  assert (Hr : 0 <= fblk V p (off / BSIZE) < 2 ^ 31).
  { destruct (fk_owned _ _ Hf (fblk V p (off / BSIZE))) as ((_ & Hx & _) & _); [split; [done|left; by eexists]|lia]. }
  apply wp_bind. wp_use bread_fs; [exact H2|done|apply not_elem_of_nil|right; simpl; lia|]. intros i s3 H3. apply wp_bind.
  wp_use data_fs; [exact H3|left|]. intros d s4 [-> H4]. cbv zeta. set (m := Z.min _ _).
  destruct (block_step off m n tot ltac:(lia) ltac:(lia) eq_refl) as (B1 & B2 & B3 & B4).
  rewrite slice_fbytes by (done || lia).
  destruct (Hsink (fbytes V p off0 tot) (fbytes V p off m) (r_k r) HW) as (k' & C1 & C2).
  { rewrite Nat2Z.inj_add, !length_fbytes by lia. lia. }
  rewrite length_fbytes in C1 by lia. apply wp_bind. wp_use copyout_fs; [exact H4|exact C1|]. intros x s5 [-> H5].
  change (0 =? -1) with false. cbv iota. apply wp_bind. wp_use brelse_fs; [exact H5|apply not_elem_of_nil|]. intros [] s6 H6.
  assert (E1 : u64 (u64 (dst + tot) + m) = u64 (dst + (tot + m))).
  { unfold u64. rewrite Zplus_mod_idemp_l. f_equal. lia. }
  rewrite E1, !u32_small by lia. replace (off + m) with (off0 + (tot + m)) by (subst off; lia).
  wp_use (IH (tot + m) (set_rk k' r)); [exact H6|exact Hi|lia|exact Hsink| | | |].
  - rewrite fbytes_app by lia. exact C2.
  - intros Hlt2. destruct B4 as [B4|B4]; [lia|].
    replace (off0 + (tot + m)) with (off + m) by (subst off; lia). rewrite B4. specialize (Hfuel Hlt). lia.
  - specialize (Hfuel Hlt). pose proof (Z.div_le_mono off (off0 + n) BSIZE BSIZE_pos ltac:(lia)). lia.
  - intros t s7 (-> & k2 & K1 & K2). split; [done|]. exists k2. split; [done|]. exact K2.
Qed.

(** How many bytes [readi] delivers. *)
Definition readi_len (p : inode) (off n : Z) : Z :=
  if (i_size p <? off) || (2 ^ 32 <=? off + n) then 0 else Z.min n (i_size p - off).

Lemma u32_overflow off n : 0 <= off < 2 ^ 32 -> 0 <= n < 2 ^ 32 -> (u32 (off + n) <? off) = (2 ^ 32 <=? off + n).
Proof.
  intros H1 H2. unfold u32. destruct (Z.leb_spec (2 ^ 32) (off + n)).
  - replace ((off + n) mod 2 ^ 32) with (off + n - 2 ^ 32); [lia|].
    symmetry. rewrite <- (Z.mod_small (off + n - 2 ^ 32) (2 ^ 32)) by lia.
    rewrite <- (Z.mod_add (off + n - 2 ^ 32) 1 (2 ^ 32)) by lia. f_equal. lia.
  - rewrite Z.mod_small by lia. lia.
Qed.

Lemma readi_fs V L ip p user dst off n W r s :
  fsr (Tx V L [] []) r s -> ino r ip p -> i_dev p = D -> file_ok V p -> Z.of_nat (length L) + 1 < NBUF ->
  0 <= off < 2 ^ 32 -> 0 <= n < 2 ^ 32 -> 0 <= dst < 2 ^ 64 ->
  sink (r_pt r) user dst (readi_len p off n) W -> W [] (r_k r) ->
  wp (readi ip user dst off n) (fun t s' => t = readi_len p off n /\
    exists k', W (fbytes V p off (readi_len p off n)) k' /\ fsr (Tx V L [] []) (set_rk k' r) s') s.
Proof.
  intros Hs Hi Hd Hf Hl Ho Hn Hdst Hsink HW. unfold readi. apply wp_bind. wp_use geti_fs; [exact Hs|exact Hi|].
  intros q s1 [-> H1]. rewrite u32_overflow by done. unfold readi_len in *.
  destruct ((i_size p <? off) || (2 ^ 32 <=? off + n)) eqn:E.
  { apply wp_ret. split; [done|]. exists (r_k r). split; [done|]. by destruct r. }
  apply orb_false_iff in E as [E1 E2]. pose proof (fk_size _ _ Hf) as Hmax.
  assert (H32 : MAXFILE * BSIZE < 2 ^ 31) by done. rewrite u32_small by lia.
  assert (En : (if i_size p <? off + n then i_size p - off else n) = Z.min n (i_size p - off)).
  { destruct (Z.ltb_spec (i_size p) (off + n)); lia. }
  cbv zeta. rewrite En. set (c := Z.min n (i_size p - off)) in *.
  apply wp_bind. rewrite <- (Z.add_0_r off), <- (u64_small dst) by lia. rewrite <- (Z.add_0_r dst).
  pose proof (Z.div_pos c BSIZE ltac:(lia) BSIZE_pos) as Hc.
  wp_use (readi_loop_fs _ V L ip p user dst off c 0 W r); try done; try lia.
  - intros _. rewrite Z2Nat.id by lia. rewrite Z.add_0_r.
    pose proof (Z.div_mod off BSIZE ltac:(done)) as Q1. pose proof (Z.mod_pos_bound off BSIZE BSIZE_pos) as Q2.
    pose proof (Z.div_mod c BSIZE ltac:(done)) as Q3. pose proof (Z.mod_pos_bound c BSIZE BSIZE_pos) as Q4.
    assert ((off + c) / BSIZE < off / BSIZE + c / BSIZE + 2); [|lia]. apply Z.div_lt_upper_bound; [done|]. lia.
  - intros t s2 (-> & k' & K1 & K2). apply wp_ret. split; [apply i32_small; lia|]. exists k'.
    rewrite Z.add_0_r. done.
Qed.

(** Kernel memory as a destination. *)
Lemma sink_kernel pt dst N k0 : 0 <= dst -> dst + N < 2 ^ 64 ->
  sink pt false dst N (fun done k => k = set_mem (write_bytes (k_mem k0) dst done) k0).
Proof.
  intros H0 HN done bs k -> Hl. rewrite u64_small by lia. unfold either_copyout.
  eexists. split; [reflexivity|]. unfold set_mem. cbn. f_equal. now rewrite write_bytes_app.
Qed.

(** ** Growing a file *)

(** The file of [p] in [V] has become that of [p'] in [V'], with the contents
    [f]: blocks may have been added; nothing else in use has changed but the
    free map. *)
Record changes (V : Z -> block) (p : inode) (V' : Z -> block) (p' : inode) (f : Z -> Z) : Prop := {
  ex_fs : fs_ok V';
  ex_file : file_ok V' p';
  ex_meta : exists l, length l = length (i_addrs p) /\ Forall (fun a => 0 <= a < 2 ^ 32) l /\ p' =
    Inode (i_dev p) (i_inum p) (i_ref p) (i_lock p) (i_valid p) (i_type p) (i_major p) (i_minor p)
      (i_nlink p) (i_size p) l;
  ex_bytes : forall o, 0 <= o < MAXFILE * BSIZE -> fbyte V' p' o = f o;
  ex_blk : forall k, blkno k -> fblk V p k <> 0 -> fblk V' p' k = fblk V p k;
  ex_own : forall b, owned V' p' b -> owned V p b \/ 0 <= b < sb_size sb /\ bit V b = false;
  ex_bits : forall b, 0 <= b < sb_size sb -> bit V b = true -> bit V' b = true;
  ex_frame : forall b, 0 <= b < sb_size sb -> bit V b = true -> ~ is_bmap sb b -> ~ owned V p b -> V' b = V b;
  ex_ino : forall b, is_ino sb b -> V' b = V b
}.

(** Only blocks of zeros have been added. *)
Notation extends V p V' p' := (changes V p V' p' (fbyte V p)).

Lemma extends_refl V p : fs_ok V -> file_ok V p -> Forall (fun a => 0 <= a < 2 ^ 32) (i_addrs p) -> extends V p V p.
Proof.
  intros H1 H2 H3. split; try done; [|by left]. exists (i_addrs p). split; [done|]. split; [done|]. by destruct p.
Qed.

Lemma changes_trans V p V1 p1 V2 p2 f g : changes V p V1 p1 f -> changes V1 p1 V2 p2 g -> changes V p V2 p2 g.
Proof.
  intros [A1 A2 (l1 & A3 & A3' & ->) A4 A5 A6 A7 A8 A9] [B1 B2 (l2 & B3 & B3' & ->) B4 B5 B6 B7 B8 B9]. split; try done.
  - exists l2. split; [cbn in B3; congruence|]. split; done.
  - intros k Hk Hne. rewrite B5, A5; try done. now rewrite A5.
  - intros b [Hb|[Hr Hb]]%B6; [by apply A6|]. right. split; [done|]. destruct (bit V b) eqn:E; [|done].
    rewrite A7 in Hb by done. done.
  - intros b Hb Hx. apply B7; [done|]. by apply A7.
  - intros b Hb Hx Hm Hn. rewrite B8; [by apply A8|done|by apply A7|done|].
    intros [Ho|[_ Ho]]%A6; [done|congruence].
  - intros b Hb. rewrite B9 by done. by apply A9.
Qed.

Lemma changes_ext V p V' p' f g :
  (forall o, 0 <= o < MAXFILE * BSIZE -> f o = g o) -> changes V p V' p' f -> changes V p V' p' g.
Proof. intros E [A1 A2 A3 A4 A5 A6 A7 A8 A9]. split; try done. intros o Ho. rewrite A4 by done. by apply E. Qed.

Lemma extends_trans V p V1 p1 V2 p2 : extends V p V1 p1 -> extends V1 p1 V2 p2 -> extends V p V2 p2.
Proof.
  intros H1 H2. eapply changes_ext; [|by eapply changes_trans]. apply (ex_bytes _ _ _ _ _ H1).
Qed.

Lemma fblk_byte V p V' p' o :
  0 <= o < MAXFILE * BSIZE ->
  (fblk V p (o / BSIZE) = 0 -> fblk V' p' (o / BSIZE) <> 0 -> V' (fblk V' p' (o / BSIZE)) = zero_block) ->
  (fblk V p (o / BSIZE) <> 0 -> fblk V' p' (o / BSIZE) = fblk V p (o / BSIZE) /\
     V' (fblk V p (o / BSIZE)) = V (fblk V p (o / BSIZE))) ->
  fbyte V' p' o = fbyte V p o.
Proof.
  intros Ho H1 H2. unfold fbyte. destruct (Z.eqb_spec (fblk V p (o / BSIZE)) 0) as [E|E].
  - destruct (Z.eqb_spec (fblk V' p' (o / BSIZE)) 0) as [|E2]; [done|]. rewrite H1 by done.
    unfold get8, zero_block. rewrite nth_lookup.
    destruct (_ !! _) eqn:E3; [by apply lookup_replicate in E3 as [-> _]|done].
  - destruct (H2 E) as [-> ->]. now destruct (Z.eqb_spec (fblk V p (o / BSIZE)) 0).
Qed.

Lemma blkno_div o : 0 <= o < MAXFILE * BSIZE -> blkno (o / BSIZE).
Proof. intros Ho. split; [apply Z.div_pos; [lia|done]|]. apply Z.div_lt_upper_bound; [done|lia]. Qed.

(** One block [a] added, as block [k] of the file or as its indirect block. *)
Section ExtendOne.
Context (V V' : Z -> block) (p p' : inode) (a k : Z) (l : list Z).
Context (Hfs : fs_ok V) (Hf : file_ok V p) (Ha : 0 <= a < sb_size sb) (Hbit : bit V a = false) (Hfs' : fs_ok V')
  (Hl : length l = length (i_addrs p)) (Hlr : Forall (fun a => 0 <= a < 2 ^ 32) l)
  (Hp : p' = Inode (i_dev p) (i_inum p) (i_ref p) (i_lock p) (i_valid p) (i_type p) (i_major p) (i_minor p)
      (i_nlink p) (i_size p) l)
  (Hbits : forall b, 0 <= b < sb_size sb -> bit V' b = bit V b || (b =? a))
  (Hsame : forall b, ~ is_bmap sb b -> b <> a -> b <> geta p' NDIRECT \/ b = 0 -> V' b = V b)
  (Hind : geta p' NDIRECT = geta p NDIRECT \/ geta p' NDIRECT = a /\ geta p NDIRECT = 0)
  (Hk : blkno k -> fblk V p k = 0 /\ V' a = zero_block /\ geta p' NDIRECT <> a)
  (Hblk : forall j, blkno j -> fblk V' p' j = if decide (j = k) then a else fblk V p j).

Lemma xo_fresh b : owned V p b -> b <> a.
Proof. intros Hb ->. destruct (fk_owned _ _ Hf a Hb) as (_ & _ & Hx). congruence. Qed.

Lemma xo_owned b : owned V' p' b -> owned V p b \/ b = a.
Proof.
  intros (Hb0 & [(j & Hj & Ej)| ->]).
  - rewrite Hblk in Ej by done. destruct (decide (j = k)); [by right|]. left. split; [done|]. left. by exists j.
  - destruct Hind as [E|[E _]]; [|by right]. left. split; [done|]. right. done.
Qed.

Lemma xo_old j : blkno j -> fblk V p j <> 0 -> fblk V' p' j = fblk V p j.
Proof.
  intros Hj Hne. rewrite Hblk by done. destruct (decide (j = k)) as [->|]; [|done]. by destruct (Hk Hj).
Qed.

Lemma xo_indirect b : owned V p b -> b <> geta p NDIRECT -> b <> geta p' NDIRECT.
Proof. intros Hb Hn. destruct Hind as [->|[-> _]]; [done|]. by apply xo_fresh. Qed.

Lemma xo_file : file_ok V' p'.
Proof.
  pose proof (fo_free _ _ _ Hfs a Ha Hbit) as Hda. split.
  - intros b [Hb| ->]%xo_owned.
    + destruct (fk_owned _ _ Hf b Hb) as (F1 & F2 & F3). split; [done|]. split; [done|]. rewrite Hbits, F3 by done. done.
    + split; [done|]. split; [done|]. rewrite Hbits by done. rewrite Z.eqb_refl. apply orb_true_r.
  - intros i j Hi Hj. rewrite !Hblk by done.
    destruct (decide (i = k)) as [->|], (decide (j = k)) as [->|]; try done.
    + intros E Hne. exfalso. apply (xo_fresh a); [|done]. split; [done|]. left. by exists j.
    + intros E Hne. exfalso. apply (xo_fresh a); [|done]. rewrite <- E. split; [done|]. left. by exists i.
    + by apply (fk_inj _ _ Hf).
  - intros j Hj. rewrite Hblk by done. destruct (decide (j = k)) as [->|].
    + intros _. destruct (Hk Hj) as (_ & _ & Hx). congruence.
    + intros Hne. apply xo_indirect; [split; [done|left; by exists j]|]. by apply (fk_ind _ _ Hf).
  - intros j Hj Hsz. rewrite Hp in Hsz. cbn in Hsz. pose proof (fk_size _ _ Hf).
    assert (blkno j) by (unfold blkno; pose proof BSIZE_pos; nia).
    rewrite xo_old; [by apply (fk_map _ _ Hf)|done|by apply (fk_map _ _ Hf)].
  - rewrite Hp. apply (fk_size _ _ Hf).
Qed.

Lemma xo_bytes o : 0 <= o < MAXFILE * BSIZE -> fbyte V' p' o = fbyte V p o.
Proof.
  intros Ho. pose proof (blkno_div o Ho) as Hb. apply fblk_byte; [done|..].
  - intros E. rewrite Hblk by done. rewrite E. destruct (decide (o / BSIZE = k)) as [Ek|]; [|done].
    intros _. rewrite Ek in Hb. apply Hk, Hb.
  - intros E. split; [by apply xo_old|].
    assert (Ho1 : owned V p (fblk V p (o / BSIZE))) by (split; [done|left; by exists (o / BSIZE)]).
    destruct (fk_owned _ _ Hf _ Ho1) as ((_ & _ & Hnb & _) & _).
    apply Hsame; [done|by apply xo_fresh|left]. apply xo_indirect; [done|]. by apply (fk_ind _ _ Hf).
Qed.

Lemma extend_one : extends V p V' p'.
Proof.
  pose proof (fo_free _ _ _ Hfs a Ha Hbit) as Hda. split; try done.
  - exact xo_file.
  - by exists l.
  - exact xo_bytes.
  - exact xo_old.
  - intros b [?| ->]%xo_owned; [by left|right; done].
  - intros b Hb E. rewrite Hbits, E by done. done.
  - intros b Hb E Hnb Hno. apply Hsame; [done|congruence|].
    destruct (decide (b = 0)); [by right|left]. destruct Hind as [->|[-> _]]; [|congruence].
    intros ->. apply Hno. split; [done|by right].
  - intros b Hb. apply Hsame; [intros Hx; by apply (lo_disj _ _ Hlay b)|intros ->; by apply Hda|].
    destruct (decide (b = 0)); [by right|left]. destruct Hind as [->|[-> _]]; [|intros ->; by apply Hda].
    intros ->. destruct (fk_owned _ _ Hf (geta p NDIRECT)) as ((_ & _ & _ & Hx) & _); [split; [done|by right]|done].
Qed.
End ExtendOne.

Lemma geta_insert p j k a : 0 <= j -> 0 <= k < 13 -> length (i_addrs p) = 13%nat ->
  geta (ino_addr k a p) j = if decide (j = k) then a else geta p j.
Proof.
  intros Hj Hk Hl. unfold geta, ino_addr. cbn. rewrite !nth_lookup. destruct (decide (j = k)) as [->|Hne].
  - now rewrite list_lookup_insert_eq by lia.
  - now rewrite list_lookup_insert_ne by lia.
Qed.

(** What [balloc] leaves of the other blocks. *)
Lemma alloced_same V a b : ~ is_bmap sb b -> 0 <= a < sb_size sb -> b <> a -> alloced sb a V b = V b.
Proof.
  intros Hb Ha Hne. unfold alloced. rewrite fn_lookup_insert_ne by done.
  apply fn_lookup_insert_ne. intros <-. apply Hb. by exists a.
Qed.
Lemma alloced_new V a : alloced sb a V a = zero_block.
Proof. apply fn_lookup_insert. Qed.

Lemma addr_insert k a p : Forall (fun a => 0 <= a < 2 ^ 32) (i_addrs p) -> 0 <= a < 2 ^ 32 ->
  length (i_addrs p) = 13%nat ->
  length (i_addrs (ino_addr k a p)) = length (i_addrs p) /\
  Forall (fun a => 0 <= a < 2 ^ 32) (i_addrs (ino_addr k a p)).
Proof. intros H1 H2 H3. cbn. rewrite length_insert. split; [done|]. by apply Forall_insert. Qed.

Lemma get32_zero o : get32 zero_block o = 0.
Proof.
  unfold get32. assert (E : forall x, get8 zero_block x = 0); [|now rewrite !E].
  intros x. unfold get8, zero_block. rewrite nth_lookup.
  destruct (_ !! _) eqn:E3; [by apply lookup_replicate in E3 as [-> _]|done].
Qed.

(** The fields of [p] the block map needs. *)
Definition addrs_ok (p : inode) : Prop := length (i_addrs p) = 13%nat /\ Forall (fun a => 0 <= a < 2 ^ 32) (i_addrs p).

(** The block map with one more block. *)
Lemma ind_same V p a : file_ok V p -> 0 <= a < sb_size sb -> bit V a = false -> geta p NDIRECT <> 0 ->
  alloced sb a V (geta p NDIRECT) = V (geta p NDIRECT).
Proof.
  intros Hf Ha Hbit Hne. assert (Hi : owned V p (geta p NDIRECT)) by (split; [done|by right]).
  apply alloced_same; [|done|by eapply xo_fresh]. by destruct (fk_owned _ _ Hf _ Hi) as ((_ & _ & ? & _) & _).
Qed.
Lemma fblk_direct V p k a j : file_ok V p -> addrs_ok p -> 0 <= k < NDIRECT -> 0 <= a < sb_size sb -> bit V a = false -> blkno j ->
  fblk (alloced sb a V) (ino_addr k a p) j = if decide (j = k) then a else fblk V p j.
Proof.
  intros Hf [Hl Hr] Hk Ha Hbit Hj. unfold NDIRECT in Hk. unfold fblk.
  rewrite (geta_insert p NDIRECT), decide_False by (unfold NDIRECT; lia). destruct (Z.ltb_spec j NDIRECT).
  - apply geta_insert; [destruct Hj; lia|lia|done].
  - rewrite decide_False by (unfold NDIRECT in *; lia). destruct (Z.eqb_spec (geta p NDIRECT) 0); [done|]. by rewrite ind_same.
Qed.
Lemma fblk_indirect V p a j : addrs_ok p -> geta p NDIRECT = 0 -> blkno j ->
  fblk (alloced sb a V) (ino_addr NDIRECT a p) j = fblk V p j.
Proof.
  intros [Hl Hr] H0 [Hj _]. unfold fblk. rewrite (geta_insert p NDIRECT), decide_True, H0 by (unfold NDIRECT; lia).
  destruct (Z.ltb_spec j NDIRECT).
  - rewrite geta_insert by (unfold NDIRECT; lia || done). by rewrite decide_False by lia.
  - rewrite alloced_new, get32_zero. by destruct (a =? 0).
Qed.
Lemma get32_put_entry i k a d :
  blk_ok d -> 0 <= i < NINDIRECT -> 0 <= k < NINDIRECT -> 0 <= a < 2 ^ 32 ->
  get32 (put32 (4 * k) a d) (4 * i) = if decide (i = k) then a else get32 d (4 * i).
Proof.
  intros [Hd _] Hi Hk Ha. assert (HB : 4 * NINDIRECT = BSIZE) by done.
  assert (Hlen : Z.of_nat (length d) = BSIZE) by (rewrite Hd; done).
  destruct (decide (i = k)) as [->|Hne].
  - rewrite get32_put32 by lia. now apply u32_small.
  - apply get32_put32_ne; lia.
Qed.
Lemma fblk_entry V p k a j : fs_ok V -> geta p NDIRECT <> 0 -> NDIRECT <= k < MAXFILE -> 0 <= a < 2 ^ 32 -> blkno j ->
  fblk (<[geta p NDIRECT := put32 (4 * (k - NDIRECT)) a (V (geta p NDIRECT))]> (alloced sb a V)) p j =
  if decide (j = k) then a else fblk V p j.
Proof.
  intros Hfs H12 Hk Ha Hj. unfold fblk. destruct (Z.ltb_spec j NDIRECT); [by rewrite decide_False by lia|].
  destruct (Z.eqb_spec (geta p NDIRECT) 0); [done|]. rewrite fn_lookup_insert.
  unfold blkno, MAXFILE in *. rewrite get32_put_entry; [|apply Hfs|lia|lia|lia].
  destruct (decide (j = k)) as [->|]; [by rewrite decide_True|by rewrite decide_False by lia].
Qed.

Lemma extend_direct V p k a :
  fs_ok V -> file_ok V p -> addrs_ok p -> 0 <= k < NDIRECT -> geta p k = 0 -> 0 <= a < sb_size sb -> bit V a = false ->
  extends V p (alloced sb a V) (ino_addr k a p).
Proof.
  intros Hfs Hf [Hl Hr] Hk H0 Ha Hbit. pose proof (lo_size _ _ Hlay).
  destruct (addr_insert k a p Hr ltac:(lia) Hl) as [I1 I2]. unfold NDIRECT in Hk.
  assert (E12 : geta (ino_addr k a p) NDIRECT = geta p NDIRECT)
    by (rewrite geta_insert by (unfold NDIRECT; lia); by rewrite decide_False by (unfold NDIRECT; lia)).
  assert (Hi : owned V p (geta p NDIRECT) \/ geta p NDIRECT = 0).
  { destruct (decide (geta p NDIRECT = 0)); [by right|left]. split; [done|by right]. }
  eapply (extend_one V _ p _ a k _ Hfs Hf Ha Hbit); [by apply (alloced_ok loggable sb)|exact I1|exact I2|done|..].
  - intros b Hb. by apply (bit_alloced loggable sb).
  - intros b Hb Hne _. by apply alloced_same.
  - by left.
  - intros _. split; [unfold fblk; replace (k <? NDIRECT) with true by (unfold NDIRECT; lia); done|]. split; [apply alloced_new|].
    rewrite E12. destruct Hi as [Hi| ->]; [by eapply xo_fresh|]. destruct (fo_free _ _ _ Hfs a Ha Hbit) as (_ & ? & _). lia.
  - intros j Hj. by apply fblk_direct.
Qed.

Lemma extend_indirect V p a :
  fs_ok V -> file_ok V p -> addrs_ok p -> geta p NDIRECT = 0 -> 0 <= a < sb_size sb -> bit V a = false ->
  extends V p (alloced sb a V) (ino_addr NDIRECT a p).
Proof.
  intros Hfs Hf [Hl Hr] H0 Ha Hbit. pose proof (lo_size _ _ Hlay).
  destruct (addr_insert NDIRECT a p Hr ltac:(lia) Hl) as [I1 I2].
  assert (E12 : geta (ino_addr NDIRECT a p) NDIRECT = a)
    by (rewrite geta_insert by (unfold NDIRECT; lia); by rewrite decide_True).
  eapply (extend_one V _ p _ a (-1) _ Hfs Hf Ha Hbit); [by apply (alloced_ok loggable sb)|exact I1|exact I2|done|..].
  - intros b Hb. by apply (bit_alloced loggable sb).
  - intros b Hb Hne _. by apply alloced_same.
  - by right.
  - intros []. lia.
  - intros j Hj. rewrite decide_False by (destruct Hj; lia). by apply fblk_indirect.
Qed.

Lemma extend_entry V p k a :
  fs_ok V -> file_ok V p -> addrs_ok p -> geta p NDIRECT <> 0 -> NDIRECT <= k < MAXFILE -> fblk V p k = 0 ->
  0 <= a < sb_size sb -> bit V a = false ->
  extends V p (<[geta p NDIRECT := put32 (4 * (k - NDIRECT)) a (V (geta p NDIRECT))]> (alloced sb a V)) p.
Proof.
  intros Hfs Hf [Hl Hr] H12 Hk H0 Ha Hbit. pose proof (lo_size _ _ Hlay).
  assert (Hi : owned V p (geta p NDIRECT)) by (split; [done|by right]).
  pose proof (xo_fresh _ _ _ Hf Hbit _ Hi) as Hne.
  destruct (fk_owned _ _ Hf _ Hi) as ((D1 & D2 & D3 & D4) & D5 & D6).
  pose proof (alloced_ok loggable sb V a Hfs Ha Hbit) as Hfs2.
  assert (Hok : fs_ok (<[geta p NDIRECT := put32 (4 * (k - NDIRECT)) a (V (geta p NDIRECT))]> (alloced sb a V)))
    by (apply fs_ok_put; [done|done|apply put32_ok, Hfs]).
  eapply (extend_one V _ p p a k (i_addrs p) Hfs Hf Ha Hbit Hok); [done|done|by destruct p|..].
  - intros b Hb. rewrite bit_ne; [by apply (bit_alloced loggable sb)| |done]. intros b' Hb' E. apply D3. by exists b'.
  - intros b Hb Hba [Hn| ->].
    + rewrite fn_lookup_insert_ne by done. by apply alloced_same.
    + rewrite fn_lookup_insert_ne by lia. by apply alloced_same.
  - by left.
  - intros _. split; [done|]. split; [|done]. rewrite fn_lookup_insert_ne by done. apply alloced_new.
  - intros j Hj. apply fblk_entry; try done. lia.
Qed.

(** [bmap] of any block: it is mapped afterwards, or the disk is full. *)
(** What [bmap] may add to the log: the blocks of the free map, the indirect
    block, and the data block. *)
Notation lcost := (lcost sb).
Definition bcost (p : inode) (L : list Z) : Z :=
  lcost L + if decide (geta p NDIRECT = 0 \/ geta p NDIRECT ∉ L) then 1 else 0.

Lemma bcost_len p L : Z.of_nat (length L) <= lcost L <= bcost p L.
Proof. pose proof (lcost_len sb L). unfold bcost. destruct (decide _); lia. Qed.
Lemma bcost_mono p p' L L' c : lcost L' <= lcost L + c -> L ⊆ L' ->
  (geta p NDIRECT <> 0 -> geta p' NDIRECT = geta p NDIRECT) -> bcost p' L' <= bcost p L + c.
Proof.
  intros Hc Hs H1. unfold bcost. destruct (decide (geta p NDIRECT = 0 \/ _)) as [H|H]; [destruct (decide _); lia|].
  apply Decidable.not_or in H as [Hn Hi]. rewrite (H1 Hn). rewrite decide_False; [lia|]. intros [?|H2]; [done|].
  apply Hi. intros H3. apply H2. by apply Hs.
Qed.
Lemma log_add_sub b L : L ⊆ log_add b L.
Proof. intros x Hx. apply log_add_in. by right. Qed.
Lemma log_add_id b L : b ∈ L -> log_add b L = L.
Proof. intros Hb. unfold log_add. by rewrite decide_True. Qed.
Lemma bcost_add p b L : bcost p (log_add b L) <= bcost p L + 1.
Proof. apply bcost_mono; [apply lcost_add|apply log_add_sub|done]. Qed.
Lemma bcost_indirect p L : geta p NDIRECT <> 0 -> bcost p (log_add (geta p NDIRECT) L) <= bcost p L.
Proof.
  intros H. destruct (decide (geta p NDIRECT ∈ L)) as [Hi|Hi]; [by rewrite log_add_id|].
  unfold bcost. rewrite decide_False, decide_True; [|by right|].
  - pose proof (lcost_add sb (geta p NDIRECT) L). lia.
  - intros [?|H2]; [done|]. apply H2, log_add_in. by left.
Qed.
Definition bmap_post V (L : list Z) p ip k r (a : Z) (s : fsst S) : Prop :=
  exists V' L' p', fsr (Tx V' L' [] []) (upd_ino ip p' r) s /\ extends V p V' p' /\
    bcost p' L' <= bcost p L + 1 /\ (a <> 0 -> bcost p' (log_add a L') <= bcost p L + 1) /\
    (a <> 0 /\ a = fblk V' p' k \/ a = 0 /\ forall b, 0 <= b < sb_size sb -> bit V' b = true).

Lemma upd_same V L ip p r s : ino r ip p -> fsr (Tx V L [] []) r s -> fsr (Tx V L [] []) (upd_ino ip p r) s.
Proof. intros Hi Hs. by rewrite (upd_ino_id _ _ _ Hi). Qed.

Lemma held_nil V : held_ok sb V [].
Proof. intros bn Hb. by apply elem_of_nil in Hb. Qed.

Lemma balloc_step V L ip p r s (k : Z -> M (fsst S) Z) (Q : Z -> fsst S -> Prop) h :
  fsr (Tx V L h []) r s -> r_sb r = sb -> fs_ok V -> held_ok sb V h -> lcost L + Z.of_nat (length h) < LOGSIZE - 1 ->
  ((forall b, 0 <= b < sb_size sb -> bit V b = true) -> forall s', fsr (Tx V L h []) r s' -> wp (k 0) Q s') ->
  (forall a L' s', 0 < a < sb_size sb -> bit V a = false -> lcost L' <= lcost L + 1 -> L ⊆ L' -> a ∈ L' ->
     fsr (Tx (alloced sb a V) L' h []) r s' -> wp (k a) Q s') ->
  ino r ip p -> i_dev p = D ->
  wp (a <-! balloc (i_dev p) ;; k a) Q s.
Proof.
  intros Hs Hsb Hfs Hh Hl K0 K1 _ Hd. rewrite Hd. apply wp_bind.
  wp_use (balloc_fs D rep loggable sb Hlay); [exact Hs|done|done|done|done|].
  intros a s1 [(-> & H1 & Hfull)|(Ha & Hbit & _ & H1)]; [by apply K0|].
  pose proof (fo_free _ _ _ Hfs a Ha Hbit) as (_ & Hr & _).
  eapply K1; [lia|done| | | |exact H1].
  - pose proof (lcost_map sb (BBLOCK a sb) L ltac:(by exists a)). pose proof (lcost_add sb a (log_add (BBLOCK a sb) L)). lia.
  - intros x Hx. by apply log_add_sub, log_add_sub.
  - apply log_add_in. by left.
Qed.

Lemma addrs_ok_ext V p V' p' f : changes V p V' p' f -> addrs_ok p -> addrs_ok p'.
Proof. intros [_ _ (l & H1 & H2 & ->) _ _ _ _ _ _] [H3 _]. split; cbn; congruence. Qed.
Lemma ext_dev V p V' p' f : changes V p V' p' f -> i_dev p' = i_dev p.
Proof. intros [_ _ (l & _ & _ & ->) _ _ _ _ _ _]. done. Qed.
Lemma ext_size V p V' p' f : changes V p V' p' f -> i_size p' = i_size p.
Proof. intros [_ _ (l & _ & _ & ->) _ _ _ _ _ _]. done. Qed.
Lemma ext_inum V p V' p' f : changes V p V' p' f -> i_inum p' = i_inum p.
Proof. intros [_ _ (l & _ & _ & ->) _ _ _ _ _ _]. done. Qed.

Lemma bmap_direct V L ip p k r s :
  fsr (Tx V L [] []) r s -> r_sb r = sb -> ino r ip p -> i_dev p = D -> fs_ok V -> file_ok V p -> addrs_ok p ->
  0 <= k < NDIRECT -> geta p k = 0 -> bcost p L + 1 < LOGSIZE - 1 ->
  wp (a <-! balloc (i_dev p) ;; if a =? 0 then ret 0 else seti ip (ino_addr k a) ;;; ret a) (bmap_post V L p ip k r) s.
Proof.
  intros Hs Hsb Hi Hd Hfs Hf Ha Hk H0 Hl. pose proof (bcost_len p L).
  eapply (balloc_step V L ip p r s); [exact Hs|done|done|apply held_nil|simpl; lia|..]; [| |exact Hi|done].
  - intros Hfull s1 H1. apply wp_ret. exists V, L, p. split; [by apply upd_same|].
    split; [apply extends_refl; [done|done|apply Ha]|]. split; [lia|split; [done|by right]].
  - intros a L' s1 Hr Hbit HL HLs HLa H1. destruct (Z.eqb_spec a 0); [lia|]. apply wp_bind.
    wp_use seti_fs; [exact H1|exact Hi|]. intros [] s2 H2. apply wp_ret.
    pose proof (extend_direct V p k a Hfs Hf Ha Hk H0 ltac:(lia) Hbit) as Hx.
    assert (Hc : bcost (ino_addr k a p) L' <= bcost p L + 1).
    { apply bcost_mono; [done|done|]. intros _. rewrite geta_insert; [|lia|unfold NDIRECT in *; lia|apply Ha]. by rewrite decide_False by lia. }
    exists (alloced sb a V), L', (ino_addr k a p). split; [exact H2|]. split; [done|]. split; [done|]. split; [by rewrite log_add_id|]. left.
    split; [done|]. unfold fblk. replace (k <? NDIRECT) with true by lia.
    rewrite geta_insert; [by rewrite decide_True|lia|unfold NDIRECT in *; lia|apply Ha].
Qed.

Lemma put_log_fs V L h i bn v r s (Q : unit -> fsst S -> Prop) :
  fsr (Tx V L ((i, bn) :: h) []) r s -> loggable bn -> Z.of_nat (length L) < LOGSIZE - 1 ->
  (forall s', fsr (Tx (<[bn := v]> V) (log_add bn L) ((i, bn) :: h) []) r s' -> Q tt s') ->
  wp (put_ i v ;;; log_write_ i) Q s.
Proof.
  intros Hs Hl Hn HQ. apply wp_bind. wp_use (put_fs D rep loggable); [exact Hs|left|]. intros [] s1 H1.
  wp_use (log_write_fs D rep loggable); [exact H1|left|done|done|]. intros [] s2 H2. apply HQ.
  unfold filter in H2. simpl in H2. rewrite decide_False in H2 by tauto. exact H2.
Qed.

(** The second half of [bmap]: an entry of the indirect block. *)
Lemma bmap_entry V L ip p k r s :
  fsr (Tx V L [] []) r s -> r_sb r = sb -> ino r ip p -> i_dev p = D -> fs_ok V -> file_ok V p -> addrs_ok p ->
  NDIRECT <= k < MAXFILE -> geta p NDIRECT <> 0 -> lcost L + 1 < LOGSIZE - 1 ->
  wp (bp <-! bread_ (i_dev p) (geta p NDIRECT) ;;
      a <-! data_ bp ;;
      addr <-! (if get32 a (4 * (k - NDIRECT)) =? 0 then
                  addr <-! balloc (i_dev p) ;;
                  (if addr =? 0 then ret tt
                   else a <-! data_ bp ;; put_ bp (put32 (4 * (k - NDIRECT)) addr a) ;;; log_write_ bp) ;;;
                  ret addr
                else ret (get32 a (4 * (k - NDIRECT)))) ;;
      brelse_ bp ;;; ret addr)
    (fun a s' => exists V' L', fsr (Tx V' L' [] []) r s' /\ extends V p V' p /\
       bcost p L' <= bcost p L + 1 /\ (a <> 0 -> bcost p (log_add a L') <= bcost p L + 1) /\
       (a <> 0 /\ a = fblk V' p k \/ a = 0 /\ forall b, 0 <= b < sb_size sb -> bit V' b = true)) s.
Proof.
  intros Hs Hsb Hi Hd Hfs Hf Ha Hk H12 Hl. pose proof (bcost_len p L).
  assert (Ho : owned V p (geta p NDIRECT)) by (split; [done|by right]).
  destruct (fk_owned _ _ Hf _ Ho) as ((D1 & D2 & D3 & D4) & D5 & D6).
  rewrite Hd. apply wp_bind. wp_use bread_fs; [exact Hs|lia|apply not_elem_of_nil|right; simpl; unfold LOGSIZE, MAXOPBLOCKS, NBUF in *; lia|].
  intros i s1 H1. apply wp_bind. wp_use data_fs; [exact H1|left|]. intros d s2 [-> H2]. apply wp_bind.
  assert (Hfb : fblk V p k = get32 (V (geta p NDIRECT)) (4 * (k - NDIRECT))).
  { unfold fblk. destruct (Z.ltb_spec k NDIRECT); [lia|]. by destruct (Z.eqb_spec (geta p NDIRECT) 0). }
  rewrite <- Hfb. destruct (Z.eqb_spec (fblk V p k) 0) as [E|E].
  - rewrite <- Hd. eapply (balloc_step V L ip p r s2); [exact H2|done|done| |simpl; lia|..]; [| | |exact Hi|done].
    { intros bn Hb. apply list_elem_of_singleton in Hb. simpl in Hb. subst. done. }
    + intros Hfull s3 H3. apply wp_bind, wp_ret, wp_ret, wp_bind.
      wp_use brelse_fs; [exact H3|apply not_elem_of_nil|]. intros [] s4 H4. apply wp_ret.
      exists V, L. split; [exact H4|]. split; [apply extends_refl; [done|done|apply Ha]|]. split; [lia|split; [done|by right]].
    + intros a L' s3 Hr Hbit HL HLs HLa H3. pose proof (lcost_len sb L'). destruct (Z.eqb_spec a 0); [lia|].
      pose proof (extend_entry V p k a Hfs Hf Ha H12 Hk E ltac:(lia) Hbit) as Hx.
      apply wp_bind, wp_bind. wp_use data_fs; [exact H3|left|]. intros d s4 [-> H4].
      rewrite alloced_same; [|done|lia|by eapply xo_fresh].
      eapply put_log_fs; [exact H4|done|lia|]. intros s5 H5. apply wp_ret, wp_bind.
      wp_use brelse_fs; [exact H5|apply not_elem_of_nil|]. intros [] s6 H6. apply wp_ret.
      eexists _, _. split; [exact H6|]. split; [exact Hx|]. 
      assert (Hc : bcost p (log_add (geta p NDIRECT) L') <= bcost p L + 1).
      { pose proof (bcost_indirect p L' H12). pose proof (bcost_mono p p L L' 1 HL HLs ltac:(done)). lia. }
      split; [done|]. split; [rewrite log_add_id; [done|by apply log_add_sub]|]. left. split; [done|]. unfold fblk. destruct (Z.ltb_spec k NDIRECT); [lia|].
      destruct (Z.eqb_spec (geta p NDIRECT) 0); [done|]. rewrite fn_lookup_insert.
      pose proof (lo_size _ _ Hlay).
      rewrite get32_put_entry; [by rewrite decide_True|apply Hfs|unfold MAXFILE in *; lia..].
  - apply wp_ret, wp_bind. wp_use brelse_fs; [exact H2|apply not_elem_of_nil|]. intros [] s3 H3. apply wp_ret.
    exists V, L. split; [exact H3|]. split; [apply extends_refl; [done|done|apply Ha]|]. split; [lia|split; [intros _; apply bcost_add|by left]].
Qed.

Lemma bmap_fs V L ip p k r s :
  fsr (Tx V L [] []) r s -> r_sb r = sb -> ino r ip p -> i_dev p = D -> fs_ok V -> file_ok V p -> addrs_ok p ->
  blkno k -> bcost p L + 1 < LOGSIZE - 1 ->
  wp (bmap ip k) (bmap_post V L p ip k r) s.
Proof.
  intros Hs Hsb Hi Hd Hfs Hf Ha Hk Hl. pose proof (bcost_len p L). unfold bmap. apply wp_bind. wp_use geti_fs; [exact Hs|exact Hi|].
  intros q s1 [-> H1]. destruct (Z.ltb_spec k NDIRECT) as [Hlt|Hge].
  - destruct (Z.eqb_spec (geta p k) 0) as [E|E]; [apply bmap_direct; try done; destruct Hk; lia|].
    apply wp_ret. exists V, L, p. split; [by apply upd_same|]. split; [apply extends_refl; [done|done|apply Ha]|].
    split; [lia|]. split; [intros _; apply bcost_add|]. left. split; [done|]. unfold fblk. by replace (k <? NDIRECT) with true by lia.
  - cbv zeta. replace (k - NDIRECT <? NINDIRECT) with true by (unfold blkno, MAXFILE in Hk; lia).
    assert (Hent : forall V1 L1 p1 s2, fsr (Tx V1 L1 [] []) (upd_ino ip p1 r) s2 -> extends V p V1 p1 ->
      geta p1 NDIRECT <> 0 -> bcost p1 L1 <= bcost p L -> lcost L1 + 1 < LOGSIZE - 1 ->
      forall m, m = (bp <-! bread_ (i_dev p1) (geta p1 NDIRECT) ;; a <-! data_ bp ;;
      addr <-! (if get32 a (4 * (k - NDIRECT)) =? 0 then
                  addr <-! balloc (i_dev p1) ;;
                  (if addr =? 0 then ret tt
                   else a <-! data_ bp ;; put_ bp (put32 (4 * (k - NDIRECT)) addr a) ;;; log_write_ bp) ;;;
                  ret addr
                else ret (get32 a (4 * (k - NDIRECT)))) ;;
      brelse_ bp ;;; ret addr) -> wp m (bmap_post V L p ip k r) s2).
    { intros V1 L1 p1 s2 H2 Hx Hn0 HL HL1 m ->. pose proof (ext_dev _ _ _ _ _ Hx) as Hdev.
      wp_use (bmap_entry V1 L1 ip p1 k (upd_ino ip p1 r)); [exact H2|done|by eapply ino_upd|congruence|apply Hx|apply Hx|
        by eapply addrs_ok_ext|unfold blkno in Hk; lia|done|lia|].
      intros a s3 (V2 & L2 & H3 & Hx2 & HL2 & HL3 & Hr). exists V2, L2, p1. split; [exact H3|].
      split; [by eapply extends_trans|]. split; [lia|]. split; [intros Hne; specialize (HL3 Hne); lia|exact Hr]. }
    apply wp_bind. destruct (Z.eqb_spec (geta p NDIRECT) 0) as [E|E].
    + eapply (balloc_step V L ip p r s1); [exact H1|done|done|apply held_nil|simpl; lia|..]; [| |exact Hi|done].
      * intros Hfull s2 H2. apply wp_ret, wp_ret. exists V, L, p. split; [by apply upd_same|].
        split; [apply extends_refl; [done|done|apply Ha]|]. split; [lia|split; [done|by right]].
      * intros a L' s2 Hr Hbit HL HLs HLa H2. destruct (Z.eqb_spec a 0); [lia|]. apply wp_bind.
        wp_use seti_fs; [exact H2|exact Hi|]. intros [] s3 H3. apply wp_ret.
        destruct (Z.eqb_spec a 0); [lia|].
        assert (E12 : geta (ino_addr NDIRECT a p) NDIRECT = a)
          by (rewrite geta_insert; [by rewrite decide_True|unfold NDIRECT; lia..|apply Ha]).
        assert (Hc0 : bcost p L = lcost L + 1) by (unfold bcost; rewrite decide_True; [done|by left]).
        assert (Hc1 : bcost (ino_addr NDIRECT a p) L' = lcost L') by (unfold bcost; rewrite E12, decide_False; [lia|]; intros [?|?]; [lia|done]).
        eapply (Hent (alloced sb a V) L' (ino_addr NDIRECT a p)); [exact H3|apply extend_indirect; try done; lia|lia|lia|lia|].
        rewrite E12. reflexivity.
    + apply wp_ret. destruct (Z.eqb_spec (geta p NDIRECT) 0); [done|].
      eapply (Hent V L p); [by apply upd_same|apply extends_refl; [done|done|apply Ha]|done|lia|lia|reflexivity].
Qed.

(** ** writei *)

(** A source of the bytes [bs]. *)
Definition source (pt : Z) (user : bool) (src : Z) (bs : list Z) (k : kst) : Prop :=
  forall o m, 0 <= o -> 0 <= m -> o + m <= Z.of_nat (length bs) ->
    either_copyin pt user (u64 (src + o)) m k = Done (0, take (Z.to_nat m) (drop (Z.to_nat o) bs)) k.

Lemma copyin_fs a r user src m s x :
  fsr a r s -> either_copyin (r_pt r) user src m (r_k r) = Done x (r_k r) ->
  wp (copyin_ user src m) (fun y s' => y = x /\ fsr a r s') s.
Proof.
  intros [H1 <-] H. unfold copyin_. apply wp_bind, wp_gets, wp_lift. exists x, (fs_k s). split; [exact H|].
  split; [done|]. split; [exact H1|done].
Qed.

Lemma splice_ok o bs d : blk_ok d -> blk_ok (splice o bs d).
Proof. revert o d. induction bs; intros; simpl; auto with xv6. Qed.

Lemma get8_splice o bs d x : blk_ok d -> 0 <= o -> o + Z.of_nat (length bs) <= BSIZE -> 0 <= x ->
  Forall (fun b => 0 <= b < 256) bs ->
  get8 (splice o bs d) x = if decide (o <= x < o + Z.of_nat (length bs)) then nth (Z.to_nat (x - o)) bs 0 else get8 d x.
Proof.
  intros Hd Ho Hb Hx Hf. revert o d Hd Ho Hb. induction Hf as [|b bs Hr Hf IH]; intros o d Hd Ho Hb; simpl in *.
  - rewrite decide_False by lia. done.
  - rewrite IH by (auto with xv6; lia). destruct (decide (x = o)) as [->|Hne].
    + rewrite decide_False, decide_True by lia. rewrite put8_same_byte, Z.eqb_refl, Z.sub_diag by (done || lia).
      simpl. apply Z.mod_small. lia.
    + rewrite put8_same_byte by (done || lia). destruct (Z.eqb_spec x o); [done|].
      destruct (decide (o + 1 <= x < o + 1 + Z.of_nat (length bs))).
      * rewrite decide_True by lia. replace (Z.to_nat (x - o)) with (Datatypes.S (Z.to_nat (x - (o + 1)))) by lia. done.
      * by rewrite decide_False by lia.
Qed.

(** Part of a block of the file is overwritten. *)
Lemma write_step V p off bs :
  let a := fblk V p (off / BSIZE) in
  fs_ok V -> file_ok V p -> addrs_ok p -> 0 <= off -> blkno (off / BSIZE) -> a <> 0 ->
  off mod BSIZE + Z.of_nat (length bs) <= BSIZE -> Forall (fun b => 0 <= b < 256) bs ->
  changes V p (<[a := splice (off mod BSIZE) bs (V a)]> V) p
    (fun o => if decide (off <= o < off + Z.of_nat (length bs)) then nth (Z.to_nat (o - off)) bs 0 else fbyte V p o).
Proof.
  intros a Hfs Hf Ha Ho Hb Hne Hl Hbs. subst a. set (a := fblk V p (off / BSIZE)) in *.
  assert (Hoa : owned V p a) by (split; [done|left; by exists (off / BSIZE)]).
  destruct (fk_owned _ _ Hf _ Hoa) as ((D1 & D2 & D3 & D4) & D5 & D6).
  assert (Hai : a <> geta p NDIRECT) by (by apply (fk_ind _ _ Hf)).
  set (V' := <[a := _]> V).
  assert (Hblk : forall j, fblk V' p j = fblk V p j) by (intros j; unfold fblk, V'; by rewrite fn_lookup_insert_ne).
  assert (Hown : forall b, owned V' p b <-> owned V p b) by (intros b; unfold owned; by setoid_rewrite Hblk).
  assert (Hbits : forall b, 0 <= b < sb_size sb -> bit V' b = bit V b).
  { intros b Hr. apply bit_ne; [|done]. intros b' Hb' E. apply D3. by exists b'. }
  split; try done.
  - apply fs_ok_put; [done|done|apply splice_ok, Hfs].
  - destruct Hf as [F1 F2 F3 F4 F5]. split; try done.
    + intros b Hb2%Hown. destruct (F1 b Hb2) as (G1 & G2 & G3). rewrite Hbits by done. done.
    + intros i j. rewrite !Hblk. apply F2.
    + intros j. rewrite Hblk. apply F3.
    + intros j. rewrite Hblk. apply F4.
  - exists (i_addrs p). split; [done|]. split; [apply Ha|by destruct p].
  - intros o Hor. pose proof (Z.mod_pos_bound off BSIZE BSIZE_pos) as Q1. pose proof (Z.div_mod off BSIZE ltac:(done)) as Q2.
    pose proof (Z.mod_pos_bound o BSIZE BSIZE_pos) as Q3. pose proof (Z.div_mod o BSIZE ltac:(done)) as Q4.
    unfold fbyte. rewrite Hblk. destruct (decide (o / BSIZE = off / BSIZE)) as [E|E].
    + rewrite E. fold a. destruct (Z.eqb_spec a 0); [done|]. unfold V'. rewrite fn_lookup_insert.
      rewrite get8_splice; [|apply Hfs|lia|lia|lia|done]. rewrite E in Q4.
      destruct (decide (off <= o < _)) as [Hin|Hin]; [rewrite decide_True by lia|by rewrite decide_False by lia].
      do 2 f_equal. lia.
    + rewrite decide_False by nia. destruct (Z.eqb_spec (fblk V p (o / BSIZE)) 0); [done|].
      unfold V'. rewrite fn_lookup_insert_ne; [done|]. intros E2. apply E. symmetry.
      apply (fk_inj _ _ Hf); try done. by apply blkno_div.
  - intros b Hb2%Hown. by left.
  - intros b Hr Hx. by rewrite Hbits.
  - intros b Hr Hx Hnb Hno. apply fn_lookup_insert_ne. by intros <-.
  - intros b Hi. apply fn_lookup_insert_ne. by intros <-.
Qed.

(** The contents of the file after [tot] of the bytes [bs] went to [off]. *)
Definition patched (V : Z -> block) (p : inode) (off : Z) (bs : list Z) (tot o : Z) : Z :=
  if decide (off <= o < off + tot) then nth (Z.to_nat (o - off)) bs 0 else fbyte V p o.

Lemma patched_step V p off bs tot m o :
  0 <= tot -> 0 <= m -> tot + m <= Z.of_nat (length bs) ->
  patched V p off bs (tot + m) o =
  (if decide (off + tot <= o < off + tot + m) then nth (Z.to_nat (o - (off + tot))) (take (Z.to_nat m) (drop (Z.to_nat tot) bs)) 0
   else patched V p off bs tot o).
Proof.
  intros Ht Hm Hl. unfold patched. destruct (decide (off + tot <= o < off + tot + m)) as [Hi|Hi].
  - rewrite decide_True by lia. rewrite !nth_lookup, lookup_take, decide_True, lookup_drop by lia. do 2 f_equal. lia.
  - destruct (decide (off <= o < off + tot)); [by rewrite decide_True by lia|by rewrite decide_False by lia].
Qed.

Definition blocks_left (off n tot : Z) : Z := (off + n - 1) / BSIZE - (off + tot) / BSIZE + 1.

(** [N] bounds the log. *)
Definition writei_post V p ip off n bs r N tot (x : Z * Z) (s : fsst S) : Prop :=
  exists tot' V' L' p', x = (tot', off + tot') /\ tot <= tot' <= n /\ fsr (Tx V' L' [] []) (upd_ino ip p' r) s /\
    changes V p V' p' (patched V p off bs tot') /\ bcost p' L' <= N /\
    (forall o, off <= o < off + tot' -> fblk V' p' (o / BSIZE) <> 0) /\
    (tot' = n \/ forall b, 0 <= b < sb_size sb -> bit V' b = true) /\
    (tot' = n \/ tot' = tot \/ (off + tot') mod BSIZE = 0).

Lemma writei_loop_fs fuel V p ip user src off bs r N tot V1 L1 p1 s :
  let n := Z.of_nat (length bs) in
  r_sb r = sb -> ino r ip p -> i_dev p = D -> addrs_ok p ->
  0 <= off -> off + n <= MAXFILE * BSIZE -> 0 <= src < 2 ^ 64 -> Forall (fun b => 0 <= b < 256) bs ->
  source (r_pt r) user src bs (r_k r) ->
  fsr (Tx V1 L1 [] []) (upd_ino ip p1 r) s -> changes V p V1 p1 (patched V p off bs tot) -> 0 <= tot <= n ->
  (forall o, off <= o < off + tot -> fblk V1 p1 (o / BSIZE) <> 0) ->
  bcost p1 L1 <= N -> N < LOGSIZE - 1 -> (tot < n -> bcost p1 L1 + blocks_left off n tot <= N) ->
  (tot < n -> blocks_left off n tot + 1 <= Z.of_nat fuel) -> (0 < fuel)%nat ->
  wp (writei_loop fuel ip user (u64 (src + tot)) (off + tot) n tot) (writei_post V p ip off n bs r N tot) s.
Proof.
  intros n Hsb Hi Hd Ha Ho Hmax Hsrc Hbs Hsource. revert tot V1 L1 p1 s.
  induction fuel as [|fuel IH]; intros tot V1 L1 p1 s Hs Hch Ht Hmp HL HN HL6 Hfuel Hpos; [lia|].
  cbn [writei_loop]. destruct (Z.ltb_spec tot n) as [Hlt|Hge].
  2:{ apply wp_ret. exists tot, V1, L1, p1. conjs; try done; try lia. }
  specialize (HL6 Hlt). specialize (Hfuel Hlt). assert (H32 : MAXFILE * BSIZE < 2 ^ 32) by done.
  assert (Hbl : 1 <= blocks_left off n tot)
    by (unfold blocks_left; pose proof (Z.div_le_mono (off + tot) (off + n - 1) BSIZE BSIZE_pos ltac:(lia)); lia).
  pose proof (blkno_div (off + tot) ltac:(lia)) as Hk. pose proof (ext_dev _ _ _ _ _ Hch) as Hdev.
  apply wp_bind. wp_use (bmap_fs V1 L1 ip p1); [exact Hs|done|by eapply ino_upd|congruence|apply Hch|apply Hch|
    by eapply addrs_ok_ext|done|lia|].
  intros a s1 (V2 & L2 & p2 & H1 & Hx & HL2 & HL3 & Hr). rewrite upd_ino_upd in H1. pose proof (bcost_len p2 L2).
  assert (Hch2 : changes V p V2 p2 (patched V p off bs tot)).
  { eapply changes_ext; [|eapply changes_trans; [exact Hch|exact Hx]]. apply (ex_bytes _ _ _ _ _ Hch). }
  assert (Hmp2 : forall o, off <= o < off + tot -> fblk V2 p2 (o / BSIZE) <> 0).
  { intros o Hor. rewrite (ex_blk _ _ _ _ _ Hx); [by apply Hmp|apply blkno_div; lia|by apply Hmp]. }
  destruct Hr as [[Hne ->]|[-> Hfull]].
  2:{ apply wp_ret. exists tot, V2, L2, p2. conjs; try done; try lia; by right. }
  specialize (HL3 Hne).
  destruct (Z.eqb_spec (fblk V2 p2 ((off + tot) / BSIZE)) 0); [done|]. pose proof (ext_dev _ _ _ _ _ Hch2) as Hdev2.
  apply wp_bind. wp_use geti_fs; [exact H1|by eapply ino_upd|]. intros q s2 [-> H2]. rewrite Hdev2, Hd.
  assert (Hoa : owned V2 p2 (fblk V2 p2 ((off + tot) / BSIZE))) by (split; [done|left; by eexists]).
  destruct (fk_owned _ _ (ex_file _ _ _ _ _ Hch2) _ Hoa) as ((D1 & D2 & D3 & D4) & D5 & D6).
  apply wp_bind. wp_use bread_fs; [exact H2|lia|apply not_elem_of_nil|right; simpl; unfold LOGSIZE, MAXOPBLOCKS, NBUF in *; lia|].
  intros i s3 H3. cbv zeta. set (m := Z.min _ _).
  destruct (block_step (off + tot) m n tot ltac:(lia) ltac:(lia) eq_refl) as (B1 & B2 & B3 & B4).
  apply wp_bind. wp_use copyin_fs; [exact H3|apply Hsource; lia|]. intros x s4 [-> H4]. cbn [fst snd].
  apply wp_bind. wp_use data_fs; [exact H4|left|]. intros d s5 [-> H5]. change (0 =? -1) with false. cbv iota.
  eapply (commit_buf_seq D rep loggable); [exact H5|done|lia|]. intros s6 H6. set (bs' := take _ _) in *.
  assert (Hlb : Z.of_nat (length bs') = m) by (unfold bs'; rewrite length_take, length_drop; lia).
  pose proof (write_step V2 p2 (off + tot) bs' (ex_fs _ _ _ _ _ Hch2) (ex_file _ _ _ _ _ Hch2)
    ltac:(by eapply addrs_ok_ext) ltac:(lia) Hk Hne ltac:(lia) ltac:(by apply Forall_take, Forall_drop)) as Hw.
  assert (E1 : u64 (u64 (src + tot) + m) = u64 (src + (tot + m))) by (unfold u64; rewrite Zplus_mod_idemp_l; f_equal; lia).
  rewrite E1, !u32_small by lia. replace (off + tot + m) with (off + (tot + m)) by lia.
  assert (Hnext : tot + m < n -> blocks_left off n (tot + m) = blocks_left off n tot - 1).
  { intros Hlt2. unfold blocks_left. rewrite Z.add_assoc. destruct B4 as [B4|B4]; [lia|]. lia. }
  wp_use IH; [exact H6| |lia| |lia|lia|intros Hlt2; rewrite Hnext by done; lia|intros Hlt2; rewrite Hnext by done; lia|lia|].
  - eapply changes_ext; [|eapply changes_trans; [exact Hch2|exact Hw]]. intros o Hor. cbv beta.
    rewrite patched_step by lia. rewrite Hlb. destruct (decide _); [done|]. apply (ex_bytes _ _ _ _ _ Hch2 o Hor).
  - intros o Hor. rewrite (ex_blk _ _ _ _ _ Hw (o / BSIZE)); [|apply blkno_div; lia|];
      (destruct (decide (o < off + tot)); [apply Hmp2; lia|]);
      replace (o / BSIZE) with ((off + tot) / BSIZE) by (symmetry; apply (block_same (off + tot) m o); lia); done.
  - intros y s7 (t & V3 & L3 & p3 & -> & Ht3 & H7 & Hch3 & HL7 & Hm7 & Hr3 & Hq3). exists t, V3, L3, p3. conjs; try done; try lia.
    destruct Hq3 as [?|[->|?]]; [by left| |right; by right]. destruct B4 as [B4|B4]; [left; lia|right; right].
    clear - B2 B4. rewrite Z.add_assoc. unfold BSIZE in *. Z.div_mod_to_equations. lia.
Qed.

(** Writing an inode block does not change a file. *)
Lemma ino_put_blk V p x v j : file_ok V p -> is_ino sb x -> fblk (<[x := v]> V) p j = fblk V p j.
Proof.
  intros Hf Hx. unfold fblk. destruct (j <? NDIRECT); [done|]. destruct (Z.eqb_spec (geta p NDIRECT) 0); [done|].
  rewrite fn_lookup_insert_ne; [done|]. intros ->.
  destruct (fk_owned _ _ Hf (geta p NDIRECT)) as ((_ & _ & _ & Hn) & _); [split; [done|by right]|done].
Qed.
Lemma ino_put_byte V p x v o : file_ok V p -> is_ino sb x -> 0 <= o < MAXFILE * BSIZE ->
  fbyte (<[x := v]> V) p o = fbyte V p o.
Proof.
  intros Hf Hx Ho. unfold fbyte. rewrite ino_put_blk by done. destruct (Z.eqb_spec (fblk V p (o / BSIZE)) 0); [done|].
  rewrite fn_lookup_insert_ne; [done|]. intros ->.
  destruct (fk_owned _ _ Hf (fblk V p (o / BSIZE))) as ((_ & _ & _ & Hn) & _); [|done].
  split; [done|]. left. eexists. split; [by apply blkno_div|done].
Qed.
Lemma ino_put_file V p x v : file_ok V p -> is_ino sb x -> file_ok (<[x := v]> V) p.
Proof.
  intros Hf Hx. pose proof (fun j => ino_put_blk V p x v j Hf Hx) as Hb.
  assert (Hown : forall b, owned (<[x := v]> V) p b <-> owned V p b) by (intros b; unfold owned; by setoid_rewrite Hb).
  destruct Hf as [F1 F2 F3 F4 F5]. split; try done.
  - intros b Ho%Hown. destruct (F1 b Ho) as (G1 & G2 & G3). split; [done|]. split; [done|].
    rewrite bit_ne; [done| |done]. intros b' Hb' E. apply (lo_disj _ _ Hlay x); [by exists b'|done].
  - intros j k. rewrite !Hb. apply F2.
  - intros j. rewrite Hb. apply F3.
  - intros j. rewrite Hb. apply F4.
Qed.

(** A larger size, when the blocks are there. *)
Lemma fblk_size V p n k : fblk V (ino_size n p) k = fblk V p k.
Proof. done. Qed.
Lemma file_ok_size V p n : file_ok V p -> 0 <= n <= MAXFILE * BSIZE ->
  (forall k, 0 <= k -> k * BSIZE < n -> fblk V p k <> 0) -> file_ok V (ino_size n p).
Proof. intros [F1 F2 F3 F4 F5] Hn Hm. by split. Qed.

(** The state after [writei] stored [tot] bytes of [bs] at [off]. *)
Record written (V : Z -> block) (p : inode) (off : Z) (bs : list Z) (tot : Z) (V' : Z -> block) (p' : inode) : Prop := {
  wr_fs : fs_ok V';
  wr_file : file_ok V' p';
  wr_ino : ino_ok p';
  wr_bytes : forall o, 0 <= o < MAXFILE * BSIZE -> fbyte V' p' o = patched V p off bs tot o;
  wr_size : i_size p' = Z.max (i_size p) (off + tot);
  wr_same : (i_dev p', i_inum p', i_ref p', i_lock p', i_valid p', i_type p', i_major p', i_minor p', i_nlink p') =
            (i_dev p, i_inum p, i_ref p, i_lock p, i_valid p, i_type p, i_major p, i_minor p, i_nlink p);
  wr_disk : forall q, dinode_at sb V' (i_inum p) q = copy_dinode p' q;
  wr_others : forall i q, 0 <= i < sb_ninodes sb -> i <> i_inum p -> dinode_at sb V' i q = dinode_at sb V i q;
  wr_frame : forall b, 0 <= b < sb_size sb -> bit V b = true -> ~ is_bmap sb b -> ~ is_ino sb b -> ~ owned V p b ->
    V' b = V b
}.

Lemma written_done V p off bs tot V1 p1 :
  changes V p V1 p1 (patched V p off bs tot) -> ino_ok p -> 0 <= i_inum p < sb_ninodes sb ->
  0 <= off <= i_size p -> 0 <= tot -> off + tot <= MAXFILE * BSIZE ->
  (forall o, off <= o < off + tot -> fblk V1 p1 (o / BSIZE) <> 0) ->
  let p2 := if i_size p1 <? off + tot then ino_size (off + tot) p1 else p1 in
  written V p off bs tot
    (<[IBLOCK (i_inum p1) sb := store_dinode (di_off (i_inum p1)) p2 (V1 (IBLOCK (i_inum p1) sb))]> V1) p2.
Proof.
  intros Hch Hp Hin Ho Ht Hmax Hm p2.
  pose proof Hch as [C1 C2 (l & C3 & C3' & ->) C4 C5 C6 C7 C8 C9]. set (p1 := Inode _ _ _ _ _ _ _ _ _ _ _) in *.
  assert (Hx : is_ino sb (IBLOCK (i_inum p1) sb)) by (by apply is_ino_at).
  assert (Hnb : ~ is_bmap sb (IBLOCK (i_inum p1) sb)) by (intros Hb; by apply (lo_disj _ _ Hlay _ Hb)).
  assert (Hsz : i_size p2 = Z.max (i_size p) (off + tot)).
  { unfold p2. destruct (Z.ltb_spec (i_size p1) (off + tot)); cbn in *; lia. }
  assert (Hp2 : p2 = ino_size (i_size p2) p1) by (unfold p2; destruct (_ <? _); done).
  assert (Hf2 : file_ok V1 p2).
  { rewrite Hp2. apply file_ok_size; [done|rewrite Hsz; pose proof (fk_size _ _ C2) as Q; cbn in Q; lia|].
    intros k Hk Hlt. destruct (decide (k * BSIZE < i_size p1)) as [|Hge]; [by apply (fk_map _ _ C2)|].
    rewrite Hsz in Hlt. cbn in Hge. replace k with (k * BSIZE / BSIZE) by (by apply Z.div_mul). apply Hm. lia. }
  assert (Hok2 : ino_ok p2).
  { rewrite Hp2. destruct Hp as [P1 P2 P3 P4 P5 P6 P7]. split; try done; [|cbn; congruence].
    cbn. pose proof (fk_size _ _ Hf2). assert (MAXFILE * BSIZE < 2 ^ 32) by done. lia. }
  assert (Hi2 : i_inum p2 = i_inum p1) by (rewrite Hp2; done).
  split; try done.
  - apply fs_ok_put; [done|done|]. apply store_dinode_ok, C1.
  - by apply ino_put_file.
  - intros o Hor. rewrite ino_put_byte by done. rewrite Hp2. by apply C4.
  - rewrite Hp2. done.
  - intros q. unfold dinode_at. change (i_inum p) with (i_inum p1). rewrite fn_lookup_insert.
    apply load_store_dinode; [apply C1|apply di_off_slot|done].
  - intros i q Hi Hne. unfold dinode_at. destruct (decide (IBLOCK (i_inum p1) sb = IBLOCK i sb)) as [E|E].
    + rewrite <- E, fn_lookup_insert. rewrite load_store_other; [|apply C1|apply di_off_slot|apply di_off_slot|apply Hok2|].
      * by rewrite C9.
      * destruct (di_off_ne sb (i_inum p1) i) as [?|?]; [done|done|by right|by left].
    + rewrite fn_lookup_insert_ne by done. rewrite C9; [done|]. by apply is_ino_at.
  - intros b Hb E Hnb2 Hni Hno. rewrite fn_lookup_insert_ne; [by apply C8|]. by intros <-.
Qed.

Lemma blocks_left_le off n : 0 <= off -> 0 < n -> blocks_left off n 0 <= (n - 2) / BSIZE + 2.
Proof.
  intros Ho Hn. unfold blocks_left. rewrite Z.add_0_r. unfold BSIZE. Z.div_mod_to_equations. lia.
Qed.

Definition writei_ok (p : inode) (off n : Z) : bool := (off <=? i_size p) && (off + n <=? MAXFILE * BSIZE).

(** The number of blocks that [n] bytes at [off] are in. *)
Definition wblocks (off n : Z) : Z := if 0 <? n then blocks_left off n 0 else 0.

Lemma wblocks_eq off n : 0 <= off -> 0 <= wblocks off n /\ (0 < n -> wblocks off n = blocks_left off n 0).
Proof.
  intros Ho. unfold wblocks, blocks_left. destruct (Z.ltb_spec 0 n); [|split; [done|lia]]. split; [|done].
  pose proof (Z.div_le_mono (off + 0) (off + n - 1) BSIZE BSIZE_pos ltac:(lia)). lia.
Qed.

(** The state and the result of [writei]. *)
Definition writei_result V L p ip off bs r (t : Z) (s : fsst S) : Prop :=
  if writei_ok p off (Z.of_nat (length bs)) then
    exists V' L' p', 0 <= t <= Z.of_nat (length bs) /\ fsr (Tx V' L' [] []) (upd_ino ip p' r) s /\
      written V p off bs t V' p' /\ bcost p' L' <= bcost p L + wblocks off (Z.of_nat (length bs)) + 1 /\
      (t = Z.of_nat (length bs) \/
       (t = 0 \/ (off + t) mod BSIZE = 0) /\ forall b, 0 <= b < sb_size sb -> bit V' b = true)
  else t = -1 /\ fsr (Tx V L [] []) r s.

Lemma writei_fs V L ip p user src off bs r s :
  fsr (Tx V L [] []) r s -> r_sb r = sb -> ino r ip p -> i_dev p = D -> 0 <= i_inum p < sb_ninodes sb ->
  fs_ok V -> file_ok V p -> ino_ok p -> 0 <= off < 2 ^ 32 -> Z.of_nat (length bs) < 2 ^ 32 -> 0 <= src < 2 ^ 64 ->
  Forall (fun b => 0 <= b < 256) bs -> source (r_pt r) user src bs (r_k r) ->
  bcost p L + wblocks off (Z.of_nat (length bs)) < LOGSIZE - 1 ->
  wp (writei ip user src off (Z.of_nat (length bs))) (writei_result V L p ip off bs r) s.
Proof.
  intros Hs Hsb Hi Hd Hin Hfs Hf Hp Ho Hn Hsrc Hbs Hsource HL. unfold writei, writei_result, writei_ok.
  set (n := Z.of_nat (length bs)) in *. assert (H32 : MAXFILE * BSIZE < 2 ^ 31) by done.
  apply wp_bind. wp_use geti_fs; [exact Hs|exact Hi|]. intros q s1 [-> H1]. rewrite u32_overflow by lia.
  pose proof (fk_size _ _ Hf) as Hsz.
  destruct (Z.leb_spec off (i_size p)) as [Hle|Hgt]; cbn [andb].
  2:{ replace (i_size p <? off) with true by lia. apply wp_ret. done. }
  replace (i_size p <? off) with false by lia. cbn [orb].
  destruct (Z.leb_spec (off + n) (MAXFILE * BSIZE)) as [Hle2|Hgt2].
  2:{ destruct (Z.leb_spec (2 ^ 32) (off + n)); [by apply wp_ret|].
      rewrite u32_small by lia. replace (MAXFILE * BSIZE <? off + n) with true by lia. by apply wp_ret. }
  replace (2 ^ 32 <=? off + n) with false by lia. rewrite u32_small by lia.
  replace (MAXFILE * BSIZE <? off + n) with false by lia.
  assert (Hao : addrs_ok p) by (split; apply Hp).
  assert (Hp0 : forall o, 0 <= o < MAXFILE * BSIZE -> fbyte V p o = patched V p off bs 0 o).
  { intros o Hor. unfold patched. by rewrite decide_False by lia. }
  pose proof (Z.div_pos n BSIZE ltac:(lia) BSIZE_pos) as Hdp. destruct (wblocks_eq off n ltac:(lia)) as [Hwb Hwb'].
  apply wp_bind. rewrite <- (Z.add_0_r off) at 1. rewrite <- (u64_small src), <- (Z.add_0_r src) by lia.
  wp_use (writei_loop_fs _ V p ip user src off bs r (bcost p L + wblocks off n) 0 V L p); try done; try lia.
  { by apply upd_same. }
  { eapply changes_ext; [exact Hp0|]. apply extends_refl; [done|done|apply Hao]. }
  { fold n. intros Hpos. rewrite <- Hwb' by done. lia. }
  { fold n. intros Hpos. pose proof (blocks_left_le off n ltac:(lia) Hpos).
    pose proof (Z.div_le_mono (n - 2) n BSIZE BSIZE_pos ltac:(lia)). lia. }
  intros x s2 (t & V1 & L1 & p1 & -> & Ht & H2 & Hch & HL1 & Hm & Hr & Hq). cbn [fst snd]. pose proof (bcost_len p1 L1).
  assert (Hi1 : ino (upd_ino ip p1 r) ip p1) by (by eapply ino_upd).
  apply wp_bind. wp_use geti_fs; [exact H2|exact Hi1|]. intros q s3 [-> H3].
  pose proof (written_done V p off bs t V1 p1 Hch Hp Hin ltac:(lia) ltac:(lia) ltac:(lia) Hm) as Hw. cbv zeta in Hw.
  set (p2 := if i_size p1 <? off + t then ino_size (off + t) p1 else p1) in *.
  assert (Hi2 : i_dev p2 = D /\ i_inum p2 = i_inum p1).
  { pose proof (ext_dev _ _ _ _ _ Hch). unfold p2. destruct (_ <? _); cbn; split; congruence. }
  apply wp_bind. eapply wp_mono with (P := fun _ => fsr (Tx V1 L1 [] []) (upd_ino ip p2 r)).
  { apply wp_when; intros E; unfold p2; rewrite E; [|done].
    wp_use seti_fs; [exact H3|exact Hi1|]. intros [] s4 H4. by rewrite upd_ino_upd in H4. }
  intros [] s4 H4. apply wp_bind.
  wp_use (iupdate_fs D rep loggable sb Hlay V1 L1 []); [exact H4|done|by eapply ino_upd|apply Hi2| |apply not_elem_of_nil|simpl; lia|].
  { rewrite (proj2 Hi2), (ext_inum _ _ _ _ _ Hch). done. }
  intros [] s5 H5. apply wp_ret. rewrite i32_small by lia. rewrite (proj2 Hi2) in H5.
  eexists _, _, p2. split; [lia|]. split; [exact H5|]. split; [exact Hw|].
  assert (Hb2 : bcost p2 (log_add (IBLOCK (i_inum p1) sb) L1) = bcost p1 (log_add (IBLOCK (i_inum p1) sb) L1)) by (unfold p2; by destruct (_ <? _)).
  split; [pose proof (bcost_add p1 (IBLOCK (i_inum p1) sb) L1); lia|]. destruct Hr as [?|Hr]; [by left|].
  destruct Hq as [?|Hq]; [by left|right]. split; [done|]. intros b Hb. rewrite bit_ne; [by apply Hr| |done]. intros b' Hb' E. apply (lo_disj _ _ Hlay (IBLOCK (i_inum p1) sb)).
  - by exists b'.
  - apply is_ino_at. by rewrite (ext_inum _ _ _ _ _ Hch).
Qed.

(** Kernel memory as a source. *)
Lemma source_kernel pt src n k : 0 <= src -> 0 <= n -> src + n < 2 ^ 64 ->
  source pt false src (read_bytes (k_mem k) src (Z.to_nat n)) k.
Proof.
  intros H0 Hn Hl o m Ho Hm Hom. rewrite length_read_bytes in Hom.
  unfold either_copyin. rewrite (bind_Done (gets _) _ k _ k eq_refl), u64_small by lia. unfold ret. do 2 f_equal.
  apply list_eq. intros i. rewrite lookup_take, lookup_drop. destruct (decide (i < Z.to_nat m)%nat) as [Hi|Hi].
  - rewrite !lookup_read_bytes by lia. do 2 f_equal. lia.
  - apply lookup_ge_None. rewrite length_read_bytes. lia.
Qed.

(** C27: [readi] delivers the bytes of the file from [off] on, as many as were
    asked for and the file has (none past the end, none when [off + n]
    overflows), to kernel or user memory, and changes nothing else. *)
Theorem readi_correct V L ip p user dst off n W r s :
  fsr (Tx V L [] []) r s -> ino r ip p -> i_dev p = D -> file_ok V p -> Z.of_nat (length L) + 1 < NBUF ->
  0 <= off < 2 ^ 32 -> 0 <= n < 2 ^ 32 -> 0 <= dst < 2 ^ 64 ->
  sink (r_pt r) user dst (readi_len p off n) W -> W [] (r_k r) ->
  wp (readi ip user dst off n) (fun t s' => t = readi_len p off n /\
    exists k', W (fbytes V p off (readi_len p off n)) k' /\ fsr (Tx V L [] []) (set_rk k' r) s') s.
Proof. apply readi_fs. Qed.

(** C26: [writei] puts the bytes into the file at [off], growing it when they
    go past its end; it stores all of them unless the disk is full, and then a
    prefix; the inode on disk agrees with the one in memory; every other file,
    inode and block in use is unchanged.  An [off] past the end of the file or
    a file that would be too long is refused with -1 and nothing changes. *)
Theorem writei_correct V L ip p user src off bs r s :
  fsr (Tx V L [] []) r s -> r_sb r = sb -> ino r ip p -> i_dev p = D -> 0 <= i_inum p < sb_ninodes sb ->
  fs_ok V -> file_ok V p -> ino_ok p -> 0 <= off < 2 ^ 32 -> Z.of_nat (length bs) < 2 ^ 32 -> 0 <= src < 2 ^ 64 ->
  Forall (fun b => 0 <= b < 256) bs -> source (r_pt r) user src bs (r_k r) ->
  bcost p L + wblocks off (Z.of_nat (length bs)) < LOGSIZE - 1 ->
  wp (writei ip user src off (Z.of_nat (length bs))) (writei_result V L p ip off bs r) s.
Proof. apply writei_fs. Qed.

End FsFile.

(** User memory as a destination, when all of it is mapped. *)
Lemma sink_user `{HC : Ctx} `{HI : Image} `{HK : !ImageOk} k0 l T root E dst N :
  as_inv k0 l T root E -> user_owned (k_mem k0) T E -> 0 <= dst -> dst + N < 2 ^ 64 ->
  (forall i, 0 <= i < N -> is_Some (uaddr (k_mem k0) T (dst + i))) ->
  sink root true dst N (fun done k => as_inv k l T root E /\
    (forall va, pte_at (k_mem k) T va = pte_at (k_mem k0) T va) /\ uwritten E (k_mem k0) (k_mem k) dst done).
Proof.
  intros Hinv Hu H0 HN Hmap done bs k (K1 & K2 & K3) Hl. rewrite u64_small by lia. unfold either_copyout, copyout.
  assert (Hu1 : user_owned (k_mem k) T E).
  { intros va Hx. rewrite (uaddr_ext (k_mem k0)) in Hx by done. auto. }
  destruct (copyout_loop_spec (S (length bs)) (dst + Z.of_nat (length done)) bs k l T root E K1 Hu1 ltac:(lia) ltac:(lia))
    as (r & k' & n & Hrun & I1 & I2 & I3 & _ & Hr).
  destruct Hr as [[-> ->]|(_ & Hn & Hno)].
  - exists k'. split; [exact Hrun|]. split; [done|]. split; [intros; now rewrite I2|].
    rewrite firstn_all in I3. eapply uwritten_app; eassumption.
  - exfalso. rewrite (uaddr_ext (k_mem k0)) in Hno by done.
    destruct (Hmap (Z.of_nat (length done) + Z.of_nat n) ltac:(lia)) as [x Hx]. rewrite Z.add_assoc in Hx. congruence.
Qed.
