(* ===== verification/FsDir.v ===== *)
(** * Directories and path names of kernel/fs.c

    A directory is a file of 16 byte entries; [dirlookup] returns the inode of
    the first entry in use with the given name.  [skipelem] takes a path apart;
    the elements it delivers are those of the reference definition [elems]. *)

From S2P Require Import Prelude Memory Riscv Spinlock Kalloc Vm Bio Log Txn Fs FsBlock FsInode FsFile.

(** ** Path elements *)

(** Reference definition: the non-empty parts between slashes. *)
Fixpoint elems_from (cur path : list Z) : list (list Z) :=
  match path with
  | [] => if decide (cur = []) then [] else [cur]
  | c :: path' => if c =? SLASH then (if decide (cur = []) then [] else [cur]) ++ elems_from [] path'
                  else elems_from (cur ++ [c]) path'
  end.
Definition elems (path : list Z) : list (list Z) := elems_from [] path.

Lemma elems_skip path : elems (skip_slashes path) = elems path.
Proof.
  induction path as [|c path IH]; [done|]. simpl. destruct (Z.eqb_spec c SLASH) as [->|Hne]; [|done].
  rewrite IH. unfold elems. simpl. done.
Qed.

Lemma skip_slashes_hd path : hd 0 (skip_slashes path) <> SLASH.
Proof.
  induction path as [|c path IH]; [done|]. simpl. destruct (Z.eqb_spec c SLASH) as [->|Hne]; [done|]. done.
Qed.

Lemma skip_slashes_length path : (length (skip_slashes path) <= length path)%nat.
Proof. induction path as [|c path IH]; simpl; [lia|]. destruct (c =? SLASH); simpl; lia. Qed.

Lemma take_elem_spec cur path e rest : take_elem path = (e, rest) ->
  path = e ++ rest /\ (rest = [] \/ hd 0 rest = SLASH) /\
  elems_from cur path = (if decide (cur ++ e = []) then [] else [cur ++ e]) ++ elems rest.
Proof.
  revert cur e rest. induction path as [|c path IH]; intros cur e rest; simpl.
  - intros [= <- <-]. split; [done|]. split; [by left|]. now rewrite !app_nil_r.
  - destruct (Z.eqb_spec c SLASH) as [->|Hne].
    + intros [= <- <-]. split; [done|]. split; [by right|]. rewrite app_nil_r. done.
    + destruct (take_elem path) as [e' r'] eqn:E. intros [= <- <-].
      destruct (IH (cur ++ [c]) e' r' eq_refl) as (H1 & H2 & H3). split; [simpl; congruence|]. split; [done|].
      rewrite H3, <- app_assoc. done.
Qed.

(** The bytes of a [name] buffer up to its NUL, at most [DIRSIZ]. *)
Fixpoint cname (n : nat) (l : list Z) : list Z :=
  match n, l with
  | O, _ | _, [] => []
  | S n', c :: l' => if c =? 0 then [] else c :: cname n' l'
  end.

Lemma cname_app n e l : Forall (fun c => c <> 0) e -> cname n (e ++ l) = take n e ++ cname (n - length e) l.
Proof.
  revert n. induction e as [|c e IH]; intros n Hf; simpl; [destruct n; simpl; now rewrite ?Nat.sub_0_r|].
  inversion Hf as [|? ? H1 H2]; subst. destruct n as [|n]; [done|]. simpl.
  destruct (Z.eqb_spec c 0); [done|]. now rewrite IH.
Qed.

Lemma store_name_cname e name :
  Forall (fun c => c <> 0) e -> cname (Z.to_nat DIRSIZ) (store_name e name) = take (Z.to_nat DIRSIZ) e.
Proof.
  intros Hf. unfold store_name. destruct (Z.leb_spec DIRSIZ (Z.of_nat (length e))) as [Hl|Hl].
  - rewrite cname_app by (by apply Forall_take). rewrite length_take, take_take, !Nat.min_l by lia.
    rewrite Nat.sub_diag. simpl. apply app_nil_r.
  - rewrite cname_app by done. simpl. destruct (Z.to_nat DIRSIZ - length e)%nat; apply app_nil_r.
Qed.

(** What the loop of [namex] sees of a path: one [skipelem] after the other. *)
Fixpoint skip_all (fuel : nat) (path name : list Z) : option (list (list Z)) :=
  match fuel with
  | O => None
  | S fuel' => match skipelem path name with
               | None => Some []
               | Some (rest, name') => cons (cname (Z.to_nat DIRSIZ) name') <$> skip_all fuel' rest name'
               end
  end.

Lemma skip_slashes_Forall (P : Z -> Prop) path : Forall P path -> Forall P (skip_slashes path).
Proof. induction 1 as [|c path Hc Hf IH]; simpl; [done|]. destruct (c =? SLASH); [done|by constructor]. Qed.

Lemma skipelem_spec path name :
  match skipelem path name with
  | None => elems path = []
  | Some (rest, name') => exists e, e <> [] /\ elems path = e :: elems rest /\ name' = store_name e name /\
      hd 0 rest <> SLASH /\ (length rest < length path)%nat /\ forall P, Forall P path -> Forall P rest /\ Forall P e
  end.
Proof.
  unfold skipelem. rewrite <- (elems_skip path). pose proof (skip_slashes_hd path) as Hh.
  pose proof (skip_slashes_length path) as Hlen. pose proof (fun P => skip_slashes_Forall P path) as Hf2.
  destruct (skip_slashes path) as [|c p] eqn:Ep; [done|].
  destruct (take_elem (c :: p)) as [e rest] eqn:Et. destruct (take_elem_spec [] _ _ _ Et) as (H1 & H2 & H3).
  assert (He : e <> []).
  { intros ->. simpl in H1. subst rest. simpl in Hh. destruct H2 as [|H2]; done. }
  exists e. split; [done|].
  rewrite app_nil_l, decide_False in H3 by done. split; [rewrite elems_skip; exact H3|].
  split; [done|]. split; [apply skip_slashes_hd|]. split.
  - pose proof (skip_slashes_length rest). assert (Hl : length (c :: p) = (length e + length rest)%nat) by (rewrite H1; apply length_app).
    destruct e; [done|]. simpl in *. lia.
  - intros P Hf%Hf2. rewrite H1 in Hf. apply Forall_app in Hf as [Hfe Hfr]. split; [by apply skip_slashes_Forall|done].
Qed.

Lemma skip_all_spec fuel path name :
  Forall (fun c => c <> 0) path -> (length path < fuel)%nat ->
  skip_all fuel path name = Some (take (Z.to_nat DIRSIZ) <$> elems path).
Proof.
  revert path name. induction fuel as [|fuel IH]; intros path name Hf Hl; [lia|]. cbn [skip_all].
  pose proof (skipelem_spec path name) as Hs. destruct (skipelem path name) as [[rest name']|].
  - destruct Hs as (e & He & -> & -> & _ & Hlt & HF). destruct (HF _ Hf) as [Hfr Hfe]. rewrite IH by (done || lia).
    cbn [fmap option_fmap option_map]. rewrite store_name_cname by done. done.
  - now rewrite Hs.
Qed.

(** Taking a path apart with [skipelem] until it returns 0 delivers exactly
    the non-empty elements between slashes, in order, each cut to [DIRSIZ]
    bytes; every call shortens the path, so the loop of [namex] ends. *)
Theorem skipelem_elems path name :
  Forall (fun c => c <> 0) path ->
  skip_all (length path + 1) path name = Some (take (Z.to_nat DIRSIZ) <$> elems path).
Proof. intros Hf. apply skip_all_spec; [done|lia]. Qed.

(** ["a//bb/c"] *)
Lemma skipelem_elems_witness :
  skip_all 8 [97; 47; 47; 98; 98; 47; 99] (replicate 14 0) = Some [[97]; [98; 98]; [99]].
Proof.
  pose proof (skipelem_elems [97; 47; 47; 98; 98; 47; 99] (replicate 14 0)) as H. apply H.
  repeat constructor; discriminate.
Defined.

(** ** Directory entries *)

Lemma strncmp_bytes_eq n p q : Forall (fun c => 0 <= c) p -> Forall (fun c => 0 <= c) q ->
  (n <= length q)%nat -> strncmp_bytes n p q = 0 <-> cname n p = cname n q.
Proof.
  revert p q. induction n as [|n IH]; intros p q Hp Hq Hl; simpl; [done|].
  destruct q as [|d q]; simpl in Hl; [lia|]. inversion Hq as [|? ? Hd Hq2]; subst.
  destruct p as [|c p]; simpl.
  - destruct (Z.eqb_spec d 0) as [->|Hne]; [done|]. split; [lia|done].
  - inversion Hp as [|? ? Hc Hp2]; subst.
    destruct (Z.eqb_spec c 0) as [->|Hc0]; simpl.
    + destruct (Z.eqb_spec d 0) as [->|Hd0]; [done|]. split; [lia|done].
    + destruct (Z.eqb_spec c d) as [->|Hcd].
      * destruct (Z.eqb_spec d 0); [done|]. rewrite (IH p q) by (done || lia). split; [by intros ->|by intros [= ->]].
      * destruct (Z.eqb_spec d 0) as [->|Hd0]; (split; [lia|]); [done|]. intros [= ? _]. done.
Qed.

(** Entry [k] of a directory: inode number and name. *)
Definition dent (V : Z -> block) (p : inode) (k : Z) : Z * list Z :=
  (fbyte V p (16 * k) + 256 * fbyte V p (16 * k + 1), cname (Z.to_nat DIRSIZ) (fbytes V p (16 * k + 2) DIRSIZ)).
Definition dents (V : Z -> block) (p : inode) : list (Z * list Z) := dent V p <$> upto (i_size p / DESIZE).

(** The first entry in use with the name. *)
Fixpoint dir_find (l : list (Z * list Z)) (nm : list Z) (k : Z) : option (Z * Z) :=
  match l with
  | [] => None
  | (inum, n) :: l' => if negb (inum =? 0) && bool_decide (nm = n) then Some (k, inum) else dir_find l' nm (k + 1)
  end.

Section FsDir.
Context `{HC : Ctx} `{HI : Image} `{HF : Frame} {S : Type} `{HT : Txn S} (D : Z) (rep : txabs -> S -> Prop)
  (loggable : Z -> Prop) `{HO : !TxnOk S D rep loggable} (sb : superblock) (Hlay : layout loggable sb)
  (Hlocal : 0 <= local_addr /\ local_addr + 16 < 2 ^ 64).
Notation fsr := (fsr rep).
Notation fs_ok := (fs_ok loggable sb).
Notation file_ok := (file_ok loggable sb).

Lemma fbyte_range V p o : fs_ok V -> 0 <= fbyte V p o < 256.
Proof. intros Hfs. unfold fbyte. destruct (_ =? 0); [lia|]. apply get8_range, Hfs. Qed.

Lemma lookup_fbytes V p off n i : (Z.of_nat i < n) -> fbytes V p off n !! i = Some (fbyte V p (off + Z.of_nat i)).
Proof.
  intros Hi. unfold fbytes, upto. rewrite !list_lookup_fmap, lookup_seq_lt by lia. done.
Qed.
Lemma fbytes_range V p off n : fs_ok V -> Forall (fun b => 0 <= b < 256) (fbytes V p off n).
Proof. intros Hfs. apply Forall_fmap, Forall_forall. intros x _. by apply fbyte_range. Qed.

(** The local [de] after an entry was read into it. *)
Lemma mget_local V p m off i : fs_ok V -> 0 <= i < 16 ->
  mget (write_bytes m local_addr (fbytes V p off 16)) (local_addr + i) = fbyte V p (off + i).
Proof.
  intros Hfs Hi. pose proof (read_write_bytes m local_addr _ (fbytes_range V p off 16 Hfs)) as H.
  pose proof (length_fbytes V p off 16 ltac:(lia)) as Hl.
  assert (E : fbytes V p off 16 !! Z.to_nat i = Some (fbyte V p (off + i))) by (rewrite lookup_fbytes by lia; do 2 f_equal; lia).
  rewrite <- H in E. rewrite lookup_read_bytes in E by lia. injection E as <-. do 2 f_equal. lia.
Qed.
Lemma name_local V p m off : fs_ok V ->
  read_bytes (write_bytes m local_addr (fbytes V p off 16)) (local_addr + 2) (Z.to_nat DIRSIZ) = fbytes V p (off + 2) DIRSIZ.
Proof.
  intros Hfs. apply list_eq. intros i. destruct (decide (Z.of_nat i < DIRSIZ)) as [Hi|Hi].
  - rewrite lookup_read_bytes, lookup_fbytes by lia. f_equal. unfold DIRSIZ in Hi.
    rewrite <- Z.add_assoc, mget_local by (done || lia). f_equal. lia.
  - rewrite !(proj2 (lookup_ge_None _ _)); [done|..]; [|rewrite length_read_bytes; lia].
    pose proof (length_fbytes V p (off + 2) DIRSIZ ltac:(done)). lia.
Qed.

(** One entry of the directory, read by [dirlookup] and [dirlink]. *)
Definition dir_ok (V : Z -> block) (p : inode) : Prop :=
  fs_ok V /\ file_ok V p /\ i_dev p = D /\ i_size p mod DESIZE = 0.

Lemma readi_entry V L dp p k r s :
  fsr (Tx V L [] []) r s -> ino r dp p -> dir_ok V p -> Z.of_nat (length L) + 1 < NBUF -> 0 <= k -> 16 * k < i_size p ->
  wp (readi dp false local_addr (16 * k) DESIZE) (fun t s' => t = DESIZE /\ exists m,
    fsr (Tx V L [] []) (set_rk (set_mem m (r_k r)) r) s' /\ ldn 2 m local_addr = (dent V p k).1 /\
    read_bytes m (local_addr + 2) (Z.to_nat DIRSIZ) = fbytes V p (16 * k + 2) DIRSIZ) s.
Proof.
  intros Hs Hi (Hfs & Hf & Hd & Hmod) HL Hk Hlt. pose proof (fk_size _ _ _ _ Hf) as Hsz.
  assert (HM : MAXFILE * BSIZE < 2 ^ 31) by done. unfold DESIZE in *.
  assert (Hlen : readi_len p (16 * k) 16 = 16).
  { unfold readi_len. replace ((i_size p <? 16 * k) || (2 ^ 32 <=? 16 * k + 16)) with false by lia.
    apply Z.min_l. pose proof (Z.div_mod (i_size p) 16 ltac:(lia)). lia. }
  wp_use (readi_fs D rep loggable sb V L dp p false local_addr (16 * k) 16
    (fun done k' => k' = set_mem (write_bytes (k_mem (r_k r)) local_addr done) (r_k r)));
    [exact Hs|exact Hi|done|done|done|lia|lia|lia| | |].
  { rewrite Hlen. apply sink_kernel; lia. }
  { by destruct (r_k r). }
  rewrite Hlen. intros t s1 (-> & k' & -> & H1). split; [done|]. eexists. split; [exact H1|]. split.
  - unfold dent. cbn [fst]. change (ldn 2 ?m ?a) with (mget m a + 256 * (mget m (a + 1) + 256 * 0)).
    rewrite Z.mul_0_r, Z.add_0_r.
    pose proof (mget_local V p (k_mem (r_k r)) (16 * k) 0 Hfs ltac:(lia)) as E0. rewrite !Z.add_0_r in E0.
    rewrite E0, mget_local by (done || lia). done.
  - by apply name_local.
Qed.

Lemma dents_drop V p k : 0 <= k -> 16 * k < i_size p -> i_size p mod DESIZE = 0 ->
  drop (Z.to_nat k) (dents V p) = dent V p k :: drop (Z.to_nat (k + 1)) (dents V p).
Proof.
  intros Hk Hlt Hm. rewrite (drop_S (dents V p) (dent V p k)); [do 2 f_equal; lia|].
  unfold dents, upto. unfold DESIZE in *. pose proof (Z.div_mod (i_size p) 16 ltac:(lia)).
  rewrite !list_lookup_fmap, lookup_seq_lt by lia. simpl. f_equal. f_equal. lia.
Qed.
Lemma dents_end V p k : i_size p <= 16 * k -> 0 <= k -> drop (Z.to_nat k) (dents V p) = [].
Proof.
  intros Hk H0. apply drop_ge. unfold dents. rewrite length_fmap. pose proof (length_upto (i_size p / DESIZE)).
  unfold DESIZE in *. assert (i_size p / 16 <= k) by (apply Z.div_le_upper_bound; lia). lia.
Qed.

(** The result of a lookup that found [f]. *)
Definition lookup_post V L (r : fsrest) (f : option (Z * Z)) (x : option (Z * Z)) (s : fsst S) : Prop :=
  exists m, let r' := set_rk (set_mem m (r_k r)) r in
  match f with
  | None => x = None /\ fsr (Tx V L [] []) r' s
  | Some (k, inum) => exists ip p0 p', x = Some (ip, 16 * k) /\ iget_entry r D inum ip p0 p' /\
      fsr (Tx V L [] []) (upd_ino ip p' r') s /\ it_ok (r_it (upd_ino ip p' r)) /\
      forall d n, refs (r_it (upd_ino ip p' r)) d n =
        refs (r_it r) d n + if decide ((d, n) = (D, inum)) then 1 else 0
  end.

Lemma dirlookup_loop_fs fuel V L dp p name k r s :
  fsr (Tx V L [] []) r s -> ino r dp p -> dir_ok V p -> Z.of_nat (length L) + 1 < NBUF -> 0 <= k ->
  Forall (fun c => 0 <= c) name -> unlocked (r_itlock r) -> it_ok (r_it r) ->
  (exists i q, r_it r !! i = Some q /\ i_ref q = 0) ->
  i_size p <= 16 * (k + Z.of_nat fuel - 1) -> (0 < fuel)%nat ->
  wp (dirlookup_loop fuel dp name (16 * k))
    (lookup_post V L r (dir_find (drop (Z.to_nat k) (dents V p)) (cname (Z.to_nat DIRSIZ) name) k)) s.
Proof.
  intros Hs Hi Hdir HL Hk Hn Hu Hit Hfree. revert k r s Hs Hi Hk Hu Hit Hfree.
  pose proof Hdir as (Hfs & Hf & Hd & Hmod). pose proof (fk_size _ _ _ _ Hf) as Hsz.
  assert (HM : MAXFILE * BSIZE < 2 ^ 31) by done.
  induction fuel as [|fuel IH]; intros k r s Hs Hi Hk Hu Hit Hfree Hfuel Hpos; [lia|].
  cbn [dirlookup_loop]. apply wp_bind. wp_use geti_fs; [exact Hs|exact Hi|]. intros q s1 [-> H1].
  destruct (Z.ltb_spec (16 * k) (i_size p)) as [Hlt|Hge].
  2:{ apply wp_ret. exists (k_mem (r_k r)). cbv zeta. rewrite dents_end by lia. simpl. split; [done|].
      destruct r as [? ? ? [] ? ?]. exact H1. }
  apply wp_bind. wp_use readi_entry; [exact H1|exact Hi|done|done|done|done|].
  intros t s2 (-> & m & H2 & Hnum & Hname). apply wp_bind, wp_panic_if; [done|].
  rewrite dents_drop by done. cbn [dir_find]. destruct (dent V p k) as [inum nm] eqn:Ed.
  apply wp_bind, wp_gets.
  assert (Em : k_mem (fs_k s2) = m) by (destruct H2 as [_ E]; apply (f_equal r_k) in E; cbn in E; by rewrite E).
  rewrite Em, Hnum. cbn [fst].
  assert (Hrec : wp (dirlookup_loop fuel dp name (u32 (16 * k + DESIZE)))
    (lookup_post V L r (dir_find (drop (Z.to_nat (k + 1)) (dents V p)) (cname (Z.to_nat DIRSIZ) name) (k + 1))) s2).
  { replace (u32 (16 * k + DESIZE)) with (16 * (k + 1)) by (rewrite u32_small; unfold DESIZE; lia).
    wp_use (IH (k + 1) (set_rk (set_mem m (r_k r)) r)); [exact H2|exact Hi|lia|done|done|done|lia|lia|].
    intros x s3 (m' & Hx). exists m'. exact Hx. }
  destruct (Z.eqb_spec inum 0) as [->|Hne]; [exact Hrec|]. simpl negb. cbn [andb].
  apply wp_bind, wp_gets. rewrite Em, Hname.
  assert (Hcmp : (namecmp name (fbytes V p (16 * k + 2) DIRSIZ) =? 0) = bool_decide (cname (Z.to_nat DIRSIZ) name = nm)).
  { unfold namecmp. unfold dent in Ed. injection Ed as _ <-. apply Bool.eq_iff_eq_true.
    rewrite Z.eqb_eq, bool_decide_eq_true. apply strncmp_bytes_eq; [done| |].
    - eapply Forall_impl; [by apply fbytes_range|]. cbv beta. lia.
    - pose proof (length_fbytes V p (16 * k + 2) DIRSIZ ltac:(done)). lia. }
  rewrite Hcmp. destruct (bool_decide _); [|exact Hrec].
  apply wp_bind. rewrite Hd. wp_use (iget_fs rep); [exact H2|done|done|by right|].
  intros ip s3 (p0 & p' & G1 & G2 & G3 & G4). apply wp_ret. exists m. cbv zeta iota. exists ip, p0, p'.
  split; [done|]. split; [exact G1|]. split; [exact G2|]. split; [exact G3|exact G4].
Qed.

Lemma dirlookup_fs V L dp p name r s :
  fsr (Tx V L [] []) r s -> ino r dp p -> dir_ok V p -> i_type p = T_DIR -> Z.of_nat (length L) + 1 < NBUF ->
  Forall (fun c => 0 <= c) name -> unlocked (r_itlock r) -> it_ok (r_it r) ->
  (exists i q, r_it r !! i = Some q /\ i_ref q = 0) ->
  wp (dirlookup dp name) (lookup_post V L r (dir_find (dents V p) (cname (Z.to_nat DIRSIZ) name) 0)) s.
Proof.
  intros Hs Hi Hdir Hty HL Hn Hu Hit Hfree. unfold dirlookup. apply wp_bind. wp_use geti_fs; [exact Hs|exact Hi|].
  intros q s1 [-> H1]. apply wp_bind, wp_panic_if; [by rewrite Hty|].
  pose proof (fk_size _ _ _ _ (proj1 (proj2 Hdir))) as Hsz. unfold DESIZE.
  pose proof (Z.div_mod (i_size p) 16 ltac:(lia)) as Q. pose proof (Z.mod_pos_bound (i_size p) 16 ltac:(lia)) as Q2.
  pose proof (Z.div_pos (i_size p) 16 ltac:(lia) ltac:(lia)) as Q3.
  apply (dirlookup_loop_fs _ V L dp p name 0); try done; lia.
Qed.

(** [dirlookup] returns a reference to the inode of the first entry in use
    whose name is the given one (compared up to its NUL and at most [DIRSIZ]
    bytes), with the entry's offset, and 0 when there is none; it changes no
    file and no other reference count. *)
Theorem dirlookup_correct V L dp p name r s :
  fsr (Tx V L [] []) r s -> ino r dp p -> dir_ok V p -> i_type p = T_DIR -> Z.of_nat (length L) + 1 < NBUF ->
  Forall (fun c => 0 <= c) name -> unlocked (r_itlock r) -> it_ok (r_it r) ->
  (exists i q, r_it r !! i = Some q /\ i_ref q = 0) ->
  wp (dirlookup dp name) (lookup_post V L r (dir_find (dents V p) (cname (Z.to_nat DIRSIZ) name) 0)) s.
Proof. apply dirlookup_fs. Qed.
End FsDir.
