(* ===== verification/FsExample.v ===== *)
(** * A small file system

    A disk with a root directory and an empty file, in the layout of mkfs, and
    runs of the file system code on it through the real log and buffer
    cache. *)

From S2P Require Import Prelude Memory Riscv Spinlock Kalloc Vm VmWalk Bio Log Txn Fs FsBlock FsInode FsFile FsDir.

Module FsExample.
Export TxnExample.
#[export] Instance frame : Frame := {| local_addr := 8192 |}.

Lemma local_ok : 0 <= local_addr /\ local_addr + 16 < 2 ^ 64.
Proof. cbn. lia. Qed.

(** 200 blocks: the log at 2, inodes at 32, the free map at 34, data from 35. *)
Definition sb0 : superblock := Superblock FSMAGIC 200 165 32 30 2 32 34.
Definition pad (l : list Z) : block := l ++ replicate (Z.to_nat BSIZE - length l) 0.
Definition entry (inum : Z) (name : list Z) : list Z := [inum; 0] ++ name ++ replicate (14 - length name) 0.
Definition d0 : disk :=
  Disk {[ 34 := pad [255; 255; 255; 255; 15]; 35 := pad (entry 1 [46] ++ entry 1 [46; 46] ++ entry 2 [102]) ]} [].
Definition V0 : Z -> block := dread d0.

Definition free_ino : inode := Inode 0 0 0 (initsleeplock "inode") false 0 0 0 0 0 (replicate 13 0).
Definition my_lock : sleeplock := Sleeplock true (initlock "sleep lock") "inode" 1.
Definition root : inode := Inode 1 1 1 my_lock true T_DIR 0 0 1 48 (35 :: replicate 12 0).
Definition file2 : inode := Inode 1 2 1 my_lock true T_FILE 0 0 1 0 (replicate 13 0).
Definition it0 : list inode := root :: file2 :: replicate 48 free_ino.
Definition k0 : kst := Kst ∅ (initlock "kmem") 0.
Definition r0 : fsrest := Rest sb0 (initlock "itable") it0 k0 0 0.
Definition st0 (t : lst) : fsst lst := Fsst t sb0 (initlock "itable") it0 k0 0 0.

Lemma V0_recovered bn : recovered 2 (dread d0) bn = V0 bn.
Proof.
  unfold recovered, logical. change (head_blocks (dread d0 2)) with (@nil Z). cbn [install].
  destruct (decide (2 = bn)) as [<-|Hne]; [rewrite fn_lookup_insert; vm_compute; reflexivity|].
  by rewrite fn_lookup_insert_ne.
Qed.

Lemma head_d0 : head_ok 2 (dread d0).
Proof.
  apply (head_ok_0 2 []); [|vm_compute; reflexivity..]. split; [lia|done|]. intros b Hb. by apply elem_of_nil in Hb.
Qed.

(** The kernel booted on this disk, inside a transaction. *)
Definition F0 : Z -> block := recovered 2 (dread d0).
Definition H0 : list (Z * block) := d_hist d0 ++ recover_writes 2 (dread d0).
Notation rep0 := (tx_rep 1 2 1 F0 H0).
Lemma boot_tx : exists t, rep0 (Tx V0 [] [] []) t.
Proof.
  destruct (start_log_idle 1 2 d0) as (s & _ & Hi); [discriminate|exact head_d0|].
  destruct (begin_op_idle 1 2 _ _ s Hi) as (t & _ & Ht). exists t. exact (tx_rep_ext 1 2 1 F0 H0 _ _ _ _ _ _ V0_recovered Ht).
Qed.
Lemma boot_fs : exists s, fsr rep0 (Tx V0 [] [] []) r0 s.
Proof. destruct boot_tx as (t & Ht). by exists (st0 t). Qed.

Lemma bmap0 bn : is_bmap sb0 bn -> bn = 34.
Proof. intros (b & Hb & ->). unfold BBLOCK, BPB, BSIZE. cbn in *. rewrite Z.div_small by lia. done. Qed.
Lemma ino0 bn : is_ino sb0 bn -> bn = 32 \/ bn = 33.
Proof. intros (b & Hb & ->). unfold IBLOCK, IPB, BSIZE. change (1024 / 64) with 16. cbn in *. Z.div_mod_to_equations. lia. Qed.

Lemma layout0 : layout (loggable 2) sb0.
Proof.
  split.
  - cbn. lia.
  - cbn. lia.
  - intros bn ->%bmap0. split; [|lia]. split; [unfold home_ok; lia|unfold home, LOGSIZE, MAXOPBLOCKS; lia].
  - intros bn Hb%ino0. split; [|lia]. split; [unfold home_ok; lia|unfold home, LOGSIZE, MAXOPBLOCKS; lia].
  - intros bn H1%bmap0 H2%ino0. lia.
Qed.

Lemma bit0 b : 0 <= b < 200 -> bit sb0 V0 b = (b <? 36).
Proof.
  intros Hb. assert (Hall : Forall (fun b => bit sb0 V0 b = (b <? 36)) (upto 200))
    by (apply (bool_decide_unpack _); vm_compute; exact I).
  rewrite Forall_forall in Hall. apply Hall. by apply elem_upto.
Qed.
Lemma data0 b : 35 <= b < 200 -> data (loggable 2) sb0 b.
Proof.
  intros Hb. split; [split; [unfold home_ok; lia|unfold home, LOGSIZE, MAXOPBLOCKS; lia]|]. split; [lia|].
  split; [intros Hx%bmap0; lia|intros Hx%ino0; lia].
Qed.

Lemma fs_ok0 : fs_ok (loggable 2) sb0 V0.
Proof.
  split.
  - intros bn. unfold V0, dread. destruct (d_blocks d0 !! bn) as [v|] eqn:E; [|apply zero_block_ok].
    assert (Hall : map_Forall (fun _ v => length v = Z.to_nat BSIZE /\ Forall (fun x => 0 <= x < 256) v) (d_blocks d0))
      by (apply (bool_decide_unpack _); vm_compute; exact I).
    exact (Hall bn v E).
  - intros b Hb Hbit. change (sb_size sb0) with 200 in Hb. rewrite bit0 in Hbit by lia. apply data0. lia.
Qed.

(** A file whose blocks are all direct. *)
Lemma small_file_ok (p : inode) : i_addrs p = 35 :: replicate 12 0 \/ i_addrs p = replicate 13 0 ->
  0 <= i_size p <= BSIZE -> (0 < i_size p -> i_addrs p = 35 :: replicate 12 0) -> file_ok (loggable 2) sb0 V0 p.
Proof.
  intros Ha Hs Hpos.
  assert (Hblk : forall k, 0 <= k -> fblk V0 p k = if decide (k = 0) then geta p 0 else 0).
  { intros k Hk. unfold fblk. destruct (Z.ltb_spec k NDIRECT) as [Hlt|Hge].
    - assert (Hall : Forall (fun k => geta p k = if decide (k = 0) then geta p 0 else 0) (upto NDIRECT)).
      { unfold geta. destruct Ha as [-> | ->]; apply (bool_decide_unpack _); vm_compute; exact I. }
      rewrite Forall_forall in Hall. apply Hall. apply elem_upto. lia.
    - replace (geta p NDIRECT) with 0 by (unfold geta; destruct Ha as [-> | ->]; reflexivity).
      simpl. rewrite decide_False; [done|]. unfold NDIRECT in Hge. lia. }
  assert (H12 : geta p NDIRECT = 0) by (unfold geta; destruct Ha as [-> | ->]; reflexivity).
  assert (H0 : geta p 0 = 35 \/ geta p 0 = 0) by (unfold geta; destruct Ha as [-> | ->]; [left|right]; reflexivity).
  split.
  - intros b (Hb & [(k & Hk & Ek)|Ek]); [|congruence]. rewrite Hblk in Ek by (destruct Hk; lia).
    destruct (decide (k = 0)); [|congruence]. assert (b = 35) as -> by lia.
    split; [apply data0; lia|]. split; [cbn; lia|]. rewrite bit0 by lia. done.
  - intros j k Hj Hk. rewrite !Hblk by (destruct Hj, Hk; lia). destruct (decide (j = 0)), (decide (k = 0)); lia.
  - intros k Hk. congruence.
  - intros k Hk Hlt. unfold BSIZE in *. assert (k = 0) as -> by lia. rewrite Hblk by lia. simpl. unfold geta.
    rewrite Hpos by lia. done.
  - unfold MAXFILE, NDIRECT, NINDIRECT, BSIZE in *. change (1024 / 4) with 256. lia.
Qed.

Lemma root_ino : ino r0 0 root.
Proof. split; [lia|reflexivity]. Qed.
Lemma file2_ino : ino r0 1 file2.
Proof. split; [lia|reflexivity]. Qed.
Lemma unlocked0 : unlocked (r_itlock r0).
Proof. split; reflexivity. Qed.
Lemma it_ok0 : it_ok (r_it r0).
Proof.
  assert (Hl : forall i p, it0 !! i = Some p -> i = 0%nat /\ p = root \/ i = 1%nat /\ p = file2 \/ p = free_ino).
  { intros [|[|i]] p Hp; [left; by injection Hp as <-|right; left; by injection Hp as <-|right; right].
    change (replicate 48 free_ino !! i = Some p) in Hp. by apply lookup_replicate in Hp as [-> _]. }
  split.
  - intros i p [[_ ->]|[[_ ->]| ->]]%Hl; cbn; lia.
  - intros i j p q dev inum [[-> ->]|[[-> ->]| ->]]%Hl [[-> ->]|[[-> ->]| ->]]%Hl [P1 [P2 P3]] [Q1 [Q2 Q3]]; cbn in *; lia.
Qed.

Lemma balloc_correct_witness : exists s s', balloc (S := lst) 1 s = Done 36 s'.
Proof.
  destruct boot_fs as (s & Hs).
  destruct (balloc_correct 1 rep0 (loggable 2) sb0 layout0 V0 [] [] r0 s Hs) as (a & s' & Hrun & Hpost);
    [reflexivity|exact fs_ok0|apply held_nil|done|].
  exists s, s'. rewrite Hrun. f_equal. destruct Hpost as [(_ & _ & Hfull)|(Ha & Hb & Hlow & _)].
  - specialize (Hfull 40 ltac:(cbn; lia)). by rewrite bit0 in Hfull by lia.
  - cbn in Ha. rewrite bit0 in Hb by lia. destruct (decide (a = 36)) as [->|]; [done|].
    specialize (Hlow 36 ltac:(lia)). by rewrite bit0 in Hlow by lia.
Defined.

Lemma iget_correct_witness : exists s s', iget (S := lst) 1 2 s = Done 1 s'.
Proof.
  destruct boot_fs as (s & Hs).
  destruct (iget_correct rep0 _ r0 1 2 s Hs unlocked0 it_ok0) as (ip & s' & Hrun & p & p' & He & _); [left; reflexivity|].
  exists s, s'. rewrite Hrun. f_equal. destruct He as ((Hip & Hp) & _ & _ & _ & _ & [[Hl _]|(_ & Hr & _)]); [|done].
  pose proof (to_uniq _ it_ok0 (Z.to_nat ip) 1 p file2 1 2 Hp eq_refl Hl) as E.
  specialize (E ltac:(split; [cbn; lia|done])). lia.
Defined.

Lemma readi_correct_witness : exists s s', readi (S := lst) 0 false 4096 16 16 s = Done 16 s' /\
  read_bytes (k_mem (fs_k s')) 4096 4 = [1; 0; 46; 46].
Proof.
  destruct boot_fs as (s & Hs).
  destruct (readi_correct 1 rep0 (loggable 2) sb0 V0 [] 0 root false 4096 16 16
    (fun bs k => k = set_mem (write_bytes (k_mem k0) 4096 bs) k0) r0 s) as (t & s' & Hrun & -> & k' & -> & H1);
    [exact Hs|exact root_ino|reflexivity|apply small_file_ok; [by left|cbn; unfold BSIZE; lia|done]|done|lia|lia|lia| |reflexivity|].
  - apply sink_kernel; [lia|vm_compute; reflexivity].
  - exists s, s'. split; [exact Hrun|]. clear Hrun. destruct H1 as [_ E]. apply (f_equal r_k) in E. cbn in E.
    rewrite E. vm_compute. reflexivity.
Defined.

Lemma writei_correct_witness : exists s t s' V' p', writei (S := lst) 1 false 4096 0 3 s = Done t s' /\
  written (loggable 2) sb0 V0 file2 0 [0; 0; 0] t V' p'.
Proof.
  destruct boot_fs as (s & Hs).
  destruct (writei_correct 1 rep0 (loggable 2) sb0 layout0 V0 [] 1 file2 false 4096 0 [0; 0; 0] r0 s)
    as (t & s' & Hrun & Hw); try reflexivity; try exact Hs; try exact file2_ino; try exact fs_ok0; try (cbn; lia).
  - apply small_file_ok; [by right|cbn; unfold BSIZE; lia|cbn; lia].
  - split; cbn; unfold T_FILE; try lia. repeat constructor; lia.
  - repeat constructor; lia.
  - apply (source_kernel 0 4096 3 k0); lia.
  - exists s, t, s'. change (writei_ok file2 0 (Z.of_nat (length [0; 0; 0]))) with true in Hw.
    destruct Hw as (V' & L' & p' & _ & _ & Hw & _). exists V', p'. split; [exact Hrun|exact Hw].
Defined.

(** ["f"] *)
Lemma dirlookup_correct_witness : exists s s' ip, dirlookup (S := lst) 0 [102; 0] s = Done (Some (ip, 32)) s'.
Proof.
  destruct boot_fs as (s & Hs).
  destruct (dirlookup_correct 1 rep0 (loggable 2) sb0 local_ok V0 [] 0 root [102; 0] r0 s)
    as (x & s' & Hrun & m & Hp); try exact Hs; try exact root_ino; try exact unlocked0; try exact it_ok0; try reflexivity.
  - split; [exact fs_ok0|]. split; [apply small_file_ok; [by left|cbn; unfold BSIZE; lia|done]|]. split; reflexivity.
  - repeat constructor; lia.
  - exists 2%nat, free_ino. split; reflexivity.
  - assert (E : dir_find (dents V0 root) (cname (Z.to_nat DIRSIZ) [102; 0]) 0 = Some (2, 2)) by (vm_compute; reflexivity).
    rewrite E in Hp. destruct Hp as (ip & p0 & p' & -> & _). exists s, s', ip. exact Hrun.
Defined.
End FsExample.
