(* ===== verification/FsPath.v ===== *)
(** * Path names of kernel/fs.c

    [namex] follows a path from directory to directory, with a reference to at
    most two inodes at a time.  Its result is the one of a walk over the
    directories on disk, and the reference counts of the inode table are those
    before, but for one more reference to the inode it returns. *)

From S2P Require Import Prelude Memory Riscv Spinlock Kalloc Vm VmWalk Bio Log Txn Fs FsBlock FsInode FsFile FsDir.

(** ** Room in the inode table *)

Lemma filter_all {A} (P : A -> Prop) `{!forall x, Decision (P x)} l : Forall P l -> filter P l = l.
Proof. induction 1 as [|x l Hx Hl IH]; [done|]. by rewrite filter_cons_True, IH. Qed.
Lemma filter_no {A} (P : A -> Prop) `{!forall x, Decision (P x)} l : Forall (fun x => ~ P x) l -> filter P l = [].
Proof. induction 1 as [|x l Hx Hl IH]; [done|]. by rewrite filter_cons_False. Qed.

Definition in_use (p : inode) : bool := 0 <? i_ref p.
Definition keys (it : list inode) : list (Z * Z) := (fun p => (i_dev p, i_inum p)) <$> filter in_use it.

Lemma elem_keys it d n : (d, n) ∈ keys it <-> exists i p, it !! i = Some p /\ live p d n.
Proof.
  unfold keys. rewrite list_elem_of_fmap. split.
  - intros (p & [= -> ->] & [Hu Hp]%list_elem_of_filter). apply list_elem_of_lookup in Hp as [i Hi]. exists i, p. split; [done|].
    unfold in_use in Hu. split; [|done]. apply Is_true_true in Hu. lia.
  - intros (i & p & Hi & Hr & <- & <-). exists p. split; [done|]. apply list_elem_of_filter. split; [|by eapply list_elem_of_lookup_2].
    apply Is_true_true. unfold in_use. lia.
Qed.
Lemma it_ok_cons p it : it_ok (p :: it) -> it_ok it.
Proof.
  intros [H1 H2]. split; [intros i q Hi; by apply (H1 (S i))|]. intros i j q q' d n Hi Hj Hq Hq'.
  pose proof (H2 (S i) (S j) q q' d n Hi Hj Hq Hq'). lia.
Qed.
Lemma NoDup_keys it : it_ok it -> NoDup (keys it).
Proof.
  induction it as [|p it IH]; intros Hok; [constructor|]. specialize (IH (it_ok_cons _ _ Hok)).
  unfold keys. rewrite filter_cons. destruct (decide _) as [Hu|Hu]; [|exact IH]. apply NoDup_cons. split; [|exact IH].
  intros (i & q & Hi & Hl)%elem_keys. apply Is_true_true in Hu. unfold in_use in Hu.
  discriminate (to_uniq _ Hok 0 (S i) p q _ _ eq_refl Hi ltac:(split; [lia|done]) Hl).
Qed.

Lemma refs_nonneg it d n : it_ok it -> 0 <= refs it d n.
Proof.
  intros Hok. unfold refs. destruct (iget_find it 0 d n) as [ip|]; [|done]. destruct (it !! Z.to_nat ip) as [p|] eqn:E; [|done].
  exact (to_ref _ Hok _ _ E).
Qed.

(** The references in [it] are those of [it0] and the ones in [extra]. *)
Definition refs_plus (it0 : list inode) (extra : list (Z * Z)) (it : list inode) : Prop :=
  length it = length it0 /\ forall d n, refs it d n = refs it0 d n + Z.of_nat (length (filter (.= (d, n)) extra)).
Definition room (it : list inode) (k : nat) : Prop := (length (keys it) + k <= length it)%nat.

Lemma table_slot it : it_ok it -> (length (keys it) < length it)%nat -> exists i p, it !! i = Some p /\ i_ref p = 0.
Proof.
  intros Hok Hl. unfold keys in Hl. rewrite length_fmap in Hl.
  destruct (decide (Exists (fun p => i_ref p = 0) it)) as [He|Hn].
  - apply Exists_exists in He as (p & Hp & E). apply list_elem_of_lookup in Hp as [i Hi]. by exists i, p.
  - exfalso. apply not_Exists_Forall in Hn; [|intros p; apply _]. revert Hl. rewrite filter_all; [lia|].
    apply Forall_lookup. intros i p Hi. pose proof (to_ref _ Hok i p Hi). pose proof (proj1 (Forall_lookup _ _) Hn i p Hi). cbn in *.
    apply Is_true_true. unfold in_use. lia.
Qed.
Lemma refs_keys it d n : it_ok it -> 0 < refs it d n <-> (d, n) ∈ keys it.
Proof.
  intros Hok. rewrite elem_keys. split; [by apply refs_pos|]. intros (i & p & Hi & Hl). rewrite (refs_live _ i p d n Hok Hi Hl). apply Hl.
Qed.
Lemma room_plus it0 extra it k : it_ok it0 -> it_ok it -> refs_plus it0 extra it -> room it0 (length extra + k) -> room it k.
Proof.
  intros Ho0 Ho [Hl Hr] Hm. unfold room in *. assert (Hsub : keys it ⊆+ keys it0 ++ extra).
  { apply NoDup_submseteq; [by apply NoDup_keys|]. intros [d n] Hk%refs_keys; [|done]. rewrite Hr in Hk. apply elem_of_app.
    destruct (decide (0 < refs it0 d n)) as [Hp|Hp]; [left; by apply refs_keys|right].
    destruct (decide ((d, n) ∈ extra)) as [|Hn]; [done|]. rewrite (filter_no (.= (d, n))) in Hk; [simpl in Hk; lia|].
    apply Forall_forall. intros x Hx ->. done. }
  apply submseteq_length in Hsub. rewrite length_app in Hsub. lia.
Qed.

Section FsPath.
Context `{HC : Ctx} `{HI : Image} `{HF : Frame} {S : Type} `{HT : Txn S} (D : Z) (rep : txabs -> S -> Prop)
  (loggable : Z -> Prop) `{HO : !TxnOk S D rep loggable} (sb : superblock) (Hlay : layout loggable sb)
  (Hlocal : 0 <= local_addr /\ local_addr + 16 < 2 ^ 64).
Notation fsr := (fsr rep).
Notation dir_ok := (dir_ok D loggable sb).

(** ** Inodes on disk *)

Definition disk_ino (V : Z -> block) (i : Z) : inode :=
  dinode_at sb V i (Inode D i 0 (initsleeplock EmptyString) false 0 0 0 0 0 []).

(** A set of inodes in use, closed under the entries of its directories. *)
Record tree (V : Z -> block) (Tr : Z -> Prop) : Prop := {
  tr_inum i : Tr i -> 0 <= i < sb_ninodes sb;
  tr_type i : Tr i -> i_type (disk_ino V i) <> 0;
  tr_nlink i : Tr i -> i_nlink (disk_ino V i) <> 0;
  tr_dir i : Tr i -> i_type (disk_ino V i) = T_DIR -> dir_ok V (disk_ino V i);
  tr_entry i j n : Tr i -> i_type (disk_ino V i) = T_DIR -> (j, n) ∈ dents V (disk_ino V i) -> j <> 0 -> Tr j
}.

(** Following the names in [es] from inode [i]; with [parent] up to the
    directory that the last name is to be looked up in. *)
Fixpoint walk (V : Z -> block) (i : Z) (parent : bool) (es : list (list Z)) : option Z :=
  match es with
  | [] => if parent then None else Some i
  | e :: es' =>
      if i_type (disk_ino V i) =? T_DIR then
        if parent && bool_decide (es' = []) then Some i
        else match dir_find (dents V (disk_ino V i)) e 0 with
             | Some (_, j) => walk V j parent es'
             | None => None
             end
      else None
  end.

Definition same_data (p q : inode) : Prop :=
  i_type p = i_type q /\ i_nlink p = i_nlink q /\ i_size p = i_size q /\ i_addrs p = i_addrs q.

Lemma fblk_data V p q k : same_data p q -> fblk V p k = fblk V q k.
Proof. intros (_ & _ & _ & E). unfold fblk, geta. by rewrite E. Qed.
Lemma fbyte_data V p q o : same_data p q -> fbyte V p o = fbyte V q o.
Proof. intros H. unfold fbyte. by rewrite (fblk_data V p q _ H). Qed.
Lemma fbytes_data V p q o n : same_data p q -> fbytes V p o n = fbytes V q o n.
Proof. intros H. apply list_fmap_ext. intros ? ? _. by apply fbyte_data. Qed.
Lemma file_ok_data V p q : same_data p q -> file_ok loggable sb V q -> file_ok loggable sb V p.
Proof.
  intros H [F1 F2 F3 F4 F5]. pose proof (fun k => fblk_data V p q k H) as Eb. destruct H as (_ & _ & E1 & E2).
  assert (Eo : forall b, owned V p b <-> owned V q b) by (intros b; unfold owned; setoid_rewrite Eb; unfold geta; by rewrite E2). split.
  - intros b Hb%Eo. by apply F1.
  - intros j k. rewrite !Eb. apply F2.
  - intros k. rewrite Eb. unfold geta. rewrite E2. apply F3.
  - intros k. rewrite Eb, E1. apply F4.
  - by rewrite E1.
Qed.
Lemma dir_ok_data V p q : same_data p q -> i_dev p = i_dev q -> dir_ok V q -> dir_ok V p /\ dents V p = dents V q.
Proof.
  intros H E3 (H1 & H2 & H3 & H4). pose proof H as (_ & _ & E1 & _). split.
  - split; [done|]. split; [by eapply file_ok_data|split; congruence].
  - unfold dents. rewrite E1. apply list_fmap_ext. intros k x _. unfold dent. by rewrite !(fbyte_data V p q _ H), (fbytes_data V p q _ _ H).
Qed.
Lemma dinode_data V i p : same_data (dinode_at sb V i p) (disk_ino V i).
Proof. done. Qed.

(** ** The state of a walk *)

Definition slot_ok (V : Z -> block) (lk : bool) (p : inode) : Prop :=
  unlocked (sl_lk (i_lock p)) /\
  (if lk then sl_locked (i_lock p) = true /\ sl_pid (i_lock p) = mypid /\ i_valid p = true /\ 1 <= i_ref p
   else sl_locked (i_lock p) = false) /\
  (0 < i_ref p -> i_dev p = D /\ 0 <= i_inum p < sb_ninodes sb /\
    (i_valid p = true -> same_data p (disk_ino V (i_inum p)))).

(** The inode table, with the inode in slot [lk] locked by this process. *)
Record table (V : Z -> block) (lk : option Z) (r : fsrest) : Prop := {
  ta_sb : r_sb r = sb;
  ta_lk : unlocked (r_itlock r);
  ta_ok : it_ok (r_it r);
  ta_slot ip p : ino r ip p -> slot_ok V (bool_decide (lk = Some ip)) p
}.

(** The state when the walk began was [r0]; [extra] are the references taken
    since. *)
Definition pinv V (r0 : fsrest) lk extra (r : fsrest) : Prop :=
  table V lk r /\ refs_plus (r_it r0) extra (r_it r) /\ exists m, r = set_rk (set_mem m (r_k r0)) (set_rit (r_it r) r0).
Definition pst V L (r0 : fsrest) lk extra (r : fsrest) (s : fsst S) : Prop :=
  fsr (Tx V L [] []) r s /\ pinv V r0 lk extra r.
Definition refers (r : fsrest) (ip i : Z) : Prop := exists p, ino r ip p /\ live p D i.

Definition nrefs (extra : list (Z * Z)) (d n : Z) : Z := Z.of_nat (length (filter (.= (d, n)) extra)).
Lemma nrefs_cons d n x extra : nrefs (x :: extra) d n = nrefs extra d n + if decide ((d, n) = x) then 1 else 0.
Proof.
  unfold nrefs. rewrite filter_cons. destruct (decide (x = (d, n))) as [->|Hne].
  - rewrite decide_True by done. simpl. lia.
  - rewrite decide_False by congruence. lia.
Qed.

Lemma refers_ino r ip i p : refers r ip i -> ino r ip p -> live p D i.
Proof. intros (q & [_ Hq] & Hl) [_ Hp]. assert (q = p) as -> by congruence. done. Qed.

(** A change of one slot. *)
Lemma pst_slot V L r0 lk lk' extra extra' r s' ip p p' :
  pinv V r0 lk extra r -> ino r ip p -> (forall j, j <> ip -> (lk' = Some j <-> lk = Some j)) ->
  slot_ok V (bool_decide (lk' = Some ip)) p' -> it_ok (r_it (upd_ino ip p' r)) ->
  (forall d n, refs (r_it (upd_ino ip p' r)) d n = refs (r_it r) d n + nrefs extra' d n - nrefs extra d n) ->
  fsr (Tx V L [] []) (upd_ino ip p' r) s' -> pst V L r0 lk' extra' (upd_ino ip p' r) s'.
Proof.
  intros ([T1 T2 T3 T4] & [Hl Hr] & m & E) Hi Hlk Hp' Hok Hrefs Hs'. split; [exact Hs'|]. split; [|split].
  - split; try done. intros jp q Hq. destruct (decide (jp = ip)) as [->|Hne].
    + pose proof (ino_upd r ip p p' Hi) as [_ E1]. destruct Hq as [_ E2]. assert (q = p') as -> by congruence. done.
    + assert (Hq' : ino r jp q). { destruct Hq as [Q1 Q2]. split; [done|]. cbn in Q2. destruct Hi. by rewrite list_lookup_insert_ne in Q2 by lia. }
      specialize (T4 jp q Hq'). rewrite (bool_decide_ext (lk' = Some jp) (lk = Some jp)) by (by apply Hlk). exact T4.
  - split; [cbn; by rewrite length_insert|]. intros d n. rewrite Hrefs, Hr. unfold nrefs. lia.
  - exists m. rewrite E. done.
Qed.
Lemma refers_upd r ip i p p' jp j : ino r ip p -> live p' D i -> live p D i -> refers r jp j -> refers (upd_ino ip p' r) jp j.
Proof.
  intros Hi Hl Hl0 (q & Hq & Hj). destruct (decide (jp = ip)) as [->|Hne].
  - exists p'. split; [by eapply ino_upd|]. assert (q = p) as -> by (destruct Hi, Hq; congruence).
    destruct Hj as (_ & _ & <-), Hl0 as (_ & _ & ->). done.
  - exists q. split; [|done]. apply ino_upd_ne; [done|apply Hi|done].
Qed.
(** Lock and unlock keep the count. *)
Lemma pst_same V L r0 lk lk' extra r s s' ip p p' i :
  pst V L r0 lk extra r s -> ino r ip p -> live p D i -> (forall j, j <> ip -> (lk' = Some j <-> lk = Some j)) ->
  slot_ok V (bool_decide (lk' = Some ip)) p' -> i_dev p' = D -> i_inum p' = i -> i_ref p' = i_ref p ->
  fsr (Tx V L [] []) (upd_ino ip p' r) s' ->
  pst V L r0 lk' extra (upd_ino ip p' r) s' /\ forall jp j, refers r jp j -> refers (upd_ino ip p' r) jp j.
Proof.
  intros Hp Hi Hl Hlk Hs E1 E2 E3 Hf. pose proof Hp as (_ & T & _).
  destruct (it_change (r_it r) (Z.to_nat ip) p p' D i (ta_ok _ _ _ T) (proj2 Hi) E1 E2 ltac:(destruct Hl; lia) ltac:(by left)) as [C1 C2]. split.
  - eapply pst_slot; [apply Hp|exact Hi|done..| |exact Hf]. intros d n. cbn [r_it upd_ino set_rit]. rewrite C2. destruct (decide _) as [[= -> ->]|]; [|lia].
    rewrite (refs_live _ _ _ _ _ (ta_ok _ _ _ T) (proj2 Hi) Hl). lia.
  - intros jp j. eapply refers_upd; [done| |done]. destruct Hl. split; [lia|done].
Qed.

Lemma locked_data V p : (i_valid p = true -> same_data p (disk_ino V (i_inum p))) -> same_data (locked_ino sb V p) (disk_ino V (i_inum p)).
Proof. intros H. unfold locked_ino. destruct (i_valid p); [exact (H eq_refl)|done]. Qed.

Lemma ilock_p V L r0 extra r s ip i Tr :
  pst V L r0 None extra r s -> refers r ip i -> tree V Tr -> Tr i -> Z.of_nat (length L) + 1 < NBUF ->
  wp (ilock ip) (fun _ s' => exists r' p', pst V L r0 (Some ip) extra r' s' /\ ino r' ip p' /\ live p' D i /\
    same_data p' (disk_ino V i) /\ forall jp j, refers r jp j -> refers r' jp j) s.
Proof.
  intros Hp (p & Hi & Hl) Ht Hin HL. pose proof Hp as (Hs & T & _). destruct (ta_slot _ _ _ T ip p Hi) as (S1 & S2 & S3).
  rewrite bool_decide_false in S2 by done. pose proof Hl as (Hr & L1 & L2). destruct (S3 Hr) as (_ & Hn & Hv). subst i.
  pose proof (locked_data V p Hv) as Hd.
  wp_use (ilock_fs D rep loggable sb Hlay V L []); [exact Hs|apply T|exact Hi|done|done|lia|done|done|by apply not_elem_of_nil|simpl; lia| |].
  { destruct Hd as [-> _]. by apply (tr_type _ _ Ht). }
  intros [] s' Hs'. assert (E : forall q, i_dev (locked_ino sb V q) = i_dev q /\ i_inum (locked_ino sb V q) = i_inum q /\
    i_ref (locked_ino sb V q) = i_ref q /\ i_lock (locked_ino sb V q) = Sleeplock true (sl_lk (i_lock q)) (sl_name (i_lock q)) mypid /\
    i_valid (locked_ino sb V q) = true).
  { intros q. unfold locked_ino. by destruct (i_valid q) eqn:Ev. }
  destruct (E p) as (E1 & E2 & E3 & E4 & E5).
  destruct (pst_same V L r0 None (Some ip) extra r s s' ip p (locked_ino sb V p) (i_inum p)) as [Hp' Href]; try done; try congruence.
  - intros j Hj. split; [congruence|done].
  - rewrite bool_decide_true by done. split; [by rewrite E4|]. rewrite E4, E5, E3. split; [split_and!; try done; lia|]. rewrite E1, E2. done.
  - exists (upd_ino ip (locked_ino sb V p) r), (locked_ino sb V p). split; [exact Hp'|]. split; [by eapply ino_upd|].
    split; [|split; [exact Hd|exact Href]]. split; [lia|]. by rewrite E1, E2.
Qed.

Lemma iunlock_p V L r0 extra r s ip i :
  pst V L r0 (Some ip) extra r s -> refers r ip i ->
  wp (iunlock ip) (fun _ s' => exists r', pst V L r0 None extra r' s' /\ forall jp j, refers r jp j -> refers r' jp j) s.
Proof.
  intros Hp (p & Hi & Hl). pose proof Hp as (Hs & T & _). destruct (ta_slot _ _ _ T ip p Hi) as (S1 & S2 & S3).
  rewrite bool_decide_true in S2 by done. destruct S2 as (K1 & K2 & K3 & K4). pose proof Hl as (Hr & L1 & L2). destruct (S3 Hr) as (_ & Hn & Hv).
  wp_use (iunlock_fs D rep sb); [exact Hs|exact Hi|by split|]. intros [] s' Hs'.
  eexists. eapply (pst_same V L r0 (Some ip) None extra r s s' ip p _ i); try exact Hs'; try done.
  intros j Hj. split; congruence.
Qed.

(** [iput] of a reference taken before; other references stay. *)
Lemma iput_p V L r0 extra r s ip i Tr :
  pst V L r0 None ((D, i) :: extra) r s -> refers r ip i -> tree V Tr -> Tr i -> it_ok (r_it r0) ->
  wp (iput ip) (fun _ s' => exists r', pst V L r0 None extra r' s' /\ forall jp j, (D, j) ∈ extra -> refers r jp j -> refers r' jp j) s.
Proof.
  intros Hp (p & Hi & Hl) Ht Hin Hok0. pose proof Hp as (Hs & T & [_ Hr] & _). destruct (ta_slot _ _ _ T ip p Hi) as (S1 & S2 & S3).
  pose proof Hl as (Hpos & L1 & L2). destruct (S3 Hpos) as (_ & Hn & Hv). subst i.
  wp_use (iput_fs rep); [exact Hs|apply T|exact Hi| |].
  { destruct (i_valid p); [right; right|right; by left]. destruct (Hv eq_refl) as (_ & -> & _). by apply (tr_nlink _ _ Ht). }
  intros [] s' Hs'. set (p' := ino_ref (i_ref p - 1) p) in *. exists (upd_ino ip p' r).
  destruct (it_change (r_it r) (Z.to_nat ip) p p' D (i_inum p) (ta_ok _ _ _ T) (proj2 Hi) L1 eq_refl ltac:(cbn; lia) ltac:(by left)) as [C1 C2]. split.
  - apply (pst_slot V L r0 None None ((D, i_inum p) :: extra) extra r s' ip p p'); try done; [apply Hp|].
    intros d n. cbn [r_it upd_ino set_rit]. rewrite C2, nrefs_cons. destruct (decide _) as [[= -> ->]|]; [|lia].
    rewrite (refs_live _ _ _ _ _ (ta_ok _ _ _ T) (proj2 Hi) Hl). cbn. lia.
  - intros jp j Hex (q & Hq & Hj). destruct (decide (jp = ip)) as [->|Hne].
    + assert (q = p) as -> by (destruct Hi, Hq; congruence). exists p'. split; [by eapply ino_upd|]. destruct Hj as (_ & _ & <-).
      split; [|done]. cbn. pose proof (Hr D (i_inum p)) as E. rewrite (refs_live _ _ _ _ _ (ta_ok _ _ _ T) (proj2 Hi) Hl) in E.
      fold (nrefs ((D, i_inum p) :: extra) D (i_inum p)) in E. rewrite nrefs_cons, decide_True in E by done.
      assert (0 < nrefs extra D (i_inum p)).
      { assert (Hf : (D, i_inum p) ∈ filter (.= (D, i_inum p)) extra) by (by apply list_elem_of_filter). unfold nrefs.
        destruct (filter _ extra); [by apply elem_of_nil in Hf|simpl; lia]. }
      assert (0 <= refs (r_it r0) D (i_inum p)) by (by apply refs_nonneg). lia.
    + exists q. split; [|done]. apply ino_upd_ne; [done|apply Hi|done].
Qed.

Lemma pinv_mem V r0 lk extra r m : pinv V r0 lk extra r -> pinv V r0 lk extra (set_rk (set_mem m (r_k r)) r).
Proof.
  intros ([T1 T2 T3 T4] & Hr & m0 & E). split; [by split|]. split; [done|]. exists m. rewrite E. done.
Qed.
Lemma dir_find_elem l nm k k' j : dir_find l nm k = Some (k', j) -> j <> 0 /\ exists n, (j, n) ∈ l.
Proof.
  revert k. induction l as [|[i n] l IH]; intros k; [done|]. cbn [dir_find]. destruct (negb (i =? 0) && bool_decide (nm = n)) eqn:E.
  - intros [= _ <-]. split; [destruct (Z.eqb_spec i 0); [done|lia]|]. exists n. left.
  - intros [H1 [n' H2]]%IH. split; [done|]. exists n'. by right.
Qed.
(** The slot [iget] chose. *)
Lemma iget_slot V b r j ip p p' : iget_entry r D j ip p p' -> slot_ok V b p -> 0 <= j < sb_ninodes sb -> 0 <= i_ref p -> slot_ok V b p'.
Proof.
  intros (Hi & E1 & E2 & E3 & E4 & [[Hl ->]|(H0 & Hr & Hv)]) (S1 & S2 & S3) Hj Hnn.
  - split; [done|]. split; [destruct b; [destruct S2 as (?&?&?&?); split_and!; try done; cbn; lia|done]|]. intros _. apply S3, Hl.
  - split; [by rewrite E3|]. rewrite E3. split; [|intros _; rewrite E1, E2, Hv; done]. destruct b; [|done]. destruct S2 as (_ & _ & _ & ?). lia.
Qed.
Lemma iget_refers r j ip p p' jp j' : iget_entry r D j ip p p' -> refers r jp j' -> refers (upd_ino ip p' r) jp j'.
Proof.
  intros (Hi & E1 & E2 & E3 & E4 & Hor) (q & Hq & Hl). destruct (decide (jp = ip)) as [->|Hne].
  - assert (q = p) as -> by (destruct Hi, Hq; congruence). exists p'. split; [by eapply ino_upd|].
    destruct Hor as [[Hl0 ->]|(H0 & _)]; [|destruct Hl; lia]. destruct Hl as (A & B & C). split; [cbn; lia|done].
  - exists q. split; [|done]. apply ino_upd_ne; [done|apply Hi|done].
Qed.

(** [dirlookup] in the directory that is locked. *)
Lemma dirlookup_p V L r0 extra r s dp p i name Tr :
  pst V L r0 (Some dp) extra r s -> ino r dp p -> live p D i -> same_data p (disk_ino V i) -> tree V Tr -> Tr i ->
  i_type (disk_ino V i) = T_DIR -> Z.of_nat (length L) + 1 < NBUF -> Forall (fun c => 0 <= c) name ->
  it_ok (r_it r0) -> room (r_it r0) (length extra + 1) ->
  wp (dirlookup dp name) (fun x s' => exists r', (forall jp j, refers r jp j -> refers r' jp j) /\
    match dir_find (dents V (disk_ino V i)) (cname (Z.to_nat DIRSIZ) name) 0 with
    | None => x = None /\ pst V L r0 (Some dp) extra r' s'
    | Some (_, j) => exists ip off, x = Some (ip, off) /\ pst V L r0 (Some dp) ((D, j) :: extra) r' s' /\ refers r' ip j /\ Tr j
    end) s.
Proof.
  intros Hp Hi Hl Hd Ht Hin Hty HL Hn Hok0 Hroom. pose proof Hp as (Hs & T & Hr & m0 & Er). pose proof Hl as (Hpos & L1 & L2).
  destruct (dir_ok_data V p (disk_ino V i) Hd L1 (tr_dir _ _ Ht i Hin Hty)) as [Hdir Hde]. rewrite <- Hde.
  pose proof (room_plus _ _ _ 1 Hok0 (ta_ok _ _ _ T) Hr Hroom) as Hm. unfold room in Hm.
  wp_use (dirlookup_fs D rep loggable sb Hlocal V L dp p name r); [exact Hs|exact Hi|exact Hdir|by destruct Hd as [-> _]|exact HL|exact Hn|apply T|apply T|apply table_slot; [apply T|lia]|].
  intros x s' (m & Hx). pose proof (pinv_mem V r0 (Some dp) extra r m (proj2 Hp)) as Hp'. destruct (dir_find (dents V p) _ 0) as [[k j]|] eqn:Ef.
  2:{ destruct Hx as [-> Hs']. eexists. split; [|split; [done|]; split; [exact Hs'|exact Hp']]. done. }
  destruct Hx as (ip & p0 & p' & -> & He & Hs' & Hok' & Hrefs). exists (upd_ino ip p' (set_rk (set_mem m (r_k r)) r)). split; [|exists ip, (16 * k); split; [done|]; split; [|split]].
  - intros jp j' Hj. exact (iget_refers r j ip p0 p' jp j' He Hj).
  - destruct (dir_find_elem _ _ _ _ _ Ef) as [Hj0 [n Hjn]]. rewrite Hde in Hjn.
    eapply (pst_slot V L r0 (Some dp) (Some dp) extra _ _ s' ip p0 p' Hp'); [apply He|done| |exact Hok'| |exact Hs'].
    + eapply iget_slot; [exact He|apply (ta_slot _ _ _ T), He|by apply (tr_inum _ _ Ht), (tr_entry _ _ Ht i j n)|].
      apply (to_ref _ (ta_ok _ _ _ T) (Z.to_nat ip)), He.
    + intros d n'. rewrite nrefs_cons. specialize (Hrefs d n'). cbn [r_it upd_ino set_rit set_rk] in *. lia.
  - exists p'. split; [eapply ino_upd; apply He|]. destruct He as (_ & E1 & E2 & _ & E4 & _). split; [|done].
    pose proof (refs_nonneg (r_it r) D j (ta_ok _ _ _ T)). lia.
  - destruct (dir_find_elem _ _ _ _ _ Ef) as [Hj0 [n Hjn]]. rewrite Hde in Hjn. by apply (tr_entry _ _ Ht i j n).
Qed.

(** ** The walk *)

Lemma iunlockput_p V L r0 extra r s ip i Tr :
  pst V L r0 (Some ip) ((D, i) :: extra) r s -> refers r ip i -> tree V Tr -> Tr i -> it_ok (r_it r0) ->
  wp (iunlockput ip) (fun _ s' => exists r', pst V L r0 None extra r' s' /\ forall jp j, (D, j) ∈ extra -> refers r jp j -> refers r' jp j) s.
Proof.
  intros Hp Hi Ht Hin Hok. unfold iunlockput. apply wp_bind. wp_use iunlock_p; [exact Hp|exact Hi|]. intros [] s1 (r1 & H1 & Hr1).
  wp_use iput_p; [exact H1|by apply Hr1|exact Ht|exact Hin|exact Hok|]. intros [] s2 (r2 & H2 & Hr2). exists r2. split; [done|]. auto.
Qed.

Lemma pst_swap V L r0 lk x y r s : pst V L r0 lk [x; y] r s -> pst V L r0 lk [y; x] r s.
Proof.
  intros (H1 & H2 & [H3 H4] & H5). split; [done|]. split; [done|]. split; [|done]. split; [done|]. intros d n. rewrite H4.
  fold (nrefs [x; y] d n) (nrefs [y; x] d n). rewrite !nrefs_cons. lia.
Qed.
Lemma elems_nil path : hd 0 path <> SLASH -> elems path = [] <-> path = [].
Proof.
  destruct path as [|c path]; [done|]. simpl. intros Hc. split; [|done]. unfold elems. simpl. destruct (Z.eqb_spec c SLASH); [done|].
  intros E. exfalso. revert E. generalize ([c] : list Z) (ltac:(done) : [c] <> []). induction path as [|d path IH]; intros cur Hcur; simpl.
  - by rewrite decide_False.
  - destruct (d =? SLASH); [by rewrite decide_False|]. apply IH. by destruct cur.
Qed.

(** What the walk leaves: a reference to the inode found, or none. *)
Definition found V L r0 (o : option Z) (x : option Z) (s : fsst S) : Prop :=
  exists r, match o with
  | Some j => exists ip, x = Some ip /\ pst V L r0 None [(D, j)] r s /\ refers r ip j
  | None => x = None /\ pst V L r0 None [] r s
  end.

Notation names path := (take (Z.to_nat DIRSIZ) <$> elems path).
Definition namex_post V L r0 i parent path (x : option Z * list Z) (s : fsst S) : Prop :=
  found V L r0 (walk V i parent (names path)) x.1 s /\
  (parent = true -> x.1 <> None -> Some (cname (Z.to_nat DIRSIZ) x.2) = last (names path)).

Lemma store_name_range e name : Forall (fun c => 0 <= c) e -> Forall (fun c => 0 <= c) name -> Forall (fun c => 0 <= c) (store_name e name).
Proof.
  intros He Hn. unfold store_name. destruct (_ <=? _).
  - apply Forall_app. split; [by apply Forall_take|by apply Forall_drop].
  - apply Forall_app. split; [done|]. apply Forall_cons. split; [lia|by apply Forall_drop].
Qed.

Lemma namex_loop_p fuel V L r0 Tr parent : tree V Tr -> it_ok (r_it r0) -> room (r_it r0) 2 -> Z.of_nat (length L) + 1 < NBUF ->
  forall ip i path name r s, pst V L r0 None [(D, i)] r s -> refers r ip i -> Tr i -> Forall (fun c => 0 < c) path ->
  Forall (fun c => 0 <= c) name -> (length path < fuel)%nat ->
  wp (namex_loop fuel ip path parent name) (namex_post V L r0 i parent path) s.
Proof.
  intros Ht Hok Hroom HL. induction fuel as [|fuel IH]; intros ip i path name r s Hp Hi Hin Hpath Hname Hfuel; [lia|].
  cbn [namex_loop]. pose proof (skipelem_spec path name) as Hsk. destruct (skipelem path name) as [[rest name']|].
  2:{ unfold namex_post. rewrite Hsk. cbn [fmap list_fmap walk]. destruct parent.
      - apply wp_bind. wp_use iput_p; [exact Hp|exact Hi|exact Ht|exact Hin|exact Hok|]. intros [] s1 (r1 & H1 & _). apply wp_ret.
        split; [|done]. by exists r1.
      - apply wp_ret. split; [|done]. exists r, ip. done. }
  destruct Hsk as (e & He & Ees & -> & Hhd & Hlt & HP). destruct (HP _ Hpath) as [Hrest Hel]. unfold namex_post. rewrite Ees. cbn [fmap list_fmap walk].
  assert (Ecn : cname (Z.to_nat DIRSIZ) (store_name e name) = take (Z.to_nat DIRSIZ) e).
  { apply store_name_cname. eapply Forall_impl; [exact Hel|]. cbv beta. lia. }
  assert (Hname' : Forall (fun c => 0 <= c) (store_name e name)).
  { apply store_name_range; [|done]. eapply Forall_impl; [exact Hel|]. cbv beta. lia. }
  apply wp_bind. wp_use ilock_p; [exact Hp|exact Hi|exact Ht|exact Hin|exact HL|]. intros [] s1 (r1 & p1 & H1 & Hi1 & Hl1 & Hd1 & _).
  assert (Hr1 : refers r1 ip i) by (by exists p1).
  apply wp_bind. wp_use (geti_fs rep); [apply H1|exact Hi1|]. intros q s1' [-> H1']. assert (H1b : pst V L r0 (Some ip) [(D, i)] r1 s1') by (split; [exact H1'|apply H1]).
  destruct Hd1 as [Ety Hd1']. rewrite Ety. destruct (Z.eqb_spec (i_type (disk_ino V i)) T_DIR) as [Hty|Hty]; cbn [negb].
  2:{ apply wp_bind. wp_use iunlockput_p; [exact H1b|exact Hr1|exact Ht|exact Hin|exact Hok|]. intros [] s2 (r2 & H2 & _). apply wp_ret.
      split; [by exists r2|done]. }
  rewrite (bool_decide_ext ((take (Z.to_nat DIRSIZ) <$> elems rest) = []) (rest = [])).
  2:{ rewrite <- (elems_nil rest Hhd). destruct (elems rest); done. }
  destruct (parent && bool_decide (rest = [])) eqn:Epar.
  { apply wp_bind. wp_use iunlock_p; [exact H1b|exact Hr1|]. intros [] s2 (r2 & H2 & Hr2). apply wp_ret.
    split; [exists r2, ip; by auto|]. intros _ _. apply andb_prop in Epar as [_ Epar%bool_decide_eq_true]. subst rest. cbn. by rewrite Ecn. }
  apply wp_bind. wp_use dirlookup_p; [exact H1b|exact Hi1|exact Hl1|done|exact Ht|exact Hin|exact Hty|exact HL|exact Hname'|exact Hok|exact Hroom|].
  intros x s2 (r2 & Hr2 & Hx). rewrite Ecn in Hx. destruct (dir_find _ _ 0) as [[k j]|].
  2:{ destruct Hx as [-> H2]. apply wp_bind. wp_use iunlockput_p; [exact H2|by apply Hr2|exact Ht|exact Hin|exact Hok|].
      intros [] s3 (r3 & H3 & _). apply wp_ret. split; [by exists r3|done]. }
  destruct Hx as (next & off & -> & H2%pst_swap & Hnext & Hj). apply wp_bind.
  wp_use iunlockput_p; [exact H2|by apply Hr2|exact Ht|exact Hin|exact Hok|]. intros [] s3 (r3 & H3 & Hr3).
  wp_use (IH next j rest (store_name e name)); [exact H3|apply Hr3; [left|done]|exact Hj|exact Hrest|exact Hname'|lia|].
  intros y s4 [Hy1 Hy2]. split; [exact Hy1|]. intros E1 E2. rewrite (Hy2 E1 E2). subst parent. apply bool_decide_eq_false in Epar.
  rewrite <- (elems_nil rest Hhd) in Epar. by destruct (elems rest).
Qed.

Lemma pst_start V L r s : fsr (Tx V L [] []) r s -> table V None r -> pst V L r None [] r s.
Proof.
  intros Hs T. split; [exact Hs|]. split; [exact T|]. split; [split; [done|]; intros d n; simpl; lia|].
  exists (k_mem (r_k r)). by destruct r as [? ? ? [] ? ?].
Qed.
Lemma idup_p V L r0 r s ip i : pst V L r0 None [] r s -> refers r ip i ->
  wp (idup ip) (fun x s' => x = ip /\ exists r', pst V L r0 None [(D, i)] r' s' /\ refers r' ip i) s.
Proof.
  intros Hp (p & Hi & Hl). pose proof Hp as (Hs & T & _). pose proof Hl as (Hpos & L1 & L2).
  wp_use (idup_fs rep); [exact Hs|apply T|exact Hi|]. intros x s' [-> Hs']. split; [done|]. set (p' := ino_ref (i_ref p + 1) p) in *.
  destruct (it_change (r_it r) (Z.to_nat ip) p p' D i (ta_ok _ _ _ T) (proj2 Hi) L1 L2 ltac:(cbn; lia) ltac:(by left)) as [C1 C2].
  destruct (ta_slot _ _ _ T ip p Hi) as (S1 & S2 & S3). exists (upd_ino ip p' r). split.
  - apply (pst_slot V L r0 None None [] [(D, i)] r s' ip p p'); try done; [apply Hp|split; [done|]; split; [done|]; intros _; exact (S3 Hpos)|].
    intros d n. cbn [r_it upd_ino set_rit]. rewrite C2, nrefs_cons. destruct (decide _) as [[= -> ->]|]; [|lia].
    rewrite (refs_live _ _ _ _ _ (ta_ok _ _ _ T) (proj2 Hi) Hl). cbn. lia.
  - exists p'. split; [by eapply ino_upd|]. split; [cbn; lia|done].
Qed.
Lemma iget_p V L r0 r s i : pst V L r0 None [] r s -> 0 <= i < sb_ninodes sb -> it_ok (r_it r0) -> room (r_it r0) 1 ->
  wp (iget D i) (fun ip s' => exists r', pst V L r0 None [(D, i)] r' s' /\ refers r' ip i) s.
Proof.
  intros Hp Hi Hok Hroom. pose proof Hp as (Hs & T & Hr & _). pose proof (room_plus _ _ _ 1 Hok (ta_ok _ _ _ T) Hr Hroom) as Hm. unfold room in Hm.
  wp_use (iget_fs rep); [exact Hs|apply T|apply T|right; apply table_slot; [apply T|lia]|]. intros ip s' (p & p' & He & Hs' & Hok' & Hrefs).
  exists (upd_ino ip p' r). split.
  - apply (pst_slot V L r0 None None [] [(D, i)] r s' ip p p'); [apply Hp|apply He|done| |exact Hok'| |exact Hs'].
    + eapply iget_slot; [exact He|apply (ta_slot _ _ _ T), He|done|]. apply (to_ref _ (ta_ok _ _ _ T) (Z.to_nat ip)), He.
    + intros d n. rewrite nrefs_cons, Hrefs. lia.
  - exists p'. split; [eapply ino_upd; apply He|]. destruct He as (_ & E1 & E2 & _ & E4 & _). split; [|done].
    pose proof (refs_nonneg (r_it r) D i (ta_ok _ _ _ T)). lia.
Qed.

(** A path starts at the root or at the current directory. *)
Definition starts (r : fsrest) (path : list Z) (i : Z) : Prop :=
  if hd 0 path =? SLASH then i = ROOTINO else refers r (r_cwd r) i.

Lemma namex_p V L Tr parent path name i r s : D = ROOTDEV ->
  fsr (Tx V L [] []) r s -> table V None r -> tree V Tr -> Tr i -> starts r path i -> room (r_it r) 2 ->
  Z.of_nat (length L) + 1 < NBUF -> Forall (fun c => 0 < c) path -> Forall (fun c => 0 <= c) name ->
  wp (namex path parent name) (namex_post V L r i parent path) s.
Proof.
  intros HD Hs T Ht Hin Hst Hroom HL Hpath Hname. pose proof (pst_start V L r s Hs T) as Hp. pose proof (ta_ok _ _ _ T) as Hok.
  unfold namex. apply wp_bind. unfold starts in Hst. destruct (hd 0 path =? SLASH).
  - subst i. rewrite <- HD. wp_use iget_p; [exact Hp|by apply (tr_inum _ _ Ht)|exact Hok|unfold room in *; lia|]. intros ip s1 (r1 & H1 & Hr1).
    eapply namex_loop_p; try done. lia.
  - apply wp_bind, wp_gets. replace (fs_cwd s) with (r_cwd r) by (by destruct Hs as [_ <-]).
    wp_use idup_p; [exact Hp|exact Hst|]. intros ip s1 (-> & r1 & H1 & Hr1). eapply namex_loop_p; try done. lia.
Qed.

(** C13: [namex] walks a path as the reference [walk] does over the directories
    on disk: it returns a new reference to the inode the path names (with
    [parent], to its directory, and the last element in [name]), and 0 when an
    element on the way is missing or not a directory.  No inode stays locked,
    nothing is written, every reference taken on the way is dropped, and the
    loop ends. *)
Theorem namex_correct V L Tr parent path name i r s : D = ROOTDEV ->
  fsr (Tx V L [] []) r s -> table V None r -> tree V Tr -> Tr i -> starts r path i -> room (r_it r) 2 ->
  Z.of_nat (length L) + 1 < NBUF -> Forall (fun c => 0 < c) path -> Forall (fun c => 0 <= c) name ->
  wp (namex path parent name) (namex_post V L r i parent path) s.
Proof. apply namex_p. Qed.
End FsPath.
