(* ===== verification/FsLink.v ===== *)
(** * Directory entries: [dirlink] of kernel/fs.c

    [dirlink] puts a name into a directory: into the first entry that is free,
    or at the end.  Seen through [dirlookup] it is the insertion into a map. *)

From S2P Require Import Prelude Memory Riscv Spinlock Kalloc Vm VmWalk Bio Log Txn Fs FsBlock FsInode FsFile FsDir FsExample.

(** ** Entries *)

Fixpoint dir_link (l : list (Z * list Z)) (e : Z * list Z) : list (Z * list Z) :=
  match l with
  | [] => [e]
  | (i, n) :: l' => if i =? 0 then e :: l' else (i, n) :: dir_link l' e
  end.
(** The index of the entry that is used. *)
Fixpoint dir_free (l : list (Z * list Z)) : nat :=
  match l with
  | [] => 0
  | (i, _) :: l' => if i =? 0 then 0 else S (dir_free l')
  end.

(** The names in a directory as a map. *)
Definition dir_inum (l : list (Z * list Z)) (nm : list Z) : option Z := snd <$> dir_find l nm 0.

Lemma dir_find_shift l nm k : dir_find l nm k = prod_map (Z.add k) id <$> dir_find l nm 0.
Proof.
  revert k. induction l as [|[i n] l IH]; intros k; [done|]. cbn [dir_find]. destruct (_ && _); [cbn; do 2 f_equal; lia|].
  rewrite (IH (k + 1)), (IH (0 + 1)). destruct (dir_find l nm 0) as [[k' j]|]; [|done]. cbn. do 2 f_equal. lia.
Qed.
Lemma dir_inum_cons i n l nm : dir_inum ((i, n) :: l) nm = if negb (i =? 0) && bool_decide (nm = n) then Some i else dir_inum l nm.
Proof.
  unfold dir_inum. cbn [dir_find]. destruct (_ && _); [done|]. rewrite dir_find_shift. by destruct (dir_find l nm 0) as [[]|].
Qed.
(** A new name changes the map at that name only. *)
Lemma dir_inum_link l i n nm : i <> 0 -> dir_inum l n = None ->
  dir_inum (dir_link l (i, n)) nm = if decide (nm = n) then Some i else dir_inum l nm.
Proof.
  intros Hi. induction l as [|[j n'] l IH]; intros Hn; cbn [dir_link].
  - rewrite dir_inum_cons. destruct (Z.eqb_spec i 0); [done|]. cbn [negb andb]. case_bool_decide; [by rewrite decide_True|by rewrite decide_False].
  - rewrite dir_inum_cons in Hn. destruct (Z.eqb_spec j 0) as [->|Hj].
    + clear Hn. rewrite !dir_inum_cons. change (0 =? 0) with true. destruct (Z.eqb_spec i 0); [done|]. cbn [negb andb]. case_bool_decide; [by rewrite decide_True|by rewrite decide_False].
    + cbn [negb andb] in Hn. case_bool_decide as E; [done|]. rewrite !dir_inum_cons, IH by done. destruct (Z.eqb_spec j 0); [done|]. cbn [negb andb].
      case_bool_decide as E2; [|done]. subst. by rewrite decide_False by congruence.
Qed.
Lemma dir_free_le l : (dir_free l <= length l)%nat.
Proof. induction l as [|[i n] l IH]; [done|]. simpl. destruct (i =? 0); simpl; lia. Qed.
Lemma dir_link_lookup l e j : dir_link l e !! j = if decide (j = dir_free l) then Some e else l !! j.
Proof.
  revert j. induction l as [|[i n] l IH]; intros j; cbn [dir_link dir_free].
  - destruct j; [done|]. by rewrite decide_False.
  - destruct (i =? 0); [destruct j; [done|by rewrite decide_False]|]. destruct j as [|j]; [done|]. cbn [lookup list_lookup]. rewrite IH.
    destruct (decide (j = dir_free l)) as [->|]; [by rewrite decide_True|by rewrite decide_False by lia].
Qed.

(** ** The bytes of an entry *)

Definition entry_bytes (inum : Z) (name : list Z) : list Z := [u8 inum; u8 (inum / 256)] ++ strncpy_bytes (Z.to_nat DIRSIZ) name.

Lemma strncpy_length k n : length (strncpy_bytes k n) = k.
Proof. revert n. induction k as [|k IH]; intros n; [done|]. cbn [strncpy_bytes]. destruct (_ =? 0); [by rewrite length_replicate|]. simpl. by rewrite IH. Qed.
Lemma strncpy_range k n : Forall (fun b => 0 <= b < 256) n -> Forall (fun b => 0 <= b < 256) (strncpy_bytes k n).
Proof.
  revert n. induction k as [|k IH]; intros n Hn; [constructor|]. cbn [strncpy_bytes]. destruct n as [|c n]; simpl.
  - apply Forall_cons. split; [lia|]. apply Forall_replicate. lia.
  - inversion Hn as [|? ? Hc Hn']; subst. destruct (Z.eqb_spec c 0); [apply Forall_cons; split; [lia|apply Forall_replicate; lia]|].
    apply Forall_cons. split; [done|by apply IH].
Qed.
Lemma cname_strncpy k n : cname k (strncpy_bytes k n) = cname k n.
Proof.
  revert n. induction k as [|k IH]; intros n; [done|]. cbn [strncpy_bytes]. destruct n as [|c n]; simpl; [done|].
  destruct (Z.eqb_spec c 0) as [->|Hc]; [done|]. cbn [cname]. destruct (Z.eqb_spec c 0); [done|]. by rewrite IH.
Qed.
Lemma entry_length inum name : length (entry_bytes inum name) = 16%nat.
Proof. unfold entry_bytes. rewrite length_app, strncpy_length. done. Qed.
Lemma entry_range inum name : Forall (fun b => 0 <= b < 256) name -> Forall (fun b => 0 <= b < 256) (entry_bytes inum name).
Proof.
  intros Hn. unfold entry_bytes, u8. apply Forall_app. split; [|by apply strncpy_range].
  repeat apply Forall_cons_2; try apply Forall_nil_2; apply Z.mod_pos_bound; lia.
Qed.
(** [de.inum = inum; strncpy(de.name, name, DIRSIZ);] *)
Lemma read_de m a inum name : Forall (fun b => 0 <= b < 256) name ->
  read_bytes (stn 2 (write_bytes m (a + 2) (strncpy_bytes (Z.to_nat DIRSIZ) name)) a inum) a 16 = entry_bytes inum name.
Proof.
  intros Hn. change 16%nat with (2 + 14)%nat. rewrite read_bytes_app. unfold entry_bytes. f_equal.
  - change (stn 2 ?m ?a ?v) with (mset (mset m a v) (a + 1) (v / 256)). cbn [read_bytes].
    unfold mget, mset. rewrite lookup_insert_ne, !lookup_insert_eq by lia. cbn [default from_option id]. unfold u8. by rewrite !Z.mod_mod by lia.
  - erewrite read_bytes_ext with (m2 := write_bytes m (a + 2) (strncpy_bytes (Z.to_nat DIRSIZ) name)).
    + rewrite <- (strncpy_length (Z.to_nat DIRSIZ) name) at 2. change (Z.of_nat 2) with 2. change 14%nat with (Z.to_nat DIRSIZ).
      pose proof (read_write_bytes m (a + 2) (strncpy_bytes (Z.to_nat DIRSIZ) name) (strncpy_range _ _ Hn)) as H.
      rewrite strncpy_length in *. exact H.
    + intros i Hi. apply mget_stn_ne. lia.
Qed.

Lemma dent_ext V p V' p' k : (forall i, 0 <= i < 16 -> fbyte V' p' (16 * k + i) = fbyte V p (16 * k + i)) -> dent V' p' k = dent V p k.
Proof.
  intros H. unfold dent. pose proof (H 0 ltac:(lia)) as H0. rewrite Z.add_0_r in H0. rewrite H0, (H 1) by lia.
  apply (f_equal (fun l => (_, cname (Z.to_nat DIRSIZ) l))). apply list_fmap_ext. intros i o Ho.
  apply list_elem_of_lookup_2, elem_upto in Ho. unfold DIRSIZ in Ho. rewrite <- Z.add_assoc. apply H. lia.
Qed.
Lemma dent_entry V p k inum name : 0 <= inum < 2 ^ 16 -> (forall i, 0 <= i < 16 -> fbyte V p (16 * k + i) = nth (Z.to_nat i) (entry_bytes inum name) 0) ->
  dent V p k = (inum, cname (Z.to_nat DIRSIZ) name).
Proof.
  intros Hin H. unfold dent. pose proof (H 0 ltac:(lia)) as H0. rewrite Z.add_0_r in H0. rewrite H0, (H 1) by lia.
  assert (E : fbytes V p (16 * k + 2) DIRSIZ = strncpy_bytes (Z.to_nat DIRSIZ) name).
  { apply list_eq. intros i. unfold fbytes. rewrite list_lookup_fmap. destruct (decide (i < 14)%nat) as [Hi|Hi].
    - rewrite upto_lookup by (unfold DIRSIZ; lia). cbn [fmap option_fmap option_map]. rewrite <- Z.add_assoc, H by lia.
      replace (Z.to_nat (2 + Z.of_nat i)) with (2 + i)%nat by lia. change (nth (2 + i) (entry_bytes inum name) 0) with (nth i (strncpy_bytes (Z.to_nat DIRSIZ) name) 0).
      rewrite nth_lookup. destruct (lookup_lt_is_Some_2 (strncpy_bytes (Z.to_nat DIRSIZ) name) i) as [x ->]; [by rewrite strncpy_length|done].
    - rewrite !(proj2 (lookup_ge_None _ _)); [done|rewrite strncpy_length; unfold DIRSIZ; lia|rewrite length_upto; unfold DIRSIZ; lia]. }
  rewrite E, cname_strncpy. f_equal. change (u8 inum + 256 * u8 (inum / 256) = inum). unfold u8. Z.div_mod_to_equations. lia.
Qed.
Lemma lookup_dents V p j : dents V p !! j = if decide (Z.of_nat j < i_size p / DESIZE) then Some (dent V p (Z.of_nat j)) else None.
Proof.
  unfold dents. rewrite list_lookup_fmap. destruct (decide _); [by rewrite upto_lookup|].
  by rewrite (proj2 (lookup_ge_None _ _)) by (rewrite length_upto; lia).
Qed.
Lemma length_dents V p : length (dents V p) = Z.to_nat (i_size p / DESIZE).
Proof. unfold dents. by rewrite length_fmap, length_upto. Qed.

Section FsLink.
Context `{HC : Ctx} `{HI : Image} `{HF : Frame} {S : Type} `{HT : Txn S} (D : Z) (rep : txabs -> S -> Prop)
  (loggable : Z -> Prop) `{HO : !TxnOk S D rep loggable} (sb : superblock) (Hlay : layout loggable sb)
  (Hlocal : 0 <= local_addr /\ local_addr + 16 < 2 ^ 64).
Notation fsr := (fsr rep).
Notation dir_ok := (dir_ok D loggable sb).
Notation written := (written loggable sb).

Lemma dirlink_loop_fs fuel V L dp p : dir_ok V p -> Z.of_nat (length L) + 1 < NBUF ->
  forall k r s, fsr (Tx V L [] []) r s -> ino r dp p -> 0 <= k -> i_size p <= 16 * (k + Z.of_nat fuel - 1) -> (0 < fuel)%nat ->
  wp (dirlink_loop fuel dp (16 * k)) (fun off s' => off = 16 * (k + Z.of_nat (dir_free (drop (Z.to_nat k) (dents V p)))) /\
    exists m, fsr (Tx V L [] []) (set_rk (set_mem m (r_k r)) r) s') s.
Proof.
  intros Hdir HL. pose proof Hdir as (Hfs & Hf & Hd & Hmod).
  induction fuel as [|fuel IH]; intros k r s Hs Hi Hk Hfuel Hpos; [lia|]. cbn [dirlink_loop].
  apply wp_bind. wp_use geti_fs; [exact Hs|exact Hi|]. intros q s1 [-> H1].
  destruct (Z.ltb_spec (16 * k) (i_size p)) as [Hlt|Hge].
  2:{ apply wp_ret. rewrite dents_end by lia. split; [simpl; lia|]. exists (k_mem (r_k r)). destruct r as [? ? ? [] ? ?]. exact H1. }
  apply wp_bind. wp_use (readi_entry D rep loggable sb Hlocal); [exact H1|exact Hi|done|done|done|done|].
  intros t s2 (-> & m & H2 & Hnum & _). apply wp_bind, wp_panic_if; [done|].
  rewrite dents_drop by done. destruct (dent V p k) as [inum nm] eqn:Ed. apply wp_bind, wp_gets.
  assert (Em : k_mem (fs_k s2) = m) by (destruct H2 as [_ E]; apply (f_equal r_k) in E; cbn in E; by rewrite E).
  rewrite Em, Hnum. cbn [fst dir_free]. destruct (inum =? 0); [apply wp_ret; split; [lia|by exists m]|].
  replace (16 * k + DESIZE) with (16 * (k + 1)) by (unfold DESIZE; lia).
  wp_use (IH (k + 1) (set_rk (set_mem m (r_k r)) r)); [exact H2|exact Hi|lia|lia|lia|].
  intros off s3 [-> (m' & H3)]. split; [lia|]. exists m'. exact H3.
Qed.

(** The directory after an entry was written. *)
Lemma dents_written V p k inum name V' p' : dir_ok V p -> k = dir_free (dents V p) -> 0 <= inum < 2 ^ 16 ->
  Forall (fun b => 0 <= b < 256) name -> 16 * Z.of_nat k + 16 <= MAXFILE * BSIZE ->
  written V p (16 * Z.of_nat k) (entry_bytes inum name) 16 V' p' ->
  dents V' p' = dir_link (dents V p) (inum, cname (Z.to_nat DIRSIZ) name) /\ dir_ok V' p'.
Proof.
  intros (Hfs & Hf & Hd & Hmod) -> Hin Hn Hmax Hw. pose proof Hw as [W1 W2 W3 W4 W5 W6 _ _ _]. set (k := dir_free (dents V p)) in *.
  pose proof (dir_free_le (dents V p)) as Hk. fold k in Hk. rewrite length_dents in Hk. pose proof (fk_size _ _ _ _ Hf) as Hsz. unfold DESIZE in *.
  assert (Hs16 : i_size p = 16 * (i_size p / 16)) by (clear - Hmod; Z.div_mod_to_equations; lia).
  pose proof (Z.div_pos (i_size p) 16 ltac:(lia) ltac:(lia)) as Hp16.
  assert (Hsz' : i_size p' = 16 * Z.max (i_size p / 16) (Z.of_nat k + 1)) by lia.
  assert (Hdiv : i_size p' / 16 = Z.max (i_size p / 16) (Z.of_nat k + 1)) by (rewrite Hsz', Z.mul_comm, Z.div_mul; lia).
  split.
  - apply list_eq. intros j. rewrite dir_link_lookup, !lookup_dents. unfold DESIZE. rewrite Hdiv. fold k. destruct (decide (j = k)) as [->|Hne].
    + rewrite decide_True by lia. f_equal. apply dent_entry; [done|]. intros i Hi. rewrite W4 by lia. unfold patched. rewrite decide_True by lia. do 2 f_equal. lia.
    + destruct (decide (Z.of_nat j < i_size p / 16)) as [Hj|Hj]; [|by rewrite decide_False by lia]. rewrite decide_True by lia. f_equal.
      apply dent_ext. intros i Hi. rewrite W4 by lia. unfold patched. by rewrite decide_False by lia.
  - split; [done|]. split; [done|]. split; [congruence|]. unfold DESIZE. rewrite Hsz', Z.mul_comm. apply Z.mod_mul. lia.
Qed.
Lemma dents_unwritten V p k bs V' p' : dir_ok V p -> 0 <= k <= i_size p -> written V p k bs 0 V' p' -> dents V' p' = dents V p /\ dir_ok V' p'.
Proof.
  intros (Hfs & Hf & Hd & Hmod) Hk [W1 W2 W3 W4 W5 W6 _ _ _]. pose proof (fk_size _ _ _ _ Hf) as Hsz.
  assert (Hsz' : i_size p' = i_size p) by lia. split; [|split; [done|]; split; [done|]; split; congruence].
  apply list_eq. intros j. rewrite !lookup_dents, Hsz'. destruct (decide _) as [Hj|]; [|done]. f_equal. apply dent_ext. intros i Hi.
  rewrite W4; [unfold patched; by rewrite decide_False by lia|]. unfold DESIZE in *. pose proof (Z.mul_div_le (i_size p) 16 ltac:(lia)). lia.
Qed.

(** The state after [dirlink]. *)
Definition dirlink_post V L dp p name inum (r : fsrest) (t : Z) (s : fsst S) : Prop :=
  let nm := cname (Z.to_nat DIRSIZ) name in
  let k := 16 * Z.of_nat (dir_free (dents V p)) in
  match dir_inum (dents V p) nm with
  | Some _ => t = -1 /\ exists r', fsr (Tx V L [] []) r' s /\ it_ok (r_it r') /\ forall d n, refs (r_it r') d n = refs (r_it r) d n
  | None => exists V' L' p' m, fsr (Tx V' L' [] []) (upd_ino dp p' (set_rk (set_mem m (r_k r)) r)) s /\ dir_ok V' p' /\
      (t = 0 /\ dents V' p' = dir_link (dents V p) (inum, nm) /\ written V p k (entry_bytes inum name) 16 V' p' \/
       t = -1 /\ dents V' p' = dents V p /\
       (V' = V /\ p' = p /\ MAXFILE * BSIZE < k + 16 \/
        written V p k (entry_bytes inum name) 0 V' p' /\ forall b, 0 <= b < sb_size sb -> bit sb V' b = true))
  end.

(** The reference [dirlookup] took is dropped again. *)
Lemma iput_found r inum ip p0 p' a s : iget_entry r D inum ip p0 p' -> fsr a (upd_ino ip p' r) s -> unlocked (r_itlock r) ->
  it_ok (r_it r) -> it_ok (r_it (upd_ino ip p' r)) ->
  (forall d n, refs (r_it (upd_ino ip p' r)) d n = refs (r_it r) d n + if decide ((d, n) = (D, inum)) then 1 else 0) ->
  wp (iput ip) (fun _ s' => exists r', fsr a r' s' /\ it_ok (r_it r') /\ forall d n, refs (r_it r') d n = refs (r_it r) d n) s.
Proof.
  intros (Hi & E1 & E2 & E3 & E4 & Hor) Hs Hu Hok Hok' Hrefs. pose proof (ino_upd _ _ _ p' Hi) as Hi'.
  assert (Hr : 0 <= refs (r_it r) D inum).
  { destruct Hor as [[Hl _]|(_ & -> & _)]; [|done]. rewrite (refs_live _ _ _ _ _ Hok (proj2 Hi) Hl). destruct Hl. lia. }
  wp_use (iput_fs rep); [exact Hs|exact Hu|exact Hi'| |].
  { destruct Hor as [[Hl ->]|(_ & _ & Hv)]; [left|right; by left]. destruct Hl. cbn. lia. }
  intros [] s' Hs'. eexists. split; [exact Hs'|].
  destruct (it_change (r_it (upd_ino ip p' r)) (Z.to_nat ip) p' (ino_ref (i_ref p' - 1) p') D inum Hok' (proj2 Hi') E1 E2 ltac:(cbn; lia)) as [C1 C2].
  { left. split; [lia|done]. }
  split; [exact C1|]. intros d n. cbn [r_it upd_ino set_rit] in *. rewrite C2, Hrefs. destruct (decide _) as [[= -> ->]|]; [cbn; lia|lia].
Qed.

Lemma wblocks_entry k : 0 <= k -> wblocks (16 * k) 16 = 1.
Proof. intros Hk. unfold wblocks, blocks_left, BSIZE. cbn [Z.ltb Z.compare]. Z.div_mod_to_equations. lia. Qed.

(** [de.inum = inum; strncpy(de.name, name, DIRSIZ); writei(dp, 0, (uint64)&de, off, sizeof(de))]: the entry, when no name is there. *)
Lemma dirlink_write V L dp p name inum r s : let k := 16 * Z.of_nat (dir_free (dents V p)) in
  fsr (Tx V L [] []) r s -> r_sb r = sb -> ino r dp p -> dir_ok V p -> ino_ok p -> 0 <= i_inum p < sb_ninodes sb ->
  bcost sb p L + 1 < LOGSIZE - 1 -> 0 <= inum < 2 ^ 16 -> Forall (fun b => 0 <= b < 256) name ->
  dir_inum (dents V p) (cname (Z.to_nat DIRSIZ) name) = None ->
  wp (set_de inum (strncpy_bytes (Z.to_nat DIRSIZ) name) ;;; w <-! writei dp false local_addr k DESIZE ;; ret (if w =? DESIZE then 0 else -1))
    (dirlink_post V L dp p name inum r) s.
Proof.
  intros k Hs Hsb Hi Hdir Hp Hn HL Hin Hname Hno. pose proof Hdir as (Hfs & Hf & Hd & Hmod). pose proof (dir_free_le (dents V p)) as Hfree.
  rewrite length_dents in Hfree. pose proof (fk_size _ _ _ _ Hf) as Hsz. unfold DESIZE in *.
  assert (Hk : 0 <= k <= i_size p) by (unfold k; pose proof (Z.mul_div_le (i_size p) 16 ltac:(lia)); pose proof (Z.div_pos (i_size p) 16); lia).
  assert (HM : MAXFILE * BSIZE < 2 ^ 31) by done. unfold dirlink_post. rewrite Hno.
  apply wp_bind. unfold set_de. apply wp_lift, wp_modify.
  set (m := stn 2 (write_bytes (k_mem (fs_k s)) (local_addr + 2) (strncpy_bytes (Z.to_nat DIRSIZ) name)) local_addr inum).
  assert (Ek : fs_k s = r_k r) by (by destruct Hs as [_ <-]).
  assert (H1 : fsr (Tx V L [] []) (set_rk (set_mem m (r_k r)) r) (lset k_lens (set_mem m (fs_k s)) s)) by (destruct Hs as [Hs <-]; split; [exact Hs|done]).
  assert (Hsrc : source (r_pt r) false local_addr (entry_bytes inum name) (set_mem m (r_k r))).
  { rewrite <- (read_de (k_mem (fs_k s)) local_addr inum name Hname). apply (source_kernel (r_pt r) local_addr 16 (set_mem m (r_k r))); lia. }
  pose proof (entry_length inum name) as Hlen. apply wp_bind. replace 16 with (Z.of_nat (length (entry_bytes inum name))) by lia.
  wp_use (writei_fs D rep loggable sb Hlay V L dp p false local_addr k (entry_bytes inum name) (set_rk (set_mem m (r_k r)) r));
    [exact H1|exact Hsb|exact Hi|done|done|done|done|done|lia|lia|lia|by apply entry_range|exact Hsrc| |].
  { rewrite Hlen. change (Z.of_nat 16) with 16. unfold k. rewrite wblocks_entry by lia. exact HL. }
  rewrite Hlen. change (Z.of_nat 16) with 16. intros w s2 Hw. apply wp_ret. unfold writei_result, writei_ok in Hw. rewrite Hlen in Hw. change (Z.of_nat 16) with 16 in Hw.
  replace (k <=? i_size p) with true in Hw by lia. cbn [andb] in Hw. destruct (Z.leb_spec (k + 16) (MAXFILE * BSIZE)) as [Hle|Hgt].
  2:{ destruct Hw as [-> H2]. exists V, L, p, m. split; [by apply upd_same|]. split; [done|]. right. split; [done|]. split; [done|]. by left. }
  destruct Hw as (V' & L' & p' & Ht & H2 & Hw & _ & Hr). exists V', L', p', m. split; [exact H2|].
  destruct (Z.eqb_spec w 16) as [->|Hne].
  - destruct (dents_written V p _ inum name V' p' Hdir eq_refl Hin Hname Hle Hw) as [E Hd']. split; [done|]. left. done.
  - destruct Hr as [?|[Hr Hfull]]; [done|]. assert (w = 0) as ->.
    { destruct Hr as [?|Hr]; [done|]. unfold k, BSIZE in Hr. clear - Hr Ht Hne. Z.div_mod_to_equations. lia. }
    destruct (dents_unwritten V p k _ V' p' Hdir Hk Hw) as [E Hd']. split; [done|]. right. split; [done|]. split; [done|]. by right.
Qed.

Lemma dirlink_fs V L dp p name inum r s :
  fsr (Tx V L [] []) r s -> r_sb r = sb -> ino r dp p -> dir_ok V p -> ino_ok p -> i_type p = T_DIR ->
  0 <= i_inum p < sb_ninodes sb -> bcost sb p L + 1 < LOGSIZE - 1 -> 0 <= inum < 2 ^ 16 -> Forall (fun b => 0 <= b < 256) name ->
  unlocked (r_itlock r) -> it_ok (r_it r) -> (exists i q, r_it r !! i = Some q /\ i_ref q = 0) ->
  wp (dirlink dp name inum) (dirlink_post V L dp p name inum r) s.
Proof.
  intros Hs Hsb Hi Hdir Hp Hty Hn HL Hin Hname Hu Hok Hfree. pose proof (bcost_len sb p L) as Hc.
  assert (HLb : Z.of_nat (length L) + 1 < NBUF) by (unfold NBUF, LOGSIZE, MAXOPBLOCKS in *; lia).
  unfold dirlink. apply wp_bind.
  wp_use (dirlookup_fs D rep loggable sb Hlocal); [exact Hs|exact Hi|exact Hdir|exact Hty|exact HLb| |exact Hu|exact Hok|exact Hfree|].
  { eapply Forall_impl; [exact Hname|]. cbv beta. lia. }
  intros x s1 (m & Hx). unfold dirlink_post at 1. unfold dir_inum. destruct (dir_find _ _ 0) as [[k j]|] eqn:Ef.
  - destruct Hx as (ip & p0 & p' & -> & He & Hs1 & Hok1 & Hr1). apply wp_bind. cbn [fmap option_fmap option_map].
    wp_use (iput_found (set_rk (set_mem m (r_k r)) r)); [exact He|exact Hs1|exact Hu|exact Hok|exact Hok1|exact Hr1|].
    intros [] s2 Hs2. apply wp_ret. split; [done|exact Hs2].
  - destruct Hx as [-> H1]. cbn [fmap option_fmap option_map]. set (r1 := set_rk (set_mem m (r_k r)) r) in *.
    apply wp_bind. wp_use geti_fs; [exact H1|exact Hi|]. intros q s2 [-> H2]. apply wp_bind.
    pose proof (fk_size _ _ _ _ (proj1 (proj2 Hdir))) as Hsz. unfold DESIZE at 1.
    pose proof (Z.div_pos (i_size p) 16 ltac:(lia) ltac:(lia)). pose proof (Z.mul_succ_div_gt (i_size p) 16 ltac:(lia)).
    change 0 with (16 * 0). wp_use (dirlink_loop_fs (Z.to_nat (i_size p / 16 + 2)) V L dp p Hdir HLb 0 r1); [exact H2|exact Hi|lia|lia|lia|].
    intros off s3 (-> & m2 & H3). change (Z.to_nat 0) with O. rewrite drop_0, Z.add_0_l.
    wp_use (dirlink_write V L dp p name inum (set_rk (set_mem m2 (r_k r1)) r1)); [exact H3|done|exact Hi|done|done|done|done|done|done|by unfold dir_inum; rewrite Ef|].
    intros t s4 Ht. unfold dirlink_post, dir_inum in Ht. rewrite Ef in Ht. destruct Ht as (V' & L' & p' & m3 & Ht). exists V', L', p', m3. exact Ht.
Qed.

(** C28: [dirlink] adds a name to a directory: a name that is there is refused
    with -1 (and the reference taken to look it up is dropped); otherwise the
    directory afterwards has the new entry, in the first free slot or at the
    end, and looking up names gives the map before with the new name added.
    When the disk is full or the directory has no room, the result is -1 and
    the directory is unchanged.  Other files do not change. *)
Theorem dirlink_correct V L dp p name inum r s :
  fsr (Tx V L [] []) r s -> r_sb r = sb -> ino r dp p -> dir_ok V p -> ino_ok p -> i_type p = T_DIR ->
  0 <= i_inum p < sb_ninodes sb -> bcost sb p L + 1 < LOGSIZE - 1 -> 0 < inum < 2 ^ 16 -> Forall (fun b => 0 <= b < 256) name ->
  unlocked (r_itlock r) -> it_ok (r_it r) -> (exists i q, r_it r !! i = Some q /\ i_ref q = 0) ->
  wp (dirlink dp name inum) (dirlink_post V L dp p name inum r) s /\
  forall nm, dir_inum (dents V p) (cname (Z.to_nat DIRSIZ) name) = None ->
    dir_inum (dir_link (dents V p) (inum, cname (Z.to_nat DIRSIZ) name)) nm =
    if decide (nm = cname (Z.to_nat DIRSIZ) name) then Some inum else dir_inum (dents V p) nm.
Proof.
  intros. split; [apply dirlink_fs; try done; lia|]. intros nm Hno. apply dir_inum_link; [lia|done].
Qed.
End FsLink.

Module FsLinkExample.
Import FsExample.
(** ["g"], as another name of inode 2. *)
Lemma dirlink_correct_witness : exists s t s', dirlink (S := lst) 0 [103; 0] 2 s = Done t s' /\
  dir_inum (dir_link (dents V0 root) (2, [103])) [103] = Some 2.
Proof.
  destruct boot_fs as (s & Hs).
  destruct (dirlink_correct 1 rep0 (loggable 2) sb0 layout0 local_ok V0 [] 0 root [103; 0] 2 r0 s) as [(t & s' & Hrun & _) Hmap];
    [exact Hs|reflexivity|exact root_ino| | |reflexivity|cbn; lia|vm_compute; reflexivity|lia|repeat constructor; lia|exact unlocked0|exact it_ok0| |].
  - split; [exact fs_ok0|]. split; [apply small_file_ok; [by left|cbn; unfold BSIZE; lia|done]|]. split; reflexivity.
  - split; cbn; unfold T_DIR; try lia. repeat constructor; lia.
  - exists 2%nat, free_ino. split; reflexivity.
  - exists s, t, s'. split; [exact Hrun|]. change [103] with (cname (Z.to_nat DIRSIZ) [103; 0]). rewrite Hmap; [by rewrite decide_True|]. vm_compute. reflexivity.
Defined.
End FsLinkExample.
