(* ===== verification/FsTrunc.v ===== *)
(** * Freeing a file: [itrunc] and [iput] of kernel/fs.c

    [itrunc] gives the blocks of a file back to the free map, each of them once
    ([bfree] would panic otherwise), and no other block; [iput] of the last
    reference to a file without links does it and frees the inode. *)

From S2P Require Import Prelude Memory Riscv Spinlock Kalloc Vm VmWalk Bio Log Txn Fs FsBlock FsInode FsFile FsExample.

Lemma wp_seq {S A B} (m : M S A) (k : A -> M S unit) (k2 : M S B) Q s :
  wp (x <-! m ;; k x) (fun _ => wp k2 Q) s -> wp (x <-! m ;; k x ;;; k2) Q s.
Proof.
  intros ([] & s1 & H1 & H2). apply bind_Done_inv in H1 as (a & s2 & Hm & Hk). destruct H2 as (b & s3 & H3 & HQ).
  exists b, s3. split; [|done]. rewrite (bind_Done _ _ _ _ _ Hm), (bind_Done _ _ _ _ _ Hk). exact H3.
Qed.

Definition with_addrs (l : list Z) (p : inode) : inode :=
  Inode (i_dev p) (i_inum p) (i_ref p) (i_lock p) (i_valid p) (i_type p) (i_major p) (i_minor p) (i_nlink p) (i_size p) l.
(** The first [j] addresses are cleared, the others those of [p]. *)
Definition zeros (p : inode) (l : list Z) (j : Z) : Prop :=
  length l = 13%nat /\ forall i, 0 <= i < 13 -> nth (Z.to_nat i) l 0 = if decide (i < j) then 0 else geta p i.

Lemma zeros_set p l j : 0 <= j < 13 -> zeros p l j -> zeros p (<[Z.to_nat j := 0]> l) (j + 1).
Proof.
  intros Hj [Hl Hn]. split; [by rewrite length_insert|]. intros i Hi. rewrite nth_lookup. destruct (decide (i = j)) as [->|Hne].
  - rewrite list_lookup_insert_eq by lia. by rewrite decide_True by lia.
  - rewrite list_lookup_insert_ne, <- nth_lookup, Hn by lia. destruct (decide (i < j)); [by rewrite decide_True by lia|by rewrite decide_False by lia].
Qed.
Lemma zeros_skip p l j : zeros p l j -> geta p j = 0 -> zeros p l (j + 1).
Proof.
  intros [Hl Hn] H0. split; [done|]. intros i Hi. rewrite Hn by done. destruct (decide (i = j)) as [->|Hne].
  - rewrite decide_False, decide_True by lia. done.
  - destruct (decide (i < j)); [by rewrite decide_True by lia|by rewrite decide_False by lia].
Qed.
Lemma zeros_all p l : zeros p l 13 -> l = replicate 13 0.
Proof.
  intros [Hl Hn]. apply list_eq. intros i. destruct (decide (i < 13)%nat) as [Hi|Hi].
  - specialize (Hn (Z.of_nat i) ltac:(lia)). rewrite decide_True, Nat2Z.id, nth_lookup in Hn by lia. rewrite lookup_replicate_2 by done.
    destruct (lookup_lt_is_Some_2 l i) as [x Hx]; [lia|]. rewrite Hx in *. by f_equal.
  - rewrite !(proj2 (lookup_ge_None _ _)); [done|rewrite length_replicate; lia|lia].
Qed.

(** Whether a block belongs to a file can be decided. *)
Lemma classic_owned V p b : owned V p b \/ ~ owned V p b.
Proof.
  destruct (decide (b = 0)) as [->|Hb]; [right; by intros [? _]|]. destruct (decide (b = geta p NDIRECT)) as [->|Hn]; [left; split; [done|by right]|].
  destruct (decide (Exists (fun k => fblk V p k = b) (upto MAXFILE))) as [He|He].
  - left. split; [done|left]. apply Exists_exists in He as (k & Hk%elem_upto & E). by exists k.
  - right. intros [_ [(k & Hk & E)|E]]; [|done]. apply He, Exists_exists. exists k. split; [by apply elem_upto|done].
Qed.

Section FsTrunc.
Context `{HC : Ctx} `{HI : Image} `{HF : Frame} {S : Type} `{HT : Txn S} (D : Z) (rep : txabs -> S -> Prop)
  (loggable : Z -> Prop) `{HO : !TxnOk S D rep loggable} (sb : superblock) (Hlay : layout loggable sb).
Notation fsr := (fsr rep).
Notation bit := (bit sb).
Notation fs_ok := (fs_ok loggable sb).
Notation file_ok := (file_ok loggable sb).
Notation lcost := (lcost sb).

(** [V'] is [V] with the blocks in [P] free. *)
Record cleared (V V' : Z -> block) (P : Z -> Prop) : Prop := {
  cl_blk b : blk_ok (V' b);
  cl_same b : ~ is_bmap sb b -> V' b = V b;
  cl_bit b : 0 <= b < sb_size sb -> bit V' b = true <-> bit V b = true /\ ~ P b
}.
Lemma cleared_ext V V' P Q : (forall b, P b <-> Q b) -> cleared V V' P -> cleared V V' Q.
Proof. intros E [H1 H2 H3]. split; [done|done|]. intros b Hb. by rewrite <- E, H3. Qed.
Lemma cleared_none V : fs_ok V -> cleared V V (fun _ => False).
Proof. intros Hfs. split; [apply Hfs|done|]. intros b _. tauto. Qed.
Lemma cleared_free V V' P b : cleared V V' P -> 0 <= b < sb_size sb -> cleared V (freed sb b V') (fun x => P x \/ x = b).
Proof.
  intros [H1 H2 H3] Hb. split.
  - intros x. unfold freed. destruct (decide (BBLOCK b sb = x)) as [<-|]; [rewrite fn_lookup_insert; apply put8_ok, H1|by rewrite fn_lookup_insert_ne].
  - intros x Hx. unfold freed. rewrite fn_lookup_insert_ne by (intros <-; apply Hx; by exists b). by apply H2.
  - intros x Hx. rewrite bit_freed by apply H1. rewrite andb_true_iff, negb_true_iff, Z.eqb_neq, H3 by done. tauto.
Qed.

(** The file's blocks below [K]. *)
Definition below (V : Z -> block) (p : inode) (K b : Z) : Prop := b <> 0 /\ exists k, 0 <= k < K /\ fblk V p k = b.
Lemma below_S V p K b : 0 <= K -> below V p (K + 1) b <-> below V p K b \/ b <> 0 /\ fblk V p K = b.
Proof.
  intros HK. split.
  - intros [Hb (k & Hk & E)]. destruct (decide (k = K)) as [->|]; [by right|left]. split; [done|]. exists k. split; [lia|done].
  - intros [[Hb (k & Hk & E)]|[Hb E]]; (split; [done|]); [exists k|exists K]; (split; [lia|done]).
Qed.

(** Freeing block [k] of the file. *)
Lemma bfree_step V L p ip l k h r V1 L1 s : file_ok V p -> r_sb r = sb -> held_ok sb V1 h -> lcost L + 1 < LOGSIZE - 1 ->
  (length h <= 1)%nat -> fsr (Tx V1 L1 h []) (upd_ino ip (with_addrs l p) r) s -> cleared V V1 (below V p k) -> lcost L1 <= lcost L ->
  blkno k -> fblk V p k <> 0 ->
  wp (bfree D (fblk V p k)) (fun _ s' => exists V2 L2, fsr (Tx V2 L2 h []) (upd_ino ip (with_addrs l p) r) s' /\
    cleared V V2 (below V p (k + 1)) /\ lcost L2 <= lcost L) s.
Proof.
  intros Hf Hsb Hh HL Hlh Hs Hcl HL1 Hk Hne. pose proof (lcost_len sb L1) as Hlen.
  assert (Ho : owned V p (fblk V p k)) by (split; [done|left; by exists k]). destruct (fk_owned _ _ _ _ Hf _ Ho) as (_ & Hr & Hb).
  wp_use (bfree_fs D rep loggable sb Hlay); [exact Hs|done|exact Hh|done| |lia|].
  { apply (cl_bit _ _ _ Hcl); [done|]. split; [done|]. intros [_ (k' & Hk' & E)].
    pose proof (fk_inj _ _ _ _ Hf k' k ltac:(destruct Hk; split; lia) Hk E ltac:(congruence)). lia. }
  intros [] s' Hs'. eexists _, _. split; [exact Hs'|]. split.
  - eapply cleared_ext; [|by apply cleared_free]. intros b. rewrite below_S by (destruct Hk; lia). split; intros [?|E]; try (by left); right; [by subst|].
    by destruct E.
  - pose proof (lcost_map sb (BBLOCK (fblk V p k) sb) L1 ltac:(by exists (fblk V p k))). lia.
Qed.
Lemma cleared_skip V V' p k : 0 <= k -> fblk V p k = 0 -> cleared V V' (below V p k) -> cleared V V' (below V p (k + 1)).
Proof. intros Hk E. apply cleared_ext. intros b. rewrite below_S by done. split; [by left|]. intros [?|[? ?]]; [done|congruence]. Qed.

(** The direct blocks. *)
Definition trunc_inv V L p ip r (l : list Z) K h (s : fsst S) : Prop :=
  exists V1 L1, fsr (Tx V1 L1 h []) (upd_ino ip (with_addrs l p) r) s /\ cleared V V1 (below V p K) /\ lcost L1 <= lcost L.

Lemma trunc_direct V L p ip r s : fs_ok V -> file_ok V p -> r_sb r = sb -> ino r ip p -> i_dev p = D -> length (i_addrs p) = 13%nat ->
  lcost L + 1 < LOGSIZE - 1 -> fsr (Tx V L [] []) r s ->
  wp (for_each (upto NDIRECT) (fun i => q <-! geti ip ;;
      when (negb (geta q i =? 0)) (bfree (i_dev q) (geta q i) ;;; seti ip (ino_addr i 0))))
    (fun _ s' => exists l, zeros p l NDIRECT /\ trunc_inv V L p ip r l NDIRECT [] s') s.
Proof.
  intros Hfs Hf Hsb Hi Hd Hl HL Hs.
  apply (wp_upto (fun j s => exists l, zeros p l j /\ trunc_inv V L p ip r l j [] s)); [| |done].
  - exists (i_addrs p). split; [split; [done|]; intros i Hr; by rewrite decide_False by lia|].
    exists V, L. split; [destruct p; by apply upd_same|]. split; [|lia].
    eapply cleared_ext; [|by apply cleared_none]. intros b. split; [done|]. intros [_ (k & ? & _)]. lia.
  - intros j s1 Hj (l & Hz & V1 & L1 & H1 & Hcl & HL1). pose proof (ino_upd _ _ _ (with_addrs l p) Hi) as Hi1.
    apply wp_bind. wp_use geti_fs; [exact H1|exact Hi1|]. intros q s2 [-> H2].
    assert (Eg : geta (with_addrs l p) j = geta p j) by (unfold geta; cbn; rewrite (proj2 Hz) by (unfold NDIRECT in *; lia); by rewrite decide_False by lia).
    assert (Efb : fblk V p j = geta p j) by (unfold fblk; by replace (j <? NDIRECT) with true by lia).
    rewrite Eg. cbn [i_dev with_addrs]. rewrite Hd, <- Efb. apply wp_when; intros E.
    + apply wp_bind. wp_use (bfree_step V L p ip l j [] r V1 L1); [done|done|apply held_nil|done|simpl; lia|exact H2|done|done| |lia|].
      { split; [lia|]. change MAXFILE with 268. unfold NDIRECT in *. lia. }
      intros [] s3 (V2 & L2 & H3 & Hcl2 & HL2). wp_use seti_fs; [exact H3|by eapply ino_upd|]. intros [] s4 H4. rewrite upd_ino_upd in H4.
      exists (<[Z.to_nat j := 0]> l). split; [apply zeros_set; [unfold NDIRECT in *; lia|done]|]. by exists V2, L2.
    + assert (E0 : fblk V p j = 0) by (destruct (Z.eqb_spec (fblk V p j) 0); [done|discriminate]).
      exists l. split; [apply zeros_skip; [done|congruence]|]. exists V1, L1. split; [exact H2|]. split; [apply cleared_skip; [lia|done..]|done].
Qed.

(** The blocks the indirect block names. *)
Lemma trunc_entries V L p ip r l bp s : file_ok V p -> r_sb r = sb -> i_dev p = D -> lcost L + 1 < LOGSIZE - 1 -> geta p NDIRECT <> 0 ->
  trunc_inv V L p ip r l NDIRECT [(bp, geta p NDIRECT)] s ->
  wp (for_each (upto NINDIRECT) (fun j => a <-! data_ bp ;;
      when (negb (get32 a (4 * j) =? 0)) (bfree D (get32 a (4 * j)))))
    (fun _ => trunc_inv V L p ip r l MAXFILE [(bp, geta p NDIRECT)]) s.
Proof.
  intros Hf Hsb Hd HL H12 Hs. assert (Ho : owned V p (geta p NDIRECT)) by (split; [done|by right]).
  destruct (fk_owned _ _ _ _ Hf _ Ho) as ((_ & _ & Hnb & _) & Hr & Hbit).
  apply (wp_upto (fun j => trunc_inv V L p ip r l (NDIRECT + j) [(bp, geta p NDIRECT)])); [by rewrite Z.add_0_r| |done].
  intros j s1 Hj (V1 & L1 & H1 & Hcl & HL1). apply wp_bind. wp_use (data_fs D rep loggable); [exact H1|left|]. intros d s2 [-> H2].
  assert (Efb : get32 (V1 (geta p NDIRECT)) (4 * j) = fblk V p (NDIRECT + j)).
  { unfold fblk. destruct (Z.ltb_spec (NDIRECT + j) NDIRECT); [lia|]. destruct (Z.eqb_spec (geta p NDIRECT) 0); [done|].
    rewrite (cl_same _ _ _ Hcl) by done. do 2 f_equal. lia. }
  assert (Hk : blkno (NDIRECT + j)) by (split; unfold MAXFILE, NDIRECT in *; lia).
  rewrite Efb. unfold trunc_inv. rewrite Z.add_assoc. apply wp_when; intros E.
  - apply (bfree_step V L p ip l (NDIRECT + j) _ r V1 L1); try done; try lia.
    intros bn Hb. apply list_elem_of_singleton in Hb. simpl in Hb. subst. split; [done|]. intros _.
    apply (cl_bit _ _ _ Hcl); [done|]. split; [done|]. intros [_ (k & Hk' & E2)]. apply (fk_ind _ _ _ _ Hf k); [split; destruct Hk; lia|congruence|done].
  - assert (E0 : fblk V p (NDIRECT + j) = 0) by (destruct (Z.eqb_spec (fblk V p (NDIRECT + j)) 0); [done|discriminate]).
    exists V1, L1. split; [exact H2|]. split; [apply cleared_skip; [destruct Hk; lia|done..]|done].
Qed.

(** The file system after the file was freed and its inode [p'] written. *)
Record truncated (V : Z -> block) (p : inode) (V' : Z -> block) (p' : inode) : Prop := {
  tu_fs : fs_ok V';
  tu_bit b : 0 <= b < sb_size sb -> bit V' b = true <-> bit V b = true /\ ~ owned V p b;
  tu_same b : ~ is_bmap sb b -> ~ is_ino sb b -> V' b = V b;
  tu_disk q : dinode_at sb V' (i_inum p) q = copy_dinode p' q;
  tu_others i q : 0 <= i < sb_ninodes sb -> i <> i_inum p -> dinode_at sb V' i q = dinode_at sb V i q
}.
Definition empty_ino (p : inode) : inode := ino_size 0 (with_addrs (replicate 13 0) p).

Lemma ino_ok_len p : ino_ok p -> length (i_addrs p) = 13%nat.
Proof. apply io_len. Qed.

(** Writing an inode [q] of the slot of [p]. *)
Lemma put_truncated V V1 p q : fs_ok V -> file_ok V p -> cleared V V1 (owned V p) -> ino_ok q -> i_inum q = i_inum p ->
  0 <= i_inum p < sb_ninodes sb ->
  truncated V p (<[IBLOCK (i_inum p) sb := store_dinode (di_off (i_inum p)) q (V1 (IBLOCK (i_inum p) sb))]> V1) q.
Proof.
  intros Hfs Hf [C1 C2 C3] Hq Eq Hn. set (x := IBLOCK (i_inum p) sb). assert (Hx : is_ino sb x) by (by exists (i_inum p)).
  assert (Hxb : ~ is_bmap sb x) by (intros Hb; by apply (lo_disj _ _ Hlay x)).
  assert (Hin : forall i, 0 <= i < sb_ninodes sb -> V1 (IBLOCK i sb) = V (IBLOCK i sb)).
  { intros i Hi. apply C2. intros Hb. apply (lo_disj _ _ Hlay (IBLOCK i sb)); [done|by exists i]. }
  assert (Hbit : forall b v, 0 <= b < sb_size sb -> bit (<[x := v]> V1) b = bit V1 b).
  { intros b v Hb. apply bit_ne; [|done]. intros b' Hb' E. apply Hxb. by exists b'. }
  split.
  - split; [|intros b Hb Hz]; [intros b; destruct (decide (x = b)) as [<-|]; [rewrite fn_lookup_insert; apply store_dinode_ok, C1|rewrite fn_lookup_insert_ne by done; apply C1]|].
    rewrite Hbit in Hz by done. destruct (bit V b) eqn:Eb; [|by apply (fo_free _ _ _ Hfs)].
    destruct (classic_owned V p b) as [Ho|Ho]; [by apply (fk_owned _ _ _ _ Hf)|].
    assert (bit V1 b = true) by (apply C3; [done|]; split; [done|exact Ho]). congruence.
  - intros b Hb. rewrite Hbit by done. by apply C3.
  - intros b Hb Hi. rewrite fn_lookup_insert_ne by (intros <-; done). by apply C2.
  - intros q'. unfold dinode_at. fold x. rewrite fn_lookup_insert. apply load_store_dinode; [apply C1|apply di_off_slot|done].
  - intros i q' Hi Hne. unfold dinode_at. destruct (decide (x = IBLOCK i sb)) as [E|E].
    + rewrite <- E, fn_lookup_insert. rewrite load_store_other; [|apply C1|apply di_off_slot..|by apply ino_ok_len|].
      * unfold x in *. by rewrite E, Hin.
      * destruct (di_off_ne sb (i_inum p) i) as [?|?]; [congruence|done|by right|by left].
    + rewrite fn_lookup_insert_ne by done. by rewrite Hin.
Qed.

Lemma below_owned V p b : owned V p b <-> below V p MAXFILE b \/ b <> 0 /\ geta p NDIRECT = b.
Proof.
  split; [intros [Hb [(k & Hk & E)|E]]|intros [[Hb (k & Hk & E)]|[Hb E]]].
  - left. split; [done|by exists k].
  - by right.
  - split; [done|left; by exists k].
  - split; [done|by right].
Qed.
Lemma below_direct V p b : geta p NDIRECT = 0 -> owned V p b <-> below V p NDIRECT b.
Proof.
  intros E. rewrite below_owned, E. split; [|intros [Hb (k & Hk & Eb)]; left; split; [done|]; exists k; split; [|done]; change MAXFILE with 268; unfold NDIRECT in *; lia].
  intros [[Hb (k & Hk & Eb)]|[Hb Eb]]; [|congruence]. split; [done|]. exists k. split; [|done]. destruct (decide (k < NDIRECT)) as [|Hge]; [lia|].
  exfalso. apply Hb. rewrite <- Eb. unfold fblk. destruct (Z.ltb_spec k NDIRECT); [lia|]. by rewrite E.
Qed.

(** The blocks behind the indirect block, and that block. *)
Lemma trunc_indirect V L p ip r l s : file_ok V p -> r_sb r = sb -> ino r ip p -> i_dev p = D -> lcost L + 1 < LOGSIZE - 1 ->
  zeros p l NDIRECT -> trunc_inv V L p ip r l NDIRECT [] s ->
  wp (q <-! geti ip ;;
      when (negb (geta q NDIRECT =? 0))
        (bp <-! bread_ (i_dev q) (geta q NDIRECT) ;;
         for_each (upto NINDIRECT) (fun j => a <-! data_ bp ;;
           when (negb (get32 a (4 * j) =? 0)) (bfree (i_dev q) (get32 a (4 * j)))) ;;;
         brelse_ bp ;;; bfree (i_dev q) (geta q NDIRECT) ;;; seti ip (ino_addr NDIRECT 0)))
    (fun _ s' => exists V1 L1, fsr (Tx V1 L1 [] []) (upd_ino ip (with_addrs (replicate 13 0) p) r) s' /\
       cleared V V1 (owned V p) /\ lcost L1 <= lcost L) s.
Proof.
  intros Hf Hsb Hi Hd HL Hz (V1 & L1 & H1 & Hcl & HL1). pose proof (ino_upd _ _ _ (with_addrs l p) Hi) as Hi1. pose proof (lcost_len sb L1) as Hlen.
  apply wp_bind. wp_use geti_fs; [exact H1|exact Hi1|]. intros q s1 [-> H2]. cbn [i_dev with_addrs]. rewrite Hd.
  assert (Eg : geta (with_addrs l p) NDIRECT = geta p NDIRECT) by (unfold geta; cbn; rewrite (proj2 Hz) by done; by rewrite decide_False).
  rewrite Eg. apply wp_when; intros E.
  2:{ assert (E0 : geta p NDIRECT = 0) by (destruct (Z.eqb_spec (geta p NDIRECT) 0); [done|discriminate]).
      rewrite <- (zeros_all p l (zeros_skip p l 12 Hz E0)). exists V1, L1. split; [exact H2|]. split; [|done].
      eapply cleared_ext; [|exact Hcl]. intros b. symmetry. by apply below_direct. }
  assert (H12 : geta p NDIRECT <> 0) by lia. assert (Ho : owned V p (geta p NDIRECT)) by (split; [done|by right]).
  destruct (fk_owned _ _ _ _ Hf _ Ho) as ((_ & Hrg & _ & _) & Hr & Hbit).
  apply wp_bind. wp_use (bread_fs D rep loggable); [exact H2|lia|apply not_elem_of_nil|right; simpl; unfold LOGSIZE, MAXOPBLOCKS, NBUF in *; lia|].
  intros bp s2 H3. apply wp_bind. wp_use trunc_entries; [exact Hf|exact Hsb|exact Hd|exact HL|exact H12|exists V1, L1; split; [exact H3|done]|].
  intros [] s3 (V2 & L2 & H4 & Hcl2 & HL2). pose proof (lcost_len sb L2). apply wp_bind.
  wp_use (brelse_fs D rep loggable); [exact H4|apply not_elem_of_nil|]. intros [] s4 H5. apply wp_bind.
  wp_use (bfree_fs D rep loggable sb Hlay); [exact H5|done|apply held_nil|done| |simpl; lia|].
  { apply (cl_bit _ _ _ Hcl2); [done|]. split; [done|]. intros [_ (k & Hk & E2)]. apply (fk_ind _ _ _ _ Hf k); [done|congruence|done]. }
  intros [] s5 H6. wp_use seti_fs; [exact H6|by eapply ino_upd|]. intros [] s6 H7. rewrite upd_ino_upd in H7.
  rewrite <- (zeros_all p (<[Z.to_nat NDIRECT := 0]> l)) by (by apply (zeros_set p l NDIRECT)). eexists _, _. split; [exact H7|]. split.
  - eapply cleared_ext; [|by apply cleared_free]. intros b. rewrite below_owned. split; intros [?|Hb]; try (by left); right; [by subst|]. by destruct Hb.
  - pose proof (lcost_map sb (BBLOCK (geta p NDIRECT) sb) L2 ltac:(by exists (geta p NDIRECT))). lia.
Qed.

Lemma itrunc_fs V L p ip r s : fs_ok V -> file_ok V p -> ino_ok p -> r_sb r = sb -> ino r ip p -> i_dev p = D ->
  0 <= i_inum p < sb_ninodes sb -> lcost L + 1 < LOGSIZE - 1 -> fsr (Tx V L [] []) r s ->
  wp (itrunc ip) (fun _ s' => exists V' L', fsr (Tx V' L' [] []) (upd_ino ip (empty_ino p) r) s' /\
    truncated V p V' (empty_ino p) /\ lcost L' <= lcost L + 1) s.
Proof.
  intros Hfs Hf Hp Hsb Hi Hd Hn HL Hs. unfold itrunc. apply wp_bind. wp_use trunc_direct; [done|done|done|exact Hi|done|by apply ino_ok_len|done|exact Hs|].
  intros [] s1 (l & Hz & H1). apply wp_seq. wp_use trunc_indirect; [done|done|exact Hi|done|done|exact Hz|exact H1|].
  intros [] s2 (V1 & L1 & H2 & Hcl & HL1). apply wp_bind. wp_use seti_fs; [exact H2|by eapply ino_upd|]. intros [] s3 H3. rewrite upd_ino_upd in H3.
  pose proof (lcost_len sb L1). wp_use (iupdate_fs D rep loggable sb Hlay V1 L1 [] ip (empty_ino p)); [exact H3|done|by eapply ino_upd|done|done|apply not_elem_of_nil|simpl; lia|].
  intros [] s4 H4. change (i_inum (empty_ino p)) with (i_inum p) in H4. eexists _, _. split; [exact H4|]. split.
  - apply put_truncated; try done. destruct Hp as [P1 P2 P3 P4 P5 P6 P7]. split; try done. repeat constructor; lia.
  - pose proof (lcost_add sb (IBLOCK (i_inum p) sb) L1). cbn. lia.
Qed.

(** [itrunc] frees exactly the blocks of the file, direct and indirect, each
    once: the free map marks afterwards the blocks it marked before but those
    of the file.  The inode, in memory and on disk, is empty; no data and no
    other inode changes, and at most the blocks of the free map and one inode
    block are logged. *)
Theorem itrunc_correct V L p ip r s : fs_ok V -> file_ok V p -> ino_ok p -> r_sb r = sb -> ino r ip p -> i_dev p = D ->
  0 <= i_inum p < sb_ninodes sb -> lcost L + 1 < LOGSIZE - 1 -> fsr (Tx V L [] []) r s ->
  wp (itrunc ip) (fun _ s' => exists V' L', fsr (Tx V' L' [] []) (upd_ino ip (empty_ino p) r) s' /\
    truncated V p V' (empty_ino p) /\ lcost L' <= lcost L + 1) s.
Proof. apply itrunc_fs. Qed.

Lemma truncated_put V p V' p' q : truncated V p V' p' -> ino_ok q -> 0 <= i_inum p < sb_ninodes sb ->
  truncated V p (<[IBLOCK (i_inum p) sb := store_dinode (di_off (i_inum p)) q (V' (IBLOCK (i_inum p) sb))]> V') q.
Proof.
  intros [T1 T2 T3 T4 T5] Hq Hn. set (x := IBLOCK (i_inum p) sb). assert (Hx : is_ino sb x) by (by exists (i_inum p)).
  assert (Hxb : ~ is_bmap sb x) by (intros Hb; by apply (lo_disj _ _ Hlay x)). pose proof (fo_blk _ _ _ T1 x) as Hok. split.
  - apply fs_ok_put; [done|done|by apply store_dinode_ok].
  - intros b Hb. rewrite bit_ne; [by apply T2| |done]. intros b' Hb' E. apply Hxb. by exists b'.
  - intros b Hb Hi. rewrite fn_lookup_insert_ne by (intros <-; done). by apply T3.
  - intros q'. unfold dinode_at. fold x. rewrite fn_lookup_insert. apply load_store_dinode; [done|apply di_off_slot|done].
  - intros i q' Hi Hne. rewrite <- T5 by done. unfold dinode_at. destruct (decide (x = IBLOCK i sb)) as [E|E]; [|by rewrite fn_lookup_insert_ne].
    rewrite <- E, fn_lookup_insert. apply load_store_other; [done|apply di_off_slot..|by apply ino_ok_len|].
    destruct (di_off_ne sb (i_inum p) i) as [?|?]; [congruence|done|by right|by left].
Qed.

(** The locked inode is freed: [itrunc(ip); ip->type = 0; iupdate(ip); ip->valid = 0;]. *)
Definition freed_ino (p : inode) : inode := ino_valid false (ino_type 0 (empty_ino p)).
Lemma free_inode V L p ip r s (k : M (fsst S) unit) Q : fs_ok V -> file_ok V p -> ino_ok p -> r_sb r = sb -> ino r ip p -> i_dev p = D ->
  0 <= i_inum p < sb_ninodes sb -> lcost L + 2 < LOGSIZE - 1 -> fsr (Tx V L [] []) r s ->
  (forall s' V' L', fsr (Tx V' L' [] []) (upd_ino ip (freed_ino p) r) s' -> truncated V p V' (ino_type 0 (empty_ino p)) -> wp k Q s') ->
  wp (itrunc ip ;;; seti ip (ino_type 0) ;;; iupdate ip ;;; seti ip (ino_valid false) ;;; k) Q s.
Proof.
  intros Hfs Hf Hp Hsb Hi Hd Hn HL Hs HQ. apply wp_bind. wp_use (itrunc_fs V L p ip r); [exact Hfs|exact Hf|exact Hp|exact Hsb|exact Hi|exact Hd|exact Hn|lia|exact Hs|].
  intros [] s1 (V1 & L1 & H1 & T1 & HL1). apply wp_bind. wp_use seti_fs; [exact H1|by eapply ino_upd|]. intros [] s2 H2. rewrite upd_ino_upd in H2.
  pose proof (lcost_len sb L1). apply wp_bind.
  wp_use (iupdate_fs D rep loggable sb Hlay V1 L1 [] ip (ino_type 0 (empty_ino p))); [exact H2|done|by eapply ino_upd|done|done|apply not_elem_of_nil|simpl; lia|].
  intros [] s3 H3. change (i_inum (ino_type 0 (empty_ino p))) with (i_inum p) in H3.
  apply wp_bind. wp_use seti_fs; [exact H3|by eapply ino_upd|]. intros [] s4 H4. rewrite upd_ino_upd in H4. eapply HQ; [exact H4|].
  apply (truncated_put _ _ _ _ _ T1); [|done]. destruct Hp as [P1 P2 P3 P4 P5 P6 P7].
  split; try done. repeat constructor; lia.
Qed.

(** C29: [iput] of the last reference to a file that no directory names frees
    the file: its blocks go back to the free map, its inode is free on disk,
    and the table entry can be used again; the lock of the inode is released.
    Nothing of another file changes. *)
Theorem iput_last V L p ip r s : fs_ok V -> file_ok V p -> ino_ok p -> r_sb r = sb -> ino r ip p -> i_dev p = D ->
  0 <= i_inum p < sb_ninodes sb -> lcost L + 2 < LOGSIZE - 1 -> fsr (Tx V L [] []) r s -> unlocked (r_itlock r) ->
  i_ref p = 1 -> i_valid p = true -> i_nlink p = 0 -> sl_locked (i_lock p) = false -> unlocked (sl_lk (i_lock p)) ->
  wp (iput ip) (fun _ s' => exists V' L' p', fsr (Tx V' L' [] []) (upd_ino ip p' r) s' /\ truncated V p V' (ino_type 0 (empty_ino p)) /\
    i_ref p' = 0 /\ i_valid p' = false /\ sl_locked (i_lock p') = false) s.
Proof.
  intros Hfs Hf Hp Hsb Hi Hd Hn HL Hs Hu Href Hv Hl Hfree Hlk. unfold iput. apply wp_bind. wp_use acq_it; [exact Hs|exact Hu|]. intros [] s1 H1.
  apply wp_bind. wp_use geti_fs; [exact H1|exact Hi|]. intros q s2 [-> H2]. rewrite Href, Hv, Hl. change ((1 =? 1) && true && (0 =? 0)) with true. cbn [when].
  apply wp_bind. apply wp_bind. wp_use on_ilock_fs; [exact H2|exact Hi|by apply acquiresleep_free|]. intros [] s3 [_ H3].
  apply wp_bind. wp_use (rel_it _ _ _ (r_itlock r)); [exact H3|done|done|]. intros [] s4 H4. set (sl := Sleeplock _ _ _ _) in *.
  replace (set_ritlock (r_itlock r) _) with (upd_ino ip (ino_lock sl p) r) in H4 by (by destruct r).
  eapply (free_inode V L (ino_lock sl p) ip (upd_ino ip (ino_lock sl p) r)); [exact Hfs| | |exact Hsb|by eapply ino_upd|exact Hd|exact Hn|exact HL|exact H4|].
  - by destruct Hf; split.
  - by destruct Hp; split.
  - intros s5 V5 L5 H5 [T1 T2 T3 T4 T5]. rewrite upd_ino_upd in H5. apply wp_bind.
    wp_use on_ilock_fs; [exact H5|by eapply ino_upd|by apply releasesleep_spec|]. intros [] s6 [_ H6]. rewrite upd_ino_upd in H6.
    wp_use acq_it; [exact H6|exact Hu|]. intros [] s7 H7. apply wp_bind. wp_use seti_fs; [exact H7|by eapply ino_upd|]. intros [] s8 H8.
    wp_use (rel_it _ _ _ (r_itlock r)); [exact H8|done|done|]. intros [] s9 H9. set (p9 := ino_ref _ _) in *.
    exists V5, L5, p9. split; [|split; [by split|]].
    + replace (set_ritlock (r_itlock r) _) with (upd_ino ip p9 r) in H9; [exact H9|]. unfold upd_ino, set_ritlock, set_rit. cbn. by rewrite !list_insert_insert_eq.
    + split; [cbn; lia|done].
Qed.
End FsTrunc.

Module FsTruncExample.
Import FsExample.
(** A file of 10 bytes that no directory names any more. *)
Definition orphan : inode := Inode 1 2 1 (initsleeplock "inode") true T_FILE 0 0 0 10 (35 :: replicate 12 0).
Definition r2 : fsrest := Rest sb0 (initlock "itable") [orphan] k0 0 0.
Lemma boot2 : exists s, fsr rep0 (Tx V0 [] [] []) r2 s.
Proof. destruct boot_tx as (t & Ht). by exists (Fsst t sb0 (initlock "itable") [orphan] k0 0 0). Qed.
Lemma orphan_file : file_ok (loggable 2) sb0 V0 orphan.
Proof. apply small_file_ok; [by left|cbn; unfold BSIZE; lia|done]. Qed.
Lemma orphan_ok : ino_ok orphan.
Proof. split; cbn; unfold T_FILE; try lia. repeat constructor; lia. Qed.
Lemma orphan_ino : ino r2 0 orphan.
Proof. split; [lia|reflexivity]. Qed.
Lemma orphan_35 : owned V0 orphan 35.
Proof. split; [done|left]. exists 0. split; [split; [lia|reflexivity]|reflexivity]. Qed.

Lemma itrunc_correct_witness : exists s s' V', itrunc (S := lst) 0 s = Done tt s' /\ bit sb0 V' 35 <> true.
Proof.
  destruct boot2 as (s & Hs).
  destruct (itrunc_correct 1 rep0 (loggable 2) sb0 layout0 V0 [] orphan 0 r2 s) as ([] & s' & Hrun & V' & L' & _ & Ht & _);
    [exact fs_ok0|exact orphan_file|exact orphan_ok|reflexivity|exact orphan_ino|reflexivity|cbn; lia|vm_compute; reflexivity|exact Hs|].
  exists s, s', V'. split; [exact Hrun|]. rewrite (tu_bit _ _ _ _ _ _ Ht) by (cbn; lia). intros [_ H]. apply H, orphan_35.
Defined.
Lemma iput_last_witness : exists s s' V', iput (S := lst) 0 s = Done tt s' /\ bit sb0 V' 35 <> true.
Proof.
  destruct boot2 as (s & Hs).
  destruct (iput_last 1 rep0 (loggable 2) sb0 layout0 V0 [] orphan 0 r2 s) as ([] & s' & Hrun & V' & L' & p' & _ & Ht & _);
    [exact fs_ok0|exact orphan_file|exact orphan_ok|reflexivity|exact orphan_ino|reflexivity|cbn; lia|vm_compute; reflexivity|exact Hs
    |split; reflexivity|reflexivity|reflexivity|reflexivity|reflexivity|split; reflexivity|].
  exists s, s', V'. split; [exact Hrun|]. rewrite (tu_bit _ _ _ _ _ _ Ht) by (cbn; lia). intros [_ H]. apply H, orphan_35.
Defined.
End FsTruncExample.
