(* ===== verification/Mkfs.v ===== *)
(** * The file system image: mkfs/mkfs.c

    mkfs runs on the host and writes a disk image: the super block, an empty
    log, the inodes, the free map, the root directory and one file for each
    argument.  [die] and a failed [assert] end it; they are [Panic] here.  The
    host stores integers little endian. *)

From S2P Require Import Prelude Memory Riscv Spinlock Kalloc Vm Bio Log Txn Fs.

Definition FSSIZE : Z := 2000.
Definition NINODES : Z := 200.

Definition nbitmap : Z := FSSIZE / (BSIZE * 8) + 1.
Definition ninodeblocks : Z := NINODES / IPB + 1.
Definition nlog : Z := LOGSIZE.

(** The image file, as the sectors written so far, and the two counters. *)
Record mkfs := Mk { mk_img : list block; mk_freeinode : Z; mk_freeblock : Z }.
Definition set_img (v : list block) (s : mkfs) : mkfs := Mk v (mk_freeinode s) (mk_freeblock s).
Definition set_freeinode (v : Z) (s : mkfs) : mkfs := Mk (mk_img s) v (mk_freeblock s).
Definition set_freeblock (v : Z) (s : mkfs) : mkfs := Mk (mk_img s) (mk_freeinode s) v.

(** The bytes [a[0]], [a[1]], ... of [y], read back as an integer. *)
Definition xshort (x : Z) : Z := u8 x + 256 * u8 (Z.shiftr x 8).
Definition xint (x : Z) : Z :=
  u8 x + 256 * u8 (Z.shiftr x 8) + 65536 * u8 (Z.shiftr x 16) + 16777216 * u8 (Z.shiftr x 24).

Definition nmeta : Z := 2 + nlog + ninodeblocks + nbitmap.
Definition nblocks : Z := FSSIZE - nmeta.
(** [sb] as [main] fills it in. *)
Definition sb : superblock :=
  Superblock FSMAGIC (xint FSSIZE) (xint nblocks) (xint NINODES) (xint nlog) (xint 2) (xint (2 + nlog))
    (xint (2 + nlog + ninodeblocks)).

(** A write past the end of the file leaves a hole of zeros. *)
Definition wsect (sec : Z) (buf : block) : M mkfs unit := modify (fun s =>
  let n := Z.to_nat sec in
  set_img (if decide (n < length (mk_img s))%nat then <[n := buf]> (mk_img s)
           else mk_img s ++ replicate (n - length (mk_img s)) zero_block ++ [buf]) s).
Definition rsect (sec : Z) : M mkfs block := fun s =>
  match mk_img s !! Z.to_nat sec with Some d => Done d s | None => Panic "read" end.

(** A [struct dinode] is an inode of which the fields in memory only are left
    blank; this is one after [bzero]. *)
Definition din0 : inode := Inode 0 0 0 (initsleeplock EmptyString) false 0 0 0 0 0 (replicate 13 0).

Definition winode (inum : Z) (ip : inode) : M mkfs unit :=
  let bn := IBLOCK inum sb in
  buf <-! rsect bn ;;
  wsect bn (store_dinode (di_off inum) ip buf).
Definition rinode (inum : Z) : M mkfs inode :=
  let bn := IBLOCK inum sb in
  buf <-! rsect bn ;;
  ret (load_dinode (di_off inum) buf din0).

Definition ialloc (type : Z) : M mkfs Z :=
  inum <-! gets mk_freeinode ;;
  modify (set_freeinode (u32 (inum + 1))) ;;;
  winode inum (ino_size (xint 0) (ino_nlink (xshort 1) (ino_type (i16 (xshort type)) din0))) ;;;
  ret inum.

(** [for(i = 0; i < used; i++) buf[i/8] = buf[i/8] | (0x1 << (i%8));] *)
Definition bitmap (used : Z) : block := foldl (fun buf i => bit_mark i buf) zero_block (upto used).
Definition balloc (used : Z) : M mkfs unit :=
  panic_if (negb (used <? BSIZE * 8)) "assert" ;;;
  wsect (sb_bmapstart sb) (bitmap used).

(** [freeblock++] *)
Definition next_block : M mkfs Z :=
  b <-! gets mk_freeblock ;;
  modify (set_freeblock (u32 (b + 1))) ;;;
  ret b.

(** The block of the file at [fbn], allocated when it is not there: [x] and
    the [din] changed. *)
Definition iappend_block (din : inode) (fbn : Z) : M mkfs (Z * inode) :=
  if fbn <? NDIRECT then
    din <-! (if xint (geta din fbn) =? 0
             then b <-! next_block ;; ret (ino_addr fbn (xint b) din) else ret din) ;;
    ret (xint (geta din fbn), din)
  else
    din <-! (if xint (geta din NDIRECT) =? 0
             then b <-! next_block ;; ret (ino_addr NDIRECT (xint b) din) else ret din) ;;
    indirect <-! rsect (xint (geta din NDIRECT)) ;;
    indirect <-! (if get32 indirect (4 * (fbn - NDIRECT)) =? 0 then
                    b <-! next_block ;;
                    let indirect := put32 (4 * (fbn - NDIRECT)) (xint b) indirect in
                    wsect (xint (geta din NDIRECT)) indirect ;;;
                    ret indirect
                  else ret indirect) ;;
    ret (xint (get32 indirect (4 * (fbn - NDIRECT))), din).

(** [while(n > 0)], with the bytes [p] still to go to offset [off]; the result
    is [din] and [off]. *)
Fixpoint iappend_loop (fuel : nat) (din : inode) (off : Z) (p : list Z) : M mkfs (inode * Z) :=
  match fuel with
  | O => diverge
  | S fuel' =>
      match p with
      | [] => ret (din, off)
      | _ =>
          let fbn := off / BSIZE in
          panic_if (negb (fbn <? MAXFILE)) "assert" ;;;
          x <-! iappend_block din fbn ;;
          let n1 := Z.min (Z.of_nat (length p)) ((fbn + 1) * BSIZE - off) in
          buf <-! rsect x.1 ;;
          wsect x.1 (splice (off - fbn * BSIZE) (take (Z.to_nat n1) p) buf) ;;;
          iappend_loop fuel' x.2 (u32 (off + n1)) (drop (Z.to_nat n1) p)
      end
  end.
(** Each round takes at least one byte. *)
Definition iappend (inum : Z) (p : list Z) : M mkfs unit :=
  din <-! rinode inum ;;
  r <-! iappend_loop (S (length p)) din (xint (i_size din)) p ;;
  winode inum (ino_size (xint r.2) r.1).

(** [struct dirent] as bytes. *)
Definition dirent (inum : Z) (name : list Z) : list Z := [u8 inum; u8 (inum / 256)] ++ name.

(** [memmove(buf, &sb, sizeof(sb))] *)
Definition sb_block : block :=
  put32 28 (sb_bmapstart sb) (put32 24 (sb_inodestart sb) (put32 20 (sb_logstart sb) (put32 16 (sb_nlog sb)
    (put32 12 (sb_ninodes sb) (put32 8 (sb_nblocks sb) (put32 4 (sb_size sb) (put32 0 (sb_magic sb) zero_block))))))).

(** The name of a file in the image: without "user/" and without a leading
    underscore. *)
Definition USER_ : list Z := [117; 115; 101; 114; 47].
Definition UNDERSCORE : Z := 95.
Definition shortname (arg : list Z) : list Z :=
  if strncmp_bytes 5 arg USER_ =? 0 then drop 5 arg else arg.
Definition skip_underscore (name : list Z) : list Z := if hd 0 name =? UNDERSCORE then tl name else name.

(** An argument: the path, and what the reads of the file return until they
    return 0 ([None] when it cannot be opened). *)
Record hostfile := Hostfile { hf_path : list Z; hf_reads : option (list (list Z)) }.

Definition add_file (rootino : Z) (f : hostfile) : M mkfs unit :=
  panic_if (bool_decide (SLASH ∈ shortname (hf_path f))) "assert" ;;;
  match hf_reads f with
  | None => panic "open"
  | Some reads =>
      inum <-! ialloc T_FILE ;;
      iappend rootino (dirent (xshort inum)
        (strncpy_bytes (Z.to_nat DIRSIZ) (skip_underscore (shortname (hf_path f))))) ;;;
      for_each reads (iappend inum)
  end.

(** "fix size of root inode dir" *)
Definition fix_root_size (rootino : Z) : M mkfs unit :=
  din <-! rinode rootino ;;
  let off := xint (i_size din) in
  let off := u32 ((off / BSIZE + 1) * BSIZE) in
  winode rootino (ino_size (xint off) din).

Definition main (files : list hostfile) : M mkfs unit :=
  modify (set_freeblock nmeta) ;;;
  for_each (upto FSSIZE) (fun i => wsect i zero_block) ;;;
  wsect 1 sb_block ;;;
  rootino <-! ialloc T_DIR ;;
  panic_if (negb (rootino =? ROOTINO)) "assert" ;;;
  iappend rootino (dirent (xshort rootino) (strncpy_bytes (Z.to_nat DIRSIZ) [46])) ;;;
  iappend rootino (dirent (xshort rootino) (strncpy_bytes (Z.to_nat DIRSIZ) [46; 46])) ;;;
  for_each files (add_file rootino) ;;;
  fix_root_size rootino ;;;
  b <-! gets mk_freeblock ;;
  balloc b.
(** The file is empty after [open] with [O_TRUNC]. *)
Definition mkfs0 : mkfs := Mk [] 1 0.
