(* ===== verification/MkfsSpec.v ===== *)
(** * The image mkfs makes

    The invariants of the kernel's file system hold of the image, and it holds
    the files mkfs was given.  The free map is written last; between the steps
    of mkfs the proofs look at the image as if it had been written already, so
    that a block taken by [freeblock++] is one taken by the kernel's
    allocator, and the lemmas on block maps of FsFile apply. *)

From S2P Require Import Prelude Memory Riscv Spinlock Kalloc Vm VmWalk VmUser VmCopy Bio Log Txn Fs FsBlock FsInode FsFile FsDir Mkfs.

(** ** The layout *)

Notation lg := (loggable 2).
Notation changes := (changes lg sb).
Notation written := (written lg sb).
Notation file_ok := (file_ok lg sb).
Notation fs_ok := (fs_ok lg sb).

Lemma xint_id x : 0 <= x < 2 ^ 32 -> xint x = x.
Proof.
  intros H. unfold xint, u8. rewrite !Z.shiftr_div_pow2 by lia. change (2 ^ 8) with 256. change (2 ^ 16) with 65536.
  change (2 ^ 24) with 16777216. Z.div_mod_to_equations. lia.
Qed.
Lemma xshort_id x : 0 <= x < 2 ^ 16 -> xshort x = x.
Proof. intros H. unfold xshort, u8. rewrite !Z.shiftr_div_pow2 by lia. change (2 ^ 8) with 256. Z.div_mod_to_equations. lia. Qed.

Lemma sb_eq : sb = Superblock FSMAGIC 2000 1954 200 30 2 32 45.
Proof. reflexivity. Qed.
Lemma nmeta_eq : nmeta = 46.
Proof. reflexivity. Qed.
Lemma BBLOCK_eq b : 0 <= b < 2000 -> BBLOCK b sb = 45.
Proof. intros H. unfold BBLOCK, BPB, BSIZE. rewrite Z.div_small by lia. reflexivity. Qed.
Lemma IBLOCK_eq i : IBLOCK i sb = i / 16 + 32.
Proof. reflexivity. Qed.
Lemma is_bmap_eq bn : is_bmap sb bn <-> bn = 45.
Proof.
  split.
  - intros (b & Hb & ->). apply BBLOCK_eq. exact Hb.
  - intros ->. exists 0. split; [rewrite sb_eq; cbn; lia|]. reflexivity.
Qed.
Lemma is_ino_range bn : is_ino sb bn -> 32 <= bn <= 44.
Proof. intros (i & Hi & ->). rewrite IBLOCK_eq. rewrite sb_eq in Hi. cbn in Hi. Z.div_mod_to_equations. lia. Qed.
Lemma lg_data b : 32 <= b < 2000 -> lg b.
Proof. intros H. split; [unfold home_ok; lia|unfold home, LOGSIZE, MAXOPBLOCKS; lia]. Qed.
Lemma mkfs_layout : layout lg sb.
Proof.
  split.
  - rewrite sb_eq. cbn. lia.
  - rewrite sb_eq. cbn. lia.
  - intros bn ->%is_bmap_eq. split; [apply lg_data; lia|lia].
  - intros bn Hb%is_ino_range. split; [apply lg_data; lia|lia].
  - intros bn ->%is_bmap_eq H%is_ino_range. lia.
Qed.
Lemma data_block b : 46 <= b < 2000 -> data lg sb b.
Proof.
  intros H. split; [apply lg_data; lia|]. split; [lia|]. split.
  - intros ->%is_bmap_eq. lia.
  - intros Hb%is_ino_range. lia.
Qed.

(** ** The free map *)

Lemma get8_zero o : get8 zero_block o = 0.
Proof. unfold get8, zero_block. rewrite nth_lookup. destruct (_ !! _) eqn:E; [by apply lookup_replicate in E as [-> _]|done]. Qed.
Lemma bitmap_S n : 0 <= n -> bitmap (n + 1) = bit_mark n (bitmap n).
Proof. intros H. unfold bitmap. rewrite upto_snoc, foldl_app by done. done. Qed.
Lemma bitmap_ok n : 0 <= n -> blk_ok (bitmap n) /\ (n <= BPB -> forall b, 0 <= b < BPB -> bit_clear (bitmap n) b = negb (b <? n)).
Proof.
  revert n. apply natlike_ind.
  - split; [apply zero_block_ok|]. intros _ b Hb. unfold bit_clear. change (bitmap 0) with zero_block.
    by rewrite get8_zero, Z.land_0_l, (proj2 (Z.ltb_ge _ _)) by lia.
  - intros n Hn [IH1 IH2]. unfold Z.succ. rewrite bitmap_S by done. split; [unfold bit_mark; by apply put8_ok|].
    intros Hle b Hb. rewrite bit_clear_mark by (done || lia). rewrite IH2 by lia. lia.
Qed.

(** ** The image between two steps *)

(** [V] is the image with the free map it would get now; the blocks not yet
    taken are zero. *)
Record img_ok (V : Z -> block) (s : mkfs) : Prop := {
  im_len : length (mk_img s) = Z.to_nat FSSIZE;
  im_img b : 0 <= b < 2000 -> b <> 45 -> mk_img s !! Z.to_nat b = Some (V b);
  im_map : V 45 = bitmap (mk_freeblock s);
  im_free : 46 <= mk_freeblock s <= 2000;
  im_zero b : b < 0 \/ mk_freeblock s <= b -> V b = zero_block
}.

Lemma img_bit V s b : img_ok V s -> 0 <= b < 2000 -> bit sb V b = (b <? mk_freeblock s).
Proof.
  intros H Hb. unfold bit. rewrite BBLOCK_eq by done. rewrite (im_map _ _ H). pose proof (im_free _ _ H).
  rewrite Z.mod_small by (unfold BPB, BSIZE; lia).
  rewrite (proj2 (bitmap_ok (mk_freeblock s) ltac:(lia))) by (unfold BPB, BSIZE; lia). by rewrite negb_involutive.
Qed.

Lemma rsect_img V s b : img_ok V s -> 0 <= b < 2000 -> b <> 45 -> rsect b s = Done (V b) s.
Proof. intros H Hb Hn. unfold rsect. by rewrite (im_img _ _ H). Qed.
Lemma wsect_img V s b d : img_ok V s -> 0 <= b < mk_freeblock s -> b <> 45 ->
  exists s', wsect b d s = Done tt s' /\ img_ok (<[b := d]> V) s' /\
    mk_freeblock s' = mk_freeblock s /\ mk_freeinode s' = mk_freeinode s.
Proof.
  intros H Hb Hn. pose proof (im_free _ _ H). pose proof (im_len _ _ H) as Hl. eexists. split; [reflexivity|].
  cbv zeta beta. rewrite decide_True by (rewrite Hl; unfold FSSIZE; lia). split; [|done].
  split; cbn [set_img mk_img mk_freeblock]; [by rewrite length_insert| | |lia|].
  - intros c Hc Hc2. destruct (decide (c = b)) as [->|Hne].
    + rewrite list_lookup_insert_eq by (rewrite Hl; unfold FSSIZE; lia). by rewrite fn_lookup_insert.
    + rewrite list_lookup_insert_ne, fn_lookup_insert_ne by lia. by apply (im_img _ _ H).
  - rewrite fn_lookup_insert_ne by done. apply H.
  - intros c Hc. rewrite fn_lookup_insert_ne by lia. by apply (im_zero _ _ H).
Qed.
Lemma next_block_img V s : img_ok V s -> mk_freeblock s < 2000 ->
  exists s', next_block s = Done (mk_freeblock s) s' /\ img_ok (alloced sb (mk_freeblock s) V) s' /\
    mk_freeblock s' = mk_freeblock s + 1 /\ mk_freeinode s' = mk_freeinode s /\ bit sb V (mk_freeblock s) = false.
Proof.
  intros H Hlt. pose proof (im_free _ _ H) as Hf. eexists. split; [reflexivity|].
  cbn [set_freeblock mk_freeblock mk_freeinode]. rewrite u32_small by lia. split; [|split; [done|split; [done|]]].
  - set (fb := mk_freeblock s) in *. unfold alloced. rewrite BBLOCK_eq by lia.
    rewrite Z.mod_small by (unfold BPB, BSIZE; lia). split; cbn [set_freeblock mk_img mk_freeblock]; [apply H| | |lia|].
    + intros b Hb Hn. rewrite (im_img _ _ H) by done. f_equal. destruct (decide (b = fb)) as [->|Hne].
      * rewrite fn_lookup_insert. apply (im_zero _ _ H). lia.
      * by rewrite !fn_lookup_insert_ne by done.
    + rewrite fn_lookup_insert_ne, fn_lookup_insert, bitmap_S by lia. by rewrite (im_map _ _ H).
    + intros b Hb. rewrite !fn_lookup_insert_ne by lia. apply (im_zero _ _ H). lia.
  - rewrite (img_bit _ _ _ H) by lia. by rewrite Z.ltb_irrefl.
Qed.

(** ** A block for the next byte *)

Definition new_blocks (V : Z -> block) (p : inode) (k : Z) : Z :=
  (if fblk V p k =? 0 then 1 else 0) + (if (NDIRECT <=? k) && (geta p NDIRECT =? 0) then 1 else 0).
Notation dinode p := (copy_dinode p din0).

Lemma geta_range p k : addrs_ok p -> 0 <= geta p k < 2 ^ 32.
Proof.
  intros [_ H]. unfold geta. rewrite nth_lookup. destruct (i_addrs p !! _) as [a|] eqn:E; simpl; [|lia].
  exact (proj1 (Forall_lookup _ _) H _ _ E).
Qed.
Lemma get32_range d o : blk_ok d -> 0 <= get32 d o < 2 ^ 32.
Proof.
  intros Hd. unfold get32. pose proof (get8_range d o Hd). pose proof (get8_range d (o + 1) Hd).
  pose proof (get8_range d (o + 2) Hd). pose proof (get8_range d (o + 3) Hd). lia.
Qed.

(** What [iappend_block] and its parts do: block [k] of the file is there, and
    exactly [n] blocks have been taken. *)
Record grown (V : Z -> block) (p : inode) (s : mkfs) (n : Z) (V' : Z -> block) (p' : inode) (s' : mkfs) : Prop := {
  gr_img : img_ok V' s';
  gr_ext : changes V p V' p' (fbyte V p);
  gr_free : mk_freeblock s' = mk_freeblock s + n;
  gr_ino : mk_freeinode s' = mk_freeinode s
}.

Lemma img_alloc V s : img_ok V s -> fs_ok V -> mk_freeblock s < 2000 -> 0 <= mk_freeblock s < sb_size sb.
Proof. intros H _ Hlt. pose proof (im_free _ _ H). rewrite sb_eq. cbn. lia. Qed.

Lemma iappend_direct V s p k : img_ok V s -> fs_ok V -> file_ok V p -> addrs_ok p -> 0 <= k < NDIRECT ->
  mk_freeblock s + new_blocks V p k <= 2000 ->
  exists V' p' s', iappend_block (dinode p) k s = Done (fblk V' p' k, dinode p') s' /\ fblk V' p' k <> 0 /\
    grown V p s (new_blocks V p k) V' p' s' /\ (forall j, blkno j -> j <> k -> fblk V' p' j = fblk V p j) /\
    geta p' NDIRECT = geta p NDIRECT.
Proof.
  intros Hi Hfs Hf Ha Hk Hle. unfold iappend_block, new_blocks in *. rewrite (proj2 (Z.leb_gt NDIRECT k)) in * by lia.
  rewrite (proj2 (Z.ltb_lt k NDIRECT)) by lia. cbn [andb] in *. change (geta (dinode p) k) with (geta p k).
  rewrite xint_id by (by apply geta_range).
  assert (Ek : fblk V p k = geta p k) by (unfold fblk; by rewrite (proj2 (Z.ltb_lt k NDIRECT)) by lia). rewrite Ek in *.
  assert (Hbk : blkno k) by (unfold blkno, MAXFILE, NINDIRECT, NDIRECT, BSIZE in *; change (1024 / 4) with 256; lia).
  destruct (Z.eqb_spec (geta p k) 0) as [H0|H0].
  - destruct (next_block_img V s Hi ltac:(lia)) as (s1 & R1 & I1 & F1 & N1 & B1). set (fb := mk_freeblock s) in *.
    pose proof (im_free _ _ Hi) as Hfb. fold fb in Hfb.
    assert (Hfr : 0 <= fb < sb_size sb) by (rewrite sb_eq; cbn; lia).
    exists (alloced sb fb V), (ino_addr k fb p), s1.
    rewrite (fblk_direct lg sb V p k fb k Hf Ha Hk Hfr B1 Hbk), decide_True by done.
    erewrite bind_Done; [|rewrite (bind_Done _ _ _ _ _ R1); reflexivity]. rewrite (xint_id fb) by lia.
    change (ino_addr k fb (dinode p)) with (dinode (ino_addr k fb p)).
    change (geta (dinode (ino_addr k fb p)) k) with (geta (ino_addr k fb p) k).
    destruct Ha as [Hl Hr]. unfold NDIRECT in Hk.
    rewrite (geta_insert p k k) by lia. rewrite decide_True, xint_id by (done || lia). split; [done|]. split; [lia|]. split.
    { split; [done| |lia|done]. by apply (extend_direct lg sb mkfs_layout). }
    split; [|by rewrite geta_insert, decide_False by (unfold NDIRECT; lia)].
    intros j Hj Hne. rewrite (fblk_direct lg sb V p k fb j Hf (conj Hl Hr) Hk Hfr B1 Hj). by rewrite decide_False.
  - exists V, p, s. rewrite Ek. rewrite (bind_Done (ret _) _ s _ s eq_refl).
    change (geta (dinode p) k) with (geta p k). rewrite xint_id by (by apply geta_range). split; [done|]. split; [done|].
    split; [|done]. split; [done| |lia|done]. apply extends_refl; [done..|apply Ha].
Qed.

Lemma grown_refl V p s : img_ok V s -> fs_ok V -> file_ok V p -> addrs_ok p -> grown V p s 0 V p s.
Proof. intros Hi Hfs Hf Ha. split; [done| |lia|done]. apply extends_refl; [done..|apply Ha]. Qed.
Lemma grown_trans V p s n V1 p1 s1 m V2 p2 s2 :
  grown V p s n V1 p1 s1 -> grown V1 p1 s1 m V2 p2 s2 -> grown V p s (n + m) V2 p2 s2.
Proof. intros [A1 A2 A3 A4] [B1 B2 B3 B4]. split; [done|by eapply extends_trans|lia|congruence]. Qed.

Lemma iappend_indirect_block V s p : img_ok V s -> fs_ok V -> file_ok V p -> addrs_ok p ->
  let n := if geta p NDIRECT =? 0 then 1 else 0 in
  mk_freeblock s + n <= 2000 ->
  exists V' p' s',
    (if xint (geta (dinode p) NDIRECT) =? 0
     then b <-! next_block ;; ret (ino_addr NDIRECT (xint b) (dinode p)) else ret (dinode p)) s = Done (dinode p') s' /\
    geta p' NDIRECT <> 0 /\ grown V p s n V' p' s' /\ forall j, blkno j -> fblk V' p' j = fblk V p j.
Proof.
  intros Hi Hfs Hf Ha n Hle. subst n. change (geta (dinode p) NDIRECT) with (geta p NDIRECT).
  rewrite xint_id by (by apply geta_range). destruct (Z.eqb_spec (geta p NDIRECT) 0) as [H0|H0].
  - destruct (next_block_img V s Hi ltac:(lia)) as (s1 & R1 & I1 & F1 & N1 & B1). set (fb := mk_freeblock s) in *.
    pose proof (im_free _ _ Hi) as Hfb. fold fb in Hfb.
    assert (Hfr : 0 <= fb < sb_size sb) by (rewrite sb_eq; cbn; lia).
    exists (alloced sb fb V), (ino_addr NDIRECT fb p), s1. rewrite (bind_Done _ _ _ _ _ R1), xint_id by lia.
    split; [done|]. split; [rewrite geta_insert, decide_True by (apply Ha || (unfold NDIRECT; lia) || done); lia|]. split.
    + split; [done| |lia|done]. by apply (extend_indirect lg sb mkfs_layout).
    + intros j Hj. by apply fblk_indirect.
  - exists V, p, s. split; [done|]. split; [done|]. split; [by apply grown_refl|done].
Qed.

(** The blocks of a file have been taken. *)
Lemma owned_img V s p b : img_ok V s -> file_ok V p -> owned V p b -> 0 <= b < mk_freeblock s /\ 0 <= b < 2000 /\ b <> 45.
Proof.
  intros Hi Hf Ho. destruct (fk_owned _ _ _ _ Hf b Ho) as ((_ & _ & Hnb & _) & Hr & Hbit). rewrite is_bmap_eq in Hnb.
  assert (Hb : 0 <= b < 2000) by (rewrite sb_eq in Hr; exact Hr). rewrite (img_bit _ _ _ Hi Hb) in Hbit.
  apply Z.ltb_lt in Hbit. lia.
Qed.

Lemma iappend_entry V s p k : img_ok V s -> fs_ok V -> file_ok V p -> addrs_ok p -> NDIRECT <= k < MAXFILE ->
  geta p NDIRECT <> 0 -> let n := if fblk V p k =? 0 then 1 else 0 in
  mk_freeblock s + n <= 2000 ->
  exists V' s',
    (indirect <-! rsect (xint (geta (dinode p) NDIRECT)) ;;
     indirect <-! (if get32 indirect (4 * (k - NDIRECT)) =? 0 then
                    b <-! next_block ;;
                    let indirect := put32 (4 * (k - NDIRECT)) (xint b) indirect in
                    wsect (xint (geta (dinode p) NDIRECT)) indirect ;;;
                    ret indirect
                  else ret indirect) ;;
     ret (xint (get32 indirect (4 * (k - NDIRECT))), dinode p)) s = Done (fblk V' p k, dinode p) s' /\
    fblk V' p k <> 0 /\ grown V p s n V' p s' /\ forall j, blkno j -> j <> k -> fblk V' p j = fblk V p j.
Proof.
  intros Hi Hfs Hf Ha Hk Hne n Hle. subst n. change (geta (dinode p) NDIRECT) with (geta p NDIRECT).
  rewrite xint_id by (by apply geta_range). set (x := geta p NDIRECT) in *.
  assert (Hox : owned V p x) by (split; [done|by right]). destruct (owned_img _ _ _ _ Hi Hf Hox) as (Hbit & Hx & Hnb).
  rewrite (bind_Done _ _ _ _ _ (rsect_img _ _ _ Hi Hx Hnb)).
  assert (Ek : fblk V p k = get32 (V x) (4 * (k - NDIRECT))).
  { unfold fblk. fold x. rewrite (proj2 (Z.ltb_ge k NDIRECT)) by lia. by destruct (Z.eqb_spec x 0). }
  rewrite <- Ek. assert (Hbk : blkno k) by (unfold blkno, NDIRECT in *; lia).
  destruct (Z.eqb_spec (fblk V p k) 0) as [H0|H0].
  - destruct (next_block_img V s Hi ltac:(lia)) as (s1 & R1 & I1 & F1 & N1 & B1). set (fb := mk_freeblock s) in *.
    pose proof (im_free _ _ Hi) as Hfb. fold fb in Hfb.
    assert (Hfr : 0 <= fb < sb_size sb) by (rewrite sb_eq; cbn; lia).
    destruct (wsect_img _ s1 x (put32 (4 * (k - NDIRECT)) fb (V x)) I1 ltac:(lia) Hnb) as (s2 & R2 & I2 & F2 & N2).
    exists (<[x := put32 (4 * (k - NDIRECT)) fb (V x)]> (alloced sb fb V)), s2.
    assert (Hb : forall j, blkno j -> fblk (<[x := put32 (4 * (k - NDIRECT)) fb (V x)]> (alloced sb fb V)) p j =
      if decide (j = k) then fb else fblk V p j) by (intros j Hj; eapply (fblk_entry lg); [done..|lia|done]).
    rewrite (Hb k Hbk), decide_True by done. erewrite bind_Done.
    2:{ rewrite (bind_Done _ _ _ _ _ R1). cbv zeta. rewrite xint_id by lia. rewrite (bind_Done _ _ _ _ _ R2). reflexivity. }
    rewrite get32_put_entry, decide_True, xint_id; try done; try lia.
    2: apply Hfs. 2,3: unfold MAXFILE in Hk; lia. split; [done|]. split; [lia|]. split.
    + split; [done| |lia|congruence]. by apply (extend_entry lg sb mkfs_layout).
    + intros j Hj Hjk. rewrite Hb by done. by rewrite decide_False.
  - exists V, s. rewrite (bind_Done (ret _) _ s _ s eq_refl), <- Ek.
    rewrite xint_id by (rewrite Ek; apply get32_range, Hfs). split; [done|]. split; [done|]. split; [by apply grown_refl|done].
Qed.

Lemma iappend_block_img V s p k : img_ok V s -> fs_ok V -> file_ok V p -> addrs_ok p -> blkno k ->
  mk_freeblock s + new_blocks V p k <= 2000 ->
  exists V' p' s', iappend_block (dinode p) k s = Done (fblk V' p' k, dinode p') s' /\ fblk V' p' k <> 0 /\
    grown V p s (new_blocks V p k) V' p' s' /\ (forall j, blkno j -> j <> k -> fblk V' p' j = fblk V p j) /\
    (geta p' NDIRECT <> 0 <-> geta p NDIRECT <> 0 \/ NDIRECT <= k).
Proof.
  intros Hi Hfs Hf Ha Hk Hle. destruct (decide (k < NDIRECT)) as [Hlt|Hge].
  { destruct (iappend_direct V s p k Hi Hfs Hf Ha) as (V' & p' & s' & R & H0 & G & Hj & Hn); [destruct Hk; lia|done|].
    exists V', p', s'. rewrite Hn. split_and!; [done..|]. split; [by left|]. intros [?|?]; [done|lia]. }
  destruct Hk as [Hk0 Hk1]. unfold iappend_block. rewrite (proj2 (Z.ltb_ge k NDIRECT)) by lia. unfold new_blocks in *.
  rewrite (proj2 (Z.leb_le NDIRECT k)) in * by lia. cbn [andb] in *.
  destruct (iappend_indirect_block V s p Hi Hfs Hf Ha) as (V1 & p1 & s1 & R1 & H1 & G1 & B1).
  { destruct (fblk V p k =? 0); lia. }
  assert (Ek : fblk V1 p1 k = fblk V p k) by (by apply B1). pose proof (gr_free _ _ _ _ _ _ _ G1) as F1.
  destruct (iappend_entry V1 s1 p1 k) as (V2 & s2 & R2 & H2 & G2 & B2); [apply G1|apply G1|apply G1| |lia|done| |].
  { eapply addrs_ok_ext; [apply G1|done]. }
  { rewrite Ek. lia. }
  exists V2, p1, s2. split; [etransitivity; [exact (bind_Done _ _ _ _ _ R1)|exact R2]|]. split; [done|]. rewrite Ek in G2. split.
  { rewrite Z.add_comm. by eapply grown_trans. }
  split; [intros j Hj Hne; rewrite B2 by done; by apply B1|]. split; [right; lia|done].
Qed.

(** ** Appending bytes *)

(** The file has the blocks a file of [n] bytes needs and no others. *)
Record tight (V : Z -> block) (p : inode) (n : Z) : Prop := {
  ti_blk k : blkno k -> fblk V p k <> 0 <-> k * BSIZE < n;
  ti_ind : geta p NDIRECT <> 0 <-> NDIRECT * BSIZE < n
}.
Definition blocks_of (n : Z) : Z := (n + BSIZE - 1) / BSIZE + (if NDIRECT * BSIZE <? n then 1 else 0).

Lemma next_byte off m : 0 <= off -> 0 < m -> off + m <= (off / BSIZE + 1) * BSIZE ->
  forall k, (k * BSIZE < off + m <-> k * BSIZE < off \/ k = off / BSIZE).
Proof. intros H0 Hm Hle k. unfold BSIZE in *. Z.div_mod_to_equations. lia. Qed.
Lemma blocks_of_step V p off m : tight V p off -> 0 <= off -> 0 < m -> off + m <= (off / BSIZE + 1) * BSIZE ->
  off + m <= MAXFILE * BSIZE -> new_blocks V p (off / BSIZE) = blocks_of (off + m) - blocks_of off.
Proof.
  intros [Ht1 Ht2] H0 Hm Hle Hmax. unfold new_blocks, blocks_of.
  assert (Hk : blkno (off / BSIZE)) by (apply blkno_div; lia). specialize (Ht1 _ Hk).
  change (MAXFILE * BSIZE) with 274432 in Hmax. change NDIRECT with 12 in *. unfold BSIZE in *.
  destruct (Z.eqb_spec (fblk V p (off / 1024)) 0), (Z.leb_spec 12 (off / 1024)), (Z.eqb_spec (geta p 12) 0),
    (Z.ltb_spec (12 * 1024) (off + m)), (Z.ltb_spec (12 * 1024) off); cbn [andb];
    Z.div_mod_to_equations; lia.
Qed.
Lemma blocks_of_mono m n : m <= n -> blocks_of m <= blocks_of n.
Proof.
  intros H. unfold blocks_of. pose proof (Z.div_le_mono (m + BSIZE - 1) (n + BSIZE - 1) BSIZE BSIZE_pos ltac:(lia)).
  destruct (Z.ltb_spec (NDIRECT * BSIZE) m), (Z.ltb_spec (NDIRECT * BSIZE) n); lia.
Qed.

Lemma tight_step V1 p1 V2 p2 o m d : let k := o / BSIZE in
  tight V1 p1 o -> file_ok V2 p2 -> 0 <= o -> 0 < m -> o + m <= (k + 1) * BSIZE -> blkno k -> fblk V2 p2 k <> 0 ->
  (forall j, blkno j -> j <> k -> fblk V2 p2 j = fblk V1 p1 j) ->
  (geta p2 NDIRECT <> 0 <-> geta p1 NDIRECT <> 0 \/ NDIRECT <= k) -> tight (<[fblk V2 p2 k := d]> V2) p2 (o + m).
Proof.
  intros k Ht Hf Ho Hm Hle Hk Hne Hj Hn. pose proof (next_byte o m Ho Hm Hle) as Hnb. fold k in Hnb.
  pose proof (fk_ind _ _ _ _ Hf k Hk Hne) as Hni. split.
  - intros j Hbj. assert (E : fblk (<[fblk V2 p2 k := d]> V2) p2 j = fblk V2 p2 j)
      by (unfold fblk at 1 3; by rewrite fn_lookup_insert_ne). rewrite E, Hnb.
    destruct (decide (j = k)) as [->|Hjk]; [tauto|]. rewrite Hj by done. rewrite (ti_blk _ _ _ Ht) by done. tauto.
  - rewrite Hn, (ti_ind _ _ _ Ht), Hnb. assert (NDIRECT <= k <-> NDIRECT * BSIZE < o \/ NDIRECT = k); [|tauto].
    subst k. change NDIRECT with 12. unfold BSIZE. Z.div_mod_to_equations. lia.
Qed.

Section Append.
Context (V : Z -> block) (p : inode) (off : Z) (bs : list Z).
Notation n := (Z.of_nat (length bs)).
Context (Hap : addrs_ok p) (Hoff : 0 <= off) (Hmax : off + n <= MAXFILE * BSIZE) (Hbs : Forall (fun b => 0 <= b < 256) bs).

(** The contents after one more round. *)
Lemma append_step V1 p1 V2 p2 tot m :
  let o := off + tot in let x := fblk V2 p2 (o / BSIZE) in let chunk := take (Z.to_nat m) (drop (Z.to_nat tot) bs) in
  changes V p V1 p1 (patched V p off bs tot) -> changes V1 p1 V2 p2 (fbyte V1 p1) -> x <> 0 ->
  0 <= tot -> 0 < m -> tot + m <= n -> o + m <= (o / BSIZE + 1) * BSIZE ->
  changes V p (<[x := splice (o mod BSIZE) chunk (V2 x)]> V2) p2 (patched V p off bs (tot + m)).
Proof.
  intros o x chunk H1 H2 Hx H0 Hm Hle Hk.
  assert (Hcl : Z.of_nat (length chunk) = m) by (subst chunk; rewrite length_take, length_drop; lia).
  assert (Hblk : blkno (o / BSIZE)) by (apply blkno_div; lia).
  pose proof (changes_trans _ _ _ _ _ _ _ _ _ _ H1 H2) as H12.
  pose proof (write_step lg sb V2 p2 o chunk (ex_fs _ _ _ _ _ _ _ H2) (ex_file _ _ _ _ _ _ _ H2) (addrs_ok_ext _ _ _ _ _ _ _ H12 Hap)
    ltac:(lia) Hblk Hx) as H3. cbv zeta in H3. fold x in H3.
  assert (Hmod : o mod BSIZE + m <= BSIZE) by (pose proof (Z.div_mod o BSIZE ltac:(done)); lia). rewrite Hcl in H3.
  specialize (H3 Hmod ltac:(subst chunk; by apply Forall_take, Forall_drop)).
  eapply changes_ext; [|exact (changes_trans _ _ _ _ _ _ _ _ _ _ H12 H3)]. cbv beta. intros y Hy.
  rewrite patched_step by lia. fold o. destruct (decide _); [done|].
  rewrite (ex_bytes _ _ _ _ _ _ _ H2) by done. by apply (ex_bytes _ _ _ _ _ _ _ H1).
Qed.

Lemma iappend_loop_img fuel : forall tot V1 p1 s1,
  img_ok V1 s1 -> changes V p V1 p1 (patched V p off bs tot) -> tight V1 p1 (off + tot) -> 0 <= tot <= n ->
  mk_freeblock s1 + blocks_of (off + n) - blocks_of (off + tot) <= 2000 -> n - tot < Z.of_nat fuel ->
  exists V2 p2 s2, iappend_loop fuel (dinode p1) (off + tot) (drop (Z.to_nat tot) bs) s1 = Done (dinode p2, off + n) s2 /\
    img_ok V2 s2 /\ changes V p V2 p2 (patched V p off bs n) /\ tight V2 p2 (off + n) /\
    mk_freeblock s2 = mk_freeblock s1 + blocks_of (off + n) - blocks_of (off + tot) /\ mk_freeinode s2 = mk_freeinode s1.
Proof.
  induction fuel as [|fuel IH]; intros tot V1 p1 s1 Hi Hch Ht Htot Hfree Hfuel; [lia|]. cbn [iappend_loop].
  destruct (drop (Z.to_nat tot) bs) as [|c rest] eqn:Ed.
  { assert (Hlen : length (drop (Z.to_nat tot) bs) = O) by (by rewrite Ed). rewrite length_drop in Hlen.
    assert (tot = n) by lia. subst tot. exists V1, p1, s1. split_and!; [done..|lia|done]. }
  rewrite <- Ed. assert (Hlt : tot < n).
  { assert (Hlen : length (drop (Z.to_nat tot) bs) = S (length rest)) by (by rewrite Ed). rewrite length_drop in Hlen. lia. }
  clear Ed c rest. set (o := off + tot) in *. set (k := o / BSIZE).
  assert (Hk : blkno k) by (apply blkno_div; lia). rewrite (proj2 (Z.ltb_lt k MAXFILE)) by apply Hk. cbn [negb].
  rewrite (bind_Done (panic_if false _) _ s1 tt s1 eq_refl). rewrite length_drop.
  set (m := Z.min (Z.of_nat (length bs - Z.to_nat tot)) ((k + 1) * BSIZE - o)).
  assert (Hm : 0 < m <= n - tot /\ o + m <= (o / BSIZE + 1) * BSIZE).
  { subst m k. pose proof (Z.mod_pos_bound o BSIZE BSIZE_pos). pose proof (Z.div_mod o BSIZE ltac:(done)). lia. }
  destruct Hm as [Hm Hmk].
  pose proof (blocks_of_step V1 p1 o m Ht ltac:(lia) ltac:(lia) Hmk ltac:(lia)) as Hnew. fold k in Hnew.
  pose proof (blocks_of_mono (o + m) (off + n) ltac:(lia)) as Hmono.
  destruct (iappend_block_img V1 s1 p1 k Hi (ex_fs _ _ _ _ _ _ _ Hch) (ex_file _ _ _ _ _ _ _ Hch)
    (addrs_ok_ext _ _ _ _ _ _ _ Hch Hap) Hk ltac:(lia)) as (V2 & p2 & s2 & R2 & H2 & G2 & B2 & N2).
  rewrite (bind_Done _ _ _ _ _ R2). cbn [fst snd]. set (x := fblk V2 p2 k) in *.
  pose proof (ex_file _ _ _ _ _ _ _ (gr_ext _ _ _ _ _ _ _ G2)) as Hf2. pose proof (ex_fs _ _ _ _ _ _ _ (gr_ext _ _ _ _ _ _ _ G2)) as Hfs2.
  assert (Hox : owned V2 p2 x) by (split; [done|left; by exists k]).
  destruct (owned_img _ _ _ _ (gr_img _ _ _ _ _ _ _ G2) Hf2 Hox) as (Hx1 & Hx2 & Hx3).
  rewrite (bind_Done _ _ _ _ _ (rsect_img _ _ _ (gr_img _ _ _ _ _ _ _ G2) Hx2 Hx3)).
  set (chunk := take (Z.to_nat m) (drop (Z.to_nat tot) bs)).
  destruct (wsect_img V2 s2 x (splice (o - k * BSIZE) chunk (V2 x)) (gr_img _ _ _ _ _ _ _ G2) Hx1 Hx3) as (s3 & R3 & I3 & F3 & N3).
  rewrite (bind_Done _ _ _ _ _ R3), drop_drop.
  assert (Hcl : Z.of_nat (length chunk) = m) by (subst chunk; rewrite length_take, length_drop; lia).
  assert (Ho : o - k * BSIZE = o mod BSIZE) by (subst k; pose proof (Z.div_mod o BSIZE ltac:(done)); lia). rewrite Ho in *.
  pose proof (append_step V1 p1 V2 p2 tot m Hch (gr_ext _ _ _ _ _ _ _ G2) H2 ltac:(lia) ltac:(lia) ltac:(lia) Hmk) as Hch3.
  cbv zeta in Hch3. fold o k x chunk in Hch3.
  assert (Ht3 : tight (<[x := splice (o mod BSIZE) chunk (V2 x)]> V2) p2 (off + (tot + m))).
  { replace (off + (tot + m)) with (o + m) by lia. apply (tight_step V1 p1 V2); try done; lia. }
  rewrite u32_small by (change (MAXFILE * BSIZE) with 274432 in Hmax; lia).
  replace (o + m) with (off + (tot + m)) in * by lia. replace (Z.to_nat tot + Z.to_nat m)%nat with (Z.to_nat (tot + m)) by lia.
  pose proof (gr_free _ _ _ _ _ _ _ G2) as F2. pose proof (gr_ino _ _ _ _ _ _ _ G2) as N2'.
  destruct (IH (tot + m) _ p2 s3 I3 Hch3 Ht3 ltac:(lia) ltac:(lia) ltac:(lia)) as (V4 & p4 & s4 & R4 & I4 & C4 & T4 & F4 & N4).
  exists V4, p4, s4. split_and!; [exact R4|done..|lia|congruence].
Qed.
End Append.

(** ** One file *)

(** The inode [i] of the image. *)
Definition blank (i : Z) : inode := Inode 1 i 0 (initsleeplock EmptyString) false 0 0 0 0 0 [].
Definition inode_at (V : Z -> block) (i : Z) : inode := dinode_at sb V i (blank i).
Definition inum_ok (i : Z) : Prop := 0 <= i < 200.

Lemma inode_block V s i : img_ok V s -> inum_ok i -> let b := IBLOCK i sb in
  is_ino sb b /\ 0 <= b < mk_freeblock s /\ 0 <= b < 2000 /\ b <> 45.
Proof.
  intros Hi Hn b. assert (Hb : is_ino sb b) by (apply is_ino_at; exact Hn). split; [done|].
  pose proof (is_ino_range _ Hb). pose proof (im_free _ _ Hi). lia.
Qed.
Lemma winode_img V s i p : img_ok V s -> inum_ok i ->
  let b := IBLOCK i sb in let V' := <[b := store_dinode (di_off i) p (V b)]> V in
  exists s', winode i p s = Done tt s' /\ img_ok V' s' /\ mk_freeblock s' = mk_freeblock s /\ mk_freeinode s' = mk_freeinode s.
Proof.
  intros Hi Hn b V'. destruct (inode_block V s i Hi Hn) as (_ & H1 & H2 & H3). fold b in H1, H2, H3. unfold winode. fold b. cbv zeta.
  rewrite (bind_Done _ _ _ _ _ (rsect_img _ _ _ Hi H2 H3)). by apply wsect_img.
Qed.
Lemma rinode_img V s i : img_ok V s -> inum_ok i -> rinode i s = Done (dinode (inode_at V i)) s.
Proof.
  intros Hi Hn. destruct (inode_block V s i Hi Hn) as (_ & H1 & H2 & H3). unfold rinode. cbv zeta.
  by rewrite (bind_Done _ _ _ _ _ (rsect_img _ _ _ Hi H2 H3)).
Qed.

Lemma iappend_img V s i bs : let p := inode_at V i in let sz := i_size p in let n := Z.of_nat (length bs) in
  img_ok V s -> fs_ok V -> inum_ok i -> file_ok V p -> ino_ok p -> tight V p sz ->
  Forall (fun b => 0 <= b < 256) bs -> sz + n <= MAXFILE * BSIZE -> mk_freeblock s + blocks_of (sz + n) - blocks_of sz <= 2000 ->
  exists V' p' s', iappend i bs s = Done tt s' /\ img_ok V' s' /\ written V p sz bs n V' p' /\ tight V' p' (sz + n) /\
    mk_freeblock s' = mk_freeblock s + blocks_of (sz + n) - blocks_of sz /\ mk_freeinode s' = mk_freeinode s /\
    (forall b, owned V' p' b -> owned V p b \/ mk_freeblock s <= b).
Proof.
  intros p sz n Hi Hfs Hn Hf Hp Ht Hbs Hmax Hfree. pose proof (fk_size _ _ _ _ Hf) as Hsz. fold sz in Hsz.
  assert (Hap : addrs_ok p) by (split; apply Hp). unfold iappend. rewrite (bind_Done _ _ _ _ _ (rinode_img _ _ _ Hi Hn)). fold p.
  change (i_size (dinode p)) with sz. rewrite xint_id by (change (MAXFILE * BSIZE) with 274432 in Hmax; lia).
  assert (Hch0 : changes V p V p (patched V p sz bs 0)).
  { eapply changes_ext; [|apply extends_refl; [done..|apply Hap]]. intros o Ho. unfold patched. by rewrite decide_False by lia. }
  destruct (iappend_loop_img V p sz bs Hap ltac:(lia) Hmax Hbs (S (length bs)) 0 V p s Hi Hch0) as (V1 & p1 & s1 & R1 & I1 & C1 & T1 & F1 & N1);
    try (rewrite Z.add_0_r; done || lia); try lia.
  change (Z.to_nat 0) with O in R1. rewrite drop_0, Z.add_0_r in R1. rewrite (bind_Done _ _ _ _ _ R1). cbn [fst snd]. fold n in R1, C1, T1, F1.
  rewrite Z.add_0_r in F1. rewrite xint_id by (change (MAXFILE * BSIZE) with 274432 in Hmax; lia).
  destruct (winode_img V1 s1 i (ino_size (sz + n) p1) I1 Hn) as (s2 & R2 & I2 & F2 & N2).
  assert (Hm : forall o, sz <= o < sz + n -> fblk V1 p1 (o / BSIZE) <> 0).
  { intros o Ho. apply (ti_blk _ _ _ T1); [apply blkno_div; lia|]. pose proof (Z.div_mod o BSIZE ltac:(done)).
    pose proof (Z.mod_pos_bound o BSIZE BSIZE_pos). lia. }
  pose proof (written_done lg sb mkfs_layout V p sz bs n V1 p1 C1 Hp Hn ltac:(lia) ltac:(lia) Hmax Hm) as Hw. cbv zeta in Hw.
  rewrite (ext_inum _ _ _ _ _ _ _ C1), (ext_size _ _ _ _ _ _ _ C1) in Hw. change (i_inum p) with i in Hw. fold sz in Hw.
  assert (Ep : (if sz <? sz + n then ino_size (sz + n) p1 else p1) = ino_size (sz + n) p1).
  { destruct (Z.ltb_spec sz (sz + n)); [done|]. replace (sz + n) with sz by lia. pose proof (ext_size _ _ _ _ _ _ _ C1) as E.
    fold sz in E. destruct p1. cbn in *. by rewrite E. }
  rewrite Ep in Hw. eexists _, (ino_size (sz + n) p1), s2. split; [exact R2|]. split; [exact I2|]. split; [exact Hw|].
  destruct (inode_block V1 s1 i I1 Hn) as (Hio & _).
  assert (Hb : forall d j, fblk (<[IBLOCK i sb := d]> V1) (ino_size (sz + n) p1) j = fblk V1 p1 j).
  { intros d j. rewrite fblk_size. eapply (ino_put_blk lg); [|done]. apply C1. }
  split_and!.
  - split; [intros k Hk; rewrite Hb; by apply (ti_blk _ _ _ T1)|apply (ti_ind _ _ _ T1)].
  - lia.
  - congruence.
  - intros b [Hb0 Hbo]. destruct (ex_own _ _ _ _ _ _ _ C1 b) as [Ho|[Hr Ho]]; [|by left|].
    { split; [done|]. destruct Hbo as [(k & Hk & E)|E]; [left; exists k; by rewrite Hb in E|by right]. }
    right. rewrite (img_bit _ _ _ Hi Hr) in Ho. by apply Z.ltb_ge in Ho.
Qed.

(** ** All files *)

(** Inode [i] is a file of type [t] with the bytes [c]. *)
Record good (V : Z -> block) (i t : Z) (c : list Z) : Prop := {
  go_file : file_ok V (inode_at V i);
  go_ino : ino_ok (inode_at V i);
  go_tight : tight V (inode_at V i) (i_size (inode_at V i));
  go_type : i_type (inode_at V i) = t;
  go_nlink : i_nlink (inode_at V i) = 1;
  go_size : i_size (inode_at V i) = Z.of_nat (length c);
  go_bytes : fbytes V (inode_at V i) 0 (Z.of_nat (length c)) = c;
  go_tail o : Z.of_nat (length c) <= o < MAXFILE * BSIZE -> fbyte V (inode_at V i) o = 0;
  go_data b : owned V (inode_at V i) b -> 46 <= b
}.

(** The image holds the files [cs], with the inodes 1, 2, ...  *)
Definition used (cs : list (Z * list Z)) : Z := foldr (fun tc n => blocks_of (Z.of_nat (length tc.2)) + n) nmeta cs.
Record holds (V : Z -> block) (s : mkfs) (cs : list (Z * list Z)) : Prop := {
  ho_img : img_ok V s;
  ho_fs : fs_ok V;
  ho_next : mk_freeinode s = 1 + Z.of_nat (length cs);
  ho_max : 1 + Z.of_nat (length cs) <= 200;
  ho_file i t c : cs !! i = Some (t, c) -> good V (1 + Z.of_nat i) t c;
  ho_disj i j b : i <> j -> (i < length cs)%nat -> (j < length cs)%nat ->
    owned V (inode_at V (1 + Z.of_nat i)) b -> owned V (inode_at V (1 + Z.of_nat j)) b -> False;
  ho_rest i : 1 + Z.of_nat (length cs) <= i < 200 -> i_type (inode_at V i) = 0;
  ho_used : mk_freeblock s = used cs;
  ho_boot b : b = 0 \/ 2 <= b < 32 -> V b = zero_block;
  ho_sb : V 1 = sb_block
}.

(** A file whose inode and blocks do not change. *)
Lemma fblk_frame V V' p j : (forall b, owned V p b -> V' b = V b) -> fblk V' p j = fblk V p j.
Proof.
  intros H. unfold fblk. destruct (j <? NDIRECT); [done|]. destruct (Z.eqb_spec (geta p NDIRECT) 0); [done|].
  rewrite H; [done|]. split; [done|by right].
Qed.
Lemma good_frame V V' s s' i t c : good V i t c -> img_ok V s -> img_ok V' s' -> mk_freeblock s <= mk_freeblock s' ->
  inode_at V' i = inode_at V i -> (forall b, owned V (inode_at V i) b -> V' b = V b) ->
  good V' i t c /\ forall b, owned V' (inode_at V' i) b <-> owned V (inode_at V i) b.
Proof.
  intros [G1 G2 G3 G4 G5 G6 G7 Gt G8] Hi Hi' Hle Ep Hb. rewrite Ep. set (p := inode_at V i) in *.
  pose proof (fun j => fblk_frame V V' p j Hb) as Hk.
  assert (Hown : forall b, owned V' p b <-> owned V p b) by (intros b; unfold owned; by setoid_rewrite Hk).
  assert (Hbyte : forall o, 0 <= o < MAXFILE * BSIZE -> fbyte V' p o = fbyte V p o).
  { intros o Ho. unfold fbyte. rewrite Hk. destruct (Z.eqb_spec (fblk V p (o / BSIZE)) 0) as [|Hne]; [done|]. rewrite Hb; [done|].
    split; [done|left]. exists (o / BSIZE). split; [by apply blkno_div|done]. }
  split; [|done]. split; rewrite ?Ep; fold p; try done.
  - destruct G1 as [F1 F2 F3 F4 F5]. split; try done.
    + intros b Hbo%Hown. destruct (F1 b Hbo) as (A1 & A2 & A3). split; [done|]. split; [done|].
      assert (Hr : 0 <= b < 2000) by (rewrite sb_eq in A2; exact A2). rewrite (img_bit _ _ _ Hi Hr) in A3.
      rewrite (img_bit _ _ _ Hi' Hr). lia.
    + intros x y. rewrite !Hk. apply F2.
    + intros x. rewrite Hk. apply F3.
    + intros x. rewrite Hk. apply F4.
  - split; [intros x; rewrite Hk; apply G3|apply G3].
  - rewrite <- G7 at 2. unfold fbytes. apply list_fmap_ext. intros k o Ho. apply Hbyte.
    apply list_elem_of_lookup_2, elem_upto in Ho. pose proof (fk_size _ _ _ _ G1). rewrite G6 in *. lia.
  - intros o Ho. rewrite Hbyte by lia. by apply Gt.
  - intros b Hbo%Hown. by apply G8.
Qed.

Lemma used_insert cs i t c c' : cs !! i = Some (t, c) ->
  used (<[i := (t, c')]> cs) = used cs + blocks_of (Z.of_nat (length c')) - blocks_of (Z.of_nat (length c)).
Proof.
  revert i. induction cs as [|[t1 c1] cs IH]; intros [|i] H; simpl in *; [done..|injection H as -> ->; lia|].
  rewrite (IH _ H). lia.
Qed.

(** The inode after [iappend], and its contents. *)
Lemma written_inode V i sz bs n V' p' : written V (inode_at V i) sz bs n V' p' -> inode_at V' i = p'.
Proof.
  intros Hw. pose proof (wr_disk _ _ _ _ _ _ _ _ _ Hw (blank i)) as E. pose proof (wr_same _ _ _ _ _ _ _ _ _ Hw) as S.
  change (i_inum (inode_at V i)) with i in E. unfold inode_at at 1. rewrite E. destruct p'. cbn in S. unfold copy_dinode. simpl. congruence.
Qed.
Lemma written_good V i t c bs V' p' : good V i t c -> Forall (fun b => 0 <= b < 256) bs ->
  let n := Z.of_nat (length bs) in
  written V (inode_at V i) (i_size (inode_at V i)) bs n V' p' -> tight V' p' (i_size (inode_at V i) + n) ->
  (forall b, owned V' p' b -> 46 <= b) -> good V' i t (c ++ bs).
Proof.
  intros [G1 G2 G3 G4 G5 G6 G7 Gt G8] Hbs n Hw Ht Hd. pose proof (written_inode _ _ _ _ _ _ _ Hw) as Ep.
  pose proof Hw as [W1 W2 W3 W4 W5 W6 W7 W8 W9]. rewrite G6 in *.
  assert (Hsz : i_size p' = Z.of_nat (length c) + n) by lia.
  split; rewrite ?Ep; try done.
  - by rewrite Hsz.
  - rewrite <- G4. congruence.
  - rewrite <- G5. congruence.
  - rewrite length_app. lia.
  - apply list_eq. intros k. rewrite length_app. unfold fbytes. rewrite list_lookup_fmap.
    pose proof (fk_size _ _ _ _ W2) as Hmax. rewrite Hsz in Hmax.
    destruct (decide (k < length c + length bs)%nat) as [Hk|Hk].
    + rewrite upto_lookup by lia. simpl. rewrite W4 by lia. unfold patched. destruct (decide (k < length c)%nat) as [Hc|Hc].
      * rewrite lookup_app_l by done. rewrite decide_False by lia. rewrite <- G7. unfold fbytes. rewrite list_lookup_fmap, upto_lookup by lia. done.
      * rewrite lookup_app_r by lia. rewrite decide_True by lia. rewrite nth_lookup.
        replace (Z.to_nat (0 + Z.of_nat k - Z.of_nat (length c))) with (k - length c)%nat by lia.
        destruct (lookup_lt_is_Some_2 bs (k - length c)) as [x Hx]; [lia|]. by rewrite Hx.
    + rewrite !(proj2 (lookup_ge_None _ _)); [done|rewrite length_app; lia|rewrite length_upto; lia].
  - intros o Ho. rewrite length_app in Ho. rewrite W4 by lia. unfold patched. rewrite decide_False by lia. apply Gt. lia.
Qed.

(** The boot block, the super block and the log stay. *)
Lemma written_low V s i t c sz bs n V' p' : img_ok V s -> good V i t c -> written V (inode_at V i) sz bs n V' p' ->
  forall b, 0 <= b < 32 -> V' b = V b.
Proof.
  intros H1 G W b Hb. pose proof (im_free _ _ H1). apply (wr_frame _ _ _ _ _ _ _ _ _ W).
  - rewrite sb_eq. cbn. lia.
  - rewrite (img_bit _ _ _ H1) by lia. lia.
  - intros ->%is_bmap_eq. lia.
  - intros Hi%is_ino_range. lia.
  - intros Ho%(go_data _ _ _ _ G). lia.
Qed.

Lemma iappend_holds V s cs i t c bs : holds V s cs -> cs !! i = Some (t, c) -> Forall (fun b => 0 <= b < 256) bs ->
  Z.of_nat (length c + length bs) <= MAXFILE * BSIZE -> used (<[i := (t, c ++ bs)]> cs) <= 2000 ->
  exists V' s', iappend (1 + Z.of_nat i) bs s = Done tt s' /\ holds V' s' (<[i := (t, c ++ bs)]> cs).
Proof.
  intros [H1 H2 H3 H4 H5 H6 H7 H8 H9 H10] Hc Hbs Hmax Hused. pose proof (H5 _ _ _ Hc) as G. set (x := 1 + Z.of_nat i) in *.
  pose proof (lookup_lt_Some _ _ _ Hc) as Hlt. rewrite (used_insert _ _ _ _ _ Hc), length_app, Nat2Z.inj_add in Hused.
  assert (Hx : inum_ok x) by (unfold inum_ok; lia). pose proof (go_size _ _ _ _ G) as Gs.
  destruct (iappend_img V s x bs H1 H2 Hx (go_file _ _ _ _ G) (go_ino _ _ _ _ G) (go_tight _ _ _ _ G) Hbs)
    as (V' & p' & s' & R & I' & W & T & F & N & O); [rewrite Gs; lia|rewrite Gs; lia|].
  rewrite Gs in F. pose proof (written_inode _ _ _ _ _ _ _ W) as Ep. pose proof (im_free _ _ H1) as Hfb.
  assert (Hd : forall b, owned V' p' b -> 46 <= b) by (intros b Hb; destruct (O b Hb); [by apply (go_data _ _ _ _ G)|lia]).
  assert (Hfr : mk_freeblock s <= mk_freeblock s') by (rewrite F; pose proof (blocks_of_mono (Z.of_nat (length c)) (Z.of_nat (length c) + Z.of_nat (length bs))); lia).
  assert (Hoth : forall y, 0 <= y < 200 -> y <> x -> inode_at V' y = inode_at V y).
  { intros y Hy Hne. apply (wr_others _ _ _ _ _ _ _ _ _ W); [exact Hy|done]. }
  assert (Hj : forall j t' c', j <> i -> cs !! j = Some (t', c') -> good V' (1 + Z.of_nat j) t' c' /\
    forall b, owned V' (inode_at V' (1 + Z.of_nat j)) b <-> owned V (inode_at V (1 + Z.of_nat j)) b).
  { intros j t' c' Hji Hcj. pose proof (H5 _ _ _ Hcj) as Gj. pose proof (lookup_lt_Some _ _ _ Hcj).
    apply (good_frame V V' s s'); try done; [apply Hoth; lia|]. intros b Hb.
    destruct (fk_owned _ _ _ _ (go_file _ _ _ _ Gj) b Hb) as ((_ & _ & Q1 & Q2) & Q3 & Q4).
    apply (wr_frame _ _ _ _ _ _ _ _ _ W); try done. intros Hb2. by apply (H6 i j b). }
  pose proof (written_low V s x t c _ _ _ V' p' H1 G W) as Hlow.
  exists V', s'. split; [exact R|]. split; try done.
  - apply W.
  - rewrite N, H3, length_insert. done.
  - by rewrite length_insert.
  - intros j t' c' Hc'. destruct (decide (j = i)) as [->|Hne].
    + rewrite list_lookup_insert_eq in Hc' by done. injection Hc' as <- <-. by apply (written_good V x t c bs V' p').
    + rewrite list_lookup_insert_ne in Hc' by done. by apply (Hj j t' c').
  - intros j k b Hjk. rewrite length_insert. intros Lj Lk.
    assert (Hother : forall k, k <> i -> (k < length cs)%nat -> owned V' (inode_at V' x) b -> owned V' (inode_at V' (1 + Z.of_nat k)) b -> False).
    { clear k Hjk Lk. intros k Hki Lk Hb Hb'. destruct (lookup_lt_is_Some_2 cs k Lk) as [[t' c'] Hck].
      apply (Hj k t' c' Hki Hck) in Hb'. rewrite Ep in Hb. destruct (O b Hb) as [Hb2|Hge]; [by apply (H6 i k b)|].
      pose proof (owned_img _ _ _ _ H1 (go_file _ _ _ _ (H5 _ _ _ Hck)) Hb'). lia. }
    destruct (decide (j = i)) as [->|Hji]; [by apply Hother|]. destruct (decide (k = i)) as [->|Hki]; [intros A B; by apply (Hother j)|].
    destruct (lookup_lt_is_Some_2 cs j Lj) as [[tj cj] Hcj], (lookup_lt_is_Some_2 cs k Lk) as [[tk ck] Hck].
    intros A%(Hj j tj cj Hji Hcj) B%(Hj k tk ck Hki Hck). by apply (H6 j k b).
  - intros j Hjr. rewrite length_insert in Hjr. rewrite Hoth by lia. by apply H7.
  - rewrite (used_insert _ _ _ _ _ Hc), length_app, Nat2Z.inj_add. lia.
  - intros b Hb. rewrite Hlow by lia. by apply H9.
  - rewrite Hlow by lia. done.
Qed.

(** ** Inodes in their blocks *)

Lemma inode_put_same V x p : fs_ok V -> ino_ok p ->
  inode_at (<[IBLOCK x sb := store_dinode (di_off x) p (V (IBLOCK x sb))]> V) x = copy_dinode p (blank x).
Proof.
  intros Hfs Hp. unfold inode_at, dinode_at. rewrite fn_lookup_insert. apply load_store_dinode; [apply Hfs|apply di_off_slot|done].
Qed.
Lemma inode_put_other V x p y : fs_ok V -> length (i_addrs p) = 13%nat -> inum_ok y -> y <> x ->
  inode_at (<[IBLOCK x sb := store_dinode (di_off x) p (V (IBLOCK x sb))]> V) y = inode_at V y.
Proof.
  intros Hfs Hp Hy Hne. unfold inode_at, dinode_at. destruct (decide (IBLOCK x sb = IBLOCK y sb)) as [E|E].
  - rewrite <- E, fn_lookup_insert. apply load_store_other; [apply Hfs|apply di_off_slot..|done|].
    destruct (di_off_ne sb x y) as [?|?]; [congruence|done|by right|by left].
  - by rewrite fn_lookup_insert_ne.
Qed.

(** ** A new inode *)

Definition new_inode (t : Z) : inode := ino_size 0 (ino_nlink 1 (ino_type t din0)).
Lemma new_inode_ok t : 0 <= t < 2 ^ 15 -> ino_ok (new_inode t).
Proof. intros H. split; cbn; try lia; try done. by repeat constructor. Qed.

Section Ialloc.
Context (V : Z -> block) (x t : Z) (Hfs : fs_ok V) (Ht : 0 <= t < 2 ^ 15).
Notation V' := (<[IBLOCK x sb := store_dinode (di_off x) (new_inode t) (V (IBLOCK x sb))]> V).

Lemma ialloc_new : inode_at V' x = copy_dinode (new_inode t) (blank x).
Proof. apply inode_put_same; [done|by apply new_inode_ok]. Qed.
Lemma ialloc_empty k : fblk V' (inode_at V' x) k = 0.
Proof.
  rewrite ialloc_new. unfold fblk, geta. cbn [copy_dinode i_addrs new_inode ino_size ino_nlink ino_type din0].
  assert (E : forall k, nth (Z.to_nat k) (replicate 13 0) 0 = 0).
  { intros j. rewrite nth_lookup. destruct (_ !! _) eqn:E; [by apply lookup_replicate in E as [-> _]|done]. }
  rewrite !E. by destruct (k <? NDIRECT).
Qed.
Lemma ialloc_unowned b : ~ owned V' (inode_at V' x) b.
Proof. intros [Hb [(k & _ & E)|E]]; [by rewrite ialloc_empty in E|]. rewrite ialloc_new in E. done. Qed.
Lemma ialloc_good : good V' x t [].
Proof.
  pose proof ialloc_unowned as Hno. split; try (rewrite ialloc_new; done).
  - split.
    + by intros b Hb%Hno.
    + intros j k _ _ _ Hne. by rewrite ialloc_empty in Hne.
    + intros k _ Hne. by rewrite ialloc_empty in Hne.
    + intros k Hk Hlt. rewrite ialloc_new in Hlt. cbn in Hlt. pose proof BSIZE_pos. nia.
    + rewrite ialloc_new. change (0 <= 0 <= 274432). lia.
  - rewrite ialloc_new. pose proof (new_inode_ok t Ht) as [P1 P2 P3 P4 P5 P6 P7]. by split.
  - split.
    + intros k [Hk _]. rewrite ialloc_empty, ialloc_new. cbn. pose proof BSIZE_pos. split; [done|nia].
    + rewrite ialloc_new. by cbn.
  - intros o _. unfold fbyte. by rewrite ialloc_empty.
  - by intros b Hb%Hno.
Qed.
End Ialloc.

Lemma used_app cs t : used (cs ++ [(t, [])]) = used cs.
Proof. unfold used. rewrite foldr_app. simpl. change (blocks_of (Z.of_nat 0)) with 0. done. Qed.

Lemma ialloc_holds V s cs t : holds V s cs -> 2 + Z.of_nat (length cs) <= 200 -> 0 <= t < 2 ^ 15 ->
  exists V' s', ialloc t s = Done (1 + Z.of_nat (length cs)) s' /\ holds V' s' (cs ++ [(t, [])]).
Proof.
  intros [H1 H2 H3 H4 H5 H6 H7 H8 H9 H10] Hn Ht. set (x := 1 + Z.of_nat (length cs)) in *.
  assert (Hx : inum_ok x) by (unfold inum_ok; lia). unfold ialloc. rewrite (bind_Done (gets _) _ s _ s eq_refl), H3, u32_small by lia.
  rewrite (bind_Done (modify _) _ s tt (set_freeinode (x + 1) s) eq_refl). rewrite xint_id, !xshort_id by lia.
  assert (E16 : i16 t = t) by (rewrite <- (u16_small t) at 1 by lia; apply i16_u16; lia). rewrite E16. change (ino_size 0 _) with (new_inode t).
  assert (I1 : img_ok V (set_freeinode (x + 1) s)) by (destruct H1; by split).
  destruct (winode_img V _ x (new_inode t) I1 Hx) as (s2 & R2 & I2 & F2 & N2). rewrite (bind_Done _ _ _ _ _ R2).
  destruct (inode_block V _ x I1 Hx) as (Hino & _). pose proof (is_ino_range _ Hino) as Hbr.
  set (V' := <[IBLOCK x sb := _]> V) in *. exists V', s2. split; [done|].
  assert (Hj : forall j t' c', cs !! j = Some (t', c') -> good V' (1 + Z.of_nat j) t' c' /\
    forall b, owned V' (inode_at V' (1 + Z.of_nat j)) b <-> owned V (inode_at V (1 + Z.of_nat j)) b).
  { intros j t' c' Hc. pose proof (lookup_lt_Some _ _ _ Hc). apply (good_frame V V' s s2); try done; [by apply H5|rewrite F2; done| |].
    - apply inode_put_other; [done|done|unfold inum_ok; lia|lia].
    - intros b Hb. pose proof (go_data _ _ _ _ (H5 _ _ _ Hc) b Hb). apply fn_lookup_insert_ne. lia. }
  pose proof (ialloc_good V x t H2 Ht) as Gx. fold V' in Gx.
  pose proof (ialloc_unowned V x t H2 Ht) as Hxe. fold V' in Hxe.
  split; try done.
  - apply fs_ok_put; [done| |apply store_dinode_ok, H2]. rewrite is_bmap_eq. lia.
  - rewrite N2, length_app. simpl. lia.
  - rewrite length_app. simpl. lia.
  - intros j t' c' Hc. apply lookup_app_Some in Hc as [Hc|[Hl Hc]]; [by apply Hj|].
    destruct (j - length cs)%nat eqn:E; [|done]. injection Hc as <- <-. replace (1 + Z.of_nat j) with x by lia. done.
  - intros i j b Hij. rewrite length_app. simpl. intros Li Lj.
    destruct (decide (i = length cs)) as [->|Hi]; [by intros Hb%Hxe|]. destruct (decide (j = length cs)) as [->|Hjl]; [by intros _ Hb%Hxe|].
    destruct (lookup_lt_is_Some_2 cs i ltac:(lia)) as [[ti ci] Hci], (lookup_lt_is_Some_2 cs j ltac:(lia)) as [[tj cj] Hcj].
    intros A%(Hj i ti ci Hci) B%(Hj j tj cj Hcj). apply (H6 i j b); try done; lia.
  - intros i Hi. rewrite length_app in Hi. simpl in Hi. unfold V'. rewrite inode_put_other; [apply H7; lia|done|done|unfold inum_ok; lia|lia].
  - rewrite used_app, F2. done.
  - intros b Hb. unfold V'. rewrite fn_lookup_insert_ne by lia. by apply H9.
  - unfold V'. rewrite fn_lookup_insert_ne by lia. done.
Qed.
