(* ===== verification/MkfsImage.v ===== *)
(** * A run of mkfs

    The whole of [main]: what the image holds at the end, and that the file
    system code of the kernel finds the files in it. *)

From Stdlib Require Import FunctionalExtensionality.
From S2P Require Import Prelude Memory Riscv Spinlock Kalloc Vm VmWalk VmUser VmCopy Bio Log Txn Fs FsBlock FsInode FsFile FsDir Mkfs MkfsSpec.

(** ** The empty image *)

Definition V0 : Z -> block := <[1 := sb_block]> (<[45 := bitmap 46]> (fun _ => zero_block)).
Lemma zero_image : for_each (upto FSSIZE) (fun i => wsect i zero_block) (Mk [] 1 46) =
  Done tt (Mk (replicate (Z.to_nat FSSIZE) zero_block) 1 46).
Proof.
  destruct (for_upto (Z.to_nat FSSIZE) (fun i => wsect i zero_block) (fun j s => s = Mk (replicate j zero_block) 1 46) (Mk [] 1 46))
    as (s' & Hrun & ->); [done| |exact Hrun].
  intros j s Hj ->. eexists. split; [reflexivity|]. cbv zeta. cbn [mk_img set_img mk_freeinode mk_freeblock].
  rewrite Nat2Z.id, length_replicate. rewrite decide_False by lia. rewrite Nat.sub_diag. cbn [replicate app].
  unfold set_img. cbn [mk_freeinode mk_freeblock]. f_equal. by rewrite replicate_add.
Qed.
Lemma V0_at b : b <> 1 -> b <> 45 -> V0 b = zero_block.
Proof. intros. unfold V0. by rewrite !fn_lookup_insert_ne by done. Qed.
Lemma sb_block_ok : blk_ok sb_block.
Proof. unfold sb_block. auto 10 with xv6. Qed.
Lemma V0_img : img_ok V0 (Mk (<[1%nat := sb_block]> (replicate (Z.to_nat FSSIZE) zero_block)) 1 46).
Proof.
  split; cbn [mk_img mk_freeblock].
  - by rewrite length_insert, length_replicate.
  - intros b Hb Hne. destruct (decide (b = 1)) as [->|Hb1].
    + unfold V0. rewrite fn_lookup_insert. apply list_lookup_insert_eq. rewrite length_replicate. unfold FSSIZE. lia.
    + rewrite list_lookup_insert_ne by lia. rewrite lookup_replicate_2 by (unfold FSSIZE; lia). by rewrite V0_at.
  - unfold V0. rewrite fn_lookup_insert_ne by done. by rewrite fn_lookup_insert.
  - lia.
  - intros b Hb. apply V0_at; lia.
Qed.
Lemma V0_holds : holds V0 (Mk (<[1%nat := sb_block]> (replicate (Z.to_nat FSSIZE) zero_block)) 1 46) [].
Proof.
  pose proof V0_img as Hi. split; try done; cbn [length].
  - split.
    + intros b. unfold V0. destruct (decide (b = 1)) as [->|]; [rewrite fn_lookup_insert; exact sb_block_ok|].
      rewrite fn_lookup_insert_ne by done. destruct (decide (b = 45)) as [->|]; [|rewrite fn_lookup_insert_ne by done; apply zero_block_ok].
      rewrite fn_lookup_insert. by apply bitmap_ok.
    + intros b Hb Hbit. change (sb_size sb) with 2000 in Hb. rewrite (img_bit _ _ _ Hi Hb) in Hbit. cbn [mk_freeblock] in Hbit.
      apply data_block. lia.
  - simpl. lia.
  - intros i Hi1. unfold inode_at, dinode_at. rewrite V0_at.
    + cbn [load_dinode i_type]. unfold get16. by rewrite !get8_zero.
    + rewrite IBLOCK_eq. Z.div_mod_to_equations. lia.
    + rewrite IBLOCK_eq. simpl in Hi1. Z.div_mod_to_equations. lia.
  - intros b Hb. apply V0_at; lia.
Qed.

(** ** Directory entries as bytes *)

Definition fit (n : list Z) : list Z := take (Z.to_nat DIRSIZ) n.
(** The bytes of an entry. *)
Definition ebytes (e : Z * list Z) : list Z := dirent e.1 (strncpy_bytes (Z.to_nat DIRSIZ) e.2).
Definition name_ok (n : list Z) : Prop := Forall (fun c => 0 < c < 256) n.
Definition entry_ok (e : Z * list Z) : Prop := 0 <= e.1 < 2 ^ 16 /\ name_ok e.2.

Lemma length_strncpy k n : length (strncpy_bytes k n) = k.
Proof. revert n. induction k as [|k IH]; intros n; [done|]. cbn [strncpy_bytes]. destruct (_ =? 0); [by rewrite length_replicate|]. simpl. by rewrite IH. Qed.
Lemma strncpy_name k n : name_ok n -> Forall (fun b => 0 <= b < 256) (strncpy_bytes k n) /\ cname k (strncpy_bytes k n) = take k n.
Proof.
  revert n. induction k as [|k IH]; intros n Hn; [done|]. cbn [strncpy_bytes]. destruct n as [|c n]; simpl.
  - split; [|done]. apply Forall_cons. split; [lia|]. apply Forall_replicate. lia.
  - inversion Hn as [|? ? Hc Hn']; subst. destruct (Z.eqb_spec c 0); [lia|]. destruct (IH n Hn') as [I1 I2]. split.
    + apply Forall_cons. split; [lia|done].
    + cbn [cname]. destruct (Z.eqb_spec c 0); [lia|]. by rewrite I2.
Qed.
Lemma length_ebytes e : length (ebytes e) = 16%nat.
Proof. unfold ebytes, dirent. rewrite length_app, length_strncpy. done. Qed.
Lemma ebytes_range e : entry_ok e -> Forall (fun b => 0 <= b < 256) (ebytes e).
Proof.
  intros [_ Hn]. unfold ebytes, dirent, u8. apply Forall_app. split; [|by apply strncpy_name].
  repeat apply Forall_cons_2; try apply Forall_nil_2; apply Z.mod_pos_bound; lia.
Qed.

Lemma lookup_ebytes es (k j : nat) : (j < 16)%nat -> mjoin (ebytes <$> es) !! (16 * k + j)%nat = e ← es !! k; ebytes e !! j.
Proof.
  intros Hj. revert k. induction es as [|e es IH]; intros k; [done|].
  change (mjoin (ebytes <$> e :: es)) with (ebytes e ++ mjoin (ebytes <$> es)). destruct k as [|k].
  - rewrite lookup_app_l by (rewrite length_ebytes; lia). done.
  - rewrite lookup_app_r by (rewrite length_ebytes; lia). rewrite length_ebytes.
    replace (16 * S k + j - 16)%nat with (16 * k + j)%nat by lia. apply IH.
Qed.
Lemma length_entries es : length (mjoin (ebytes <$> es)) = (16 * length es)%nat.
Proof.
  induction es as [|e es IH]; [done|]. change (mjoin (ebytes <$> e :: es)) with (ebytes e ++ mjoin (ebytes <$> es)).
  rewrite length_app, IH, length_ebytes. simpl. lia.
Qed.

(** A directory that starts with the bytes of [es] and is zero after them. *)
Lemma dent_of V p es k :
  let c := mjoin (ebytes <$> es) in
  (forall o, 0 <= o < 16 * (k + 1) -> fbyte V p o = nth (Z.to_nat o) c 0) -> 0 <= k -> Forall entry_ok es ->
  dent V p k = match es !! Z.to_nat k with Some e => (e.1, fit e.2) | None => (0, []) end.
Proof.
  intros c Hb Hk Hes. assert (Hbyte : forall j, 0 <= j < 16 -> fbyte V p (16 * k + j) = default 0 (e ← es !! Z.to_nat k; ebytes e !! Z.to_nat j)).
  { intros j Hj. rewrite Hb by lia. rewrite nth_lookup. replace (Z.to_nat (16 * k + j)) with (16 * Z.to_nat k + Z.to_nat j)%nat by lia.
    subst c. by rewrite lookup_ebytes by lia. }
  unfold dent. rewrite <- (Z.add_0_r (16 * k)) at 1. rewrite !Hbyte by lia.
  assert (Hn : fbytes V p (16 * k + 2) DIRSIZ = match es !! Z.to_nat k with Some e => drop 2 (ebytes e) | None => replicate 14 0 end).
  { apply list_eq. intros j. unfold fbytes. rewrite list_lookup_fmap. destruct (decide (j < 14)%nat) as [Hj|Hj].
    - rewrite upto_lookup by (unfold DIRSIZ; lia). cbn [fmap option_fmap option_map]. rewrite <- Z.add_assoc, Hbyte by lia.
      replace (Z.to_nat (2 + Z.of_nat j)) with (2 + j)%nat by lia. destruct (es !! Z.to_nat k) as [e|].
      + change (Some (default 0 (ebytes e !! (2 + j)%nat)) = drop 2 (ebytes e) !! j). rewrite lookup_drop.
        destruct (lookup_lt_is_Some_2 (ebytes e) (2 + j)) as [x ->]; [rewrite length_ebytes; lia|done].
      + by rewrite lookup_replicate_2.
    - rewrite (proj2 (lookup_ge_None (upto _) j)) by (rewrite length_upto; unfold DIRSIZ; lia). symmetry. apply lookup_ge_None.
      destruct (es !! Z.to_nat k); [rewrite length_drop, length_ebytes|rewrite length_replicate]; lia. }
  rewrite Hn. destruct (es !! Z.to_nat k) as [e|] eqn:Ee; [|done].
  destruct (proj1 (Forall_lookup _ _) Hes _ _ Ee) as [He1 He2]. f_equal; [|by apply strncpy_name].
  change (u8 e.1 + 256 * u8 (e.1 / 256) = e.1). unfold u8. Z.div_mod_to_equations. lia.
Qed.

(** ** Files *)

Definition filename (f : hostfile) : list Z := skip_underscore (shortname (hf_path f)).
Definition contents (f : hostfile) : list Z := mjoin (default [] (hf_reads f)).
Definition byte_list (l : list Z) : Prop := Forall (fun b => 0 <= b < 256) l.
Record file_good (f : hostfile) : Prop := {
  fg_slash : SLASH ∉ shortname (hf_path f);
  fg_open : hf_reads f <> None;
  fg_name : name_ok (filename f);
  fg_bytes : byte_list (contents f);
  fg_size : Z.of_nat (length (contents f)) <= MAXFILE * BSIZE
}.

(** The entries of the root directory, and the files of the image: the root
    first, as inode 1. *)
Definition entries (fs : list hostfile) : list (Z * list Z) :=
  [(1, [46]); (1, [46; 46])] ++ imap (fun i f => (2 + Z.of_nat i, filename f)) fs.
Definition root_bytes (fs : list hostfile) : list Z := mjoin (ebytes <$> entries fs).
Definition image_files (fs : list hostfile) : list (Z * list Z) :=
  (T_DIR, root_bytes fs) :: ((fun f => (T_FILE, contents f)) <$> fs).

Lemma entries_snoc fs f : entries (fs ++ [f]) = entries fs ++ [(2 + Z.of_nat (length fs), filename f)].
Proof. unfold entries. rewrite imap_app. cbn [imap]. rewrite app_assoc. by rewrite Nat.add_0_r. Qed.
Lemma root_snoc fs f : root_bytes (fs ++ [f]) = root_bytes fs ++ ebytes (2 + Z.of_nat (length fs), filename f).
Proof. unfold root_bytes. rewrite entries_snoc, fmap_app, join_app. cbn [fmap list_fmap mjoin list_join]. by rewrite app_nil_r. Qed.
Lemma length_entries_of fs : length (entries fs) = (2 + length fs)%nat.
Proof. unfold entries. rewrite length_app, length_imap. done. Qed.
Lemma length_root fs : length (root_bytes fs) = (16 * (2 + length fs))%nat.
Proof. unfold root_bytes. by rewrite length_entries, length_entries_of. Qed.
Lemma entries_good fs : Forall file_good fs -> Z.of_nat (length fs) <= 198 -> Forall entry_ok (entries fs).
Proof.
  intros Hfs Hn. unfold entries. apply Forall_app. split.
  - repeat (apply Forall_cons_2); try apply Forall_nil_2; (split; [cbn; lia|]); repeat constructor; lia.
  - apply Forall_lookup. intros i e. rewrite list_lookup_imap. destruct (fs !! i) as [f|] eqn:Ef; [|done].
    intros [= <-]. pose proof (lookup_lt_Some _ _ _ Ef). split; [cbn; lia|]. apply fg_name. exact (proj1 (Forall_lookup _ _) Hfs _ _ Ef).
Qed.

Lemma blocks_of_nonneg n : 0 <= n -> 0 <= blocks_of n.
Proof. intros Hn. pose proof (blocks_of_mono 0 n Hn). change (blocks_of 0) with 0 in *. done. Qed.
Lemma used_mono a b : used a <= used (a ++ b).
Proof.
  induction a as [|[t c] a IH]; simpl; [|lia]. unfold used. simpl. induction b as [|[t c] b IH]; simpl; [lia|].
  pose proof (blocks_of_nonneg (Z.of_nat (length c))). lia.
Qed.
Lemma used_files a b : used (image_files a) <= used (image_files (a ++ b)).
Proof.
  unfold image_files. rewrite fmap_app. pose proof (used_mono ((fun f => (T_FILE, contents f)) <$> a) ((fun f => (T_FILE, contents f)) <$> b)) as H.
  unfold used in *. cbn [foldr fst snd] in *. pose proof (blocks_of_mono (Z.of_nat (length (root_bytes a))) (Z.of_nat (length (root_bytes (a ++ b))))) as H2.
  rewrite !length_root, length_app in *. lia.
Qed.

Lemma reads_holds reads : forall V s cs i t c, holds V s cs -> cs !! i = Some (t, c) -> byte_list (mjoin reads) ->
  Z.of_nat (length c + length (mjoin reads)) <= MAXFILE * BSIZE -> used (<[i := (t, c ++ mjoin reads)]> cs) <= 2000 ->
  exists V' s', for_each reads (iappend (1 + Z.of_nat i)) s = Done tt s' /\ holds V' s' (<[i := (t, c ++ mjoin reads)]> cs).
Proof.
  induction reads as [|bs reads IH]; intros V s cs i t c Hh Hc Hb Hmax Hu.
  - change (mjoin []) with (@nil Z). rewrite app_nil_r. rewrite list_insert_id by done. by exists V, s.
  - change (mjoin (bs :: reads)) with (bs ++ mjoin reads) in *. apply Forall_app in Hb as [Hb1 Hb2]. rewrite length_app in Hmax. pose proof (lookup_lt_Some _ _ _ Hc) as Hlt.
    rewrite (used_insert _ _ _ _ _ Hc), !length_app in Hu.
    destruct (iappend_holds V s cs i t c bs Hh Hc Hb1) as (V1 & s1 & R1 & H1); [lia| |].
    { rewrite (used_insert _ _ _ _ _ Hc), length_app.
      pose proof (blocks_of_mono (Z.of_nat (length c + length bs)) (Z.of_nat (length c + (length bs + length (mjoin reads)))) ltac:(lia)). lia. }
    destruct (IH V1 s1 _ i t (c ++ bs) H1) as (V2 & s2 & R2 & H2).
    + by rewrite list_lookup_insert_eq.
    + done.
    + rewrite length_app. lia.
    + rewrite list_insert_insert_eq, (used_insert _ _ _ _ _ Hc), !length_app, <- Nat.add_assoc. lia.
    + exists V2, s2. cbn [for_each]. rewrite (bind_Done _ _ _ _ _ R1). split; [exact R2|].
      by rewrite list_insert_insert_eq, <- app_assoc in H2.
Qed.

Lemma image_snoc fs f : image_files (fs ++ [f]) = <[S (length fs) := (T_FILE, contents f)]>
  (<[0%nat := (T_DIR, root_bytes fs ++ ebytes (2 + Z.of_nat (length fs), filename f))]> (image_files fs ++ [(T_FILE, [])])).
Proof.
  unfold image_files. rewrite fmap_app, root_snoc. cbn [app]. cbn [insert list_insert]. f_equal.
  symmetry. etransitivity; [apply insert_app_r_alt; by rewrite length_fmap|]. by rewrite length_fmap, Nat.sub_diag.
Qed.

Lemma add_file_holds V s fs f : holds V s (image_files fs) -> file_good f -> Z.of_nat (length fs) < 198 ->
  used (image_files (fs ++ [f])) <= 2000 ->
  exists V' s', add_file 1 f s = Done tt s' /\ holds V' s' (image_files (fs ++ [f])).
Proof.
  intros Hh [G1 G2 G3 G4 G5] Hn Hu. unfold add_file. rewrite bool_decide_false by done. cbn [panic_if]. rewrite (bind_Done _ _ s tt s eq_refl).
  destruct (hf_reads f) as [reads|] eqn:Er; [clear G2|done]. assert (Ec : contents f = mjoin reads) by (unfold contents; by rewrite Er).
  assert (Hl : length (image_files fs) = S (length fs)) by (cbn; by rewrite length_fmap).
  destruct (ialloc_holds V s _ T_FILE Hh) as (V1 & s1 & R1 & H1); [rewrite Hl; lia|by unfold T_FILE|].
  rewrite (bind_Done _ _ _ _ _ R1). rewrite Hl in *. replace (1 + Z.of_nat (S (length fs))) with (2 + Z.of_nat (length fs)) in * by lia.
  rewrite xshort_id by lia. change (dirent _ _) with (ebytes (2 + Z.of_nat (length fs), filename f)).
  rewrite image_snoc, Ec in *. set (e := (2 + Z.of_nat (length fs), filename f)) in *. set (cs := image_files fs ++ [(T_FILE, [])]) in *.
  assert (Hi : <[0%nat := (T_DIR, root_bytes fs ++ ebytes e)]> cs !! S (length fs) = Some (T_FILE, [])).
  { rewrite list_lookup_insert_ne by done. unfold cs. rewrite lookup_app_r by lia. by rewrite Hl, Nat.sub_diag. }
  destruct (iappend_holds V1 s1 cs 0 T_DIR (root_bytes fs) (ebytes e) H1) as (V2 & s2 & R2 & H2).
  - done.
  - apply ebytes_range. split; [cbn; lia|exact G3].
  - rewrite length_ebytes, length_root. change (MAXFILE * BSIZE) with 274432. lia.
  - etransitivity; [|exact Hu]. rewrite (used_insert _ _ _ _ _ Hi).
    rewrite <- Ec. pose proof (blocks_of_nonneg (Z.of_nat (length (contents f))) ltac:(lia)). change (blocks_of (Z.of_nat (length []))) with 0. lia.
  - change (1 + Z.of_nat 0) with 1 in R2. rewrite (bind_Done _ _ _ _ _ R2).
    destruct (reads_holds reads V2 s2 _ (S (length fs)) T_FILE [] H2 Hi) as (V3 & s3 & R3 & H3); [exact G4|exact G5|exact Hu|].
    exists V3, s3. split; [|exact H3]. rewrite <- R3. f_equal. f_equal. lia.
Qed.

Lemma add_files_holds rest : forall V s fs, holds V s (image_files fs) -> Forall file_good rest ->
  Z.of_nat (length fs + length rest) <= 198 -> used (image_files (fs ++ rest)) <= 2000 ->
  exists V' s', for_each rest (add_file 1) s = Done tt s' /\ holds V' s' (image_files (fs ++ rest)).
Proof.
  induction rest as [|f rest IH]; intros V s fs Hh Hg Hn Hu; [rewrite app_nil_r; by exists V, s|].
  inversion Hg as [|? ? Hf Hg']; subst. simpl in Hn. rewrite cons_middle, app_assoc in Hu |- *.
  destruct (add_file_holds V s fs f Hh Hf) as (V1 & s1 & R1 & H1); [lia|etransitivity; [apply used_files|exact Hu]|].
  destruct (IH V1 s1 (fs ++ [f]) H1 Hg') as (V2 & s2 & R2 & H2); [rewrite length_app; simpl; lia|done|].
  exists V2, s2. split; [|done]. cbn [for_each]. by rewrite (bind_Done _ _ _ _ _ R1).
Qed.

(** Up to the loop over the arguments. *)
Lemma root_holds (k : Z -> M mkfs unit) : used (image_files []) <= 2000 -> exists V s,
  (wsect 1 sb_block ;;; rootino <-! ialloc T_DIR ;; panic_if (negb (rootino =? ROOTINO)) "assert" ;;;
   iappend rootino (dirent (xshort rootino) (strncpy_bytes (Z.to_nat DIRSIZ) [46])) ;;;
   iappend rootino (dirent (xshort rootino) (strncpy_bytes (Z.to_nat DIRSIZ) [46; 46])) ;;;
   k rootino) (Mk (replicate (Z.to_nat FSSIZE) zero_block) 1 46) = k 1 s /\ holds V s (image_files []).
Proof.
  intros Hu. destruct (ialloc_holds _ _ _ T_DIR V0_holds) as (V1 & s1 & R1 & H1); [simpl; lia|by unfold T_DIR|].
  destruct (iappend_holds V1 s1 _ 0 T_DIR [] (ebytes (1, [46])) H1) as (V2 & s2 & R2 & H2); [done|apply ebytes_range; split; [cbn; lia|repeat constructor; lia]|by rewrite length_ebytes|done|].
  destruct (iappend_holds V2 s2 _ 0 T_DIR (ebytes (1, [46])) (ebytes (1, [46; 46])) H2) as (V3 & s3 & R3 & H3); [done|apply ebytes_range; split; [cbn; lia|repeat constructor; lia]|by rewrite !length_ebytes|done|].
  exists V3, s3. split; [|exact H3].
  rewrite (bind_Done _ _ _ tt (Mk (<[1%nat := sb_block]> (replicate (Z.to_nat FSSIZE) zero_block)) 1 46)).
  - rewrite (bind_Done _ _ _ _ _ R1). change (1 + Z.of_nat (length [])) with 1. cbn [Z.eqb]. change (1 =? ROOTINO) with true. cbn [negb panic_if].
    rewrite (bind_Done _ _ s1 tt s1 eq_refl). change (1 + Z.of_nat 0) with 1 in *. rewrite xshort_id by lia.
    change (dirent 1 _) with (ebytes (1, [46])) at 1. rewrite (bind_Done _ _ _ _ _ R2). exact (bind_Done _ _ _ _ _ R3).
  - unfold wsect. cbn [mk_img]. unfold modify. cbv zeta. cbn [mk_img]. rewrite decide_True; [done|]. rewrite length_replicate. unfold FSSIZE. lia.
Qed.

(** ** The finished image *)

Notation dir_ok := (dir_ok 1 lg sb).
(** [V] is a file system with the files [fs] under the root. *)
Record image_of (V : Z -> block) (fs : list hostfile) : Prop := {
  mi_sb : decode_sb (V 1) = sb;
  mi_log b : 2 <= b < 2 + nlog -> V b = zero_block;
  mi_fs : fs_ok V;
  mi_bits b : 0 <= b < FSSIZE -> bit sb V b = (b <? used (image_files fs));
  mi_root : dir_ok V (inode_at V ROOTINO);
  mi_root_type : i_type (inode_at V ROOTINO) = T_DIR /\ i_nlink (inode_at V ROOTINO) = 1;
  mi_entries : exists z, dents V (inode_at V ROOTINO) = ((fun e => (e.1, fit e.2)) <$> entries fs) ++ replicate z (0, []);
  mi_file i f : fs !! i = Some f -> good V (2 + Z.of_nat i) T_FILE (contents f);
  mi_disj x y b : x <> y -> 1 <= x < 2 + Z.of_nat (length fs) -> 1 <= y < 2 + Z.of_nat (length fs) ->
    owned V (inode_at V x) b -> owned V (inode_at V y) b -> False;
  mi_rest i : 2 + Z.of_nat (length fs) <= i < NINODES -> i_type (inode_at V i) = 0
}.

Lemma good_byte V i t c o : good V i t c -> 0 <= o < MAXFILE * BSIZE -> fbyte V (inode_at V i) o = nth (Z.to_nat o) c 0.
Proof.
  intros G Ho. destruct (decide (o < Z.of_nat (length c))) as [Hc|Hc].
  - transitivity (nth (Z.to_nat o) (fbytes V (inode_at V i) 0 (Z.of_nat (length c))) 0); [|by rewrite (go_bytes _ _ _ _ G)].
    unfold fbytes. rewrite nth_lookup, list_lookup_fmap, upto_lookup by lia. cbn [fmap option_fmap option_map default from_option id].
    f_equal. lia.
  - rewrite (go_tail _ _ _ _ G) by lia. symmetry. apply nth_overflow. lia.
Qed.

Section Close.
Context (V : Z -> block) (s : mkfs) (fs : list hostfile).
Context (Hh : holds V s (image_files fs)) (Hg : Forall file_good fs) (Hn : Z.of_nat (length fs) <= 198)
  (Hmod : (2 + Z.of_nat (length fs)) mod 64 <> 0).
Let p := inode_at V 1.
Let sz := 16 * (2 + Z.of_nat (length fs)).
Let sz' := (sz / BSIZE + 1) * BSIZE.
Let V' := <[IBLOCK 1 sb := store_dinode (di_off 1) (ino_size sz' (dinode p)) (V (IBLOCK 1 sb))]> V.

Lemma close_size : i_size p = sz /\ sz <= sz' <= 8192 /\ sz' mod 1024 = 0 /\ forall k, k * BSIZE < sz' -> k * BSIZE < sz.
Proof.
  pose proof (go_size _ _ _ _ (ho_file _ _ _ Hh 0 T_DIR (root_bytes fs) eq_refl)) as E. rewrite length_root in E.
  change (i_size p = Z.of_nat (16 * (2 + length fs))) in E. split; [rewrite E; unfold sz; lia|].
  assert (Hm : sz mod 1024 <> 0) by (unfold sz; Z.div_mod_to_equations; lia).
  unfold sz' , BSIZE. clear p V' E. assert (Hr : 32 <= sz <= 3200) by (unfold sz; lia).
  split; [Z.div_mod_to_equations; lia|]. split; [apply Z.mod_mul; lia|]. intros k Hk. Z.div_mod_to_equations. nia.
Qed.
Lemma close_run : exists s', fix_root_size 1 s = Done tt s' /\ img_ok V' s' /\ mk_freeblock s' = mk_freeblock s.
Proof.
  destruct close_size as (E & Hs & _). unfold fix_root_size. rewrite (bind_Done _ _ _ _ _ (rinode_img V s 1 (ho_img _ _ _ Hh) ltac:(unfold inum_ok; lia))).
  fold p. change (i_size (dinode p)) with (i_size p). rewrite E. assert (0 <= sz) by (unfold sz; lia).
  cbv zeta. rewrite (xint_id sz) by lia. fold sz'. rewrite u32_small, xint_id by lia.
  destruct (winode_img V s 1 (ino_size sz' (dinode p)) (ho_img _ _ _ Hh)) as (s' & R & I & F & _); [unfold inum_ok; lia|].
  by exists s'.
Qed.
Lemma close_inode : inode_at V' 1 = ino_size sz' p /\ (forall y, inum_ok y -> y <> 1 -> inode_at V' y = inode_at V y).
Proof.
  destruct (go_ino _ _ _ _ (ho_file _ _ _ Hh 0 T_DIR (root_bytes fs) eq_refl)) as [P1 P2 P3 P4 P5 P6 P7].
  fold p in P1, P2, P3, P4, P5, P6, P7. destruct close_size as (_ & Hs & _). split.
  - unfold V'. rewrite inode_put_same; [done|apply Hh|]. split; try done. cbn. assert (0 <= sz) by (unfold sz; lia). lia.
  - intros y Hy Hne. apply inode_put_other; [apply Hh|exact P6|done|done].
Qed.
Lemma close_frame b : 46 <= b -> V' b = V b.
Proof. intros Hb. apply fn_lookup_insert_ne. rewrite IBLOCK_eq. change (1 / 16) with 0. lia. Qed.
Lemma close_fs : fs_ok V'.
Proof.
  apply fs_ok_put; [apply Hh| |apply store_dinode_ok, Hh]. rewrite is_bmap_eq, IBLOCK_eq. change (1 / 16) with 0. lia.
Qed.
Lemma close_root_ok : dir_ok V' (inode_at V' 1) /\ forall o, 0 <= o < sz' -> fbyte V' (inode_at V' 1) o = nth (Z.to_nat o) (root_bytes fs) 0.
Proof.
  pose proof (ho_file _ _ _ Hh 0 T_DIR (root_bytes fs) eq_refl) as G. change (1 + Z.of_nat 0) with 1 in G.
  pose proof (go_file _ _ _ _ G) as Hf. fold p in Hf. destruct close_size as (E & Hs & Hm & Hk). destruct close_inode as [Ei _]. rewrite Ei.
  assert (Hx : is_ino sb (IBLOCK 1 sb)) by (apply is_ino_at; rewrite sb_eq; cbn; lia). assert (0 <= sz) by (unfold sz; lia). split.
  - split; [exact close_fs|]. split; [|split; [done|]].
    + apply file_ok_size; [by apply (ino_put_file lg sb mkfs_layout)|change (MAXFILE * BSIZE) with 274432; lia|].
      intros k Hk0 Hlt%Hk. unfold V'. rewrite (ino_put_blk lg sb) by done. apply (fk_map _ _ _ _ Hf); [done|lia].
    + cbn. unfold DESIZE. clear - Hm. Z.div_mod_to_equations. lia.
  - intros o Ho. change (fbyte V' (ino_size sz' p) o) with (fbyte V' p o). unfold V'. assert (Hr : 0 <= o < MAXFILE * BSIZE) by (change (MAXFILE * BSIZE) with 274432; lia).
    rewrite (ino_put_byte lg sb) by done. by apply (good_byte V 1 T_DIR).
Qed.
Lemma close_dents : exists z, dents V' (inode_at V' 1) = ((fun e => (e.1, fit e.2)) <$> entries fs) ++ replicate z (0, []).
Proof.
  destruct close_root_ok as [_ Hb]. destruct close_size as (E & Hs & Hm & _). pose proof (length_entries_of fs) as Hle. assert (Hsz : 32 <= sz) by (unfold sz; lia).
  set (n := Z.to_nat (sz' / 16)). assert (Hn' : Z.of_nat n = sz' / 16) by (unfold n; Z.div_mod_to_equations; lia).
  assert (H16 : sz' = 16 * (sz' / 16)) by (clear - Hm; Z.div_mod_to_equations; lia).
  assert (Hnl : (length (entries fs) <= n)%nat) by (rewrite Hle; unfold sz in *; lia).
  exists (n - length (entries fs))%nat. apply list_eq. intros k. unfold dents.
  replace (i_size (inode_at V' 1) / DESIZE) with (Z.of_nat n) by (destruct close_inode as [-> _]; exact Hn').
  rewrite list_lookup_fmap. destruct (decide (k < n)%nat) as [Hk|Hk].
  - rewrite upto_lookup by lia. cbn [fmap option_fmap option_map].
    rewrite (dent_of V' _ (entries fs) (Z.of_nat k)); [|intros o Ho; apply Hb; lia|lia|by apply entries_good]. rewrite Nat2Z.id.
    destruct (decide (k < length (entries fs))%nat) as [Hl|Hl].
    + rewrite lookup_app_l by (by rewrite length_fmap). rewrite list_lookup_fmap.
      destruct (lookup_lt_is_Some_2 _ _ Hl) as [e ->]. done.
    + rewrite lookup_app_r by (rewrite length_fmap; lia). rewrite length_fmap, lookup_replicate_2 by lia.
      by rewrite (proj2 (lookup_ge_None _ _)) by lia.
  - rewrite !(proj2 (lookup_ge_None _ _)); [done|rewrite length_app, length_fmap, length_replicate; lia|rewrite length_upto; lia].
Qed.

Lemma close_others s' i t c : img_ok V' s' -> mk_freeblock s' = mk_freeblock s -> i <> 0%nat -> image_files fs !! i = Some (t, c) ->
  good V' (1 + Z.of_nat i) t c /\ forall b, owned V' (inode_at V' (1 + Z.of_nat i)) b <-> owned V (inode_at V (1 + Z.of_nat i)) b.
Proof.
  intros Hi Hfr Hne Hc. pose proof (ho_file _ _ _ Hh i t c Hc) as G. pose proof (ho_max _ _ _ Hh). pose proof (lookup_lt_Some _ _ _ Hc).
  apply (good_frame V V' s s'); [exact G|apply Hh|exact Hi|lia| |].
  - apply close_inode; [unfold inum_ok; lia|lia].
  - intros b Hb. apply close_frame. by apply (go_data _ _ _ _ G).
Qed.
Lemma close_owned s' x b : img_ok V' s' -> mk_freeblock s' = mk_freeblock s -> 1 <= x < 2 + Z.of_nat (length fs) ->
  owned V' (inode_at V' x) b -> owned V (inode_at V x) b.
Proof.
  intros Hi Hfr Hx. destruct (decide (x = 1)) as [->|Hne].
  - destruct close_inode as [-> _]. pose proof (go_file _ _ _ _ (ho_file _ _ _ Hh 0 T_DIR _ eq_refl)) as Hf.
    intros [Hb [(k & Hk & E)|E]]; (split; [done|]); [left; exists k; split; [done|]|by right]. rewrite fblk_size in E. unfold V' in E.
    rewrite (ino_put_blk lg sb) in E; [exact E|exact Hf|]. apply is_ino_at. rewrite sb_eq. cbn. lia.
  - destruct (lookup_lt_is_Some_2 (image_files fs) (Z.to_nat (x - 1))) as [[t c] Hc]; [cbn; rewrite length_fmap; lia|].
    pose proof (close_others s' (Z.to_nat (x - 1)) t c Hi Hfr ltac:(lia) Hc) as [_ Ho].
    replace (1 + Z.of_nat (Z.to_nat (x - 1))) with x in Ho by lia. apply Ho.
Qed.

Lemma close_image s' : img_ok V' s' -> mk_freeblock s' = mk_freeblock s -> image_of V' fs.
Proof.
  intros Hi Hfr. assert (Hlow : forall b, b < 32 -> V' b = V b).
  { intros b Hb. apply fn_lookup_insert_ne. rewrite IBLOCK_eq. change (1 / 16) with 0. lia. }
  assert (Hlen : length (image_files fs) = S (length fs)) by (cbn; by rewrite length_fmap).
  destruct close_root_ok as [Hd _]. destruct close_inode as [E1 E2]. split.
  - rewrite Hlow by lia. rewrite (ho_sb _ _ _ Hh). vm_compute. reflexivity.
  - intros b Hb. change nlog with 30 in Hb. rewrite Hlow by lia. apply (ho_boot _ _ _ Hh). lia.
  - exact close_fs.
  - intros b Hb. rewrite (img_bit V' s') by done. by rewrite Hfr, (ho_used _ _ _ Hh).
  - exact Hd.
  - change ROOTINO with 1. rewrite E1. pose proof (ho_file _ _ _ Hh 0 T_DIR _ eq_refl) as G.
    split; [exact (go_type _ _ _ _ G)|exact (go_nlink _ _ _ _ G)].
  - exact close_dents.
  - intros i f Hf. replace (2 + Z.of_nat i) with (1 + Z.of_nat (S i)) by lia. eapply (close_others s'); [done|done|done|].
    change (((fun f => (T_FILE, contents f)) <$> fs) !! i = Some (T_FILE, contents f)). by rewrite list_lookup_fmap, Hf.
  - intros x y b Hne Hx Hy A%(close_owned s') B%(close_owned s'); try done.
    apply (ho_disj _ _ _ Hh (Z.to_nat (x - 1)) (Z.to_nat (y - 1)) b); try lia.
    + by replace (1 + Z.of_nat (Z.to_nat (x - 1))) with x by lia.
    + by replace (1 + Z.of_nat (Z.to_nat (y - 1))) with y by lia.
  - intros i Hr. change NINODES with 200 in Hr. rewrite E2 by (unfold inum_ok; lia). apply (ho_rest _ _ _ Hh). lia.
Qed.
End Close.

(** The blocks of an image file. *)
Definition img_view (img : list block) (b : Z) : block := if b <? 0 then zero_block else nth (Z.to_nat b) img zero_block.

(** The free map on disk. *)
Lemma bitmap_img V s : img_ok V s -> exists s', (b <-! gets mk_freeblock ;; balloc b) s = Done tt s' /\
  length (mk_img s') = Z.to_nat FSSIZE /\ V = img_view (mk_img s').
Proof.
  intros [H1 H2 H3 H4 H5]. rewrite (bind_Done (gets _) _ s _ s eq_refl). unfold balloc.
  rewrite (proj2 (Z.ltb_lt _ _)) by (unfold BSIZE; lia). cbn [negb panic_if]. rewrite (bind_Done _ _ s tt s eq_refl).
  eexists. split; [reflexivity|]. cbv zeta. change (sb_bmapstart sb) with 45. change (Z.to_nat 45) with 45%nat.
  rewrite decide_True by (rewrite H1; unfold FSSIZE; lia). cbn [mk_img set_img]. split; [by rewrite length_insert|].
  apply functional_extensionality. intros b. unfold img_view. destruct (Z.ltb_spec b 0); [apply H5; lia|]. rewrite nth_lookup.
  destruct (decide (b = 45)) as [->|Hne]; [|destruct (decide (b < 2000))].
  - change (Z.to_nat 45) with 45%nat. rewrite list_lookup_insert_eq; [by rewrite H3|]. rewrite H1. unfold FSSIZE. lia.
  - rewrite list_lookup_insert_ne by lia. by rewrite H2.
  - rewrite (proj2 (lookup_ge_None _ _)) by (rewrite length_insert, H1; unfold FSSIZE; lia). apply H5. lia.
Qed.

Lemma mkfs_image files : Forall file_good files -> Z.of_nat (length files) <= 198 ->
  (2 + Z.of_nat (length files)) mod 64 <> 0 -> used (image_files files) <= FSSIZE ->
  exists s, main files mkfs0 = Done tt s /\ length (mk_img s) = Z.to_nat FSSIZE /\ image_of (img_view (mk_img s)) files.
Proof.
  intros Hg Hn Hmod Hu. change FSSIZE with 2000 in Hu. unfold main. rewrite (bind_Done _ _ _ tt (Mk [] 1 46)) by (by rewrite nmeta_eq).
  rewrite (bind_Done _ _ _ _ _ zero_image).
  destruct (root_holds (fun rootino => for_each files (add_file rootino) ;;; fix_root_size rootino ;;; b <-! gets mk_freeblock ;; balloc b))
    as (V1 & s1 & R1 & H1); [etransitivity; [apply (used_files [] files)|exact Hu]|].
  destruct (add_files_holds files V1 s1 [] H1 Hg Hn Hu) as (V2 & s2 & R2 & H2).
  destruct (close_run V2 s2 files H2 Hn Hmod) as (s3 & R3 & I3 & F3).
  pose proof (close_image V2 s2 files H2 Hg Hn Hmod s3 I3 F3) as Him. destruct (bitmap_img _ s3 I3) as (s4 & R4 & L4 & M4).
  exists s4. split; [|split; [exact L4|by rewrite <- M4]].
  rewrite R1. cbv beta. rewrite (bind_Done _ _ _ _ _ R2), (bind_Done _ _ _ _ _ R3). exact R4.
Qed.

(** C17: mkfs, given files whose names and sizes fit, writes an image of
    [FSSIZE] blocks that is a correct file system: its super block is the one
    the kernel reads, its log is empty, the root directory has "." and ".." and
    one entry for each file in order (the rest is empty), each file has the
    bytes that were read and a link count of 1, no block belongs to two inodes,
    the free map marks exactly the blocks in use, and the other inodes are
    free.  The root directory must not end on a block boundary. *)
Theorem mkfs_correct files : Forall file_good files -> Z.of_nat (length files) <= 198 ->
  (2 + Z.of_nat (length files)) mod 64 <> 0 -> used (image_files files) <= FSSIZE ->
  exists s, main files mkfs0 = Done tt s /\ length (mk_img s) = Z.to_nat FSSIZE /\ image_of (img_view (mk_img s)) files.
Proof. apply mkfs_image. Qed.
