(* ===== verification/MkfsBoot.v ===== *)
(** * The kernel on an image of mkfs

    The file system code of the kernel, on the image mkfs made: a path to a
    file leads to its inode, and reading it delivers the bytes mkfs was
    given. *)

From S2P Require Import Prelude Memory Riscv Spinlock Kalloc Vm VmWalk VmUser VmCopy Bio Log Txn Fs FsBlock FsInode FsFile FsDir FsPath FsExample Mkfs MkfsSpec MkfsImage.

Lemma dir_find_at l nm k i j : l !! i = Some (j, nm) -> j <> 0 ->
  (forall i' j' n', (i' < i)%nat -> l !! i' = Some (j', n') -> n' <> nm) -> dir_find l nm k = Some (k + Z.of_nat i, j).
Proof.
  revert k i. induction l as [|[j0 n0] l IH]; intros k i Hi Hj Hlow; [done|]. cbn [dir_find]. destruct i as [|i].
  - injection Hi as -> ->. rewrite bool_decide_true by done. destruct (Z.eqb_spec j 0); [done|]. do 2 f_equal. lia.
  - rewrite (bool_decide_false (nm = n0)), andb_false_r by (intros ->; by apply (Hlow 0%nat j0 n0 ltac:(lia))).
    rewrite (IH (k + 1) i); [do 2 f_equal; lia|done|done|]. intros i' j' n' Hlt Hl. by apply (Hlow (S i') j' n' ltac:(lia)).
Qed.

Lemma lookup_entries fs m : entries fs !! S (S m) = (fun f => (2 + Z.of_nat m, filename f)) <$> fs !! m.
Proof. exact (list_lookup_imap _ fs m). Qed.

Notation files_tree fs := (fun i => 1 <= i < 2 + Z.of_nat (length fs)).
Lemma image_tree V fs : image_of V fs -> Z.of_nat (length fs) <= 198 -> tree 1 lg sb V (files_tree fs).
Proof.
  intros H Hn. assert (Hd : forall i, disk_ino 1 sb V i = inode_at V i) by done.
  assert (Hcase : forall i, files_tree fs i -> i = 1 \/ exists k f, i = 2 + Z.of_nat k /\ fs !! k = Some f).
  { intros i Hi. destruct (decide (i = 1)) as [->|]; [by left|right]. destruct (lookup_lt_is_Some_2 fs (Z.to_nat (i - 2))) as [f Hf]; [lia|].
    exists (Z.to_nat (i - 2)), f. split; [lia|done]. }
  destruct (mi_root_type _ _ H) as [R1 R2]. change ROOTINO with 1 in R1, R2. split.
  - intros i Hi. rewrite sb_eq. cbn. lia.
  - intros i Hi. rewrite Hd. destruct (Hcase i Hi) as [->|(k & f & -> & Hf)]; [by rewrite R1|].
    by rewrite (go_type _ _ _ _ (mi_file _ _ H k f Hf)).
  - intros i Hi. rewrite Hd. destruct (Hcase i Hi) as [->|(k & f & -> & Hf)]; [by rewrite R2|].
    by rewrite (go_nlink _ _ _ _ (mi_file _ _ H k f Hf)).
  - intros i Hi. rewrite Hd. destruct (Hcase i Hi) as [->|(k & f & -> & Hf)]; [intros _; exact (mi_root _ _ H)|].
    by rewrite (go_type _ _ _ _ (mi_file _ _ H k f Hf)).
  - intros i j n Hi. rewrite Hd. destruct (Hcase i Hi) as [->|(k & f & -> & Hf)].
    2:{ by rewrite (go_type _ _ _ _ (mi_file _ _ H k f Hf)). }
    intros _ Hin Hj. destruct (mi_entries _ _ H) as [z Ez]. change ROOTINO with 1 in Ez. rewrite Ez in Hin.
    apply elem_of_app in Hin as [(e & E & He)%list_elem_of_fmap|Hz%elem_of_replicate]; [|destruct Hz; congruence].
    injection E as -> _. apply list_elem_of_lookup in He as [m Hm]. pose proof (lookup_lt_Some _ _ _ Hm) as Hlt. rewrite length_entries_of in Hlt.
    destruct m as [|[|m]]; [injection Hm as <-; cbn; lia..|]. rewrite lookup_entries in Hm.
    destruct (fs !! m); [|done]. injection Hm as <-. cbn. lia.
Qed.

Lemma elems_one n : n <> [] -> SLASH ∉ n -> elems (SLASH :: n) = [n].
Proof.
  intros Hne Hs. unfold elems. cbn [elems_from]. rewrite Z.eqb_refl, decide_True by done. cbn [app].
  assert (H : forall cur, elems_from cur n = if decide (cur ++ n = []) then [] else [cur ++ n]).
  { clear Hne. induction n as [|c n IH]; intros cur; cbn [elems_from]; [by rewrite app_nil_r|].
    apply not_elem_of_cons in Hs as [H1 H2]. destruct (Z.eqb_spec c SLASH); [congruence|]. rewrite IH, <- app_assoc by done. done. }
  rewrite H. by rewrite decide_False.
Qed.

(** The name of file [i] is not that of an entry before it. *)
Definition first_name (fs : list hostfile) (i : nat) (f : hostfile) : Prop :=
  filename f <> [] /\ forall i' e, (i' < 2 + i)%nat -> entries fs !! i' = Some e -> fit e.2 <> fit (filename f).

Lemma walk_file V fs i f : image_of V fs -> fs !! i = Some f -> first_name fs i f ->
  walk 1 sb V 1 false [fit (filename f)] = Some (2 + Z.of_nat i).
Proof.
  intros H Hf [_ Hfirst]. cbn [walk andb]. change (disk_ino 1 sb V 1) with (inode_at V ROOTINO).
  rewrite (proj1 (mi_root_type _ _ H)). change (T_DIR =? T_DIR) with true. cbv iota. destruct (mi_entries _ _ H) as [z ->].
  assert (He : entries fs !! (2 + i)%nat = Some (2 + Z.of_nat i, filename f)) by (change (2 + i)%nat with (S (S i)); by rewrite lookup_entries, Hf).
  rewrite (dir_find_at _ (fit (filename f)) 0 (2 + i) (2 + Z.of_nat i)); [done| |lia|].
  - rewrite lookup_app_l by (rewrite length_fmap; by eapply lookup_lt_Some). by rewrite list_lookup_fmap, He.
  - intros i' j' n' Hlt Hl. pose proof (lookup_lt_Some _ _ _ He) as Hlen. rewrite lookup_app_l, list_lookup_fmap in Hl by (rewrite length_fmap; lia).
    destruct (entries fs !! i') as [e|] eqn:Ee; [|done]. injection Hl as _ <-. by apply (Hfirst i' e).
Qed.

Lemma fbytes_take V p c n : fbytes V p 0 (Z.of_nat (length c)) = c ->
  take (Z.to_nat n) c = fbytes V p 0 (Z.of_nat (length (take (Z.to_nat n) c))).
Proof.
  intros E. rewrite <- E at 1. apply list_eq. intros k. unfold fbytes. rewrite length_take. destruct (decide (k < Z.to_nat n)%nat) as [Hk|Hk].
  - rewrite lookup_take_lt by done. rewrite !list_lookup_fmap. destruct (decide (k < length c)%nat) as [Hc|Hc].
    + by rewrite !upto_lookup by lia.
    + by rewrite !(proj2 (lookup_ge_None _ _)) by (rewrite length_upto; lia).
  - rewrite lookup_take_ge by lia. symmetry. apply lookup_ge_None. rewrite length_fmap, length_upto. lia.
Qed.

Section Boot.
Context `{HC : Ctx} `{HI : Image} `{HF : Frame} {S : Type} `{HT : Txn S} (rep : txabs -> S -> Prop)
  `{HO : !TxnOk S 1 rep lg} (Hlocal : 0 <= local_addr /\ local_addr + 16 < 2 ^ 64).

(** The first [n] bytes of a file, by its path. *)
Definition read_path (path : list Z) (dst n : Z) : M (fsst S) Z :=
  r <-! namei path ;;
  match r with
  | None => ret (-1)
  | Some ip => ilock ip ;;; readi ip false dst 0 n
  end.

Lemma read_file V L fs i f r s dst n : image_of V fs -> Forall file_good fs -> Z.of_nat (length fs) <= 198 ->
  fs !! i = Some f -> first_name fs i f -> fsr rep (Tx V L [] []) r s -> table 1 sb V None r -> room (r_it r) 2 ->
  Z.of_nat (length L) + 1 < NBUF -> 0 <= n < 2 ^ 32 -> 0 <= dst -> dst + n < 2 ^ 64 ->
  wp (read_path (SLASH :: filename f) dst n) (fun t s' => let c := take (Z.to_nat n) (contents f) in
    t = Z.of_nat (length c) /\ read_bytes (k_mem (fs_k s')) dst (length c) = c) s.
Proof.
  intros H Hg Hn Hf Hfirst Hs T Hroom HL Hnn Hd0 Hd. pose proof (proj1 (Forall_lookup _ _) Hg _ _ Hf) as [G1 _ G3 G4 G5].
  pose proof (image_tree V fs H Hn) as Ht. pose proof (lookup_lt_Some _ _ _ Hf) as Hlt. pose proof Hfirst as [Hne _].
  assert (Hsl : SLASH ∉ filename f). { intros Hin. apply G1. unfold filename, skip_underscore in Hin. destruct (hd 0 _ =? _); [|done].
    destruct (shortname (hf_path f)); [done|by right]. }
  unfold read_path. apply wp_bind. unfold namei. apply wp_bind.
  wp_use (namex_p 1 rep lg sb mkfs_layout Hlocal V L (files_tree fs) false (SLASH :: filename f) _ 1 r);
    [done|exact Hs|exact T|exact Ht|lia|done|exact Hroom|exact HL| | |].
  { apply Forall_cons. split; [by unfold SLASH|]. eapply Forall_impl; [exact G3|]. cbv beta. lia. }
  { apply Forall_replicate. lia. }
  intros [x nm] s1 [Hx _]. rewrite elems_one in Hx by done. cbn [fmap list_fmap fst] in Hx. fold (fit (filename f)) in Hx.
  rewrite (walk_file V fs i f H Hf Hfirst) in Hx. destruct Hx as (r1 & ip & -> & H1 & Hr1). apply wp_ret. cbn [fst]. apply wp_bind.
  wp_use (ilock_p 1 rep lg sb mkfs_layout); [exact H1|exact Hr1|exact Ht|cbv beta; lia|exact HL|]. intros [] s2 (r2 & p2 & H2 & Hi2 & Hl2 & Hd2 & _).
  pose proof (mi_file _ _ H i f Hf) as G. change (inode_at V) with (disk_ino 1 sb V) in G.
  assert (Hsz : i_size p2 = Z.of_nat (length (contents f))) by (destruct Hd2 as (_ & _ & -> & _); exact (go_size _ _ _ _ G)).
  assert (Hlen : readi_len p2 0 n = Z.of_nat (length (take (Z.to_nat n) (contents f)))).
  { unfold readi_len. rewrite Hsz, length_take. replace ((Z.of_nat (length (contents f)) <? 0) || (2 ^ 32 <=? 0 + n)) with false by lia. lia. }
  wp_use (readi_fs 1 rep lg sb V L ip p2 false dst 0 n (fun bs k => k = set_mem (write_bytes (k_mem (r_k r2)) dst bs) (r_k r2)) r2);
    [apply H2|exact Hi2|apply Hl2|by eapply file_ok_data; [|apply (go_file _ _ _ _ G)]|exact HL|lia|lia|lia|apply sink_kernel; [lia|]| | ].
  { rewrite Hlen, length_take. lia. }
  { by destruct (r_k r2). }
  intros t s3 (-> & k' & -> & Hs3). split; [exact Hlen|]. destruct Hs3 as [_ Ek]. apply (f_equal r_k) in Ek. cbn in Ek. rewrite Ek. cbn [k_mem set_mem].
  rewrite (fbytes_data V p2 _ 0 _ Hd2), Hlen, <- (fbytes_take V _ (contents f) n) by (try done; exact (go_bytes _ _ _ _ G)).
  apply read_write_bytes. apply Forall_take. exact G4.
Qed.
End Boot.

Section BootClaim.
Context `{HC : Ctx} `{HI : Image} `{HF : Frame} {S : Type} `{HT : Txn S} (rep : txabs -> S -> Prop)
  `{HO : !TxnOk S 1 rep lg} (Hlocal : 0 <= local_addr /\ local_addr + 16 < 2 ^ 64).

(** C16: on the image that mkfs wrote, the kernel finds every file under its
    name and reads its bytes: [namei], [ilock] and [readi] on the path of a
    file deliver the bytes mkfs was given for it (the first file of a name,
    names cut to [DIRSIZ] bytes). *)
Theorem mkfs_kernel_reads files s i f L r t dst n : Forall file_good files -> Z.of_nat (length files) <= 198 ->
  (2 + Z.of_nat (length files)) mod 64 <> 0 -> used (image_files files) <= FSSIZE -> main files mkfs0 = Done tt s ->
  files !! i = Some f -> first_name files i f ->
  fsr rep (Tx (img_view (mk_img s)) L [] []) r t -> table 1 sb (img_view (mk_img s)) None r -> room (r_it r) 2 ->
  Z.of_nat (length L) + 1 < NBUF -> 0 <= n < 2 ^ 32 -> 0 <= dst -> dst + n < 2 ^ 64 ->
  wp (read_path (SLASH :: filename f) dst n) (fun x t' => let c := take (Z.to_nat n) (contents f) in
    x = Z.of_nat (length c) /\ read_bytes (k_mem (fs_k t')) dst (length c) = c) t.
Proof.
  intros Hg Hn Hm Hu Hrun. destruct (mkfs_image files Hg Hn Hm Hu) as (s' & Hrun' & _ & Him).
  rewrite Hrun in Hrun'. injection Hrun' as <-. intros. by apply (read_file rep Hlocal (img_view (mk_img s)) L files i f r).
Qed.
End BootClaim.

(** ** A run *)

Module MkfsExample.
Import FsExample.
(** ["user/_f"], with the bytes "hi!" in two reads, and ["g"], empty. *)
Definition files : list hostfile :=
  [Hostfile (USER_ ++ [95; 102]) (Some [[104; 105]; [33]]); Hostfile [103] (Some [])].
Lemma files_good : Forall file_good files.
Proof.
  repeat apply Forall_cons_2; try apply Forall_nil_2; split; try done; try (apply (bool_decide_unpack _); vm_compute; exact I).
Qed.
Lemma used_ok : used (image_files files) <= FSSIZE.
Proof. vm_compute. discriminate. Qed.

Lemma mkfs_correct_witness : exists s, main files mkfs0 = Done tt s /\ image_of (img_view (mk_img s)) files.
Proof.
  destruct (mkfs_correct files files_good) as (s & H1 & _ & H2); [done|done|exact used_ok|]. exists s. split; [exact H1|exact H2].
Defined.

(** The kernel after it started on a disk, in a transaction, with no inode in
    the table. *)
Definition disk_of (img : list block) : disk := Disk (map_seqZ 0 img) [].
Definition it1 : list inode := replicate 50 free_ino.
Definition r1 : fsrest := Rest sb (initlock "itable") it1 k0 0 0.

Lemma dread_img img b : dread (disk_of img) b = img_view img b.
Proof.
  unfold dread, disk_of, img_view. cbn [d_blocks]. destruct (Z.ltb_spec b 0).
  - by rewrite (proj2 (lookup_map_seqZ_None _ _ _)) by lia.
  - rewrite lookup_map_seqZ_0 by done. by rewrite nth_lookup.
Qed.
Lemma recovered_img img bn : img_view img 2 = zero_block -> recovered 2 (dread (disk_of img)) bn = img_view img bn.
Proof.
  intros H2. unfold recovered, logical. rewrite (dread_img img 2), H2. change (head_blocks zero_block) with (@nil Z). cbn [install].
  destruct (decide (bn = 2)) as [->|Hne]; [|rewrite fn_lookup_insert_ne by done; apply dread_img].
  rewrite fn_lookup_insert, H2. vm_compute. reflexivity.
Qed.
Lemma boot_img img : img_view img 2 = zero_block -> exists F H t, fsr (tx_rep 1 2 1 F H) (Tx (img_view img) [] [] []) r1 t.
Proof.
  intros H2. destruct (start_log_idle 1 2 (disk_of img)) as (s & _ & Hi); [discriminate| |].
  { apply (head_ok_0 2 []); [|rewrite dread_img, H2; reflexivity|rewrite dread_img, H2; reflexivity].
    split; [lia|done|]. intros b Hb. by apply elem_of_nil in Hb. }
  destruct (begin_op_idle 1 2 _ _ s Hi) as (t & _ & Ht). eexists _, _, (Fsst t sb (initlock "itable") it1 k0 0 0). split; [|reflexivity].
  refine (tx_rep_ext 1 2 1 _ _ _ _ _ _ _ _ _ Ht). intros bn. by apply recovered_img.
Qed.
Lemma table1 V : table 1 sb V None r1.
Proof.
  assert (Hall : forall i p, it1 !! i = Some p -> p = free_ino) by (intros i p Hp; by apply lookup_replicate in Hp as [-> _]). split.
  - done.
  - split; reflexivity.
  - split; [intros i p ->%Hall; done|]. intros i j p q d n ->%Hall _ [H _]. done.
  - intros ip p [_ ->%Hall]. split; [split; reflexivity|]. by split.
Qed.

(** ["/f"] *)
Lemma namex_correct_witness : exists t t' ip nm, namex (S := lst) [47; 102] false (replicate 14 0) t = Done (Some ip, nm) t'.
Proof.
  destruct (mkfs_image files files_good) as (s & _ & _ & Him); [done|done|exact used_ok|].
  destruct (boot_img (mk_img s)) as (F & H & t & Ht); [apply (mi_log _ _ Him); change nlog with 30; lia|].
  destruct (namex_correct 1 (tx_rep 1 2 1 F H) lg sb mkfs_layout local_ok (img_view (mk_img s)) [] (files_tree files) false [47; 102] (replicate 14 0) 1 r1 t)
    as ([x nm] & t' & Hr & (r' & Hx) & _);
    [reflexivity|exact Ht|apply table1|by apply image_tree|cbn; lia|reflexivity|apply Nat.leb_le; reflexivity|reflexivity|repeat constructor; lia
    |repeat constructor; lia|].
  change (take (Z.to_nat DIRSIZ) <$> elems [47; 102]) with [fit (filename (Hostfile (USER_ ++ [95; 102]) (Some [[104; 105]; [33]])))] in Hx.
  rewrite (walk_file _ files 0 _ Him eq_refl) in Hx.
  - destruct Hx as (ip & E & _). cbn in E. subst x. exists t, t', ip, nm. exact Hr.
  - split; [discriminate|]. intros [|[|i']] e Hlt Hl; [injection Hl as <-; discriminate..|lia].
Defined.

Lemma mkfs_kernel_reads_witness : exists t t', read_path (S := lst) [47; 102] 4096 16 t = Done 3 t' /\
  read_bytes (k_mem (fs_k t')) 4096 3 = [104; 105; 33].
Proof.
  destruct (mkfs_image files files_good) as (s & Hrun & _ & Him); [done|done|exact used_ok|].
  destruct (boot_img (mk_img s)) as (F & H & t & Ht); [apply (mi_log _ _ Him); change nlog with 30; lia|].
  destruct (mkfs_kernel_reads (tx_rep 1 2 1 F H) local_ok files s 0 (Hostfile (USER_ ++ [95; 102]) (Some [[104; 105]; [33]])) [] r1 t 4096 16)
    as (x & t' & Hr & -> & Hb);
    [exact files_good|cbn; lia|discriminate|exact used_ok|exact Hrun|reflexivity| |exact Ht|apply table1|apply Nat.leb_le; reflexivity|reflexivity|lia|lia|lia|].
  - split; [discriminate|]. intros [|[|i']] e Hlt Hl; [injection Hl as <-; discriminate..|lia].
  - exists t, t'. split; [exact Hr|exact Hb].
Defined.
End MkfsExample.
