(* ===== verification/Kern.v ===== *)
(** * The state of the kernel above the file system

    The records of kernel/proc.h, kernel/file.h, kernel/pipe.c, kernel/console.c
    and kernel/uart.c, put together with the state of the file system into one
    record [kern].  A [struct proc*] is an index into [proc], a [struct file*]
    an index into [ftable.file], and a [struct pipe*] the address of the page
    [kalloc] returned for it; [kn_pipes] gives the contents of those pages. A
    trap frame is bytes of physical memory at [p_trapframe]. *)

From S2P Require Import Prelude Memory Riscv Spinlock Kalloc Vm Bio Log Txn Fs.

Definition NOFILE : Z := 16.
Definition NFILE : Z := 100.
Definition NDEV : Z := 10.

(** ** kernel/proc.h *)

Inductive procstate := UNUSED | USED | SLEEPING | RUNNABLE | RUNNING | ZOMBIE.
#[global] Instance procstate_eq_dec : EqDecision procstate.
Proof. solve_decision. Defined.

(** [ra], [sp] and the callee-saved registers [s0] to [s11]. *)
Record context := Context { c_ra : Z; c_sp : Z; c_saved : list Z }.

Record cpust := Cpust { cs_proc : option Z; cs_cpu : cpu }.

Record proc := Proc {
  p_lock : spinlock;
  p_state : procstate;
  p_chan : option chan;
  p_killed : Z;
  p_xstate : Z;
  p_pid : Z;
  p_parent : option Z;
  p_kstack : Z;
  p_sz : Z;
  p_pagetable : Z;
  p_trapframe : Z;
  p_context : context;
  p_ofile : list (option Z);
  p_cwd : option Z;
  p_name : list Z
}.
Definition set_p_lock (v : spinlock) (p : proc) : proc :=
  Proc v (p_state p) (p_chan p) (p_killed p) (p_xstate p) (p_pid p) (p_parent p) (p_kstack p) (p_sz p) (p_pagetable p) (p_trapframe p) (p_context p) (p_ofile p) (p_cwd p) (p_name p).
Definition set_state (v : procstate) (p : proc) : proc :=
  Proc (p_lock p) v (p_chan p) (p_killed p) (p_xstate p) (p_pid p) (p_parent p) (p_kstack p) (p_sz p) (p_pagetable p) (p_trapframe p) (p_context p) (p_ofile p) (p_cwd p) (p_name p).
Definition set_chan (v : option chan) (p : proc) : proc :=
  Proc (p_lock p) (p_state p) v (p_killed p) (p_xstate p) (p_pid p) (p_parent p) (p_kstack p) (p_sz p) (p_pagetable p) (p_trapframe p) (p_context p) (p_ofile p) (p_cwd p) (p_name p).
Definition set_killed (v : Z) (p : proc) : proc :=
  Proc (p_lock p) (p_state p) (p_chan p) v (p_xstate p) (p_pid p) (p_parent p) (p_kstack p) (p_sz p) (p_pagetable p) (p_trapframe p) (p_context p) (p_ofile p) (p_cwd p) (p_name p).
Definition set_xstate (v : Z) (p : proc) : proc :=
  Proc (p_lock p) (p_state p) (p_chan p) (p_killed p) v (p_pid p) (p_parent p) (p_kstack p) (p_sz p) (p_pagetable p) (p_trapframe p) (p_context p) (p_ofile p) (p_cwd p) (p_name p).
Definition set_pid (v : Z) (p : proc) : proc :=
  Proc (p_lock p) (p_state p) (p_chan p) (p_killed p) (p_xstate p) v (p_parent p) (p_kstack p) (p_sz p) (p_pagetable p) (p_trapframe p) (p_context p) (p_ofile p) (p_cwd p) (p_name p).
Definition set_parent (v : option Z) (p : proc) : proc :=
  Proc (p_lock p) (p_state p) (p_chan p) (p_killed p) (p_xstate p) (p_pid p) v (p_kstack p) (p_sz p) (p_pagetable p) (p_trapframe p) (p_context p) (p_ofile p) (p_cwd p) (p_name p).
Definition set_kstack (v : Z) (p : proc) : proc :=
  Proc (p_lock p) (p_state p) (p_chan p) (p_killed p) (p_xstate p) (p_pid p) (p_parent p) v (p_sz p) (p_pagetable p) (p_trapframe p) (p_context p) (p_ofile p) (p_cwd p) (p_name p).
Definition set_sz (v : Z) (p : proc) : proc :=
  Proc (p_lock p) (p_state p) (p_chan p) (p_killed p) (p_xstate p) (p_pid p) (p_parent p) (p_kstack p) v (p_pagetable p) (p_trapframe p) (p_context p) (p_ofile p) (p_cwd p) (p_name p).
Definition set_pagetable (v : Z) (p : proc) : proc :=
  Proc (p_lock p) (p_state p) (p_chan p) (p_killed p) (p_xstate p) (p_pid p) (p_parent p) (p_kstack p) (p_sz p) v (p_trapframe p) (p_context p) (p_ofile p) (p_cwd p) (p_name p).
Definition set_trapframe (v : Z) (p : proc) : proc :=
  Proc (p_lock p) (p_state p) (p_chan p) (p_killed p) (p_xstate p) (p_pid p) (p_parent p) (p_kstack p) (p_sz p) (p_pagetable p) v (p_context p) (p_ofile p) (p_cwd p) (p_name p).
Definition set_context (v : context) (p : proc) : proc :=
  Proc (p_lock p) (p_state p) (p_chan p) (p_killed p) (p_xstate p) (p_pid p) (p_parent p) (p_kstack p) (p_sz p) (p_pagetable p) (p_trapframe p) v (p_ofile p) (p_cwd p) (p_name p).
Definition set_ofile (v : list (option Z)) (p : proc) : proc :=
  Proc (p_lock p) (p_state p) (p_chan p) (p_killed p) (p_xstate p) (p_pid p) (p_parent p) (p_kstack p) (p_sz p) (p_pagetable p) (p_trapframe p) (p_context p) v (p_cwd p) (p_name p).
Definition set_cwd (v : option Z) (p : proc) : proc :=
  Proc (p_lock p) (p_state p) (p_chan p) (p_killed p) (p_xstate p) (p_pid p) (p_parent p) (p_kstack p) (p_sz p) (p_pagetable p) (p_trapframe p) (p_context p) (p_ofile p) v (p_name p).
Definition set_name (v : list Z) (p : proc) : proc :=
  Proc (p_lock p) (p_state p) (p_chan p) (p_killed p) (p_xstate p) (p_pid p) (p_parent p) (p_kstack p) (p_sz p) (p_pagetable p) (p_trapframe p) (p_context p) (p_ofile p) (p_cwd p) v.

(** The fields of [struct trapframe], and their offsets. *)
Inductive trapframe :=
| TF_kernel_satp | TF_kernel_sp | TF_kernel_trap | TF_epc | TF_kernel_hartid | TF_ra | TF_sp | TF_gp | TF_tp | TF_t0 | TF_t1 | TF_t2 | TF_s0 | TF_s1 | TF_a0 | TF_a1 | TF_a2 | TF_a3 | TF_a4 | TF_a5 | TF_a6 | TF_a7 | TF_s2 | TF_s3 | TF_s4 | TF_s5 | TF_s6 | TF_s7 | TF_s8 | TF_s9 | TF_s10 | TF_s11 | TF_t3 | TF_t4 | TF_t5 | TF_t6.
Definition tf_off (f : trapframe) : Z :=
  match f with
  | TF_kernel_satp => 0
  | TF_kernel_sp => 8
  | TF_kernel_trap => 16
  | TF_epc => 24
  | TF_kernel_hartid => 32
  | TF_ra => 40
  | TF_sp => 48
  | TF_gp => 56
  | TF_tp => 64
  | TF_t0 => 72
  | TF_t1 => 80
  | TF_t2 => 88
  | TF_s0 => 96
  | TF_s1 => 104
  | TF_a0 => 112
  | TF_a1 => 120
  | TF_a2 => 128
  | TF_a3 => 136
  | TF_a4 => 144
  | TF_a5 => 152
  | TF_a6 => 160
  | TF_a7 => 168
  | TF_s2 => 176
  | TF_s3 => 184
  | TF_s4 => 192
  | TF_s5 => 200
  | TF_s6 => 208
  | TF_s7 => 216
  | TF_s8 => 224
  | TF_s9 => 232
  | TF_s10 => 240
  | TF_s11 => 248
  | TF_t3 => 256
  | TF_t4 => 264
  | TF_t5 => 272
  | TF_t6 => 280
  end.
Definition sizeof_trapframe : Z := 288.

(** ** kernel/file.h and kernel/pipe.c *)

Inductive filetype := FD_NONE | FD_PIPE | FD_INODE | FD_DEVICE.
#[global] Instance filetype_eq_dec : EqDecision filetype.
Proof. solve_decision. Defined.

Record file := File {
  f_type : filetype;
  f_ref : Z;
  f_readable : bool;
  f_writable : bool;
  f_pipe : Z;
  f_ip : Z;
  f_off : Z;
  f_major : Z
}.
Definition set_f_type (v : filetype) (f : file) : file :=
  File v (f_ref f) (f_readable f) (f_writable f) (f_pipe f) (f_ip f) (f_off f) (f_major f).
Definition set_f_ref (v : Z) (f : file) : file :=
  File (f_type f) v (f_readable f) (f_writable f) (f_pipe f) (f_ip f) (f_off f) (f_major f).
Definition set_f_readable (v : bool) (f : file) : file :=
  File (f_type f) (f_ref f) v (f_writable f) (f_pipe f) (f_ip f) (f_off f) (f_major f).
Definition set_f_writable (v : bool) (f : file) : file :=
  File (f_type f) (f_ref f) (f_readable f) v (f_pipe f) (f_ip f) (f_off f) (f_major f).
Definition set_f_pipe (v : Z) (f : file) : file :=
  File (f_type f) (f_ref f) (f_readable f) (f_writable f) v (f_ip f) (f_off f) (f_major f).
Definition set_f_ip (v : Z) (f : file) : file :=
  File (f_type f) (f_ref f) (f_readable f) (f_writable f) (f_pipe f) v (f_off f) (f_major f).
Definition set_f_off (v : Z) (f : file) : file :=
  File (f_type f) (f_ref f) (f_readable f) (f_writable f) (f_pipe f) (f_ip f) v (f_major f).
Definition set_f_major (v : Z) (f : file) : file :=
  File (f_type f) (f_ref f) (f_readable f) (f_writable f) (f_pipe f) (f_ip f) (f_off f) v.

Record pipe := Pipe {
  pi_lock : spinlock;
  pi_data : list Z;
  pi_nread : Z;
  pi_nwrite : Z;
  pi_readopen : bool;
  pi_writeopen : bool
}.
Definition set_pi_lock (v : spinlock) (p : pipe) : pipe :=
  Pipe v (pi_data p) (pi_nread p) (pi_nwrite p) (pi_readopen p) (pi_writeopen p).
Definition set_pi_data (v : list Z) (p : pipe) : pipe :=
  Pipe (pi_lock p) v (pi_nread p) (pi_nwrite p) (pi_readopen p) (pi_writeopen p).
Definition set_pi_nread (v : Z) (p : pipe) : pipe :=
  Pipe (pi_lock p) (pi_data p) v (pi_nwrite p) (pi_readopen p) (pi_writeopen p).
Definition set_pi_nwrite (v : Z) (p : pipe) : pipe :=
  Pipe (pi_lock p) (pi_data p) (pi_nread p) v (pi_readopen p) (pi_writeopen p).
Definition set_pi_readopen (v : bool) (p : pipe) : pipe :=
  Pipe (pi_lock p) (pi_data p) (pi_nread p) (pi_nwrite p) v (pi_writeopen p).
Definition set_pi_writeopen (v : bool) (p : pipe) : pipe :=
  Pipe (pi_lock p) (pi_data p) (pi_nread p) (pi_nwrite p) (pi_readopen p) v.

(** ** kernel/console.c, kernel/uart.c and kernel/printf.c

    [ua_lsr] and [ua_rhr] are the values the device will return for the next
    reads of its line status and receive registers, [ua_wr] the registers
    written so far, with the values. *)

Record console := Console {
  cn_lock : spinlock;
  cn_buf : list Z;
  cn_r : Z;
  cn_w : Z;
  cn_e : Z
}.
Definition set_cn_lock (v : spinlock) (c : console) : console :=
  Console v (cn_buf c) (cn_r c) (cn_w c) (cn_e c).
Definition set_cn_buf (v : list Z) (c : console) : console :=
  Console (cn_lock c) v (cn_r c) (cn_w c) (cn_e c).
Definition set_cn_r (v : Z) (c : console) : console :=
  Console (cn_lock c) (cn_buf c) v (cn_w c) (cn_e c).
Definition set_cn_w (v : Z) (c : console) : console :=
  Console (cn_lock c) (cn_buf c) (cn_r c) v (cn_e c).
Definition set_cn_e (v : Z) (c : console) : console :=
  Console (cn_lock c) (cn_buf c) (cn_r c) (cn_w c) v.
Record uart := Uart {
  ua_lock : spinlock;
  ua_buf : list Z;
  ua_w : Z;
  ua_r : Z;
  ua_lsr : list Z;
  ua_rhr : list Z;
  ua_wr : list (Z * Z)
}.
Definition set_ua_lock (v : spinlock) (u : uart) : uart :=
  Uart v (ua_buf u) (ua_w u) (ua_r u) (ua_lsr u) (ua_rhr u) (ua_wr u).
Definition set_ua_buf (v : list Z) (u : uart) : uart :=
  Uart (ua_lock u) v (ua_w u) (ua_r u) (ua_lsr u) (ua_rhr u) (ua_wr u).
Definition set_ua_w (v : Z) (u : uart) : uart :=
  Uart (ua_lock u) (ua_buf u) v (ua_r u) (ua_lsr u) (ua_rhr u) (ua_wr u).
Definition set_ua_r (v : Z) (u : uart) : uart :=
  Uart (ua_lock u) (ua_buf u) (ua_w u) v (ua_lsr u) (ua_rhr u) (ua_wr u).
Definition set_ua_lsr (v : list Z) (u : uart) : uart :=
  Uart (ua_lock u) (ua_buf u) (ua_w u) (ua_r u) v (ua_rhr u) (ua_wr u).
Definition set_ua_rhr (v : list Z) (u : uart) : uart :=
  Uart (ua_lock u) (ua_buf u) (ua_w u) (ua_r u) (ua_lsr u) v (ua_wr u).
Definition set_ua_wr (v : list (Z * Z)) (u : uart) : uart :=
  Uart (ua_lock u) (ua_buf u) (ua_w u) (ua_r u) (ua_lsr u) (ua_rhr u) v.
(** [pr] of kernel/printf.c *)
Record printlock := Printlock { pr_lock : spinlock; pr_locking : bool }.

(** ** Supervisor registers of a hart

    The interrupt-enable bit of [sstatus] is [sie] of [cpu]. *)

Record csrs := Csrs {
  csr_sstatus : Z;
  csr_scause : Z;
  csr_sepc : Z;
  csr_stval : Z;
  csr_stvec : Z;
  csr_sip : Z;
  csr_satp : Z
}.
Definition set_sstatus (v : Z) (c : csrs) : csrs :=
  Csrs v (csr_scause c) (csr_sepc c) (csr_stval c) (csr_stvec c) (csr_sip c) (csr_satp c).
Definition set_scause (v : Z) (c : csrs) : csrs :=
  Csrs (csr_sstatus c) v (csr_sepc c) (csr_stval c) (csr_stvec c) (csr_sip c) (csr_satp c).
Definition set_sepc (v : Z) (c : csrs) : csrs :=
  Csrs (csr_sstatus c) (csr_scause c) v (csr_stval c) (csr_stvec c) (csr_sip c) (csr_satp c).
Definition set_stval (v : Z) (c : csrs) : csrs :=
  Csrs (csr_sstatus c) (csr_scause c) (csr_sepc c) v (csr_stvec c) (csr_sip c) (csr_satp c).
Definition set_stvec (v : Z) (c : csrs) : csrs :=
  Csrs (csr_sstatus c) (csr_scause c) (csr_sepc c) (csr_stval c) v (csr_sip c) (csr_satp c).
Definition set_sip (v : Z) (c : csrs) : csrs :=
  Csrs (csr_sstatus c) (csr_scause c) (csr_sepc c) (csr_stval c) (csr_stvec c) v (csr_satp c).
Definition set_satp (v : Z) (c : csrs) : csrs :=
  Csrs (csr_sstatus c) (csr_scause c) (csr_sepc c) (csr_stval c) (csr_stvec c) (csr_sip c) v.

(** ** The kernel

    [kn_first] is the static variable of [forkret]; [kn_plic] the interrupt
    numbers the PLIC will return from the next claims, and those completed. *)

Record kern := Kern {
  kn_fs : fsst lst;
  kn_procs : list proc;
  kn_cpus : list cpust;
  kn_initproc : option Z;
  kn_nextpid : Z;
  kn_pid_lock : spinlock;
  kn_wait_lock : spinlock;
  kn_ftlock : spinlock;
  kn_files : list file;
  kn_pipes : gmap Z pipe;
  kn_ticks : Z;
  kn_tickslock : spinlock;
  kn_cons : console;
  kn_uart : uart;
  kn_panicked : bool;
  kn_pr : printlock;
  kn_first : bool;
  kn_csrs : Z -> csrs;
  kn_plic : list Z * list Z
}.
Definition set_kn_fs (v : fsst lst) (s : kern) : kern :=
  Kern v (kn_procs s) (kn_cpus s) (kn_initproc s) (kn_nextpid s) (kn_pid_lock s) (kn_wait_lock s) (kn_ftlock s) (kn_files s) (kn_pipes s) (kn_ticks s) (kn_tickslock s) (kn_cons s) (kn_uart s) (kn_panicked s) (kn_pr s) (kn_first s) (kn_csrs s) (kn_plic s).
Definition set_procs (v : list proc) (s : kern) : kern :=
  Kern (kn_fs s) v (kn_cpus s) (kn_initproc s) (kn_nextpid s) (kn_pid_lock s) (kn_wait_lock s) (kn_ftlock s) (kn_files s) (kn_pipes s) (kn_ticks s) (kn_tickslock s) (kn_cons s) (kn_uart s) (kn_panicked s) (kn_pr s) (kn_first s) (kn_csrs s) (kn_plic s).
Definition set_cpus (v : list cpust) (s : kern) : kern :=
  Kern (kn_fs s) (kn_procs s) v (kn_initproc s) (kn_nextpid s) (kn_pid_lock s) (kn_wait_lock s) (kn_ftlock s) (kn_files s) (kn_pipes s) (kn_ticks s) (kn_tickslock s) (kn_cons s) (kn_uart s) (kn_panicked s) (kn_pr s) (kn_first s) (kn_csrs s) (kn_plic s).
Definition set_initproc (v : option Z) (s : kern) : kern :=
  Kern (kn_fs s) (kn_procs s) (kn_cpus s) v (kn_nextpid s) (kn_pid_lock s) (kn_wait_lock s) (kn_ftlock s) (kn_files s) (kn_pipes s) (kn_ticks s) (kn_tickslock s) (kn_cons s) (kn_uart s) (kn_panicked s) (kn_pr s) (kn_first s) (kn_csrs s) (kn_plic s).
Definition set_nextpid (v : Z) (s : kern) : kern :=
  Kern (kn_fs s) (kn_procs s) (kn_cpus s) (kn_initproc s) v (kn_pid_lock s) (kn_wait_lock s) (kn_ftlock s) (kn_files s) (kn_pipes s) (kn_ticks s) (kn_tickslock s) (kn_cons s) (kn_uart s) (kn_panicked s) (kn_pr s) (kn_first s) (kn_csrs s) (kn_plic s).
Definition set_pid_lock (v : spinlock) (s : kern) : kern :=
  Kern (kn_fs s) (kn_procs s) (kn_cpus s) (kn_initproc s) (kn_nextpid s) v (kn_wait_lock s) (kn_ftlock s) (kn_files s) (kn_pipes s) (kn_ticks s) (kn_tickslock s) (kn_cons s) (kn_uart s) (kn_panicked s) (kn_pr s) (kn_first s) (kn_csrs s) (kn_plic s).
Definition set_wait_lock (v : spinlock) (s : kern) : kern :=
  Kern (kn_fs s) (kn_procs s) (kn_cpus s) (kn_initproc s) (kn_nextpid s) (kn_pid_lock s) v (kn_ftlock s) (kn_files s) (kn_pipes s) (kn_ticks s) (kn_tickslock s) (kn_cons s) (kn_uart s) (kn_panicked s) (kn_pr s) (kn_first s) (kn_csrs s) (kn_plic s).
Definition set_ftlock (v : spinlock) (s : kern) : kern :=
  Kern (kn_fs s) (kn_procs s) (kn_cpus s) (kn_initproc s) (kn_nextpid s) (kn_pid_lock s) (kn_wait_lock s) v (kn_files s) (kn_pipes s) (kn_ticks s) (kn_tickslock s) (kn_cons s) (kn_uart s) (kn_panicked s) (kn_pr s) (kn_first s) (kn_csrs s) (kn_plic s).
Definition set_files (v : list file) (s : kern) : kern :=
  Kern (kn_fs s) (kn_procs s) (kn_cpus s) (kn_initproc s) (kn_nextpid s) (kn_pid_lock s) (kn_wait_lock s) (kn_ftlock s) v (kn_pipes s) (kn_ticks s) (kn_tickslock s) (kn_cons s) (kn_uart s) (kn_panicked s) (kn_pr s) (kn_first s) (kn_csrs s) (kn_plic s).
Definition set_pipes (v : gmap Z pipe) (s : kern) : kern :=
  Kern (kn_fs s) (kn_procs s) (kn_cpus s) (kn_initproc s) (kn_nextpid s) (kn_pid_lock s) (kn_wait_lock s) (kn_ftlock s) (kn_files s) v (kn_ticks s) (kn_tickslock s) (kn_cons s) (kn_uart s) (kn_panicked s) (kn_pr s) (kn_first s) (kn_csrs s) (kn_plic s).
Definition set_ticks (v : Z) (s : kern) : kern :=
  Kern (kn_fs s) (kn_procs s) (kn_cpus s) (kn_initproc s) (kn_nextpid s) (kn_pid_lock s) (kn_wait_lock s) (kn_ftlock s) (kn_files s) (kn_pipes s) v (kn_tickslock s) (kn_cons s) (kn_uart s) (kn_panicked s) (kn_pr s) (kn_first s) (kn_csrs s) (kn_plic s).
Definition set_tickslock (v : spinlock) (s : kern) : kern :=
  Kern (kn_fs s) (kn_procs s) (kn_cpus s) (kn_initproc s) (kn_nextpid s) (kn_pid_lock s) (kn_wait_lock s) (kn_ftlock s) (kn_files s) (kn_pipes s) (kn_ticks s) v (kn_cons s) (kn_uart s) (kn_panicked s) (kn_pr s) (kn_first s) (kn_csrs s) (kn_plic s).
Definition set_cons (v : console) (s : kern) : kern :=
  Kern (kn_fs s) (kn_procs s) (kn_cpus s) (kn_initproc s) (kn_nextpid s) (kn_pid_lock s) (kn_wait_lock s) (kn_ftlock s) (kn_files s) (kn_pipes s) (kn_ticks s) (kn_tickslock s) v (kn_uart s) (kn_panicked s) (kn_pr s) (kn_first s) (kn_csrs s) (kn_plic s).
Definition set_uart (v : uart) (s : kern) : kern :=
  Kern (kn_fs s) (kn_procs s) (kn_cpus s) (kn_initproc s) (kn_nextpid s) (kn_pid_lock s) (kn_wait_lock s) (kn_ftlock s) (kn_files s) (kn_pipes s) (kn_ticks s) (kn_tickslock s) (kn_cons s) v (kn_panicked s) (kn_pr s) (kn_first s) (kn_csrs s) (kn_plic s).
Definition set_panicked (v : bool) (s : kern) : kern :=
  Kern (kn_fs s) (kn_procs s) (kn_cpus s) (kn_initproc s) (kn_nextpid s) (kn_pid_lock s) (kn_wait_lock s) (kn_ftlock s) (kn_files s) (kn_pipes s) (kn_ticks s) (kn_tickslock s) (kn_cons s) (kn_uart s) v (kn_pr s) (kn_first s) (kn_csrs s) (kn_plic s).
Definition set_pr (v : printlock) (s : kern) : kern :=
  Kern (kn_fs s) (kn_procs s) (kn_cpus s) (kn_initproc s) (kn_nextpid s) (kn_pid_lock s) (kn_wait_lock s) (kn_ftlock s) (kn_files s) (kn_pipes s) (kn_ticks s) (kn_tickslock s) (kn_cons s) (kn_uart s) (kn_panicked s) v (kn_first s) (kn_csrs s) (kn_plic s).
Definition set_first (v : bool) (s : kern) : kern :=
  Kern (kn_fs s) (kn_procs s) (kn_cpus s) (kn_initproc s) (kn_nextpid s) (kn_pid_lock s) (kn_wait_lock s) (kn_ftlock s) (kn_files s) (kn_pipes s) (kn_ticks s) (kn_tickslock s) (kn_cons s) (kn_uart s) (kn_panicked s) (kn_pr s) v (kn_csrs s) (kn_plic s).
Definition set_csrs (v : Z -> csrs) (s : kern) : kern :=
  Kern (kn_fs s) (kn_procs s) (kn_cpus s) (kn_initproc s) (kn_nextpid s) (kn_pid_lock s) (kn_wait_lock s) (kn_ftlock s) (kn_files s) (kn_pipes s) (kn_ticks s) (kn_tickslock s) (kn_cons s) (kn_uart s) (kn_panicked s) (kn_pr s) (kn_first s) v (kn_plic s).
Definition set_plic (v : list Z * list Z) (s : kern) : kern :=
  Kern (kn_fs s) (kn_procs s) (kn_cpus s) (kn_initproc s) (kn_nextpid s) (kn_pid_lock s) (kn_wait_lock s) (kn_ftlock s) (kn_files s) (kn_pipes s) (kn_ticks s) (kn_tickslock s) (kn_cons s) (kn_uart s) (kn_panicked s) (kn_pr s) (kn_first s) (kn_csrs s) v.

Section Kern.
Context `{HC : Ctx}.

(** [mycpu()] and [mycpu()->proc] *)
Definition my_cpu (s : kern) : cpust := nth (Z.to_nat mycpu) (kn_cpus s) (Cpust None (Cpu 0 false false)).
Definition upd_cpu (c : cpust) (s : kern) : kern := set_cpus (<[Z.to_nat mycpu := c]> (kn_cpus s)) s.
Definition cur (s : kern) : option Z := cs_proc (my_cpu s).
Definition nth_proc (s : kern) (i : Z) : option proc := if i <? 0 then None else kn_procs s !! Z.to_nat i.
Definition cur_proc (s : kern) : option proc := p ← cur s; nth_proc s p.

(** The file system works on the [pagetable] and [cwd] of [myproc()]. *)
Definition fs_lens : lens kern (fsst lst) :=
  Lens (fun s => let f := kn_fs s in
          Fsst (fs_tx f) (fs_sb f) (fs_itlock f) (fs_it f) (fs_k f)
            (from_option p_pagetable 0 (cur_proc s)) (default (-1) (p ← cur_proc s; p_cwd p)))
       (fun f s => set_kn_fs f s).
Definition mem_lens : lens kern kst :=
  Lens (fun s => fs_k (kn_fs s))
       (fun k s => set_kn_fs (lset k_lens k (kn_fs s)) s).
Definition fsop {A} (m : M (fsst lst) A) : M kern A := lift fs_lens m.
Definition vm {A} (m : M kst A) : M kern A := lift mem_lens m.

(** [struct proc *p = myproc();] where [p] is dereferenced. *)
Definition myproc : M kern Z := fun s => match cur s with Some p => Done p s | None => Undef end.
Definition getp (i : Z) : M kern proc := fun s =>
  match nth_proc s i with Some p => Done p s | None => Undef end.
Definition upd_proc (i : Z) (p : proc) (s : kern) : kern := set_procs (<[Z.to_nat i := p]> (kn_procs s)) s.
Definition setp (i : Z) (f : proc -> proc) : M kern unit :=
  p <-! getp i ;; modify (upd_proc i (f p)).

Definition getf (i : Z) : M kern file := fun s =>
  if i <? 0 then Undef else match kn_files s !! Z.to_nat i with Some f => Done f s | None => Undef end.
Definition upd_file (i : Z) (f : file) (s : kern) : kern := set_files (<[Z.to_nat i := f]> (kn_files s)) s.
Definition setf (i : Z) (g : file -> file) : M kern unit :=
  f <-! getf i ;; modify (upd_file i (g f)).

Definition getpi (pi : Z) : M kern pipe := fun s =>
  match kn_pipes s !! pi with Some p => Done p s | None => Undef end.
Definition upd_pipe (pi : Z) (p : pipe) (s : kern) : kern := set_pipes (<[pi := p]> (kn_pipes s)) s.
Definition setpi (pi : Z) (g : pipe -> pipe) : M kern unit :=
  p <-! getpi pi ;; modify (upd_pipe pi (g p)).

(** ** The locks *)

Definition cpu_lens : lens kern cpu :=
  Lens (fun s => cs_cpu (my_cpu s)) (fun c s => upd_cpu (Cpust (cur s) c) s).
Definition pid_lens : lens kern spinlock := Lens kn_pid_lock set_pid_lock.
Definition wait_lens : lens kern spinlock := Lens kn_wait_lock set_wait_lock.
Definition ft_lens : lens kern spinlock := Lens kn_ftlock set_ftlock.
Definition ticks_lens : lens kern spinlock := Lens kn_tickslock set_tickslock.
Definition cn_lens : lens kern spinlock :=
  Lens (fun s => cn_lock (kn_cons s)) (fun l s => set_cons (set_cn_lock l (kn_cons s)) s).
Definition ua_lens : lens kern spinlock :=
  Lens (fun s => ua_lock (kn_uart s)) (fun l s => set_uart (set_ua_lock l (kn_uart s)) s).
Definition pr_lens : lens kern spinlock :=
  Lens (fun s => pr_lock (kn_pr s)) (fun l s => set_pr (Printlock l (pr_locking (kn_pr s))) s).
(** [&proc[i].lock] *)
Definition p_lens (i : Z) : lens kern spinlock :=
  Lens (fun s => from_option p_lock (initlock EmptyString) (nth_proc s i))
       (fun l s => match nth_proc s i with Some p => upd_proc i (set_p_lock l p) s | None => s end).
(** [&pi->lock] *)
Definition pi_lens (pi : Z) : lens kern spinlock :=
  Lens (fun s => from_option pi_lock (initlock EmptyString) (kn_pipes s !! pi))
       (fun l s => match kn_pipes s !! pi with Some p => upd_pipe pi (set_pi_lock l p) s | None => s end).

(** [acquire] and [release] with their [push_off] and [pop_off]. *)
Definition with_cpu (l : lens kern spinlock) : lens kern (spinlock * cpu) :=
  Lens (fun s => (lget l s, lget cpu_lens s)) (fun x s => lset cpu_lens x.2 (lset l x.1 s)).
Definition acq (l : lens kern spinlock) : M kern unit := lift (with_cpu l) hart_acquire.
Definition rel (l : lens kern spinlock) : M kern unit := lift (with_cpu l) hart_release.
End Kern.

(** ** Reading and updating the parts of the state *)

Section KernFacts.
Context `{HC : Ctx}.

Definition cpu_in (s : kern) : Prop := (Z.to_nat mycpu < length (kn_cpus s))%nat.

Lemma my_cpu_upd c s : cpu_in s -> my_cpu (upd_cpu c s) = c.
Proof.
  intros H. unfold my_cpu, upd_cpu; simpl. apply nth_lookup_Some.
  apply list_lookup_insert_eq. done.
Qed.
Lemma upd_cpu_twice c c' s : upd_cpu c (upd_cpu c' s) = upd_cpu c s.
Proof. unfold upd_cpu, set_cpus; simpl. by rewrite list_insert_insert_eq. Qed.
Lemma upd_cpu_id s : cpu_in s -> upd_cpu (my_cpu s) s = s.
Proof.
  intros H. unfold upd_cpu, set_cpus, my_cpu. destruct (lookup_lt_is_Some_2 _ _ H) as [c Hc].
  rewrite (nth_lookup_Some _ _ _ _ Hc), list_insert_id by done. by destruct s.
Qed.
Lemma upd_cpu_same c s : cpu_in s -> my_cpu s = c -> upd_cpu c s = s.
Proof. intros H <-. by apply upd_cpu_id. Qed.

Lemma nth_proc_upd_eq i p q s : nth_proc s i = Some q -> nth_proc (upd_proc i p s) i = Some p.
Proof.
  unfold nth_proc. destruct (i <? 0) eqn:E; [done|]. intros H. simpl.
  apply list_lookup_insert_eq. by apply lookup_lt_Some in H.
Qed.
Lemma nth_proc_upd_ne i j p s : i <> j -> 0 <= i -> nth_proc (upd_proc i p s) j = nth_proc s j.
Proof.
  intros Hij Hi. unfold nth_proc. destruct (Z.ltb_spec j 0); [done|]. simpl.
  apply list_lookup_insert_ne. lia.
Qed.
Lemma nth_proc_range s i p : nth_proc s i = Some p -> 0 <= i < Z.of_nat (length (kn_procs s)).
Proof.
  unfold nth_proc. destruct (Z.ltb_spec i 0); [done|]. intros H'%lookup_lt_Some. lia.
Qed.
Lemma upd_proc_twice i p q s : upd_proc i p (upd_proc i q s) = upd_proc i p s.
Proof. unfold upd_proc, set_procs; simpl. by rewrite list_insert_insert_eq. Qed.
Lemma upd_proc_id i p s : nth_proc s i = Some p -> upd_proc i p s = s.
Proof.
  intros H. pose proof (nth_proc_range _ _ _ H). unfold nth_proc in H. destruct (Z.ltb_spec i 0); [done|].
  unfold upd_proc, set_procs. rewrite list_insert_id by done. by destruct s.
Qed.
Lemma upd_proc_comm i j p q s :
  i <> j -> 0 <= i -> 0 <= j -> upd_proc i p (upd_proc j q s) = upd_proc j q (upd_proc i p s).
Proof. intros. unfold upd_proc, set_procs; simpl. rewrite list_insert_insert_ne by lia. done. Qed.
Lemma upd_cpu_proc c i p s : upd_cpu c (upd_proc i p s) = upd_proc i p (upd_cpu c s).
Proof. reflexivity. Qed.

Lemma getp_ok i p s : nth_proc s i = Some p -> getp i s = Done p s.
Proof. unfold getp. by intros ->. Qed.
Lemma setp_ok i f p s : nth_proc s i = Some p -> setp i f s = Done tt (upd_proc i (f p) s).
Proof. intros H. unfold setp, bind. by rewrite (getp_ok _ _ _ H). Qed.
Lemma myproc_ok p s : cur s = Some p -> myproc s = Done p s.
Proof. unfold myproc. by intros ->. Qed.

(** ** Acquiring and releasing *)

Lemma acq_ok l s : locked (lget l s) = false ->
  acq l s = Done tt (lset cpu_lens (push_off (lget cpu_lens s)) (lset l (held (lget l s)) s)).
Proof.
  intros Hl. unfold acq.
  rewrite (lift_Done _ _ _ tt (held (lget l s), push_off (lget cpu_lens s))); [reflexivity|].
  unfold hart_acquire, bind, lift. simpl. by rewrite lk_acquire_free.
Qed.
Lemma rel_ok l s lk c : lget l s = held lk -> unlocked lk -> pop_off (lget cpu_lens s) = Done tt c ->
  rel l s = Done tt (lset cpu_lens c (lset l lk s)).
Proof.
  intros Hl Hu Hp. unfold rel. rewrite (lift_Done _ _ _ tt (lk, c)); [reflexivity|].
  unfold hart_release, bind, lift; simpl. rewrite Hl, lk_release_held by done. simpl.
  simpl in Hp. by rewrite Hp.
Qed.

(** The thread holds [n] locks, [n > 0]; [i] is what [intena] remembers. *)
Definition nested (n : Z) (i : bool) (s : kern) : Prop :=
  cpu_in s /\ cs_cpu (my_cpu s) = Cpu n i false /\ 1 <= n.

Lemma push_off_nested n i : 1 <= n -> push_off (Cpu n i false) = Cpu (n + 1) i false.
Proof. intros. unfold push_off; simpl. by destruct (Z.eqb_spec n 0); [lia|]. Qed.
Lemma pop_off_nested n i : 1 <= n -> pop_off (Cpu (n + 1) i false) = Done tt (Cpu n i false).
Proof.
  intros. unfold pop_off; simpl. destruct (Z.ltb_spec (n + 1) 1); [lia|].
  destruct (Z.eqb_spec (n + 1 - 1) 0); [lia|]. simpl. by replace (n + 1 - 1) with n by lia.
Qed.
(** The outermost pair, entered with interrupts as in [b]. *)
Lemma push_off_outer i b : push_off (Cpu 0 i b) = Cpu 1 b false.
Proof. reflexivity. Qed.
Lemma pop_off_outer b : pop_off (Cpu 1 b false) = Done tt (Cpu 0 b b).
Proof. unfold pop_off; simpl. by destruct b. Qed.

Lemma cpu_lens_cpu_in c s : cpu_in (lset cpu_lens c s) <-> cpu_in s.
Proof. unfold cpu_in; simpl. by rewrite length_insert. Qed.
Lemma my_cpu_lset c s : cpu_in s -> my_cpu (lset cpu_lens c s) = Cpust (cur s) c.
Proof. intros. simpl. by rewrite my_cpu_upd. Qed.

(** A process's lock taken while other locks are held. *)
Lemma acq_p n i k p s : nested n i s -> nth_proc s k = Some p -> locked (p_lock p) = false ->
  acq (p_lens k) s =
  Done tt (upd_cpu (Cpust (cur s) (Cpu (n + 1) i false)) (upd_proc k (set_p_lock (held (p_lock p)) p) s)).
Proof.
  intros (Hin & Hc & Hn) Hk Hl. rewrite acq_ok; simpl; rewrite Hk; simpl; [|done].
  by rewrite Hc, push_off_nested.
Qed.
Lemma rel_p n i k p lk s : cpu_in s -> cs_cpu (my_cpu s) = Cpu (n + 1) i false -> 1 <= n ->
  nth_proc s k = Some p -> p_lock p = held lk -> unlocked lk ->
  rel (p_lens k) s = Done tt (upd_cpu (Cpust (cur s) (Cpu n i false)) (upd_proc k (set_p_lock lk p) s)).
Proof.
  intros Hin Hc Hn Hk Hl Hu. erewrite rel_ok; simpl; rewrite ?Hk; simpl; [reflexivity|done|done|].
  by rewrite Hc, pop_off_nested.
Qed.
End KernFacts.
