(* ===== verification/Proc.v ===== *)
(** * Processes: kernel/proc.c

    The process table, [sleep] and [wakeup], and the scheduler.  [swtch] hands
    the CPU to another thread: a function that calls [sched] is modelled up to
    the switch, where its run ends with [Sleep], and what it does when it is
    switched back to is a definition of its own ([sleep_resume],
    [yield_resume]).  [fork], [exit] and [wait] are in Life. *)

From S2P Require Import Prelude Memory Riscv Spinlock Kalloc Vm Bio Log Txn Fs Kern.

(** Addresses of kernel functions and trampoline code the linker chooses. *)
Class Syms := { forkret_addr : Z; usertrap_addr : Z; kernelvec_addr : Z; uservec_addr : Z; userret_addr : Z }.

(** [safestrcpy(s, t, n)] on the bytes at [t] and the buffer at [s]. *)
Fixpoint upto_nul (n : nat) (t : list Z) : list Z :=
  match n, t with
  | S n', c :: t' => if c =? 0 then [] else c :: upto_nul n' t'
  | _, _ => []
  end.
Definition safestrcpy_bytes (n : Z) (t s : list Z) : list Z :=
  if n <=? 0 then s
  else let e := upto_nul (Z.to_nat (n - 1)) t in e ++ [0] ++ drop (length e + 1) s.

Definition sizeof_name : Z := 16.
Definition zero_context : context := Context 0 0 (replicate 12 0).

(** The bytes of user/initcode.S. *)
Definition initcode : list Z := [
  0x17; 0x05; 0x00; 0x00; 0x13; 0x05; 0x45; 0x02;
  0x97; 0x05; 0x00; 0x00; 0x93; 0x85; 0x35; 0x02;
  0x93; 0x08; 0x70; 0x00; 0x73; 0x00; 0x00; 0x00;
  0x93; 0x08; 0x20; 0x00; 0x73; 0x00; 0x00; 0x00;
  0xef; 0xf0; 0x9f; 0xff; 0x2f; 0x69; 0x6e; 0x69;
  0x74; 0x00; 0x00; 0x24; 0x00; 0x00; 0x00; 0x00;
  0x00; 0x00; 0x00; 0x00 ].

Section Proc.
Context `{HC : Ctx} `{HI : Image} `{HF : Frame} `{HS : Syms}.

Definition procinit : M kern unit :=
  modify (set_pid_lock (initlock "nextpid")) ;;;
  modify (set_wait_lock (initlock "wait_lock")) ;;;
  for_each (upto NPROC) (fun p =>
    setp p (set_p_lock (initlock "proc")) ;;;
    setp p (set_state UNUSED) ;;;
    setp p (set_kstack (KSTACK p))).

Definition allocpid : M kern Z :=
  acq pid_lens ;;;
  pid <-! gets kn_nextpid ;;
  modify (fun s => set_nextpid (i32 (kn_nextpid s + 1)) s) ;;;
  rel pid_lens ;;;
  ret pid.

Definition freeproc (p : Z) : M kern unit :=
  pr <-! getp p ;;
  when (negb (p_trapframe pr =? 0)) (vm (kfree (p_trapframe pr))) ;;;
  setp p (set_trapframe 0) ;;;
  when (negb (p_pagetable pr =? 0)) (vm (proc_freepagetable (p_pagetable pr) (p_sz pr))) ;;;
  setp p (set_pagetable 0) ;;;
  setp p (set_sz 0) ;;;
  setp p (set_pid 0) ;;;
  setp p (set_parent None) ;;;
  setp p (fun q => set_name (<[O := 0]> (p_name q)) q) ;;;
  setp p (set_chan None) ;;;
  setp p (set_killed 0) ;;;
  setp p (set_xstate 0) ;;;
  setp p (set_state UNUSED).

(** [for(p = proc; p < &proc[NPROC]; p++)] up to an [UNUSED] entry, which is
    left locked. *)
Fixpoint allocproc_find (l : list Z) : M kern (option Z) :=
  match l with
  | [] => ret None
  | p :: l' =>
      acq (p_lens p) ;;;
      pr <-! getp p ;;
      if bool_decide (p_state pr = UNUSED) then ret (Some p)
      else rel (p_lens p) ;;; allocproc_find l'
  end.
Definition allocproc : M kern (option Z) :=
  r <-! allocproc_find (upto NPROC) ;;
  match r with
  | None => ret None
  | Some p =>
      pid <-! allocpid ;;
      setp p (set_pid pid) ;;;
      setp p (set_state USED) ;;;
      tf <-! vm kalloc ;;
      setp p (set_trapframe tf) ;;;
      if tf =? 0 then freeproc p ;;; rel (p_lens p) ;;; ret None else
      pt <-! vm (proc_pagetable tf) ;;
      setp p (set_pagetable pt) ;;;
      if pt =? 0 then freeproc p ;;; rel (p_lens p) ;;; ret None else
      pr <-! getp p ;;
      setp p (set_context (Context forkret_addr (u64 (p_kstack pr + PGSIZE)) (replicate 12 0))) ;;;
      ret (Some p)
  end.

(** [p->trapframe->f = v] and [p->trapframe->f] *)
Definition set_tf (p : Z) (f : trapframe) (v : Z) : M kern unit :=
  pr <-! getp p ;; vm (store (p_trapframe pr + tf_off f) v).
Definition get_tf (p : Z) (f : trapframe) : M kern Z :=
  pr <-! getp p ;; vm (load (p_trapframe pr + tf_off f)).

Definition userinit : M kern unit :=
  r <-! allocproc ;;
  modify (set_initproc r) ;;;
  match r with
  | None => undef
  | Some p =>
      pr <-! getp p ;;
      vm (uvmfirst (p_pagetable pr) initcode) ;;;
      setp p (set_sz PGSIZE) ;;;
      set_tf p TF_epc 0 ;;;
      set_tf p TF_sp PGSIZE ;;;
      setp p (fun q => set_name (safestrcpy_bytes sizeof_name [105; 110; 105; 116; 99; 111; 100; 101; 0] (p_name q)) q) ;;;
      cwd <-! fsop (namei [SLASH]) ;;
      setp p (set_cwd cwd) ;;;
      setp p (set_state RUNNABLE) ;;;
      rel (p_lens p)
  end.

Definition growproc (n : Z) : M kern Z :=
  p <-! myproc ;;
  pr <-! getp p ;;
  let sz := p_sz pr in
  if 0 <? n then
    sz <-! vm (uvmalloc (p_pagetable pr) sz (u64 (sz + n)) PTE_W) ;;
    if sz =? 0 then ret (-1) else setp p (set_sz sz) ;;; ret 0
  else
    sz <-! (if n <? 0 then vm (uvmdealloc (p_pagetable pr) sz (u64 (sz + n))) else ret sz) ;;
    setp p (set_sz sz) ;;;
    ret 0.

(** ** Switching *)

(** [sched] up to its [swtch]; the result is the local [intena]. *)
Definition sched : M kern bool :=
  p <-! myproc ;;
  pr <-! getp p ;;
  panic_if (negb (holding mycpu (p_lock pr))) "sched p->lock" ;;;
  c <-! gets (lget cpu_lens) ;;
  panic_if (negb (noff c =? 1)) "sched locks" ;;;
  panic_if (bool_decide (p_state pr = RUNNING)) "sched running" ;;;
  panic_if (sie c) "sched interruptible" ;;;
  ret (intena c).
Definition sched_resume (intena : bool) : M kern unit :=
  modify (fun s => let c := lget cpu_lens s in lset cpu_lens (Cpu (noff c) intena (sie c)) s).

(** One round of the loop in [scheduler] for process [p], up to the [swtch]
    to it (the result says whether there was one) and from the [swtch] back. *)
Definition set_curproc (p : option Z) (s : kern) : kern :=
  upd_cpu (Cpust p (cs_cpu (my_cpu s))) s.
Definition sched_pick (p : Z) : M kern bool :=
  acq (p_lens p) ;;;
  pr <-! getp p ;;
  if bool_decide (p_state pr = RUNNABLE) then
    setp p (set_state RUNNING) ;;;
    modify (set_curproc (Some p)) ;;;
    ret true
  else rel (p_lens p) ;;; ret false.
Definition sched_back (p : Z) : M kern unit :=
  modify (set_curproc None) ;;;
  rel (p_lens p).

Definition yield : M kern unit :=
  p <-! myproc ;;
  acq (p_lens p) ;;;
  setp p (set_state RUNNABLE) ;;;
  _ <-! sched ;;
  sleep_on ("yield"%string, p).
Definition yield_resume (intena : bool) (p : Z) : M kern unit :=
  sched_resume intena ;;; rel (p_lens p).

Definition ksleep {A} (c : chan) (lk : lens kern spinlock) : M kern A :=
  p <-! myproc ;;
  acq (p_lens p) ;;;
  rel lk ;;;
  setp p (set_chan (Some c)) ;;;
  setp p (set_state SLEEPING) ;;;
  _ <-! sched ;;
  sleep_on c.
Definition sleep_resume (intena : bool) (p : Z) (lk : lens kern spinlock) : M kern unit :=
  sched_resume intena ;;;
  setp p (set_chan None) ;;;
  rel (p_lens p) ;;;
  acq lk.

Definition wakeup1 (c : chan) (p : Z) : M kern unit :=
  me <-! gets cur ;;
  when (bool_decide (me <> Some p))
    (acq (p_lens p) ;;;
     pr <-! getp p ;;
     when (bool_decide (p_state pr = SLEEPING) && bool_decide (p_chan pr = Some c))
       (setp p (set_state RUNNABLE)) ;;;
     rel (p_lens p)).
Definition wakeup (c : chan) : M kern unit := for_each (upto NPROC) (wakeup1 c).

Fixpoint kill_loop (l : list Z) (pid : Z) : M kern Z :=
  match l with
  | [] => ret (-1)
  | p :: l' =>
      acq (p_lens p) ;;;
      pr <-! getp p ;;
      if p_pid pr =? pid then
        setp p (set_killed 1) ;;;
        when (bool_decide (p_state pr = SLEEPING)) (setp p (set_state RUNNABLE)) ;;;
        rel (p_lens p) ;;;
        ret 0
      else rel (p_lens p) ;;; kill_loop l' pid
  end.
Definition kill (pid : Z) : M kern Z := kill_loop (upto NPROC) pid.

Definition setkilled (p : Z) : M kern unit :=
  acq (p_lens p) ;;;
  setp p (set_killed 1) ;;;
  rel (p_lens p).

Definition killed (p : Z) : M kern Z :=
  acq (p_lens p) ;;;
  pr <-! getp p ;;
  rel (p_lens p) ;;;
  ret (p_killed pr).

(** The log's calls at this level: [end_op] wakes the callers that wait in
    [begin_op]. *)
Definition kbegin_op : M kern unit := fsop (tx begin_op).
Definition kend_op : M kern unit := fsop (tx end_op) ;;; wakeup ("log"%string, 0).

(** [copyout(myproc()->pagetable, ...)] and [copyin] *)
Definition ucopyout (dst : Z) (src : list Z) : M kern Z :=
  p <-! myproc ;; pr <-! getp p ;; vm (copyout (p_pagetable pr) dst src).
Definition ucopyin (src len : Z) : M kern (Z * list Z) :=
  p <-! myproc ;; pr <-! getp p ;; vm (copyin (p_pagetable pr) src len).
End Proc.

(** ** What the operations do to a table whose locks are free *)

(** The effect of [wakeup(c)] by process [me] on the table. *)
Definition wake1 (c : chan) (me : option Z) (i : Z) (p : proc) : proc :=
  if decide (me <> Some i /\ p_state p = SLEEPING /\ p_chan p = Some c) then set_state RUNNABLE p else p.
Definition wake (c : chan) (me : option Z) (ps : list proc) : list proc :=
  imap (fun i p => wake1 c me (Z.of_nat i) p) ps.

(** No other thread is inside a process's critical section. *)
Definition plocks_free (s : kern) : Prop :=
  length (kn_procs s) = Z.to_nat NPROC /\ forall i p, nth_proc s i = Some p -> unlocked (p_lock p).

Section ProcFacts.
Context `{HC : Ctx} `{HI : Image} `{HF : Frame} `{HS : Syms}.

Lemma set_p_lock_id p : set_p_lock (p_lock p) p = p.
Proof. by destruct p. Qed.

Lemma with_plock n i k p s : nested n i s -> nth_proc s k = Some p -> unlocked (p_lock p) ->
  exists s1, acq (p_lens k) s = Done tt s1 /\ getp k s1 = Done (set_p_lock (held (p_lock p)) p) s1 /\
    rel (p_lens k) s1 = Done tt s /\
    forall f, (forall q l, f (set_p_lock l q) = set_p_lock l (f q)) ->
      (setp k f ;;; rel (p_lens k)) s1 = Done tt (upd_proc k (f p) s).
Proof.
  intros Hn Hk Hu. destruct (Hn) as (Hin & Hc & H1).
  exists (upd_cpu (Cpust (cur s) (Cpu (n + 1) i false)) (upd_proc k (set_p_lock (held (p_lock p)) p) s)).
  assert (Hin1 : cpu_in (upd_proc k (set_p_lock (held (p_lock p)) p) s)) by done.
  assert (Hback : upd_cpu (Cpust (cur s) (Cpu n i false)) s = s).
  { apply upd_cpu_same; [done|]. unfold cur. rewrite <- Hc. by destruct (my_cpu s). }
  assert (Hk1 : nth_proc (upd_cpu (Cpust (cur s) (Cpu (n + 1) i false)) (upd_proc k (set_p_lock (held (p_lock p)) p) s)) k
      = Some (set_p_lock (held (p_lock p)) p)) by (eapply nth_proc_upd_eq; done).
  assert (Hrel : forall q, p_lock q = p_lock p -> rel (p_lens k)
      (upd_proc k (set_p_lock (held (p_lock p)) q)
        (upd_cpu (Cpust (cur s) (Cpu (n + 1) i false)) s)) = Done tt (upd_proc k q s)).
  { intros q Hq. rewrite (rel_p n i k (set_p_lock (held (p_lock p)) q) (p_lock p)); try done.
    - rewrite upd_cpu_proc, upd_cpu_proc, upd_cpu_twice, upd_proc_twice. simpl.
      unfold cur at 1. cbn [kn_cpus upd_proc set_procs my_cpu].
      change (my_cpu (upd_proc k ?a ?b)) with (my_cpu b). rewrite my_cpu_upd by done. simpl.
      rewrite Hback, <- Hq. replace (set_p_lock (p_lock q) (set_p_lock _ q)) with q by (by destruct q). done.
    - unfold cpu_in in *. simpl. by rewrite length_insert.
    - change (my_cpu (upd_proc k ?a ?b)) with (my_cpu b). by rewrite my_cpu_upd.
    - by eapply nth_proc_upd_eq. }
  conjs.
  - apply acq_p; [done|done|apply Hu].
  - by apply getp_ok.
  - rewrite upd_cpu_proc, (Hrel p eq_refl), upd_proc_id by done. done.
  - intros f Hf. erewrite bind_Done by (by eapply setp_ok). rewrite Hf, upd_cpu_proc, upd_proc_twice.
    apply Hrel. assert (Hp : f p = set_p_lock (p_lock p) (f p)) by (rewrite <- Hf; by destruct p).
    rewrite Hp. by destruct (f p).
Qed.

Lemma killed_ok n i k p s : nested n i s -> nth_proc s k = Some p -> unlocked (p_lock p) ->
  killed k s = Done (p_killed p) s.
Proof.
  intros Hn Hk Hu. destruct (with_plock n i k p s Hn Hk Hu) as (s1 & Ha & Hg & Hr & _).
  unfold killed. rewrite (bind_Done _ _ _ _ _ Ha), (bind_Done _ _ _ _ _ Hg), (bind_Done _ _ _ _ _ Hr). done.
Qed.

Lemma setkilled_ok n i k p s : nested n i s -> nth_proc s k = Some p -> unlocked (p_lock p) ->
  setkilled k s = Done tt (upd_proc k (set_killed 1 p) s).
Proof.
  intros Hn Hk Hu. destruct (with_plock n i k p s Hn Hk Hu) as (s1 & Ha & _ & _ & Hs).
  unfold setkilled. rewrite (bind_Done _ _ _ _ _ Ha). apply Hs. by intros [].
Qed.

Lemma wakeup1_ok n i c k p s : nested n i s -> nth_proc s k = Some p -> unlocked (p_lock p) ->
  wakeup1 c k s = Done tt (upd_proc k (wake1 c (cur s) k p) s).
Proof.
  intros Hn Hk Hu. unfold wakeup1, wake1. rewrite (bind_Done (gets cur) _ s _ s eq_refl).
  destruct (decide (cur s = Some k)) as [Hme|Hme].
  { rewrite bool_decide_false by tauto. rewrite decide_False by tauto. simpl.
    by rewrite upd_proc_id. }
  rewrite bool_decide_true by done. cbn [when].
  destruct (with_plock n i k p s Hn Hk Hu) as (s1 & Ha & Hg & Hr & Hs).
  rewrite (bind_Done _ _ _ _ _ Ha), (bind_Done _ _ _ _ _ Hg). simpl.
  destruct (bool_decide_reflect (p_state p = SLEEPING)), (bool_decide_reflect (p_chan p = Some c)); simpl.
  { rewrite decide_True by done. apply (Hs (set_state RUNNABLE)). by intros []. }
  all: rewrite decide_False by tauto; rewrite (bind_Done (ret tt) _ s1 tt s1 eq_refl), Hr, upd_proc_id; done.
Qed.

Lemma wake_lookup c me ps (k : nat) : wake c me ps !! k = wake1 c me (Z.of_nat k) <$> ps !! k.
Proof. unfold wake. by rewrite list_lookup_imap. Qed.

Lemma wakeup_ok n i c s : nested n i s -> plocks_free s ->
  wakeup c s = Done tt (set_procs (wake c (cur s) (kn_procs s)) s).
Proof.
  intros Hn [Hlen Hu]. set (ps := kn_procs s) in *.
  set (part := fun j : nat => imap (fun i p => if decide (i < j)%nat then wake1 c (cur s) (Z.of_nat i) p else p) ps).
  destruct (for_upto (Z.to_nat NPROC) (wakeup1 c) (fun j s' => s' = set_procs (part j) s) s) as (s' & Hrun & Hs').
  - unfold part. replace (imap _ ps) with ps; [by destruct s|]. symmetry. apply list_eq. intros k.
    rewrite list_lookup_imap. destruct (ps !! k) as [q|]; [|done]. simpl.
    destruct (decide (k < 0)%nat); [lia|done].
  - intros j s' Hj ->. destruct (lookup_lt_is_Some_2 ps j) as [p Hp]; [lia|].
    assert (Hjp : nth_proc (set_procs (part j) s) (Z.of_nat j) = Some p).
    { unfold nth_proc. destruct (Z.ltb_spec (Z.of_nat j) 0); [lia|]. rewrite Nat2Z.id. simpl.
      unfold part. rewrite list_lookup_imap, Hp. simpl. by rewrite decide_False by lia. }
    exists (upd_proc (Z.of_nat j) (wake1 c (cur s) (Z.of_nat j) p) (set_procs (part j) s)). split.
    + assert (Huj : unlocked (p_lock p)).
      { apply (Hu (Z.of_nat j)). unfold nth_proc. destruct (Z.ltb_spec (Z.of_nat j) 0); [lia|].
        by rewrite Nat2Z.id. }
      exact (wakeup1_ok n i c (Z.of_nat j) p (set_procs (part j) s) Hn Hjp Huj).
    + unfold upd_proc, set_procs. simpl. f_equal. rewrite Nat2Z.id. apply list_eq. intros k. unfold part.
      destruct (decide (k = j)) as [->|Hkj].
      * rewrite list_lookup_insert_eq by (rewrite length_imap; lia).
        rewrite list_lookup_imap, Hp. simpl. by rewrite decide_True by lia.
      * rewrite list_lookup_insert_ne by done. rewrite !list_lookup_imap. destruct (ps !! k); [|done]. simpl.
        destruct (decide (k < j)%nat), (decide (k < j + 1)%nat); done || lia.
  - unfold wakeup. rewrite <- (Z2Nat.id NPROC) by done. rewrite Hrun, Hs'. do 2 f_equal.
    unfold part, wake. apply list_eq. intros k. rewrite !list_lookup_imap.
    destruct (ps !! k) as [q|] eqn:Hk; [|done]. simpl. apply lookup_lt_Some in Hk. by rewrite decide_True by lia.
Qed.

Lemma plocks_free_wake c s : plocks_free s -> plocks_free (set_procs (wake c (cur s) (kn_procs s)) s).
Proof.
  intros [Hlen Hu]. split; [by unfold wake; simpl; rewrite length_imap|].
  intros i p. unfold nth_proc in *. destruct (Z.ltb_spec i 0); [done|]. simpl.
  rewrite wake_lookup. intros (q & Hq & ->)%fmap_Some. specialize (Hu i q). destruct (Z.ltb_spec i 0); [lia|].
  unfold wake1. case_decide; [|auto]. specialize (Hu Hq). by destruct q.
Qed.

(** A lock that is not in the process table. *)
Class KLock (l : lens kern spinlock) : Prop := {
  kl_procs : forall x s, kn_procs (lset l x s) = kn_procs s;
  kl_cpus : forall x s, kn_cpus (lset l x s) = kn_cpus s;
  kl_get_proc : forall i p s, lget l (upd_proc i p s) = lget l s;
  kl_get_cpu : forall c s, lget l (upd_cpu c s) = lget l s;
  kl_set_proc : forall x i p s, lset l x (upd_proc i p s) = upd_proc i p (lset l x s);
  kl_set_cpu : forall x c s, lset l x (upd_cpu c s) = upd_cpu c (lset l x s)
}.

(** [sleep(c, lk)] by a thread that holds [lk] and nothing else releases [lk],
    and leaves the process asleep on [c] with only its own lock held. *)
Lemma ksleep_ok {A} l `{!KLock l} lk i c me pr s :
  nested 1 i s -> lget l s = held lk -> unlocked lk ->
  cur s = Some me -> nth_proc s me = Some pr -> unlocked (p_lock pr) ->
  ksleep (A := A) c l s =
  Sleep c (upd_proc me (set_state SLEEPING (set_chan (Some c) (set_p_lock (held (p_lock pr)) pr))) (lset l lk s)).
Proof.
  intros Hn Hl Hlk Hme Hp Hu. destruct (Hn) as (Hin & Hc & _). unfold ksleep.
  rewrite (bind_Done _ _ _ _ _ (myproc_ok _ _ Hme)).
  rewrite (bind_Done _ _ _ _ _ (acq_p 1 i me pr s Hn Hp (proj1 Hu))).
  set (s1 := upd_cpu _ _).
  assert (Hrel : rel l s1 = Done tt (upd_proc me (set_p_lock (held (p_lock pr)) pr) (lset l lk s))).
  { assert (Hc1 : my_cpu s1 = Cpust (Some me) (Cpu 2 i false)).
    { unfold s1. rewrite my_cpu_upd by done. unfold cur in *; simpl. by rewrite Hme. }
    rewrite (rel_ok l s1 lk (Cpu 1 i false)); [|unfold s1; by rewrite kl_get_cpu, kl_get_proc|done|].
    - assert (Hcur : cur (lset l lk s1) = Some me).
      { unfold cur, my_cpu. rewrite kl_cpus. change (cs_proc (my_cpu s1) = Some me). by rewrite Hc1. }
      simpl. rewrite Hcur. unfold s1. rewrite kl_set_cpu, upd_cpu_twice, kl_set_proc, upd_cpu_proc.
      rewrite upd_cpu_same; [done|unfold cpu_in; by rewrite kl_cpus|].
      unfold my_cpu. rewrite kl_cpus. change (my_cpu s = Cpust (Some me) (Cpu 1 i false)).
      rewrite <- Hme, <- Hc. unfold cur. by destruct (my_cpu s).
    - simpl. rewrite Hc1. by apply (pop_off_nested 1). }
  rewrite (bind_Done _ _ _ _ _ Hrel). set (s2 := lset l lk s).
  assert (Hp2 : nth_proc s2 me = Some pr) by (unfold nth_proc, s2; rewrite kl_procs; done).
  assert (Hc2 : my_cpu s2 = my_cpu s) by (unfold my_cpu, s2; by rewrite kl_cpus).
  rewrite (bind_Done _ _ _ _ _ (setp_ok _ _ _ _ (nth_proc_upd_eq _ _ _ _ Hp2))). rewrite upd_proc_twice.
  rewrite (bind_Done _ _ _ _ _ (setp_ok _ _ _ _ (nth_proc_upd_eq _ _ _ _ Hp2))). rewrite upd_proc_twice.
  set (s3 := upd_proc _ _ _).
  assert (Hs : sched s3 = Done i s3).
  { unfold sched. rewrite (bind_Done _ _ s3 me s3).
    2: { apply myproc_ok. unfold cur, s3. change (my_cpu (upd_proc me ?a ?b)) with (my_cpu b). by rewrite Hc2. }
    erewrite bind_Done; [|apply getp_ok; by eapply nth_proc_upd_eq].
    assert (Hh : holding mycpu (held (p_lock pr)) = true) by (unfold holding; simpl; by rewrite bool_decide_true).
    simpl. rewrite Hh. cbn [negb]. rewrite (bind_Done (panic_if false _) _ s3 tt s3 eq_refl).
    rewrite (bind_Done (gets _) _ s3 _ s3 eq_refl). unfold s3.
    change (my_cpu (upd_proc me ?a ?b)) with (my_cpu b). by rewrite Hc2, Hc. }
  by rewrite (bind_Done _ _ _ _ _ Hs).
Qed.

(** The state after [wakeup(c)] by process [me], and with [me] gone to sleep
    on [c]. *)
Definition woken (c : chan) (me : Z) (s : kern) : kern := set_procs (wake c (Some me) (kn_procs s)) s.
Definition asleep (c : chan) (me : Z) (pr : proc) (s : kern) : kern :=
  upd_proc me (set_state SLEEPING (set_chan (Some c) (set_p_lock (held (p_lock pr)) pr))) s.
(** [mycpu()] running [me], with [noff] and the interrupt bits as in [c]. *)
Definition on_cpu (me : Z) (c : cpu) (s : kern) : kern := upd_cpu (Cpust (Some me) c) s.

Lemma on_cpu_twice me c c' s : on_cpu me c (on_cpu me c' s) = on_cpu me c s.
Proof. apply upd_cpu_twice. Qed.

Lemma woken_me c me pr s : nth_proc s me = Some pr -> nth_proc (woken c me s) me = Some pr.
Proof.
  intros Hp. pose proof (nth_proc_range _ _ _ Hp). unfold nth_proc in *. destruct (Z.ltb_spec me 0); [lia|].
  simpl. rewrite wake_lookup, Hp. simpl. unfold wake1. rewrite decide_False; [done|].
  rewrite Z2Nat.id by lia. tauto.
Qed.

Lemma wakeup_me n i c me s : nested n i s -> plocks_free s -> cur s = Some me ->
  wakeup c s = Done tt (woken c me s).
Proof. intros Hn Hf Hc. rewrite (wakeup_ok n i c s Hn Hf), Hc. done. Qed.

(** Taking and dropping a lock when no other is held. *)
Lemma acq_outer l `{!KLock l} j b me s : cpu_in s -> cs_cpu (my_cpu s) = Cpu 0 j b -> cur s = Some me ->
  unlocked (lget l s) -> acq l s = Done tt (on_cpu me (Cpu 1 b false) (lset l (held (lget l s)) s)).
Proof.
  intros Hin Hc Hme [Hu _]. rewrite acq_ok by done. simpl. rewrite Hc, push_off_outer. unfold on_cpu.
  rewrite <- Hme. unfold cur, my_cpu. by rewrite kl_cpus.
Qed.
Lemma rel_outer l `{!KLock l} b lk me s : cs_cpu (my_cpu s) = Cpu 1 b false -> cur s = Some me ->
  lget l s = held lk -> unlocked lk -> rel l s = Done tt (on_cpu me (Cpu 0 b b) (lset l lk s)).
Proof.
  intros Hc Hme Hl Hu. rewrite (rel_ok l s lk (Cpu 0 b b)); [|done|done|].
  - unfold on_cpu. rewrite <- Hme. simpl. unfold cur, my_cpu. by rewrite kl_cpus.
  - simpl. rewrite Hc. apply pop_off_outer.
Qed.

(** Process [me] runs in the kernel with no lock held, interrupts as in [b]. *)
Record running (s : kern) (me : Z) (pr : proc) (b : bool) : Prop := {
  rn_in : cpu_in s;
  rn_cpu : exists j, cs_cpu (my_cpu s) = Cpu 0 j b;
  rn_cur : cur s = Some me;
  rn_me : nth_proc s me = Some pr;
  rn_free : plocks_free s
}.
(** The same inside one critical section. *)
Record locked_in (s : kern) (me : Z) (pr : proc) (b : bool) : Prop := {
  li_nested : nested 1 b s;
  li_cur : cur s = Some me;
  li_me : nth_proc s me = Some pr;
  li_free : plocks_free s
}.

Lemma running_acq l `{!KLock l} s me pr b : running s me pr b -> unlocked (lget l s) ->
  acq l s = Done tt (on_cpu me (Cpu 1 b false) (lset l (held (lget l s)) s)) /\
  locked_in (on_cpu me (Cpu 1 b false) (lset l (held (lget l s)) s)) me pr b.
Proof.
  intros [Hin [j Hc] Hcur Hme [Hlen Hfree]] Hu. split; [by apply (acq_outer l j b me)|].
  assert (Hin' : cpu_in (lset l (held (lget l s)) s)) by (unfold cpu_in; by rewrite kl_cpus).
  assert (Hmc : my_cpu (on_cpu me (Cpu 1 b false) (lset l (held (lget l s)) s)) = Cpust (Some me) (Cpu 1 b false))
    by (by apply my_cpu_upd).
  assert (Hps : kn_procs (on_cpu me (Cpu 1 b false) (lset l (held (lget l s)) s)) = kn_procs s)
    by (simpl; apply kl_procs).
  split.
  - split; [unfold cpu_in in *; simpl; by rewrite length_insert|by rewrite Hmc].
  - unfold cur. by rewrite Hmc.
  - unfold nth_proc in *. by rewrite Hps.
  - split; [by rewrite Hps|]. intros i p. unfold nth_proc in *. rewrite Hps. apply Hfree.
Qed.

Lemma locked_in_woken c s me pr b : locked_in s me pr b -> locked_in (woken c me s) me pr b.
Proof.
  intros [Hn Hcur Hme Hfree]. split; try done; [by apply woken_me|].
  pose proof (plocks_free_wake c s Hfree) as Hw. by rewrite Hcur in Hw.
Qed.
End ProcFacts.
