(* ===== verification/Pipe.v ===== *)
(** * Pipes: kernel/pipe.c

    [pipeclose], [pipewrite] and [piperead]; [pipealloc], which allocates the
    two files as well, is in File. *)

From S2P Require Import Prelude Memory Riscv Spinlock Kalloc Vm Bio Log Txn Fs Kern Proc.

Definition PIPESIZE : Z := 512.

(** [sleep] channels [&pi->nread] and [&pi->nwrite]. *)
Definition ch_nread (pi : Z) : chan := ("nread"%string, pi).
Definition ch_nwrite (pi : Z) : chan := ("nwrite"%string, pi).

(** [pi->data[pi->nwrite++ % PIPESIZE] = ch;] and
    [ch = pi->data[pi->nread++ % PIPESIZE];] *)
Definition pi_put (ch : Z) (p : pipe) : pipe :=
  set_pi_nwrite (u32 (pi_nwrite p + 1))
    (set_pi_data (<[Z.to_nat (pi_nwrite p mod PIPESIZE) := ch]> (pi_data p)) p).
Definition pi_get (p : pipe) : Z * pipe :=
  (nth (Z.to_nat (pi_nread p mod PIPESIZE)) (pi_data p) 0, set_pi_nread (u32 (pi_nread p + 1)) p).

Section Pipe.
Context `{HC : Ctx} `{HI : Image} `{HF : Frame} `{HS : Syms}.

Definition pipeclose (pi : Z) (writable : bool) : M kern unit :=
  acq (pi_lens pi) ;;;
  (if writable
   then setpi pi (set_pi_writeopen false) ;;; wakeup (ch_nread pi)
   else setpi pi (set_pi_readopen false) ;;; wakeup (ch_nwrite pi)) ;;;
  p <-! getpi pi ;;
  if negb (pi_readopen p) && negb (pi_writeopen p) then
    rel (pi_lens pi) ;;;
    modify (fun s => set_pipes (delete pi (kn_pipes s)) s) ;;;
    vm (kfree pi)
  else rel (pi_lens pi).

(** The loop of [pipewrite] from [i]; [None] after [return -1]. *)
Fixpoint pipewrite_loop (fuel : nat) (pr pi addr n i : Z) : M kern (option Z) :=
  match fuel with
  | O => diverge
  | S fuel' =>
      if i <? n then
        p <-! getpi pi ;;
        k <-! (if negb (pi_readopen p) then ret 1 else killed pr) ;;
        if negb (k =? 0) then rel (pi_lens pi) ;;; ret None
        else if pi_nwrite p =? u32 (pi_nread p + PIPESIZE) then
          wakeup (ch_nread pi) ;;;
          ksleep (ch_nwrite pi) (pi_lens pi)
        else
          r <-! ucopyin (u64 (addr + i)) 1 ;;
          if r.1 =? -1 then ret (Some i)
          else
            setpi pi (pi_put (hd 0 r.2)) ;;;
            pipewrite_loop fuel' pr pi addr n (i + 1)
      else ret (Some i)
  end.
Definition pipewrite_end (pi : Z) (r : option Z) : M kern Z :=
  match r with
  | None => ret (-1)
  | Some i => wakeup (ch_nread pi) ;;; rel (pi_lens pi) ;;; ret i
  end.
Definition pipewrite (pi addr n : Z) : M kern Z :=
  pr <-! myproc ;;
  acq (pi_lens pi) ;;;
  r <-! pipewrite_loop (S (Z.to_nat n)) pr pi addr n 0 ;;
  pipewrite_end pi r.

(** The loop that copies the bytes out, from [i]. *)
Fixpoint piperead_loop (fuel : nat) (pi addr n i : Z) : M kern Z :=
  match fuel with
  | O => diverge
  | S fuel' =>
      if i <? n then
        p <-! getpi pi ;;
        if pi_nread p =? pi_nwrite p then ret i
        else
          let '(ch, p') := pi_get p in
          setpi pi (fun _ => p') ;;;
          r <-! ucopyout (u64 (addr + i)) [ch] ;;
          if r =? -1 then ret i else piperead_loop fuel' pi addr n (i + 1)
      else ret i
  end.
(** From the test of [while(pi->nread == pi->nwrite && pi->writeopen)] on,
    with the lock held. *)
Definition piperead_locked (pr pi addr n : Z) : M kern Z :=
  p <-! getpi pi ;;
  if (pi_nread p =? pi_nwrite p) && pi_writeopen p then
    k <-! killed pr ;;
    if negb (k =? 0) then rel (pi_lens pi) ;;; ret (-1)
    else ksleep (ch_nread pi) (pi_lens pi)
  else
    i <-! piperead_loop (S (Z.to_nat n)) pi addr n 0 ;;
    wakeup (ch_nwrite pi) ;;;
    rel (pi_lens pi) ;;;
    ret i.
Definition piperead (pi addr n : Z) : M kern Z :=
  pr <-! myproc ;;
  acq (pi_lens pi) ;;;
  piperead_locked pr pi addr n.
End Pipe.
