(* ===== verification/File.v ===== *)
(** * Open files: kernel/file.c, and [pipealloc] of kernel/pipe.c *)

From S2P Require Import Prelude Memory Riscv Spinlock Kalloc Vm Bio Log Txn Fs Kern Proc Pipe.

(** The functions in [devsw]: [read(1, addr, n)] and [write(1, addr, n)] of
    the device with a major number. *)
Class Devs := { dev_read : Z -> option (bool -> Z -> Z -> M kern Z); dev_write : Z -> option (bool -> Z -> Z -> M kern Z) }.

(** [struct stat] as bytes: [int dev; uint ino; short type; short nlink;
    uint64 size;], with the 4 bytes of padding before [size]. *)
Fixpoint le_bytes (n : nat) (v : Z) : list Z :=
  match n with O => [] | S n' => v mod 256 :: le_bytes n' (v / 256) end.
Definition stat_bytes (st : stat) (pad : list Z) : list Z :=
  le_bytes 4 (st_dev st) ++ le_bytes 4 (st_ino st) ++ le_bytes 2 (st_type st) ++
  le_bytes 2 (st_nlink st) ++ pad ++ le_bytes 8 (st_size st).

Section File.
Context `{HC : Ctx} `{HI : Image} `{HF : Frame} `{HS : Syms} `{HD : Devs}.

Definition fileinit : M kern unit := modify (set_ftlock (initlock "ftable")).

(** [for(f = ftable.file; f < ftable.file + NFILE; f++) if(f->ref == 0)] *)
Fixpoint filealloc_find (l : list Z) : M kern (option Z) :=
  match l with
  | [] => ret None
  | i :: l' => f <-! getf i ;;
               if f_ref f =? 0 then setf i (set_f_ref 1) ;;; ret (Some i) else filealloc_find l'
  end.
Definition filealloc : M kern (option Z) :=
  acq ft_lens ;;;
  r <-! filealloc_find (upto NFILE) ;;
  rel ft_lens ;;;
  ret r.

Definition filedup (f : Z) : M kern Z :=
  acq ft_lens ;;;
  p <-! getf f ;;
  panic_if (f_ref p <? 1) "filedup" ;;;
  setf f (set_f_ref (i32 (f_ref p + 1))) ;;;
  rel ft_lens ;;;
  ret f.

Definition fileclose (f : Z) : M kern unit :=
  acq ft_lens ;;;
  p <-! getf f ;;
  panic_if (f_ref p <? 1) "fileclose" ;;;
  setf f (set_f_ref (f_ref p - 1)) ;;;
  if 0 <? f_ref p - 1 then rel ft_lens
  else
    ff <-! getf f ;;
    setf f (set_f_ref 0) ;;;
    setf f (set_f_type FD_NONE) ;;;
    rel ft_lens ;;;
    match f_type ff with
    | FD_PIPE => pipeclose (f_pipe ff) (f_writable ff)
    | FD_INODE | FD_DEVICE =>
        kbegin_op ;;;
        fsop (iput (f_ip ff)) ;;;
        kend_op
    | FD_NONE => ret tt
    end.

(** The padding of the local [struct stat st] is whatever the stack held. *)
Definition filestat (f addr : Z) : M kern Z :=
  p <-! getf f ;;
  match f_type p with
  | FD_INODE | FD_DEVICE =>
      fsop (ilock (f_ip p)) ;;;
      st <-! fsop (stati (f_ip p)) ;;
      fsop (iunlock (f_ip p)) ;;;
      pad <-! gets (fun s => read_bytes (k_mem (lget mem_lens s)) (local_addr + 12) 4) ;;
      r <-! ucopyout addr (stat_bytes st pad) ;;
      ret (if r <? 0 then -1 else 0)
  | _ => ret (-1)
  end.

Definition fileread (f addr n : Z) : M kern Z :=
  p <-! getf f ;;
  if negb (f_readable p) then ret (-1) else
  match f_type p with
  | FD_PIPE => piperead (f_pipe p) addr n
  | FD_DEVICE =>
      if (f_major p <? 0) || (NDEV <=? f_major p) then ret (-1)
      else match dev_read (f_major p) with
           | None => ret (-1)
           | Some rd => rd true addr n
           end
  | FD_INODE =>
      fsop (ilock (f_ip p)) ;;;
      r <-! fsop (readi (f_ip p) true addr (f_off p) (u32 n)) ;;
      when (0 <? r) (setf f (set_f_off (u32 (f_off p + r)))) ;;;
      fsop (iunlock (f_ip p)) ;;;
      ret r
  | FD_NONE => panic "fileread"
  end.

Definition write_max : Z := (MAXOPBLOCKS - 1 - 1 - 2) / 2 * BSIZE.
(** The loop of [filewrite] over transactions; the result is [i]. *)
Fixpoint filewrite_loop (fuel : nat) (f addr n i : Z) : M kern Z :=
  match fuel with
  | O => diverge
  | S fuel' =>
      if i <? n then
        let n1 := if write_max <? n - i then write_max else n - i in
        kbegin_op ;;;
        p <-! getf f ;;
        fsop (ilock (f_ip p)) ;;;
        r <-! fsop (writei (f_ip p) true (u64 (addr + i)) (f_off p) (u32 n1)) ;;
        when (0 <? r) (setf f (set_f_off (u32 (f_off p + r)))) ;;;
        fsop (iunlock (f_ip p)) ;;;
        kend_op ;;;
        if negb (r =? n1) then ret i else filewrite_loop fuel' f addr n (i + r)
      else ret i
  end.
Definition filewrite (f addr n : Z) : M kern Z :=
  p <-! getf f ;;
  if negb (f_writable p) then ret (-1) else
  match f_type p with
  | FD_PIPE => pipewrite (f_pipe p) addr n
  | FD_DEVICE =>
      if (f_major p <? 0) || (NDEV <=? f_major p) then ret (-1)
      else match dev_write (f_major p) with
           | None => ret (-1)
           | Some wr => wr true addr n
           end
  | FD_INODE =>
      i <-! filewrite_loop (S (Z.to_nat n)) f addr n 0 ;;
      ret (if i =? n then n else -1)
  | FD_NONE => panic "filewrite"
  end.

(** ** [pipealloc] *)

(** The page [kalloc] returned holds junk; the fields not set keep it. *)
Definition junk_pipe : pipe := Pipe (Spinlock true EmptyString None) (replicate (Z.to_nat PIPESIZE) 5) 0x05050505 0x05050505 true true.
Definition pipe_bad (f0 f1 : option Z) : M kern (option (Z * Z)) :=
  (match f0 with Some f => fileclose f | None => ret tt end) ;;;
  (match f1 with Some f => fileclose f | None => ret tt end) ;;;
  ret None.
Definition pipealloc : M kern (option (Z * Z)) :=
  r0 <-! filealloc ;;
  match r0 with
  | None => pipe_bad None None
  | Some f0 =>
      r1 <-! filealloc ;;
      match r1 with
      | None => pipe_bad (Some f0) None
      | Some f1 =>
          pi <-! vm kalloc ;;
          if pi =? 0 then pipe_bad (Some f0) (Some f1)
          else
            modify (fun s => set_pipes (<[pi := junk_pipe]> (kn_pipes s)) s) ;;;
            setpi pi (set_pi_readopen true) ;;;
            setpi pi (set_pi_writeopen true) ;;;
            setpi pi (set_pi_nwrite 0) ;;;
            setpi pi (set_pi_nread 0) ;;;
            setpi pi (set_pi_lock (initlock "pipe")) ;;;
            setf f0 (set_f_type FD_PIPE) ;;;
            setf f0 (set_f_readable true) ;;;
            setf f0 (set_f_writable false) ;;;
            setf f0 (set_f_pipe pi) ;;;
            setf f1 (set_f_type FD_PIPE) ;;;
            setf f1 (set_f_readable false) ;;;
            setf f1 (set_f_writable true) ;;;
            setf f1 (set_f_pipe pi) ;;;
            ret (Some (f0, f1))
      end
  end.
End File.
