(* ===== verification/FsBound.v ===== *)
(** * The log space of a write

    [filewrite] of kernel/file.c writes at most [write_max] bytes in one
    transaction, so that the blocks [writei] logs fit into the space that
    [begin_op] reserved. *)

From S2P Require Import Prelude Memory Riscv Spinlock Kalloc Vm VmWalk Bio Log Txn Fs FsBlock FsInode FsFile FsExample Kern Proc Pipe File.

Lemma write_max_eq : write_max = 3072.
Proof. reflexivity. Qed.
Lemma wblocks_max off n : 0 <= off -> n <= write_max -> wblocks off n <= 4.
Proof.
  intros Ho Hn. rewrite write_max_eq in Hn. unfold wblocks. destruct (Z.ltb_spec 0 n) as [Hp|]; [|lia].
  pose proof (blocks_left_le off n Ho Hp). assert ((n - 2) / BSIZE <= 2) by (unfold BSIZE; Z.div_mod_to_equations; lia). lia.
Qed.
(** mkfs makes a disk with a single block for the free map. *)
Lemma lcost_one sb L : 0 < sb_size sb <= BPB -> lcost sb L <= Z.of_nat (length L) + 1.
Proof.
  intros Hs. unfold lcost. assert (Hl : length (mapblocks sb) = 1%nat).
  { unfold mapblocks. rewrite length_fmap, length_upto, (Z.div_small (sb_size sb - 1)); [done|lia]. }
  pose proof (length_filter (.∉ L) (mapblocks sb)). lia.
Qed.

Section FsBound.
Context `{HC : Ctx} `{HI : Image} `{HF : Frame} {S : Type} `{HT : Txn S} (D : Z) (rep : txabs -> S -> Prop)
  (loggable : Z -> Prop) `{HO : !TxnOk S D rep loggable} (sb : superblock) (Hlay : layout loggable sb).
Notation fsr := (fsr rep).

(** A [writei] of at most [write_max] bytes, which is what [filewrite] does
    in a transaction, fits into the log: when the transactions have logged no
    more than [begin_op] leaves to this one ([MAXOPBLOCKS] blocks are still
    free) it does not panic, and it logs at most 7 new blocks (4 of data, one
    of the free map, the indirect block and the inode), less than
    [MAXOPBLOCKS]; the disk has one block for its free map. *)
Theorem filewrite_chunk_fits V L ip p user src off bs r s :
  fsr (Tx V L [] []) r s -> r_sb r = sb -> ino r ip p -> i_dev p = D -> 0 <= i_inum p < sb_ninodes sb ->
  fs_ok loggable sb V -> file_ok loggable sb V p -> ino_ok p -> 0 <= off < 2 ^ 32 -> 0 <= src < 2 ^ 64 ->
  Forall (fun b => 0 <= b < 256) bs -> source (r_pt r) user src bs (r_k r) ->
  sb_size sb <= BPB -> Z.of_nat (length bs) <= write_max -> Z.of_nat (length L) + MAXOPBLOCKS <= LOGSIZE ->
  wp (writei ip user src off (Z.of_nat (length bs))) (fun t s' => exists V' L' p', fsr (Tx V' L' [] []) (upd_ino ip p' r) s' /\
    Z.of_nat (length L') <= Z.of_nat (length L) + 7) s.
Proof.
  intros Hs Hsb Hi Hd Hn Hfs Hf Hp Ho Hsrc Hbs Hsource Hone Hmax HL.
  pose proof (lcost_one sb L ltac:(split; [apply (lo_size _ _ Hlay)|done])) as Hc.
  pose proof (wblocks_max off (Z.of_nat (length bs)) ltac:(lia) Hmax) as Hw. rewrite write_max_eq in Hmax.
  assert (Hb : bcost sb p L <= lcost sb L + 1) by (unfold bcost; destruct (decide _); lia). unfold LOGSIZE, MAXOPBLOCKS in HL.
  wp_use (writei_fs D rep loggable sb Hlay V L ip p user src off bs r); try done; try lia.
  { unfold LOGSIZE, MAXOPBLOCKS. lia. }
  intros t s' Hr. unfold writei_result in Hr. destruct (writei_ok _ _ _).
  - destruct Hr as (V' & L' & p' & _ & H' & _ & Hb' & _). exists V', L', p'. split; [done|]. pose proof (bcost_len sb p' L'). lia.
  - destruct Hr as [_ H']. exists V, L, p. split; [by apply upd_same|lia].
Qed.
End FsBound.

Module FsBoundExample.
Import FsExample.
Lemma filewrite_chunk_fits_witness : exists s t s', writei (S := lst) 1 false 4096 0 3 s = Done t s'.
Proof.
  destruct boot_fs as (s & Hs).
  destruct (filewrite_chunk_fits 1 rep0 (loggable 2) sb0 layout0 V0 [] 1 file2 false 4096 0 [0; 0; 0] r0 s) as (t & s' & Hrun & _);
    try reflexivity; try exact Hs; try exact file2_ino; try exact fs_ok0; try (cbn; lia).
  - apply small_file_ok; [by right|cbn; unfold BSIZE; lia|cbn; lia].
  - split; cbn; unfold T_FILE; try lia. repeat constructor; lia.
  - repeat constructor; lia.
  - apply (source_kernel 0 4096 3 k0); lia.
  - unfold BPB, BSIZE. simpl. lia.
  - rewrite write_max_eq. simpl. lia.
  - unfold LOGSIZE, MAXOPBLOCKS. simpl. lia.
  - exists s, t, s'. exact Hrun.
Defined.
End FsBoundExample.
