(* ===== verification/Life.v ===== *)
(** * Life of a process: [fork], [exit] and [wait] of kernel/proc.c *)

From S2P Require Import Prelude Memory Riscv Spinlock Kalloc Vm Bio Log Txn Fs Kern Proc Pipe File.

Section Life.
Context `{HC : Ctx} `{HI : Image} `{HF : Frame} `{HS : Syms} `{HD : Devs}.

(** [if(p->ofile[i]) np->ofile[i] = filedup(p->ofile[i]);] *)
Definition fork_ofile (p np i : Z) : M kern unit :=
  pr <-! getp p ;;
  match p_ofile pr !! Z.to_nat i with
  | Some (Some f) =>
      f <-! filedup f ;;
      setp np (fun q => set_ofile (<[Z.to_nat i := Some f]> (p_ofile q)) q)
  | _ => ret tt
  end.
Definition fork : M kern Z :=
  p <-! myproc ;;
  r <-! allocproc ;;
  match r with
  | None => ret (-1)
  | Some np =>
      pr <-! getp p ;;
      npr <-! getp np ;;
      c <-! vm (uvmcopy (p_pagetable pr) (p_pagetable npr) (p_sz pr)) ;;
      if c <? 0 then freeproc np ;;; rel (p_lens np) ;;; ret (-1)
      else
        setp np (set_sz (p_sz pr)) ;;;
        vm (modify (fun k => set_mem (memmove (k_mem k) (p_trapframe npr) (p_trapframe pr) sizeof_trapframe) k)) ;;;
        set_tf np TF_a0 0 ;;;
        for_each (upto NOFILE) (fork_ofile p np) ;;;
        pr <-! getp p ;;
        cwd <-! (match p_cwd pr with Some ip => fsop (idup ip) | None => undef end) ;;
        setp np (set_cwd (Some cwd)) ;;;
        setp np (fun q => set_name (safestrcpy_bytes sizeof_name (p_name pr) (p_name q)) q) ;;;
        npr <-! getp np ;;
        let pid := p_pid npr in
        rel (p_lens np) ;;;
        acq wait_lens ;;;
        setp np (set_parent (Some p)) ;;;
        rel wait_lens ;;;
        acq (p_lens np) ;;;
        setp np (set_state RUNNABLE) ;;;
        rel (p_lens np) ;;;
        ret pid
  end.

(** [wakeup(initproc)] and [wakeup(p->parent)] *)
Definition ch_proc (p : option Z) : chan := ("proc"%string, default (-1) p).
Definition reparent1 (p pp : Z) : M kern unit :=
  q <-! getp pp ;;
  when (bool_decide (p_parent q = Some p))
    (init <-! gets kn_initproc ;;
     setp pp (set_parent init) ;;;
     wakeup (ch_proc init)).
Definition reparent (p : Z) : M kern unit := for_each (upto NPROC) (reparent1 p).

Definition exit_ofile (p fd : Z) : M kern unit :=
  pr <-! getp p ;;
  match p_ofile pr !! Z.to_nat fd with
  | Some (Some f) =>
      fileclose f ;;;
      setp p (fun q => set_ofile (<[Z.to_nat fd := None]> (p_ofile q)) q)
  | _ => ret tt
  end.
(** [exit] up to the [swtch] in [sched]. *)
Definition exit_upto (status : Z) : M kern Z :=
  p <-! myproc ;;
  init <-! gets kn_initproc ;;
  panic_if (bool_decide (init = Some p)) "init exiting" ;;;
  for_each (upto NOFILE) (exit_ofile p) ;;;
  kbegin_op ;;;
  pr <-! getp p ;;
  (match p_cwd pr with Some ip => fsop (iput ip) | None => undef end) ;;;
  kend_op ;;;
  setp p (set_cwd None) ;;;
  acq wait_lens ;;;
  reparent p ;;;
  pr <-! getp p ;;
  wakeup (ch_proc (p_parent pr)) ;;;
  acq (p_lens p) ;;;
  setp p (set_xstate status) ;;;
  setp p (set_state ZOMBIE) ;;;
  rel wait_lens ;;;
  _ <-! sched ;;
  ret p.
(** The [swtch] never returns. *)
Definition exit {A} (status : Z) : M kern A :=
  p <-! exit_upto status ;;
  sleep_on ("exit"%string, p).

(** The scan for exited children: [inl] the value [wait] returns, [inr]
    [havekids]. *)
Fixpoint wait_scan (l : list Z) (p addr : Z) (havekids : bool) : M kern (Z + bool) :=
  match l with
  | [] => ret (inr havekids)
  | pp :: l' =>
      q <-! getp pp ;;
      if bool_decide (p_parent q = Some p) then
        acq (p_lens pp) ;;;
        q <-! getp pp ;;
        if bool_decide (p_state q = ZOMBIE) then
          c <-! (if negb (addr =? 0) then ucopyout addr (le_bytes 4 (p_xstate q)) else ret 0) ;;
          if c <? 0 then
            rel (p_lens pp) ;;; rel wait_lens ;;; ret (inl (-1))
          else
            freeproc pp ;;;
            rel (p_lens pp) ;;; rel wait_lens ;;; ret (inl (p_pid q))
        else rel (p_lens pp) ;;; wait_scan l' p addr true
      else wait_scan l' p addr havekids
  end.
(** One round of the loop of [wait], with [wait_lock] held. *)
Definition wait_round (p addr : Z) : M kern Z :=
  r <-! wait_scan (upto NPROC) p addr false ;;
  match r with
  | inl v => ret v
  | inr havekids =>
      k <-! (if (havekids : bool) then killed p else ret 1) ;;
      if negb (k =? 0) then rel wait_lens ;;; ret (-1)
      else ksleep (ch_proc (Some p)) wait_lens
  end.
Definition wait (addr : Z) : M kern Z :=
  p <-! myproc ;;
  acq wait_lens ;;;
  wait_round p addr.
End Life.
