(* ===== verification/Exec.v ===== *)
(** * System call arguments (kernel/syscall.c) and [exec] (kernel/exec.c) *)

From S2P Require Import Prelude Memory Riscv Spinlock Kalloc Vm Bio Log Txn Fs Kern Proc Pipe File.

Definition MAXARG : Z := 32.
Definition MAXPATH : Z := 128.
Definition ELF_MAGIC : Z := 0x464C457F.
Definition ELF_PROG_LOAD : Z := 1.
Definition sizeof_elfhdr : Z := 64.
Definition sizeof_proghdr : Z := 56.

(** kernel/elf.h; of [struct elfhdr] the fields that are used. *)
Record elfhdr := Elfhdr { e_magic : Z; e_entry : Z; e_phoff : Z; e_phnum : Z }.
Record proghdr := Proghdr { ph_type : Z; ph_flags : Z; ph_off : Z; ph_vaddr : Z; ph_paddr : Z; ph_filesz : Z; ph_memsz : Z; ph_align : Z }.
(** The structs as they lie in memory at [a]. *)
Definition load_elfhdr (m : mem) (a : Z) : elfhdr :=
  Elfhdr (ldn 4 m a) (ldn 8 m (a + 24)) (ldn 8 m (a + 32)) (ldn 2 m (a + 56)).
Definition load_proghdr (m : mem) (a : Z) : proghdr :=
  Proghdr (ldn 4 m a) (ldn 4 m (a + 4)) (ldn 8 m (a + 8)) (ldn 8 m (a + 16)) (ldn 8 m (a + 24)) (ldn 8 m (a + 32))
    (ldn 8 m (a + 40)) (ldn 8 m (a + 48)).

(** Where the locals [elf] and [ph] of [exec] are. *)
Class ExecFrame := { elf_addr : Z; ph_addr : Z }.

Section Args.
Context `{HC : Ctx} `{HI : Image} `{HF : Frame} `{HS : Syms}.

(** The value stored at [*ip], when [fetchaddr] returns 0. *)
Definition fetchaddr (addr : Z) : M kern (option Z) :=
  p <-! myproc ;;
  pr <-! getp p ;;
  if (p_sz pr <=? addr) || (p_sz pr <? u64 (addr + 8)) then ret None
  else
    r <-! vm (copyin (p_pagetable pr) addr 8) ;;
    ret (if negb (r.1 =? 0) then None else Some (ldn 8 (write_bytes ∅ 0 r.2) 0)).

(** The bytes [copyinstr] put into [buf], with the result of [fetchstr]: the
    length of the string there, or -1. *)
Definition fetchstr_buf (addr max : Z) : M kern (Z * list Z) :=
  p <-! myproc ;;
  pr <-! getp p ;;
  r <-! vm (copyinstr (p_pagetable pr) addr max) ;;
  ret (if r.1 <? 0 then -1 else Z.of_nat (length (upto_nul (length r.2) r.2)), r.2).
(** The string without its NUL, when the result is not -1. *)
Definition fetchstr (addr max : Z) : M kern (option (list Z)) :=
  r <-! fetchstr_buf addr max ;;
  ret (if r.1 <? 0 then None else Some (take (Z.to_nat r.1) r.2)).

Definition argraw (n : Z) : M kern Z :=
  p <-! myproc ;;
  match n with
  | 0 => get_tf p TF_a0
  | 1 => get_tf p TF_a1
  | 2 => get_tf p TF_a2
  | 3 => get_tf p TF_a3
  | 4 => get_tf p TF_a4
  | 5 => get_tf p TF_a5
  | _ => panic "argraw"
  end.
Definition argint (n : Z) : M kern Z := v <-! argraw n ;; ret (i32 v).
Definition argaddr (n : Z) : M kern Z := argraw n.
Definition argstr (n max : Z) : M kern (option (list Z)) :=
  addr <-! argaddr n ;; fetchstr addr max.
End Args.

Definition flags2perm (flags : Z) : Z :=
  let perm := if negb (Z.land flags 1 =? 0) then PTE_X else 0 in
  if negb (Z.land flags 2 =? 0) then Z.lor perm PTE_W else perm.

Section Exec.
Context `{HC : Ctx} `{HI : Image} `{HF : Frame} `{HS : Syms} `{HE : ExecFrame}.

Definition get_elf : M kern elfhdr := gets (fun s => load_elfhdr (k_mem (lget mem_lens s)) elf_addr).
Definition get_ph : M kern proghdr := gets (fun s => load_proghdr (k_mem (lget mem_lens s)) ph_addr).

Fixpoint loadseg_loop (fuel : nat) (pagetable va ip offset sz i : Z) : M kern Z :=
  match fuel with
  | O => diverge
  | S fuel' =>
      if i <? sz then
        pa <-! vm (walkaddr pagetable (u64 (va + i))) ;;
        panic_if (pa =? 0) "loadseg: address should exist" ;;;
        let n := if sz - i <? PGSIZE then sz - i else PGSIZE in
        r <-! fsop (readi ip false pa (u32 (offset + i)) n) ;;
        if negb (r =? n) then ret (-1)
        else loadseg_loop fuel' pagetable va ip offset sz (u32 (i + PGSIZE))
      else ret 0
  end.
Definition loadseg (pagetable va ip offset sz : Z) : M kern Z :=
  loadseg_loop (S (S (Z.to_nat (sz / PGSIZE)))) pagetable va ip offset sz 0.

(** [bad:] with the values of [pagetable], [sz] and [ip]. *)
Definition exec_bad (pagetable sz : Z) (ip : option Z) : M kern Z :=
  when (negb (pagetable =? 0)) (vm (proc_freepagetable pagetable sz)) ;;;
  (match ip with Some ip => fsop (iunlockput ip) ;;; kend_op | None => ret tt end) ;;;
  ret (-1).

(** The loop over the program headers from number [i]: [sz] at the end, and
    whether it left with [goto bad]. *)
Fixpoint exec_load (fuel : nat) (pagetable ip i off sz : Z) : M kern (bool * Z) :=
  match fuel with
  | O => diverge
  | S fuel' =>
      elf <-! get_elf ;;
      if i <? e_phnum elf then
        r <-! fsop (readi ip false ph_addr (u32 off) sizeof_proghdr) ;;
        if negb (r =? sizeof_proghdr) then ret (false, sz) else
        ph <-! get_ph ;;
        if negb (ph_type ph =? ELF_PROG_LOAD)
        then exec_load fuel' pagetable ip (i + 1) (i32 (off + sizeof_proghdr)) sz else
        if ph_memsz ph <? ph_filesz ph then ret (false, sz)
        else if u64 (ph_vaddr ph + ph_memsz ph) <? ph_vaddr ph then ret (false, sz)
        else if negb (ph_vaddr ph mod PGSIZE =? 0) then ret (false, sz)
        else
          sz1 <-! vm (uvmalloc pagetable sz (u64 (ph_vaddr ph + ph_memsz ph)) (flags2perm (i32 (ph_flags ph)))) ;;
          if sz1 =? 0 then ret (false, sz) else
          r <-! loadseg pagetable (ph_vaddr ph) ip (u32 (ph_off ph)) (u32 (ph_filesz ph)) ;;
          if r <? 0 then ret (false, sz1)
          else exec_load fuel' pagetable ip (i + 1) (i32 (off + sizeof_proghdr)) sz1
      else ret (true, sz)
  end.

(** The NUL-terminated string at a kernel address. *)
Definition kstrlen (a : Z) : M kern Z := fun s =>
  match strlen (Z.to_nat PGSIZE) (k_mem (lget mem_lens s)) a with
  | Some n => Done n s
  | None => Diverge
  end.
Definition argv_get (argv : list Z) (i : Z) : M kern Z := fun s =>
  match argv !! Z.to_nat i with Some a => Done a s | None => Undef end.

(** The loop that pushes the argument strings, from [argc]; the result is
    [sp] and the [ustack] filled so far, or [None] after [goto bad]. *)
Fixpoint exec_push (fuel : nat) (pagetable stackbase : Z) (argv : list Z) (argc sp : Z) (ustack : list Z)
  : M kern (option (Z * list Z)) :=
  match fuel with
  | O => diverge
  | S fuel' =>
      a <-! argv_get argv argc ;;
      if a =? 0 then ret (Some (sp, ustack))
      else if MAXARG <=? argc then ret None
      else
        len <-! kstrlen a ;;
        let sp := u64 (sp - (len + 1)) in
        let sp := sp - sp mod 16 in
        if sp <? stackbase then ret None else
        bs <-! gets (fun s => read_bytes (k_mem (lget mem_lens s)) a (Z.to_nat (len + 1))) ;;
        r <-! vm (copyout pagetable sp bs) ;;
        if r <? 0 then ret None
        else exec_push fuel' pagetable stackbase argv (argc + 1) sp (ustack ++ [sp])
  end.

(** [for(last=s=path; *s; s++) if( *s == '/') last = s+1;] *)
Fixpoint last_elem (last path : list Z) : list Z :=
  match path with
  | [] => last
  | c :: path' => last_elem (if c =? SLASH then path' else last) path'
  end.

(** From [p = myproc();] on, with the program loaded. *)
Definition exec_stack (path : list Z) (argv : list Z) (pagetable sz : Z) : M kern Z :=
  p <-! myproc ;;
  pr <-! getp p ;;
  let oldsz := p_sz pr in
  let sz := PGROUNDUP sz in
  sz1 <-! vm (uvmalloc pagetable sz (u64 (sz + 2 * PGSIZE)) PTE_W) ;;
  if sz1 =? 0 then exec_bad pagetable sz None else
  let sz := sz1 in
  vm (uvmclear pagetable (u64 (sz - 2 * PGSIZE))) ;;;
  let stackbase := u64 (sz - PGSIZE) in
  r <-! exec_push (S (length argv)) pagetable stackbase argv 0 sz [] ;;
  match r with
  | None => exec_bad pagetable sz None
  | Some (sp, ustack) =>
      let argc := Z.of_nat (length ustack) in
      if MAXARG <=? argc then undef else
      let sp := u64 (sp - (argc + 1) * 8) in
      let sp := sp - sp mod 16 in
      if sp <? stackbase then exec_bad pagetable sz None else
      r <-! vm (copyout pagetable sp (mjoin (le_bytes 8 <$> (ustack ++ [0])))) ;;
      if r <? 0 then exec_bad pagetable sz None else
      set_tf p TF_a1 sp ;;;
      setp p (fun q => set_name (safestrcpy_bytes sizeof_name (last_elem path path ++ [0]) (p_name q)) q) ;;;
      pr <-! getp p ;;
      let oldpagetable := p_pagetable pr in
      setp p (set_pagetable pagetable) ;;;
      setp p (set_sz sz) ;;;
      elf <-! get_elf ;;
      set_tf p TF_epc (e_entry elf) ;;;
      set_tf p TF_sp sp ;;;
      vm (proc_freepagetable oldpagetable oldsz) ;;;
      ret argc
  end.

Definition exec (path : list Z) (argv : list Z) : M kern Z :=
  p <-! myproc ;;
  kbegin_op ;;;
  r <-! fsop (namei path) ;;
  match r with
  | None => kend_op ;;; ret (-1)
  | Some ip =>
      fsop (ilock ip) ;;;
      r <-! fsop (readi ip false elf_addr 0 sizeof_elfhdr) ;;
      if negb (r =? sizeof_elfhdr) then exec_bad 0 0 (Some ip) else
      elf <-! get_elf ;;
      if negb (e_magic elf =? ELF_MAGIC) then exec_bad 0 0 (Some ip) else
      pr <-! getp p ;;
      pagetable <-! vm (proc_pagetable (p_trapframe pr)) ;;
      if pagetable =? 0 then exec_bad 0 0 (Some ip) else
      elf <-! get_elf ;;
      r <-! exec_load (S (Z.to_nat (e_phnum elf))) pagetable ip 0 (i32 (e_phoff elf)) 0 ;;
      if negb r.1 then exec_bad pagetable r.2 (Some ip) else
      fsop (iunlockput ip) ;;;
      kend_op ;;;
      exec_stack path argv pagetable r.2
  end.
End Exec.
