(* ===== verification/Sysfile.v ===== *)
(** * File system calls: kernel/sysfile.c

    The parts that only use the file system ([isdirempty], [create] and what
    [sys_link] and [sys_unlink] do between [begin_op] and [end_op]) are
    functions on its state; the system calls fetch their arguments and open
    and close transactions around them. *)

From S2P Require Import Prelude Memory Riscv Spinlock Kalloc Vm Bio Log Txn Fs Kern Proc Pipe File Exec.

Definition O_RDONLY : Z := 0x000.
Definition O_WRONLY : Z := 0x001.
Definition O_RDWR : Z := 0x002.
Definition O_CREATE : Z := 0x200.
Definition O_TRUNC : Z := 0x400.

Definition flag (omode f : Z) : bool := negb (Z.land omode f =? 0).

(** The names "." and ".." *)
Definition DOT : list Z := [46].
Definition DOTDOT : list Z := [46; 46].
(** A local [char name[DIRSIZ]] before it is written. *)
Definition name0 : list Z := replicate (Z.to_nat DIRSIZ) 0.

Section SysFs.
Context `{HC : Ctx} `{HI : Image} `{HF : Frame} {S : Type} `{HT : Txn S}.
Notation fs := (fsst S).

Fixpoint isdirempty_loop (fuel : nat) (dp off : Z) : M fs bool :=
  match fuel with
  | O => diverge
  | Datatypes.S fuel' =>
      p <-! geti dp ;;
      if off <? i_size p then
        r <-! readi dp false local_addr off DESIZE ;;
        panic_if (negb (r =? DESIZE)) "isdirempty: readi" ;;;
        inum <-! de_inum ;;
        if negb (inum =? 0) then ret false else isdirempty_loop fuel' dp (off + DESIZE)
      else ret true
  end.
Definition isdirempty (dp : Z) : M fs bool :=
  p <-! geti dp ;; isdirempty_loop (Z.to_nat (i_size p / DESIZE + 2)) dp (2 * DESIZE).

(** [bad:] of [sys_link] *)
Definition link_bad (ip : Z) : M fs bool :=
  ilock ip ;;;
  seti ip (fun p => ino_nlink (i_nlink p - 1) p) ;;;
  iupdate ip ;;;
  iunlockput ip ;;;
  ret false.
Definition link (old new : list Z) : M fs bool :=
  r <-! namei old ;;
  match r with
  | None => ret false
  | Some ip =>
      ilock ip ;;;
      p <-! geti ip ;;
      if i_type p =? T_DIR then iunlockput ip ;;; ret false
      else
        seti ip (fun p => ino_nlink (i_nlink p + 1) p) ;;;
        iupdate ip ;;;
        iunlock ip ;;;
        r <-! nameiparent new name0 ;;
        match r with
        | (None, _) => link_bad ip
        | (Some dp, name) =>
            ilock dp ;;;
            pd <-! geti dp ;;
            p <-! geti ip ;;
            r <-! (if negb (i_dev pd =? i_dev p) then ret (-1) else dirlink dp name (i_inum p)) ;;
            if r <? 0 then iunlockput dp ;;; link_bad ip
            else iunlockput dp ;;; iput ip ;;; ret true
        end
  end.

Definition unlink (path : list Z) : M fs bool :=
  r <-! nameiparent path name0 ;;
  match r with
  | (None, _) => ret false
  | (Some dp, name) =>
      ilock dp ;;;
      if (namecmp name DOT =? 0) || (namecmp name DOTDOT =? 0) then iunlockput dp ;;; ret false else
      r <-! dirlookup dp name ;;
      match r with
      | None => iunlockput dp ;;; ret false
      | Some (ip, off) =>
          ilock ip ;;;
          p <-! geti ip ;;
          panic_if (i_nlink p <? 1) "unlink: nlink < 1" ;;;
          full <-! (if i_type p =? T_DIR then e <-! isdirempty ip ;; ret (negb e) else ret false) ;;
          if (full : bool) then iunlockput ip ;;; iunlockput dp ;;; ret false
          else
            set_de 0 (replicate (Z.to_nat DIRSIZ) 0) ;;;
            w <-! writei dp false local_addr off DESIZE ;;
            panic_if (negb (w =? DESIZE)) "unlink: writei" ;;;
            p <-! geti ip ;;
            when (i_type p =? T_DIR)
              (seti dp (fun p => ino_nlink (i_nlink p - 1) p) ;;; iupdate dp) ;;;
            iunlockput dp ;;;
            seti ip (fun p => ino_nlink (i_nlink p - 1) p) ;;;
            iupdate ip ;;;
            iunlockput ip ;;;
            ret true
      end
  end.

(** [fail:] of [create] *)
Definition create_fail (ip dp : Z) : M fs (option Z) :=
  seti ip (ino_nlink 0) ;;;
  iupdate ip ;;;
  iunlockput ip ;;;
  iunlockput dp ;;;
  ret None.
Definition create (path : list Z) (type major minor : Z) : M fs (option Z) :=
  r <-! nameiparent path name0 ;;
  match r with
  | (None, _) => ret None
  | (Some dp, name) =>
      ilock dp ;;;
      r <-! dirlookup dp name ;;
      match r with
      | Some (ip, _) =>
          iunlockput dp ;;;
          ilock ip ;;;
          p <-! geti ip ;;
          if (type =? T_FILE) && ((i_type p =? T_FILE) || (i_type p =? T_DEVICE)) then ret (Some ip)
          else iunlockput ip ;;; ret None
      | None =>
          pd <-! geti dp ;;
          r <-! ialloc (i_dev pd) type ;;
          match r with
          | None => iunlockput dp ;;; ret None
          | Some ip =>
              ilock ip ;;;
              seti ip (ino_majmin (i16 major) (i16 minor)) ;;;
              seti ip (ino_nlink 1) ;;;
              iupdate ip ;;;
              p <-! geti ip ;;
              ok <-! (if type =? T_DIR then
                        r <-! dirlink ip DOT (i_inum p) ;;
                        if r <? 0 then ret false else
                        pd <-! geti dp ;;
                        r <-! dirlink ip DOTDOT (i_inum pd) ;;
                        ret (negb (r <? 0))
                      else ret true) ;;
              if negb ok then create_fail ip dp else
              p <-! geti ip ;;
              r <-! dirlink dp name (i_inum p) ;;
              if r <? 0 then create_fail ip dp
              else
                when (type =? T_DIR)
                  (seti dp (fun p => ino_nlink (i_nlink p + 1) p) ;;; iupdate dp) ;;;
                iunlockput dp ;;;
                ret (Some ip)
          end
      end
  end.
End SysFs.

Section Sysfile.
Context `{HC : Ctx} `{HI : Image} `{HF : Frame} `{HS : Syms} `{HD : Devs} `{HE : ExecFrame}.

(** The descriptor and the file it stands for. *)
Definition argfd (n : Z) : M kern (option (Z * Z)) :=
  fd <-! argint n ;;
  if (fd <? 0) || (NOFILE <=? fd) then ret None
  else
    p <-! myproc ;;
    pr <-! getp p ;;
    match p_ofile pr !! Z.to_nat fd with
    | Some (Some f) => ret (Some (fd, f))
    | Some None => ret None
    | None => undef
    end.

Definition set_fd (p fd : Z) (f : option Z) : M kern unit :=
  setp p (fun q => set_ofile (<[Z.to_nat fd := f]> (p_ofile q)) q).
Fixpoint fdalloc_loop (l : list Z) (p f : Z) : M kern Z :=
  match l with
  | [] => ret (-1)
  | fd :: l' =>
      pr <-! getp p ;;
      match p_ofile pr !! Z.to_nat fd with
      | Some None => set_fd p fd (Some f) ;;; ret fd
      | Some (Some _) => fdalloc_loop l' p f
      | None => undef
      end
  end.
Definition fdalloc (f : Z) : M kern Z :=
  p <-! myproc ;; fdalloc_loop (upto NOFILE) p f.

Definition sys_dup : M kern Z :=
  r <-! argfd 0 ;;
  match r with
  | None => ret (-1)
  | Some (_, f) =>
      fd <-! fdalloc f ;;
      if fd <? 0 then ret (-1) else _ <-! filedup f ;; ret fd
  end.

Definition sys_read : M kern Z :=
  p <-! argaddr 1 ;;
  n <-! argint 2 ;;
  r <-! argfd 0 ;;
  match r with None => ret (-1) | Some (_, f) => fileread f p n end.

Definition sys_write : M kern Z :=
  p <-! argaddr 1 ;;
  n <-! argint 2 ;;
  r <-! argfd 0 ;;
  match r with None => ret (-1) | Some (_, f) => filewrite f p n end.

Definition sys_close : M kern Z :=
  r <-! argfd 0 ;;
  match r with
  | None => ret (-1)
  | Some (fd, f) =>
      p <-! myproc ;;
      set_fd p fd None ;;;
      fileclose f ;;;
      ret 0
  end.

Definition sys_fstat : M kern Z :=
  st <-! argaddr 1 ;;
  r <-! argfd 0 ;;
  match r with None => ret (-1) | Some (_, f) => filestat f st end.

Definition sys_link : M kern Z :=
  old <-! argstr 0 MAXPATH ;;
  match old with
  | None => ret (-1)
  | Some old =>
      new <-! argstr 1 MAXPATH ;;
      match new with
      | None => ret (-1)
      | Some new =>
          kbegin_op ;;;
          ok <-! fsop (link old new) ;;
          kend_op ;;;
          ret (if (ok : bool) then 0 else -1)
      end
  end.

Definition sys_unlink : M kern Z :=
  path <-! argstr 0 MAXPATH ;;
  match path with
  | None => ret (-1)
  | Some path =>
      kbegin_op ;;;
      ok <-! fsop (unlink path) ;;
      kend_op ;;;
      ret (if (ok : bool) then 0 else -1)
  end.

(** From [if(ip->type == T_DEVICE && ...)] on, with [ip] locked. *)
Definition open_inode (ip omode : Z) : M kern Z :=
  p <-! fsop (geti ip) ;;
  if (i_type p =? T_DEVICE) && ((i_major p <? 0) || (NDEV <=? i_major p))
  then fsop (iunlockput ip) ;;; kend_op ;;; ret (-1) else
  r <-! filealloc ;;
  match r with
  | None => fsop (iunlockput ip) ;;; kend_op ;;; ret (-1)
  | Some f =>
      fd <-! fdalloc f ;;
      if fd <? 0 then fileclose f ;;; fsop (iunlockput ip) ;;; kend_op ;;; ret (-1)
      else
        (if i_type p =? T_DEVICE
         then setf f (set_f_type FD_DEVICE) ;;; setf f (set_f_major (i_major p))
         else setf f (set_f_type FD_INODE) ;;; setf f (set_f_off 0)) ;;;
        setf f (set_f_ip ip) ;;;
        setf f (set_f_readable (negb (flag omode O_WRONLY))) ;;;
        setf f (set_f_writable (flag omode O_WRONLY || flag omode O_RDWR)) ;;;
        when (flag omode O_TRUNC && (i_type p =? T_FILE)) (fsop (itrunc ip)) ;;;
        fsop (iunlock ip) ;;;
        kend_op ;;;
        ret fd
  end.
Definition sys_open : M kern Z :=
  omode <-! argint 1 ;;
  path <-! argstr 0 MAXPATH ;;
  match path with
  | None => ret (-1)
  | Some path =>
      kbegin_op ;;;
      if flag omode O_CREATE then
        r <-! fsop (create path T_FILE 0 0) ;;
        match r with
        | None => kend_op ;;; ret (-1)
        | Some ip => open_inode ip omode
        end
      else
        r <-! fsop (namei path) ;;
        match r with
        | None => kend_op ;;; ret (-1)
        | Some ip =>
            fsop (ilock ip) ;;;
            p <-! fsop (geti ip) ;;
            if (i_type p =? T_DIR) && negb (omode =? O_RDONLY)
            then fsop (iunlockput ip) ;;; kend_op ;;; ret (-1)
            else open_inode ip omode
        end
  end.

(** What [sys_mkdir] and [sys_mknod] do with their path. *)
Definition make (path : option (list Z)) (type major minor : Z) : M kern Z :=
  r <-! (match path with Some path => fsop (create path type major minor) | None => ret None end) ;;
  match r with
  | None => kend_op ;;; ret (-1)
  | Some ip => fsop (iunlockput ip) ;;; kend_op ;;; ret 0
  end.
Definition sys_mkdir : M kern Z :=
  kbegin_op ;;;
  path <-! argstr 0 MAXPATH ;;
  make path T_DIR 0 0.

Definition sys_mknod : M kern Z :=
  kbegin_op ;;;
  major <-! argint 1 ;;
  minor <-! argint 2 ;;
  path <-! argstr 0 MAXPATH ;;
  make path T_DEVICE major minor.

Definition sys_chdir : M kern Z :=
  p <-! myproc ;;
  kbegin_op ;;;
  path <-! argstr 0 MAXPATH ;;
  r <-! (match path with Some path => fsop (namei path) | None => ret None end) ;;
  match r with
  | None => kend_op ;;; ret (-1)
  | Some ip =>
      fsop (ilock ip) ;;;
      q <-! fsop (geti ip) ;;
      if negb (i_type q =? T_DIR) then fsop (iunlockput ip) ;;; kend_op ;;; ret (-1)
      else
        fsop (iunlock ip) ;;;
        pr <-! getp p ;;
        (match p_cwd pr with Some cwd => fsop (iput cwd) | None => undef end) ;;;
        kend_op ;;;
        setp p (set_cwd (Some ip)) ;;;
        ret 0
  end.

(** The loop of [sys_exec] that fetches the arguments, from [i]: [argv] so
    far, and whether it left with [goto bad]. *)
Fixpoint exec_args (fuel : nat) (uargv i : Z) (argv : list Z) : M kern (bool * list Z) :=
  match fuel with
  | O => diverge
  | S fuel' =>
      if MAXARG <=? i then ret (false, argv) else
      r <-! fetchaddr (u64 (uargv + 8 * i)) ;;
      match r with
      | None => ret (false, argv)
      | Some uarg =>
          if uarg =? 0 then ret (true, argv) else
          pa <-! vm kalloc ;;
          if pa =? 0 then ret (false, argv) else
          r <-! fetchstr_buf uarg PGSIZE ;;
          vm (modify (fun k => set_mem (write_bytes (k_mem k) pa r.2) k)) ;;;
          if r.1 <? 0 then ret (false, argv ++ [pa])
          else exec_args fuel' uargv (i + 1) (argv ++ [pa])
      end
  end.
Definition sys_exec : M kern Z :=
  uargv <-! argaddr 1 ;;
  path <-! argstr 0 MAXPATH ;;
  match path with
  | None => ret (-1)
  | Some path =>
      r <-! exec_args (S (Z.to_nat MAXARG)) uargv 0 [] ;;
      v <-! (if r.1 then exec path (r.2 ++ replicate (Z.to_nat MAXARG - length r.2) 0) else ret (-1)) ;;
      for_each r.2 (fun pa => vm (kfree pa)) ;;;
      ret v
  end.

Definition sys_pipe : M kern Z :=
  p <-! myproc ;;
  fdarray <-! argaddr 0 ;;
  r <-! pipealloc ;;
  match r with
  | None => ret (-1)
  | Some (rf, wf) =>
      fd0 <-! fdalloc rf ;;
      fd1 <-! (if fd0 <? 0 then ret (-1) else fdalloc wf) ;;
      if fd1 <? 0 then
        when (0 <=? fd0) (set_fd p fd0 None) ;;;
        fileclose rf ;;; fileclose wf ;;; ret (-1)
      else
        c <-! ucopyout fdarray (le_bytes 4 fd0) ;;
        c <-! (if c <? 0 then ret c else ucopyout (u64 (fdarray + 4)) (le_bytes 4 fd1)) ;;
        if c <? 0 then
          set_fd p fd0 None ;;; set_fd p fd1 None ;;;
          fileclose rf ;;; fileclose wf ;;; ret (-1)
        else ret 0
  end.
End Sysfile.
