(* ===== verification/Printf.v ===== *)
(** * Kernel output: kernel/uart.c, kernel/printf.c, [consputc] of
    kernel/console.c and [procdump] of kernel/proc.c

    The device's registers are inputs of a run: [ua_lsr] lists the values the
    next reads of the line status register return (0, that is busy and no
    input, once the list is used up), [ua_rhr] those of the receive register.
    Bytes sent are the writes to [THR]. *)

From S2P Require Import Prelude Memory Riscv Spinlock Kalloc Vm Bio Log Txn Fs Kern Proc.

Definition RHR : Z := 0.
Definition THR : Z := 0.
Definition IER : Z := 1.
Definition FCR : Z := 2.
Definition LCR : Z := 3.
Definition LSR_RX_READY : Z := 1.
Definition LSR_TX_IDLE : Z := 32.
Definition UART_TX_BUF_SIZE : Z := 32.
Definition BACKSPACE : Z := 0x100.

Definition str (s : string) : list Z := (fun c => Z.of_nat (Ascii.nat_of_ascii c)) <$> String.list_ascii_of_string s.
Definition NL : Z := 10.

Section Uart.
Context `{HC : Ctx} `{HI : Image} `{HF : Frame} `{HS : Syms}.

Definition updu (f : uart -> uart) : M kern unit := modify (fun s => set_uart (f (kn_uart s)) s).
Definition WriteReg (reg v : Z) : M kern unit :=
  updu (fun u => set_ua_wr (ua_wr u ++ [(reg, u8 v)]) u).
Definition ReadLSR : M kern Z :=
  u <-! gets kn_uart ;;
  updu (set_ua_lsr (tl (ua_lsr u))) ;;;
  ret (hd 0 (ua_lsr u)).
Definition ReadRHR : M kern Z :=
  u <-! gets kn_uart ;;
  updu (set_ua_rhr (tl (ua_rhr u))) ;;;
  ret (hd 0 (ua_rhr u)).

Definition uartinit : M kern unit :=
  WriteReg IER 0x00 ;;;
  WriteReg LCR 0x80 ;;;
  WriteReg 0 0x03 ;;;
  WriteReg 1 0x00 ;;;
  WriteReg LCR 3 ;;;
  WriteReg FCR (Z.lor 1 6) ;;;
  WriteReg IER (Z.lor 2 1) ;;;
  updu (set_ua_lock (initlock "uart")).

(** [sleep] channel [&uart_tx_r] *)
Definition ch_uart : chan := ("uart_tx_r"%string, 0).

(** Each round but the last reads the status register. *)
Fixpoint uartstart_loop (fuel : nat) : M kern unit :=
  match fuel with
  | O => diverge
  | S fuel' =>
      u <-! gets kn_uart ;;
      if ua_w u =? ua_r u then ret tt else
      lsr <-! ReadLSR ;;
      if Z.land lsr LSR_TX_IDLE =? 0 then ret tt else
      let c := nth (Z.to_nat (ua_r u mod UART_TX_BUF_SIZE)) (ua_buf u) 0 in
      updu (fun u => set_ua_r (u64 (ua_r u + 1)) u) ;;;
      wakeup ch_uart ;;;
      WriteReg THR c ;;;
      uartstart_loop fuel'
  end.
Definition uartstart : M kern unit :=
  u <-! gets kn_uart ;; uartstart_loop (length (ua_lsr u) + 2).

Definition uartputc (c : Z) : M kern unit :=
  acq ua_lens ;;;
  pk <-! gets kn_panicked ;;
  if (pk : bool) then diverge else
  u <-! gets kn_uart ;;
  if ua_w u =? u64 (ua_r u + UART_TX_BUF_SIZE) then ksleep ch_uart ua_lens else
  updu (fun u => set_ua_buf (<[Z.to_nat (ua_w u mod UART_TX_BUF_SIZE) := u8 c]> (ua_buf u)) u) ;;;
  updu (fun u => set_ua_w (u64 (ua_w u + 1)) u) ;;;
  uartstart ;;;
  rel ua_lens.

(** [while((ReadReg(LSR) & LSR_TX_IDLE) == 0) ;] *)
Fixpoint tx_spin (fuel : nat) : M kern unit :=
  match fuel with
  | O => diverge
  | S fuel' => lsr <-! ReadLSR ;; if Z.land lsr LSR_TX_IDLE =? 0 then tx_spin fuel' else ret tt
  end.
Definition uartputc_sync (c : Z) : M kern unit :=
  lift cpu_lens (modify push_off) ;;;
  pk <-! gets kn_panicked ;;
  if (pk : bool) then diverge else
  u <-! gets kn_uart ;;
  tx_spin (length (ua_lsr u)) ;;;
  WriteReg THR c ;;;
  lift cpu_lens pop_off.

Definition uartgetc : M kern Z :=
  lsr <-! ReadLSR ;;
  if negb (Z.land lsr 1 =? 0) then ReadRHR else ret (-1).

Definition consputc (c : Z) : M kern unit :=
  if c =? BACKSPACE then uartputc_sync 8 ;;; uartputc_sync 32 ;;; uartputc_sync 8
  else uartputc_sync c.

(** ** kernel/printf.c *)

Definition digits : list Z := str "0123456789abcdef".
Definition digit (d : Z) : Z := nth (Z.to_nat d) digits 0.

(** [do { buf[i++] = digits[x % base]; } while((x /= base) != 0);], the bytes
    in [buf] in order. *)
Fixpoint print_digits (fuel : nat) (x base : Z) : option (list Z) :=
  match fuel with
  | O => None
  | S fuel' =>
      let x' := x / base in
      if x' =? 0 then Some [digit (x mod base)]
      else ds ← print_digits fuel' x' base; Some (digit (x mod base) :: ds)
  end.
(** [buf] has 16 bytes. *)
Definition printint_buf (xx base : Z) (sign : bool) : option (list Z) :=
  let neg := sign && (xx <? 0) in
  let x := if neg then u32 (- xx) else u32 xx in
  ds ← print_digits 16 x base;
  let buf := if neg then ds ++ [45] else ds in
  if decide (length buf <= 16)%nat then Some buf else None.
Definition printint (xx base : Z) (sign : bool) : M kern unit :=
  match printint_buf xx base sign with
  | Some buf => for_each (rev buf) consputc
  | None => undef
  end.

(** [for(i = 0; i < 16; i++, x <<= 4) consputc(digits[x >> 60]);] *)
Fixpoint ptr_digits (n : nat) (x : Z) : list Z :=
  match n with
  | O => []
  | S n' => digit (Z.shiftr x 60) :: ptr_digits n' (u64 (Z.shiftl x 4))
  end.
Definition printptr (x : Z) : M kern unit :=
  consputc 48 ;;;
  consputc 120 ;;;
  for_each (ptr_digits 16 x) consputc.

(** The arguments of a call. *)
Inductive varg := AInt (xx : Z) | APtr (x : Z) | AStr (s : option (list Z)).

Fixpoint printf_loop (fmt : list Z) (ap : list varg) : M kern unit :=
  match fmt with
  | [] => ret tt
  | c :: fmt' =>
      if negb (c =? 37) then consputc c ;;; printf_loop fmt' ap
      else match fmt' with
           | [] => ret tt
           | c :: fmt'' =>
               if c =? 100 then
                 match ap with AInt x :: ap' => printint x 10 true ;;; printf_loop fmt'' ap' | _ => undef end
               else if c =? 120 then
                 match ap with AInt x :: ap' => printint x 16 true ;;; printf_loop fmt'' ap' | _ => undef end
               else if c =? 112 then
                 match ap with APtr x :: ap' => printptr x ;;; printf_loop fmt'' ap' | _ => undef end
               else if c =? 115 then
                 match ap with
                 | AStr s :: ap' => for_each (default (str "(null)") s) consputc ;;; printf_loop fmt'' ap'
                 | _ => undef
                 end
               else if c =? 37 then consputc 37 ;;; printf_loop fmt'' ap
               else consputc 37 ;;; consputc c ;;; printf_loop fmt'' ap
           end
  end.
(** [fmt] and the strings are without their NUL. *)
Definition printf (fmt : list Z) (ap : list varg) : M kern unit :=
  pr <-! gets kn_pr ;;
  let locking := pr_locking pr in
  when locking (acq pr_lens) ;;;
  printf_loop fmt ap ;;;
  when locking (rel pr_lens).

Definition printfinit : M kern unit :=
  modify (fun s => set_pr (Printlock (initlock "pr") true) s).

(** What [panic] prints before it stops. *)
Definition panic_print (s : list Z) : M kern unit :=
  modify (fun k => set_pr (Printlock (pr_lock (kn_pr k)) false) k) ;;;
  printf (str "panic: ") [] ;;;
  printf s [] ;;;
  printf [NL] [] ;;;
  modify (set_panicked true).

(** ** [procdump] *)

Definition state_name (st : procstate) : list Z :=
  match st with
  | UNUSED => str "unused"
  | USED => str "used"
  | SLEEPING => str "sleep "
  | RUNNABLE => str "runble"
  | RUNNING => str "run   "
  | ZOMBIE => str "zombie"
  end.
Definition procdump : M kern unit :=
  printf [NL] [] ;;;
  for_each (upto NPROC) (fun p =>
    pr <-! getp p ;;
    if bool_decide (p_state pr = UNUSED) then ret tt
    else
      printf (str "%d %s %s")
        [AInt (p_pid pr); AStr (Some (state_name (p_state pr)));
         AStr (Some (upto_nul (length (p_name pr)) (p_name pr)))] ;;;
      printf [NL] []).
End Uart.
