(* ===== verification/Console.v ===== *)
(** * The console: kernel/console.c, and [uartintr] of kernel/uart.c *)

From S2P Require Import Prelude Memory Riscv Spinlock Kalloc Vm Bio Log Txn Fs Kern Proc Pipe File Printf.

Definition INPUT_BUF_SIZE : Z := 128.
Definition CONSOLE : Z := 1.
(** Control-P, -U, -H, -D and Delete *)
Definition CTRL_P : Z := 16.
Definition CTRL_U : Z := 21.
Definition CTRL_H : Z := 8.
Definition CTRL_D : Z := 4.
Definition DEL : Z := 127.
Definition CR : Z := 13.

Definition cn_at (c : console) (i : Z) : Z := nth (Z.to_nat (i mod INPUT_BUF_SIZE)) (cn_buf c) 0.

Section Console.
Context `{HC : Ctx} `{HI : Image} `{HF : Frame} `{HS : Syms}.

Definition updc (f : console -> console) : M kern unit := modify (fun s => set_cons (f (kn_cons s)) s).
(** [sleep] channel [&cons.r] *)
Definition ch_cons : chan := ("cons_r"%string, 0).

(** [either_copyin] and [either_copyout] with [myproc()->pagetable] *)
Definition keither_copyin (user_src : bool) (src len : Z) : M kern (Z * list Z) :=
  p <-! myproc ;; pr <-! getp p ;; vm (either_copyin (p_pagetable pr) user_src src len).
Definition keither_copyout (user_dst : bool) (dst : Z) (src : list Z) : M kern Z :=
  p <-! myproc ;; pr <-! getp p ;; vm (either_copyout (p_pagetable pr) user_dst dst src).

Fixpoint consolewrite_loop (fuel : nat) (user_src : bool) (src n i : Z) : M kern Z :=
  match fuel with
  | O => diverge
  | S fuel' =>
      if i <? n then
        r <-! keither_copyin user_src (u64 (src + i)) 1 ;;
        if r.1 =? -1 then ret i
        else uartputc (hd 0 r.2) ;;; consolewrite_loop fuel' user_src src n (i + 1)
      else ret i
  end.
Definition consolewrite (user_src : bool) (src n : Z) : M kern Z :=
  consolewrite_loop (S (Z.to_nat n)) user_src src n 0.

(** The loop of [consoleread] with [n] bytes to go, the lock held; the result
    is the final [n], or [None] after [return -1]. *)
Fixpoint consoleread_loop (fuel : nat) (user_dst : bool) (dst n target : Z) : M kern (option Z) :=
  match fuel with
  | O => diverge
  | S fuel' =>
      if 0 <? n then
        cn <-! gets kn_cons ;;
        if cn_r cn =? cn_w cn then
          p <-! myproc ;;
          k <-! killed p ;;
          if negb (k =? 0) then rel cn_lens ;;; ret None
          else ksleep ch_cons cn_lens
        else
          let c := cn_at cn (cn_r cn) in
          updc (set_cn_r (u32 (cn_r cn + 1))) ;;;
          if c =? CTRL_D then
            when (u32 n <? target) (updc (fun cn => set_cn_r (u32 (cn_r cn - 1)) cn)) ;;;
            ret (Some n)
          else
            r <-! keither_copyout user_dst dst [c] ;;
            if r =? -1 then ret (Some n)
            else if c =? NL then ret (Some (n - 1))
            else consoleread_loop fuel' user_dst (u64 (dst + 1)) (n - 1) target
      else ret (Some n)
  end.
Definition consoleread (user_dst : bool) (dst n : Z) : M kern Z :=
  let target := u32 n in
  acq cn_lens ;;;
  r <-! consoleread_loop (S (Z.to_nat n)) user_dst dst n target ;;
  match r with
  | None => ret (-1)
  | Some n => rel cn_lens ;;; ret (i32 (target - n))
  end.

(** [while(cons.e != cons.w && cons.buf[(cons.e-1) % INPUT_BUF_SIZE] != '\n')] *)
Fixpoint kill_line (fuel : nat) : M kern unit :=
  match fuel with
  | O => diverge
  | S fuel' =>
      cn <-! gets kn_cons ;;
      if negb (cn_e cn =? cn_w cn) && negb (cn_at cn (u32 (cn_e cn - 1)) =? NL) then
        updc (set_cn_e (u32 (cn_e cn - 1))) ;;;
        consputc BACKSPACE ;;;
        kill_line fuel'
      else ret tt
  end.
(** The [switch] of [consoleintr], the lock held. *)
Definition consoleintr_switch (c : Z) : M kern unit :=
  if c =? CTRL_P then procdump
   else if c =? CTRL_U then
     cn <-! gets kn_cons ;; kill_line (S (Z.to_nat (u32 (cn_e cn - cn_w cn))))
   else if (c =? CTRL_H) || (c =? DEL) then
     cn <-! gets kn_cons ;;
     when (negb (cn_e cn =? cn_w cn))
       (updc (set_cn_e (u32 (cn_e cn - 1))) ;;; consputc BACKSPACE)
   else
     cn <-! gets kn_cons ;;
     when (negb (c =? 0) && (u32 (cn_e cn - cn_r cn) <? INPUT_BUF_SIZE))
       (let c := if c =? CR then NL else c in
        consputc c ;;;
        updc (fun cn => set_cn_e (u32 (cn_e cn + 1))
          (set_cn_buf (<[Z.to_nat (cn_e cn mod INPUT_BUF_SIZE) := u8 c]> (cn_buf cn)) cn)) ;;;
        cn <-! gets kn_cons ;;
        when ((c =? NL) || (c =? CTRL_D) || (u32 (cn_e cn - cn_r cn) =? INPUT_BUF_SIZE))
          (updc (fun cn => set_cn_w (cn_e cn) cn) ;;;
           wakeup ch_cons)).
Definition consoleintr (c : Z) : M kern unit :=
  acq cn_lens ;;;
  consoleintr_switch c ;;;
  rel cn_lens.

Definition consoleinit : M kern unit :=
  updc (set_cn_lock (initlock "cons")) ;;;
  uartinit.
(** [devsw[CONSOLE].read = consoleread; devsw[CONSOLE].write = consolewrite;] *)
#[export] Instance console_devs : Devs := {
  dev_read := fun major => if major =? CONSOLE then Some consoleread else None;
  dev_write := fun major => if major =? CONSOLE then Some consolewrite else None
}.

Fixpoint uartintr_loop (fuel : nat) : M kern unit :=
  match fuel with
  | O => diverge
  | S fuel' => c <-! uartgetc ;; if c =? -1 then ret tt else consoleintr c ;;; uartintr_loop fuel'
  end.
Definition uartintr : M kern unit :=
  u <-! gets kn_uart ;;
  uartintr_loop (length (ua_lsr u) + 1) ;;;
  acq ua_lens ;;;
  uartstart ;;;
  rel ua_lens.
End Console.
