(* ===== verification/Syscall.v ===== *)
(** * System calls and traps: kernel/sysproc.c, [syscall] of kernel/syscall.c,
    kernel/trap.c and [forkret] of kernel/proc.c *)

From S2P Require Import Prelude Memory Riscv Spinlock Kalloc Vm Bio Log Txn Fs Kern Proc Pipe File Life Exec Sysfile Printf Console.

Definition SSTATUS_SPP : Z := Z.shiftl 1 8.
Definition SSTATUS_SPIE : Z := Z.shiftl 1 5.
Definition SATP_SV39 : Z := Z.shiftl 8 60.
Definition MAKE_SATP (pagetable : Z) : Z := Z.lor SATP_SV39 (Z.shiftr pagetable 12).
Definition UART0_IRQ : Z := 10.
Definition VIRTIO0_IRQ : Z := 1.

(** Bit 63 of [scause] marks an interrupt. *)
Definition SCAUSE_INTR : Z := 0x8000000000000000.

Section Syscall.
Context `{HC : Ctx} `{HI : Image} `{HF : Frame} `{HS : Syms} `{HE : ExecFrame}.
(** The interrupt handler of the disk driver, which is modelled on its own
    state in Virtio. *)
Context (virtio_disk_intr : M kern unit).

(** ** kernel/sysproc.c *)

Definition sys_exit : M kern Z := n <-! argint 0 ;; exit n.
Definition sys_getpid : M kern Z := p <-! myproc ;; pr <-! getp p ;; ret (p_pid pr).
Definition sys_fork : M kern Z := fork.
Definition sys_wait : M kern Z := p <-! argaddr 0 ;; wait p.
Definition sys_sbrk : M kern Z :=
  n <-! argint 0 ;;
  p <-! myproc ;;
  pr <-! getp p ;;
  let addr := p_sz pr in
  r <-! growproc n ;;
  ret (if r <? 0 then -1 else addr).

(** [sleep] channel [&ticks] *)
Definition ch_ticks : chan := ("ticks"%string, 0).
(** One test of [while (ticks - ticks0 < n)], with the lock held. *)
Definition sys_sleep_round (n ticks0 : Z) : M kern Z :=
  ticks <-! gets kn_ticks ;;
  if u32 (ticks - ticks0) <? u32 n then
    p <-! myproc ;;
    k <-! killed p ;;
    if negb (k =? 0) then rel ticks_lens ;;; ret (-1)
    else ksleep ch_ticks ticks_lens
  else rel ticks_lens ;;; ret 0.
Definition sys_sleep : M kern Z :=
  n <-! argint 0 ;;
  acq ticks_lens ;;;
  ticks0 <-! gets kn_ticks ;;
  sys_sleep_round n ticks0.

Definition sys_kill : M kern Z := pid <-! argint 0 ;; kill pid.
Definition sys_uptime : M kern Z :=
  acq ticks_lens ;;;
  xticks <-! gets kn_ticks ;;
  rel ticks_lens ;;;
  ret xticks.

(** ** kernel/syscall.c *)

(** The table [syscalls], from number 1 on. *)
Definition syscalls : list (M kern Z) := [
  sys_fork; sys_exit; sys_wait; sys_pipe; sys_read; sys_kill; sys_exec; sys_fstat; sys_chdir; sys_dup; sys_getpid;
  sys_sbrk; sys_sleep; sys_uptime; sys_open; sys_write; sys_mknod; sys_unlink; sys_link; sys_mkdir; sys_close ].
Definition NSYSCALL : Z := Z.of_nat (length syscalls) + 1.

Definition syscall : M kern unit :=
  p <-! myproc ;;
  a7 <-! get_tf p TF_a7 ;;
  let num := i32 a7 in
  match (if (0 <? num) && (num <? NSYSCALL) then syscalls !! Z.to_nat (num - 1) else None) with
  | Some sys =>
      v <-! sys ;;
      set_tf p TF_a0 (u64 v)
  | None =>
      pr <-! getp p ;;
      printf (str "%d %s: unknown sys call %d" ++ [NL])
        [AInt (p_pid pr); AStr (Some (upto_nul (length (p_name pr)) (p_name pr))); AInt num] ;;;
      set_tf p TF_a0 (u64 (-1))
  end.

(** ** kernel/trap.c *)

Definition csr (f : csrs -> Z) : M kern Z := gets (fun s => f (kn_csrs s mycpu)).
Definition w_csr (f : csrs -> csrs) : M kern unit :=
  modify (fun s => set_csrs (<[mycpu := f (kn_csrs s mycpu)]> (kn_csrs s)) s).
(** [intr_on] and [intr_off] *)
Definition intr_set (on : bool) : M kern unit :=
  lift cpu_lens (modify (fun c => Cpu (noff c) (intena c) on)).

Definition trapinit : M kern unit := modify (set_tickslock (initlock "time")).
Definition trapinithart : M kern unit := w_csr (set_stvec kernelvec_addr).

Definition clockintr : M kern unit :=
  acq ticks_lens ;;;
  modify (fun s => set_ticks (u32 (kn_ticks s + 1)) s) ;;;
  wakeup ch_ticks ;;;
  rel ticks_lens.

Definition plic_claim : M kern Z :=
  c <-! gets kn_plic ;;
  modify (set_plic (tl c.1, c.2)) ;;;
  ret (hd 0 c.1).
Definition plic_complete (irq : Z) : M kern unit :=
  modify (fun s => set_plic ((kn_plic s).1, (kn_plic s).2 ++ [irq]) s).

Definition devintr : M kern Z :=
  scause <-! csr csr_scause ;;
  if negb (Z.land scause SCAUSE_INTR =? 0) && (Z.land scause 0xff =? 9) then
    irq <-! plic_claim ;;
    (if irq =? UART0_IRQ then uartintr
     else if irq =? VIRTIO0_IRQ then virtio_disk_intr
     else when (negb (irq =? 0)) (printf (str "unexpected interrupt irq=%d" ++ [NL]) [AInt irq])) ;;;
    when (negb (irq =? 0)) (plic_complete irq) ;;;
    ret 1
  else if scause =? 0x8000000000000001 then
    when (mycpu =? 0) clockintr ;;;
    sip <-! csr csr_sip ;;
    w_csr (set_sip (Z.land sip (u64 (Z.lnot 2)))) ;;;
    ret 2
  else ret 0.

(** The argument [userret] is called with. *)
Definition usertrapret : M kern Z :=
  p <-! myproc ;;
  intr_set false ;;;
  w_csr (set_stvec (TRAMPOLINE + (uservec_addr - trampoline))) ;;;
  satp <-! csr csr_satp ;;
  set_tf p TF_kernel_satp satp ;;;
  pr <-! getp p ;;
  set_tf p TF_kernel_sp (u64 (p_kstack pr + PGSIZE)) ;;;
  set_tf p TF_kernel_trap usertrap_addr ;;;
  set_tf p TF_kernel_hartid mycpu ;;;
  x <-! csr csr_sstatus ;;
  w_csr (set_sstatus (Z.lor (Z.land x (u64 (Z.lnot SSTATUS_SPP))) SSTATUS_SPIE)) ;;;
  epc <-! get_tf p TF_epc ;;
  w_csr (set_sepc epc) ;;;
  pr <-! getp p ;;
  ret (MAKE_SATP (p_pagetable pr)).

Definition usertrap : M kern Z :=
  sstatus <-! csr csr_sstatus ;;
  panic_if (negb (Z.land sstatus SSTATUS_SPP =? 0)) "usertrap: not from user mode" ;;;
  w_csr (set_stvec kernelvec_addr) ;;;
  p <-! myproc ;;
  sepc <-! csr csr_sepc ;;
  set_tf p TF_epc sepc ;;;
  scause <-! csr csr_scause ;;
  which_dev <-!
    (if scause =? 8 then
       k <-! killed p ;;
       (if negb (k =? 0) then exit (-1) else ret tt) ;;;
       epc <-! get_tf p TF_epc ;;
       set_tf p TF_epc (u64 (epc + 4)) ;;;
       intr_set true ;;;
       syscall ;;;
       ret 0
     else
       which_dev <-! devintr ;;
       if negb (which_dev =? 0) then ret which_dev
       else
         pr <-! getp p ;;
         scause <-! csr csr_scause ;;
         printf (str "usertrap(): unexpected scause %p pid=%d" ++ [NL]) [APtr scause; AInt (p_pid pr)] ;;;
         sepc <-! csr csr_sepc ;;
         stval <-! csr csr_stval ;;
         printf (str "            sepc=%p stval=%p" ++ [NL]) [APtr sepc; APtr stval] ;;;
         setkilled p ;;;
         ret 0) ;;
  k <-! killed p ;;
  (if negb (k =? 0) then exit (-1) else ret tt) ;;;
  (if which_dev =? 2 then yield else ret tt) ;;;
  usertrapret.

Definition kerneltrap : M kern unit :=
  sepc <-! csr csr_sepc ;;
  sstatus <-! csr csr_sstatus ;;
  scause <-! csr csr_scause ;;
  panic_if (Z.land sstatus SSTATUS_SPP =? 0) "kerneltrap: not from supervisor mode" ;;;
  c <-! gets (lget cpu_lens) ;;
  panic_if (sie c) "kerneltrap: interrupts enabled" ;;;
  which_dev <-! devintr ;;
  (if which_dev =? 0 then
     printf (str "scause %p" ++ [NL]) [APtr scause] ;;;
     sepc <-! csr csr_sepc ;;
     stval <-! csr csr_stval ;;
     printf (str "sepc=%p stval=%p" ++ [NL]) [APtr sepc; APtr stval] ;;;
     panic "kerneltrap"
   else ret tt) ;;;
  me <-! gets cur ;;
  (match me with
   | Some p => pr <-! getp p ;;
               if (which_dev =? 2) && bool_decide (p_state pr = RUNNING) then yield else ret tt
   | None => ret tt
   end) ;;;
  w_csr (set_sepc sepc) ;;;
  w_csr (set_sstatus sstatus).

(** kernel/proc.c *)
Definition forkret : M kern Z :=
  p <-! myproc ;;
  rel (p_lens p) ;;;
  first <-! gets kn_first ;;
  when first
    (modify (set_first false) ;;;
     fsop (fsinit ROOTDEV)) ;;;
  usertrapret.
End Syscall.
