(* ===== verification/Ring.v ===== *)
(** * Ring buffers

    Pipes, the UART's transmit buffer and the console's input buffer keep their
    bytes in an array of [N] bytes with free-running counters: byte number [i]
    is at index [i mod N], and the counters wrap around at [M], a multiple of
    [N]. *)

From S2P Require Import Prelude.

Section Ring.
Context (M N : Z).

(** The byte number [i], and the bytes numbered [r] up to [w]. *)
Definition rnth (d : list Z) (i : Z) : Z := nth (Z.to_nat (i mod N)) d 0.
Definition rcount (r w : Z) : Z := (w - r) mod M.
Definition rqueue (d : list Z) (r w : Z) : list Z := (fun k => rnth d (r + k)) <$> upto (rcount r w).

Record ring_ok (d : list Z) (r w : Z) : Prop := {
  ro_data : length d = Z.to_nat N;
  ro_r : 0 <= r < M;
  ro_w : 0 <= w < M;
  ro_count : rcount r w <= N
}.

Context (HN : 1 < N) (HM : N < M) (HD : (N | M)).

Lemma rcount_range r w : 0 <= rcount r w < M.
Proof. apply Z.mod_pos_bound. lia. Qed.

Lemma length_rqueue d r w : Z.of_nat (length (rqueue d r w)) = rcount r w.
Proof. unfold rqueue. rewrite length_fmap, length_upto. pose proof (rcount_range r w). lia. Qed.

Lemma mod_step a b : 0 <= (a - b) mod M < M - 1 -> (a + 1 - b) mod M = (a - b) mod M + 1.
Proof.
  intros H. symmetry. apply (Z.mod_unique _ _ ((a - b) / M)); [left; lia|].
  pose proof (Z.div_mod (a - b) M ltac:(lia)). lia.
Qed.

Lemma counter_mod a : (a mod M) mod N = a mod N.
Proof. apply Z.mod_mod_divide. done. Qed.
Lemma counter_range a : 0 <= a mod M < M.
Proof. apply Z.mod_pos_bound. lia. Qed.

Lemma ring_full d r w : ring_ok d r w -> (w =? (r + N) mod M) = (Z.of_nat (length (rqueue d r w)) =? N).
Proof.
  intros [_ Hr Hw Hc]. rewrite length_rqueue. unfold rcount in *.
  destruct (Z.eqb_spec ((w - r) mod M) N) as [E|E].
  - apply Z.eqb_eq. rewrite <- E, Z.add_mod_idemp_r by lia. replace (r + (w - r)) with w by lia.
    rewrite Z.mod_small; lia.
  - apply Z.eqb_neq. intros ->. apply E. rewrite Zminus_mod_idemp_l. replace (r + N - r) with N by lia.
    apply Z.mod_small. lia.
Qed.

Lemma ring_empty d r w : ring_ok d r w -> (r =? w) = (Z.of_nat (length (rqueue d r w)) =? 0).
Proof.
  intros [_ Hr Hw Hc]. rewrite length_rqueue. unfold rcount in *. destruct (Z.eqb_spec r w) as [->|Hne].
  - by rewrite Z.sub_diag, Zmod_0_l.
  - symmetry. apply Z.eqb_neq. intros E. apply Hne. apply Z.mod_divide in E as [k E]; [|lia].
    assert (k = 0) by nia. subst. lia.
Qed.

(** Adding a byte at [w]. *)
Lemma ring_put d r w c : ring_ok d r w -> Z.of_nat (length (rqueue d r w)) < N ->
  ring_ok (<[Z.to_nat (w mod N) := c]> d) r ((w + 1) mod M) /\
  rqueue (<[Z.to_nat (w mod N) := c]> d) r ((w + 1) mod M) = rqueue d r w ++ [c].
Proof.
  intros [Hd Hr Hw Hc] Hlt. rewrite length_rqueue in Hlt. pose proof (rcount_range r w) as Hpos.
  assert (Hcnt : rcount r ((w + 1) mod M) = rcount r w + 1).
  { unfold rcount in *. rewrite Zminus_mod_idemp_l. apply mod_step. lia. }
  assert (Hat : (r + rcount r w) mod N = w mod N).
  { unfold rcount. rewrite <- counter_mod, Z.add_mod_idemp_r by lia. rewrite counter_mod. f_equal. lia. }
  assert (Hwn : 0 <= w mod N < N) by (apply Z.mod_pos_bound; lia).
  split; [split; [by rewrite length_insert|done|apply counter_range|lia]|].
  unfold rqueue. rewrite Hcnt, upto_snoc, fmap_app by lia. f_equal.
  - apply list_fmap_ext. intros j k Hk%list_elem_of_lookup_2%elem_upto. unfold rnth.
    rewrite !nth_lookup, list_lookup_insert_ne; [done|]. rewrite <- Hat. intros E.
    assert (Hm1 : 0 <= (r + k) mod N < N) by (apply Z.mod_pos_bound; lia).
    assert (Hm2 : 0 <= (r + rcount r w) mod N < N) by (apply Z.mod_pos_bound; lia).
    assert (E' : (r + rcount r w) mod N = (r + k) mod N) by lia.
    apply Z.cong_iff_0 in E'. apply Z.mod_divide in E' as [q E']; [|lia].
    assert (q = 0) by nia. subst. lia.
  - simpl. f_equal. unfold rnth. rewrite Hat, nth_lookup, list_lookup_insert_eq; [done|]. lia.
Qed.

(** Taking the byte at [r]. *)
Lemma ring_get d r w : ring_ok d r w -> rqueue d r w <> [] ->
  ring_ok d ((r + 1) mod M) w /\ rqueue d r w = rnth d r :: rqueue d ((r + 1) mod M) w.
Proof.
  intros [Hd Hr Hw Hc] Hne.
  assert (Hpos : 0 < rcount r w).
  { rewrite <- (length_rqueue d). destruct (rqueue d r w); [done|simpl; lia]. }
  assert (Hcnt : rcount r w = rcount ((r + 1) mod M) w + 1).
  { pose proof (rcount_range r w). unfold rcount in *. rewrite Zminus_mod_idemp_r.
    rewrite <- (mod_step w (r + 1)); [f_equal; lia|].
    assert ((w - (r + 1)) mod M = (w - r) mod M - 1) as ->; [|lia]. symmetry.
    apply (Z.mod_unique _ _ ((w - r) / M)); [left; lia|]. pose proof (Z.div_mod (w - r) M ltac:(lia)). lia. }
  split; [split; [done|apply counter_range|done|lia]|].
  unfold rqueue. rewrite Hcnt, upto_cons by (pose proof (rcount_range ((r + 1) mod M) w); lia). cbn [fmap list_fmap].
  f_equal; [by rewrite Z.add_0_r|]. change (list_fmap _ _ ?f ?l) with (f <$> l). rewrite <- list_fmap_compose.
  apply list_fmap_ext. intros j k _. unfold rnth. simpl. f_equal. f_equal.
  rewrite <- (counter_mod ((r + 1) mod M + k)), Z.add_mod_idemp_l, counter_mod by lia. f_equal. lia.
Qed.

(** Dropping the byte before [w]. *)
Lemma ring_unput d r w : ring_ok d r w -> rqueue d r w <> [] ->
  ring_ok d r ((w - 1) mod M) /\ rqueue d r w = rqueue d r ((w - 1) mod M) ++ [rnth d ((w - 1) mod M)].
Proof.
  intros [Hd Hr Hw Hc] Hne.
  assert (Hpos : 0 < rcount r w).
  { rewrite <- (length_rqueue d). destruct (rqueue d r w); [done|simpl; lia]. }
  assert (Hcnt : rcount r w = rcount r ((w - 1) mod M) + 1).
  { pose proof (rcount_range r w). unfold rcount in *. rewrite Zminus_mod_idemp_l.
    assert ((w - 1 - r) mod M = (w - r) mod M - 1) as ->; [|lia]. symmetry.
    apply (Z.mod_unique _ _ ((w - r) / M)); [left; lia|]. pose proof (Z.div_mod (w - r) M ltac:(lia)). lia. }
  pose proof (rcount_range r ((w - 1) mod M)) as Hc1.
  split; [split; [done|done|apply counter_range|lia]|].
  unfold rqueue. rewrite Hcnt, upto_snoc, fmap_app by lia. f_equal. simpl. f_equal. unfold rnth. f_equal. f_equal.
  rewrite counter_mod. unfold rcount in *. rewrite Zminus_mod_idemp_l.
  rewrite <- (counter_mod (r + (w - 1 - r) mod M)), Z.add_mod_idemp_r, counter_mod by lia. f_equal. lia.
Qed.

(** A second counter [e] beyond [w], as in the console's buffer. *)
Lemma rcount_split r w e : rcount r w + rcount w e < M -> rcount r e = rcount r w + rcount w e.
Proof.
  intros H. pose proof (rcount_range r w). pose proof (rcount_range w e). unfold rcount in *.
  rewrite <- (Z.mod_small ((w - r) mod M + (e - w) mod M) M) by lia. rewrite <- Zplus_mod. f_equal. lia.
Qed.

Lemma rqueue_app d r w e : rcount r w + rcount w e < M -> rqueue d r e = rqueue d r w ++ rqueue d w e.
Proof.
  intros H. pose proof (rcount_range r w) as H1. pose proof (rcount_range w e) as H2.
  unfold rqueue. rewrite (rcount_split r w e H). apply list_eq. intros k.
  destruct (decide (Z.of_nat k < rcount r w)) as [Hk|Hk].
  - rewrite lookup_app_l by (rewrite length_fmap, length_upto; lia). rewrite !list_lookup_fmap, !upto_lookup by lia. done.
  - rewrite lookup_app_r by (rewrite length_fmap, length_upto; lia). rewrite length_fmap, length_upto, !list_lookup_fmap.
    destruct (decide (Z.of_nat k < rcount r w + rcount w e)) as [Hk2|Hk2].
    + rewrite !upto_lookup by lia. simpl. f_equal. unfold rnth. f_equal. f_equal.
      rewrite <- (counter_mod (w + _)), <- (counter_mod (r + _)). f_equal. apply Z.cong_iff_0.
      replace (r + Z.of_nat k - (w + Z.of_nat (k - Z.to_nat (rcount r w)))) with (rcount r w - (w - r)) by lia.
      unfold rcount. rewrite Zminus_mod_idemp_l. by rewrite Z.sub_diag, Zmod_0_l.
    + rewrite (proj2 (lookup_ge_None (upto _) k)), (proj2 (lookup_ge_None (upto _) _)); [done|rewrite length_upto; lia..].
Qed.

(** Writing at [e] leaves the bytes up to [w] alone. *)
Lemma ring_put_beyond d r w e c : rcount r w + rcount w e < N ->
  rqueue (<[Z.to_nat (e mod N) := c]> d) r w = rqueue d r w.
Proof.
  intros Hlt. pose proof (rcount_range r w) as H1. pose proof (rcount_range w e) as H2.
  pose proof (rcount_split r w e ltac:(lia)) as Hre. unfold rqueue. apply list_fmap_ext.
  intros j k Hk%list_elem_of_lookup_2%elem_upto. unfold rnth. rewrite !nth_lookup, list_lookup_insert_ne; [done|].
  intros E. assert (Hm1 : 0 <= (r + k) mod N < N) by (apply Z.mod_pos_bound; lia).
  assert (Hm2 : 0 <= e mod N < N) by (apply Z.mod_pos_bound; lia).
  assert (Hat : (r + rcount r e) mod N = e mod N).
  { unfold rcount. rewrite <- counter_mod, Z.add_mod_idemp_r by lia. rewrite counter_mod. f_equal. lia. }
  assert (E' : (r + rcount r e) mod N = (r + k) mod N) by lia.
  apply Z.cong_iff_0 in E'. apply Z.mod_divide in E' as [q E']; [|lia]. assert (q = 0) by nia. subst. lia.
Qed.
End Ring.
