(* ===== verification/PipeQueue.v ===== *)
(** * Pipes are queues of bytes

    A pipe's ring buffer stands for the bytes written and not yet read.  The
    counters [nread] and [nwrite] wrap around at 2^32; [pipewrite] appends to
    the queue and [piperead] takes from its front. *)

From S2P Require Import Prelude Memory Riscv Spinlock Kalloc Vm VmWalk VmUser VmCopy Bio Log Txn Fs Kern Proc Pipe Ring.

(** The bytes in the pipe. *)
Definition pq (p : pipe) : list Z := rqueue (2 ^ 32) PIPESIZE (pi_data p) (pi_nread p) (pi_nwrite p).
Definition pipe_ok (p : pipe) : Prop := ring_ok (2 ^ 32) PIPESIZE (pi_data p) (pi_nread p) (pi_nwrite p).

Lemma pipe_ring : 1 < PIPESIZE /\ PIPESIZE < 2 ^ 32 /\ (PIPESIZE | 2 ^ 32).
Proof. conjs; [done|done|]. exists (2 ^ 23). done. Qed.

Lemma pq_count p : pipe_ok p -> Z.of_nat (length (pq p)) <= PIPESIZE.
Proof.
  destruct pipe_ring as (H1 & H2 & H3). intros [_ _ _ Hc]. unfold pq. rewrite length_rqueue by done. done.
Qed.

Lemma pq_full p : pipe_ok p ->
  (pi_nwrite p =? u32 (pi_nread p + PIPESIZE)) = (Z.of_nat (length (pq p)) =? PIPESIZE).
Proof. destruct pipe_ring as (H1 & H2 & H3). by apply ring_full. Qed.

Lemma pq_empty p : pipe_ok p -> (pi_nread p =? pi_nwrite p) = (Z.of_nat (length (pq p)) =? 0).
Proof. destruct pipe_ring as (H1 & H2 & H3). by apply ring_empty. Qed.

Lemma pi_put_queue ch p : pipe_ok p -> Z.of_nat (length (pq p)) < PIPESIZE ->
  pipe_ok (pi_put ch p) /\ pq (pi_put ch p) = pq p ++ [ch].
Proof. destruct pipe_ring as (H1 & H2 & H3). by apply ring_put. Qed.

Lemma pi_get_queue p : pipe_ok p -> pq p <> [] ->
  exists ch p', pi_get p = (ch, p') /\ pipe_ok p' /\ pq p = ch :: pq p' /\
    pi_lock p' = pi_lock p /\ pi_readopen p' = pi_readopen p /\ pi_writeopen p' = pi_writeopen p.
Proof.
  destruct pipe_ring as (H1 & H2 & H3). intros Hok Hne. unfold pi_get. eexists _, _. split; [reflexivity|].
  destruct (ring_get (2 ^ 32) PIPESIZE H1 H2 H3 _ _ _ Hok Hne). done.
Qed.

(** Writing several bytes. *)
Definition puts (bs : list Z) (p : pipe) : pipe := foldl (fun p ch => pi_put ch p) p bs.

Lemma puts_queue bs p : pipe_ok p -> Z.of_nat (length (pq p) + length bs) <= PIPESIZE ->
  pipe_ok (puts bs p) /\ pq (puts bs p) = pq p ++ bs.
Proof.
  revert p. induction bs as [|b bs IH]; intros p Hok Hlen; simpl in *.
  { by rewrite app_nil_r. }
  destruct (pi_put_queue b p Hok ltac:(lia)) as [Hok1 Hq1].
  destruct (IH (pi_put b p) Hok1) as [Hok2 Hq2].
  { rewrite Hq1, length_app. simpl. lia. }
  split; [done|]. unfold puts in *. by rewrite Hq2, Hq1, <- app_assoc.
Qed.

Lemma puts_fields bs p : pi_lock (puts bs p) = pi_lock p /\ pi_readopen (puts bs p) = pi_readopen p /\
  pi_writeopen (puts bs p) = pi_writeopen p.
Proof. revert p. induction bs as [|b bs IH]; intros p; [done|]. simpl. apply (IH (pi_put b p)). Qed.
Lemma puts_lock bs l p : puts bs (set_pi_lock l p) = set_pi_lock l (puts bs p).
Proof. revert p. induction bs as [|b bs IH]; intros p; [done|]. apply (IH (pi_put b p)). Qed.

Section PipeQueue.
Context `{HC : Ctx} `{HI : Image} `{HO : !ImageOk} `{HF : Frame} `{HS : Syms}.

#[export] Instance pi_klock pi : KLock (pi_lens pi).
Proof. split; intros; simpl; try done; by destruct (kn_pipes s !! pi). Qed.

Lemma upd_pipe_twice pi p q s : upd_pipe pi p (upd_pipe pi q s) = upd_pipe pi p s.
Proof. unfold upd_pipe, set_pipes; simpl. by rewrite insert_insert_eq. Qed.
Lemma upd_pipe_id pi p s : kn_pipes s !! pi = Some p -> upd_pipe pi p s = s.
Proof. intros H. unfold upd_pipe, set_pipes. rewrite insert_id by done. by destruct s. Qed.

Lemma lset_pi pi p x s : kn_pipes s !! pi = Some p -> lset (pi_lens pi) x s = upd_pipe pi (set_pi_lock x p) s.
Proof. simpl. by intros ->. Qed.

(** Process [me] is inside the pipe's critical section, holding no other
    lock. *)
Record in_pipe (s : kern) (me : Z) (pr : proc) (pi : Z) (p : pipe) (lk : spinlock) (b : bool) : Prop := {
  ip_nested : nested 1 b s;
  ip_cur : cur s = Some me;
  ip_me : nth_proc s me = Some pr;
  ip_free : plocks_free s;
  ip_pipe : kn_pipes s !! pi = Some p;
  ip_held : pi_lock p = held lk;
  ip_lk : unlocked lk
}.

Lemma in_pipe_upd s me pr pi p lk b q : in_pipe s me pr pi p lk b -> pi_lock q = pi_lock p ->
  in_pipe (upd_pipe pi q s) me pr pi q lk b.
Proof.
  intros [] Hl. split; try done; [by apply lookup_insert_eq|congruence].
Qed.

Lemma getpi_ok pi p s : kn_pipes s !! pi = Some p -> getpi pi s = Done p s.
Proof. unfold getpi. by intros ->. Qed.
Lemma setpi_ok pi f p s : kn_pipes s !! pi = Some p -> setpi pi f s = Done tt (upd_pipe pi (f p) s).
Proof. intros H. unfold setpi. by rewrite (bind_Done _ _ _ _ _ (getpi_ok _ _ _ H)). Qed.

Lemma vm_same {A} (m : M kst A) a s : m (lget mem_lens s) = Done a (lget mem_lens s) -> vm m s = Done a s.
Proof. intros H. unfold vm. rewrite (lift_Done _ _ _ _ _ H). f_equal. destruct s as [f]. by destruct f. Qed.

(** The user memory of process [me]: its page table [T], and [m] the
    physical memory. *)
Notation umem s := (k_mem (fs_k (kn_fs s))).

Lemma ucopyin1 s me pr T va b : cur s = Some me -> nth_proc s me = Some pr ->
  wf (umem s) T (p_pagetable pr) -> no_page0 (umem s) T -> 0 <= va < 2 ^ 64 -> ureads (umem s) T va [b] ->
  ucopyin va 1 s = Done (0, [b]) s.
Proof.
  intros Hme Hp Hwf H0 Hva Hrd. unfold ucopyin.
  rewrite (bind_Done _ _ _ _ _ (myproc_ok _ _ Hme)), (bind_Done _ _ _ _ _ (getp_ok _ _ _ Hp)).
  apply vm_same.
  destruct (copyin_loop_spec 2 va 1 [] (fs_k (kn_fs s)) T (p_pagetable pr)) as (r & bs & Hrun & Hbs & Hr);
    try done; try lia. change (lget mem_lens s) with (fs_k (kn_fs s)). unfold copyin.
  change (S (Z.to_nat 1)) with 2%nat. rewrite Hrun.
  destruct (Hrd 0%nat b eq_refl) as (pa & Hpa & ->). rewrite Z.add_0_r in Hpa.
  destruct Hr as [[-> Hl]|(-> & Hl & Hn)].
  - destruct bs as [|x [|]]; simpl in Hl; try lia. destruct (Hbs 0%nat x eq_refl) as (pa' & Hpa' & ->).
    rewrite Z.add_0_r in Hpa'. simpl. congruence.
  - destruct bs; simpl in *; [|lia]. rewrite Z.add_0_r in Hn. congruence.
Qed.

(** The loop of [pipewrite] with [bs] still to write, and room for [room]
    bytes. *)
Lemma pipewrite_loop_spec bs fuel s me pr pi p lk b T addr n i :
  in_pipe s me pr pi p lk b -> pipe_ok p -> pi_readopen p = true -> p_killed pr = 0 ->
  wf (umem s) T (p_pagetable pr) -> no_page0 (umem s) T -> ureads (umem s) T (addr + i) bs ->
  0 <= addr + i -> addr + n <= 2 ^ 64 -> n = i + Z.of_nat (length bs) -> (length bs < fuel)%nat ->
  let room := (Z.to_nat PIPESIZE - length (pq p))%nat in
  let s1 := upd_pipe pi (puts (take room bs) p) s in
  pipewrite_loop fuel me pi addr n i s =
  if decide (length bs <= room)%nat then Done (Some n) s1
  else Sleep (ch_nwrite pi) (asleep (ch_nwrite pi) me pr (lset (pi_lens pi) lk (woken (ch_nread pi) me s1))).
Proof.
  revert fuel s p i. induction bs as [|b0 bs IH]; intros fuel s p i Hin Hok Hro Hk Hwf H0 Hrd Ha Hb Hn Hf room s1.
  { destruct fuel; [simpl in Hf; lia|]. cbn [pipewrite_loop]. cbn [length] in *.
    destruct (Z.ltb_spec i n); [lia|]. rewrite decide_True by lia.
    unfold s1. rewrite take_nil. cbn [puts foldl]. rewrite upd_pipe_id by apply Hin. unfold ret. do 2 f_equal. lia. }
  destruct fuel as [|fuel]; [simpl in Hf; lia|]. cbn [pipewrite_loop]. simpl in Hn, Hf.
  destruct (Z.ltb_spec i n); [|lia]. destruct (Hin) as [Hnest Hcur Hme Hfree Hpi Hheld Hlk].
  rewrite (bind_Done _ _ _ _ _ (getpi_ok _ _ _ Hpi)), Hro. cbn [negb].
  rewrite (bind_Done _ _ _ _ _ (killed_ok 1 b me pr s Hnest Hme (proj2 Hfree _ _ Hme))).
  rewrite Hk. cbn [Z.eqb negb]. rewrite (pq_full p Hok).
  destruct (Z.eqb_spec (Z.of_nat (length (pq p))) PIPESIZE) as [Hfull|Hfull].
  - assert (Hroom : room = O) by (unfold room; lia). unfold s1. rewrite Hroom. cbn [take]. rewrite decide_False by (simpl; lia).
    rewrite (bind_Done _ _ _ _ _ (wakeup_me 1 b _ me s Hnest Hfree Hcur)). simpl (puts _ _).
    rewrite upd_pipe_id by done.
    apply (ksleep_ok (pi_lens pi) lk b); try done.
    + simpl. by rewrite Hpi.
    + by apply woken_me.
    + by apply (proj2 Hfree me).
  - pose proof (pq_count p Hok) as Hc.
    rewrite u64_small by lia.
    rewrite (bind_Done _ _ _ _ _ (ucopyin1 s me pr T (addr + i) b0 Hcur Hme Hwf H0 ltac:(lia)
      (fun j x Hj => Hrd j x ltac:(destruct j as [|[|]]; [exact Hj|done|done])))).
    change ((fst (0, [b0]) =? -1)) with false. cbn [hd snd].
    rewrite (bind_Done _ _ _ _ _ (setpi_ok _ _ _ _ Hpi)).
    destruct (pi_put_queue b0 p Hok ltac:(lia)) as [Hok1 Hq1].
    assert (Hroom : room = S (room - 1)) by (unfold room; lia).
    rewrite (IH fuel (upd_pipe pi (pi_put b0 p) s) (pi_put b0 p) (i + 1)); try done; try lia.
    + assert (Hr1 : (Z.to_nat PIPESIZE - length (pq (pi_put b0 p)))%nat = (room - 1)%nat).
      { rewrite Hq1, length_app. unfold room. simpl. lia. }
      rewrite Hr1. unfold s1. rewrite upd_pipe_twice.
      assert (Ht : take room (b0 :: bs) = b0 :: take (room - 1) bs) by (rewrite Hroom at 1; done).
      rewrite Ht. cbn [length].
      destruct (decide (length bs <= room - 1)%nat), (decide (S (length bs) <= room)%nat); try lia; done.
    + eapply in_pipe_upd; [exact Hin|done].
    + intros j x Hj. replace (addr + (i + 1) + Z.of_nat j) with (addr + i + Z.of_nat (S j)) by lia. by apply Hrd.
Qed.

Lemma lset_mem_twice k k' s : lset mem_lens k (lset mem_lens k' s) = lset mem_lens k s.
Proof. reflexivity. Qed.

Lemma ucopyout1 s me pr l T D va ch : cur s = Some me -> nth_proc s me = Some pr ->
  as_inv (fs_k (kn_fs s)) l T (p_pagetable pr) D -> user_owned (umem s) T D ->
  is_Some (uaddr (umem s) T va) -> 0 <= va < 2 ^ 64 ->
  exists k', ucopyout va [ch] s = Done 0 (lset mem_lens k' s) /\ as_inv k' l T (p_pagetable pr) D /\
    (forall va', pte_at (k_mem k') T va' = pte_at (umem s) T va') /\ uwritten D (umem s) (k_mem k') va [ch].
Proof.
  intros Hme Hp Has Hown [pa Hpa] Hva. unfold ucopyout.
  rewrite (bind_Done _ _ _ _ _ (myproc_ok _ _ Hme)), (bind_Done _ _ _ _ _ (getp_ok _ _ _ Hp)).
  destruct (copyout_loop_spec 2 va [ch] (fs_k (kn_fs s)) l T (p_pagetable pr) D)
    as (r & k' & n & Hrun & Has' & Hpte & Hw & _ & Hr); try done; [simpl; lia|].
  destruct Hr as [[-> ->]|(_ & Hn & Hx)].
  - exists k'. conjs; try done. unfold vm. by apply lift_Done.
  - simpl in Hn. assert (n = O) as -> by lia. rewrite Z.add_0_r in Hx. congruence.
Qed.

Lemma user_owned_ext m m' T D : (forall va, pte_at m' T va = pte_at m T va) -> user_owned m T D -> user_owned m' T D.
Proof. intros H Ho va. rewrite (uaddr_ext m m' T H). apply Ho. Qed.

(** The loop of [piperead] when the rest of the user's buffer is writable. *)
Lemma piperead_loop_spec l T D me pr pi lk b addr n q fuel s p i :
  in_pipe s me pr pi p lk b -> pipe_ok p -> pq p = q ->
  as_inv (fs_k (kn_fs s)) l T (p_pagetable pr) D -> user_owned (umem s) T D ->
  (forall j, i <= j < n -> is_Some (uaddr (umem s) T (addr + j))) -> 0 <= addr + i -> addr + n <= 2 ^ 64 ->
  (Z.to_nat (n - i) < fuel)%nat ->
  let m := Nat.min (Z.to_nat (n - i)) (length q) in
  exists k' p', piperead_loop fuel pi addr n i s = Done (i + Z.of_nat m) (lset mem_lens k' (upd_pipe pi p' s)) /\
    pipe_ok p' /\ pq p' = drop m q /\
    (pi_lock p' = pi_lock p /\ pi_readopen p' = pi_readopen p /\ pi_writeopen p' = pi_writeopen p) /\
    as_inv k' l T (p_pagetable pr) D /\
    (forall va, pte_at (k_mem k') T va = pte_at (umem s) T va) /\
    uwritten D (umem s) (k_mem k') (addr + i) (take m q).
Proof.
  revert q s p i. induction fuel as [|fuel IH]; [lia|].
  intros q s p i Hin Hok Hq Has Hown Hacc Ha Hb Hf m.
  assert (Hstop : m = O -> Done i s = Done (i + Z.of_nat m) (lset mem_lens (fs_k (kn_fs s)) (upd_pipe pi p s)) /\
    uwritten D (umem s) (umem s) (addr + i) (take m q)).
  { intros ->. rewrite upd_pipe_id by apply Hin. split.
    - rewrite Z.add_0_r. f_equal. destruct s as [f]. by destruct f.
    - split; [done|]. intros. symmetry. apply overlay_out. simpl. lia. }
  cbn [piperead_loop]. destruct (Z.ltb_spec i n) as [Hlt|Hge].
  2: { destruct Hstop as [H1 H2]; [unfold m; lia|]. exists (fs_k (kn_fs s)), p. conjs; try done.
       rewrite Hq. by replace m with O by (unfold m; lia). }
  destruct (Hin) as [Hnest Hcur Hme Hfree Hpi Hheld Hlk].
  rewrite (bind_Done _ _ _ _ _ (getpi_ok _ _ _ Hpi)), (pq_empty p Hok).
  destruct (Z.eqb_spec (Z.of_nat (length (pq p))) 0) as [He|He].
  { destruct Hstop as [H1 H2]; [unfold m; rewrite <- Hq; lia|]. exists (fs_k (kn_fs s)), p. conjs; try done.
    rewrite Hq. by replace m with O by (unfold m; rewrite <- Hq; lia). }
  destruct (pi_get_queue p Hok) as (ch & p1 & Hget & Hok1 & Hq1 & Hfl & Hfr & Hfw).
  { intros E. by rewrite E in He. }
  rewrite Hget. rewrite (bind_Done _ _ _ _ _ (setpi_ok _ _ _ _ Hpi)). rewrite u64_small by lia.
  assert (Hin1 : in_pipe (upd_pipe pi p1 s) me pr pi p1 lk b) by (by eapply in_pipe_upd).
  destruct (ucopyout1 (upd_pipe pi p1 s) me pr l T D (addr + i) ch) as (k1 & Hc & Has1 & Hpte1 & Hw1); try done;
    [apply Hacc; lia|lia|].
  rewrite (bind_Done _ _ _ _ _ Hc). change (0 =? -1) with false. cbv iota.
  assert (q = ch :: pq p1) as -> by congruence.
  destruct (IH (pq p1) (lset mem_lens k1 (upd_pipe pi p1 s)) p1 (i + 1))
    as (k' & p' & Hrun & Hok' & Hq' & Hf' & Has' & Hpte' & Hw'); try done; try lia.
  - by destruct Hin1.
  - by eapply user_owned_ext.
  - intros j Hj. simpl. rewrite (uaddr_ext (umem s)) by done. apply Hacc. lia.
  - set (m1 := Nat.min (Z.to_nat (n - (i + 1))) (length (pq p1))) in *.
    assert (Hm : m = S m1) by (unfold m, m1; simpl; lia).
    exists k', p'. rewrite Hrun, Hm. conjs; try done.
    + f_equal; [lia|]. rewrite <- (upd_pipe_twice pi p' p1 s). done.
    + destruct Hf' as (-> & _). done.
    + destruct Hf' as (_ & -> & _). done.
    + destruct Hf' as (_ & _ & ->). done.
    + intros va. by rewrite Hpte'.
    + cbn [take]. change (ch :: take m1 (pq p1)) with ([ch] ++ take m1 (pq p1)).
      eapply uwritten_app; [exact Hw1|].
      replace (addr + i + Z.of_nat (length [ch])) with (addr + (i + 1)) by (simpl; lia). exact Hw'.
Qed.

(** Process [me] is about to call [pipewrite] or [piperead] on an open pipe,
    with no lock held and interrupts as in [b]. *)
Record at_pipe (s : kern) (me : Z) (pr : proc) (pi : Z) (p : pipe) (b : bool) : Prop := {
  ap_in : cpu_in s;
  ap_cpu : exists j, cs_cpu (my_cpu s) = Cpu 0 j b;
  ap_cur : cur s = Some me;
  ap_me : nth_proc s me = Some pr;
  ap_free : plocks_free s;
  ap_pipe : kn_pipes s !! pi = Some p;
  ap_lk : unlocked (pi_lock p);
  ap_ok : pipe_ok p
}.

Definition enter_pipe (me : Z) (b : bool) (pi : Z) (p : pipe) (s : kern) : kern :=
  on_cpu me (Cpu 1 b false) (upd_pipe pi (set_pi_lock (held (pi_lock p)) p) s).

Lemma my_on_cpu me c s : cpu_in s -> my_cpu (on_cpu me c s) = Cpust (Some me) c.
Proof. apply my_cpu_upd. Qed.

Lemma acq_pipe s me pr pi p b : at_pipe s me pr pi p b ->
  acq (pi_lens pi) s = Done tt (enter_pipe me b pi p s) /\
  in_pipe (enter_pipe me b pi p s) me pr pi (set_pi_lock (held (pi_lock p)) p) (pi_lock p) b /\
  pipe_ok (set_pi_lock (held (pi_lock p)) p).
Proof.
  intros [Hin [j Hc] Hcur Hme Hfree Hpi Hlk Hok]. conjs.
  - rewrite (acq_outer (pi_lens pi) j b me); simpl; rewrite ?Hpi; done.
  - assert (Hcpu : my_cpu (enter_pipe me b pi p s) = Cpust (Some me) (Cpu 1 b false)) by (by apply my_on_cpu).
    split; try done.
    + split; [unfold cpu_in; simpl; by rewrite length_insert|by rewrite Hcpu].
    + unfold cur. by rewrite Hcpu.
    + simpl. by rewrite lookup_insert_eq.
  - by destruct Hok.
Qed.

(** Leaving the critical section with the pipe now [q]. *)
Lemma rel_pipe s me pr pi q lk b : in_pipe s me pr pi q lk b ->
  rel (pi_lens pi) s = Done tt (on_cpu me (Cpu 0 b b) (upd_pipe pi (set_pi_lock lk q) s)).
Proof.
  intros [(Hin & Hc & _) Hcur _ _ Hpi Hl Hlk].
  rewrite (rel_outer (pi_lens pi) b lk me); simpl; rewrite ?Hpi; done.
Qed.

Lemma in_pipe_woken c s me pr pi q lk b : in_pipe s me pr pi q lk b -> in_pipe (woken c me s) me pr pi q lk b.
Proof.
  intros [Hn Hcur Hme Hfree Hpi Hl Hlk]. split; try done; [by apply woken_me|].
  pose proof (plocks_free_wake c s Hfree) as Hw. by rewrite Hcur in Hw.
Qed.

(** C19: [pipewrite] appends to the queue of bytes a pipe holds.  With an open
    read end and the process not killed, a write of the user bytes [bs] that
    fit returns their number; one that does not fit stores as many as fit and
    puts the writer to sleep on [nwrite], its pipe lock released.  Either way
    the readers asleep on [nread] are made runnable, and the counters may wrap
    around at 2^32. *)
Theorem pipewrite_correct s me pr pi p b T addr bs :
  at_pipe s me pr pi p b -> pi_readopen p = true -> p_killed pr = 0 ->
  wf (umem s) T (p_pagetable pr) -> no_page0 (umem s) T -> ureads (umem s) T addr bs ->
  0 <= addr -> addr + Z.of_nat (length bs) <= 2 ^ 64 ->
  let room := (Z.to_nat PIPESIZE - length (pq p))%nat in
  exists p', pipe_ok p' /\ pq p' = pq p ++ take room bs /\
    pi_lock p' = pi_lock p /\ pi_readopen p' = true /\ pi_writeopen p' = pi_writeopen p /\
    let s1 := woken (ch_nread pi) me (upd_pipe pi p' s) in
    pipewrite pi addr (Z.of_nat (length bs)) s =
    if decide (length bs <= room)%nat
    then Done (Z.of_nat (length bs)) (on_cpu me (Cpu 0 b b) s1)
    else Sleep (ch_nwrite pi) (asleep (ch_nwrite pi) me pr (on_cpu me (Cpu 1 b false) s1)).
Proof.
  intros Hat Hro Hk Hwf H0 Hrd Ha Hb room. destruct (Hat) as [Hin [j Hc] Hcur Hme Hfree Hpi Hlk Hok].
  destruct (acq_pipe s me pr pi p b Hat) as (Hacq & Hinp & Hok1).
  set (ph := set_pi_lock (held (pi_lock p)) p) in *. set (q := puts (take room bs) p).
  pose proof (pq_count p Hok) as Hcnt.
  destruct (puts_queue (take room bs) p Hok) as [Hokq Hqq].
  { rewrite length_take. unfold room. lia. }
  destruct (puts_fields (take room bs) p) as (Hql & Hqr & Hqw).
  assert (Hqh : puts (take room bs) ph = set_pi_lock (held (pi_lock p)) q) by apply puts_lock.
  assert (Hid : set_pi_lock (pi_lock p) (set_pi_lock (held (pi_lock p)) q) = q)
    by (unfold q in *; rewrite <- Hql; by destruct (puts _ p)).
  exists q. conjs; try done; [unfold q; congruence|]. intros s1.
  unfold pipewrite. rewrite (bind_Done _ _ _ _ _ (myproc_ok _ _ Hcur)), (bind_Done _ _ _ _ _ Hacq).
  pose proof (pipewrite_loop_spec bs (S (Z.to_nat (Z.of_nat (length bs)))) (enter_pipe me b pi p s) me pr pi ph
    (pi_lock p) b T addr (Z.of_nat (length bs)) 0 Hinp Hok1 Hro Hk Hwf H0) as Hloop.
  rewrite Z.add_0_r in Hloop. specialize (Hloop Hrd Ha Hb ltac:(lia) ltac:(lia)). cbv zeta in Hloop.
  change (pq ph) with (pq p) in Hloop. fold room in Hloop. rewrite Hqh in Hloop.
  set (qh := set_pi_lock (held (pi_lock p)) q) in *. set (s2 := enter_pipe me b pi p s) in *.
  assert (Hinq : in_pipe (upd_pipe pi qh s2) me pr pi qh (pi_lock p) b) by (by eapply in_pipe_upd).
  assert (Hback : upd_pipe pi q (upd_pipe pi qh s2) = on_cpu me (Cpu 1 b false) (upd_pipe pi q s)).
  { rewrite upd_pipe_twice. unfold s2, enter_pipe. by rewrite <- (upd_pipe_twice pi q ph s). }
  pose proof (in_pipe_woken (ch_nread pi) _ _ _ _ _ _ _ Hinq) as Hinw.
  assert (Hw : upd_pipe pi q (woken (ch_nread pi) me (upd_pipe pi qh s2)) = on_cpu me (Cpu 1 b false) s1).
  { change (woken (ch_nread pi) me (upd_pipe pi q (upd_pipe pi qh s2)) = on_cpu me (Cpu 1 b false) s1).
    by rewrite Hback. }
  unfold bind. rewrite Hloop. destruct (decide (length bs <= room)%nat) as [Hfit|Hfit].
  - unfold pipewrite_end.
    rewrite (bind_Done _ _ _ _ _ (wakeup_me 1 b _ me _ (ip_nested _ _ _ _ _ _ _ Hinq) (ip_free _ _ _ _ _ _ _ Hinq)
      (ip_cur _ _ _ _ _ _ _ Hinq))).
    rewrite (bind_Done _ _ _ _ _ (rel_pipe _ _ _ _ _ _ _ Hinw)). rewrite Hid, Hw, on_cpu_twice. done.
  - do 2 f_equal. rewrite (lset_pi _ _ _ _ (ip_pipe _ _ _ _ _ _ _ Hinw)), Hid. apply Hw.
Qed.

(** A read of an empty pipe that still has writers. *)
Lemma piperead_empty s me pr pi p b addr n :
  at_pipe s me pr pi p b -> pq p = [] -> pi_writeopen p = true ->
  piperead pi addr n s =
  if p_killed pr =? 0 then Sleep (ch_nread pi) (asleep (ch_nread pi) me pr (on_cpu me (Cpu 1 b false) s))
  else Done (-1) (on_cpu me (Cpu 0 b b) s).
Proof.
  intros Hat He Hwo. destruct (Hat) as [Hin [j Hc] Hcur Hme Hfree Hpi Hlk Hok].
  destruct (acq_pipe s me pr pi p b Hat) as (Hacq & Hinp & Hok1).
  set (ph := set_pi_lock (held (pi_lock p)) p) in *. set (s2 := enter_pipe me b pi p s) in *.
  assert (Hid : set_pi_lock (pi_lock p) ph = p) by (by destruct p).
  assert (Hback : upd_pipe pi p s2 = on_cpu me (Cpu 1 b false) s).
  { unfold s2, enter_pipe. rewrite <- (upd_pipe_id pi p s Hpi) at 2. by rewrite <- (upd_pipe_twice pi p ph s). }
  unfold piperead. rewrite (bind_Done _ _ _ _ _ (myproc_ok _ _ Hcur)), (bind_Done _ _ _ _ _ Hacq).
  unfold piperead_locked. rewrite (bind_Done _ _ _ _ _ (getpi_ok _ _ _ (ip_pipe _ _ _ _ _ _ _ Hinp))).
  rewrite (pq_empty ph Hok1). change (pq ph) with (pq p). change (pi_writeopen ph) with (pi_writeopen p).
  rewrite He, Hwo. change ((Z.of_nat (length (A := Z) []) =? 0) && true) with true. cbv iota.
  rewrite (bind_Done _ _ _ _ _ (killed_ok 1 b me pr _ (ip_nested _ _ _ _ _ _ _ Hinp)
    (ip_me _ _ _ _ _ _ _ Hinp) (proj2 Hfree _ _ Hme))).
  destruct (p_killed pr =? 0); cbn [negb].
  - rewrite (ksleep_ok (pi_lens pi) (pi_lock p) b _ me pr); try apply Hinp; try done.
    + rewrite (lset_pi _ _ _ _ (ip_pipe _ _ _ _ _ _ _ Hinp)), Hid, Hback. done.
    + simpl. by rewrite lookup_insert_eq.
    + by apply (proj2 Hfree me).
  - rewrite (bind_Done _ _ _ _ _ (rel_pipe _ _ _ _ _ _ _ Hinp)), Hid, Hback, on_cpu_twice. done.
Qed.

(** C20: [piperead] takes from the front of the queue.  When the pipe holds
    bytes, or its write end is closed, a read of [n] bytes returns how many
    there were, up to [n], stores exactly those at the user's address and makes
    the writers asleep on [nwrite] runnable; on an empty pipe with writers it
    sleeps on [nread] with the pipe unchanged, or returns -1 if the process
    was killed. *)
Theorem piperead_correct s me pr pi p b l T D addr n :
  at_pipe s me pr pi p b -> as_inv (fs_k (kn_fs s)) l T (p_pagetable pr) D -> user_owned (umem s) T D ->
  (forall j, 0 <= j < n -> is_Some (uaddr (umem s) T (addr + j))) -> 0 <= addr -> addr + n <= 2 ^ 64 ->
  if decide (pq p = [] /\ pi_writeopen p = true) then
    piperead pi addr n s =
    if p_killed pr =? 0 then Sleep (ch_nread pi) (asleep (ch_nread pi) me pr (on_cpu me (Cpu 1 b false) s))
    else Done (-1) (on_cpu me (Cpu 0 b b) s)
  else
    let m := Nat.min (Z.to_nat n) (length (pq p)) in
    exists k' p', piperead pi addr n s =
      Done (Z.of_nat m) (on_cpu me (Cpu 0 b b) (woken (ch_nwrite pi) me (lset mem_lens k' (upd_pipe pi p' s)))) /\
      pipe_ok p' /\ pq p' = drop m (pq p) /\ pi_lock p' = pi_lock p /\
      pi_readopen p' = pi_readopen p /\ pi_writeopen p' = pi_writeopen p /\
      as_inv k' l T (p_pagetable pr) D /\ uwritten D (umem s) (k_mem k') addr (take m (pq p)).
Proof.
  intros Hat Has Hown Hacc Ha Hb.
  destruct (decide (pq p = [] /\ pi_writeopen p = true)) as [[He Hwo]|Hgo]; [by eapply piperead_empty|].
  destruct (Hat) as [Hin [j Hc] Hcur Hme Hfree Hpi Hlk Hok].
  destruct (acq_pipe s me pr pi p b Hat) as (Hacq & Hinp & Hok1).
  set (ph := set_pi_lock (held (pi_lock p)) p) in *. set (s2 := enter_pipe me b pi p s) in *.
  unfold piperead. rewrite (bind_Done _ _ _ _ _ (myproc_ok _ _ Hcur)), (bind_Done _ _ _ _ _ Hacq).
  unfold piperead_locked. rewrite (bind_Done _ _ _ _ _ (getpi_ok _ _ _ (ip_pipe _ _ _ _ _ _ _ Hinp))).
  rewrite (pq_empty ph Hok1). change (pq ph) with (pq p). change (pi_writeopen ph) with (pi_writeopen p).
  assert (((Z.of_nat (length (pq p)) =? 0) && pi_writeopen p) = false) as ->.
  { destruct (pi_writeopen p); [|apply andb_false_r]. rewrite andb_true_r. apply Z.eqb_neq.
    destruct (pq p); [tauto|simpl; lia]. }
  destruct (piperead_loop_spec l T D me pr pi (pi_lock p) b addr n (pq p) (S (Z.to_nat n)) s2 ph 0)
    as (k' & q & Hrun & Hokq & Hqq & (Hfl & Hfr & Hfw) & Has' & _ & Hw); try done; try lia.
  rewrite Z.sub_0_r in *. set (m := Nat.min (Z.to_nat n) (length (pq p))) in *.
  exists k', (set_pi_lock (pi_lock p) q). rewrite (bind_Done _ _ _ _ _ Hrun).
  set (s3 := lset mem_lens k' (upd_pipe pi q s2)).
  assert (Hin3 : in_pipe s3 me pr pi q (pi_lock p) b).
  { destruct (in_pipe_upd _ _ _ _ _ _ _ q Hinp Hfl). by split. }
  rewrite (bind_Done _ _ _ _ _ (wakeup_me 1 b _ me _ (ip_nested _ _ _ _ _ _ _ Hin3) (ip_free _ _ _ _ _ _ _ Hin3)
    (ip_cur _ _ _ _ _ _ _ Hin3))).
  rewrite (bind_Done _ _ _ _ _ (rel_pipe _ _ _ _ _ _ _ (in_pipe_woken (ch_nwrite pi) _ _ _ _ _ _ _ Hin3))).
  conjs; try done; [|by rewrite <- (Z.add_0_r addr)]. unfold ret. f_equal.
  rewrite <- (on_cpu_twice me (Cpu 0 b b) (Cpu 1 b false) (woken _ _ _)). f_equal.
  rewrite <- (upd_pipe_twice pi _ ph s), <- (upd_pipe_twice pi _ q (upd_pipe pi ph s)). done.
Qed.
End PipeQueue.
