(* ===== verification/PrintfSpec.v ===== *)
(** * What the kernel's [printf] prints

    [renders fmt ap out]: [out] is the text for a format and its arguments,
    with integers as numerals.  [printf] sends exactly that text to the UART. *)

From S2P Require Import Prelude Memory Riscv Spinlock Kalloc Vm Bio Log Txn Fs Kern Proc Printf.

(** ** Numerals *)

Definition digit_val (c : Z) : Z := if c <? 58 then c - 48 else c - 87.
Definition numeral_val (base : Z) (ds : list Z) : Z := foldl (fun v c => v * base + digit_val c) 0 ds.
(** [ds] is the numeral of the natural number [x]: digits of the base, no
    leading zero. *)
Definition is_numeral (base x : Z) (ds : list Z) : Prop :=
  numeral_val base ds = x /\ ds <> [] /\ (exists d, 0 <= d < base /\ head ds = Some (digit d) /\ (d = 0 -> ds = [digit 0])) /\
  Forall (fun c => exists d, 0 <= d < base /\ c = digit d) ds.
(** A numeral with its sign. *)
Definition is_integer (base xx : Z) (ds : list Z) : Prop :=
  if xx <? 0 then exists ds', ds = 45 :: ds' /\ is_numeral base (- xx) ds' else is_numeral base xx ds.

Lemma digit_range d : 0 <= d < 16 -> 0 <= digit d < 128 /\ digit_val (digit d) = d.
Proof.
  intros Hd. assert (Hc : d ∈ upto 16) by (by apply elem_upto).
  assert (Hall : Forall (fun d => (0 <=? digit d) && (digit d <? 128) && (digit_val (digit d) =? d) = true) (upto 16)).
  { vm_compute. repeat constructor. }
  rewrite Forall_forall in Hall. specialize (Hall d Hc).
  apply andb_true_iff in Hall as [[H1%Z.leb_le H2%Z.ltb_lt]%andb_true_iff H3%Z.eqb_eq]. done.
Qed.

Lemma numeral_snoc base ds c : numeral_val base (ds ++ [c]) = numeral_val base ds * base + digit_val c.
Proof. unfold numeral_val. by rewrite foldl_app. Qed.

(** The digits come out least significant first. *)
Lemma print_digits_numeral k fuel base x : 2 <= base <= 16 -> 0 <= x < base ^ Z.of_nat k -> (0 < k <= fuel)%nat ->
  exists ds, print_digits fuel x base = Some ds /\ is_numeral base x (rev ds) /\ (length ds <= k)%nat.
Proof.
  intros Hb. revert fuel x. induction k as [|k IH]; intros fuel x Hx Hf; [lia|].
  destruct fuel as [|fuel]; [lia|]. cbn [print_digits].
  assert (Hmod : 0 <= x mod base < base) by (apply Z.mod_pos_bound; lia).
  assert (Hdiv : x = base * (x / base) + x mod base) by (apply Z.div_mod; lia).
  destruct (digit_range (x mod base)) as [Hr Hv]; [lia|].
  destruct (Z.eqb_spec (x / base) 0) as [E|E].
  - exists [digit (x mod base)]. simpl. split; [done|]. split; [|lia]. unfold is_numeral, numeral_val. simpl.
    conjs; try done; [lia| |].
    + exists (x mod base). conjs; [lia|lia|done|]. by intros ->.
    + constructor; [eauto|done].
  - rewrite Nat2Z.inj_succ, Z.pow_succ_r in Hx by lia.
    destruct (IH fuel (x / base)) as (ds & Hds & (Hval & Hne & (d & Hd & Hhd & H0) & Hall) & Hlen).
    { split; [apply Z.div_pos; lia|]. apply Z.div_lt_upper_bound; lia. }
    { destruct k; [|lia]. simpl in Hx. assert (x / base = 0) by (apply Z.div_small; lia). lia. }
    rewrite Hds. simpl. eexists. split; [reflexivity|]. split; [|simpl; lia].
    cbn [rev]. unfold is_numeral. rewrite numeral_snoc, Hval, Hv. conjs.
    + lia.
    + by destruct (rev ds).
    + exists d. conjs; [lia|lia| |].
      * destruct (rev ds); [done|]. done.
      * intros ->. exfalso. specialize (H0 eq_refl). rewrite H0 in Hval. unfold numeral_val in Hval. simpl in Hval.
        destruct (digit_range 0) as [_ Hz]; [lia|]. lia.
    + apply Forall_app. split; [done|]. constructor; [eauto|done].
Qed.

(** Ten decimal or eight hexadecimal digits and a sign fit the buffer. *)
Lemma printint_buf_ok xx base : base = 10 \/ base = 16 -> - 2 ^ 31 <= xx < 2 ^ 31 ->
  exists buf, printint_buf xx base true = Some buf /\ is_integer base xx (rev buf).
Proof.
  intros Hb Hx. unfold printint_buf, is_integer. cbn [andb].
  set (x := if xx <? 0 then u32 (- xx) else u32 xx).
  assert (Hxv : x = Z.abs xx) by (unfold x, u32; destruct (Z.ltb_spec xx 0); rewrite Z.mod_small; lia).
  destruct (print_digits_numeral 10 16 base x ltac:(lia)) as (ds & Hds & Hnum & Hlen); [|lia|].
  { rewrite Hxv. destruct Hb as [-> | ->]; simpl; lia. }
  rewrite Hds. simpl. rewrite Hxv in Hnum. destruct (Z.ltb_spec xx 0).
  - rewrite decide_True by (rewrite length_app; simpl; lia). eexists. split; [reflexivity|].
    exists (rev ds). rewrite rev_unit. split; [done|]. by rewrite Z.abs_neq in Hnum by lia.
  - rewrite decide_True by lia. eexists. split; [reflexivity|]. by rewrite Z.abs_eq in Hnum by lia.
Qed.

(** A natural number has one numeral. *)
Lemma digits_nonneg base ds : Forall (fun c => exists d, 0 <= d < base /\ c = digit d) ds -> 2 <= base <= 16 ->
  0 <= numeral_val base ds.
Proof.
  intros Hall Hb. induction ds as [|c ds IH] using rev_ind; [done|]. apply Forall_app in Hall as [H1 H2].
  inversion H2 as [|? ? (d & Hd & ->)]; subst. rewrite numeral_snoc. destruct (digit_range d) as [_ ->]; [lia|].
  specialize (IH H1). nia.
Qed.

Lemma numeral_last base x ds c : 2 <= base <= 16 -> is_numeral base x (ds ++ [c]) ->
  c = digit (x mod base) /\ (ds = [] /\ x / base = 0 \/ is_numeral base (x / base) ds /\ 0 < x / base).
Proof.
  intros Hb (Hval & Hne & (d & Hd & Hhd & H0) & Hall). apply Forall_app in Hall as [H1 H2].
  inversion H2 as [|? ? (e & He & ->)]; subst. rewrite numeral_snoc. destruct (digit_range e) as [_ ->]; [lia|].
  set (v := numeral_val base ds) in *.
  assert (Hm : (v * base + e) mod base = e) by (rewrite Z.add_comm, Z.mod_add, Z.mod_small; lia).
  assert (Hv : (v * base + e) / base = v) by (rewrite Z.add_comm, Z.div_add, Z.div_small; lia).
  rewrite Hm, Hv. split; [done|]. destruct ds as [|c ds]; [by left|]. right.
  pose proof (digits_nonneg base (c :: ds) H1 Hb) as Hpos. fold v in Hpos. simpl in Hhd. injection Hhd as ->.
  assert (d <> 0). { intros ->. specialize (H0 eq_refl). destruct ds; done. }
  assert (Hvd : 0 < v).
  { assert (Hgrow : forall l w, 0 < w -> Forall (fun c => exists d, 0 <= d < base /\ c = digit d) l ->
      0 < foldl (fun v c => v * base + digit_val c) w l).
    { induction l as [|a l IHl]; intros w Hw Hl; [done|]. inversion Hl as [|? ? (f & Hf & ->)]; subst. simpl.
      destruct (digit_range f) as [_ ->]; [lia|]. apply IHl; [nia|done]. }
    unfold v, numeral_val. simpl. inversion H1; subst. destruct (digit_range d) as [_ ->]; [lia|]. apply Hgrow; [lia|done]. }
  split; [|lia]. unfold is_numeral. fold v. conjs; try done. exists d. conjs; try done; lia.
Qed.

Lemma numeral_unique base x ds1 ds2 : 2 <= base <= 16 -> is_numeral base x ds1 -> is_numeral base x ds2 -> ds1 = ds2.
Proof.
  intros Hb. revert x ds2. induction ds1 as [|c1 ds1 IH] using rev_ind; intros x ds2 H1 H2.
  { by destruct H1 as (_ & ? & _). }
  destruct (decide (ds2 = [])) as [->|Hne]; [by destruct H2 as (_ & ? & _)|].
  destruct (exists_last Hne) as (ds & c2 & ->).
  destruct (numeral_last _ _ _ _ Hb H1) as [-> [[-> E1]|[N1 E1]]], (numeral_last _ _ _ _ Hb H2) as [-> [[-> E2]|[N2 E2]]];
    try lia; [done|]. f_equal. by apply (IH (x / base)).
Qed.

Lemma printint_buf_unique xx base ds : base = 10 \/ base = 16 -> - 2 ^ 31 <= xx < 2 ^ 31 -> is_integer base xx ds ->
  printint_buf xx base true = Some (rev ds).
Proof.
  intros Hb Hx Hi. destruct (printint_buf_ok xx base Hb Hx) as (buf & -> & Hbuf). f_equal.
  rewrite <- (rev_involutive buf). f_equal. unfold is_integer in *. destruct (xx <? 0).
  - destruct Hi as (d1 & -> & H1), Hbuf as (d2 & -> & H2). f_equal. eapply numeral_unique; [|done..]. lia.
  - eapply numeral_unique; [|done..]. lia.
Qed.

Lemma integer_plain base xx ds : base = 10 \/ base = 16 -> is_integer base xx ds -> Forall (fun c => 0 <= c < 256) ds.
Proof.
  intros Hb. assert (Hn : forall x l, is_numeral base x l -> Forall (fun c => 0 <= c < 256) l).
  { intros x l (_ & _ & _ & Hall). eapply Forall_impl; [done|]. intros c (d & Hd & ->).
    destruct (digit_range d); lia. }
  unfold is_integer. destruct (xx <? 0); [|apply Hn]. intros (ds' & -> & H). constructor; [lia|by eapply Hn].
Qed.

(** ** Formats *)

(** A character [consputc] sends as it is. *)
Definition plain (c : Z) : Prop := 0 <= c < 256.

Inductive renders : list Z -> list varg -> list Z -> Prop :=
| r_end ap : renders [] ap []
| r_char c fmt ap out : c <> 37 -> plain c -> renders fmt ap out -> renders (c :: fmt) ap (c :: out)
| r_last ap : renders [37] ap []
| r_d x ds fmt ap out : - 2 ^ 31 <= x < 2 ^ 31 -> is_integer 10 x ds -> renders fmt ap out ->
    renders (37 :: 100 :: fmt) (AInt x :: ap) (ds ++ out)
| r_x x ds fmt ap out : - 2 ^ 31 <= x < 2 ^ 31 -> is_integer 16 x ds -> renders fmt ap out ->
    renders (37 :: 120 :: fmt) (AInt x :: ap) (ds ++ out)
| r_p x fmt ap out : 0 <= x < 2 ^ 64 -> renders fmt ap out ->
    renders (37 :: 112 :: fmt) (APtr x :: ap)
      ([48; 120] ++ ((fun k => digit (x / 16 ^ (15 - k) mod 16)) <$> upto 16) ++ out)
| r_s s fmt ap out : Forall plain s -> renders fmt ap out ->
    renders (37 :: 115 :: fmt) (AStr (Some s) :: ap) (s ++ out)
| r_null fmt ap out : renders fmt ap out -> renders (37 :: 115 :: fmt) (AStr None :: ap) (str "(null)" ++ out)
| r_percent fmt ap out : renders fmt ap out -> renders (37 :: 37 :: fmt) ap (37 :: out)
| r_other c fmt ap out : c ∉ [100; 120; 112; 115; 37] -> plain c -> renders fmt ap out ->
    renders (37 :: c :: fmt) ap (37 :: c :: out).

(** ** Pointers *)

Lemma top_digit x k : 0 <= x -> 0 <= k <= 15 -> Z.shiftr (u64 (x * 16 ^ k)) 60 = x / 16 ^ (15 - k) mod 16.
Proof.
  intros Hx Hk. rewrite Z.shiftr_div_pow2 by lia. unfold u64.
  replace (2 ^ 64) with (16 ^ (16 - k) * 16 ^ k)
    by (rewrite <- Z.pow_add_r by lia; by replace (16 - k + k) with 16 by lia).
  replace (2 ^ 60) with (16 ^ (15 - k) * 16 ^ k)
    by (rewrite <- Z.pow_add_r by lia; by replace (15 - k + k) with 15 by lia).
  assert (H1 : 0 < 16 ^ k) by (apply Z.pow_pos_nonneg; lia).
  assert (H2 : 0 < 16 ^ (15 - k)) by (apply Z.pow_pos_nonneg; lia).
  rewrite Z.mul_mod_distr_r, Z.div_mul_cancel_r by lia.
  replace (16 ^ (16 - k)) with (16 ^ (15 - k) * 16)
    by (replace (16 - k) with (Z.succ (15 - k)) by lia; rewrite Z.pow_succ_r by lia; lia).
  rewrite Z.rem_mul_r by lia.
  rewrite Z.mul_comm, Z.div_add by lia. rewrite Z.div_small by (apply Z.mod_pos_bound; lia). lia.
Qed.

Lemma ptr_digits_eq n k x : 0 <= x -> 0 <= k -> k + Z.of_nat n <= 16 ->
  ptr_digits n (u64 (x * 16 ^ k)) = (fun j => digit (x / 16 ^ (15 - (k + j)) mod 16)) <$> upto (Z.of_nat n).
Proof.
  revert k. induction n as [|n IH]; intros k Hx Hk Hn; [done|]. cbn [ptr_digits].
  rewrite Nat2Z.inj_succ, <- Z.add_1_r, upto_cons by lia. cbn [fmap list_fmap].
  rewrite top_digit by lia. f_equal; [f_equal; f_equal; f_equal; f_equal; lia|].
  replace (u64 (Z.shiftl (u64 (x * 16 ^ k)) 4)) with (u64 (x * 16 ^ (k + 1))).
  - rewrite IH by lia. change (list_fmap _ _ ?f ?l) with (f <$> l). rewrite <- list_fmap_compose.
    apply list_fmap_ext. intros ? j _. simpl. f_equal. f_equal. f_equal. f_equal. lia.
  - unfold u64. rewrite Z.shiftl_mul_pow2, Z.mul_mod_idemp_l, Z.pow_add_r by lia. f_equal. lia.
Qed.

(** ** Sending *)

(** The device is ready for [n] characters. *)
Definition tx_ready (n : nat) (u : uart) : Prop :=
  (n <= length (ua_lsr u))%nat /\ Forall (fun v => Z.land v LSR_TX_IDLE <> 0) (take n (ua_lsr u)).
(** After sending [out]. *)
Definition sent (out : list Z) (s : kern) : kern :=
  let u := kn_uart s in
  set_uart (set_ua_wr (ua_wr u ++ ((fun c => (THR, c)) <$> out)) (set_ua_lsr (drop (length out) (ua_lsr u)) u)) s.

Section Sending.
Context `{HC : Ctx} `{HI : Image} `{HF : Frame} `{HS : Syms}.

Lemma sent_nil s : sent [] s = s.
Proof. destruct s. unfold sent, set_uart, set_ua_wr, set_ua_lsr; simpl. rewrite app_nil_r. by destruct kn_uart. Qed.
Lemma sent_app o1 o2 s : sent o2 (sent o1 s) = sent (o1 ++ o2) s.
Proof.
  unfold sent, set_uart, set_ua_wr, set_ua_lsr; simpl. by rewrite fmap_app, app_assoc, drop_drop, length_app.
Qed.
Lemma sent_ready n o s : tx_ready (length o + n) (kn_uart s) -> tx_ready n (kn_uart (sent o s)).
Proof.
  intros [Hl Hf]. split; simpl.
  - rewrite length_drop. lia.
  - rewrite take_drop_commute. by apply Forall_drop.
Qed.
Lemma sent_nested n i o s : nested n i s -> nested n i (sent o s).
Proof. done. Qed.

Lemma uartputc_sync_ok n i c s : nested n i s -> kn_panicked s = false -> tx_ready 1 (kn_uart s) -> 0 <= c < 256 ->
  uartputc_sync c s = Done tt (sent [c] s).
Proof.
  intros (Hin & Hc & Hn) Hp [Hl Hf] Hr. unfold uartputc_sync.
  set (s1 := lset cpu_lens (Cpu (n + 1) i false) s).
  assert (Hpush : lift cpu_lens (modify push_off) s = Done tt s1).
  { unfold lift, modify. simpl. by rewrite Hc, push_off_nested. }
  rewrite (bind_Done _ _ _ _ _ Hpush), (bind_Done (gets kn_panicked) _ s1 _ s1 eq_refl).
  change (kn_panicked s1) with (kn_panicked s). rewrite Hp, (bind_Done (gets kn_uart) _ s1 _ s1 eq_refl).
  change (kn_uart s1) with (kn_uart s). destruct (ua_lsr (kn_uart s)) as [|v l] eqn:El; [simpl in Hl; lia|].
  simpl in Hf. inversion Hf as [|? ? Hv _]; subst.
  set (s2 := set_uart (set_ua_lsr l (kn_uart s)) s1).
  assert (Hspin : tx_spin (length (v :: l)) s1 = Done tt s2).
  { cbn [length tx_spin]. unfold bind at 1, ReadLSR, bind, gets, updu, modify, ret. simpl.
    change (kn_uart s1) with (kn_uart s). rewrite El. simpl.
    destruct (Z.eqb_spec (Z.land v LSR_TX_IDLE) 0); done. }
  rewrite (bind_Done _ _ _ _ _ Hspin). unfold WriteReg, updu. rewrite (bind_Done (modify _) _ s2 tt _ eq_refl).
  set (s3 := set_uart _ s2). unfold lift. simpl.
  assert (Hc3 : my_cpu s3 = Cpust (cur s) (Cpu (n + 1) i false)).
  { change (my_cpu s3) with (my_cpu s1). by apply my_cpu_lset. }
  rewrite Hc3. cbn [cs_cpu]. rewrite pop_off_nested by done. f_equal. unfold cur at 1. rewrite Hc3. cbn [cs_proc].
  unfold sent. rewrite El. cbn [length drop fmap list_fmap]. unfold s3, s2. unfold upd_cpu, set_cpus. simpl.
  rewrite u8_small by lia. unfold set_uart. simpl. f_equal.
  rewrite list_insert_insert_eq.
  assert (Hback : upd_cpu (Cpust (cur s) (Cpu n i false)) s = s).
  { apply upd_cpu_same; [done|]. unfold cur. rewrite <- Hc. by destruct (my_cpu s). }
  apply (f_equal kn_cpus) in Hback. exact Hback.
Qed.

Lemma consputc_ok n i c s : nested n i s -> kn_panicked s = false -> tx_ready 1 (kn_uart s) -> plain c ->
  consputc c s = Done tt (sent [c] s).
Proof.
  intros Hn Hp Hr Hc. unfold consputc. destruct (Z.eqb_spec c BACKSPACE) as [->|_].
  - unfold plain, BACKSPACE in Hc. lia.
  - by apply (uartputc_sync_ok n i).
Qed.

Lemma puts_ok n i out s : nested n i s -> kn_panicked s = false -> tx_ready (length out) (kn_uart s) ->
  Forall plain out -> for_each out consputc s = Done tt (sent out s).
Proof.
  intros Hn Hp Hr Hall. revert s Hn Hp Hr. induction Hall as [|c out Hc _ IH]; intros s Hn Hp Hr.
  { by rewrite sent_nil. }
  cbn [for_each]. erewrite bind_Done.
  2: { apply (consputc_ok n i); try done. destruct Hr as [Hl Hf]. simpl in Hl. split; [lia|].
       destruct (ua_lsr (kn_uart s)); [simpl in Hl; lia|]. simpl in *. inversion Hf; subst. by constructor. }
  rewrite IH; try done.
  - by rewrite sent_app.
  - by apply (sent_ready (length out) [c]).
Qed.

Lemma ready_le a b u : (a <= b)%nat -> tx_ready b u -> tx_ready a u.
Proof.
  intros Hab [Hl Hf]. split; [lia|]. replace (take a (ua_lsr u)) with (take a (take b (ua_lsr u))).
  - by apply Forall_take.
  - rewrite take_take. f_equal. lia.
Qed.

(** One piece of output, then the rest. *)
Lemma then_sent n i (m k : M kern unit) o1 o2 s :
  nested n i s -> kn_panicked s = false -> tx_ready (length (o1 ++ o2)) (kn_uart s) ->
  m s = Done tt (sent o1 s) ->
  (nested n i (sent o1 s) -> kn_panicked (sent o1 s) = false -> tx_ready (length o2) (kn_uart (sent o1 s)) ->
   k (sent o1 s) = Done tt (sent o2 (sent o1 s))) ->
  (m ;;; k) s = Done tt (sent (o1 ++ o2) s).
Proof.
  intros Hn Hp Hr Hm Hk. rewrite (bind_Done _ _ _ _ _ Hm), Hk, sent_app; try done.
  rewrite length_app in Hr. by apply sent_ready.
Qed.

Lemma printint_ok n i xx base ds s : nested n i s -> kn_panicked s = false -> tx_ready (length ds) (kn_uart s) ->
  base = 10 \/ base = 16 -> - 2 ^ 31 <= xx < 2 ^ 31 -> is_integer base xx ds ->
  printint xx base true s = Done tt (sent ds s).
Proof.
  intros Hn Hp Hr Hb Hx Hi. unfold printint. rewrite (printint_buf_unique xx base ds Hb Hx Hi), rev_involutive.
  apply (puts_ok n i); try done. by eapply integer_plain.
Qed.

Definition ptr_text (x : Z) : list Z := [48; 120] ++ ((fun k => digit (x / 16 ^ (15 - k) mod 16)) <$> upto 16).

Lemma printptr_ok n i x s : nested n i s -> kn_panicked s = false -> tx_ready (length (ptr_text x)) (kn_uart s) ->
  0 <= x < 2 ^ 64 -> printptr x s = Done tt (sent (ptr_text x) s).
Proof.
  intros Hn Hp Hr Hx. unfold printptr.
  assert (Hd : ptr_digits 16 x = (fun k => digit (x / 16 ^ (15 - k) mod 16)) <$> upto 16).
  { rewrite <- (u64_small x) at 1 by lia. rewrite <- (Z.mul_1_r x) at 1. exact (ptr_digits_eq 16 0 x ltac:(lia) ltac:(lia) ltac:(lia)). }
  rewrite Hd. unfold ptr_text in *. set (ds := _ <$> upto 16) in *.
  assert (Hpl : Forall plain ds).
  { unfold ds. apply Forall_fmap, Forall_forall. intros k _. simpl. unfold plain.
    destruct (digit_range (x / 16 ^ (15 - k) mod 16)); [apply Z.mod_pos_bound; lia|lia]. }
  apply (then_sent n i (consputc 48) _ [48] ([120] ++ ds)); try done.
  { apply (consputc_ok n i); try done. by eapply ready_le; [|exact Hr]; simpl; lia. }
  intros. apply (then_sent n i (consputc 120) _ [120] ds); try done.
  { apply (consputc_ok n i); try done. by eapply ready_le; [|done]; simpl; lia. }
  intros. by apply (puts_ok n i).
Qed.

Lemma printf_loop_ok n i fmt ap out s : renders fmt ap out -> nested n i s -> kn_panicked s = false ->
  tx_ready (length out) (kn_uart s) -> printf_loop fmt ap s = Done tt (sent out s).
Proof.
  intros Hren. revert s. induction Hren; intros s0 Hn Hp Hr; cbn [printf_loop].
  - by rewrite sent_nil.
  - destruct (Z.eqb_spec c 37); [done|]. cbn [negb]. apply (then_sent n i _ _ [c] out); try done; [|auto].
    apply (consputc_ok n i); try done. eapply ready_le; [|exact Hr]. simpl. lia.
  - by rewrite sent_nil.
  - cbn [negb Z.eqb Pos.eqb]. apply (then_sent n i); try done; [|auto].
    apply (printint_ok n i); try done; [|by left]. eapply ready_le; [|exact Hr]. rewrite length_app. lia.
  - cbn [negb Z.eqb Pos.eqb]. apply (then_sent n i); try done; [|auto].
    apply (printint_ok n i); try done; [|by right]. eapply ready_le; [|exact Hr]. rewrite length_app. lia.
  - cbn [negb Z.eqb Pos.eqb]. rewrite app_assoc in *. apply (then_sent n i); try done; [|auto].
    apply (printptr_ok n i); try done. eapply ready_le; [|exact Hr]. rewrite length_app. unfold ptr_text. lia.
  - cbn [negb Z.eqb Pos.eqb]. apply (then_sent n i); try done; [|auto].
    apply (puts_ok n i); try done. eapply ready_le; [|exact Hr]. rewrite length_app. lia.
  - cbn [negb Z.eqb Pos.eqb]. apply (then_sent n i); try done; [|auto]. apply (puts_ok n i); try done.
    + eapply ready_le; [|exact Hr]. rewrite length_app. lia.
    + vm_compute. repeat constructor; discriminate.
  - cbn [negb Z.eqb Pos.eqb]. apply (then_sent n i _ _ [37] out); try done; [|auto].
    apply (consputc_ok n i); try done. eapply ready_le; [|exact Hr]. simpl. lia.
  - cbn [negb Z.eqb Pos.eqb]. rewrite !not_elem_of_cons in H. destruct H as (? & ? & ? & ? & ? & _).
    rewrite (proj2 (Z.eqb_neq c 100)), (proj2 (Z.eqb_neq c 120)), (proj2 (Z.eqb_neq c 112)), (proj2 (Z.eqb_neq c 115)),
      (proj2 (Z.eqb_neq c 37)) by done. apply (then_sent n i _ _ [37] (c :: out)); try done.
    { apply (consputc_ok n i); try done. eapply ready_le; [|exact Hr]. simpl. lia. }
    intros. apply (then_sent n i _ _ [c] out); try done; [|auto].
    apply (consputc_ok n i); try done. eapply ready_le; [|done]. simpl. lia.
Qed.

#[export] Instance pr_klock : KLock pr_lens.
Proof. split; intros; done. Qed.

(** C30: the kernel's [printf] sends exactly the text of its format to the
    UART: characters as they are, [%d] and [%x] as the signed decimal or
    hexadecimal numeral of the 32-bit argument without leading zeros, [%p] as
    16 hexadecimal digits, [%s] as the string.  It returns with the lock of
    [printf] free, the device having been given only these bytes. *)
Theorem printf_correct fmt ap out me j b s :
  renders fmt ap out -> cpu_in s -> cs_cpu (my_cpu s) = Cpu 0 j b -> cur s = Some me ->
  pr_locking (kn_pr s) = true -> unlocked (pr_lock (kn_pr s)) -> kn_panicked s = false ->
  tx_ready (length out) (kn_uart s) ->
  printf fmt ap s = Done tt (on_cpu me (Cpu 0 b b) (sent out s)).
Proof.
  intros Hren Hin Hc Hme Hlk Hu Hp Hr. unfold printf. rewrite (bind_Done (gets kn_pr) _ s _ s eq_refl).
  cbv zeta. rewrite Hlk. cbn [when]. rewrite (bind_Done _ _ _ _ _ (acq_outer pr_lens j b me s Hin Hc Hme Hu)).
  set (s1 := on_cpu me (Cpu 1 b false) _).
  assert (Hc1 : my_cpu s1 = Cpust (Some me) (Cpu 1 b false)) by (by apply my_cpu_upd).
  assert (Hn1 : nested 1 b s1).
  { split; [unfold cpu_in; simpl; by rewrite length_insert|]. by rewrite Hc1. }
  rewrite (bind_Done _ _ _ _ _ (printf_loop_ok 1 b fmt ap out s1 Hren Hn1 Hp Hr)).
  rewrite (rel_outer pr_lens b (pr_lock (kn_pr s)) me (sent out s1)); try done.
  - f_equal. unfold s1. rewrite <- (on_cpu_twice me (Cpu 0 b b) (Cpu 1 b false) (sent out s)). f_equal.
    unfold on_cpu, upd_cpu, sent. simpl. destruct s; simpl. by destruct kn_pr.
  - change (my_cpu (sent out s1)) with (my_cpu s1). by rewrite Hc1.
  - unfold cur. change (my_cpu (sent out s1)) with (my_cpu s1). by rewrite Hc1.
Qed.
End Sending.
