(* ===== verification/ConsoleSpec.v ===== *)
(** * The UART's transmit queue and the console's line editor

    The transmit buffer is a queue: bytes leave for the device in the order
    [uartputc] accepted them.  The console's buffer holds the lines that are
    complete (from [r] to [w]) and the line being edited (from [w] to [e]);
    [consoleintr] edits, [consoleread] delivers whole lines. *)

From S2P Require Import Prelude Memory Riscv Spinlock Kalloc Vm VmWalk VmUser VmCopy Bio Log Txn Fs Kern Proc Pipe File Printf Console Ring PipeQueue PrintfSpec.

(** ** The UART *)

Definition uq (u : uart) : list Z := rqueue (2 ^ 64) UART_TX_BUF_SIZE (ua_buf u) (ua_r u) (ua_w u).
Definition uart_ok (u : uart) : Prop := ring_ok (2 ^ 64) UART_TX_BUF_SIZE (ua_buf u) (ua_r u) (ua_w u).
(** The bytes given to the device, and all those accepted. *)
Definition uart_out (u : uart) : list Z := omap (fun x => if x.1 =? THR then Some x.2 else None) (ua_wr u).
Definition accepted (u : uart) : list Z := uart_out u ++ uq u.

Lemma uart_ring : 1 < UART_TX_BUF_SIZE /\ UART_TX_BUF_SIZE < 2 ^ 64 /\ (UART_TX_BUF_SIZE | 2 ^ 64).
Proof. split; [done|]. split; [done|]. by exists (2 ^ 59). Qed.

Lemma wake1_idem c me i p : wake1 c me i (wake1 c me i p) = wake1 c me i p.
Proof. unfold wake1. repeat case_decide; simpl in *; naive_solver. Qed.
Lemma wake_idem c me ps : wake c me (wake c me ps) = wake c me ps.
Proof.
  apply list_eq. intros k. rewrite !wake_lookup. destruct (ps !! k); [|done]. simpl. by rewrite wake1_idem.
Qed.

Section UartSpec.
Context `{HC : Ctx} `{HI : Image} `{HO : !ImageOk} `{HF : Frame} `{HS : Syms}.

#[export] Instance ua_klock : KLock ua_lens.
Proof. split; intros; done. Qed.
#[export] Instance cn_klock : KLock cn_lens.
Proof. split; intros; done. Qed.

(** [uartstart] moves bytes from the queue to the device, in order. *)
Lemma uartstart_loop_spec fuel n i me s : nested n i s -> plocks_free s -> cur s = Some me -> uart_ok (kn_uart s) ->
  (length (ua_lsr (kn_uart s)) + 1 < fuel)%nat -> Forall (fun c => 0 <= c < 256) (ua_buf (kn_uart s)) ->
  exists u' ps', uartstart_loop fuel s = Done tt (set_uart u' (set_procs ps' s)) /\
    uart_ok u' /\ accepted u' = accepted (kn_uart s) /\ ua_lock u' = ua_lock (kn_uart s) /\ ua_buf u' = ua_buf (kn_uart s) /\
    (length (uq u') <= length (uq (kn_uart s)))%nat /\
    ps' = (if decide (length (uq u') = length (uq (kn_uart s))) then kn_procs s else wake ch_uart (Some me) (kn_procs s)).
Proof.
  destruct uart_ring as (R1 & R2 & R3).
  revert s. induction fuel as [|fuel IH]; intros s Hn Hf Hme Hok Hfuel Hb; [lia|]. cbn [uartstart_loop].
  set (u := kn_uart s) in *. rewrite (bind_Done (gets kn_uart) _ s u s eq_refl).
  assert (Hstop : forall l, exists u' ps', Done tt (set_uart (set_ua_lsr l u) s) = Done tt (set_uart u' (set_procs ps' s)) /\
    uart_ok u' /\ accepted u' = accepted u /\ ua_lock u' = ua_lock u /\ ua_buf u' = ua_buf u /\
    (length (uq u') <= length (uq u))%nat /\
    ps' = (if decide (length (uq u') = length (uq u)) then kn_procs s else wake ch_uart (Some me) (kn_procs s))).
  { intros l. exists (set_ua_lsr l u), (kn_procs s). conjs; try done. by rewrite decide_True. }
  destruct (Z.eqb_spec (ua_w u) (ua_r u)) as [He|He].
  { destruct (Hstop (ua_lsr u)) as (u' & ps' & H & Hrest). exists u', ps'. split; [|done]. rewrite <- H.
    unfold ret. f_equal. unfold u. destruct s; simpl. by destruct kn_uart. }
  set (s1 := set_uart (set_ua_lsr (tl (ua_lsr u)) u) s).
  assert (Hlsr : ReadLSR s = Done (hd 0 (ua_lsr u)) s1) by done. rewrite (bind_Done _ _ _ _ _ Hlsr).
  destruct (Z.eqb_spec (Z.land (hd 0 (ua_lsr u)) LSR_TX_IDLE) 0) as [Hi|Hi]; [apply Hstop|].
  assert (Hne : uq u <> []).
  { intros E. pose proof (ring_empty _ _ R1 R2 _ _ _ Hok) as Hz. fold (uq u) in Hz. rewrite E in Hz. simpl in Hz.
    apply Z.eqb_eq in Hz. congruence. }
  destruct (ring_get _ _ R1 R2 R3 _ _ _ Hok Hne) as [Hok2 Hq]. fold (uq u) in Hq.
  set (ch := nth (Z.to_nat (ua_r u mod UART_TX_BUF_SIZE)) (ua_buf u) 0).
  unfold updu at 1. rewrite (bind_Done (modify _) _ s1 tt _ eq_refl).
  set (s2 := set_uart _ s1).
  rewrite (bind_Done _ _ _ _ _ (wakeup_me n i ch_uart me s2 Hn Hf Hme)).
  unfold WriteReg, updu. rewrite (bind_Done (modify _) _ (woken ch_uart me s2) tt _ eq_refl).
  set (s3 := set_uart _ (woken ch_uart me s2)).
  assert (Hch : 0 <= ch < 256).
  { unfold ch. destruct (nth_in_or_default (Z.to_nat (ua_r u mod UART_TX_BUF_SIZE)) (ua_buf u) 0) as [Hin|E]; [|lia].
    rewrite List.Forall_forall in Hb. by apply Hb. }
  assert (Hq3 : uq u = ch :: uq (kn_uart s3)) by exact Hq.
  assert (Hacc : accepted (kn_uart s3) = accepted u).
  { unfold accepted. rewrite Hq3. unfold uart_out at 1. simpl. rewrite omap_app. simpl.
    rewrite u8_small by lia. by rewrite <- app_assoc. }
  destruct (IH s3) as (u' & ps' & Hrun & Hok' & Ha' & Hl' & Hbf & Hlen & Hps); try done.
  - apply (plocks_free_wake ch_uart s2) in Hf as Hf3. change (cur s2) with (cur s) in Hf3. rewrite Hme in Hf3. done.
  - change (ua_lsr (kn_uart s3)) with (tl (ua_lsr u)). destruct (ua_lsr u); [done|]. simpl in *. lia.
  - exists u', ps'. rewrite Hrun. conjs; try done.
    + congruence.
    + rewrite Hq3. cbn [length]. lia.
    + rewrite Hps, Hq3. cbn [length]. rewrite (decide_False (P := length (uq u') = S _)) by lia.
      change (kn_procs s3) with (wake ch_uart (Some me) (kn_procs s)). case_decide; [done|]. apply wake_idem.
Qed.

(** [uartputc] queues a byte for the device.  If the transmit buffer has
    room, the byte is accepted after all earlier ones: the bytes sent followed
    by those still queued are the bytes accepted before followed by [c], and
    the writers waiting for room are woken if any byte was sent.  If it is full
    the caller sleeps on [uart_tx_r] and nothing changes. *)
Theorem uartputc_correct c s me pr b :
  running s me pr b -> unlocked (ua_lock (kn_uart s)) -> kn_panicked s = false -> uart_ok (kn_uart s) ->
  Forall (fun c => 0 <= c < 256) (ua_buf (kn_uart s)) ->
  if decide (Z.of_nat (length (uq (kn_uart s))) = UART_TX_BUF_SIZE)
  then uartputc c s = Sleep ch_uart (asleep ch_uart me pr (on_cpu me (Cpu 1 b false) s))
  else exists u' ps', uartputc c s = Done tt (on_cpu me (Cpu 0 b b) (set_uart u' (set_procs ps' s))) /\
    uart_ok u' /\ accepted u' = accepted (kn_uart s) ++ [u8 c] /\ ua_lock u' = ua_lock (kn_uart s) /\
    ps' = (if decide (length (uq u') = S (length (uq (kn_uart s)))) then kn_procs s
           else wake ch_uart (Some me) (kn_procs s)).
Proof.
  intros Hrun Hu Hp Hok Hb. destruct uart_ring as (R1 & R2 & R3).
  destruct (running_acq ua_lens s me pr b Hrun Hu) as [Hacq Hin].
  set (s1 := on_cpu me (Cpu 1 b false) _) in *. unfold uartputc. rewrite (bind_Done _ _ _ _ _ Hacq).
  rewrite (bind_Done (gets kn_panicked) _ s1 _ s1 eq_refl). change (kn_panicked s1) with (kn_panicked s). rewrite Hp.
  rewrite (bind_Done (gets kn_uart) _ s1 _ s1 eq_refl).
  pose proof (ring_full _ _ R1 R2 _ _ _ Hok) as Hfull. fold (uq (kn_uart s)) in Hfull.
  change (ua_w (kn_uart s1) =? u64 (ua_r (kn_uart s1) + UART_TX_BUF_SIZE))
    with (ua_w (kn_uart s) =? (ua_r (kn_uart s) + UART_TX_BUF_SIZE) mod 2 ^ 64). rewrite Hfull.
  assert (Hback : lset ua_lens (ua_lock (kn_uart s)) s1 = on_cpu me (Cpu 1 b false) s).
  { unfold s1. simpl. destruct s; simpl. by destruct kn_uart. }
  destruct (decide _) as [He|Hne].
  - rewrite He. cbn [Z.eqb]. rewrite Z.eqb_refl.
    rewrite (ksleep_ok ua_lens (ua_lock (kn_uart s)) b ch_uart me pr s1); try done; try apply Hin.
    + by rewrite Hback.
    + by apply (proj2 (li_free _ _ _ _ Hin) me), Hin.
  - rewrite (proj2 (Z.eqb_neq _ _) Hne).
    assert (Hlt : Z.of_nat (length (uq (kn_uart s))) < UART_TX_BUF_SIZE).
    { destruct Hok as [_ _ _ Hc]. rewrite <- (length_rqueue _ _ R1 R2 (ua_buf (kn_uart s))) in Hc. fold (uq (kn_uart s)) in Hc. lia. }
    destruct (ring_put _ _ R1 R2 R3 _ _ _ (u8 c) Hok Hlt) as [Hok2 Hq2]. fold (uq (kn_uart s)) in Hq2.
    unfold updu. do 2 rewrite (bind_Done (modify _) _ _ tt _ eq_refl). set (s2 := set_uart _ (set_uart _ s1)).
    change (rqueue _ _ _ _ _) with (uq (kn_uart s2)) in Hq2. change (ring_ok _ _ _ _ _) with (uart_ok (kn_uart s2)) in Hok2.
    assert (Hacc : accepted (kn_uart s2) = accepted (kn_uart s) ++ [u8 c]).
    { unfold accepted. rewrite Hq2, app_assoc. done. }
    destruct (uartstart_loop_spec (length (ua_lsr (kn_uart s2)) + 2) 1 b me s2)
      as (u' & ps' & Hr & Hok' & Ha' & Hl' & _ & Hlen & Hps); try apply Hin; try done; try lia.
    { apply Forall_insert; [done|]. apply u8_range. }
    exists (set_ua_lock (ua_lock (kn_uart s)) u'), ps'.
    unfold uartstart. unfold bind at 1. rewrite (bind_Done (gets kn_uart) _ s2 _ s2 eq_refl), Hr.
    rewrite (rel_outer ua_lens b (ua_lock (kn_uart s)) me); try done.
    + conjs; try done.
      * rewrite <- (on_cpu_twice me (Cpu 0 b b) (Cpu 1 b false) (set_uart _ _)). done.
      * by rewrite <- Hacc, <- Ha'.
      * change (uq (set_ua_lock _ u')) with (uq u'). rewrite Hps, Hq2, length_app. simpl.
        change (kn_procs s2) with (kn_procs s). repeat case_decide; done || lia.
    + change (my_cpu (set_uart u' (set_procs ps' s2))) with (my_cpu s1).
      by destruct (li_nested _ _ _ _ Hin) as (_ & -> & _).
    + exact (li_cur _ _ _ _ Hin).
Qed.
End UartSpec.

(** ** The line discipline

    What the console promises its readers: complete lines (the bytes between
    [cons.r] and [cons.w]) and a line being edited (up to [cons.e]). *)

Record ldisc := Ldisc { ld_lines : list Z; ld_edit : list Z }.
Definition rubout : list Z := [8; 32; 8].
(** A key: the new contents, the echo, and whether readers are woken. *)
Definition ldisc_key (c : Z) (l : ldisc) : ldisc * list Z * bool :=
  if c =? CTRL_U then (Ldisc (ld_lines l) [], concat (replicate (length (ld_edit l)) rubout), false)
  else if (c =? CTRL_H) || (c =? DEL) then
    match ld_edit l with
    | [] => (l, [], false)
    | _ => (Ldisc (ld_lines l) (removelast (ld_edit l)), rubout, false)
    end
  else if (c =? 0) || (128 <=? Z.of_nat (length (ld_lines l ++ ld_edit l))) then (l, [], false)
  else
    let c' := if c =? CR then NL else c in
    let ed := ld_edit l ++ [c'] in
    if (c' =? NL) || (c' =? CTRL_D) || (Z.of_nat (length (ld_lines l ++ ed)) =? 128)
    then (Ldisc (ld_lines l ++ ed) [], [c'], true)
    else (Ldisc (ld_lines l) ed, [c'], false).

Definition cn_ldisc (cn : console) : ldisc :=
  Ldisc (rqueue (2 ^ 32) INPUT_BUF_SIZE (cn_buf cn) (cn_r cn) (cn_w cn))
        (rqueue (2 ^ 32) INPUT_BUF_SIZE (cn_buf cn) (cn_w cn) (cn_e cn)).
Record cons_ok (cn : console) : Prop := {
  co_lines : ring_ok (2 ^ 32) INPUT_BUF_SIZE (cn_buf cn) (cn_r cn) (cn_w cn);
  co_edit : ring_ok (2 ^ 32) INPUT_BUF_SIZE (cn_buf cn) (cn_w cn) (cn_e cn);
  co_room : Z.of_nat (length (ld_lines (cn_ldisc cn))) + Z.of_nat (length (ld_edit (cn_ldisc cn))) <= INPUT_BUF_SIZE;
  co_nl : NL ∉ ld_edit (cn_ldisc cn)
}.

(** A read of up to [n] bytes: the bytes delivered, the lines left, and whether
    the reader has to wait for more.  A Control-D ends the read; it stays in the
    buffer unless it is the first byte, so that the next read returns 0. *)
Fixpoint ldisc_read (n : nat) (first : bool) (ls : list Z) : list Z * list Z * bool :=
  match n, ls with
  | O, _ => ([], ls, false)
  | S _, [] => ([], [], true)
  | S n', c :: ls' =>
      if c =? CTRL_D then ([], if first then ls' else ls, false)
      else if c =? NL then ([c], ls', false)
      else let '(d, r, blk) := ldisc_read n' false ls' in (c :: d, r, blk)
  end.

Lemma ldisc_read_length n first ls : (length (ldisc_read n first ls).1.1 <= n)%nat.
Proof.
  revert first ls. induction n as [|n IH]; intros first [|c ls]; simpl; try lia.
  destruct (c =? CTRL_D); [simpl; lia|]. destruct (c =? NL); [simpl; lia|].
  specialize (IH false ls). destruct (ldisc_read n false ls) as [[d r] blk]. simpl in *. lia.
Qed.

Lemma cons_ring : 1 < INPUT_BUF_SIZE /\ INPUT_BUF_SIZE < 2 ^ 32 /\ (INPUT_BUF_SIZE | 2 ^ 32).
Proof. unfold INPUT_BUF_SIZE. conjs; [lia|lia|]. by exists (2 ^ 25). Qed.

Section ConsoleSpec.
Context `{HC : Ctx} `{HI : Image} `{HO : !ImageOk} `{HF : Frame} `{HS : Syms}.

Lemma cons_total cn : cons_ok cn ->
  u32 (cn_e cn - cn_r cn) = Z.of_nat (length (ld_lines (cn_ldisc cn) ++ ld_edit (cn_ldisc cn))).
Proof.
  intros [Hl He Hr _]. destruct cons_ring as (R1 & R2 & R3). rewrite length_app, Nat2Z.inj_add. simpl in *.
  rewrite !length_rqueue in * by done. rewrite <- (rcount_split (2 ^ 32) INPUT_BUF_SIZE R1 R2); [done|]. unfold INPUT_BUF_SIZE in *. lia.
Qed.

(** [cons.e--], when a line is being edited *)
Lemma cons_erase cn ed c : cons_ok cn -> ld_edit (cn_ldisc cn) = ed ++ [c] ->
  cons_ok (set_cn_e (u32 (cn_e cn - 1)) cn) /\
  cn_ldisc (set_cn_e (u32 (cn_e cn - 1)) cn) = Ldisc (ld_lines (cn_ldisc cn)) ed /\
  cn_e cn <> cn_w cn /\ cn_at cn (u32 (cn_e cn - 1)) = c.
Proof.
  intros [Hl He Hr Hn] Hed. destruct cons_ring as (R1 & R2 & R3). simpl in Hed.
  destruct (ring_unput _ _ R1 R2 R3 _ _ _ He) as [He' Hq]; [rewrite Hed; by destruct ed|].
  rewrite Hed in Hq. apply app_inj_tail in Hq as [Hq1 Hq2].
  pose proof (ring_empty _ _ R1 R2 _ _ _ He) as Hz. simpl in Hr, Hn. rewrite Hed, length_app in *. simpl in *.
  conjs.
  - split; try done; simpl; unfold u32; rewrite <- Hq1; [lia|]. set_solver.
  - unfold cn_ldisc. simpl. by rewrite Hq1.
  - intros E. rewrite E, Z.eqb_refl in Hz. symmetry in Hz. apply Z.eqb_eq in Hz. lia.
  - by rewrite Hq2.
Qed.
Lemma cons_idle cn : cons_ok cn -> ld_edit (cn_ldisc cn) = [] -> cn_e cn = cn_w cn.
Proof.
  intros [Hl He Hr Hn] Hed. destruct cons_ring as (R1 & R2 & R3).
  pose proof (ring_empty _ _ R1 R2 _ _ _ He) as Hz. simpl in Hed. rewrite Hed in Hz. simpl in Hz.
  by apply Z.eqb_eq in Hz.
Qed.

(** [cons.buf[cons.e++ % INPUT_BUF_SIZE] = c], when there is room *)
Definition cn_type (c : Z) (cn : console) : console :=
  set_cn_e (u32 (cn_e cn + 1)) (set_cn_buf (<[Z.to_nat (cn_e cn mod INPUT_BUF_SIZE) := u8 c]> (cn_buf cn)) cn).
Lemma cons_type c cn : cons_ok cn -> u32 (cn_e cn - cn_r cn) < INPUT_BUF_SIZE ->
  cn_ldisc (cn_type c cn) = Ldisc (ld_lines (cn_ldisc cn)) (ld_edit (cn_ldisc cn) ++ [u8 c]) /\
  (u8 c <> NL -> cons_ok (cn_type c cn)) /\ cons_ok (set_cn_w (cn_e (cn_type c cn)) (cn_type c cn)) /\
  cn_ldisc (set_cn_w (cn_e (cn_type c cn)) (cn_type c cn)) =
    Ldisc (ld_lines (cn_ldisc cn) ++ ld_edit (cn_ldisc cn) ++ [u8 c]) [].
Proof.
  intros Hok Hlt. rewrite (cons_total cn Hok), length_app, Nat2Z.inj_add in Hlt. destruct Hok as [Hl He Hr Hn].
  destruct cons_ring as (R1 & R2 & R3). simpl in Hlt, Hr, Hn.
  destruct (ring_put _ _ R1 R2 R3 _ _ _ (u8 c) He) as [He' Hq]; [lia|].
  pose proof Hlt as Hlt'. rewrite !length_rqueue in Hlt' by done.
  pose proof (ring_put_beyond _ _ R1 R2 R3 (cn_buf cn) _ _ _ (u8 c) Hlt') as Hq0.
  assert (Hd : cn_ldisc (cn_type c cn) = Ldisc (ld_lines (cn_ldisc cn)) (ld_edit (cn_ldisc cn) ++ [u8 c])).
  { unfold cn_ldisc, cn_type. simpl. unfold u32. by rewrite Hq, Hq0. }
  assert (Hl' : ring_ok (2 ^ 32) INPUT_BUF_SIZE (cn_buf (cn_type c cn)) (cn_r cn) (cn_w cn)).
  { destruct Hl, He'. split; try done. }
  assert (Hsum : rcount (2 ^ 32) (cn_r cn) (cn_w cn) + rcount (2 ^ 32) (cn_w cn) (cn_e (cn_type c cn)) <= INPUT_BUF_SIZE).
  { rewrite <- (length_rqueue _ _ R1 R2 (cn_buf (cn_type c cn)) (cn_w cn)).
    change (rqueue _ _ _ (cn_w cn) _) with (ld_edit (cn_ldisc (cn_type c cn))). rewrite Hd. cbn [ld_edit].
    rewrite length_app. simpl. rewrite !Nat2Z.inj_add, length_rqueue by done. lia. }
  pose proof (rqueue_app _ _ R1 R2 R3 (cn_buf (cn_type c cn)) (cn_r cn) (cn_w cn) (cn_e (cn_type c cn)) ltac:(lia)) as Happ.
  assert (Hd' : cn_ldisc (set_cn_w (cn_e (cn_type c cn)) (cn_type c cn)) =
    Ldisc (ld_lines (cn_ldisc cn) ++ ld_edit (cn_ldisc cn) ++ [u8 c]) []).
  { unfold cn_ldisc at 1. simpl. f_equal.
    - etransitivity; [exact Happ|]. injection Hd as E1 E2. f_equal; [exact E1|exact E2].
    - unfold rqueue, rcount. by rewrite Z.sub_diag, Zmod_0_l. }
  conjs; [done| | |done].
  - intros Hc. split; [done|exact He'| |]; rewrite Hd; simpl.
    + rewrite length_app. simpl. lia.
    + set_solver.
  - split.
    + simpl. destruct Hl', He'. split; try done.
      change (rcount (2 ^ 32) (cn_r cn) (cn_e (cn_type c cn)) <= INPUT_BUF_SIZE).
      rewrite (rcount_split _ _ R1 R2 (cn_r cn) (cn_w cn)) by lia. done.
    + simpl. destruct He'. split; try done. unfold rcount. rewrite Z.sub_diag, Zmod_0_l. lia.
    + rewrite Hd'. simpl. rewrite !length_app. simpl. lia.
    + rewrite Hd'. set_solver.
Qed.

Lemma consputc_rubout n i s : nested n i s -> kn_panicked s = false -> tx_ready 3 (kn_uart s) ->
  consputc BACKSPACE s = Done tt (sent rubout s).
Proof.
  intros Hn Hp Hr. change (consputc BACKSPACE) with (uartputc_sync 8 ;;; uartputc_sync 32 ;;; uartputc_sync 8).
  assert (Hone : forall c s, 0 <= c < 256 -> nested n i s -> kn_panicked s = false -> tx_ready 1 (kn_uart s) ->
    uartputc_sync c s = Done tt (sent [c] s)) by (intros; by apply (uartputc_sync_ok n i)).
  apply (then_sent n i _ _ [8] [32; 8]); try done; [apply Hone; try done; by eapply ready_le; [|exact Hr]; lia|].
  intros. apply (then_sent n i _ _ [32] [8]); try done; [apply Hone; try done; eapply ready_le; [|done]; simpl; lia|].
  intros. by apply Hone.
Qed.

Lemma kill_line_ok n i fuel ed s : nested n i s -> kn_panicked s = false -> cons_ok (kn_cons s) ->
  ld_edit (cn_ldisc (kn_cons s)) = ed -> (length ed < fuel)%nat -> tx_ready (3 * length ed) (kn_uart s) ->
  kill_line fuel s = Done tt (set_cons (set_cn_e (cn_w (kn_cons s)) (kn_cons s)) (sent (concat (replicate (length ed) rubout)) s)) /\
  cons_ok (set_cn_e (cn_w (kn_cons s)) (kn_cons s)) /\
  cn_ldisc (set_cn_e (cn_w (kn_cons s)) (kn_cons s)) = Ldisc (ld_lines (cn_ldisc (kn_cons s))) [].
Proof.
  revert fuel s. induction ed as [|c ed IH] using rev_ind; intros [|fuel] s Hn Hp Hok Hed Hf Hr; try (simpl in Hf; lia).
  - pose proof (cons_idle _ Hok Hed) as E. rewrite <- E.
    assert (Hid : set_cn_e (cn_e (kn_cons s)) (kn_cons s) = kn_cons s) by (by destruct (kn_cons s)). rewrite Hid.
    conjs; [|done|].
    + cbn [kill_line]. rewrite (bind_Done (gets kn_cons) _ s _ s eq_refl), E, Z.eqb_refl. cbn [negb andb].
      simpl concat. rewrite sent_nil. unfold ret. f_equal. by destruct s.
    + rewrite <- Hed. by destruct (cn_ldisc (kn_cons s)).
  - destruct (cons_erase _ _ _ Hok Hed) as (Hok' & Hd' & Hne & Hat).
    assert (Hc : c <> NL). { destruct Hok as [_ _ _ Hnl]. rewrite Hed in Hnl. intros ->. set_solver. }
    cbn [kill_line]. rewrite (bind_Done (gets kn_cons) _ s _ s eq_refl), Hat, (proj2 (Z.eqb_neq _ _) Hne), (proj2 (Z.eqb_neq _ _) Hc).
    cbn [negb andb]. unfold updc. rewrite (bind_Done (modify _) _ s tt _ eq_refl).
    set (s1 := set_cons _ s). rewrite length_app in *. cbn [length] in *.
    assert (Hp3 : consputc BACKSPACE s1 = Done tt (sent rubout s1)).
    { apply (consputc_rubout n i); try done. eapply ready_le; [|exact Hr]. lia. }
    rewrite (bind_Done _ _ _ _ _ Hp3). destruct (IH fuel (sent rubout s1)) as (Hrun & Hok2 & Hd2); try done.
    + exact (f_equal ld_edit Hd').
    + lia.
    + apply sent_ready. eapply ready_le; [|exact Hr]. simpl. lia.
    + rewrite Hrun. conjs; try done.
      f_equal. rewrite Nat.add_1_r. cbn [replicate concat]. rewrite <- sent_app. done.
Qed.

(** The [switch] of [consoleintr] does what the line discipline says. *)
Lemma consoleintr_switch_ok c n i me s : nested n i s -> plocks_free s -> cur s = Some me -> kn_panicked s = false ->
  cons_ok (kn_cons s) -> 0 <= c < 256 -> c <> CTRL_P ->
  let '(l', echo, wk) := ldisc_key c (cn_ldisc (kn_cons s)) in
  tx_ready (length echo) (kn_uart s) ->
  exists cn', consoleintr_switch c s = Done tt (set_cons cn' (sent echo (if wk : bool then woken ch_cons me s else s))) /\
    cons_ok cn' /\ cn_ldisc cn' = l' /\ cn_lock cn' = cn_lock (kn_cons s).
Proof.
  intros Hn Hf Hme Hp Hok Hc HP. unfold consoleintr_switch, ldisc_key. rewrite (proj2 (Z.eqb_neq _ _) HP).
  assert (Hsame : forall r, tx_ready r (kn_uart s) -> exists cn', Done tt s = Done tt (set_cons cn' (sent [] s)) /\
    cons_ok cn' /\ cn_ldisc cn' = cn_ldisc (kn_cons s) /\ cn_lock cn' = cn_lock (kn_cons s)).
  { intros r _. exists (kn_cons s). conjs; try done. rewrite sent_nil. by destruct s. }
  set (ed := ld_edit (cn_ldisc (kn_cons s))) in *.
  destruct (c =? CTRL_U).
  { intros Hr. rewrite (bind_Done (gets kn_cons) _ s _ s eq_refl).
    destruct (kill_line_ok n i (S (Z.to_nat (u32 (cn_e (kn_cons s) - cn_w (kn_cons s))))) ed s) as (Hrun & Hok' & Hd'); try done.
    - unfold ed. simpl. pose proof (length_rqueue (2 ^ 32) INPUT_BUF_SIZE ltac:(done) ltac:(done) (cn_buf (kn_cons s)) (cn_w (kn_cons s)) (cn_e (kn_cons s))) as E.
      unfold rcount in E. unfold u32. lia.
    - eapply ready_le; [|exact Hr]. rewrite length_concat, fmap_replicate, sum_list_replicate. simpl. lia.
    - eexists. split; [exact Hrun|]. done. }
  destruct ((c =? CTRL_H) || (c =? DEL)).
  { rewrite (bind_Done (gets kn_cons) _ s _ s eq_refl). destruct ed as [|e0 ed0] eqn:Eed.
    - intros Hr. rewrite (cons_idle _ Hok Eed), Z.eqb_refl. by apply (Hsame 0%nat).
    - intros Hr. destruct (exists_last (l := e0 :: ed0)) as (ed1 & x & E); [done|].
      assert (Eed' : ld_edit (cn_ldisc (kn_cons s)) = ed1 ++ [x]) by (rewrite <- E; exact Eed).
      destruct (cons_erase _ _ _ Hok Eed') as (Hok' & Hd' & Hne & _). rewrite (proj2 (Z.eqb_neq _ _) Hne). cbn [negb when].
      unfold updc. rewrite (bind_Done (modify _) _ s tt _ eq_refl). rewrite (consputc_rubout n i); try done.
      eexists. split; [reflexivity|]. conjs; try done. rewrite E, removelast_last. done. }
  rewrite (bind_Done (gets kn_cons) _ s _ s eq_refl), (cons_total _ Hok).
  set (tot := Z.of_nat (length (_ ++ _))) in *. change INPUT_BUF_SIZE with 128.
  destruct (Z.eqb_spec c 0) as [E0|E0]; cbn [negb andb orb]. { intros Hr. by apply (Hsame 0%nat). }
  destruct (Z.ltb_spec tot 128) as [Hlt|Hge]; cycle 1.
  { rewrite (proj2 (Z.leb_le _ _) Hge). intros Hr. by apply (Hsame 0%nat). }
  rewrite (proj2 (Z.leb_gt _ _) Hlt). cbn [when]. cbv zeta. set (c' := if c =? CR then NL else c).
  assert (Hc' : 0 <= c' < 256) by (unfold c', NL; by destruct (c =? CR)).
  destruct (cons_type c' (kn_cons s) Hok) as (Ht1 & Ht2 & Ht3 & Ht4); [by rewrite (cons_total _ Hok)|].
  rewrite u8_small in Ht1, Ht2, Ht4 by lia. fold ed in Ht1, Ht4. set (l := cn_ldisc (kn_cons s)) in *.
  assert (Hput : tx_ready 1 (kn_uart s) -> consputc c' s = Done tt (sent [c'] s)).
  { intros Hr. by apply (consputc_ok n i). }
  assert (Htot : u32 (cn_e (cn_type c' (kn_cons s)) - cn_r (kn_cons s)) = Z.of_nat (length (ld_lines l ++ ed ++ [c']))).
  { pose proof (cons_total _ Ht3) as E. rewrite Ht4 in E. cbn [ld_lines ld_edit] in E. rewrite app_nil_r in E. exact E. }
  destruct ((c' =? NL) || (c' =? CTRL_D) || (Z.of_nat (length (ld_lines l ++ ed ++ [c'])) =? 128)) eqn:Ecommit;
    intros Hr; rewrite (bind_Done _ _ _ _ _ (Hput Hr)); unfold updc;
    rewrite (bind_Done (modify _) _ (sent [c'] s) tt _ eq_refl); set (s1 := set_cons _ (sent [c'] s));
    rewrite (bind_Done (gets kn_cons) _ s1 _ s1 eq_refl);
    change (kn_cons s1) with (cn_type c' (kn_cons s)); change (cn_r (cn_type c' (kn_cons s))) with (cn_r (kn_cons s));
    rewrite Htot, Ecommit; cbn [when].
  - rewrite (bind_Done (modify _) _ s1 tt _ eq_refl), (wakeup_me n i ch_cons me); try done.
    exists (set_cn_w (cn_e (cn_type c' (kn_cons s))) (cn_type c' (kn_cons s))). conjs; try done.
  - exists (cn_type c' (kn_cons s)). conjs; try done. apply Ht2. intros ->. by rewrite Z.eqb_refl in Ecommit.
Qed.

#[local] Opaque consoleintr_switch.
(** C31: a key at the console does what the line discipline says.  Control-U
    clears the line being edited, Backspace and Delete drop its last character,
    any other key is appended (a carriage return as a newline) unless the
    buffer is full; a newline, Control-D or a full buffer hands the line to the
    readers and wakes them.  The screen shows the key, or a rubout for every
    character dropped.  Nothing else changes. *)
Theorem consoleintr_correct c s me pr b :
  running s me pr b -> unlocked (cn_lock (kn_cons s)) -> kn_panicked s = false -> cons_ok (kn_cons s) ->
  0 <= c < 256 -> c <> CTRL_P ->
  let '(l', echo, wk) := ldisc_key c (cn_ldisc (kn_cons s)) in
  tx_ready (length echo) (kn_uart s) ->
  exists cn', consoleintr c s =
      Done tt (on_cpu me (Cpu 0 b b) (set_cons cn' (sent echo (if wk : bool then woken ch_cons me s else s)))) /\
    cons_ok cn' /\ cn_ldisc cn' = l' /\ cn_lock cn' = cn_lock (kn_cons s).
Proof.
  intros Hrun Hu Hp Hok Hc HP. destruct (running_acq cn_lens s me pr b Hrun Hu) as [Hacq Hin].
  set (s1 := on_cpu me (Cpu 1 b false) _) in *.
  pose proof (consoleintr_switch_ok c 1 b me s1 (li_nested _ _ _ _ Hin) (li_free _ _ _ _ Hin) (li_cur _ _ _ _ Hin)) as Hsw.
  change (cn_ldisc (kn_cons s1)) with (cn_ldisc (kn_cons s)) in Hsw. change (kn_uart s1) with (kn_uart s) in Hsw.
  destruct (ldisc_key c (cn_ldisc (kn_cons s))) as [[l' echo] wk]. intros Hr.
  destruct Hsw as (cn' & Hsw & Hok' & Hd' & Hl'); try done; [by destruct Hok|].
  exists (set_cn_lock (cn_lock (kn_cons s)) cn'). unfold consoleintr. rewrite (bind_Done _ _ _ _ _ Hacq), (bind_Done _ _ _ _ _ Hsw).
  set (s2 := set_cons cn' _). assert (Hmc : my_cpu s2 = my_cpu s1) by (by destruct wk).
  rewrite (rel_outer cn_lens b (cn_lock (kn_cons s)) me); try done.
  - conjs; try done; [|by destruct Hok'].
    rewrite <- (on_cpu_twice me (Cpu 0 b b) (Cpu 1 b false) (set_cons _ _)). f_equal. f_equal. unfold s2, s1. by destruct wk.
  - rewrite Hmc. by destruct (li_nested _ _ _ _ Hin) as (_ & -> & _).
  - unfold cur. rewrite Hmc. exact (li_cur _ _ _ _ Hin).
Qed.

(** The physical memory user pages are in *)
Notation umem s := (k_mem (fs_k (kn_fs s))).

(** [cons.r++], when there is a line *)
Lemma cons_take cn c ls : cons_ok cn -> ld_lines (cn_ldisc cn) = c :: ls ->
  cons_ok (set_cn_r (u32 (cn_r cn + 1)) cn) /\
  cn_ldisc (set_cn_r (u32 (cn_r cn + 1)) cn) = Ldisc ls (ld_edit (cn_ldisc cn)) /\
  cn_r cn <> cn_w cn /\ cn_at cn (cn_r cn) = c /\ u32 (u32 (cn_r cn + 1) - 1) = cn_r cn.
Proof.
  intros [Hl He Hr Hn] Hls. destruct cons_ring as (R1 & R2 & R3). simpl in Hls.
  destruct (ring_get _ _ R1 R2 R3 _ _ _ Hl) as [Hl' Hq]; [by rewrite Hls|]. rewrite Hls in Hq. injection Hq as Hq1 Hq2.
  pose proof (ring_empty _ _ R1 R2 _ _ _ Hl) as Hz. simpl in Hr. rewrite Hls in Hz, Hr. cbn [length] in Hz, Hr. conjs.
  - split; try done; simpl; unfold u32. rewrite <- Hq2. lia.
  - unfold cn_ldisc. simpl. unfold u32. by rewrite <- Hq2.
  - intros E. rewrite E, Z.eqb_refl in Hz. symmetry in Hz. apply Z.eqb_eq in Hz. lia.
  - by rewrite Hq1.
  - unfold u32. rewrite Zminus_mod_idemp_l. replace (cn_r cn + 1 - 1) with (cn_r cn) by lia.
    apply Z.mod_small. apply Hl.
Qed.

Lemma cons_none cn : cons_ok cn -> ld_lines (cn_ldisc cn) = [] -> cn_r cn = cn_w cn.
Proof.
  intros [Hl He Hr Hn] Hls. destruct cons_ring as (R1 & R2 & R3).
  pose proof (ring_empty _ _ R1 R2 _ _ _ Hl) as Hz. simpl in Hls. rewrite Hls in Hz. by apply Z.eqb_eq in Hz.
Qed.

(** The state of a reader that has taken [r' - r] bytes, [k'] the memory. *)
Definition read_to (k' : kst) (r' : Z) (s : kern) : kern := lset mem_lens k' (set_cons (set_cn_r r' (kn_cons s)) s).
Lemma read_to_id s : read_to (fs_k (kn_fs s)) (cn_r (kn_cons s)) s = s.
Proof. destruct s as [f ? ? ? ? ? ? ? ? ? ? ? []]. by destruct f. Qed.

Lemma consoleread_none fuel dst n target s : n <= 0 ->
  consoleread_loop (S fuel) true dst n target s = Done (Some (n - Z.of_nat (length (A := Z) []))) s.
Proof. intros Hn. cbn [consoleread_loop]. rewrite (proj2 (Z.ltb_ge 0 n) Hn), Z.sub_0_r. done. Qed.

(** No line: sleep, or give up if killed. *)
Lemma consoleread_wait me pr b lk fuel dst n target s :
  locked_in s me pr b -> cn_lock (kn_cons s) = held lk -> unlocked lk -> cons_ok (kn_cons s) ->
  ld_lines (cn_ldisc (kn_cons s)) = [] -> 0 < n ->
  consoleread_loop (S fuel) true dst n target s =
  if p_killed pr =? 0 then Sleep ch_cons (asleep ch_cons me pr (lset cn_lens lk s))
  else Done None (on_cpu me (Cpu 0 b b) (lset cn_lens lk s)).
Proof.
  intros [Hnest Hcur Hme Hfree] Hlk Hu Hok Hls Hn. cbn [consoleread_loop]. rewrite (proj2 (Z.ltb_lt 0 n) Hn).
  rewrite (bind_Done (gets kn_cons) _ s _ s eq_refl), (cons_none _ Hok Hls), Z.eqb_refl.
  rewrite (bind_Done _ _ _ _ _ (myproc_ok _ _ Hcur)).
  rewrite (bind_Done _ _ _ _ _ (killed_ok 1 b me pr s Hnest Hme (proj2 Hfree _ _ Hme))).
  destruct (p_killed pr =? 0); cbn [negb].
  - rewrite (ksleep_ok cn_lens lk b ch_cons me pr s); try done. by apply (proj2 Hfree me).
  - rewrite (bind_Done _ _ _ _ _ (rel_outer cn_lens b lk me s (proj1 (proj2 Hnest)) Hcur Hlk Hu)). done.
Qed.

Lemma consoleread_loop_spec l T D me pr b lk target fuel dst n s ls :
  locked_in s me pr b -> cn_lock (kn_cons s) = held lk -> unlocked lk -> cons_ok (kn_cons s) ->
  ld_lines (cn_ldisc (kn_cons s)) = ls ->
  as_inv (fs_k (kn_fs s)) l T (p_pagetable pr) D -> user_owned (umem s) T D ->
  (forall j, 0 <= j < n -> is_Some (uaddr (umem s) T (dst + j))) -> 0 <= dst -> dst + n < 2 ^ 64 ->
  0 <= n <= target -> target < 2 ^ 31 -> (Z.to_nat n < fuel)%nat ->
  let '(d, ls', blk) := ldisc_read (Z.to_nat n) (n =? target) ls in
  exists k' r', consoleread_loop fuel true dst n target s =
      (if blk then if p_killed pr =? 0 then Sleep ch_cons (asleep ch_cons me pr (lset cn_lens lk (read_to k' r' s)))
        else Done None (on_cpu me (Cpu 0 b b) (lset cn_lens lk (read_to k' r' s)))
       else Done (Some (n - Z.of_nat (length d))) (read_to k' r' s)) /\
    cons_ok (set_cn_r r' (kn_cons s)) /\
    cn_ldisc (set_cn_r r' (kn_cons s)) = Ldisc ls' (ld_edit (cn_ldisc (kn_cons s))) /\
    as_inv k' l T (p_pagetable pr) D /\ uwritten D (umem s) (k_mem k') dst d.
Proof.
  revert fuel dst n s. induction ls as [|c ls IH];
    intros fuel dst n s Hin Hlk Hu Hok Hls Has Hown Hacc Hd1 Hd2 Hn Ht Hf;
    (destruct fuel as [|fuel]; [lia|]).
  all: assert (Hnil : uwritten D (umem s) (umem s) dst []) by (split; [done|]; intros; symmetry; apply overlay_out; simpl; lia).
  all: assert (Hid : set_cn_r (cn_r (kn_cons s)) (kn_cons s) = kn_cons s) by (by destruct (kn_cons s)).
  all: assert (Hsame : cn_ldisc (kn_cons s) = Ldisc (ld_lines (cn_ldisc (kn_cons s))) (ld_edit (cn_ldisc (kn_cons s)))) by done.
  all: destruct (Z.ltb_spec 0 n) as [Hpos|Hz];
    [destruct (Z.to_nat n) as [|n1] eqn:En; [lia|]|replace (Z.to_nat n) with O by lia]; cbn [ldisc_read].
  - exists (fs_k (kn_fs s)), (cn_r (kn_cons s)). rewrite read_to_id, Hid. conjs; try done; [|by rewrite <- Hls].
    by apply consoleread_wait.
  - exists (fs_k (kn_fs s)), (cn_r (kn_cons s)). rewrite read_to_id, Hid. conjs; try done; [|by rewrite <- Hls].
    by apply consoleread_none.
  - cbn [consoleread_loop]. rewrite (proj2 (Z.ltb_lt 0 n) Hpos). destruct (cons_take _ _ _ Hok Hls) as (Hok1 & Hd & Hne & Hat & Hback).
    rewrite (bind_Done (gets kn_cons) _ s _ s eq_refl), (proj2 (Z.eqb_neq _ _) Hne), Hat. unfold updc.
    rewrite (bind_Done (modify _) _ s tt _ eq_refl). set (s1 := set_cons _ s).
    destruct (c =? CTRL_D) eqn:ED.
    { rewrite u32_small by lia. destruct (Z.eqb_spec n target) as [En'|En'].
      - exists (fs_k (kn_fs s)), (u32 (cn_r (kn_cons s) + 1)). subst n. rewrite Z.ltb_irrefl. cbn [when].
        conjs; try done. unfold bind, ret. do 2 f_equal; [simpl; lia|]. unfold s1. destruct s as [f]. by destruct f.
      - exists (fs_k (kn_fs s)), (cn_r (kn_cons s)). rewrite read_to_id, Hid, (proj2 (Z.ltb_lt n target)) by lia. cbn [when].
        conjs; try done; [|by rewrite <- Hls]. unfold bind, modify, ret. f_equal; [f_equal; simpl; lia|].
        change (kn_cons s1) with (set_cn_r (u32 (cn_r (kn_cons s) + 1)) (kn_cons s)). cbn [cn_r set_cn_r]. rewrite Hback.
        unfold s1. destruct s as [? ? ? ? ? ? ? ? ? ? ? ? []]. done. }
    destruct (ucopyout1 s1 me pr l T D dst c) as (k1 & Hc & Has1 & Hpte1 & Hw1); try apply Hin; try done;
      [rewrite <- (Z.add_0_r dst); apply Hacc; lia|lia|].
    change (keither_copyout true dst [c]) with (ucopyout dst [c]). rewrite (bind_Done _ _ _ _ _ Hc).
    change (0 =? -1) with false. cbv iota. destruct (c =? NL).
    { exists k1, (u32 (cn_r (kn_cons s) + 1)). conjs; try done. }
    rewrite u64_small by lia.
    specialize (IH fuel (dst + 1) (n - 1) (lset mem_lens k1 s1)).
    replace (Z.to_nat (n - 1)) with n1 in IH by lia. rewrite (proj2 (Z.eqb_neq (n - 1) target)) in IH by lia.
    destruct (ldisc_read n1 false ls) as [[d ls'] blk].
    destruct IH as (k' & r' & Hrun & Hok' & Hd' & Has' & Hw'); try done; try lia.
    + by destruct Hin.
    + exact (f_equal ld_lines Hd).
    + by eapply user_owned_ext.
    + intros j Hj. simpl. rewrite (uaddr_ext (umem s)) by done. replace (dst + 1 + j) with (dst + (j + 1)) by lia. apply Hacc. lia.
    + exists k', r'. rewrite Hrun. conjs; try done.
      * replace (n - 1 - Z.of_nat (length d)) with (n - Z.of_nat (length (c :: d))) by (simpl; lia). done.
      * change (c :: d) with ([c] ++ d). eapply uwritten_app; [exact Hw1|]. exact Hw'.
  - exists (fs_k (kn_fs s)), (cn_r (kn_cons s)). rewrite read_to_id, Hid. conjs; try done; [|by rewrite <- Hls].
    by apply consoleread_none.
Qed.

#[local] Opaque consoleread_loop.
(** C32: [consoleread] delivers from the complete lines: bytes up to and
    including a newline, at most [n], stopping before a Control-D (which is
    consumed only by a read that would otherwise return nothing).  The bytes
    are stored at the user's address, the call returns their number, and the
    line being edited is untouched.  When the lines run out before that, the
    reader sleeps on [cons.r], or returns -1 if it was killed. *)
Theorem consoleread_correct s me pr b l T D dst n :
  running s me pr b -> unlocked (cn_lock (kn_cons s)) -> cons_ok (kn_cons s) ->
  as_inv (fs_k (kn_fs s)) l T (p_pagetable pr) D -> user_owned (umem s) T D ->
  (forall j, 0 <= j < n -> is_Some (uaddr (umem s) T (dst + j))) -> 0 <= dst -> dst + n < 2 ^ 64 -> 0 <= n < 2 ^ 31 ->
  let '(d, ls', blk) := ldisc_read (Z.to_nat n) true (ld_lines (cn_ldisc (kn_cons s))) in
  exists k' r', consoleread true dst n s =
      (if blk then
         if p_killed pr =? 0
         then Sleep ch_cons (asleep ch_cons me pr (on_cpu me (Cpu 1 b false) (read_to k' r' s)))
         else Done (-1) (on_cpu me (Cpu 0 b b) (read_to k' r' s))
       else Done (Z.of_nat (length d)) (on_cpu me (Cpu 0 b b) (read_to k' r' s))) /\
    cons_ok (set_cn_r r' (kn_cons s)) /\
    cn_ldisc (set_cn_r r' (kn_cons s)) = Ldisc ls' (ld_edit (cn_ldisc (kn_cons s))) /\
    as_inv k' l T (p_pagetable pr) D /\ uwritten D (umem s) (k_mem k') dst d.
Proof.
  intros Hrun Hu Hok Has Hown Hacc Hd1 Hd2 Hn. destruct (running_acq cn_lens s me pr b Hrun Hu) as [Hacq Hin].
  set (s1 := on_cpu me (Cpu 1 b false) _) in *.
  pose proof (consoleread_loop_spec l T D me pr b (cn_lock (kn_cons s)) n (S (Z.to_nat n)) dst n s1
    (ld_lines (cn_ldisc (kn_cons s))) Hin eq_refl Hu) as Hl.
  pose proof (ldisc_read_length (Z.to_nat n) true (ld_lines (cn_ldisc (kn_cons s)))) as Hlen. rewrite Z.eqb_refl in Hl.
  destruct (ldisc_read (Z.to_nat n) true _) as [[d ls'] blk].
  destruct Hl as (k' & r' & Hl & Hok' & Hd' & Has' & Hw'); try done; try lia; [by destruct Hok|].
  exists k', r'. assert (Hback : lset cn_lens (cn_lock (kn_cons s)) (read_to k' r' s1) = on_cpu me (Cpu 1 b false) (read_to k' r' s)).
  { unfold read_to, s1. destruct s as [? ? ? ? ? ? ? ? ? ? ? ? []]. done. }
  conjs; try done; [|by destruct Hok'].
  unfold consoleread. cbv zeta. rewrite u32_small, (bind_Done _ _ _ _ _ Hacq) by lia. unfold bind at 1. rewrite Hl.
  rewrite Hback, on_cpu_twice. destruct blk; [by destruct (p_killed pr =? 0)|].
  rewrite (bind_Done _ _ _ _ _ (rel_outer cn_lens b (cn_lock (kn_cons s)) me (read_to k' r' s1)
    (proj1 (proj2 (li_nested _ _ _ _ Hin))) (li_cur _ _ _ _ Hin) eq_refl Hu)), Hback, on_cpu_twice.
  unfold ret. f_equal. replace (n - (n - Z.of_nat (length d))) with (Z.of_nat (length d)) by lia.
  apply i32_small. cbn [fst] in Hlen. lia.
Qed.
End ConsoleSpec.
