(* ===== verification/KernExample.v ===== *)
(** * A small kernel state

    Two harts, the first running process 0, whose user memory is the two pages of the
    examples of virtual memory; the other entries of the process table are
    unused.  The witnesses of the theorems on the kernel run on it. *)

From S2P Require Import Prelude Memory Riscv Spinlock Kalloc Vm VmWalk VmUser VmCopy Bio Log Txn Fs Kern Proc Pipe Ring PipeQueue Printf PrintfSpec Console ConsoleSpec.

Module KernExample.
Export VmExample AsExample CopyExample.
#[export] Instance frame : Frame := {| local_addr := 8192 |}.
#[export] Instance syms : Syms :=
  {| forkret_addr := KERNBASE + 0x2000; usertrap_addr := KERNBASE + 0x2100; kernelvec_addr := KERNBASE + 0x2200;
     uservec_addr := KERNBASE + 0x7000; userret_addr := KERNBASE + 0x7100 |}.

Definition no_files : list (option Z) := replicate (Z.to_nat NOFILE) None.
Definition free_proc : proc :=
  Proc (initlock "proc") UNUSED None 0 0 0 None 0 0 0 0 (Context 0 0 (replicate 12 0)) no_files None (replicate 16 0).
Definition proc0 : proc :=
  Proc (initlock "proc") RUNNING None 0 0 1 None 0 0x2000 (page 4) (page 9) (Context 0 0 (replicate 12 0)) no_files None
    (replicate 16 0).
(** Process 1 waits for input from the pipe at [page 10]. *)
Definition proc1 : proc :=
  Proc (initlock "proc") SLEEPING (Some (ch_nread (page 10))) 0 0 2 (Some 0) 0 0 0 0 (Context 0 0 (replicate 12 0)) no_files
    None (replicate 16 0).
Definition procs0 : list proc := proc0 :: proc1 :: replicate 62 free_proc.

(** An empty pipe whose counters are about to wrap around. *)
Definition pipe0 : pipe := Pipe (initlock "pipe") (replicate (Z.to_nat PIPESIZE) 0) (2 ^ 32 - 1) (2 ^ 32 - 1) true true.
(** The same pipe with three bytes in it. *)
Definition pipe3 : pipe := puts [7; 8; 9] pipe0.

Definition free_file : file := File FD_NONE 0 false false 0 0 0 0.
Definition fs0 : fsst lst :=
  Fsst (log_boot (Disk ∅ [])) (Superblock FSMAGIC 200 165 32 30 2 32 34) (initlock "itable") [] st2 0 0.
Definition kern_with (p : pipe) : kern :=
  Kern fs0 procs0 [Cpust (Some 0) (Cpu 0 false true); Cpust None (Cpu 0 false true)] None 3 (initlock "nextpid") (initlock "wait_lock")
    (initlock "ftable") (replicate (Z.to_nat NFILE) free_file) {[ page 10 := p ]} 0 (initlock "time")
    (Console (initlock "cons") (replicate 128 0) 0 0 0) (Uart (initlock "uart") (replicate 32 0) 0 0 (replicate 20 LSR_TX_IDLE) [] [])
    false (Printlock (initlock "pr") true) false (fun _ => Csrs 0 0 0 0 0 0 0) ([], []).

Lemma nth_procs0 s i p : kn_procs s = procs0 -> nth_proc s i = Some p -> unlocked (p_lock p).
Proof.
  unfold nth_proc. intros -> Hp. destruct (i <? 0); [done|]. apply list_elem_of_lookup_2 in Hp. unfold procs0 in Hp.
  apply elem_of_cons in Hp as [->|Hp]; [done|]. apply elem_of_cons in Hp as [->|Hp]; [done|].
  apply elem_of_replicate in Hp as [-> _]. done.
Qed.

Lemma pipe0_ok : pipe_ok pipe0.
Proof. split; vm_compute; intuition congruence. Qed.
Lemma pipe3_ok : pipe_ok pipe3 /\ pq pipe3 = [7; 8; 9].
Proof. apply puts_queue; [exact pipe0_ok|vm_compute; discriminate]. Qed.

Lemma at_pipe_ex p : pipe_ok p -> pi_lock p = initlock "pipe" -> at_pipe (kern_with p) 0 proc0 (page 10) p true.
Proof.
  intros Hok Hl. split; try done.
  - vm_compute. lia.
  - by exists false.
  - split; [done|]. intros i q. by apply nth_procs0.
  - by rewrite Hl.
Qed.

Lemma ureads_ex T : (forall va, 0 <= va < MAXVA -> pte_at (k_mem st2) T va =
    map_range (fun _ => 0) 0 2 (page 7) (Z.lor (Z.lor PTE_R PTE_W) PTE_U) va) ->
  forall va, 0 <= va < 0x2000 -> uaddr (k_mem st2) T va = Some (page 7 + va).
Proof.
  intros Hp va Hva. unfold uaddr. rewrite Hp by (rewrite MAXVA_eq; lia).
  destruct (Z.leb_spec 0 va), (Z.ltb_spec va MAXVA); try (rewrite MAXVA_eq in *; lia). cbn [andb].
  assert (Hc : va / 4096 = 0 \/ va / 4096 = 1) by (Z.div_mod_to_equations; lia). unfold map_range.
  destruct (Z.leb_spec 0 va), (Z.ltb_spec va (0 + 2 * 4096)); try lia. cbn [andb]. rewrite Z.sub_0_r.
  assert (Hbits : forall w, w = 0 \/ w = 1 ->
    let v := Z.lor (Z.lor (PA2PTE (page 7 + w * 4096)) (Z.lor (Z.lor PTE_R PTE_W) PTE_U)) PTE_V in
    (Z.land v PTE_V =? 0) = false /\ (Z.land v PTE_U =? 0) = false /\ PTE2PA v = page 7 + w * 4096).
  { intros w [-> | ->]; vm_compute; repeat split. }
  destruct (Hbits _ Hc) as (-> & -> & ->). cbn [negb andb]. f_equal. Z.div_mod_to_equations. lia.
Qed.

(** Process 0 writes two bytes: they are 0, as its memory is. *)
Lemma pipewrite_correct_witness :
  exists p', pq p' = [0; 0] /\ pipewrite (page 10) 0xFFF 2 (kern_with pipe0) =
    Done 2 (on_cpu 0 (Cpu 0 true true) (woken (ch_nread (page 10)) 0 (upd_pipe (page 10) p' (kern_with pipe0)))).
Proof.
  destruct as_ex as (l & T & Hinv & Hown & Hz & Hp).
  destruct (pipewrite_correct (kern_with pipe0) 0 proc0 (page 10) pipe0 true T 0xFFF [0; 0]
    (at_pipe_ex pipe0 pipe0_ok eq_refl) eq_refl eq_refl) as (p' & _ & Hq & _ & _ & _ & Hrun).
  - apply Hinv.
  - exact (owned_no_page0 _ _ _ _ _ Hinv (user_ex T Hp)).
  - intros i b Hi. assert (Hi2 : (i < 2)%nat) by exact (lookup_lt_Some _ _ _ Hi).
    exists (page 7 + (0xFFF + Z.of_nat i)). rewrite (ureads_ex T Hp) by lia. split; [reflexivity|].
    change (kern_with pipe0).(kn_fs) with fs0. cbn [fs_k fs0]. rewrite Hz by (unfold page, PGSIZE; lia).
    destruct i as [|[|]]; simpl in Hi; congruence || lia.
  - lia.
  - simpl. lia.
  - exists p'. split; [exact Hq|exact Hrun].
Defined.

(** Process 0 reads five bytes from a pipe that holds three. *)
Lemma piperead_correct_witness :
  exists k' p', pq p' = [] /\ piperead (page 10) 0x10 5 (kern_with pipe3) =
    Done 3 (on_cpu 0 (Cpu 0 true true)
      (woken (ch_nwrite (page 10)) 0 (lset mem_lens k' (upd_pipe (page 10) p' (kern_with pipe3))))).
Proof.
  destruct as_ex as (l & T & Hinv & Hown & Hz & Hp). destruct pipe3_ok as [Hok Hq3].
  pose proof (piperead_correct (kern_with pipe3) 0 proc0 (page 10) pipe3 true l T D2 0x10 5
    (at_pipe_ex pipe3 Hok eq_refl) Hinv (user_ex T Hp)) as H.
  rewrite decide_False in H by (rewrite Hq3; intros [? _]; discriminate).
  destruct H as (k' & p' & Hrun & _ & Hq & _).
  - intros j Hj. exists (page 7 + (0x10 + j)). apply (ureads_ex T Hp). lia.
  - lia.
  - lia.
  - rewrite Hq3 in Hrun, Hq. exists k', p'. split; [exact Hq|exact Hrun].
Defined.

(** The least [int]. *)
Lemma printf_correct_witness :
  printf (str "min %d") [AInt (- 2 ^ 31)] (kern_with pipe0) =
  Done tt (on_cpu 0 (Cpu 0 true true) (sent (str "min -2147483648") (kern_with pipe0))).
Proof.
  apply (printf_correct (str "min %d") [AInt (- 2 ^ 31)] (str "min -2147483648") 0 false true (kern_with pipe0)).
  - change (str "min %d") with [109; 105; 110; 32; 37; 100].
    change (str "min -2147483648") with ([109; 105; 110; 32] ++ ([45; 50; 49; 52; 55; 52; 56; 51; 54; 52; 56] ++ [])).
    do 4 (apply r_char; [discriminate|unfold plain; lia|]). apply r_d; [lia| |apply r_end].
    eexists. split; [reflexivity|]. split; [reflexivity|]. split; [discriminate|]. split.
    + exists 2. split; [lia|]. split; [reflexivity|discriminate].
    + repeat (apply Forall_cons_2;
        [match goal with |- exists d, _ /\ ?c = digit d => exists (digit_val c) end;
         split; [vm_compute; split; [discriminate|reflexivity]|reflexivity]|]). constructor.
  - vm_compute. lia.
  - reflexivity.
  - reflexivity.
  - reflexivity.
  - split; reflexivity.
  - reflexivity.
  - split; [vm_compute; lia|]. vm_compute. repeat constructor; discriminate.
Defined.

(** A console with the line "hi" complete and "ab" being edited. *)
Definition cons_buf : list Z := [104; 105; NL; 97; 98] ++ replicate 123 0.
Definition kern_cons : kern := set_cons (Console (initlock "cons") cons_buf 0 3 5) (kern_with pipe0).

Lemma running_ex : running (kern_with pipe0) 0 proc0 true.
Proof.
  split; [vm_compute; lia|by exists false|done|done|]. split; [done|]. intros i q. by apply nth_procs0.
Qed.
Lemma running_cons : running kern_cons 0 proc0 true.
Proof. destruct running_ex. by split. Qed.
Lemma cons_ok_ex : cons_ok (kn_cons kern_cons).
Proof.
  split.
  - split; vm_compute; intuition congruence.
  - split; vm_compute; intuition congruence.
  - vm_compute. congruence.
  - apply (bool_decide_unpack _). vm_compute. exact I.
Qed.

(** The first byte goes to the empty queue and on to the device. *)
Lemma uartputc_correct_witness :
  exists u' ps', uartputc 65 (kern_with pipe0) =
    Done tt (on_cpu 0 (Cpu 0 true true) (set_uart u' (set_procs ps' (kern_with pipe0)))) /\ accepted u' = [65].
Proof.
  pose proof (uartputc_correct 65 (kern_with pipe0) 0 proc0 true running_ex ltac:(split; reflexivity) eq_refl) as H.
  destruct H as (u' & ps' & Hrun & _ & Hacc & _).
  - split; vm_compute; intuition congruence.
  - apply Forall_replicate. lia.
  - exists u', ps'. split; [exact Hrun|exact Hacc].
Defined.

(** Control-U rubs out the two characters. *)
Lemma consoleintr_correct_witness :
  exists cn', consoleintr CTRL_U kern_cons =
    Done tt (on_cpu 0 (Cpu 0 true true) (set_cons cn' (sent [8; 32; 8; 8; 32; 8] kern_cons))) /\
    cn_ldisc cn' = Ldisc [104; 105; NL] [].
Proof.
  pose proof (consoleintr_correct CTRL_U kern_cons 0 proc0 true running_cons ltac:(split; reflexivity) eq_refl cons_ok_ex
    ltac:(unfold CTRL_U; lia) ltac:(discriminate)) as H.
  assert (E : ldisc_key CTRL_U (cn_ldisc (kn_cons kern_cons)) = (Ldisc [104; 105; NL] [], [8; 32; 8; 8; 32; 8], false))
    by (vm_compute; reflexivity).
  rewrite E in H. destruct H as (cn' & Hrun & _ & Hd & _).
  - split; [vm_compute; lia|]. vm_compute. repeat constructor; discriminate.
  - exists cn'. split; [exact Hrun|exact Hd].
Defined.

(** A read of 100 bytes returns the line. *)
Lemma consoleread_correct_witness :
  exists k' r', consoleread true 0x10 100 kern_cons = Done 3 (on_cpu 0 (Cpu 0 true true) (read_to k' r' kern_cons)) /\
    cn_ldisc (set_cn_r r' (kn_cons kern_cons)) = Ldisc [] [97; 98].
Proof.
  destruct as_ex as (l & T & Hinv & Hown & Hz & Hp).
  pose proof (consoleread_correct kern_cons 0 proc0 true l T D2 0x10 100 running_cons ltac:(split; reflexivity) cons_ok_ex
    Hinv (user_ex T Hp)) as H.
  assert (E : ldisc_read (Z.to_nat 100) true (ld_lines (cn_ldisc (kn_cons kern_cons))) = ([104; 105; NL], [], false))
    by (vm_compute; reflexivity).
  assert (E2 : ld_edit (cn_ldisc (kn_cons kern_cons)) = [97; 98]) by (vm_compute; reflexivity).
  rewrite E, E2 in H. destruct H as (k' & r' & Hrun & _ & Hd & _).
  - intros j Hj. exists (page 7 + (0x10 + j)). apply (ureads_ex T Hp). lia.
  - lia.
  - lia.
  - lia.
  - exists k', r'. split; [exact Hrun|exact Hd].
Defined.

(** ** A killed writer and a sleeping reader

    Process 0 writes two bytes to the pipe process 1 sleeps on.  After its
    first byte the other hart kills it; the second round of the loop then
    returns without a [wakeup], and the reader sleeps on although the pipe
    holds a byte. *)
Definition hart1 : Ctx := {| mycpu := 1; mypid := 3 |}.
Definition in_lock : kern :=
  match acq (pi_lens (page 10)) (kern_with pipe0) with Done _ s => s | _ => kern_with pipe0 end.

Lemma killed_writer_strands_reader :
  match pipewrite_loop 2 0 (page 10) 0xFFF 1 0 in_lock with
  | Done r1 s1 =>
      match kill (HC := hart1) 1 s1 with
      | Done r2 s2 =>
          match pipewrite_loop 2 0 (page 10) 0xFFF 2 1 s2 with
          | Done r3 s3 =>
              r1 = Some 1 /\ r2 = 0 /\ r3 = None /\ (pq <$> kn_pipes s3 !! page 10) = Some [0] /\
              ((fun p => (p_state p, p_chan p)) <$> nth_proc s3 1) = Some (SLEEPING, Some (ch_nread (page 10)))
          | _ => False
          end
      | _ => False
      end
  | _ => False
  end.
Proof. vm_compute. repeat split. Qed.
End KernExample.
