(* ===== verification/SleepWakeup.v ===== *)
(** * No lost wakeups: [sleep] and [wakeup] of kernel/proc.c, interleaved

    Any number of processes run either
    [acquire(lk); while(!cond) sleep(chan, lk); cond = 0; release(lk);] or
    [acquire(lk); cond = 1; wakeup(chan); release(lk);], one access to shared
    memory per step, with [sleep] and [wakeup] written out.  [sched] hands the
    CPU to the scheduler, which releases [p->lock]; a process runs again when
    the scheduler finds it [RUNNABLE] with [p->lock] free. *)

From stdpp Require Import relations.
From S2P Require Import Prelude Kern.

Module SleepWakeup.

(** Where a process is.  [Wait*] and [Take], [WRel] are the caller of
    [sleep], [S*] is [sleep] itself; [Wake i] is [wakeup]'s loop at process [i]. *)
Inductive pc :=
| WaitAcq | WaitTest | SAcq | SRelLk | SChan | SState | SSched | Asleep | SBack | SRelP | SAcqLk | Take | WRel
| KAcq | KSet | Wake (i : nat) | WakeTest (i : nat) | WakeRel (i : nat) | KRel
| Finished.
#[export] Instance pc_eq_dec : EqDecision pc.
Proof. solve_decision. Defined.

(** [c_lk] and [c_plk i] are the holders of [lk] and of [proc[i].lock];
    [c_chan i] says whether [proc[i].chan] is the channel. *)
Record config := Config {
  c_lk : option nat;
  c_cond : bool;
  c_pc : nat -> pc;
  c_plk : nat -> option nat;
  c_state : nat -> procstate;
  c_chan : nat -> bool
}.

Section Step.
Context (n : nat).

Definition goto (t : nat) (p : pc) (c : config) : config :=
  Config (c_lk c) (c_cond c) (<[t := p]> (c_pc c)) (c_plk c) (c_state c) (c_chan c).
Definition set_lk (o : option nat) (c : config) : config :=
  Config o (c_cond c) (c_pc c) (c_plk c) (c_state c) (c_chan c).
Definition set_cond (b : bool) (c : config) : config :=
  Config (c_lk c) b (c_pc c) (c_plk c) (c_state c) (c_chan c).
Definition set_plk (i : nat) (o : option nat) (c : config) : config :=
  Config (c_lk c) (c_cond c) (c_pc c) (<[i := o]> (c_plk c)) (c_state c) (c_chan c).
Definition set_st (i : nat) (x : procstate) (c : config) : config :=
  Config (c_lk c) (c_cond c) (c_pc c) (c_plk c) (<[i := x]> (c_state c)) (c_chan c).
Definition set_ch (i : nat) (b : bool) (c : config) : config :=
  Config (c_lk c) (c_cond c) (c_pc c) (c_plk c) (c_state c) (<[i := b]> (c_chan c)).

(** The next step of process [t], if it can make one. *)
Definition tstep (t : nat) (c : config) : option config :=
  match c_pc c t with
  | WaitAcq => if c_lk c then None else Some (goto t WaitTest (set_lk (Some t) c))
  | WaitTest => Some (goto t (if c_cond c then Take else SAcq) c)
  | SAcq => if c_plk c t then None else Some (goto t SRelLk (set_plk t (Some t) c))
  | SRelLk => Some (goto t SChan (set_lk None c))
  | SChan => Some (goto t SState (set_ch t true c))
  | SState => Some (goto t SSched (set_st t SLEEPING c))
  | SSched => Some (goto t Asleep (set_plk t None c))
  | Asleep => if decide (c_state c t = RUNNABLE /\ c_plk c t = None)
              then Some (goto t SBack (set_st t RUNNING (set_plk t (Some t) c))) else None
  | SBack => Some (goto t SRelP (set_ch t false c))
  | SRelP => Some (goto t SAcqLk (set_plk t None c))
  | SAcqLk => if c_lk c then None else Some (goto t WaitTest (set_lk (Some t) c))
  | Take => Some (goto t WRel (set_cond false c))
  | WRel => Some (goto t Finished (set_lk None c))
  | KAcq => if c_lk c then None else Some (goto t KSet (set_lk (Some t) c))
  | KSet => Some (goto t (Wake 0) (set_cond true c))
  | Wake i => if decide (i = n) then Some (goto t KRel c)
              else if decide (i = t) then Some (goto t (Wake (S i)) c)
              else if c_plk c i then None else Some (goto t (WakeTest i) (set_plk i (Some t) c))
  | WakeTest i => Some (goto t (WakeRel i)
                    (if decide (c_state c i = SLEEPING /\ c_chan c i = true) then set_st i RUNNABLE c else c))
  | WakeRel i => Some (goto t (Wake (S i)) (set_plk i None c))
  | KRel => Some (goto t Finished (set_lk None c))
  | Finished => None
  end.

Definition step (c c' : config) : Prop := exists t, (t < n)%nat /\ tstep t c = Some c'.

(** All locks free, every process running at the start of either code. *)
Definition init (c : config) : Prop :=
  c_lk c = None /\ forall t, (c_pc c t = WaitAcq \/ c_pc c t = KAcq) /\ c_plk c t = None /\ c_state c t = RUNNING.

(** ** The invariant *)

Definition holds_lk (p : pc) : bool :=
  match p with
  | WaitTest | SAcq | SRelLk | Take | WRel | KSet | Wake _ | WakeTest _ | WakeRel _ | KRel => true
  | _ => false
  end.
(** The process whose lock process [t] holds. *)
Definition holds_p (t : nat) (p : pc) : option nat :=
  match p with
  | SRelLk | SChan | SState | SSched | SBack | SRelP => Some t
  | WakeTest i | WakeRel i => Some i
  | _ => None
  end.
(** What the table says of a process at [p]. *)
Definition table_ok (p : pc) (x : procstate) (ch : bool) : Prop :=
  match p with
  | SState => ch = true /\ x = RUNNING
  | SSched => ch = true /\ x = SLEEPING
  | Asleep => ch = true /\ (x = SLEEPING \/ x = RUNNABLE)
  | _ => x = RUNNING
  end.
(** What a process at [p] knows of the condition: the holder of [lk] is the
    only one to change it. *)
Definition knows (p : pc) (cond : bool) : Prop :=
  match p with
  | SAcq | SRelLk => cond = false
  | Wake _ | WakeTest _ | WakeRel _ => cond = true
  | _ => True
  end.
Definition index_ok (t : nat) (p : pc) : Prop :=
  match p with
  | Wake i => (i <= n)%nat
  | WakeTest i | WakeRel i => (i < n)%nat /\ i <> t
  | _ => True
  end.
(** On the way to sleep, or asleep and not woken. *)
Definition dozing (p : pc) (x : procstate) : Prop :=
  match p with SChan | SState | SSched => True | Asleep => x = SLEEPING | _ => False end.
(** Still to look at process [j]. *)
Definition will_wake (j : nat) (p : pc) : Prop :=
  match p with Wake i | WakeTest i => (i <= j)%nat | WakeRel i => (i < j)%nat | _ => False end.

Record inv (c : config) : Prop := {
  inv_lk : forall t, (t < n)%nat -> c_lk c = Some t <-> holds_lk (c_pc c t) = true;
  inv_lk_n : forall t, c_lk c = Some t -> (t < n)%nat;
  inv_plk : forall t j, (t < n)%nat -> (j < n)%nat -> c_plk c j = Some t <-> holds_p t (c_pc c t) = Some j;
  inv_plk_n : forall t j, c_plk c j = Some t -> (t < n)%nat;
  inv_table : forall t, (t < n)%nat -> table_ok (c_pc c t) (c_state c t) (c_chan c t);
  inv_knows : forall t, (t < n)%nat -> knows (c_pc c t) (c_cond c);
  inv_index : forall t, (t < n)%nat -> index_ok t (c_pc c t);
  inv_wake : forall j, (j < n)%nat -> dozing (c_pc c j) (c_state c j) -> c_cond c = true ->
    exists k, (k < n)%nat /\ will_wake j (c_pc c k)
}.

Lemma sw_init_inv c : init c -> inv c.
Proof.
  intros [Hlk Hi]. split.
  - intros t _. destruct (Hi t) as [[-> | ->] _]; simpl; rewrite Hlk; done.
  - congruence.
  - intros t j _ _. destruct (Hi j) as (_ & -> & _). destruct (Hi t) as [[-> | ->] _]; simpl; done.
  - intros t j Hp. destruct (Hi j) as (_ & E & _). congruence.
  - intros t _. destruct (Hi t) as [[-> | ->] [_ ->]]; done.
  - intros t _. destruct (Hi t) as [[-> | ->] _]; done.
  - intros t _. destruct (Hi t) as [[-> | ->] _]; done.
  - intros j _. destruct (Hi j) as [[-> | ->] _]; done.
Qed.

Lemma ins_eq {A} (f : nat -> A) t x : (<[t := x]> f) t = x.
Proof. apply fn_lookup_insert. Qed.
Lemma ins_ne {A} (f : nat -> A) t u x : t <> u -> (<[t := x]> f) u = f u.
Proof. intros. by apply fn_lookup_insert_ne. Qed.

(** Case analysis on the process that moved. *)
Ltac ins := repeat match goal with
  | |- context [(<[?t := _]> _) ?t] => rewrite ins_eq
  | H : context [(<[?t := _]> _) ?t] |- _ => rewrite ins_eq in H
  | |- context [(<[?t := ?x]> ?f) ?u] => destruct (decide (t = u)) as [<-|?]; [rewrite ?ins_eq|rewrite ?(ins_ne f t u x) by done]
  | H : context [(<[?t := ?x]> ?f) ?u] |- _ =>
      destruct (decide (t = u)) as [<-|?]; [rewrite ?ins_eq in H|rewrite ?(ins_ne f t u x) in H by done]
  end.
Ltac moved Hs Hpc t c := unfold tstep in Hs; destruct (c_pc c t) eqn:Hpc; repeat case_match; simplify_eq/=.

Lemma step_lk c c' t : inv c -> (t < n)%nat -> tstep t c = Some c' ->
  (forall u, (u < n)%nat -> c_lk c' = Some u <-> holds_lk (c_pc c' u) = true) /\
  (forall u, c_lk c' = Some u -> (u < n)%nat).
Proof.
  intros Hinv Ht Hs. pose proof (inv_lk c Hinv) as Hlk. pose proof (inv_lk_n c Hinv) as Hn.
  pose proof (Hlk t Ht) as Hlt.
  moved Hs Hpc t c; split; intros u Hu; simpl in *; ins; simpl; rewrite <- ?Hlk by done; try naive_solver; intuition congruence.
Qed.

Lemma step_plk c c' t : inv c -> (t < n)%nat -> tstep t c = Some c' ->
  (forall u j, (u < n)%nat -> (j < n)%nat -> c_plk c' j = Some u <-> holds_p u (c_pc c' u) = Some j) /\
  (forall u j, c_plk c' j = Some u -> (u < n)%nat).
Proof.
  intros Hinv Ht Hs. pose proof (inv_plk c Hinv) as Hp. pose proof (inv_plk_n c Hinv) as Hn.
  pose proof (inv_index c Hinv t Ht) as Hi. pose proof (fun j => Hp t j Ht) as Hpt.
  moved Hs Hpc t c; split; intros u j Hu; try intros Hj; simpl in *; ins; simpl; rewrite <- ?Hp by done;
    try naive_solver; try (rewrite <- ?Hpt by done; intuition congruence).
Qed.

Lemma step_table c c' t : inv c -> (t < n)%nat -> tstep t c = Some c' ->
  forall u, (u < n)%nat -> table_ok (c_pc c' u) (c_state c' u) (c_chan c' u).
Proof.
  intros Hinv Ht Hs u Hu. pose proof (inv_table c Hinv) as Htab.
  pose proof (inv_index c Hinv t Ht) as Hi. pose proof (Htab t Ht) as Htt. pose proof (Htab u Hu) as Htu.
  assert (Hexcl : holds_p u (c_pc c u) = Some u -> holds_p t (c_pc c t) = Some u -> u = t).
  { intros H1 H2. apply (inv_plk c Hinv) in H1, H2; [|done..]. congruence. }
  moved Hs Hpc t c; simpl in *; ins; simpl in *; try rewrite Hpc in *; try naive_solver.
  clear H. destruct a as [Hsl Hch]. rewrite Hsl, Hch in *.
  destruct (c_pc c i); simpl in *; intuition congruence.
Qed.

Lemma step_knows c c' t : inv c -> (t < n)%nat -> tstep t c = Some c' ->
  (forall u, (u < n)%nat -> knows (c_pc c' u) (c_cond c')) /\ (forall u, (u < n)%nat -> index_ok u (c_pc c' u)).
Proof.
  intros Hinv Ht Hs. pose proof (inv_knows c Hinv) as Hk. pose proof (inv_index c Hinv) as Hi.
  pose proof (Hk t Ht) as Hkt. pose proof (Hi t Ht) as Hit.
  assert (Hother : forall u, (u < n)%nat -> holds_lk (c_pc c t) = true -> holds_lk (c_pc c u) = true -> u = t).
  { intros u Hu H1 H2. apply (inv_lk c Hinv) in H1, H2; [|done..]. congruence. }
  split; intros u Hu; specialize (Hk u Hu); specialize (Hi u Hu); specialize (Hother u Hu);
    moved Hs Hpc t c; simpl in *; ins; simpl in *; try rewrite Hpc in *; simpl in *; try done; try lia.
  all: destruct (c_pc c u); simpl in *; naive_solver.
Qed.

(** A waker that has yet to look at [j] keeps coming: it passes [j] only
    after making it runnable. *)
Lemma wake_passes c c' t j : inv c -> (t < n)%nat -> (j < n)%nat -> tstep t c = Some c' ->
  will_wake j (c_pc c t) -> dozing (c_pc c j) (c_state c j) -> dozing (c_pc c' j) (c_state c' j) ->
  will_wake j (c_pc c' t).
Proof.
  intros Hinv Ht Hj Hs Hw Hd Hd'.
  assert (Hjt : t <> j) by (intros <-; destruct (c_pc c t); done).
  pose proof (inv_table c Hinv j Hj) as Htab.
  assert (Hexcl : holds_p j (c_pc c j) = Some j -> holds_p t (c_pc c t) = Some j -> j = t).
  { intros H1 H2. apply (inv_plk c Hinv) in H1, H2; [|done..]. congruence. }
  moved Hs Hpc t c; simpl in *; ins; simpl in *; try done; try lia.
  - exfalso. clear H. destruct (c_pc c i); simpl in *; intuition congruence.
  - destruct (decide (i = j)) as [->|]; [exfalso|lia]. clear H.
    destruct (c_pc c j); simpl in *; intuition congruence.
Qed.

Lemma step_wake c c' t : inv c -> (t < n)%nat -> tstep t c = Some c' ->
  forall j, (j < n)%nat -> dozing (c_pc c' j) (c_state c' j) -> c_cond c' = true ->
    exists k, (k < n)%nat /\ will_wake j (c_pc c' k).
Proof.
  intros Hinv Ht Hs j Hj Hd Hc.
  destruct (decide (c_pc c t = KSet)) as [Hset|Hset].
  { exists t. split; [done|]. unfold tstep in Hs. rewrite Hset in Hs. simplify_eq/=. rewrite ins_eq. simpl. lia. }
  assert (Hold : dozing (c_pc c j) (c_state c j) /\ c_cond c = true).
  { pose proof (inv_knows c Hinv t Ht) as Hk.
    moved Hs Hpc t c; simpl in *; ins; simpl in *; try rewrite Hpc in *; simpl in *; try done; try congruence.
    destruct a, (c_pc c i); done. }
  destruct Hold as [Hd0 Hc0]. destruct (inv_wake c Hinv j Hj Hd0 Hc0) as (k & Hk & Hw). exists k. split; [done|].
  destruct (decide (k = t)) as [->|Hkt]; [by eapply wake_passes|].
  assert (c_pc c' k = c_pc c k) as ->; [|done].
  moved Hs Hpc t c; simpl; repeat rewrite ins_ne by done; try done; case_match; done.
Qed.

Lemma sw_step_inv c c' : inv c -> step c c' -> inv c'.
Proof.
  intros Hinv (t & Ht & Hs).
  destruct (step_lk c c' t Hinv Ht Hs), (step_plk c c' t Hinv Ht Hs), (step_knows c c' t Hinv Ht Hs).
  split; try done; [by eapply step_table|by eapply step_wake].
Qed.

Lemma sw_reachable_inv c c' : init c -> rtc step c c' -> inv c'.
Proof. intros Hi%sw_init_inv Hr. induction Hr; eauto using sw_step_inv. Qed.

(** With [lk] free and the condition true, nobody is on the way to sleep. *)
Lemma nobody_dozes c j : inv c -> (j < n)%nat -> c_lk c = None -> c_cond c = true ->
  ~ dozing (c_pc c j) (c_state c j).
Proof.
  intros Hinv Hj Hl Hc Hd. destruct (inv_wake c Hinv j Hj Hd Hc) as (k & Hk & Hw).
  assert (holds_lk (c_pc c k) = true) as H%(inv_lk c Hinv) by (destruct (c_pc c k); done); [congruence|done].
Qed.

(** When nobody can move, all locks are free. *)
Lemma stuck_free c : inv c -> (forall c', ~ step c c') ->
  c_lk c = None /\ forall j, (j < n)%nat -> c_plk c j = None.
Proof.
  intros Hinv Hst. assert (Hno : forall t, (t < n)%nat -> tstep t c = None).
  { intros t Ht. destruct (tstep t c) as [c'|] eqn:E; [|done]. destruct (Hst c'). by exists t. }
  assert (Hp : forall j, (j < n)%nat -> c_plk c j = None).
  { intros j Hj. destruct (c_plk c j) as [u|] eqn:E; [|done]. exfalso.
    pose proof (inv_plk_n c Hinv u j E) as Hu. apply (inv_plk c Hinv) in E; [|done..].
    specialize (Hno u Hu). unfold tstep in Hno. destruct (c_pc c u); simpl in *; done. }
  split; [|done]. destruct (c_lk c) as [t|] eqn:E; [|done]. exfalso.
  pose proof (inv_lk_n c Hinv t E) as Ht. apply (inv_lk c Hinv) in E; [|done].
  pose proof (inv_index c Hinv t Ht) as Hi. specialize (Hno t Ht). unfold tstep in Hno.
  destruct (c_pc c t); simpl in *; try done.
  - by rewrite (Hp t Ht) in Hno.
  - repeat case_match; try done. by rewrite (Hp i) in * by lia.
Qed.

(** C18: [sleep] and [wakeup] lose no wakeups.  In every state the processes
    can reach, whatever the interleaving: when [lk] is free and the condition
    true, every process asleep on the channel has been made runnable; and when
    no process can take another step, each has finished or is asleep with the
    condition false, so that no process is left sleeping on a condition that
    holds and the locks cannot deadlock. *)
Theorem no_lost_wakeup c c' : init c -> rtc step c c' ->
  (c_lk c' = None -> c_cond c' = true ->
   forall j, (j < n)%nat -> c_pc c' j = Asleep -> c_state c' j = RUNNABLE) /\
  ((forall c'', ~ step c' c'') ->
   forall j, (j < n)%nat -> c_pc c' j = Finished \/
     c_pc c' j = Asleep /\ c_state c' j = SLEEPING /\ c_cond c' = false).
Proof.
  intros Hi Hr. pose proof (sw_reachable_inv c c' Hi Hr) as Hinv. split.
  - intros Hl Hc j Hj Hpc. pose proof (inv_table c' Hinv j Hj) as Ht.
    pose proof (nobody_dozes c' j Hinv Hj Hl Hc) as Hd. rewrite Hpc in Ht, Hd. simpl in *. tauto.
  - intros Hst j Hj. destruct (stuck_free c' Hinv Hst) as [Hl Hp].
    assert (Hno : tstep j c' = None).
    { destruct (tstep j c') as [c2|] eqn:E; [|done]. destruct (Hst c2). by exists j. }
    pose proof (inv_index c' Hinv j Hj) as Hix. pose proof (inv_table c' Hinv j Hj) as Ht.
    pose proof (nobody_dozes c' j Hinv Hj Hl) as Hd. specialize (Hp j Hj).
    assert (Hh : holds_lk (c_pc c' j) = false).
    { apply not_true_is_false. intros H%(inv_lk c' Hinv); [congruence|done]. }
    unfold tstep in Hno. rewrite Hl, Hp in Hno.
    destruct (c_pc c' j); simpl in *; try done; [|by left].
    right. destruct Ht as [_ [Hs|Hs]]; [|by rewrite decide_True in Hno].
    conjs; try done. destruct (c_cond c'); [|done]. destruct (Hd eq_refl Hs).
Qed.
End Step.

(** ** A run: process 1 goes to sleep, process 0 wakes it, and it finishes *)
Definition start : config :=
  Config None false (fun t => match t with O => KAcq | _ => WaitAcq end) (fun _ => None) (fun _ => RUNNING) (fun _ => false).
Fixpoint run (ts : list nat) (c : config) : option config :=
  match ts with [] => Some c | t :: ts' => c1 ← tstep 2 t c; run ts' c1 end.

Lemma sw_run_steps ts c c' : Forall (fun t => (t < 2)%nat) ts -> run ts c = Some c' -> rtc (step 2) c c'.
Proof.
  intros Hts. revert c. induction Hts as [|t ts Ht _ IH]; intros c; simpl; [intros [= ->]; reflexivity|].
  destruct (tstep 2 t c) as [c1|] eqn:E; [|done]. intros Hr. eapply rtc_l; [by exists t|by apply IH].
Qed.

(** Process 1 asleep, then woken with the lock free again. *)
Definition schedule : list nat := [1; 1; 1; 1; 1; 1; 1; 0; 0; 0; 0; 0; 0; 0; 0]%nat.

Lemma no_lost_wakeup_witness :
  exists c', run schedule start = Some c' /\ c_pc c' 1%nat = Asleep /\ c_state c' 1%nat = RUNNABLE.
Proof.
  destruct (run schedule start) as [c'|] eqn:E; [|exfalso; vm_compute in E; discriminate E].
  exists c'. split; [reflexivity|].
  assert (Hpc : c_pc c' 1%nat = Asleep /\ c_lk c' = None /\ c_cond c' = true).
  { vm_compute in E. injection E as <-. repeat split. }
  destruct Hpc as (Hpc & Hl & Hc). split; [exact Hpc|].
  apply (no_lost_wakeup 2 start c').
  - split; [reflexivity|]. intros [|t]; repeat split; auto.
  - assert (Hts : Forall (fun t => (t < 2)%nat) schedule) by (repeat constructor).
    exact (sw_run_steps schedule start c' Hts E).
  - exact Hl.
  - exact Hc.
  - lia.
  - exact Hpc.
Defined.
End SleepWakeup.
