(* ===== verification/Virtio.v ===== *)
(** * The disk driver: kernel/virtio_disk.c

    Processes call [virtio_disk_rw], the device serves requests, and
    [virtio_disk_intr] hands completed ones back, all interleaved.  The code
    between taking [vdisk_lock] and releasing it (or sleeping) is one step of a
    process; the device works at any time, also between two rounds of the loop
    of [virtio_disk_intr].  The arrays indexed by descriptor are functions with
    the bound of their index checked by the accessors.  Addresses the driver
    gives the device are symbolic: a command header, a buffer's data or a
    status byte. *)

From S2P Require Import Prelude Memory Riscv Spinlock Kalloc Vm Bio Ring.

Definition NUM : Z := 8.
Definition VRING_DESC_F_NEXT : Z := 1.
Definition VRING_DESC_F_WRITE : Z := 2.
Definition VIRTIO_BLK_T_IN : Z := 0.
Definition VIRTIO_BLK_T_OUT : Z := 1.

Inductive dma := Anull | Aops (i : Z) | Adata (b : Z) | Astatus (i : Z).
Record virtq_desc := Desc { d_addr : dma; d_len : Z; d_flags : Z; d_next : Z }.
Record virtio_blk_req := Blk_req { rq_type : Z; rq_reserved : Z; rq_sector : Z }.
(** An element of [disk.info] *)
Record vinfo := Info { in_b : option Z; in_status : Z }.

(** Where a process is: not in [virtio_disk_rw]; about to take the lock and
    allocate descriptors; asleep on [disk.free]; asleep on its buffer, with
    [idx[0]]; woken from that. *)
Inductive tstate :=
| TIdle
| TEntry (b : Z) (write : bool)
| TWaitFree (b : Z) (write : bool)
| TWait (b : Z) (write : bool) (idx0 : Z)
| TWoken (b : Z) (write : bool) (idx0 : Z).

(** [struct disk] and the queues it points to, the [disk] flags of the
    buffers, the processes, the buffers and the disk itself.  The device has
    read the available ring up to [vs_dev_idx] and works on [vs_dev_pend];
    [vs_isr] is its interrupt status register. *)
Record vst := Vst {
  vs_desc : Z -> virtq_desc;
  vs_avail_idx : Z;
  vs_avail_ring : list Z;
  vs_used_ring_idx : Z;
  vs_used_ring : list Z;
  vs_free : Z -> bool;
  vs_used_idx : Z;
  vs_info : Z -> vinfo;
  vs_ops : Z -> virtio_blk_req;
  vs_lock : bool;
  vs_busy : Z -> bool;
  vs_thr : Z -> tstate;
  vs_bst : bst;
  vs_dev_idx : Z;
  vs_dev_pend : list Z;
  vs_isr : Z
}.
Definition set_vs_desc (v : Z -> virtq_desc) (s : vst) : vst :=
  Vst v (vs_avail_idx s) (vs_avail_ring s) (vs_used_ring_idx s) (vs_used_ring s) (vs_free s) (vs_used_idx s) (vs_info s) (vs_ops s) (vs_lock s) (vs_busy s) (vs_thr s) (vs_bst s) (vs_dev_idx s) (vs_dev_pend s) (vs_isr s).
Definition set_vs_avail_idx (v : Z) (s : vst) : vst :=
  Vst (vs_desc s) v (vs_avail_ring s) (vs_used_ring_idx s) (vs_used_ring s) (vs_free s) (vs_used_idx s) (vs_info s) (vs_ops s) (vs_lock s) (vs_busy s) (vs_thr s) (vs_bst s) (vs_dev_idx s) (vs_dev_pend s) (vs_isr s).
Definition set_vs_avail_ring (v : list Z) (s : vst) : vst :=
  Vst (vs_desc s) (vs_avail_idx s) v (vs_used_ring_idx s) (vs_used_ring s) (vs_free s) (vs_used_idx s) (vs_info s) (vs_ops s) (vs_lock s) (vs_busy s) (vs_thr s) (vs_bst s) (vs_dev_idx s) (vs_dev_pend s) (vs_isr s).
Definition set_vs_used_ring_idx (v : Z) (s : vst) : vst :=
  Vst (vs_desc s) (vs_avail_idx s) (vs_avail_ring s) v (vs_used_ring s) (vs_free s) (vs_used_idx s) (vs_info s) (vs_ops s) (vs_lock s) (vs_busy s) (vs_thr s) (vs_bst s) (vs_dev_idx s) (vs_dev_pend s) (vs_isr s).
Definition set_vs_used_ring (v : list Z) (s : vst) : vst :=
  Vst (vs_desc s) (vs_avail_idx s) (vs_avail_ring s) (vs_used_ring_idx s) v (vs_free s) (vs_used_idx s) (vs_info s) (vs_ops s) (vs_lock s) (vs_busy s) (vs_thr s) (vs_bst s) (vs_dev_idx s) (vs_dev_pend s) (vs_isr s).
Definition set_vs_free (v : Z -> bool) (s : vst) : vst :=
  Vst (vs_desc s) (vs_avail_idx s) (vs_avail_ring s) (vs_used_ring_idx s) (vs_used_ring s) v (vs_used_idx s) (vs_info s) (vs_ops s) (vs_lock s) (vs_busy s) (vs_thr s) (vs_bst s) (vs_dev_idx s) (vs_dev_pend s) (vs_isr s).
Definition set_vs_used_idx (v : Z) (s : vst) : vst :=
  Vst (vs_desc s) (vs_avail_idx s) (vs_avail_ring s) (vs_used_ring_idx s) (vs_used_ring s) (vs_free s) v (vs_info s) (vs_ops s) (vs_lock s) (vs_busy s) (vs_thr s) (vs_bst s) (vs_dev_idx s) (vs_dev_pend s) (vs_isr s).
Definition set_vs_info (v : Z -> vinfo) (s : vst) : vst :=
  Vst (vs_desc s) (vs_avail_idx s) (vs_avail_ring s) (vs_used_ring_idx s) (vs_used_ring s) (vs_free s) (vs_used_idx s) v (vs_ops s) (vs_lock s) (vs_busy s) (vs_thr s) (vs_bst s) (vs_dev_idx s) (vs_dev_pend s) (vs_isr s).
Definition set_vs_ops (v : Z -> virtio_blk_req) (s : vst) : vst :=
  Vst (vs_desc s) (vs_avail_idx s) (vs_avail_ring s) (vs_used_ring_idx s) (vs_used_ring s) (vs_free s) (vs_used_idx s) (vs_info s) v (vs_lock s) (vs_busy s) (vs_thr s) (vs_bst s) (vs_dev_idx s) (vs_dev_pend s) (vs_isr s).
Definition set_vs_lock (v : bool) (s : vst) : vst :=
  Vst (vs_desc s) (vs_avail_idx s) (vs_avail_ring s) (vs_used_ring_idx s) (vs_used_ring s) (vs_free s) (vs_used_idx s) (vs_info s) (vs_ops s) v (vs_busy s) (vs_thr s) (vs_bst s) (vs_dev_idx s) (vs_dev_pend s) (vs_isr s).
Definition set_vs_busy (v : Z -> bool) (s : vst) : vst :=
  Vst (vs_desc s) (vs_avail_idx s) (vs_avail_ring s) (vs_used_ring_idx s) (vs_used_ring s) (vs_free s) (vs_used_idx s) (vs_info s) (vs_ops s) (vs_lock s) v (vs_thr s) (vs_bst s) (vs_dev_idx s) (vs_dev_pend s) (vs_isr s).
Definition set_vs_thr (v : Z -> tstate) (s : vst) : vst :=
  Vst (vs_desc s) (vs_avail_idx s) (vs_avail_ring s) (vs_used_ring_idx s) (vs_used_ring s) (vs_free s) (vs_used_idx s) (vs_info s) (vs_ops s) (vs_lock s) (vs_busy s) v (vs_bst s) (vs_dev_idx s) (vs_dev_pend s) (vs_isr s).
Definition set_vs_bst (v : bst) (s : vst) : vst :=
  Vst (vs_desc s) (vs_avail_idx s) (vs_avail_ring s) (vs_used_ring_idx s) (vs_used_ring s) (vs_free s) (vs_used_idx s) (vs_info s) (vs_ops s) (vs_lock s) (vs_busy s) (vs_thr s) v (vs_dev_idx s) (vs_dev_pend s) (vs_isr s).
Definition set_vs_dev_idx (v : Z) (s : vst) : vst :=
  Vst (vs_desc s) (vs_avail_idx s) (vs_avail_ring s) (vs_used_ring_idx s) (vs_used_ring s) (vs_free s) (vs_used_idx s) (vs_info s) (vs_ops s) (vs_lock s) (vs_busy s) (vs_thr s) (vs_bst s) v (vs_dev_pend s) (vs_isr s).
Definition set_vs_dev_pend (v : list Z) (s : vst) : vst :=
  Vst (vs_desc s) (vs_avail_idx s) (vs_avail_ring s) (vs_used_ring_idx s) (vs_used_ring s) (vs_free s) (vs_used_idx s) (vs_info s) (vs_ops s) (vs_lock s) (vs_busy s) (vs_thr s) (vs_bst s) (vs_dev_idx s) v (vs_isr s).
Definition set_vs_isr (v : Z) (s : vst) : vst :=
  Vst (vs_desc s) (vs_avail_idx s) (vs_avail_ring s) (vs_used_ring_idx s) (vs_used_ring s) (vs_free s) (vs_used_idx s) (vs_info s) (vs_ops s) (vs_lock s) (vs_busy s) (vs_thr s) (vs_bst s) (vs_dev_idx s) (vs_dev_pend s) v.

Inductive vchan := CFree | CBuf (b : Z).
Definition wake_t (c : vchan) (st : tstate) : tstate :=
  match c, st with
  | CFree, TWaitFree b w => TEntry b w
  | CBuf b, TWait b' w i => if decide (b = b') then TWoken b' w i else st
  | _, _ => st
  end.
Definition vwakeup (c : vchan) : M vst unit := modify (fun s => set_vs_thr (fun t => wake_t c (vs_thr s t)) s).
Definition vacquire : M vst unit :=
  l <-! gets vs_lock ;; if (l : bool) then diverge else modify (set_vs_lock true).
Definition vrelease : M vst unit := modify (set_vs_lock false).
(** [sleep(chan, &disk.vdisk_lock)] by process [t], to go on as [k]. *)
Definition vsleep (t : Z) (k : tstate) : M vst unit :=
  modify (fun s => set_vs_thr (<[t := k]> (vs_thr s)) s) ;;; vrelease.

(** An array index is checked: reading or writing elsewhere is undefined. *)
Definition in_num (i : Z) : bool := (0 <=? i) && (i <? NUM).
Definition at_num {A} (i : Z) (f : vst -> A) : M vst A := if in_num i then gets f else undef.
Definition upd_num (i : Z) (f : vst -> vst) : M vst unit := if in_num i then modify f else undef.
Definition set_desc (i : Z) (d : virtq_desc) : M vst unit :=
  upd_num i (fun s => set_vs_desc (<[i := d]> (vs_desc s)) s).
Definition set_free (i : Z) (v : bool) : M vst unit :=
  upd_num i (fun s => set_vs_free (<[i := v]> (vs_free s)) s).

Fixpoint alloc_desc_loop (ids : list Z) : M vst Z :=
  match ids with
  | [] => ret (-1)
  | i :: ids' =>
      fr <-! at_num i (fun s => vs_free s i) ;;
      if (fr : bool) then set_free i false ;;; ret i else alloc_desc_loop ids'
  end.
Definition alloc_desc : M vst Z := alloc_desc_loop (upto NUM).

Definition free_desc (i : Z) : M vst unit :=
  panic_if (NUM <=? i) "free_desc 1" ;;;
  fr <-! at_num i (fun s => vs_free s i) ;;
  panic_if fr "free_desc 2" ;;;
  set_desc i (Desc Anull 0 0 0) ;;;
  set_free i true ;;;
  vwakeup CFree.

(** A chain has at most [NUM] descriptors, as [free_desc] panics at the second
    visit of one. *)
Fixpoint free_chain_loop (fuel : nat) (i : Z) : M vst unit :=
  match fuel with
  | O => diverge
  | S fuel' =>
      d <-! at_num i (fun s => vs_desc s i) ;;
      free_desc i ;;;
      if Z.land (d_flags d) VRING_DESC_F_NEXT =? 0 then ret tt else free_chain_loop fuel' (d_next d)
  end.
Definition free_chain (i : Z) : M vst unit := free_chain_loop (Z.to_nat NUM + 1) i.

(** [idx] is the list of descriptors so far, [n] how many are still needed. *)
Fixpoint alloc3_desc_loop (n : nat) (idx : list Z) : M vst (option (list Z)) :=
  match n with
  | O => ret (Some idx)
  | S n' =>
      i <-! alloc_desc ;;
      if i <? 0 then for_each idx free_desc ;;; ret None
      else alloc3_desc_loop n' (idx ++ [i])
  end.
Definition alloc3_desc : M vst (option (list Z)) := alloc3_desc_loop 3 [].

(** Formatting the descriptors and telling the device; the write to
    [VIRTIO_MMIO_QUEUE_NOTIFY] only lets the device look at the ring, which it
    may do here at any time. *)
Definition submit (b : Z) (write : bool) (sector i0 i1 i2 : Z) : M vst unit :=
  upd_num i0 (fun s => set_vs_ops (<[i0 := Blk_req (if write then VIRTIO_BLK_T_OUT else VIRTIO_BLK_T_IN) 0 sector]> (vs_ops s)) s) ;;;
  set_desc i0 (Desc (Aops i0) 16 VRING_DESC_F_NEXT (u16 i1)) ;;;
  set_desc i1 (Desc (Adata b) BSIZE (Z.lor (if write then 0 else VRING_DESC_F_WRITE) VRING_DESC_F_NEXT) (u16 i2)) ;;;
  upd_num i0 (fun s => set_vs_info (<[i0 := Info (in_b (vs_info s i0)) 0xff]> (vs_info s)) s) ;;;
  set_desc i2 (Desc (Astatus i0) 1 VRING_DESC_F_WRITE 0) ;;;
  modify (fun s => set_vs_busy (<[b := true]> (vs_busy s)) s) ;;;
  upd_num i0 (fun s => set_vs_info (<[i0 := Info (Some b) (in_status (vs_info s i0))]> (vs_info s)) s) ;;;
  modify (fun s => set_vs_avail_ring (<[Z.to_nat (vs_avail_idx s mod NUM) := u16 i0]> (vs_avail_ring s)) s) ;;;
  modify (fun s => set_vs_avail_idx (u16 (vs_avail_idx s + 1)) s).

(** [while(b->disk == 1) sleep(b, &disk.vdisk_lock);] and what follows *)
Definition rw_wait (t b : Z) (write : bool) (i0 : Z) : M vst unit :=
  busy <-! gets (fun s => vs_busy s b) ;;
  if (busy : bool) then vsleep t (TWait b write i0)
  else
    upd_num i0 (fun s => set_vs_info (<[i0 := Info None (in_status (vs_info s i0))]> (vs_info s)) s) ;;;
    free_chain i0 ;;;
    vrelease ;;;
    modify (fun s => set_vs_thr (<[t := TIdle]> (vs_thr s)) s).

Definition virtio_disk_rw (t b : Z) (write : bool) : M vst unit :=
  bs <-! gets vs_bst ;;
  match bufs bs !! b with
  | None => undef
  | Some p =>
      let sector := u32 (b_blockno p * (BSIZE / 512)) in
      vacquire ;;;
      idx <-! alloc3_desc ;;
      match idx with
      | Some [i0; i1; i2] => submit b write sector i0 i1 i2 ;;; rw_wait t b write i0
      | _ => vsleep t (TWaitFree b write)
      end
  end.
(** Back from [sleep(b, &disk.vdisk_lock)] *)
Definition virtio_disk_rw_resume (t b : Z) (write : bool) (i0 : Z) : M vst unit :=
  vacquire ;;; rw_wait t b write i0.

(** [*R(VIRTIO_MMIO_INTERRUPT_ACK) = *R(VIRTIO_MMIO_INTERRUPT_STATUS) & 0x3] *)
Definition intr_ack : M vst unit :=
  modify (fun s => set_vs_isr (Z.ldiff (vs_isr s) (Z.land (vs_isr s) 3)) s).
Definition intr_enter : M vst unit := vacquire ;;; intr_ack.
Definition intr_more (s : vst) : bool := negb (vs_used_idx s =? vs_used_ring_idx s).
Definition intr_body : M vst unit :=
  id <-! gets (fun s => nth (Z.to_nat (vs_used_idx s mod NUM)) (vs_used_ring s) 0) ;;
  inf <-! at_num id (fun s => vs_info s id) ;;
  panic_if (negb (in_status inf =? 0)) "virtio_disk_intr status" ;;;
  match in_b inf with
  | None => undef
  | Some b =>
      modify (fun s => set_vs_busy (<[b := false]> (vs_busy s)) s) ;;;
      vwakeup (CBuf b) ;;;
      modify (fun s => set_vs_used_idx (u16 (vs_used_idx s + 1)) s)
  end.
(** Without steps of the device in between, [NUM] rounds are enough. *)
Fixpoint intr_loop (fuel : nat) : M vst unit :=
  match fuel with
  | O => diverge
  | S fuel' => more <-! gets intr_more ;; if (more : bool) then intr_body ;;; intr_loop fuel' else ret tt
  end.
Definition virtio_disk_intr : M vst unit :=
  intr_enter ;;;
  intr_loop (Z.to_nat NUM + 1) ;;;
  vrelease.

(** ** The device

    What the virtio specification lets a block device do.  It takes chain heads
    from the available ring, serves them in any order, writes status 0, puts the
    head in the used ring and raises an interrupt.  On a chain that is not a
    well-formed request it may do anything. *)

Definition dev_serve (s : vst) (h : Z) : option (bst * Z) :=
  let d0 := vs_desc s h in
  let d1 := vs_desc s (d_next d0) in
  let d2 := vs_desc s (d_next d1) in
  match d_addr d0, d_addr d1, d_addr d2 with
  | Aops i, Adata b, Astatus j =>
      let rq := vs_ops s i in
      if (d_len d0 =? 16) && (d_len d1 =? BSIZE) && (d_len d2 =? 1) &&
         (d_flags d0 =? VRING_DESC_F_NEXT) && (d_flags d2 =? VRING_DESC_F_WRITE) && (rq_sector rq mod 2 =? 0)
      then
        match bufs (vs_bst s) !! b with
        | None => None
        | Some p =>
            if (rq_type rq =? VIRTIO_BLK_T_OUT) && (d_flags d1 =? VRING_DESC_F_NEXT) then
              Some (Bst (bs_cache (vs_bst s)) (dwrite (rq_sector rq / 2) (b_data p) (bs_disk (vs_bst s))), j)
            else if (rq_type rq =? VIRTIO_BLK_T_IN) && (d_flags d1 =? Z.lor VRING_DESC_F_WRITE VRING_DESC_F_NEXT) then
              Some (put b (set_data (dread (bs_disk (vs_bst s)) (rq_sector rq / 2)) p) (vs_bst s), j)
            else None
        end
      else None
  | _, _, _ => None
  end.

(** The device has served [h]: [bs] are the buffers and the disk afterwards,
    [j] the entry whose status it wrote. *)
Definition dev_done (h : Z) (bs : bst) (j : Z) (s : vst) : vst :=
  set_vs_isr (Z.lor (vs_isr s) 1)
    (set_vs_used_ring_idx (u16 (vs_used_ring_idx s + 1))
      (set_vs_used_ring (<[Z.to_nat (vs_used_ring_idx s mod NUM) := h]> (vs_used_ring s))
        (set_vs_info (<[j := Info (in_b (vs_info s j)) 0]> (vs_info s))
          (set_vs_bst bs s)))).

Inductive dev_step : vst -> vst -> Prop :=
| dev_fetch s : vs_dev_idx s <> vs_avail_idx s ->
    dev_step s (set_vs_dev_idx (u16 (vs_dev_idx s + 1))
      (set_vs_dev_pend (vs_dev_pend s ++ [nth (Z.to_nat (vs_dev_idx s mod NUM)) (vs_avail_ring s) 0]) s))
| dev_complete s l1 h l2 bs j : vs_dev_pend s = l1 ++ h :: l2 -> dev_serve s h = Some (bs, j) ->
    dev_step s (dev_done h bs j (set_vs_dev_pend (l1 ++ l2) s))
| dev_bad s h s' : h ∈ vs_dev_pend s -> dev_serve s h = None -> dev_step s s'.

(** ** The whole system *)

Definition uses (st : tstate) : option (Z * bool) :=
  match st with
  | TIdle => None
  | TEntry b w | TWaitFree b w | TWait b w _ | TWoken b w _ => Some (b, w)
  end.
Definition vrunnable (st : tstate) : bool :=
  match st with TEntry _ _ | TWoken _ _ _ => true | _ => false end.
(** The next critical section of process [t] *)
Definition vrun (t : Z) (s : vst) : outcome vst unit :=
  match vs_thr s t with
  | TEntry b w => virtio_disk_rw t b w s
  | TWoken b w i0 => virtio_disk_rw_resume t b w i0 s
  | _ => Undef
  end.

Section System.
(** The device's steps *)
Variable dev : vst -> vst -> Prop.

(** A process calls [virtio_disk_rw] holding the buffer's sleep-lock, so no
    other call is about that buffer.  Other code changes buffers that no call
    is about.  The interrupt handler runs with the lock held; [vs_lock] is true
    between two steps only inside it. *)
Inductive vstep : vst -> vst -> Prop :=
| sys_call s t b w p : vs_thr s t = TIdle -> (forall t' w', uses (vs_thr s t') <> Some (b, w')) ->
    bufs (vs_bst s) !! b = Some p -> 0 <= b_blockno p < 2 ^ 31 ->
    vstep s (set_vs_thr (<[t := TEntry b w]> (vs_thr s)) s)
| sys_run s t s' : vrunnable (vs_thr s t) = true -> vs_lock s = false -> vrun t s = Done tt s' -> vstep s s'
| sys_dev s s' : dev s s' -> vstep s s'
| sys_intr_enter s s' : vs_isr s <> 0 -> vs_lock s = false -> intr_enter s = Done tt s' -> vstep s s'
| sys_intr_body s s' : vs_lock s = true -> intr_more s = true -> intr_body s = Done tt s' -> vstep s s'
| sys_intr_exit s s' : vs_lock s = true -> intr_more s = false -> vrelease s = Done tt s' -> vstep s s'
| sys_other s bs : bs_disk bs = bs_disk (vs_bst s) ->
    (forall t b w, uses (vs_thr s t) = Some (b, w) -> bufs bs !! b = bufs (vs_bst s) !! b) ->
    vstep s (set_vs_bst bs s).
End System.

(** After [virtio_disk_init]: every descriptor free, the rings empty. *)
Definition vinit (s : vst) : Prop :=
  (forall i, 0 <= i < NUM -> vs_free s i = true) /\ vs_avail_idx s = 0 /\ length (vs_avail_ring s) = 8%nat /\
  vs_used_ring_idx s = 0 /\ length (vs_used_ring s) = 8%nat /\ vs_used_idx s = 0 /\ vs_lock s = false /\
  (forall t, vs_thr s t = TIdle) /\ vs_dev_idx s = 0 /\ vs_dev_pend s = [] /\ vs_isr s = 0.

(** ** The contract: transfers are atomic *)

Inductive athr := AIdle | ACalled (b : Z) (w : bool) | ADone (b : Z) (w : bool).
(** A call, the transfer [disk_rw] of a call not yet served, a return, a change
    of buffers no call is about; or nothing. *)
Inductive astep : (Z -> athr) * bst -> (Z -> athr) * bst -> Prop :=
| as_call f bs f' t b w : f t = AIdle -> f' t = ACalled b w -> (forall t', t' <> t -> f' t' = f t') ->
    astep (f, bs) (f', bs)
| as_transfer f bs f' bs' t b w : f t = ACalled b w -> f' t = ADone b w -> (forall t', t' <> t -> f' t' = f t') ->
    disk_rw b w bs = Done tt bs' -> astep (f, bs) (f', bs')
| as_return f bs f' t b w : f t = ADone b w -> f' t = AIdle -> (forall t', t' <> t -> f' t' = f t') ->
    astep (f, bs) (f', bs)
| as_other f bs f' bs' : (forall t, f' t = f t) -> bs_disk bs' = bs_disk bs ->
    (forall t b w, f t = ACalled b w \/ f t = ADone b w -> bufs bs' !! b = bufs bs !! b) ->
    astep (f, bs) (f', bs').

(** The chain heads the device has not served yet *)
Definition avail_q (s : vst) : list Z := rqueue (2 ^ 16) NUM (vs_avail_ring s) (vs_dev_idx s) (vs_avail_idx s).
Definition unserved (s : vst) : list Z := avail_q s ++ vs_dev_pend s.
(** ... and those served that [virtio_disk_intr] has not seen yet. *)
Definition used_q (s : vst) : list Z := rqueue (2 ^ 16) NUM (vs_used_ring s) (vs_used_idx s) (vs_used_ring_idx s).
Definition vabs_t (s : vst) (st : tstate) : athr :=
  match st with
  | TIdle => AIdle
  | TEntry b w | TWaitFree b w => ACalled b w
  | TWait b w i | TWoken b w i => if decide (i ∈ unserved s) then ACalled b w else ADone b w
  end.
Definition vabs (s : vst) : (Z -> athr) * bst := (fun t => vabs_t s (vs_thr s t), vs_bst s).

(** ** Starting the device: [virtio_disk_init] *)

Definition VIRTIO_MMIO_MAGIC_VALUE : Z := 0x000.
Definition VIRTIO_MMIO_VERSION : Z := 0x004.
Definition VIRTIO_MMIO_DEVICE_ID : Z := 0x008.
Definition VIRTIO_MMIO_VENDOR_ID : Z := 0x00c.
Definition VIRTIO_MMIO_DEVICE_FEATURES : Z := 0x010.
Definition VIRTIO_MMIO_DRIVER_FEATURES : Z := 0x020.
Definition VIRTIO_MMIO_QUEUE_SEL : Z := 0x030.
Definition VIRTIO_MMIO_QUEUE_NUM_MAX : Z := 0x034.
Definition VIRTIO_MMIO_QUEUE_NUM : Z := 0x038.
Definition VIRTIO_MMIO_QUEUE_READY : Z := 0x044.
Definition VIRTIO_MMIO_STATUS : Z := 0x070.
Definition VIRTIO_MMIO_QUEUE_DESC_LOW : Z := 0x080.
Definition VIRTIO_MMIO_QUEUE_DESC_HIGH : Z := 0x084.
Definition VIRTIO_MMIO_DRIVER_DESC_LOW : Z := 0x090.
Definition VIRTIO_MMIO_DRIVER_DESC_HIGH : Z := 0x094.
Definition VIRTIO_MMIO_DEVICE_DESC_LOW : Z := 0x0a0.
Definition VIRTIO_MMIO_DEVICE_DESC_HIGH : Z := 0x0a4.
Definition VIRTIO_CONFIG_S_ACKNOWLEDGE : Z := 1.
Definition VIRTIO_CONFIG_S_DRIVER : Z := 2.
Definition VIRTIO_CONFIG_S_DRIVER_OK : Z := 4.
Definition VIRTIO_CONFIG_S_FEATURES_OK : Z := 8.
(** [VIRTIO_BLK_F_RO], [SCSI], [CONFIG_WCE], [MQ], [VIRTIO_F_ANY_LAYOUT],
    [VIRTIO_RING_F_EVENT_IDX] and [VIRTIO_RING_F_INDIRECT_DESC] *)
Definition refused_features : list Z := [5; 7; 11; 12; 27; 29; 28].

(** The memory, the register writes so far, and the fields set. *)
Record vini := Vini {
  vn_k : kst;
  vn_wr : list (Z * Z);
  vn_desc : Z;
  vn_avail : Z;
  vn_used : Z;
  vn_free : Z -> bool;
  vn_lock : spinlock
}.
Definition vn_mem : lens vini kst :=
  Lens vn_k (fun k s => Vini k (vn_wr s) (vn_desc s) (vn_avail s) (vn_used s) (vn_free s) (vn_lock s)).

Section Init.
Context `{HC : Ctx}.
(** What the device's registers read after the given writes. *)
Variable mmio : list (Z * Z) -> Z -> Z.

Definition rd (r : Z) : M vini Z := s <-! gets (fun s => s) ;; ret (u32 (mmio (vn_wr s) r)).
Definition wr (r v : Z) : M vini unit :=
  modify (fun s => Vini (vn_k s) (vn_wr s ++ [(r, u32 v)]) (vn_desc s) (vn_avail s) (vn_used s) (vn_free s) (vn_lock s)).

Definition virtio_disk_init : M vini unit :=
  modify (fun s => Vini (vn_k s) (vn_wr s) (vn_desc s) (vn_avail s) (vn_used s) (vn_free s) (initlock "virtio_disk")) ;;;
  magic <-! rd VIRTIO_MMIO_MAGIC_VALUE ;;
  version <-! rd VIRTIO_MMIO_VERSION ;;
  id <-! rd VIRTIO_MMIO_DEVICE_ID ;;
  vendor <-! rd VIRTIO_MMIO_VENDOR_ID ;;
  panic_if (negb (magic =? 0x74726976) || negb (version =? 2) || negb (id =? 2) || negb (vendor =? 0x554d4551))
    "could not find virtio disk" ;;;
  wr VIRTIO_MMIO_STATUS 0 ;;;
  let status := Z.lor 0 VIRTIO_CONFIG_S_ACKNOWLEDGE in
  wr VIRTIO_MMIO_STATUS status ;;;
  let status := Z.lor status VIRTIO_CONFIG_S_DRIVER in
  wr VIRTIO_MMIO_STATUS status ;;;
  features <-! rd VIRTIO_MMIO_DEVICE_FEATURES ;;
  wr VIRTIO_MMIO_DRIVER_FEATURES (foldl (fun f bit => Z.land f (Z.lnot (Z.shiftl 1 bit))) features refused_features) ;;;
  let status := Z.lor status VIRTIO_CONFIG_S_FEATURES_OK in
  wr VIRTIO_MMIO_STATUS status ;;;
  status <-! rd VIRTIO_MMIO_STATUS ;;
  panic_if (Z.land status VIRTIO_CONFIG_S_FEATURES_OK =? 0) "virtio disk FEATURES_OK unset" ;;;
  wr VIRTIO_MMIO_QUEUE_SEL 0 ;;;
  ready <-! rd VIRTIO_MMIO_QUEUE_READY ;;
  panic_if (negb (ready =? 0)) "virtio disk should not be ready" ;;;
  max <-! rd VIRTIO_MMIO_QUEUE_NUM_MAX ;;
  panic_if (max =? 0) "virtio disk has no queue 0" ;;;
  panic_if (max <? NUM) "virtio disk max queue too short" ;;;
  desc <-! lift vn_mem kalloc ;;
  avail <-! lift vn_mem kalloc ;;
  used <-! lift vn_mem kalloc ;;
  modify (fun s => Vini (vn_k s) (vn_wr s) desc avail used (vn_free s) (vn_lock s)) ;;;
  panic_if ((desc =? 0) || (avail =? 0) || (used =? 0)) "virtio disk kalloc" ;;;
  lift vn_mem (kmemset desc 0 PGSIZE) ;;;
  lift vn_mem (kmemset avail 0 PGSIZE) ;;;
  lift vn_mem (kmemset used 0 PGSIZE) ;;;
  wr VIRTIO_MMIO_QUEUE_NUM NUM ;;;
  wr VIRTIO_MMIO_QUEUE_DESC_LOW desc ;;;
  wr VIRTIO_MMIO_QUEUE_DESC_HIGH (Z.shiftr desc 32) ;;;
  wr VIRTIO_MMIO_DRIVER_DESC_LOW avail ;;;
  wr VIRTIO_MMIO_DRIVER_DESC_HIGH (Z.shiftr avail 32) ;;;
  wr VIRTIO_MMIO_DEVICE_DESC_LOW used ;;;
  wr VIRTIO_MMIO_DEVICE_DESC_HIGH (Z.shiftr used 32) ;;;
  wr VIRTIO_MMIO_QUEUE_READY 0x1 ;;;
  modify (fun s => Vini (vn_k s) (vn_wr s) (vn_desc s) (vn_avail s) (vn_used s)
    (fun i => if in_num i then true else vn_free s i) (vn_lock s)) ;;;
  wr VIRTIO_MMIO_STATUS (Z.lor status VIRTIO_CONFIG_S_DRIVER_OK).
End Init.
