(* ===== verification/VirtioSpec.v ===== *)
(** * The disk driver transfers blocks atomically

    The invariant of the driver, the device and the processes; that their
    interleaved steps implement [disk_rw], the transfer the buffer cache is
    built on; and that no completion is lost. *)

From S2P Require Import Prelude Memory Riscv Spinlock Kalloc Bio Ring Virtio.

(** ** Chains of descriptors *)

Definition inflight (st : tstate) : option (Z * bool * Z) :=
  match st with TWait b w i | TWoken b w i => Some (b, w, i) | _ => None end.
Definition nxt (D : Z -> virtq_desc) (i : Z) : Z := d_next (D i).
Definition chn (D : Z -> virtq_desc) (i : Z) : list Z := [i; nxt D i; nxt D (nxt D i)].

(** The chain of a request is formatted as the device expects it. *)
Record chain_ok (D : Z -> virtq_desc) (F : Z -> bool) (O : Z -> virtio_blk_req) (I : Z -> vinfo) (B : gmap Z buf)
    (b : Z) (w : bool) (i : Z) : Prop := {
  ck_range : Forall (fun x => 0 <= x < NUM) (chn D i);
  ck_nodup : NoDup (chn D i);
  ck_taken : Forall (fun x => F x = false) (chn D i);
  ck_d0 : D i = Desc (Aops i) 16 VRING_DESC_F_NEXT (nxt D i);
  ck_d1 : D (nxt D i) = Desc (Adata b) BSIZE (Z.lor (if w then 0 else VRING_DESC_F_WRITE) VRING_DESC_F_NEXT) (nxt D (nxt D i));
  ck_d2 : D (nxt D (nxt D i)) = Desc (Astatus i) 1 VRING_DESC_F_WRITE 0;
  ck_op : exists p, B !! b = Some p /\ 0 <= b_blockno p < 2 ^ 31 /\
    O i = Blk_req (if w then VIRTIO_BLK_T_OUT else VIRTIO_BLK_T_IN) 0 (b_blockno p * 2);
  ck_info : in_b (I i) = Some b
}.

(** [fl]: the request each process waits for.  Their chains are disjoint, and
    the descriptors of no chain are free. *)
Record chains (fl : Z -> option (Z * bool * Z)) (D : Z -> virtq_desc) (F : Z -> bool) (O : Z -> virtio_blk_req)
    (I : Z -> vinfo) (B : gmap Z buf) : Prop := {
  cs_ok : forall t b w i, fl t = Some (b, w, i) -> chain_ok D F O I B b w i;
  cs_disj : forall t t' b w i b' w' i' x, fl t = Some (b, w, i) -> fl t' = Some (b', w', i') ->
    x ∈ chn D i -> x ∈ chn D i' -> t = t';
  cs_all : forall x, 0 <= x < NUM -> F x = false -> exists t b w i, fl t = Some (b, w, i) /\ x ∈ chn D i
}.

Lemma chn_ext D D' i : (forall x, x ∈ chn D i -> D' x = D x) -> chn D' i = chn D i.
Proof.
  intros H. unfold chn, nxt in *. rewrite (H i) by set_solver. rewrite (H (d_next (D i))) by set_solver. done.
Qed.

Lemma chain_ok_ext D F O I B D' F' O' I' B' b w i : chain_ok D F O I B b w i ->
  (forall x, x ∈ chn D i -> D' x = D x /\ F' x = false) -> O' i = O i -> in_b (I' i) = in_b (I i) ->
  (forall p, B !! b = Some p -> exists p', B' !! b = Some p' /\ b_blockno p' = b_blockno p) ->
  chain_ok D' F' O' I' B' b w i.
Proof.
  intros [H1 H2 H3 H4 H5 H6 (p & Hp & Hr & Hop) H8] HD HO HI HB.
  pose proof (chn_ext D D' i (fun x Hx => proj1 (HD x Hx))) as Hc.
  assert (Hn1 : nxt D' i = nxt D i) by (unfold chn in Hc; congruence).
  assert (Hn2 : nxt D' (nxt D i) = nxt D (nxt D i)) by (unfold chn in Hc; congruence).
  split; rewrite ?Hc, ?Hn1, ?Hn2; try done.
  - apply Forall_forall. intros x Hx. by apply HD.
  - rewrite (proj1 (HD i ltac:(set_solver))). done.
  - rewrite (proj1 (HD (nxt D i) ltac:(set_solver))). done.
  - rewrite (proj1 (HD (nxt D (nxt D i)) ltac:(set_solver))). done.
  - destruct (HB p Hp) as (p' & Hp' & E). exists p'. rewrite E, HO. done.
  - congruence.
Qed.

Lemma chain_taken D F O I B b w i x : chain_ok D F O I B b w i -> x ∈ chn D i -> F x = false.
Proof. intros [_ _ H _ _ _ _ _] Hx. rewrite Forall_forall in H. by apply H. Qed.
Lemma chain_range D F O I B b w i x : chain_ok D F O I B b w i -> x ∈ chn D i -> 0 <= x < NUM.
Proof. intros [H _ _ _ _ _ _ _] Hx. rewrite Forall_forall in H. by apply H. Qed.
Lemma chain_head D i : i ∈ chn D i.
Proof. unfold chn. set_solver. Qed.

(** Steps that leave the requests and the descriptors in use alone. *)
Lemma chains_ext fl D F O I B fl' D' F' I' B' : chains fl D F O I B ->
  (forall t, fl' t = fl t) -> (forall x, F' x = F x) -> (forall x, F x = false -> D' x = D x) ->
  (forall i, in_b (I' i) = in_b (I i)) ->
  (forall t b w i p, fl t = Some (b, w, i) -> B !! b = Some p -> exists p', B' !! b = Some p' /\ b_blockno p' = b_blockno p) ->
  chains fl' D' F' O I' B'.
Proof.
  intros [H1 H2 H3] Hfl HF HD HI HB.
  assert (Hc : forall t b w i, fl t = Some (b, w, i) -> chn D' i = chn D i).
  { intros t b w i Ht. apply chn_ext. intros x Hx. apply HD. by eapply chain_taken; [eapply H1|]. }
  split.
  - intros t b w i Ht. rewrite Hfl in Ht. eapply chain_ok_ext; [by eapply H1|..]; try done; [|intros p Hp; by eapply HB].
    intros x Hx. pose proof (chain_taken _ _ _ _ _ _ _ _ _ (H1 _ _ _ _ Ht) Hx) as E. split; [by apply HD|by rewrite HF].
  - intros t t' b w i b' w' i' x Ht Ht'. rewrite Hfl in Ht, Ht'. rewrite (Hc _ _ _ _ Ht), (Hc _ _ _ _ Ht'). by eapply H2.
  - intros x Hx Hf. rewrite HF in Hf. destruct (H3 x Hx Hf) as (t & b & w & i & Ht & Hin). exists t, b, w, i.
    rewrite Hfl, (Hc _ _ _ _ Ht). done.
Qed.

(** A new request of [t]. *)
Lemma chains_add t b w i0 i1 i2 p fl D F O I B fl' D' F' O' I' : chains fl D F O I B -> fl t = None ->
  NoDup [i0; i1; i2] -> Forall (fun x => 0 <= x < NUM /\ F x = true) [i0; i1; i2] ->
  fl' t = Some (b, w, i0) -> (forall t', t' <> t -> fl' t' = fl t') ->
  (forall x, x ∈ [i0; i1; i2] -> F' x = false) -> (forall x, x ∉ [i0; i1; i2] -> F' x = F x /\ D' x = D x) ->
  D' i0 = Desc (Aops i0) 16 VRING_DESC_F_NEXT i1 ->
  D' i1 = Desc (Adata b) BSIZE (Z.lor (if w then 0 else VRING_DESC_F_WRITE) VRING_DESC_F_NEXT) i2 ->
  D' i2 = Desc (Astatus i0) 1 VRING_DESC_F_WRITE 0 ->
  B !! b = Some p -> 0 <= b_blockno p < 2 ^ 31 ->
  O' i0 = Blk_req (if w then VIRTIO_BLK_T_OUT else VIRTIO_BLK_T_IN) 0 (b_blockno p * 2) -> in_b (I' i0) = Some b ->
  (forall x, x <> i0 -> O' x = O x /\ I' x = I x) ->
  chains fl' D' F' O' I' B.
Proof.
  intros [H1 H2 H3] Ht Hnd Hfr Hfl Hfl' HF HFD E0 E1 E2 Hp Hr HO HI HOI. rewrite Forall_forall in Hfr.
  assert (Hc0 : chn D' i0 = [i0; i1; i2]) by (unfold chn, nxt; rewrite E0; simpl; rewrite E1; done).
  assert (Hold : forall t' b' w' i', fl t' = Some (b', w', i') -> forall x, x ∈ chn D i' -> x ∉ [i0; i1; i2]).
  { intros t' b' w' i' Hf x Hx Hin. pose proof (chain_taken _ _ _ _ _ _ _ _ _ (H1 _ _ _ _ Hf) Hx).
    destruct (Hfr x Hin). congruence. }
  assert (Hc : forall t' b' w' i', fl t' = Some (b', w', i') -> chn D' i' = chn D i').
  { intros t' b' w' i' Hf. apply chn_ext. intros x Hx. apply HFD. by eapply Hold. }
  assert (Hcase : forall t' b' w' i', fl' t' = Some (b', w', i') ->
    t' = t /\ (b', w', i') = (b, w, i0) \/ t' <> t /\ fl t' = Some (b', w', i')).
  { intros t' b' w' i' Hf. destruct (decide (t' = t)) as [->|Hne]; [left; rewrite Hfl in Hf; naive_solver|].
    right. by rewrite Hfl' in Hf. }
  split.
  - intros t' b' w' i' Hf. destruct (Hcase _ _ _ _ Hf) as [[-> [= -> -> ->]]|[Hne Hf']].
    + split; rewrite ?Hc0; try done.
      * apply Forall_forall. intros x Hx. by apply Hfr.
      * apply Forall_forall. by apply HF.
      * unfold nxt. by rewrite E0.
      * unfold nxt. rewrite E0. simpl. by rewrite E1.
      * unfold nxt. rewrite E0. simpl. by rewrite E1.
      * eauto.
    + assert (Hi : i' <> i0). { intros ->. apply (Hold _ _ _ _ Hf' i0 (chain_head _ _)). set_solver. }
      destruct (HOI i' Hi) as [EO EI]. eapply chain_ok_ext; [by eapply H1|..]; try done; [|by rewrite EI|eauto].
      intros x Hx. pose proof (Hold _ _ _ _ Hf' x Hx) as Hn. destruct (HFD x Hn) as [-> ->]. split; [done|].
      by eapply chain_taken; [eapply H1|].
  - intros t1 t2 b1 w1 j1 b2 w2 j2 x Hf1 Hf2 Hx1 Hx2.
    destruct (Hcase _ _ _ _ Hf1) as [[-> [= -> -> ->]]|[Hn1 G1]], (Hcase _ _ _ _ Hf2) as [[-> [= -> -> ->]]|[Hn2 G2]]; try done.
    + rewrite Hc0 in Hx1. rewrite (Hc _ _ _ _ G2) in Hx2. by destruct (Hold _ _ _ _ G2 x Hx2).
    + rewrite Hc0 in Hx2. rewrite (Hc _ _ _ _ G1) in Hx1. by destruct (Hold _ _ _ _ G1 x Hx1).
    + rewrite (Hc _ _ _ _ G1) in Hx1. rewrite (Hc _ _ _ _ G2) in Hx2. by eapply H2.
  - intros x Hx Hf. destruct (decide (x ∈ [i0; i1; i2])) as [Hin|Hn].
    + exists t, b, w, i0. by rewrite Hc0.
    + rewrite (proj1 (HFD x Hn)) in Hf. destruct (H3 x Hx Hf) as (t' & b' & w' & i' & Hf' & Hx').
      exists t', b', w', i'. rewrite (Hc _ _ _ _ Hf'), Hfl'; [done|congruence].
Qed.

(** The request of [t] is over. *)
Lemma chains_del t b w i fl D F O I B fl' D' F' I' : chains fl D F O I B -> fl t = Some (b, w, i) ->
  fl' t = None -> (forall t', t' <> t -> fl' t' = fl t') ->
  (forall x, x ∈ chn D i -> F' x = true) -> (forall x, x ∉ chn D i -> F' x = F x /\ D' x = D x) ->
  (forall x, x <> i -> I' x = I x) -> chains fl' D' F' O I' B.
Proof.
  intros [H1 H2 H3] Ht Hfl Hfl' HF HFD HI.
  assert (Hold : forall t' b' w' i', fl' t' = Some (b', w', i') ->
    fl t' = Some (b', w', i') /\ forall x, x ∈ chn D i' -> x ∉ chn D i).
  { intros t' b' w' i' Hf. assert (Hne : t' <> t) by congruence. rewrite Hfl' in Hf by done. split; [done|].
    intros x Hx Hx'. apply Hne. by eapply H2. }
  assert (Hc : forall t' b' w' i', fl' t' = Some (b', w', i') -> chn D' i' = chn D i').
  { intros t' b' w' i' Hf. destruct (Hold _ _ _ _ Hf) as [_ Hd]. apply chn_ext. intros x Hx. by apply HFD, Hd. }
  split.
  - intros t' b' w' i' Hf. destruct (Hold _ _ _ _ Hf) as [Hf' Hd].
    assert (Hi : i' <> i). { intros ->. apply (Hd i (chain_head _ _)), chain_head. }
    eapply chain_ok_ext; [by eapply H1|..]; try done; [|by rewrite HI|eauto].
    intros x Hx. destruct (HFD x (Hd x Hx)) as [-> ->]. split; [done|]. by eapply chain_taken; [eapply H1|].
  - intros t1 t2 b1 w1 j1 b2 w2 j2 x Hf1 Hf2. rewrite (Hc _ _ _ _ Hf1), (Hc _ _ _ _ Hf2).
    destruct (Hold _ _ _ _ Hf1), (Hold _ _ _ _ Hf2). by eapply H2.
  - intros x Hx Hf. destruct (decide (x ∈ chn D i)) as [Hin|Hn]; [by rewrite HF in Hf|].
    rewrite (proj1 (HFD x Hn)) in Hf. destruct (H3 x Hx Hf) as (t' & b' & w' & i' & Hf' & Hx').
    assert (t' <> t). { intros ->. rewrite Ht in Hf'. naive_solver. }
    exists t', b', w', i'. split; [by rewrite Hfl'|]. rewrite (Hc t' b' w'); [done|by rewrite Hfl'].
Qed.

(** ** Requests in the rings *)

(** [U] the heads not served yet, [V] those served but not seen. *)
Record reqs (fl : Z -> option (Z * bool * Z)) (U V : list Z) (busy : Z -> bool) (I : Z -> vinfo) : Prop := {
  rq_nodup : NoDup (U ++ V);
  rq_heads : forall h, h ∈ U ++ V -> exists t b w, fl t = Some (b, w, h) /\ busy b = true;
  rq_busy : forall t b w i, fl t = Some (b, w, i) -> busy b = true -> i ∈ U ++ V;
  rq_status : forall h, h ∈ V -> in_status (I h) = 0
}.

Definition nfree (F : Z -> bool) : nat := length (List.filter F (upto NUM)).

Record vinv (s : vst) : Prop := {
  vi_uses : forall t t' b w w', uses (vs_thr s t) = Some (b, w) -> uses (vs_thr s t') = Some (b, w') -> t = t';
  vi_bufs : forall t b w, uses (vs_thr s t) = Some (b, w) ->
    exists p, bufs (vs_bst s) !! b = Some p /\ 0 <= b_blockno p < 2 ^ 31;
  vi_chains : chains (fun t => inflight (vs_thr s t)) (vs_desc s) (vs_free s) (vs_ops s) (vs_info s) (bufs (vs_bst s));
  vi_avail : ring_ok (2 ^ 16) NUM (vs_avail_ring s) (vs_dev_idx s) (vs_avail_idx s);
  vi_used : ring_ok (2 ^ 16) NUM (vs_used_ring s) (vs_used_idx s) (vs_used_ring_idx s);
  vi_reqs : reqs (fun t => inflight (vs_thr s t)) (unserved s) (used_q s) (vs_busy s) (vs_info s);
  vi_wait : forall t b w i, vs_thr s t = TWait b w i -> vs_busy s b = true;
  vi_nofree : forall t b w, vs_thr s t = TWaitFree b w -> (nfree (vs_free s) < 3)%nat;
  vi_isr : used_q s <> [] -> Z.testbit (vs_isr s) 0 = true \/ vs_lock s = true
}.

Lemma inflight_uses st b w i : inflight st = Some (b, w, i) -> uses st = Some (b, w).
Proof. destruct st; naive_solver. Qed.
Lemma inflight_wake c st : inflight (wake_t c st) = inflight st.
Proof. destruct c, st; simpl; try done. by case_decide. Qed.
Lemma uses_wake c st : uses (wake_t c st) = uses st.
Proof. destruct c, st; simpl; try done. by case_decide. Qed.

Lemma vq_ring : 1 < NUM /\ NUM < 2 ^ 16 /\ (NUM | 2 ^ 16).
Proof. split; [done|]. split; [done|]. by exists (2 ^ 13). Qed.

Lemma reqs_heads_range fl D F O I B U V busy h :
  chains fl D F O I B -> reqs fl U V busy I -> h ∈ U ++ V -> 0 <= h < NUM.
Proof.
  intros Hc Hr Hh. destruct (rq_heads _ _ _ _ _ Hr h Hh) as (t & b & w & Ht & _).
  eapply chain_range; [by eapply Hc|apply chain_head].
Qed.

(** At most [NUM] requests: a queue that lacks one number has room. *)
Lemma nodup_room (l : list Z) i : NoDup l -> (forall x, x ∈ l -> 0 <= x < NUM) -> 0 <= i < NUM -> i ∉ l ->
  Z.of_nat (length l) < NUM.
Proof.
  intros Hnd Hr Hi Hn. assert (Hsub : i :: l ⊆+ upto NUM).
  { apply NoDup_submseteq; [by constructor|]. intros x Hx. apply elem_upto. set_solver. }
  apply submseteq_length in Hsub. rewrite length_upto in Hsub. simpl in Hsub. unfold NUM in *. lia.
Qed.

(** ** The driver's functions *)

Lemma in_num_true i : 0 <= i < NUM -> in_num i = true.
Proof. intros H. unfold in_num. by rewrite (proj2 (Z.leb_le 0 i)), (proj2 (Z.ltb_lt i NUM)) by lia. Qed.
Lemma at_num_ok {A} i (f : vst -> A) s : 0 <= i < NUM -> at_num i f s = Done (f s) s.
Proof. intros H. unfold at_num. by rewrite in_num_true. Qed.
Lemma upd_num_ok i f s : 0 <= i < NUM -> upd_num i f s = Done tt (f s).
Proof. intros H. unfold upd_num. by rewrite in_num_true. Qed.

Lemma alloc_loop_spec ids s : Forall (fun x => 0 <= x < NUM) ids ->
  (exists i, i ∈ ids /\ vs_free s i = true /\ alloc_desc_loop ids s = Done i (set_vs_free (<[i := false]> (vs_free s)) s)) \/
  (Forall (fun x => vs_free s x = false) ids /\ alloc_desc_loop ids s = Done (-1) s).
Proof.
  intros Hr. induction Hr as [|i ids Hi Hr IH]; [by right|]. cbn [alloc_desc_loop].
  rewrite (bind_Done _ _ _ _ _ (at_num_ok i _ s Hi)). destruct (vs_free s i) eqn:E.
  - left. exists i. split; [set_solver|]. split; [done|]. unfold set_free.
    by rewrite (bind_Done _ _ _ _ _ (upd_num_ok i _ s Hi)).
  - destruct IH as [(j & Hj & Hf & Hrun)|[Hall Hrun]]; [left|right].
    + exists j. split; [set_solver|]. done.
    + split; [by constructor|done].
Qed.

Definition nfree_in (F : Z -> bool) (l : list Z) : nat := length (List.filter F l).
Lemma nfree_in_ext F F' l : (forall x, x ∈ l -> F' x = F x) -> nfree_in F' l = nfree_in F l.
Proof.
  unfold nfree_in. induction l as [|x l IH]; intros H; [done|]. simpl. rewrite (H x) by set_solver.
  destruct (F x); simpl; rewrite IH by set_solver; done.
Qed.
Lemma nfree_in_take F l i : NoDup l -> i ∈ l -> F i = true -> nfree_in F l = S (nfree_in (<[i := false]> F) l).
Proof.
  induction l as [|x l IH]; intros Hnd Hi Hf; [set_solver|]. apply NoDup_cons in Hnd as [Hx Hnd].
  unfold nfree_in in *. simpl. destruct (decide (x = i)) as [->|Hne].
  - rewrite fn_lookup_insert, Hf. simpl. f_equal. symmetry. apply nfree_in_ext. intros y Hy.
    rewrite fn_lookup_insert_ne; [done|]. intros ->. done.
  - rewrite fn_lookup_insert_ne by done. destruct (F x); simpl; rewrite IH by set_solver; done.
Qed.
Lemma nfree_in_none F l : Forall (fun x => F x = false) l -> nfree_in F l = 0%nat.
Proof.
  unfold nfree_in. induction 1 as [|x l Hx _ IH]; [done|]. simpl. by rewrite Hx.
Qed.
Lemma nfree_ext F F' : (forall x, F' x = F x) -> nfree F' = nfree F.
Proof. intros H. apply nfree_in_ext. auto. Qed.
Lemma nfree_take F i : 0 <= i < NUM -> F i = true -> nfree F = S (nfree (<[i := false]> F)).
Proof. intros Hi Hf. apply nfree_in_take; [apply NoDup_upto|by apply elem_upto|done]. Qed.

Lemma alloc_desc_spec s :
  (exists i, 0 <= i < NUM /\ vs_free s i = true /\ alloc_desc s = Done i (set_vs_free (<[i := false]> (vs_free s)) s)) \/
  (nfree (vs_free s) = 0%nat /\ alloc_desc s = Done (-1) s).
Proof.
  destruct (alloc_loop_spec (upto NUM) s) as [(i & Hi & Hf & Hrun)|[Hall Hrun]].
  - apply Forall_forall. intros x. apply elem_upto.
  - left. exists i. apply elem_upto in Hi. done.
  - right. split; [by apply nfree_in_none|done].
Qed.

Definition desc0 : virtq_desc := Desc Anull 0 0 0.
(** The state after freeing the descriptors [l] *)
Definition freed (l : list Z) (s : vst) : vst :=
  foldl (fun s i => set_vs_thr (fun t => wake_t CFree (vs_thr s t))
    (set_vs_free (<[i := true]> (vs_free s)) (set_vs_desc (<[i := desc0]> (vs_desc s)) s))) s l.

Lemma free_desc_spec i s : 0 <= i < NUM -> vs_free s i = false -> free_desc i s = Done tt (freed [i] s).
Proof.
  intros Hi Hf. unfold free_desc. rewrite (proj2 (Z.leb_gt NUM i)) by lia.
  rewrite (bind_Done (panic_if false _) _ s tt s eq_refl), (bind_Done _ _ _ _ _ (at_num_ok i _ s Hi)), Hf.
  rewrite (bind_Done (panic_if false _) _ s tt s eq_refl). unfold set_desc, set_free.
  rewrite (bind_Done _ _ _ _ _ (upd_num_ok i _ s Hi)), (bind_Done _ _ _ _ _ (upd_num_ok i _ _ Hi)). done.
Qed.

(** What freeing changes. *)
Record freed_spec (l : list Z) (s s' : vst) : Prop := {
  fs_eq : exists D F T, s' = set_vs_thr T (set_vs_free F (set_vs_desc D s));
  fs_in : forall x, x ∈ l -> vs_free s' x = true;
  fs_out : forall x, x ∉ l -> vs_free s' x = vs_free s x /\ vs_desc s' x = vs_desc s x;
  fs_thr : forall t, vs_thr s' t = match l with [] => vs_thr s t | _ => wake_t CFree (vs_thr s t) end
}.
Lemma wake_twice c st : wake_t c (wake_t c st) = wake_t c st.
Proof. destruct c, st; simpl; try done. case_decide; simpl; [done|by rewrite decide_False]. Qed.
Lemma freed_ok l s : freed_spec l s (freed l s).
Proof.
  revert s. induction l as [|i l IH]; intros s.
  { split; [by exists (vs_desc s), (vs_free s), (vs_thr s); destruct s|set_solver|done|done]. }
  change (freed (i :: l) s) with (freed l (freed [i] s)). specialize (IH (freed [i] s)).
  destruct IH as [(D & F & T & E) Hin Hout Hthr]. split.
  - exists D, F, T. rewrite E. done.
  - intros x Hx. destruct (decide (x ∈ l)) as [Hl|Hl]; [by apply Hin|].
    rewrite (proj1 (Hout x Hl)). assert (x = i) as -> by set_solver. simpl. by rewrite fn_lookup_insert.
  - intros x Hx. apply not_elem_of_cons in Hx as [Hne Hl]. destruct (Hout x Hl) as [-> ->]. simpl.
    by rewrite !fn_lookup_insert_ne.
  - intros t. rewrite Hthr. destruct l; [done|]. exact (wake_twice CFree _).
Qed.

Lemma free_all_spec l s : NoDup l -> Forall (fun x => 0 <= x < NUM /\ vs_free s x = false) l ->
  for_each l free_desc s = Done tt (freed l s).
Proof.
  revert s. induction l as [|i l IH]; intros s Hnd Hall; [done|]. apply NoDup_cons in Hnd as [Hi Hnd].
  apply Forall_cons in Hall as [[Hr Hf] Hall]. cbn [for_each].
  rewrite (bind_Done _ _ _ _ _ (free_desc_spec i s Hr Hf)). apply IH; [done|].
  apply Forall_forall. intros x Hx. rewrite Forall_forall in Hall. destruct (Hall x Hx). split; [done|]. simpl.
  rewrite fn_lookup_insert_ne; [done|]. intros ->. done.
Qed.

(** Taking the descriptors [l]. *)
Definition taken (l : list Z) (s : vst) : vst :=
  foldl (fun s i => set_vs_free (<[i := false]> (vs_free s)) s) s l.
Lemma taken_free l s x : vs_free (taken l s) x = if decide (x ∈ l) then false else vs_free s x.
Proof.
  revert s. induction l as [|i l IH]; intros s; [done|].
  change (taken (i :: l) s) with (taken l (taken [i] s)). rewrite IH. simpl.
  destruct (decide (x = i)) as [->|Hne].
  - rewrite fn_lookup_insert, (decide_True (P := i ∈ i :: l)) by set_solver. by case_decide.
  - rewrite fn_lookup_insert_ne by done. by repeat case_decide; set_solver.
Qed.
Lemma taken_eq l s : exists F, taken l s = set_vs_free F s.
Proof.
  revert s. induction l as [|i l IH]; intros s; [exists (vs_free s); by destruct s|].
  destruct (IH (taken [i] s)) as [F E]. exists F. change (taken (i :: l) s) with (taken l (taken [i] s)). by rewrite E.
Qed.

Lemma alloc3_loop_spec n idx s : NoDup idx -> Forall (fun x => 0 <= x < NUM /\ vs_free s x = true) idx ->
  (exists l, alloc3_desc_loop n idx (taken idx s) = Done (Some (idx ++ l)) (taken (idx ++ l) s) /\
    length l = n /\ NoDup (idx ++ l) /\ Forall (fun x => 0 <= x < NUM /\ vs_free s x = true) (idx ++ l)) \/
  (exists l, alloc3_desc_loop n idx (taken idx s) = Done None (freed l (taken l s)) /\
    (nfree (vs_free (taken idx s)) < n)%nat /\ NoDup l /\ Forall (fun x => 0 <= x < NUM /\ vs_free s x = true) l).
Proof.
  revert idx. induction n as [|n IH]; intros idx Hnd Hall.
  { left. exists []. rewrite app_nil_r. done. }
  cbn [alloc3_desc_loop]. destruct (alloc_desc_spec (taken idx s)) as [(i & Hi & Hf & Hrun)|[Hn Hrun]];
    rewrite (bind_Done _ _ _ _ _ Hrun).
  - rewrite (proj2 (Z.ltb_ge i 0)) by lia.
    assert (Hs : set_vs_free (<[i := false]> (vs_free (taken idx s))) (taken idx s) = taken (idx ++ [i]) s)
      by (unfold taken; by rewrite foldl_app).
    assert (Hni : i ∉ idx /\ vs_free s i = true) by (rewrite taken_free in Hf; by case_decide).
    destruct (IH (idx ++ [i])) as [(l & Hl & Hlen & Hnd' & Hall')|(l & Hl & Hlt & Hnd' & Hall')].
    + apply NoDup_app. split; [done|]. split; [set_solver|]. apply NoDup_singleton.
    + apply Forall_app. split; [done|]. constructor; [|done]. split; [lia|apply Hni].
    + left. exists (i :: l). rewrite Hs, Hl, <- app_assoc. simpl. rewrite <- app_assoc in *. simpl in *. auto.
    + right. exists l. rewrite Hs, Hl. conjs; try done. rewrite (nfree_take _ i Hi Hf).
      rewrite <- (f_equal vs_free Hs) in Hlt. simpl in Hlt. lia.
  - right. exists idx. change (-1 <? 0) with true. cbv iota. conjs; try done; [|lia].
    rewrite (bind_Done _ _ _ _ _ (free_all_spec idx (taken idx s) Hnd
      ltac:(apply Forall_forall; intros x Hx; rewrite Forall_forall in Hall; rewrite taken_free, decide_True by done; split; [by apply Hall|done]))).
    done.
Qed.

Lemma alloc3_spec s :
  (exists i0 i1 i2, alloc3_desc s = Done (Some [i0; i1; i2]) (taken [i0; i1; i2] s) /\
    NoDup [i0; i1; i2] /\ Forall (fun x => 0 <= x < NUM /\ vs_free s x = true) [i0; i1; i2]) \/
  (exists l, alloc3_desc s = Done None (freed l (taken l s)) /\ (nfree (vs_free s) < 3)%nat /\
    Forall (fun x => vs_free s x = true) l).
Proof.
  destruct (alloc3_loop_spec 3 [] s (NoDup_nil_2) (Forall_nil_2 _)) as [(l & Hl & Hlen & Hnd & Hall)|(l & Hl & Hlt & Hnd & Hall)].
  - left. destruct l as [|i0 [|i1 [|i2 [|]]]]; simpl in Hlen; try lia. by exists i0, i1, i2.
  - right. exists l. conjs; try done. eapply Forall_impl; [exact Hall|]. naive_solver.
Qed.

Lemma free_chain_spec O I B b w i s : chain_ok (vs_desc s) (vs_free s) O I B b w i ->
  free_chain i s = Done tt (freed (chn (vs_desc s) i) s).
Proof.
  intros [H1 H2 H3 H4 H5 H6 _ _]. unfold free_chain. set (D := vs_desc s) in *.
  change (chn D i) with [i; nxt D i; nxt D (nxt D i)] in *. set (i1 := nxt D i) in *. set (i2 := nxt D i1) in *.
  rewrite !Forall_cons in H1, H3. destruct H1 as (R0 & R1 & R2 & _), H3 as (F0 & F1 & F2 & _).
  rewrite !NoDup_cons, !not_elem_of_cons in H2. destruct H2 as ((N01 & N02 & _) & (N12 & _) & _).
  assert (Hstep : forall fuel j s d, 0 <= j < NUM -> vs_free s j = false -> vs_desc s j = d ->
    free_chain_loop (S fuel) j s =
    (if Z.land (d_flags d) VRING_DESC_F_NEXT =? 0 then Done tt (freed [j] s) else free_chain_loop fuel (d_next d) (freed [j] s))).
  { intros fuel j s0 d Hr Hf Hd. cbn [free_chain_loop]. rewrite (bind_Done _ _ _ _ _ (at_num_ok j _ s0 Hr)), Hd.
    rewrite (bind_Done _ _ _ _ _ (free_desc_spec j s0 Hr Hf)). by destruct (_ =? 0). }
  change (Z.to_nat NUM + 1)%nat with 9%nat.
  rewrite (Hstep 8%nat i s _ R0 F0 H4). cbn [d_next d_flags]. cbv beta iota delta [VRING_DESC_F_NEXT Z.land Z.eqb Pos.land].
  change (free_chain_loop 8 i1 (freed [i] s) = Done tt (freed [i; i1; i2] s)).
  rewrite (Hstep 7%nat i1 (freed [i] s) (D i1) R1); cycle 1.
  { simpl. by rewrite fn_lookup_insert_ne. }
  { simpl. by rewrite fn_lookup_insert_ne. }
  rewrite H5. cbn [d_flags d_next].
  assert ((Z.land (Z.lor (if w then 0 else VRING_DESC_F_WRITE) VRING_DESC_F_NEXT) VRING_DESC_F_NEXT =? 0) = false) as ->
    by (by destruct w).
  rewrite (Hstep 6%nat i2 (freed [i1] (freed [i] s)) (D i2) R2); cycle 1.
  { simpl. by rewrite !fn_lookup_insert_ne. }
  { simpl. by rewrite !fn_lookup_insert_ne. }
  by rewrite H6.
Qed.

(** ** Steps *)

Lemma vabs_alt s st : vabs_t s st =
  match inflight st with
  | Some (b, w, i) => if decide (i ∈ unserved s) then ACalled b w else ADone b w
  | None => match uses st with Some (b, w) => ACalled b w | None => AIdle end
  end.
Proof. by destruct st. Qed.

(** A step that leaves the requests alone. *)
Lemma vinv_quiet s s' : vinv s ->
  (forall t, inflight (vs_thr s' t) = inflight (vs_thr s t) /\ uses (vs_thr s' t) = uses (vs_thr s t)) ->
  (forall x, vs_free s' x = vs_free s x) -> (forall x, vs_free s x = false -> vs_desc s' x = vs_desc s x) ->
  (vs_ops s' = vs_ops s /\ vs_info s' = vs_info s /\ vs_bst s' = vs_bst s /\ vs_busy s' = vs_busy s) ->
  (vs_avail_ring s' = vs_avail_ring s /\ vs_avail_idx s' = vs_avail_idx s /\ vs_dev_idx s' = vs_dev_idx s /\
   vs_dev_pend s' = vs_dev_pend s) ->
  (vs_used_ring s' = vs_used_ring s /\ vs_used_ring_idx s' = vs_used_ring_idx s /\ vs_used_idx s' = vs_used_idx s) ->
  (forall t b w i, vs_thr s' t = TWait b w i -> vs_busy s b = true) ->
  (forall t b w, vs_thr s' t = TWaitFree b w -> (nfree (vs_free s) < 3)%nat) ->
  (used_q s <> [] -> Z.testbit (vs_isr s') 0 = true \/ vs_lock s' = true) ->
  vinv s' /\ astep (vabs s) (vabs s').
Proof.
  intros Hv Ht HF HD (E1 & E2 & E3 & E4) (A1 & A2 & A3 & A4) (U1 & U2 & U3) Hw Hn Hi. destruct Hv.
  assert (Eu : unserved s' = unserved s) by (unfold unserved, avail_q; congruence).
  assert (Ev : used_q s' = used_q s) by (unfold used_q; congruence).
  split; [split|].
  - intros t t' b w w'. rewrite !(fun t => proj2 (Ht t)). apply vi_uses0.
  - intros t b w. rewrite (proj2 (Ht t)), E3. apply vi_bufs0.
  - rewrite E1, E2, E3. eapply chains_ext; [exact vi_chains0|..]; eauto. intros t. apply Ht.
  - by rewrite A1, A2, A3.
  - by rewrite U1, U2, U3.
  - rewrite Eu, Ev, E2, E4. destruct vi_reqs0. split; try done.
    + intros h Hh. destruct (rq_heads0 h Hh) as (t & b & w & Hf & Hb). exists t, b, w. by rewrite (proj1 (Ht t)).
    + intros t b w i. rewrite (proj1 (Ht t)). apply rq_busy0.
  - intros t b w i. rewrite E4. apply Hw.
  - intros t b w Hf. rewrite (nfree_ext (vs_free s)) by done. by eapply Hn.
  - by rewrite Ev.
  - unfold vabs. rewrite E3. apply as_other; [|done|done]. intros t.
    by rewrite !vabs_alt, Eu, (proj1 (Ht t)), (proj2 (Ht t)).
Qed.

Lemma wait_wake_free st b w i : wake_t CFree st = TWait b w i -> st = TWait b w i.
Proof. by destruct st. Qed.

Lemma step_call s t b w p : vinv s -> vs_thr s t = TIdle -> (forall t' w', uses (vs_thr s t') <> Some (b, w')) ->
  bufs (vs_bst s) !! b = Some p -> 0 <= b_blockno p < 2 ^ 31 ->
  vinv (set_vs_thr (<[t := TEntry b w]> (vs_thr s)) s) /\
  astep (vabs s) (vabs (set_vs_thr (<[t := TEntry b w]> (vs_thr s)) s)).
Proof.
  intros Hv Ht Hb Hp Hr. set (s' := set_vs_thr _ s).
  assert (Hthr : forall t', vs_thr s' t' = if decide (t' = t) then TEntry b w else vs_thr s t').
  { intros t'. simpl. case_decide; [subst; apply fn_lookup_insert|by apply fn_lookup_insert_ne]. }
  assert (Hfl : forall t', inflight (vs_thr s' t') = inflight (vs_thr s t')).
  { intros t'. rewrite Hthr. case_decide; [subst; by rewrite Ht|done]. }
  split; [|].
  - destruct Hv. split; try done.
    + intros t1 t2 b1 w1 w2. rewrite !Hthr. repeat case_decide; subst; try done; [| |apply vi_uses0].
      * intros [= <- <-] Hu. by destruct (Hb t2 w2).
      * intros Hu [= <- <-]. by destruct (Hb t1 w1).
    + intros t1 b1 w1. rewrite Hthr. case_decide; [|apply vi_bufs0]. intros [= <- <-]. eauto.
    + eapply chains_ext; [exact vi_chains0|..]; eauto.
    + destruct vi_reqs0. split; try done.
      * intros h Hh. destruct (rq_heads0 h Hh) as (t1 & b1 & w1 & Hf & Hb1). exists t1, b1, w1. by rewrite Hfl.
      * intros t1 b1 w1 i. rewrite Hfl. apply rq_busy0.
    + intros t1 b1 w1 i. rewrite Hthr. case_decide; [done|]. apply vi_wait0.
    + intros t1 b1 w1. rewrite Hthr. case_decide; [done|]. apply vi_nofree0.
  - apply (as_call _ _ _ t b w).
    + simpl. by rewrite Ht.
    + rewrite Hthr. by rewrite decide_True.
    + intros t' Hne. rewrite Hthr. by rewrite decide_False.
Qed.

(** No three descriptors are free. *)
Lemma step_full s t b w l : vinv s -> vs_thr s t = TEntry b w -> vs_lock s = false ->
  (nfree (vs_free s) < 3)%nat -> Forall (fun x => vs_free s x = true) l ->
  forall s2, s2 = freed l (taken l (set_vs_lock true s)) ->
  exists s', vsleep t (TWaitFree b w) s2 = Done tt s' /\ vinv s' /\ astep (vabs s) (vabs s').
Proof.
  intros Hv Ht Hl Hn Hall s2 ->. eexists. split; [reflexivity|].
  destruct (freed_ok l (taken l (set_vs_lock true s))) as [(D & F & T & E) Hin Hout Hthr].
  destruct (taken_eq l (set_vs_lock true s)) as [F1 E1].
  assert (HT : forall t', inflight (vs_thr s t') = inflight (T t') /\ uses (vs_thr s t') = uses (T t') /\
    (forall b w i, T t' = TWait b w i -> vs_thr s t' = TWait b w i)).
  { intros t'. specialize (Hthr t'). rewrite E, E1 in Hthr.
    change (T t' = match l with [] => vs_thr s t' | _ => wake_t CFree (vs_thr s t') end) in Hthr. rewrite Hthr.
    destruct l; [done|]. rewrite inflight_wake, uses_wake. conjs; try done. intros ? ? ?. apply wait_wake_free. }
  rewrite E, E1 in Hin, Hout |- *. rewrite Forall_forall in Hall. apply vinv_quiet; simpl in *; try done.
  - intros t'. destruct (decide (t' = t)) as [->|Hne]; [rewrite fn_lookup_insert, Ht; done|].
    rewrite fn_lookup_insert_ne by done. destruct (HT t') as (-> & -> & _). done.
  - intros x. destruct (decide (x ∈ l)) as [Hx|Hx]; [rewrite Hin, Hall; done|].
    rewrite (proj1 (Hout x Hx)). assert (EF : F1 = vs_free (taken l (set_vs_lock true s))) by (by rewrite E1).
    rewrite EF, taken_free, decide_False; done.
  - intros x Hx. apply Hout. intros Hin'. rewrite Hall in Hx; done.
  - intros t' b' w' i. destruct (decide (t' = t)) as [->|Hne]; [by rewrite fn_lookup_insert|].
    rewrite fn_lookup_insert_ne by done. intros H. eapply vi_wait; [done|]. by eapply (HT t').
  - intros Hu. destruct (vi_isr s Hv Hu) as [H|H]; [by left|congruence].
Qed.

Lemma nfree_mono F F' : (forall x, F' x = true -> F x = true) -> (nfree F' <= nfree F)%nat.
Proof.
  intros H. unfold nfree. induction (upto NUM) as [|x l IH]; [done|]. simpl.
  destruct (F' x) eqn:E'; [rewrite (H x E'); simpl; lia|]. destruct (F x); simpl; lia.
Qed.

Lemma reqs_add t b w i fl U V busy I fl' U' I' : reqs fl U V busy I -> fl t = None ->
  fl' t = Some (b, w, i) -> (forall t', t' <> t -> fl' t' = fl t') ->
  (forall t' b' w' i', fl t' = Some (b', w', i') -> b' <> b) -> i ∉ U ++ V -> U' ≡ₚ i :: U ->
  (forall x, x <> i -> I' x = I x) -> reqs fl' U' V (<[b := true]> busy) I'.
Proof.
  intros [H1 H2 H3 H4] Ht Hfl Hfl' Hb Hi HU HI.
  assert (HUV : U' ++ V ≡ₚ i :: (U ++ V)) by (by rewrite HU).
  split.
  - rewrite HUV. by constructor.
  - intros h Hh. rewrite HUV in Hh. apply elem_of_cons in Hh as [->|Hh].
    + exists t, b, w. by rewrite fn_lookup_insert.
    + destruct (H2 h Hh) as (t' & b' & w' & Hf & Hbu). exists t', b', w'. rewrite Hfl' by congruence.
      rewrite fn_lookup_insert_ne; [done|]. intros <-. by eapply Hb.
  - intros t' b' w' i' Hf Hbu. rewrite HUV. destruct (decide (t' = t)) as [->|Hne].
    + rewrite Hfl in Hf. set_solver.
    + rewrite Hfl' in Hf by done. rewrite fn_lookup_insert_ne in Hbu by (intros <-; by eapply Hb). set_solver.
  - intros h Hh. rewrite HI; [by apply H4|]. intros ->. set_solver.
Qed.

Definition submitted (b : Z) (w : bool) (sector i0 i1 i2 : Z) (s : vst) : vst :=
  set_vs_avail_idx (u16 (vs_avail_idx s + 1))
  (set_vs_avail_ring (<[Z.to_nat (vs_avail_idx s mod NUM) := i0]> (vs_avail_ring s))
  (set_vs_info (<[i0 := Info (Some b) 0xff]> (<[i0 := Info (in_b (vs_info s i0)) 0xff]> (vs_info s)))
  (set_vs_busy (<[b := true]> (vs_busy s))
  (set_vs_desc (<[i2 := Desc (Astatus i0) 1 VRING_DESC_F_WRITE 0]>
    (<[i1 := Desc (Adata b) BSIZE (Z.lor (if w then 0 else VRING_DESC_F_WRITE) VRING_DESC_F_NEXT) i2]>
    (<[i0 := Desc (Aops i0) 16 VRING_DESC_F_NEXT i1]> (vs_desc s))))
  (set_vs_ops (<[i0 := Blk_req (if w then VIRTIO_BLK_T_OUT else VIRTIO_BLK_T_IN) 0 sector]> (vs_ops s)) s))))).
Lemma submit_spec b w sector i0 i1 i2 s : 0 <= i0 < NUM -> 0 <= i1 < NUM -> 0 <= i2 < NUM ->
  submit b w sector i0 i1 i2 s = Done tt (submitted b w sector i0 i1 i2 s).
Proof.
  intros H0 H1 H2. unfold submit, set_desc. rewrite !u16_small by (unfold NUM in *; lia).
  rewrite (bind_Done _ _ _ _ _ (upd_num_ok i0 _ s H0)), (bind_Done _ _ _ _ _ (upd_num_ok i0 _ _ H0)).
  rewrite (bind_Done _ _ _ _ _ (upd_num_ok i1 _ _ H1)), (bind_Done _ _ _ _ _ (upd_num_ok i0 _ _ H0)).
  rewrite (bind_Done _ _ _ _ _ (upd_num_ok i2 _ _ H2)), (bind_Done (modify _) _ _ tt _ eq_refl).
  rewrite (bind_Done _ _ _ _ _ (upd_num_ok i0 _ _ H0)), (bind_Done (modify _) _ _ tt _ eq_refl).
  unfold modify. f_equal. simpl. rewrite fn_lookup_insert. done.
Qed.

(** A free descriptor is in no ring, so the available ring has room. *)
Lemma free_not_head s i : vinv s -> vs_free s i = true -> i ∉ unserved s ++ used_q s.
Proof.
  intros Hv Hf Hh. destruct (rq_heads _ _ _ _ _ (vi_reqs s Hv) i Hh) as (t' & b' & w' & Ht & _).
  pose proof (chain_taken _ _ _ _ _ _ _ _ _ (cs_ok _ _ _ _ _ _ (vi_chains s Hv) _ _ _ _ Ht) (chain_head _ _)). congruence.
Qed.
Lemma avail_room s i : vinv s -> vs_free s i = true -> 0 <= i < NUM -> Z.of_nat (length (avail_q s)) < NUM.
Proof.
  intros Hv Hf Hr. pose proof (free_not_head s i Hv Hf) as Hi. apply (nodup_room (avail_q s) i); try done.
  - pose proof (rq_nodup _ _ _ _ _ (vi_reqs s Hv)) as H. unfold unserved in H. rewrite <- app_assoc in H.
    by apply NoDup_app in H as [H _].
  - intros x Hx. eapply (reqs_heads_range _ _ _ _ _ _ _ _ _ x (vi_chains s Hv) (vi_reqs s Hv)). unfold unserved. set_solver.
  - unfold unserved in Hi. set_solver.
Qed.

(** The state when process [t] sleeps on its buffer. *)
Definition after_submit (t b : Z) (w : bool) (bn i0 i1 i2 : Z) (s : vst) : vst :=
  set_vs_lock false (set_vs_thr (<[t := TWait b w i0]> (vs_thr s))
    (submitted b w (bn * 2) i0 i1 i2 (taken [i0; i1; i2] s))).

Lemma submit_chains s t b w p i0 i1 i2 : vinv s -> vs_thr s t = TEntry b w ->
  bufs (vs_bst s) !! b = Some p -> 0 <= b_blockno p < 2 ^ 31 ->
  NoDup [i0; i1; i2] -> Forall (fun x => 0 <= x < NUM /\ vs_free s x = true) [i0; i1; i2] ->
  let s' := after_submit t b w (b_blockno p) i0 i1 i2 s in
  chains (fun t => inflight (vs_thr s' t)) (vs_desc s') (vs_free s') (vs_ops s') (vs_info s') (bufs (vs_bst s')).
Proof.
  intros Hv Ht Hp Hr Hnd Hall s'. pose proof Hnd as Hnd'. rewrite !NoDup_cons, !not_elem_of_cons in Hnd'.
  destruct Hnd' as ((N01 & N02 & _) & (N12 & _) & _).
  assert (HF : forall x, vs_free s' x = if decide (x ∈ [i0; i1; i2]) then false else vs_free s x) by (intros; apply taken_free).
  apply (chains_add t b w i0 i1 i2 p _ _ _ _ _ _ _ _ _ _ _ (vi_chains s Hv)); try done; cbv beta.
  - by rewrite Ht.
  - simpl. by rewrite fn_lookup_insert.
  - intros t' Hne. simpl. by rewrite fn_lookup_insert_ne.
  - intros x Hx. rewrite HF. by rewrite decide_True.
  - intros x Hx. rewrite HF, decide_False by done. split; [done|]. rewrite !not_elem_of_cons in Hx. simpl.
    rewrite !fn_lookup_insert_ne; naive_solver.
  - simpl. do 2 rewrite fn_lookup_insert_ne by done. by rewrite fn_lookup_insert.
  - simpl. rewrite fn_lookup_insert_ne by done. by rewrite fn_lookup_insert.
  - simpl. by rewrite fn_lookup_insert.
  - simpl. by rewrite fn_lookup_insert.
  - simpl. by rewrite fn_lookup_insert.
  - intros x Hx. simpl. by rewrite !fn_lookup_insert_ne.
Qed.

Lemma submit_inv s t b w p i0 i1 i2 : vinv s -> vs_thr s t = TEntry b w -> vs_lock s = false ->
  bufs (vs_bst s) !! b = Some p -> 0 <= b_blockno p < 2 ^ 31 ->
  NoDup [i0; i1; i2] -> Forall (fun x => 0 <= x < NUM /\ vs_free s x = true) [i0; i1; i2] ->
  vinv (after_submit t b w (b_blockno p) i0 i1 i2 s) /\ astep (vabs s) (vabs (after_submit t b w (b_blockno p) i0 i1 i2 s)).
Proof.
  intros Hv Ht Hl Hp Hr Hnd Hall. assert (Hall' := Hall). rewrite !Forall_cons in Hall'.
  destruct Hall' as ((R0 & F0) & _). pose proof (submit_chains s t b w p i0 i1 i2 Hv Ht Hp Hr Hnd Hall) as Hch.
  set (s' := after_submit _ _ _ _ _ _ _ _) in *. destruct vq_ring as (Q1 & Q2 & Q3).
  destruct (ring_put _ _ Q1 Q2 Q3 _ _ _ i0 (vi_avail s Hv) (avail_room s i0 Hv F0 R0)) as [Hring Hq].
  pose proof (free_not_head s i0 Hv F0) as Hi.
  assert (HU : unserved s' ≡ₚ i0 :: unserved s).
  { change (unserved s') with (rqueue (2 ^ 16) NUM (<[Z.to_nat (vs_avail_idx s mod NUM) := i0]> (vs_avail_ring s))
      (vs_dev_idx s) ((vs_avail_idx s + 1) mod 2 ^ 16) ++ vs_dev_pend s). rewrite Hq. unfold unserved, avail_q. by solve_Permutation. }
  assert (Hthr : forall t', t' <> t -> vs_thr s' t' = vs_thr s t') by (intros; by apply fn_lookup_insert_ne).
  assert (Ht' : vs_thr s' t = TWait b w i0) by apply fn_lookup_insert.
  assert (Huse : forall t', uses (vs_thr s' t') = uses (vs_thr s t')).
  { intros t'. destruct (decide (t' = t)) as [->|Hne]; [by rewrite Ht', Ht|by rewrite Hthr]. }
  assert (Hbne : forall t' b' w' i', inflight (vs_thr s t') = Some (b', w', i') -> b' <> b).
  { intros t' b' w' i' Hf ->. assert (t' = t) as ->; [|by rewrite Ht in Hf].
    eapply (vi_uses s Hv); [by eapply inflight_uses|by rewrite Ht]. }
  split; [split|].
  - intros t1 t2 b1 w1 w2. rewrite !Huse. apply (vi_uses s Hv).
  - intros t1 b1 w1. rewrite Huse. apply (vi_bufs s Hv).
  - exact Hch.
  - exact Hring.
  - exact (vi_used s Hv).
  - apply (reqs_add t b w i0 _ _ _ _ _ _ _ _ (vi_reqs s Hv)); try done; cbv beta.
    + by rewrite Ht.
    + by rewrite Ht'.
    + intros t' Hne. by rewrite Hthr.
    + intros x Hx. simpl. by rewrite !fn_lookup_insert_ne.
  - intros t1 b1 w1 i. destruct (decide (t1 = t)) as [->|Hne]; [rewrite Ht'; intros [= <- <- <-]; apply fn_lookup_insert|].
    rewrite Hthr by done. intros H. simpl. rewrite fn_lookup_insert_ne; [by eapply vi_wait|].
    intros ->. apply (Hbne t1 b1 w1 i); [by rewrite H|done].
  - intros t1 b1 w1. destruct (decide (t1 = t)) as [->|Hne]; [by rewrite Ht'|]. rewrite Hthr by done. intros H.
    eapply Nat.le_lt_trans; [apply nfree_mono|by eapply (vi_nofree s Hv)]. intros x. simpl vs_free at 1.
    change (vs_free (taken [i0; i1; i2] s) x = true -> vs_free s x = true). rewrite taken_free. by case_decide.
  - intros Hu. destruct (vi_isr s Hv Hu) as [H|H]; [by left|congruence].
  - apply as_other; [|done|done]. intros t'. rewrite !vabs_alt, Huse. destruct (decide (t' = t)) as [->|Hne].
    + rewrite Ht', Ht. simpl. rewrite decide_True; [done|]. rewrite HU. set_solver.
    + rewrite Hthr by done. destruct (inflight (vs_thr s t')) as [[[b' w'] i']|] eqn:Ef; [|done].
      assert (i' <> i0).
      { intros ->. pose proof (chain_taken _ _ _ _ _ _ _ _ _ (cs_ok _ _ _ _ _ _ (vi_chains s Hv) _ _ _ _ Ef) (chain_head _ _)).
        congruence. }
      assert (i' ∈ unserved s' <-> i' ∈ unserved s) by (rewrite HU; set_solver). repeat case_decide; tauto.
Qed.

Lemma step_entry s t b w : vinv s -> vs_thr s t = TEntry b w -> vs_lock s = false ->
  exists s', virtio_disk_rw t b w s = Done tt s' /\ vinv s' /\ astep (vabs s) (vabs s').
Proof.
  intros Hv Ht Hl. destruct (vi_bufs s Hv t b w) as (p & Hp & Hr); [by rewrite Ht|].
  unfold virtio_disk_rw. rewrite (bind_Done (gets _) _ s _ s eq_refl), Hp.
  assert (Hacq : vacquire s = Done tt (set_vs_lock true s)) by (unfold vacquire, bind, gets; by rewrite Hl).
  cbv zeta. rewrite (bind_Done _ _ _ _ _ Hacq).
  destruct (alloc3_spec (set_vs_lock true s)) as [(i0 & i1 & i2 & Hrun & Hnd & Hall)|(l & Hrun & Hn & Hall)];
    rewrite (bind_Done _ _ _ _ _ Hrun).
  - pose proof Hall as Hall'. rewrite !Forall_cons in Hall'. destruct Hall' as ((R0 & _) & (R1 & _) & (R2 & _) & _).
    assert (Hsec : u32 (b_blockno p * (BSIZE / 512)) = b_blockno p * 2) by (change (BSIZE / 512) with 2; apply u32_small; lia).
    rewrite Hsec, (bind_Done _ _ _ _ _ (submit_spec b w _ i0 i1 i2 _ R0 R1 R2)). unfold rw_wait.
    rewrite (bind_Done (gets _) _ _ _ _ eq_refl). set (s2 := submitted _ _ _ _ _ _ _).
    assert (vs_busy s2 b = true) as -> by (simpl; apply fn_lookup_insert). cbv iota.
    exists (after_submit t b w (b_blockno p) i0 i1 i2 s). split; [done|]. by apply submit_inv.
  - by eapply step_full.
Qed.

Lemma reqs_del t b w i fl D F O I B U V busy fl' I' : reqs fl U V busy I -> chains fl D F O I B ->
  fl t = Some (b, w, i) -> busy b = false -> fl' t = None -> (forall t', t' <> t -> fl' t' = fl t') ->
  (forall x, x <> i -> I' x = I x) -> reqs fl' U V busy I' /\ i ∉ U ++ V.
Proof.
  intros [H1 H2 H3 H4] Hc Ht Hb Hfl Hfl' HI.
  assert (Hi : i ∉ U ++ V).
  { intros Hi. destruct (H2 i Hi) as (t' & b' & w' & Hf & Hbu).
    assert (t' = t) as -> by (eapply (cs_disj _ _ _ _ _ _ Hc); [done|done|apply chain_head..]). congruence. }
  split; [|done]. split; [done| | |].
  - intros h Hh. destruct (H2 h Hh) as (t' & b' & w' & Hf & Hbu). exists t', b', w'. rewrite Hfl'; [done|]. congruence.
  - intros t' b' w' i' Hf. destruct (decide (t' = t)) as [->|Hne]; [congruence|]. rewrite Hfl' in Hf by done. by eapply H3.
  - intros h Hh. rewrite HI; [by apply H4|]. intros ->. set_solver.
Qed.

(** The request of [t] is complete: its descriptors are freed. *)
Definition after_done (t i : Z) (s : vst) : vst :=
  let s2 := freed (chn (vs_desc s) i) (set_vs_info (<[i := Info None (in_status (vs_info s i))]> (vs_info s)) s) in
  set_vs_thr (<[t := TIdle]> (vs_thr s2)) (set_vs_lock false s2).
Lemma done_inv s t b w i : vinv s -> vs_thr s t = TWoken b w i -> vs_lock s = false -> vs_busy s b = false ->
  vinv (after_done t i s) /\ astep (vabs s) (vabs (after_done t i s)).
Proof.
  intros Hv Ht Hl Hb. unfold after_done. set (s1 := set_vs_info _ s).
  assert (Hfl : inflight (vs_thr s t) = Some (b, w, i)) by (by rewrite Ht).
  destruct (freed_ok (chn (vs_desc s) i) s1) as [(D & F & T & E) Hin Hout Hthr]. rewrite E in *.
  set (s' := set_vs_thr _ _). assert (HT : forall t', T t' = wake_t CFree (vs_thr s t')) by (intros; apply Hthr).
  assert (HF : forall x, x ∈ chn (vs_desc s) i -> F x = true) by exact Hin.
  assert (HFD : forall x, x ∉ chn (vs_desc s) i -> F x = vs_free s x /\ D x = vs_desc s x) by exact Hout.
  assert (Hthr' : forall t', t' <> t -> vs_thr s' t' = wake_t CFree (vs_thr s t')).
  { intros t' Hne. simpl. by rewrite fn_lookup_insert_ne. }
  assert (Ht' : vs_thr s' t = TIdle) by apply fn_lookup_insert.
  assert (HI : forall x, x <> i -> vs_info s1 x = vs_info s x) by (intros x Hx; simpl; by rewrite fn_lookup_insert_ne).
  assert (Hfl' : forall t', t' <> t -> inflight (vs_thr s' t') = inflight (vs_thr s t')).
  { intros t' Hne. by rewrite Hthr', inflight_wake. }
  assert (Hfl0 : inflight (vs_thr s' t) = None) by (by rewrite Ht').
  destruct (reqs_del t b w i _ _ _ _ _ _ _ _ _ (fun t => inflight (vs_thr s' t)) (vs_info s1) (vi_reqs s Hv) (vi_chains s Hv)
    Hfl Hb Hfl0 Hfl' HI) as [Hreq Hi].
  split; [split|].
  - intros t1 t2 b1 w1 w2. destruct (decide (t1 = t)) as [->|N1], (decide (t2 = t)) as [->|N2]; rewrite ?Ht'; try done.
    rewrite !Hthr', !uses_wake by done. apply (vi_uses s Hv).
  - intros t1 b1 w1. destruct (decide (t1 = t)) as [->|N1]; [by rewrite Ht'|]. rewrite Hthr', uses_wake by done. apply (vi_bufs s Hv).
  - by apply (chains_del t b w i _ _ _ _ _ _ _ D F (vs_info s1) (vi_chains s Hv)).
  - exact (vi_avail s Hv).
  - exact (vi_used s Hv).
  - exact Hreq.
  - intros t1 b1 w1 j. destruct (decide (t1 = t)) as [->|N1]; [by rewrite Ht'|]. rewrite Hthr' by done.
    intros H%wait_wake_free. by eapply (vi_wait s Hv).
  - intros t1 b1 w1. destruct (decide (t1 = t)) as [->|N1]; [by rewrite Ht'|]. rewrite Hthr' by done. by destruct (vs_thr s t1).
  - intros Hu. destruct (vi_isr s Hv Hu) as [H|H]; [by left|congruence].
  - apply (as_return _ _ _ t b w).
    + rewrite vabs_alt, Hfl, decide_False; [done|]. intros Hu. apply Hi, elem_of_app. by left.
    + by rewrite Ht'.
    + intros t1 Hne. assert (Eu : unserved s' = unserved s) by reflexivity.
      by rewrite !vabs_alt, Eu, Hfl', Hthr', uses_wake by done.
Qed.

Lemma step_woken s t b w i : vinv s -> vs_thr s t = TWoken b w i -> vs_lock s = false ->
  exists s', virtio_disk_rw_resume t b w i s = Done tt s' /\ vinv s' /\ astep (vabs s) (vabs s').
Proof.
  intros Hv Ht Hl. assert (Hfl : inflight (vs_thr s t) = Some (b, w, i)) by (by rewrite Ht).
  pose proof (cs_ok _ _ _ _ _ _ (vi_chains s Hv) _ _ _ _ Hfl) as Hck.
  unfold virtio_disk_rw_resume, rw_wait.
  assert (Hacq : vacquire s = Done tt (set_vs_lock true s)) by (unfold vacquire, bind, gets; by rewrite Hl).
  rewrite (bind_Done _ _ _ _ _ Hacq), (bind_Done (gets _) _ _ _ _ eq_refl). simpl (vs_busy _ b).
  destruct (vs_busy s b) eqn:Hb.
  - eexists. split; [reflexivity|]. apply vinv_quiet; simpl; try done.
    + intros t'. destruct (decide (t' = t)) as [->|Hne]; [by rewrite fn_lookup_insert, Ht|by rewrite fn_lookup_insert_ne].
    + intros t' b' w' i'. destruct (decide (t' = t)) as [->|Hne]; [rewrite fn_lookup_insert; by intros [= <- <- <-]|].
      rewrite fn_lookup_insert_ne by done. apply (vi_wait s Hv).
    + intros t' b' w'. destruct (decide (t' = t)) as [->|Hne]; [by rewrite fn_lookup_insert|].
      rewrite fn_lookup_insert_ne by done. apply (vi_nofree s Hv).
    + intros Hu. destruct (vi_isr s Hv Hu) as [H|H]; [by left|congruence].
  - assert (Hr : 0 <= i < NUM) by (eapply chain_range; [exact Hck|apply chain_head]).
    rewrite (bind_Done _ _ _ _ _ (upd_num_ok i _ _ Hr)). set (s1 := set_vs_info _ _).
    assert (Hck1 : chain_ok (vs_desc s1) (vs_free s1) (vs_ops s) (vs_info s) (bufs (vs_bst s)) b w i) by exact Hck.
    rewrite (bind_Done _ _ _ _ _ (free_chain_spec _ _ _ _ _ _ _ Hck1)).
    exists (after_done t i s). split; [|by eapply done_inv].
    unfold bind, vrelease, modify, after_done. f_equal.
Qed.

Lemma reqs_perm fl U V busy I fl' U' V' I' : reqs fl U V busy I -> (forall t, fl' t = fl t) ->
  U' ++ V' ≡ₚ U ++ V -> (forall h, h ∈ V' -> in_status (I' h) = 0) -> reqs fl' U' V' busy I'.
Proof.
  intros [H1 H2 H3 H4] Hfl HUV HI. split; [by rewrite HUV| | |done].
  - intros h. rewrite HUV. intros Hh. destruct (H2 h Hh) as (t & b & w & Hf). exists t, b, w. by rewrite Hfl.
  - intros t b w i. rewrite HUV, Hfl. apply H3.
Qed.

(** Heads of the same set of requests give the same abstract process. *)
Lemma vabs_ext s s' st st' : inflight st' = inflight st -> uses st' = uses st ->
  (forall b w i, inflight st = Some (b, w, i) -> i ∈ unserved s' <-> i ∈ unserved s) -> vabs_t s' st' = vabs_t s st.
Proof.
  intros Hf Hu Hi. rewrite !vabs_alt, Hf, Hu. destruct (inflight st) as [[[b w] i]|] eqn:E; [|done].
  destruct (Hi b w i eq_refl). repeat case_decide; tauto.
Qed.

Lemma step_fetch s : vinv s -> vs_dev_idx s <> vs_avail_idx s ->
  let s' := set_vs_dev_idx (u16 (vs_dev_idx s + 1))
    (set_vs_dev_pend (vs_dev_pend s ++ [nth (Z.to_nat (vs_dev_idx s mod NUM)) (vs_avail_ring s) 0]) s) in
  vinv s' /\ astep (vabs s) (vabs s').
Proof.
  intros Hv Hne s'. destruct vq_ring as (Q1 & Q2 & Q3). pose proof (vi_avail s Hv) as Hring.
  assert (Hne' : avail_q s <> []).
  { intros E. pose proof (ring_empty _ _ Q1 Q2 _ _ _ Hring) as Hz. fold (avail_q s) in Hz. rewrite E in Hz. by apply Z.eqb_eq in Hz. }
  destruct (ring_get _ _ Q1 Q2 Q3 _ _ _ Hring Hne') as [Hring' Hq]. fold (avail_q s) in Hq.
  assert (HU : unserved s' ≡ₚ unserved s).
  { unfold unserved at 2. rewrite Hq. change (avail_q s') with (rqueue (2 ^ 16) NUM (vs_avail_ring s) ((vs_dev_idx s + 1) mod 2 ^ 16) (vs_avail_idx s)).
    unfold unserved. change (avail_q s') with (rqueue (2 ^ 16) NUM (vs_avail_ring s) ((vs_dev_idx s + 1) mod 2 ^ 16) (vs_avail_idx s)).
    change (vs_dev_pend s') with (vs_dev_pend s ++ [rnth NUM (vs_avail_ring s) (vs_dev_idx s)]). by solve_Permutation. }
  split; [destruct Hv; split; try done|].
  - eapply reqs_perm; [exact vi_reqs0|done|change (used_q s') with (used_q s); by rewrite HU|apply vi_reqs0].
  - apply as_other; [|done|done]. intros t. apply vabs_ext; try done. intros b w i _. by rewrite HU.
Qed.

(** A well-formed chain is served as [disk_rw] says. *)
Lemma serve_ok s b w h :
  chain_ok (vs_desc s) (vs_free s) (vs_ops s) (vs_info s) (bufs (vs_bst s)) b w h ->
  exists bs, dev_serve s h = Some (bs, h) /\ disk_rw b w (vs_bst s) = Done tt bs /\
    forall b' p, bufs (vs_bst s) !! b' = Some p -> exists p', bufs bs !! b' = Some p' /\ b_blockno p' = b_blockno p.
Proof.
  intros [_ _ _ H4 H5 H6 (p & Hp & Hr & Hop) _]. unfold dev_serve, nxt in *. rewrite H4 in *. cbn [d_next d_addr d_len d_flags] in *.
  rewrite H5 in *. cbn [d_next d_addr d_len d_flags] in *. rewrite H6, Hop. cbn [d_addr d_len d_flags rq_sector rq_type].
  rewrite Z.mod_mul, Z.div_mul by done. cbn [Z.eqb andb]. rewrite Hp. unfold disk_rw, getb.
  destruct w; cbn [Z.eqb andb]; rewrite !Z.eqb_refl; cbn [andb].
  - eexists. split; [reflexivity|]. split; [unfold bind; by rewrite Hp|]. intros b' p' Hb'. eauto.
  - eexists. split; [reflexivity|]. split; [unfold bind, updb, gets; rewrite Hp, Hp; done|].
    intros b' p' Hb'. unfold bufs, put; simpl. destruct (decide (b = b')) as [<-|Hne].
    + rewrite lookup_insert_eq. eexists. split; [done|]. simpl. unfold bufs in *. congruence.
    + rewrite lookup_insert_ne by done. eauto.
Qed.

(** The request a head in a ring belongs to. *)
Lemma head_owner s h : vinv s -> h ∈ unserved s ++ used_q s ->
  exists t b w, inflight (vs_thr s t) = Some (b, w, h) /\ vs_busy s b = true /\
    chain_ok (vs_desc s) (vs_free s) (vs_ops s) (vs_info s) (bufs (vs_bst s)) b w h /\
    (forall t' b' w' i', inflight (vs_thr s t') = Some (b', w', i') -> t' <> t -> i' <> h /\ b' <> b).
Proof.
  intros Hv Hh. destruct (rq_heads _ _ _ _ _ (vi_reqs s Hv) h Hh) as (t & b & w & Ht & Hb). exists t, b, w.
  pose proof (vi_chains s Hv) as Hc. conjs; try done; [by eapply (cs_ok _ _ _ _ _ _ Hc)|].
  intros t' b' w' i' Ht' Hne. split; intros ->; apply Hne.
  - eapply (cs_disj _ _ _ _ _ _ Hc); [done|done|apply chain_head..].
  - eapply (vi_uses s Hv); by eapply inflight_uses.
Qed.

Lemma step_complete s l1 h l2 : vinv s -> vs_dev_pend s = l1 ++ h :: l2 ->
  exists bs, dev_serve s h = Some (bs, h) /\
    let s' := dev_done h bs h (set_vs_dev_pend (l1 ++ l2) s) in vinv s' /\ astep (vabs s) (vabs s').
Proof.
  intros Hv Hpd. destruct vq_ring as (Q1 & Q2 & Q3).
  assert (HhU : unserved s ≡ₚ h :: avail_q s ++ l1 ++ l2) by (unfold unserved; rewrite Hpd; by solve_Permutation).
  destruct (head_owner s h Hv) as (t & b & w & Ht & Hb & Hck & Hoth); [rewrite HhU; set_solver|].
  destruct (serve_ok s b w h Hck) as (bs & Hserve & Hrw & Hbn). exists bs. split; [done|]. intros s'.
  pose proof (rq_nodup _ _ _ _ _ (vi_reqs s Hv)) as Hnd. rewrite HhU in Hnd. simpl in Hnd. apply NoDup_cons in Hnd as [Hh Hnd].
  assert (Hroom : Z.of_nat (length (used_q s)) < NUM).
  { apply (nodup_room (used_q s) h).
    - by apply NoDup_app in Hnd as (_ & _ & Hnd).
    - intros x Hx. eapply (reqs_heads_range _ _ _ _ _ _ _ _ _ x (vi_chains s Hv) (vi_reqs s Hv)). set_solver.
    - eapply chain_range; [exact Hck|apply chain_head].
    - set_solver. }
  destruct (ring_put _ _ Q1 Q2 Q3 _ _ _ h (vi_used s Hv) Hroom) as [Hring Hq]. fold (used_q s) in Hq.
  change (rqueue _ _ _ _ _) with (used_q s') in Hq.
  assert (HU : unserved s' = avail_q s ++ l1 ++ l2) by done.
  assert (HUV : unserved s' ++ used_q s' ≡ₚ unserved s ++ used_q s).
  { rewrite HU, Hq, HhU. by solve_Permutation. }
  split; [split|].
  - exact (vi_uses s Hv).
  - intros t' b' w' Hu. destruct (vi_bufs s Hv t' b' w' Hu) as (p & Hp & Hr).
    destruct (Hbn b' p Hp) as (p' & Hp' & E). exists p'. rewrite E. done.
  - apply (chains_ext _ _ _ _ _ _ _ _ _ _ _ (vi_chains s Hv)); try done.
    + intros i. simpl. destruct (decide (i = h)) as [->|Hne]; [by rewrite fn_lookup_insert|by rewrite fn_lookup_insert_ne].
    + intros t' b' w' i' p _. apply Hbn.
  - exact (vi_avail s Hv).
  - exact Hring.
  - eapply reqs_perm; [exact (vi_reqs s Hv)|done|done|]. intros x. rewrite Hq. intros Hx. simpl.
    destruct (decide (x = h)) as [->|Hne]; [by rewrite fn_lookup_insert|]. rewrite fn_lookup_insert_ne by done.
    apply (rq_status _ _ _ _ _ (vi_reqs s Hv)). set_solver.
  - exact (vi_wait s Hv).
  - exact (vi_nofree s Hv).
  - intros _. left. change (Z.testbit (Z.lor (vs_isr s) 1) 0 = true). by rewrite Z.lor_spec, orb_true_r.
  - apply (as_transfer _ _ _ _ t b w).
    + rewrite vabs_alt, Ht, decide_True; [done|]. rewrite HhU. set_solver.
    + rewrite vabs_alt. change (vs_thr s' t) with (vs_thr s t). rewrite Ht, decide_False; [done|]. rewrite HU. set_solver.
    + intros t' Hne. apply vabs_ext; try done. intros b' w' i' Hf. destruct (Hoth _ _ _ _ Hf Hne). rewrite HU, HhU. set_solver.
    + exact Hrw.
Qed.

Lemma step_intr_enter s : vinv s -> vs_lock s = false ->
  exists s', intr_enter s = Done tt s' /\ vinv s' /\ astep (vabs s) (vabs s').
Proof.
  intros Hv Hl. unfold intr_enter.
  assert (Hacq : vacquire s = Done tt (set_vs_lock true s)) by (unfold vacquire, bind, gets; by rewrite Hl).
  rewrite (bind_Done _ _ _ _ _ Hacq). eexists. split; [reflexivity|].
  apply vinv_quiet; simpl; try done; [apply (vi_wait s Hv)|apply (vi_nofree s Hv)|]. intros _. by right.
Qed.

Lemma step_intr_exit s : vinv s -> intr_more s = false ->
  exists s', vrelease s = Done tt s' /\ vinv s' /\ astep (vabs s) (vabs s').
Proof.
  intros Hv Hm. eexists. split; [reflexivity|]. destruct vq_ring as (Q1 & Q2 & Q3).
  apply vinv_quiet; simpl; try done; [apply (vi_wait s Hv)|apply (vi_nofree s Hv)|]. intros Hu. exfalso. apply Hu.
  unfold intr_more in Hm. apply negb_false_iff in Hm. rewrite (ring_empty _ _ Q1 Q2 _ _ _ (vi_used s Hv)) in Hm.
  fold (used_q s) in Hm. apply Z.eqb_eq in Hm. by destruct (used_q s).
Qed.

Lemma intr_body_ok s : vinv s -> intr_more s = true ->
  exists h V b, used_q s = h :: V /\ in_b (vs_info s h) = Some b /\
    intr_body s = Done tt (set_vs_used_idx (u16 (vs_used_idx s + 1))
      (set_vs_thr (fun t => wake_t (CBuf b) (vs_thr s t)) (set_vs_busy (<[b := false]> (vs_busy s)) s))) /\
    ring_ok (2 ^ 16) NUM (vs_used_ring s) (u16 (vs_used_idx s + 1)) (vs_used_ring_idx s) /\
    rqueue (2 ^ 16) NUM (vs_used_ring s) (u16 (vs_used_idx s + 1)) (vs_used_ring_idx s) = V.
Proof.
  intros Hv Hm. destruct vq_ring as (Q1 & Q2 & Q3). pose proof (vi_used s Hv) as Hring.
  assert (Hne : used_q s <> []).
  { intros E. unfold intr_more in Hm. rewrite (ring_empty _ _ Q1 Q2 _ _ _ Hring) in Hm. fold (used_q s) in Hm. by rewrite E in Hm. }
  destruct (ring_get _ _ Q1 Q2 Q3 _ _ _ Hring Hne) as [Hring' Hq]. fold (used_q s) in Hq.
  set (h := rnth NUM (vs_used_ring s) (vs_used_idx s)) in *.
  assert (Hh : h ∈ used_q s) by (rewrite Hq; set_solver).
  destruct (head_owner s h Hv) as (t & b & w & Ht & Hb & Hck & Hoth); [set_solver|].
  eexists h, _, b. conjs; [exact Hq|apply Hck| |exact Hring'|done].
  unfold intr_body. erewrite (bind_Done (gets _) _ s); [|reflexivity].
  change (nth (Z.to_nat (vs_used_idx s mod NUM)) (vs_used_ring s) 0) with h.
  assert (Hr : 0 <= h < NUM) by (eapply chain_range; [exact Hck|apply chain_head]).
  rewrite (bind_Done _ _ _ _ _ (at_num_ok h _ s Hr)), (rq_status _ _ _ _ _ (vi_reqs s Hv) h Hh).
  change (negb (0 =? 0)) with false. rewrite (bind_Done (panic_if false _) _ s tt s eq_refl), (ck_info _ _ _ _ _ _ _ _ Hck). done.
Qed.

Lemma step_intr_body s : vinv s -> vs_lock s = true -> intr_more s = true ->
  exists s', intr_body s = Done tt s' /\ vinv s' /\ astep (vabs s) (vabs s').
Proof.
  intros Hv Hl Hm. destruct (intr_body_ok s Hv Hm) as (h & V & b & Hq & Hinb & Hrun & Hring & HV).
  eexists. split; [exact Hrun|]. set (s' := set_vs_used_idx _ _).
  destruct (head_owner s h Hv) as (t & b' & w & Ht & Hb & Hck & Hoth); [rewrite Hq; set_solver|].
  assert (b' = b) as -> by (pose proof (ck_info _ _ _ _ _ _ _ _ Hck); congruence).
  assert (Hthr : forall t', vs_thr s' t' = wake_t (CBuf b) (vs_thr s t')) by done.
  assert (Hfl : forall t', inflight (vs_thr s' t') = inflight (vs_thr s t')) by (intros; by rewrite Hthr, inflight_wake).
  assert (Hbu : forall x, vs_busy s' x = if decide (x = b) then false else vs_busy s x).
  { intros x. simpl. case_decide; [subst; apply fn_lookup_insert|by apply fn_lookup_insert_ne]. }
  assert (HV' : used_q s' = V) by exact HV. assert (HU : unserved s' = unserved s) by done.
  pose proof (vi_reqs s Hv) as [H1 H2 H3 H4]. rewrite Hq in *.
  assert (Hperm : unserved s ++ h :: V ≡ₚ h :: unserved s ++ V) by (by solve_Permutation).
  rewrite Hperm in H1. apply NoDup_cons in H1 as [Hn H1].
  assert (Hel : forall x, x ∈ unserved s ++ h :: V <-> x = h \/ x ∈ unserved s ++ V)
    by (intros x; rewrite !elem_of_app, elem_of_cons; tauto).
  split; [split|].
  - intros t1 t2 b1 w1 w2. rewrite !Hthr, !uses_wake. apply (vi_uses s Hv).
  - intros t1 b1 w1. rewrite Hthr, uses_wake. apply (vi_bufs s Hv).
  - apply (chains_ext _ _ _ _ _ _ _ _ _ _ _ (vi_chains s Hv)); try done. intros ? ? ? ? p _ Hp. eauto.
  - exact (vi_avail s Hv).
  - exact Hring.
  - rewrite HV', HU. split; [done| | |].
    + intros x Hx. destruct (H2 x) as (t1 & b1 & w1 & Hf & Hbb); [apply Hel; by right|]. exists t1, b1, w1. rewrite Hfl, Hbu.
      split; [done|]. rewrite decide_False; [done|]. assert (t1 <> t). { intros ->. rewrite Ht in Hf. naive_solver. }
      by destruct (Hoth _ _ _ _ Hf H).
    + intros t1 b1 w1 i. rewrite Hfl, Hbu. intros Hf. case_decide as Hd; [done|]. intros Hbb.
      assert (t1 <> t) as Hne. { intros ->. rewrite Ht in Hf. naive_solver. }
      destruct (Hoth _ _ _ _ Hf Hne). by destruct (proj1 (Hel i) (H3 _ _ _ _ Hf Hbb)).
    + intros x Hx. apply H4, elem_of_cons. by right.
  - intros t1 b1 w1 i. rewrite Hthr, Hbu. intros Hf. assert (vs_thr s t1 = TWait b1 w1 i /\ b1 <> b) as [Hf' Hne].
    { destruct (vs_thr s t1) as [| | |b2 w2 i2|] eqn:E; simpl in Hf; try done. case_decide; [done|]. naive_solver. }
    rewrite decide_False by done. by eapply (vi_wait s Hv).
  - intros t1 b1 w1. rewrite Hthr. intros Hf. eapply (vi_nofree s Hv t1 b1 w1).
    destruct (vs_thr s t1) as [| | |b2 w2 i2|] eqn:E; simpl in Hf; try done. by case_decide.
  - intros _. by right.
  - apply as_other; [|done|done]. intros t1. apply vabs_ext; [apply Hfl|by rewrite Hthr, uses_wake|]. intros ? ? ? _. by rewrite HU.
Qed.

Lemma vabs_uses s st b w : vabs_t s st = ACalled b w \/ vabs_t s st = ADone b w -> uses st = Some (b, w).
Proof.
  rewrite vabs_alt. destruct (inflight st) as [[[b' w'] i']|] eqn:E.
  - rewrite (inflight_uses _ _ _ _ E). case_decide; naive_solver.
  - destruct (uses st) as [[b' w']|]; naive_solver.
Qed.

Lemma step_other s bs : vinv s -> bs_disk bs = bs_disk (vs_bst s) ->
  (forall t b w, uses (vs_thr s t) = Some (b, w) -> bufs bs !! b = bufs (vs_bst s) !! b) ->
  vinv (set_vs_bst bs s) /\ astep (vabs s) (vabs (set_vs_bst bs s)).
Proof.
  intros Hv Hd Hb. split.
  - destruct Hv. split; try done.
    + intros t b w Hu. simpl. rewrite (Hb t b w Hu). by eapply vi_bufs0.
    + apply (chains_ext _ _ _ _ _ _ _ _ _ _ _ vi_chains0); try done. intros t b w i p Hf Hp. simpl.
      rewrite (Hb t b w) by (by eapply inflight_uses). eauto.
  - apply as_other; [intros t; by apply vabs_ext|done|]. intros t b w Hf. apply (Hb t b w).
    by eapply vabs_uses.
Qed.

(** ** The system *)

Section SystemSpec.
(** The device does what the virtio specification allows. *)
Context (dev : vst -> vst -> Prop) (dev_sound : forall s s', dev s s' -> dev_step s s').

Lemma dev_step_inv s s' : vinv s -> dev_step s s' -> vinv s' /\ astep (vabs s) (vabs s').
Proof.
  intros Hv Hd. revert Hv. destruct Hd as [s0 Hne|s0 l1 h l2 bs j Hpd Hs|s0 h s1 Hh Hs]; intros Hv.
  - exact (step_fetch s0 Hv Hne).
  - destruct (step_complete s0 l1 h l2 Hv Hpd) as (bs' & Hs' & Hok). rewrite Hs in Hs'. injection Hs' as -> ->. exact Hok.
  - apply list_elem_of_split in Hh as (l1 & l2 & Hpd). destruct (step_complete s0 l1 h l2 Hv Hpd) as (bs' & Hs' & _). congruence.
Qed.

Lemma vrun_ok s t : vinv s -> vrunnable (vs_thr s t) = true -> vs_lock s = false ->
  exists s', vrun t s = Done tt s' /\ vinv s' /\ astep (vabs s) (vabs s').
Proof.
  intros Hv Hr Hl. unfold vrun. destruct (vs_thr s t) eqn:Ht; try done; [by apply step_entry|by apply step_woken].
Qed.

Lemma vstep_inv s s' : vinv s -> vstep dev s s' -> vinv s' /\ astep (vabs s) (vabs s').
Proof.
  intros Hv Hst.
  assert (Hdet : forall o, (exists s1, o = Done tt s1 /\ vinv s1 /\ astep (vabs s) (vabs s1)) -> o = Done tt s' ->
    vinv s' /\ astep (vabs s) (vabs s')).
  { intros o (s1 & E & H) E'. rewrite E' in E. injection E as ->. done. }
  inversion Hst; subst.
  - by eapply step_call.
  - eapply Hdet; [|done]. by apply vrun_ok.
  - by apply dev_step_inv, dev_sound.
  - eapply Hdet; [|done]. by apply step_intr_enter.
  - eapply Hdet; [|done]. by apply step_intr_body.
  - eapply Hdet; [|done]. by apply step_intr_exit.
  - by apply step_other.
Qed.

Lemma vinit_inv s : vinit s -> vinv s.
Proof.
  intros (H1 & H2 & H3 & H4 & H5 & H6 & H7 & H8 & H9 & H10 & H11).
  assert (Hq : unserved s = [] /\ used_q s = []).
  { unfold unserved, used_q, avail_q, rqueue, rcount. rewrite H2, H4, H6, H9, H10. done. }
  destruct Hq as [HU HV]. split.
  - intros t t' b w w'. by rewrite H8.
  - intros t b w. by rewrite H8.
  - split.
    + intros t b w i. by rewrite H8.
    + intros t t' b w i b' w' i' x. by rewrite H8.
    + intros x Hx. by rewrite H1.
  - split; rewrite ?H2, ?H3, ?H9; done.
  - split; rewrite ?H4, ?H5, ?H6; done.
  - rewrite HU, HV. split; [constructor| |intros t b w i; by rewrite H8|]; set_solver.
  - intros t b w i. by rewrite H8.
  - intros t b w. by rewrite H8.
  - by rewrite HV.
Qed.

Lemma vreach_inv s0 s : vinit s0 -> rtc (vstep dev) s0 s -> vinv s /\ rtc astep (vabs s0) (vabs s).
Proof.
  intros H0 Hr. pose proof (vinit_inv s0 H0) as Hv. clear H0.
  induction Hr as [s|s s1 s2 Hst _ IH]; [split; [done|constructor]|].
  destruct (vstep_inv s s1 Hv Hst) as [Hv1 Ha]. destruct (IH Hv1) as [Hv2 Hr2]. split; [done|]. by econstructor.
Qed.

(** C7: the driver, the device and the interrupt handler implement atomic
    transfers.  Over all interleavings, every run is a run of the contract in
    which each call of [virtio_disk_rw] has exactly the effect of [disk_rw] at
    one moment between its call and its return.  No panic and no access out of
    range is reachable: a process or the handler that may run completes its
    critical section. *)
Theorem virtio_refines_disk_rw s0 s : vinit s0 -> rtc (vstep dev) s0 s ->
  rtc astep (vabs s0) (vabs s) /\
  (forall t, vrunnable (vs_thr s t) = true -> vs_lock s = false -> exists s', vrun t s = Done tt s') /\
  (vs_lock s = true -> intr_more s = true -> exists s', intr_body s = Done tt s').
Proof.
  intros H0 Hr. destruct (vreach_inv s0 s H0 Hr) as [Hv Ha]. split; [done|]. split.
  - intros t Ht Hl. destruct (vrun_ok s t Hv Ht Hl) as (s' & H & _). eauto.
  - intros Hl Hm. destruct (step_intr_body s Hv Hl Hm) as (s' & H & _). eauto.
Qed.

(** The device does not ignore requests. *)
Hypothesis dev_progress : forall s, vs_dev_idx s <> vs_avail_idx s \/ vs_dev_pend s <> [] -> exists s', dev s s'.

(** All descriptors but those of the requests in flight are free. *)
Lemma none_inflight s : vinv s -> (forall t, inflight (vs_thr s t) = None) -> nfree (vs_free s) = 8%nat.
Proof.
  intros Hv Hn. assert (Hall : forall x, x ∈ upto NUM -> vs_free s x = true).
  { intros x Hx%elem_upto. destruct (vs_free s x) eqn:E; [done|].
    destruct (cs_all _ _ _ _ _ _ (vi_chains s Hv) x Hx E) as (t & b & w & i & Hf & _). by rewrite Hn in Hf. }
  unfold nfree. change 8%nat with (length (upto NUM)). f_equal. induction (upto NUM) as [|x l IH]; [done|].
  simpl. rewrite Hall by set_solver. f_equal. apply IH. intros y Hy. apply Hall. set_solver.
Qed.

(** C33: no completion is lost.  In a reachable state in which no process can
    run, the device has nothing it can do, no interrupt is pending and the
    handler is not running, no call of [virtio_disk_rw] is in progress; so a
    process asleep on its buffer or on the descriptors always has someone to
    wake it. *)
Theorem virtio_no_lost_completion s0 s : vinit s0 -> rtc (vstep dev) s0 s ->
  (forall t, vrunnable (vs_thr s t) = false) -> (forall s', ~ dev s s') -> vs_isr s = 0 -> vs_lock s = false ->
  forall t, vs_thr s t = TIdle.
Proof.
  intros H0 Hr Hrun Hdev Hisr Hl t. destruct (vreach_inv s0 s H0 Hr) as [Hv _].
  assert (Hu : used_q s = []).
  { destruct (used_q s) eqn:E; [done|]. destruct (vi_isr s Hv) as [Hb|Hb]; [by rewrite E| |congruence].
    by rewrite Hisr in Hb. }
  assert (Hun : unserved s = []).
  { destruct vq_ring as (Q1 & Q2 & Q3). unfold unserved. destruct (decide (vs_dev_idx s = vs_avail_idx s)) as [E|E].
    - pose proof (ring_empty _ _ Q1 Q2 _ _ _ (vi_avail s Hv)) as Hz. fold (avail_q s) in Hz.
      rewrite E, Z.eqb_refl in Hz. symmetry in Hz. apply Z.eqb_eq in Hz. destruct (avail_q s); [|simpl in Hz; lia].
      destruct (vs_dev_pend s) eqn:Ep; [done|]. destruct (dev_progress s) as [s' Hs]; [right; by rewrite Ep|by destruct (Hdev s')].
    - destruct (dev_progress s) as [s' Hs]; [by left|by destruct (Hdev s')]. }
  assert (Hnone : forall t, inflight (vs_thr s t) = None).
  { intros t1. destruct (vs_thr s t1) as [| | |b w i|b w i] eqn:E; try done.
    - pose proof (rq_busy _ _ _ _ _ (vi_reqs s Hv) t1 b w i) as Hb. cbv beta in Hb. rewrite E, Hu, Hun in Hb.
      specialize (Hb eq_refl (vi_wait s Hv _ _ _ _ E)). set_solver.
    - specialize (Hrun t1). by rewrite E in Hrun. }
  pose proof (none_inflight s Hv Hnone) as H8. destruct (vs_thr s t) as [|b w|b w|b w i|b w i] eqn:E; [done|..].
  - specialize (Hrun t). by rewrite E in Hrun.
  - pose proof (vi_nofree s Hv _ _ _ E). lia.
  - specialize (Hnone t). by rewrite E in Hnone.
  - specialize (Hnone t). by rewrite E in Hnone.
Qed.
End SystemSpec.

(** ** A read of block 5 into buffer 0 *)
Module VirtioExample.
Definition data5 : block := [7; 8; 9].
Definition buf0 : buf := Buf false 1 5 (Sleeplock false (Spinlock false "sleep lock" None) "buffer" 0) 1 0 0 [].
Definition bst0 : bst := Bst (Bcache (Spinlock false "bcache" None) {[ 0 := buf0 ]}) (Disk {[ 5 := data5 ]} []).
Definition v0 : vst :=
  Vst (fun _ => desc0) 0 (replicate 8 0) 0 (replicate 8 0) (fun _ => true) 0 (fun _ => Info None 0)
    (fun _ => Blk_req 0 0 0) false (fun _ => false) (fun _ => TIdle) bst0 0 [] 0.
Definition out (o : outcome vst unit) : vst := match o with Done _ s => s | _ => v0 end.
Definition v1 : vst := set_vs_thr (<[1 := TEntry 0 false]> (vs_thr v0)) v0.
Definition v2 : vst := out (vrun 1 v1).
Definition v3 : vst := set_vs_dev_idx (u16 (vs_dev_idx v2 + 1))
  (set_vs_dev_pend (vs_dev_pend v2 ++ [nth (Z.to_nat (vs_dev_idx v2 mod NUM)) (vs_avail_ring v2) 0]) v2).
Definition v4 : vst :=
  match dev_serve v3 0 with Some (bs, j) => dev_done 0 bs j (set_vs_dev_pend [] v3) | None => v0 end.
Definition v5 : vst := out (intr_enter v4).
Definition v6 : vst := out (intr_body v5).
Definition v7 : vst := out (vrelease v6).
Definition v8 : vst := out (vrun 1 v7).

Lemma vrun_out t s : match vrun t s with Done _ _ => true | _ => false end = true -> vrun t s = Done tt (out (vrun t s)).
Proof. by destruct (vrun t s) as [[] ?| | | |]. Qed.
Lemma body_out s : match intr_body s with Done _ _ => true | _ => false end = true -> intr_body s = Done tt (out (intr_body s)).
Proof. by destruct (intr_body s) as [[] ?| | | |]. Qed.

Lemma v_init : vinit v0.
Proof. by repeat split. Qed.
Lemma v_run : rtc (vstep dev_step) v0 v8.
Proof.
  apply (rtc_l _ _ v1). { by apply (sys_call _ v0 1 0 false buf0). }
  apply (rtc_l _ _ v2). { apply (sys_run _ v1 1); [reflexivity|reflexivity|]. apply vrun_out. vm_compute. reflexivity. }
  apply (rtc_l _ _ v3). { apply sys_dev, dev_fetch. vm_compute. discriminate. }
  apply (rtc_l _ _ v4).
  { apply sys_dev. destruct (dev_serve v3 0) as [[bs j]|] eqn:E; [|vm_compute in E; discriminate].
    assert (v4 = dev_done 0 bs j (set_vs_dev_pend [] v3)) as -> by (unfold v4; by rewrite E).
    by apply (dev_complete v3 [] 0 [] bs j). }
  apply (rtc_l _ _ v5). { apply sys_intr_enter; [vm_compute; discriminate|reflexivity|reflexivity]. }
  apply (rtc_l _ _ v6). { apply sys_intr_body; [reflexivity|vm_compute; reflexivity|]. apply body_out. vm_compute. reflexivity. }
  apply (rtc_l _ _ v7). { apply sys_intr_exit; [reflexivity|vm_compute; reflexivity|reflexivity]. }
  apply (rtc_l _ _ v8); [|apply rtc_refl].
  apply (sys_run _ v7 1); [vm_compute; reflexivity|reflexivity|]. apply vrun_out. vm_compute. reflexivity.
Qed.

(** The call has returned and the buffer holds the block. *)
Lemma virtio_refines_disk_rw_witness :
  rtc astep (vabs v0) (vabs v8) /\ vs_thr v8 1 = TIdle /\ (b_data <$> bufs (vs_bst v8) !! 0) = Some data5.
Proof.
  split; [exact (proj1 (virtio_refines_disk_rw dev_step (fun _ _ H => H) v0 v8 v_init v_run))|].
  split; vm_compute; reflexivity.
Defined.

Lemma v8_idle t : vs_thr v8 t = TIdle.
Proof.
  assert (E : vs_thr v8 t = <[1 := TIdle]> (fun t => wake_t CFree (wake_t CFree (wake_t CFree (wake_t (CBuf 0)
    (<[1 := TWait 0 false 0]> (<[1 := TEntry 0 false]> (fun _ => TIdle)) t))))) t) by reflexivity.
  rewrite E. destruct (decide (t = 1)) as [->|Hne]; [reflexivity|]. by rewrite !fn_lookup_insert_ne.
Qed.

Lemma dev_step_progress s : vs_dev_idx s <> vs_avail_idx s \/ vs_dev_pend s <> [] -> exists s', dev_step s s'.
Proof.
  intros [Hne|Hne]; [eexists; by apply dev_fetch|]. destruct (vs_dev_pend s) as [|h l] eqn:E; [done|].
  destruct (dev_serve s h) as [[bs j]|] eqn:Es.
  - eexists. by apply (dev_complete s [] h l bs j).
  - exists s. apply (dev_bad s h); [rewrite E; set_solver|done].
Qed.
Lemma v8_quiet s' : ~ dev_step v8 s'.
Proof.
  assert (Hp : vs_dev_pend v8 = []) by (vm_compute; reflexivity).
  assert (Hi : vs_dev_idx v8 = vs_avail_idx v8) by (vm_compute; reflexivity).
  intros H. remember v8 as s eqn:Es. clear Es. destruct H as [s Hne|s l1 h l2 bs j Hpd _|s h s1 Hh _].
  - exact (Hne Hi).
  - rewrite Hp in Hpd. by destruct l1.
  - rewrite Hp in Hh. set_solver.
Qed.

(** After the read every process is out of the driver. *)
Lemma virtio_no_lost_completion_witness : vs_thr v8 1 = TIdle.
Proof.
  apply (virtio_no_lost_completion dev_step (fun _ _ H => H) dev_step_progress v0 v8 v_init v_run).
  - intros t. rewrite v8_idle. reflexivity.
  - exact v8_quiet.
  - vm_compute. reflexivity.
  - reflexivity.
Defined.
End VirtioExample.
