(* ===== verification/Grep.v ===== *)
(** * The matcher and the main loop of user/grep.c

    C strings are lists of their characters without the NUL.  [grep] gets its
    input from [read], which returns any number of the bytes that are left, at
    most what was asked for and none only at the end of the file. *)

From S2P Require Import Prelude.

Definition STAR : Z := 42.
Definition DOT : Z := 46.
Definition CARET : Z := 94.
Definition DOLLAR : Z := 36.
Definition LF : Z := 10.

(** [matchstar] calls [matchhere] with a fixed pattern, here [here]. *)
Fixpoint matchstar (c : Z) (here : list Z -> bool) (text : list Z) : bool :=
  here text ||
  match text with
  | [] => false
  | d :: text' => if (d =? c) || (c =? DOT) then matchstar c here text' else false
  end.

Fixpoint matchhere (re text : list Z) {struct re} : bool :=
  match re with
  | [] => true
  | c :: re1 =>
      match re1 with
      | s :: re2 =>
          if s =? STAR then matchstar c (matchhere re2) text
          else match text with
               | [] => false
               | d :: text' => if (c =? DOT) || (c =? d) then matchhere re1 text' else false
               end
      | [] =>
          if c =? DOLLAR then match text with [] => true | _ => false end
          else match text with
               | [] => false
               | d :: text' => if (c =? DOT) || (c =? d) then matchhere re1 text' else false
               end
      end
  end.

Fixpoint match_loop (re text : list Z) : bool :=
  matchhere re text || match text with [] => false | _ :: text' => match_loop re text' end.
Definition match_ (re text : list Z) : bool :=
  match re with
  | c :: re' => if c =? CARET then matchhere re' text else match_loop re text
  | [] => match_loop re text
  end.

(** ** [grep] *)

Definition BUFSIZE : Z := 1024.

(** [strchr(p, '\n')]: the line and what follows its newline.  The search ends
    at a NUL byte. *)
Fixpoint next_line (p : list Z) : option (list Z * list Z) :=
  match p with
  | [] => None
  | c :: p' =>
      if c =? 0 then None
      else if c =? LF then Some ([], p')
      else '(l, r) ← next_line p'; Some (c :: l, r)
  end.

(** The inner loop over the lines in the buffer, from [p]: the output and the
    bytes left. *)
Fixpoint lines_loop (fuel : nat) (pattern p out : list Z) : list Z * list Z :=
  match fuel, next_line p with
  | S fuel', Some (l, r) => lines_loop fuel' pattern r (if match_ pattern l then out ++ l ++ [LF] else out)
  | _, _ => (out, p)
  end.

(** [read(fd, buf, n)]: [k] is how many bytes the kernel has ready. *)
Definition read_some (n : Z) (k : nat) (inp : list Z) : list Z * list Z :=
  let m := Nat.min (Z.to_nat n) (Nat.max 1 k) in (take m inp, drop m inp).

(** [buf] holds the [m] bytes kept from before, [ready] what the next reads
    find.  Every round but the last consumes input. *)
Fixpoint grep_loop (fuel : nat) (pattern : list Z) (ready : nat -> nat) (inp buf out : list Z) : list Z :=
  match fuel with
  | O => out
  | S fuel' =>
      let '(bs, inp') := read_some (BUFSIZE - Z.of_nat (length buf) - 1) (ready (length inp)) inp in
      match bs with
      | [] => out
      | _ =>
          let '(out', rest) := lines_loop (S (length (buf ++ bs))) pattern (buf ++ bs) out in
          grep_loop fuel' pattern ready inp' rest out'
      end
  end.
Definition grep (pattern : list Z) (ready : nat -> nat) (inp : list Z) : list Z :=
  grep_loop (S (length inp)) pattern ready inp [] [].

(** ** Regular expressions *)

Inductive rx := Eps | Chr (c : Z) | Any | Cat (a b : rx) | Rep (a : rx).

Inductive lang : rx -> list Z -> Prop :=
| l_eps : lang Eps []
| l_chr c : lang (Chr c) [c]
| l_any c : lang Any [c]
| l_cat a b u v : lang a u -> lang b v -> lang (Cat a b) (u ++ v)
| l_rep0 a : lang (Rep a) []
| l_rep a u v : lang a u -> lang (Rep a) v -> lang (Rep a) (u ++ v).

Definition atom (c : Z) : rx := if c =? DOT then Any else Chr c.
(** A pattern without the leading anchor: its expression, and whether it ends
    in the anchor. *)
Fixpoint parse_here (re : list Z) : rx * bool :=
  match re with
  | [] => (Eps, false)
  | c :: re1 =>
      match re1 with
      | s :: re2 =>
          if s =? STAR then let '(r, e) := parse_here re2 in (Cat (Rep (atom c)) r, e)
          else let '(r, e) := parse_here re1 in (Cat (atom c) r, e)
      | [] => if c =? DOLLAR then (Eps, true) else (Cat (atom c) Eps, false)
      end
  end.
(** A text matches a pattern if a part of it is in the pattern's language, at
    the beginning or the end where the pattern is anchored. *)
Definition matches (re text : list Z) : Prop :=
  let anchored := match re with c :: _ => c =? CARET | [] => false end in
  let '(r, e) := parse_here (if anchored then tail re else re) in
  exists pre w post, text = pre ++ w ++ post /\ lang r w /\ (anchored = true -> pre = []) /\ (e = true -> post = []).

(** ** The matcher decides the language *)

Definition here_spec (re text : list Z) : Prop :=
  exists w post, text = w ++ post /\ lang (parse_here re).1 w /\ ((parse_here re).2 = true -> post = []).

Lemma atom_lang c u : lang (atom c) u <-> exists d, u = [d] /\ (c =? DOT) || (c =? d) = true.
Proof.
  unfold atom. destruct (c =? DOT).
  - split; [inversion 1; subst; eauto|]. intros (d & -> & _). constructor.
  - simpl. split; [inversion 1; subst; exists c; by rewrite Z.eqb_refl|]. intros (d & -> & ->%Z.eqb_eq). constructor.
Qed.

Lemma rep_lang c w : lang (Rep (atom c)) w <-> Forall (fun d => (c =? DOT) || (c =? d) = true) w.
Proof.
  split.
  - intros H. remember (Rep (atom c)) as r eqn:E. induction H; try done.
    injection E as ->. apply atom_lang in H as (d & -> & Hd). constructor; [done|]. by apply IHlang2.
  - induction 1 as [|d w Hd _ IH]; [constructor|]. change (d :: w) with ([d] ++ w). constructor; [|done].
    apply atom_lang. eauto.
Qed.

Lemma matchstar_spec c here (P : list Z -> Prop) text : (forall t, here t = true <-> P t) ->
  matchstar c here text = true <->
  exists w rest, text = w ++ rest /\ Forall (fun d => (c =? DOT) || (c =? d) = true) w /\ P rest.
Proof.
  intros HP. induction text as [|d text IH]; cbn [matchstar]; rewrite orb_true_iff, HP.
  - split; [intros [H|H]; [exists [], []; split; [done|]; split; [constructor|done]|done]|].
    intros (w & rest & E & _ & H). symmetry in E. apply app_eq_nil in E as [-> ->]. by left.
  - assert (Hc : (d =? c) || (c =? DOT) = (c =? DOT) || (c =? d)) by (rewrite orb_comm, (Z.eqb_sym d c); done). rewrite Hc.
    split.
    + intros [H|H]; [exists [], (d :: text); split; [done|]; split; [constructor|done]|].
      destruct ((c =? DOT) || (c =? d)) eqn:E; [|done]. apply IH in H as (w & rest & -> & Hw & Hr).
      exists (d :: w), rest. split; [done|]. split; [by constructor|done].
    + intros (w & rest & E & Hw & Hr). destruct w as [|d' w]; [left; simpl in E; by subst|]. right.
      injection E as <- ->. inversion Hw as [|? ? Hd Hw']; subst. rewrite Hd. apply IH. eauto.
Qed.

Lemma here_char c re text : (forall t, matchhere re t = true <-> here_spec re t) ->
  (match text with [] => false | d :: text' => if (c =? DOT) || (c =? d) then matchhere re text' else false end = true) <->
  exists w post, text = w ++ post /\ lang (Cat (atom c) (parse_here re).1) w /\ ((parse_here re).2 = true -> post = []).
Proof.
  intros IH. split.
  - destruct text as [|d text]; [done|]. destruct (_ || _) eqn:E; [|done]. intros H%IH.
    destruct H as (w & post & -> & Hw & Hp). exists (d :: w), post. split; [done|]. split; [|done].
    change (d :: w) with ([d] ++ w). constructor; [|done]. apply atom_lang. eauto.
  - intros (w & post & -> & Hw & Hp). inversion Hw as [| | |a b u v Hu Hv| |]; subst.
    apply atom_lang in Hu as (d & -> & Hd). simpl. rewrite Hd. apply IH. exists v, post. done.
Qed.

Lemma matchhere_two c s re2 text : matchhere (c :: s :: re2) text =
  if s =? STAR then matchstar c (matchhere re2) text
  else match text with
       | [] => false
       | d :: text' => if (c =? DOT) || (c =? d) then matchhere (s :: re2) text' else false
       end.
Proof. reflexivity. Qed.
Lemma parse_two c s re2 : parse_here (c :: s :: re2) =
  if s =? STAR then let '(r, e) := parse_here re2 in (Cat (Rep (atom c)) r, e)
  else let '(r, e) := parse_here (s :: re2) in (Cat (atom c) r, e).
Proof. reflexivity. Qed.

Lemma matchhere_spec re text : matchhere re text = true <-> here_spec re text.
Proof.
  revert text. induction re as [re IH] using (induction_ltof1 _ (@length Z)). intros text. unfold ltof in IH.
  destruct re as [|c [|s re2]].
  - split; [|done]. intros _. exists [], text. split; [done|]. split; [constructor|done].
  - unfold here_spec. cbn [matchhere parse_here]. destruct (c =? DOLLAR) eqn:Ec.
    + destruct text as [|d text].
      * split; [|done]. intros _. exists [], []. split; [done|]. split; [constructor|done].
      * split; [done|]. intros (w & post & E & Hw & Hp). inversion Hw; subst. by rewrite Hp in E.
    + apply (here_char c []). intros t. apply IH. simpl. lia.
  - unfold here_spec. rewrite matchhere_two, parse_two. destruct (s =? STAR) eqn:Es.
    + rewrite (matchstar_spec c _ (here_spec re2)) by (intros t; apply IH; simpl; lia). unfold here_spec.
      destruct (parse_here re2) as [r e]. cbn [fst snd]. split.
      * intros (w & rest & -> & Hw & v & post & -> & Hv & Hp). exists (w ++ v), post.
        rewrite app_assoc. split; [done|]. split; [|done]. constructor; [by apply rep_lang|done].
      * intros (w & post & -> & Hw & Hp). inversion Hw as [| | |a b u v Hu Hv| |]; subst. apply rep_lang in Hu.
        exists u, (v ++ post). rewrite app_assoc. split; [done|]. split; [done|]. eauto.
    + pose proof (here_char c (s :: re2) text) as Hc. destruct (parse_here (s :: re2)) as [r e] eqn:E.
      apply Hc. intros t. apply IH. simpl. lia.
Qed.

(** C39: [match] decides the language of its pattern.  It returns for every
    pattern and text, and it returns 1 exactly when a part of the text is a word
    of the regular expression the pattern denotes, at the beginning if the
    pattern starts with a caret and at the end if it ends with a dollar. *)
Theorem match_correct re text : match_ re text = true <-> matches re text.
Proof.
  assert (Hloop : forall re text, match_loop re text = true <-> exists pre t, text = pre ++ t /\ here_spec re t).
  { intros re0 t0. induction t0 as [|d t0 IH]; cbn [match_loop]; rewrite orb_true_iff, matchhere_spec.
    - split; [intros [H|H]; [by exists [], []|done]|]. intros (pre & t & E & H). left.
      symmetry in E. by apply app_eq_nil in E as [-> ->].
    - rewrite IH. split.
      + intros [H|(pre & t & -> & H)]; [by exists [], (d :: t0)|by exists (d :: pre), t].
      + intros (pre & t & E & H). destruct pre as [|d' pre]; [left; simpl in E; by subst|]. right. injection E as -> ->. eauto. }
  assert (Hfree : match_loop re text = true <->
    let '(r, e) := parse_here re in exists pre w post, text = pre ++ w ++ post /\ lang r w /\ (e = true -> post = [])).
  { rewrite Hloop. unfold here_spec. destruct (parse_here re) as [r e]. simpl. naive_solver. }
  unfold match_, matches. destruct re as [|c re]; [|destruct (c =? CARET) eqn:Ec].
  - rewrite Hfree. destruct (parse_here []). naive_solver.
  - rewrite matchhere_spec. unfold here_spec. simpl tail. destruct (parse_here re) as [r e]. simpl. split.
    + intros (w & post & -> & H). exists [], w, post. naive_solver.
    + intros (pre & w & post & -> & Hw & Hpre & Hpost). rewrite Hpre by done. by exists w, post.
  - rewrite Hfree. destruct (parse_here (c :: re)). naive_solver.
Qed.

(** ** The main loop prints the matching lines *)

(** The complete lines of a file, without their newlines, and the rest. *)
Fixpoint split_lines (inp : list Z) : list (list Z) * list Z :=
  match inp with
  | [] => ([], [])
  | c :: inp' =>
      let '(ls, t) := split_lines inp' in
      if c =? LF then ([] :: ls, t)
      else match ls with [] => ([], c :: t) | l :: ls' => ((c :: l) :: ls', t) end
  end.
Definition selected (pattern : list Z) (ls : list (list Z)) : list Z :=
  concat ((fun l => l ++ [LF]) <$> List.filter (match_ pattern) ls).

Lemma split_line l r : LF ∉ l -> split_lines (l ++ LF :: r) = (l :: (split_lines r).1, (split_lines r).2).
Proof.
  induction l as [|c l IH]; intros Hl; simpl.
  - by destruct (split_lines r).
  - rewrite not_elem_of_cons in Hl. rewrite IH by tauto. rewrite (proj2 (Z.eqb_neq c LF)) by naive_solver. done.
Qed.
Lemma split_none l : LF ∉ l -> split_lines l = ([], l).
Proof.
  induction l as [|c l IH]; intros Hl; simpl; [done|]. rewrite not_elem_of_cons in Hl. rewrite IH by tauto.
  by rewrite (proj2 (Z.eqb_neq c LF)) by naive_solver.
Qed.

(** [strchr] finds the first newline of NUL-free bytes. *)
Lemma next_line_spec p : 0 ∉ p ->
  match next_line p with
  | Some (l, r) => p = l ++ LF :: r /\ LF ∉ l
  | None => LF ∉ p
  end.
Proof.
  induction p as [|c p IH]; intros H0; simpl; [set_solver|]. rewrite not_elem_of_cons in H0.
  rewrite (proj2 (Z.eqb_neq c 0)) by naive_solver. destruct (Z.eqb_spec c LF) as [->|Hne].
  - split; [done|set_solver].
  - specialize (IH ltac:(tauto)). destruct (next_line p) as [[l r]|]; simpl.
    + destruct IH as [-> Hl]. split; [done|set_solver].
    + set_solver.
Qed.

Lemma lines_loop_spec fuel pattern p out : 0 ∉ p -> (length p < fuel)%nat ->
  let '(out', rest) := lines_loop fuel pattern p out in
  LF ∉ rest /\ 0 ∉ rest /\ exists ls, out' = out ++ selected pattern ls /\
    forall y, split_lines (p ++ y) = (ls ++ (split_lines (rest ++ y)).1, (split_lines (rest ++ y)).2).
Proof.
  revert p out. induction fuel as [|fuel IH]; intros p out H0 Hf; [lia|]. cbn [lines_loop].
  pose proof (next_line_spec p H0) as Hn. destruct (next_line p) as [[l r]|].
  - destruct Hn as [-> Hl]. rewrite length_app in Hf. simpl in Hf.
    specialize (IH r (if match_ pattern l then out ++ l ++ [LF] else out) ltac:(set_solver) ltac:(lia)).
    destruct (lines_loop fuel pattern r _) as [out' rest]. destruct IH as (H1 & H2 & ls & -> & Hs).
    split; [done|]. split; [done|]. exists (l :: ls). split.
    + unfold selected. simpl. destruct (match_ pattern l); simpl; [|done]. by rewrite !app_assoc.
    + intros y. rewrite <- app_assoc. cbn [app]. rewrite split_line, Hs by done. done.
  - split; [done|]. split; [done|]. exists []. split; [unfold selected; simpl; by rewrite app_nil_r|].
    intros y. by destruct (split_lines (p ++ y)).
Qed.

Lemma split_first_long buf inp : LF ∉ buf -> (split_lines (buf ++ inp)).1 = [] \/
  exists l ls, (split_lines (buf ++ inp)).1 = l :: ls /\ (length buf <= length l)%nat.
Proof.
  induction buf as [|c buf IH]; intros Hb; simpl.
  - destruct (split_lines inp) as [[|l ls] t]; [by left|]. right. exists l, ls. split; [done|lia].
  - rewrite not_elem_of_cons in Hb. destruct (IH ltac:(tauto)) as [H|(l & ls & H & Hl)];
      destruct (split_lines (buf ++ inp)) as [ls0 t]; simpl in H; subst; rewrite (proj2 (Z.eqb_neq c LF)) by naive_solver.
    + by left.
    + right. exists (c :: l), ls. split; [done|]. simpl. lia.
Qed.

Lemma grep_loop_spec fuel pattern ready inp buf out :
  (length inp < fuel)%nat -> LF ∉ buf -> 0 ∉ buf ++ inp ->
  Forall (fun l => (length l < 1023)%nat) (split_lines (buf ++ inp)).1 ->
  grep_loop fuel pattern ready inp buf out = out ++ selected pattern (split_lines (buf ++ inp)).1.
Proof.
  revert inp buf out. induction fuel as [|fuel IH]; intros inp buf out Hf Hlf H0 Hall; [lia|]. cbn [grep_loop].
  unfold read_some. set (n := Z.to_nat (BUFSIZE - Z.of_nat (length buf) - 1)).
  set (m := Nat.min n (Nat.max 1 (ready (length inp)))).
  assert (Hend : (split_lines (buf ++ inp)).1 = [] -> out = out ++ selected pattern (split_lines (buf ++ inp)).1).
  { intros ->. unfold selected. simpl. by rewrite app_nil_r. }
  destruct (take m inp) as [|b bs] eqn:Et.
  - apply Hend. destruct inp as [|c inp]; [rewrite app_nil_r; by rewrite split_none|].
    assert (Hn : n = 0%nat) by (destruct m eqn:Em; [unfold m in Em; lia|done]).
    destruct (split_first_long buf (c :: inp) Hlf) as [H|(l & ls & H & Hl)]; [done|].
    rewrite H in Hall. inversion Hall as [|? ? Hlt]; subst. unfold n, BUFSIZE in Hn. lia.
  - assert (Hpos : (0 < length (b :: bs))%nat) by (simpl; lia). set (y := drop m inp).
    assert (Einp : inp = (b :: bs) ++ y) by (rewrite <- Et; symmetry; apply take_drop).
    clearbody y. revert Einp Hpos. generalize (b :: bs). intros x Einp Hpos.
    pose proof (lines_loop_spec (S (length (buf ++ x))) pattern (buf ++ x) out) as Hlines.
    destruct (lines_loop _ _ _ _) as [out' rest].
    rewrite Einp in H0, Hall, Hf |- *. rewrite app_assoc in H0, Hall |- *.
    destruct Hlines as (H1 & H2 & ls & -> & Hs); [set_solver|lia|]. rewrite Hs in Hall |- *. cbn [fst] in Hall |- *.
    apply Forall_app in Hall as [_ Hall]. rewrite IH; try done.
    + unfold selected. rewrite List.filter_app, fmap_app, concat_app, app_assoc. done.
    + rewrite length_app in Hf. lia.
    + set_solver.
Qed.

(** C40: [grep] prints exactly the complete lines of its input that match the
    pattern, in order, however the input arrives in pieces: for input without
    NUL bytes whose lines fit the buffer. *)
Theorem grep_correct pattern ready inp : 0 ∉ inp -> Forall (fun l => (length l < 1023)%nat) (split_lines inp).1 ->
  grep pattern ready inp = selected pattern (split_lines inp).1.
Proof. intros H0 Hall. unfold grep. rewrite grep_loop_spec; try done; [lia|set_solver]. Qed.

(** Two lines, read one byte at a time; the pattern is [^a.*c$]. *)
Lemma grep_correct_witness :
  grep [CARET; 97; DOT; STAR; 99; DOLLAR] (fun _ => 1%nat) [97; 98; 99; LF; 98; 99; LF; 120] = [97; 98; 99; LF].
Proof.
  rewrite (grep_correct [CARET; 97; DOT; STAR; 99; DOLLAR] (fun _ => 1%nat) [97; 98; 99; LF; 98; 99; LF; 120]).
  - reflexivity.
  - apply (bool_decide_unpack _). vm_compute. exact I.
  - vm_compute. repeat constructor.
Defined.

(** A line longer than the buffer ends the search: the second line matches and
    is not printed. *)
Lemma grep_stops_at_long_line :
  grep [98] (fun _ => 1024%nat) (replicate 1100 97 ++ [LF; 98; LF]) = [] /\
  (split_lines (replicate 1100 97 ++ [LF; 98; LF])).1 = [replicate 1100 97; [98]].
Proof. split; vm_compute; reflexivity. Qed.
