(* ===== verification/Sh.v ===== *)
(** * The shell's parser: user/sh.c

    A pointer into the line is the suffix of the line it points to; [*ps] is the
    state of the parsing functions and [panic] ends them.  In a parsed command
    a pointer is given by the length of its suffix, that is its distance from
    the end of the line. *)

From S2P Require Import Prelude.

(** ["|"], ["("], [")"], [";"], ["&"], ["<"], [">"], ["+"] and ["a"] *)
Definition tBAR : Z := 124.
Definition tLP : Z := 40.
Definition tRP : Z := 41.
Definition tSEMI : Z := 59.
Definition tAMP : Z := 38.
Definition tLT : Z := 60.
Definition tGT : Z := 62.
Definition tPLUS : Z := 43.
Definition tWORD : Z := 97.

Definition MAXARGS : Z := 10.
Definition O_RDONLY : Z := 0x000.
Definition O_WRONLY : Z := 0x001.
Definition O_CREATE : Z := 0x200.
Definition O_TRUNC : Z := 0x400.

(** [" \t\r\n\v"] and ["<|>&;()"] *)
Definition whitespace : list Z := [32; 9; 13; 10; 11].
Definition symbols : list Z := [tLT; tBAR; tGT; tAMP; tSEMI; tLP; tRP].
Definition strchr (s : list Z) (c : Z) : bool := bool_decide (c ∈ s).

(** [struct cmd] and its variants over a type of strings; the parser gives a
    string by the two pointers [q] and [eq]. *)
Inductive cmd_of (A : Type) :=
| EXEC (argv : list A)
| REDIR (c : cmd_of A) (file : A) (mode fd : Z)
| PIPE (left right : cmd_of A)
| LIST (left right : cmd_of A)
| BACK (c : cmd_of A).
Arguments EXEC {A} argv.
Arguments REDIR {A} c file mode fd.
Arguments PIPE {A} left right.
Arguments LIST {A} left right.
Arguments BACK {A} c.
Fixpoint cmd_map {A B} (f : A -> B) (c : cmd_of A) : cmd_of B :=
  match c with
  | EXEC argv => EXEC (f <$> argv)
  | REDIR c file m fd => REDIR (cmd_map f c) (f file) m fd
  | PIPE l r => PIPE (cmd_map f l) (cmd_map f r)
  | LIST l r => LIST (cmd_map f l) (cmd_map f r)
  | BACK c => BACK (cmd_map f c)
  end.
Definition sptr : Type := nat * nat.
Notation cmd := (cmd_of sptr).

Fixpoint skip (p : Z -> bool) (s : list Z) : list Z :=
  match s with c :: s' => if p c then skip p s' else s | [] => [] end.
Definition skip_ws : list Z -> list Z := skip (strchr whitespace).
Definition wordch (c : Z) : bool := negb (strchr whitespace c) && negb (strchr symbols c).

(** The token, [*q] and [*eq]. *)
Definition gettoken : M (list Z) (Z * nat * nat) := fun s0 =>
  let s := skip_ws s0 in
  let q := length s in
  let '(ret, s) :=
    match s with
    | [] => (0, [])
    | c :: s1 =>
        if strchr [tBAR; tLP; tRP; tSEMI; tAMP; tLT] c then (c, s1)
        else if c =? tGT then
          match s1 with
          | c1 :: s2 => if c1 =? tGT then (tPLUS, s2) else (tGT, s1)
          | [] => (tGT, s1)
          end
        else (tWORD, skip wordch s)
    end in
  Done (ret, q, length s) (skip_ws s).

Definition peek (toks : list Z) : M (list Z) bool := fun s0 =>
  let s := skip_ws s0 in
  Done (match s with [] => false | c :: _ => strchr toks c end) s.

(** The redirections [parseredirs] adds around its command, in order. *)
Record redir_of (A : Type) := Redirection { rd_file : A; rd_mode : Z; rd_fd : Z }.
Arguments Redirection {A} rd_file rd_mode rd_fd.
Arguments rd_file {A} r.
Arguments rd_mode {A} r.
Arguments rd_fd {A} r.
Notation redir := (redir_of sptr).
Definition redircmd {A} (c : cmd_of A) (r : redir_of A) : cmd_of A := REDIR c (rd_file r) (rd_mode r) (rd_fd r).
Definition mk_redir {A} (tok : Z) (f : A) : list (redir_of A) :=
  if tok =? tLT then [Redirection f O_RDONLY 0]
  else if tok =? tGT then [Redirection f (Z.lor (Z.lor O_WRONLY O_CREATE) O_TRUNC) 1]
  else if tok =? tPLUS then [Redirection f (Z.lor O_WRONLY O_CREATE) 1]
  else [].
Fixpoint parseredirs_loop (fuel : nat) : M (list Z) (list redir) :=
  match fuel with
  | O => diverge
  | S fuel' =>
      more <-! peek [tLT; tGT] ;;
      if (more : bool) then
        t <-! gettoken ;;
        f <-! gettoken ;;
        panic_if (negb (f.1.1 =? tWORD)) "missing file for redirection" ;;;
        rs <-! parseredirs_loop fuel' ;;
        ret (mk_redir t.1.1 (f.1.2, f.2) ++ rs)
      else ret []
  end.
Definition parseredirs (c : cmd) : M (list Z) cmd := fun s =>
  (rs <-! parseredirs_loop (S (length s)) ;; ret (foldl redircmd c rs)) s.

(** The loop of [parseexec]: the arguments of [cmd], which the redirections
    found so far already enclose, and the redirections still to come. *)
Fixpoint parseexec_loop (fuel : nat) (argv : list sptr) : M (list Z) (list sptr * list redir) :=
  match fuel with
  | O => diverge
  | S fuel' =>
      stop <-! peek [tBAR; tRP; tAMP; tSEMI] ;;
      if (stop : bool) then ret (argv, [])
      else
        t <-! gettoken ;;
        if t.1.1 =? 0 then ret (argv, [])
        else
          panic_if (negb (t.1.1 =? tWORD)) "syntax" ;;;
          let argv := argv ++ [(t.1.2, t.2)] in
          panic_if (MAXARGS <=? Z.of_nat (length argv)) "too many args" ;;;
          rs <-! (fun s => parseredirs_loop (S (length s)) s) ;;
          r <-! parseexec_loop fuel' argv ;;
          ret (r.1, rs ++ r.2)
  end.
(** [while(peek(ps, es, "&"))] *)
Fixpoint parseback (fuel : nat) (c : cmd) : M (list Z) cmd :=
  match fuel with
  | O => diverge
  | S fuel' =>
      amp <-! peek [tAMP] ;;
      if (amp : bool) then gettoken ;;; parseback fuel' (BACK c) else ret c
  end.

Section Parse.
(** [parseline], for the parentheses of [parseblock] *)
Variable parseline_in : M (list Z) cmd.

Definition parseblock : M (list Z) cmd :=
  lp <-! peek [tLP] ;;
  panic_if (negb lp) "parseblock" ;;;
  gettoken ;;;
  c <-! parseline_in ;;
  rp <-! peek [tRP] ;;
  panic_if (negb rp) "syntax - missing )" ;;;
  gettoken ;;;
  parseredirs c.

Definition parseexec : M (list Z) cmd :=
  lp <-! peek [tLP] ;;
  if (lp : bool) then parseblock
  else
    rs <-! (fun s => parseredirs_loop (S (length s)) s) ;;
    r <-! (fun s => parseexec_loop (S (length s)) [] s) ;;
    ret (foldl redircmd (EXEC r.1) (rs ++ r.2)).

Fixpoint parsepipe (fuel : nat) : M (list Z) cmd :=
  match fuel with
  | O => diverge
  | S fuel' =>
      c <-! parseexec ;;
      bar <-! peek [tBAR] ;;
      if (bar : bool) then gettoken ;;; r <-! parsepipe fuel' ;; ret (PIPE c r) else ret c
  end.
End Parse.

Fixpoint parseline (fuel : nat) : M (list Z) cmd :=
  match fuel with
  | O => diverge
  | S fuel' =>
      c <-! (fun s => parsepipe (parseline fuel') (S (length s)) s) ;;
      c <-! (fun s => parseback (S (length s)) c s) ;;
      semi <-! peek [tSEMI] ;;
      if (semi : bool) then gettoken ;;; r <-! parseline fuel' ;; ret (LIST c r) else ret c
  end.

(** [*p = 0] in a line of [n] characters, the terminating NUL included *)
Definition put_nul (n : nat) (p : nat) (line : list Z) : list Z := <[(n - p)%nat := 0]> line.
Fixpoint nulterminate (n : nat) (c : cmd) (line : list Z) : list Z :=
  match c with
  | EXEC argv => foldl (fun l a => put_nul n a.2 l) line argv
  | REDIR c file _ _ => put_nul n file.2 (nulterminate n c line)
  | PIPE l r | LIST l r => nulterminate n r (nulterminate n l line)
  | BACK c => nulterminate n c line
  end.

(** The parsed command and the line afterwards.  [line] is the C string without
    its NUL; every nested call of [parseline] is after a [";"] or a ["("]. *)
Definition parsecmd (line : list Z) : outcome (list Z) (cmd * list Z) :=
  (c <-! parseline (S (length line)) ;;
   peek [] ;;;
   s <-! gets (fun s => s) ;;
   panic_if (negb (bool_decide (s = []))) "syntax" ;;;
   ret (c, nulterminate (length line) c (line ++ [0]))) line.
