(* ===== verification/ShSpec.v ===== *)
(** * The shell's parser terminates and inverts printing *)

From S2P Require Import Prelude Sh.

(** ** Termination *)

(** A run from [s] that returns has not moved back; it does not diverge. *)
Definition parses {A} (o : outcome (list Z) A) (s : list Z) : Prop :=
  match o with
  | Done _ s' => (length s' <= length s)%nat
  | Panic _ => True
  | _ => False
  end.

Lemma skip_length p s : (length (skip p s) <= length s)%nat.
Proof. induction s as [|c s IH]; simpl; [lia|]. destruct (p c); simpl; lia. Qed.
Lemma skip_head p s c s' : skip p s = c :: s' -> p c = false.
Proof. induction s as [|d s IH]; simpl; [done|]. destruct (p d) eqn:E; [done|]. by intros [= -> ->]. Qed.
Lemma skip_skip p s : skip p (skip p s) = skip p s.
Proof. induction s as [|c s IH]; simpl; [done|]. destruct (p c) eqn:E; [done|]. simpl. by rewrite E. Qed.

Lemma strchr_in s c : strchr s c = true <-> c ∈ s.
Proof. apply bool_decide_eq_true. Qed.
Lemma strchr_out s c : strchr s c = false <-> c ∉ s.
Proof. apply bool_decide_eq_false. Qed.

Lemma peek_eq toks s :
  peek toks s = Done (match skip_ws s with [] => false | c :: _ => strchr toks c end) (skip_ws s).
Proof. done. Qed.
Lemma peek_true toks s : (match skip_ws s with [] => false | c :: _ => strchr toks c end) = true ->
  exists c s', skip_ws s = c :: s' /\ c ∈ toks.
Proof. destruct (skip_ws s) as [|c s']; [done|]. intros H%strchr_in. eauto. Qed.

(** A token other than the end takes at least a character. *)
Lemma gettoken_spec s : exists t q e s', gettoken s = Done (t, q, e) s' /\ (length s' <= length s)%nat /\
  (skip_ws s <> [] -> (length s' < length s)%nat) /\ (t <> 0 -> skip_ws s <> []).
Proof.
  unfold gettoken. pose proof (skip_length (strchr whitespace) s) as Hs. fold (skip_ws s) in Hs.
  assert (Hws : forall l, (length (skip_ws l) <= length l)%nat) by (intros; apply skip_length).
  destruct (skip_ws s) as [|c s1] eqn:Es.
  { eexists _, _, _, _. split; [reflexivity|]. split; [simpl; lia|]. split; done. }
  simpl in Hs. destruct (strchr _ c) eqn:E1.
  { eexists _, _, _, _. split; [reflexivity|]. pose proof (Hws s1). split; [lia|]. split; [lia|done]. }
  destruct (c =? tGT) eqn:E2.
  { destruct s1 as [|c1 s2]; [|destruct (c1 =? tGT)]; eexists _, _, _, _; (split; [reflexivity|]).
    - pose proof (Hws []). simpl in *. split; [lia|]. split; [lia|done].
    - pose proof (Hws s2). simpl in *. split; [lia|]. split; [lia|done].
    - pose proof (Hws (c1 :: s2)). simpl in *. split; [lia|]. split; [lia|done]. }
  assert (Hw : wordch c = true).
  { unfold wordch. rewrite (skip_head _ _ _ _ Es). simpl. apply negb_true_iff, strchr_out.
    apply strchr_out in E1. apply Z.eqb_neq in E2. unfold symbols. set_solver. }
  eexists _, _, _, _. split; [reflexivity|]. simpl. rewrite Hw.
  pose proof (Hws (skip wordch s1)). pose proof (skip_length wordch s1). split; [lia|]. split; [lia|done].
Qed.

Lemma parses_le {A} (o : outcome (list Z) A) s s' : parses o s -> (length s <= length s')%nat -> parses o s'.
Proof. destruct o; simpl; auto. lia. Qed.
Lemma parses_bind {A B} (m : M (list Z) A) (k : A -> M (list Z) B) s :
  parses (m s) s -> (forall a s', m s = Done a s' -> (length s' <= length s)%nat -> parses (k a s') s') -> parses (bind m k s) s.
Proof.
  unfold bind. intros Hm Hk. destruct (m s) as [a s'| | | |] eqn:E; try done. simpl in Hm.
  eapply parses_le; [by eapply Hk|done].
Qed.
Lemma parses_panic_if (b : bool) msg s : parses (panic_if (S := list Z) b msg s) s.
Proof. destruct b; simpl; [done|lia]. Qed.
Lemma parses_ret {A} (a : A) s : parses (ret a s) s.
Proof. simpl. lia. Qed.
Create HintDb parses.
#[local] Hint Resolve parses_panic_if parses_ret : parses.
Lemma parses_gettoken s : parses (gettoken s) s.
Proof. destruct (gettoken_spec s) as (t & q & e & s' & -> & H & _). done. Qed.
Lemma parses_peek toks s : parses (peek toks s) s.
Proof. rewrite peek_eq. apply skip_length. Qed.
#[local] Hint Resolve parses_gettoken parses_peek : parses.

(** After a successful [peek] the next token takes a character. *)
Lemma peek_gettoken toks s t s1 s2 : peek toks s = Done true s1 -> gettoken s1 = Done t s2 -> (length s2 < length s)%nat.
Proof.
  rewrite peek_eq. intros [= H <-] Ht. destruct (peek_true _ _ H) as (c & s' & E & _).
  pose proof (skip_length (strchr whitespace) s) as Hs. fold (skip_ws s) in Hs.
  destruct (gettoken_spec (skip_ws s)) as (t' & q & e & s3 & Hg & _ & Hlt & _). rewrite Hg in Ht. injection Ht as _ <-.
  assert (Hne : skip_ws (skip_ws s) <> []) by (unfold skip_ws; rewrite skip_skip; fold (skip_ws s); by rewrite E).
  specialize (Hlt Hne). lia.
Qed.

Lemma parses_redirs fuel s : (length s < fuel)%nat -> parses (parseredirs_loop fuel s) s.
Proof.
  revert s. induction fuel as [|fuel IH]; intros s Hf; [lia|]. cbn [parseredirs_loop].
  apply parses_bind; [auto with parses|]. intros more s1 H1 L1. destruct more; [|auto with parses].
  apply parses_bind; [auto with parses|]. intros t s2 H2 L2. pose proof (peek_gettoken _ _ _ _ _ H1 H2) as Hlt.
  apply parses_bind; [auto with parses|]. intros f s3 _ L3. apply parses_bind; [auto with parses|]. intros _ s4 _ L4.
  apply parses_bind; [|intros; auto with parses]. apply IH. lia.
Qed.

Lemma parses_args fuel argv s : (length s < fuel)%nat -> parses (parseexec_loop fuel argv s) s.
Proof.
  revert argv s. induction fuel as [|fuel IH]; intros argv s Hf; [lia|]. cbn [parseexec_loop].
  apply parses_bind; [auto with parses|]. intros stop s1 H1 L1. destruct stop; [auto with parses|].
  apply parses_bind; [auto with parses|]. intros t s2 H2 L2. destruct (Z.eqb_spec t.1.1 0) as [Ht|Ht]; [auto with parses|].
  assert (Hlt : (length s2 < length s1)%nat).
  { destruct (gettoken_spec s1) as (t' & q & e & s' & Hg & _ & Hl & Hn). rewrite Hg in H2. injection H2 as <- <-.
    by apply Hl, Hn. }
  apply parses_bind; [auto with parses|]. intros _ s3 _ L3. cbv zeta. apply parses_bind; [auto with parses|]. intros _ s4 _ L4.
  apply parses_bind; [apply parses_redirs; lia|]. intros rs s5 _ L5.
  apply parses_bind; [|intros; auto with parses]. apply IH. lia.
Qed.

Lemma parses_back fuel c s : (length s < fuel)%nat -> parses (parseback fuel c s) s.
Proof.
  revert c s. induction fuel as [|fuel IH]; intros c s Hf; [lia|]. cbn [parseback].
  apply parses_bind; [auto with parses|]. intros amp s1 H1 L1. destruct amp; [|auto with parses].
  apply parses_bind; [auto with parses|]. intros t s2 H2 L2. pose proof (peek_gettoken _ _ _ _ _ H1 H2). apply IH. lia.
Qed.

Section Termination.
(** [parseline_in] parses what is shorter than [n]. *)
Context (pl : M (list Z) cmd) (n : nat) (Hpl : forall s, (length s < n)%nat -> parses (pl s) s).

Lemma parses_exec s : (length s <= n)%nat -> parses (parseexec pl s) s.
Proof.
  intros Hn. unfold parseexec. apply parses_bind; [auto with parses|]. intros lp s1 H1 L1. destruct lp.
  - unfold parseblock. apply parses_bind; [auto with parses|]. intros lp s2 H2 L2.
    apply parses_bind; [auto with parses|]. intros u s3 H3 L3.
    assert (lp = true /\ s3 = s2) as [-> ->].
    { rewrite peek_eq in H1, H2. injection H1 as H1 <-. injection H2 as H2 <-. unfold skip_ws in H2. rewrite skip_skip in H2.
      fold (skip_ws s) in H2. rewrite H1 in H2. subst. by injection H3 as <-. }
    apply parses_bind; [auto with parses|]. intros t s4 H4 L4. pose proof (peek_gettoken _ _ _ _ _ H2 H4) as Hlt.
    apply parses_bind; [apply Hpl; lia|]. intros c s5 _ L5. apply parses_bind; [auto with parses|]. intros rp s6 _ L6.
    apply parses_bind; [auto with parses|]. intros _ s7 _ L7. apply parses_bind; [auto with parses|]. intros t2 s8 _ L8.
    unfold parseredirs. apply parses_bind; [apply parses_redirs; lia|]. intros; auto with parses.
  - apply parses_bind; [apply parses_redirs; lia|]. intros rs s2 _ L2.
    apply parses_bind; [apply parses_args; lia|]. intros; auto with parses.
Qed.

Lemma parses_pipe fuel s : (length s <= n)%nat -> (length s < fuel)%nat -> parses (parsepipe pl fuel s) s.
Proof.
  revert s. induction fuel as [|fuel IH]; intros s Hn Hf; [lia|]. cbn [parsepipe].
  apply parses_bind; [by apply parses_exec|]. intros c s1 _ L1. apply parses_bind; [auto with parses|]. intros bar s2 H2 L2.
  destruct bar; [|auto with parses]. apply parses_bind; [auto with parses|]. intros t s3 H3 L3.
  pose proof (peek_gettoken _ _ _ _ _ H2 H3). apply parses_bind; [apply IH; lia|]. intros; auto with parses.
Qed.
End Termination.

Lemma parses_line fuel s : (length s < fuel)%nat -> parses (parseline fuel s) s.
Proof.
  revert s. induction fuel as [|fuel IH]; intros s Hf; [lia|]. cbn [parseline].
  apply parses_bind; [apply (parses_pipe _ fuel); [done|lia|lia]|]. intros c s1 _ L1.
  apply parses_bind; [apply parses_back; lia|]. intros c' s2 _ L2. apply parses_bind; [auto with parses|]. intros semi s3 H3 L3.
  destruct semi; [|auto with parses]. apply parses_bind; [auto with parses|]. intros t s4 H4 L4.
  pose proof (peek_gettoken _ _ _ _ _ H3 H4). apply parses_bind; [apply IH; lia|]. intros; auto with parses.
Qed.

(** C34: the shell's parser terminates on every line: it returns a command,
    having read the whole line, or reports a syntax error. *)
Theorem parsecmd_terminates line :
  (exists c line', parsecmd line = Done (c, line') []) \/ (exists msg, parsecmd line = Panic msg).
Proof.
  unfold parsecmd, bind. pose proof (parses_line (S (length line)) line ltac:(lia)) as H.
  destruct (parseline _ line) as [c s|msg| | |]; try done; [|right; eexists; reflexivity]. rewrite peek_eq. unfold gets.
  destruct (skip_ws s) as [|x s'] eqn:E; [left|right].
  - rewrite bool_decide_true by done. simpl. eauto.
  - rewrite bool_decide_false by done. simpl. eauto.
Qed.

(** ** Syntax trees, their text and their meaning *)

(** A redirection: the token and the file name. *)
Notation sredir := (Z * list Z)%type.
Inductive sline := SLast (p : spipe) (backs : nat) | SSeq (p : spipe) (backs : nat) (l : sline)
with spipe := SOne (e : sexec) | SBar (e : sexec) (p : spipe)
with sexec := SSimple (rs : list sredir) (args : list (list Z * list sredir)) | SBlock (l : sline) (rs : list sredir).
Scheme sline_mut := Induction for sline Sort Prop
with spipe_mut := Induction for spipe Sort Prop
with sexec_mut := Induction for sexec Sort Prop.
Combined Scheme syntax_mut from sline_mut, spipe_mut, sexec_mut.

Definition sp (c : Z) : list Z := [32; c].
Definition redir_sym (t : Z) : list Z := if t =? tLT then [tLT] else if t =? tGT then [tGT] else [tGT; tGT].
Definition pr_redir (r : sredir) : list Z := 32 :: redir_sym r.1 ++ 32 :: r.2.
Definition pr_redirs (rs : list sredir) : list Z := concat (pr_redir <$> rs).
Definition pr_arg (a : list Z * list sredir) : list Z := 32 :: a.1 ++ pr_redirs a.2.
Definition pr_backs (n : nat) : list Z := concat (replicate n (sp tAMP)).
Fixpoint pr_line (l : sline) : list Z :=
  match l with
  | SLast p n => pr_pipe p ++ pr_backs n
  | SSeq p n l => pr_pipe p ++ pr_backs n ++ sp tSEMI ++ pr_line l
  end
with pr_pipe (p : spipe) : list Z :=
  match p with
  | SOne e => pr_exec e
  | SBar e p => pr_exec e ++ sp tBAR ++ pr_pipe p
  end
with pr_exec (e : sexec) : list Z :=
  match e with
  | SSimple rs args => pr_redirs rs ++ concat (pr_arg <$> args)
  | SBlock l rs => sp tLP ++ pr_line l ++ sp tRP ++ pr_redirs rs
  end.

Definition word (w : list Z) : Prop := w <> [] /\ Forall (fun c => wordch c = true /\ c <> 0) w.
Definition wf_redir (r : sredir) : Prop := (r.1 = tLT \/ r.1 = tGT \/ r.1 = tPLUS) /\ word r.2.
Definition wf_args (args : list (list Z * list sredir)) : Prop :=
  Forall (fun a => word a.1 /\ Forall wf_redir a.2) args /\ Z.of_nat (length args) < MAXARGS.
Fixpoint wf_line (l : sline) : Prop :=
  match l with SLast p _ => wf_pipe p | SSeq p _ l => wf_pipe p /\ wf_line l end
with wf_pipe (p : spipe) : Prop :=
  match p with SOne e => wf_exec e | SBar e p => wf_exec e /\ wf_pipe p end
with wf_exec (e : sexec) : Prop :=
  match e with
  | SSimple rs args => Forall wf_redir rs /\ wf_args args
  | SBlock l rs => wf_line l /\ Forall wf_redir rs
  end.

Definition d_redirs (rs : list sredir) : list (redir_of (list Z)) := concat ((fun r => mk_redir r.1 r.2) <$> rs).
Fixpoint d_line (l : sline) : cmd_of (list Z) :=
  match l with
  | SLast p n => Nat.iter n BACK (d_pipe p)
  | SSeq p n l => LIST (Nat.iter n BACK (d_pipe p)) (d_line l)
  end
with d_pipe (p : spipe) : cmd_of (list Z) :=
  match p with
  | SOne e => d_exec e
  | SBar e p => PIPE (d_exec e) (d_pipe p)
  end
with d_exec (e : sexec) : cmd_of (list Z) :=
  match e with
  | SSimple rs args => foldl redircmd (EXEC (fst <$> args)) (d_redirs rs ++ concat ((fun a => d_redirs a.2) <$> args))
  | SBlock l rs => foldl redircmd (d_line l) (d_redirs rs)
  end.

(** ** Tokens in a text *)

Lemma skip_ws_sp x : skip_ws (32 :: x) = skip_ws x.
Proof. reflexivity. Qed.
Lemma skip_ws_idem x : skip_ws (skip_ws x) = skip_ws x.
Proof. apply skip_skip. Qed.
Lemma skip_ws_non c x : c ∉ whitespace -> skip_ws (c :: x) = c :: x.
Proof. intros H. unfold skip_ws. simpl. by rewrite (proj2 (strchr_out _ _) H). Qed.
Lemma wordch_iff c : wordch c = true <-> c ∉ whitespace /\ c ∉ symbols.
Proof. unfold wordch. by rewrite andb_true_iff, !negb_true_iff, !strchr_out. Qed.
Lemma skip_ws_word w rest : word w -> skip_ws (w ++ rest) = w ++ rest.
Proof.
  intros [Hne Hw]. destruct w as [|c w]; [done|]. inversion Hw as [|? ? [Hc _]]; subst. simpl.
  apply skip_ws_non. by apply wordch_iff in Hc as [? _].
Qed.

(** What follows a word: nothing, or a blank. *)
Definition blank (k : list Z) : Prop := k = [] \/ exists k', k = 32 :: k'.
Lemma blank_app a b : blank a -> blank b -> blank (a ++ b).
Proof. intros [->|[a' ->]] Hb; [done|right]. by exists (a' ++ b). Qed.
Lemma blank_concat ls : Forall blank ls -> blank (concat ls).
Proof. induction 1; [by left|]. by apply blank_app. Qed.
Lemma blank_redirs rs : blank (pr_redirs rs).
Proof. apply blank_concat, Forall_fmap, Forall_forall. intros r _. right. by eexists. Qed.
Lemma blank_args args : blank (concat (pr_arg <$> args)).
Proof. apply blank_concat, Forall_fmap, Forall_forall. intros r _. right. by eexists. Qed.
Lemma blank_sp c x : blank (sp c ++ x).
Proof. right. by eexists. Qed.

(** The next character that is not a blank, if any, is in [toks]. *)
Definition next_in (toks k : list Z) : Prop := match skip_ws k with [] => True | c :: _ => c ∈ toks end.
Lemma next_in_peek toks toks' s k : skip_ws s = skip_ws k -> next_in toks k -> (forall c, c ∈ toks -> c ∉ toks') ->
  peek toks' s = Done false (skip_ws k).
Proof.
  intros E Hn Hd. rewrite peek_eq, E. unfold next_in in Hn. destruct (skip_ws k) as [|c k']; [done|].
  by rewrite (proj2 (strchr_out _ _) (Hd _ Hn)).
Qed.
Lemma next_in_mono toks toks' k : next_in toks k -> (forall c, c ∈ toks -> c ∈ toks') -> next_in toks' k.
Proof. unfold next_in. destruct (skip_ws k); auto. Qed.
Lemma next_sp c toks x : c ∉ whitespace -> c ∈ toks -> next_in toks (sp c ++ x).
Proof. intros Hc Hin. unfold next_in, sp. simpl. by rewrite skip_ws_sp, skip_ws_non. Qed.

Definition at_word (line : list Z) (p : sptr) (w : list Z) : Prop :=
  exists pre rest, line = pre ++ w ++ rest /\ p = (length (w ++ rest), length rest) /\ word w /\ blank rest.

Lemma skip_word w rest : word w -> blank rest -> skip wordch (w ++ rest) = rest.
Proof.
  intros [_ Hw] Hb. induction Hw as [|c w [Hc _] _ IH]; simpl.
  - destruct Hb as [->|[k ->]]; done.
  - by rewrite Hc.
Qed.
Lemma gettoken_word line s w rest : skip_ws s = w ++ rest -> w ++ rest `suffix_of` line -> word w -> blank rest ->
  exists p, gettoken s = Done (tWORD, p.1, p.2) (skip_ws rest) /\ at_word line p w.
Proof.
  intros E [pre Hl] Hw Hb. exists (length (w ++ rest), length rest). split; [|by exists pre, rest].
  unfold gettoken. rewrite E. pose proof Hw as [Hne Hall]. destruct w as [|c w]; [done|].
  inversion Hall as [|? ? [Hc _]]; subst. apply wordch_iff in Hc as [_ Hs]. cbn [app].
  assert (strchr [tBAR; tLP; tRP; tSEMI; tAMP; tLT] c = false) as -> by (apply strchr_out; unfold symbols in Hs; set_solver).
  rewrite (proj2 (Z.eqb_neq c tGT)) by (unfold symbols in Hs; set_solver).
  change (c :: w ++ rest) with ((c :: w) ++ rest). by rewrite skip_word.
Qed.
Lemma gettoken_sym c s x : skip_ws s = c :: x -> c ∈ [tBAR; tLP; tRP; tSEMI; tAMP; tLT] ->
  exists q e, gettoken s = Done (c, q, e) (skip_ws x).
Proof. intros E Hc. unfold gettoken. rewrite E, (proj2 (strchr_in _ _) Hc). eauto. Qed.
Lemma gettoken_redir t s x : skip_ws s = redir_sym t ++ 32 :: x -> t = tLT \/ t = tGT \/ t = tPLUS ->
  exists q e, gettoken s = Done (t, q, e) (skip_ws x).
Proof. intros E [-> |[-> | ->]]; unfold gettoken; rewrite E; simpl; eauto. Qed.

(** ** Parsing the text of a tree *)

(** A command whose strings are the given words of [line]. *)
Inductive cmd_rel (line : list Z) : cmd -> cmd_of (list Z) -> Prop :=
| cr_exec argv ws : Forall2 (at_word line) argv ws -> cmd_rel line (EXEC argv) (EXEC ws)
| cr_redir c d p w m f : cmd_rel line c d -> at_word line p w -> cmd_rel line (REDIR c p m f) (REDIR d w m f)
| cr_pipe c d c' d' : cmd_rel line c d -> cmd_rel line c' d' -> cmd_rel line (PIPE c c') (PIPE d d')
| cr_list c d c' d' : cmd_rel line c d -> cmd_rel line c' d' -> cmd_rel line (LIST c c') (LIST d d')
| cr_back c d : cmd_rel line c d -> cmd_rel line (BACK c) (BACK d).
Definition redir_rel (line : list Z) (r : redir) (r' : redir_of (list Z)) : Prop :=
  at_word line (rd_file r) (rd_file r') /\ rd_mode r = rd_mode r' /\ rd_fd r = rd_fd r'.

Lemma redirs_rel line c d rs rs' : cmd_rel line c d -> Forall2 (redir_rel line) rs rs' ->
  cmd_rel line (foldl redircmd c rs) (foldl redircmd d rs').
Proof.
  intros Hc H. revert c d Hc. induction H as [|r r' rs rs' (H1 & H2 & H3) _ IH]; intros c d Hc; [done|].
  simpl. apply IH. unfold redircmd. rewrite H2, H3. by constructor.
Qed.
Lemma mk_redir_rel line t p w : t = tLT \/ t = tGT \/ t = tPLUS -> at_word line p w ->
  Forall2 (redir_rel line) (mk_redir t p) (mk_redir t w).
Proof. intros [-> |[-> | ->]] H; simpl; (constructor; [by repeat split|constructor]). Qed.

Lemma suffix_drop_sp (c : Z) (x line : list Z) : c :: x `suffix_of` line -> x `suffix_of` line.
Proof. intros [pre ->]. exists (pre ++ [c]). by rewrite <- app_assoc. Qed.
Lemma suffix_drop_app (a x line : list Z) : a ++ x `suffix_of` line -> x `suffix_of` line.
Proof. intros [pre ->]. exists (pre ++ a). by rewrite app_assoc. Qed.

Lemma redir_head t x : t = tLT \/ t = tGT \/ t = tPLUS -> skip_ws (redir_sym t ++ x) = redir_sym t ++ x /\
  exists c y, redir_sym t ++ x = c :: y /\ c ∈ [tLT; tGT].
Proof. intros [-> |[-> | ->]]; (split; [done|]); eexists _, _; (split; [reflexivity|]); set_solver. Qed.

Lemma parse_redirs line rs fuel s k : Forall wf_redir rs -> skip_ws s = skip_ws (pr_redirs rs ++ k) ->
  pr_redirs rs ++ k `suffix_of` line -> blank k -> peek [tLT; tGT] k = Done false (skip_ws k) -> (length s < fuel)%nat ->
  exists rs', parseredirs_loop fuel s = Done rs' (skip_ws k) /\ Forall2 (redir_rel line) rs' (d_redirs rs).
Proof.
  intros Hwf. revert fuel s. induction Hwf as [|[t w] rs [Ht Hw] _ IH]; intros fuel s E Hsuf Hb Hk Hf.
  - destruct fuel as [|fuel]; [lia|]. cbn [parseredirs_loop]. simpl in E. rewrite peek_eq in Hk. injection Hk as Hk.
    rewrite (bind_Done (peek _) _ s false (skip_ws k)) by (by rewrite peek_eq, E, Hk). exists []. split; [done|constructor].
  - destruct fuel as [|fuel]; [lia|]. cbn [parseredirs_loop]. simpl in Ht, Hw.
    set (rest := pr_redirs rs ++ k). assert (Etxt : pr_redirs ((t, w) :: rs) ++ k = 32 :: redir_sym t ++ 32 :: w ++ rest).
    { unfold rest, pr_redirs. simpl. unfold pr_redir. simpl. by rewrite <- !app_assoc. }
    rewrite Etxt in E, Hsuf. rewrite skip_ws_sp in E. destruct (redir_head t (32 :: w ++ rest) Ht) as [Hsk (c & y & Hy & Hc)].
    rewrite Hsk in E.
    assert (Hpk : peek [tLT; tGT] s = Done true (redir_sym t ++ 32 :: w ++ rest)).
    { rewrite peek_eq, E, Hy. by rewrite (proj2 (strchr_in _ _) Hc). }
    rewrite (bind_Done _ _ _ _ _ Hpk).
    destruct (gettoken_redir t (redir_sym t ++ 32 :: w ++ rest) (w ++ rest) Hsk Ht) as (q & e & Hg).
    rewrite (bind_Done _ _ _ _ _ Hg). rewrite (skip_ws_word w rest Hw).
    apply suffix_drop_sp, suffix_drop_app, suffix_drop_sp in Hsuf.
    assert (Hbr : blank rest) by (apply blank_app; [apply blank_redirs|done]).
    destruct (gettoken_word line (w ++ rest) w rest (skip_ws_word w rest Hw) Hsuf Hw Hbr) as (p & Hg2 & Hp).
    rewrite (bind_Done _ _ _ _ _ Hg2). cbn [fst snd]. rewrite (bind_Done (panic_if (negb (tWORD =? tWORD)) _) _ _ tt _ eq_refl).
    destruct (IH fuel (skip_ws rest)) as (rs' & Hrun & Hrel); try done.
    + by rewrite skip_ws_idem.
    + by apply suffix_drop_app in Hsuf.
    + pose proof (peek_gettoken _ _ _ _ _ Hpk Hg) as H1. pose proof (parses_gettoken (w ++ rest)) as H2.
      rewrite Hg2 in H2. simpl in H2. rewrite (skip_ws_word w rest Hw) in H1. lia.
    + rewrite (bind_Done _ _ _ _ _ Hrun). eexists. split; [reflexivity|]. unfold d_redirs. simpl.
      apply Forall2_app; [|done]. destruct p. by apply mk_redir_rel.
Qed.

(** Neither an argument nor what follows the arguments is a redirection or a
    parenthesis. *)
Lemma args_next args k toks : Forall (fun a => word a.1 /\ Forall wf_redir a.2) args ->
  next_in [tBAR; tRP; tAMP; tSEMI] k -> (forall c, c ∈ toks -> c ∈ [tLT; tGT; tLP]) ->
  peek toks (concat (pr_arg <$> args) ++ k) = Done false (skip_ws (concat (pr_arg <$> args) ++ k)).
Proof.
  intros Hwf Hk Ht. destruct Hwf as [|[w rs] args [[Hne Hall] _] _].
  - eapply next_in_peek; [done|exact Hk|]. intros c Hc Hc'. apply Ht in Hc'. unfold tBAR, tRP, tAMP, tSEMI, tLT, tGT, tLP in *. set_solver.
  - rewrite peek_eq. simpl in Hne, Hall. destruct w as [|c w]; [done|]. inversion Hall as [|? ? [Hc _]]; subst.
    apply wordch_iff in Hc as [Hc1 Hc2].
    assert (E : skip_ws (concat (pr_arg <$> (c :: w, rs) :: args) ++ k) =
      c :: w ++ pr_redirs rs ++ concat (pr_arg <$> args) ++ k).
    { rewrite fmap_cons. cbn [concat]. unfold pr_arg at 1. simpl. rewrite <- !app_assoc, skip_ws_sp. by rewrite skip_ws_non. }
    rewrite E, (proj2 (strchr_out _ _)); [done|]. intros Hc%Ht. unfold symbols in Hc2. set_solver.
Qed.

Lemma parse_args line args argv fuel s k :
  Forall (fun a => word a.1 /\ Forall wf_redir a.2) args -> Z.of_nat (length argv + length args) < MAXARGS ->
  skip_ws s = skip_ws (concat (pr_arg <$> args) ++ k) -> concat (pr_arg <$> args) ++ k `suffix_of` line -> blank k ->
  next_in [tBAR; tRP; tAMP; tSEMI] k -> (length s < fuel)%nat ->
  exists argv' rs', parseexec_loop fuel argv s = Done (argv ++ argv', rs') (skip_ws k) /\
    Forall2 (at_word line) argv' (fst <$> args) /\
    Forall2 (redir_rel line) rs' (concat ((fun a => d_redirs a.2) <$> args)).
Proof.
  intros Hwf. revert argv fuel s. induction Hwf as [|[w rs] args [Hw Hrs] Hwf IH]; intros argv fuel s Hlen E Hsuf Hb Hk Hf;
    (destruct fuel as [|fuel]; [lia|]); cbn [parseexec_loop].
  - exists [], []. rewrite app_nil_r. split; [|by split; constructor]. simpl in E. unfold bind at 1. rewrite peek_eq, E.
    unfold next_in in Hk. destruct (skip_ws k) as [|c k'] eqn:Ek; [done|]. by rewrite (proj2 (strchr_in _ _) Hk).
  - simpl in Hw, Hrs. set (rest := pr_redirs rs ++ concat (pr_arg <$> args) ++ k).
    assert (Etxt : concat (pr_arg <$> (w, rs) :: args) ++ k = 32 :: w ++ rest).
    { unfold rest. rewrite fmap_cons. cbn [concat]. unfold pr_arg at 1. simpl. by rewrite <- !app_assoc. }
    rewrite Etxt in E, Hsuf. rewrite skip_ws_sp, (skip_ws_word w rest Hw) in E. apply suffix_drop_sp in Hsuf.
    assert (Hbr : blank rest) by (apply blank_app; [apply blank_redirs|apply blank_app; [apply blank_args|done]]).
    assert (Hpk : peek [tBAR; tRP; tAMP; tSEMI] s = Done false (w ++ rest)).
    { rewrite peek_eq, E. destruct Hw as [Hne Hall]. destruct w as [|c w]; [done|]. inversion Hall as [|? ? [Hc _]]; subst.
      apply wordch_iff in Hc as [_ Hc]. simpl. rewrite (proj2 (strchr_out _ _)); [done|]. unfold symbols in Hc. set_solver. }
    rewrite (bind_Done _ _ _ _ _ Hpk).
    destruct (gettoken_word line (w ++ rest) w rest (skip_ws_word w rest Hw) Hsuf Hw Hbr) as (p & Hg & Hp).
    rewrite (bind_Done _ _ _ _ _ Hg). cbn [fst snd]. change (tWORD =? 0) with false. cbv iota.
    rewrite (bind_Done (panic_if (negb (tWORD =? tWORD)) _) _ _ tt _ eq_refl). cbv zeta.
    rewrite (proj2 (Z.leb_gt _ _)) by (rewrite length_app; simpl in *; lia).
    rewrite (bind_Done (panic_if false _) _ _ tt _ eq_refl).
    pose proof (args_next args k [tLT; tGT] Hwf Hk ltac:(set_solver)) as Hnr.
    pose proof (suffix_drop_app _ _ _ Hsuf) as Hsuf2.
    destruct (parse_redirs line rs (S (length (skip_ws rest))) (skip_ws rest) (concat (pr_arg <$> args) ++ k))
      as (rs1 & Hrun1 & Hrel1); try done.
    { by rewrite skip_ws_idem. }
    { apply blank_app; [apply blank_args|done]. }
    { lia. }
    assert (Hlt : (length (skip_ws rest) < length s)%nat).
    { pose proof (gettoken_spec (w ++ rest)) as (t' & q' & e' & s' & Hg' & _ & Hl & _). rewrite Hg in Hg'. injection Hg' as _ _ _ <-.
      pose proof (skip_length (strchr whitespace) s) as Hs. fold (skip_ws s) in Hs. rewrite E in Hs.
      rewrite (skip_ws_word w rest Hw) in Hl. destruct Hw as [Hne _]. assert (w ++ rest <> []) by (by destruct w). specialize (Hl H). lia. }
    erewrite (bind_Done (fun s => parseredirs_loop (S (length s)) s)); [|exact Hrun1].
    destruct (IH (argv ++ [p]) fuel (skip_ws (concat (pr_arg <$> args) ++ k))) as (argv' & rs' & Hrun & Ha & Hr); try done.
    { rewrite length_app. simpl in *. lia. }
    { by rewrite skip_ws_idem. }
    { by apply suffix_drop_app in Hsuf2. }
    { pose proof (parses_redirs (S (length (skip_ws rest))) (skip_ws rest) ltac:(lia)) as Hp1. rewrite Hrun1 in Hp1. simpl in Hp1. lia. }
    destruct p as [p1 p2]. cbn [fst snd]. rewrite (bind_Done _ _ _ _ _ Hrun). exists ((p1, p2) :: argv'), (rs1 ++ rs'). cbn [fst snd].
    rewrite <- app_assoc. split; [done|]. split; [by constructor|]. by apply Forall2_app.
Qed.

(** [n] ampersands *)
Lemma parse_backs line n c d fuel s k : cmd_rel line c d -> skip_ws s = skip_ws (pr_backs n ++ k) ->
  peek [tAMP] k = Done false (skip_ws k) -> (length s < fuel)%nat ->
  exists c', parseback fuel c s = Done c' (skip_ws k) /\ cmd_rel line c' (Nat.iter n BACK d).
Proof.
  revert c d fuel s. induction n as [|n IH]; intros c d fuel s Hc E Hk Hf; (destruct fuel as [|fuel]; [lia|]); cbn [parseback].
  - simpl in E. rewrite peek_eq in Hk. injection Hk as Hk.
    rewrite (bind_Done (peek _) _ s false (skip_ws k)) by (by rewrite peek_eq, E, Hk). by exists c.
  - assert (E' : skip_ws s = tAMP :: pr_backs n ++ k) by exact E.
    assert (Hpk : peek [tAMP] s = Done true (tAMP :: pr_backs n ++ k)) by (by rewrite peek_eq, E').
    rewrite (bind_Done _ _ _ _ _ Hpk).
    destruct (gettoken_sym tAMP (tAMP :: pr_backs n ++ k) (pr_backs n ++ k) eq_refl ltac:(set_solver)) as (q & e & Hg).
    rewrite (bind_Done _ _ _ _ _ Hg). destruct (IH (BACK c) (BACK d) fuel (skip_ws (pr_backs n ++ k))) as (c' & Hrun & Hrel); try done.
    + by constructor.
    + by rewrite skip_ws_idem.
    + pose proof (peek_gettoken _ _ _ _ _ Hpk Hg). lia.
    + exists c'. split; [done|]. rewrite Nat.iter_succ_r. done.
Qed.

Section RoundTrip.
Context (line : list Z).

Definition line_ok (l : sline) : Prop := wf_line l -> forall fuel s k, (length s < fuel)%nat ->
  skip_ws s = skip_ws (pr_line l ++ k) -> pr_line l ++ k `suffix_of` line -> blank k -> next_in [tRP] k ->
  exists c, parseline fuel s = Done c (skip_ws k) /\ cmd_rel line c (d_line l).
Definition pipe_ok (p : spipe) : Prop := wf_pipe p -> forall f fuel s k, (length s <= f)%nat -> (length s < fuel)%nat ->
  skip_ws s = skip_ws (pr_pipe p ++ k) -> pr_pipe p ++ k `suffix_of` line -> blank k -> next_in [tRP; tAMP; tSEMI] k ->
  exists c, parsepipe (parseline f) fuel s = Done c (skip_ws k) /\ cmd_rel line c (d_pipe p).
Definition exec_ok (e : sexec) : Prop := wf_exec e -> forall f s k, (length s <= f)%nat ->
  skip_ws s = skip_ws (pr_exec e ++ k) -> pr_exec e ++ k `suffix_of` line -> blank k ->
  next_in [tBAR; tRP; tAMP; tSEMI] k ->
  exists c, parseexec (parseline f) s = Done c (skip_ws k) /\ cmd_rel line c (d_exec e).

(** How much a run leaves. *)
Lemma left_le {A} (o : outcome (list Z) A) s a s' : parses o s -> o = Done a s' -> (length s' <= length s)%nat.
Proof. by intros H ->. Qed.
Lemma skip_ws_le s : (length (skip_ws s) <= length s)%nat.
Proof. apply skip_length. Qed.

(** A symbol the text has next. *)
Lemma take_sym c s x : c ∈ [tBAR; tLP; tRP; tSEMI; tAMP; tLT] -> skip_ws s = skip_ws (sp c ++ x) ->
  peek [c] s = Done true (c :: x) /\ (exists t, gettoken (c :: x) = Done t (skip_ws x)) /\ (length (skip_ws x) < length s)%nat.
Proof.
  intros Hc E. assert (Hnw : c ∉ whitespace).
  { intros Hw. unfold whitespace, tBAR, tLP, tRP, tSEMI, tAMP, tLT in *. set_solver. }
  assert (E' : skip_ws s = c :: x) by (rewrite E; unfold sp; simpl; by rewrite skip_ws_sp, skip_ws_non).
  split; [|split].
  - rewrite peek_eq, E'. rewrite (proj2 (strchr_in _ _)); [done|set_solver].
  - destruct (gettoken_sym c (c :: x) x) as (q & e & Hg); [by apply skip_ws_non|done|]. eauto.
  - pose proof (skip_ws_le s) as H. rewrite E' in H. pose proof (skip_ws_le x). simpl in H. lia.
Qed.

Lemma simple_ok rs args : exec_ok (SSimple rs args).
Proof.
  intros [Hrs [Hargs Hlen]] f s k Hf E Hsuf Hb Hk. simpl in E, Hsuf. rewrite <- app_assoc in E, Hsuf.
  unfold parseexec.
  assert (Hlp : peek [tLP] s = Done false (skip_ws s)).
  { rewrite peek_eq, E. destruct rs as [|[t w] rs].
    - pose proof (args_next args k [tLP] Hargs Hk ltac:(set_solver)) as H. rewrite peek_eq in H. exact H.
    - inversion Hrs as [|? ? [Ht _]]; subst. simpl in Ht. unfold pr_redirs. rewrite fmap_cons. cbn [concat]. unfold pr_redir at 1 3. simpl.
      rewrite <- !app_assoc, skip_ws_sp. destruct (redir_head t ((32 :: w) ++ concat (pr_redir <$> rs) ++ concat (pr_arg <$> args) ++ k) Ht)
        as [-> (c & y & -> & Hc)]. rewrite (proj2 (strchr_out _ _)); [done|]. unfold tLT, tGT, tLP in *. set_solver. }
  rewrite (bind_Done _ _ _ _ _ Hlp).
  destruct (parse_redirs line rs (S (length (skip_ws s))) (skip_ws s) (concat (pr_arg <$> args) ++ k)) as (rs1 & Hrun1 & Hrel1); try done.
  { by rewrite skip_ws_idem. }
  { apply blank_app; [apply blank_args|done]. }
  { by apply args_next; [..|set_solver]. }
  { lia. }
  erewrite (bind_Done (fun s => parseredirs_loop (S (length s)) s)); [|exact Hrun1].
  apply suffix_drop_app in Hsuf. set (s2 := skip_ws (concat (pr_arg <$> args) ++ k)).
  destruct (parse_args line args [] (S (length s2)) s2 k) as (argv & rs2 & Hrun2 & Ha & Hr); try done.
  { unfold s2. by rewrite skip_ws_idem. }
  { lia. }
  erewrite (bind_Done (fun s => parseexec_loop (S (length s)) [] s)); [|exact Hrun2].
  eexists. split; [reflexivity|]. simpl. apply redirs_rel; [by constructor|]. by apply Forall2_app.
Qed.

Lemma block_ok l rs : line_ok l -> exec_ok (SBlock l rs).
Proof.
  intros IH [Hl Hrs] f s k Hf E Hsuf Hb Hk. cbn [pr_exec] in E, Hsuf. rewrite <- !app_assoc in E, Hsuf.
  set (x1 := pr_line l ++ sp tRP ++ pr_redirs rs ++ k) in *. set (x2 := pr_redirs rs ++ k).
  destruct (take_sym tLP s x1 ltac:(set_solver) E) as (Hpk & [t Hg] & Hlt). unfold parseexec. rewrite (bind_Done _ _ _ _ _ Hpk).
  unfold parseblock. assert (Hpk2 : peek [tLP] (tLP :: x1) = Done true (tLP :: x1)) by done.
  rewrite (bind_Done _ _ _ _ _ Hpk2), (bind_Done (panic_if (negb true) _) _ _ tt _ eq_refl), (bind_Done _ _ _ _ _ Hg).
  apply suffix_drop_app in Hsuf.
  destruct (IH Hl f (skip_ws x1) (sp tRP ++ x2)) as (c & Hrun & Hrel); [lia|by rewrite skip_ws_idem|done|apply blank_sp| |].
  { apply next_sp; [vm_compute; set_solver|set_solver]. }
  rewrite (bind_Done _ _ _ _ _ Hrun).
  destruct (take_sym tRP (skip_ws (sp tRP ++ x2)) x2 ltac:(set_solver) (skip_ws_idem _)) as (Hpk3 & [t3 Hg3] & _).
  rewrite (bind_Done _ _ _ _ _ Hpk3), (bind_Done (panic_if (negb true) _) _ _ tt _ eq_refl), (bind_Done _ _ _ _ _ Hg3).
  destruct (parse_redirs line rs (S (length (skip_ws x2))) (skip_ws x2) k) as (rs1 & Hrun1 & Hrel1); try done.
  { by rewrite skip_ws_idem. }
  { by do 2 apply suffix_drop_app in Hsuf. }
  { eapply next_in_peek; [done|exact Hk|]. unfold tBAR, tRP, tAMP, tSEMI, tLT, tGT. set_solver. }
  { lia. }
  unfold parseredirs. rewrite (bind_Done _ _ _ _ _ Hrun1). eexists. split; [reflexivity|]. by apply redirs_rel.
Qed.

Lemma one_ok e : exec_ok e -> pipe_ok (SOne e).
Proof.
  intros IH Hwf f fuel s k Hf Hfu E Hsuf Hb Hk. destruct fuel as [|fuel]; [lia|]. cbn [parsepipe].
  destruct (IH Hwf f s k Hf E Hsuf Hb) as (c & Hrun & Hrel); [eapply next_in_mono; [exact Hk|set_solver]|].
  rewrite (bind_Done _ _ _ _ _ Hrun).
  rewrite (bind_Done (peek [tBAR]) _ (skip_ws k) false (skip_ws k)); [by exists c|].
  eapply next_in_peek; [apply skip_ws_idem|exact Hk|]. unfold tBAR, tRP, tAMP, tSEMI. set_solver.
Qed.

Lemma bar_ok e p : exec_ok e -> pipe_ok p -> pipe_ok (SBar e p).
Proof.
  intros IHe IHp [He Hp] f fuel s k Hf Hfu E Hsuf Hb Hk. destruct fuel as [|fuel]; [lia|]. cbn [parsepipe].
  cbn [pr_pipe] in E, Hsuf. rewrite <- !app_assoc in E, Hsuf. set (x := pr_pipe p ++ k) in *.
  destruct (IHe He f s (sp tBAR ++ x) Hf E Hsuf (blank_sp _ _)) as (c & Hrun & Hrel).
  { apply next_sp; [vm_compute; set_solver|set_solver]. }
  pose proof (left_le _ _ _ _ (parses_exec _ f (fun s H => parses_line f s H) s Hf) Hrun) as L1.
  rewrite (bind_Done _ _ _ _ _ Hrun). do 2 apply suffix_drop_app in Hsuf.
  destruct (take_sym tBAR (skip_ws (sp tBAR ++ x)) x ltac:(set_solver) (skip_ws_idem _)) as (Hpk & [t Hg] & Hlt).
  rewrite (bind_Done _ _ _ _ _ Hpk), (bind_Done _ _ _ _ _ Hg).
  destruct (IHp Hp f fuel (skip_ws x) k) as (c2 & Hrun2 & Hrel2); [lia|lia|apply skip_ws_idem|done|done|done|].
  rewrite (bind_Done _ _ _ _ _ Hrun2). eexists. split; [reflexivity|]. by constructor.
Qed.

(** A pipeline and its ampersands. *)
Lemma pipe_backs p n f s k : pipe_ok p -> wf_pipe p -> (length s <= f)%nat ->
  skip_ws s = skip_ws (pr_pipe p ++ pr_backs n ++ k) -> pr_pipe p ++ pr_backs n ++ k `suffix_of` line -> blank k ->
  next_in [tRP; tSEMI] k ->
  exists c1 c, parsepipe (parseline f) (S (length s)) s = Done c1 (skip_ws (pr_backs n ++ k)) /\
    parseback (S (length (skip_ws (pr_backs n ++ k)))) c1 (skip_ws (pr_backs n ++ k)) = Done c (skip_ws k) /\
    (length (skip_ws k) <= length s)%nat /\ cmd_rel line c (Nat.iter n BACK (d_pipe p)).
Proof.
  intros IH Hp Hf E Hsuf Hb Hk.
  assert (Hbb : blank (pr_backs n)).
  { apply blank_concat, Forall_forall. intros y Hy. apply elem_of_replicate in Hy as [-> _]. right. by eexists. }
  destruct (IH Hp f (S (length s)) s (pr_backs n ++ k)) as (c1 & Hrun & Hrel); try done; [lia|by apply blank_app| |].
  { destruct n; [eapply next_in_mono; [exact Hk|set_solver]|]. unfold pr_backs. cbn [replicate concat].
    rewrite <- app_assoc. apply next_sp; [vm_compute; set_solver|set_solver]. }
  pose proof (left_le _ _ _ _ (parses_pipe _ f (fun s H => parses_line f s H) (S (length s)) s Hf ltac:(lia)) Hrun) as L1.
  set (s1 := skip_ws (pr_backs n ++ k)) in *.
  destruct (parse_backs line n c1 (d_pipe p) (S (length s1)) s1 k Hrel) as (c & Hrun2 & Hrel2).
  { unfold s1. by rewrite skip_ws_idem. }
  { eapply next_in_peek; [done|exact Hk|]. unfold tRP, tAMP, tSEMI. set_solver. }
  { lia. }
  pose proof (left_le _ _ _ _ (parses_back (S (length s1)) c1 s1 ltac:(lia)) Hrun2) as L2.
  exists c1, c. split; [done|]. split; [done|]. split; [lia|done].
Qed.

Lemma last_ok p n : pipe_ok p -> line_ok (SLast p n).
Proof.
  intros IH Hwf fuel s k Hf E Hsuf Hb Hk. destruct fuel as [|fuel]; [lia|]. cbn [parseline].
  cbn [pr_line] in E, Hsuf. rewrite <- app_assoc in E, Hsuf.
  destruct (pipe_backs p n fuel s k IH Hwf ltac:(lia) E Hsuf Hb) as (c1 & c & H1 & H2 & _ & Hrel).
  { eapply next_in_mono; [exact Hk|set_solver]. }
  erewrite (bind_Done (fun s => parsepipe (parseline fuel) (S (length s)) s)); [|exact H1].
  erewrite (bind_Done (fun s => parseback (S (length s)) c1 s)); [|exact H2].
  rewrite (bind_Done (peek [tSEMI]) _ (skip_ws k) false (skip_ws k)); [by exists c|].
  eapply next_in_peek; [apply skip_ws_idem|exact Hk|]. unfold tRP, tSEMI. set_solver.
Qed.

Lemma seq_ok p n l : pipe_ok p -> line_ok l -> line_ok (SSeq p n l).
Proof.
  intros IHp IHl [Hp Hl] fuel s k Hf E Hsuf Hb Hk. destruct fuel as [|fuel]; [lia|]. cbn [parseline].
  cbn [pr_line] in E, Hsuf. rewrite <- !app_assoc in E, Hsuf. set (x := pr_line l ++ k) in *.
  destruct (pipe_backs p n fuel s (sp tSEMI ++ x) IHp Hp ltac:(lia) E Hsuf (blank_sp _ _)) as (c1 & c & H1 & H2 & L & Hrel).
  { apply next_sp; [vm_compute; set_solver|set_solver]. }
  erewrite (bind_Done (fun s => parsepipe (parseline fuel) (S (length s)) s)); [|exact H1].
  erewrite (bind_Done (fun s => parseback (S (length s)) c1 s)); [|exact H2].
  do 3 apply suffix_drop_app in Hsuf.
  destruct (take_sym tSEMI (skip_ws (sp tSEMI ++ x)) x ltac:(set_solver) (skip_ws_idem _)) as (Hpk & [t Hg] & Hlt).
  rewrite (bind_Done _ _ _ _ _ Hpk), (bind_Done _ _ _ _ _ Hg).
  destruct (IHl Hl fuel (skip_ws x) k) as (c2 & Hrun2 & Hrel2); [lia|apply skip_ws_idem|done|done|done|].
  rewrite (bind_Done _ _ _ _ _ Hrun2). eexists. split; [reflexivity|]. by constructor.
Qed.

Lemma tree_ok : (forall l, line_ok l) /\ (forall p, pipe_ok p) /\ (forall e, exec_ok e).
Proof. apply syntax_mut; auto using last_ok, seq_ok, one_ok, bar_ok, simple_ok, block_ok. Qed.
End RoundTrip.

(** ** The strings after [nulterminate] *)

Fixpoint eptrs (c : cmd) : list nat :=
  match c with
  | EXEC argv => snd <$> argv
  | REDIR c file _ _ => eptrs c ++ [file.2]
  | PIPE l r | LIST l r => eptrs l ++ eptrs r
  | BACK c => eptrs c
  end.
Lemma nulterminate_eq n c line : nulterminate n c line = foldl (fun l p => put_nul n p l) line (eptrs c).
Proof.
  revert line. induction c; intros line; simpl; rewrite ?foldl_app; simpl; try congruence.
  revert line. induction argv as [|a argv IH]; intros line; simpl; [done|]. by rewrite IH.
Qed.
Lemma put_nuls_lookup n ps line i :
  foldl (fun l p => put_nul n p l) line ps !! i =
  if decide (i ∈ (fun p => (n - p)%nat) <$> ps) then (if decide (i < length line)%nat then Some 0 else None) else line !! i.
Proof.
  revert line. induction ps as [|p ps IH]; intros line; [done|]. rewrite fmap_cons. cbn [foldl].
  rewrite IH. unfold put_nul. rewrite length_insert.
  destruct (decide (i ∈ (fun p => (n - p)%nat) <$> ps)) as [H|H].
  - rewrite (decide_True (P := i ∈ _ :: _)); [done|]. by apply elem_of_cons; right.
  - destruct (decide (i = (n - p)%nat)) as [->|Hne].
    + rewrite (decide_True (P := _ ∈ _ :: _)) by (by apply elem_of_cons; left). case_decide as Hl; [by rewrite list_lookup_insert_eq|].
      rewrite list_insert_ge by lia. apply lookup_ge_None. lia.
    + rewrite list_lookup_insert_ne by done. rewrite decide_False; [done|]. by intros [?|?]%elem_of_cons.
Qed.

(** The C string at a pointer *)
Fixpoint cstr (s : list Z) : list Z := match s with [] => [] | c :: s' => if c =? 0 then [] else c :: cstr s' end.
Definition cstr_at (n : nat) (line : list Z) (p : sptr) : list Z := cstr (drop (n - p.1)%nat line).

(** A pointer that ends a word is not inside a word. *)
Definition ends_word (line : list Z) (e : nat) : Prop := exists p w, at_word line p w /\ p.2 = e.
Lemma eptrs_end line c d : cmd_rel line c d -> Forall (ends_word line) (eptrs c).
Proof.
  induction 1 as [argv ws H|c d p w m f _ IH H|c d c' d' _ IH1 _ IH2|c d c' d' _ IH1 _ IH2|c d _ IH]; simpl; try done.
  - apply Forall_fmap. induction H as [|p w ps ws Hp _ IH]; constructor; [by exists p, w|done].
  - apply Forall_app. split; [done|]. constructor; [by exists p, w|done].
  - by apply Forall_app.
  - by apply Forall_app.
Qed.

Lemma cstr_take l w : (forall i c, w !! i = Some c -> l !! i = Some c) -> Forall (fun c => c <> 0) w ->
  l !! length w = Some 0 -> cstr l = w.
Proof.
  intros H1 Hw. revert l H1. induction Hw as [|c w Hc _ IH]; intros l H1 H2; destruct l as [|d l]; try done.
  - simpl in H2. injection H2 as ->. done.
  - pose proof (H1 0%nat c eq_refl) as E. simpl in E. injection E as ->. simpl. rewrite (proj2 (Z.eqb_neq c 0) Hc). f_equal.
    apply IH; [|done]. intros i x Hx. by apply (H1 (S i)).
Qed.

(** Writing NULs at ends of words, this one's included, makes it a C string. *)
Lemma word_string line line' p w ps : at_word line p w -> p.2 ∈ ps -> Forall (ends_word line) ps ->
  line' = foldl (fun l p => put_nul (length line) p l) (line ++ [0]) ps -> cstr_at (length line) line' p = w.
Proof.
  intros (pre & rest & El & -> & Hw & Hb) Hin Hps ->. cbn [fst snd] in *. unfold cstr_at. cbn [fst].
  assert (Hlen : length line = (length pre + length w + length rest)%nat) by (rewrite El, !length_app; lia).
  rewrite length_app. assert (Hat : (length line - (length w + length rest))%nat = length pre) by lia. rewrite Hat.
  assert (Hget : forall j, (j < length w)%nat -> (line ++ [0]) !! (length pre + j)%nat = w !! j).
  { intros j Hj. rewrite El, <- !app_assoc, lookup_app_r by lia. replace (length pre + j - length pre)%nat with j by lia.
    by rewrite lookup_app_l. }
  apply cstr_take.
  - intros i c Hi. assert (Hlt : (i < length w)%nat) by (by eapply lookup_lt_Some). rewrite lookup_drop, put_nuls_lookup, decide_False; [by rewrite Hget|].
    intros (e & E & He)%list_elem_of_fmap. rewrite Forall_forall in Hps.
    destruct (Hps e He) as (p' & w' & (pre' & rest' & El' & -> & _ & Hb') & <-). cbn [snd] in *.
    assert (Hch : (line ++ [0]) !! (length pre + i)%nat = Some c) by (rewrite Hget by done; done).
    rewrite E, El', !length_app in Hch. destruct Hw as [_ Hall]. rewrite Forall_forall in Hall.
    destruct (Hall c (list_elem_of_lookup_2 _ _ _ Hi)) as [Hwc Hc0].
    replace (length pre' + (length w' + length rest') - length rest')%nat with (length (pre' ++ w')) in Hch by (rewrite length_app; lia).
    rewrite <- !app_assoc, app_assoc, lookup_app_r, Nat.sub_diag in Hch by lia.
    destruct Hb' as [->|[k ->]]; simpl in Hch; injection Hch as <-; [done|by vm_compute in Hwc].
  - destruct Hw as [_ Hall]. eapply Forall_impl; [exact Hall|]. by intros c [_ ?].
  - rewrite lookup_drop, put_nuls_lookup, decide_True; [rewrite decide_True; [done|]|].
    + rewrite length_app. simpl. lia.
    + apply list_elem_of_fmap. exists (length rest). split; [lia|done].
Qed.

Lemma strings_ok line c d ps : cmd_rel line c d -> Forall (ends_word line) ps -> (forall e, e ∈ eptrs c -> e ∈ ps) ->
  cmd_map (cstr_at (length line) (foldl (fun l p => put_nul (length line) p l) (line ++ [0]) ps)) c = d.
Proof.
  intros Hrel Hps. assert (Hone : forall p w, at_word line p w -> p.2 ∈ ps ->
    cstr_at (length line) (foldl (fun l p => put_nul (length line) p l) (line ++ [0]) ps) p = w)
    by (intros p w Hp Hin; by eapply word_string).
  induction Hrel as [argv ws H|c d p w m f _ IH H|c d c' d' _ IH1 _ IH2|c d c' d' _ IH1 _ IH2|c d _ IH]; simpl; intros Hin.
  - f_equal. induction H as [|p w argv ws Hp _ IH]; [done|]. simpl in *. f_equal; [apply Hone; [done|set_solver]|]. set_solver.
  - f_equal; [apply IH; set_solver|]. apply Hone; [done|set_solver].
  - f_equal; [apply IH1|apply IH2]; set_solver.
  - f_equal; [apply IH1|apply IH2]; set_solver.
  - f_equal. by apply IH.
Qed.

(** C35: parsing inverts printing.  For every syntax tree of the shell's grammar
    (lists, pipelines, background marks, parentheses, redirections, up to nine
    arguments), [parsecmd] on its text returns the command the tree denotes, and
    after [nulterminate] the strings of the command in the line are exactly the
    words of the tree. *)
Theorem parsecmd_roundtrip l : wf_line l ->
  exists c line', parsecmd (pr_line l) = Done (c, line') [] /\
    cmd_map (cstr_at (length (pr_line l)) line') c = d_line l.
Proof.
  intros Hwf. set (line := pr_line l).
  destruct (proj1 (tree_ok line) l Hwf (S (length line)) line []) as (c & Hrun & Hrel).
  - lia.
  - by rewrite app_nil_r.
  - by rewrite app_nil_r.
  - by left.
  - exact I.
  - unfold parsecmd. rewrite (bind_Done _ _ _ _ _ Hrun). eexists c, _. split; [reflexivity|].
    rewrite nulterminate_eq. apply strings_ok; [done|by eapply eptrs_end|done].
Qed.

(** " ( a | b >> f ) & ; c d" *)
Definition sh_example : sline :=
  SSeq (SOne (SBlock (SLast (SBar (SSimple [] [([97], [])]) (SOne (SSimple [] [([98], [(tPLUS, [102])])]))) 0) [])) 1
    (SLast (SOne (SSimple [] [([99], []); ([100], [])])) 0).
Lemma sh_example_wf : wf_line sh_example.
Proof.
  assert (Hw : forall c, c ∈ [97; 98; 99; 100; 102] -> word [c]).
  { intros c Hc. split; [done|]. constructor; [|done]. rewrite !elem_of_cons in Hc.
    destruct Hc as [->|[->|[->|[->|[->|Hc]]]]]; [by split..|set_solver]. }
  unfold sh_example. cbn [wf_line wf_pipe wf_exec]. unfold wf_args.
  repeat match goal with
  | |- context [snd (_, _)] => progress cbn [snd]
  | |- Forall _ [] => apply Forall_nil_2
  | |- Forall _ (_ :: _) => apply Forall_cons_2
  | |- word _ => apply (Hw _); set_solver
  | |- wf_redir _ => split; [by right; right|]
  | |- _ /\ _ => split
  | |- _ < _ => done
  end.
Qed.
Lemma parsecmd_roundtrip_witness :
  exists c line', parsecmd (pr_line sh_example) = Done (c, line') [] /\
    cmd_map (cstr_at (length (pr_line sh_example)) line') c =
    LIST (BACK (PIPE (EXEC [[97]]) (REDIR (EXEC [[98]]) [102] (Z.lor O_WRONLY O_CREATE) 1))) (EXEC [[99]; [100]]).
Proof. exact (parsecmd_roundtrip sh_example sh_example_wf). Defined.
