(* ===== verification/Views.v ===== *)
(** * What kernel code leaves alone

    A view is a function of the kernel state that does not look at memory, the
    file system, interrupt state, locks, pipes, the console and so on, sees of
    an open file at most its reference count, and of each process only what
    [wakeup] and [kill] do not change.  Code that returns keeps a view unless
    it writes to what the view sees. *)

From S2P Require Import Prelude Memory Riscv Spinlock Kalloc Vm Bio Log Txn Fs Kern Proc Pipe File Life Exec Sysfile Printf Console Syscall.

Class View `{HC : Ctx} {V P} (v : kern -> V) (f : proc -> P) : Prop := {
  vw_procs : forall ps s, f <$> ps = f <$> kn_procs s -> v (set_procs ps s) = v s;
  vw_fs : forall x s, v (set_kn_fs x s) = v s;
  vw_cpu : forall c s, v (lset cpu_lens c s) = v s;
  vw_files : forall l s, f_ref <$> l = f_ref <$> kn_files s -> v (set_files l s) = v s;
  vw_pid_lock : forall x s, v (set_pid_lock x s) = v s;
  vw_wait_lock : forall x s, v (set_wait_lock x s) = v s;
  vw_ftlock : forall x s, v (set_ftlock x s) = v s;
  vw_nextpid : forall x s, v (set_nextpid x s) = v s;
  vw_pipes : forall x s, v (set_pipes x s) = v s;
  vw_ticks : forall x s, v (set_ticks x s) = v s;
  vw_tickslock : forall x s, v (set_tickslock x s) = v s;
  vw_cons : forall x s, v (set_cons x s) = v s;
  vw_uart : forall x s, v (set_uart x s) = v s;
  vw_pr : forall x s, v (set_pr x s) = v s;
  vw_lock : forall l p, f (set_p_lock l p) = f p;
  vw_wake : forall p, p_state p = SLEEPING -> f (set_state RUNNABLE p) = f p;
  vw_killed : forall x p, f (set_killed x p) = f p
}.

(** A lock whose field no view sees. *)
Class HiddenLock `{HC : Ctx} (l : lens kern spinlock) : Prop :=
  hidden : forall V P (v : kern -> V) (f : proc -> P), View v f -> forall x s, v (lset l x s) = v s.

Create HintDb keeps.

Section Keeps.
Context `{HC : Ctx} {V P} (v : kern -> V) (f : proc -> P) `{Hvw : !View v f}.

Definition keeps {A} (m : M kern A) : Prop := forall s a s', m s = Done a s' -> v s' = v s.

Lemma keeps_ret {A} (a : A) : keeps (ret a).
Proof. by intros s ? s' [= _ <-]. Qed.
Lemma keeps_bind {A B} (m : M kern A) (k : A -> M kern B) : keeps m -> (forall a, keeps (k a)) -> keeps (bind m k).
Proof. intros Hm Hk s b s' (a & s1 & H1 & H2)%bind_Done_inv. rewrite (Hk _ _ _ _ H2). by eapply Hm. Qed.
Lemma keeps_gets {A} (g : kern -> A) : keeps (gets g).
Proof. by intros s ? s' [= _ <-]. Qed.
Lemma keeps_modify (g : kern -> kern) : (forall s, v (g s) = v s) -> keeps (modify g).
Proof. intros H s ? s' [= _ <-]. apply H. Qed.
Lemma keeps_stop {A} (m : M kern A) : (forall s a s', m s <> Done a s') -> keeps m.
Proof. intros H s a s' E. by destruct (H s a s'). Qed.
Lemma keeps_panic_if b msg : keeps (panic_if b msg).
Proof. destruct b; [by apply keeps_stop|apply keeps_ret]. Qed.
Lemma keeps_when (b : bool) m : keeps m -> keeps (when b m).
Proof. destruct b; [done|]. intros _. apply keeps_ret. Qed.
Lemma keeps_for_each {A} (l : list A) (g : A -> M kern unit) : (forall a, keeps (g a)) -> keeps (for_each l g).
Proof. intros H. induction l as [|a l IH]; [apply keeps_ret|]. cbn [for_each]. by apply keeps_bind. Qed.
Lemma keeps_lift {T A} (l : lens kern T) (m : M T A) : (forall x s, v (lset l x s) = v s) -> keeps (lift l m).
Proof. intros H s a s' (t & _ & ->)%lift_Done_inv. apply H. Qed.
Lemma keeps_fsop {A} (m : M (fsst lst) A) : keeps (fsop m).
Proof. apply keeps_lift. intros. apply vw_fs. Qed.
Lemma keeps_vm {A} (m : M kst A) : keeps (vm m).
Proof. apply keeps_lift. intros. apply vw_fs. Qed.
Lemma keeps_cpu {A} (m : M cpu A) : keeps (lift cpu_lens m).
Proof. apply keeps_lift, vw_cpu. Qed.
Lemma keeps_acq l `{!HiddenLock l} : keeps (acq l).
Proof. apply keeps_lift. intros x s. etransitivity; [apply vw_cpu|]. apply (hidden V P v f Hvw). Qed.
Lemma keeps_rel l `{!HiddenLock l} : keeps (rel l).
Proof. apply keeps_lift. intros x s. etransitivity; [apply vw_cpu|]. apply (hidden V P v f Hvw). Qed.

Lemma keeps_read {A} (m : M kern A) : (forall s, (exists a, m s = Done a s) \/ m s = Undef) -> keeps m.
Proof. intros H s a s' E. destruct (H s) as [[b E']|E']; rewrite E' in E; [|done]. by injection E as _ <-. Qed.
Lemma keeps_myproc : keeps myproc.
Proof. apply keeps_read. intros s. unfold myproc. destruct (cur s); eauto. Qed.
Lemma keeps_getp i : keeps (getp i).
Proof. apply keeps_read. intros s. unfold getp. destruct (nth_proc s i); eauto. Qed.
Lemma keeps_getf i : keeps (getf i).
Proof. apply keeps_read. intros s. unfold getf. destruct (i <? 0); [eauto|]. destruct (kn_files s !! _); eauto. Qed.
Lemma keeps_getpi i : keeps (getpi i).
Proof. apply keeps_read. intros s. unfold getpi. destruct (kn_pipes s !! i); eauto. Qed.
Lemma keeps_setpi i g : keeps (setpi i g).
Proof. apply keeps_bind; [apply keeps_getpi|]. intros p. apply keeps_modify. intros. apply vw_pipes. Qed.

Lemma upd_proc_view i p q s : nth_proc s i = Some p -> f q = f p -> v (upd_proc i q s) = v s.
Proof.
  unfold nth_proc. destruct (i <? 0); [done|]. intros Hp Hf. apply vw_procs. rewrite list_fmap_insert, Hf.
  apply list_insert_id. by rewrite list_lookup_fmap, Hp.
Qed.
Lemma keeps_setp i g : (forall p, f (g p) = f p) -> keeps (setp i g).
Proof.
  intros H s [] s' (p & s1 & Hp & E)%bind_Done_inv. unfold getp in Hp. destruct (nth_proc s i) eqn:Ep; [|done].
  injection Hp as -> <-. injection E as <-. eapply upd_proc_view; [done|apply H].
Qed.
Lemma keeps_setf i g : (forall x, f_ref (g x) = f_ref x) -> keeps (setf i g).
Proof.
  intros H s [] s' (x & s1 & Hx & E)%bind_Done_inv. unfold getf in Hx. destruct (i <? 0); [done|].
  destruct (kn_files s !! _) eqn:Ex; [|done]. injection Hx as -> <-. injection E as <-. apply vw_files.
  rewrite list_fmap_insert, H. apply list_insert_id. by rewrite list_lookup_fmap, Ex.
Qed.
Lemma keeps_proc {A} i (k : proc -> M kern A) :
  (forall p s a s', nth_proc s i = Some p -> k p s = Done a s' -> v s' = v s) -> keeps (bind (getp i) k).
Proof.
  intros H s a s' (p & s1 & Hp & E)%bind_Done_inv. unfold getp in Hp. destruct (nth_proc s i) eqn:Ep; [|done].
  injection Hp as -> <-. by eapply H.
Qed.
End Keeps.

#[export] Hint Resolve keeps_ret keeps_gets keeps_panic_if keeps_fsop keeps_vm keeps_cpu keeps_acq keeps_rel keeps_myproc
  keeps_getp keeps_getf keeps_getpi keeps_setpi : keeps.

#[export] Instance hidden_pid `{HC : Ctx} : HiddenLock pid_lens.
Proof. intros V P v f Hv x s. apply vw_pid_lock. Qed.
#[export] Instance hidden_wait `{HC : Ctx} : HiddenLock wait_lens.
Proof. intros V P v f Hv x s. apply vw_wait_lock. Qed.
#[export] Instance hidden_ft `{HC : Ctx} : HiddenLock ft_lens.
Proof. intros V P v f Hv x s. apply vw_ftlock. Qed.
#[export] Instance hidden_ticks `{HC : Ctx} : HiddenLock ticks_lens.
Proof. intros V P v f Hv x s. apply vw_tickslock. Qed.
#[export] Instance hidden_cn `{HC : Ctx} : HiddenLock cn_lens.
Proof. intros V P v f Hv x s. apply vw_cons. Qed.
#[export] Instance hidden_ua `{HC : Ctx} : HiddenLock ua_lens.
Proof. intros V P v f Hv x s. apply vw_uart. Qed.
#[export] Instance hidden_pr `{HC : Ctx} : HiddenLock pr_lens.
Proof. intros V P v f Hv x s. apply vw_pr. Qed.
#[export] Instance hidden_pi `{HC : Ctx} pi : HiddenLock (pi_lens pi).
Proof. intros V P v f Hv x s. simpl. destruct (kn_pipes s !! pi); [apply vw_pipes|done]. Qed.
#[export] Instance hidden_p `{HC : Ctx} i : HiddenLock (p_lens i).
Proof.
  intros V P v f Hv x s. simpl. destruct (nth_proc s i) as [p|] eqn:E; [|done].
  eapply upd_proc_view; [done|done|apply vw_lock].
Qed.

(** Walks through code, leaving what the database does not know. *)
Ltac keep :=
  repeat first
    [ progress intros
    | progress cbv zeta
    | match goal with
      | |- keeps _ (bind _ _) => apply keeps_bind
      | |- keeps _ (when _ _) => apply keeps_when
      | |- keeps _ (for_each _ _) => apply keeps_for_each
      | |- keeps _ (match (if ?b then _ else _) with _ => _ end) => destruct b
      | |- keeps _ (match ?x with _ => _ end) => destruct x
      | |- keeps _ (fun _ => _) => fail 1
      | |- keeps _ diverge => apply keeps_stop; done
      | |- keeps _ undef => apply keeps_stop; done
      | |- keeps _ (panic _) => apply keeps_stop; done
      end
    | solve [eauto with keeps typeclass_instances] ].

Section Library.
Context `{HC : Ctx} `{HI : Image} `{HF : Frame} `{HS : Syms} {V P} (v : kern -> V) (f : proc -> P) `{Hvw : !View v f}.

Lemma keeps_ksleep {A} c l : keeps v (ksleep (A := A) c l).
Proof.
  apply keeps_stop. intros s a s' H. unfold ksleep in H.
  repeat (apply bind_Done_inv in H as (? & ? & _ & H)). done.
Qed.
Lemma keeps_wakeup c : keeps v (wakeup c).
Proof.
  apply keeps_for_each. intros p. unfold wakeup1.
  apply keeps_bind; [keep|]. intros me. apply keeps_when, keeps_bind; [keep|]. intros []. apply (keeps_proc v). intros pr s [] s' Hp H.
  apply bind_Done_inv in H as ([] & s1 & H1 & H2). rewrite (keeps_rel v f _ _ _ _ H2).
  destruct (bool_decide (p_state pr = SLEEPING)) eqn:E; [|simpl in H1; by injection H1 as <-].
  destruct (bool_decide (p_chan pr = Some c)); simpl in H1; [|by injection H1 as <-]. unfold setp, bind, getp in H1. rewrite Hp in H1.
  injection H1 as <-. eapply upd_proc_view; [done|done|]. apply vw_wake. by apply bool_decide_eq_true in E.
Qed.
#[local] Hint Resolve keeps_ksleep keeps_wakeup : keeps.

Lemma keeps_kill_loop l pid : keeps v (kill_loop l pid).
Proof.
  induction l as [|p l IH]; cbn [kill_loop]; [keep|]. apply keeps_bind; [keep|]. intros []. apply (keeps_proc v).
  intros pr s a s' Hp H. destruct (p_pid pr =? pid); [|by eapply (keeps_bind v _ _ (keeps_rel v f _) (fun _ => IH))].
  apply bind_Done_inv in H as ([] & s1 & H1 & H). pose proof (keeps_setp v f p (set_killed 1) ltac:(intros; apply vw_killed) _ _ _ H1) as E1.
  unfold setp, bind, getp in H1. rewrite Hp in H1. injection H1 as <-.
  apply bind_Done_inv in H as ([] & s2 & H2 & H).
  assert (E3 : v s' = v s2) by (revert H; apply (fun K => K : keeps v _); keep).
  rewrite E3, <- E1. destruct (bool_decide (p_state pr = SLEEPING)) eqn:E; simpl in H2; [|by injection H2 as <-].
  apply bool_decide_eq_true in E. unfold setp, bind, getp in H2. rewrite (nth_proc_upd_eq _ _ _ _ Hp) in H2.
  injection H2 as <-. eapply upd_proc_view; [done|exact (nth_proc_upd_eq _ _ _ _ Hp)|]. by apply vw_wake.
Qed.
Lemma keeps_kill pid : keeps v (kill pid).
Proof. apply keeps_kill_loop. Qed.
Lemma keeps_killed p : keeps v (killed p).
Proof. unfold killed. keep. Qed.
Lemma keeps_setkilled p : keeps v (setkilled p).
Proof. unfold setkilled. keep. apply (keeps_setp v f). intros. apply vw_killed. Qed.
#[local] Hint Resolve keeps_kill keeps_killed keeps_setkilled : keeps.

Lemma keeps_begin_op : keeps v kbegin_op.
Proof. unfold kbegin_op. keep. Qed.
Lemma keeps_end_op : keeps v kend_op.
Proof. unfold kend_op. keep. Qed.
Lemma keeps_ucopyin src n : keeps v (ucopyin src n).
Proof. unfold ucopyin. keep. Qed.
Lemma keeps_ucopyout dst src : keeps v (ucopyout dst src).
Proof. unfold ucopyout. keep. Qed.
Lemma keeps_get_tf p x : keeps v (get_tf p x).
Proof. unfold get_tf. keep. Qed.
Lemma keeps_set_tf p x y : keeps v (set_tf p x y).
Proof. unfold set_tf. keep. Qed.
#[local] Hint Resolve keeps_begin_op keeps_end_op keeps_ucopyin keeps_ucopyout keeps_get_tf keeps_set_tf : keeps.

(** *** Arguments of system calls *)

Lemma keeps_argraw n : keeps v (argraw n).
Proof. unfold argraw. apply keeps_bind; [keep|]. intros p. repeat case_match; keep. Qed.
#[local] Hint Resolve keeps_argraw : keeps.
Lemma keeps_argint n : keeps v (argint n).
Proof. unfold argint. keep. Qed.
Lemma keeps_argaddr n : keeps v (argaddr n).
Proof. apply keeps_argraw. Qed.
Lemma keeps_fetchaddr a : keeps v (fetchaddr a).
Proof. unfold fetchaddr. keep. Qed.
Lemma keeps_fetchstr_buf a n : keeps v (fetchstr_buf a n).
Proof. unfold fetchstr_buf. keep. Qed.
#[local] Hint Resolve keeps_argint keeps_argaddr keeps_fetchaddr keeps_fetchstr_buf : keeps.
Lemma keeps_fetchstr a n : keeps v (fetchstr a n).
Proof. unfold fetchstr. keep. Qed.
#[local] Hint Resolve keeps_fetchstr : keeps.
Lemma keeps_argstr n m : keeps v (argstr n m).
Proof. unfold argstr. keep. Qed.
Lemma keeps_argfd n : keeps v (argfd n).
Proof. unfold argfd. keep. Qed.
#[local] Hint Resolve keeps_argstr keeps_argfd : keeps.

(** *** Output and the console *)

Lemma keeps_updu g : keeps v (updu g).
Proof. apply keeps_modify. intros. apply vw_uart. Qed.
Lemma keeps_updc g : keeps v (updc g).
Proof. apply keeps_modify. intros. apply vw_cons. Qed.
#[local] Hint Resolve keeps_updu keeps_updc : keeps.
Lemma keeps_ReadLSR : keeps v ReadLSR.
Proof. unfold ReadLSR. keep. Qed.
Lemma keeps_WriteReg r x : keeps v (WriteReg r x).
Proof. apply keeps_updu. Qed.
#[local] Hint Resolve keeps_ReadLSR keeps_WriteReg : keeps.
Lemma keeps_uartstart : keeps v uartstart.
Proof.
  unfold uartstart. apply keeps_bind; [keep|]. intros u. generalize (length (ua_lsr u) + 2)%nat. intros n.
  induction n; cbn [uartstart_loop]; keep.
Qed.
#[local] Hint Resolve keeps_uartstart : keeps.
Lemma keeps_uartputc c : keeps v (uartputc c).
Proof. unfold uartputc. keep. Qed.
Lemma keeps_tx_spin n : keeps v (tx_spin n).
Proof. induction n; cbn [tx_spin]; keep. Qed.
#[local] Hint Resolve keeps_uartputc keeps_tx_spin : keeps.
Lemma keeps_uartputc_sync c : keeps v (uartputc_sync c).
Proof. unfold uartputc_sync. keep. Qed.
#[local] Hint Resolve keeps_uartputc_sync : keeps.
Lemma keeps_consputc c : keeps v (consputc c).
Proof. unfold consputc. keep. Qed.
#[local] Hint Resolve keeps_consputc : keeps.
Lemma keeps_printint x b sg : keeps v (printint x b sg).
Proof. unfold printint. keep. Qed.
Lemma keeps_printptr x : keeps v (printptr x).
Proof. unfold printptr. keep. Qed.
#[local] Hint Resolve keeps_printint keeps_printptr : keeps.
Lemma keeps_printf_loop fmt : forall ap, keeps v (printf_loop fmt ap).
Proof.
  assert (H : forall n fmt, (length fmt <= n)%nat -> forall ap, keeps v (printf_loop fmt ap)); [|by eauto].
  clear fmt. intros n. induction n as [|n IH]; intros [|c fmt] Hl ap; simpl in Hl; try lia; [keep..|].
  cbn [printf_loop]. pose proof (IH fmt ltac:(lia)) as IH1. destruct (negb _); [keep|]. destruct fmt as [|c' fmt]; [keep|].
  simpl in Hl. pose proof (IH fmt ltac:(lia)) as IH2. clear IH IH1. repeat case_match; keep.
Qed.
#[local] Hint Resolve keeps_printf_loop : keeps.
Lemma keeps_printf fmt ap : keeps v (printf fmt ap).
Proof. unfold printf. keep. Qed.
Lemma keeps_keither_copyin b a n : keeps v (keither_copyin b a n).
Proof. unfold keither_copyin. keep. Qed.
Lemma keeps_keither_copyout b a bs : keeps v (keither_copyout b a bs).
Proof. unfold keither_copyout. keep. Qed.
#[local] Hint Resolve keeps_printf keeps_keither_copyin keeps_keither_copyout : keeps.
Lemma keeps_consolewrite b a n : keeps v (consolewrite b a n).
Proof.
  unfold consolewrite. generalize (S (Z.to_nat n)) 0. intros k. induction k; cbn [consolewrite_loop]; keep.
Qed.
Lemma keeps_consoleread_loop k b t : forall a n, keeps v (consoleread_loop k b a n t).
Proof. induction k; intros; cbn [consoleread_loop]; keep. Qed.
#[local] Hint Resolve keeps_consoleread_loop : keeps.
Lemma keeps_consoleread b a n : keeps v (consoleread b a n).
Proof. unfold consoleread. keep. Qed.
#[local] Hint Resolve keeps_consolewrite keeps_consoleread : keeps.

(** *** Pipes and files *)

Lemma keeps_pipes g : keeps v (modify (fun s => set_pipes (g s) s)).
Proof. apply keeps_modify. intros. apply vw_pipes. Qed.
#[local] Hint Resolve keeps_pipes : keeps.
Lemma keeps_pipeclose pi w : keeps v (pipeclose pi w).
Proof. unfold pipeclose. keep. Qed.
Lemma keeps_pipewrite_loop k pr pi a n : forall i, keeps v (pipewrite_loop k pr pi a n i).
Proof. induction k; intros; cbn [pipewrite_loop]; keep. Qed.
#[local] Hint Resolve keeps_pipewrite_loop : keeps.
Lemma keeps_pipewrite pi a n : keeps v (pipewrite pi a n).
Proof. unfold pipewrite, pipewrite_end. keep. Qed.
Lemma keeps_piperead_loop k pi a n : forall i, keeps v (piperead_loop k pi a n i).
Proof. induction k; intros; cbn [piperead_loop]; keep. Qed.
#[local] Hint Resolve keeps_piperead_loop : keeps.
Lemma keeps_piperead pi a n : keeps v (piperead pi a n).
Proof. unfold piperead, piperead_locked. keep. Qed.
#[local] Hint Resolve keeps_pipeclose keeps_pipewrite keeps_piperead : keeps.
Lemma keeps_f_off i x : keeps v (setf i (set_f_off x)).
Proof. by apply (keeps_setf v f). Qed.
#[local] Hint Resolve keeps_f_off : keeps.
Lemma keeps_filestat i a : keeps v (filestat i a).
Proof. unfold filestat. keep. Qed.
Lemma keeps_fileread i a n : keeps v (fileread i a n).
Proof. unfold fileread, dev_read, console_devs. keep. Qed.
Lemma keeps_filewrite_loop k i a n : forall j, keeps v (filewrite_loop k i a n j).
Proof. induction k; intros; cbn [filewrite_loop]; keep. Qed.
#[local] Hint Resolve keeps_filewrite_loop : keeps.
Lemma keeps_filewrite i a n : keeps v (filewrite i a n).
Proof. unfold filewrite, dev_write, console_devs. keep. Qed.
#[local] Hint Resolve keeps_filestat keeps_fileread keeps_filewrite : keeps.

(** *** What [exec] does before it commits *)

Context `{HE : ExecFrame}.
Lemma keeps_get_elf : keeps v get_elf.
Proof. apply keeps_gets. Qed.
Lemma keeps_get_ph : keeps v get_ph.
Proof. apply keeps_gets. Qed.
#[local] Hint Resolve keeps_get_elf keeps_get_ph : keeps.
Lemma keeps_loadseg pt va ip off sz : keeps v (loadseg pt va ip off sz).
Proof.
  unfold loadseg. generalize (S (S (Z.to_nat (sz / PGSIZE)))) 0. intros k.
  induction k; intros; cbn [loadseg_loop]; keep.
Qed.
Lemma keeps_exec_bad pt sz ip : keeps v (exec_bad pt sz ip).
Proof. unfold exec_bad. keep. Qed.
#[local] Hint Resolve keeps_loadseg keeps_exec_bad : keeps.
Lemma keeps_exec_load k pt ip : forall i off sz, keeps v (exec_load k pt ip i off sz).
Proof. induction k; intros; cbn [exec_load]; keep. Qed.
Lemma keeps_kstrlen a : keeps v (kstrlen a).
Proof. intros s n s'. unfold kstrlen. by destruct (strlen _ _ _) as [m|]; [intros [= _ <-]|]. Qed.
Lemma keeps_argv_get argv i : keeps v (argv_get argv i).
Proof. apply keeps_read. intros s. unfold argv_get. destruct (argv !! _); eauto. Qed.
#[local] Hint Resolve keeps_exec_load keeps_kstrlen keeps_argv_get : keeps.
Lemma keeps_exec_push k pt sb argv : forall argc sp us, keeps v (exec_push k pt sb argv argc sp us).
Proof. induction k; intros; cbn [exec_push]; keep. Qed.
Lemma keeps_exec_args k ua : forall i argv, keeps v (exec_args k ua i argv).
Proof. induction k; intros; cbn [exec_args]; keep. Qed.
End Library.

#[export] Hint Resolve keeps_ksleep keeps_wakeup keeps_kill keeps_killed keeps_setkilled keeps_begin_op keeps_end_op
  keeps_ucopyin keeps_ucopyout keeps_get_tf keeps_set_tf keeps_argint keeps_argaddr keeps_fetchaddr keeps_fetchstr_buf
  keeps_fetchstr keeps_argstr keeps_argfd keeps_printf keeps_pipes keeps_pipeclose keeps_pipewrite keeps_piperead
  keeps_filestat keeps_fileread keeps_filewrite keeps_get_elf keeps_loadseg keeps_exec_bad keeps_exec_load keeps_exec_push
  keeps_exec_args : keeps.

(** Interrupt state and lock nesting are not part of [cur]. *)
Lemma cur_set_cpu `{HC : Ctx} c s : cur (lset cpu_lens c s) = cur s.
Proof.
  unfold cur, my_cpu; simpl. destruct (decide (Z.to_nat mycpu < length (kn_cpus s))%nat).
  - by rewrite (nth_lookup_Some _ _ _ _ (list_lookup_insert_eq _ _ _ l)).
  - rewrite list_insert_ge by lia. done.
Qed.

(** The steps of a run that returned. *)
Lemma setp_inv `{HC : Ctx} i g s a s' : setp i g s = Done a s' -> exists p, nth_proc s i = Some p /\ s' = upd_proc i (g p) s.
Proof.
  intros (p & s1 & Hp & E)%bind_Done_inv. unfold getp in Hp. destruct (nth_proc s i) as [q|]; [|done].
  injection Hp as -> <-. injection E as <-. eauto.
Qed.
Lemma setf_inv `{HC : Ctx} i g s a s' : setf i g s = Done a s' ->
  exists x, 0 <= i /\ kn_files s !! Z.to_nat i = Some x /\ s' = upd_file i (g x) s.
Proof.
  intros (x & s1 & Hx & E)%bind_Done_inv. unfold getf in Hx. destruct (Z.ltb_spec i 0); [done|].
  destruct (kn_files s !! _) as [y|]; [|done]. injection Hx as -> <-. injection E as <-. eauto.
Qed.
Lemma getp_inv `{HC : Ctx} i s p s' : getp i s = Done p s' -> nth_proc s i = Some p /\ s' = s.
Proof. unfold getp. destruct (nth_proc s i); [|done]. by intros [= -> ->]. Qed.
Lemma getf_inv `{HC : Ctx} i s x s' : getf i s = Done x s' -> 0 <= i /\ kn_files s !! Z.to_nat i = Some x /\ s' = s.
Proof. unfold getf. destruct (Z.ltb_spec i 0); [done|]. destruct (kn_files s !! _); [|done]. by intros [= -> ->]. Qed.
Lemma myproc_inv `{HC : Ctx} s p s' : myproc s = Done p s' -> cur s = Some p /\ s' = s.
Proof. unfold myproc. destruct (cur s); [|done]. by intros [= -> ->]. Qed.
