(* ===== verification/ExecRun.v ===== *)
(** * What the parts of [exec] do to memory and to the inode table

    [loadseg], the loop over the program headers and the loop that pushes the
    arguments only write to the table under construction and to the local
    variables of the kernel, and keep every inode reference. *)

From S2P Require Import Prelude Memory Riscv Spinlock Kalloc Vm VmWalk VmUser VmCopy VmFree Bio Log Txn Fs FsFrame ExecMem Kern Proc Pipe File Exec Views.

Section Kernel.
Context `{HC : Ctx} `{HI : Image} `{HF : Frame} `{HS : Syms}.

Definition kmem (s : kern) : kst := fs_k (kn_fs s).
Definition krefs (s : kern) : list Z := irefs (kn_fs s).

Lemma fsop_inv {A} (m : M (fsst lst) A) s a s' : fsop m s = Done a s' ->
  exists f f', m f = Done a f' /\ fs_k f = kmem s /\ irefs f = krefs s /\ fs_k f' = kmem s' /\ irefs f' = krefs s'.
Proof. intros (f' & H & ->)%lift_Done_inv. by exists (lget fs_lens s), f'. Qed.
Lemma fsop_framed {A} P (m : M (fsst lst) A) s a s' : framed P m -> fsop m s = Done a s' -> krefs s' = krefs s /\ touched P (kmem s) (kmem s').
Proof. intros Hm (f & f' & H & <- & <- & <- & <-)%fsop_inv. by apply Hm in H. Qed.
Lemma fsop_iunlockput P ip s u s' : fsop (iunlockput ip) s = Done u s' -> krefs s' = bump ip (-1) (krefs s) /\ touched P (kmem s) (kmem s').
Proof. intros (f & f' & H & <- & <- & <- & <-)%fsop_inv. by apply (iunlockput_moves P) in H. Qed.
Lemma vm_run {A} (m : M kst A) s a s' : vm m s = Done a s' -> m (kmem s) = Done a (kmem s') /\ krefs s' = krefs s.
Proof. by intros (k & H & ->)%lift_Done_inv. Qed.
Lemma setp_fs i g s u s' : setp i g s = Done u s' -> kn_fs s' = kn_fs s.
Proof. by intros (p & _ & ->)%setp_inv. Qed.

Lemma keeps_fs_lock i {A} (m : M (spinlock * cpu) A) : keeps kn_fs (lift (with_cpu (p_lens i)) m).
Proof. apply keeps_lift. intros x s. simpl. by destruct (nth_proc s i). Qed.
Lemma keeps_fs_wakeup c : keeps kn_fs (wakeup c).
Proof.
  apply keeps_for_each. intros p. unfold wakeup1. apply keeps_bind; [apply keeps_gets|]. intros me. apply keeps_when.
  apply keeps_bind; [apply keeps_fs_lock|]. intros _. apply keeps_bind; [by intros s ? s' [_ ->]%getp_inv|]. intros pr.
  apply keeps_bind; [|intros _; apply keeps_fs_lock]. apply keeps_when. intros s u s'. apply setp_fs.
Qed.
Lemma kend_op_quiet P s u s' : kend_op s = Done u s' -> krefs s' = krefs s /\ touched P (kmem s) (kmem s').
Proof.
  unfold kend_op. intros (u1 & s1 & H1 & H2)%bind_Done_inv. apply keeps_fs_wakeup in H2. apply (fsop_framed P) in H1; [|apply framed_tx].
  unfold krefs, kmem in *. by rewrite H2.
Qed.
Lemma kbegin_op_quiet P s u s' : kbegin_op s = Done u s' -> krefs s' = krefs s /\ touched P (kmem s) (kmem s').
Proof. apply fsop_framed, framed_tx. Qed.
(** [iunlockput(ip); end_op();] *)
Lemma put_back P ip s u s' : (fsop (iunlockput ip) ;;; kend_op)%xv6 s = Done u s' -> krefs s' = bump ip (-1) (krefs s) /\ touched P (kmem s) (kmem s').
Proof.
  intros (u1 & s1 & H1 & H2)%bind_Done_inv. apply (fsop_iunlockput P) in H1 as [E1 T1]. apply (kend_op_quiet P) in H2 as [E2 T2].
  split; [congruence|]. by etransitivity.
Qed.
End Kernel.

Section ExecRun.
Context `{HC : Ctx} `{HI : Image} `{HO : !ImageOk} `{HF : Frame} `{HS : Syms} `{HE : ExecFrame}.

(** The local variables: [de], [elf] and [ph]. *)
Definition loc (x : Z) : Prop := span local_addr DESIZE x \/ span elf_addr sizeof_elfhdr x \/ span ph_addr sizeof_proghdr x.
Record locals_ok : Prop := {
  lo_de : 0 <= local_addr /\ local_addr + DESIZE < 2 ^ 64;
  lo_elf : 0 <= elf_addr /\ elf_addr + sizeof_elfhdr < 2 ^ 64;
  lo_ph : 0 <= ph_addr /\ ph_addr + sizeof_proghdr < 2 ^ 64
}.
Context (Hlo : locals_ok).

Lemma fsop_namei path s r s' : fsop (namei path) s = Done r s' -> krefs s' = bump_opt r (krefs s) /\ touched loc (kmem s) (kmem s').
Proof.
  intros (f & f' & H & <- & <- & <- & <-)%fsop_inv. destruct (lo_de Hlo). apply (namei_moves loc) in H; [done|by left|done|done].
Qed.
Lemma read_elf ip s r s' : fsop (readi ip false elf_addr 0 sizeof_elfhdr) s = Done r s' -> krefs s' = krefs s /\ touched loc (kmem s) (kmem s').
Proof.
  intros H. destruct (lo_elf Hlo). eapply fsop_framed; [|exact H]. apply framed_readi; try done. intros x Hx. right. by left.
Qed.
Lemma read_ph ip off s r s' : 0 <= off -> fsop (readi ip false ph_addr off sizeof_proghdr) s = Done r s' -> krefs s' = krefs s /\ touched loc (kmem s) (kmem s').
Proof.
  intros Ho H. destruct (lo_ph Hlo). eapply fsop_framed; [|exact H]. apply framed_readi; try done. intros x Hx. right. by right.
Qed.

Context (tf : Z) (Htf : page_ok tf) (Ht0 : 0 <= trampoline) (Ht : trampoline + 4096 <= 2 ^ 56).
Context (l0 : list Z) (k0 : kst) (Hloc : forall p x, p ∈ l0 -> in_page p x -> ~ loc x).
Notation built := (building tf l0 k0 loc).

Lemma loadseg_built fuel : forall pt va ip offset sz i s r s' n,
  built (kmem s) pt n -> va mod 4096 = 0 -> 0 <= i -> i mod 4096 = 0 -> sz < 2 ^ 32 -> loadseg_loop fuel pt va ip offset sz i s = Done r s' ->
  built (kmem s') pt n /\ krefs s' = krefs s.
Proof.
  induction fuel as [|fuel IH]; intros pt va ip offset sz i s r s' n Hb Hva Hi Him Hsz H; [done|]. cbn [loadseg_loop] in H.
  destruct (Z.ltb_spec i sz); [|by injection H as _ <-].
  apply bind_Done_inv in H as (pa & s1 & [H1 R1]%vm_run & H). apply bind_Done_inv in H as (u & s2 & Hp & H).
  unfold panic_if in Hp. destruct (Z.eqb_spec pa 0) as [|Hpa]; [done|]. injection Hp as <- <-.
  apply (building_load tf Htf Ht0 Ht l0 k0 loc Hloc _ pt n) in H1 as (E1 & Hok & Hw); [|done|apply u64_range|unfold u64; Z.div_mod_to_equations; lia|done].
  cbv zeta in H. set (m := if sz - i <? PGSIZE then sz - i else PGSIZE) in *. assert (Hm : 0 < m <= 4096) by (unfold m, PGSIZE; destruct (Z.ltb_spec (sz - i) 4096); lia).
  pose proof (page_ok_pos pa Hok). apply bind_Done_inv in H as (k & s2 & H2 & H).
  apply (fsop_framed (fun x => loc x \/ in_page pa x)) in H2 as [R2 T2];
    [|apply framed_readi; [apply u32_range|lia|lia|lia|]; intros x Hx; right; unfold in_page, span, PGSIZE in *; lia].
  rewrite E1 in T2. specialize (Hw _ T2). destruct (negb _); [injection H as _ <-; split; [done|congruence]|].
  apply IH with (n := n) in H as [H3 R3]; [split; [done|congruence]|done|done|apply u32_range|unfold u32, PGSIZE; Z.div_mod_to_equations; lia|done].
Qed.

Lemma flags2perm_range f : 0 <= flags2perm f < 1024.
Proof. unfold flags2perm. cbv zeta. destruct (negb (Z.land f 1 =? 0)), (negb (Z.land f 2 =? 0)); by vm_compute. Qed.
(** The loop over the program headers; [r.2] is what [sz] is at the end. *)
Lemma exec_load_built fuel : forall pt ip i off sz s r s',
  built (kmem s) pt sz -> exec_load fuel pt ip i off sz s = Done r s' -> built (kmem s') pt r.2 /\ krefs s' = krefs s.
Proof.
  induction fuel as [|fuel IH]; intros pt ip i off sz s r s' Hb H; [done|]. cbn [exec_load] in H.
  apply bind_Done_inv in H as (elf & s0 & [= <- <-] & H). destruct (_ <? _); [|by injection H as <- <-].
  apply bind_Done_inv in H as (n & s1 & H1 & H). apply read_ph in H1 as [R1 T1]; [|apply u32_range].
  assert (Hb1 : built (kmem s1) pt sz) by (by eapply building_loc). rewrite <- R1. clear R1 T1 Hb s.
  destruct (negb _); [by injection H as <- <-|]. apply bind_Done_inv in H as (ph & s2 & [= <- <-] & H).
  set (ph := load_proghdr _ _) in *. destruct (negb _); [by apply IH in H|].
  destruct (_ <? _); [by injection H as <- <-|]. destruct (_ <? _); [by injection H as <- <-|].
  destruct (negb (ph_vaddr ph mod PGSIZE =? 0)) eqn:Ea; [by injection H as <- <-|]. apply negb_false_iff, Z.eqb_eq in Ea.
  apply bind_Done_inv in H as (sz1 & s2 & [H2 R2]%vm_run & H).
  apply (building_alloc tf l0 k0 loc) in H2; [|done|apply flags2perm_range]. rewrite <- R2.
  destruct (Z.eqb_spec sz1 0) as [->|Hne].
  - injection H as <- <-. split; [|done]. destruct H2 as [[_ H2]|[E H2]]; [done|].
    destruct Hb1 as (l1 & T1 & D1 & Hu & _). pose proof (sp_sz _ _ _ _ _ _ _ Hu). simpl. replace sz with 0 by lia. done.
  - destruct H2 as [[-> _]|[_ Hb2]]; [done|]. apply bind_Done_inv in H as (q & s3 & H3 & H).
    apply (loadseg_built _ _ _ _ _ _ _ _ _ _ sz1) in H3 as [Hb3 R3]; [|done|done|lia|done|apply u32_range]. rewrite <- R3.
    destruct (_ <? _); [by injection H as <- <-|]. by apply IH in H.
Qed.

Lemma strlen_range fuel m a n : strlen fuel m a = Some n -> 0 <= n < Z.of_nat fuel.
Proof.
  unfold strlen. assert (H : forall i, strlen_loop m a i fuel = Some n -> i <= n < i + Z.of_nat fuel); [|apply H].
  induction fuel as [|fuel IH]; intros i; simpl; [done|]. destruct (_ =? 0); [intros [= ->]; lia|]. intros H%IH. lia.
Qed.
Lemma kstrlen_inv a s n s' : kstrlen a s = Done n s' -> s' = s /\ 0 <= n < 4096.
Proof.
  unfold kstrlen. destruct (strlen _ _ _) as [k|] eqn:E; [|done]. intros [= -> ->]. apply strlen_range in E. split; [done|]. unfold PGSIZE in E. lia.
Qed.
(** Rounding a stack pointer down. *)
Lemma sp_down sp d top : 4096 <= sp <= top -> 0 < d <= 4096 -> top < 2 ^ 64 -> 0 <= u64 (sp - d) - u64 (sp - d) mod 16 < sp /\ (u64 (sp - d) - u64 (sp - d) mod 16) mod 16 = 0.
Proof. intros H1 H2 H3. rewrite u64_small by lia. Z.div_mod_to_equations. lia. Qed.
(** The arguments go into the stack page. *)
Lemma exec_push_built fuel : forall pt n argv argc sp us s r s', 8192 <= n < 2 ^ 64 -> n - 4096 <= sp <= n ->
  built (kmem s) pt n -> exec_push fuel pt (n - 4096) argv argc sp us s = Done r s' ->
  built (kmem s') pt n /\ krefs s' = krefs s /\ match r with Some x => n - 4096 <= x.1 <= n | None => True end.
Proof.
  induction fuel as [|fuel IH]; intros pt n argv argc sp us s r s' Hn Hsp Hb H; [done|]. cbn [exec_push] in H.
  apply bind_Done_inv in H as (a & s1 & H1 & H). unfold argv_get in H1. destruct (argv !! _); [|done]. injection H1 as -> <-.
  destruct (a =? 0); [by injection H as <- <-|]. destruct (_ <=? _); [by injection H as <- <-|].
  apply bind_Done_inv in H as (len & s1 & [-> Hlen]%kstrlen_inv & H). cbv zeta in H. destruct (sp_down sp (len + 1) n) as [Hd _]; [lia|lia|lia|].
  set (sp1 := u64 (sp - (len + 1)) - u64 (sp - (len + 1)) mod 16) in *. destruct (Z.ltb_spec sp1 (n - 4096)); [by injection H as <- <-|].
  apply bind_Done_inv in H as (bs & s1 & [= <- <-] & H). apply bind_Done_inv in H as (c & s1 & [H1 R1]%vm_run & H).
  apply (building_copyout tf Htf Ht0 Ht l0 k0 loc _ pt n) in H1; [|done|lia]. rewrite <- R1. destruct (_ <? _); [by injection H as <- <-|].
  by apply IH in H; [|done|lia|].
Qed.
End ExecRun.
