(* ===== verification/ExecSpec.v ===== *)
(** * [exec] replaces the program or leaves the process alone

    What a process and the others can see of a call that fails or succeeds:
    the process table, memory, the free pages and the inode references. *)

From S2P Require Import Prelude Memory Riscv Spinlock Kalloc Vm VmWalk VmUser VmCopy VmFree Bio Log Txn Fs FsFrame ExecMem Kern Proc Pipe File Exec Views ExecRun.

(** A process without the fields other processes write: its lock, its state
    and its killed flag. *)
Definition own (p : proc) : proc := set_p_lock (initlock EmptyString) (set_state UNUSED (set_killed 0 p)).

Section ExecSpec.
Context `{HC : Ctx} `{HI : Image} `{HO : !ImageOk} `{HF : Frame} `{HS : Syms} `{HE : ExecFrame}.

(** Which process runs, the reference counts of the open files, and every
    process. *)
Definition user_view (s : kern) : option Z * list Z * list proc := (cur s, f_ref <$> kn_files s, own <$> kn_procs s).

#[export] Instance user_view_view : View user_view own.
Proof.
  split; try done; intros; unfold user_view; simpl.
  - by f_equal.
  - f_equal. f_equal. apply cur_set_cpu.
  - by do 2 f_equal.
Qed.

Lemma user_view_proc s s' i p' : user_view s' = user_view s -> nth_proc s' i = Some p' ->
  exists p, nth_proc s i = Some p /\ own p' = own p.
Proof.
  unfold user_view, nth_proc. intros [= _ _ Hp]. destruct (i <? 0); [done|]. intros Hi.
  assert (H : own <$> (kn_procs s !! Z.to_nat i) = Some (own p')) by (by rewrite <- list_lookup_fmap, <- Hp, list_lookup_fmap, Hi).
  destruct (kn_procs s !! Z.to_nat i) as [p|]; [|done]. exists p. split; [done|]. by apply (inj Some).
Qed.

(** Setting a field that is the process's own. *)
Definition on_own (g : proc -> proc) : Prop := forall p q, own p = own q -> own (g p) = own (g q).
Lemma setp_user_view i g s t a t' : on_own g -> user_view t = user_view s -> setp i g t = Done a t' ->
  exists p, nth_proc s i = Some p /\ user_view t' = user_view (upd_proc i (g p) s).
Proof.
  intros Hg Hv (p' & Hp' & ->)%setp_inv. destruct (user_view_proc _ _ _ _ Hv Hp') as (p & Hp & Ho). exists p. split; [done|].
  revert Hv. unfold user_view; simpl. intros [= Hc Hf Hps]. rewrite !list_fmap_insert, Hps, (Hg _ _ Ho), Hf.
  unfold cur, my_cpu in *; simpl. by rewrite Hc.
Qed.
Lemma own_pagetable x : on_own (set_pagetable x).
Proof. intros [] [] H. unfold own in H. simpl in H. by simplify_eq. Qed.
Lemma own_sz x : on_own (set_sz x).
Proof. intros [] [] H. unfold own in H. simpl in H. by simplify_eq. Qed.
Lemma own_name f : on_own (fun q => set_name (f (p_name q)) q).
Proof. intros [] [] H. unfold own in H. simpl in H. by simplify_eq. Qed.

Lemma setp_again i g q s t a t' : on_own g -> user_view t = user_view (upd_proc i q s) -> nth_proc s i <> None ->
  setp i g t = Done a t' -> user_view t' = user_view (upd_proc i (g q) s).
Proof.
  intros Hg Hv Hn H. destruct (nth_proc s i) as [p|] eqn:Hp; [|done]. apply (setp_user_view _ _ _ _ _ _ Hg Hv) in H as (p' & Hp' & ->).
  rewrite (nth_proc_upd_eq _ _ _ _ Hp) in Hp'. injection Hp' as <-. by rewrite upd_proc_twice.
Qed.

(** The words of the trap frame that [exec] sets. *)
Definition tf_words (tf x : Z) : Prop := span (tf + tf_off TF_a1) 8 x \/ span (tf + tf_off TF_epc) 8 x \/ span (tf + tf_off TF_sp) 8 x.
Definition store_at (k : kst) (a v : Z) : kst := set_mem (st64 (k_mem k) a v) k.
Lemma store_touched (P : Z -> Prop) k a v : (forall x, span a 8 x -> P x) -> touched P k (store_at k a v).
Proof. intros H. split; [done..|]. intros x Hx. simpl. apply mget_stn_ne. intros Ha. by apply Hx, H. Qed.
Lemma set_tf_inv i f v s u s' : set_tf i f v s = Done u s' ->
  exists p, nth_proc s i = Some p /\ kmem s' = store_at (kmem s) (p_trapframe p + tf_off f) v /\ krefs s' = krefs s /\ user_view s' = user_view s.
Proof.
  unfold set_tf. intros (p & s1 & [Hp ->]%getp_inv & H)%bind_Done_inv. exists p. split; [done|]. pose proof (keeps_vm user_view own _ _ _ _ H) as Hv.
  apply vm_run in H as [[= _ H] R]. done.
Qed.

Section FromReady.
Context (s0 : kern) (me : Z) (pr : proc) (l0 : list Z) (T0 : tree) (D0 : gmap Z Z).
Notation tf := (p_trapframe pr).

(** The calling process has an address space, of which the free pages, the
    trap frame and the local variables of the kernel are no part. *)
Record exec_ready : Prop := {
  er_cur : cur s0 = Some me;
  er_proc : nth_proc s0 me = Some pr;
  er_space : uspace tf (kmem s0) l0 T0 (p_pagetable pr) D0 (p_sz pr);
  er_tf : page_ok tf;
  er_tf_out : ~ owns l0 T0 D0 tf;
  er_tramp : 0 <= trampoline /\ trampoline + 4096 <= 2 ^ 56;
  er_locals : locals_ok;
  er_loc_out : forall x, loc x -> ~ in_page tf x /\ forall p, owns l0 T0 D0 p -> ~ in_page p x
}.
Context (Hr : exec_ready).
Notation built := (building tf l0 (kmem s0) loc).

Lemma loc_free p x : p ∈ l0 -> in_page p x -> ~ loc x.
Proof. intros Hp Hx Hl. apply (er_loc_out Hr x Hl) in Hx; [done|]. by left. Qed.

(** ** Giving up *)

(** No table is under construction. *)
Definition settled (s : kern) : Prop :=
  user_view s = user_view s0 /\ (exists l, kinv (kmem s) l /\ forall p, p ∈ l <-> p ∈ l0) /\ only l0 (kmem s0) loc (kmem s).
Lemma settled_touched s s' : settled s -> user_view s' = user_view s -> touched loc (kmem s) (kmem s') -> settled s'.
Proof.
  intros (Hv & (l & Hk & Hl) & Hon) Hv' Ht. split; [congruence|]. split.
  - exists l. split; [|done]. eapply kinv_touched; [done| |done]. intros p x Hp. apply loc_free. by apply Hl.
  - intros x Hx Hout. rewrite (to_mem _ _ _ Ht) by done. by apply Hon.
Qed.
Lemma exec_bad_put (ip : option Z) s r s' : settled s -> krefs s = bump_opt ip (krefs s0) ->
  ((match ip with Some ip => fsop (iunlockput ip) ;;; kend_op | None => ret tt end) ;;; ret (-1))%xv6 s = Done r s' ->
  r = -1 /\ settled s' /\ krefs s' = krefs s0.
Proof.
  intros Hs R H. apply bind_Done_inv in H as (u & s1 & H & [= <- <-]). split; [done|]. destruct ip as [ip|]; [|by injection H as <- <-].
  assert (Hv : user_view s1 = user_view s) by (eapply (fun K : keeps user_view _ => K _ _ _ H); keep).
  apply (put_back loc) in H as [R1 T1]. split; [by eapply settled_touched|]. rewrite R1, R. apply (bump_back ip 1).
Qed.
Lemma exec_bad_built pt sz (ip : option Z) s r s' : user_view s = user_view s0 -> built (kmem s) pt sz -> krefs s = bump_opt ip (krefs s0) ->
  exec_bad pt sz ip s = Done r s' -> r = -1 /\ settled s' /\ krefs s' = krefs s0.
Proof.
  intros Hv Hb R H. unfold exec_bad in H. apply bind_Done_inv in H as (u & s1 & H1 & H).
  pose proof (building_root tf l0 (kmem s0) loc _ _ _ Hb) as Hpt.
  destruct (Z.eqb_spec pt 0); [done|]. simpl in H1. pose proof (keeps_vm user_view own _ _ _ _ H1) as Hv1. apply vm_run in H1 as [H1 R1].
  eapply (building_free tf (er_tf Hr) (proj1 (er_tramp Hr)) (proj2 (er_tramp Hr))) in H1 as [Hk Hon]; [|exact Hb].
  apply (exec_bad_put ip s1 r s'); [|congruence|exact H]. split; [congruence|done].
Qed.
Lemma exec_bad_early (ip : option Z) s r s' : settled s -> krefs s = bump_opt ip (krefs s0) ->
  exec_bad 0 0 ip s = Done r s' -> r = -1 /\ settled s' /\ krefs s' = krefs s0.
Proof. intros Hs R H. unfold exec_bad in H. apply bind_Done_inv in H as (u & s1 & [= <- <-] & H). by eapply exec_bad_put. Qed.

(** ** Going through with it *)

Definition outer (x : Z) : Prop := forall p, owns l0 T0 D0 p -> ~ in_page p x.
Lemma tf_words_page x : tf_words tf x -> in_page tf x.
Proof. unfold tf_words, span, in_page, PGSIZE. simpl. lia. Qed.
Lemma tf_outer x : in_page tf x -> outer x.
Proof.
  intros Hx p Hp Hpx. pose proof (owned_page tf l0 (kmem s0) T0 _ D0 _ (er_space Hr) p Hp) as Hok. apply (er_tf_out Hr).
  by rewrite <- (page_disjoint p tf x Hok (er_tf Hr) Hpx Hx).
Qed.
Lemma loc_outer x : loc x -> outer x.
Proof. intros Hx p Hp. by apply (er_loc_out Hr x Hx). Qed.

(** The address space [k] has afterwards. *)
Record replaced_by (k : kst) (pt sz sp : Z) : Prop := {
  rb_space : exists l T D, uspace tf k l T pt D sz /\ forall p, owns l T D p <-> owns l0 T0 D0 p;
  rb_frame : forall x, ~ loc x -> ~ tf_words tf x -> outer x -> mget (k_mem k) x = mget (k_mem (kmem s0)) x;
  rb_sp : sz - PGSIZE <= sp < sz /\ sp mod 16 = 0;
  rb_a1 : ld64 (k_mem k) (tf + tf_off TF_a1) = sp;
  rb_tf_sp : ld64 (k_mem k) (tf + tf_off TF_sp) = sp;
  rb_epc : ld64 (k_mem k) (tf + tf_off TF_epc) = e_entry (load_elfhdr (k_mem k) elf_addr)
}.
Section Install.
Context (k : kst) (pt sz sp : Z) (Hb : built k pt sz) (Hsp : sz - PGSIZE <= sp < sz /\ sp mod 16 = 0) (Hsp0 : 0 <= sp < 2 ^ 64).
Let k1 := store_at k (tf + tf_off TF_a1) sp.
Let k2 := store_at k1 (tf + tf_off TF_epc) (e_entry (load_elfhdr (k_mem k1) elf_addr)).
Let k3 := store_at k2 (tf + tf_off TF_sp) sp.
Lemma words_touched : touched (tf_words tf) k k1 /\ touched (tf_words tf) k1 k2 /\ touched (tf_words tf) k2 k3.
Proof. split_and!; apply store_touched; unfold tf_words; tauto. Qed.
Lemma built_words : building tf l0 (kmem s0) (fun x => loc x \/ tf_words tf x) k3 pt sz.
Proof.
  assert (Hd : forall p x, p ∈ l0 -> in_page p x -> ~ (loc x \/ tf_words tf x)).
  { intros p x Hp Hx [Hl|Hw]; [by apply (loc_free p x)|]. apply (tf_outer x (tf_words_page x Hw) p); [by left|done]. }
  destruct words_touched as (T1 & T2 & T3). eapply building_loc; [exact Hd|by eapply building_mono; [|exact Hb]; auto|].
  apply (touched_weaken (tf_words tf)); [auto|]. etransitivity; [exact T1|]. by etransitivity.
Qed.
Lemma installed u k4 : proc_freepagetable (p_pagetable pr) (p_sz pr) k3 = Done u k4 -> replaced_by k4 pt sz sp.
Proof.
  intros H. destruct (er_tramp Hr) as [Ht0 Ht]. destruct words_touched as (T1 & T2 & T3).
  eapply (replaced tf (er_tf Hr) Ht0 Ht l0 (kmem s0) (fun x => loc x \/ tf_words tf x) T0 _ D0 _ (er_space Hr)) in H as (l & T & D & Hu & Ho & Hf); [| |apply built_words].
  2: { intros p x Hp Hx [Hl|Hw]; [by apply (loc_outer x Hl p)|by apply (tf_outer x (tf_words_page x Hw) p)]. }
  assert (Hw : forall f, tf_off f <= 288 -> 0 <= tf_off f -> ld64 (k_mem k4) (tf + tf_off f) = ld64 (k_mem k3) (tf + tf_off f)).
  { intros f F1 F2. apply ldn_ext. intros i Hi. apply Hf, tf_outer. unfold in_page, PGSIZE. lia. }
  split; [by exists l, T, D| |done|..].
  - intros x Hl Hx Hout. rewrite Hf by done. destruct built_words as (l1 & T1' & D1 & _ & _ & Hon). apply Hon; [tauto|]. intros p Hp. apply Hout. by left.
  - rewrite Hw by done. unfold k3, k2, store_at. cbn [k_mem set_mem]. rewrite !ldn_stn_ne by (simpl; lia). unfold k1, store_at. cbn [k_mem set_mem]. by rewrite ld64_st64_eq, u64_small.
  - rewrite Hw by done. unfold k3, store_at. cbn [k_mem set_mem]. by rewrite ld64_st64_eq, u64_small.
  - rewrite Hw by done. unfold k3, store_at. cbn [k_mem set_mem]. rewrite ldn_stn_ne by (simpl; lia). unfold k2, store_at at 1. cbn [k_mem set_mem].
    rewrite ld64_st64_eq. simpl. rewrite u64_small by apply ld64_range. symmetry. apply ldn_ext. intros i Hi.
    assert (Hl : loc i) by (right; left; unfold span, sizeof_elfhdr; lia).
    assert (Hn : ~ tf_words tf i) by (intros Hx%tf_words_page; by apply (er_loc_out Hr _ Hl)).
    rewrite Hf by (by apply loc_outer). by rewrite (to_mem _ _ _ T3), (to_mem _ _ _ T2).
Qed.
End Install.

(** ** [exec] *)

Definition exec_proc (path : list Z) (pt sz : Z) : proc :=
  set_sz sz (set_pagetable pt (set_name (safestrcpy_bytes sizeof_name (last_elem path path ++ [0]) (p_name pr)) pr)).
Definition exec_result (path : list Z) (r : Z) (s' : kern) : Prop :=
  krefs s' = krefs s0 /\
  (r = -1 /\ settled s' \/
   0 <= r < MAXARG /\ exists pt sz sp, user_view s' = user_view (upd_proc me (exec_proc path pt sz) s0) /\ replaced_by (kmem s') pt sz sp).
Lemma result_bad path r s' : r = -1 /\ settled s' /\ krefs s' = krefs s0 -> exec_result path r s'.
Proof. intros (? & ? & ?). split; [done|]. by left. Qed.

Lemma own_fields p q : own p = own q -> p_sz p = p_sz q /\ p_pagetable p = p_pagetable q /\ p_trapframe p = p_trapframe q /\ p_name p = p_name q.
Proof. unfold own. simpl. intros H. by simplify_eq. Qed.
Lemma me_view s p : user_view s = user_view s0 -> nth_proc s me = Some p -> own p = own pr.
Proof.
  intros Hv Hp. destruct (user_view_proc _ _ _ _ Hv Hp) as (q & Hq & Ho). rewrite (er_proc Hr) in Hq. by injection Hq as ->.
Qed.
(** The trap frame is where it was. *)
Lemma me_store q f v s u s' : user_view s = user_view (upd_proc me q s0) -> p_trapframe q = tf -> set_tf me f v s = Done u s' ->
  kmem s' = store_at (kmem s) (tf + tf_off f) v /\ krefs s' = krefs s /\ user_view s' = user_view s.
Proof.
  intros Hv Hq (p & Hp & Hk & R & Hv')%set_tf_inv. destruct (user_view_proc _ _ _ _ Hv Hp) as (p' & Hp' & Ho).
  rewrite (nth_proc_upd_eq _ _ _ _ (er_proc Hr)) in Hp'. injection Hp' as <-. apply own_fields in Ho as (_ & _ & E & _). by rewrite Hk, E, Hq.
Qed.
(** From [p->trapframe->a1 = sp;] on. *)
Lemma exec_commit path pt sz sp argc s r s' : user_view s = user_view s0 -> krefs s = krefs s0 -> built (kmem s) pt sz ->
  sz - PGSIZE <= sp < sz /\ sp mod 16 = 0 -> 0 <= sp < 2 ^ 64 -> 0 <= argc < MAXARG ->
  (set_tf me TF_a1 sp ;;;
   setp me (fun q => set_name (safestrcpy_bytes sizeof_name (last_elem path path ++ [0]) (p_name q)) q) ;;;
   pr1 <-! getp me ;;
   setp me (set_pagetable pt) ;;;
   setp me (set_sz sz) ;;;
   elf <-! get_elf ;;
   set_tf me TF_epc (e_entry elf) ;;;
   set_tf me TF_sp sp ;;;
   vm (proc_freepagetable (p_pagetable pr1) (p_sz pr)) ;;;
   ret argc)%xv6 s = Done r s' -> exec_result path r s'.
Proof.
  intros Hv R Hb Hsp Hsp0 Hargc H. pose proof (er_proc Hr) as Hp0. assert (Hn : nth_proc s0 me <> None) by (by rewrite Hp0).
  assert (Hv0 : user_view s = user_view (upd_proc me pr s0)) by (by rewrite (upd_proc_id _ _ _ Hp0)).
  apply bind_Done_inv in H as (u1 & s1 & H1 & H). apply (me_store pr) in H1 as (K1 & R1 & V1); [|done|done].
  apply bind_Done_inv in H as (u2 & s2 & H2 & H). pose proof (setp_fs _ _ _ _ _ H2) as F2. eapply (setp_again me _ pr s0) in H2; [|apply own_name|congruence|done].
  apply bind_Done_inv in H as (pr1 & s3 & [Hp1 ->]%getp_inv & H).
  assert (Hold : p_pagetable pr1 = p_pagetable pr).
  { destruct (user_view_proc _ _ _ _ H2 Hp1) as (q & Hq & Ho). rewrite (nth_proc_upd_eq _ _ _ _ Hp0) in Hq. injection Hq as <-. by apply own_fields in Ho as (_ & E & _). }
  rewrite Hold in H. apply bind_Done_inv in H as (u3 & s3 & H3 & H). pose proof (setp_fs _ _ _ _ _ H3) as F3. eapply setp_again in H3; [|apply own_pagetable|exact H2|done].
  apply bind_Done_inv in H as (u4 & s4 & H4 & H). pose proof (setp_fs _ _ _ _ _ H4) as F4. eapply setp_again in H4; [|apply own_sz|exact H3|done].
  apply bind_Done_inv in H as (elf & s5 & [= <- <-] & H). assert (K4 : kmem s4 = kmem s1) by (unfold kmem; congruence). assert (R4 : krefs s4 = krefs s1) by (unfold krefs; congruence).
  cbn [mem_lens lget] in H. change (fs_k (kn_fs s4)) with (kmem s4) in H. rewrite K4 in H.
  apply bind_Done_inv in H as (u5 & s5 & H5 & H). eapply me_store in H5 as (K5 & R5 & V5); [|exact H4|done].
  apply bind_Done_inv in H as (u6 & s6 & H6 & H). eapply me_store in H6 as (K6 & R6 & V6); [|rewrite V5; exact H4|done].
  apply bind_Done_inv in H as (u7 & s7 & H7 & [= <- <-]). pose proof (keeps_vm user_view own _ _ _ _ H7) as V7. apply vm_run in H7 as [H7 R7].
  rewrite K6, K5, K4, K1 in H7. apply (installed (kmem s) pt sz sp Hb Hsp Hsp0) in H7.
  split; [congruence|]. right. split; [done|]. exists pt, sz, sp. split; [|done]. rewrite V7, V6, V5. exact H4.
Qed.

Lemma building_size k pt sz : built k pt sz -> 0 <= sz <= TRAPFRAME.
Proof. intros (l & T & D & Hu & _). apply Hu. Qed.
Lemma exec_stack_result path argv pt sz s r s' : user_view s = user_view s0 -> krefs s = krefs s0 -> built (kmem s) pt sz ->
  exec_stack path argv pt sz s = Done r s' -> exec_result path r s'.
Proof.
  intros Hv R Hb H. unfold exec_stack in H. destruct (er_tramp Hr) as [Ht0 Ht]. destruct special_pages as (_ & E2 & _ & N2).
  apply bind_Done_inv in H as (i & s1 & [Hme ->]%myproc_inv & H). assert (i = me) as -> by (assert (cur s = cur s0) by (by injection Hv); rewrite (er_cur Hr) in *; congruence).
  apply bind_Done_inv in H as (pr0 & s1 & [Hp0 ->]%getp_inv & H). apply me_view in Hp0 as (E0 & _)%own_fields; [|done]. cbv zeta in H. rewrite E0 in H.
  assert (Hal : PGROUNDUP sz mod 4096 = 0) by (pose proof (building_size _ _ _ Hb); destruct (pgs_eq sz ltac:(lia)) as [-> _]; apply Z.mod_mul; lia).
  apply building_round in Hb. set (sz0 := PGROUNDUP sz) in *. pose proof (building_size _ _ _ Hb) as Hsz0.
  apply bind_Done_inv in H as (sz1 & s1 & H1 & H). pose proof (keeps_vm user_view own _ _ _ _ H1) as V1. apply vm_run in H1 as [H1 R1].
  destruct (Z.eqb_spec sz1 0) as [->|Hne].
  { apply (building_alloc tf l0 (kmem s0) loc _ pt sz0) in H1; [|done|done]. destruct H1 as [[_ H1]|[E _]]; [|rewrite u64_small in E; unfold PGSIZE in *; lia].
    apply result_bad, (exec_bad_built pt sz0 None s1); [congruence|exact H1|simpl; congruence|exact H]. }
  apply bind_Done_inv in H as (u2 & s2 & H2 & H). pose proof (keeps_vm user_view own _ _ _ _ H2) as V2. apply vm_run in H2 as [H2 R2].
  destruct (building_stack tf l0 (kmem s0) loc (kmem s) pt sz0 sz1 (kmem s1) u2 (kmem s2)) as [E1 Hb2]; [done..|].
  pose proof (building_size _ _ _ Hb2) as Hsz1. unfold PGSIZE in *. rewrite (u64_small (sz1 - 4096)) in H by lia.
  apply bind_Done_inv in H as (ps & s3 & H3 & H). pose proof (keeps_exec_push user_view own _ _ _ _ _ _ _ _ _ _ H3) as V3.
  apply (exec_push_built tf (er_tf Hr) Ht0 Ht l0 (kmem s0)) in H3 as (Hb3 & R3 & Hps); [|lia|lia|done].
  assert (Hbad : forall s, user_view s = user_view s0 -> krefs s = krefs s0 -> built (kmem s) pt sz1 -> exec_bad pt sz1 None s = Done r s' -> exec_result path r s').
  { intros t Vt Rt Bt Hx. by apply result_bad, (exec_bad_built pt sz1 None t). }
  destruct ps as [[sp us]|]; [|apply (Hbad s3); [congruence|congruence|done|done]]. simpl in Hps.
  destruct (Z.leb_spec MAXARG (Z.of_nat (length us))) as [|Hargc]; [done|]. unfold MAXARG in Hargc.
  destruct (sp_down sp ((Z.of_nat (length us) + 1) * 8) sz1) as [Hd Hm]; [lia|lia|lia|]. set (sp1 := u64 _ - _) in *.
  destruct (Z.ltb_spec sp1 (sz1 - 4096)); [apply (Hbad s3); [congruence|congruence|done|done]|].
  apply bind_Done_inv in H as (c & s4 & H4 & H). pose proof (keeps_vm user_view own _ _ _ _ H4) as V4. apply vm_run in H4 as [H4 R4].
  apply (building_copyout tf (er_tf Hr) Ht0 Ht l0 (kmem s0) loc _ pt sz1) in H4; [|done|lia].
  destruct (_ <? _); [apply (Hbad s4); [congruence|congruence|done|done]|].
  eapply (exec_commit path pt sz1 sp1 (Z.of_nat (length us)) s4); [congruence|congruence|done|unfold PGSIZE; lia|lia|unfold MAXARG; lia|exact H].
Qed.

(** Takes the first step off a run, which keeps the view. *)
Tactic Notation "kept" hyp(H) ident(a) ident(t) ident(H1) ident(V) :=
  apply bind_Done_inv in H as (a & t & H1 & H);
  assert (V : user_view t = user_view _) by (eapply (fun K : keeps user_view _ => K _ _ _ H1); keep).

(** With the file open and locked: its reference is held. *)
Lemma exec_file path argv ip s r s' : settled s -> krefs s = bump ip 1 (krefs s0) ->
  (r <-! fsop (readi ip false elf_addr 0 sizeof_elfhdr) ;;
   if negb (r =? sizeof_elfhdr) then exec_bad 0 0 (Some ip) else
   elf <-! get_elf ;;
   if negb (e_magic elf =? ELF_MAGIC) then exec_bad 0 0 (Some ip) else
   pr <-! getp me ;;
   pagetable <-! vm (proc_pagetable (p_trapframe pr)) ;;
   if pagetable =? 0 then exec_bad 0 0 (Some ip) else
   elf <-! get_elf ;;
   r <-! exec_load (S (Z.to_nat (e_phnum elf))) pagetable ip 0 (i32 (e_phoff elf)) 0 ;;
   if negb r.1 then exec_bad pagetable r.2 (Some ip) else
   fsop (iunlockput ip) ;;;
   kend_op ;;;
   exec_stack path argv pagetable r.2)%xv6 s = Done r s' -> exec_result path r s'.
Proof.
  intros S R H. destruct (er_tramp Hr) as [Ht0 Ht]. pose proof (er_locals Hr) as Hlo.
  assert (Hearly : forall t, settled t -> krefs t = bump ip 1 (krefs s0) -> exec_bad 0 0 (Some ip) t = Done r s' -> exec_result path r s') by (intros; by eapply result_bad, (exec_bad_early (Some ip))).
  kept H n s1 H1 V1. apply (read_elf Hlo) in H1 as [R1 T1]. pose proof (settled_touched s s1 S V1 T1) as S1.
  destruct (negb _); [apply (Hearly s1); [done|congruence|done]|]. apply bind_Done_inv in H as (elf & s2 & [= _ <-] & H).
  destruct (negb _); [apply (Hearly s1); [done|congruence|done]|]. apply bind_Done_inv in H as (pr1 & s2 & [Hp1 ->]%getp_inv & H).
  apply me_view in Hp1 as (_ & _ & E1 & _)%own_fields; [|apply S1]. rewrite E1 in H.
  kept H pt s2 H2 V2. apply vm_run in H2 as [H2 R2].
  destruct S1 as (Vs & (l & Hk & Hl) & Hon).
  eapply (building_start tf (er_tf Hr) Ht0 Ht) in H2; [|exact Hk|exact Hl|exact Hon].
  destruct (Z.eqb_spec pt 0) as [->|Hpt].
  { apply (Hearly s2); [|congruence|done]. destruct H2 as [(_ & ? & ?)|Hb]; [split; [congruence|done]|]. by apply building_root in Hb. }
  destruct H2 as [[? _]|Hb]; [done|]. apply bind_Done_inv in H as (elf' & s3 & [= _ <-] & H).
  kept H ld s3 H3 V3. eapply (exec_load_built Hlo tf (er_tf Hr) Ht0 Ht l0 (kmem s0) loc_free) in H3 as [Hb3 R3]; [|exact Hb].
  destruct (negb _).
  { apply result_bad, (exec_bad_built pt ld.2 (Some ip) s3); [congruence|done|simpl; congruence|done]. }
  kept H u s4 H4 V4. apply (fsop_iunlockput loc) in H4 as [R4 T4]. kept H u1 s5 H5 V5. apply (kend_op_quiet loc) in H5 as [R5 T5].
  eapply (exec_stack_result path argv pt ld.2 s5); [congruence| | |exact H].
  - rewrite R5, R4, R3, R2, R1, R. apply (bump_back ip 1).
  - eapply building_loc; [apply loc_free|exact Hb3|]. by etransitivity.
Qed.
Lemma exec_returns path argv r s' : exec path argv s0 = Done r s' -> exec_result path r s'.
Proof.
  unfold exec. intros H. pose proof (er_locals Hr) as Hlo. destruct (er_tramp Hr) as [Ht0 Ht].
  assert (S0 : settled s0) by (split; [done|]; split; [exists l0; split; [apply (er_space Hr)|done]|done]).
  apply bind_Done_inv in H as (i & s1 & [Hme ->]%myproc_inv & H). assert (i = me) as -> by (rewrite (er_cur Hr) in Hme; congruence).
  kept H u s1 H1 V1. apply (kbegin_op_quiet loc) in H1 as [R1 T1]. pose proof (settled_touched s0 s1 S0 V1 T1) as S1.
  kept H ino s2 H2 V2. apply (fsop_namei Hlo) in H2 as [R2 T2]. pose proof (settled_touched s1 s2 S1 V2 T2) as S2.
  destruct ino as [ip|]; kept H u1 s3 H3 V3; simpl in R2.
  - apply (fsop_framed loc) in H3 as [R3 T3]; [|framed]. pose proof (settled_touched s2 s3 S2 V3 T3) as S3.
    eapply (exec_file path argv ip s3); [done|congruence|exact H].
  - injection H as <- <-. apply (kend_op_quiet loc) in H3 as [R3 T3]. apply result_bad. split; [done|]. split; [by eapply settled_touched|]. congruence.
Qed.
End FromReady.

(** C12: [exec] replaces the program or leaves everything alone.  Let the
    calling process have an address space of its size, with its own data pages
    and page-table pages, the trampoline and its trap frame mapped, and let the
    free pages, the trap frame and the local variables of the kernel functions
    lie outside it.  A call of [exec] that returns then gives back every inode
    reference it took, and either fails with -1, whatever went wrong and
    however far it got (no such file, not an executable, out of memory,
    arguments that do not fit on the stack, ...): the process table (but for
    locks, states and killed flags, which other processes write), the
    descriptors and the reference counts of files are as before, the old
    address space is intact, the same pages are free, and no byte has changed
    outside the free pages and the local variables, so that user memory, page
    tables and trap frame are as before; or it succeeds with fewer than [MAXARG]
    arguments: page table, size and name of the process are new and nothing
    else of any process is, the new table is an address space of the new size,
    all pages of the old one have been freed or reused and none is lost, and
    outside these pages and the local variables only the words [a1], [sp] and
    [epc] of the trap frame have changed, which hold the new stack pointer, in
    the stack page and aligned to 16, and the entry point of the header. *)
Theorem exec_all_or_nothing path argv s me pr l T D r s' :
  exec_ready s me pr l T D -> exec path argv s = Done r s' ->
  krefs s' = krefs s /\
  (r = -1 /\ user_view s' = user_view s /\
     (exists l', uspace (p_trapframe pr) (kmem s') l' T (p_pagetable pr) D (p_sz pr) /\ forall p, p ∈ l' <-> p ∈ l) /\
     (forall x, ~ loc x -> (forall p, p ∈ l -> ~ in_page p x) -> mget (k_mem (kmem s')) x = mget (k_mem (kmem s)) x)
   \/
   0 <= r < MAXARG /\ exists pt sz sp,
     user_view s' = user_view (upd_proc me (exec_proc pr path pt sz) s) /\ replaced_by s pr l T D (kmem s') pt sz sp).
Proof.
  intros Hr H. apply (exec_returns s me pr l T D Hr) in H as [R H]. split; [done|].
  destruct H as [(-> & Hv & (l' & Hk & Hl) & Hon)|H]; [left|by right]. split; [done|]. split; [done|]. split; [|done].
  exists l'. split; [|done]. eapply (old_stays (p_trapframe pr) l (kmem s) loc); [apply (er_space _ _ _ _ _ _ Hr)| |done|done|intros p; by apply Hl].
  intros p x Hp Hx Hloc. by eapply (proj2 (er_loc_out _ _ _ _ _ _ Hr x Hloc)).
Qed.
End ExecSpec.
