(* ===== verification/FileRefs.v ===== *)
(** * Reference counts of open files

    [f->ref] in the file table counts the descriptors that stand for the file,
    over all processes.  System calls change both sides; between them they
    agree. *)

From S2P Require Import Prelude Memory Riscv Spinlock Kalloc Vm Bio Log Txn Fs Kern Proc Pipe File Life Exec Sysfile Printf Console Syscall Views.

(** A process that has no descriptors: before [fork] and after [exit]. *)
Definition quiet (p : proc) : bool := match p_state p with UNUSED | ZOMBIE => true | _ => false end.

(** The part of the kernel the counts are about. *)
Record fview := Fview { fv_cur : option Z; fv_refs : list Z; fv_procs : list (list (option Z) * bool) }.

(** ** Counting *)

(** How often file [i] occurs among descriptors. *)
Definition cnt (i : Z) (l : list (option Z)) : Z := Z.of_nat (length (filter (fun x => x = Some i) l)).
Lemma cnt_nil i : cnt i [] = 0.
Proof. done. Qed.
Lemma cnt_cons i x l : cnt i (x :: l) = (if decide (x = Some i) then 1 else 0) + cnt i l.
Proof. unfold cnt. rewrite filter_cons. case_decide; simpl; lia. Qed.
#[export] Instance cnt_proper i : Proper ((≡ₚ) ==> (=)) (cnt i).
Proof. intros l k H. unfold cnt. by rewrite H. Qed.
Lemma cnt_length i l : 0 <= cnt i l <= Z.of_nat (length l).
Proof. unfold cnt. pose proof (length_filter (fun x => x = Some i) l). lia. Qed.

(** The descriptors of all processes. *)
Definition fds (l : list (list (option Z) * bool)) : list (option Z) := mjoin (l.*1).
Lemma fds_insert l (p : nat) o b o' b' : l !! p = Some (o, b) -> fds (<[p := (o', b')]> l) ++ o ≡ₚ fds l ++ o'.
Proof.
  intros Hp. rewrite <- (take_drop_middle l p _ Hp) at 2. rewrite insert_take_drop by (by eapply lookup_lt_Some).
  unfold fds. rewrite !fmap_app, !join_app, !fmap_cons. simpl. solve_Permutation.
Qed.
Lemma fds_set l (p k : nat) o b x y b' : l !! p = Some (o, b) -> o !! k = Some x ->
  x :: fds (<[p := (<[k := y]> o, b')]> l) ≡ₚ y :: fds l.
Proof.
  intros Hp Hk. apply (Permutation_app_inv_r (take k o ++ drop (S k) o)).
  pose proof (fds_insert l p o b (<[k := y]> o) b' Hp) as H.
  rewrite (insert_take_drop o k y) in H at 2 by (by eapply lookup_lt_Some).
  rewrite <- (take_drop_middle o k x Hk) in H at 2. transitivity (fds (<[p:=(<[k:=y]> o, b')]> l) ++ take k o ++ x :: drop (S k) o).
  - solve_Permutation.
  - rewrite H. solve_Permutation.
Qed.

(** ** The invariant

    With [X] the references that kernel code holds in local variables. *)

Definition put_ref (f r : Z) (w : fview) : fview := Fview (fv_cur w) (<[Z.to_nat f := r]> (fv_refs w)) (fv_procs w).
Definition put_proc (p : Z) (o : list (option Z)) (b : bool) (w : fview) : fview :=
  Fview (fv_cur w) (fv_refs w) (<[Z.to_nat p := (o, b)]> (fv_procs w)).
Definition ref_at (f r : Z) (w : fview) : Prop := 0 <= f /\ fv_refs w !! Z.to_nat f = Some r.
Definition proc_at (p : Z) (o : list (option Z)) (b : bool) (w : fview) : Prop :=
  0 <= p /\ fv_procs w !! Z.to_nat p = Some (o, b).

Record refs_inv (X : list (option Z)) (w : fview) : Prop := {
  ri_nproc : length (fv_procs w) = Z.to_nat NPROC;
  ri_nofile p o b : proc_at p o b w -> length o = Z.to_nat NOFILE;
  ri_quiet p o : proc_at p o true w -> Forall (fun x => x = None) o;
  ri_nfile : length (fv_refs w) = Z.to_nat NFILE;
  ri_range f : Some f ∈ X ++ fds (fv_procs w) -> 0 <= f < NFILE;
  ri_count f r : ref_at f r w -> r = cnt f (X ++ fds (fv_procs w))
}.

Lemma ref_at_put f r g x w : ref_at f r (put_ref g x w) -> 0 <= g -> (f = g /\ r = x) \/ (f <> g /\ ref_at f r w).
Proof.
  intros [H0 H] Hg. cbn [put_ref fv_refs] in H. destruct (decide (f = g)) as [->|Hne].
  - left. rewrite list_lookup_insert_eq in H; [by injection H as <-|]. apply lookup_lt_Some in H. by rewrite length_insert in H.
  - right. rewrite list_lookup_insert_ne in H by lia. done.
Qed.
Lemma proc_at_put p o b q x y w : proc_at p o b (put_proc q x y w) -> 0 <= q ->
  (p = q /\ o = x /\ b = y) \/ (p <> q /\ proc_at p o b w).
Proof.
  intros [H0 H] Hg. cbn [put_proc fv_procs] in H. destruct (decide (p = q)) as [->|Hne].
  - left. rewrite list_lookup_insert_eq in H; [by injection H as <- <-|]. apply lookup_lt_Some in H. by rewrite length_insert in H.
  - right. rewrite list_lookup_insert_ne in H by lia. done.
Qed.
Lemma proc_at_eq p o b o' b' w : proc_at p o b w -> proc_at p o' b' (put_proc p o' b' w).
Proof. intros [H0 H]. split; [done|]. apply list_lookup_insert_eq. by apply lookup_lt_Some in H. Qed.
Lemma proc_at_ne p q o b o' b' w : p <> q -> 0 <= q -> proc_at p o b w -> proc_at p o b (put_proc q o' b' w).
Proof. intros Hne Hq [H0 H]. split; [done|]. cbn [put_proc fv_procs]. rewrite list_lookup_insert_ne by lia. done. Qed.
Lemma proc_at_ref p o b f r w : proc_at p o b (put_ref f r w) <-> proc_at p o b w.
Proof. done. Qed.
Lemma proc_at_det p o b o' b' w : proc_at p o b w -> proc_at p o' b' w -> o = o' /\ b = b'.
Proof. intros [_ H] [_ H']. rewrite H in H'. by injection H'. Qed.
Lemma put_proc_twice p o b o' b' w : put_proc p o b (put_proc p o' b' w) = put_proc p o b w.
Proof. unfold put_proc; simpl. by rewrite list_insert_insert_eq. Qed.
Lemma put_ref_proc p o b f r w : put_ref f r (put_proc p o b w) = put_proc p o b (put_ref f r w).
Proof. done. Qed.

Lemma refs_in_range X w f r : refs_inv X w -> ref_at f r w -> 0 <= f < NFILE.
Proof. intros Hi [H0 H%lookup_lt_Some]. rewrite (ri_nfile _ _ Hi) in H. lia. Qed.
Lemma length_fds l : (forall o b, (o, b) ∈ l -> length o = Z.to_nat NOFILE) -> length (fds l) = (length l * Z.to_nat NOFILE)%nat.
Proof.
  induction l as [|[o b] l IH]; intros H; [done|]. change (fds ((o, b) :: l)) with (o ++ fds l). rewrite length_app, IH, (H o b); [simpl; lia|by left|].
  intros o' b' H'. eapply H. by right.
Qed.
Lemma refs_length X w : refs_inv X w -> length (fds (fv_procs w)) = Z.to_nat (NPROC * NOFILE).
Proof.
  intros Hi. rewrite length_fds, (ri_nproc _ _ Hi); [done|]. intros o b (k & Hk)%list_elem_of_lookup_1.
  apply (ri_nofile _ _ Hi (Z.of_nat k) o b). split; [lia|]. by rewrite Nat2Z.id.
Qed.

(** A reference is made: [filealloc] and [filedup]. *)
Lemma refs_up X w f r : refs_inv X w -> ref_at f r w -> (length X <= 8)%nat ->
  refs_inv (Some f :: X) (put_ref f (i32 (r + 1)) w).
Proof.
  intros Hi Hf Hx. pose proof (refs_in_range _ _ _ _ Hi Hf) as Hr. split; try apply Hi.
  - cbn [put_ref fv_refs]. rewrite length_insert. apply Hi.
  - cbn [put_ref fv_procs]. intros g Hg. apply elem_of_cons in Hg as [[= ->]|Hg]; [done|]. by apply (ri_range _ _ Hi).
  - cbn [put_ref fv_procs]. intros g x Hg. apply ref_at_put in Hg as [[-> ->]|[Hne Hg]]; [..|lia].
    + rewrite (ri_count _ _ Hi _ _ Hf). rewrite <- app_comm_cons, cnt_cons, decide_True by done. rewrite i32_small; [lia|].
      pose proof (cnt_length f (X ++ fds (fv_procs w))) as Hl. rewrite length_app, (refs_length _ _ Hi) in Hl.
      assert (Z.of_nat (Z.to_nat (NPROC * NOFILE)) = 1024) by reflexivity. lia.
    + rewrite <- app_comm_cons, cnt_cons, decide_False by congruence. by apply (ri_count _ _ Hi).
Qed.
(** A reference is dropped: [fileclose]. *)
Lemma refs_down X w f r : refs_inv (Some f :: X) w -> ref_at f r w -> refs_inv X (put_ref f (r - 1) w).
Proof.
  intros Hi Hf. pose proof (refs_in_range _ _ _ _ Hi Hf) as Hr. split; try apply Hi.
  - cbn [put_ref fv_refs]. rewrite length_insert. apply Hi.
  - cbn [put_ref fv_procs]. intros g Hg. apply (ri_range _ _ Hi). apply elem_of_cons. by right.
  - cbn [put_ref fv_procs]. intros g x Hg. apply ref_at_put in Hg as [[-> ->]|[Hne Hg]]; [..|lia].
    + rewrite (ri_count _ _ Hi _ _ Hf), <- app_comm_cons, cnt_cons, decide_True by done. lia.
    + rewrite (ri_count _ _ Hi _ _ Hg), <- app_comm_cons, cnt_cons, decide_False by congruence. lia.
Qed.

(** A reference moves into a descriptor, or out of one. *)
Lemma refs_put_fd X w p o b (k : nat) x y : refs_inv (y :: X) w -> proc_at p o b w -> o !! k = Some x ->
  (b = true -> y = None) -> refs_inv (x :: X) (put_proc p (<[k := y]> o) b w).
Proof.
  intros Hi Hp Hk Hy. assert (H0 : 0 <= p) by apply Hp.
  assert (Hperm : (x :: X) ++ fds (fv_procs (put_proc p (<[k := y]> o) b w)) ≡ₚ (y :: X) ++ fds (fv_procs w)).
  { pose proof (fds_set (fv_procs w) (Z.to_nat p) k o b x y b (proj2 Hp) Hk) as E.
    rewrite <- !app_comm_cons, !Permutation_middle. by rewrite E. }
  split; try apply Hi.
  - cbn [put_proc fv_procs]. rewrite length_insert. apply Hi.
  - intros q o' b' Hq. apply proc_at_put in Hq as [(-> & -> & ->)|[_ Hq]]; [..|done]; [|by eapply (ri_nofile _ _ Hi)].
    rewrite length_insert. by eapply (ri_nofile _ _ Hi).
  - intros q o' Hq. apply proc_at_put in Hq as [(-> & -> & <-)|[_ Hq]]; [..|done]; [|by eapply (ri_quiet _ _ Hi)].
    apply Forall_insert; [by eapply (ri_quiet _ _ Hi)|by apply Hy].
  - intros f Hf. rewrite Hperm in Hf. by apply (ri_range _ _ Hi).
  - intros f r Hf. rewrite Hperm. by apply (ri_count _ _ Hi).
Qed.
Lemma refs_None X w : refs_inv (None :: X) w <-> refs_inv X w.
Proof.
  split; intros Hi; split; try apply Hi; intros f Hf; apply (ri_range _ _ Hi).
  - apply elem_of_cons. by right.
  - by apply elem_of_cons in Hf as [|Hf].
Qed.
(** A process becomes quiet or stops being so. *)
Lemma refs_state X w p o b b' : refs_inv X w -> proc_at p o b w -> (b' = true -> Forall (fun x => x = None) o) ->
  refs_inv X (put_proc p o b' w).
Proof.
  intros Hi Hp Hq. assert (H0 : 0 <= p) by apply Hp.
  assert (Hperm : fds (fv_procs (put_proc p o b' w)) ≡ₚ fds (fv_procs w)).
  { apply (Permutation_app_inv_r o). exact (fds_insert (fv_procs w) (Z.to_nat p) o b o b' (proj2 Hp)). }
  split; try apply Hi.
  - cbn [put_proc fv_procs]. rewrite length_insert. apply Hi.
  - intros q o' b2 Hq'. apply proc_at_put in Hq' as [(-> & -> & ->)|[_ Hq']]; [..|done]; by eapply (ri_nofile _ _ Hi).
  - intros q o' Hq'. apply proc_at_put in Hq' as [(-> & -> & <-)|[_ Hq']]; [..|done]; [by apply Hq|by eapply (ri_quiet _ _ Hi)].
  - intros f Hf. rewrite Hperm in Hf. by apply (ri_range _ _ Hi).
  - intros f r Hf. rewrite Hperm. by apply (ri_count _ _ Hi).
Qed.
Lemma refs_swap X x y w : refs_inv (x :: y :: X) w -> refs_inv (y :: x :: X) w.
Proof.
  intros Hi. assert (Hp : (y :: x :: X) ++ fds (fv_procs w) ≡ₚ (x :: y :: X) ++ fds (fv_procs w)) by solve_Permutation.
  split; try apply Hi.
  - intros f Hf. rewrite Hp in Hf. by apply (ri_range _ _ Hi).
  - intros f r Hf. rewrite Hp. by apply (ri_count _ _ Hi).
Qed.

(** ** The operations on files and descriptors *)

Section FileRefs.
Context `{HC : Ctx} `{HI : Image} `{HF : Frame} `{HS : Syms} `{HE : ExecFrame}.

Definition fdp (p : proc) : list (option Z) * bool := (p_ofile p, quiet p).
Definition fv (s : kern) : fview := Fview (cur s) (f_ref <$> kn_files s) (fdp <$> kn_procs s).

#[export] Instance fv_view : View fv fdp.
Proof.
  split; try done; intros; unfold fv; simpl.
  - by f_equal.
  - f_equal. apply cur_set_cpu.
  - by f_equal.
  - unfold fdp, quiet. simpl. by rewrite H.
Qed.

Lemma fv_proc s i p : nth_proc s i = Some p -> proc_at i (p_ofile p) (quiet p) (fv s).
Proof.
  intros Hp. pose proof (nth_proc_range _ _ _ Hp). split; [lia|]. unfold nth_proc in Hp. destruct (i <? 0); [done|].
  cbn [fv fv_procs]. by rewrite list_lookup_fmap, Hp.
Qed.
Lemma fv_upd_proc s i q : fv (upd_proc i q s) = put_proc i (p_ofile q) (quiet q) (fv s).
Proof. unfold fv, put_proc; simpl. by rewrite list_fmap_insert. Qed.
Lemma fv_upd_file s i x : fv (upd_file i x s) = put_ref i (f_ref x) (fv s).
Proof. unfold fv, put_ref; simpl. by rewrite list_fmap_insert. Qed.
Lemma fv_file s i x : 0 <= i -> kn_files s !! Z.to_nat i = Some x -> ref_at i (f_ref x) (fv s).
Proof. intros H0 H. split; [done|]. cbn [fv fv_refs]. by rewrite list_lookup_fmap, H. Qed.

(** Takes the first step off a run, which keeps the view. *)
Ltac kept H a :=
  let s := fresh "s" in let H1 := fresh "H1" in let E := fresh "E" in
  apply bind_Done_inv in H as (a & s & H1 & H);
  assert (E : fv s = fv _) by (eapply (fun K : keeps fv _ => K _ _ _ H1); keep);
  clear H1.

Lemma filealloc_fv s r s' : filealloc s = Done r s' ->
  match r with Some f => ref_at f 0 (fv s) /\ fv s' = put_ref f 1 (fv s) | None => fv s' = fv s end.
Proof.
  unfold filealloc. intros H. kept H u. apply bind_Done_inv in H as (r1 & s1 & H1 & H). kept H u1. injection H as -> <-.
  rewrite E0, <- E. clear E E0. revert H1. generalize (upto NFILE). intros l. induction l as [|i l IH]; cbn [filealloc_find].
  { by intros [= <- <-]. }
  intros (x & s3 & (H0 & Hx & ->)%getf_inv & H)%bind_Done_inv. destruct (Z.eqb_spec (f_ref x) 0) as [Hr|Hr]; [|by apply IH].
  apply bind_Done_inv in H as (u2 & s4 & (y & _ & Hy & ->)%setf_inv & H). injection H as <- <-. rewrite fv_upd_file.
  split; [|done]. rewrite <- Hr. by apply fv_file.
Qed.
Lemma filedup_fv f s r s' : filedup f s = Done r s' -> r = f /\ exists n, ref_at f n (fv s) /\ fv s' = put_ref f (i32 (n + 1)) (fv s).
Proof.
  unfold filedup. intros H. kept H u. apply bind_Done_inv in H as (x & s1 & (H0 & Hx & ->)%getf_inv & H).
  kept H u1. apply bind_Done_inv in H as (u2 & s4 & (y & _ & Hy & ->)%setf_inv & H). kept H u3. injection H as <- <-.
  rewrite E1, fv_upd_file, E0, <- E. split; [done|]. exists (f_ref x). split; [by apply fv_file|done].
Qed.
Lemma fileclose_fv f s r s' : fileclose f s = Done r s' -> exists n, ref_at f n (fv s) /\ fv s' = put_ref f (n - 1) (fv s).
Proof.
  unfold fileclose. intros H. kept H u. apply bind_Done_inv in H as (x & s1 & (H0 & Hx & ->)%getf_inv & H).
  exists (f_ref x). split; [rewrite <- E; by apply fv_file|].
  apply bind_Done_inv in H as (u1 & s1 & H1 & H). destruct (Z.ltb_spec (f_ref x) 1) as [|Hlt]; [done|]. injection H1 as _ <-.
  apply bind_Done_inv in H as (u2 & s2 & (y & _ & Hy & ->)%setf_inv & H). destruct (Z.ltb_spec 0 (f_ref x - 1)) as [|Hle].
  { by rewrite (keeps_rel fv fdp _ _ _ _ H), fv_upd_file, E. }
  replace (f_ref x - 1) with 0 in * by lia. apply bind_Done_inv in H as (z & s2 & (_ & Hz & ->)%getf_inv & H).
  apply bind_Done_inv in H as (u3 & s3 & (z1 & _ & Hz1 & ->)%setf_inv & H).
  apply bind_Done_inv in H as (u4 & s4 & (z2 & _ & Hz2 & ->)%setf_inv & H).
  kept H u5. assert (E1 : fv s' = fv s1) by (eapply (fun K : keeps fv _ => K _ _ _ H); keep).
  rewrite E1, E0, !fv_upd_file, E. cbn [f_ref set_f_ref set_f_type].
  cbn [upd_file kn_files set_files] in Hz1, Hz2.
  rewrite list_lookup_insert_eq in Hz2 by (by eapply lookup_lt_Some).
  injection Hz2 as <-. unfold put_ref; simpl. by rewrite !list_insert_insert_eq.
Qed.

Lemma set_fd_fv p fd x s a s' : set_fd p fd x s = Done a s' ->
  exists o b, proc_at p o b (fv s) /\ fv s' = put_proc p (<[Z.to_nat fd := x]> o) b (fv s).
Proof.
  intros (q & Hq & ->)%setp_inv. exists (p_ofile q), (quiet q). split; [by apply fv_proc|]. by rewrite fv_upd_proc.
Qed.
Lemma argfd_fv n s fd f s' : argfd n s = Done (Some (fd, f)) s' -> fv s' = fv s /\
  exists me o b, fv_cur (fv s) = Some me /\ proc_at me o b (fv s) /\ o !! Z.to_nat fd = Some (Some f).
Proof.
  intros H. split; [by eapply (keeps_argfd fv fdp)|]. unfold argfd in H. kept H x. destruct (_ || _); [done|].
  apply bind_Done_inv in H as (me & s1 & [Hme ->]%myproc_inv & H). apply bind_Done_inv in H as (pr & s1 & [Hpr ->]%getp_inv & H).
  rewrite <- E. exists me, (p_ofile pr), (quiet pr). split; [done|]. split; [by apply fv_proc|].
  destruct (p_ofile pr !! Z.to_nat x) as [[g|]|] eqn:Eg; [|done..]. by injection H as <- <- _.
Qed.
Lemma fdalloc_fv f s fd s' : fdalloc f s = Done fd s' -> (fd = -1 /\ fv s' = fv s) \/
  (0 <= fd /\ exists me o b, fv_cur (fv s) = Some me /\ proc_at me o b (fv s) /\ o !! Z.to_nat fd = Some None /\
    fv s' = put_proc me (<[Z.to_nat fd := Some f]> o) b (fv s)).
Proof.
  unfold fdalloc. intros (me & s1 & [Hme ->]%myproc_inv & H)%bind_Done_inv. revert H.
  assert (Hl : forall k, k ∈ upto NOFILE -> 0 <= k) by (intros k Hk%elem_upto; lia). revert Hl. generalize (upto NOFILE). intros l.
  induction l as [|k l IH]; intros Hl; cbn [fdalloc_loop]; [left; by injection H as <- <-|].
  intros (pr & s1 & [Hpr ->]%getp_inv & H)%bind_Done_inv.
  destruct (p_ofile pr !! Z.to_nat k) as [[g|]|] eqn:Eg; [|..|done]; [apply IH; [|done]; intros; apply Hl; by right|].
  apply bind_Done_inv in H as (u & s1 & (q & Hq & ->)%setp_inv & H). rewrite Hpr in Hq. injection Hq as <-. injection H as <- <-.
  right. split; [apply Hl; by left|]. exists me, (p_ofile pr), (quiet pr). split_and!; [done|by apply fv_proc..|done|].
  by rewrite fv_upd_proc.
Qed.

(** ** System calls *)

Definition busy (w : fview) : Prop := exists me o, fv_cur w = Some me /\ proc_at me o false w.
Definition safe {A} (m : M kern A) : Prop := forall s a s', refs_inv [] (fv s) -> busy (fv s) -> m s = Done a s' -> refs_inv [] (fv s').

Lemma safe_keeps {A} (m : M kern A) : keeps fv m -> safe m.
Proof. intros K s a s' Hi _ H. by rewrite (K _ _ _ H). Qed.

(** The process that runs has descriptors. *)
Lemma busy_at w me o b : busy w -> fv_cur w = Some me -> proc_at me o b w -> b = false.
Proof. intros (me' & o' & Hc & Hp) Hme Hat. assert (me' = me) by congruence. subst. by destruct (proc_at_det _ _ _ _ _ _ Hp Hat). Qed.

Lemma safe_dup : safe sys_dup.
Proof.
  intros s r s' Hi Hb H. unfold sys_dup in H. apply bind_Done_inv in H as (x & s1 & Hx & H).
  destruct x as [[fd0 f]|].
  2:{ injection H as _ <-. by rewrite (keeps_argfd fv fdp _ _ _ _ Hx). }
  apply argfd_fv in Hx as [E Hf]. apply bind_Done_inv in H as (fd & s2 & H2 & H). rewrite <- E in Hi, Hb, Hf. clear E.
  apply fdalloc_fv in H2 as [[-> E2]|(H0 & me & o & b & Hme & Hat & Hk & E2)]; [injection H as _ <-; by rewrite E2|].
  destruct (Z.ltb_spec fd 0); [lia|]. apply bind_Done_inv in H as (g & s3 & (_ & n & Hn & E3)%filedup_fv & H). injection H as _ <-.
  pose proof (busy_at _ _ _ _ Hb Hme Hat) as ->. rewrite E3, E2, put_ref_proc. rewrite E2 in Hn. apply refs_None.
  apply (refs_put_fd [] (put_ref f _ (fv s1)) me o false); [|done..]. apply refs_up; [done|exact Hn|simpl; lia].
Qed.

Lemma safe_close : safe sys_close.
Proof.
  intros s r s' Hi Hb H. unfold sys_close in H. apply bind_Done_inv in H as (x & s1 & Hx & H).
  destruct x as [[fd f]|].
  2:{ injection H as _ <-. by rewrite (keeps_argfd fv fdp _ _ _ _ Hx). }
  apply argfd_fv in Hx as (E & me & o & b & Hme & Hat & Hk). rewrite <- E in *. clear E.
  apply bind_Done_inv in H as (p & s2 & [Hp ->]%myproc_inv & H). assert (p = me) as -> by (cbn [fv fv_cur] in Hme; congruence).
  apply bind_Done_inv in H as (u & s2 & (o' & b' & Hat' & E2)%set_fd_fv & H). destruct (proc_at_det _ _ _ _ _ _ Hat Hat') as [<- <-].
  apply bind_Done_inv in H as (u1 & s3 & (n & Hn & E3)%fileclose_fv & H). injection H as _ <-.
  rewrite E3. apply refs_down; [|done]. rewrite E2. apply (refs_put_fd [] (fv s1) me o b _ (Some f) None); [by apply refs_None|done..].
Qed.

#[local] Hint Extern 1 (keeps fv (setf _ _)) => apply (keeps_setf fv fdp); reflexivity : keeps.
#[local] Hint Extern 1 (keeps fv (setp _ _)) => apply (keeps_setp fv fdp); reflexivity : keeps.

(** [filealloc] and [fileclose] while references [X] are held. *)
Lemma filealloc_refs X s r s' : filealloc s = Done r s' -> refs_inv X (fv s) -> (length X <= 8)%nat ->
  match r with Some f => refs_inv (Some f :: X) (fv s') | None => refs_inv X (fv s') end /\
  fv_cur (fv s') = fv_cur (fv s) /\ fv_procs (fv s') = fv_procs (fv s).
Proof.
  intros H%filealloc_fv Hi Hx. destruct r as [f|]; [|by rewrite H]. destruct H as [Hf ->]. split; [|done].
  by apply (refs_up X _ f 0).
Qed.
Lemma fileclose_refs X f s r s' : fileclose f s = Done r s' -> refs_inv (Some f :: X) (fv s) ->
  refs_inv X (fv s') /\ fv_cur (fv s') = fv_cur (fv s) /\ fv_procs (fv s') = fv_procs (fv s).
Proof. intros (n & Hn & ->)%fileclose_fv Hi. split; [|done]. by apply refs_down. Qed.

Lemma busy_same w w' : fv_cur w' = fv_cur w -> fv_procs w' = fv_procs w -> busy w -> busy w'.
Proof. intros Hc Hp (me & o & Hme & Hat). exists me, o. unfold proc_at. by rewrite Hc, Hp. Qed.

(** [fdalloc] takes over the reference it is given. *)
Lemma fdalloc_refs X f s fd s' : fdalloc f s = Done fd s' -> refs_inv (Some f :: X) (fv s) -> busy (fv s) ->
  (fd = -1 /\ fv s' = fv s) \/ (0 <= fd /\ refs_inv X (fv s') /\ busy (fv s') /\ fv_cur (fv s') = fv_cur (fv s) /\
     forall me, fv_cur (fv s) = Some me -> exists o, proc_at me o false (fv s) /\ o !! Z.to_nat fd = Some None /\
       proc_at me (<[Z.to_nat fd := Some f]> o) false (fv s')).
Proof.
  intros [?|(H0 & me & o & b & Hme & Hat & Hk & ->)]%fdalloc_fv Hi Hb; [by left|]. right. split; [done|].
  pose proof (busy_at _ _ _ _ Hb Hme Hat) as ->. split_and!.
  - apply refs_None. by apply (refs_put_fd X (fv s) me o false).
  - exists me, (<[Z.to_nat fd := Some f]> o). split; [done|]. by eapply proc_at_eq.
  - done.
  - intros me' Hme'. rewrite Hme in Hme'. injection Hme' as <-. exists o.
    split_and!; [done..|]. by eapply proc_at_eq.
Qed.

Lemma safe_open_inode ip omode : safe (open_inode ip omode).
Proof.
  intros s r s' Hi Hb H. unfold open_inode in H. kept H p. rewrite <- E in Hi, Hb. clear E. destruct (_ && _).
  { by rewrite (fun K : keeps fv _ => K _ _ _ H) by keep. }
  apply bind_Done_inv in H as (x & s1 & H1 & H). destruct (filealloc_refs [] _ _ _ H1 Hi) as (Hi1 & Hc & Hp); [simpl; lia|].
  assert (Hb1 : busy (fv s1)) by (by eapply busy_same). destruct x as [f|].
  2:{ by rewrite (fun K : keeps fv _ => K _ _ _ H) by keep. }
  apply bind_Done_inv in H as (fd & s2 & H2 & H).
  destruct (fdalloc_refs _ _ _ _ _ H2 Hi1 Hb1) as [[-> E]|(H0 & Hi2 & _)].
  - apply bind_Done_inv in H as (u & s3 & H3 & H). rewrite <- E in Hi1. destruct (fileclose_refs _ _ _ _ _ H3 Hi1) as [Hi3 _].
    by rewrite (fun K : keeps fv _ => K _ _ _ H) by keep.
  - destruct (Z.ltb_spec fd 0); [lia|]. by rewrite (fun K : keeps fv _ => K _ _ _ H) by keep.
Qed.

Lemma safe_bind {A B} (m : M kern A) (k : A -> M kern B) : keeps fv m -> (forall a, safe (k a)) -> safe (bind m k).
Proof.
  intros Km Kk s b s' Hi Hb (a & s1 & H1 & H2)%bind_Done_inv. specialize (Km _ _ _ H1). rewrite <- Km in Hi, Hb. by eapply Kk.
Qed.
Lemma safe_open : safe sys_open.
Proof.
  unfold sys_open.
  repeat first [apply safe_open_inode | match goal with
    | |- safe (bind _ _) => apply safe_bind; [solve [keep]|intros]
    | |- safe (match ?x with _ => _ end) => destruct x end | apply safe_keeps; keep ].
Qed.

Lemma pipealloc_refs s r s' : pipealloc s = Done r s' -> refs_inv [] (fv s) ->
  match r with Some (f0, f1) => refs_inv [Some f1; Some f0] (fv s') | None => refs_inv [] (fv s') end /\
  fv_cur (fv s') = fv_cur (fv s) /\ fv_procs (fv s') = fv_procs (fv s).
Proof.
  intros H Hi. unfold pipealloc, pipe_bad in H. apply bind_Done_inv in H as (x & s1 & H1 & H).
  destruct (filealloc_refs [] _ _ _ H1 Hi) as (Hi1 & Hc1 & Hp1); [simpl; lia|]. destruct x as [f0|].
  2:{ kept H u. kept H u1. injection H as <- <-. by rewrite E0, E. }
  apply bind_Done_inv in H as (x & s2 & H2 & H). destruct (filealloc_refs _ _ _ _ H2 Hi1) as (Hi2 & Hc2 & Hp2); [simpl; lia|].
  destruct x as [f1|].
  2:{ apply bind_Done_inv in H as (u & s3 & H3 & H). destruct (fileclose_refs _ _ _ _ _ H3 Hi2) as (Hi3 & Hc3 & Hp3).
      kept H u1. injection H as <- <-. rewrite E, Hc3, Hp3, Hc2, Hp2. done. }
  kept H pi. rewrite <- E in Hi2, Hc2, Hp2. destruct (pi =? 0).
  - apply bind_Done_inv in H as (u & s4 & H4 & H). apply refs_swap in Hi2.
    destruct (fileclose_refs _ _ _ _ _ H4 Hi2) as (Hi4 & Hc4 & Hp4).
    apply bind_Done_inv in H as (u1 & s5 & H5 & H). destruct (fileclose_refs _ _ _ _ _ H5 Hi4) as (Hi5 & Hc5 & Hp5).
    injection H as <- <-. rewrite Hc5, Hp5, Hc4, Hp4, Hc2, Hp2. done.
  - do 14 (let u := fresh "u" in kept H u). injection H as <- <-.
    match goal with |- _ /\ _ /\ fv_procs (fv ?t) = _ => assert (Ev : fv t = fv s0) by congruence end.
    rewrite Ev, Hc2, Hp2. done.
Qed.

(** Giving a descriptor back: the reference is the kernel's again. *)
Lemma set_fd_refs X p fd f o s a s' : set_fd p fd None s = Done a s' -> refs_inv X (fv s) -> proc_at p o false (fv s) ->
  o !! Z.to_nat fd = Some (Some f) -> refs_inv (Some f :: X) (fv s') /\
  proc_at p (<[Z.to_nat fd := None]> o) false (fv s').
Proof.
  intros (o' & b' & Hat' & ->)%set_fd_fv Hi Hat Hk. destruct (proc_at_det _ _ _ _ _ _ Hat Hat') as [<- <-].
  split; [|by eapply proc_at_eq]. by apply (refs_put_fd X (fv s) p o false (Z.to_nat fd) (Some f) None); [apply refs_None|..].
Qed.
Lemma close_both f0 f1 s r s' : (fileclose f0 ;;; fileclose f1 ;;; ret (-1)) s = Done r s' ->
  refs_inv [Some f0; Some f1] (fv s) -> refs_inv [] (fv s').
Proof.
  intros (u & s1 & H1 & H)%bind_Done_inv Hi. destruct (fileclose_refs _ _ _ _ _ H1 Hi) as [Hi1 _].
  apply bind_Done_inv in H as (u1 & s2 & H2 & H). injection H as _ <-. by apply (fileclose_refs _ _ _ _ _ H2).
Qed.

Lemma safe_pipe : safe sys_pipe.
Proof.
  intros s r s' Hi Hb H. unfold sys_pipe in H. apply bind_Done_inv in H as (p & s0 & [Hp ->]%myproc_inv & H).
  kept H a. rewrite <- E in Hi, Hb. assert (Hc0 : fv_cur (fv s0) = Some p) by (rewrite E; done). clear E Hp.
  apply bind_Done_inv in H as (x & s1 & H1 & H). destruct (pipealloc_refs _ _ _ H1 Hi) as (Hi1 & Hc1 & Hp1).
  assert (Hb1 : busy (fv s1)) by (by eapply busy_same). rewrite Hc0 in Hc1. destruct x as [[rf wf]|]; [|by injection H as _ <-].
  apply bind_Done_inv in H as (fd0 & s2 & H2 & H). apply refs_swap in Hi1.
  destruct (fdalloc_refs _ _ _ _ _ H2 Hi1 Hb1) as [[-> E2]|(Hf0 & Hi2 & Hb2 & Hc2 & Hat2)].
  { apply bind_Done_inv in H as (fd1 & s3 & H3 & H). injection H3 as <- <-. simpl in H.
    apply bind_Done_inv in H as (u & s3 & H3 & H). injection H3 as _ <-. rewrite <- E2 in Hi1. by eapply close_both. }
  destruct (Z.ltb_spec fd0 0) as [?|_]; [lia|]. apply bind_Done_inv in H as (fd1 & s3 & H3 & H). destruct (Hat2 _ Hc1) as (o & _ & Hk & Hat).
  pose proof (list_lookup_insert_eq _ _ (Some rf) (lookup_lt_Some _ _ _ Hk)) as Hk0.
  destruct (fdalloc_refs _ _ _ _ _ H3 Hi2 Hb2) as [[-> E3]|(Hf1 & Hi3 & Hb3 & Hc3 & Hat3)].
  { simpl in H. destruct (Z.leb_spec 0 fd0) as [_|?]; [|lia]. cbn [when] in H. apply bind_Done_inv in H as (u & s4 & H4 & H).
    rewrite <- E3 in *. destruct (set_fd_refs _ _ _ _ _ _ _ _ H4 Hi2 Hat Hk0) as [Hi4 _]. by eapply close_both. }
  destruct (Z.ltb_spec fd1 0) as [?|_]; [lia|]. kept H c. kept H c1. destruct (_ <? _).
  2:{ injection H as _ <-. by rewrite E0, E. }
  rewrite Hc2 in Hat3. destruct (Hat3 _ Hc1) as (o' & Hat' & Hk1 & Hat1). destruct (proc_at_det _ _ _ _ _ _ Hat Hat') as [<- _].
  assert (Hne : Z.to_nat fd0 <> Z.to_nat fd1) by (intros Heq; rewrite <- Heq, Hk0 in Hk1; done).
  pose proof (list_lookup_insert_eq _ _ (Some wf) (lookup_lt_Some _ _ _ Hk1)) as Hk1'.
  rewrite <- (list_lookup_insert_ne _ _ _ (Some wf) (not_eq_sym Hne)) in Hk0.
  rewrite <- E, <- E0 in Hi3, Hat1. clear -H Hi3 Hat1 Hk0 Hk1' Hne.
  apply bind_Done_inv in H as (u & s6 & H6 & H). destruct (set_fd_refs _ _ _ _ _ _ _ _ H6 Hi3 Hat1 Hk0) as [Hi6 Hat6].
  rewrite <- (list_lookup_insert_ne _ _ _ None Hne) in Hk1'.
  apply bind_Done_inv in H as (u1 & s7 & H7 & H). destruct (set_fd_refs _ _ _ _ _ _ _ _ H7 Hi6 Hat6 Hk1') as [Hi7 _].
  apply refs_swap in Hi7. by eapply close_both.
Qed.


(** ** Processes *)

Lemma put_proc_id p o b w : proc_at p o b w -> put_proc p o b w = w.
Proof. intros [_ H]. unfold put_proc. rewrite list_insert_id by done. by destruct w. Qed.

Lemma keeps_sched : keeps fv sched.
Proof. unfold sched. keep. Qed.
Lemma keeps_allocpid : keeps fv allocpid.
Proof. unfold allocpid. keep. apply keeps_modify. intros. apply vw_nextpid. Qed.
#[local] Hint Resolve keeps_sched keeps_allocpid : keeps.

Lemma setp_state_fv p st s a s' : setp p (set_state st) s = Done a s' ->
  exists o b, proc_at p o b (fv s) /\ fv s' = put_proc p o (match st with UNUSED | ZOMBIE => true | _ => false end) (fv s).
Proof.
  intros (q & Hq & ->)%setp_inv. exists (p_ofile q), (quiet q). split; [by apply fv_proc|]. rewrite fv_upd_proc. by destruct st.
Qed.
Lemma freeproc_fv p s a s' : freeproc p s = Done a s' -> exists o b, proc_at p o b (fv s) /\ fv s' = put_proc p o true (fv s).
Proof.
  unfold freeproc. intros H. kept H pr. do 11 (let u := fresh "u" in kept H u). apply setp_state_fv in H as (o & b & Hat & ->).
  exists o, b. match type of Hat with proc_at _ _ _ (fv ?t) => assert (Ev : fv t = fv s) by congruence end.
  by rewrite Ev in *.
Qed.
Lemma allocproc_find_fv l s r s' : allocproc_find l s = Done r s' -> fv s' = fv s /\
  match r with Some p => exists o, proc_at p o true (fv s) | None => True end.
Proof.
  revert s. induction l as [|p l IH]; intros s; cbn [allocproc_find]; [by intros [= <- <-]|].
  intros H. kept H u. apply bind_Done_inv in H as (pr & s1 & [Hp ->]%getp_inv & H).
  destruct (bool_decide_reflect (p_state pr = UNUSED)) as [Hst|_].
  - injection H as <- <-. split; [done|]. exists (p_ofile pr). rewrite <- E. apply fv_proc in Hp. unfold quiet in Hp. by rewrite Hst in Hp.
  - kept H u1. rewrite <- E, <- E0. by apply IH.
Qed.
Lemma allocproc_fv s r s' : allocproc s = Done r s' ->
  match r with
  | Some np => exists o, proc_at np o true (fv s) /\ fv s' = put_proc np o false (fv s)
  | None => fv s' = fv s
  end.
Proof.
  unfold allocproc. intros (x & s1 & [E1 Hx]%allocproc_find_fv & H)%bind_Done_inv.
  destruct x as [p|]; [|by injection H as <- <-]. destruct Hx as (o & Hat). kept H pid. kept H u.
  apply bind_Done_inv in H as (u1 & s4 & (o' & b' & Hat' & E4)%setp_state_fv & H). rewrite E0, E, E1 in *. clear E E0 E1.
  destruct (proc_at_det _ _ _ _ _ _ Hat Hat') as [<- <-].
  assert (Hfree : forall t t' (x : option Z) r, fv t = put_proc p o false (fv s) ->
    (freeproc p ;;; rel (p_lens p) ;;; ret x) t = Done r t' -> r = x /\ fv t' = fv s).
  { intros t t' x r' Et (u2 & t1 & (o2 & b2 & Hat2 & E2)%freeproc_fv & Ht)%bind_Done_inv. kept Ht u3. injection Ht as <- <-.
    split; [done|]. rewrite Et in *. apply (proc_at_det _ _ _ _ _ _ (proc_at_eq _ _ _ o false _ Hat)) in Hat2 as [<- <-].
    rewrite E, E2, put_proc_twice. by apply put_proc_id. }
  kept H tf. kept H u2. destruct (tf =? 0); [eapply Hfree in H as [-> H]; [done|congruence]|].
  kept H pt. kept H u3. destruct (pt =? 0); [eapply Hfree in H as [-> H]; [done|congruence]|].
  kept H pr. kept H u4. injection H as <- <-. exists o. split; [done|]. congruence.
Qed.

(** [wait] frees processes that are quiet already. *)
Lemma keeps_wait_scan l p a : forall h, keeps fv (wait_scan l p a h).
Proof.
  induction l as [|pp l IH]; intros h; cbn [wait_scan]; [keep|]. apply keeps_bind; [keep|]. intros q.
  destruct (bool_decide _); [|keep]. apply keeps_bind; [keep|]. intros []. apply keeps_proc. intros q' s r s' Hq H.
  destruct (bool_decide_reflect (p_state q' = ZOMBIE)) as [Hz|_]; [|by rewrite (fun K : keeps fv _ => K _ _ _ H) by keep].
  apply fv_proc in Hq. unfold quiet in Hq. rewrite Hz in Hq. kept H c. rewrite <- E in Hq |- *.
  destruct (_ <? _); [by rewrite (fun K : keeps fv _ => K _ _ _ H) by keep|].
  apply bind_Done_inv in H as (u & s1 & (o & b & Hat & E1)%freeproc_fv & H).
  rewrite (fun K : keeps fv _ => K _ _ _ H) by keep. rewrite E1.
  destruct (proc_at_det _ _ _ _ _ _ Hq Hat) as [<- <-]. by apply put_proc_id.
Qed.
#[local] Hint Resolve keeps_wait_scan : keeps.
Lemma keeps_wait a : keeps fv (wait a).
Proof. unfold wait, wait_round. keep. Qed.

(** The loop of [fork]: entry [k] of the child is free until its turn. *)
Lemma fork_ofile_refs p np k o s a s' : fork_ofile p np k s = Done a s' -> refs_inv [] (fv s) -> p <> np ->
  proc_at np o false (fv s) -> o !! Z.to_nat k = Some None ->
  exists o', refs_inv [] (fv s') /\ proc_at np o' false (fv s') /\ forall j, j <> Z.to_nat k -> o' !! j = o !! j.
Proof.
  unfold fork_ofile. intros (pr & s1 & [Hpr ->]%getp_inv & H)%bind_Done_inv Hi Hne Hat Hk.
  destruct (p_ofile pr !! Z.to_nat k) as [[f|]|]; [|injection H as _ <-; by exists o..].
  apply bind_Done_inv in H as (g & s1 & (-> & n & Hn & E1)%filedup_fv & H).
  change (set_fd np k (Some f) s1 = Done a s') in H. apply set_fd_fv in H as (o' & b & Hat' & E2). rewrite E1 in Hat', E2.
  destruct (proc_at_det _ _ _ _ _ _ Hat (proj1 (proc_at_ref _ _ _ _ _ _) Hat')) as [<- <-].
  exists (<[Z.to_nat k := Some f]> o). rewrite E2. split_and!.
  - apply refs_None. apply (refs_put_fd [] (put_ref f _ (fv s)) np o false); [|done..]. apply refs_up; [done..|simpl; lia].
  - by eapply proc_at_eq.
  - intros j Hj. by rewrite list_lookup_insert_ne.
Qed.
Lemma fork_ofiles_refs p np l : NoDup l -> (forall k, k ∈ l -> 0 <= k) -> p <> np -> forall o s a s',
  for_each l (fork_ofile p np) s = Done a s' -> refs_inv [] (fv s) -> proc_at np o false (fv s) ->
  (forall k, k ∈ l -> o !! Z.to_nat k = Some None) -> refs_inv [] (fv s') /\ exists o', proc_at np o' false (fv s').
Proof.
  intros Hnd Hl Hne. induction l as [|k l IH]; intros o s a s'; cbn [for_each].
  { intros [= _ <-]. eauto. }
  intros (u & s1 & H1 & H)%bind_Done_inv Hi Hat Hk. apply NoDup_cons in Hnd as [Hnk Hnd].
  destruct (fork_ofile_refs _ _ _ _ _ _ _ H1 Hi Hne Hat) as (o' & Hi' & Hat' & Ho'); [apply Hk; by left|].
  eapply IH; [done| |exact H|exact Hi'|exact Hat'|].
  { intros j Hj. apply Hl. by right. }
  intros j Hj. assert (0 <= j) by (apply Hl; by right). assert (0 <= k) by (apply Hl; by left).
  rewrite Ho' by (intros Heq; assert (j = k) by lia; by subst). apply Hk. by right.
Qed.

Lemma busy_not_quiet w np o : busy w -> proc_at np o true w -> fv_cur w <> Some np.
Proof. intros (me & om & Hme & Hm) Hn Heq. assert (me = np) by congruence. subst. by destruct (proc_at_det _ _ _ _ _ _ Hm Hn). Qed.

Lemma safe_fork : safe fork.
Proof.
  intros s r s' Hi Hb H. unfold fork in H. apply bind_Done_inv in H as (p & s0 & [Hp ->]%myproc_inv & H).
  apply bind_Done_inv in H as (x & s1 & Hx%allocproc_fv & H). destruct x as [np|]; [|injection H as _ <-; by rewrite Hx].
  destruct Hx as (o & Hq & E1). pose proof (ri_quiet _ _ Hi _ _ Hq) as Hno. pose proof (busy_not_quiet _ _ _ Hb Hq) as Hne.
  assert (Hpn : p <> np) by (intros ->; done).
  assert (Hi1 : refs_inv [] (fv s1)) by (rewrite E1; by eapply refs_state).
  assert (Hat1 : proc_at np o false (fv s1)) by (rewrite E1; by eapply proc_at_eq).
  kept H pr. kept H npr. kept H c. rewrite <- E, <- E0, <- E2 in Hi1, Hat1. clear E E0 E2. destruct (_ <? _).
  { apply bind_Done_inv in H as (u & se & (o' & b' & Hat' & E5)%freeproc_fv & H). kept H e1. injection H as _ <-. rewrite E, E5.
    destruct (proc_at_det _ _ _ _ _ _ Hat1 Hat') as [<- <-]. by eapply refs_state. }
  do 3 (let u := fresh "u" in kept H u). rewrite <- E, <- E0, <- E2 in Hi1, Hat1. clear E E0 E2.
  apply bind_Done_inv in H as (u2 & sf & H6 & H).
  destruct (fork_ofiles_refs p np (upto NOFILE) (NoDup_upto _) (fun k Hk => proj1 (proj1 (elem_upto _ _) Hk)) Hpn _ _ _ _ H6 Hi1 Hat1)
    as (Hi6 & o6 & Hat6).
  { intros k Hk%elem_upto. pose proof (ri_nofile _ _ Hi1 _ _ _ Hat1) as Hlen.
    destruct (lookup_lt_is_Some_2 o (Z.to_nat k)) as [x Hx]; [lia|]. rewrite Forall_lookup in Hno. by rewrite (Hno _ _ Hx) in Hx. }
  clear Hi1 Hat1 H6 Hi Hb Hq Hno Hne E1 Hp.
  kept H pr'. kept H cwd. kept H e3. kept H e4. kept H npr'. kept H e5. kept H e6. kept H e7. kept H e8. kept H e9.
  apply bind_Done_inv in H as (e10 & sg & (o' & b' & Hat' & E17)%setp_state_fv & H). kept H e11. injection H as _ <-.
  match type of Hat' with proc_at _ _ _ (fv ?t) => assert (Ev : fv t = fv sf) by congruence end. rewrite Ev in *.
  destruct (proc_at_det _ _ _ _ _ _ Hat6 Hat') as [<- <-]. rewrite put_proc_id in E17 by done.
  match goal with |- refs_inv [] (fv ?t) => replace (fv t) with (fv sf) by congruence end. done.
Qed.

Lemma exit_ofile_refs p fd o b s a s' : exit_ofile p fd s = Done a s' -> refs_inv [] (fv s) -> proc_at p o b (fv s) ->
  exists o', refs_inv [] (fv s') /\ proc_at p o' b (fv s') /\ (forall k, o !! k = Some None -> o' !! k = Some None) /\
    (forall x, o' !! Z.to_nat fd = Some x -> x = None).
Proof.
  unfold exit_ofile. intros (pr & s1 & [Hpr%fv_proc ->]%getp_inv & H)%bind_Done_inv Hi Hat.
  destruct (proc_at_det _ _ _ _ _ _ Hat Hpr) as [Ho _]. rewrite <- Ho in H. clear Ho Hpr. destruct (o !! Z.to_nat fd) as [[f|]|] eqn:Ek.
  2,3: injection H as _ <-; exists o; split_and!; [done..|intros x; rewrite Ek; congruence].
  apply bind_Done_inv in H as (u & s1 & (n & Hn & E1)%fileclose_fv & H).
  change (set_fd p fd None s1 = Done a s') in H. apply set_fd_fv in H as (o' & b' & Hat' & E2). rewrite E1 in Hat', E2.
  destruct (proc_at_det _ _ _ _ _ _ Hat (proj1 (proc_at_ref _ _ _ _ _ _) Hat')) as [<- <-].
  exists (<[Z.to_nat fd := None]> o). rewrite E2, <- put_ref_proc. split_and!.
  - apply refs_down; [|exact Hn]. apply (refs_put_fd [] (fv s) p o b _ (Some f) None); [by apply refs_None|done..].
  - rewrite proc_at_ref. by eapply proc_at_eq.
  - intros k Hk. destruct (decide (Z.to_nat fd = k)) as [<-|Hne]; [|by rewrite list_lookup_insert_ne].
    apply list_lookup_insert_eq. by eapply lookup_lt_Some.
  - intros x Hx. rewrite list_lookup_insert_eq in Hx by (by eapply lookup_lt_Some). by injection Hx.
Qed.
Lemma exit_ofiles_refs p l b : forall o s a s', for_each l (exit_ofile p) s = Done a s' -> refs_inv [] (fv s) ->
  proc_at p o b (fv s) -> exists o', refs_inv [] (fv s') /\ proc_at p o' b (fv s') /\
    (forall k, o !! k = Some None -> o' !! k = Some None) /\
    (forall fd x, fd ∈ l -> o' !! Z.to_nat fd = Some x -> x = None).
Proof.
  induction l as [|fd l IH]; intros o s a s'; cbn [for_each].
  { intros [= _ <-] Hi Hat. exists o. split_and!; [done..|]. by intros fd x Hfd%elem_of_nil. }
  intros (u & s1 & H1 & H)%bind_Done_inv Hi Hat. destruct (exit_ofile_refs _ _ _ _ _ _ _ H1 Hi Hat) as (o1 & Hi1 & Hat1 & Hk1 & Hx1).
  destruct (IH _ _ _ _ H Hi1 Hat1) as (o' & Hi' & Hat' & Hk' & Hx'). exists o'. split_and!; [done..|by eauto|].
  intros k x Hk Hx. apply elem_of_cons in Hk as [->|Hk]; [|by eapply Hx'].
  pose proof (ri_nofile _ _ Hi1 _ _ _ Hat1) as L1. pose proof (ri_nofile _ _ Hi' _ _ _ Hat') as L'.
  destruct (lookup_lt_is_Some_2 o1 (Z.to_nat fd)) as [y Hy]; [apply lookup_lt_Some in Hx; lia|].
  pose proof (Hx1 y Hy) as ->. rewrite (Hk' _ Hy) in Hx. by injection Hx.
Qed.

Lemma keeps_reparent p : keeps fv (reparent p).
Proof. unfold reparent, reparent1. keep. Qed.
#[local] Hint Resolve keeps_reparent : keeps.

Lemma safe_exit st : safe (exit_upto st).
Proof.
  intros s r s' Hi Hb H. unfold exit_upto in H. apply bind_Done_inv in H as (p & s0 & [Hp ->]%myproc_inv & H).
  kept H init. kept H u. destruct Hb as (me & o & Hme & Hat). assert (me = p) as -> by (cbn [fv fv_cur] in Hme; congruence).
  rewrite <- E, <- E0 in Hi, Hat. clear E E0. apply bind_Done_inv in H as (u1 & s2 & H2 & H).
  destruct (exit_ofiles_refs _ _ _ _ _ _ _ H2 Hi Hat) as (o' & Hi' & Hat' & _ & Hx).
  assert (Hno : Forall (fun x => x = None) o').
  { apply Forall_lookup. intros k x Hk. apply (Hx (Z.of_nat k)); [|by rewrite Nat2Z.id]. apply elem_upto.
    pose proof (ri_nofile _ _ Hi' _ _ _ Hat'). apply lookup_lt_Some in Hk. lia. }
  kept H e. kept H pr. kept H e1. kept H e2. kept H e3. kept H e4. kept H e5. kept H pr'. kept H e6. kept H e7. kept H e8.
  apply bind_Done_inv in H as (e9 & sf & (o1 & b1 & Hat1 & Ef)%setp_state_fv & H). kept H e10. kept H e11. injection H as _ <-.
  match type of Hat1 with proc_at _ _ _ (fv ?t) => assert (Ev : fv t = fv s2) by congruence end. rewrite Ev in *.
  destruct (proc_at_det _ _ _ _ _ _ Hat' Hat1) as [<- <-].
  match goal with |- refs_inv [] (fv ?t) => replace (fv t) with (fv sf) by congruence end. rewrite Ef. by eapply refs_state.
Qed.

Lemma keeps_growproc n : keeps fv (growproc n).
Proof. unfold growproc. keep. Qed.
Lemma keeps_exec_stack path argv pt sz : keeps fv (exec_stack path argv pt sz).
Proof. unfold exec_stack. keep. Qed.
#[local] Hint Resolve keeps_growproc keeps_exec_stack : keeps.
Lemma keeps_exec path argv : keeps fv (exec path argv).
Proof. unfold exec. keep. Qed.
#[local] Hint Resolve keeps_exec : keeps.

Lemma keeps_exit {A} st : keeps fv (exit (A := A) st).
Proof. apply keeps_stop. intros s a s' (p & s1 & _ & H)%bind_Done_inv. done. Qed.
#[local] Hint Resolve keeps_exit keeps_wait : keeps.

Lemma safe_syscalls : Forall safe syscalls.
Proof.
  unfold syscalls. repeat apply Forall_cons_2; [..|apply Forall_nil_2].
  all: try solve [apply safe_fork | apply safe_pipe | apply safe_dup | apply safe_open | apply safe_close].
  all: apply safe_keeps.
  - unfold sys_exit. keep.
  - unfold sys_wait. keep.
  - unfold sys_read. keep.
  - unfold sys_kill. keep.
  - unfold sys_exec. keep.
  - unfold sys_fstat. keep.
  - unfold sys_chdir. keep.
  - unfold sys_getpid. keep.
  - unfold sys_sbrk. keep.
  - unfold sys_sleep, sys_sleep_round. keep.
  - unfold sys_uptime. keep.
  - unfold sys_write. keep.
  - unfold sys_mknod, make. keep.
  - unfold sys_unlink. keep.
  - unfold sys_link. keep.
  - unfold sys_mkdir, make. keep.
Qed.

(** The reference count of every file is the number of descriptors, over all
    processes, that stand for it. *)
Definition refs_ok (s : kern) : Prop := refs_inv [] (fv s).
(** The process on this CPU is [RUNNING]. *)
Definition in_process (s : kern) : Prop := exists me pr, cur s = Some me /\ nth_proc s me = Some pr /\ p_state pr = RUNNING.

Lemma in_process_busy s : in_process s -> busy (fv s).
Proof.
  intros (me & pr & Hme & Hpr%fv_proc & Hst). exists me, (p_ofile pr). split; [done|]. unfold quiet in Hpr. by rewrite Hst in Hpr.
Qed.

Lemma refs_ok_open s p pr k f : refs_ok s -> nth_proc s p = Some pr -> p_ofile pr !! k = Some (Some f) ->
  exists x, getf f s = Done x s /\ 1 <= f_ref x <= NPROC * NOFILE.
Proof.
  intros Hi Hp%fv_proc Hk. assert (Hin : Some f ∈ fds (fv_procs (fv s))).
  { apply list_elem_of_join. exists (p_ofile pr). split; [by eapply list_elem_of_lookup_2|]. apply list_elem_of_fmap.
    exists (p_ofile pr, quiet pr). split; [done|]. eapply list_elem_of_lookup_2. apply Hp. }
  pose proof (ri_range _ _ Hi f Hin) as Hr. pose proof (ri_nfile _ _ Hi) as Hn. cbn [fv fv_refs] in Hn. rewrite length_fmap in Hn.
  destruct (lookup_lt_is_Some_2 (kn_files s) (Z.to_nat f)) as [x Hx]; [lia|]. exists x. split.
  { unfold getf. destruct (Z.ltb_spec f 0); [lia|]. by rewrite Hx. }
  assert (H0 : 0 <= f) by lia. rewrite (ri_count _ _ Hi f (f_ref x) (fv_file _ _ _ H0 Hx)). cbn [app].
  pose proof (cnt_length f (fds (fv_procs (fv s)))) as Hl. rewrite (refs_length _ _ Hi) in Hl. unfold NPROC, NOFILE in *.
  split; [|lia]. apply list_elem_of_split in Hin as (l1 & l2 & ->). rewrite <- Permutation_middle, cnt_cons, decide_True by done.
  pose proof (cnt_length f (l1 ++ l2)). lia.
Qed.

(** C6: reference counts and descriptors agree.  When they do, they do again
    after any system call that returns, on all of its paths (the failures of
    [open], [pipe] and [fork] after some of the work is done included), and
    when [exit] has turned the process into a zombie.  So the file of a
    descriptor always has a count from 1 to [NPROC * NOFILE]: it is not free,
    and the [int] does not overflow. *)
Theorem file_refs_invariant s : refs_ok s -> in_process s ->
  (forall p pr k f, nth_proc s p = Some pr -> p_ofile pr !! k = Some (Some f) ->
     exists x, getf f s = Done x s /\ 1 <= f_ref x <= NPROC * NOFILE) /\
  (forall s', syscall s = Done tt s' -> refs_ok s') /\
  (forall status p s', exit_upto status s = Done p s' -> refs_ok s').
Proof.
  intros Hi Hb%in_process_busy. split; [by intros p pr k f; apply refs_ok_open|]. split.
  2:{ intros st p s' H. by eapply safe_exit. }
  intros s' H. unfold syscall in H. kept H p. kept H a7. rewrite <- E, <- E0 in Hb. unfold refs_ok in Hi. rewrite <- E, <- E0 in Hi.
  clear E E0. cbv zeta in H. match type of H with match ?x with _ => _ end _ = _ => destruct x as [sys|] eqn:Esys end.
  2:{ unfold refs_ok. by rewrite (fun K : keeps fv _ => K _ _ _ H) by keep. }
  apply bind_Done_inv in H as (v & s2 & H2 & H). unfold refs_ok. rewrite (keeps_set_tf fv fdp _ _ _ _ _ _ H).
  destruct (_ && _); [|done]. pose proof safe_syscalls as Hs. rewrite Forall_lookup in Hs. exact (Hs _ _ Esys _ _ _ Hi Hb H2).
Qed.
End FileRefs.
