(* ===== verification/CallExample.v ===== *)
(** * Runs of system calls

    The kernel of KernExample on the file system of FsExample, with the root
    directory as the working directory of process 0. *)

From S2P Require Import Prelude Memory Riscv Spinlock Kalloc Vm VmWalk VmUser VmCopy Bio Log Txn Fs FsExample Kern Proc Pipe File Life Exec Sysfile Printf Console Syscall KernExample Views ExecSpec FileRefs.

Module CallExample.
Import KernExample.
#[export] Instance eframe : ExecFrame := {| elf_addr := 8300; ph_addr := 8400 |}.

Definition root_dir : inode := Inode 1 1 1 (initsleeplock "inode") true T_DIR 0 0 1 48 (35 :: replicate 12 0).
Definition log1 : lst := match start_log 1 2 30 (log_boot FsExample.d0) with Done _ s => s | _ => log_boot FsExample.d0 end.
Definition fs1 : fsst lst :=
  Fsst log1 FsExample.sb0 (initlock "itable") (root_dir :: replicate 49 FsExample.free_ino) st2 0 0.
Definition kern1 : kern := set_kn_fs fs1 (set_procs (set_cwd (Some 0) proc0 :: tail procs0) (kern_with pipe0)).

Definition result {S A} (o : outcome S A) : option A := match o with Done a _ => Some a | _ => None end.
Lemma result_Done {S A} (o : outcome S A) a : result o = Some a -> exists s, o = Done a s.
Proof. destruct o; simpl; try done. intros [= ->]. eauto. Qed.

(** Descriptor 0 of process 0 is file 3, and the process calls [dup(0)]. *)
Definition kern2 : kern :=
  let k := st2 in
  let m := st64 (st64 (k_mem k) (page 9 + tf_off TF_a7) 10) (page 9 + tf_off TF_a0) 0 in
  set_files (<[3%nat := File FD_NONE 1 true true 0 0 0 0]> (kn_files kern1))
    (set_kn_fs (Fsst log1 FsExample.sb0 (initlock "itable") (root_dir :: replicate 49 FsExample.free_ino) (set_mem m k) 0 0)
      (set_procs (set_ofile (<[0%nat := Some 3]> no_files) (set_cwd (Some 0) proc0) :: tail procs0) kern1)).

Definition procs2 : list (list (option Z) * bool) :=
  (Some 3 :: replicate 15 None, false) :: (replicate 16 None, false) :: replicate 62 (replicate 16 None, true).
Lemma fv_kern2 : fv kern2 = Fview (Some 0) (<[3%nat := 1]> (replicate 100 0)) procs2.
Proof. vm_compute. reflexivity. Qed.
Lemma in_procs2 p o b : (0 <= p /\ procs2 !! Z.to_nat p = Some (o, b)) ->
  length o = 16%nat /\ (b = true -> Forall (fun x => x = None) o).
Proof.
  intros [_ H%list_elem_of_lookup_2]. unfold procs2 in H. apply elem_of_cons in H as [[= -> ->]|H]; [done|].
  apply elem_of_cons in H as [[= -> ->]|H]; [done|]. apply elem_of_replicate in H as [[= -> ->] _]. split; [done|]. intros _.
  change (Forall (fun x : option Z => x = None) (replicate 16 None)). by apply Forall_replicate.
Qed.
Lemma fds2 : fds procs2 = Some 3 :: replicate 1023 None.
Proof. vm_compute. reflexivity. Qed.
Lemma cnt_None f n : cnt f (replicate n None) = 0.
Proof. induction n as [|n IH]; [done|]. simpl. rewrite cnt_cons, IH. by rewrite decide_False. Qed.

Lemma refs_ok_kern2 : refs_ok kern2.
Proof.
  unfold refs_ok. rewrite fv_kern2. split; cbn [fv_procs fv_refs].
  - reflexivity.
  - intros p o b H. exact (proj1 (in_procs2 p o b H)).
  - intros p o H. exact (proj2 (in_procs2 p o true H) eq_refl).
  - reflexivity.
  - rewrite fds2. intros f Hf. cbn [app] in Hf. apply elem_of_cons in Hf as [[= ->]|Hf]; [unfold NFILE; lia|].
    by apply elem_of_replicate in Hf as [? _].
  - rewrite fds2. intros f r [H0 Hf]. cbn [fv_refs] in Hf. cbn [app]. rewrite cnt_cons, cnt_None.
    destruct (decide (f = 3)) as [->|Hne].
    + rewrite decide_True by done. vm_compute in Hf. by injection Hf as <-.
    + rewrite decide_False by congruence. rewrite list_lookup_insert_ne in Hf by lia. by apply lookup_replicate in Hf as [-> _].
Qed.

Lemma in_process_kern2 : in_process kern2.
Proof. exists 0, (set_ofile (<[0%nat := Some 3]> no_files) (set_cwd (Some 0) proc0)). repeat split. Qed.

Lemma file_refs_invariant_witness : exists s', syscall kern2 = Done tt s' /\ refs_ok s' /\ (f_ref <$> kn_files s' !! 3%nat) = Some 2.
Proof.
  destruct (result_Done (syscall kern2) tt) as (s' & E); [vm_compute; reflexivity|]. exists s'. split; [exact E|]. split.
  - exact (proj1 (proj2 (file_refs_invariant kern2 refs_ok_kern2 in_process_kern2)) s' E).
  - assert (Hr : match syscall kern2 with Done _ s => f_ref <$> kn_files s !! 3%nat | _ => None end = Some 2) by (vm_compute; reflexivity).
    rewrite E in Hr. exact Hr.
Defined.
End CallExample.
