(* ===== verification/ExecExample.v ===== *)
(** * Two runs of [exec]

    A process without user memory calls [exec] on a small program, and on a
    file that is not there. *)

From S2P Require Import Prelude Memory Riscv Spinlock Kalloc Vm VmWalk VmUser VmCopy VmFree Bio Log Txn Fs FsFrame ExecMem FsExample Kern Proc Pipe File Exec KernExample Views ExecRun ExecSpec CallExample.

Module ExecExample.
Import KernExample CallExample.

(** Pages 0 to 15 without the trap frame, [page 9], are free. *)
Definition free_pages : list Z := page <$> [0; 1; 2; 3; 4; 5; 6; 7; 8; 10; 11; 12; 13; 14; 15].
Fixpoint linked (l : list Z) (m : mem) : mem :=
  match l with p :: (q :: _) as l' => linked l' (st64 m p q) | _ => m end.
(** The argument, the string [f], is at 8600. *)
Definition mem0 : kst := Kst (write_bytes (linked free_pages ∅) 8600 [102; 0]) (initlock "kmem") (page 0).
Definition mem1 : kst := out_state mem0 (proc_pagetable (page 9) mem0).
Lemma mem1_runs : proc_pagetable (page 9) mem0 = Done (page 0) mem1.
Proof. unfold mem1. destruct (result_Done (proc_pagetable (page 9) mem0) (page 0)) as (k & ->); [vm_compute; reflexivity|done]. Qed.
Lemma mem0_kinv : kinv mem0 free_pages.
Proof.
  split; [split; reflexivity| | |].
  - repeat (split; [vm_compute; reflexivity|]). vm_compute. reflexivity.
  - apply (bool_decide_unpack _). vm_compute. exact I.
  - repeat constructor; apply page_ok_ex; lia.
Qed.
Lemma free_range p : p ∈ free_pages -> page 0 <= p <= page 15 /\ p <> page 9.
Proof.
  unfold free_pages. intros H. repeat (apply elem_of_cons in H as [->|H]; [unfold page, PGSIZE; lia|]). by apply elem_of_nil in H.
Qed.

(** Inode 2 is an executable of one segment: four bytes at address 0, where it
    starts. *)
Definition enc (n : nat) (v : Z) : list Z := le_bytes n v.
Definition program : list Z :=
  enc 4 ELF_MAGIC ++ replicate 20 0 ++ enc 8 0 ++ enc 8 64 ++ replicate 16 0 ++ enc 2 1 ++ replicate 6 0 ++
  enc 4 ELF_PROG_LOAD ++ enc 4 5 ++ enc 8 120 ++ enc 8 0 ++ enc 8 0 ++ enc 8 4 ++ enc 8 4 ++ enc 8 4096 ++ [0x73; 0; 0; 0].
Definition dinode : list Z := enc 2 T_FILE ++ enc 2 0 ++ enc 2 0 ++ enc 2 1 ++ enc 4 (Z.of_nat (length program)) ++ enc 4 36.
Definition disk2 : disk :=
  Disk {[ 32 := FsExample.pad (replicate 128 0 ++ dinode); 34 := FsExample.pad [255; 255; 255; 255; 31];
          35 := FsExample.pad (FsExample.entry 1 [46] ++ FsExample.entry 1 [46; 46] ++ FsExample.entry 2 [102]); 36 := FsExample.pad program ]} [].
Definition log2 : lst := match start_log 1 2 30 (log_boot disk2) with Done _ s => s | _ => log_boot disk2 end.
Definition fs2 : fsst lst := Fsst log2 FsExample.sb0 (initlock "itable") (root_dir :: replicate 49 FsExample.free_ino) mem1 0 0.
Definition proc2 : proc := set_sz 0 (set_pagetable (page 0) (set_cwd (Some 0) proc0)).
Definition kern3 : kern := set_kn_fs fs2 (set_procs (proc2 :: tail procs0) (kern_with pipe0)).

Lemma loc_low x : loc x -> x < 8600.
Proof. unfold loc, span, DESIZE, sizeof_elfhdr, sizeof_proghdr. cbn. lia. Qed.
Lemma page_high p x : page 0 <= p -> in_page p x -> 8600 <= x.
Proof. unfold in_page, page, PGSIZE, KERNBASE. lia. Qed.
Lemma ready3 : exists l T D, exec_ready kern3 0 proc2 l T D.
Proof.
  destruct (building_start (page 9) ltac:(apply page_ok_ex; lia) ltac:(done) ltac:(done) free_pages mem0 loc mem0 free_pages (page 0) mem1) as [[? _]|(l & T & D & Hu & Ho & _)];
    [exact mem0_kinv|done|done|exact mem1_runs|done|].
  exists l, T, D. split; [reflexivity|reflexivity|exact Hu|apply page_ok_ex; lia| |done|..].
  - rewrite Ho. intros H. by apply free_range in H as [_ ?].
  - split; vm_compute; intuition discriminate.
  - intros x Hx%loc_low. change (p_trapframe proc2) with (page 9). split.
    + intros Hp. apply page_high in Hp; [lia|]. unfold page, PGSIZE. lia.
    + intros p Hp Hin. apply Ho, free_range in Hp as [Hp _]. apply page_high in Hin; lia.
Qed.

Lemma exec_all_or_nothing_witness :
  (exists s', exec [102] [8600; 0] kern3 = Done 1 s' /\ krefs s' = krefs kern3 /\ ld64 (k_mem (kmem s')) (page 9 + tf_off TF_sp) mod 16 = 0) /\
  exists s', exec [103] [8600; 0] kern3 = Done (-1) s' /\ user_view s' = user_view kern3 /\ mget (k_mem (kmem s')) (page 9) = mget (k_mem (kmem kern3)) (page 9).
Proof.
  destruct ready3 as (l & T & D & Hr). split.
  - destruct (result_Done (exec [102] [8600; 0] kern3) 1) as (s' & E); [vm_compute; reflexivity|]. exists s'.
    destruct (exec_all_or_nothing [102] [8600; 0] kern3 0 proc2 l T D 1 s' Hr E) as (R & [[H _]|(_ & pt & sz & sp & _ & H)]); [discriminate H|].
    split; [exact E|]. split; [exact R|]. destruct H as [_ _ [_ Hm] _ Hsp _]. change (page 9) with (p_trapframe proc2). rewrite Hsp. exact Hm.
  - destruct (result_Done (exec [103] [8600; 0] kern3) (-1)) as (s' & E); [vm_compute; reflexivity|]. exists s'.
    destruct (exec_all_or_nothing [103] [8600; 0] kern3 0 proc2 l T D (-1) s' Hr E) as (_ & [(_ & V & _ & F)|[H _]]); [|lia].
    split; [exact E|]. split; [exact V|]. apply F.
    + intros Hx%loc_low. revert Hx. unfold page, KERNBASE, PGSIZE. lia.
    + intros p Hp Hin. apply (er_tf_out _ _ _ _ _ _ Hr). left. replace (p_trapframe proc2) with p; [exact Hp|]. apply (page_disjoint p (page 9) (page 9)).
      * pose proof (er_space _ _ _ _ _ _ Hr) as Hu. eapply (owned_page _ _ _ _ _ _ _ Hu). left. exact Hp.
      * apply page_ok_ex. lia.
      * exact Hin.
      * unfold in_page, PGSIZE. lia.
Defined.
End ExecExample.
