(* ===== verification/Ulib.v ===== *)
(** * The memory and string routines of user programs: user/ulib.c

    The routines run on the bytes of the process.  A loop over a string has a
    fuel and gives [None] when the string has no end within it; the lemmas
    show that the length of the string is enough.  [memmove] decides on the
    direction differently from the kernel's, and has the same result. *)

From S2P Require Import Prelude Memory.

Module Ulib.

(** ** user/ulib.c *)

(** Copies up to and with the NUL. *)
Fixpoint strcpy (fuel : nat) (m : mem) (s t : Z) : option mem :=
  match fuel with
  | O => None
  | S f => let m' := mset m s (mget m t) in
           if mget m t =? 0 then Some m' else strcpy f m' (s + 1) (t + 1)
  end.

(** Advances both while they agree and [p] is not at its end. *)
Fixpoint strcmp (fuel : nat) (m : mem) (p q : Z) : option Z :=
  match fuel with
  | O => None
  | S f => if negb (mget m p =? 0) && (mget m p =? mget m q) then strcmp f m (p + 1) (q + 1)
           else Some (mget m p - mget m q)
  end.

Fixpoint strlen_loop (fuel : nat) (m : mem) (s n : Z) : option Z :=
  match fuel with
  | O => None
  | S f => if mget m (s + n) =? 0 then Some n else strlen_loop f m s (n + 1)
  end.
Definition strlen (fuel : nat) (m : mem) (s : Z) : option Z := strlen_loop fuel m s 0.

(** The index [i] is an [int]: [n] is below 2^31. *)
Fixpoint memset_loop (m : mem) (cdst c i : Z) (k : nat) : mem :=
  match k with
  | O => m
  | S k' => memset_loop (mset m (cdst + i) c) cdst c (i + 1) k'
  end.
Definition memset (m : mem) (dst c n : Z) : mem := memset_loop m dst c 0 (Z.to_nat n).

Fixpoint strchr (fuel : nat) (m : mem) (s c : Z) : option Z :=
  match fuel with
  | O => None
  | S f => if mget m s =? 0 then Some 0 else if mget m s =? c then Some s else strchr f m (s + 1) c
  end.

Definition memmove (m : mem) (vdst vsrc n : Z) : mem :=
  if vdst <? vsrc then memmove_up m vdst vsrc (Z.to_nat n)
  else memmove_down m (vdst + n) (vsrc + n) (Z.to_nat n).

Fixpoint memcmp_loop (m : mem) (p1 p2 : Z) (n : nat) : Z :=
  match n with
  | O => 0
  | S n' => if negb (mget m p1 =? mget m p2) then mget m p1 - mget m p2 else memcmp_loop m (p1 + 1) (p2 + 1) n'
  end.
Definition memcmp (m : mem) (s1 s2 n : Z) : Z := memcmp_loop m s1 s2 (Z.to_nat n).

(** The third parameter of [memmove] is an [int]. *)
Definition memcpy (m : mem) (dst src n : Z) : mem := memmove m dst src (i32 n).

(** ** What they do *)

(** [l] is the string at [a]. *)
Definition is_str (m : mem) (a : Z) (l : list Z) : Prop := cstr m a (S (length l)) = l.

Lemma is_str_nil m a : is_str m a [] <-> mget m a = 0.
Proof. unfold is_str. simpl. destruct (Z.eqb_spec (mget m a) 0); naive_solver. Qed.
Lemma is_str_cons m a c l : is_str m a (c :: l) <-> c <> 0 /\ mget m a = c /\ is_str m (a + 1) l.
Proof.
  change (is_str m a (c :: l)) with ((if mget m a =? 0 then [] else mget m a :: cstr m (a + 1) (S (length l))) = c :: l). unfold is_str.
  generalize (cstr m (a + 1) (S (length l))). intros k. destruct (Z.eqb_spec (mget m a) 0) as [H|H]; [split; [done|lia]|]. naive_solver.
Qed.
Lemma is_str_ext m1 m2 a l : (forall i, a <= i <= a + Z.of_nat (length l) -> mget m1 i = mget m2 i) -> is_str m1 a l <-> is_str m2 a l.
Proof. intros H. unfold is_str. rewrite (cstr_ext _ m1 m2); [done|]. intros i Hi. apply H. lia. Qed.

(** [strcpy] copies the string with its end, and writes nowhere else. *)
Lemma strcpy_ok l m s t fuel : is_str m t l -> (length l < fuel)%nat ->
  s + Z.of_nat (length l) < t \/ t + Z.of_nat (length l) < s ->
  exists m', strcpy fuel m s t = Some m' /\ is_str m' s l /\ forall x, ~ (s <= x <= s + Z.of_nat (length l)) -> mget m' x = mget m x.
Proof.
  revert m s t fuel. induction l as [|c l IH]; intros m s t fuel Hs Hf Hd; destruct fuel as [|fuel]; simpl in Hf, Hd; try lia; simpl strcpy.
  - apply is_str_nil in Hs. rewrite Hs. eexists. split; [done|]. split; [apply is_str_nil; by rewrite mget_mset_eq|]. intros x Hx. apply mget_mset_ne. simpl in Hx. lia.
  - apply is_str_cons in Hs as (Hc & Hm & Hs). rewrite Hm. destruct (Z.eqb_spec c 0); [done|].
    destruct (IH (mset m s c) (s + 1) (t + 1) fuel) as (m' & E & S1 & S2); [|lia|lia|].
    { rewrite is_str_ext; [apply Hs|]. intros i Hi. apply mget_mset_ne. lia. }
    exists m'. split; [done|]. split.
    + apply is_str_cons. split; [done|]. split; [|done]. rewrite S2 by lia. rewrite mget_mset_eq, <- Hm. apply u8_mget.
    + intros x Hx. simpl in Hx. rewrite S2 by lia. apply mget_mset_ne. lia.
Qed.

(** [strcmp] orders strings: 0 exactly for equal ones. *)
Lemma strcmp_ok l1 l2 m p q fuel : is_str m p l1 -> is_str m q l2 -> (length l1 < fuel)%nat ->
  exists r, strcmp fuel m p q = Some r /\ (r = 0 <-> l1 = l2).
Proof.
  revert l2 p q fuel. induction l1 as [|c l1 IH]; intros l2 p q fuel H1 H2 Hf; destruct fuel as [|fuel]; simpl in Hf; try lia; simpl strcmp.
  - apply is_str_nil in H1. rewrite H1. simpl. eexists. split; [done|]. destruct l2 as [|d l2].
    + apply is_str_nil in H2. rewrite H2. done.
    + apply is_str_cons in H2 as (? & -> & _). split; [lia|done].
  - apply is_str_cons in H1 as (Hc & -> & H1). destruct (Z.eqb_spec c 0); [done|]. simpl. destruct l2 as [|d l2].
    + apply is_str_nil in H2. rewrite H2. destruct (Z.eqb_spec c 0); [done|]. eexists. split; [done|]. split; [lia|done].
    + apply is_str_cons in H2 as (Hd & -> & H2). destruct (Z.eqb_spec c d) as [->|Hn].
      * destruct (IH l2 _ _ fuel H1 H2) as (r & E & Hr); [lia|]. exists r. split; [done|]. rewrite Hr. naive_solver.
      * eexists. split; [done|]. split; [lia|naive_solver].
Qed.

Lemma strlen_loop_ok l m s n fuel : is_str m (s + n) l -> (length l < fuel)%nat -> strlen_loop fuel m s n = Some (n + Z.of_nat (length l)).
Proof.
  revert n fuel. induction l as [|c l IH]; intros n fuel H Hf; destruct fuel as [|fuel]; simpl in Hf; try lia; simpl strlen_loop.
  - apply is_str_nil in H. rewrite H. simpl. f_equal. lia.
  - apply is_str_cons in H as (Hc & -> & H). destruct (Z.eqb_spec c 0); [done|]. rewrite IH; [simpl length; f_equal; lia| |lia]. by replace (s + (n + 1)) with (s + n + 1) by lia.
Qed.
Lemma strlen_ok l m s fuel : is_str m s l -> (length l < fuel)%nat -> strlen fuel m s = Some (Z.of_nat (length l)).
Proof. intros H Hf. apply (strlen_loop_ok l m s 0); [|done]. by rewrite Z.add_0_r. Qed.

(** [strchr] points to the first occurrence, or is 0. *)
Lemma strchr_ok l m s c fuel : is_str m s l -> (length l < fuel)%nat ->
  strchr fuel m s c = Some (match list_find (eq c) l with Some (i, _) => s + Z.of_nat i | None => 0 end).
Proof.
  revert s fuel. induction l as [|d l IH]; intros s fuel H Hf; destruct fuel as [|fuel]; simpl in Hf; try lia; simpl strchr.
  - apply is_str_nil in H. by rewrite H.
  - apply is_str_cons in H as (Hc & -> & H). destruct (Z.eqb_spec d 0); [done|]. simpl list_find. destruct (Z.eqb_spec d c) as [->|Hn].
    + rewrite decide_True by done. f_equal. lia.
    + rewrite decide_False by naive_solver. rewrite IH by (done || lia). f_equal. destruct (list_find (eq c) l) as [[i ?]|]; simpl; lia.
Qed.

(** [memset] is the kernel's [memset]. *)
Lemma memset_loop_eq k m cdst c i : memset_loop m cdst c i k = Memory.memset_loop m (cdst + i) c k.
Proof. revert m i. induction k as [|k IH]; intros m i; simpl; [done|]. rewrite IH. f_equal. lia. Qed.
Lemma memset_eq m dst c n : memset m dst c n = Memory.memset m dst c n.
Proof. unfold memset. rewrite memset_loop_eq, Z.add_0_r. with_strategy transparent [Memory.memset] reflexivity. Qed.

(** [memcmp] is 0 exactly for equal bytes. *)
Lemma memcmp_ok m s1 s2 n : memcmp m s1 s2 (Z.of_nat n) = 0 <-> read_bytes m s1 n = read_bytes m s2 n.
Proof.
  unfold memcmp. rewrite Nat2Z.id. revert s1 s2. induction n as [|n IH]; intros s1 s2; simpl; [done|].
  destruct (Z.eqb_spec (mget m s1) (mget m s2)) as [E|E]; simpl; [rewrite IH, E; split; [by intros ->|by intros [=]]|]. split; [lia|by intros [=]].
Qed.

(** [memmove] is right for every overlap, like the kernel's. *)
Lemma memmove_eq m vdst vsrc n x : 0 <= n -> mget (memmove m vdst vsrc n) x = mget (Memory.memmove m vdst vsrc n) x.
Proof.
  intros Hn. rewrite mget_memmove by done. unfold memmove. destruct (Z.ltb_spec vdst vsrc).
  - rewrite mget_memmove_up by lia. by rewrite Z2Nat.id.
  - rewrite mget_memmove_down by lia. rewrite Z2Nat.id by done. replace (vdst + n - n) with vdst by lia. by replace (vsrc + n + (x - (vdst + n))) with (vsrc + (x - vdst)) by lia.
Qed.
Lemma memcpy_ok m dst src n : (Z.of_nat n < 2 ^ 31) ->
  read_bytes (memcpy m dst src (Z.of_nat n)) dst n = read_bytes m src n.
Proof.
  intros Hn. unfold memcpy, i32. rewrite Z.mod_small by lia. replace (Z.of_nat n + 2 ^ 31 - 2 ^ 31) with (Z.of_nat n) by lia.
  rewrite <- (read_bytes_memmove m dst src n). apply read_bytes_ext. intros x Hx. by apply memmove_eq; lia.
Qed.
End Ulib.
