(* ===== verification/Umalloc.v ===== *)
(** * The user memory allocator: user/umalloc.c

    The allocator of Kernighan and Ritchie: the free blocks are in a circular
    list, in the order of their addresses, with a header in front of each.
    The state is the memory of the process, the global [freep] and the end of
    the memory, which [sbrk] moves; whether the kernel has memory to give is a
    parameter.  Pointers are not bounds checked: the operations are those of
    the machine. *)

From S2P Require Import Prelude Memory.

Record heap := Heap { u_mem : mem; u_freep : Z; u_brk : Z }.
Definition set_umem (m : mem) (h : heap) : heap := Heap m (u_freep h) (u_brk h).
Definition set_freep (p : Z) (h : heap) : heap := Heap (u_mem h) p (u_brk h).

(** [&base]; and whether the process can grow by [n] bytes. *)
Class Uproc := { base : Z; can_grow : heap -> Z -> bool }.

(** [sizeof(Header)]: [s.ptr] at 0, [s.size] at 8. *)
Definition HDR : Z := 16.
Definition hptr (m : mem) (p : Z) : Z := ld64 m p.
Definition hsize (m : mem) (p : Z) : Z := ldn 4 m (p + 8).
Definition set_hptr (p v : Z) (m : mem) : mem := st64 m p v.
Definition set_hsize (p v : Z) (m : mem) : mem := stn 4 m (p + 8) v.

Section Umalloc.
Context `{UP : Uproc}.

Definition getptr (p : Z) : M heap Z := gets (fun h => hptr (u_mem h) p).
Definition getsize (p : Z) : M heap Z := gets (fun h => hsize (u_mem h) p).
Definition putptr (p v : Z) : M heap unit := modify (fun h => set_umem (set_hptr p v (u_mem h)) h).
Definition putsize (p v : Z) : M heap unit := modify (fun h => set_umem (set_hsize p v (u_mem h)) h).

(** The system call: the old end of the memory, or -1. *)
Definition sbrk (n : Z) : M heap Z := fun h =>
  if can_grow h n then Done (u_brk h) (Heap (u_mem h) (u_freep h) (u_brk h + n)) else Done (-1) h.

(** The loop of [free] that looks for the block before [bp]. *)
Fixpoint free_find (fuel : nat) (bp p : Z) : M heap Z :=
  match fuel with
  | O => diverge
  | S fuel' =>
      q <-! getptr p ;;
      if (p <? bp) && (bp <? q) then ret p
      else if (q <=? p) && ((p <? bp) || (bp <? q)) then ret p
      else free_find fuel' bp q
  end.
(** A round of the list passes each header of the memory once. *)
Definition blocks (h : heap) : nat := Z.to_nat (u_brk h / HDR + 2).
(** The block is joined to the next one, and then to the one before it. *)
Definition join_next (bp p : Z) : M heap unit :=
  size <-! getsize bp ;;
  next <-! getptr p ;;
  if bp + HDR * size =? next then
    nsize <-! getsize next ;;
    putsize bp (u32 (size + nsize)) ;;;
    next <-! getptr p ;;
    nnext <-! getptr next ;;
    putptr bp nnext
  else putptr bp next.
Definition join_prev (bp p : Z) : M heap unit :=
  psize <-! getsize p ;;
  if p + HDR * psize =? bp then
    size <-! getsize bp ;;
    putsize p (u32 (psize + size)) ;;;
    next <-! getptr bp ;;
    putptr p next
  else putptr p bp.
Definition free (ap : Z) : M heap unit :=
  let bp := ap - HDR in
  h <-! gets id ;;
  p <-! free_find (blocks h) bp (u_freep h) ;;
  join_next bp p ;;;
  join_prev bp p ;;;
  modify (set_freep p).

(** [sbrk] takes an [int]. *)
Definition morecore (nu : Z) : M heap Z :=
  let nu := if nu <? 4096 then 4096 else nu in
  p <-! sbrk (i32 (nu * HDR)) ;;
  if p =? -1 then ret 0
  else
    putsize p nu ;;;
    free (p + HDR) ;;;
    gets u_freep.

(** Takes the block [p], or its tail. *)
Definition take_block (nunits prevp p size : Z) : M heap Z :=
  q <-! (if size =? nunits then
           next <-! getptr p ;;
           putptr prevp next ;;;
           ret p
         else
           let size := size - nunits in
           putsize p size ;;;
           let p := p + HDR * size in
           putsize p nunits ;;;
           ret p) ;;
  modify (set_freep prevp) ;;;
  ret (q + HDR).
Fixpoint malloc_loop (fuel : nat) (nunits prevp p : Z) : M heap Z :=
  match fuel with
  | O => diverge
  | S fuel' =>
      size <-! getsize p ;;
      if nunits <=? size then take_block nunits prevp p size
      else
        freep <-! gets u_freep ;;
        if p =? freep then
          p <-! morecore nunits ;;
          if p =? 0 then ret 0
          else next <-! getptr p ;; malloc_loop fuel' nunits p next
        else next <-! getptr p ;; malloc_loop fuel' nunits p next
  end.
(** Two rounds: the second one finds what [morecore] got. *)
Definition malloc (nbytes : Z) : M heap Z :=
  let nunits := u32 ((nbytes + HDR - 1) / HDR + 1) in
  freep <-! gets u_freep ;;
  prevp <-! (if freep =? 0 then
               modify (set_freep base) ;;;
               putptr base base ;;;
               putsize base 0 ;;;
               ret base
             else ret freep) ;;
  p <-! getptr prevp ;;
  h <-! gets id ;;
  malloc_loop (2 * blocks h + 2) nunits prevp p.
End Umalloc.
