(* ===== verification/UmallocSpec.v ===== *)
(** * The allocator keeps blocks apart

    The free list is the list of the free blocks in the order of their
    addresses, no two of them adjacent; free and allocated blocks do not
    overlap.  [malloc] and [free] keep this and the bytes of the blocks that
    are allocated, so that a program sees its blocks as independent arrays. *)

From S2P Require Import Prelude Memory Umalloc.

(** ** Headers in memory *)

Notation block_of := (Z * Z)%type.
(** The bytes of a header are the same. *)
Definition same_hdr (m m' : mem) (p : Z) : Prop := forall x, p <= x < p + HDR -> mget m' x = mget m x.

Lemma same_ptr m m' p : same_hdr m m' p -> hptr m' p = hptr m p.
Proof. intros H. apply ldn_ext. intros i Hi. apply H. unfold HDR. lia. Qed.
Lemma same_size m m' p : same_hdr m m' p -> hsize m' p = hsize m p.
Proof. intros H. apply ldn_ext. intros i Hi. apply H. unfold HDR. lia. Qed.

Lemma hptr_set m p v : 0 <= v < 2 ^ 64 -> hptr (set_hptr p v m) p = v.
Proof. intros Hv. unfold hptr, set_hptr. rewrite ld64_st64_eq. by apply u64_small. Qed.
Lemma hsize_set m p v : 0 <= v < 2 ^ 32 -> hsize (set_hsize p v m) p = v.
Proof. intros Hv. unfold hsize, set_hsize. rewrite ldn_stn_eq. apply Z.mod_small. change (256 ^ Z.of_nat 4) with (2 ^ 32). lia. Qed.
Lemma hsize_set_ptr m p v : hsize (set_hptr p v m) p = hsize m p.
Proof. apply ldn_stn_ne. lia. Qed.
Lemma hptr_set_size m p v : hptr (set_hsize p v m) p = hptr m p.
Proof. apply ldn_stn_ne. lia. Qed.
Lemma mget_set_ptr m p v x : x < p \/ p + HDR <= x -> mget (set_hptr p v m) x = mget m x.
Proof. intros H. apply mget_stn_ne. unfold HDR in H. lia. Qed.
Lemma mget_set_size m p v x : x < p \/ p + HDR <= x -> mget (set_hsize p v m) x = mget m x.
Proof. intros H. apply mget_stn_ne. unfold HDR in H. lia. Qed.
Lemma same_set_ptr m p v q : q + HDR <= p \/ p + HDR <= q -> same_hdr m (set_hptr p v m) q.
Proof. intros H x Hx. apply mget_set_ptr. lia. Qed.
Lemma same_set_size m p v q : q + HDR <= p \/ p + HDR <= q -> same_hdr m (set_hsize p v m) q.
Proof. intros H x Hx. apply mget_set_size. lia. Qed.

(** ** The list of free blocks *)

Definition head_addr (l : list block_of) (last : Z) : Z := match l with (a, _) :: _ => a | [] => last end.
Fixpoint links (m : mem) (l : list block_of) (last : Z) : Prop :=
  match l with
  | [] => True
  | (a, s) :: l' => hptr m a = head_addr l' last /\ hsize m a = s /\ links m l' last
  end.
(** Ascending, with gaps, between [lo] and [hi]. *)
Fixpoint asc (lo : Z) (l : list block_of) (hi : Z) : Prop :=
  match l with
  | [] => lo <= hi
  | (a, s) :: l' => lo < a /\ 0 < s /\ asc (a + HDR * s) l' hi
  end.
Definition apart (b c : block_of) : Prop := b.1 + HDR * b.2 <= c.1 \/ c.1 + HDR * c.2 <= b.1.

Lemma head_addr_app l1 l2 last : head_addr (l1 ++ l2) last = head_addr l1 (head_addr l2 last).
Proof. by destruct l1 as [|[]]. Qed.
Lemma links_app m l1 l2 last : links m (l1 ++ l2) last <-> links m l1 (head_addr l2 last) /\ links m l2 last.
Proof.
  induction l1 as [|[a s] l1 IH]; simpl; [tauto|]. rewrite IH, head_addr_app. tauto.
Qed.
Lemma links_frame m m' l last : Forall (fun b => same_hdr m m' b.1) l -> links m l last -> links m' l last.
Proof.
  induction 1 as [|[a s] l Hb Hl IH]; simpl; [done|]. intros (H1 & H2 & H3). simpl in Hb. rewrite (same_ptr _ _ _ Hb), (same_size _ _ _ Hb). auto.
Qed.
Lemma asc_le lo l hi : asc lo l hi -> lo <= hi.
Proof. revert lo. induction l as [|[a s] l IH]; simpl; intros lo; [done|]. intros (H1 & H2 & H3%IH). unfold HDR in *. lia. Qed.
Lemma asc_weak lo l hi hi' : hi <= hi' -> asc lo l hi -> asc lo l hi'.
Proof. intros Hh. revert lo. induction l as [|[a s] l IH]; simpl; intros lo; [lia|]. intros (H1 & H2 & H3). auto. Qed.
Lemma asc_lower lo lo' l hi : lo <= lo' -> asc lo' l hi -> asc lo l hi.
Proof. destruct l as [|[a s] l]; simpl; intros Hlo; [lia|]. intros (H1 & H2). split; [lia|done]. Qed.
Lemma asc_app lo l1 l2 hi : asc lo (l1 ++ l2) hi <-> exists mid, asc lo l1 mid /\ asc mid l2 hi.
Proof.
  revert lo. induction l1 as [|[a s] l1 IH]; intros lo; simpl.
  - split; [intros H; exists lo; split; [lia|done]|]. intros (mid & H1 & H2). destruct l2 as [|[b t] l2]; simpl in *; [lia|]. destruct H2 as (? & ? & ?). split; [lia|done].
  - rewrite IH. split.
    + intros (H1 & H2 & mid & H3 & H4). exists mid. tauto.
    + intros (mid & (H1 & H2 & H3) & H4). split; [done|]. split; [done|]. by exists mid.
Qed.
Lemma asc_in lo l hi a s : asc lo l hi -> (a, s) ∈ l -> lo < a /\ 0 < s /\ a + HDR * s <= hi.
Proof.
  intros H [l1 [l2 ->]]%list_elem_of_split. apply asc_app in H as (mid & H1 & H2). pose proof (asc_le _ _ _ H1). simpl in H2. destruct H2 as (H2 & H3 & H4%asc_le). lia.
Qed.
(** Blocks before and after a block of the list. *)
Lemma asc_mid lo l1 a s l2 hi : asc lo (l1 ++ (a, s) :: l2) hi ->
  (forall b t, (b, t) ∈ l1 -> b + HDR * t < a /\ 0 < t /\ lo < b) /\ (forall b t, (b, t) ∈ l2 -> a + HDR * s < b /\ 0 < t /\ b + HDR * t <= hi) /\ lo < a /\ 0 < s /\ a + HDR * s <= hi.
Proof.
  intros H. apply asc_app in H as (mid & H1 & H2). simpl in H2. destruct H2 as (H2 & H3 & H4). pose proof (asc_le _ _ _ H1). pose proof (asc_le _ _ _ H4).
  split; [intros b t Hb; pose proof (asc_in _ _ _ _ _ H1 Hb); lia|]. split; [intros b t Hb; pose proof (asc_in _ _ _ _ _ H4 Hb); lia|]. lia.
Qed.
Lemma links_lookup m l last i a s : links m l last -> l !! i = Some (a, s) ->
  hptr m a = match l !! S i with Some (b, _) => b | None => last end /\ hsize m a = s.
Proof.
  revert i. induction l as [|[b t] l IH]; intros i; [done|]. simpl. intros (H1 & H2 & H3). destruct i as [|i].
  - intros [= -> ->]. split; [|done]. rewrite H1. by destruct l as [|[]].
  - intros Hi. by apply IH.
Qed.
Lemma asc_lookup lo l hi i j a s b t : asc lo l hi -> (i < j)%nat -> l !! i = Some (a, s) -> l !! j = Some (b, t) -> a + HDR * s < b.
Proof.
  revert lo i j. induction l as [|[c u] l IH]; intros lo i j H Hij Hi Hj; [done|]. simpl in H. destruct H as (H1 & H2 & H3). destruct j as [|j]; [lia|].
  destruct i as [|i]; [|by apply (IH _ i j H3 ltac:(lia))]. injection Hi as -> ->. simpl in Hj. apply list_elem_of_lookup_2 in Hj. by apply (asc_in _ _ _ _ _ H3 Hj).
Qed.

(** Blocks that do not overlap. *)
Fixpoint sep (l : list block_of) : Prop := match l with [] => True | b :: l' => Forall (apart b) l' /\ sep l' end.
Lemma apart_sym b c : apart b c -> apart c b.
Proof. unfold apart. tauto. Qed.
Lemma sep_perm l l' : l ≡ₚ l' -> sep l -> sep l'.
Proof.
  induction 1 as [|b l l' Hp IH|b c l|l1 l2 l3 _ IH1 _ IH2]; simpl; auto.
  - intros [H1 H2]. split; [by rewrite <- Hp|auto].
  - intros [H1 [H2 H3]]. inversion H1; subst. split; [|done]. constructor; [by apply apart_sym|done].
Qed.

Section Umalloc.
Context `{UP : Uproc} (h0 : Z) (Hbase : 0 < base /\ base + HDR <= h0).
Notation nodes fl := ((base, 0) :: fl).

(** The free blocks [fl] and the allocated blocks [al]. *)
Record ok (h : heap) (fl al : list block_of) : Prop := {
  ok_links : links (u_mem h) (nodes fl) base;
  ok_asc : asc (h0 - 1) fl (u_brk h);
  ok_freep : u_freep h ∈ (nodes fl).*1;
  ok_size : Forall (fun b => hsize (u_mem h) b.1 = b.2) al;
  ok_al : Forall (fun b => h0 <= b.1 /\ 0 < b.2 /\ b.1 + HDR * b.2 <= u_brk h) al;
  ok_apart : Forall (fun b => Forall (apart b) fl) al;
  ok_sep : sep al;
  ok_max : h0 <= u_brk h <= 2 ^ 36
}.

Lemma ok_perm h fl al al' : al ≡ₚ al' -> ok h fl al -> ok h fl al'.
Proof. intros Hp [H1 H2 H3 H4 H5 H6 H7 H8]. split; try done; [by rewrite <- Hp..|by eapply sep_perm]. Qed.

Lemma nodes_lt h fl al i j a s b t : ok h fl al -> (i < j)%nat -> nodes fl !! i = Some (a, s) -> nodes fl !! j = Some (b, t) -> a < b.
Proof.
  intros H Hij Hi Hj. destruct j as [|j]; [lia|]. destruct i as [|i].
  - injection Hi as <- <-. simpl in Hj. apply list_elem_of_lookup_2 in Hj. pose proof (asc_in _ _ _ _ _ (ok_asc _ _ _ H) Hj). unfold HDR in *. lia.
  - pose proof (asc_lookup _ _ _ i j _ _ _ _ (ok_asc _ _ _ H) ltac:(lia) Hi Hj). simpl in Hi. apply list_elem_of_lookup_2 in Hi.
    pose proof (asc_in _ _ _ _ _ (ok_asc _ _ _ H) Hi). unfold HDR in *. lia.
Qed.
(** The number of free blocks is bounded by the memory. *)
Lemma asc_length lo l hi : asc lo l hi -> HDR * Z.of_nat (length l) <= hi - lo.
Proof. revert lo. induction l as [|[a s] l IH]; simpl; intros lo; [lia|]. intros (H1 & H2 & H3%IH). unfold HDR in *. lia. Qed.
Lemma nodes_length h fl al : ok h fl al -> (length (nodes fl) <= blocks h)%nat.
Proof.
  intros H. pose proof (asc_length _ _ _ (ok_asc _ _ _ H)) as Hl. unfold blocks, HDR in *. simpl.
  assert (Z.of_nat (length fl) <= u_brk h / 16) by (apply Z.div_le_lower_bound; lia). lia.
Qed.

(** The list is a ring. *)
Definition nxt (n i : nat) : nat := if decide (S i = n) then 0 else S i.
Definition dist (n i j : nat) : nat := if decide (i <= j)%nat then (j - i)%nat else (n - i + j)%nat.
Lemma next_node h fl al i a s : ok h fl al -> nodes fl !! i = Some (a, s) ->
  exists b t, nodes fl !! nxt (length (nodes fl)) i = Some (b, t) /\ hptr (u_mem h) a = b.
Proof.
  intros H Hi. pose proof (links_lookup _ _ _ _ _ _ (ok_links _ _ _ H) Hi) as [Hp _]. pose proof (lookup_lt_Some _ _ _ Hi) as Hlt. unfold nxt.
  destruct (decide (S i = length (nodes fl))) as [E|E].
  - exists base, 0. split; [done|]. rewrite Hp, E. by rewrite (proj2 (lookup_ge_None _ _)).
  - destruct (lookup_lt_is_Some_2 (nodes fl) (S i)) as [[b t] Hb]; [lia|]. exists b, t. split; [done|]. by rewrite Hp, Hb.
Qed.
Lemma dist_next n i j : (i < n)%nat -> (j < n)%nat -> i <> j -> (nxt n i < n)%nat /\ (dist n (nxt n i) j + 1 = dist n i j)%nat.
Proof.
  intros Hi Hj Hne. unfold nxt, dist. destruct (decide (S i = n)).
  - split; [lia|]. rewrite (decide_True (P := (0 <= j)%nat)) by lia. rewrite decide_False by lia. lia.
  - split; [lia|]. destruct (decide (S i <= j)%nat), (decide (i <= j)%nat); lia.
Qed.

(** The loop of [free] stops at the block before [bp]. *)
Lemma free_find_spec h fl al bp k p sp : ok h fl al -> base < bp -> nodes fl !! k = Some (p, sp) -> p < bp ->
  (forall j q t, nodes fl !! j = Some (q, t) -> (k < j)%nat -> bp < q) ->
  forall fuel i c sc, nodes fl !! i = Some (c, sc) -> (dist (length (nodes fl)) i k < fuel)%nat -> free_find fuel bp c h = Done p h.
Proof.
  intros H Hbp Hk Hp Hpost. set (n := length (nodes fl)). pose proof (lookup_lt_Some _ _ _ Hk) as Hkn. fold n in Hkn.
  induction fuel as [|fuel IH]; intros i c sc Hi Hd; [lia|]. cbn [free_find]. rewrite (bind_Done (getptr c) _ h _ h eq_refl).
  destruct (next_node _ _ _ _ _ _ H Hi) as (q & t & Hq & ->). fold n in Hq. pose proof (lookup_lt_Some _ _ _ Hi) as Hin. fold n in Hin.
  destruct (decide (i = k)) as [->|Hne].
  - rewrite Hk in Hi. injection Hi as <- <-. unfold nxt in Hq. destruct (decide (S k = n)).
    + injection Hq as <- <-. replace (base <=? p) with true by (destruct (decide (k = 0)%nat) as [->|]; [injection Hk as <- <-; lia|];
        pose proof (nodes_lt _ _ _ 0 k _ _ _ _ H ltac:(lia) eq_refl Hk); lia).
      replace (p <? bp) with true by lia. replace (bp <? base) with false by lia. done.
    + specialize (Hpost _ _ _ Hq ltac:(lia)). replace (p <? bp) with true by lia. by replace (bp <? q) with true by lia.
  - destruct (dist_next n i k Hin Hkn Hne) as [_ Hdn].
    assert (Hstep : (c <? bp) && (bp <? q) = false /\ (q <=? c) && ((c <? bp) || (bp <? q)) = false).
    { unfold nxt in Hq. destruct (decide (i < k)%nat) as [Hlt|Hge].
      - rewrite decide_False in Hq by lia. assert (q <= p). { destruct (decide (S i = k)) as [E|E]; [rewrite E, Hk in Hq; injection Hq; lia|].
          pose proof (nodes_lt _ _ _ (S i) k _ _ _ _ H ltac:(lia) Hq Hk). lia. }
        pose proof (nodes_lt _ _ _ i (S i) _ _ _ _ H ltac:(lia) Hi Hq). split; lia.
      - specialize (Hpost _ _ _ Hi ltac:(lia)). destruct (decide (S i = n)); [injection Hq as <- <-; split; lia|].
        pose proof (nodes_lt _ _ _ i (S i) _ _ _ _ H ltac:(lia) Hi Hq). split; lia. }
    destruct Hstep as [-> ->]. apply (IH (nxt n i) q t Hq). lia.
Qed.

(** The last block of a part of the list, or [base]. *)
Definition lst (f : list block_of) : Z := default base (last f.*1).
Lemma lst_snoc f a u : lst (f ++ [(a, u)]) = a.
Proof. unfold lst. rewrite fmap_app. change ([(a, u)].*1) with [a]. by rewrite last_snoc. Qed.
Lemma lst_lookup f f2 : exists u, nodes (f ++ f2) !! length f = Some (lst f, u).
Proof.
  destruct f as [|[a u] f _] using rev_ind; [by exists 0|]. exists u. rewrite lst_snoc, length_app, Nat.add_comm. simpl.
  rewrite <- app_assoc, lookup_app_r by lia. by rewrite Nat.sub_diag.
Qed.
Lemma lst_cases f : lst f = base \/ exists u, (lst f, u) ∈ f.
Proof. destruct f as [|[a u] f _] using rev_ind; [by left|]. right. exists u. rewrite lst_snoc. set_solver. Qed.
Lemma links_lst m f x : links m (nodes f) x -> hptr m (lst f) = x.
Proof.
  destruct f as [|[a u] f _] using rev_ind; [by intros (H & _)|]. rewrite lst_snoc. change (nodes (f ++ [(a, u)])) with (nodes f ++ [(a, u)]).
  intros [_ (H & _)]%links_app. done.
Qed.
Lemma relink m f hi x y : asc (h0 - 1) f hi -> 0 <= y < 2 ^ 64 -> links m (nodes f) x -> links (set_hptr (lst f) y m) (nodes f) y.
Proof.
  intros Ha Hy. destruct f as [|[a u] f _] using rev_ind.
  - simpl. intros (_ & H & _). split; [by apply hptr_set|]. split; [|done]. by rewrite <- H, <- (hsize_set_ptr m base y).
  - rewrite lst_snoc. change (nodes (f ++ [(a, u)])) with (nodes f ++ [(a, u)]). rewrite !links_app. simpl head_addr. intros [H1 (_ & H2 & _)].
    apply asc_mid in Ha as (Ha & _ & Hlo & _). split.
    + apply (links_frame m); [|done]. constructor; simpl; [apply same_set_ptr; lia|]. apply Forall_forall. intros [b t] Hb. specialize (Ha _ _ Hb).
      apply same_set_ptr. unfold HDR in *. simpl. lia.
    + split; [by apply hptr_set|]. split; [|done]. by rewrite hsize_set_ptr.
Qed.

(** ** [free] *)

Lemma asc_split lo fl hi bp s : asc lo fl hi -> 0 < s -> lo < bp -> bp + HDR * s <= hi -> Forall (apart (bp, s)) fl ->
  exists f1 f2, fl = f1 ++ f2 /\ asc lo f1 bp /\ asc (bp + HDR * s - 1) f2 hi.
Proof.
  intros H Hs. revert lo H. induction fl as [|[a t] fl IH]; intros lo H Hlo Hhi Hap.
  - exists [], []. split; [done|]. simpl in *. unfold HDR in *. lia.
  - simpl in H. destruct H as (H1 & H2 & H3). inversion Hap as [|x y Ha Hap' [E1 E2]]. clear x y E1 E2. unfold apart, HDR in Ha. simpl in Ha. unfold HDR in *.
    destruct Ha as [Ha|Ha].
    + exists [], ((a, t) :: fl). split; [done|]. simpl. unfold HDR. split; [lia|]. split; [lia|]. done.
    + destruct (decide (a + 16 * t < bp)) as [Hlt|Hge].
      * destruct (IH _ H3 Hlt Hhi Hap') as (f1 & f2 & -> & Hf1 & Hf2). exists ((a, t) :: f1), f2. split; [done|]. simpl. unfold HDR. auto.
      * exists [(a, t)], fl. split; [done|]. simpl. unfold HDR. split; [lia|]. replace (bp + 16 * s - 1) with (a + 16 * t + (16 * s - 1)) by lia.
        destruct fl as [|[c u] fl]; simpl in *; [lia|]. inversion Hap' as [|x y Hc _ [E1 E2]]. unfold apart, HDR in Hc. simpl in Hc. unfold HDR in *. split; [lia|]. tauto.
Qed.

(** The bytes of the blocks of [al]. *)
Definition keep (al : list block_of) (m m' : mem) : Prop := forall b x, b ∈ al -> b.1 <= x < b.1 + HDR * b.2 -> mget m' x = mget m x.
(** The blocks of [f'] are within those of [f]. *)
Definition within (f f' : list block_of) : Prop := forall b : block_of, 0 < b.2 -> Forall (apart b) f -> Forall (apart b) f'.
Definition only (bp : Z) (m m' : mem) : Prop := forall x, x < bp \/ bp + HDR <= x -> mget m' x = mget m x.

Lemma only_hdr bp m m' q : only bp m m' -> q + HDR <= bp \/ bp + HDR <= q -> same_hdr m m' q.
Proof. intros H Hq x Hx. apply H. lia. Qed.
Lemma only_after bp m m' lo f hi last : only bp m m' -> asc lo f hi -> bp + HDR <= lo + 1 -> links m f last -> links m' f last.
Proof.
  intros Ho Ha Hlo. apply links_frame, Forall_forall. intros [q t] Hq. apply (only_hdr bp); [done|]. pose proof (asc_in _ _ _ _ _ Ha Hq). simpl. lia.
Qed.
Lemma lst_before f bp : asc (h0 - 1) f bp -> h0 <= bp -> base <= lst f /\ lst f + HDR <= bp.
Proof.
  intros Ha Hbp. destruct f as [|[a u] f _] using rev_ind; [unfold lst; simpl; lia|]. rewrite lst_snoc. apply asc_mid in Ha as (_ & _ & Ha). unfold HDR in *. lia.
Qed.
Lemma only_before bp m m' f last : only bp m m' -> asc (h0 - 1) f bp -> h0 <= bp -> links m (nodes f) last -> links m' (nodes f) last.
Proof.
  intros Ho Ha Hlo. apply links_frame. constructor; [apply (only_hdr bp); simpl; [done|lia]|]. apply Forall_forall. intros [q t] Hq. apply (only_hdr bp); [done|].
  pose proof (asc_in _ _ _ _ _ Ha Hq). unfold HDR in *. simpl. lia.
Qed.
Lemma apart_join b bp s t : 0 < b.2 -> apart b (bp, s) -> apart b (bp + HDR * s, t) -> apart b (bp, s + t).
Proof. unfold apart, HDR. simpl. lia. Qed.

Lemma join_next_spec h f1 f2 bp s : links (u_mem h) (nodes (f1 ++ f2)) base -> asc (h0 - 1) f1 bp -> asc (bp + HDR * s - 1) f2 (u_brk h) ->
  h0 <= bp -> 0 < s -> bp + HDR * s <= u_brk h -> hsize (u_mem h) bp = s -> u_brk h <= 2 ^ 36 ->
  wp (join_next bp (lst f1)) (fun _ h' => exists s' f2', h' = set_umem (u_mem h') h /\ only bp (u_mem h) (u_mem h') /\
    links (u_mem h') ((bp, s') :: f2') base /\ asc (bp + HDR * s') f2' (u_brk h) /\ s <= s' /\ (length f2' <= length f2)%nat /\
    within ((bp, s) :: f2) ((bp, s') :: f2')) h.
Proof.
  intros Hl Ha1 Ha2 Hlo Hs Hend Hsz Hmax. apply (links_app _ (nodes f1) f2) in Hl as [Hl1 Hl2]. apply wp_bind, wp_gets, wp_bind, wp_gets. rewrite Hsz, (links_lst _ _ _ Hl1).
  pose proof (asc_le _ _ _ Ha2) as Hle. unfold HDR in Hle. destruct (Z.eqb_spec (bp + HDR * s) (head_addr f2 base)) as [E|E].
  - destruct f2 as [|[q t] f2]; simpl in E; [unfold HDR in *; lia|]. simpl head_addr in *. simpl in Ha2. destruct Ha2 as (_ & Ht0 & Ha2).
    pose proof (asc_le _ _ _ Ha2) as Hle2. apply wp_bind, wp_gets. destruct Hl2 as (Hq & Ht & Hl2). rewrite Ht, (u32_small (s + t)) by (unfold HDR in *; lia).
    apply wp_bind, wp_modify, wp_bind, wp_gets. cbn [u_mem set_umem].
    assert (Hone : only bp (u_mem h) (set_hsize bp (s + t) (u_mem h))) by (intros x Hx; by apply mget_set_size).
    rewrite (same_ptr _ _ (lst f1) (only_hdr _ _ _ _ Hone ltac:(left; apply lst_before; done))), (links_lst _ _ _ Hl1).
    apply wp_bind, wp_gets, wp_modify. cbn [u_mem set_umem]. rewrite (same_ptr _ _ q (only_hdr bp _ _ q Hone ltac:(right; unfold HDR in *; lia))), Hq.
    exists (s + t), f2. split; [done|]. assert (Hone2 : forall v, only bp (u_mem h) (set_hptr bp v (set_hsize bp (s + t) (u_mem h)))).
    { intros v x Hx. rewrite mget_set_ptr by done. by apply Hone. }
    split; [apply Hone2|]. replace (bp + HDR * (s + t)) with (q + HDR * t) by (unfold HDR in *; lia). repeat split; [..|done|lia|simpl; lia|].
    + apply hptr_set. destruct f2 as [|[c u] f2]; simpl in Ha2 |- *; [unfold HDR in *; lia|]. destruct Ha2 as (? & ? & ?%asc_le). unfold HDR in *. lia.
    + rewrite hsize_set_ptr. apply hsize_set. unfold HDR in *. lia.
    + apply (only_after bp _ _ _ _ _ _ (Hone2 _) Ha2); [unfold HDR in *; lia|done].
    + intros b Hb Hf. apply Forall_cons in Hf as [Hb1 [Hb2 Hb3]%Forall_cons]. constructor; [|done]. apply apart_join; [done..|]. by rewrite E.
  - apply wp_modify. exists s, f2. assert (Hone : only bp (u_mem h) (set_hptr bp (head_addr f2 base) (u_mem h))) by (intros x Hx; by apply mget_set_ptr).
    cbn [u_mem set_umem]. repeat split; [done|..|lia|lia|by intros b].
    + apply hptr_set. destruct f2 as [|[c u] f2]; simpl in Ha2 |- *; [unfold HDR in *; lia|]. destruct Ha2 as (? & ? & ?%asc_le). unfold HDR in *. lia.
    + by rewrite hsize_set_ptr.
    + apply (only_after bp _ _ _ _ _ _ Hone Ha2); [unfold HDR in *; lia|done].
    + destruct f2 as [|[c u] f2]; simpl in *; [unfold HDR in *; lia|]. destruct Ha2 as (? & ? & ?). split; [lia|done].
Qed.

Lemma join_prev_spec h f1 f2 bp s x : links (u_mem h) (nodes f1) x -> links (u_mem h) ((bp, s) :: f2) base -> asc (h0 - 1) f1 bp -> asc (bp + HDR * s) f2 (u_brk h) ->
  h0 <= bp -> 0 < s -> u_brk h <= 2 ^ 36 ->
  wp (join_prev bp (lst f1)) (fun _ h' => exists fl', h' = set_umem (u_mem h') h /\ only (lst f1) (u_mem h) (u_mem h') /\
    links (u_mem h') (nodes fl') base /\ asc (h0 - 1) fl' (u_brk h) /\ lst f1 ∈ (nodes fl').*1 /\ (exists c, c ∈ fl' /\ s <= c.2) /\
    (length fl' <= S (length f1 + length f2))%nat /\ within (f1 ++ (bp, s) :: f2) fl') h.
Proof.
  intros Hl1 Hl2 Ha1 Ha2 Hlo Hs Hmax. pose proof (asc_le _ _ _ Ha2) as Hle. pose proof (lst_before _ _ Ha1 Hlo) as [Hb1 Hb2].
  destruct (lst_lookup f1 []) as (u & Hu). rewrite app_nil_r in Hu. pose proof (links_lookup _ _ _ _ _ _ Hl1 Hu) as [_ Hsz].
  apply wp_bind, wp_gets. rewrite Hsz. destruct (Z.eqb_spec (lst f1 + HDR * u) bp) as [E|E].
  - destruct f1 as [|[a u'] f _] using rev_ind; [injection Hu as <-; unfold lst in E; simpl in E; unfold HDR in *; lia|]. rewrite lst_snoc in *.
    assert (u' = u) as ->. { rewrite length_app, Nat.add_comm in Hu. simpl in Hu. rewrite lookup_app_r, Nat.sub_diag in Hu by lia. by injection Hu. }
    destruct Hl2 as (Hp & Hs2 & Hl2). change (nodes (f ++ [(a, u)])) with (nodes f ++ [(a, u)]) in Hl1. apply links_app in Hl1 as [Hl1 _]. simpl head_addr in Hl1.
    apply asc_app in Ha1 as (mid & Ha & Hmid & Hu0 & _). pose proof (asc_le _ _ _ Ha). apply wp_bind, wp_gets. rewrite Hs2, (u32_small (u + s)) by (unfold HDR in *; lia).
    apply wp_bind, wp_modify, wp_bind, wp_gets, wp_modify. cbn [u_mem set_umem].
    rewrite (same_ptr (u_mem h) _ bp) by (apply same_set_size; right; unfold HDR in *; lia). rewrite Hp.
    assert (Hone : forall v, only a (u_mem h) (set_hptr a v (set_hsize a (u + s) (u_mem h)))) by (intros v y Hy; rewrite mget_set_ptr by done; by apply mget_set_size).
    exists (f ++ (a, u + s) :: f2). split; [done|]. split; [apply Hone|]. split; [|split; [|split; [|split; [|split]]]].
    + apply (links_app _ (nodes f)). split; [apply (only_before a _ _ _ _ (Hone _)); [by apply (asc_weak _ _ mid); [lia|]|lia|done]|]. split; [|split].
      * apply hptr_set. destruct f2 as [|[c v] f2]; simpl in Ha2 |- *; [unfold HDR in *; lia|]. destruct Ha2 as (? & ? & ?%asc_le). unfold HDR in *. lia.
      * rewrite hsize_set_ptr. apply hsize_set. unfold HDR in *. lia.
      * apply (only_after a _ _ _ _ _ _ (Hone _) Ha2); [unfold HDR in *; lia|done].
    + apply asc_app. exists mid. split; [done|]. split; [done|]. split; [lia|]. by replace (a + HDR * (u + s)) with (bp + HDR * s) by (unfold HDR in *; lia).
    + rewrite fmap_cons, fmap_app. set_solver.
    + exists (a, u + s). split; [set_solver|simpl; lia].
    + rewrite !length_app. simpl. lia.
    + intros b Hb. rewrite <- app_assoc. simpl. rewrite !Forall_app, !Forall_cons. intros (Hf & Hb3 & Hb4 & Hb5). rewrite <- E in Hb4. split; [done|]. split; [by apply apart_join|done].
  - assert (Hone : only (lst f1) (u_mem h) (set_hptr (lst f1) bp (u_mem h))) by (intros y Hy; by apply mget_set_ptr).
    apply wp_modify. cbn [u_mem set_umem]. exists (f1 ++ (bp, s) :: f2). split; [done|]. split; [apply Hone|]. split; [|split; [|split; [|split; [|split]]]].
    + apply (links_app _ (nodes f1)). split; [apply (relink _ _ bp x); [done|simpl; unfold HDR in *; lia|done]|].
      apply (only_after (lst f1) _ _ (bp - 1) _ (u_brk h) _ Hone); [|unfold HDR in *; lia|done]. split; [lia|done].
    + apply asc_app. destruct f1 as [|[a u'] f _] using rev_ind; [exists (h0 - 1); simpl; split; [lia|]; split; [lia|done]|]. rewrite lst_snoc in *.
      rewrite length_app, Nat.add_comm in Hu. simpl in Hu. rewrite lookup_app_r, Nat.sub_diag in Hu by lia. injection Hu as ->.
      apply asc_app in Ha1 as (mid & Ha & Hmid & Hu0 & Ha1). exists (a + HDR * u). split; [apply asc_app; exists mid; simpl; auto with lia|]. simpl in Ha1. split; [lia|done].
    + apply (list_elem_of_lookup_2 _ (length f1)). change (nodes (f1 ++ (bp, s) :: f2)) with (nodes f1 ++ (bp, s) :: f2).
      rewrite list_lookup_fmap, lookup_app_l, Hu by (simpl; lia). done.
    + exists (bp, s). split; [set_solver|simpl; lia].
    + rewrite length_app. simpl. lia.
    + by intros b.
Qed.

Lemma keep_only al bp m m' : only bp m m' -> Forall (fun b : block_of => 0 < b.2 /\ (b.1 + HDR * b.2 <= bp \/ bp + HDR <= b.1)) al -> keep al m m'.
Proof. intros Ho Hal b x Hb Hx. rewrite Forall_forall in Hal. specialize (Hal b Hb). apply Ho. lia. Qed.
Lemma keep_trans al m1 m2 m3 : keep al m1 m2 -> keep al m2 m3 -> keep al m1 m3.
Proof. intros H1 H2 b x Hb Hx. by rewrite (H2 b x Hb Hx), (H1 b x Hb Hx). Qed.
Lemma keep_size al m m' : keep al m m' -> Forall (fun b : block_of => 0 < b.2) al -> Forall (fun b => hsize m b.1 = b.2) al -> Forall (fun b => hsize m' b.1 = b.2) al.
Proof.
  intros Hk Hp. rewrite !Forall_forall in *. intros Hs b Hb. rewrite <- (Hs b Hb). apply same_size. intros x Hx. apply (Hk b); [done|]. specialize (Hp b Hb). unfold HDR in *. lia.
Qed.
Lemma apart_lst f hi (b : block_of) : asc (h0 - 1) f hi -> h0 <= b.1 -> 0 < b.2 -> Forall (apart b) f -> b.1 + HDR * b.2 <= lst f \/ lst f + HDR <= b.1.
Proof.
  intros Ha Hlo Hb Hap. destruct (lst_cases f) as [->|[v Hv]]; [lia|]. rewrite Forall_forall in Hap. specialize (Hap _ Hv).
  pose proof (asc_in _ _ _ _ _ Ha Hv). unfold apart in Hap. simpl in Hap. unfold HDR in *. lia.
Qed.

Lemma free_spec h fl al bp s : ok h fl ((bp, s) :: al) ->
  wp (free (bp + HDR)) (fun _ h' => exists fl', ok h' fl' al /\ keep al (u_mem h) (u_mem h') /\ u_brk h' = u_brk h /\
    (length fl' <= S (length fl))%nat /\ exists c, c ∈ fl' /\ s <= c.2) h.
Proof.
  intros H. pose proof H as [Hl Ha Hf Hsz Hal Hap Hsep Hmax]. apply Forall_cons in Hsz as [Hsz Hszs], Hal as [Hbp Hal], Hap as [Hapb Hap]. simpl in Hsz, Hbp. destruct Hsep as [Hsepb Hsep].
  destruct (asc_split _ _ _ bp s Ha) as (f1 & f2 & -> & Ha1 & Ha2); [lia..|done|].
  unfold free. replace (bp + HDR - HDR) with bp by lia. apply wp_bind, wp_gets, wp_bind.
  destruct (lst_lookup f1 f2) as (u & Hu). pose proof (lst_before _ _ Ha1 ltac:(lia)) as [Hb1 Hb2].
  exists (lst f1), h. split.
  { apply list_elem_of_fmap in Hf as ([c sc] & Hc & [i Hi]%list_elem_of_lookup_1). simpl in Hc. subst c.
    apply (free_find_spec h (f1 ++ f2) _ bp (length f1) (lst f1) u H ltac:(unfold HDR in *; lia) Hu ltac:(unfold HDR in *; lia)) with i sc; [|done|].
    - intros j q t Hj Hlt. change (nodes (f1 ++ f2)) with (nodes f1 ++ f2) in Hj. rewrite lookup_app_r in Hj by (simpl; lia). apply list_elem_of_lookup_2 in Hj.
      pose proof (asc_in _ _ _ _ _ Ha2 Hj). unfold HDR in *. lia.
    - pose proof (nodes_length _ _ _ H) as Hn. apply lookup_lt_Some in Hi, Hu. unfold dist. change (id h) with h. simpl in *. case_decide; lia. }
  apply wp_bind. eapply wp_mono; [apply (join_next_spec h f1 f2 bp s); [done|done|done|lia..]|]. intros [] h1 (s' & f2' & -> & Ho1 & Hl2 & Ha2' & Hs' & Hlen & Hw1).
  set (m1 := u_mem h1) in *. cbn [u_mem set_umem] in *. assert (Hl1 : links m1 (nodes f1) (head_addr f2 base)).
  { apply (only_before bp _ _ _ _ Ho1 Ha1 ltac:(lia)). by apply (links_app _ (nodes f1) f2) in Hl as [Hl _]. }
  apply wp_bind. eapply wp_mono; [apply (join_prev_spec (set_umem m1 h) f1 f2' bp s' _ Hl1 Hl2 Ha1 Ha2'); simpl; lia|].
  intros [] h2 (fl' & -> & Ho2 & Hl' & Ha' & Hin & Hc & Hlen' & Hw2). set (m2 := u_mem h2) in *. cbn [u_mem set_umem] in *. apply wp_modify.
  assert (Hk : keep al (u_mem h) m2).
  { rewrite Forall_forall in Hal, Hap, Hsepb. apply (keep_trans _ _ m1); eapply keep_only; try done; apply Forall_forall; intros b Hb; specialize (Hal b Hb).
    - specialize (Hsepb b Hb). unfold apart in Hsepb. simpl in Hsepb. unfold HDR in *. lia.
    - split; [lia|]. apply (apart_lst f1 bp); [done|lia|lia|]. by apply Hap, Forall_app in Hb as [Hb _]. }
  exists fl'. split; [|simpl; split; [done|]; split; [done|]; split; [rewrite length_app; lia|]; destruct Hc as (c & Hc1 & Hc2); exists c; split; [done|lia]].
  split; simpl; try done; [apply (keep_size _ _ _ Hk); [|done]; eapply Forall_impl; [exact Hal|]; simpl; lia|].
  rewrite Forall_forall in Hal, Hap, Hsepb |- *. intros b Hb. specialize (Hal b Hb). apply Hw2; [lia|]. specialize (Hap b Hb). apply Forall_app in Hap as [Hap1 Hap2].
  apply Forall_app. split; [done|]. apply Hw1; [lia|]. constructor; [apply apart_sym; auto|done].
Qed.

(** ** [malloc] *)

(** [sbrk] has failed. *)
Definition refused (h : heap) (nu r : Z) (h' : heap) : Prop := r = 0 /\ h' = h /\ can_grow h (Z.max 4096 nu * HDR) = false.
Lemma morecore_spec h fl al nu : (forall h n, can_grow h n = true -> u_brk h + n <= 2 ^ 36) -> ok h fl al -> 0 < nu < 2 ^ 27 ->
  wp (morecore nu) (fun r h' => refused h nu r h' \/
    r = u_freep h' /\ r <> 0 /\ exists fl', ok h' fl' al /\ keep al (u_mem h) (u_mem h') /\ u_brk h <= u_brk h' /\ (length fl' <= S (length fl))%nat /\
      exists c, c ∈ fl' /\ nu <= c.2) h.
Proof.
  intros Hgrow H Hnu. pose proof H as [Hl Ha Hf Hsz Hal Hap Hsep Hmax]. unfold morecore. set (nu' := if nu <? 4096 then 4096 else nu).
  assert (Hnu' : nu <= nu' < 2 ^ 27 /\ 0 < nu') by (unfold nu'; destruct (Z.ltb_spec nu 4096); lia).
  assert (Hmx : nu' = Z.max 4096 nu) by (unfold nu'; destruct (Z.ltb_spec nu 4096); lia). clearbody nu'. rewrite i32_small by (unfold HDR; lia).
  apply wp_bind. destruct (can_grow h (nu' * HDR)) eqn:E; [|exists (-1), h; unfold sbrk; rewrite E; split; [done|exists 0, h; split; [done|left; by rewrite Hmx in E]]].
  exists (u_brk h). eexists. unfold sbrk. rewrite E. split; [done|]. apply Hgrow in E. destruct (Z.eqb_spec (u_brk h) (-1)) as [?|_]; [unfold HDR in *; lia|]. apply wp_bind, wp_modify. cbn [u_mem u_freep u_brk set_umem].
  assert (Ho : only (u_brk h) (u_mem h) (set_hsize (u_brk h) nu' (u_mem h))) by (intros x Hx; by apply mget_set_size).
  assert (Hk : keep al (u_mem h) (set_hsize (u_brk h) nu' (u_mem h))).
  { apply (keep_only _ (u_brk h)); [done|]. eapply Forall_impl; [exact Hal|]. simpl. lia. }
  apply wp_bind. eapply wp_mono; [apply (free_spec _ fl al (u_brk h) nu')|].
  - split; cbn [u_mem u_freep u_brk set_umem].
    + by apply (only_before _ _ _ _ _ Ho); [|lia|].
    + apply (asc_weak _ _ (u_brk h)); [unfold HDR; lia|done].
    + done.
    + constructor; [apply hsize_set; cbn [snd]; lia|]. apply (keep_size _ _ _ Hk); [|done]. eapply Forall_impl; [exact Hal|]. simpl. lia.
    + constructor; [simpl; unfold HDR in *; lia|]. eapply Forall_impl; [exact Hal|]. simpl. unfold HDR in *. lia.
    + constructor; [|done]. apply Forall_forall. intros [b t] Hb. pose proof (asc_in _ _ _ _ _ Ha Hb). right. simpl. lia.
    + split; [|done]. eapply Forall_impl; [exact Hal|]. intros [b t] Hb. right. simpl in *. lia.
    + unfold HDR in *. lia.
  - intros [] h' (fl' & H' & Hk' & Hb' & Hlen & c & Hc & Hcs). apply wp_gets. right. split; [done|]. split.
    { pose proof (ok_freep _ _ _ H') as Hin. apply list_elem_of_fmap in Hin as ([a t] & -> & [E'|Hin]%elem_of_cons); [injection E' as -> ->; simpl; lia|].
      pose proof (asc_in _ _ _ _ _ (ok_asc _ _ _ H') Hin). simpl. unfold HDR in *. lia. }
    exists fl'. split; [done|]. split; [by eapply keep_trans|]. split; [rewrite Hb'; cbn [u_brk set_umem]; unfold HDR; lia|]. split; [done|]. exists c. split; [done|lia].
Qed.

(** Taking a part of a free block. *)
Lemma ok_take h m' f1 p sp f2 al r : ok h (f1 ++ (p, sp) :: f2) al -> forall q n f2', p <= q -> 0 < n -> q + HDR * n = p + HDR * sp ->
  links m' (nodes (f1 ++ f2')) base -> asc (h0 - 1) (f1 ++ f2') (u_brk h) -> hsize m' q = n -> keep al (u_mem h) m' ->
  within ((p, sp) :: f2) f2' -> Forall (apart (q, n)) f2' -> r ∈ (nodes (f1 ++ f2')).*1 -> ok (set_freep r (set_umem m' h)) (f1 ++ f2') ((q, n) :: al).
Proof.
  intros [Hl Ha Hf Hsz Hal Hap Hsep Hmax] q n f2' Hpq Hn Hend Hl' Ha' Hq Hk Hw Hqa Hr. pose proof (asc_mid _ _ _ _ _ _ Ha) as (Hf1 & Hf2 & Hlo & Hsp & Hhi).
  assert (Hin : forall b : block_of, 0 < b.2 -> apart b (p, sp) -> apart b (q, n)) by (intros b Hb; unfold apart, HDR in *; simpl; lia).
  assert (Hpos : Forall (fun b : block_of => 0 < b.2) al) by (eapply Forall_impl; [exact Hal|simpl; lia]).
  assert (Hapq : Forall (fun b => apart b (p, sp)) al).
  { eapply Forall_impl; [exact Hap|]. intros b Hb. rewrite Forall_forall in Hb. apply Hb. set_solver. }
  split; cbn [u_mem u_freep u_brk set_freep set_umem]; try done.
  - constructor; [done|]. by apply (keep_size _ (u_mem h)).
  - constructor; [simpl; unfold HDR in *; lia|done].
  - constructor.
    + apply Forall_app. split; [|done]. apply Forall_forall. intros [b t] Hb. specialize (Hf1 _ _ Hb). right. simpl. lia.
    + rewrite Forall_forall in Hap, Hpos |- *. intros b Hb. specialize (Hap b Hb). apply Forall_app in Hap as [Hap1 Hap2]. apply Forall_app. split; [done|]. by apply Hw; [apply Hpos|].
  - split; [|done]. rewrite Forall_forall in Hpos, Hapq |- *. intros b Hb. apply apart_sym, Hin; [by apply Hpos|by apply Hapq].
Qed.
Notation took h fl al m' r q n := (ok (set_freep r (set_umem m' h)) fl ((q, n) :: al) /\ keep al (u_mem h) m').
Lemma take_exact h f1 p sp f2 al : ok h (f1 ++ (p, sp) :: f2) al -> let m' := set_hptr (lst f1) (head_addr f2 base) (u_mem h) in
  took h (f1 ++ f2) al m' (lst f1) p sp.
Proof.
  intros H m'. pose proof H as [Hl Ha Hf Hsz Hal Hap Hsep Hmax]. pose proof (asc_mid _ _ _ _ _ _ Ha) as (Hf1 & Hf2 & Hlo & Hsp & Hhi).
  pose proof Hl as [Hl1 (Hp & Hs & Hl2)]%(links_app _ (nodes f1)). pose proof Ha as (mid & Ha1 & Hmid & _ & Ha2)%asc_app. pose proof (asc_le _ _ _ Ha1).
  assert (Hm : asc (h0 - 1) f1 p) by (by apply (asc_weak _ _ mid); [lia|]). pose proof (lst_before f1 p Hm ltac:(lia)) as [Hb1 Hb2].
  assert (Ho : only (lst f1) (u_mem h) m') by (intros x Hx; by apply mget_set_ptr).
  assert (Hk : keep al (u_mem h) m').
  { apply (keep_only _ (lst f1)); [done|]. rewrite Forall_forall in Hap, Hal |- *. intros b Hb. specialize (Hal b Hb). split; [lia|].
    apply (apart_lst f1 p); [done|lia|lia|]. by apply Hap, Forall_app in Hb as [Hb _]. }
  split; [|done]. apply (ok_take h m' f1 p sp f2 al (lst f1) H p sp f2); [lia|lia|lia|..]; [| |by rewrite (same_size (u_mem h)); [|apply (only_hdr _ _ _ _ Ho); lia]|done| | |].
  - apply (links_app _ (nodes f1)). split; [apply (relink _ _ p p); [done| |done]|apply (only_after _ _ _ _ _ _ _ Ho Ha2); [unfold HDR in *; lia|done]].
    destruct f2 as [|[c v] f2]; simpl in Ha2 |- *; [unfold HDR in *; lia|]. destruct Ha2 as (? & ? & ?%asc_le). unfold HDR in *. lia.
  - apply asc_app. exists mid. split; [done|]. by apply (asc_lower _ (p + HDR * sp)); [unfold HDR in *; lia|].
  - intros b _ [_ Hb]%Forall_cons. done.
  - apply Forall_forall. intros [b t] Hb. specialize (Hf2 _ _ Hb). left. simpl. lia.
  - destruct (lst_lookup f1 f2) as [u Hu]. apply list_elem_of_lookup_2, (list_elem_of_fmap_2 fst) in Hu. done.
Qed.
Lemma take_tail h f1 p sp f2 al n q : ok h (f1 ++ (p, sp) :: f2) al -> 0 < n < sp -> q = p + HDR * (sp - n) ->
  took h (f1 ++ (p, sp - n) :: f2) al (set_hsize q n (set_hsize p (sp - n) (u_mem h))) (lst f1) q n.
Proof.
  intros H Hn Eq. pose proof H as [Hl Ha Hf Hsz Hal Hap Hsep Hmax]. pose proof (asc_mid _ _ _ _ _ _ Ha) as (Hf1 & Hf2 & Hlo & Hsp & Hhi).
  pose proof Hl as [Hl1 (Hp & Hs & Hl2)]%(links_app _ (nodes f1)). pose proof Ha as (mid & Ha1 & Hmid & _ & Ha2)%asc_app. pose proof (asc_le _ _ _ Ha1).
  assert (Hq : p + HDR <= q /\ q + HDR * n = p + HDR * sp) by (unfold HDR in *; lia). clear Eq.
  set (m1 := set_hsize p (sp - n) (u_mem h)). set (m2 := set_hsize q n m1).
  assert (Ho1 : only p (u_mem h) m1) by (intros x Hx; by apply mget_set_size). assert (Ho2 : only q m1 m2) by (intros x Hx; by apply mget_set_size).
  assert (Hm : asc (h0 - 1) f1 p) by (by apply (asc_weak _ _ mid); [lia|]).
  assert (Hk : keep al (u_mem h) m2).
  { rewrite Forall_forall in Hal, Hap. apply (keep_trans _ _ m1); eapply keep_only; try done; apply Forall_forall; intros b Hb; specialize (Hal b Hb);
      (split; [lia|]); apply Hap, Forall_app in Hb as [_ [Hb _]%Forall_cons]; unfold apart in Hb; simpl in Hb; unfold HDR in *; lia. }
  split; [|done]. apply (ok_take h m2 f1 p sp f2 al (lst f1) H q n ((p, sp - n) :: f2)); [unfold HDR in *; lia|lia|lia|..].
  - apply (links_app _ (nodes f1)). split; [|split; [|split]].
    + apply (only_before q m1 m2 _ _ Ho2); [by apply (asc_weak _ _ p); [unfold HDR in *; lia|]|unfold HDR in *; lia|]. by apply (only_before p (u_mem h) m1 _ _ Ho1); [|lia|].
    + rewrite (same_ptr m1 m2) by (apply (only_hdr q); [done|lia]). unfold m1. by rewrite hptr_set_size.
    + rewrite (same_size m1 m2) by (apply (only_hdr q); [done|lia]). apply hsize_set. unfold HDR in *. lia.
    + apply (only_after q m1 m2 _ _ _ _ Ho2 Ha2); [unfold HDR in *; lia|]. apply (only_after p _ m1 _ _ _ _ Ho1 Ha2); [unfold HDR in *; lia|done].
  - apply asc_app. exists mid. split; [done|]. split; [lia|]. split; [lia|]. apply (asc_lower _ (p + HDR * sp)); [unfold HDR in *; lia|done].
  - apply hsize_set. unfold HDR in *. lia.
  - done.
  - intros b Hb [Hb1 Hb2]%Forall_cons. constructor; [|done]. unfold apart, HDR in *. simpl in *. lia.
  - constructor; [right; simpl; unfold HDR in *; lia|]. apply Forall_forall. intros [b t] Hb. specialize (Hf2 _ _ Hb). left. simpl. lia.
  - destruct (lst_lookup f1 ((p, sp - n) :: f2)) as [u Hu]. apply list_elem_of_lookup_2, (list_elem_of_fmap_2 fst) in Hu. done.
Qed.
Lemma take_block_spec h f1 p sp f2 al n : ok h (f1 ++ (p, sp) :: f2) al -> 0 < n <= sp ->
  wp (take_block n (lst f1) p sp) (fun r h' => exists fl', ok h' fl' ((r - HDR, n) :: al) /\ keep al (u_mem h) (u_mem h') /\ u_brk h' = u_brk h) h.
Proof.
  intros H Hn. pose proof (ok_links _ _ _ H) as [_ (Hp & _)]%(links_app _ (nodes f1)). apply wp_bind. destruct (Z.eqb_spec sp n) as [->|Hne].
  - apply wp_bind, wp_gets, wp_bind, wp_modify, wp_ret, wp_bind, wp_modify, wp_ret. rewrite Hp. replace (p + HDR - HDR) with p by lia.
    destruct (take_exact _ _ _ _ _ _ H) as [H1 H2]. eauto.
  - apply wp_bind, wp_modify, wp_bind, wp_modify, wp_ret, wp_bind, wp_modify, wp_ret. rewrite Z.add_simpl_r.
    destruct (take_tail _ _ _ _ _ _ n _ H ltac:(lia) eq_refl) as [H1 H2]. eauto.
Qed.

Notation node fl i a := (exists t, nodes fl !! i = Some (a, t)).
Lemma node_split fl k prevp p sp : node fl k prevp -> nodes fl !! S k = Some (p, sp) -> exists f1 f2, fl = f1 ++ (p, sp) :: f2 /\ prevp = lst f1.
Proof.
  intros [t Hk] Hp. change (fl !! k = Some (p, sp)) in Hp. apply list_elem_of_split_length in Hp as (f1 & f2 & -> & ->). exists f1, f2. split; [done|].
  destruct (lst_lookup f1 ((p, sp) :: f2)) as [u Hu]. rewrite Hk in Hu. by injection Hu.
Qed.
(** What [malloc] leaves when it finds a block. *)
Notation found h al n r h' := (exists fl', ok h' fl' ((r - HDR, n) :: al) /\ keep al (u_mem h) (u_mem h') /\ u_brk h <= u_brk h').
Lemma loop_here h fl al n i prevp p sp fuel : ok h fl al -> 0 < n <= sp -> nodes fl !! nxt (length (nodes fl)) i = Some (p, sp) -> node fl i prevp ->
  wp (malloc_loop (S fuel) n prevp p) (fun r h' => found h al n r h') h.
Proof.
  intros H Hn Hp Hprev. pose proof (links_lookup _ _ _ _ _ _ (ok_links _ _ _ H) Hp) as [_ Hs]. apply wp_bind, wp_gets. rewrite Hs. replace (n <=? sp) with true by lia.
  unfold nxt in Hp. case_decide; [injection Hp; lia|]. destruct (node_split _ _ _ _ _ Hprev Hp) as (f1 & f2 & -> & ->).
  eapply wp_mono; [apply (take_block_spec _ f1 p sp f2 al n H); lia|]. intros r h' (fl' & H1 & H2 & H3). exists fl'. split; [done|]. split; [done|lia].
Qed.
(** A block that fits is found before the round ends. *)
Lemma loop_fit h fl al n j pj sj f : ok h fl al -> 0 < n <= sj -> nodes fl !! j = Some (pj, sj) -> node fl f (u_freep h) ->
  forall fuel i prevp p, node fl i prevp -> node fl (nxt (length (nodes fl)) i) p ->
  (dist (length (nodes fl)) (nxt (length (nodes fl)) i) j <= dist (length (nodes fl)) (nxt (length (nodes fl)) i) f)%nat ->
  (dist (length (nodes fl)) (nxt (length (nodes fl)) i) j < fuel)%nat ->
  wp (malloc_loop fuel n prevp p) (fun r h' => found h al n r h') h.
Proof.
  intros H Hn Hj [tf Hf]. set (N := length (nodes fl)). induction fuel as [|fuel IH]; intros i prevp p Hi [sp Hp] Hd Hfuel; [lia|].
  destruct (decide (n <= sp)) as [Hfit|Hno]; [apply (loop_here h fl al n i prevp p sp fuel H); [lia|done|done]|].
  pose proof (links_lookup _ _ _ _ _ _ (ok_links _ _ _ H) Hp) as [_ Hs]. apply wp_bind, wp_gets. rewrite Hs. replace (n <=? sp) with false by lia.
  pose proof (lookup_lt_Some _ _ _ Hp) as Hpn. pose proof (lookup_lt_Some _ _ _ Hf) as Hfn. pose proof (lookup_lt_Some _ _ _ Hj) as Hjn. fold N in Hpn, Hfn, Hjn.
  set (i' := nxt N i) in *. assert (Hij : i' <> j) by (intros ->; rewrite Hj in Hp; injection Hp; lia). pose proof (dist_next N i' j Hpn Hjn Hij) as [_ Hdj].
  assert (Hif : i' <> f). { intros ->. revert Hd Hdj. unfold dist. rewrite (decide_True (P := (f <= f)%nat)) by lia. case_decide; lia. }
  pose proof (dist_next N i' f Hpn Hfn Hif) as [_ Hdf]. apply wp_bind, wp_gets. destruct (Z.eqb_spec p (u_freep h)) as [->|_].
  { destruct (decide (i' < f)%nat); [pose proof (nodes_lt _ _ _ i' f _ _ _ _ H ltac:(done) Hp Hf)|pose proof (nodes_lt _ _ _ f i' _ _ _ _ H ltac:(lia) Hf Hp)]; lia. }
  destruct (next_node _ _ _ _ _ _ H Hp) as (b & t & Hb & Hpb). apply wp_bind, wp_gets. rewrite Hpb. apply (IH i'); [by eexists|by eexists|lia|lia].
Qed.
Lemma loop_all h fl al n f : (forall h n, can_grow h n = true -> u_brk h + n <= 2 ^ 36) -> ok h fl al -> 0 < n < 2 ^ 27 -> node fl f (u_freep h) ->
  forall fuel i prevp p, node fl i prevp -> node fl (nxt (length (nodes fl)) i) p ->
  (dist (length (nodes fl)) (nxt (length (nodes fl)) i) f + length (nodes fl) + 2 < fuel)%nat ->
  wp (malloc_loop fuel n prevp p) (fun r h' => refused h n r h' \/ found h al n r h') h.
Proof.
  intros Hgrow H Hn [tf Hf]. set (N := length (nodes fl)). induction fuel as [|fuel IH]; intros i prevp p Hi [sp Hp] Hfuel; [lia|].
  destruct (decide (n <= sp)) as [Hfit|Hno]; [eapply wp_mono; [apply (loop_here h fl al n i prevp p sp fuel H); [lia|done|done]|by right]|].
  pose proof (links_lookup _ _ _ _ _ _ (ok_links _ _ _ H) Hp) as [_ Hs]. apply wp_bind, wp_gets. rewrite Hs. replace (n <=? sp) with false by lia.
  pose proof (lookup_lt_Some _ _ _ Hp) as Hpn. pose proof (lookup_lt_Some _ _ _ Hf) as Hfn. fold N in Hpn, Hfn. set (i' := nxt N i) in *.
  apply wp_bind, wp_gets. destruct (Z.eqb_spec p (u_freep h)) as [->|Hne].
  - apply wp_bind. eapply wp_mono; [apply (morecore_spec h fl al n Hgrow H Hn)|]. intros r h1 [(-> & -> & Href)|(-> & Hr & fl1 & H1 & Hk & Hbrk & Hlen & [c sc] & Hc & Hsc)]; [apply wp_ret; by left|].
    replace (u_freep h1 =? 0) with false by lia. pose proof (ok_freep _ _ _ H1) as Hf1. apply list_elem_of_fmap in Hf1 as ([q tq] & Hq & [k Hk1]%list_elem_of_lookup_1). simpl in Hq. subst q.
    destruct (next_node _ _ _ _ _ _ H1 Hk1) as (b & t & Hb & Hpb). apply wp_bind, wp_gets. rewrite Hpb. apply list_elem_of_lookup_1 in Hc as [j Hj].
    eapply wp_mono; [apply (loop_fit h1 fl1 al n (S j) c sc k H1 ltac:(simpl in *; lia) Hj) with k; [by eexists..| |]|].
    + pose proof (lookup_lt_Some _ _ _ Hk1) as Hkn. apply lookup_lt_Some in Hj. simpl in Hkn |- *. unfold dist, nxt. repeat case_decide; lia.
    + apply lookup_lt_Some in Hj. apply lookup_lt_Some in Hb. simpl in *. unfold N in Hfuel. simpl in Hfuel. unfold dist. case_decide; lia.
    + intros r h2 (fl2 & H2 & Hk2 & Hb2). right. exists fl2. split; [done|]. split; [by eapply keep_trans|lia].
  - assert (Hif : i' <> f) by (intros ->; rewrite Hf in Hp; congruence). pose proof (dist_next N i' f Hpn Hfn Hif) as [_ Hdf].
    destruct (next_node _ _ _ _ _ _ H Hp) as (b & t & Hb & Hpb). apply wp_bind, wp_gets. rewrite Hpb. apply (IH i'); [by eexists|by eexists|fold N; lia].
Qed.

(** ** The heap of a program

    The blocks a program holds, by the address [malloc] returned: the number
    of bytes of each.  [uok] says that the heap has not been used yet or that
    the free list is well formed. *)

Definition uok (h : heap) (al : list block_of) : Prop :=
  u_freep h = 0 /\ al = [] /\ h0 <= u_brk h <= 2 ^ 36 \/ exists fl, ok h fl al.

Lemma ok_alloc h fl al b : ok h fl al -> b ∈ al -> h0 <= b.1 /\ 0 < b.2 /\ b.1 + HDR * b.2 <= u_brk h.
Proof. intros H Hb. pose proof (ok_al _ _ _ H) as Hal. rewrite Forall_forall in Hal. by apply Hal. Qed.
Definition units (nbytes : Z) : Z := (nbytes + HDR - 1) / HDR + 1.
Lemma units_bytes nbytes : 0 <= nbytes -> 0 < units nbytes /\ nbytes <= HDR * (units nbytes - 1) < nbytes + HDR.
Proof.
  intros Hn. unfold units, HDR. pose proof (Z.div_mod (nbytes + 16 - 1) 16 ltac:(lia)). pose proof (Z.mod_pos_bound (nbytes + 16 - 1) 16 ltac:(lia)).
  assert (0 <= (nbytes + 16 - 1) / 16) by (apply Z.div_pos; lia). lia.
Qed.
Lemma malloc_ok h fl al nbytes : (forall h n, can_grow h n = true -> u_brk h + n <= 2 ^ 36) -> ok h fl al -> 0 <= nbytes < 2 ^ 31 - 2 * HDR ->
  wp (malloc nbytes) (fun r h' => refused h (units nbytes) r h' \/ found h al (units nbytes) r h') h.
Proof.
  intros Hgrow H Hn. pose proof (units_bytes nbytes ltac:(lia)) as [Hu1 Hu2]. unfold malloc. fold (units nbytes). rewrite u32_small by (unfold HDR in *; lia).
  pose proof (ok_freep _ _ _ H) as Hf. apply list_elem_of_fmap in Hf as ([q tq] & Hq & [k Hk]%list_elem_of_lookup_1). simpl in Hq. subst q.
  assert (Hf0 : u_freep h <> 0). { destruct k as [|k]; [injection Hk as <- _; lia|]. apply (list_elem_of_lookup_2 fl k) in Hk. pose proof (asc_in _ _ _ _ _ (ok_asc _ _ _ H) Hk). unfold HDR in *. lia. }
  apply wp_bind, wp_gets. replace (u_freep h =? 0) with false by lia. apply wp_bind, wp_ret, wp_bind, wp_gets, wp_bind, wp_gets. change (id h) with h.
  destruct (next_node _ _ _ _ _ _ H Hk) as (b & t & Hb & ->). apply (loop_all h fl al (units nbytes) k Hgrow H) with k; [unfold HDR in *; lia|by eexists..|].
  pose proof (nodes_length _ _ _ H) as Hl. apply lookup_lt_Some in Hk, Hb. simpl in *. unfold dist. case_decide; lia.
Qed.

(** ** The abstract heap: the bytes of each live block, by its address *)

Notation aheap := (gmap Z (list Z)).
Inductive uop := Malloc (nbytes : Z) | Free (p : Z) | Store (p i v : Z) | Load (p i : Z).
Definition legal (A : aheap) (o : uop) : Prop :=
  match o with
  | Malloc n => 0 <= n < 2 ^ 31 - 2 * HDR
  | Free p => is_Some (A !! p)
  | Store p i v => (exists bs, A !! p = Some bs /\ 0 <= i < Z.of_nat (length bs)) /\ 0 <= v < 256
  | Load p i => exists bs, A !! p = Some bs /\ 0 <= i < Z.of_nat (length bs)
  end.
(** [ref n]: the kernel has no memory for a block of [n] units. *)
Inductive astep (ref : Z -> Prop) (A : aheap) : uop -> Z -> aheap -> Prop :=
| a_fail n : ref (units n) -> astep ref A (Malloc n) 0 A
| a_malloc n p bs : p <> 0 -> n <= Z.of_nat (length bs) ->
    (forall q bs', A !! q = Some bs' -> p + Z.of_nat (length bs) <= q \/ q + Z.of_nat (length bs') <= p) -> A !! p = None ->
    astep ref A (Malloc n) p (<[p := bs]> A)
| a_free p : astep ref A (Free p) 0 (delete p A)
| a_store p i v bs : A !! p = Some bs -> astep ref A (Store p i v) 0 (<[p := <[Z.to_nat i := v]> bs]> A)
| a_load p i v bs : A !! p = Some bs -> bs !! Z.to_nat i = Some v -> astep ref A (Load p i) v A.
(** The same operations by the program. *)
Definition uexec (o : uop) : M heap Z :=
  match o with
  | Malloc n => malloc n
  | Free p => free p ;;; ret 0
  | Store p i v => modify (fun h => set_umem (mset (u_mem h) (p + i) v) h) ;;; ret 0
  | Load p i => gets (fun h => mget (u_mem h) (p + i))
  end.

Definition bytes (m : mem) (p n : Z) : list Z := (fun i => mget m (p + i)) <$> seqZ 0 n.
Definition shows (h : heap) (al : list block_of) (A : aheap) : Prop :=
  forall p bs, A !! p = Some bs <-> exists s, (p - HDR, s) ∈ al /\ bs = bytes (u_mem h) p (HDR * (s - 1)).
Definition heap_rep (h : heap) (A : aheap) : Prop := exists al, uok h al /\ shows h al A.

Lemma bytes_length m p n : 0 <= n -> Z.of_nat (length (bytes m p n)) = n.
Proof. intros Hn. unfold bytes. rewrite length_fmap, length_seqZ. lia. Qed.
Lemma bytes_ext m m' p n : (forall x, p <= x < p + n -> mget m' x = mget m x) -> bytes m' p n = bytes m p n.
Proof. intros H. apply list_fmap_ext. intros k x [-> Hk]%lookup_seqZ. apply H. lia. Qed.
Lemma bytes_lookup m p n i : 0 <= i < n -> bytes m p n !! Z.to_nat i = Some (mget m (p + i)).
Proof. intros Hi. unfold bytes. rewrite list_lookup_fmap, lookup_seqZ_lt by lia. simpl. f_equal. f_equal. lia. Qed.
Lemma bytes_store m p n i v : 0 <= i < n -> 0 <= v < 256 -> bytes (mset m (p + i) v) p n = <[Z.to_nat i := v]> (bytes m p n).
Proof.
  intros Hi Hv. apply list_eq. intros k. destruct (decide (k < Z.to_nat n)%nat) as [Hk|Hk].
  - destruct (decide (k = Z.to_nat i)) as [->|Hne].
    + rewrite list_lookup_insert_eq by (pose proof (bytes_length m p n ltac:(lia)); lia). rewrite bytes_lookup by lia. rewrite mget_mset_eq. f_equal. by apply Z.mod_small.
    + rewrite list_lookup_insert_ne by done. replace k with (Z.to_nat (Z.of_nat k)) by lia. rewrite !bytes_lookup by lia. by rewrite mget_mset_ne by lia.
  - pose proof (bytes_length m p n ltac:(lia)). pose proof (bytes_length (mset m (p + i) v) p n ltac:(lia)). rewrite !(proj2 (lookup_ge_None _ _)); [done|rewrite length_insert; lia|lia].
Qed.
Lemma keep_bytes al m m' p s : keep al m m' -> (p - HDR, s) ∈ al -> 0 < s -> bytes m' p (HDR * (s - 1)) = bytes m p (HDR * (s - 1)).
Proof. intros Hk Hin Hs. apply bytes_ext. intros x Hx. apply (Hk _ x Hin). simpl. unfold HDR in *. lia. Qed.
Lemma sep_cons_ne a n al s : sep ((a, n) :: al) -> 0 < n -> 0 < s -> (a, s) ∈ al -> False.
Proof. intros [H _] Hn Hs Hin. rewrite Forall_forall in H. specialize (H _ Hin). unfold apart, HDR in H. simpl in H. lia. Qed.

Definition refuses (h : heap) (nu : Z) : Prop := exists h1, u_brk h1 = u_brk h /\ can_grow h1 (Z.max 4096 nu * HDR) = false.
Lemma sim_malloc h fl al A n : (forall h n, can_grow h n = true -> u_brk h + n <= 2 ^ 36) -> ok h fl al -> shows h al A -> legal A (Malloc n) ->
  wp (malloc n) (fun r h' => exists A', astep (refuses h) A (Malloc n) r A' /\ heap_rep h' A') h.
Proof.
  intros Hgrow H Hsh Hn. simpl in Hn. pose proof (units_bytes n ltac:(lia)) as [Hu1 Hu2]. eapply wp_mono; [by apply (malloc_ok h fl al n)|].
  intros r h' [(-> & -> & Hr)|(fl' & H' & Hk & _)].
  - exists A. split; [constructor; by exists h|]. exists al. split; [right; by exists fl|done].
  - pose proof (ok_alloc _ _ _ (r - HDR, units n) H' ltac:(set_solver)) as Hr. simpl in Hr. pose proof (ok_sep _ _ _ H') as Hsep.
    assert (Hpos : forall p s, (p, s) ∈ al -> 0 < s) by (intros p s Hp; pose proof (ok_alloc _ _ _ (p, s) H Hp); simpl in *; lia).
    assert (Hnone : A !! r = None).
    { destruct (A !! r) as [bs|] eqn:E; [|done]. apply Hsh in E as (s & Hs & _). destruct (sep_cons_ne _ _ _ s Hsep); [lia|by eapply Hpos|done]. }
    exists (<[r := bytes (u_mem h') r (HDR * (units n - 1))]> A). split.
    + constructor; [unfold HDR in *; lia|rewrite bytes_length; unfold HDR in *; lia| |done]. intros q bs' (s & Hs & ->)%Hsh. specialize (Hpos _ _ Hs).
      rewrite !bytes_length by (unfold HDR in *; lia). destruct Hsep as [Hsep _]. rewrite Forall_forall in Hsep. specialize (Hsep _ Hs). unfold apart in Hsep. simpl in Hsep. unfold HDR in *. lia.
    + exists ((r - HDR, units n) :: al). split; [right; by exists fl'|]. intros p bs. destruct (decide (p = r)) as [->|Hne].
      * rewrite lookup_insert_eq. split; [intros [= <-]; exists (units n); split; [set_solver|done]|]. intros (s & [E|Hs]%elem_of_cons & ->); [by injection E as ->|].
        destruct (sep_cons_ne _ _ _ s Hsep); [lia|by eapply Hpos|done].
      * rewrite lookup_insert_ne by done. rewrite (Hsh p bs). split; intros (s & Hs & ->).
        -- exists s. split; [set_solver|]. symmetry. apply (keep_bytes al); [done..|by eapply Hpos].
        -- apply elem_of_cons in Hs as [E|Hs]; [injection E; lia|]. exists s. split; [done|]. apply (keep_bytes al); [done..|by eapply Hpos].
Qed.
(** The first call makes the list of the block [base]. *)
Definition uinit (h : heap) : heap := set_umem (set_hsize base 0 (set_hptr base base (u_mem h))) (set_freep base h).
Lemma uinit_ok h : h0 <= u_brk h <= 2 ^ 36 -> ok (uinit h) [] [].
Proof.
  intros H. split; cbn [u_mem u_brk u_freep uinit set_umem set_freep]; try done.
  - split; [rewrite hptr_set_size; apply hptr_set; simpl; unfold HDR in *; lia|]. split; [by apply hsize_set|done].
  - simpl. lia.
  - set_solver.
Qed.
Lemma malloc_first n h : u_freep h = 0 -> malloc n h = malloc n (uinit h).
Proof.
  intros H. unfold malloc. rewrite (bind_Done (gets u_freep) _ h _ _ eq_refl), (bind_Done (gets u_freep) _ (uinit h) _ _ eq_refl), H.
  change (u_freep (uinit h)) with base. replace (base =? 0) with false by lia. reflexivity.
Qed.
Lemma sim_free h fl al A p : ok h fl al -> shows h al A -> is_Some (A !! p) ->
  wp (uexec (Free p)) (fun r h' => r = 0 /\ heap_rep h' (delete p A)) h.
Proof.
  intros H Hsh [bs (s & Hs & ->)%Hsh]. apply elem_of_Permutation in Hs as [al' Hp]. pose proof (ok_perm _ _ _ _ Hp H) as H1.
  assert (Hpos : forall q t, (q, t) ∈ (p - HDR, s) :: al' -> 0 < t) by (intros q t Hq; pose proof (ok_alloc _ _ _ (q, t) H1 Hq); simpl in *; lia).
  apply wp_bind. replace p with (p - HDR + HDR) at 1 by lia. eapply wp_mono; [apply (free_spec _ _ _ _ _ H1)|]. intros [] h' (fl' & H' & Hk & _). apply wp_ret. split; [done|].
  exists al'. split; [right; by exists fl'|]. pose proof (ok_sep _ _ _ H1) as Hsep. intros q bs. destruct (decide (q = p)) as [->|Hne].
  - rewrite lookup_delete_eq. split; [done|]. intros (t & Ht & _). destruct (sep_cons_ne _ _ _ t Hsep); [by eapply Hpos, list_elem_of_here|by eapply Hpos, list_elem_of_further|done].
  - rewrite lookup_delete_ne by done. rewrite (Hsh q bs). setoid_rewrite Hp. split; intros (t & Ht & ->).
    + apply elem_of_cons in Ht as [E|Ht]; [injection E; lia|]. exists t. split; [done|]. symmetry. apply (keep_bytes al'); [done..|by eapply Hpos, list_elem_of_further].
    + exists t. split; [set_solver|]. apply (keep_bytes al'); [done..|by eapply Hpos, list_elem_of_further].
Qed.
Lemma sep_in al b c : sep al -> b ∈ al -> c ∈ al -> b = c \/ apart b c.
Proof.
  induction al as [|d al IH]; [set_solver|]. intros [Hd Hs]. rewrite Forall_forall in Hd. intros [->|Hb]%elem_of_cons [->|Hc]%elem_of_cons; [by left|right; auto|right; apply apart_sym; auto|auto].
Qed.
Lemma ok_store h fl al a s x v : ok h fl al -> (a, s) ∈ al -> a + HDR <= x < a + HDR * s -> ok (set_umem (mset (u_mem h) x v) h) fl al.
Proof.
  intros H Hin Hx. pose proof H as [Hl Ha Hf Hsz Hal Hap Hsep Hmax]. pose proof (ok_alloc _ _ _ _ H Hin) as Hb. simpl in Hb.
  assert (Hh : forall q, q + HDR <= a + HDR \/ a + HDR * s <= q -> same_hdr (u_mem h) (mset (u_mem h) x v) q) by (intros q Hq y Hy; apply mget_mset_ne; lia).
  split; cbn [u_mem u_brk u_freep set_umem]; try done.
  - apply (links_frame (u_mem h)); [|done]. constructor; [apply Hh; simpl; unfold HDR in *; lia|]. rewrite Forall_forall in Hap. specialize (Hap _ Hin). rewrite Forall_forall in Hap |- *.
    intros [b t] Hbt. specialize (Hap _ Hbt). pose proof (asc_in _ _ _ _ _ Ha Hbt). apply Hh. unfold apart in Hap. simpl in *. unfold HDR in *. lia.
  - rewrite Forall_forall in Hsz |- *. intros b Hbin. rewrite <- (Hsz b Hbin). pose proof (ok_alloc _ _ _ _ H Hbin). apply same_size, Hh.
    destruct (sep_in _ _ _ Hsep Hin Hbin) as [<-|Hd]; [simpl; lia|]. unfold apart in Hd. simpl in Hd. unfold HDR in *. lia.
Qed.
Lemma sim_store h fl al A p i v bs : ok h fl al -> shows h al A -> A !! p = Some bs -> 0 <= i < Z.of_nat (length bs) -> 0 <= v < 256 ->
  heap_rep (set_umem (mset (u_mem h) (p + i) v) h) (<[p := <[Z.to_nat i := v]> bs]> A).
Proof.
  intros H Hsh Hp Hi Hv. pose proof Hp as (s & Hs & Hbs)%Hsh. pose proof (ok_alloc _ _ _ _ H Hs) as Hb. simpl in Hb. rewrite Hbs, bytes_length in Hi by (unfold HDR; lia).
  exists al. split; [right; exists fl; apply (ok_store _ _ _ (p - HDR) s); [done..|unfold HDR in *; lia]|]. intros q bs'. cbn [u_mem set_umem]. destruct (decide (q = p)) as [->|Hne].
  - rewrite lookup_insert_eq. rewrite Hbs, <- bytes_store by done. split; [intros [= <-]; by exists s|]. intros (t & Ht & ->). assert (s = t) as ->; [|done].
    destruct (sep_in _ _ _ (ok_sep _ _ _ H) Hs Ht) as [E|Hd]; [by injection E|]. pose proof (ok_alloc _ _ _ _ H Ht). unfold apart in Hd. simpl in *. unfold HDR in *. lia.
  - rewrite lookup_insert_ne by done. rewrite (Hsh q bs').
    assert (Hsame : forall t, (q - HDR, t) ∈ al -> bytes (mset (u_mem h) (p + i) v) q (HDR * (t - 1)) = bytes (u_mem h) q (HDR * (t - 1))).
    { intros t Ht. apply bytes_ext. intros x Hx. apply mget_mset_ne. pose proof (ok_alloc _ _ _ _ H Ht).
      destruct (sep_in _ _ _ (ok_sep _ _ _ H) Hs Ht) as [E|Hd]; [injection E; lia|]. unfold apart in Hd. simpl in *. unfold HDR in *. lia. }
    split; intros (t & Ht & ->); exists t; by rewrite Hsame.
Qed.

(** C14: malloc and free implement an abstract heap, a map from pointers to
    the bytes of live blocks.  A process that has not allocated anything shows
    the empty heap.  Whenever the heap shows [A], every operation that is
    legal in [A] (a request of less than 2^31 - 32 bytes, a free of a live
    pointer, a load or a store within a live block) returns, and with a result
    and a new heap that the abstract heap allows: [malloc] gives null only
    when the kernel refuses to grow the process, and otherwise a block with
    room for the request that overlaps no live block; no operation changes a
    byte of a block other than the one it names. *)
Theorem heap_refines :
  (forall h n, can_grow h n = true -> u_brk h + n <= 2 ^ 36) ->
  (forall h, u_freep h = 0 -> h0 <= u_brk h <= 2 ^ 36 -> heap_rep h ∅) /\
  (forall h A o, heap_rep h A -> legal A o ->
     wp (uexec o) (fun r h' => exists A', astep (refuses h) A o r A' /\ heap_rep h' A') h).
Proof.
  intros Hgrow. split.
  - intros h H1 H2. exists []. split; [by left|]. intros p bs. rewrite lookup_empty. split; [done|]. intros (s & Hs & _). set_solver.
  - intros h A o (al & [(Hf & -> & Hb)|[fl H]] & Hsh) Ho.
    + destruct o as [n|p|p i v|p i].
      * unfold wp. simpl uexec. rewrite (malloc_first n h Hf). apply (sim_malloc (uinit h) [] [] A n Hgrow (uinit_ok _ Hb)); [|done].
        intros p bs. rewrite (Hsh p bs). split; intros (s & Hs & _); set_solver.
      * destruct Ho as [bs (s & Hs & _)%Hsh]. set_solver.
      * destruct Ho as [(bs & (s & Hs & _)%Hsh & _) _]. set_solver.
      * destruct Ho as (bs & (s & Hs & _)%Hsh & _). set_solver.
    + destruct o as [n|p|p i v|p i].
      * by eapply sim_malloc.
      * eapply wp_mono; [by eapply sim_free|]. intros r h' [-> Hr]. exists (delete p A). split; [constructor|done].
      * destruct Ho as [(bs & Hp & Hi) Hv]. apply wp_bind, wp_modify, wp_ret. eexists. split; [by constructor|]. by eapply sim_store.
      * destruct Ho as (bs & Hp & Hi). apply wp_gets. exists A. split; [|exists al; split; [right; by exists fl|done]]. econstructor; [done|].
        pose proof Hp as (s & Hs & Hbs)%Hsh. pose proof (ok_alloc _ _ _ _ H Hs) as Hb. simpl in Hb. rewrite Hbs in *. rewrite bytes_length in Hi by (unfold HDR; lia). by apply bytes_lookup.
Qed.
End Umalloc.

(** ** A process with 128 MB *)

Module UmallocExample.
#[local] Instance proc : Uproc := { base := 4096; can_grow := fun h n => u_brk h + n <=? 2 ^ 27 }.
Definition heap0 : heap := Heap ∅ 0 8192.
Lemma heap_refines_witness :
  heap_rep 8192 heap0 ∅ /\ wp (uexec (Malloc 100)) (fun r h' => exists A', astep (refuses heap0) ∅ (Malloc 100) r A' /\ heap_rep 8192 h' A') heap0.
Proof.
  destruct (heap_refines 8192 ltac:(vm_compute; split; [reflexivity|discriminate])) as [H1 H2].
  - intros h n H. simpl in H. apply Z.leb_le in H. lia.
  - assert (H0 : heap_rep 8192 heap0 ∅) by (apply H1; [reflexivity|vm_compute; split; discriminate]). split; [exact H0|]. apply H2; [exact H0|vm_compute; split; [discriminate|reflexivity]].
Defined.
(** Two blocks, the first freed and taken again, with its bytes. *)
Example malloc_reuse : exists h, (p <-! malloc 100 ;; q <-! malloc 40 ;; uexec (Store q 0 7) ;;; free p ;;; r <-! malloc 90 ;; uexec (Store r 0 9) ;;; x <-! uexec (Load q 0) ;; ret (p, q, r, x)) heap0
  = Done (8192 + 65536 - 112, 8192 + 65536 - 176, 8192 + 65536 - 96, 7) h.
Proof. eexists. vm_compute. reflexivity. Qed.
(** A request of nearly 2^32 bytes makes the argument of [sbrk] negative: the
    process shrinks, and the block that is returned is past its end. *)
Example malloc_overflow : exists h, malloc (2 ^ 32 - 64) heap0 = Done 8208 h /\ u_brk h = 8144.
Proof. eexists. split; vm_compute; reflexivity. Qed.
End UmallocExample.
