(* ===== verification/Uprog.v ===== *)
(** * User programs and the system calls they make

    A user program is the tree of its system calls: each node is a call, and
    the continuation says what the program does with each result.  [fork]
    resumes the same continuation in both processes.  [ustep] is one call of
    one process on the process table, the descriptor tables, the pipes, the
    open files and the console of kernel/sysfile.c, kernel/pipe.c and
    kernel/proc.c as a process sees them: a call that would sleep is not
    enabled.  What a program finds outside ([Uenv]): the files that [open]
    reaches, the programs that [exec] starts, and the results of the calls
    that change the file system or other processes. *)

From S2P Require Import Prelude.

Inductive ucall :=
| Getpid | Sleep (n : Z) | Dup (fd : Z) | Open (path : list Z) (mode : Z)
| Chdir (path : list Z) | Mkdir (path : list Z) | Mknod (path : list Z) (major minor : Z) | Link (old new : list Z) | Unlink (path : list Z) | Kill (pid : Z).
(** What [fstat] stores. *)
Record ustat := UStat { ust_type : Z; ust_ino : Z; ust_size : Z }.
(** [read] gives the result and the bytes it stored; [pipe] the two
    descriptors or -1; [wait] the process and its status; [exec] only returns
    when it fails. *)
Inductive prog :=
| Exit (status : Z)
| Read (fd n : Z) (k : Z -> list Z -> prog)
| Write (fd : Z) (bs : list Z) (n : Z) (k : Z -> prog)
| Pipe (k : option (Z * Z) -> prog)
| Fork (k : Z -> prog)
| Close (fd : Z) (k : Z -> prog)
| Wait (k : Z -> Z -> prog)
| Call (c : ucall) (k : Z -> prog)
| Fstat (fd : Z) (k : option ustat -> prog)
| Exec (path : list Z) (argv : list (list Z)) (k : prog)
| Undefined
| OutOfFuel.
Definition write (fd : Z) (bs : list Z) (k : Z -> prog) : prog := Write fd bs (Z.of_nat (length bs)) k.

(** ** Processes, descriptors and pipes *)

Record unode := UNode { un_stat : ustat; un_data : list Z }.
Class Uenv := {
  u_open : list Z -> Z -> option unode;
  u_exec : list Z -> list (list Z) -> option prog;
  u_call : ucall -> Z
}.
Inductive uend := Console | PipeR (p : nat) | PipeW (p : nat) | OpenFile (f : nat).
#[export] Instance uend_eq_dec : EqDecision uend.
Proof. solve_decision. Defined.
Inductive ustate := Run (p : prog) | Zombie (status : Z) | Reaped.
Notation fdtable := (list (option uend)).
Record uproc := UProc { up_parent : option nat; up_fds : fdtable; up_state : ustate }.
(** An open file: the name and the mode it was opened with, the file and the
    offset in it.  [us_in] is what has been typed. *)
Record ufile := UFile { uf_path : list Z; uf_mode : Z; uf_node : unode; uf_off : nat }.
Record usys := USys { us_procs : list uproc; us_pipes : list (list Z); us_out : list Z; us_files : list ufile; us_in : list Z }.
(** What [sys_open] makes of [O_WRONLY], 1, and [O_RDWR], 2. *)
Definition readable (mode : Z) : bool := Z.land mode 1 =? 0.
Definition writable (mode : Z) : bool := negb (Z.land mode 1 =? 0) || negb (Z.land mode 2 =? 0).

Definition PIPESIZE : nat := 512.
Definition NOFILE : nat := 16.

(** [fdalloc]: the first free descriptor. *)
Fixpoint fdalloc (fds : fdtable) (e : uend) : option (Z * fdtable) :=
  match fds with
  | [] => None
  | None :: r => Some (0, Some e :: r)
  | Some x :: r => '(fd, r') ← fdalloc r e; Some (fd + 1, Some x :: r')
  end.
Definition fdget (fds : fdtable) (fd : Z) : option uend := if fd <? 0 then None else mjoin (fds !! Z.to_nat fd).
Definition fdclose (fds : fdtable) (fd : Z) : fdtable := <[Z.to_nat fd := None]> fds.

(** Whether some process has this end of a pipe open. *)
Definition isopen (s : usys) (e : uend) : bool := existsb (fun p => bool_decide (Some e ∈ up_fds p)) (us_procs s).

Definition pid_of (i : nat) : Z := Z.of_nat i + 1.
Definition setproc (i : nat) (p : uproc) (s : usys) : usys := USys (<[i := p]> (us_procs s)) (us_pipes s) (us_out s) (us_files s) (us_in s).
Definition setpipe (j : nat) (q : list Z) (s : usys) : usys := USys (us_procs s) (<[j := q]> (us_pipes s)) (us_out s) (us_files s) (us_in s).
Definition cont (p : uproc) (k : prog) : uproc := UProc (up_parent p) (up_fds p) (Run k).
Definition orphan (i : nat) (p : uproc) : uproc :=
  if decide (up_parent p = Some i) then UProc None (up_fds p) (up_state p) else p.
Definition child_of (i : nat) (p : uproc) : bool :=
  bool_decide (up_parent p = Some i) && match up_state p with Reaped => false | _ => true end.
Fixpoint zombie_child (i j : nat) (ps : list uproc) : option (nat * Z) :=
  match ps with
  | [] => None
  | p :: ps' => match child_of i p, up_state p with true, Zombie st => Some (j, st) | _, _ => zombie_child i (S j) ps' end
  end.

Definition setfile (f : nat) (x : ufile) (s : usys) : usys := USys (us_procs s) (us_pipes s) (us_out s) (<[f := x]> (us_files s)) (us_in s).
Definition setin (l : list Z) (s : usys) : usys := USys (us_procs s) (us_pipes s) (us_out s) (us_files s) l.
(** [consoleread]: up to a line; control-D, 4, ends the input of one call. *)
Fixpoint con_read (n : nat) (first : bool) (q : list Z) : option (list Z * list Z) :=
  match n, q with
  | O, _ => Some ([], q)
  | S _, [] => None
  | S n', c :: q' =>
      if c =? 4 then Some ([], if first then q' else q)
      else if c =? 10 then Some ([c], q')
      else '(l, r) ← con_read n' false q'; Some (c :: l, r)
  end.

Definition sys_read (i : nat) (p : uproc) (fd n : Z) (k : Z -> list Z -> prog) (s : usys) : option usys :=
  match fdget (up_fds p) fd with
  | Some (PipeR j) =>
      let q := default [] (us_pipes s !! j) in
      match q with
      | [] => if isopen s (PipeW j) then None else Some (setproc i (cont p (k 0 [])) s)
      | _ => let bs := take (Z.to_nat n) q in
             Some (setproc i (cont p (k (Z.of_nat (length bs)) bs)) (setpipe j (drop (Z.to_nat n) q) s))
      end
  | Some (OpenFile f) =>
      match us_files s !! f with
      | Some (UFile path mode nd off) =>
          if negb (readable mode) then Some (setproc i (cont p (k (-1) [])) s) else
          let bs := take (Z.to_nat n) (drop off (un_data nd)) in
          Some (setproc i (cont p (k (Z.of_nat (length bs)) bs)) (setfile f (UFile path mode nd (off + length bs)) s))
      | None => None
      end
  | Some Console =>
      '(bs, q) ← con_read (Z.to_nat n) true (us_in s);
      Some (setproc i (cont p (k (Z.of_nat (length bs)) bs)) (setin q s))
  | _ => Some (setproc i (cont p (k (-1) [])) s)
  end.
(** [pipewrite] copies what fits and sleeps for the rest.  The contents of
    files that are written are not part of this state. *)
Definition sys_write (i : nat) (p : uproc) (fd : Z) (bs : list Z) (n : Z) (k : Z -> prog) (s : usys) : option usys :=
  match fdget (up_fds p) fd with
  | Some (PipeW j) =>
      if negb (isopen s (PipeR j)) then Some (setproc i (cont p (k (-1))) s) else
      let q := default [] (us_pipes s !! j) in
      let room := (PIPESIZE - length q)%nat in
      match bs with
      | [] => Some (setproc i (cont p (k n)) s)
      | _ => if decide (room = 0%nat) then None
             else Some (setproc i (cont p (if decide (length bs <= room)%nat then k n else Write fd (drop room bs) n k)) (setpipe j (q ++ take room bs) s))
      end
  | Some Console => Some (setproc i (cont p (k n)) (USys (us_procs s) (us_pipes s) (us_out s ++ bs) (us_files s) (us_in s)))
  | Some (OpenFile f) =>
      match us_files s !! f with
      | Some x => Some (setproc i (cont p (k (if writable (uf_mode x) then n else -1))) s)
      | None => None
      end
  | _ => Some (setproc i (cont p (k (-1))) s)
  end.
Definition sys_pipe (i : nat) (p : uproc) (k : option (Z * Z) -> prog) (s : usys) : usys :=
  let j := length (us_pipes s) in
  match ('(fd0, f1) ← fdalloc (up_fds p) (PipeR j); '(fd1, f2) ← fdalloc f1 (PipeW j); Some (fd0, fd1, f2)) with
  | Some (fd0, fd1, f2) => setproc i (UProc (up_parent p) f2 (Run (k (Some (fd0, fd1))))) (USys (us_procs s) (us_pipes s ++ [[]]) (us_out s) (us_files s) (us_in s))
  | None => setproc i (cont p (k None)) s
  end.
(** There is always room for one more process and its memory. *)
Definition sys_fork (i : nat) (p : uproc) (k : Z -> prog) (s : usys) : usys :=
  let j := length (us_procs s) in
  USys (<[i := cont p (k (pid_of j))]> (us_procs s) ++ [UProc (Some i) (up_fds p) (Run (k 0))]) (us_pipes s) (us_out s) (us_files s) (us_in s).
Definition sys_close (i : nat) (p : uproc) (fd : Z) (k : Z -> prog) (s : usys) : usys :=
  match fdget (up_fds p) fd with
  | Some _ => setproc i (UProc (up_parent p) (fdclose (up_fds p) fd) (Run (k 0))) s
  | None => setproc i (cont p (k (-1))) s
  end.
Definition sys_wait (i : nat) (p : uproc) (k : Z -> Z -> prog) (s : usys) : option usys :=
  match zombie_child i 0 (us_procs s) with
  | Some (j, st) =>
      let ps := alter (fun c => UProc (up_parent c) (up_fds c) Reaped) j (us_procs s) in
      Some (setproc i (cont p (k (pid_of j) st)) (USys ps (us_pipes s) (us_out s) (us_files s) (us_in s)))
  | None => if existsb (child_of i) (us_procs s) then None else Some (setproc i (cont p (k (-1) 0)) s)
  end.
Definition sys_exit (i : nat) (p : uproc) (st : Z) (s : usys) : usys :=
  USys (<[i := UProc (up_parent p) (replicate NOFILE None) (Zombie st)]> (orphan i <$> us_procs s)) (us_pipes s) (us_out s) (us_files s) (us_in s).

Definition sys_dup (i : nat) (p : uproc) (fd : Z) (k : Z -> prog) (s : usys) : usys :=
  match e ← fdget (up_fds p) fd; fdalloc (up_fds p) e with
  | Some (fd', f) => setproc i (UProc (up_parent p) f (Run (k fd'))) s
  | None => setproc i (cont p (k (-1))) s
  end.

Section Step.
Context `{UE : Uenv}.
Definition sys_open (i : nat) (p : uproc) (path : list Z) (mode : Z) (k : Z -> prog) (s : usys) : usys :=
  match nd ← u_open path mode; '(fd, f) ← fdalloc (up_fds p) (OpenFile (length (us_files s))); Some (nd, fd, f) with
  | Some (nd, fd, f) =>
      setproc i (UProc (up_parent p) f (Run (k fd))) (USys (us_procs s) (us_pipes s) (us_out s) (us_files s ++ [UFile path mode nd 0]) (us_in s))
  | None => setproc i (cont p (k (-1))) s
  end.
Definition sys_fstat (p : uproc) (fd : Z) (s : usys) : option ustat :=
  match fdget (up_fds p) fd with
  | Some (OpenFile f) => un_stat ∘ uf_node <$> us_files s !! f
  | Some Console => Some (UStat 3 0 0)
  | _ => None
  end.
Definition sys_call (i : nat) (p : uproc) (c : ucall) (k : Z -> prog) (s : usys) : usys :=
  match c with
  | Getpid => setproc i (cont p (k (pid_of i))) s
  | Sleep _ => setproc i (cont p (k 0)) s
  | Dup fd => sys_dup i p fd k s
  | Open path mode => sys_open i p path mode k s
  | _ => setproc i (cont p (k (u_call c))) s
  end.

(** The next call of process [i]; [None] when it sleeps or is not running. *)
Definition ustep (i : nat) (s : usys) : option usys :=
  match us_procs s !! i with
  | Some p =>
      match up_state p with
      | Run (Exit st) => Some (sys_exit i p st s)
      | Run (Read fd n k) => sys_read i p fd n k s
      | Run (Write fd bs n k) => sys_write i p fd bs n k s
      | Run (Pipe k) => Some (sys_pipe i p k s)
      | Run (Fork k) => Some (sys_fork i p k s)
      | Run (Close fd k) => Some (sys_close i p fd k s)
      | Run (Wait k) => sys_wait i p k s
      | Run (Call c k) => Some (sys_call i p c k s)
      | Run (Fstat fd k) => Some (setproc i (cont p (k (sys_fstat p fd s))) s)
      | Run (Exec path argv k) => Some (setproc i (cont p (default k (u_exec path argv))) s)
      | Run Undefined | Run OutOfFuel | Zombie _ | Reaped => None
      end
  | None => None
  end.

(** A process started by the shell, with the console as 0, 1 and 2. *)
Definition console_fds : fdtable := [Some Console; Some Console; Some Console] ++ replicate 13 None.
Definition start (main : prog) (input : list Z) : usys := USys [UProc None console_fds (Run main)] [] [] [] input.

Definition finished (p : uproc) : Prop := match up_state p with Run _ => False | Zombie st => st = 0 | Reaped => True end.
#[export] Instance finished_dec p : Decision (finished p).
Proof. unfold finished. destruct (up_state p); apply _. Defined.
(** Runs under any scheduler. *)
Inductive usteps : nat -> usys -> usys -> Prop :=
| us_refl s : usteps 0 s s
| us_step n s s1 s2 i : usteps n s s1 -> ustep i s1 = Some s2 -> usteps (S n) s s2.
(** The state after the steps of the processes [l]. *)
Definition sched (l : list nat) (s : usys) : option usys := foldl (fun o i => s ← o; ustep i s) (Some s) l.
Lemma sched_usteps l s s' : sched l s = Some s' -> usteps (length l) s s'.
Proof.
  revert s'. induction l as [|i l IH] using rev_ind; intros s'; [intros [= <-]; constructor|]. unfold sched. rewrite foldl_app, length_app. simpl. intros H.
  change (foldl _ _ l) with (sched l s) in H. destruct (sched l s) as [s1|] eqn:E; [|done]. rewrite Nat.add_1_r. by apply (us_step _ _ s1 _ i); [apply IH|].
Qed.
End Step.
