(* ===== verification/Uprintf.v ===== *)
(** * Formatted output of user programs: user/printf.c

    Every character is a [write] of one byte.  The arguments of [printf] are
    the values [va_arg] gives; strings are the bytes up to the null. *)

From S2P Require Import Prelude Uprog.

Inductive uarg := UInt (x : Z) | UPtr (x : Z) | UStr (s : option (list Z)).

Definition chars (s : string) : list Z := (fun c => Z.of_nat (Ascii.nat_of_ascii c)) <$> String.list_ascii_of_string s.
Definition line (s : string) : list Z := chars s ++ [10].
(** [digits[d]] *)
Definition udigit (d : Z) : Z := if d <? 10 then 48 + d else 55 + d.

Definition putc (fd c : Z) (k : prog) : prog := write fd [u8 c] (fun _ => k).
Definition putcs (fd : Z) (cs : list Z) (k : prog) : prog := foldr (putc fd) k cs.

(** The digits, least significant first. *)
Fixpoint uprint_digits (fuel : nat) (x base : Z) : option (list Z) :=
  match fuel with
  | O => None
  | S fuel' =>
      let d := udigit (x mod base) in
      let x := x / base in
      if x =? 0 then Some [d] else cons d <$> uprint_digits fuel' x base
  end.
(** [buf] has 16 characters. *)
Definition uprintint (fd xx base : Z) (sgn : bool) (k : prog) : prog :=
  let neg := sgn && (xx <? 0) in
  let x := if neg then u32 (- xx) else u32 xx in
  match uprint_digits 16 x base with
  | Some ds => let buf := if neg then ds ++ [45] else ds in
               if decide (length buf <= 16)%nat then putcs fd (rev buf) k else Undefined
  | None => Undefined
  end.
Fixpoint uptr_digits (n : nat) (x : Z) : list Z :=
  match n with O => [] | S n' => udigit (Z.shiftr x 60) :: uptr_digits n' (u64 (Z.shiftl x 4)) end.
Definition uprintptr (fd x : Z) (k : prog) : prog := putc fd 48 (putc fd 120 (putcs fd (uptr_digits 16 x) k)).

Fixpoint vprintf (fd : Z) (percent : bool) (fmt : list Z) (ap : list uarg) (k : prog) : prog :=
  match fmt with
  | [] => k
  | c :: fmt =>
      if negb percent then
        if c =? 37 then vprintf fd true fmt ap k
        else putc fd c (vprintf fd false fmt ap k)
      else if c =? 100 then
        match ap with UInt x :: ap => uprintint fd (i32 x) 10 true (vprintf fd false fmt ap k) | _ => Undefined end
      else if c =? 108 then
        match ap with UPtr x :: ap => uprintint fd (i32 x) 10 false (vprintf fd false fmt ap k) | _ => Undefined end
      else if c =? 120 then
        match ap with UInt x :: ap => uprintint fd (i32 x) 16 false (vprintf fd false fmt ap k) | _ => Undefined end
      else if c =? 112 then
        match ap with UPtr x :: ap => uprintptr fd x (vprintf fd false fmt ap k) | _ => Undefined end
      else if c =? 115 then
        match ap with
        | UStr s :: ap => putcs fd (default (chars "(null)") s) (vprintf fd false fmt ap k)
        | _ => Undefined
        end
      else if c =? 99 then
        match ap with UInt x :: ap => putc fd x (vprintf fd false fmt ap k) | _ => Undefined end
      else if c =? 37 then putc fd c (vprintf fd false fmt ap k)
      else putc fd 37 (putc fd c (vprintf fd false fmt ap k))
  end.
Definition fprintf (fd : Z) (fmt : list Z) (ap : list uarg) (k : prog) : prog := vprintf fd false fmt ap k.
Definition uprintf (fmt : list Z) (ap : list uarg) (k : prog) : prog := vprintf 1 false fmt ap k.
