(* ===== verification/Primes.v ===== *)
(** * The prime sieve of user/primes.c

    A chain of processes: each takes the first number it reads for a prime,
    prints it, and passes on those of the others that it does not divide.  The
    variables [number] and [result] start with whatever is on the stack
    ([junk]). *)

From S2P Require Import Prelude Uprog Uprintf.

(** An [int] in memory. *)
Definition int_bytes (x : Z) : list Z := (fun i => u32 x / 256 ^ i mod 256) <$> upto 4.
Definition bytes_int (bs : list Z) : Z := i32 (foldr (fun b v => b + 256 * v) 0 bs).
(** [read] into a variable that holds [old]. *)
Definition read_int (old : Z) (bs : list Z) : Z := bytes_int (bs ++ drop (length bs) (int_bytes old)).

Section Primes.
Context (junk : Z).

Definition pass_end (pipeRight : Z * Z) : prog :=
  write (snd pipeRight) (int_bytes (-1)) (fun _ =>
  Close (snd pipeRight) (fun _ =>
  Wait (fun _ _ => Exit 0))).
Fixpoint pass (fuel : nat) (number result : Z) (pipefd pipeRight : Z * Z) : prog :=
  match fuel with
  | O => OutOfFuel
  | S fuel' =>
      Read (fst pipefd) 4 (fun n bs =>
      let result := read_int result bs in
      if negb (n =? 0) && negb (result =? -1) then
        if negb (Z.rem result number =? 0) then
          write (snd pipeRight) (int_bytes result) (fun _ => pass fuel' number result pipefd pipeRight)
        else pass fuel' number result pipefd pipeRight
      else pass_end pipeRight)
  end.
Fixpoint grepNumber (fuel : nat) (pipefd : Z * Z) : prog :=
  match fuel with
  | O => OutOfFuel
  | S fuel' =>
      Read (fst pipefd) 4 (fun _ bs =>
      let number := read_int junk bs in
      if number =? -1 then Exit 0 else
      uprintf (line "prime %d") [UInt number] (
      Pipe (fun r =>
        match r with
        | None => fprintf 2 (line "pipe error") [] (Exit 1)
        | Some pipeRight =>
            Fork (fun pid =>
              if pid =? 0 then Close (fst pipefd) (fun _ => grepNumber fuel' pipeRight)
              else Close (fst pipeRight) (fun _ => pass fuel' number junk pipefd pipeRight))
        end)))
  end.

(** [for(int i = 2; i <= 34; ++i) write(pipefd[1], &i, sizeof(int));] *)
Definition send (pipefd : Z * Z) (l : list Z) (k : prog) : prog :=
  foldr (fun i k => write (snd pipefd) (int_bytes i) (fun _ => k)) k l.
Definition numbers : list Z := seqZ 2 33.
(** The chain has at most 34 processes, and each reads at most 34 numbers. *)
Definition FUEL : nat := 100.
Definition main : prog :=
  Pipe (fun r =>
    match r with
    | None => fprintf 2 (line "pipe error!") [] (Exit 1)
    | Some pipefd =>
        Fork (fun pid =>
          if pid =? 0 then Close (snd pipefd) (fun _ => grepNumber FUEL pipefd)
          else
            Close (fst pipefd) (fun _ =>
            send pipefd numbers (
            write (snd pipefd) (int_bytes (-1)) (fun _ =>
            Close (snd pipefd) (fun _ =>
            Wait (fun _ _ => Exit 0))))))
    end).
End Primes.
