(* ===== verification/PrimesSpec.v ===== *)
(** * The sieve prints the primes, whatever the schedule

    A state of the chain is determined by how far each process is in its
    program: [cst] is a position in the program of a process, [inv] relates a
    list of positions to the processes, descriptors, pipes and output.  Each
    step of a process advances one position, some process can go on until all
    have exited, and the positions give the output. *)

From stdpp Require Import pretty.
From S2P Require Import Prelude Uprog Uprintf Primes.

(** ** What goes through the pipes *)

Definition ndiv (p x : Z) : Prop := Z.rem x p <> 0.
#[local] Instance ndiv_dec p x : Decision (ndiv p x).
Proof. unfold ndiv. apply _. Defined.
Definition sieve (l : list Z) : list Z := match l with [] => [] | p :: r => filter (ndiv p) r end.
(** The numbers that go through pipe [k]. *)
Fixpoint stream (k : nat) : list Z := match k with O => numbers | S k' => sieve (stream k') end.
Definition msgs (k : nat) : list Z := stream k ++ [-1].
Definition hd_of (k : nat) : Z := hd 0 (stream k).

Lemma stream_11 : stream 11 = [].
Proof. vm_compute. reflexivity. Qed.
Lemma stream_ge k : (11 <= k)%nat -> stream k = [].
Proof.
  intros Hk. replace k with (k - 11 + 11)%nat by lia. induction (k - 11)%nat as [|m IH]; [exact stream_11|]. cbn [Nat.add stream]. by rewrite IH.
Qed.
Lemma stream_lt k : (k < 11)%nat -> stream k <> [].
Proof. intros Hk. do 11 (destruct k as [|k]; [vm_compute; discriminate|]). lia. Qed.
Lemma stream_sub k x : x ∈ stream k -> 2 <= x <= 34.
Proof.
  revert x. induction k as [|k IH]; intros x; simpl.
  - unfold numbers. rewrite elem_of_seqZ. lia.
  - destruct (stream k) as [|p r]; [by intros ?%elem_of_nil|]. simpl. rewrite list_elem_of_filter. intros [_ H]. apply IH. set_solver.
Qed.
Lemma stream_length k : (length (stream k) <= 33)%nat.
Proof.
  induction k as [|k IH]; [vm_compute; lia|]. simpl. destruct (stream k) as [|p r]; simpl in *; [lia|]. pose proof (length_filter (ndiv p) r). lia.
Qed.
Lemma stream_cons k : (k < 11)%nat -> exists r, stream k = hd_of k :: r /\ stream (S k) = filter (ndiv (hd_of k)) r.
Proof.
  intros Hk. pose proof (stream_lt k Hk) as Hne. unfold hd_of. cbn [stream]. destruct (stream k) as [|p r]; [done|]. by exists r.
Qed.

(** ** Integers in the pipes *)

Lemma int_bytes_length x : length (int_bytes x) = 4%nat.
Proof. reflexivity. Qed.
Lemma read_int_bytes old x : - 2 ^ 31 <= x < 2 ^ 31 -> read_int old (int_bytes x) = x.
Proof.
  intros Hx. unfold read_int. rewrite int_bytes_length, drop_ge by (by rewrite int_bytes_length). rewrite app_nil_r. unfold bytes_int, int_bytes.
  change (upto 4) with [0; 1; 2; 3]. simpl foldr. set (y := u32 x). assert (Hy : 0 <= y < 2 ^ 32) by apply u32_range.
  replace (y / 1 mod 256 + _) with y.
  - unfold y, i32, u32. rewrite Zplus_mod_idemp_l. rewrite Z.mod_small; lia.
  - change (Z.pow_pos 256 1) with 256. change (Z.pow_pos 256 2) with 65536. change (Z.pow_pos 256 3) with 16777216.
    clearbody y. clear x Hx. Z.to_euclidean_division_equations. lia.
Qed.

(** ** Positions *)

Inductive cst :=
| CStart                 (** to close the end it does not use *)
| CRead                  (** to read its prime *)
| CPrint (cs : list Z)   (** to print [cs], then to call [pipe] *)
| CFork
| CClose                 (** to close the end of the child *)
| CLoop (r : nat)        (** has read [r] numbers *)
| CPass (r : nat)        (** to pass on the last of [r] numbers *)
| CSend (w : nat)        (** the first process: has sent [w] numbers *)
| CEnd                   (** to send -1 *)
| CCloseW | CWait | CExit | CZombie | CReaped.
#[local] Instance cst_eq_dec : EqDecision cst.
Proof. solve_decision. Defined.

(** The descriptors of pipe [j] in the process that creates it. *)
Definition rfd (j : nat) : Z := if Nat.even j then 3 else 4.
Definition wfd (j : nat) : Z := 4 + Z.of_nat j.
Definition pr (j : nat) : Z * Z := (rfd j, wfd j).

Section Positions.
Context (junk : Z).

Definition after_fork (f : nat) (number : Z) (pipefd pipeRight : Z * Z) (pid : Z) : prog :=
  if pid =? 0 then Close (fst pipefd) (fun _ => grepNumber junk f pipeRight)
  else Close (fst pipeRight) (fun _ => pass f number junk pipefd pipeRight).
Definition after_pipe (f : nat) (number : Z) (pipefd : Z * Z) (r : option (Z * Z)) : prog :=
  match r with None => fprintf 2 (line "pipe error") [] (Exit 1) | Some pipeRight => Fork (after_fork f number pipefd pipeRight) end.
Definition to_wait : prog := Wait (fun _ _ => Exit 0).
Definition send_rest (l : list Z) : prog := send (pr 0) l (write (wfd 0) (int_bytes (-1)) (fun _ => Close (wfd 0) (fun _ => to_wait))).
Definition main_fork (pid : Z) : prog :=
  if pid =? 0 then Close (wfd 0) (fun _ => grepNumber junk FUEL (pr 0)) else Close (rfd 0) (fun _ => send_rest numbers).
(** What follows [pipe] and [fork] in process [i]. *)
Definition fork_k (i : nat) : Z -> prog := match i with O => main_fork | S j => after_fork (FUEL - i) (hd_of j) (pr j) (pr i) end.
Definition pipe_k (i : nat) : option (Z * Z) -> prog :=
  match i with
  | O => fun r => match main junk with Pipe k => k r | _ => OutOfFuel end
  | S j => after_pipe (FUEL - i) (hd_of j) (pr j)
  end.
Definition result (i r : nat) : Z := if decide (r = 1%nat) then junk else nth (r - 1) (stream (i - 1)) 0.
Definition prog_of (i : nat) (c : cst) : prog :=
  match c with
  | CStart => fork_k (i - 1) 0
  | CRead => grepNumber junk (FUEL - (i - 1)) (pr (i - 1))
  | CPrint cs => putcs 1 cs (Pipe (pipe_k i))
  | CFork => Fork (fork_k i)
  | CClose => fork_k i 1
  | CLoop r => pass (FUEL - i - (r - 1)) (hd_of (i - 1)) (result i r) (pr (i - 1)) (pr i)
  | CPass r => write (wfd i) (int_bytes (result i r)) (fun _ => pass (FUEL - i - (r - 1)) (hd_of (i - 1)) (result i r) (pr (i - 1)) (pr i))
  | CSend w => send_rest (drop w numbers)
  | CEnd => pass_end (pr i)
  | CCloseW => Close (wfd i) (fun _ => to_wait)
  | CWait => to_wait
  | CExit | CZombie | CReaped => Exit 0
  end.
Definition state_of (i : nat) (c : cst) : ustate :=
  match c with CZombie => Zombie 0 | CReaped => Reaped | _ => Run (prog_of i c) end.
End Positions.

(** Descriptor tables before and after [pipe], and without the read end. *)
Definition con3 : fdtable := [Some Console; Some Console; Some Console].
Definition pad (l : fdtable) : fdtable := l ++ replicate (NOFILE - length l) None.
Definition slots (j : nat) (x y : option uend) : fdtable := if Nat.even j then [x; y] else [y; x].
Definition wends (n : nat) : fdtable := (fun k => Some (PipeW k)) <$> seq 1 n.
Definition fds_pre (i : nat) : fdtable :=
  match i with O => console_fds | S j => pad (con3 ++ slots j (Some (PipeR j)) None ++ wends j) end.
Definition fds_post (i : nat) : fdtable :=
  match i with O => pad (con3 ++ [Some (PipeR 0); Some (PipeW 0)]) | S j => pad (con3 ++ slots j (Some (PipeR j)) (Some (PipeR i)) ++ wends i) end.
Definition fds_mid (i : nat) : fdtable :=
  match i with O => pad (con3 ++ [None; Some (PipeW 0)]) | S j => pad (con3 ++ slots j (Some (PipeR j)) None ++ wends i) end.
Definition fds_of (i : nat) (c : cst) : fdtable :=
  match c with
  | CStart => fds_post (i - 1)
  | CRead | CPrint _ | CWait | CExit => fds_pre i
  | CFork | CClose => fds_post i
  | CLoop _ | CPass _ | CSend _ | CEnd | CCloseW => fds_mid i
  | CZombie | CReaped => replicate NOFILE None
  end.

Ltac upto_12 i := do 13 (destruct i as [|i]; [first [vm_compute; repeat split; reflexivity|lia]|]); lia.
Lemma fds_alloc i : (i <= 11)%nat -> exists f, fdalloc (fds_pre i) (PipeR i) = Some (rfd i, f) /\ fdalloc f (PipeW i) = Some (wfd i, fds_post i).
Proof. intros Hi. exists (<[Z.to_nat (rfd i) := Some (PipeR i)]> (fds_pre i)). upto_12 i. Qed.
Lemma fds_close_r i : (i <= 11)%nat -> fdget (fds_post i) (rfd i) = Some (PipeR i) /\ fdclose (fds_post i) (rfd i) = fds_mid i.
Proof. intros Hi. upto_12 i. Qed.
Lemma fds_close_w i : (i <= 11)%nat -> fdget (fds_mid i) (wfd i) = Some (PipeW i) /\ fdclose (fds_mid i) (wfd i) = fds_pre i.
Proof. intros Hi. upto_12 i. Qed.
Lemma fds_read i : (1 <= i <= 12)%nat -> fdget (fds_pre i) (rfd (i - 1)) = Some (PipeR (i - 1)).
Proof. intros Hi. upto_12 i. Qed.
Lemma fds_read_mid i : (1 <= i <= 11)%nat -> fdget (fds_mid i) (rfd (i - 1)) = Some (PipeR (i - 1)).
Proof. intros Hi. upto_12 i. Qed.
Lemma fds_con i : (i <= 12)%nat -> fdget (fds_pre i) 1 = Some Console.
Proof. intros Hi. upto_12 i. Qed.
(** The end that a new process closes. *)
Definition start_fd (i : nat) : Z := match i with 1%nat => wfd 0 | _ => rfd (i - 2) end.
Lemma fds_start i : (1 <= i <= 12)%nat -> (exists e, fdget (fds_post (i - 1)) (start_fd i) = Some e) /\ fdclose (fds_post (i - 1)) (start_fd i) = fds_pre i.
Proof.
  intros Hi. split; [|upto_12 i]. exists (match i with 1%nat => PipeW 0 | _ => PipeR (i - 2) end). upto_12 i.
Qed.

(** ** What a position says about the pipes and the output *)

Definition slen (j : nat) : nat := length (stream j).
(** Numbers read from pipe [i - 1], those passed on, and those written to
    pipe [i]. *)
Definition rd (i : nat) (c : cst) : nat :=
  match c with
  | CStart | CRead | CSend _ => 0
  | CPrint _ | CFork | CClose => 1
  | CLoop r | CPass r => r
  | CEnd | CCloseW | CWait | CExit | CZombie | CReaped => S (slen (i - 1))
  end.
Definition passed (i r : nat) : list Z := filter (ndiv (hd_of (i - 1))) (take (r - 1) (tail (stream (i - 1)))).
Definition wr (i : nat) (c : cst) : nat :=
  match c with
  | CStart | CRead | CPrint _ | CFork | CClose => 0
  | CLoop r => length (passed i r)
  | CPass r => length (passed i (r - 1))
  | CSend w => w
  | CEnd => slen i
  | CCloseW | CWait | CExit | CZombie | CReaped => S (slen i)
  end.
Definition pline (p : Z) : list Z := chars "prime " ++ rev (default [] (uprint_digits 16 p 10)) ++ [10].
Definition lineof (i : nat) : list Z := match i with O => [] | S j => match stream j with [] => [] | p :: _ => pline p end end.
Definition printed (i : nat) (c : cst) : list Z :=
  match c with
  | CStart | CRead => []
  | CPrint cs => take (length (lineof i) - length cs) (lineof i)
  | _ => lineof i
  end.
(** Whether process [i] has made its pipe. *)
Definition piped (i : nat) (c : cst) : bool :=
  match c with CStart | CRead | CPrint _ => false | CExit | CZombie | CReaped => (i <? 12)%nat | _ => true end.
Definition waited (c : cst) : bool := match c with CExit | CZombie | CReaped => true | _ => false end.

(** Positions process [i] of [n] can have. *)
Definition okst (n i : nat) (c : cst) : Prop :=
  match c with
  | CStart | CRead => (1 <= i /\ S i = n)%nat
  | CPrint cs => (i <= 11 /\ S i = n)%nat /\ cs `suffix_of` lineof i
  | CFork => (i <= 11 /\ S i = n)%nat
  | CClose | CCloseW | CWait => (S i < n)%nat
  | CLoop r => (S i < n /\ 1 <= i /\ 1 <= r <= slen (i - 1))%nat
  | CPass r => (S i < n /\ 1 <= i /\ 2 <= r <= slen (i - 1))%nat /\ ndiv (hd_of (i - 1)) (nth (r - 1) (stream (i - 1)) 0)
  | CSend w => (S i < n /\ i = 0 /\ w <= 33)%nat
  | CEnd => (S i < n /\ 1 <= i)%nat
  | CExit | CZombie | CReaped => (S i < n \/ S i = n /\ i = 12)%nat
  end.
Record valid (cs : list cst) : Prop := {
  v_len : (1 <= length cs <= 13)%nat;
  v_ok : forall i c, cs !! i = Some c -> okst (length cs) i c;
  v_rw : forall i c d, cs !! i = Some c -> cs !! S i = Some d -> (rd (S i) d <= wr i c)%nat;
  v_wait : forall i c d, cs !! i = Some c -> cs !! S i = Some d -> (d = CReaped <-> waited c = true);
  v_main : cs !! 0%nat <> Some CReaped
}.

Definition rdn (cs : list cst) (i : nat) : nat := match cs !! i with Some c => rd i c | None => 0 end.
Definition wrn (cs : list cst) (i : nat) : nat := match cs !! i with Some c => wr i c | None => 0 end.
Definition queue (cs : list cst) (j : nat) : list Z := concat (int_bytes <$> drop (rdn cs (S j)) (take (wrn cs j) (msgs j))).

Definition parent (i : nat) : option nat := match i with O => None | S j => Some j end.
Section Invariant.
Context `{UE : Uenv} (junk : Z).
Definition rep (i : nat) (c : cst) (p : uproc) : Prop :=
  up_fds p = fds_of i c /\ up_state p = state_of junk i c /\ (c <> CReaped -> up_parent p = parent i).
Record core (cs : list cst) (s : usys) : Prop := {
  inv_len : length (us_procs s) = length cs;
  inv_proc : forall i c p, cs !! i = Some c -> us_procs s !! i = Some p -> rep i c p;
  inv_pipes : forall i c, cs !! i = Some c -> if piped i c then us_pipes s !! i = Some (queue cs i) else length (us_pipes s) = i;
  inv_np : (length (us_pipes s) <= length cs)%nat;
  inv_out : us_out s = concat (imap printed cs)
}.
Definition inv (cs : list cst) (s : usys) : Prop := valid cs /\ core cs s.

Lemma lookup_set {A} (l : list A) i x y j : l !! i = Some x -> <[i := y]> l !! j = if decide (j = i) then Some y else l !! j.
Proof. intros Hi. apply lookup_lt_Some in Hi. case_decide; [subst; by rewrite list_lookup_insert_eq|by rewrite list_lookup_insert_ne]. Qed.

(** Advancing one position. *)
Lemma valid_set cs i c c' : valid cs -> cs !! i = Some c -> okst (length cs) i c' -> (S i < length cs -> waited c' = waited c)%nat -> (c' = CReaped <-> c = CReaped) ->
  (forall d, (1 <= i)%nat -> cs !! (i - 1)%nat = Some d -> (rd i c' <= wr (i - 1) d)%nat) -> (wr i c <= wr i c')%nat -> valid (<[i := c']> cs).
Proof.
  intros [V1 V2 V3 V4 V5] Hi Hok Hw Hr Hrd Hwr. split.
  - by rewrite length_insert.
  - intros j d. rewrite length_insert, (lookup_set _ _ _ _ _ Hi). case_decide as E; [subst; by intros [= <-]|apply V2].
  - intros j d e. rewrite !(lookup_set _ _ _ _ _ Hi). destruct (decide (j = i)) as [->|Hj].
    + rewrite decide_False by lia. intros [= <-] He. specialize (V3 _ _ _ Hi He). lia.
    + destruct (decide (S j = i)) as [<-|Hj2]; [|by apply V3]. intros Hd [= <-]. specialize (Hrd d ltac:(lia)). replace (S j - 1)%nat with j in Hrd by lia. auto.
  - intros j d e. rewrite !(lookup_set _ _ _ _ _ Hi). destruct (decide (j = i)) as [->|Hj].
    + rewrite decide_False by lia. intros [= <-] He. rewrite Hw by (by eapply lookup_lt_Some). by apply (V4 i).
    + destruct (decide (S j = i)) as [<-|Hj2]; [|by apply V4]. intros Hd [= <-]. rewrite Hr. by apply (V4 j).
  - rewrite (lookup_set _ _ _ _ _ Hi). case_decide as E; [|done]. intros [= ->]. apply V5. subst i. rewrite Hi. f_equal. by apply Hr.
Qed.

Lemma imap_set {A B} (f : nat -> A -> B) l i x : imap f (<[i := x]> l) = <[i := f i x]> (imap f l).
Proof.
  apply list_eq. intros j. rewrite list_lookup_imap. destruct (l !! i) as [y|] eqn:Hi.
  - assert (Hi' : imap f l !! i = Some (f i y)) by (by rewrite list_lookup_imap, Hi). rewrite (lookup_set _ _ _ _ _ Hi), (lookup_set _ _ _ _ _ Hi').
    case_decide; [by subst|]. by rewrite list_lookup_imap.
  - apply lookup_ge_None in Hi. rewrite !list_insert_ge by (rewrite ?length_imap; lia). by rewrite list_lookup_imap.
Qed.
Lemma out_same cs i c c' : cs !! i = Some c -> printed i c' = printed i c -> imap printed (<[i := c']> cs) = imap printed cs.
Proof. intros Hi Hp. rewrite imap_set, Hp. apply list_insert_id. by rewrite list_lookup_imap, Hi. Qed.
Lemma rdn_set cs i c c' j : cs !! i = Some c -> rdn (<[i := c']> cs) j = if decide (j = i) then rd i c' else rdn cs j.
Proof. intros Hi. unfold rdn. rewrite (lookup_set _ _ _ _ _ Hi). case_decide; by subst. Qed.
Lemma wrn_set cs i c c' j : cs !! i = Some c -> wrn (<[i := c']> cs) j = if decide (j = i) then wr i c' else wrn cs j.
Proof. intros Hi. unfold wrn. rewrite (lookup_set _ _ _ _ _ Hi). case_decide; by subst. Qed.
Lemma queue_same cs i c c' j : cs !! i = Some c -> (S j = i -> rd i c' = rd i c) -> (j = i -> wr i c' = wr i c) -> queue (<[i := c']> cs) j = queue cs j.
Proof.
  intros Hi Hr Hw. unfold queue. rewrite (rdn_set _ _ _ _ _ Hi), (wrn_set _ _ _ _ _ Hi). f_equal. f_equal. f_equal.
  - case_decide as E; [|done]. unfold rdn. rewrite E, Hi. auto.
  - f_equal. case_decide as E; [|done]. unfold wrn. rewrite E, Hi. auto.
Qed.

Lemma core_set cs s i c c' p' pipes' out' : core cs s -> cs !! i = Some c -> rep i c' p' -> piped i c' = piped i c ->
  length pipes' = length (us_pipes s) -> (forall j, us_pipes s !! j = Some (queue cs j) -> pipes' !! j = Some (queue (<[i := c']> cs) j)) ->
  out' = concat (imap printed (<[i := c']> cs)) -> core (<[i := c']> cs) (USys (<[i := p']> (us_procs s)) pipes' out' (us_files s) (us_in s)).
Proof.
  intros [I2 I3 I4 I6 I5] Hi Hrep Hpi Hl Hq Ho. split; cbn [us_procs us_pipes us_out]; try done; [by rewrite !length_insert|..|by rewrite length_insert; lia].
  - assert (Hp : exists p, us_procs s !! i = Some p) by (apply lookup_lt_is_Some_2; rewrite I2; by eapply lookup_lt_Some). destruct Hp as [p Hp].
    intros j d q. rewrite (lookup_set _ _ _ _ _ Hi), (lookup_set _ _ _ _ _ Hp). case_decide as E; [subst; by intros [= <-] [= <-]|apply I3].
  - intros j d. rewrite (lookup_set _ _ _ _ _ Hi), Hl. case_decide as E.
    + subst j. intros [= <-]. rewrite Hpi. specialize (I4 _ _ Hi). destruct (piped i c); [by apply Hq|done].
    + intros Hd. specialize (I4 _ _ Hd). destruct (piped j d); [by apply Hq|done].
Qed.
Lemma inv_set cs s i c c' p' pipes' out' : inv cs s -> cs !! i = Some c -> valid (<[i := c']> cs) -> rep i c' p' -> piped i c' = piped i c ->
  length pipes' = length (us_pipes s) -> (forall j, us_pipes s !! j = Some (queue cs j) -> pipes' !! j = Some (queue (<[i := c']> cs) j)) ->
  out' = concat (imap printed (<[i := c']> cs)) -> inv (<[i := c']> cs) (USys (<[i := p']> (us_procs s)) pipes' out' (us_files s) (us_in s)).
Proof. intros [_ I] Hi Hv Hrep Hpi Hl Hq Ho. split; [done|]. by apply (core_set cs s i c). Qed.
Lemma inv_local cs s i c c' p' : inv cs s -> cs !! i = Some c -> okst (length cs) i c' -> waited c' = waited c -> (c' = CReaped <-> c = CReaped) ->
  rep i c' p' -> piped i c' = piped i c -> (1 <= i -> rd i c' = rd i c)%nat -> wr i c' = wr i c -> printed i c' = printed i c ->
  inv (<[i := c']> cs) (setproc i p' s).
Proof.
  intros I Hi Hok Hw Hr Hrep Hpi Hrd Hwr Hpr. apply (inv_set cs s i c); try done.
  - apply (valid_set cs i c); [apply I|done..|done| |lia]. intros d Hi1 Hd. rewrite (Hrd Hi1). pose proof (v_rw _ (proj1 I) (i - 1) d c Hd) as H.
    replace (S (i - 1)) with i in H by lia. auto.
  - intros j Hj. rewrite (queue_same cs i c); [done|done| |done]. intros <-. apply Hrd. lia.
  - rewrite (out_same cs i c) by done. apply I.
Qed.

(** ** Steps *)

(** How much a process still has to do. *)
Definition own (c : cst) : nat :=
  match c with
  | CStart => 200 | CRead => 199 | CPrint cs => 150 + length cs | CFork => 149 | CClose => 148
  | CLoop r => 20 + 2 * (34 - r) + 1 | CPass r => 20 + 2 * (34 - r) + 2 | CSend w => 20 + (34 - w)
  | CEnd => 20 | CCloseW => 19 | CWait => 18 | CExit => 17 | CZombie => 16 | CReaped => 15
  end.
Definition meas (cs : list cst) : nat := (13 - length cs) * 200 + sum_list_with own cs.
Lemma sum_set {A} (f : A -> nat) l i x y : l !! i = Some x -> (sum_list_with f (<[i := y]> l) + f x = sum_list_with f l + f y)%nat.
Proof.
  revert i. induction l as [|a l IH]; intros [|i]; try done.
  - intros [= ->]. change (<[0%nat := y]> (x :: l)) with (y :: l). simpl. lia.
  - intros Hi. specialize (IH i Hi). change (<[S i := y]> (a :: l)) with (a :: <[i := y]> l). simpl. lia.
Qed.
Lemma meas_set cs i c c' : cs !! i = Some c -> (own c' < own c)%nat -> (meas (<[i := c']> cs) < meas cs)%nat.
Proof. intros Hi Ho. unfold meas. rewrite length_insert. pose proof (sum_set own cs i c c' Hi). lia. Qed.

Definition goes (cs : list cst) (i : nat) (s : usys) : Prop := exists s' cs', ustep i s = Some s' /\ inv cs' s' /\ (meas cs' < meas cs)%nat.
Lemma goes_intro cs i s s' cs' : ustep i s = Some s' -> inv cs' s' -> (meas cs' < meas cs)%nat -> goes cs i s.
Proof. intros H1 H2 H3. by exists s', cs'. Qed.
Lemma ustep_run i s p pg : us_procs s !! i = Some p -> up_state p = Run pg ->
  ustep i s = match pg with
    | Exit st => Some (sys_exit i p st s) | Read fd n k => sys_read i p fd n k s | Write fd bs n k => sys_write i p fd bs n k s
    | Pipe k => Some (sys_pipe i p k s) | Fork k => Some (sys_fork i p k s) | Close fd k => Some (sys_close i p fd k s) | Wait k => sys_wait i p k s
    | Call c k => Some (sys_call i p c k s) | Fstat fd k => Some (setproc i (cont p (k (sys_fstat p fd s))) s)
    | Exec path argv k => Some (setproc i (cont p (default k (u_exec path argv))) s)
    | Undefined | OutOfFuel => None end.
Proof. intros Hp Hs. unfold ustep. rewrite Hp, Hs. by destruct pg. Qed.

Lemma step_close cs s i c p fd k e c' : inv cs s -> cs !! i = Some c -> us_procs s !! i = Some p -> rep i c p -> state_of junk i c = Run (Close fd k) ->
  fdget (fds_of i c) fd = Some e -> fdclose (fds_of i c) fd = fds_of i c' -> state_of junk i c' = Run (k 0) ->
  okst (length cs) i c' -> c <> CReaped -> c' <> CReaped -> waited c' = waited c -> piped i c' = piped i c -> (1 <= i -> rd i c' = rd i c)%nat -> wr i c' = wr i c -> printed i c' = printed i c ->
  (own c' < own c)%nat -> goes cs i s.
Proof.
  intros I Hi Hp (R1 & R2 & R3) Hs Hg Hc Hs' Hok Hn Hn' Hw Hpi Hrd Hwr Hpr Ho. eapply goes_intro; [|apply (inv_local cs s i c c' (UProc (up_parent p) (fds_of i c') (state_of junk i c')))|by apply (meas_set _ _ c)]; try done.
  - rewrite (ustep_run _ _ _ _ Hp) by (rewrite R2; exact Hs). unfold sys_close. rewrite R1, Hg, Hc, Hs'. done.
  - split; [done|]. split; [done|]. intros _. by apply R3.
Qed.

(** A number that is in the pipe is read. *)
Lemma queue_read cs i c c' d m : cs !! i = Some c -> (1 <= i)%nat -> cs !! (i - 1)%nat = Some d -> msgs (i - 1) !! rd i c = Some m -> (rd i c < wr (i - 1) d)%nat ->
  rd i c' = S (rd i c) -> queue cs (i - 1) = int_bytes m ++ queue (<[i := c']> cs) (i - 1).
Proof.
  intros Hi Hi1 Hd Hm Hlt Hr. unfold queue. rewrite (rdn_set _ _ _ _ _ Hi), (wrn_set _ _ _ _ _ Hi). replace (S (i - 1)) with i by lia.
  rewrite decide_True, decide_False by lia. unfold rdn, wrn. rewrite Hi, Hd, Hr. erewrite (drop_S (take _ _) m (rd i c)); [done|]. by rewrite lookup_take_lt.
Qed.
Lemma step_read cs s i c p fd k d m c' : inv cs s -> cs !! i = Some c -> us_procs s !! i = Some p -> rep i c p -> state_of junk i c = Run (Read fd 4 k) ->
  (1 <= i)%nat -> fdget (fds_of i c) fd = Some (PipeR (i - 1)) -> cs !! (i - 1)%nat = Some d -> piped (i - 1) d = true -> msgs (i - 1) !! rd i c = Some m -> (rd i c < wr (i - 1) d)%nat ->
  fds_of i c' = fds_of i c -> state_of junk i c' = Run (k 4 (int_bytes m)) -> okst (length cs) i c' -> c <> CReaped -> c' <> CReaped -> (S i < length cs -> waited c' = waited c)%nat ->
  piped i c' = piped i c -> rd i c' = S (rd i c) -> (wr i c <= wr i c')%nat -> (piped i c = true -> wr i c' = wr i c) -> printed i c' = printed i c -> (own c' < own c)%nat -> goes cs i s.
Proof.
  intros I Hi Hp (R1 & R2 & R3) Hs Hi1 Hg Hd Hpd Hm Hlt Hf Hs' Hok Hn Hn' Hw Hpi Hrd Hwle Hwr Hpr Ho. pose proof (inv_pipes _ _ (proj2 I) _ _ Hd) as Hq. rewrite Hpd in Hq.
  pose proof (queue_read cs i c c' d m Hi Hi1 Hd Hm Hlt Hrd) as Eq. set (q' := queue (<[i := c']> cs) (i - 1)) in *.
  apply (goes_intro _ _ _ (USys (<[i := cont p (k 4 (int_bytes m))]> (us_procs s)) (<[(i - 1)%nat := q']> (us_pipes s)) (us_out s) (us_files s) (us_in s)) (<[i := c']> cs)); [|apply (inv_set cs s i c)|by apply (meas_set _ _ c)]; try done.
  - rewrite (ustep_run _ _ _ _ Hp) by (rewrite R2; exact Hs). unfold sys_read. rewrite R1, Hg, Hq, Eq. simpl. rewrite !drop_0. done.
  - apply (valid_set cs i c); [apply I|done..|intros d' _ Hd'; simplify_eq; lia|done].
  - split; [simpl; congruence|]. split; [by symmetry|]. intros _. by apply R3.
  - by rewrite length_insert.
  - intros j Hj. destruct (decide (j = (i - 1)%nat)) as [->|Hne]; [by rewrite list_lookup_insert_eq by (by eapply lookup_lt_Some)|]. rewrite list_lookup_insert_ne by done.
    rewrite (queue_same cs i c); [done|done|lia|]. intros ->. destruct (piped i c) eqn:E; [by apply Hwr|]. pose proof (inv_pipes _ _ (proj2 I) _ _ Hi) as Hl. rewrite E in Hl.
    apply lookup_lt_Some in Hj. lia.
  - rewrite (out_same cs i c) by done. apply I.
Qed.

Definition live (c : cst) : Prop := match c with CZombie | CReaped => False | _ => True end.
Lemma in_bool (e : option uend) (l : fdtable) : bool_decide (e ∈ l) = true -> e ∈ l.
Proof. apply bool_decide_eq_true_1. Qed.
(** A live process has the end of the pipe it reads, and the end it has yet to
    write to. *)
Lemma has_r i c n : (1 <= i <= 12)%nat -> live c -> okst n i c -> (n <= 13)%nat -> Some (PipeR (i - 1)) ∈ fds_of i c.
Proof.
  intros Hi Hl Hok Hn. apply in_bool. destruct c; simpl in Hl, Hok; try done; simpl fds_of; upto_12 i.
Qed.
Lemma has_w i c : (i <= 11)%nat -> piped i c = true -> (wr i c <= slen i)%nat -> Some (PipeW i) ∈ fds_of i c.
Proof.
  intros Hi Hp Hw. apply in_bool. destruct c; simpl in Hp, Hw; try done; try lia; simpl fds_of; clear Hp Hw; upto_12 i.
Qed.
Lemma isopen_in cs s i c e : inv cs s -> cs !! i = Some c -> Some e ∈ fds_of i c -> isopen s e = true.
Proof.
  intros I Hi He. assert (exists p, us_procs s !! i = Some p) as [p Hp] by (apply lookup_lt_is_Some_2; rewrite (inv_len _ _ (proj2 I)); by eapply lookup_lt_Some).
  apply existsb_exists. exists p. split; [apply list_elem_of_In; by eapply list_elem_of_lookup_2|]. apply bool_decide_eq_true_2. by rewrite (proj1 (inv_proc _ _ (proj2 I) _ _ _ Hi Hp)).
Qed.

Lemma msgs_length j : length (msgs j) = S (slen j).
Proof. unfold msgs, slen. rewrite length_app. simpl. lia. Qed.
Lemma concat_ints_length (l : list Z) : length (concat (int_bytes <$> l)) = (4 * length l)%nat.
Proof. induction l as [|x l IH]; [done|]. rewrite fmap_cons. cbn [concat length]. rewrite length_app, IH, int_bytes_length. lia. Qed.
Lemma queue_length cs j : (length (queue cs j) <= 136)%nat.
Proof. unfold queue. rewrite concat_ints_length, length_drop, length_take, msgs_length. pose proof (stream_length j). unfold slen. lia. Qed.
Lemma queue_write cs i c c' m : cs !! i = Some c -> msgs i !! wr i c = Some m -> (rdn cs (S i) <= wr i c)%nat -> wr i c' = S (wr i c) ->
  queue (<[i := c']> cs) i = queue cs i ++ int_bytes m.
Proof.
  intros Hi Hm Hle Hw. unfold queue. rewrite (rdn_set _ _ _ _ _ Hi), (wrn_set _ _ _ _ _ Hi). rewrite decide_False, decide_True by lia. unfold wrn. rewrite Hi, Hw.
  pose proof (lookup_lt_Some _ _ _ Hm) as Hlt. rewrite (take_S_r _ _ _ Hm), drop_app_le by (rewrite length_take; lia). by rewrite fmap_app, concat_app.
Qed.
(** The reader is there and the pipe has room. *)
Lemma step_write cs s i c p fd k m c' : inv cs s -> cs !! i = Some c -> us_procs s !! i = Some p -> rep i c p -> state_of junk i c = Run (Write fd (int_bytes m) 4 k) ->
  fdget (fds_of i c) fd = Some (PipeW i) -> (S i < length cs)%nat -> piped i c = true -> msgs i !! wr i c = Some m ->
  fds_of i c' = fds_of i c -> state_of junk i c' = Run (k 4) -> okst (length cs) i c' -> c <> CReaped -> c' <> CReaped -> waited c' = waited c ->
  piped i c' = piped i c -> (1 <= i -> rd i c' = rd i c)%nat -> wr i c' = S (wr i c) -> printed i c' = printed i c -> (own c' < own c)%nat -> goes cs i s.
Proof.
  intros I Hi Hp (R1 & R2 & R3) Hs Hg Hlast Hpc Hm Hf Hs' Hok Hn Hn' Hw Hpi Hrd Hwr Hpr Ho. pose proof (inv_pipes _ _ (proj2 I) _ _ Hi) as Hq. rewrite Hpc in Hq. pose proof (proj1 I) as V.
  destruct (lookup_lt_is_Some_2 cs (S i) Hlast) as [d Hd]. pose proof (v_rw _ V _ _ _ Hi Hd) as Hrw. pose proof (lookup_lt_Some _ _ _ Hm) as Hms. rewrite msgs_length in Hms.
  assert (Hopen : isopen s (PipeR i) = true).
  { pose proof (v_len _ V). apply (isopen_in cs s (S i) d _ I Hd). replace (PipeR i) with (PipeR (S i - 1)) by (f_equal; lia). apply (has_r _ _ (length cs)); [lia| |by apply (v_ok _ V)|lia].
    destruct d; try done; cbn [rd] in Hrw; replace (S i - 1)%nat with i in Hrw by lia; lia. }
  assert (Hle : (rdn cs (S i) <= wr i c)%nat) by (unfold rdn; by rewrite Hd). pose proof (queue_length cs i) as Hql.
  pose proof (queue_write cs i c c' m Hi Hm Hle Hwr) as Eq.
  apply (goes_intro _ _ _ (USys (<[i := cont p (k 4)]> (us_procs s)) (<[i := queue cs i ++ int_bytes m]> (us_pipes s)) (us_out s) (us_files s) (us_in s)) (<[i := c']> cs)); [|apply (inv_set cs s i c)|by apply (meas_set _ _ c)]; try done.
  - rewrite (ustep_run _ _ _ _ Hp) by (rewrite R2; exact Hs). unfold sys_write. rewrite R1, Hg, Hopen, Hq. cbn [negb default from_option id]. cbv zeta. unfold PIPESIZE.
    destruct (int_bytes m) as [|b bs] eqn:Eb; [done|]. rewrite <- Eb. rewrite (decide_False (P := (512 - length (queue cs i))%nat = 0%nat)) by lia. rewrite decide_True by (rewrite int_bytes_length; lia).
    rewrite take_ge by (rewrite int_bytes_length; lia). done.
  - apply (valid_set cs i c); [apply I|done..|done| |lia]. intros d' Hi1 Hd'. rewrite (Hrd Hi1). pose proof (v_rw _ V (i - 1) d' c Hd') as H. replace (S (i - 1)) with i in H by lia. auto.
  - split; [simpl; congruence|]. split; [by symmetry|]. intros _. by apply R3.
  - by rewrite length_insert.
  - intros j Hj. destruct (decide (j = i)) as [->|Hne]; [by rewrite list_lookup_insert_eq, Eq by (by eapply lookup_lt_Some)|]. rewrite list_lookup_insert_ne by done.
    rewrite (queue_same cs i c); [done|done| |done]. intros <-. apply Hrd. lia.
  - rewrite (out_same cs i c) by done. apply I.
Qed.

(** ** Printing, [pipe] and [fork]: the last process of the chain *)

Lemma lineof_plain i : Forall (fun c => u8 c = c) (lineof i).
Proof.
  destruct (decide (i <= 11)%nat) as [Hi|Hi]; [|destruct i as [|j]; [lia|]; simpl; by rewrite (stream_ge j) by lia].
  do 12 (destruct i as [|i]; [vm_compute; repeat (constructor; [reflexivity|]); constructor|]). lia.
Qed.
Lemma lineof_text i k : (1 <= i <= 11)%nat -> uprintf (line "prime %d") [UInt (hd_of (i - 1))] k = putcs 1 (lineof i) k.
Proof. intros Hi. do 12 (destruct i as [|i]; [first [lia|reflexivity]|]). lia. Qed.
Lemma out_last cs i c c' x : cs !! i = Some c -> S i = length cs -> printed i c' = printed i c ++ x -> concat (imap printed (<[i := c']> cs)) = concat (imap printed cs) ++ x.
Proof.
  intros Hi Hl Hp. assert (exists l, cs = l ++ [c] /\ length l = i) as (l & -> & <-).
  { destruct cs as [|a l _] using rev_ind; [done|]. rewrite length_app in Hl. simpl in Hl. assert (i = length l) as -> by lia. rewrite lookup_app_r, Nat.sub_diag in Hi by lia.
    injection Hi as ->. by exists l. }
  rewrite insert_app_r_alt, Nat.sub_diag by lia. simpl. rewrite !imap_app, !concat_app. simpl. rewrite Nat.add_0_r, Hp, !app_nil_r. by rewrite app_assoc.
Qed.
Lemma step_print cs s i p ch x : inv cs s -> cs !! i = Some (CPrint (ch :: x)) -> us_procs s !! i = Some p -> rep i (CPrint (ch :: x)) p -> goes cs i s.
Proof.
  intros I Hi Hp (R1 & R2 & R3). pose proof (v_ok _ (proj1 I) _ _ Hi) as [[Hi11 Hlast] [pre Hsuf]]. simpl in R2.
  assert (Hu : u8 ch = ch). { pose proof (lineof_plain i) as H. rewrite Hsuf in H. apply Forall_app in H as [_ H]. by inversion H. }
  assert (Hpr : printed i (CPrint x) = printed i (CPrint (ch :: x)) ++ [ch]).
  { cbn [printed]. rewrite Hsuf, !length_app. simpl length. replace (length pre + S (length x) - S (length x))%nat with (length pre) by lia.
    replace (length pre + S (length x) - length x)%nat with (S (length pre)) by lia. rewrite take_app_length. replace (S (length pre)) with (length (pre ++ [ch])) by (rewrite length_app; simpl; lia).
    replace (pre ++ ch :: x) with ((pre ++ [ch]) ++ x) by (by rewrite <- app_assoc). apply take_app_length. }
  apply (goes_intro _ _ _ (USys (<[i := cont p (prog_of junk i (CPrint x))]> (us_procs s)) (us_pipes s) (us_out s ++ [ch]) (us_files s) (us_in s)) (<[i := CPrint x]> cs)); [|apply (inv_set cs s i (CPrint (ch :: x)))|apply (meas_set _ _ (CPrint (ch :: x))); [done|simpl; lia]]; try done.
  - rewrite (ustep_run _ _ _ (Write 1 [u8 ch] 1 (fun _ => prog_of junk i (CPrint x))) Hp R2). unfold sys_write. rewrite R1. cbn [fds_of]. rewrite fds_con by lia. rewrite Hu. done.
  - apply (valid_set cs i (CPrint (ch :: x))); [apply I|done| |done|done| |done].
    + split; [done|]. exists (pre ++ [ch]). by rewrite <- app_assoc.
    + intros d Hi1 Hd. pose proof (v_rw _ (proj1 I) (i - 1) d (CPrint (ch :: x)) Hd) as H. replace (S (i - 1)) with i in H by lia. by apply H.
  - split; [exact R1|]. split; [done|]. intros _. by apply R3.
  - intros j Hj. by rewrite (queue_same cs i (CPrint (ch :: x))).
  - rewrite (out_last cs i (CPrint (ch :: x)) _ [ch]); [|done..]. f_equal. apply I.
Qed.
Lemma pipe_k_ok i : pipe_k junk i (Some (pr i)) = Fork (fork_k junk i).
Proof. by destruct i. Qed.
Lemma step_pipe cs s i p : inv cs s -> cs !! i = Some (CPrint []) -> us_procs s !! i = Some p -> rep i (CPrint []) p -> goes cs i s.
Proof.
  intros [V I] Hi Hp (R1 & R2 & R3). pose proof (v_ok _ V _ _ Hi) as [[Hi11 Hlast] _]. simpl in R2. pose proof (inv_pipes _ _ I _ _ Hi) as Hlen. cbn [piped] in Hlen.
  destruct (fds_alloc i Hi11) as (f & Hf1 & Hf2).
  apply (goes_intro _ _ _ (USys (<[i := UProc (up_parent p) (fds_post i) (Run (Fork (fork_k junk i)))]> (us_procs s)) (us_pipes s ++ [[]]) (us_out s) (us_files s) (us_in s)) (<[i := CFork]> cs));
    [| |apply (meas_set _ _ (CPrint [])); [done|simpl; lia]].
  - rewrite (ustep_run _ _ _ _ Hp R2). unfold sys_pipe. rewrite R1, Hlen. cbn [fds_of]. rewrite Hf1. simpl. rewrite Hf2. simpl. unfold setproc. cbn [us_procs us_pipes us_out]. do 4 f_equal. by rewrite pipe_k_ok.
  - assert (Hq : forall j, queue (<[i := CFork]> cs) j = queue cs j) by (intros j; by rewrite (queue_same cs i (CPrint []))).
    split; [apply (valid_set cs i (CPrint [])); try done|split; cbn [us_procs us_pipes us_out]].
    + intros d Hi1 Hd. pose proof (v_rw _ V (i - 1) d (CPrint []) Hd) as H. replace (S (i - 1)) with i in H by lia. by apply H.
    + rewrite !length_insert. apply I.
    + intros j d q. rewrite (lookup_set _ _ _ _ _ Hi), (lookup_set _ _ _ _ _ Hp). case_decide as E; [subst|by apply I]. intros [= <-] [= <-]. split; [done|]. split; [done|]. intros _. by apply R3.
    + intros j d. rewrite (lookup_set _ _ _ _ _ Hi), Hq. case_decide as E.
      * subst j. intros [= <-]. simpl. rewrite lookup_app_r, Hlen, Nat.sub_diag by lia. unfold queue, wrn. by rewrite Hi, take_0, drop_nil.
      * intros Hd. pose proof (v_ok _ V _ _ Hd) as Hok. pose proof (lookup_lt_Some _ _ _ Hd) as Hjl. pose proof (inv_pipes _ _ I _ _ Hd) as Hj. destruct (piped j d) eqn:Ep; [by apply lookup_app_l_Some|lia].
    + rewrite length_app, length_insert. simpl. lia.
    + rewrite (out_last cs i (CPrint []) CFork []); [rewrite app_nil_r; apply I|done..|]. simpl. rewrite Nat.sub_0_r, take_ge by lia. by rewrite app_nil_r.
Qed.
Lemma okst_more n j c : okst n j c -> (S j < n)%nat -> okst (S n) j c.
Proof. destruct c; simpl; try lia; intros [? ?]; split; lia || done. Qed.
Lemma valid_fork cs i : valid cs -> cs !! i = Some CFork -> valid (<[i := CClose]> cs ++ [CStart]).
Proof.
  intros [V1 V2 V3 V4 V5] Hi. pose proof (V2 _ _ Hi) as [Hi11 Hlast]. set (cs1 := <[i := CClose]> cs).
  assert (Hl : length (cs1 ++ [CStart]) = S (length cs)) by (unfold cs1; rewrite length_app, length_insert; simpl; lia).
  assert (Hlk : forall j d, (cs1 ++ [CStart]) !! j = Some d -> j = i /\ d = CClose \/ (j < i)%nat /\ cs !! j = Some d \/ j = S i /\ d = CStart).
  { intros j d Hj. apply lookup_snoc_Some in Hj as [[Hlt Hj]|[-> <-]].
    - unfold cs1 in *. rewrite length_insert in Hlt. rewrite (lookup_set _ _ _ _ _ Hi) in Hj. case_decide; [left; by simplify_eq|]. right; left. split; [lia|done].
    - right; right. split; [|done]. unfold cs1. rewrite length_insert. lia. }
  split; [lia|..].
  - intros j d. rewrite Hl. intros [[-> ->]|[[Hj Hd]|[-> ->]]]%Hlk; [simpl; lia| |simpl; lia]. apply okst_more; [by apply V2|lia].
  - intros j c d Hc Hd. apply Hlk in Hd as [[E ->]|[[Hj Hd]|[E ->]]]; [|apply Hlk in Hc as [[-> ->]|[[_ Hc]|[-> _]]]; [lia|by apply (V3 j)|lia]|simpl; lia].
    apply Hlk in Hc as [[-> _]|[[_ Hc]|[-> _]]]; [lia| |lia]. subst i. by apply (V3 j c CFork).
  - intros j c d Hc Hd. apply Hlk in Hc as [[-> ->]|[[Hj Hc]|[-> ->]]]; apply Hlk in Hd as [[E ->]|[[Hj2 Hd]|[E ->]]]; try lia; [by split| |by apply (V4 j)].
    subst i. split; [done|]. intros Hw. by apply (V4 j c CFork Hc Hi) in Hw.
  - intros [[_ ?]|[[_ ?]|[? _]]]%Hlk; [done|by apply V5|lia].
Qed.
Lemma step_fork cs s i p : inv cs s -> cs !! i = Some CFork -> us_procs s !! i = Some p -> rep i CFork p -> goes cs i s.
Proof.
  intros [V I] Hi Hp (R1 & R2 & R3). pose proof (v_ok _ V _ _ Hi) as [Hi11 Hlast]. simpl in R2. pose proof (inv_pipes _ _ I _ _ Hi) as Hpi. cbn [piped] in Hpi.
  pose proof (inv_len _ _ I) as Hlen. pose proof (inv_np _ _ I) as Hnp. pose proof (lookup_lt_Some _ _ _ Hpi) as Hnp2.
  assert (Hpid : fork_k junk i (pid_of (length (us_procs s))) = fork_k junk i 1).
  { unfold fork_k, after_fork, main_fork, pid_of. destruct i; (replace (Z.of_nat (length (us_procs s)) + 1 =? 0) with false by lia); done. }
  assert (Hq : forall j, queue (<[i := CClose]> cs ++ [CStart]) j = queue cs j).
  { intros j. rewrite <- (queue_same cs i CFork CClose j) by done. unfold queue. f_equal. f_equal. f_equal.
    - unfold rdn. destruct (decide (S j < length cs)%nat); [by rewrite lookup_app_l by (rewrite length_insert; lia)|].
      rewrite lookup_app_r by (rewrite length_insert; lia). rewrite (proj2 (lookup_ge_None (<[i:=CClose]> cs) (S j))) by (rewrite length_insert; lia).
      rewrite length_insert. destruct (S j - length cs)%nat as [|[]]; done.
    - f_equal. unfold wrn. destruct (decide (j < length cs)%nat); [by rewrite lookup_app_l by (rewrite length_insert; lia)|].
      rewrite lookup_app_r by (rewrite length_insert; lia). rewrite (proj2 (lookup_ge_None (<[i:=CClose]> cs) j)) by (rewrite length_insert; lia).
      rewrite length_insert. destruct (j - length cs)%nat as [|[]]; done. }
  apply (goes_intro _ _ _ (USys (<[i := cont p (fork_k junk i 1)]> (us_procs s) ++ [UProc (Some i) (up_fds p) (Run (fork_k junk i 0))]) (us_pipes s) (us_out s) (us_files s) (us_in s)) (<[i := CClose]> cs ++ [CStart])).
  - rewrite (ustep_run _ _ _ _ Hp R2). unfold sys_fork. by rewrite Hpid.
  - split; [by apply valid_fork|]. split; cbn [us_procs us_pipes us_out].
    + rewrite !length_app, !length_insert. simpl. lia.
    + intros j d q Hd Hq1. apply lookup_snoc_Some in Hd as [[Hlt Hd]|[-> <-]].
      * rewrite length_insert in Hlt. rewrite lookup_app_l in Hq1 by (rewrite length_insert; lia). rewrite (lookup_set _ _ _ _ _ Hi) in Hd. rewrite (lookup_set _ _ _ _ _ Hp) in Hq1.
        case_decide as E; [subst|by apply (inv_proc _ _ I)]. injection Hd as <-. injection Hq1 as <-. split; [exact R1|]. split; [done|]. intros _. by apply R3.
      * rewrite length_insert in *. rewrite lookup_app_r in Hq1 by (rewrite length_insert; lia). rewrite length_insert, Hlen, Nat.sub_diag in Hq1. injection Hq1 as <-.
        rewrite <- Hlast. unfold rep. cbn [fds_of state_of prog_of parent up_fds up_state up_parent]. rewrite Nat.sub_succ, Nat.sub_0_r. split; [exact R1|]. by split.
    + intros j d Hd. rewrite Hq. apply lookup_snoc_Some in Hd as [[Hlt Hd]|[-> <-]]; [|rewrite length_insert; simpl; lia].
      rewrite (lookup_set _ _ _ _ _ Hi) in Hd. case_decide as E; [subst; by injection Hd as <-|]. by apply (inv_pipes _ _ I).
    + rewrite length_app, length_insert. simpl. lia.
    + rewrite imap_app, concat_app, (out_same cs i CFork) by done. simpl. rewrite app_nil_r. apply I.
  - unfold meas. rewrite length_app, length_insert. pose proof (sum_set own cs i CFork CClose Hi) as Hs. rewrite sum_list_with_app. simpl in *. pose proof (v_len _ V). 
    assert (length cs <= 12)%nat by lia. lia.
Qed.

(** ** [wait] and [exit] *)

Lemma zombie_child_none i o ps : (forall j p, ps !! j = Some p -> child_of i p = true -> forall st, up_state p <> Zombie st) -> zombie_child i o ps = None.
Proof.
  revert o. induction ps as [|p ps IH]; intros o H; simpl; [done|]. pose proof (H 0%nat p eq_refl) as H0.
  destruct (child_of i p); [destruct (up_state p) eqn:E; try (apply IH; intros j q Hj; apply (H (S j) q Hj)); by destruct (H0 eq_refl status)|apply IH; intros j q Hj; apply (H (S j) q Hj)].
Qed.
Lemma zombie_child_at i o ps m p st : ps !! m = Some p -> child_of i p = true -> up_state p = Zombie st -> (forall j q, (j < m)%nat -> ps !! j = Some q -> child_of i q = false) ->
  zombie_child i o ps = Some ((o + m)%nat, st).
Proof.
  revert o m. induction ps as [|a ps IH]; intros o m Hm Hc Hs Hlt; [done|]. destruct m as [|m].
  - injection Hm as ->. simpl. rewrite Hc, Hs. by rewrite Nat.add_0_r.
  - simpl. rewrite (Hlt 0%nat a ltac:(lia) eq_refl). rewrite (IH (S o) m); [do 2 f_equal; lia|done..|]. intros j q Hj. apply (Hlt (S j)). lia.
Qed.
(** The children of a process: the next one, until it is reaped. *)
Lemma child_next cs s i j d q : core cs s -> cs !! j = Some d -> us_procs s !! j = Some q -> child_of i q = true -> j = S i /\ d <> CReaped.
Proof.
  intros I Hd Hq Hc. destruct (inv_proc _ _ I _ _ _ Hd Hq) as (_ & R2 & R3). unfold child_of in Hc. apply andb_true_iff in Hc as [Hc1 Hc2]. apply bool_decide_eq_true in Hc1.
  assert (Hn : d <> CReaped) by (intros ->; rewrite R2 in Hc2; done). rewrite (R3 Hn) in Hc1. split; [|done]. destruct j; [done|]. simpl in Hc1. by injection Hc1 as ->.
Qed.
Lemma child_is cs s i d q : core cs s -> cs !! S i = Some d -> us_procs s !! S i = Some q -> d <> CReaped -> child_of i q = true.
Proof.
  intros I Hd Hq Hn. destruct (inv_proc _ _ I _ _ _ Hd Hq) as (_ & R2 & R3). unfold child_of. rewrite (R3 Hn). rewrite bool_decide_eq_true_2 by done. rewrite R2. by destruct d.
Qed.
Lemma valid_wait cs i : valid cs -> cs !! i = Some CWait -> cs !! S i = Some CZombie -> valid (<[i := CExit]> (<[S i := CReaped]> cs)).
Proof.
  intros [V1 V2 V3 V4 V5] Hi Hz. assert (Hi' : <[S i := CReaped]> cs !! i = Some CWait) by (rewrite list_lookup_insert_ne by lia; done).
  assert (Hlk : forall j d, <[i := CExit]> (<[S i := CReaped]> cs) !! j = Some d -> exists c, cs !! j = Some c /\ rd j d = rd j c /\ wr j d = wr j c /\
    (j = i /\ c = CWait /\ d = CExit \/ j = S i /\ c = CZombie /\ d = CReaped \/ j <> i /\ j <> S i /\ c = d)).
  { intros j d. rewrite (lookup_set _ _ _ _ _ Hi'), (lookup_set _ _ _ _ _ Hz). destruct (decide (j = i)) as [->|]; [intros [= <-]; exists CWait; auto 10|].
    destruct (decide (j = S i)) as [->|]; [intros [= <-]; exists CZombie; auto 10|]. intros Hd. exists d. auto 10. }
  split; rewrite ?length_insert; [done|..].
  - intros j d (c & Hc & _ & _ & Hcase)%Hlk. specialize (V2 _ _ Hc). destruct Hcase as [(-> & -> & ->)|[(-> & -> & ->)|(_ & _ & ->)]]; simpl in *; auto.
  - intros j c d (c0 & Hc & _ & Ew & _)%Hlk (d0 & Hd & Er & _ & _)%Hlk. rewrite Er, Ew. by apply (V3 j).
  - intros j c d (c0 & Hc & _ & _ & Ec)%Hlk (d0 & Hd & _ & _ & Ed)%Hlk. specialize (V4 _ _ _ Hc Hd). destruct Ec as [(-> & -> & ->)|[(-> & -> & ->)|(? & ? & ->)]];
      destruct Ed as [(E & -> & ->)|[(E & -> & ->)|(? & ? & ->)]]; try lia; try done. subst i. split; [done|]. intros Hw. by apply V4 in Hw.
  - intros (c & Hc & _ & _ & [(? & ? & ?)|[(? & ? & ?)|(? & ? & ->)]])%Hlk; [done|lia|by apply V5].
Qed.
Lemma step_wait cs s i p : inv cs s -> cs !! i = Some CWait -> us_procs s !! i = Some p -> rep i CWait p ->
  if decide (cs !! S i = Some CZombie) then goes cs i s else ustep i s = None.
Proof.
  intros [V I] Hi Hp (R1 & R2 & R3). pose proof (v_ok _ V _ _ Hi) as Hlast. simpl in R2, Hlast. destruct (lookup_lt_is_Some_2 cs (S i) Hlast) as [d Hd].
  destruct (lookup_lt_is_Some_2 (us_procs s) (S i)) as [q Hq]; [rewrite (inv_len _ _ I); lia|]. pose proof (inv_proc _ _ I _ _ _ Hd Hq) as (Q1 & Q2 & Q3).
  assert (Hnr : d <> CReaped) by (intros ->; by pose proof (proj1 (v_wait _ V _ _ _ Hi Hd) eq_refl)). pose proof (child_is cs s i d q I Hd Hq Hnr) as Hch.
  assert (Hother : forall j r, us_procs s !! j = Some r -> child_of i r = true -> j = S i).
  { intros j r Hr Hc. destruct (lookup_lt_is_Some_2 cs j) as [e He]; [rewrite <- (inv_len _ _ I); by eapply lookup_lt_Some|]. by apply (child_next cs s i j e r I He Hr). }
  case_decide as Ez; [rewrite Hd in Ez; injection Ez as ->|rewrite (ustep_run _ _ _ _ Hp R2); unfold sys_wait].
  - set (q' := UProc (up_parent q) (up_fds q) Reaped). set (cs1 := <[S i := CReaped]> cs).
    assert (Hi1 : cs1 !! i = Some CWait) by (unfold cs1; rewrite list_lookup_insert_ne by lia; done).
    set (s1 := USys (<[S i := q']> (us_procs s)) (us_pipes s) (us_out s) (us_files s) (us_in s)).
    assert (I1 : core cs1 s1).
    { apply (core_set cs s (S i) CZombie); try done; [intros j Hj; by rewrite (queue_same cs (S i) CZombie)|rewrite (out_same cs (S i) CZombie) by done; apply I]. }
    apply (goes_intro _ _ _ (USys (<[i := cont p (Exit 0)]> (us_procs s1)) (us_pipes s1) (us_out s1) (us_files s1) (us_in s1)) (<[i := CExit]> cs1)).
    + rewrite (ustep_run _ _ _ _ Hp R2). unfold sys_wait. rewrite (zombie_child_at i 0 _ (S i) q 0 Hq Hch Q2); [|intros j r Hj Hr; destruct (child_of i r) eqn:E; [apply (Hother j r Hr) in E; lia|done]].
      unfold setproc. cbn [us_procs us_pipes us_out Nat.add]. unfold s1. cbn [us_procs us_pipes us_out]. do 4 f_equal. apply list_eq. intros j. rewrite (lookup_set _ _ _ _ _ Hq). case_decide as E; [subst; by rewrite list_lookup_alter_eq, Hq|by rewrite list_lookup_alter_ne].
    + split; [by apply valid_wait|]. apply (core_set cs1 s1 i CWait); try done.
      * split; [exact R1|]. split; [done|]. intros _. by apply R3.
      * simpl. pose proof (v_len _ V). apply Nat.ltb_lt. lia.
      * intros j Hj. by rewrite (queue_same cs1 i CWait).
      * rewrite (out_same cs1 i CWait) by done. apply I1.
    + unfold meas. rewrite length_insert. unfold cs1. rewrite length_insert. pose proof (sum_set own cs (S i) CZombie CReaped Hd) as S1. pose proof (sum_set own cs1 i CWait CExit Hi1) as S2. fold cs1 in S1 |- *. simpl in S1, S2. lia.
  - rewrite zombie_child_none.
    + replace (existsb (child_of i) (us_procs s)) with true; [done|]. symmetry. apply existsb_exists. exists q. split; [apply list_elem_of_In; by eapply list_elem_of_lookup_2|done].
    + intros j r Hr Hc st Hst. pose proof (Hother j r Hr Hc) as ->. rewrite Hq in Hr. injection Hr as <-. rewrite Q2 in Hst. by destruct d.
Qed.
Lemma step_exit cs s i p : inv cs s -> cs !! i = Some CExit -> us_procs s !! i = Some p -> rep i CExit p -> goes cs i s.
Proof.
  intros [V I] Hi Hp (R1 & R2 & R3). simpl in R2.
  apply (goes_intro _ _ _ (sys_exit i p 0 s) (<[i := CZombie]> cs)); [by rewrite (ustep_run _ _ _ _ Hp R2)| |apply (meas_set _ _ CExit); [done|simpl; lia]].
  assert (Io : core cs (USys (orphan i <$> us_procs s) (us_pipes s) (us_out s) (us_files s) (us_in s))).
  { destruct I as [I1 I2 I3 I4 I5]. split; cbn [us_procs us_pipes us_out]; try done; [by rewrite length_fmap|]. intros j d q' Hd Hq. rewrite list_lookup_fmap in Hq.
    destruct (us_procs s !! j) as [q|] eqn:Eq; [|done]. injection Hq as <-. destruct (I2 _ _ _ Hd Eq) as (Q1 & Q2 & Q3). unfold orphan. case_decide as Epar; [|done].
    split; [done|]. split; [done|]. intros Hn. exfalso. rewrite (Q3 Hn) in Epar. destruct j as [|j]; [done|]. injection Epar as ->. by apply Hn, (v_wait _ V _ _ _ Hi Hd). }
  split.
  - apply (valid_set cs i CExit); try done; [by apply (v_ok _ V _ _ Hi)|]. intros d Hi1 Hd. pose proof (v_rw _ V (i - 1) d CExit Hd) as H. replace (S (i - 1)) with i in H by lia. by apply H.
  - apply (core_set cs _ i CExit _ _ _ _ Io); try done.
    + split; [done|]. split; [done|]. intros _. by apply R3.
    + intros j Hj. by rewrite (queue_same cs i CExit).
    + rewrite (out_same cs i CExit) by done. apply I.
Qed.

(** ** Reading and writing numbers *)

Lemma pred_piped cs i c : valid cs -> cs !! i = Some c -> (1 <= i)%nat -> exists d, cs !! (i - 1)%nat = Some d /\ piped (i - 1) d = true /\ (rd i c <= wr (i - 1) d)%nat.
Proof.
  intros V Hi Hi1. pose proof (lookup_lt_Some _ _ _ Hi) as Hlt. destruct (lookup_lt_is_Some_2 cs (i - 1)) as [d Hd]; [lia|]. exists d. split; [done|].
  pose proof (v_ok _ V _ _ Hd) as Hok. pose proof (v_len _ V). split; [destruct d; simpl in *; try done; try lia; apply Nat.ltb_lt; lia|].
  pose proof (v_rw _ V (i - 1) d c Hd) as H1. replace (S (i - 1)) with i in H1 by lia. by apply H1.
Qed.
Lemma step_blocked cs s i c d p fd n k : inv cs s -> cs !! i = Some c -> us_procs s !! i = Some p -> rep i c p -> state_of junk i c = Run (Read fd n k) ->
  (1 <= i)%nat -> fdget (fds_of i c) fd = Some (PipeR (i - 1)) -> cs !! (i - 1)%nat = Some d -> piped (i - 1) d = true -> (wr (i - 1) d <= rd i c)%nat -> (rd i c <= slen (i - 1))%nat -> ustep i s = None.
Proof.
  intros I Hi Hp (R1 & R2 & R3) Hs Hi1 Hg Hd Hpd Hle Hsl. pose proof (inv_pipes _ _ (proj2 I) _ _ Hd) as Hq. rewrite Hpd in Hq. pose proof (v_len _ (proj1 I)). apply lookup_lt_Some in Hi as Hlt.
  rewrite (ustep_run _ _ _ _ Hp) by (rewrite R2; exact Hs). unfold sys_read. rewrite R1, Hg, Hq. unfold queue, rdn, wrn. replace (S (i - 1)) with i by lia. rewrite Hi, Hd.
  rewrite drop_ge by (rewrite length_take; lia). simpl. rewrite (isopen_in cs s (i - 1) d _ I Hd); [done|]. apply has_w; [lia|done|lia].
Qed.
Lemma msg_range k m x : msgs k !! m = Some x -> - 2 ^ 31 <= x < 2 ^ 31.
Proof.
  intros H. apply list_elem_of_lookup_2 in H. unfold msgs in H. apply elem_of_app in H as [H|H%list_elem_of_singleton]; [|lia]. apply stream_sub in H. lia.
Qed.
Lemma fuel_S i r : (i <= 12)%nat -> (1 <= r <= 33)%nat -> (FUEL - i - (r - 1) = S (FUEL - i - (S r - 1)))%nat.
Proof. unfold FUEL. lia. Qed.
(** The first number: the prime, or the end of the chain. *)
Lemma read_first cs s i p d : inv cs s -> cs !! i = Some CRead -> us_procs s !! i = Some p -> rep i CRead p -> cs !! (i - 1)%nat = Some d -> (0 < wr (i - 1) d)%nat -> goes cs i s.
Proof.
  intros I Hi Hp R Hd Hw. pose proof (proj1 I) as V. pose proof (v_ok _ V _ _ Hi) as [Hi1 Hlast]. pose proof (v_len _ V) as Hl.
  destruct (pred_piped _ _ _ V Hi Hi1) as (d' & Hd' & Hpi & _). rewrite Hd in Hd'. injection Hd' as <-. destruct i as [|i]; [lia|]. rewrite Nat.sub_succ, Nat.sub_0_r in *.
  assert (Hst : state_of junk (S i) CRead = Run (grepNumber junk (S (FUEL - S i)) (pr i))). { cbn [state_of prog_of]. rewrite Nat.sub_succ, Nat.sub_0_r. do 2 f_equal. unfold FUEL. lia. }
  pose proof (fds_read (S i) ltac:(lia)) as Hfd. rewrite Nat.sub_succ, Nat.sub_0_r in Hfd. destruct (decide (i = 11)%nat) as [->|Hne].
  - eapply (step_read cs s 12 CRead p _ _ d (-1) CExit I Hi Hp R Hst); try done; [simpl; right; lia|lia|simpl; lia|simpl; lia].
  - destruct (stream_cons i ltac:(lia)) as (r & Hs & _).
    eapply (step_read cs s (S i) CRead p _ _ d (hd_of i) (CPrint (lineof (S i))) I Hi Hp R Hst); rewrite ?Nat.sub_succ, ?Nat.sub_0_r; try done.
    + unfold msgs. by rewrite Hs.
    + cbn [state_of prog_of]. assert (Hx : 2 <= hd_of i <= 34) by (apply (stream_sub i); rewrite Hs; set_solver). rewrite read_int_bytes by lia. replace (hd_of i =? -1) with false by lia.
      pose proof (lineof_text (S i) (Pipe (after_pipe junk (FUEL - S i) (hd_of i) (pr i))) ltac:(lia)) as Ht. rewrite Nat.sub_succ, Nat.sub_0_r in Ht. f_equal. symmetry. exact Ht.
    + split; [lia|done].
    + cbn [printed]. by rewrite Nat.sub_diag.
    + cbn [own]. assert (length (lineof (S i)) <= 9)%nat; [|lia]. clear -Hl Hlast Hne. assert (Hi : (i <= 10)%nat) by lia. do 11 (destruct i as [|i]; [vm_compute; lia|]). lia.
Qed.
Lemma tail_lookup {A} (l : list A) k : tail l !! k = l !! S k.
Proof. by destruct l. Qed.
Lemma passed_S i r v : (1 <= r)%nat -> stream (i - 1) !! r = Some v -> passed i (S r) = passed i r ++ (if decide (ndiv (hd_of (i - 1)) v) then [v] else []).
Proof.
  intros Hr Hv. unfold passed. replace (S r - 1)%nat with (S (r - 1)) by lia. rewrite (take_S_r _ _ v) by (rewrite tail_lookup; by replace (S (r - 1)) with r by lia).
  by rewrite filter_app.
Qed.
Lemma passed_all i : (1 <= i <= 11)%nat -> passed i (slen (i - 1)) = stream i.
Proof.
  intros Hi. destruct i as [|i]; [lia|]. unfold passed, slen. rewrite Nat.sub_succ, Nat.sub_0_r. destruct (stream_cons i ltac:(lia)) as (r & Hs & ->). rewrite Hs. simpl tail. simpl length.
  by rewrite Nat.sub_succ, Nat.sub_0_r, take_ge by lia.
Qed.
Lemma msgs_lt k m x : stream k !! m = Some x -> msgs k !! m = Some x.
Proof. intros H. by apply lookup_app_l_Some. Qed.
Lemma msgs_last k : msgs k !! slen k = Some (-1).
Proof. unfold msgs, slen. by rewrite lookup_app_r, Nat.sub_diag. Qed.
(** The next number: dropped, to be passed on, or the end. *)
Lemma read_next cs s i r p d : inv cs s -> cs !! i = Some (CLoop r) -> us_procs s !! i = Some p -> rep i (CLoop r) p -> cs !! (i - 1)%nat = Some d -> (r < wr (i - 1) d)%nat -> goes cs i s.
Proof.
  intros I Hi Hp R Hd Hw. pose proof (proj1 I) as V. pose proof (v_ok _ V _ _ Hi) as (Hlast & Hi1 & Hr). pose proof (v_len _ V) as Hl. pose proof (stream_length (i - 1)) as Hsl. fold (slen (i - 1)) in Hsl.
  destruct (pred_piped _ _ _ V Hi Hi1) as (d' & Hd' & Hpi & _). rewrite Hd in Hd'. injection Hd' as <-. pose proof (fds_read_mid i ltac:(lia)) as Hfd.
  assert (Hst : state_of junk i (CLoop r) = Run (pass (S (FUEL - i - (S r - 1))) (hd_of (i - 1)) (result junk i r) (pr (i - 1)) (pr i))) by (cbn [state_of prog_of]; by rewrite fuel_S by lia).
  destruct (decide (r = slen (i - 1))) as [->|Hne].
  - eapply (step_read cs s i _ p _ _ d (-1) CEnd I Hi Hp R Hst); try done; [apply msgs_last|cbn [wr]; by rewrite passed_all by lia|intros _; cbn [wr]; by rewrite passed_all by lia|simpl; lia].
  - destruct (lookup_lt_is_Some_2 (stream (i - 1)) r) as [v Hv]; [unfold slen in *; lia|]. pose proof (msgs_lt _ _ _ Hv) as Hm. assert (Hx : 2 <= v <= 34) by (by eapply stream_sub, list_elem_of_lookup_2).
    pose proof (passed_S i r v ltac:(lia) Hv) as Hps. assert (Hres : result junk i (S r) = v) by (unfold result; rewrite decide_False by lia; rewrite Nat.sub_succ, Nat.sub_0_r; by apply nth_lookup_Some).
    destruct (decide (ndiv (hd_of (i - 1)) v)) as [Hnd|Hnd].
    + eapply (step_read cs s i _ p _ _ d v (CPass (S r)) I Hi Hp R Hst); try done.
      * cbn [state_of prog_of]. rewrite read_int_bytes by lia. replace (v =? -1) with false by lia. cbn [negb andb Z.eqb]. replace (Z.rem v (hd_of (i - 1)) =? 0) with false by (unfold ndiv in Hnd; lia). cbn [negb]. by rewrite Hres.
      * split; [lia|]. rewrite Nat.sub_succ, Nat.sub_0_r. by rewrite (nth_lookup_Some _ _ _ _ Hv).
      * cbn [wr]. rewrite Nat.sub_succ, Nat.sub_0_r. lia.
      * intros _. cbn [wr]. by rewrite Nat.sub_succ, Nat.sub_0_r.
      * cbn [own]. lia.
    + rewrite app_nil_r in Hps. eapply (step_read cs s i _ p _ _ d v (CLoop (S r)) I Hi Hp R Hst); try done.
      * cbn [state_of prog_of]. rewrite read_int_bytes by lia. replace (v =? -1) with false by lia. cbn [negb andb Z.eqb]. unfold ndiv in Hnd. assert (Hz : Z.rem v (hd_of (i - 1)) = 0) by (destruct (decide (Z.rem v (hd_of (i - 1)) = 0)); [done|by exfalso]).
        rewrite Hz. cbn [negb Z.eqb]. by rewrite Hres.
      * simpl. lia.
      * cbn [wr]. by rewrite Hps.
      * intros _. cbn [wr]. by rewrite Hps.
      * cbn [own]. lia.
Qed.
Lemma filter_at {A} (P : A -> Prop) `{!forall x, Decision (P x)} (l : list A) k v : l !! k = Some v -> P v -> filter P l !! length (filter P (take k l)) = Some v.
Proof.
  intros Hk Hv. replace (filter P l) with (filter P (take k l ++ v :: drop (S k) l)) by (by rewrite take_drop_middle). rewrite filter_app, lookup_app_r, Nat.sub_diag by lia. by rewrite filter_cons_True.
Qed.
Lemma write_number cs s i r p : inv cs s -> cs !! i = Some (CPass r) -> us_procs s !! i = Some p -> rep i (CPass r) p -> goes cs i s.
Proof.
  intros I Hi Hp R. pose proof (proj1 I) as V. pose proof (v_ok _ V _ _ Hi) as ((Hlast & Hi1 & Hr) & Hnd). pose proof (v_len _ V) as Hl.
  destruct (fds_close_w i ltac:(lia)) as [Hfd _]. destruct (lookup_lt_is_Some_2 (stream (i - 1)) (r - 1)) as [v Hv]; [unfold slen in *; lia|]. rewrite (nth_lookup_Some _ _ _ _ Hv) in Hnd.
  assert (Hres : result junk i r = v) by (unfold result; rewrite decide_False by lia; by apply nth_lookup_Some).
  pose proof (passed_S i (r - 1) v ltac:(lia) Hv) as Hps. rewrite decide_True in Hps by done. replace (S (r - 1)) with r in Hps by lia.
  eapply (step_write cs s i _ p (wfd i) _ v (CLoop r) I Hi Hp R); try done.
  - cbn [state_of prog_of]. by rewrite Hres.
  - apply msgs_lt. cbn [wr]. destruct i as [|i]; [lia|]. unfold passed. rewrite Nat.sub_succ, Nat.sub_0_r in *. destruct (stream_cons i ltac:(lia)) as (t & Hs & ->). rewrite Hs in Hv |- *. simpl tail.
    apply filter_at; [|done]. destruct r as [|[|r]]; [lia|lia|]. simpl in Hv |- *. by rewrite Nat.sub_0_r.
  - cbn [state_of prog_of]. by rewrite Hres.
  - simpl. lia.
  - cbn [wr]. rewrite Hps, length_app. simpl. lia.
  - cbn [own]. lia.
Qed.
Lemma write_end cs s i p : inv cs s -> cs !! i = Some CEnd -> us_procs s !! i = Some p -> rep i CEnd p -> goes cs i s.
Proof.
  intros I Hi Hp R. pose proof (v_ok _ (proj1 I) _ _ Hi) as (Hlast & Hi1). pose proof (v_len _ (proj1 I)) as Hl. destruct (fds_close_w i ltac:(lia)) as [Hfd _].
  eapply (step_write cs s i _ p (wfd i) _ (-1) CCloseW I Hi Hp R); try done; [apply msgs_last|simpl; lia].
Qed.
Lemma numbers_drop w : (w < 33)%nat -> drop w numbers = (2 + Z.of_nat w) :: drop (S w) numbers.
Proof. intros Hw. apply drop_S. unfold numbers. apply lookup_seqZ. lia. Qed.
Lemma write_main cs s i w p : inv cs s -> cs !! i = Some (CSend w) -> us_procs s !! i = Some p -> rep i (CSend w) p -> goes cs i s.
Proof.
  intros I Hi Hp R. pose proof (v_ok _ (proj1 I) _ _ Hi) as (Hlast & -> & Hw). destruct (decide (w = 33)%nat) as [->|Hne].
  - eapply (step_write cs s 0 _ p (wfd 0) _ (-1) CCloseW I Hi Hp R); try done; [lia|simpl; lia].
  - assert (Hm : msgs 0 !! w = Some (2 + Z.of_nat w)) by (apply msgs_lt; simpl; unfold numbers; apply lookup_seqZ; lia).
    eapply (step_write cs s 0 _ p (wfd 0) (fun _ => send_rest (drop (S w) numbers)) _ (CSend (S w)) I Hi Hp R); try done; [cbn [state_of prog_of]; by rewrite numbers_drop by lia|simpl; lia|simpl; lia].
Qed.

(** ** Every process goes on or waits for another one *)

Definition reading (c : cst) : Prop := match c with CRead | CLoop _ => True | _ => False end.
Lemma step_start cs s i p : inv cs s -> cs !! i = Some CStart -> us_procs s !! i = Some p -> rep i CStart p -> goes cs i s.
Proof.
  intros I Hi Hp R. pose proof (v_ok _ (proj1 I) _ _ Hi) as Hok. pose proof (v_len _ (proj1 I)) as Hl. simpl in Hok. destruct (fds_start i ltac:(lia)) as [[e He] Hc].
  destruct i as [|[|i]]; [lia|..]; rewrite ?Nat.sub_succ, ?Nat.sub_0_r in *.
  - eapply (step_close cs s 1 CStart p (wfd 0) _ e CRead I Hi Hp R); try done. simpl. lia.
  - eapply (step_close cs s (S (S i)) CStart p (rfd i) _ e CRead I Hi Hp R); try done; [..|simpl; lia]; replace (rfd i) with (start_fd (S (S i))) by (unfold start_fd; f_equal; lia); done.
Qed.
Lemma step_closer cs s i p : inv cs s -> cs !! i = Some CClose -> us_procs s !! i = Some p -> rep i CClose p -> goes cs i s.
Proof.
  intros I Hi Hp R. pose proof (v_ok _ (proj1 I) _ _ Hi) as Hok. pose proof (v_len _ (proj1 I)) as Hl. simpl in Hok. destruct (fds_close_r i ltac:(lia)) as [He Hc]. destruct i as [|i].
  - eapply (step_close cs s 0 CClose p (rfd 0) _ _ (CSend 0) I Hi Hp R); try done; [simpl; lia|lia|simpl; lia].
  - eapply (step_close cs s (S i) CClose p (rfd (S i)) _ _ (CLoop 1) I Hi Hp R); try done; [cbn [state_of prog_of]; rewrite !Nat.sub_succ, !Nat.sub_0_r; done| |simpl; lia]. simpl. rewrite Nat.sub_0_r. pose proof (stream_lt i ltac:(lia)) as Hne. unfold slen.
    destruct (stream i); simpl; [done|lia].
Qed.
Lemma step_closew cs s i p : inv cs s -> cs !! i = Some CCloseW -> us_procs s !! i = Some p -> rep i CCloseW p -> goes cs i s.
Proof.
  intros I Hi Hp R. pose proof (v_ok _ (proj1 I) _ _ Hi) as Hok. pose proof (v_len _ (proj1 I)) as Hl. simpl in Hok. destruct (fds_close_w i ltac:(lia)) as [He Hc].
  eapply (step_close cs s i CCloseW p (wfd i) _ _ CWait I Hi Hp R); try done. simpl. lia.
Qed.
(** Each position: a step, or the reason why there is none. *)
Lemma position_step cs s i c : inv cs s -> cs !! i = Some c ->
  goes cs i s \/ ustep i s = None /\ (~ live c \/
    reading c /\ (1 <= i)%nat /\ (exists d, cs !! (i - 1)%nat = Some d /\ (wr (i - 1) d <= slen (i - 1))%nat /\ piped (i - 1) d = true) \/
    c = CWait /\ cs !! S i <> Some CZombie).
Proof.
  intros I Hi. destruct (lookup_lt_is_Some_2 (us_procs s) i) as [p Hp]; [rewrite (inv_len _ _ (proj2 I)); by eapply lookup_lt_Some|].
  pose proof (inv_proc _ _ (proj2 I) _ _ _ Hi Hp) as R. pose proof (proj1 I) as V. pose proof (v_ok _ V _ _ Hi) as Hok. pose proof (v_len _ V) as Hl.
  destruct c as [| |[|ch x]| | |r|r|w| | | | | |]; [left; by eapply step_start| |left; by eapply step_pipe|left; by eapply step_print|left; by eapply step_fork|left; by eapply step_closer| |left; by eapply write_number|
    left; by eapply write_main|left; by eapply write_end|left; by eapply step_closew| |left; by eapply step_exit| |].
  - simpl in Hok. destruct (pred_piped _ _ _ V Hi ltac:(lia)) as (d & Hd & Hpd & Hrd). destruct (decide (0 < wr (i - 1) d)%nat) as [Hw|Hw]; [left; by eapply read_first|].
    right. split; [|right; left; split; [done|]; split; [lia|]; exists d; split; [done|]; split; [lia|done]]. eapply (step_blocked cs s i CRead d p (rfd (i - 1)) 4); try done; [|lia|apply fds_read; lia|simpl; lia|simpl; lia].
    cbn [state_of prog_of]. replace (FUEL - (i - 1))%nat with (S (FUEL - i)) by (unfold FUEL; lia). reflexivity.
  - simpl in Hok. destruct (pred_piped _ _ _ V Hi ltac:(lia)) as (d & Hd & Hpd & Hrd). simpl in Hrd. destruct (decide (r < wr (i - 1) d)%nat) as [Hw|Hw]; [left; by eapply read_next|].
    right. split; [|right; left; split; [done|]; split; [lia|]; exists d; split; [done|]; split; [lia|done]]. pose proof (stream_length (i - 1)) as Hsl. fold (slen (i - 1)) in Hsl.
    eapply (step_blocked cs s i (CLoop r) d p (rfd (i - 1)) 4); try done; [|lia|apply fds_read_mid; lia|simpl; lia|simpl; lia]. cbn [state_of prog_of]. rewrite fuel_S by lia. reflexivity.
  - pose proof (step_wait cs s i p I Hi Hp R) as Hw. case_decide; [by left|]. right. split; [done|]. by right; right.
  - right. destruct R as (_ & R2 & _). split; [unfold ustep; by rewrite Hp, R2|]. left. by intros [].
  - right. destruct R as (_ & R2 & _). split; [unfold ustep; by rewrite Hp, R2|]. left. by intros [].
Qed.
(** A process that waits for a number: the one before it can go on, or waits
    for a number itself. *)
Lemma reading_goes cs s : inv cs s -> forall i c, cs !! i = Some c -> piped i c = true -> (wr i c <= slen i)%nat -> exists j, goes cs j s.
Proof.
  intros I. induction i as [|i IH]; intros c Hi Hpi Hw.
  - destruct (position_step cs s 0 c I Hi) as [H|[_ [H|[(_ & H & _)|[-> _]]]]]; [by exists 0%nat| |lia|simpl in Hw; lia]. destruct c; simpl in *; try done; try lia.
  - destruct (position_step cs s (S i) c I Hi) as [H|[_ [H|[(_ & _ & d & Hd & Hwd & Hpd)|[-> _]]]]]; [by exists (S i)| | |simpl in Hw; lia].
    + destruct c; simpl in *; try done; lia.
    + rewrite Nat.sub_succ, Nat.sub_0_r in *. by apply (IH d).
Qed.
Lemma some_goes cs s : inv cs s -> (exists j, goes cs j s) \/ Forall (fun c => ~ live c) cs.
Proof.
  intros I. assert (H : forall k, (k <= length cs)%nat -> (exists j, goes cs j s) \/ Forall (fun c => ~ live c) (drop (length cs - k) cs)).
  { induction k as [|k IH]; intros Hk; [right; by rewrite Nat.sub_0_r, drop_all|]. destruct (IH ltac:(lia)) as [?|Hd]; [by left|].
    set (i := (length cs - S k)%nat). destruct (lookup_lt_is_Some_2 cs i) as [c Hi]; [lia|]. replace (length cs - k)%nat with (S i) in Hd by lia.
    rewrite (drop_S _ _ _ Hi). destruct (position_step cs s i c I Hi) as [Hg|[_ [Hn|[(_ & Hi1 & d & Hd' & Hw & Hp)|[-> Hz]]]]]; [left; by exists i|right; by constructor|left; by apply (reading_goes cs s I (i - 1) d)|].
    exfalso. pose proof (v_ok _ (proj1 I) _ _ Hi) as Hlast. simpl in Hlast. destruct (lookup_lt_is_Some_2 cs (S i) Hlast) as [d Hd']. rewrite (drop_S _ _ _ Hd') in Hd. apply Forall_cons in Hd as [Hd _].
    pose proof (v_wait _ (proj1 I) _ _ _ Hi Hd') as Hw. destruct d; simpl in Hd; try tauto. by pose proof (proj1 Hw eq_refl). }
  destruct (H (length cs)) as [?|Hf]; [lia|by left|]. right. by rewrite Nat.sub_diag in Hf.
Qed.

(** ** All have exited *)

Lemma done_cs cs : valid cs -> Forall (fun c => ~ live c) cs -> cs = CZombie :: replicate 12 CReaped.
Proof.
  intros V Hd. rewrite Forall_lookup in Hd. pose proof (v_len _ V) as Hl. assert (Hw : forall i c, cs !! i = Some c -> waited c = true) by (intros i c Hi; specialize (Hd i c Hi); destruct c; simpl in *; tauto).
  assert (Hlen : length cs = 13%nat).
  { destruct (lookup_lt_is_Some_2 cs (length cs - 1)) as [c Hc]; [lia|]. pose proof (v_ok _ V _ _ Hc) as Hok. specialize (Hd _ _ Hc). destruct c; simpl in Hd, Hok; try tauto; lia. }
  apply (list_eq_same_length _ _ 13); [by rewrite length_cons, length_replicate|done|]. intros [|i] c d Hi Hc Hcd.
  - injection Hcd as <-. specialize (Hd _ _ Hc). pose proof (v_main _ V). by destruct c; simpl in Hd; try tauto.
  - cbn [lookup] in Hcd. change (replicate 12 CReaped !! i = Some d) in Hcd. apply lookup_replicate in Hcd as [-> _]. destruct (lookup_lt_is_Some_2 cs i) as [e He]; [lia|].
    apply (v_wait _ V _ _ _ He Hc). by apply (Hw i).
Qed.
Definition prime_lines : list Z :=
  concat ((fun p => line ("prime " +:+ pretty p)) <$> filter (fun p => Forall (fun d => p mod d <> 0) (seqZ 2 (p - 2))) (seqZ 2 33)).
Lemma done_state cs s : inv cs s -> Forall (fun c => ~ live c) cs -> us_out s = prime_lines /\ Forall finished (us_procs s).
Proof.
  intros I Hd. pose proof (done_cs _ (proj1 I) Hd) as ->. destruct I as [V I]. split.
  - rewrite (inv_out _ _ I). vm_compute. reflexivity.
  - apply Forall_lookup. intros i p Hp. destruct (lookup_lt_is_Some_2 (CZombie :: replicate 12 CReaped) i) as [c Hc]; [rewrite <- (inv_len _ _ I); by eapply lookup_lt_Some|].
    destruct (inv_proc _ _ I _ _ _ Hc Hp) as (_ & R2 & _). unfold finished. rewrite R2. destruct i as [|i]; [by injection Hc as <-|]. simpl in Hc. change (replicate 12 CReaped !! i = Some c) in Hc.
    by apply lookup_replicate in Hc as [-> _].
Qed.
Lemma inv_start : inv [CPrint []] (start (main junk) []).
Proof.
  split; split; try done.
  - simpl. lia.
  - intros [|i] c Hc; [|done]. injection Hc as <-. split; [simpl; lia|by exists []].
  - intros [|i] c p Hc Hp; [|done]. injection Hc as <-. injection Hp as <-. split; [done|]. by split.
  - intros [|i] c Hc; [|done]. by injection Hc as <-.
  - simpl. lia.
Qed.
Lemma inv_steps n s : usteps n (start (main junk) []) s -> exists cs, inv cs s /\ (n + meas cs <= meas [CPrint []])%nat.
Proof.
  intros H. remember (start (main junk) []) as s0 eqn:E. induction H as [s|n s s1 s2 i _ IH Hst]; subst.
  - exists [CPrint []]. split; [apply inv_start|lia].
  - destruct (IH eq_refl) as (cs & I & Hm). destruct (cs !! i) as [c|] eqn:Hi.
    + destruct (position_step cs s1 i c I Hi) as [(s' & cs' & Hs' & I' & Hm')|[Hn _]]; [|congruence]. rewrite Hst in Hs'. injection Hs' as <-. exists cs'. split; [done|lia].
    + unfold ustep in Hst. rewrite (proj2 (lookup_ge_None (us_procs s1) i)) in Hst; [done|]. rewrite (inv_len _ _ (proj2 I)). by apply lookup_ge_None.
Qed.

(** C15: the program primes prints the primes up to 34 and ends, whatever the
    order in which its processes run and whatever is in its uninitialised
    variables.  A run has at most 2550 system calls.  In every state that a
    run reaches, some process can go on (no deadlock), or all the processes
    have exited with status 0 and the output is the line of each prime, in
    order.  In particular no process of the chain runs out of descriptors. *)
Theorem primes_correct n s : usteps n (start (main junk) []) s ->
  (n <= 2550)%nat /\ ((exists i s', ustep i s = Some s') \/ us_out s = prime_lines /\ Forall finished (us_procs s)).
Proof.
  intros H. destruct (inv_steps n s H) as (cs & I & Hm). split; [change (meas [CPrint []]) with 2550%nat in Hm; lia|].
  destruct (some_goes cs s I) as [(j & s' & _ & Hs & _)|Hd]; [left; by exists j, s'|right; by apply (done_state cs)].
Qed.
End Invariant.

(** ** A run *)

Module PrimesExample.
#[local] Instance no_files : Uenv := {| u_open := fun _ _ => None; u_exec := fun _ _ => None; u_call := fun _ => -1 |}.
Definition state1 : usys := default (start (main 7) []) (ustep 0 (start (main 7) [])).
Lemma primes_correct_witness : (1 <= 2550)%nat /\ ((exists i s', ustep i state1 = Some s') \/ us_out state1 = prime_lines /\ Forall finished (us_procs state1)).
Proof. apply (primes_correct 7 1 state1). apply (us_step 0 _ (start (main 7) []) _ 0); [constructor|reflexivity]. Defined.

(** The chain keeps the write ends of all its pipes open: a twelfth prime
    would find no second descriptor. *)
Example chain_limit : exists f, fdalloc (fds_pre 12) (PipeR 12) = Some (3, f) /\ fdalloc f (PipeW 12) = None.
Proof. eexists. split; vm_compute; reflexivity. Qed.

(** The processes in turn, until none can go on. *)
Fixpoint in_turn (fuel i idle : nat) (s : usys) : option usys :=
  match fuel with
  | O => None
  | S fuel' =>
      if (length (us_procs s) <? idle)%nat then Some s
      else match ustep i s with
           | Some s' => in_turn fuel' (S i mod length (us_procs s')) 0 s'
           | None => in_turn fuel' (S i mod length (us_procs s)) (S idle) s
           end
  end.
Example primes_run : exists s, in_turn 3000 0 0 (start (main 7) []) = Some s /\ us_out s = prime_lines.
Proof. eexists. split; vm_compute; reflexivity. Qed.
End PrimesExample.
