(* ===== verification/Upgms.v ===== *)
(** * The user programs of user/*.c that are sequences of system calls

    Each program is a [Module] with its [main]; [argv] are the arguments after
    the name of the program.  Strings are the bytes before the null; copying a
    string into an array that is too short is [Undefined].  Loops that the program does not bound have a fuel. *)

From S2P Require Import Prelude Uprog Uprintf.

(** ** user/ulib.c *)

Definition str_eqb (a b : list Z) : bool := bool_decide (a = b).
(** The bytes up to the first null. *)
Fixpoint cstr (l : list Z) : list Z := match l with [] => [] | c :: l' => if c =? 0 then [] else c :: cstr l' end.
Fixpoint atoi_loop (n : Z) (s : list Z) : Z :=
  match s with c :: s' => if (48 <=? c) && (c <=? 57) then atoi_loop (i32 (n * 10 + c - 48)) s' else n | [] => n end.
Definition atoi (s : list Z) : Z := atoi_loop 0 s.
(** [gets]: characters up to a newline. *)
Fixpoint gets_loop (max : nat) (buf : list Z) (k : list Z -> prog) : prog :=
  match max with
  | O => k buf
  | S max' =>
      Read 0 1 (fun cc bs =>
      if cc <? 1 then k buf else
      let c := hd 0 bs in
      if (c =? 10) || (c =? 13) then k (buf ++ [c]) else gets_loop max' (buf ++ [c]) k)
  end.
Definition gets (max : Z) (k : list Z -> prog) : prog := gets_loop (Z.to_nat (max - 1)) [] k.
Definition open (path : list Z) (mode : Z) (k : Z -> prog) : prog := Call (Open path mode) k.
Definition stat (n : list Z) (k : option ustat -> prog) : prog :=
  open n 0 (fun fd => if fd <? 0 then k None else Fstat fd (fun r => Close fd (fun _ => k r))).

(** ** Programs that work through their arguments *)

Module Echo.
Fixpoint words (argv : list (list Z)) : prog :=
  match argv with
  | [] => Exit 0
  | a :: rest =>
      write 1 a (fun _ =>
      match rest with
      | [] => write 1 [10] (fun _ => words rest)
      | _ => write 1 [32] (fun _ => words rest)
      end)
  end.
Definition main (argv : list (list Z)) : prog := words argv.
End Echo.

Module Cat.
Fixpoint cat (fuel : nat) (fd : Z) (k : prog) : prog :=
  match fuel with
  | O => OutOfFuel
  | S fuel' =>
      Read fd 512 (fun n buf =>
      if 0 <? n then
        write 1 (take (Z.to_nat n) buf) (fun w =>
        if negb (w =? n) then fprintf 2 (line "cat: write error") [] (Exit 1)
        else cat fuel' fd k)
      else if n <? 0 then fprintf 2 (line "cat: read error") [] (Exit 1)
      else k)
  end.
Fixpoint files (fuel : nat) (argv : list (list Z)) : prog :=
  match argv with
  | [] => Exit 0
  | a :: rest =>
      open a 0 (fun fd =>
      if fd <? 0 then fprintf 2 (line "cat: cannot open %s") [UStr (Some a)] (Exit 1)
      else cat fuel fd (Close fd (fun _ => files fuel rest)))
  end.
Definition main (fuel : nat) (argv : list (list Z)) : prog :=
  match argv with [] => cat fuel 0 (Exit 0) | _ => files fuel argv end.
End Cat.

Module Wc.
Record counts := Counts { l : Z; w : Z; c : Z; inword : bool }.
Definition count (s : counts) (b : Z) : counts :=
  let nl := if b =? 10 then i32 (l s + 1) else l s in
  if bool_decide (b ∈ [32; 13; 9; 10; 11]) then Counts nl (w s) (i32 (c s + 1)) false
  else if negb (inword s) then Counts nl (i32 (w s + 1)) (i32 (c s + 1)) true
  else Counts nl (w s) (i32 (c s + 1)) true.
Fixpoint wc (fuel : nat) (fd : Z) (name : list Z) (s : counts) (k : prog) : prog :=
  match fuel with
  | O => OutOfFuel
  | S fuel' =>
      Read fd 512 (fun n buf =>
      if 0 <? n then wc fuel' fd name (foldl count s (take (Z.to_nat n) buf)) k
      else if n <? 0 then uprintf (line "wc: read error") [] (Exit 1)
      else uprintf (line "%d %d %d %s") [UInt (l s); UInt (w s); UInt (c s); UStr (Some name)] k)
  end.
Definition counts0 : counts := Counts 0 0 0 false.
Fixpoint files (fuel : nat) (argv : list (list Z)) : prog :=
  match argv with
  | [] => Exit 0
  | a :: rest =>
      open a 0 (fun fd =>
      if fd <? 0 then uprintf (line "wc: cannot open %s") [UStr (Some a)] (Exit 1)
      else wc fuel fd a counts0 (Close fd (fun _ => files fuel rest)))
  end.
Definition main (fuel : nat) (argv : list (list Z)) : prog :=
  match argv with [] => wc fuel 0 [] counts0 (Exit 0) | _ => files fuel argv end.
End Wc.

(** ** Directories *)

Definition T_DIR : Z := 1.
Definition DIRSIZ : Z := 14.
(** [sizeof(struct dirent)]; the two fields of an entry. *)
Definition DIRENT : Z := 16.
Definition de_inum (de : list Z) : Z := nth 0 de 0 + 256 * nth 1 de 0.
Definition de_name (de : list Z) : list Z := cstr (take 14 (drop 2 de)).
Definition len (s : list Z) : Z := Z.of_nat (length s).

Module Ls.
(** The characters after the last slash. *)
Definition base_name (path : list Z) : list Z := rev ((fix go l := match l with c :: l' => if c =? 47 then [] else c :: go l' | [] => [] end) (rev path)).
Definition fmtname (path : list Z) : list Z :=
  let p := base_name path in
  if DIRSIZ <=? len p then p else p ++ replicate (Z.to_nat (DIRSIZ - len p)) 32.
Definition stat_args (path : list Z) (st : ustat) (size : uarg) : list uarg :=
  [UStr (Some (fmtname path)); UInt (ust_type st); UInt (ust_ino st); size].
Fixpoint entries (fuel : nat) (fd : Z) (path : list Z) (k : prog) : prog :=
  match fuel with
  | O => OutOfFuel
  | S fuel' =>
      Read fd DIRENT (fun n de =>
      if negb (n =? DIRENT) then k
      else if de_inum de =? 0 then entries fuel' fd path k
      else
        let buf := path ++ [47] ++ de_name de in
        stat buf (fun r =>
        match r with
        | None => uprintf (line "ls: cannot stat %s") [UStr (Some buf)] (entries fuel' fd path k)
        | Some st => uprintf (line "%s %d %d %d") (stat_args buf st (UInt (ust_size st))) (entries fuel' fd path k)
        end))
  end.
Definition ls (fuel : nat) (path : list Z) (k : prog) : prog :=
  open path 0 (fun fd =>
  if fd <? 0 then fprintf 2 (line "ls: cannot open %s") [UStr (Some path)] k else
  Fstat fd (fun r =>
  match r with
  | None => fprintf 2 (line "ls: cannot stat %s") [UStr (Some path)] (Close fd (fun _ => k))
  | Some st =>
      let k := Close fd (fun _ => k) in
      if (ust_type st =? 3) || (ust_type st =? 2) then
        uprintf (line "%s %d %d %l") (stat_args path st (UPtr (ust_size st))) k
      else if ust_type st =? T_DIR then
        if 512 <? len path + 1 + DIRSIZ + 1 then uprintf (line "ls: path too long") [] k
        else entries fuel fd path k
      else k
  end)).
Fixpoint all (fuel : nat) (argv : list (list Z)) : prog :=
  match argv with [] => Exit 0 | a :: rest => ls fuel a (all fuel rest) end.
Definition main (fuel : nat) (argv : list (list Z)) : prog :=
  match argv with [] => ls fuel (chars ".") (Exit 0) | _ => all fuel argv end.
End Ls.

Module Find.
Section Find.
(** What is on the stack before the array that holds a path. *)
Context (under : list Z -> nat -> Z).
(** [strcmp(s + strlen(s) - n, t) == 0]: when [s] has less than [n] characters
    this reads before the array. *)
Definition tail_is (s : list Z) (n : nat) (t : list Z) : bool :=
  str_eqb (cstr ((under s <$> seq 0 (n - length s)) ++ drop (length s - n) s)) t.
(** The loop over a directory; [rec] is the recursive call. *)
Fixpoint find_entries (rec : list Z -> prog -> prog) (n : nat) (path : list Z) (fd : Z) (k : prog) : prog :=
  match n with
  | O => OutOfFuel
  | S n' =>
      Read fd DIRENT (fun r de =>
      if negb (r =? DIRENT) then k
      else if de_inum de =? 0 then find_entries rec n' path fd k
      else
        let buffer := path ++ [47] ++ de_name de in
        stat buffer (fun st =>
        match st with
        | None => uprintf (line "find: cannot stat %s") [UStr (Some buffer)] (find_entries rec n' path fd k)
        | Some _ =>
            if tail_is buffer 2 (chars "/.") || tail_is buffer 3 (chars "/..") then find_entries rec n' path fd k
            else rec buffer (find_entries rec n' path fd k)
        end))
  end.
(** [level] bounds the depth of the tree, [fuel] the entries of a directory. *)
Fixpoint find (level fuel : nat) (path target : list Z) (k : prog) : prog :=
  match level with
  | O => OutOfFuel
  | S level' =>
      open path 0 (fun fd =>
      if fd <? 0 then fprintf 2 (line "find: cannot open: %s") [UStr (Some path)] k else
      Fstat fd (fun r =>
      match r with
      | None => fprintf 2 (line "find: cannot stat %s") [UStr (Some path)] (Close fd (fun _ => k))
      | Some st =>
          let k := Close fd (fun _ => k) in
          if (ust_type st =? 3) || (ust_type st =? 2) then
            if tail_is path (length target) target then uprintf (line "%s") [UStr (Some path)] k else k
          else if ust_type st =? T_DIR then
            if 100 <? len path + 1 + DIRSIZ + 1 then uprintf (line "find: path too long") [] k
            else find_entries (fun b k => find level' fuel b target k) fuel path fd k
          else k
      end))
  end.
(** [path] and [target] are arrays of 15 characters. *)
Definition main (level fuel : nat) (argv : list (list Z)) : prog :=
  match argv with
  | a1 :: a2 :: _ =>
      if (15 <=? len a1) || (14 <=? len a2) then Undefined
      else find level fuel a1 (47 :: a2) (Exit 0)
  | _ => fprintf 2 (line "Usage: find path file_name") [] (Exit 1)
  end.
End Find.
End Find.

(** ** Others *)

Module SleepPgm.
Definition main (argv : list (list Z)) : prog :=
  match argv with
  | [] => fprintf 2 (line "Usage: sleep sleep_times") [] (Exit 1)
  | a :: _ => Call (Sleep (atoi a)) (fun _ => Exit 0)
  end.
End SleepPgm.

Module Pingpong.
Definition main : prog :=
  Pipe (fun r =>
  match r with
  | None => fprintf 2 (line "pipe error") [] (Exit 1)
  | Some pipefd =>
      Fork (fun pid =>
      if pid =? 0 then
        Read (fst pipefd) 1024 (fun _ _ =>
        Call Getpid (fun me =>
        fprintf 1 (line "%d: received ping") [UInt me] (
        write (snd pipefd) [99; 0] (fun _ => Exit 0))))
      else
        write (snd pipefd) [102; 0] (fun _ =>
        Read (fst pipefd) 1024 (fun _ _ =>
        Call Getpid (fun me =>
        fprintf 1 (line "%d: received pong") [UInt me] (
        Wait (fun _ _ => Exit 0))))))
  end).
End Pingpong.

Module MkdirPgm.
Fixpoint each (argv : list (list Z)) : prog :=
  match argv with
  | [] => Exit 0
  | a :: rest => Call (Mkdir a) (fun r => if r <? 0 then fprintf 2 (line "mkdir: %s failed to create") [UStr (Some a)] (Exit 0) else each rest)
  end.
Definition main (argv : list (list Z)) : prog :=
  match argv with [] => fprintf 2 (line "Usage: mkdir files...") [] (Exit 1) | _ => each argv end.
End MkdirPgm.

Module Rm.
Fixpoint each (argv : list (list Z)) : prog :=
  match argv with
  | [] => Exit 0
  | a :: rest => Call (Unlink a) (fun r => if r <? 0 then fprintf 2 (line "rm: %s failed to delete") [UStr (Some a)] (Exit 0) else each rest)
  end.
Definition main (argv : list (list Z)) : prog :=
  match argv with [] => fprintf 2 (line "Usage: rm files...") [] (Exit 1) | _ => each argv end.
End Rm.

Module Ln.
Definition main (argv : list (list Z)) : prog :=
  match argv with
  | [a; b] => Call (Link a b) (fun r => if r <? 0 then fprintf 2 (line "link %s %s: failed") [UStr (Some a); UStr (Some b)] (Exit 0) else Exit 0)
  | _ => fprintf 2 (line "Usage: ln old new") [] (Exit 1)
  end.
End Ln.

Module KillPgm.
Fixpoint each (argv : list (list Z)) : prog :=
  match argv with [] => Exit 0 | a :: rest => Call (Kill (atoi a)) (fun _ => each rest) end.
Definition main (argv : list (list Z)) : prog :=
  match argv with [] => fprintf 2 (line "usage: kill pid...") [] (Exit 1) | _ => each argv end.
End KillPgm.

Module ZombiePgm.
Definition main : prog := Fork (fun pid => if 0 <? pid then Call (Sleep 5) (fun _ => Exit 0) else Exit 0).
End ZombiePgm.

Module Init.
Definition O_RDWR : Z := 2.
Definition CONSOLE : Z := 1.
(** [inner]: waiting for the shell; [outer]: starting it again. *)
Fixpoint reap (fuel : nat) (pid : Z) (k : prog) : prog :=
  match fuel with
  | O => OutOfFuel
  | S fuel' =>
      Wait (fun wpid _ =>
      if wpid =? pid then k
      else if wpid <? 0 then uprintf (line "init: wait returned an error") [] (Exit 1)
      else reap fuel' pid k)
  end.
Fixpoint shells (fuel : nat) : prog :=
  match fuel with
  | O => OutOfFuel
  | S fuel' =>
      uprintf (line "init: starting sh") [] (
      Fork (fun pid =>
      if pid <? 0 then uprintf (line "init: fork failed") [] (Exit 1)
      else if pid =? 0 then Exec (chars "sh") [chars "sh"] (uprintf (line "init: exec sh failed") [] (Exit 1))
      else reap fuel' pid (shells fuel')))
  end.
Definition main (fuel : nat) : prog :=
  let dups := Call (Dup 0) (fun _ => Call (Dup 0) (fun _ => shells fuel)) in
  open (chars "console") O_RDWR (fun fd =>
  if fd <? 0 then Call (Mknod (chars "console") CONSOLE 0) (fun _ => open (chars "console") O_RDWR (fun _ => dups))
  else dups).
End Init.
