(* ===== verification/UpgmsSpec.v ===== *)
(** * User programs at work

    [find] prints exactly the files of a directory tree that have the given
    name; the runs of [pingpong] are all enumerated. *)

From S2P Require Import Prelude Uprog Uprintf Upgms.

(** ** Programs of one process *)

Section Alone.
Context `{UE : Uenv}.

(** Runs in which there is only one process. *)
Inductive solo : nat -> usys -> usys -> Prop :=
| solo_nil s : solo 0 s s
| solo_cons n s s1 s2 : length (us_procs s) = 1%nat -> ustep 0 s = Some s1 -> solo n s1 s2 -> solo (S n) s s2.
Definition reach (s s' : usys) : Prop := exists n, solo n s s'.
Lemma reach_refl s : reach s s.
Proof. exists 0%nat. constructor. Qed.
Lemma reach_step s s1 s2 : length (us_procs s) = 1%nat -> ustep 0 s = Some s1 -> reach s1 s2 -> reach s s2.
Proof. intros Hl Hs [n H]. exists (S n). by eapply solo_cons. Qed.

(** Such a run is the only one. *)
Lemma usteps_cons i n s s1 s2 : ustep i s = Some s1 -> usteps n s1 s2 -> usteps (S n) s s2.
Proof. intros Hs H. induction H as [s'|n s' s3 s4 j _ IH Hj]; [by apply (us_step 0 s s s' i); [constructor|]|]. by apply (us_step (S n) s s3 s4 j); [apply IH|]. Qed.
Lemma solo_usteps n s s' : solo n s s' -> usteps n s s'.
Proof. induction 1 as [s|n s s1 s2 _ Hs _ IH]; [constructor|]. by eapply usteps_cons. Qed.
Lemma solo_only n s s' : solo n s s' -> (forall i, ustep i s' = None) -> forall m s1, usteps m s s1 -> (m <= n)%nat /\ solo (n - m) s1 s'.
Proof.
  intros Hsolo Hend m s1 H. revert s' n Hsolo Hend. induction H as [s0|m s0 s1 s2 i _ IH Hst]; intros s' n Hsolo Hend; [rewrite Nat.sub_0_r; split; [lia|done]|].
  destruct (IH s' n Hsolo Hend) as [Hle Hs1]. inversion Hs1 as [sx En|k sx sy sz Hlen Hs Hrest Ek]; subst; [by rewrite Hend in Hst|]. assert (i = 0%nat) as ->.
  { unfold ustep in Hst. destruct (us_procs s1 !! i) eqn:E; [|done]. apply lookup_lt_Some in E. lia. }
  rewrite Hs in Hst. injection Hst as <-. split; [lia|]. by replace (n - S m)%nat with k by lia.
Qed.

(** A process by itself: its descriptors, its open files, its output. *)
Definition alone (fds : fdtable) (files : list ufile) (out inp : list Z) (pg : prog) : usys :=
  USys [UProc None fds (Run pg)] [] out files inp.

Lemma r_write fds files out inp fd bs n k s : fdget fds fd = Some Console -> reach (alone fds files (out ++ bs) inp (k n)) s ->
  reach (alone fds files out inp (Write fd bs n k)) s.
Proof. intros Hf H. eapply reach_step; [done| |exact H]. unfold ustep, sys_write. cbn. by rewrite Hf. Qed.
Lemma r_putcs fds files out inp fd cs k s : fdget fds fd = Some Console -> Forall (fun c => u8 c = c) cs -> reach (alone fds files (out ++ cs) inp k) s ->
  reach (alone fds files out inp (putcs fd cs k)) s.
Proof.
  intros Hf Hc. revert out. induction Hc as [|c cs Hu _ IH]; intros out H; simpl; [by rewrite app_nil_r in H|]. apply (r_write _ _ _ _ fd [u8 c]); [done|].
  apply IH. rewrite Hu, <- app_assoc. done.
Qed.
Lemma r_open fds files out inp path mode k s nd fd f : u_open path mode = Some nd -> fdalloc fds (OpenFile (length files)) = Some (fd, f) ->
  reach (alone f (files ++ [UFile path mode nd 0]) out inp (k fd)) s -> reach (alone fds files out inp (open path mode k)) s.
Proof. intros Hn Hf H. eapply reach_step; [done| |exact H]. unfold ustep, sys_call, sys_open. cbn. rewrite Hn. simpl. by rewrite Hf. Qed.
Lemma r_fstat fds files out inp fd f path mode nd off k s : fdget fds fd = Some (OpenFile f) -> files !! f = Some (UFile path mode nd off) ->
  reach (alone fds files out inp (k (Some (un_stat nd)))) s -> reach (alone fds files out inp (Fstat fd k)) s.
Proof. intros Hf Hn H. eapply reach_step; [done| |exact H]. unfold ustep, sys_fstat. cbn. rewrite Hf, Hn. done. Qed.
Lemma r_close fds files out inp fd e k s : fdget fds fd = Some e -> reach (alone (fdclose fds fd) files out inp (k 0)) s -> reach (alone fds files out inp (Close fd k)) s.
Proof. intros Hf H. eapply reach_step; [done| |exact H]. unfold ustep, sys_close. cbn. by rewrite Hf. Qed.
Lemma r_read fds files out inp fd f path mode nd off n k s : fdget fds fd = Some (OpenFile f) -> files !! f = Some (UFile path mode nd off) -> readable mode = true ->
  let bs := take (Z.to_nat n) (drop off (un_data nd)) in
  reach (alone fds (<[f := UFile path mode nd (off + length bs)]> files) out inp (k (Z.of_nat (length bs)) bs)) s -> reach (alone fds files out inp (Read fd n k)) s.
Proof. intros Hf Hn Hr bs H. eapply reach_step; [done| |exact H]. unfold ustep, sys_read. cbn. rewrite Hf, Hn, Hr. done. Qed.
Lemma r_exit fds files out inp st s : reach (USys [UProc None (replicate NOFILE None) (Zombie st)] [] out files inp) s -> reach (alone fds files out inp (Exit st)) s.
Proof. intros H. eapply reach_step; [done| |exact H]. done. Qed.

(** A descriptor that is opened and closed. *)
Definition nfree (fds : fdtable) : nat := foldr (fun e n => match e with None => S n | Some _ => n end) 0%nat fds.
Lemma fdalloc_some fds e : (0 < nfree fds)%nat -> exists fd f, fdalloc fds e = Some (fd, f).
Proof.
  unfold nfree. induction fds as [|[x|] fds IH]; simpl; [lia| |eauto]. intros H. destruct (IH H) as (fd & f & ->). simpl. eauto.
Qed.
Lemma fdalloc_close fds e fd f : fdalloc fds e = Some (fd, f) -> 0 <= fd /\ fdget f fd = Some e /\ fdclose f fd = fds /\ nfree f = (nfree fds - 1)%nat /\
  (forall x d, fdget fds x = Some d -> fdget f x = Some d).
Proof.
  revert fd f. induction fds as [|[x|] fds IH]; intros fd f; simpl; [done| |].
  - destruct (fdalloc fds e) as [[fd' f']|] eqn:E; [|done]. simpl. intros [= <- <-]. destruct (IH _ _ eq_refl) as (H1 & H2 & H3 & H4 & H5).
    assert (Hn : Z.to_nat (fd' + 1) = S (Z.to_nat fd')) by lia. split; [lia|]. unfold fdget, fdclose in *. replace (fd' + 1 <? 0) with false by lia. replace (fd' <? 0) with false in H2 by lia.
    rewrite Hn. split; [done|]. split; [simpl; by rewrite H3|]. split; [exact H4|].
    intros y d. destruct (Z.ltb_spec y 0); [done|]. destruct (Z.to_nat y) as [|m] eqn:Ey; [done|]. simpl. specialize (H5 (y - 1) d). replace (y - 1 <? 0) with false in H5 by lia.
    replace (Z.to_nat (y - 1)) with m in H5 by lia. exact H5.
  - intros [= <- <-]. split; [lia|]. split; [done|]. split; [done|]. split; [simpl; fold (nfree fds); lia|].
    intros y d. unfold fdget. destruct (Z.ltb_spec y 0); [done|]. by destruct (Z.to_nat y).
Qed.
End Alone.

(** ** [find] *)

Section FindSpec.
Context `{UE : Uenv} (under : list Z -> nat -> Z).

Definition sub (p n : list Z) : list Z := p ++ [47] ++ n.
Definition isfile (nd : unode) : Prop := ust_type (un_stat nd) = 2 \/ ust_type (un_stat nd) = 3.
Definition isdir (nd : unode) : Prop := ust_type (un_stat nd) = T_DIR.
(** The entries of a directory; those that name a file or a directory below. *)
Definition dirents (d : list Z) : list (list Z) := (fun i => take 16 (drop (16 * i) d)) <$> seq 0 (length d / 16).
Definition dots : list (list Z) := [chars "."; chars ".."].
Definition child (e : list Z) : Prop := de_inum e <> 0 /\ de_name e ∉ dots.
#[export] Instance child_dec e : Decision (child e).
Proof. unfold child. apply _. Defined.
Definition plain_name (n : list Z) : Prop := n <> [] /\ 47 ∉ n /\ Forall (fun c => u8 c = c) n.

(** A tree of height at most [h], whose directories have less than [fuel]
    entries and whose paths fit the buffer. *)
Fixpoint ftree (h fuel : nat) (p : list Z) : Prop :=
  match h with
  | O => False
  | S h' =>
      exists nd, u_open p 0 = Some nd /\
        (isfile nd \/
         isdir nd /\ len p + 1 + DIRSIZ + 1 <= 100 /\ (length (dirents (un_data nd)) < fuel)%nat /\
         NoDup (de_name <$> filter child (dirents (un_data nd))) /\
         (forall e, e ∈ dirents (un_data nd) -> de_inum e <> 0 -> plain_name (de_name e) /\ is_Some (u_open (sub p (de_name e)) 0)) /\
         (forall e, e ∈ dirents (un_data nd) -> child e -> ftree h' fuel (sub p (de_name e))))
  end.
(** The files and directories below a path. *)
Inductive below : list Z -> list Z -> Prop :=
| below_refl p : below p p
| below_sub p nd e q : u_open p 0 = Some nd -> isdir nd -> e ∈ dirents (un_data nd) -> child e -> below (sub p (de_name e)) q -> below p q.
Definition file_at (q : list Z) : Prop := exists nd, u_open q 0 = Some nd /\ isfile nd.
(** The files below [p] named [t]. *)
Definition hit (p t q : list Z) : Prop := below p q /\ file_at q /\ exists d, q = sub d t.
Definition lines (l : list (list Z)) : list Z := concat ((fun q => q ++ [10]) <$> l).

(** The last characters of a path. *)
Lemma cstr_id l : 0 ∉ l -> cstr l = l.
Proof. induction l as [|c l IH]; [done|]. intros [H1 H2]%not_elem_of_cons. simpl. destruct (Z.eqb_spec c 0); [lia|]. by rewrite IH. Qed.
Lemma cstr_cut l t : cstr l = t -> length l = length t -> l = t.
Proof.
  revert t. induction l as [|c l IH]; intros t; simpl; [by destruct t|]. destruct (c =? 0); [by intros <-|]. intros <- H. simpl in H. injection H as H. f_equal. by apply IH.
Qed.
Lemma tail_is_spec s t : 47 ∈ s -> 47 ∉ t -> 0 ∉ s -> 0 ∉ t -> Find.tail_is under s (S (length t)) (47 :: t) = true <-> exists d, s = sub d t.
Proof.
  intros Hs Ht Hs0 Ht0. unfold Find.tail_is, str_eqb. rewrite bool_decide_eq_true. destruct (decide (S (length t) <= length s)%nat) as [Hle|Hgt].
  - replace (S (length t) - length s)%nat with 0%nat by lia. simpl. rewrite cstr_id by (rewrite <- (take_drop (length s - S (length t)) s), elem_of_app in Hs0; tauto). split.
    + intros E. exists (take (length s - S (length t)) s). unfold sub. simpl. by rewrite <- E, take_drop.
    + intros [d ->]. unfold sub. rewrite length_app. simpl. rewrite drop_app_length'; [done|lia].
  - split; [|intros [d ->]; unfold sub in Hgt; rewrite !length_app in Hgt; simpl in Hgt; lia]. intros E. exfalso. rewrite (proj2 (Nat.sub_0_le (length s) _)) in E by lia. rewrite drop_0 in E.
    apply cstr_cut in E; [|rewrite length_app, length_fmap, length_seq; simpl; lia].
    destruct (S (length t) - length s)%nat as [|m] eqn:Em; [lia|]. simpl in E. injection E as _ E. apply Ht. rewrite <- E. apply elem_of_app. by right.
Qed.

Lemma slash_cut a b x y : 47 ∉ a -> 47 ∉ b -> a ++ 47 :: x = b ++ 47 :: y -> a = b /\ x = y.
Proof.
  revert b. induction a as [|c a IH]; intros [|d b] Ha Hb H; simpl in H; [by injection H as ->|injection H as <- _; set_solver|injection H as -> _; set_solver|injection H as H1 H2]. apply not_elem_of_cons in Ha as [_ Ha], Hb as [_ Hb].
  destruct (IH b Ha Hb H2) as [-> ->]. by rewrite H1.
Qed.
Lemma sub_inj p d n m : 47 ∉ n -> 47 ∉ m -> sub p n = sub d m -> p = d /\ n = m.
Proof.
  intros Hn Hm H. apply (f_equal reverse) in H. unfold sub in H. rewrite !reverse_app in H. simpl in H. change (reverse [47]) with [47] in H. rewrite <- !app_assoc in H. simpl in H.
  apply slash_cut in H as [H1%(inj reverse) H2%(inj reverse)]; [done|by rewrite elem_of_reverse..].
Qed.
(** The test that keeps [find] from the entries . and .. *)
Lemma dots_spec p n : plain_name n -> 0 ∉ n -> 0 ∉ p ->
  Find.tail_is under (sub p n) 2 (chars "/.") || Find.tail_is under (sub p n) 3 (chars "/..") = true <-> n ∈ dots.
Proof.
  intros (Hne & Hs & _) H0 Hp0. assert (Hin : 47 ∈ sub p n) by (unfold sub; set_solver). assert (Hz : 0 ∉ sub p n) by (unfold sub; set_solver).
  assert (H1 : (47 ∉ chars ".") /\ (0 ∉ chars ".")) by (vm_compute; set_solver). assert (H2 : (47 ∉ chars "..") /\ (0 ∉ chars "..")) by (vm_compute; set_solver).
  pose proof (tail_is_spec (sub p n) (chars ".") ltac:(tauto) ltac:(tauto) ltac:(tauto) ltac:(tauto)) as E1. change (S (length (chars "."))) with 2%nat in E1. change (47 :: chars ".") with (chars "/.") in E1.
  pose proof (tail_is_spec (sub p n) (chars "..") ltac:(tauto) ltac:(tauto) ltac:(tauto) ltac:(tauto)) as E2. change (S (length (chars ".."))) with 3%nat in E2. change (47 :: chars "..") with (chars "/..") in E2.
  rewrite orb_true_iff, E1, E2. unfold dots. rewrite !elem_of_cons, elem_of_nil. split.
  - intros [[d E]|[d E]]; apply sub_inj in E as [_ ->]; tauto.
  - intros [->|[->|[]]]; [left|right]; by exists p.
Qed.
Lemma below_prefix p q : below p q -> q = p \/ exists r, q = sub p r.
Proof.
  induction 1 as [p|p nd e q _ _ _ _ _ [->|[r ->]]]; [by left|right; eauto|right]. exists (sub (de_name e) r). unfold sub. by rewrite <- !app_assoc.
Qed.
(** What is below one entry is not below another. *)
Lemma below_name p n m q : 47 ∉ n -> 47 ∉ m -> below (sub p n) q -> below (sub p m) q -> n = m.
Proof.
  intros Hn Hm H1%below_prefix H2%below_prefix. assert (Hc : forall a r, sub (sub p a) r = p ++ 47 :: (a ++ 47 :: r)) by (intros a r; unfold sub; by rewrite <- !app_assoc).
  assert (Hc0 : forall a, sub p a = p ++ 47 :: a) by done. destruct H1 as [->|[r ->]], H2 as [E|[r' E]]; rewrite ?Hc, ?Hc0 in E; apply app_inv_head in E; injection E as E.
  - done.
  - exfalso. apply Hn. rewrite E. set_solver.
  - exfalso. apply Hm. rewrite <- E. set_solver.
  - by apply slash_cut in E as [E _].
Qed.
Lemma hit_file p t nd q : u_open p 0 = Some nd -> isfile nd -> hit p t q <-> q = p /\ exists d, p = sub d t.
Proof.
  intros Hn Hf. split.
  - intros (Hb & _ & Hd). destruct Hb as [p|p nd' e q Hn' Hdir]; [done|]. rewrite Hn in Hn'. injection Hn' as <-. unfold isfile, isdir, T_DIR in *. lia.
  - intros [-> Hd]. split; [constructor|]. split; [by exists nd|done].
Qed.
Lemma hit_dir p t nd q : u_open p 0 = Some nd -> isdir nd -> hit p t q <-> exists e, e ∈ dirents (un_data nd) /\ child e /\ hit (sub p (de_name e)) t q.
Proof.
  intros Hn Hdir. split.
  - intros (Hb & (nq & Hq & Hf) & Hd). destruct Hb as [p|p nd' e q Hn' _ He Hc Hb]; [rewrite Hn in Hq; injection Hq as <-; unfold isfile, isdir, T_DIR in *; lia|].
    rewrite Hn in Hn'. injection Hn' as <-. exists e. split; [done|]. split; [done|]. split; [done|]. split; [by exists nq|done].
  - intros (e & He & Hc & Hb & Hf & Hd). split; [by eapply below_sub|]. by split.
Qed.

Lemma dirents_length d : length (dirents d) = (length d / 16)%nat.
Proof. unfold dirents. by rewrite length_fmap, length_seq. Qed.
Lemma dirents_at d i : (i < length (dirents d))%nat -> dirents d !! i = Some (take 16 (drop (16 * i) d)) /\ length (take 16 (drop (16 * i) d)) = 16%nat.
Proof.
  intros Hi. rewrite dirents_length in Hi. split.
  - unfold dirents. rewrite list_lookup_fmap, lookup_seq_lt by done. done.
  - rewrite length_take, length_drop. pose proof (Nat.div_mod_eq (length d) 16). lia.
Qed.
Lemma dirents_end d : (length (take 16 (drop (16 * length (dirents d)) d)) < 16)%nat.
Proof. rewrite dirents_length, length_take, length_drop. pose proof (Nat.div_mod_eq (length d) 16). pose proof (Nat.mod_upper_bound (length d) 16). lia. Qed.
Lemma de_name_no0 e : 0 ∉ de_name e.
Proof. unfold de_name. induction (take 14 (drop 2 e)) as [|c l IH]; simpl; [set_solver|]. destruct (Z.eqb_spec c 0); set_solver. Qed.
Lemma lines_app l1 l2 : lines (l1 ++ l2) = lines l1 ++ lines l2.
Proof. unfold lines. by rewrite fmap_app, concat_app. Qed.
Lemma print_path p k : uprintf (line "%s") [UStr (Some p)] k = putcs 1 (p ++ [10]) k.
Proof. unfold putcs. by rewrite foldr_app. Qed.
Lemma lookup_F {A} (F : list A) x R : (F ++ x :: R) !! length F = Some x.
Proof. by rewrite lookup_app_r, Nat.sub_diag. Qed.

Definition good_path (p : list Z) : Prop := Forall (fun c => u8 c = c) p /\ 0 ∉ p.
Lemma good_sub p n : good_path p -> plain_name n -> 0 ∉ n -> good_path (sub p n).
Proof. intros [H1 H2] (_ & _ & H3) H4. split; [apply Forall_app; split; [done|]; by constructor|]. unfold sub. set_solver. Qed.
(** What a call of [find] does. *)
Definition finds (h level fuel : nat) : Prop := forall p t fds files out inp k, ftree h fuel p -> (h < nfree fds)%nat -> fdget fds 1 = Some Console -> good_path p ->
  47 ∉ t -> 0 ∉ t -> (47 ∈ p \/ exists nd, u_open p 0 = Some nd /\ isdir nd) ->
  exists l files', NoDup l /\ (forall q, q ∈ l <-> hit p t q) /\
    forall s, reach (alone fds (files ++ files') (out ++ lines l) inp k) s -> reach (alone fds files out inp (Find.find under level fuel p (47 :: t) k)) s.

(** [stat] opens and closes. *)
Lemma r_stat fds files out inp path nd k s : u_open path 0 = Some nd -> (0 < nfree fds)%nat ->
  reach (alone fds (files ++ [UFile path 0 nd 0]) out inp (k (Some (un_stat nd)))) s -> reach (alone fds files out inp (stat path k)) s.
Proof.
  intros Hn Hf H. destruct (fdalloc_some fds (OpenFile (length files)) Hf) as (fd & f & Ha). pose proof (fdalloc_close _ _ _ _ Ha) as (H0 & Hg & Hc & _). eapply r_open; [done|exact Ha|].
  replace (fd <? 0) with false by lia. eapply r_fstat; [exact Hg|apply lookup_F|]. eapply r_close; [exact Hg|]. by rewrite Hc.
Qed.
Notation loop level fuel t n p fd k := (Find.find_entries under (fun b k => Find.find under level fuel b (47 :: t) k) n p fd k).
(** What the loop does with the entry [e] that it has read. *)
Definition after_entry (level fuel : nat) (t : list Z) (n : nat) (p : list Z) (fd : Z) (k : prog) (e : list Z) : prog :=
  if de_inum e =? 0 then loop level fuel t n p fd k
  else stat (sub p (de_name e)) (fun st =>
    match st with
    | None => uprintf (line "find: cannot stat %s") [UStr (Some (sub p (de_name e)))] (loop level fuel t n p fd k)
    | Some _ =>
        if Find.tail_is under (sub p (de_name e)) 2 (chars "/.") || Find.tail_is under (sub p (de_name e)) 3 (chars "/..") then loop level fuel t n p fd k
        else Find.find under level fuel (sub p (de_name e)) (47 :: t) (loop level fuel t n p fd k)
    end).
Lemma r_entry level fuel t n p fd k nd fds F R i out inp s : fdget fds fd = Some (OpenFile (length F)) -> length (take 16 (drop (16 * i) (un_data nd))) = 16%nat ->
  reach (alone fds (F ++ UFile p 0 nd (16 * S i) :: R) out inp (after_entry level fuel t n p fd k (take 16 (drop (16 * i) (un_data nd))))) s ->
  reach (alone fds (F ++ UFile p 0 nd (16 * i) :: R) out inp (loop level fuel t (S n) p fd k)) s.
Proof.
  intros Hg Hlen Hs. cbn [Find.find_entries]. eapply r_read; [exact Hg|apply lookup_F|done|]. rewrite insert_app_r_alt, Nat.sub_diag by lia. change (Z.to_nat DIRENT) with 16%nat. rewrite Hlen.
  replace (16 * i + 16)%nat with (16 * S i)%nat by lia. exact Hs.
Qed.
Lemma entries_ok h level fuel p t nd fds fd F inp : finds h level fuel -> u_open p 0 = Some nd -> good_path p -> 47 ∉ t -> 0 ∉ t ->
  fdget fds fd = Some (OpenFile (length F)) -> fdget fds 1 = Some Console -> (h < nfree fds)%nat ->
  (forall e, e ∈ dirents (un_data nd) -> de_inum e <> 0 -> plain_name (de_name e) /\ is_Some (u_open (sub p (de_name e)) 0)) ->
  (forall e, e ∈ dirents (un_data nd) -> child e -> ftree h fuel (sub p (de_name e))) ->
  forall m i n R out k, (i + m = length (dirents (un_data nd)))%nat -> (m < n)%nat -> NoDup (de_name <$> filter child (drop i (dirents (un_data nd)))) ->
  exists l R' off, NoDup l /\ (forall q, q ∈ l <-> exists e, e ∈ drop i (dirents (un_data nd)) /\ child e /\ hit (sub p (de_name e)) t q) /\
    forall s, reach (alone fds (F ++ UFile p 0 nd off :: R') (out ++ lines l) inp k) s ->
      reach (alone fds (F ++ UFile p 0 nd (16 * i) :: R) out inp (loop level fuel t n p fd k)) s.
Proof.
  intros Hrec Hn Hp Ht Ht0 Hg Hcon Hfree Hent Htree. set (D := dirents (un_data nd)). induction m as [|m IH]; intros i n R out k Hi Hm Hnd; (destruct n as [|n]; [lia|]).
  - assert (Hd : drop i D = []) by (apply drop_ge; lia). rewrite Hd. exists [], R, (16 * i + length (take 16 (drop (16 * i) (un_data nd))))%nat. split; [constructor|]. split; [intros q; split; [set_solver|intros (e & He & _); set_solver]|].
    intros s Hs. cbn [Find.find_entries]. eapply r_read; [exact Hg|apply lookup_F|done|]. rewrite insert_app_r_alt, Nat.sub_diag by lia. change (Z.to_nat DIRENT) with 16%nat.
    pose proof (dirents_end (un_data nd)) as Hend. fold D in Hend. replace (length D) with i in Hend by lia. replace (negb _) with true by (unfold DIRENT; symmetry; apply negb_true_iff, Z.eqb_neq; lia).
    unfold lines in Hs. simpl in Hs. by rewrite app_nil_r in Hs.
  - destruct (dirents_at (un_data nd) i) as [He Hlen]; [unfold D in *; lia|]. fold D in He. set (e := take 16 (drop (16 * i) (un_data nd))) in *. rewrite (drop_S _ _ _ He) in Hnd |- *.
    assert (HeD : e ∈ D) by (by eapply list_elem_of_lookup_2).
    assert (Hread : forall R s, reach (alone fds (F ++ UFile p 0 nd (16 * S i) :: R) out inp (after_entry level fuel t n p fd k e)) s ->
      reach (alone fds (F ++ UFile p 0 nd (16 * i) :: R) out inp (loop level fuel t (S n) p fd k)) s) by (intros R0 s Hs; by apply r_entry).
    unfold after_entry in Hread.
    destruct (decide (de_inum e = 0)) as [E0|E0].
    { rewrite filter_cons_False in Hnd by (unfold child; tauto). destruct (IH (S i) n R out k ltac:(lia) ltac:(lia) Hnd) as (l & R' & off & Hl & Hq & Hrun). exists l, R', off. split; [done|]. split.
      - intros q. rewrite Hq. split; intros (x & Hx & Hc & Hh); [exists x; set_solver|]. apply elem_of_cons in Hx as [->|Hx]; [by destruct Hc|by exists x].
      - intros s Hs. apply Hread. replace (de_inum e =? 0) with true by lia. by apply Hrun. }
    destruct (Hent e HeD E0) as [Hpl [nd2 Hn2]]. pose proof (de_name_no0 e) as Hz. pose proof (dots_spec p (de_name e) Hpl Hz (proj2 Hp)) as Hdots.
    destruct (decide (de_name e ∈ dots)) as [Ed|Ed].
    { rewrite filter_cons_False in Hnd by (unfold child; tauto). destruct (IH (S i) n (R ++ [UFile (sub p (de_name e)) 0 nd2 0]) out k ltac:(lia) ltac:(lia) Hnd) as (l & R' & off & Hl & Hq & Hrun). exists l, R', off. split; [done|]. split.
      - intros q. rewrite Hq. split; intros (x & Hx & Hc & Hh); [exists x; set_solver|]. apply elem_of_cons in Hx as [->|Hx]; [by destruct Hc|by exists x].
      - intros s Hs. apply Hread. replace (de_inum e =? 0) with false by lia. eapply r_stat; [exact Hn2|lia|]. rewrite (proj2 Hdots Ed), <- app_assoc. by apply Hrun. }
    assert (Hc : child e) by done. rewrite filter_cons_True in Hnd by done. apply NoDup_cons in Hnd as [Hnin Hnd].
    destruct (Hrec (sub p (de_name e)) t fds (F ++ UFile p 0 nd (16 * S i) :: R ++ [UFile (sub p (de_name e)) 0 nd2 0]) out inp (loop level fuel t n p fd k)) as (l1 & fs & Hl1 & Hq1 & Hrun1);
      [by apply Htree|done|done|by apply good_sub|done|done|left; unfold sub; set_solver|].
    destruct (IH (S i) n (R ++ [UFile (sub p (de_name e)) 0 nd2 0] ++ fs) (out ++ lines l1) k ltac:(lia) ltac:(lia) Hnd) as (l2 & R' & off & Hl2 & Hq2 & Hrun2). exists (l1 ++ l2), R', off. split; [|split].
    + apply NoDup_app. split; [done|]. split; [|done]. intros q (Hb1 & _)%Hq1 (x & Hx & Hcx & Hb2 & _)%Hq2. apply Hnin. assert (HxD : x ∈ D) by (rewrite <- (take_drop (S i) D); set_solver).
      destruct (Hent x HxD (proj1 Hcx)) as [(_ & Hsx & _) _]. rewrite (below_name p (de_name e) (de_name x) q); [|apply Hpl|done|done|done]. apply list_elem_of_fmap. exists x. split; [done|]. by apply list_elem_of_filter.
    + intros q. rewrite elem_of_app, Hq1, Hq2. split; [intros [Hh|(x & Hx & Hcx & Hh)]; [exists e|exists x]; set_solver|]. intros (x & [->|Hx]%elem_of_cons & Hcx & Hh); [by left|right; by exists x].
    + intros s Hs. apply Hread. replace (de_inum e =? 0) with false by lia. eapply r_stat; [exact Hn2|lia|]. replace (_ || _) with false by (symmetry; apply not_true_is_false; rewrite Hdots; done).
      replace ((F ++ UFile p 0 nd (16 * S i) :: R) ++ [UFile (sub p (de_name e)) 0 nd2 0]) with (F ++ UFile p 0 nd (16 * S i) :: R ++ [UFile (sub p (de_name e)) 0 nd2 0]) by (by rewrite <- app_assoc).
      apply Hrun1. replace ((F ++ UFile p 0 nd (16 * S i) :: R ++ [UFile (sub p (de_name e)) 0 nd2 0]) ++ fs) with (F ++ UFile p 0 nd (16 * S i) :: R ++ [UFile (sub p (de_name e)) 0 nd2 0] ++ fs) by (rewrite <- !app_assoc; simpl; by rewrite <- app_assoc).
      apply Hrun2. by rewrite <- app_assoc, <- lines_app.
Qed.

Lemma find_ok h level fuel : (h <= level)%nat -> finds h level fuel.
Proof.
  revert level. induction h as [|h IH]; intros level Hlev p t fds files out inp k Htree Hfree Hcon Hp Ht Ht0 Hslash; [done|]. destruct level as [|level]; [lia|].
  simpl in Htree. destruct Htree as (nd & Hn & Hkind). destruct (fdalloc_some fds (OpenFile (length files)) ltac:(lia)) as (fd & f & Ha). pose proof (fdalloc_close _ _ _ _ Ha) as (H0 & Hg & Hc & Hfr & Hkeep).
  destruct Hkind as [Hfile|(Hdir & Hlen & Hfuel & Hnd & Hent & Hsub)].
  - exists (if Find.tail_is under p (S (length t)) (47 :: t) then [p] else []), [UFile p 0 nd 0]. assert (Hin : 47 ∈ p) by (destruct Hslash as [?|(nd' & Hn' & Hd')]; [done|]; rewrite Hn in Hn'; injection Hn' as <-; unfold isfile, isdir, T_DIR in *; lia).
    pose proof (tail_is_spec p t Hin Ht (proj2 Hp) Ht0) as Hspec. split; [destruct (Find.tail_is _ _ _ _); repeat constructor; set_solver|]. split.
    + intros q. rewrite (hit_file p t nd q Hn Hfile). rewrite <- Hspec. destruct (Find.tail_is _ _ _ _); set_solver.
    + intros s Hs. cbn [Find.find]. eapply r_open; [exact Hn|exact Ha|]. replace (fd <? 0) with false by lia. eapply r_fstat; [exact Hg|apply lookup_F|].
      replace ((ust_type (un_stat nd) =? 3) || (ust_type (un_stat nd) =? 2)) with true by (unfold isfile in Hfile; lia). change (length (47 :: t)) with (S (length t)).
      destruct (Find.tail_is under p (S (length t)) (47 :: t)).
      * rewrite print_path. apply r_putcs; [by apply Hkeep|apply Forall_app; split; [apply Hp|by repeat constructor]|]. eapply r_close; [exact Hg|]. rewrite Hc. unfold lines in Hs. simpl in Hs. by rewrite app_nil_r in Hs.
      * eapply r_close; [exact Hg|]. rewrite Hc. unfold lines in Hs. simpl in Hs. by rewrite app_nil_r in Hs.
  - destruct (entries_ok h level fuel p t nd f fd files inp (IH level ltac:(lia)) Hn Hp Ht Ht0 Hg (Hkeep _ _ Hcon) ltac:(lia) Hent Hsub (length (dirents (un_data nd))) 0 fuel [] out (Close fd (fun _ => k)) ltac:(lia) ltac:(lia) Hnd)
      as (l & R' & off & Hl & Hq & Hrun). exists l, (UFile p 0 nd off :: R'). split; [done|]. split.
    + intros q. rewrite Hq, (hit_dir p t nd q Hn Hdir). done.
    + intros s Hs. cbn [Find.find]. eapply r_open; [exact Hn|exact Ha|]. replace (fd <? 0) with false by lia. eapply r_fstat; [exact Hg|apply lookup_F|].
      unfold isdir, T_DIR in Hdir. rewrite Hdir. replace (100 <? len p + 1 + DIRSIZ + 1) with false by lia. cbn [Z.eqb Pos.eqb orb T_DIR]. apply (Hrun s). eapply r_close; [exact Hg|]. by rewrite Hc.
Qed.

(** C37: find prints exactly the files with the given name below a directory.
    Let the tree below [path] have height at most 12, directories of less than
    [fuel] entries with distinct names that are not empty and have no slash,
    and directory paths of at most 84 characters.  Then find ends with status
    0, having printed one line for each file or device below [path] whose last
    component is [name], each once, and nothing else; this is its only run,
    whatever is on the stack before its buffers. *)
Theorem find_correct h level fuel path name inp nd : ftree h fuel path -> u_open path 0 = Some nd -> isdir nd -> (h <= level)%nat -> (h <= 12)%nat -> good_path path ->
  len path < 15 -> len name < 14 -> 47 ∉ name -> 0 ∉ name ->
  exists n s l, usteps n (start (Find.main under level fuel [path; name]) inp) s /\ (exists p, us_procs s = [p] /\ up_state p = Zombie 0) /\
    us_out s = lines l /\ NoDup l /\ (forall q, q ∈ l <-> hit path name q) /\
    forall m s1, usteps m (start (Find.main under level fuel [path; name]) inp) s1 -> (m <= n)%nat /\ usteps (n - m) s1 s.
Proof.
  intros Htree Hn Hdir Hlev Hh Hp Hl1 Hl2 Hs H0. destruct (find_ok h level fuel Hlev path name console_fds [] [] inp (Exit 0) Htree) as (l & fs & Hnd & Hq & Hrun); [vm_compute; lia|done|done|done|done|right; by exists nd|].
  destruct (Hrun (USys [UProc None (replicate NOFILE None) (Zombie 0)] [] (lines l) fs inp)) as [n Hsolo]; [apply r_exit, reach_refl|].
  exists n. eexists. exists l. unfold start, Find.main. replace ((15 <=? len path) || (14 <=? len name)) with false by lia. split; [by apply solo_usteps|]. split; [by eexists|]. split; [done|]. split; [done|]. split; [done|].
  intros m s1 H. destruct (solo_only _ _ _ Hsolo) with m s1 as [Hm Hrest]; [|done|split; [done|by apply solo_usteps]]. intros [|i]; [done|]. unfold ustep. simpl. done.
Qed.
End FindSpec.

(** ** All the runs of [pingpong] *)

Section Runs.
Context `{UE : Uenv}.
Definition nexts (s : usys) : list usys := omap (fun i => ustep i s) (seq 0 (length (us_procs s))).
(** The states in which a run of less than [fuel] steps ends. *)
Fixpoint ends (fuel : nat) (s : usys) (P : usys -> bool) : bool :=
  match fuel with
  | O => false
  | S fuel' => match nexts s with [] => P s | l => forallb (fun s' => ends fuel' s' P) l end
  end.
Lemma ustep_nexts i s s' : ustep i s = Some s' -> s' ∈ nexts s.
Proof.
  intros H. apply list_elem_of_omap. exists i. split; [|done]. apply elem_of_seq. split; [lia|]. simpl. unfold ustep in H. destruct (us_procs s !! i) eqn:E; [by eapply lookup_lt_Some|done].
Qed.
Lemma ends_step fuel s P : ends (S fuel) s P = true -> nexts s = [] /\ P s = true \/ nexts s <> [] /\ forall s', s' ∈ nexts s -> ends fuel s' P = true.
Proof.
  cbn [ends]. destruct (nexts s) as [|a l]; [by left|]. intros H. right. split; [done|]. rewrite forallb_forall in H. intros s' Hs'. apply H. by apply list_elem_of_In.
Qed.
Lemma ends_sound fuel s P n s' : ends fuel s P = true -> usteps n s s' -> (n < fuel)%nat /\ ends (fuel - n) s' P = true.
Proof.
  intros He H. revert He. induction H as [s|n s s1 s2 i _ IH Hst]; intros He; [rewrite Nat.sub_0_r; split; [destruct fuel; [done|lia]|done]|].
  destruct (IH He) as [Hn He1]. replace (fuel - n)%nat with (S (fuel - S n)) in He1 by lia. pose proof (ustep_nexts i s1 s2 Hst) as Hin.
  apply ends_step in He1 as [[Hnil _]|[_ Hall]]; [rewrite Hnil in Hin; by apply elem_of_nil in Hin|]. specialize (Hall _ Hin). split; [|done]. destruct (fuel - S n)%nat eqn:E; [done|lia].
Qed.

Definition pong_only (s : usys) : Prop := us_out s = line "1: received pong" /\ ~ Forall finished (us_procs s).
Definition ping_pong (s : usys) : Prop := us_out s = line "2: received ping" ++ line "1: received pong" /\ Forall finished (us_procs s).
#[local] Instance pong_only_dec s : Decision (pong_only s).
Proof. unfold pong_only. apply _. Defined.
#[local] Instance ping_pong_dec s : Decision (ping_pong s).
Proof. unfold ping_pong. apply _. Defined.

Definition stops (l : list nat) (s : usys) (P : usys -> bool) : bool :=
  match sched l s with Some s' => match nexts s' with [] => P s' | _ => false end | None => false end.
Lemma stops_sound l s P : stops l s P = true -> exists n s', usteps n s s' /\ (forall i, ustep i s' = None) /\ P s' = true.
Proof.
  unfold stops. destruct (sched l s) as [s'|] eqn:E; [|done]. destruct (nexts s') eqn:En; [|done]. intros HP. exists (length l), s'. split; [by apply sched_usteps|]. split; [|done].
  intros i. destruct (ustep i s') as [s''|] eqn:Es; [|done]. apply ustep_nexts in Es. rewrite En in Es. by apply elem_of_nil in Es.
Qed.

End Runs.

(** ** A directory with a file *)

Module UpgmsExample.
Definition dirent (inum : Z) (name : string) : list Z := [inum; 0] ++ chars name ++ replicate (14 - length (chars name)) 0.
Definition dir_node : unode := UNode (UStat 1 1 64) (dirent 1 "." ++ dirent 1 ".." ++ dirent 0 "old" ++ dirent 2 "a").
Definition file_node : unode := UNode (UStat 2 2 0) [].
#[local] Instance small_fs : Uenv := {|
  u_open := fun p _ => if bool_decide (p ∈ [chars "."; chars "./."; chars "./.."]) then Some dir_node else if bool_decide (p = chars "./a") then Some file_node else None;
  u_exec := fun _ _ => None;
  u_call := fun _ => -1
|}.
Lemma small_tree : ftree 2 5 (chars ".").
Proof.
  exists dir_node. split; [vm_compute; reflexivity|]. right. change (dirents (un_data dir_node)) with [dirent 1 "."; dirent 1 ".."; dirent 0 "old"; dirent 2 "a"].
  split; [reflexivity|]. split; [vm_compute; discriminate|]. split; [vm_compute; lia|]. split; [apply (bool_decide_unpack _); vm_compute; exact I|].
  assert (Hcase : forall P : list Z -> Prop, P (dirent 1 ".") -> P (dirent 1 "..") -> P (dirent 0 "old") -> P (dirent 2 "a") ->
    forall e, e ∈ [dirent 1 "."; dirent 1 ".."; dirent 0 "old"; dirent 2 "a"] -> P e).
  { intros P H1 H2 H3 H4 e He. apply elem_of_cons in He as [->|[->|[->|[->|He%elem_of_nil]%elem_of_cons]%elem_of_cons]%elem_of_cons]; done. }
  assert (Hplain : forall n, bool_decide (n <> []) && bool_decide (47 ∉ n) && bool_decide (Forall (fun c => u8 c = c) n) = true -> plain_name n).
  { intros n [[H1%bool_decide_eq_true H2%bool_decide_eq_true]%andb_true_iff H3%bool_decide_eq_true]%andb_true_iff. done. }
  split; refine (Hcase _ _ _ _ _); intros H; try (exfalso; apply H; vm_compute; reflexivity); try (split; [apply Hplain; vm_compute; reflexivity|vm_compute; eauto]).
  - exfalso. destruct H as [_ H]. apply H. apply (bool_decide_unpack _). vm_compute. exact I.
  - exfalso. destruct H as [_ H]. apply H. apply (bool_decide_unpack _). vm_compute. exact I.
  - exfalso. destruct H as [H _]. apply H. reflexivity.
  - exists file_node. split; [vm_compute; reflexivity|]. left. by left.
Qed.
Lemma find_correct_witness : exists n s l, usteps n (start (Find.main (fun _ _ => 5) 3 5 [chars "."; chars "a"]) []) s /\ us_out s = lines l /\ (forall q, q ∈ l <-> hit (chars ".") (chars "a") q).
Proof.
  destruct (find_correct (fun _ _ => 5) 2 3 5 (chars ".") (chars "a") [] dir_node small_tree) as (n & s & l & H1 & _ & H3 & _ & H5 & _);
    [vm_compute; reflexivity|reflexivity|lia|lia|split; apply (bool_decide_unpack _); vm_compute; exact I|vm_compute; reflexivity|vm_compute; reflexivity|apply (bool_decide_unpack _); vm_compute; exact I..|].
  exists n, s, l. split; [exact H1|]. split; [exact H3|exact H5].
Defined.
End UpgmsExample.
