(* ===== verification/ShRun.v ===== *)
(** * Running commands: [runcmd], [getcmd] and [main] of user/sh.c

    The commands are those of the parser in [Sh], with their strings. *)

From S2P Require Import Prelude Uprog Uprintf Upgms Sh.

Definition shpanic (s : string) : prog := fprintf 2 (line "%s") [UStr (Some (chars s))] (Exit 1).
Definition fork1 (k : Z -> prog) : prog := Fork (fun pid => if pid =? -1 then shpanic "fork" else k pid).

Fixpoint runcmd (c : cmd_of (list Z)) : prog :=
  match c with
  | EXEC [] => Exit 1
  | EXEC (a :: args) => Exec a (a :: args) (fprintf 2 (line "exec %s failed") [UStr (Some a)] (Exit 0))
  | REDIR c file mode fd =>
      Close fd (fun _ =>
      open file mode (fun r =>
      if r <? 0 then fprintf 2 (line "open %s failed") [UStr (Some file)] (Exit 1)
      else runcmd c))
  | LIST l r =>
      fork1 (fun pid =>
      if pid =? 0 then runcmd l
      else Wait (fun _ _ => runcmd r))
  | PIPE l r =>
      Pipe (fun o =>
      match o with
      | None => shpanic "pipe"
      | Some p =>
          fork1 (fun pid =>
          if pid =? 0 then
            Close 1 (fun _ =>
            Call (Dup (snd p)) (fun _ =>
            Close (fst p) (fun _ =>
            Close (snd p) (fun _ => runcmd l))))
          else
            fork1 (fun pid =>
            if pid =? 0 then
              Close 0 (fun _ =>
              Call (Dup (fst p)) (fun _ =>
              Close (fst p) (fun _ =>
              Close (snd p) (fun _ => runcmd r))))
            else
              Close (fst p) (fun _ =>
              Close (snd p) (fun _ =>
              Wait (fun _ _ => Wait (fun _ _ => Exit 0))))))
      end)
  | BACK c => fork1 (fun pid => if pid =? 0 then runcmd c else Exit 0)
  end.

(** The strings of a command in the line that [nulterminate] has cut. *)
Definition string_at (n : nat) (l : list Z) (p : sptr) : list Z := cstr (drop (n - p.1)%nat l).
(** [parsecmd], with what it prints before it panics. *)
Definition parse_then (l : list Z) (k : cmd_of (list Z) -> prog) : prog :=
  match (c <-! parseline (S (length l)) ;; peek [] ;;; Prelude.ret c) l with
  | Done c [] => let l' := nulterminate (length l) c (l ++ [0]) in k (cmd_map (string_at (length l) l') c)
  | Done c s => fprintf 2 (line "leftovers: %s") [UStr (Some s)] (shpanic "syntax")
  | Panic msg => shpanic msg
  | Diverge => OutOfFuel
  | _ => Undefined
  end.

(** [buf] has 100 characters; the end of the input gives an empty line. *)
Definition getcmd (k : option (list Z) -> prog) : prog :=
  write 2 (chars "$ ") (fun _ =>
  gets 100 (fun buf =>
  match cstr buf with [] => k None | _ => k (Some (cstr buf)) end)).
Fixpoint consoles (fuel : nat) (k : prog) : prog :=
  match fuel with
  | O => OutOfFuel
  | S fuel' =>
      open (chars "console") 2 (fun fd =>
      if 0 <=? fd then if 3 <=? fd then Close fd (fun _ => k) else consoles fuel' k else k)
  end.
Fixpoint commands (fuel : nat) : prog :=
  match fuel with
  | O => OutOfFuel
  | S fuel' =>
      getcmd (fun r =>
      match r with
      | None => Exit 0
      | Some buf =>
          match buf with
          | 99 :: 100 :: 32 :: rest =>
              let dir := take (length buf - 4) rest in
              Call (Chdir dir) (fun r =>
              if r <? 0 then fprintf 2 (line "cannot cd %s") [UStr (Some dir)] (commands fuel')
              else commands fuel')
          | _ =>
              fork1 (fun pid =>
              if pid =? 0 then parse_then buf runcmd
              else Wait (fun _ _ => commands fuel'))
          end
      end)
  end.
(** The first loop ends within four rounds. *)
Definition main (fuel : nat) : prog := consoles 4 (commands fuel).
