(* ===== verification/ShRunSpec.v ===== *)
(** * The descriptors of the programs that the shell starts

    Whatever the order in which the processes of a command run, a program is
    started with the descriptors 0, 1 and 2 and no other, and with the input
    and output that the redirections and pipes around it say: the two sides of
    a pipe share one pipe, different pipes of the command are different, and a
    redirection is the file of that name opened in that mode. *)

From S2P Require Import Prelude Uprog Uprintf Upgms Sh ShRun.

Notation scmd := (cmd_of (list Z)).

(** ** What a command starts *)

(** A node of a command, by the way to it from the root, last step first. *)
Notation pos := (list bool).
(** Where a descriptor leads: the pipe or the file of a node. *)
Inductive conn := CConsole | CPipeR (x : pos) | CPipeW (x : pos) | CFile (x : pos) (file : list Z) (mode : Z).
(** The programs of the command [c] at node [x], when it is run with input [a]
    and output [b], with the input and output of each. *)
Fixpoint programs (x : pos) (c : scmd) (a b : conn) : list (list (list Z) * conn * conn) :=
  match c with
  | EXEC [] => []
  | EXEC argv => [(argv, a, b)]
  | REDIR c file mode fd =>
      if fd =? 0 then programs (true :: x) c (CFile x file mode) b else programs (true :: x) c a (CFile x file mode)
  | PIPE l r => programs (true :: x) l a (CPipeW x) ++ programs (false :: x) r (CPipeR x) b
  | LIST l r => programs (true :: x) l a b ++ programs (false :: x) r a b
  | BACK c => programs (true :: x) c a b
  end.
(** Redirections are of 0 and 1, as the parser makes them. *)
Fixpoint redirs01 (c : scmd) : Prop :=
  match c with
  | EXEC _ => True
  | REDIR c _ _ fd => (fd = 0 \/ fd = 1) /\ redirs01 c
  | PIPE l r | LIST l r => redirs01 l /\ redirs01 r
  | BACK c => redirs01 c
  end.

(** The descriptor [e] leads where [c] says: [J] gives the pipe of each node
    that has made one, [F] the open file. *)
Definition real `{UE : Uenv} (J F : gmap pos nat) (files : list ufile) (c : conn) (e : uend) : Prop :=
  match c, e with
  | CConsole, Console => True
  | CPipeR x, PipeR j | CPipeW x, PipeW j => J !! x = Some j
  | CFile x file mode, OpenFile f =>
      F !! x = Some f /\ exists nd, files !! f = Some (UFile file mode nd 0) /\ u_open file mode = Some nd
  | _, _ => False
  end.
(** Different nodes have different numbers, all below [n]. *)
Definition numbered (J : gmap pos nat) (n : nat) : Prop :=
  (forall x y j, J !! x = Some j -> J !! y = Some j -> x = y) /\ forall x j, J !! x = Some j -> (j < n)%nat.
Lemma numbered_new J n x : numbered J n -> numbered (<[x := n]> J) (S n).
Proof.
  intros [H1 H2]. split.
  - intros y z j [[<- <-]|[_ Hy]]%lookup_insert_Some [[<- E]|[_ Hz]]%lookup_insert_Some; [done|apply H2 in Hz; lia|subst; apply H2 in Hy; lia|by eapply H1].
  - intros y j [[_ <-]|[_ Hy]]%lookup_insert_Some; [lia|]. apply H2 in Hy. lia.
Qed.

(** ** The nodes that are still to be run *)

(** No node is below another. *)
Fixpoint indep (l : list pos) : Prop :=
  match l with
  | [] => True
  | x :: l => (forall y, y ∈ l -> ~ x `suffix_of` y /\ ~ y `suffix_of` x) /\ indep l
  end.
#[export] Instance indep_perm : Proper ((≡ₚ) ==> iff) indep.
Proof.
  intros l1 l2 H. induction H as [|x l1 l2 H IH|x y l|l1 l2 l3 _ IH1 _ IH2]; simpl; [done|..|by rewrite IH1].
  - rewrite IH. apply and_iff_compat_r. by setoid_rewrite H.
  - set_solver.
Qed.
Lemma indep_app l1 l2 : indep (l1 ++ l2) <-> indep l1 /\ indep l2 /\ forall x y, x ∈ l1 -> y ∈ l2 -> ~ x `suffix_of` y /\ ~ y `suffix_of` x.
Proof. induction l1 as [|x l1 IH]; simpl; [set_solver|]. rewrite IH. set_solver. Qed.
(** Going from a node to nodes below it. *)
Lemma indep_below x l W : indep (x :: W) -> indep l -> (forall y, y ∈ l -> x `suffix_of` y) -> indep (l ++ W).
Proof.
  intros [Hx HW] Hl Hb. apply indep_app. split; [done|]. split; [done|]. intros y z Hy Hz. destruct (Hx z Hz) as [H1 H2]. pose proof (Hb y Hy) as Hxy. split.
  - intros Hyz. apply H1. by etransitivity.
  - intros Hzy. destruct (suffix_weak_total x z y Hxy Hzy); done.
Qed.

(** ** Stages of a process of the shell *)

(** Descriptor tables: 0, 1, 2 and two more. *)
Definition tab (a b : option uend) (x y : option uend) : fdtable := [a; b; Some Console; x; y] ++ replicate 11 None.
Notation tab3 a b := (tab (Some a) (Some b) None None).

(** Programs that print, wait and exit. *)
Inductive closing : prog -> Prop :=
| cl_exit st : closing (Exit st)
| cl_write fd bs n k : closing k -> closing (Write fd bs n (fun _ => k))
| cl_wait k : closing k -> closing (Wait (fun _ _ => k)).

Definition opens (file : list Z) (mode : Z) (k : prog) : prog :=
  open file mode (fun r => if r <? 0 then fprintf 2 (line "open %s failed") [UStr (Some file)] (Exit 1) else k).
Definition waits : prog := Wait (fun _ _ => Wait (fun _ _ => Exit 0)).
Definition ends (k : prog) : prog := Close 3 (fun _ => Close 4 (fun _ => k)).
Definition left_side (l : scmd) : prog := Close 1 (fun _ => Call (Dup 4) (fun _ => ends (runcmd l))).
Definition right_side (r : scmd) : prog := Close 0 (fun _ => Call (Dup 3) (fun _ => ends (runcmd r))).
Definition second_fork (r : scmd) : prog := fork1 (fun pid => if pid =? 0 then right_side r else ends waits).
Definition first_fork (l r : scmd) : prog := fork1 (fun pid => if pid =? 0 then left_side l else second_fork r).

Section Stages.
Context `{UE : Uenv}.
(** The programs of the whole command. *)
Context (A : list (list (list Z) * conn * conn)).
Definition plan (x : pos) (c : scmd) (a b : conn) : Prop := redirs01 c /\ forall y, y ∈ programs x c a b -> y ∈ A.

(** The first argument: the nodes the process has still to run. *)
Inductive stage (J F : gmap pos nat) (files : list ufile) : list pos -> fdtable -> prog -> Prop :=
| st_cmd x a b a' b' c : plan x c a b -> real J F files a a' -> real J F files b b' -> stage J F files [x] (tab3 a' b') (runcmd c)
| st_started argv a b a' b' : (argv, a, b) ∈ A -> real J F files a a' -> real J F files b b' -> stage J F files [] (tab3 a' b') Undefined
| st_closing t k : closing k -> stage J F files [] t k
| st_in x b b' c file mode : plan (true :: x) c (CFile x file mode) b -> real J F files b b' ->
    stage J F files [x] (tab None (Some b') None None) (opens file mode (runcmd c))
| st_out x a a' c file mode : plan (true :: x) c a (CFile x file mode) -> real J F files a a' ->
    stage J F files [x] (tab (Some a') None None None) (opens file mode (runcmd c))
| st_wait x a b a' b' c : plan x c a b -> real J F files a a' -> real J F files b b' -> stage J F files [x] (tab3 a' b') (Wait (fun _ _ => runcmd c))
| st_pipe1 x a b a' b' j l r : plan (true :: x) l a (CPipeW x) -> plan (false :: x) r (CPipeR x) b -> J !! x = Some j ->
    real J F files a a' -> real J F files b b' ->
    stage J F files [true :: x; false :: x] (tab (Some a') (Some b') (Some (PipeR j)) (Some (PipeW j))) (first_fork l r)
| st_pipe2 x a' b b' j r : plan (false :: x) r (CPipeR x) b -> J !! x = Some j -> real J F files b b' ->
    stage J F files [false :: x] (tab (Some a') (Some b') (Some (PipeR j)) (Some (PipeW j))) (second_fork r)
| st_pipe3 a b x y : stage J F files [] (tab a b x y) (ends waits)
| st_pipe4 a b x y : stage J F files [] (tab a b x y) (Close 4 (fun _ => waits))
| st_left1 x a a' b' j l : plan (true :: x) l a (CPipeW x) -> J !! x = Some j -> real J F files a a' ->
    stage J F files [true :: x] (tab (Some a') (Some b') (Some (PipeR j)) (Some (PipeW j))) (left_side l)
| st_left2 x a a' j l : plan (true :: x) l a (CPipeW x) -> J !! x = Some j -> real J F files a a' ->
    stage J F files [true :: x] (tab (Some a') None (Some (PipeR j)) (Some (PipeW j))) (Call (Dup 4) (fun _ => ends (runcmd l)))
| st_right1 x a' b b' j r : plan (false :: x) r (CPipeR x) b -> J !! x = Some j -> real J F files b b' ->
    stage J F files [false :: x] (tab (Some a') (Some b') (Some (PipeR j)) (Some (PipeW j))) (right_side r)
| st_right2 x b b' j r : plan (false :: x) r (CPipeR x) b -> J !! x = Some j -> real J F files b b' ->
    stage J F files [false :: x] (tab None (Some b') (Some (PipeR j)) (Some (PipeW j))) (Call (Dup 3) (fun _ => ends (runcmd r)))
| st_ends1 x a b a' b' j c : plan x c a b -> real J F files a a' -> real J F files b b' ->
    stage J F files [x] (tab (Some a') (Some b') (Some (PipeR j)) (Some (PipeW j))) (ends (runcmd c))
| st_ends2 x a b a' b' j c : plan x c a b -> real J F files a a' -> real J F files b b' ->
    stage J F files [x] (tab (Some a') (Some b') None (Some (PipeW j))) (Close 4 (fun _ => runcmd c)).

Lemma real_mono J F files J' F' more c e : J ⊆ J' -> F ⊆ F' -> real J F files c e -> real J' F' (files ++ more) c e.
Proof.
  intros HJ HF. destruct c as [|x|x|x file mode], e as [|j|j|f]; simpl; try done; try (intros; by eapply lookup_weaken).
  intros (Hx & nd & Hf & Hn). split; [by eapply lookup_weaken|]. exists nd. split; [|done]. by apply lookup_app_l_Some.
Qed.
Lemma stage_mono J F files J' F' more W t k : J ⊆ J' -> F ⊆ F' -> stage J F files W t k -> stage J' F' (files ++ more) W t k.
Proof.
  intros HJ HF H. assert (HR : forall c e, real J F files c e -> real J' F' (files ++ more) c e) by (intros; by eapply real_mono).
  assert (HL : forall x j, J !! x = Some j -> J' !! x = Some j) by (intros; by eapply lookup_weaken).
  destruct H; (econstructor; solve [eauto]).
Qed.

(** Printing. *)
Lemma closing_putcs fd cs k : closing k -> closing (putcs fd cs k).
Proof. intros Hk. induction cs as [|c cs IH]; simpl; [done|]. by apply (cl_write fd [u8 c] 1). Qed.
(** Formats that only print strings. *)
Fixpoint only_s (percent : bool) (fmt : list Z) (n : nat) : bool :=
  match fmt with
  | [] => true
  | c :: fmt =>
      if negb percent then only_s (c =? 37) fmt n
      else if c =? 115 then match n with O => false | S n' => only_s false fmt n' end
      else negb (existsb (Z.eqb c) [100; 108; 120; 112; 99]) && only_s false fmt n
  end.
Lemma closing_vprintf fd fmt st ss k : only_s st fmt (length ss) = true -> closing k -> closing (vprintf fd st fmt (UStr ∘ Some <$> ss) k).
Proof.
  intros Hok Hk. revert st ss Hok. induction fmt as [|c fmt IH]; intros st ss Hok; [done|]. simpl in Hok |- *. destruct st; simpl in Hok |- *.
  - destruct (Z.eqb_spec c 115) as [->|].
    + destruct ss as [|x ss]; [done|]. simpl. apply closing_putcs. by apply IH.
    + apply andb_true_iff in Hok as [H1 H2]. apply negb_true_iff in H1. simpl in H1. repeat (apply orb_false_iff in H1 as [-> H1]). destruct (c =? 37); [apply cl_write|apply cl_write, cl_write]; by apply IH.
  - destruct (c =? 37); [by apply IH|]. apply cl_write. by apply IH.
Qed.
Lemma closing_open file : closing (fprintf 2 (line "open %s failed") [UStr (Some file)] (Exit 1)).
Proof. apply (closing_vprintf 2 _ false [file]); [vm_compute; reflexivity|constructor]. Qed.
Lemma closing_exec a : closing (fprintf 2 (line "exec %s failed") [UStr (Some a)] (Exit 0)).
Proof. apply (closing_vprintf 2 _ false [a]); [vm_compute; reflexivity|constructor]. Qed.
Lemma closing_panic s : closing (shpanic s).
Proof. apply (closing_vprintf 2 _ false [chars s]); [vm_compute; reflexivity|constructor]. Qed.

(** The programs that are started are not part of the runs considered. *)
Context (Hexec : forall path argv pg, u_exec path argv = Some pg -> pg = Undefined).

(** ** The invariant *)

Definition staged (J F : gmap pos nat) (files : list ufile) (p : uproc) (W : list pos) : Prop :=
  match up_state p with Run k => stage J F files W (up_fds p) k | _ => True end.
(** [R] lists the nodes each process has still to run. *)
Record shinv (s : usys) (J F : gmap pos nat) (R : list (list pos)) : Prop := {
  si_procs : Forall2 (staged J F (us_files s)) (us_procs s) R;
  si_indep : indep (mjoin R);
  si_fresh : forall x y, x ∈ mjoin R -> x `suffix_of` y -> J !! y = None /\ F !! y = None;
  si_pipes : numbered J (length (us_pipes s));
  si_files : numbered F (length (us_files s))
}.
Definition ok (s : usys) : Prop := exists J F R, shinv s J F R.

(** The nodes [W'] are of those below [W]. *)
Definition narrows (W W' : list pos) : Prop :=
  (forall V, indep (W ++ V) -> indep (W' ++ V)) /\ forall y, y ∈ W' -> exists x, x ∈ W /\ x `suffix_of` y.
Lemma narrows_refl W : narrows W W.
Proof. split; [done|]. intros y Hy. by exists y. Qed.
Lemma narrows_nil W : narrows W [].
Proof. split; [|set_solver]. intros V H%indep_app. apply H. Qed.
Lemma narrows_below x W' : indep W' -> (forall y, y ∈ W' -> x `suffix_of` y) -> narrows [x] W'.
Proof. intros Hi Hb. split; [intros V H; by eapply indep_below|]. intros y Hy. exists x. split; [set_solver|by apply Hb]. Qed.
Lemma narrows_one x b : narrows [x] [b :: x].
Proof. apply narrows_below; [by split; [set_solver|]|]. intros y ->%list_elem_of_singleton. by exists [b]. Qed.
Lemma narrows_two x : narrows [x] [true :: x; false :: x].
Proof.
  apply narrows_below.
  - simpl. split; [|by split; [set_solver|]]. intros y ->%list_elem_of_singleton. split; intros [k Hk]; (destruct k as [|? k]; [done|]);
      injection Hk as _ Hk; apply (f_equal length) in Hk; rewrite length_app in Hk; simpl in Hk; lia.
  - intros y [-> | ->%list_elem_of_singleton]%elem_of_cons; by eexists [_].
Qed.
Lemma narrows_swap W W1 W2 : narrows W (W1 ++ W2) -> narrows W (W2 ++ W1).
Proof. intros [H1 H2]. split; [intros V; rewrite (Permutation_app_comm W2 W1); apply H1|]. intros y Hy. apply H2. by rewrite Permutation_app_comm. Qed.
Lemma join_split (R : list (list pos)) i W : R !! i = Some W -> exists V, mjoin R ≡ₚ W ++ V /\ forall W', mjoin (<[i := W']> R) ≡ₚ W' ++ V.
Proof.
  intros H. exists (mjoin (take i R) ++ mjoin (drop (S i) R)). split.
  - rewrite <- (take_drop_middle R i W H) at 1. rewrite join_app. simpl. solve_Permutation.
  - intros W'. rewrite insert_take_drop by (by eapply lookup_lt_Some). rewrite join_app. simpl. solve_Permutation.
Qed.

(** Process [i] has gone from the nodes [W] to [W1] and a new one has [W2]. *)
Lemma nodes_move (J F : gmap pos nat) R i W W1 W2 : R !! i = Some W -> narrows W (W1 ++ W2) -> indep (mjoin R) ->
  (forall x y, x ∈ mjoin R -> x `suffix_of` y -> J !! y = None /\ F !! y = None) ->
  indep (mjoin (<[i := W1]> R ++ [W2])) /\ forall x y, x ∈ mjoin (<[i := W1]> R ++ [W2]) -> x `suffix_of` y -> J !! y = None /\ F !! y = None.
Proof.
  intros HR [N1 N2] Hi Hf. destruct (join_split R i W HR) as (V & E & E'). rewrite E in Hi.
  assert (E2 : mjoin (<[i := W1]> R ++ [W2]) ≡ₚ (W1 ++ W2) ++ V) by (rewrite join_app, E'; simpl; solve_Permutation).
  split; [rewrite E2; by apply N1|]. intros x y. rewrite E2. intros [Hx|Hx]%elem_of_app Hy.
  - destruct (N2 x Hx) as (z & Hz & Hzx). apply (Hf z y); [rewrite E; set_solver|]. by etransitivity.
  - apply (Hf x y); [rewrite E; set_solver|done].
Qed.
(** A process other than [W]'s does not have the nodes below [x]. *)
Lemma nodes_fresh (J F J' F' : gmap pos nat) R i x W' : R !! i = Some [x] -> narrows [x] W' -> x ∉ W' -> indep (mjoin R) ->
  (forall x y, x ∈ mjoin R -> x `suffix_of` y -> J !! y = None /\ F !! y = None) ->
  (forall y, y <> x -> J !! y = None -> J' !! y = None) -> (forall y, y <> x -> F !! y = None -> F' !! y = None) ->
  (forall y, y ∈ W' -> ~ y `suffix_of` x) ->
  indep (mjoin (<[i := W']> R)) /\ forall z y, z ∈ mjoin (<[i := W']> R) -> z `suffix_of` y -> J' !! y = None /\ F' !! y = None.
Proof.
  intros HR [N1 N2] Hx Hi Hf HJ HF Hb. destruct (join_split R i [x] HR) as (V & E & E'). rewrite E in Hi. split; [rewrite E'; by apply N1|].
  intros z y. rewrite E'. intros Hz Hzy. assert (Hne : y <> x).
  { intros ->. apply elem_of_app in Hz as [Hz|Hz]; [by apply (Hb z)|]. destruct Hi as [Hi _]. by destruct (Hi z Hz). }
  assert (Ho : J !! y = None /\ F !! y = None).
  { apply elem_of_app in Hz as [Hz|Hz]; [|apply (Hf z y); [rewrite E; set_solver|done]].
    destruct (N2 z Hz) as (u & Hu & Huz). apply (Hf u y); [rewrite E; set_solver|]. by etransitivity. }
  destruct Ho. split; [by apply HJ|by apply HF].
Qed.

(** ** Steps *)

Section AtProcess.
Context (s : usys) (J F : gmap pos nat) (R : list (list pos)) (H : shinv s J F R).
Context (i : nat) (p : uproc) (W : list pos) (Hp : us_procs s !! i = Some p) (HR : R !! i = Some W).

Lemma ok_set W' t k : narrows W W' -> stage J F (us_files s) W' t k -> ok (setproc i (UProc (up_parent p) t (Run k)) s).
Proof.
  intros HW Hk. destruct H as [H1 H2 H3 H4 H5]. exists J, F, (<[i := W']> R).
  destruct (nodes_move J F R i W W' [] HR ltac:(by rewrite app_nil_r) H2 H3) as [N1 N2]. rewrite join_app in N1, N2. simpl in N1, N2. rewrite app_nil_r in N1, N2.
  split; try done. simpl. by apply Forall2_insert.
Qed.
(** What is left to do can only shrink. *)
Lemma shinv_narrow W' : narrows W W' -> staged J F (us_files s) p W' -> us_procs s !! i = Some p -> shinv s J F (<[i := W']> R).
Proof.
  intros HW Hk Hp'. destruct H as [H1 H2 H3 H4 H5].
  destruct (nodes_move J F R i W W' [] HR ltac:(by rewrite app_nil_r) H2 H3) as [N1 N2]. rewrite join_app in N1, N2. simpl in N1, N2. rewrite app_nil_r in N1, N2.
  split; try done. rewrite <- (list_insert_id (us_procs s) i p) by done. by apply Forall2_insert.
Qed.
Lemma ok_fork W1 W2 k : narrows W (W1 ++ W2) -> (forall pid, 0 < pid -> stage J F (us_files s) W1 (up_fds p) (k pid)) -> stage J F (us_files s) W2 (up_fds p) (k 0) -> ok (sys_fork i p k s).
Proof.
  intros HW Hk H0. destruct H as [H1 H2 H3 H4 H5]. exists J, F, (<[i := W1]> R ++ [W2]). destruct (nodes_move J F R i W W1 W2 HR HW H2 H3) as [N1 N2].
  split; try done. simpl. apply Forall2_app; [|by repeat constructor]. apply Forall2_insert; [done|]. apply Hk. unfold pid_of. lia.
Qed.
Lemma procs_grow J' F' more : J ⊆ J' -> F ⊆ F' -> Forall2 (staged J' F' (us_files s ++ more)) (us_procs s) R.
Proof.
  intros HJ HF. eapply Forall2_impl; [apply H|]. intros q V. unfold staged. destruct (up_state q); [|done..]. by apply stage_mono.
Qed.
Lemma below_ne (x : pos) (W' : list pos) : (forall y, y ∈ W' -> exists b, y = b :: x) -> x ∉ W' /\ forall y, y ∈ W' -> ~ y `suffix_of` x.
Proof.
  intros Hb. assert (Hs : forall y, y ∈ W' -> ~ y `suffix_of` x).
  { intros y Hy [z Hz]. destruct (Hb y Hy) as [b ->]. apply (f_equal length) in Hz. rewrite length_app in Hz. simpl in Hz. lia. }
  split; [|done]. intros Hx. by apply (Hs x).
Qed.
Lemma insert_other (M : gmap pos nat) x n y : y <> x -> M !! y = None -> <[x := n]> M !! y = None.
Proof. intros Hne Hy. by rewrite lookup_insert_ne. Qed.

Context (x : pos) (HW : W = [x]).
Lemma x_fresh : J !! x = None /\ F !! x = None.
Proof.
  destruct (join_split R i W HR) as (V & E & _). apply (si_fresh _ _ _ _ H x); [|done]. rewrite E, HW. set_solver.
Qed.
Lemma ok_pipe W' t k : narrows [x] W' -> (forall y, y ∈ W' -> exists b, y = b :: x) ->
  stage (<[x := length (us_pipes s)]> J) F (us_files s) W' t k ->
  ok (setproc i (UProc (up_parent p) t (Run k)) (USys (us_procs s) (us_pipes s ++ [[]]) (us_out s) (us_files s) (us_in s))).
Proof.
  intros N Hb Hk. destruct (below_ne x W' Hb) as [Hx Hb']. destruct x_fresh as [HJ _]. pose proof (procs_grow (<[x := length (us_pipes s)]> J) F []) as HG.
  rewrite app_nil_r in HG. destruct H as [H1 H2 H3 H4 H5]. exists (<[x := length (us_pipes s)]> J), F, (<[i := W']> R). rewrite HW in HR.
  destruct (nodes_fresh J F (<[x := length (us_pipes s)]> J) F R i x W' HR N Hx H2 H3) as [N1 N2]; [apply insert_other|done|done|].
  split; try done.
  - simpl. apply Forall2_insert; [|done]. apply HG; [by apply insert_subseteq|done].
  - simpl. rewrite length_app, Nat.add_1_r. by apply numbered_new.
Qed.
Lemma ok_open path mode nd t k : u_open path mode = Some nd ->
  stage J (<[x := length (us_files s)]> F) (us_files s ++ [UFile path mode nd 0]) [true :: x] t k ->
  ok (setproc i (UProc (up_parent p) t (Run k)) (USys (us_procs s) (us_pipes s) (us_out s) (us_files s ++ [UFile path mode nd 0]) (us_in s))).
Proof.
  intros Hn Hk. destruct (below_ne x [true :: x]) as [Hx Hb']; [set_solver|]. destruct x_fresh as [_ HF]. pose proof (procs_grow J (<[x := length (us_files s)]> F) [UFile path mode nd 0]) as HG.
  destruct H as [H1 H2 H3 H4 H5]. exists J, (<[x := length (us_files s)]> F), (<[i := [true :: x]]> R). rewrite HW in HR.
  destruct (nodes_fresh J F J (<[x := length (us_files s)]> F) R i x [true :: x] HR (narrows_one x true) Hx H2 H3) as [N1 N2]; [done|apply insert_other|done|].
  split; try done.
  - simpl. apply Forall2_insert; [|done]. apply HG; [done|by apply insert_subseteq].
  - simpl. rewrite length_app, Nat.add_1_r. by apply numbered_new.
Qed.
End AtProcess.

Lemma ok_wait s J F R i p W k s' : shinv s J F R -> us_procs s !! i = Some p -> R !! i = Some W -> (forall x y, stage J F (us_files s) W (up_fds p) (k x y)) ->
  sys_wait i p k s = Some s' -> ok s'.
Proof.
  intros H Hp HR Hk Hst. unfold sys_wait in Hst. destruct (zombie_child _ _ _) as [[j st]|]; [|destruct (existsb _ _); [done|]]; injection Hst as <-;
    [|by apply (ok_set s J F R H i p W HR W); [apply narrows_refl|]].
  destruct H as [H1 H2 H3 H4 H5]. exists J, F, R. split; try done. simpl. rewrite <- (list_insert_id R i W) by done. apply Forall2_insert; [|apply Hk].
  apply Forall2_same_length_lookup. rewrite length_alter. split; [by eapply Forall2_length|]. intros m q V Hq HV. destruct (decide (m = j)) as [->|Hne].
  - rewrite list_lookup_alter_eq in Hq. destruct (us_procs s !! j); [|done]. by injection Hq as <-.
  - rewrite list_lookup_alter_ne in Hq by done. by eapply (Forall2_lookup_lr _ _ _ m _ _ H1).
Qed.
Lemma ok_closing s J F R i p k s' : shinv s J F R -> us_procs s !! i = Some p -> R !! i = Some [] -> up_state p = Run k -> closing k -> ustep i s = Some s' -> ok s'.
Proof.
  intros H Hp HR Hs Hc Hst. unfold ustep in Hst. rewrite Hp, Hs in Hst. destruct Hc as [st|fd bs n k Hk|k Hk].
  - injection Hst as <-. destruct H as [H1 H2 H3 H4 H5]. exists J, F, R. split; try done. simpl. rewrite <- (list_insert_id R i []) by done. apply Forall2_insert; [|done].
    apply Forall2_fmap_l. eapply Forall2_impl; [exact H1|]. intros q V Hq. unfold compose, staged, orphan. by case_decide.
  - assert (Hk' : forall y, stage J F (us_files s) [] (up_fds p) y -> ok (setproc i (cont p y) s)) by (intros y Hy; apply (ok_set s J F R H i p [] HR []); [apply narrows_refl|done]).
    assert (Hc : forall y, closing y -> stage J F (us_files s) [] (up_fds p) y) by (intros; by apply st_closing).
    unfold sys_write in Hst. destruct (fdget (up_fds p) fd) as [[|j|j|f]|]; try (injection Hst as <-; by apply Hk', Hc).
    + injection Hst as <-. destruct (Hk' k (Hc k Hk)) as (J1 & F1 & R1 & [I1 I2 I3 I4 I5]). by exists J1, F1, R1.
    + destruct (negb _); [injection Hst as <-; by apply Hk', Hc|]. destruct bs as [|b bs]; [injection Hst as <-; by apply Hk', Hc|].
      case_decide; [done|]. injection Hst as <-. match goal with |- ok (setproc i (cont p ?y) _) => destruct (Hk' y) as (J1 & F1 & R1 & [I1 I2 I3 I4 I5]) end.
      { apply Hc. case_decide; [done|by apply cl_write]. }
      exists J1, F1, R1. split; try done. simpl. by rewrite length_insert.
    + destruct (us_files s !! f); [|done]. injection Hst as <-. by apply Hk', Hc.
  - eapply (ok_wait s J F R i p [] (fun _ _ => k)); [done..| |done]. intros x y. by apply st_closing.
Qed.

Lemma plan_redir x c file mode a b fd : plan x (REDIR c file mode fd) a b ->
  (fd = 0 /\ plan (true :: x) c (CFile x file mode) b) \/ (fd = 1 /\ plan (true :: x) c a (CFile x file mode)).
Proof. intros [[[-> | ->] Hr] Hs]; [left|right]; by repeat split. Qed.
Lemma plan_pipe x l r a b : plan x (PIPE l r) a b -> plan (true :: x) l a (CPipeW x) /\ plan (false :: x) r (CPipeR x) b.
Proof. intros [[H1 H2] Hs]. simpl in Hs. by split; (split; [done|]); intros y Hy; apply Hs, elem_of_app; [left|right]. Qed.
Lemma plan_list x l r a b : plan x (LIST l r) a b -> plan (true :: x) l a b /\ plan (false :: x) r a b.
Proof. intros [[H1 H2] Hs]. simpl in Hs. by split; (split; [done|]); intros y Hy; apply Hs, elem_of_app; [left|right]. Qed.
Lemma plan_back x c a b : plan x (BACK c) a b -> plan (true :: x) c a b.
Proof. done. Qed.

Section Step.
Context (s s' : usys) (J F : gmap pos nat) (R : list (list pos)) (H : shinv s J F R).
Context (i : nat) (p : uproc) (W : list pos) (Hp : us_procs s !! i = Some p) (HR : R !! i = Some W).
Notation stage_at := (stage J F (us_files s)).

Lemma ok_close W' fd k : narrows W W' -> (forall e, fdget (up_fds p) fd = Some e -> stage_at W' (fdclose (up_fds p) fd) (k 0)) ->
  (fdget (up_fds p) fd = None -> stage_at W' (up_fds p) (k (-1))) -> ok (sys_close i p fd k s).
Proof.
  intros HW H1 H2. unfold sys_close. destruct (fdget (up_fds p) fd) as [e|]; apply (ok_set s J F R H i p W HR W'); try done; [by apply (H1 e)|by apply H2].
Qed.
Lemma ok_dup fd k e fd' f : fdget (up_fds p) fd = Some e -> fdalloc (up_fds p) e = Some (fd', f) -> stage_at W f (k fd') -> ok (sys_dup i p fd k s).
Proof. intros H1 H2 H3. unfold sys_dup. rewrite H1. simpl. rewrite H2. by apply (ok_set s J F R H i p W HR W); [apply narrows_refl|]. Qed.
Lemma ok_opens x path mode k fd f : W = [x] -> fdalloc (up_fds p) (OpenFile (length (us_files s))) = Some (fd, f) -> closing (k (-1)) ->
  (forall nd, u_open path mode = Some nd -> stage J (<[x := length (us_files s)]> F) (us_files s ++ [UFile path mode nd 0]) [true :: x] f (k fd)) ->
  ok (sys_open i p path mode k s).
Proof.
  intros HW Hf Hc Hk. unfold sys_open. destruct (u_open path mode) as [nd|] eqn:E; simpl.
  - rewrite Hf. simpl. apply (ok_open s J F R H i p W Hp HR x HW path mode nd); [done|by apply Hk].
  - apply (ok_set s J F R H i p W HR []); [apply narrows_nil|]. by apply st_closing.
Qed.
(** The descriptor of the file that has been opened for the node [x]. *)
Lemma real_opened (x : pos) path mode nd c e : F !! x = None -> u_open path mode = Some nd ->
  let F' := <[x := length (us_files s)]> F in let files := us_files s ++ [UFile path mode nd 0] in
  real J F' files (CFile x path mode) (OpenFile (length (us_files s))) /\ (real J F (us_files s) c e -> real J F' files c e).
Proof.
  intros Hx Hn F' files. split.
  - split; [apply lookup_insert_eq|]. exists nd. split; [|done]. unfold files. by rewrite lookup_app_r, Nat.sub_diag by lia.
  - apply real_mono; [done|by apply insert_subseteq].
Qed.
Lemma fork_pid (k1 k2 k3 : prog) pid : 0 < pid -> (if pid =? -1 then k1 else if pid =? 0 then k2 else k3) = k3.
Proof. intros Hp'. replace (pid =? -1) with false by lia. by replace (pid =? 0) with false by lia. Qed.
Lemma below_one (x : pos) b : forall y, y ∈ [b :: x] -> exists b', y = b' :: x.
Proof. set_solver. Qed.
Lemma below_two (x : pos) : forall y, y ∈ [true :: x; false :: x] -> exists b, y = b :: x.
Proof. set_solver. Qed.

Lemma runcmd_step x c a b a' b' : W = [x] -> up_state p = Run (runcmd c) -> up_fds p = tab3 a' b' -> plan x c a b ->
  real J F (us_files s) a a' -> real J F (us_files s) b b' -> ustep i s = Some s' -> ok s'.
Proof.
  intros HW Hs Hf Hm Ha Hb Hst. pose proof Hst as Hst'. unfold ustep in Hst. rewrite Hp, Hs in Hst.
  destruct c as [[|z args]|c file mode fd|l r|l r|c]; cbn [runcmd] in Hst, Hs; [|injection Hst as <-..].
  - assert (Hc : closing (Exit 1)) by constructor. eapply (ok_closing s J F (<[i := []]> R) i p (Exit 1)); [|done| |done..].
    + eapply shinv_narrow; [done|done|apply narrows_nil| |done]. unfold staged. rewrite Hs. by apply st_closing.
    + apply list_lookup_insert_eq. by eapply lookup_lt_Some.
  - apply (ok_set s J F R H i p W HR []); [apply narrows_nil|]. destruct (u_exec z (z :: args)) as [pg|] eqn:E; simpl.
    + rewrite (Hexec _ _ _ E), Hf. apply (st_started _ _ _ (z :: args) a b); [apply Hm; set_solver|done..].
    + apply st_closing, closing_exec.
  - apply (ok_close W); [apply narrows_refl|..]; rewrite Hf, ?HW; apply plan_redir in Hm as [[-> Hm]|[-> Hm]]; try done; intros e _; [by apply (st_in _ _ _ x b)|by apply (st_out _ _ _ x a)].
  - unfold sys_pipe. rewrite Hf. cbn -[runcmd fork1 setproc]. apply plan_pipe in Hm as [Hl Hr]. destruct (x_fresh s J F R H i p W Hp HR x HW) as [HJ _].
    assert (HG : forall c e, real J F (us_files s) c e -> real (<[x := length (us_pipes s)]> J) F (us_files s) c e).
    { intros c e. rewrite <- (app_nil_r (us_files s)) at 2. apply real_mono; [by apply insert_subseteq|done]. }
    eapply (ok_pipe s J F R H i p W Hp HR x HW); [apply narrows_two|apply below_two|]. apply (st_pipe1 _ _ _ x a b a' b' (length (us_pipes s))); [done|done|apply lookup_insert_eq|by apply HG..].
  - apply plan_list in Hm as [Hl Hr]. apply (ok_fork s J F R H i p W HR [false :: x] [true :: x]); rewrite ?Hf.
    + rewrite HW. apply narrows_swap, narrows_two.
    + intros pid Hpid. rewrite fork_pid by done. by apply (st_wait _ _ _ (false :: x) a b).
    + by apply (st_cmd _ _ _ (true :: x) a b).
  - apply (ok_fork s J F R H i p W HR [] [true :: x]); rewrite ?Hf.
    + rewrite HW. apply narrows_one.
    + intros pid Hpid. rewrite fork_pid by done. apply st_closing. constructor.
    + by apply (st_cmd _ _ _ (true :: x) a b).
Qed.
End Step.
Lemma stage_step i s s' : ok s -> ustep i s = Some s' -> ok s'.
Proof.
  intros (J & F & R & H) Hst. destruct (us_procs s !! i) as [p|] eqn:Hp; [|unfold ustep in Hst; by rewrite Hp in Hst].
  destruct (up_state p) as [pg|st|] eqn:Hs; [|unfold ustep in Hst; by rewrite Hp, Hs in Hst..].
  destruct (Forall2_lookup_l _ _ _ i p (si_procs _ _ _ _ H) Hp) as (W & HR & Hg). unfold staged in Hg. rewrite Hs in Hg.
  inversion Hg as [x a b a' b' c Hm Ha Hb EW Hf|argv a b a' b' Hm Ha Hb EW Hf|t k Hk EW Hf|x b b' c file mode Hm Hb EW Hf|x a a' c file mode Hm Ha EW Hf|x a b a' b' c Hm Ha Hb EW Hf|x a b a' b' j l r Hl Hr Hj Ha Hb EW Hf|x a' b b' j r Hr Hj Hb EW Hf|a b x y EW Hf|a b x y EW Hf|x a a' b' j l Hl Hj Ha EW Hf|x a a' j l Hl Hj Ha EW Hf|x a' b b' j r Hr Hj Hb EW Hf|x b b' j r Hr Hj Hb EW Hf|x a b a' b' j c Hm Ha Hb EW Hf|x a b a' b' j c Hm Ha Hb EW Hf]; subst;
    try (by eapply runcmd_step); try (by eapply ok_closing);
    unfold ustep in Hst; rewrite Hp, Hs in Hst; [done|..].
  - injection Hst as <-. destruct (x_fresh s J F R H i p [x] Hp HR x eq_refl) as [_ HF].
    eapply (ok_opens s J F R H i p [x] Hp HR x); [done|by rewrite <- Hf|apply closing_open|]. intros nd Hn.
    destruct (real_opened s J F x file mode nd b b' HF Hn) as [HO HG]. by apply (st_cmd _ _ _ (true :: x) (CFile x file mode) b); [|done|apply HG].
  - injection Hst as <-. destruct (x_fresh s J F R H i p [x] Hp HR x eq_refl) as [_ HF].
    eapply (ok_opens s J F R H i p [x] Hp HR x); [done|by rewrite <- Hf|apply closing_open|]. intros nd Hn.
    destruct (real_opened s J F x file mode nd a a' HF Hn) as [HO HG]. by apply (st_cmd _ _ _ (true :: x) a (CFile x file mode)); [|apply HG|].
  - eapply (ok_wait s J F R i p [x] (fun _ _ => runcmd c)); [done..| |done]. intros _ _. rewrite <- Hf. by apply (st_cmd _ _ _ x a b).
  - injection Hst as <-. apply (ok_fork s J F R H i p _ HR [false :: x] [true :: x]); rewrite <- ?Hf; [apply (narrows_swap _ [true :: x] [false :: x]), narrows_refl| |by apply (st_left1 _ _ _ x a)].
    intros pid Hpid. rewrite fork_pid by done. by apply (st_pipe2 _ _ _ x a' b b' j).
  - injection Hst as <-. apply (ok_fork s J F R H i p _ HR [] [false :: x]); rewrite <- ?Hf; [apply narrows_refl| |by apply (st_right1 _ _ _ x a' b)].
    intros pid Hpid. rewrite fork_pid by done. apply st_pipe3.
  - injection Hst as <-. apply (ok_close s J F R H i p _ HR []); [apply narrows_refl|..]; rewrite <- Hf; intros; apply st_pipe4 || apply (st_pipe4 _ _ _ a b None y).
  - injection Hst as <-. apply (ok_close s J F R H i p _ HR []); [apply narrows_refl|..]; intros; apply st_closing; repeat constructor.
  - injection Hst as <-. apply (ok_close s J F R H i p _ HR [true :: x]); [apply narrows_refl|..]; rewrite <- Hf; [|done]. intros e _. by apply (st_left2 _ _ _ x a).
  - injection Hst as <-. apply (ok_dup s J F R H i p _ HR 4 _ (PipeW j) 1 (tab (Some a') (Some (PipeW j)) (Some (PipeR j)) (Some (PipeW j)))); [by rewrite <- Hf..|]. by apply (st_ends1 _ _ _ (true :: x) a (CPipeW x)).
  - injection Hst as <-. apply (ok_close s J F R H i p _ HR [false :: x]); [apply narrows_refl|..]; rewrite <- Hf; [|done]. intros e _. by apply (st_right2 _ _ _ x b).
  - injection Hst as <-. apply (ok_dup s J F R H i p _ HR 3 _ (PipeR j) 0 (tab (Some (PipeR j)) (Some b') (Some (PipeR j)) (Some (PipeW j)))); [by rewrite <- Hf..|]. by apply (st_ends1 _ _ _ (false :: x) (CPipeR x) b).
  - injection Hst as <-. apply (ok_close s J F R H i p _ HR [x]); [apply narrows_refl|..]; rewrite <- Hf; [|done]. intros e _. by apply (st_ends2 _ _ _ x a b).
  - injection Hst as <-. apply (ok_close s J F R H i p _ HR [x]); [apply narrows_refl|..]; rewrite <- Hf; [|done]. intros e _. by apply (st_cmd _ _ _ x a b).
Qed.
Lemma stage_steps n s s' : usteps n s s' -> ok s -> ok s'.
Proof. induction 1 as [s|n s s1 s2 i _ IH Hst]; intros H; [done|]. by eapply stage_step; [apply IH|]. Qed.
Definition placed (J F : gmap pos nat) (files : list ufile) (t : fdtable) (argv : list (list Z)) : Prop :=
  exists a b a' b', (argv, a, b) ∈ A /\ t = tab3 a' b' /\ real J F files a a' /\ real J F files b b'.
Lemma stage_exec J F files W t path argv k : stage J F files W t (Exec path argv k) -> head argv = Some path /\ placed J F files t argv.
Proof.
  intros H. inversion H as [x a b a' b' c Hm Ha Hb EW Hf Hr| |t' k' Hk| | | | | | | | | | | | |]; subst; [|by inversion Hk].
  destruct c as [[|z args]|c file mode fd|l r|l r|c]; try done. cbn [runcmd] in Hr. remember (fprintf 2 _ _ _) as k0 eqn:Ek in Hr. clear Ek. injection Hr as -> <- <-.
  split; [done|]. exists a, b, a', b'. repeat split; try done. apply Hm. set_solver.
Qed.
Lemma stage_undefined J F files W t : stage J F files W t Undefined -> exists argv, placed J F files t argv.
Proof.
  intros H. inversion H as [x a b a' b' c Hm Ha Hb EW Hf Hr|argv a b a' b' Hm Ha Hb EW Hf|t' k' Hk| | | | | | | | | | | | |]; subst; [|by exists argv, a, b, a', b'|by inversion Hk].
  by destruct c as [[|z args]|c file mode fd|l r|l r|c].
Qed.
End Stages.


Module ShRunExample.
#[local] Instance progs : Uenv := {| u_open := fun _ _ => Some (UNode (UStat 2 2 0) []); u_exec := fun _ _ => Some Undefined; u_call := fun _ => 0 |}.
(** [ls | grep x > f] *)
Definition pipeline : scmd := PIPE (EXEC [chars "ls"]) (REDIR (EXEC [chars "grep"; chars "x"]) (chars "f") 0x601 1).
Definition start_sh : usys := start (runcmd pipeline) [].
(** Both programs have been started, the right-hand side first. *)
Definition order : list nat := [0; 0; 0; 2; 2; 2; 2; 2; 2; 2; 1; 1; 1; 1; 1]%nat.
Definition at_end : usys := default start_sh (sched order start_sh).
Definition proc_of (i : nat) : uproc := default (UProc None [] Reaped) (us_procs at_end !! i).
Lemma some_default {A} (d : A) (o : option A) : match o with Some _ => true | None => false end = true -> o = Some (default d o).
Proof. by destruct o. Qed.
End ShRunExample.
