(* ===== verification/KvmSpec.v ===== *)
(** * The kernel's page table: [kvmmake] and [kvmmap] of kernel/vm.c and
    [proc_mapstacks] of kernel/proc.c

    [kvmmake] builds the direct map of kernel memory and devices, the
    trampoline and a stack per process with an unmapped page below it.  It
    needs at most 72 pages for the nodes of the table, whatever the layout of
    the kernel image, since all the addresses it maps are in 70 regions of
    two megabytes; with 64 more for the stacks it never runs out of memory
    on a machine that has just booted. *)

From S2P Require Import Prelude Memory Riscv Spinlock Kalloc Vm VmWalk VmUser VmFree.

Ltac decide_nodes := apply (bool_decide_unpack _); vm_compute; exact I.

(** Ranges of addresses. *)
Definition within (a n va : Z) : bool := (a <=? va) && (va <? a + n).
Lemma within_spec a n va : BoolSpec (a <= va < a + n) (~ (a <= va < a + n)) (within a n va).
Proof. unfold within. destruct (Z.leb_spec a va), (Z.ltb_spec va (a + n)); constructor; lia. Qed.
Ltac split_within := repeat match goal with |- context [within ?a ?n ?va] => destruct (within_spec a n va); try (exfalso; lia) end.

(** ** Counting the pages of a table *)

Section Count.
Context `{HC : Ctx} `{HI : Image} `{HO : !ImageOk}.

Definition pages_of (T : tree) : gset Z := map_to_set (fun _ p => p) T.
Lemma elem_pages_of T p : p ∈ pages_of T <-> tpage T p.
Proof. unfold pages_of, tpage. rewrite elem_of_map_to_set. naive_solver. Qed.
Lemma size_pages_of m T root : wf m T root -> size (pages_of T) = size T.
Proof.
  intros W. unfold pages_of, map_to_set. rewrite size_list_to_set.
  - rewrite length_fmap. apply length_map_to_list.
  - apply NoDup_fmap_2_strong; [|apply NoDup_map_to_list]. intros [k1 p1] [k2 p2] H1 H2 E. cbn in E. subst.
    apply elem_of_map_to_list in H1, H2. f_equal. by eapply wf_inj.
Qed.

(** Pages move from the free list to the table. *)
Lemma pt_step_size s l T s' l' T' root : pt_inv s l T root -> pt_step s l T s' l' T' root -> (length l + size T = length l' + size T')%nat.
Proof.
  intros [Hk Hw Hf] [[Hk' Hw' Hf'] _ (used & -> & Hu) _]. rewrite length_app, <- (size_pages_of _ _ _ Hw), <- (size_pages_of _ _ _ Hw').
  assert (E : pages_of T' = pages_of T ∪ list_to_set used) by (apply set_eq; intros p; rewrite elem_of_union, !elem_pages_of, elem_of_list_to_set; apply Hu).
  pose proof (kinv_nodup _ _ Hk) as Hnd. apply NoDup_app in Hnd as (N1 & _ & _). rewrite E, size_union.
  - rewrite size_list_to_set by done. lia.
  - intros p Hp1 Hp2. apply elem_pages_of in Hp1. apply elem_of_list_to_set in Hp2. apply (Hf p Hp1), elem_of_app. by left.
Qed.
Lemma size_keys (T : tree) (K : list (list Z)) : NoDup K -> (forall k, is_Some (T !! k) -> k ∈ K) -> (size T <= length K)%nat.
Proof.
  intros Hn H. rewrite <- size_dom, <- (size_list_to_set (C := gset (list Z)) K) by done.
  apply subseteq_size. intros k Hk. apply elem_of_list_to_set, H. by apply elem_of_dom.
Qed.

(** ** The addresses of the kernel *)

(** The nodes of the table: the root, the gigabytes of the devices, of
    memory and of the top, and the regions of two megabytes in use. *)
Definition nodes : list (list Z) := [[]; [0]; [2]; [255]; [0; 96]; [0; 97]; [0; 128]; [255; 511]] ++ ((fun j => [2; j]) <$> upto 64).
Lemma nodes_ok : NoDup nodes /\ length nodes = 72%nat.
Proof. split; [apply (bool_decide_unpack _); vm_compute; exact I|reflexivity]. Qed.

Definition kernel_va (x : Z) : Prop :=
  UART0 <= x < UART0 + 4096 \/ VIRTIO0 <= x < VIRTIO0 + 4096 \/ PLIC <= x < PLIC + 0x400000 \/ KERNBASE <= x < PHYSTOP \/ MAXVA - 130 * 4096 <= x < MAXVA.
Lemma path_nodes x k : kernel_va x -> k `prefix_of` path 2 x -> k ∈ nodes.
Proof.
  intros Hx Hk. rewrite path2, !PX_eq in Hk by lia. change (2 ^ (12 + 9 * 2)) with 1073741824 in Hk. change (2 ^ (12 + 9 * 1)) with 2097152 in Hk.
  assert (C : k = [] \/ k = [x / 1073741824 mod 512] \/ k = [x / 1073741824 mod 512; x / 2097152 mod 512]).
  { destruct k as [|i [|j k]]; [by left|right; left|right; right]; [apply prefix_cons_inv_1 in Hk; by subst|].
    pose proof (prefix_cons_inv_1 _ _ _ _ Hk) as ->. apply prefix_cons_inv_2 in Hk. pose proof (prefix_cons_inv_1 _ _ _ _ Hk) as ->. apply prefix_cons_inv_2, prefix_nil_inv in Hk. by subst. }
  unfold kernel_va, UART0, VIRTIO0, PLIC, PHYSTOP, KERNBASE in Hx. change MAXVA with 274877906944 in Hx.
  assert (E : x / 1073741824 mod 512 = 0 /\ x / 2097152 mod 512 ∈ [96; 97; 128] \/ x / 1073741824 mod 512 = 255 /\ x / 2097152 mod 512 = 511 \/ x / 1073741824 mod 512 = 2 /\ 0 <= x / 2097152 mod 512 < 64).
  { rewrite !elem_of_cons, elem_of_nil. destruct Hx as [Hx|[Hx|[Hx|[Hx|Hx]]]]; [left|left|left|right; right|right; left]; Z.div_mod_to_equations; lia. }
  unfold nodes. rewrite elem_of_app. destruct E as [[E1 E2]|[[E1 E2]|[E1 E2]]].
  - left. rewrite E1 in C. rewrite !elem_of_cons, elem_of_nil in E2. destruct C as [->|[->| ->]]; [decide_nodes..|]. destruct E2 as [->|[->|[->|[]]]]; decide_nodes.
  - left. rewrite E1, E2 in C. destruct C as [->|[->| ->]]; decide_nodes.
  - rewrite E1 in C. destruct C as [->|[->| ->]]; [left; decide_nodes..|]. right. apply list_elem_of_fmap. eexists. split; [done|]. by apply elem_upto.
Qed.

(** ** Mapping a range *)

(** [c] pages are free or in the table, whose entries are [F]. *)
Record building (c : nat) (F : Z -> Z) (s : kst) (l : list Z) (T : tree) (root : Z) : Prop := {
  bd_pt : pt_inv s l T root;
  bd_keys : forall k, is_Some (T !! k) -> k ∈ nodes;
  bd_count : (length l + size T = c)%nat;
  bd_pte : forall va, 0 <= va < MAXVA -> pte_at (k_mem s) T va = F va
}.

Lemma kvmmap_ok c F s l T root va pa n perm :
  building c F s l T root -> (72 < c)%nat -> 0 < n -> 0 <= va -> va mod 4096 = 0 -> va + n * 4096 <= MAXVA ->
  0 <= pa -> pa + n * 4096 <= 2 ^ 56 -> 0 <= perm < 1024 ->
  (forall x, va <= x < va + n * 4096 -> kernel_va x) -> (forall x, va <= x < va + n * 4096 -> Z.land (F x) PTE_V = 0) ->
  exists s' l' T', kvmmap root va pa (n * 4096) perm s = Done tt s' /\ building c (map_range F va n pa perm) s' l' T' root /\ pt_step s l T s' l' T' root.
Proof.
  intros [B1 B2 B3 B4] Hc Hn Hva Hal Hmax Hpa Hpa2 Hperm Hk Hfree. rewrite MAXVA_eq in Hmax.
  assert (E1 : PGROUNDDOWN va = va) by (apply PGROUNDDOWN_id; (done || lia)).
  assert (E2 : npages va (n * 4096) = n).
  { unfold npages. rewrite E1, PGROUNDDOWN_eq by lia. Z.div_mod_to_equations. lia. }
  destruct (mappages_keys va (n * 4096) pa perm s l T root B1) as (r & j & s' & l' & T' & Hm & Hst & Hks & Hr & Hp); rewrite ?E1, ?E2, ?MAXVA_eq in *; try lia; try done.
  { intros j Hj. rewrite B4 by lia. apply Hfree. lia. }
  assert (Hkeys : forall k, is_Some (T' !! k) -> k ∈ nodes) by (intros k Hk'; apply Hks in Hk' as [?|(x & Hx & Hpre)]; [by apply B2|eapply path_nodes; [|done]; apply Hk; lia]).
  pose proof (pt_step_size _ _ _ _ _ _ _ B1 Hst) as Hsz. destruct nodes_ok as [Nd Nl]. pose proof (size_keys T' nodes Nd Hkeys) as Hle. rewrite Nl in Hle.
  destruct Hr as [[-> ->]|(_ & _ & ->)]; [|simpl in Hsz; lia]. exists s', l', T'. split; [|split; [|done]].
  - unfold kvmmap. by rewrite (bind_Done _ _ _ _ _ Hm).
  - split; [apply Hst|done|lia|]. intros x Hx. rewrite Hp by done. unfold map_range. destruct (_ && _); [done|]. by apply B4.
Qed.

(** ** The kernel stacks *)

Definition STACK0 : Z := 2 ^ 26 - 3.
Lemma KSTACK_page p : KSTACK p = (STACK0 - 2 * p) * 4096.
Proof. unfold KSTACK, TRAMPOLINE, PGSIZE. rewrite MAXVA_eq. unfold STACK0. lia. Qed.

(** The entries when the stacks [stk] have been mapped: every second page
    below the trampoline. *)
Definition stack_pte (F : Z -> Z) (stk : list Z) (va : Z) : Z :=
  let d := STACK0 - va / 4096 in
  if (0 <=? d) && Z.even d && (d / 2 <? Z.of_nat (length stk)) then Z.lor (Z.lor (PA2PTE (nth (Z.to_nat (d / 2)) stk 0)) (Z.lor PTE_R PTE_W)) PTE_V else F va.

Lemma stack_pte_snoc F stk q va :
  map_range (stack_pte F stk) (KSTACK (Z.of_nat (length stk))) 1 q (Z.lor PTE_R PTE_W) va = stack_pte F (stk ++ [q]) va.
Proof.
  rewrite map_range_one by (rewrite KSTACK_page; apply Z.mod_mul; lia). rewrite KSTACK_page, Z.div_mul by lia. unfold stack_pte. cbv zeta. rewrite length_app. change (length [q]) with 1%nat. set (d := STACK0 - va / 4096).
  destruct (Z.eqb_spec (va / 4096) (STACK0 - 2 * Z.of_nat (length stk))) as [E|E].
  - assert (Ed : d = 2 * Z.of_nat (length stk)) by lia. rewrite Ed, Z.even_mul, (Z.mul_comm 2), Z.div_mul by lia. simpl (_ || _).
    rewrite Nat2Z.id, app_nth2, Nat.sub_diag by lia. destruct (Z.leb_spec 0 (Z.of_nat (length stk) * 2)); [|lia]. destruct (Z.ltb_spec (Z.of_nat (length stk)) (Z.of_nat (length stk + 1))); [done|lia].
  - destruct (Z.leb_spec 0 d), (Z.even d) eqn:Ev; try done. apply Z.even_spec in Ev as [e Ee]. rewrite Ee, (Z.mul_comm 2), Z.div_mul by lia. simpl (_ && _).
    destruct (Z.ltb_spec e (Z.of_nat (length stk))), (Z.ltb_spec e (Z.of_nat (length stk + 1))); try lia. by rewrite app_nth1 by lia.
Qed.

Lemma kalloc_building c F s l T root : building (S c) F s l T root -> (72 <= c)%nat ->
  exists q s1 l', l = q :: l' /\ kalloc s = Done q s1 /\ building c F s1 l' T root /\ page_ok q /\ q ∉ l' /\ ~ tpage T q /\
    forall x, ~ in_page q x -> mget (k_mem s1) x = mget (k_mem s) x.
Proof.
  intros [B1 B2 B3 B4] Hc. destruct nodes_ok as [Nd Nl]. pose proof (size_keys T nodes Nd B2) as Hle. rewrite Nl in Hle.
  destruct l as [|q l']; [simpl in B3; lia|]. destruct B1 as [Hk Hw Hf]. destruct (kalloc_inv s q l' Hk) as (s1 & H1 & K1 & O1 & _).
  pose proof (kinv_pages _ _ Hk) as Hok. apply Forall_cons_1 in Hok as [Hok _]. pose proof (kinv_nodup _ _ Hk) as Hnd. apply NoDup_cons in Hnd as [Hn _].
  assert (Hnt : ~ tpage T q) by (intros Ht; apply (Hf q Ht); left).
  assert (Ht : forall p x, tpage T p -> in_page p x -> mget (k_mem s1) x = mget (k_mem s) x).
  { intros p x Hp Hx. apply O1. intros Hx'. apply Hnt. destruct Hp as [k Hk']. rewrite (page_disjoint q p x); [by exists k|done|by apply (wf_page _ _ _ Hw k)|done|done]. }
  exists q, s1, l'. conjs; try done. split; [split; [done|by apply (wf_frame (k_mem s))|intros p Hp Hl; apply (Hf p Hp); by right]|done|simpl in B3; lia|].
  intros va Hva. rewrite (pte_at_frame (k_mem s)) by done. by apply B4.
Qed.

(** [stk] are pages of their own. *)
Record stacks_ok (l : list Z) (T : tree) (stk : list Z) : Prop := {
  sk_nodup : NoDup stk;
  sk_page : forall q, q ∈ stk -> page_ok q /\ q ∉ l /\ ~ tpage T q
}.
(** Nothing is mapped below the trampoline yet. *)
Definition top_free (F : Z -> Z) : Prop := forall va, MAXVA - 130 * 4096 <= va < TRAMPOLINE -> Z.land (F va) PTE_V = 0.

Lemma stack_step c F s l T root stk : building (S c) (stack_pte F stk) s l T root -> (72 < c)%nat -> top_free F -> (length stk < 64)%nat -> stacks_ok l T stk ->
  wp (pa <-! kalloc ;; panic_if (pa =? 0) "kalloc" ;;; kvmmap root (KSTACK (Z.of_nat (length stk))) pa PGSIZE (Z.lor PTE_R PTE_W))
    (fun _ s' => exists l' T' q, building c (stack_pte F (stk ++ [q])) s' l' T' root /\ stacks_ok l' T' (stk ++ [q])) s.
Proof.
  intros B Hc Hfree Hlen [S1 S2]. destruct (kalloc_building c _ s l T root B) as (q & s1 & l1 & -> & H1 & B1 & Hok & Hnl & Hnt & O1); [lia|].
  pose proof (page_ok_pos q Hok) as Hq. set (p := Z.of_nat (length stk)). pose proof (KSTACK_page p) as Ep. destruct (page_ok_56 q Hok) as [Q1 Q2].
  assert (Hr : forall x, KSTACK p <= x < KSTACK p + 1 * 4096 -> x / 4096 = STACK0 - 2 * p) by (intros x Hx; rewrite Ep in Hx; Z.div_mod_to_equations; lia).
  assert (Hs0 : STACK0 = 67108861) by reflexivity. assert (Hm : MAXVA = 67108864 * 4096) by reflexivity. assert (Htr : TRAMPOLINE = 67108863 * 4096) by reflexivity.
  destruct (kvmmap_ok c (stack_pte F stk) s1 l1 T root (KSTACK p) q 1 (Z.lor PTE_R PTE_W) B1) as (s' & l' & T' & H2 & B2 & St); try lia.
  - rewrite Ep. apply Z.mod_mul. lia.
  - by vm_compute.
  - intros x Hx. right. right. right. right. lia.
  - intros x Hx. unfold stack_pte. rewrite (Hr x Hx). replace (STACK0 - (STACK0 - 2 * p)) with (p * 2) by lia. rewrite Z.div_mul by lia.
    destruct (Z.ltb_spec p (Z.of_nat (length stk))); [lia|]. rewrite andb_false_r. apply Hfree. lia.
  - exists tt, s'. split; [by rewrite (bind_Done _ _ _ _ _ H1), (bind_Done _ _ s1 tt s1) by (unfold panic_if; destruct (Z.eqb_spec q 0); [lia|done])|].
    exists l', T', q. split; [split; [apply B2|apply B2|apply B2|]|].
    + intros va Hva. rewrite (bd_pte _ _ _ _ _ _ B2) by done. apply stack_pte_snoc.
    + destruct (ps_list _ _ _ _ _ _ _ St) as (used & -> & Hu). split.
      * apply NoDup_app. split; [done|]. split; [|apply NoDup_singleton]. intros x Hx ->%list_elem_of_singleton. destruct (S2 q Hx) as (_ & Hn & _). apply Hn, elem_of_cons. by left.
      * intros x [Hx| ->%list_elem_of_singleton]%elem_of_app; [destruct (S2 x Hx) as (P1 & P2 & P3)|]; rewrite Hu; rewrite ?elem_of_cons, ?elem_of_app in *; tauto.
Qed.

Lemma proc_mapstacks_ok c F s l T root : building (64 + c) F s l T root -> (72 < c)%nat -> top_free F ->
  wp (proc_mapstacks root) (fun _ s' => exists l' T' stk, length stk = 64%nat /\ building c (stack_pte F stk) s' l' T' root /\ stacks_ok l' T' stk) s.
Proof.
  intros B Hc Hfree. unfold proc_mapstacks.
  apply (wp_upto (fun k s' => exists l' T' stk, length stk = Z.to_nat k /\ building (64 + c - length stk) (stack_pte F stk) s' l' T' root /\ stacks_ok l' T' stk)).
  - exists l, T, []. split; [done|]. split; [|split; [constructor|intros q Hq; by apply elem_of_nil in Hq]]. destruct B as [B1 B2 B3 B4]. split; try done. intros va Hva.
    rewrite B4 by done. unfold stack_pte. cbv zeta. destruct (Z.leb_spec 0 (STACK0 - va / 4096)); [|done]. destruct (Z.ltb_spec ((STACK0 - va / 4096) / 2) (Z.of_nat (length (@nil Z)))); [simpl in *; Z.div_mod_to_equations; lia|]. by rewrite andb_false_r.
  - intros k s1 Hk (l1 & T1 & stk & Hl & B1 & S1). unfold NPROC in Hk. replace (64 + c - length stk)%nat with (S (63 + c - length stk)) in B1 by lia.
    eapply wp_mono; [replace k with (Z.of_nat (length stk)) by lia; apply (stack_step _ _ _ _ _ _ _ B1); (done || lia)|]. intros _ s2 (l2 & T2 & q & B2 & S2). exists l2, T2, (stk ++ [q]).
    rewrite length_app. simpl (length [q]). split; [lia|]. split; [|done]. by replace (64 + c - (length stk + 1))%nat with (63 + c - length stk)%nat by lia.
  - intros s1 (l1 & T1 & stk & Hl & B1 & S1). change (Z.max 0 NPROC) with 64 in Hl. exists l1, T1, stk. split; [done|]. split; [|done]. by replace c with (64 + c - length stk)%nat by (rewrite Hl; lia).
Qed.

(** ** The whole table *)

Definition RW : Z := Z.lor PTE_R PTE_W.
Definition RX : Z := Z.lor PTE_R PTE_X.
(** An entry that maps a page to itself. *)
Definition direct (perm va : Z) : Z := Z.lor (Z.lor (PA2PTE (va / 4096 * 4096)) perm) PTE_V.
Definition kernel_pte (stk : list Z) (va : Z) : Z :=
  if within UART0 PGSIZE va || within VIRTIO0 PGSIZE va || within PLIC 0x400000 va then direct RW va
  else if within KERNBASE (etext - KERNBASE) va then direct RX va
  else if within etext (PHYSTOP - etext) va then direct RW va
  else if within TRAMPOLINE PGSIZE va then tramp_pte
  else stack_pte (fun _ => 0) stk va.

(** What the six calls of [kvmmap] leave. *)
Definition mapped6 : Z -> Z :=
  map_range (map_range (map_range (map_range (map_range (map_range (fun _ => 0)
    UART0 1 UART0 RW) VIRTIO0 1 VIRTIO0 RW) PLIC 1024 PLIC RW) KERNBASE ((etext - KERNBASE) / 4096) KERNBASE RX)
    etext ((PHYSTOP - etext) / 4096) etext RW) TRAMPOLINE 1 trampoline RX.

Lemma range_direct F a n perm va : map_range F a n a perm va = if within a (n * 4096) va then direct perm va else F va.
Proof. unfold map_range, within, direct. destruct (_ && _); [|done]. do 3 f_equal. lia. Qed.

Context (Het : etext mod 4096 = 0) (Htr : 0 <= trampoline) (Htr2 : trampoline + 4096 <= 2 ^ 56).

Lemma mapped6_eq va : 0 <= va < MAXVA -> mapped6 va =
  if within UART0 PGSIZE va || within VIRTIO0 PGSIZE va || within PLIC 0x400000 va then direct RW va
  else if within KERNBASE (etext - KERNBASE) va then direct RX va else if within etext (PHYSTOP - etext) va then direct RW va
  else if within TRAMPOLINE PGSIZE va then tramp_pte else 0.
Proof.
  intros Hva. unfold mapped6. rewrite map_range_one by done. rewrite !range_direct. destruct etext_range as [E1 E2]. destruct end_range as [E3 E4]. 
  replace ((etext - KERNBASE) / 4096 * 4096) with (etext - KERNBASE) by (unfold KERNBASE in *; Z.div_mod_to_equations; lia).
  replace ((PHYSTOP - etext) / 4096 * 4096) with (PHYSTOP - etext) by (unfold PHYSTOP, KERNBASE in *; Z.div_mod_to_equations; lia).
  change (1 * 4096) with 4096. change (1024 * 4096) with 0x400000. change PGSIZE with 4096. change MAXVA with (67108864 * 4096) in Hva. change (TRAMPOLINE / 4096) with 67108863.
  unfold UART0, VIRTIO0, PLIC, PHYSTOP, KERNBASE in *. change TRAMPOLINE with (67108863 * 4096).
  assert (Ht : within (67108863 * 4096) 4096 va = (va / 4096 =? 67108863)) by (destruct (within_spec (67108863 * 4096) 4096 va), (Z.eqb_spec (va / 4096) 67108863); try done; exfalso; Z.div_mod_to_equations; lia).
  rewrite Ht. destruct (Z.eqb_spec (va / 4096) 67108863) as [Ev|Ev].
  - assert (67108863 * 4096 <= va) by (Z.div_mod_to_equations; lia). split_within; done.
  - split_within; done.
Qed.

Lemma kernel_pte_eq stk va : (length stk <= 64)%nat -> 0 <= va < MAXVA -> stack_pte mapped6 stk va = kernel_pte stk va.
Proof.
  intros Hl Hva. unfold kernel_pte, stack_pte. cbv zeta. destruct (_ && (_ <? _)) eqn:E; [|by rewrite mapped6_eq].
  apply andb_true_iff in E as [[E1 _]%andb_true_iff E2]. apply Z.leb_le in E1. apply Z.ltb_lt in E2. destruct etext_range as [X1 X2]. destruct end_range as [X3 X4].
  unfold STACK0, UART0, VIRTIO0, PLIC, PHYSTOP, KERNBASE in *. change TRAMPOLINE with (67108863 * 4096). change PGSIZE with 4096.
  assert (V : 67108733 * 4096 <= va < 67108862 * 4096) by (Z.div_mod_to_equations; lia). split_within; done.
Qed.

(** Stacks are mapped, and the page below each is not. *)
Lemma kernel_pte_stack stk p va : length stk = 64%nat -> 0 <= p < 64 ->
  (KSTACK p <= va < KSTACK p + 4096 -> exists q, stk !! Z.to_nat p = Some q /\ kernel_pte stk va = Z.lor (Z.lor (PA2PTE q) RW) PTE_V) /\
  (KSTACK p - 4096 <= va < KSTACK p -> kernel_pte stk va = 0).
Proof.
  intros Hl Hp. rewrite KSTACK_page. unfold STACK0. destruct etext_range as [X1 X2]. destruct end_range as [X3 X4].
  assert (G : 67108730 * 4096 <= va < 67108863 * 4096 -> kernel_pte stk va = stack_pte (fun _ => 0) stk va).
  { intros Hv. unfold kernel_pte, UART0, VIRTIO0, PLIC, PHYSTOP, KERNBASE in *. change TRAMPOLINE with (67108863 * 4096). change PGSIZE with 4096. split_within; done. }
  split; intros Hva; rewrite G by lia; unfold stack_pte, STACK0; cbv zeta.
  - replace (2 ^ 26 - 3 - va / 4096) with (p * 2) by (Z.div_mod_to_equations; lia). rewrite Z.div_mul, Z.even_mul, orb_true_r by lia.
    destruct (Z.leb_spec 0 (p * 2)), (Z.ltb_spec p (Z.of_nat (length stk))); try lia. simpl. destruct (lookup_lt_is_Some_2 stk (Z.to_nat p)) as [q Hq]; [lia|].
    exists q. split; [done|]. by rewrite (nth_lookup_Some _ _ _ _ Hq).
  - replace (2 ^ 26 - 3 - va / 4096) with (1 + p * 2) by (Z.div_mod_to_equations; lia). rewrite Z.even_add, Z.even_mul, orb_true_r. by destruct (0 <=? _).
Qed.

(** A new table, of the root alone. *)
Lemma kvm_root s p l : kinv s (p :: l) -> exists s1, (kpgtbl <-! kalloc ;; (if kpgtbl =? 0 then undef else ret tt) ;;; kmemset kpgtbl 0 PGSIZE ;;; ret kpgtbl) s = Done p s1 /\
  building (S (length l)) (fun _ => 0) s1 l (new_tree p) p.
Proof.
  intros Hk. destruct (uvmcreate_spec s (p :: l) Hk) as (s1 & H & Hi & Hp & _). exists s1. pose proof (kinv_pages _ _ Hk) as Hok. apply Forall_cons_1 in Hok as [Hok _]. apply page_ok_pos in Hok.
  unfold uvmcreate in H. apply bind_Done_inv in H as (q & s0 & H0 & H). split.
  - rewrite (bind_Done _ _ _ _ _ H0). destruct (kalloc_inv s p l Hk) as (s0' & H0' & _). rewrite H0 in H0'. injection H0' as -> _.
    destruct (Z.eqb_spec p 0); [lia|]. by rewrite (bind_Done _ _ s0 tt s0) by done.
  - split; [apply Hi| | |done].
    + intros k [q' Hk']. unfold new_tree in Hk'. apply lookup_singleton_Some in Hk' as [<- _]. decide_nodes.
    + unfold new_tree. rewrite map_size_singleton. lia.
Qed.

Lemma kvm_step c F s l T root va pa n perm (k : M kst unit) Q :
  building c F s l T root -> (72 < c)%nat -> 0 < n -> 0 <= va -> va mod 4096 = 0 -> va + n * 4096 <= MAXVA -> 0 <= pa -> pa + n * 4096 <= 2 ^ 56 -> 0 <= perm < 1024 ->
  (forall x, va <= x < va + n * 4096 -> kernel_va x) -> (forall x, va <= x < va + n * 4096 -> Z.land (F x) PTE_V = 0) ->
  (forall s' l' T', building c (map_range F va n pa perm) s' l' T' root -> wp k Q s') -> wp (kvmmap root va pa (n * 4096) perm ;;; k) Q s.
Proof.
  intros B Hc H1 H2 H3 H4 H5 H6 H7 H8 H9 Hk. destruct (kvmmap_ok c F s l T root va pa n perm B Hc H1 H2 H3 H4 H5 H6 H7 H8 H9) as (s' & l' & T' & H & B' & _).
  apply wp_bind. exists tt, s'. split; [done|]. by apply (Hk s' l' T').
Qed.
Ltac kvm_side := first [done | lia | (intros; unfold kernel_va, UART0, VIRTIO0, PLIC, PHYSTOP, KERNBASE in *; lia) | (intros; rewrite ?range_direct; split_within; done)].

(** The direct maps are in the kernel's addresses and do not overlap. *)
Lemma kvm_maps c s l T root : building c (fun _ => 0) s l T root -> (72 < c)%nat -> etext < PHYSTOP ->
  wp (kvmmap root UART0 UART0 PGSIZE RW ;;; kvmmap root VIRTIO0 VIRTIO0 PGSIZE RW ;;; kvmmap root PLIC PLIC 0x400000 RW ;;;
      kvmmap root KERNBASE KERNBASE (etext - KERNBASE) RX ;;; kvmmap root etext etext (PHYSTOP - etext) RW ;;; kvmmap root TRAMPOLINE trampoline PGSIZE RX)
    (fun _ s' => exists l' T', building c mapped6 s' l' T' root) s.
Proof.
  intros B Hc Hph. destruct etext_range as [X1 X2]. destruct end_range as [X3 X4].
  set (n4 := (etext - KERNBASE) / 4096). set (n5 := (PHYSTOP - etext) / 4096).
  assert (E4 : etext - KERNBASE = n4 * 4096) by (unfold n4, KERNBASE in *; Z.div_mod_to_equations; lia). assert (E5 : PHYSTOP - etext = n5 * 4096) by (unfold n5, PHYSTOP, KERNBASE in *; Z.div_mod_to_equations; lia).
  rewrite E4, E5. change PGSIZE with (1 * 4096). change 0x400000 with (1024 * 4096). unfold mapped6. fold n4 n5.
  assert (Hm : MAXVA = 67108864 * 4096) by reflexivity. assert (Htp : TRAMPOLINE = 67108863 * 4096) by reflexivity.
  assert (Hrw : 0 <= RW < 1024) by (by vm_compute). assert (Hrx : 0 <= RX < 1024) by (by vm_compute). unfold UART0, VIRTIO0, PLIC, PHYSTOP, KERNBASE in *.
  assert (Hal : (2147483648 + 128 * 1024 * 1024) mod 4096 = 0) by reflexivity.
  eapply kvm_step; [exact B|kvm_side..|]. clear B s l T. intros s l T B.
  eapply kvm_step; [exact B|kvm_side..|]. clear B s l T. intros s l T B.
  eapply kvm_step; [exact B|kvm_side..|]. clear B s l T. intros s l T B.
  eapply kvm_step; [exact B|kvm_side..|]. clear B s l T. intros s l T B.
  eapply kvm_step; [exact B|kvm_side..|]. clear B s l T. intros s l T B.
  destruct (kvmmap_ok _ _ s l T root TRAMPOLINE trampoline 1 RX B) as (s' & l' & T' & H & B' & _); [kvm_side..|]. exists tt, s'. split; [done|]. by exists l', T'.
Qed.

(** C24: [kvmmake] builds the kernel's address space.  With 137 free pages it
    returns a table in which the devices and the memory from the end of the
    kernel text are mapped to themselves, readable and writable; the kernel
    text to itself, readable and executable; the trampoline at the top; and
    below it a page of its own for the stack of each process, with the page
    below every stack unmapped.  Nothing else is mapped. *)
Theorem kvmmake_correct s l : kinv s l -> (136 < length l)%nat ->
  exists root s' l' T stk, kvmmake s = Done root s' /\ pt_inv s' l' T root /\ length stk = 64%nat /\ stacks_ok l' T stk /\
    (forall va, 0 <= va < MAXVA -> pte_at (k_mem s') T va = kernel_pte stk va) /\
    forall p, 0 <= p < 64 ->
      (forall va, KSTACK p <= va < KSTACK p + 4096 -> exists q, stk !! Z.to_nat p = Some q /\ pte_at (k_mem s') T va = Z.lor (Z.lor (PA2PTE q) RW) PTE_V) /\
      (forall va, KSTACK p - 4096 <= va < KSTACK p -> pte_at (k_mem s') T va = 0).
Proof.
  intros Hk Hl. destruct l as [|root l]; [simpl in Hl; lia|]. simpl in Hl. pose proof (kinv_pages _ _ Hk) as Hok. apply Forall_cons_1 in Hok as [[_ Hok] _].
  destruct (kvm_root s root l Hk) as (s1 & H1 & B1). assert (Hph : etext < PHYSTOP) by (destruct etext_range; lia).
  destruct (kvm_maps _ _ _ _ _ B1 ltac:(lia) Hph) as ([] & s2 & H2 & l2 & T2 & B2).
  assert (Hfree : top_free mapped6).
  { intros va Hva. change MAXVA with (67108864 * 4096) in Hva. change TRAMPOLINE with (67108863 * 4096) in Hva. rewrite mapped6_eq by (change MAXVA with (67108864 * 4096); lia).
    destruct etext_range, end_range. unfold UART0, VIRTIO0, PLIC, PHYSTOP, KERNBASE in *. change TRAMPOLINE with (67108863 * 4096). change PGSIZE with 4096. split_within; done. }
  replace (S (length l)) with (64 + (S (length l) - 64))%nat in B2 by lia.
  destruct (proc_mapstacks_ok _ _ _ _ _ _ B2 ltac:(lia) Hfree) as ([] & s3 & H3 & l3 & T3 & stk & Hs & B3 & S3).
  assert (Hpte : forall va, 0 <= va < MAXVA -> pte_at (k_mem s3) T3 va = kernel_pte stk va) by (intros va Hva; rewrite (bd_pte _ _ _ _ _ _ B3) by done; apply kernel_pte_eq; (done || lia)).
  exists root, s3, l3, T3, stk. conjs; [|apply B3|done|done|done|].
  - unfold kvmmake. apply bind_Done_inv in H1 as (q & t1 & K1 & H1). rewrite (bind_Done _ _ _ _ _ K1). apply bind_Done_inv in H1 as ([] & t2 & K2 & H1). rewrite (bind_Done _ _ _ _ _ K2).
    apply bind_Done_inv in H1 as ([] & t3 & K3 & H1). rewrite (bind_Done _ _ _ _ _ K3). injection H1 as -> ->. fold RW RX.
    do 5 (apply bind_Done_inv in H2 as ([] & ? & K & H2); rewrite (bind_Done _ _ _ _ _ K); clear K). rewrite (bind_Done _ _ _ _ _ H2), (bind_Done _ _ _ _ _ H3). done.
  - intros p Hp. pose proof (KSTACK_page p) as Ep. unfold STACK0 in Ep. change MAXVA with (67108864 * 4096) in Hpte.
    split; intros va Hva; destruct (kernel_pte_stack stk p va Hs Hp) as [G1 G2]; rewrite Hpte by lia; auto.
Qed.
End Count.

(** ** After booting *)

Module KvmExample.
Export VmExample.

Lemma length_page_range p n : length (page_range p n) = n.
Proof. revert p. induction n as [|n IH]; intros p; [done|]. simpl. by rewrite IH. Qed.

Lemma kvmmake_correct_witness : exists s root s', kinit (Kst ∅ (initlock "kmem") 0) = Done tt s /\ kvmmake s = Done root s'.
Proof.
  destruct (kinit_inv (Kst ∅ (initlock "kmem") 0) eq_refl) as (s & H & Hk).
  assert (E1 : etext mod 4096 = 0) by (vm_compute; reflexivity). assert (E2 : 0 <= trampoline) by (vm_compute; discriminate). assert (E3 : trampoline + 4096 <= 2 ^ 56) by (vm_compute; discriminate).
  destruct (kvmmake_correct E1 E2 E3 s (reverse all_pages) Hk) as (root & s' & l' & T & stk & H' & _).
  - rewrite length_reverse. unfold all_pages. rewrite length_page_range. apply Nat2Z.inj_lt. rewrite Z2Nat.id by (vm_compute; discriminate). vm_compute. reflexivity.
  - exists s, root, s'. exact (conj H H').
Defined.
End KvmExample.
