(* ===== verification/Hart.v ===== *)
(** * A RISC-V hart

    The part of the processor that kernel/entry.S, kernel/swtch.S,
    kernel/trampoline.S, kernel/kernelvec.S, kernel/start.c and the inline
    assembly of kernel/riscv.h rely on: the integer registers, the control
    and status registers with their supervisor views, the three privilege
    modes with trap entry and return, Sv39 address translation, and physical
    memory protection.  An access that the hardware would refuse ends the run
    with [Undef].  The bits SUM and MXR of mstatus are zero, as xv6 leaves
    them, and the accessed and dirty bits of page table entries are not
    looked at. *)

From S2P Require Import Prelude Memory Riscv.

Inductive reg :=
| zero | ra | sp | gp | tp | t0 | t1 | t2 | s0 | s1 | a0 | a1 | a2 | a3 | a4 | a5 | a6 | a7
| s2 | s3 | s4 | s5 | s6 | s7 | s8 | s9 | s10 | s11 | t3 | t4 | t5 | t6.
#[export] Instance reg_eq_dec : EqDecision reg.
Proof. solve_decision. Defined.

(** [Sstatus], [Sie] and [Sip] are views of [Mstatus], [Mie] and [Mip]. *)
Inductive csr :=
| Mhartid | Mstatus | Mepc | Mcause | Mtvec | Mie | Mip | Mscratch | Medeleg | Mideleg | Pmpaddr0 | Pmpcfg0 | Mcounteren
| Sstatus | Sie | Sip | Sepc | Scause | Stval | Stvec | Satp | Sscratch | Time.
#[export] Instance csr_eq_dec : EqDecision csr.
Proof. solve_decision. Defined.

Inductive mode := UMode | SMode | MMode.
#[export] Instance mode_eq_dec : EqDecision mode.
Proof. solve_decision. Defined.
Definition mode_num (p : mode) : Z := match p with UMode => 0 | SMode => 1 | MMode => 3 end.
Definition num_mode (x : Z) : mode := if x =? 0 then UMode else if x =? 1 then SMode else MMode.

Record hart := Hart { regs : reg -> Z; csrs_of : csr -> Z; priv : mode; pc : Z; hmem : mem }.
Definition set_regs (f : reg -> Z) (h : hart) : hart := Hart f (csrs_of h) (priv h) (pc h) (hmem h).
Definition set_csrf (f : csr -> Z) (h : hart) : hart := Hart (regs h) f (priv h) (pc h) (hmem h).
Definition set_pc (v : Z) (h : hart) : hart := Hart (regs h) (csrs_of h) (priv h) v (hmem h).
Definition set_priv (p : mode) (h : hart) : hart := Hart (regs h) (csrs_of h) p (pc h) (hmem h).
Definition set_hmem (m : mem) (h : hart) : hart := Hart (regs h) (csrs_of h) (priv h) (pc h) m.

Definition rget (r : reg) (h : hart) : Z := if decide (r = zero) then 0 else regs h r.
Definition rset (r : reg) (v : Z) (h : hart) : hart := set_regs (<[r := u64 v]> (regs h)) h.

(** ** Control and status registers *)

(** The bits of mstatus that sstatus shows: SIE, SPIE, UBE, SPP, VS, FS, XS,
    SUM, MXR, UXL and SD. *)
Definition SSTATUS_MASK : Z := 0x80000003000DE762.
(** The bit of mip that a write to sip changes: SSIP. *)
Definition SIP_MASK : Z := 2.

(** Delegation registers keep only the bits that can be delegated: the
    supervisor interrupts, and all exceptions but calls from machine mode. *)
Definition MIDELEG_MASK : Z := 0x222.
Definition MEDELEG_MASK : Z := 0xb3ff.

Definition merge (mask old new : Z) : Z := Z.lor (Z.ldiff old mask) (Z.land new mask).

Definition csr_get (h : hart) (c : csr) : Z :=
  match c with
  | Sstatus => Z.land (csrs_of h Mstatus) SSTATUS_MASK
  | Sie => Z.land (csrs_of h Mie) (csrs_of h Mideleg)
  | Sip => Z.land (csrs_of h Mip) (csrs_of h Mideleg)
  | c => csrs_of h c
  end.
Definition csr_put (c : csr) (v : Z) (h : hart) : hart :=
  set_csrf (match c with
            | Sstatus => <[Mstatus := merge SSTATUS_MASK (csrs_of h Mstatus) v]> (csrs_of h)
            | Sie => <[Mie := merge (csrs_of h Mideleg) (csrs_of h Mie) v]> (csrs_of h)
            | Sip => <[Mip := merge (Z.land SIP_MASK (csrs_of h Mideleg)) (csrs_of h Mip) v]> (csrs_of h)
            | Mideleg => <[Mideleg := Z.land v MIDELEG_MASK]> (csrs_of h)
            | Medeleg => <[Medeleg := Z.land v MEDELEG_MASK]> (csrs_of h)
            | c => <[c := v]> (csrs_of h)
            end) h.

(** The lowest mode that may use a register. *)
Definition csr_mode (c : csr) : mode :=
  match c with
  | Mhartid | Mstatus | Mepc | Mcause | Mtvec | Mie | Mip | Mscratch | Medeleg | Mideleg | Pmpaddr0 | Pmpcfg0 | Mcounteren => MMode
  | Time => UMode
  | _ => SMode
  end.
Definition csr_ok (c : csr) (h : hart) : bool := mode_num (csr_mode c) <=? mode_num (priv h).

Definition csrr (c : csr) : M hart Z :=
  ok <-! gets (csr_ok c) ;; if ok then gets (fun h => csr_get h c) else undef.
Definition csrw (c : csr) (v : Z) : M hart unit :=
  ok <-! gets (csr_ok c) ;; if ok then modify (csr_put c (u64 v)) else undef.

(** ** Address translation and protection *)

Inductive access := Fetch | Load | Store.
#[export] Instance access_eq_dec : EqDecision access.
Proof. solve_decision. Defined.
Definition access_bit (a : access) : Z := match a with Fetch => PTE_X | Load => PTE_R | Store => PTE_W end.

(** A user page is for user mode only, and the others for supervisor mode. *)
Definition leaf_allows (p : mode) (a : access) (pte : Z) : bool :=
  negb (Z.land pte (access_bit a) =? 0) && Bool.eqb (negb (Z.land pte PTE_U =? 0)) (bool_decide (p = UMode)).

(** The walk of the table at [pt]: an entry without R, W and X points to the
    next level, and a leaf above the last level maps an aligned large page. *)
Fixpoint sv39 (level : nat) (m : mem) (pt va : Z) (p : mode) (a : access) : option Z :=
  let pte := ld64 m (pt + 8 * PX (Z.of_nat level) va) in
  let span := 2 ^ PXSHIFT (Z.of_nat level) in
  if Z.land pte PTE_V =? 0 then None
  else if Z.land pte (Z.lor PTE_R (Z.lor PTE_W PTE_X)) =? 0 then
    match level with O => None | S n => sv39 n m (PTE2PA pte) va p a end
  else if (Z.land pte PTE_R =? 0) && negb (Z.land pte PTE_W =? 0) then None
  else if leaf_allows p a pte && (PTE2PA pte mod span =? 0) then Some (PTE2PA pte + va mod span)
  else None.

(** The first entry of the physical memory protection unit, top of range. *)
Definition pmp_bit (a : access) : Z := match a with Load => 1 | Store => 2 | Fetch => 4 end.
Definition pmp_allows (h : hart) (a : access) (pa : Z) : bool :=
  bool_decide (priv h = MMode) ||
  (Z.land (csrs_of h Pmpcfg0) 0x18 =? 8) && negb (Z.land (csrs_of h Pmpcfg0) (pmp_bit a) =? 0) && (pa + 8 <=? 4 * csrs_of h Pmpaddr0).

Definition SATP_MODE (satp : Z) : Z := Z.shiftr satp 60.
Definition SATP_ROOT (satp : Z) : Z := Z.shiftl (Z.land satp (Z.ones 44)) 12.

(** Sv39 addresses have their upper bits equal to bit 38. *)
Definition canonical (va : Z) : bool := (0 <=? va) && (va <? 2 ^ 38) || (2 ^ 64 - 2 ^ 38 <=? va) && (va <? 2 ^ 64).
Definition mmu (h : hart) (a : access) (va : Z) : option Z :=
  if bool_decide (priv h = MMode) || (SATP_MODE (csrs_of h Satp) =? 0) then Some va
  else if (SATP_MODE (csrs_of h Satp) =? 8) && canonical va then sv39 2 (hmem h) (SATP_ROOT (csrs_of h Satp)) va (priv h) a
  else None.
Definition xlate (h : hart) (a : access) (va : Z) : option Z :=
  pa ← mmu h a va; if pmp_allows h a pa then Some pa else None.

(** Aligned loads and stores of [n] bytes. *)
Definition loadn (n : nat) (va : Z) : M hart Z :=
  pa <-! gets (fun h => if va mod Z.of_nat n =? 0 then xlate h Load va else None) ;;
  match pa with Some pa => gets (fun h => ldn n (hmem h) pa) | None => undef end.
Definition storen (n : nat) (va v : Z) : M hart unit :=
  pa <-! gets (fun h => if va mod Z.of_nat n =? 0 then xlate h Store va else None) ;;
  match pa with Some pa => modify (fun h => set_hmem (stn n (hmem h) pa v) h) | None => undef end.

(** ** Traps and returns *)

Definition SIE_bit : Z := 1.
Definition MIE_bit : Z := 3.
Definition SPIE_bit : Z := 5.
Definition MPIE_bit : Z := 7.
Definition SPP_bit : Z := 8.
Definition MPP_bit : Z := 11.

Definition setb (n : Z) (b : bool) (x : Z) : Z := if b then Z.setbit x n else Z.clearbit x n.
Definition INTR : Z := 2 ^ 63.

(** A cause goes to supervisor mode when it is delegated and the hart is not
    in machine mode. *)
Definition delegated (h : hart) (cause : Z) : bool :=
  bool_decide (priv h <> MMode) &&
  (if Z.testbit cause 63 then Z.testbit (csrs_of h Mideleg) (cause mod INTR) else Z.testbit (csrs_of h Medeleg) cause).

Definition trap_s (cause tval : Z) (h : hart) : hart :=
  let st := csrs_of h Mstatus in
  let st := setb SPP_bit (bool_decide (priv h = SMode)) (setb SPIE_bit (Z.testbit st SIE_bit) st) in
  Hart (regs h) (<[Mstatus := Z.clearbit st SIE_bit]> (<[Sepc := pc h]> (<[Scause := cause]> (<[Stval := tval]> (csrs_of h)))))
    SMode (csrs_of h Stvec) (hmem h).
Definition trap_m (cause : Z) (h : hart) : hart :=
  let st := csrs_of h Mstatus in
  let st := setb MPIE_bit (Z.testbit st MIE_bit) st in
  let st := merge (Z.shiftl 3 MPP_bit) st (Z.shiftl (mode_num (priv h)) MPP_bit) in
  Hart (regs h) (<[Mstatus := Z.clearbit st MIE_bit]> (<[Mepc := pc h]> (<[Mcause := cause]> (csrs_of h))))
    MMode (csrs_of h Mtvec) (hmem h).
Definition trap (cause tval : Z) (h : hart) : hart := if delegated h cause then trap_s cause tval h else trap_m cause h.

Definition do_sret (h : hart) : hart :=
  let st := csrs_of h Mstatus in
  let p := if Z.testbit st SPP_bit then SMode else UMode in
  let st := setb SIE_bit (Z.testbit st SPIE_bit) st in
  Hart (regs h) (<[Mstatus := Z.clearbit (Z.setbit st SPIE_bit) SPP_bit]> (csrs_of h)) p (csrs_of h Sepc) (hmem h).
Definition do_mret (h : hart) : hart :=
  let st := csrs_of h Mstatus in
  let p := num_mode (Z.land (Z.shiftr st MPP_bit) 3) in
  let st := setb MIE_bit (Z.testbit st MPIE_bit) st in
  Hart (regs h) (<[Mstatus := merge (Z.shiftl 3 MPP_bit) (Z.setbit st MPIE_bit) 0]> (csrs_of h)) p (csrs_of h Mepc) (hmem h).

(** ** Instructions *)

Inductive instr :=
| Sd (rs : reg) (off : Z) (base : reg)
| Ld (rd : reg) (off : Z) (base : reg)
| Addi (rd rs : reg) (imm : Z)
| Add (rd r1 r2 : reg)
| Mul (rd r1 r2 : reg)
| Li (rd : reg) (imm : Z)
| Csrr (rd : reg) (c : csr)
| Csrw (c : csr) (rs : reg)
| Csrrw (rd : reg) (c : csr) (rs : reg)
| SfenceVma
| Jr (rs : reg)
| Call (target link : Z)
| Sret
| Mret.

Definition reg_ (r : reg) : M hart Z := gets (rget r).
Definition set_ (r : reg) (v : Z) : M hart unit := modify (rset r v).

(** [call] names the address it returns to. *)
Definition step (i : instr) : M hart unit :=
  match i with
  | Sd rs off base => b <-! reg_ base ;; v <-! reg_ rs ;; storen 8 (u64 (b + off)) v
  | Ld rd off base => b <-! reg_ base ;; v <-! loadn 8 (u64 (b + off)) ;; set_ rd v
  | Addi rd rs imm => v <-! reg_ rs ;; set_ rd (v + imm)
  | Add rd r1 r2 => x <-! reg_ r1 ;; y <-! reg_ r2 ;; set_ rd (x + y)
  | Mul rd r1 r2 => x <-! reg_ r1 ;; y <-! reg_ r2 ;; set_ rd (x * y)
  | Li rd imm => set_ rd imm
  | Csrr rd c => v <-! csrr c ;; set_ rd v
  | Csrw c rs => v <-! reg_ rs ;; csrw c v
  | Csrrw rd c rs => v <-! reg_ rs ;; old <-! csrr c ;; csrw c v ;;; set_ rd old
  | SfenceVma => ok <-! gets (fun h => bool_decide (priv h <> UMode)) ;; if ok then ret tt else undef
  | Jr rs => v <-! reg_ rs ;; modify (set_pc v)
  | Call target link => set_ ra link ;;; modify (set_pc target)
  | Sret => ok <-! gets (fun h => bool_decide (priv h <> UMode)) ;; if ok then modify do_sret else undef
  | Mret => ok <-! gets (fun h => bool_decide (priv h = MMode)) ;; if ok then modify do_mret else undef
  end.

(** Straight-line code in the page at the virtual address [va], which every
    instruction must find at the physical address [pa]. *)
Fixpoint run (va pa : Z) (code : list instr) : M hart unit :=
  match code with
  | [] => ret tt
  | i :: code' =>
      ok <-! gets (fun h => bool_decide (xlate h Fetch va = Some pa)) ;;
      if ok then step i ;;; run va pa code' else undef
  end.
