(* ===== verification/Lowlevel.v ===== *)
(** * The code below C: kernel/entry.S, kernel/start.c, kernel/swtch.S,
    kernel/trampoline.S, kernel/kernelvec.S, the inline assembly of
    kernel/riscv.h and the device set-up of kernel/plic.c

    The assembly files are lists of instructions of [Hart], in the order of
    the source; the C functions are programs on the state of one hart.  The
    addresses that the linker gives to the symbols are a class. *)

From S2P Require Import Prelude Memory Riscv Kalloc Vm Syscall Hart.

(** Where the linker puts things. *)
Class Lsyms := {
  stack0 : Z; timer_scratch : Z;
  start_addr : Z; spin_addr : Z; main_addr : Z; timervec_addr : Z; kerneltrap_addr : Z; kernelvec_back : Z
}.

(** ** kernel/riscv.h *)

Definition MSTATUS_MPP_MASK : Z := Z.shiftl 3 11.
Definition MSTATUS_MPP_S : Z := Z.shiftl 1 11.
Definition MSTATUS_MIE : Z := Z.shiftl 1 3.
Definition SSTATUS_SIE : Z := Z.shiftl 1 1.
Definition SIE_SEIE : Z := Z.shiftl 1 9.
Definition SIE_STIE : Z := Z.shiftl 1 5.
Definition SIE_SSIE : Z := Z.shiftl 1 1.
Definition MIE_MTIE : Z := Z.shiftl 1 7.

Definition r_mhartid : M hart Z := csrr Mhartid.
Definition r_mstatus : M hart Z := csrr Mstatus.
Definition w_mstatus (x : Z) : M hart unit := csrw Mstatus x.
Definition w_mepc (x : Z) : M hart unit := csrw Mepc x.
Definition r_sstatus : M hart Z := csrr Sstatus.
Definition w_sstatus (x : Z) : M hart unit := csrw Sstatus x.
Definition r_sip : M hart Z := csrr Sip.
Definition w_sip (x : Z) : M hart unit := csrw Sip x.
Definition r_sie : M hart Z := csrr Sie.
Definition w_sie (x : Z) : M hart unit := csrw Sie x.
Definition r_mie : M hart Z := csrr Mie.
Definition w_mie (x : Z) : M hart unit := csrw Mie x.
Definition w_sepc (x : Z) : M hart unit := csrw Sepc x.
Definition r_sepc : M hart Z := csrr Sepc.
Definition r_medeleg : M hart Z := csrr Medeleg.
Definition w_medeleg (x : Z) : M hart unit := csrw Medeleg x.
Definition r_mideleg : M hart Z := csrr Mideleg.
Definition w_mideleg (x : Z) : M hart unit := csrw Mideleg x.
Definition w_stvec (x : Z) : M hart unit := csrw Stvec x.
Definition r_stvec : M hart Z := csrr Stvec.
Definition w_mtvec (x : Z) : M hart unit := csrw Mtvec x.
Definition w_pmpcfg0 (x : Z) : M hart unit := csrw Pmpcfg0 x.
Definition w_pmpaddr0 (x : Z) : M hart unit := csrw Pmpaddr0 x.
Definition w_satp (x : Z) : M hart unit := csrw Satp x.
Definition r_satp : M hart Z := csrr Satp.
Definition w_mscratch (x : Z) : M hart unit := csrw Mscratch x.
Definition r_scause : M hart Z := csrr Scause.
Definition r_stval : M hart Z := csrr Stval.
Definition w_mcounteren (x : Z) : M hart unit := csrw Mcounteren x.
Definition r_mcounteren : M hart Z := csrr Mcounteren.
Definition r_time : M hart Z := csrr Time.

Definition intr_on : M hart unit := x <-! r_sstatus ;; w_sstatus (Z.lor x SSTATUS_SIE).
Definition intr_off : M hart unit := x <-! r_sstatus ;; w_sstatus (Z.land x (u64 (Z.lnot SSTATUS_SIE))).
Definition intr_get : M hart bool := x <-! r_sstatus ;; ret (negb (Z.land x SSTATUS_SIE =? 0)).

Definition r_sp : M hart Z := reg_ sp.
Definition r_tp : M hart Z := reg_ tp.
Definition w_tp (x : Z) : M hart unit := set_ tp x.
Definition r_ra : M hart Z := reg_ ra.
Definition sfence_vma : M hart unit := step SfenceVma.

(** ** kernel/memlayout.h *)

Definition CLINT : Z := 0x2000000.
Definition CLINT_MTIMECMP (hartid : Z) : Z := CLINT + 0x4000 + 8 * hartid.
Definition CLINT_MTIME : Z := CLINT + 0xBFF8.
Definition PLIC_SENABLE (hart : Z) : Z := PLIC + 0x2080 + hart * 0x100.
Definition PLIC_SPRIORITY (hart : Z) : Z := PLIC + 0x201000 + hart * 0x2000.
Definition PLIC_SCLAIM (hart : Z) : Z := PLIC + 0x201004 + hart * 0x2000.

(** ** kernel/plic.c *)

(** [int id = r_tp()] of kernel/proc.c *)
Definition cpuid : M hart Z := id <-! r_tp ;; ret (i32 id).

Definition plicinit : M hart unit :=
  storen 4 (PLIC + UART0_IRQ * 4) 1 ;;;
  storen 4 (PLIC + VIRTIO0_IRQ * 4) 1.
Definition plicinithart : M hart unit :=
  hart <-! cpuid ;;
  storen 4 (PLIC_SENABLE hart) (Z.lor (Z.shiftl 1 UART0_IRQ) (Z.shiftl 1 VIRTIO0_IRQ)) ;;;
  storen 4 (PLIC_SPRIORITY hart) 0.

(** ** kernel/vm.c *)

(** The table that [kvminit] stores in [kernel_pagetable], and turning it on. *)
Definition kvminithart (kernel_pagetable : Z) : M hart unit :=
  sfence_vma ;;;
  w_satp (MAKE_SATP kernel_pagetable) ;;;
  sfence_vma.

Section Lowlevel.
Context `{LS : Lsyms}.

(** ** kernel/entry.S *)

Definition entry : list instr := [
  Li sp stack0; Li a0 (1024 * 4); Csrr a1 Mhartid; Addi a1 a1 1; Mul a0 a0 a1; Add sp sp a0; Call start_addr spin_addr ].

(** ** kernel/start.c *)

Definition timerinit : M hart unit :=
  id <-! r_mhartid ;;
  let id := i32 id in
  let interval := 1000000 in
  t <-! loadn 8 CLINT_MTIME ;;
  storen 8 (CLINT_MTIMECMP id) (u64 (t + interval)) ;;;
  let scratch := timer_scratch + id * 40 in
  storen 8 (scratch + 8 * 3) (CLINT_MTIMECMP id) ;;;
  storen 8 (scratch + 8 * 4) interval ;;;
  w_mscratch scratch ;;;
  w_mtvec timervec_addr ;;;
  x <-! r_mstatus ;;
  w_mstatus (Z.lor x MSTATUS_MIE) ;;;
  x <-! r_mie ;;
  w_mie (Z.lor x MIE_MTIE).

Definition start : M hart unit :=
  x <-! r_mstatus ;;
  let x := Z.land x (u64 (Z.lnot MSTATUS_MPP_MASK)) in
  let x := Z.lor x MSTATUS_MPP_S in
  w_mstatus x ;;;
  w_mepc main_addr ;;;
  w_satp 0 ;;;
  w_medeleg 0xffff ;;;
  w_mideleg 0xffff ;;;
  x <-! r_sie ;;
  w_sie (Z.lor (Z.lor (Z.lor x SIE_SEIE) SIE_STIE) SIE_SSIE) ;;;
  w_pmpaddr0 0x3fffffffffffff ;;;
  w_pmpcfg0 0xf ;;;
  timerinit ;;;
  id <-! r_mhartid ;;
  w_tp (i32 id) ;;;
  step Mret.

(** ** kernel/swtch.S *)

Definition swtch : list instr := [
  Sd ra 0 a0; Sd sp 8 a0; Sd s0 16 a0; Sd s1 24 a0; Sd s2 32 a0; Sd s3 40 a0; Sd s4 48 a0; Sd s5 56 a0; Sd s6 64 a0;
  Sd s7 72 a0; Sd s8 80 a0; Sd s9 88 a0; Sd s10 96 a0; Sd s11 104 a0; Ld ra 0 a1; Ld sp 8 a1; Ld s0 16 a1;
  Ld s1 24 a1; Ld s2 32 a1; Ld s3 40 a1; Ld s4 48 a1; Ld s5 56 a1; Ld s6 64 a1; Ld s7 72 a1; Ld s8 80 a1;
  Ld s9 88 a1; Ld s10 96 a1; Ld s11 104 a1; Jr ra ].

(** ** kernel/trampoline.S *)

Definition uservec : list instr := [
  Csrw Sscratch a0; Li a0 TRAPFRAME; Sd ra 40 a0; Sd sp 48 a0; Sd gp 56 a0; Sd tp 64 a0; Sd t0 72 a0; Sd t1 80 a0;
  Sd t2 88 a0; Sd s0 96 a0; Sd s1 104 a0; Sd a1 120 a0; Sd a2 128 a0; Sd a3 136 a0; Sd a4 144 a0; Sd a5 152 a0;
  Sd a6 160 a0; Sd a7 168 a0; Sd s2 176 a0; Sd s3 184 a0; Sd s4 192 a0; Sd s5 200 a0; Sd s6 208 a0; Sd s7 216 a0;
  Sd s8 224 a0; Sd s9 232 a0; Sd s10 240 a0; Sd s11 248 a0; Sd t3 256 a0; Sd t4 264 a0; Sd t5 272 a0; Sd t6 280 a0;
  Csrr t0 Sscratch; Sd t0 112 a0; Ld sp 8 a0; Ld tp 32 a0; Ld t0 16 a0; Ld t1 0 a0; SfenceVma; Csrw Satp t1;
  SfenceVma; Jr t0 ].

Definition userret : list instr := [
  SfenceVma; Csrw Satp a0; SfenceVma; Li a0 TRAPFRAME; Ld ra 40 a0; Ld sp 48 a0; Ld gp 56 a0; Ld tp 64 a0;
  Ld t0 72 a0; Ld t1 80 a0; Ld t2 88 a0; Ld s0 96 a0; Ld s1 104 a0; Ld a1 120 a0; Ld a2 128 a0; Ld a3 136 a0;
  Ld a4 144 a0; Ld a5 152 a0; Ld a6 160 a0; Ld a7 168 a0; Ld s2 176 a0; Ld s3 184 a0; Ld s4 192 a0; Ld s5 200 a0;
  Ld s6 208 a0; Ld s7 216 a0; Ld s8 224 a0; Ld s9 232 a0; Ld s10 240 a0; Ld s11 248 a0; Ld t3 256 a0; Ld t4 264 a0;
  Ld t5 272 a0; Ld t6 280 a0; Ld a0 112 a0; Sret ].

(** ** kernel/kernelvec.S *)

(** Up to the call of [kerneltrap], and from its return on. *)
Definition kernelvec_save : list instr := [
  Addi sp sp (-256); Sd ra 0 sp; Sd sp 8 sp; Sd gp 16 sp; Sd tp 24 sp; Sd t0 32 sp; Sd t1 40 sp; Sd t2 48 sp;
  Sd s0 56 sp; Sd s1 64 sp; Sd a0 72 sp; Sd a1 80 sp; Sd a2 88 sp; Sd a3 96 sp; Sd a4 104 sp; Sd a5 112 sp;
  Sd a6 120 sp; Sd a7 128 sp; Sd s2 136 sp; Sd s3 144 sp; Sd s4 152 sp; Sd s5 160 sp; Sd s6 168 sp; Sd s7 176 sp;
  Sd s8 184 sp; Sd s9 192 sp; Sd s10 200 sp; Sd s11 208 sp; Sd t3 216 sp; Sd t4 224 sp; Sd t5 232 sp; Sd t6 240 sp;
  Call kerneltrap_addr kernelvec_back ].

Definition kernelvec_restore : list instr := [
  Ld ra 0 sp; Ld sp 8 sp; Ld gp 16 sp; Ld t0 32 sp; Ld t1 40 sp; Ld t2 48 sp; Ld s0 56 sp; Ld s1 64 sp; Ld a0 72 sp;
  Ld a1 80 sp; Ld a2 88 sp; Ld a3 96 sp; Ld a4 104 sp; Ld a5 112 sp; Ld a6 120 sp; Ld a7 128 sp; Ld s2 136 sp;
  Ld s3 144 sp; Ld s4 152 sp; Ld s5 160 sp; Ld s6 168 sp; Ld s7 176 sp; Ld s8 184 sp; Ld s9 192 sp; Ld s10 200 sp;
  Ld s11 208 sp; Ld t3 216 sp; Ld t4 224 sp; Ld t5 232 sp; Ld t6 240 sp; Addi sp sp 256; Sret ].

Definition timervec : list instr := [
  Csrrw a0 Mscratch a0; Sd a1 0 a0; Sd a2 8 a0; Sd a3 16 a0; Ld a1 24 a0; Ld a2 32 a0; Ld a3 0 a1; Add a3 a3 a2;
  Sd a3 0 a1; Li a1 2; Csrw Sip a1; Ld a3 16 a0; Ld a2 8 a0; Ld a1 0 a0; Csrrw a0 Mscratch a0; Mret ].
End Lowlevel.
