(* ===== verification/HartSpec.v ===== *)
(** * Blocks of loads and stores, and the page tables they go through

    What the trap and context switch code of [Lowlevel] shares: translation
    depends on few registers and on the pages of the table, the table that
    kernel/vm.c builds translates as its entries say, and a run of [sd] or
    [ld] instructions saves or restores a list of registers. *)

From S2P Require Import Prelude Memory Riscv Spinlock Kalloc Vm VmWalk VmUser Syscall Hart.

(** Closed facts on registers and lists of them, by computation. *)
Ltac decide_closed := apply (bool_decide_unpack _); vm_compute; exact I.

(** ** Registers *)

Lemma rget_rset_eq r v h : r <> zero -> rget r (rset r v h) = u64 v.
Proof. intros H. unfold rget, rset. rewrite decide_False by done. simpl. apply fn_lookup_insert. Qed.
Lemma rget_rset_ne r r' v h : r <> r' -> rget r' (rset r v h) = rget r' h.
Proof. intros H. unfold rget, rset. destruct (decide (r' = zero)); [done|]. simpl. by apply fn_lookup_insert_ne. Qed.
#[export] Hint Rewrite rget_rset_eq rget_rset_ne using discriminate : hart.

(** Registers hold 64-bit words. *)
Definition regs_ok (h : hart) : Prop := forall r, 0 <= rget r h < 2 ^ 64.
Lemma rget_ok h r : regs_ok h -> 0 <= rget r h < 2 ^ 64.
Proof. auto. Qed.
Lemma regs_ok_rset r v h : regs_ok h -> regs_ok (rset r v h).
Proof.
  intros H r'. destruct (decide (r' = zero)) as [->|Hz]; [unfold rget; simpl; lia|].
  destruct (decide (r = r')) as [->|Hn]; [rewrite rget_rset_eq by done; apply u64_range|by rewrite rget_rset_ne].
Qed.
#[export] Hint Resolve rget_ok regs_ok_rset : xv6.

(** ** What translation depends on *)

(** [near P h h']: the same translation registers, and the same memory
    outside [P]. *)
Record near (P : Z -> Prop) (h h' : hart) : Prop := {
  near_priv : priv h' = priv h;
  near_satp : csrs_of h' Satp = csrs_of h Satp;
  near_cfg : csrs_of h' Pmpcfg0 = csrs_of h Pmpcfg0;
  near_addr : csrs_of h' Pmpaddr0 = csrs_of h Pmpaddr0;
  near_mem : forall x, ~ P x -> mget (hmem h') x = mget (hmem h) x
}.
Lemma near_refl P h : near P h h.
Proof. by split. Qed.
Lemma near_trans P h1 h2 h3 : near P h1 h2 -> near P h2 h3 -> near P h1 h3.
Proof. intros [A1 A2 A3 A4 A5] [B1 B2 B3 B4 B5]. split; [congruence..|]. intros x Hx. rewrite B5, A5 by done. done. Qed.
Lemma near_rset P r v h : near P h (rset r v h).
Proof. by split. Qed.
Lemma near_store P h a n v : (forall x, a <= x < a + Z.of_nat n -> P x) -> near P h (set_hmem (stn n (hmem h) a v) h).
Proof. intros HP. split; [done..|]. intros x Hx. simpl. apply mget_stn_ne. naive_solver. Qed.
Lemma near_csr P h c v : c <> Satp -> c <> Pmpcfg0 -> c <> Pmpaddr0 -> near P h (csr_put c v h).
Proof.
  intros H1 H2 H3. unfold csr_put. split; [done| | | |done]; destruct c; simpl; try done; by rewrite fn_lookup_insert_ne.
Qed.
#[export] Hint Resolve near_refl near_rset : xv6.

(** A run of instructions at [va] in the page [pa] can go on, and its data
    accesses to the [n] bytes at [b] reach [pb], whatever it writes there. *)
Definition data (pb n x : Z) : Prop := pb <= x < pb + n.
Record window (va pa b pb n : Z) (h : hart) : Prop := {
  win_fetch : forall h', near (data pb n) h h' -> xlate h' Fetch va = Some pa;
  win_data : forall h' a o, near (data pb n) h h' -> a <> Fetch -> 0 <= o -> o + 8 <= n -> xlate h' a (b + o) = Some (pb + o);
  win_align : b mod 8 = 0;
  win_top : 0 <= b /\ b + n <= 2 ^ 64
}.
Lemma window_near va pa b pb n h h' : window va pa b pb n h -> near (data pb n) h h' -> window va pa b pb n h'.
Proof. intros [F D A T] H. split; [|intros h2 a o H2; apply D|done|done]; [intros h2 H2; apply F|]; by eapply near_trans. Qed.

(** A delegated trap lands in supervisor mode, at [stvec], with interrupts off. *)
Lemma trap_s_ok cause tval h : delegated h cause = true ->
  let h' := trap cause tval h in priv h' = SMode /\ pc h' = csrs_of h Stvec /\ regs h' = regs h /\ hmem h' = hmem h /\
  csrs_of h' Sepc = pc h /\ csrs_of h' Scause = cause /\ Z.testbit (csrs_of h' Mstatus) SIE_bit = false /\
  Z.testbit (csrs_of h' Mstatus) SPP_bit = bool_decide (priv h = SMode) /\ Z.testbit (csrs_of h' Mstatus) SPIE_bit = Z.testbit (csrs_of h Mstatus) SIE_bit /\
  forall c, c ∉ [Mstatus; Sepc; Scause; Stval] -> csrs_of h' c = csrs_of h c.
Proof.
  intros Hd. cbv zeta. unfold trap. rewrite Hd. unfold trap_s. cbn [priv pc regs hmem csrs_of]. conjs; try done; rewrite ?fn_lookup_insert.
  - by rewrite Z.clearbit_eq.
  - rewrite Z.clearbit_neq by done. unfold setb at 1. destruct (bool_decide (priv h = SMode)); [by apply Z.setbit_eq|apply Z.clearbit_eq].
  - rewrite Z.clearbit_neq by done. unfold setb. destruct (bool_decide (priv h = SMode)), (Z.testbit _ SIE_bit);
      rewrite ?Z.setbit_neq, ?Z.clearbit_neq by done; (by apply Z.setbit_eq) || apply Z.clearbit_eq.
  - intros c Hc. rewrite !elem_of_cons, elem_of_nil in Hc. rewrite !fn_lookup_insert_ne by (intros <-; tauto). done.
Qed.

(** ** Straight-line code *)

Lemma run_app va pa c1 c2 h : run va pa (c1 ++ c2) h = (run va pa c1 ;;; run va pa c2) h.
Proof.
  revert h. induction c1 as [|i c1 IH]; intros h; [done|]. cbn [run app]. unfold bind, gets. case_bool_decide; [|done].
  destruct (step i h) as [[] h1| | | |]; [|done..]. by rewrite IH.
Qed.
Lemma run_cons va pa i c h h' : xlate h Fetch va = Some pa -> step i h = Done tt h' -> run va pa (i :: c) h = run va pa c h'.
Proof. intros H1 H2. cbn [run]. unfold bind, gets. rewrite bool_decide_eq_true_2 by done. by rewrite H2. Qed.

Lemma step_csrw c r h : csr_ok c h = true -> step (Csrw c r) h = Done tt (csr_put c (u64 (rget r h)) h).
Proof. intros H. cbn [step]. unfold bind, reg_, gets, csrw, bind, gets. by rewrite H. Qed.
Lemma step_csrr c r h : csr_ok c h = true -> step (Csrr r c) h = Done tt (rset r (csr_get h c) h).
Proof. intros H. cbn [step]. unfold bind, csrr, bind, gets. by rewrite H. Qed.
Lemma step_sfence h : priv h <> UMode -> step SfenceVma h = Done tt h.
Proof. intros H. cbn [step]. unfold bind, gets. by rewrite bool_decide_eq_true_2. Qed.
Lemma step_sret h : priv h <> UMode -> step Sret h = Done tt (do_sret h).
Proof. intros H. cbn [step]. unfold bind, gets. by rewrite bool_decide_eq_true_2. Qed.

Definition block := list (reg * Z).
Definition saves (base : reg) (l : block) : list instr := (fun '(r, o) => Sd r o base) <$> l.
Definition loads (base : reg) (l : block) : list instr := (fun '(r, o) => Ld r o base) <$> l.
Definition saved (pb : Z) (l : block) (h : hart) (m : mem) : mem := foldl (fun m '(r, o) => st64 m (pb + o) (rget r h)) m l.
Definition loaded (pb : Z) (l : block) (h : hart) : hart := foldl (fun h '(r, o) => rset r (ld64 (hmem h) (pb + o)) h) h l.
(** The words of a block are inside, aligned and different. *)
Definition fits (n : Z) (l : block) : Prop := Forall (fun o => 0 <= o /\ o + 8 <= n /\ o mod 8 = 0) l.*2.

Lemma fits_cons n r o l : fits n ((r, o) :: l) -> (0 <= o /\ o + 8 <= n /\ o mod 8 = 0) /\ fits n l.
Proof. intros H. by apply Forall_cons_1 in H. Qed.

Section Block.
Context (va pa b pb n : Z) (base : reg).

Lemma step_sd h r o : window va pa b pb n h -> rget base h = b -> 0 <= o -> o + 8 <= n -> o mod 8 = 0 ->
  step (Sd r o base) h = Done tt (set_hmem (st64 (hmem h) (pb + o) (rget r h)) h).
Proof.
  intros W Hb H1 H2 H3. cbn [step]. unfold bind, reg_, gets, storen. rewrite Hb, u64_small by (destruct W as [_ _ _ ?]; lia).
  change (Z.of_nat 8) with 8. replace ((b + o) mod 8) with 0 by (destruct W as [_ _ ? _]; Z.div_mod_to_equations; lia). simpl (0 =? 0).
  unfold bind, gets. by rewrite (win_data _ _ _ _ _ _ W h Store o) by (done || apply near_refl).
Qed.
Lemma step_ld h r o : window va pa b pb n h -> rget base h = b -> 0 <= o -> o + 8 <= n -> o mod 8 = 0 ->
  step (Ld r o base) h = Done tt (rset r (ld64 (hmem h) (pb + o)) h).
Proof.
  intros W Hb H1 H2 H3. cbn [step]. unfold bind, reg_, gets, loadn. rewrite Hb, u64_small by (destruct W as [_ _ _ ?]; lia).
  change (Z.of_nat 8) with 8. replace ((b + o) mod 8) with 0 by (destruct W as [_ _ ? _]; Z.div_mod_to_equations; lia). simpl (0 =? 0).
  unfold bind, gets. by rewrite (win_data _ _ _ _ _ _ W h Load o) by (done || apply near_refl).
Qed.

Lemma near_saved l h m : fits n l -> (forall x, ~ data pb n x -> mget m x = mget (hmem h) x) -> near (data pb n) h (set_hmem (saved pb l h m) h).
Proof.
  intros Hl. revert m. induction l as [|[r o] l IH]; intros m Hm; [by split|]. apply fits_cons in Hl as [(? & ? & ?) Hl']. apply (IH Hl').
  intros x Hx. rewrite mget_stn_ne; [by apply Hm|]. unfold data in *. lia.
Qed.

Lemma run_saves c l h : window va pa b pb n h -> rget base h = b -> fits n l ->
  run va pa (saves base l ++ c) h = run va pa c (set_hmem (saved pb l h (hmem h)) h).
Proof.
  intros W Hb Hl. enough (G : forall m, (forall x, ~ data pb n x -> mget m x = mget (hmem h) x) ->
    run va pa (saves base l ++ c) (set_hmem m h) = run va pa c (set_hmem (saved pb l h m) h)).
  { rewrite <- (G (hmem h)) by done. by destruct h. }
  induction l as [|[r o] l IH]; intros m Hm; [done|]. apply fits_cons in Hl as [(H1 & H2 & H3) Hl'].
  assert (W' : window va pa b pb n (set_hmem m h)) by (apply (window_near _ _ _ _ _ h); [done|by split]).
  change (saves base ((r, o) :: l) ++ c) with (Sd r o base :: (saves base l ++ c)).
  rewrite (run_cons _ _ _ _ _ _ (win_fetch _ _ _ _ _ _ W' _ (near_refl _ _)) (step_sd _ r o W' Hb H1 H2 H3)).
  apply (IH Hl' (st64 m (pb + o) (rget r h))). intros x Hx. rewrite mget_stn_ne; [by apply Hm|]. unfold data in *. lia.
Qed.

Lemma near_loaded l h P : near P h (loaded pb l h).
Proof. revert h. induction l as [|[r o] l IH]; intros h; [apply near_refl|]. simpl. eapply near_trans; [apply near_rset|apply IH]. Qed.
Lemma hmem_loaded l h : hmem (loaded pb l h) = hmem h.
Proof. revert h. induction l as [|[r o] l IH]; intros h; [done|]. simpl. by rewrite IH. Qed.
Lemma csrs_loaded l h : csrs_of (loaded pb l h) = csrs_of h /\ priv (loaded pb l h) = priv h.
Proof. revert h. induction l as [|[r o] l IH]; intros h; [done|]. simpl. destruct (IH (rset r (ld64 (hmem h) (pb + o)) h)) as [-> ->]. done. Qed.

Lemma run_loads c l h : window va pa b pb n h -> rget base h = b -> fits n l -> base ∉ l.*1 ->
  run va pa (loads base l ++ c) h = run va pa c (loaded pb l h).
Proof.
  intros W Hb Hl Hn. revert h W Hb. induction l as [|[r o] l IH]; intros h W Hb; [done|].
  apply fits_cons in Hl as [(H1 & H2 & H3) Hl']. apply not_elem_of_cons in Hn as [Hn1 Hn2]. cbn [fst] in Hn1.
  change (loads base ((r, o) :: l) ++ c) with (Ld r o base :: (loads base l ++ c)).
  rewrite (run_cons _ _ _ _ _ _ (win_fetch _ _ _ _ _ _ W _ (near_refl _ _)) (step_ld _ r o W Hb H1 H2 H3)).
  apply (IH Hl' Hn2); [eapply window_near; [done|apply near_rset]|by rewrite rget_rset_ne].
Qed.

(** Other registers keep their values, and a loaded one has its word. *)
Lemma loaded_other l h r : r ∉ l.*1 -> rget r (loaded pb l h) = rget r h.
Proof.
  revert h. induction l as [|[r1 o1] l IH]; intros h Hr; [done|]. apply not_elem_of_cons in Hr as [Hr1 Hr]. cbn [fst] in Hr1.
  simpl. by rewrite IH, rget_rset_ne.
Qed.
Lemma loaded_word l h r o : NoDup l.*1 -> (r, o) ∈ l -> r <> zero -> rget r (loaded pb l h) = ld64 (hmem h) (pb + o).
Proof.
  revert h. induction l as [|[r1 o1] l IH]; intros h Hd Hin Hz; [by apply elem_of_nil in Hin|]. apply NoDup_cons in Hd as [Hd1 Hd].
  apply elem_of_cons in Hin as [[= -> ->]|Hin]; simpl.
  - rewrite loaded_other, rget_rset_eq by done. apply u64_small, ld64_range.
  - by rewrite IH.
Qed.
Lemma regs_ok_loaded l h : regs_ok h -> regs_ok (loaded pb l h).
Proof. revert h. induction l as [|[r o] l IH]; intros h H; [done|]. apply IH. by apply regs_ok_rset. Qed.

(** A saved register is found in its word. *)
Lemma saved_word l h m r o : regs_ok h -> NoDup l.*2 -> fits n l -> (r, o) ∈ l -> ld64 (saved pb l h m) (pb + o) = rget r h.
Proof.
  intros Hok. revert m. induction l as [|[r1 o1] l IH]; intros m Hd Hf Hin; [by apply elem_of_nil in Hin|].
  apply NoDup_cons in Hd as [Hd1 Hd]. apply fits_cons in Hf as [(H1 & H2 & H3) Hf']. apply elem_of_cons in Hin as [[= -> ->]|Hin]; [|by apply IH].
  cbn [saved foldl]. fold (saved pb l h (st64 m (pb + o1) (rget r1 h))). clear IH.
  assert (G : forall m, o1 ∉ l.*2 -> ld64 (saved pb l h m) (pb + o1) = ld64 m (pb + o1)).
  { clear Hd Hd1 m. induction l as [|[r2 o2] l IH]; intros m Hn; [done|]. apply fits_cons in Hf' as [(? & ? & ?) Hf2].
    apply not_elem_of_cons in Hn as [Hn1 Hn]. cbn [snd] in Hn1. cbn [saved foldl]. fold (saved pb l h (st64 m (pb + o2) (rget r2 h))).
    rewrite IH by done. apply ld64_st64_ne. assert (o1 <> o2) by done. Z.div_mod_to_equations. lia. }
  rewrite G by done. rewrite ld64_st64_eq. apply u64_small, rget_ok, Hok.
Qed.
Lemma saved_outside l h m x : Forall (fun o => ~ (pb + o <= x < pb + o + 8)) l.*2 -> mget (saved pb l h m) x = mget m x.
Proof.
  revert m. induction l as [|[r o] l IH]; intros m Hx; [done|]. apply Forall_cons_1 in Hx as [Ho Hx']. cbn [saved foldl].
  fold (saved pb l h (st64 m (pb + o) (rget r h))). rewrite IH by done. apply mget_stn_ne. cbn [snd] in Ho. lia.
Qed.
End Block.

(** ** The tables of kernel/vm.c *)

Section Table.
Context `{HC : Ctx} `{HI : Image} `{HO : !ImageOk}.

(** Flags of a leaf that allow the access. *)
Definition grants (p : mode) (a : access) (f : Z) : bool :=
  negb (Z.land f PTE_V =? 0) && negb (Z.land f PTE_R =? 0) && leaf_allows p a f.

Lemma leaf_allows_make p a pa f : 0 <= pa < 2 ^ 56 -> leaf_allows p a (Z.lor (PA2PTE pa) f) = leaf_allows p a f.
Proof. intros H. unfold leaf_allows. rewrite !land_PTE_make; [done|done|vm_compute; by split|done|destruct a; vm_compute; by split]. Qed.

(** An inner entry leads to the next level. *)
Lemma sv39_inner m T root k pg q i n va p a :
  wf m T root -> T !! k = Some pg -> (length k < 2)%nat -> T !! (k ++ [PX (Z.of_nat (S n)) va]) = Some q -> i = PX (Z.of_nat (S n)) va ->
  sv39 (S n) m pg va p a = sv39 n m q va p a.
Proof.
  intros Hwf Hk Hl Hq ->. assert (Hi : 0 <= PX (Z.of_nat (S n)) va < 512) by (apply PX_range; lia).
  pose proof (wf_entry _ _ _ Hwf k pg _ Hk Hl Hi) as He. rewrite Hq in He.
  destruct (wf_page _ _ _ Hwf _ _ Hq) as [Hok _]. apply page_ok_56 in Hok as [H1 H2].
  cbn [sv39]. rewrite He, !land_PTE_make by (done || by vm_compute). simpl (Z.land _ _ =? 0). by rewrite PTE2PA_make by auto with xv6.
Qed.

Lemma sv39_leaf m T root va p a pa f :
  wf m T root -> pte_at m T va = Z.lor (PA2PTE pa) f -> 0 <= pa < 2 ^ 56 -> pa mod 4096 = 0 -> 0 <= f < 1024 -> grants p a f = true ->
  sv39 2 m root va p a = Some (pa + va mod 4096).
Proof.
  intros Hwf Hv Hpa Hal Hf Hg. unfold grants in Hg. apply andb_true_iff in Hg as [[HV HR]%andb_true_iff Hg].
  apply negb_true_iff in HV, HR. unfold pte_at in Hv. destruct (T !! path 2 va) as [q|] eqn:Hq.
  2:{ exfalso. assert (E : Z.land (Z.lor (PA2PTE pa) f) PTE_V = 0) by (by rewrite <- Hv). rewrite land_PTE_make in E by auto with xv6. lia. }
  rewrite path2 in Hq. destruct (wf_prefix m T root [PX 2 va] [PX 1 va] q Hwf Hq) as [q1 Hq1].
  rewrite (sv39_inner m T root [] root q1 _ 1 va p a Hwf (wf_root _ _ _ Hwf) ltac:(simpl; lia) Hq1 eq_refl).
  rewrite (sv39_inner m T root [PX 2 va] q1 q _ 0 va p a Hwf Hq1 ltac:(simpl; lia) Hq eq_refl).
  cbn [sv39]. change (Z.of_nat 0) with 0. rewrite Hv, !land_PTE_make by (done || by vm_compute). rewrite HV, HR.
  assert (HX : Z.land f (Z.lor PTE_R (Z.lor PTE_W PTE_X)) =? 0 = false).
  { apply Z.eqb_neq. intros E. apply Z.eqb_neq in HR. apply HR. apply Z.bits_inj'. intros n Hn. rewrite Z.land_spec, Z.bits_0.
    assert (E' : Z.testbit (Z.land f (Z.lor PTE_R (Z.lor PTE_W PTE_X))) n = false) by (rewrite E; apply Z.bits_0).
    rewrite Z.land_spec, !Z.lor_spec in E'. destruct (Z.testbit f n); [|done]. by destruct (Z.testbit PTE_R n). }
  rewrite HX. simpl (false && _). rewrite leaf_allows_make, Hg, PTE2PA_make by done. change (2 ^ PXSHIFT 0) with 4096. by rewrite Hal.
Qed.

(** start.c opens the protection unit for all of memory. *)
Definition pmp_open (h : hart) : Prop := csrs_of h Pmpcfg0 = 0xf /\ csrs_of h Pmpaddr0 = 0x3fffffffffffff.
Lemma pmp_open_allows h a pa : pmp_open h -> pa + 8 <= 4 * 0x3fffffffffffff -> pmp_allows h a pa = true.
Proof. intros [E1 E2] H. unfold pmp_allows. rewrite E1, E2. destruct (bool_decide _); [done|]. simpl (Z.land _ _ =? 8). rewrite (proj2 (Z.leb_le _ _) H). by destruct a. Qed.

Lemma MAKE_SATP_mode root : 0 <= root < 2 ^ 56 -> SATP_MODE (MAKE_SATP root) = 8.
Proof.
  intros H. unfold SATP_MODE, MAKE_SATP, SATP_SV39. rewrite Z.shiftr_lor, Z.shiftr_shiftl_l, Z.shiftr_shiftr by lia. simpl (Z.shiftl 8 _).
  rewrite (Z.shiftr_div_pow2 root) by lia. by rewrite Z.div_small by lia.
Qed.
Lemma MAKE_SATP_root root : 0 <= root < 2 ^ 56 -> root mod 4096 = 0 -> SATP_ROOT (MAKE_SATP root) = root.
Proof.
  intros H Ha. unfold SATP_ROOT, MAKE_SATP, SATP_SV39. rewrite Z.land_lor_distr_l. change (Z.land (Z.shiftl 8 60) (Z.ones 44)) with 0.
  rewrite Z.lor_0_l, Z.land_ones, Z.shiftl_mul_pow2, Z.shiftr_div_pow2 by lia. rewrite Z.mod_small by (Z.div_mod_to_equations; lia). Z.div_mod_to_equations. lia.
Qed.

Lemma MAKE_SATP_range root : 0 <= root < 2 ^ 56 -> 0 <= MAKE_SATP root < 2 ^ 64.
Proof.
  intros H. unfold MAKE_SATP, SATP_SV39. rewrite Z.shiftr_div_pow2 by lia. assert (Hq : 0 <= root / 2 ^ 12 < 2 ^ 44) by (Z.div_mod_to_equations; lia).
  split; [apply Z.lor_nonneg; split; [done|lia]|]. destruct (decide (Z.lor (Z.shiftl 8 60) (root / 2 ^ 12) = 0)) as [->|Hn]; [done|].
  apply Z.log2_lt_cancel. rewrite Z.log2_lor by (lia || done). rewrite Z.log2_pow2 by lia. apply Z.max_lub_lt; [done|].
  destruct (decide (root / 2 ^ 12 = 0)) as [->|Hr]; [done|]. apply Z.log2_lt_pow2; [lia|]. transitivity (2 ^ 44); [lia|done].
Qed.

(** A page that the table at [root] maps, from supervisor or user mode. *)
Lemma xlate_table h m T root va a pa f :
  priv h <> MMode -> csrs_of h Satp = MAKE_SATP root -> pmp_open h -> m = hmem h ->
  wf m T root -> 0 <= va < MAXVA -> pte_at m T va = Z.lor (PA2PTE pa) f -> 0 <= pa < 2 ^ 56 - 4096 -> pa mod 4096 = 0 -> 0 <= f < 1024 ->
  grants (priv h) a f = true -> xlate h a va = Some (pa + va mod 4096).
Proof.
  intros Hp Hs Ho -> Hwf Hva Hv Hpa Hal Hf Hg. destruct (wf_page _ _ _ Hwf _ _ (wf_root _ _ _ Hwf)) as [Hok _]. apply page_ok_56 in Hok as [R1 R2].
  unfold xlate, mmu. rewrite bool_decide_eq_false_2, Hs, MAKE_SATP_mode, MAKE_SATP_root by done. simpl (false || _).
  change MAXVA with (2 ^ 38) in Hva. assert (Hc : canonical va = true) by (unfold canonical; apply orb_true_iff; left; apply andb_true_iff; split; lia).
  rewrite Hc. simpl ((_ =? _) && _). cbn iota. rewrite (sv39_leaf (hmem h) T root va (priv h) a pa f) by (done || lia). simpl.
  rewrite pmp_open_allows; [done|done|]. Z.div_mod_to_equations. lia.
Qed.

(** Conversely, a translation goes through an entry of the tree. *)
Lemma sv39_step_inv m T root k pg n va p a x :
  wf m T root -> T !! k = Some pg -> (length k < 2)%nat -> sv39 (S n) m pg va p a = Some x ->
  exists q, T !! (k ++ [PX (Z.of_nat (S n)) va]) = Some q /\ sv39 n m q va p a = Some x.
Proof.
  intros Hwf Hk Hl H. assert (Hi : 0 <= PX (Z.of_nat (S n)) va < 512) by (apply PX_range; lia).
  destruct (T !! (k ++ [PX (Z.of_nat (S n)) va])) as [q|] eqn:Hq.
  - exists q. split; [done|]. by rewrite <- (sv39_inner m T root k pg q _ n va p a Hwf Hk Hl Hq eq_refl).
  - pose proof (wf_entry _ _ _ Hwf k pg _ Hk Hl Hi) as He. rewrite Hq in He. cbn [sv39] in H. by rewrite He in H.
Qed.
Lemma sv39_inv m T root va p a x : wf m T root -> sv39 2 m root va p a = Some x ->
  T !! path 2 va <> None /\ Z.land (pte_at m T va) PTE_V <> 0 /\ leaf_allows p a (pte_at m T va) = true /\ x = PTE2PA (pte_at m T va) + va mod 4096.
Proof.
  intros Hwf H. apply (sv39_step_inv m T root [] root) in H as (q1 & Hq1 & H); [|done|apply Hwf|simpl; lia].
  apply (sv39_step_inv m T root [PX 2 va] q1) in H as (q & Hq & H); [|done|done|simpl; lia].
  unfold pte_at. rewrite path2. change ([PX 2 va] ++ [PX (Z.of_nat 1) va]) with [PX 2 va; PX 1 va] in Hq. rewrite Hq. split; [done|].
  cbn [sv39] in H. change (Z.of_nat 0) with 0 in H. set (v := ld64 m (q + 8 * PX 0 va)) in *. change (2 ^ PXSHIFT 0) with 4096 in H.
  destruct (Z.eqb_spec (Z.land v PTE_V) 0); [done|]. destruct (Z.land v _ =? 0); [done|]. destruct (_ && negb _); [done|].
  destruct (leaf_allows p a v) eqn:El; [|done]. destruct (PTE2PA v mod 4096 =? 0); [|done]. by injection H as <-.
Qed.

(** From user or supervisor mode, only addresses below [MAXVA] translate. *)
Lemma xlate_table_inv h T root a va x :
  priv h <> MMode -> csrs_of h Satp = MAKE_SATP root -> wf (hmem h) T root -> xlate h a va = Some x ->
  0 <= va < MAXVA /\ Z.land (pte_at (hmem h) T va) PTE_V <> 0 /\ leaf_allows (priv h) a (pte_at (hmem h) T va) = true /\
  x = PTE2PA (pte_at (hmem h) T va) + va mod 4096.
Proof.
  intros Hp Hs Hwf H. destruct (wf_page _ _ _ Hwf _ _ (wf_root _ _ _ Hwf)) as [Hok _]. apply page_ok_56 in Hok as [R1 R2].
  unfold xlate, mmu in H. rewrite bool_decide_eq_false_2, Hs, MAKE_SATP_mode, MAKE_SATP_root in H by done. simpl (false || _) in H.
  destruct (canonical va) eqn:Hc; [|done]. simpl (_ && _) in H. cbn iota in H. destruct (sv39 2 _ _ _ _ _) as [y|] eqn:E; [|done].
  simpl in H. destruct (pmp_allows _ _ _); [|done]. injection H as <-. destruct (sv39_inv _ _ _ _ _ _ _ Hwf E) as (Hn & Hv & Hl & Hy).
  split; [|done]. destruct (T !! path 2 va) as [q|] eqn:Hq; [|done]. rewrite path2 in Hq. pose proof (wf_low _ _ _ Hwf _ _ _ Hq) as Hlow.
  rewrite PX_eq in Hlow by lia. change MAXVA with (2 ^ 38). change (2 ^ (12 + 9 * 2)) with (2 ^ 30) in Hlow.
  unfold canonical in Hc. apply orb_true_iff in Hc as [Hc|Hc]; apply andb_true_iff in Hc as [Hc1 Hc2]; [lia|]. exfalso. Z.div_mod_to_equations. lia.
Qed.
End Table.
