(* ===== verification/TrapSpec.v ===== *)
(** * Into the kernel and back: kernel/trampoline.S with kernel/trap.c

    [uservec] and [userret] of the trampoline page, run on a hart with the
    page tables of kernel/vm.c, and the round trip of a process: what
    [usertrapret] prepares, [userret] starts the process with, and the next
    trap finds. *)

From S2P Require Import Prelude Memory Riscv Spinlock Kalloc Vm VmWalk VmUser VmFree Bio Log Txn Fs Kern Proc Syscall KernExample Hart HartSpec Lowlevel.

(** The field of the trapframe for a register. *)
Definition field (r : reg) : trapframe :=
  match r with
  | zero => TF_epc | ra => TF_ra | sp => TF_sp | gp => TF_gp | tp => TF_tp | t0 => TF_t0 | t1 => TF_t1 | t2 => TF_t2
  | s0 => TF_s0 | s1 => TF_s1 | a0 => TF_a0 | a1 => TF_a1 | a2 => TF_a2 | a3 => TF_a3 | a4 => TF_a4 | a5 => TF_a5 | a6 => TF_a6
  | a7 => TF_a7 | s2 => TF_s2 | s3 => TF_s3 | s4 => TF_s4 | s5 => TF_s5 | s6 => TF_s6 | s7 => TF_s7 | s8 => TF_s8 | s9 => TF_s9
  | s10 => TF_s10 | s11 => TF_s11 | t3 => TF_t3 | t4 => TF_t4 | t5 => TF_t5 | t6 => TF_t6
  end.
Definition slot (r : reg) : Z := tf_off (field r).

(** The registers other than [a0], in the order of trampoline.S. *)
Definition user_list : list reg :=
  [ra; sp; gp; tp; t0; t1; t2; s0; s1; a1; a2; a3; a4; a5; a6; a7; s2; s3; s4; s5; s6; s7; s8; s9; s10; s11; t3; t4; t5; t6].
Definition user_block : block := (fun r => (r, slot r)) <$> user_list.
Definition kernel_block : block := [(sp, tf_off TF_kernel_sp); (tp, tf_off TF_kernel_hartid); (t0, tf_off TF_kernel_trap); (t1, tf_off TF_kernel_satp)].

Lemma user_list_all r : r <> zero -> r <> a0 -> (r, slot r) ∈ user_block.
Proof. intros H1 H2. apply list_elem_of_fmap. exists r. split; [done|]. apply (bool_decide_unpack _). destruct r; first [vm_compute; exact I|done]. Qed.
Lemma user_block_fits : fits 288 user_block /\ NoDup user_block.*2 /\ NoDup user_block.*1 /\ a0 ∉ user_block.*1 /\ zero ∉ user_block.*1.
Proof. conjs; decide_closed. Qed.

Section Trap.
Context `{HC : Ctx} `{HI : Image} `{HO : !ImageOk} `{LS : Lsyms}.

(** ** The pages of the trampoline and the trapframe *)

(** A table that maps the trampoline, as every table of xv6 does. *)
Record tramp_table (m : mem) (T : tree) (root : Z) : Prop := {
  tt_wf : wf m T root;
  tt_tramp : pte_at m T TRAMPOLINE = tramp_pte
}.
(** A process's table, which also maps its trapframe. *)
Record user_table (m : mem) (T : tree) (root tf : Z) : Prop := {
  ut_tramp : tramp_table m T root;
  ut_tf : pte_at m T TRAPFRAME = tf_pte tf;
  ut_page : page_ok tf;
  ut_apart : ~ tpage T tf
}.
Definition tramp_ok : Prop := 0 <= trampoline < 2 ^ 56 - 4096 /\ trampoline mod 4096 = 0.

Lemma tramp_table_frame m m' T root tf : tramp_table m T root -> page_ok tf -> ~ tpage T tf ->
  (forall x, ~ data tf 288 x -> mget m' x = mget m x) -> tramp_table m' T root.
Proof.
  intros [W E] Hp Hn Hm. assert (F : forall p x, tpage T p -> in_page p x -> mget m' x = mget m x).
  { intros p x Ht Hx. apply Hm. intros Hd. assert (p = tf); [|congruence]. apply (page_disjoint p tf x); [|done|done|unfold in_page, data, PGSIZE in *; lia].
    destruct Ht as [k Hk]. by apply (wf_page _ _ _ W k p). }
  split; [by apply (wf_frame m)|]. by rewrite (pte_at_frame m).
Qed.

Lemma tramp_fetch h T root : tramp_ok -> priv h = SMode -> csrs_of h Satp = MAKE_SATP root -> pmp_open h -> tramp_table (hmem h) T root ->
  xlate h Fetch TRAMPOLINE = Some trampoline.
Proof.
  intros [H1 H2] Hp Hs Ho [W E]. unfold tramp_pte in E. rewrite <- Z.lor_assoc in E.
  rewrite (xlate_table h (hmem h) T root TRAMPOLINE Fetch trampoline (Z.lor (Z.lor PTE_R PTE_X) PTE_V)); try done; [|by rewrite Hp..].
  change (TRAMPOLINE mod 4096) with 0. f_equal. lia.
Qed.

Lemma user_window h T root tf : tramp_ok -> priv h = SMode -> csrs_of h Satp = MAKE_SATP root -> pmp_open h -> user_table (hmem h) T root tf ->
  window TRAMPOLINE trampoline TRAPFRAME tf 288 h.
Proof.
  intros Ht Hp Hs [O1 O2] [U E Pg Ap].
  assert (G : forall h', near (data tf 288) h h' -> priv h' = SMode /\ csrs_of h' Satp = MAKE_SATP root /\ pmp_open h' /\ user_table (hmem h') T root tf).
  { intros h' [N1 N2 N3 N4 N5]. conjs; [congruence|congruence|split; congruence|]. split; [|rewrite (pte_at_frame (hmem h)); [done|]|done|done].
    - by apply (tramp_table_frame (hmem h) _ _ _ tf).
    - intros p x [k Hk] Hx. apply N5. intros Hd. apply Ap. exists k. rewrite Hk. f_equal.
      apply (page_disjoint p tf x); [by apply (wf_page _ _ _ (tt_wf _ _ _ U) k)|done|done|unfold in_page, data, PGSIZE in *; lia]. }
  split; [| |done|by vm_compute].
  - intros h' N. destruct (G h' N) as (? & ? & ? & [? ? ? ?]). by eapply tramp_fetch.
  - intros h' a o N Ha H1 H2. destruct (G h' N) as (P1 & P2 & P3 & [[W' _] E' _ _]).
    unfold tf_pte in E'. rewrite <- Z.lor_assoc in E'. destruct (page_ok_56 tf Pg) as [Q1 Q2].
    assert (Hva : (TRAPFRAME + o) / 4096 * 4096 = TRAPFRAME) by (change TRAPFRAME with (67108862 * 4096); Z.div_mod_to_equations; lia).
    rewrite (xlate_table h' (hmem h') T root (TRAPFRAME + o) a tf (Z.lor (Z.lor PTE_R PTE_W) PTE_V)); try done.
    + f_equal. rewrite <- Zplus_mod_idemp_l. change (TRAPFRAME mod 4096) with 0. rewrite Z.mod_small; lia.
    + rewrite P1. discriminate.
    + change MAXVA with (67108864 * 4096). change TRAPFRAME with (67108862 * 4096). lia.
    + rewrite <- pte_at_page, Hva; [done|]. change MAXVA with (67108864 * 4096). change TRAPFRAME with (67108862 * 4096). lia.
    + destruct Pg as [_ Pg]. unfold PHYSTOP, KERNBASE in Pg. lia.
    + rewrite P1. by destruct a.
Qed.

(** ** uservec *)

Record entered (tf : Z) (h h' : hart) : Prop := {
  en_regs : forall r, r <> zero -> ld64 (hmem h') (tf + slot r) = rget r h;
  en_mem : forall x, ~ (tf + 40 <= x < tf + 288) -> mget (hmem h') x = mget (hmem h) x;
  en_sp : rget sp h' = ld64 (hmem h) (tf + tf_off TF_kernel_sp);
  en_tp : rget tp h' = ld64 (hmem h) (tf + tf_off TF_kernel_hartid);
  en_pc : pc h' = ld64 (hmem h) (tf + tf_off TF_kernel_trap);
  en_satp : csrs_of h' Satp = ld64 (hmem h) (tf + tf_off TF_kernel_satp);
  en_csr : forall c, c <> Satp -> c <> Sscratch -> csrs_of h' c = csrs_of h c;
  en_priv : priv h' = SMode
}.

Lemma uservec_code : uservec = [Csrw Sscratch a0; Li a0 TRAPFRAME] ++ saves a0 user_block ++ [Csrr t0 Sscratch] ++ saves a0 [(t0, slot a0)] ++
  loads a0 kernel_block ++ [SfenceVma; Csrw Satp t1; SfenceVma; Jr t0].
Proof. reflexivity. Qed.

(** The memory after all registers are saved, [a0] by way of [sscratch]. *)
Definition frame_mem (tf : Z) (h : hart) : mem :=
  st64 (saved tf user_block (rset a0 TRAPFRAME (csr_put Sscratch (u64 (rget a0 h)) h)) (hmem h)) (tf + slot a0) (rget a0 h).
Lemma frame_word tf h r : regs_ok h -> r <> zero -> ld64 (frame_mem tf h) (tf + slot r) = rget r h.
Proof.
  intros Hr Hz. destruct user_block_fits as (F1 & F2 & _). unfold frame_mem. destruct (decide (r = a0)) as [->|Hn]; [rewrite ld64_st64_eq; by apply u64_small, rget_ok|].
  rewrite ld64_st64_ne by (destruct r; (congruence || (cbv [slot field tf_off]; lia))).
  rewrite (saved_word tf 288 user_block) with (r := r); [|by apply regs_ok_rset|done|done|by apply user_list_all]. by rewrite rget_rset_ne by done.
Qed.
Lemma frame_outside tf h x : ~ (tf + 40 <= x < tf + 288) -> mget (frame_mem tf h) x = mget (hmem h) x.
Proof.
  intros Hx. unfold frame_mem. rewrite mget_stn_ne by (change (slot a0) with 112; lia). apply saved_outside. apply Forall_forall. intros o Ho. 
  assert (Hb : 40 <= o /\ o + 8 <= 288); [|lia]. revert o Ho. apply (proj1 (Forall_forall _ _)). apply (bool_decide_unpack _). by vm_compute.
Qed.

(** Up to the loads, the trampoline runs on the process's table. *)
Lemma uservec_saves h T root tf c :
  tramp_ok -> regs_ok h -> priv h = SMode -> csrs_of h Satp = MAKE_SATP root -> pmp_open h -> user_table (hmem h) T root tf ->
  exists h', run TRAMPOLINE trampoline ([Csrw Sscratch a0; Li a0 TRAPFRAME] ++ saves a0 user_block ++ [Csrr t0 Sscratch] ++ saves a0 [(t0, slot a0)] ++ c) h
      = run TRAMPOLINE trampoline c h' /\
    near (data tf 288) h h' /\ rget a0 h' = TRAPFRAME /\ hmem h' = frame_mem tf h /\ (forall c, c <> Sscratch -> csrs_of h' c = csrs_of h c).
Proof.
  intros Ht Hr Hp Hs Ho Hu. pose proof (user_window h T root tf Ht Hp Hs Ho Hu) as W. destruct user_block_fits as (F1 & F2 & F3 & F4 & F5).
  set (h1 := csr_put Sscratch (u64 (rget a0 h)) h). set (h2 := rset a0 TRAPFRAME h1).
  assert (N1 : near (data tf 288) h h1) by (by apply near_csr). assert (N2 : near (data tf 288) h h2) by (eapply near_trans; [done|apply near_rset]).
  cbn [app].
  rewrite (run_cons _ _ _ _ _ h1 (win_fetch _ _ _ _ _ _ W h (near_refl _ _))) by (apply step_csrw; unfold csr_ok; by rewrite Hp).
  rewrite (run_cons _ _ _ _ _ h2 (win_fetch _ _ _ _ _ _ W h1 N1)) by done. cbn [app].
  pose proof (window_near _ _ _ _ _ _ _ W N2) as W2. assert (B2 : rget a0 h2 = TRAPFRAME) by reflexivity.
  rewrite (run_saves _ _ _ _ _ _ _ _ _ W2 B2 F1). set (h3 := set_hmem _ h2).
  assert (N3 : near (data tf 288) h h3) by (eapply near_trans; [done|by apply near_saved]).
  set (h4 := rset t0 (csr_get h3 Sscratch) h3). assert (N4 : near (data tf 288) h h4) by (eapply near_trans; [done|apply near_rset]).
  rewrite (run_cons _ _ _ _ _ h4 (win_fetch _ _ _ _ _ _ W h3 N3)) by (apply step_csrr; unfold csr_ok; by rewrite (near_priv _ _ _ N3), Hp).
  pose proof (window_near _ _ _ _ _ _ _ W N4) as W4. assert (B4 : rget a0 h4 = TRAPFRAME) by reflexivity.
  assert (F6 : fits 288 [(t0, slot a0)]) by (decide_closed).
  rewrite (run_saves _ _ _ _ _ _ _ _ _ W4 B4 F6). set (h5 := set_hmem _ h4).
  assert (N5 : near (data tf 288) h h5) by (eapply near_trans; [done|by apply near_saved]).
  exists h5. conjs; [done|done|done| |].
  - unfold h5. cbn [hmem set_hmem saved foldl]. unfold frame_mem. fold h1 h2.
    assert (E : rget t0 h4 = rget a0 h); [|by rewrite E]. unfold h4. rewrite rget_rset_eq by done.
    unfold csr_get, h3, h2, h1. cbn [csrs_of set_hmem rset set_regs csr_put set_csrf]. rewrite fn_lookup_insert, (u64_small (rget a0 h)) by (by apply rget_ok).
    by apply u64_small, rget_ok.
  - intros c' Hc. unfold h5, h4, h3, h2, h1. cbn. by rewrite fn_lookup_insert_ne.
Qed.

Lemma uservec_ok h T root tf Tk kroot :
  tramp_ok -> regs_ok h -> priv h = SMode -> csrs_of h Satp = MAKE_SATP root -> pmp_open h -> user_table (hmem h) T root tf ->
  ld64 (hmem h) (tf + tf_off TF_kernel_satp) = MAKE_SATP kroot -> tramp_table (hmem h) Tk kroot -> ~ tpage Tk tf ->
  exists h', run TRAMPOLINE trampoline uservec h = Done tt h' /\ entered tf h h'.
Proof.
  intros Ht Hr Hp Hs Ho Hu Hk Htk Hna. rewrite uservec_code. destruct (uservec_saves h T root tf (loads a0 kernel_block ++ [SfenceVma; Csrw Satp t1; SfenceVma; Jr t0]) Ht Hr Hp Hs Ho Hu) as (h5 & -> & N5 & B5 & M5 & C5).
  pose proof (window_near _ _ _ _ _ _ _ (user_window h T root tf Ht Hp Hs Ho Hu) N5) as W5.
  rewrite (run_loads _ _ _ _ _ _ _ _ _ W5 B5) by (decide_closed). set (h6 := loaded tf kernel_block h5).
  assert (Wd : forall r o, (r, o) ∈ kernel_block -> rget r h6 = ld64 (hmem h) (tf + o)).
  { intros r o Hin. assert (Hb : Forall (fun x : reg * Z => x.1 <> zero /\ 0 <= x.2 /\ x.2 + 8 <= 40) kernel_block) by (decide_closed).
    apply (proj1 (Forall_forall _ _) Hb) in Hin as Hb'. cbn [fst snd] in Hb'. clear Hb.
    unfold h6. rewrite (loaded_word tf kernel_block h5 r o); [|decide_closed|done|apply Hb'].
    rewrite M5. apply ldn_ext. intros x Hx. apply frame_outside. change (Z.of_nat 8) with 8 in Hx. lia. }
  assert (N6 : near (data tf 288) h h6) by (eapply near_trans; [done|apply near_loaded]). destruct N6 as [P6 S6 A6 B6 M6].
  assert (Ho6 : pmp_open h6) by (destruct Ho; split; congruence). assert (E1 : rget t1 h6 = MAKE_SATP kroot) by (rewrite (Wd t1 (tf_off TF_kernel_satp)); [done|set_solver]).
  assert (F6 : xlate h6 Fetch TRAMPOLINE = Some trampoline) by (apply (win_fetch _ _ _ _ _ _ W5), near_loaded).
  rewrite (run_cons _ _ _ _ _ h6 F6) by (apply step_sfence; rewrite P6, Hp; done).
  set (h7 := csr_put Satp (u64 (rget t1 h6)) h6).
  rewrite (run_cons _ _ _ _ _ h7 F6) by (apply step_csrw; unfold csr_ok; by rewrite P6, Hp).
  assert (R1 : 0 <= MAKE_SATP kroot < 2 ^ 64) by (rewrite <- Hk; apply ld64_range).
  assert (F7 : xlate h7 Fetch TRAMPOLINE = Some trampoline).
  { apply (tramp_fetch h7 Tk kroot Ht); [change (priv h6 = SMode); congruence|unfold h7; rewrite E1, u64_small by done; apply fn_lookup_insert|by destruct Ho6|].
    by apply (tramp_table_frame (hmem h) _ Tk kroot tf Htk (ut_page _ _ _ _ Hu) Hna). }
  rewrite (run_cons _ _ _ _ _ h7 F7) by (apply step_sfence; change (priv h6 <> UMode); rewrite P6, Hp; done).
  rewrite (run_cons _ _ _ _ _ (set_pc (rget t0 h7) h7) F7) by done. exists (set_pc (rget t0 h7) h7). split; [done|].
  destruct (csrs_loaded tf kernel_block h5) as [C6 _]. fold h6 in C6.
  assert (M7 : hmem h6 = frame_mem tf h) by (unfold h6; by rewrite hmem_loaded).
  split; cbn [hmem set_pc regs csrs_of pc priv].
  - intros r Hz. unfold h7. cbn [hmem csr_put set_csrf]. rewrite M7. by apply frame_word.
  - intros x Hx. unfold h7. cbn [hmem csr_put set_csrf]. rewrite M7. by apply frame_outside.
  - apply (Wd sp). decide_closed.
  - apply (Wd tp). decide_closed.
  - apply (Wd t0). decide_closed.
  - unfold h7. cbn [csrs_of csr_put set_csrf]. rewrite E1, u64_small, Hk by done. apply fn_lookup_insert.
  - intros c Hc1 Hc2. unfold h7. cbn [csrs_of csr_put set_csrf]. rewrite fn_lookup_insert_ne, C6 by done. by apply C5.
  - change (priv h6 = SMode). congruence.
Qed.

(** ** userret *)

Record left_ (tf root : Z) (h h' : hart) : Prop := {
  lv_regs : forall r, r <> zero -> rget r h' = ld64 (hmem h) (tf + slot r);
  lv_mem : hmem h' = hmem h;
  lv_pc : pc h' = csrs_of h Sepc;
  lv_priv : priv h' = UMode;
  lv_satp : csrs_of h' Satp = MAKE_SATP root;
  lv_sie : Z.testbit (csrs_of h' Mstatus) SIE_bit = Z.testbit (csrs_of h Mstatus) SPIE_bit;
  lv_csr : forall c, c <> Satp -> c <> Mstatus -> csrs_of h' c = csrs_of h c
}.

Lemma userret_code : userret = [SfenceVma; Csrw Satp a0; SfenceVma; Li a0 TRAPFRAME] ++ loads a0 user_block ++ [Ld a0 (slot a0) a0; Sret].
Proof. reflexivity. Qed.

Lemma userret_ok h T root tf Tk kroot :
  tramp_ok -> priv h = SMode -> csrs_of h Satp = MAKE_SATP kroot -> tramp_table (hmem h) Tk kroot -> pmp_open h ->
  rget a0 h = MAKE_SATP root -> 0 <= MAKE_SATP root < 2 ^ 64 -> user_table (hmem h) T root tf -> Z.testbit (csrs_of h Mstatus) SPP_bit = false ->
  exists h', run TRAMPOLINE trampoline userret h = Done tt h' /\ left_ tf root h h'.
Proof.
  intros Ht Hp Hs Htk Ho Ha HR Hu Hspp. rewrite userret_code. cbn [app]. pose proof (tramp_fetch h Tk kroot Ht Hp Hs Ho Htk) as F0.
  rewrite (run_cons _ _ _ _ _ h F0) by (apply step_sfence; by rewrite Hp).
  set (h1 := csr_put Satp (u64 (rget a0 h)) h). rewrite (run_cons _ _ _ _ _ h1 F0) by (apply step_csrw; unfold csr_ok; by rewrite Hp).
  assert (W : window TRAMPOLINE trampoline TRAPFRAME tf 288 h1).
  { apply (user_window h1 T root tf Ht Hp); [|by destruct Ho|done]. unfold h1. rewrite Ha, u64_small by done. apply fn_lookup_insert. }
  pose proof (win_fetch _ _ _ _ _ _ W) as F. rewrite (run_cons _ _ _ _ _ h1 (F h1 (near_refl _ _))) by (apply step_sfence; change (priv h <> UMode); by rewrite Hp).
  set (h2 := rset a0 TRAPFRAME h1). rewrite (run_cons _ _ _ _ _ h2 (F h1 (near_refl _ _))) by done.
  destruct user_block_fits as (F1 & _ & F3 & F4 & F5).
  assert (B2 : rget a0 h2 = TRAPFRAME) by reflexivity.
  rewrite (run_loads _ _ _ _ _ _ _ _ _ (window_near _ _ _ _ _ _ _ W (near_rset _ a0 TRAPFRAME h1)) B2 F1 F4).
  set (h3 := loaded tf user_block h2). destruct (csrs_loaded tf user_block h2) as [C3 P3]. fold h3 in C3, P3.
  assert (M3 : hmem h3 = hmem h) by (unfold h3; by rewrite hmem_loaded).
  assert (N3 : near (data tf 288) h1 h3) by (eapply near_trans; [apply near_rset|apply near_loaded]).
  assert (B3 : rget a0 h3 = TRAPFRAME) by (unfold h3; by rewrite loaded_other).
  set (h4 := rset a0 (ld64 (hmem h3) (tf + slot a0)) h3).
  rewrite (run_cons _ _ _ _ _ h4 (F h3 N3)) by (by apply (step_ld _ _ _ _ _ a0 h3 a0 _ (window_near _ _ _ _ _ _ _ W N3) B3)).
  rewrite (run_cons _ _ _ _ _ (do_sret h4) (F h4 (near_trans _ _ _ _ N3 (near_rset _ _ _ _)))) by (apply step_sret; change (priv h3 <> UMode); rewrite P3; change (priv h <> UMode); by rewrite Hp).
  exists (do_sret h4). split; [done|].
  assert (Cs : forall c, c <> Satp -> csrs_of h4 c = csrs_of h c) by (intros c Hc; unfold h4; cbn [csrs_of rset set_regs]; rewrite C3; unfold h2, h1; cbn; by rewrite fn_lookup_insert_ne).
  split; unfold do_sret; cbn [hmem pc priv csrs_of]; rewrite ?Cs by done.
  - intros r Hz. change (rget r h4 = ld64 (hmem h) (tf + slot r)). unfold h4. destruct (decide (r = a0)) as [->|Hn].
    + rewrite rget_rset_eq, M3 by done. apply u64_small, ld64_range.
    + rewrite rget_rset_ne by done. unfold h3. by rewrite (loaded_word tf user_block h2 r (slot r) F3 (user_list_all r Hz Hn) Hz).
  - done.
  - done.
  - by rewrite Hspp.
  - rewrite fn_lookup_insert_ne by done. unfold h4. cbn [csrs_of rset set_regs]. rewrite C3. unfold h2, h1. cbn. by rewrite fn_lookup_insert, Ha, u64_small.
  - rewrite fn_lookup_insert. rewrite Z.clearbit_neq, Z.setbit_neq by done. unfold setb. destruct (Z.testbit _ SPIE_bit); [apply Z.setbit_eq|apply Z.clearbit_eq]; done.
  - intros c Hc1 Hc2. rewrite fn_lookup_insert_ne by done. by apply Cs.
Qed.

(** ** What a process can do in user mode *)

(** Any computation in registers, any store that the hardware lets through,
    and interrupts becoming pending. *)
Inductive user_step : hart -> hart -> Prop :=
| us_compute h f v : (forall r, 0 <= f r < 2 ^ 64) -> user_step h (set_pc v (set_regs f h))
| us_store h n va v pa : n ∈ [1; 2; 4; 8]%nat -> va mod Z.of_nat n = 0 -> xlate h Store va = Some pa -> user_step h (set_hmem (stn n (hmem h) pa v) h)
| us_pending h v : user_step h (set_csrf (<[Mip := v]> (csrs_of h)) h).

(** The address space of a process: below the trapframe only pages of [D]. *)
Record user_space (m : mem) (T : tree) (root tf : Z) (D : gmap Z Z) (Tk : tree) (kroot : Z) : Prop := {
  sp_table : user_table m T root tf;
  sp_leaf : forall va, 0 <= va < MAXVA -> ~ special (va / 4096) -> Z.land (pte_at m T va) PTE_V <> 0 ->
    exists pa f, D !! (va / 4096) = Some pa /\ 0 <= f < 1024 /\ pte_at m T va = Z.lor (PA2PTE pa) f;
  sp_data : forall v pa, D !! v = Some pa -> page_ok pa /\ ~ tpage T pa /\ pa <> tf /\ ~ tpage Tk pa;
  sp_kernel : tramp_table m Tk kroot;
  sp_apart : ~ tpage Tk tf
}.
(** The bytes of the process's own pages. *)
Definition own (D : gmap Z Z) (x : Z) : Prop := exists v pa, D !! v = Some pa /\ in_page pa x.

Lemma user_space_frame m m' T root tf D Tk kroot : user_space m T root tf D Tk kroot ->
  (forall p x, tpage T p \/ tpage Tk p -> in_page p x -> mget m' x = mget m x) -> user_space m' T root tf D Tk kroot.
Proof.
  intros [[[W1 E1] E2 Pg Ap] L Dt [W2 E3] Ka] Hm.
  assert (H1 : forall p x, tpage T p -> in_page p x -> mget m' x = mget m x) by (intros; eapply Hm; eauto).
  assert (H2 : forall p x, tpage Tk p -> in_page p x -> mget m' x = mget m x) by (intros; eapply Hm; eauto).
  split; [split; [split|..]|..]; try done; rewrite ?(pte_at_frame m m') by done; try done; [by apply (wf_frame m)| |split; [by apply (wf_frame m)|by rewrite (pte_at_frame m)]].
  intros va Hva Hs Hv. rewrite (pte_at_frame m) in * by done. by apply L.
Qed.
Lemma user_space_own m m' T root tf D Tk kroot : user_space m T root tf D Tk kroot ->
  (forall x, ~ own D x -> mget m' x = mget m x) -> user_space m' T root tf D Tk kroot.
Proof.
  intros U Hm. apply (user_space_frame m); [done|]. intros p x Hp Hx. apply Hm. intros (v & pa & HD & Hx').
  destruct (sp_data _ _ _ _ _ _ _ U v pa HD) as (Hok & H1 & _ & H2). assert (p = pa) as ->; [|tauto]. apply (page_disjoint p pa x); [|done..].
  destruct Hp as [[k Hk]|[k Hk]]; [apply (wf_page _ _ _ (tt_wf _ _ _ (ut_tramp _ _ _ _ (sp_table _ _ _ _ _ _ _ U))) k)|apply (wf_page _ _ _ (tt_wf _ _ _ (sp_kernel _ _ _ _ _ _ _ U)) k)]; done.
Qed.
Lemma own_tf m T root tf D Tk kroot x : user_space m T root tf D Tk kroot -> in_page tf x -> ~ own D x.
Proof. intros U Hx (v & pa & HD & Hp). destruct (sp_data _ _ _ _ _ _ _ U v pa HD) as (Hok & _ & Hn & _). apply Hn, (page_disjoint pa tf x); try done. apply U. Qed.

(** A store from user mode hits a page of the process. *)
Lemma user_store_own h T root tf D Tk kroot n va pa x : tramp_ok ->
  priv h = UMode -> csrs_of h Satp = MAKE_SATP root -> user_space (hmem h) T root tf D Tk kroot ->
  n ∈ [1; 2; 4; 8]%nat -> va mod Z.of_nat n = 0 -> xlate h Store va = Some pa -> pa <= x < pa + Z.of_nat n -> own D x.
Proof.
  intros Ht Hp Hs U Hn Hal Hx Hr. destruct U as [[[W1 E1] E2 Pg Ap] L Dt _ _].
  destruct (xlate_table_inv h T root Store va pa) as (Hva & Hv & Hl & ->); [by rewrite Hp|done|done|done|]. rewrite Hp in Hl.
  unfold leaf_allows in Hl. apply andb_true_iff in Hl as [_ Hl]. rewrite bool_decide_eq_true_2 in Hl by done. apply Bool.eqb_prop, negb_true_iff, Z.eqb_neq in Hl.
  destruct special_pages as (S1 & S2 & _). destruct (decide (va / 4096 = TRAMPOLINE_page)) as [Hsp|Hs1]; [|destruct (decide (va / 4096 = TRAPFRAME_page)) as [Hsp|Hs2]].
  - exfalso. rewrite <- (pte_at_page _ _ va), Hsp, <- S1, E1 in Hl by done. unfold tramp_pte in Hl. rewrite <- Z.lor_assoc, land_PTE_make in Hl by (destruct Ht; (lia || by vm_compute)). done.
  - exfalso. rewrite <- (pte_at_page _ _ va), Hsp, <- S2, E2 in Hl by done. unfold tf_pte in Hl. destruct (page_ok_56 tf Pg). rewrite <- Z.lor_assoc, land_PTE_make in Hl by (lia || by vm_compute). done.
  - destruct (L va Hva) as (q & f & HD & Hf & Hq); [by intros [?|?]|done|]. destruct (Dt _ _ HD) as (Hok & _). destruct (page_ok_56 q Hok) as [Q1 Q2].
    exists (va / 4096), q. split; [done|]. rewrite Hq, PTE2PA_make in Hr by done. unfold in_page, PGSIZE.
    assert (Hm : va mod 4096 + Z.of_nat n <= 4096); [|pose proof (Z.mod_pos_bound va 4096 ltac:(lia)); lia].
    rewrite !elem_of_cons, elem_of_nil in Hn. destruct Hn as [->|[->|[->|[->|[]]]]]; cbn in Hal |- *; Z.div_mod_to_equations; lia.
Qed.

(** Isolation: however long the process runs, it changes no supervisor
    register and no byte outside its own pages. *)
Lemma user_steps_own h h' T root tf D Tk kroot : tramp_ok -> rtc user_step h h' ->
  priv h = UMode -> regs_ok h -> csrs_of h Satp = MAKE_SATP root -> user_space (hmem h) T root tf D Tk kroot ->
  priv h' = UMode /\ regs_ok h' /\ (forall c, c <> Mip -> csrs_of h' c = csrs_of h c) /\ (forall x, ~ own D x -> mget (hmem h') x = mget (hmem h) x).
Proof.
  intros Ht H. induction H as [h|h h1 h' Hs _ IH]; intros Hp Hr Ha U; [done|].
  inversion Hs as [? f v Hf|? n va v pa Hn Hal Hx|? v]; subst.
  - apply IH; try done. intros r. unfold rget. simpl. destruct (decide _); [lia|apply Hf].
  - assert (Hm : forall x, ~ own D x -> mget (stn n (hmem h) pa v) x = mget (hmem h) x).
    { intros x Hx1. apply mget_stn_ne. intros Hr1. apply Hx1. by eapply user_store_own. }
    destruct IH as (I1 & I2 & I3 & I4); try done; [by apply (user_space_own (hmem h))|]. conjs; try done. intros x Hx1. rewrite I4 by done. by apply Hm.
  - destruct IH as (I1 & I2 & I3 & I4); try done. conjs; try done. intros c Hc. rewrite I3 by done. cbn. by rewrite fn_lookup_insert_ne.
Qed.
End Trap.

(** ** The round trip *)

Section Cycle.
Context `{HC : Ctx} `{HI : Image} `{HO : !ImageOk} `{HF : Frame} `{HS : Syms} `{LS : Lsyms}.

Definition kmem (s : kern) : mem := k_mem (fs_k (kn_fs s)).
(** [h] is the hart that runs the kernel state [s]. *)
Record runs (h : hart) (s : kern) : Prop := {
  rn_mem : hmem h = kmem s;
  rn_priv : priv h = SMode;
  rn_satp : csrs_of h Satp = csr_satp (kn_csrs s mycpu);
  rn_sepc : csrs_of h Sepc = csr_sepc (kn_csrs s mycpu);
  rn_stvec : csrs_of h Stvec = csr_stvec (kn_csrs s mycpu);
  rn_spp : Z.testbit (csrs_of h Mstatus) SPP_bit = Z.testbit (csr_sstatus (kn_csrs s mycpu)) SPP_bit;
  rn_spie : Z.testbit (csrs_of h Mstatus) SPIE_bit = Z.testbit (csr_sstatus (kn_csrs s mycpu)) SPIE_bit;
  rn_sie : Z.testbit (csrs_of h Mstatus) SIE_bit = sie (cs_cpu (my_cpu s))
}.

Lemma set_tf_run p f v pr s : nth_proc s p = Some pr ->
  set_tf p f v s = Done tt (lset mem_lens (set_mem (st64 (kmem s) (p_trapframe pr + tf_off f) v) (fs_k (kn_fs s))) s).
Proof. intros H. unfold set_tf. by rewrite (bind_Done _ _ _ _ _ (getp_ok _ _ _ H)). Qed.

(** The words that [usertrapret] leaves in the trapframe. *)
Definition prepared (m : mem) (tf satp kstack : Z) : mem :=
  st64 (st64 (st64 (st64 m (tf + tf_off TF_kernel_satp) satp) (tf + tf_off TF_kernel_sp) (u64 (kstack + PGSIZE)))
    (tf + tf_off TF_kernel_trap) usertrap_addr) (tf + tf_off TF_kernel_hartid) mycpu.

Lemma usertrapret_run s p pr : cur s = Some p -> nth_proc s p = Some pr -> cpu_in s ->
  exists s', usertrapret s = Done (MAKE_SATP (p_pagetable pr)) s' /\
    kmem s' = prepared (kmem s) (p_trapframe pr) (csr_satp (kn_csrs s mycpu)) (p_kstack pr) /\
    (let c := kn_csrs s' mycpu in csr_satp c = csr_satp (kn_csrs s mycpu) /\ csr_sepc c = ld64 (kmem s') (p_trapframe pr + tf_off TF_epc) /\
      csr_stvec c = TRAMPOLINE + (uservec_addr - trampoline) /\ Z.testbit (csr_sstatus c) SPP_bit = false /\ Z.testbit (csr_sstatus c) SPIE_bit = true) /\
    sie (cs_cpu (my_cpu s')) = false.
Proof.
  intros Hc Hp Hcpu. unfold usertrapret. rewrite (bind_Done _ _ _ _ _ (myproc_ok _ _ Hc)).
  set (s1 := lset cpu_lens (Cpu (noff (lget cpu_lens s)) (intena (lget cpu_lens s)) false) s).
  rewrite (bind_Done _ _ _ tt s1) by done. rewrite (bind_Done (w_csr _) _ s1 tt _ eq_refl).
  set (s2 := set_csrs _ s1). rewrite (bind_Done (Syscall.csr csr_satp) _ s2 _ _ eq_refl).
  rewrite (bind_Done _ _ _ _ _ (set_tf_run p _ _ pr s2 Hp)). set (s3 := lset mem_lens _ s2).
  rewrite (bind_Done _ _ _ _ _ (getp_ok p pr s3 Hp)).
  rewrite (bind_Done _ _ _ _ _ (set_tf_run p _ _ pr s3 Hp)). set (s4 := lset mem_lens _ s3).
  rewrite (bind_Done _ _ _ _ _ (set_tf_run p _ _ pr s4 Hp)). set (s5 := lset mem_lens _ s4).
  rewrite (bind_Done _ _ _ _ _ (set_tf_run p _ _ pr s5 Hp)). set (s6 := lset mem_lens _ s5).
  rewrite (bind_Done (Syscall.csr csr_sstatus) _ s6 _ _ eq_refl), (bind_Done (w_csr _) _ s6 tt _ eq_refl). set (s7 := set_csrs _ s6).
  assert (He : get_tf p TF_epc s7 = Done (ld64 (kmem s7) (p_trapframe pr + tf_off TF_epc)) s7) by (unfold get_tf; by rewrite (bind_Done _ _ _ _ _ (getp_ok p pr s7 Hp))).
  rewrite (bind_Done _ _ _ _ _ He), (bind_Done (w_csr _) _ s7 tt _ eq_refl). set (s8 := set_csrs _ s7).
  rewrite (bind_Done _ _ _ _ _ (getp_ok p pr s8 Hp)).
  assert (E6 : kn_csrs s6 mycpu = set_stvec (TRAMPOLINE + (uservec_addr - trampoline)) (kn_csrs s mycpu)) by (unfold s6, s5, s4, s3, s2; cbn; by rewrite fn_lookup_insert).
  assert (E8 : kn_csrs s8 mycpu = set_sepc (ld64 (kmem s7) (p_trapframe pr + tf_off TF_epc))
    (set_sstatus (Z.lor (Z.land (csr_sstatus (kn_csrs s mycpu)) (u64 (Z.lnot SSTATUS_SPP))) SSTATUS_SPIE) (set_stvec (TRAMPOLINE + (uservec_addr - trampoline)) (kn_csrs s mycpu)))).
  { unfold s8. cbn [kn_csrs set_csrs]. rewrite fn_lookup_insert. unfold s7. cbn [kn_csrs set_csrs]. by rewrite fn_lookup_insert, E6. }
  exists s8. rewrite E8. conjs; try done.
  - change (kmem s8) with (prepared (kmem s) (p_trapframe pr) (csr_satp (kn_csrs s2 mycpu)) (p_kstack pr)). f_equal. unfold s2. cbn. by rewrite fn_lookup_insert.
  - cbn [csr_sstatus set_sepc set_sstatus set_stvec]. rewrite Z.lor_spec, Z.land_spec. change (Z.testbit (u64 (Z.lnot SSTATUS_SPP)) SPP_bit) with false. by rewrite andb_false_r.
  - cbn [csr_sstatus set_sepc set_sstatus set_stvec]. rewrite Z.lor_spec. by rewrite orb_true_r.
  - change (my_cpu s8) with (my_cpu s1). unfold s1. by rewrite my_cpu_lset.
Qed.

Lemma prepared_words m tf satp kstack : 0 <= satp < 2 ^ 64 -> 0 <= usertrap_addr < 2 ^ 64 -> 0 <= mycpu < 2 ^ 64 ->
  let m' := prepared m tf satp kstack in
  ld64 m' (tf + tf_off TF_kernel_satp) = satp /\ ld64 m' (tf + tf_off TF_kernel_sp) = u64 (kstack + PGSIZE) /\
  ld64 m' (tf + tf_off TF_kernel_trap) = usertrap_addr /\ ld64 m' (tf + tf_off TF_kernel_hartid) = mycpu /\
  (forall r, r <> zero -> ld64 m' (tf + slot r) = ld64 m (tf + slot r)) /\ ld64 m' (tf + tf_off TF_epc) = ld64 m (tf + tf_off TF_epc) /\
  forall x, ~ in_page tf x -> mget m' x = mget m x.
Proof.
  intros H1 H2 H3. cbv zeta. unfold prepared. cbn [tf_off]. conjs.
  - rewrite !ld64_st64_ne by lia. rewrite ld64_st64_eq. by apply u64_small.
  - rewrite !ld64_st64_ne by lia. rewrite ld64_st64_eq. apply u64_small, u64_range.
  - rewrite ld64_st64_ne by lia. rewrite ld64_st64_eq. by apply u64_small.
  - rewrite ld64_st64_eq. by apply u64_small.
  - intros r Hr. rewrite !ld64_st64_ne by (destruct r; (congruence || (cbv [slot field tf_off]; lia))). done.
  - rewrite !ld64_st64_ne by lia. done.
  - intros x Hx. unfold in_page, PGSIZE in Hx. rewrite !mget_stn_ne by (change (Z.of_nat 8) with 8; lia). done.
Qed.

(** A process in user mode, as its trapframe says, from the kernel state [h0]. *)
Record resumed (m : mem) (tf root : Z) (h0 h : hart) : Prop := {
  rs_regs : forall r, r <> zero -> rget r h = ld64 m (tf + slot r);
  rs_pc : pc h = ld64 m (tf + tf_off TF_epc);
  rs_priv : priv h = UMode;
  rs_satp : csrs_of h Satp = MAKE_SATP root;
  rs_intr : Z.testbit (csrs_of h Mstatus) SIE_bit = true;
  rs_csr : forall c, c <> Satp -> c <> Mstatus -> csrs_of h c = csrs_of h0 c
}.
(** [usertrap] has been entered from the process state [hu]. *)
Record trapped (tf kroot kstack cause : Z) (hu h : hart) : Prop := {
  tr_pc : pc h = usertrap_addr;
  tr_priv : priv h = SMode;
  tr_satp : csrs_of h Satp = MAKE_SATP kroot;
  tr_sp : rget sp h = u64 (kstack + PGSIZE);
  tr_tp : rget tp h = mycpu;
  tr_intr : Z.testbit (csrs_of h Mstatus) SIE_bit = false;
  tr_spp : Z.testbit (csrs_of h Mstatus) SPP_bit = false;
  tr_sepc : csrs_of h Sepc = pc hu;
  tr_scause : csrs_of h Scause = cause;
  tr_regs : forall r, r <> zero -> ld64 (hmem h) (tf + slot r) = rget r hu;
  tr_mem : forall x, ~ (tf + 40 <= x < tf + 288) -> mget (hmem h) x = mget (hmem hu) x
}.

Lemma user_space_tf m m' T root tf D Tk kroot : user_space m T root tf D Tk kroot -> (forall x, ~ in_page tf x -> mget m' x = mget m x) ->
  user_space m' T root tf D Tk kroot.
Proof.
  intros U Hm. apply (user_space_frame m); [done|]. intros p x Hp Hx. apply Hm. intros Hx'. destruct U as [[[W1 _] _ Pg Ap] _ _ [W2 _] Ka].
  assert (p = tf) as ->; [|tauto]. apply (page_disjoint p tf x); try done. destruct Hp as [[k Hk]|[k Hk]]; [by apply (wf_page _ _ _ W1 k)|by apply (wf_page _ _ _ W2 k)].
Qed.

(** C4: a process goes to user mode and comes back with all its state.  Let
    its page table map its trapframe, the trampoline and otherwise only pages
    of its own.  Then [usertrapret] prepares the trapframe, and [userret], run
    on the page tables of both worlds, starts user mode with the registers
    and the program counter of the trapframe and interrupts on.  The process
    may then run for any time and do anything the hardware allows: at the
    next trap, the processor starts at [uservec], which ends in [usertrap] on
    the process's kernel stack and the kernel's page table, with the hart
    number in [tp], interrupts off, and every user register in the
    trapframe; no other memory has changed but the process's own pages. *)
Theorem trap_cycle s p pr T D Tk kroot :
  tramp_ok -> 0 <= usertrap_addr < 2 ^ 64 -> 0 <= mycpu < 2 ^ 64 ->
  cur s = Some p -> nth_proc s p = Some pr -> cpu_in s -> csr_satp (kn_csrs s mycpu) = MAKE_SATP kroot ->
  user_space (kmem s) T (p_pagetable pr) (p_trapframe pr) D Tk kroot ->
  exists s', usertrapret s = Done (MAKE_SATP (p_pagetable pr)) s' /\
  forall h, runs h s' -> rget a0 h = MAKE_SATP (p_pagetable pr) -> pmp_open h ->
  exists hu, run TRAMPOLINE trampoline userret h = Done tt hu /\ resumed (kmem s) (p_trapframe pr) (p_pagetable pr) h hu /\
  forall h2 cause tval, rtc user_step hu h2 -> delegated h2 cause = true ->
  pc (trap cause tval h2) = TRAMPOLINE + (uservec_addr - trampoline) /\ (forall x, ~ own D x -> ~ in_page (p_trapframe pr) x -> mget (hmem h2) x = mget (kmem s) x) /\
  exists h3, run TRAMPOLINE trampoline uservec (trap cause tval h2) = Done tt h3 /\ trapped (p_trapframe pr) kroot (p_kstack pr) cause h2 h3.
Proof.
  intros Ht Hu1 Hm1 Hc Hp Hcpu Hsatp U. destruct (usertrapret_run s p pr Hc Hp Hcpu) as (s' & Hrun & Hmem & (C1 & C2 & C3 & C4 & C5) & Hsie).
  exists s'. split; [done|]. intros h R Ha Ho.
  assert (Rr : forall T r, wf (kmem s) T r -> 0 <= MAKE_SATP r < 2 ^ 64).
  { intros T' r W. apply MAKE_SATP_range. destruct (wf_page _ _ _ W _ _ (wf_root _ _ _ W)) as [Hok _]. by apply page_ok_56 in Hok as [? _]. }
  assert (Hk : 0 <= MAKE_SATP kroot < 2 ^ 64) by (eapply Rr, (tt_wf _ _ _ (sp_kernel _ _ _ _ _ _ _ U))).
  rewrite Hsatp in Hmem. destruct (prepared_words (kmem s) (p_trapframe pr) (MAKE_SATP kroot) (p_kstack pr) Hk Hu1 Hm1) as (P1 & P2 & P3 & P4 & P5 & P6 & P7).
  rewrite <- Hmem in P1, P2, P3, P4, P5, P6, P7. assert (U' : user_space (kmem s') T (p_pagetable pr) (p_trapframe pr) D Tk kroot) by (by apply (user_space_tf (kmem s))).
  destruct R as [R1 R2 R3 R4 R5 R6 R7 R8]. rewrite <- R1 in U', P1, P2, P3, P4, P5, P6, P7.
  destruct (userret_ok h T (p_pagetable pr) (p_trapframe pr) Tk kroot Ht R2 ltac:(congruence) (sp_kernel _ _ _ _ _ _ _ U') Ho Ha) as (hu & Hret & [L1 L2 L3 L4 L5 L6 L7]);
    [eapply Rr, (tt_wf _ _ _ (ut_tramp _ _ _ _ (sp_table _ _ _ _ _ _ _ U)))|apply U'|congruence|].
  exists hu. split; [done|]. split; [split; [intros r Hr; by rewrite L1, P5|congruence|done|done|congruence|done]|]. intros h2 cause tval Hst Hd.
  assert (Hreg : regs_ok hu) by (intros r; destruct (decide (r = zero)) as [->|Hz]; [unfold rget; simpl; lia|rewrite L1 by done; apply ld64_range]).
  assert (Hu : user_space (hmem hu) T (p_pagetable pr) (p_trapframe pr) D Tk kroot) by (by rewrite L2).
  destruct (user_steps_own hu h2 T (p_pagetable pr) (p_trapframe pr) D Tk kroot Ht Hst L4 Hreg L5 Hu) as (I1 & I2 & I3 & I4).
  destruct (trap_s_ok cause tval h2 Hd) as (T1 & T2 & T3 & T4 & T5 & T6 & T7 & T8 & _ & T9). rewrite I1 in T8. change (bool_decide (UMode = SMode)) with false in T8. set (h2' := trap cause tval h2) in *.
  split; [rewrite T2, I3, L7 by done; congruence|]. split; [intros x Hx1 Hx2; rewrite I4 by done; rewrite L2; by apply P7|].
  assert (Hu2 : user_space (hmem h2') T (p_pagetable pr) (p_trapframe pr) D Tk kroot) by (rewrite T4; by apply (user_space_own (hmem hu))).
  assert (Hw : forall o, 0 <= o -> o + 8 <= 4096 -> ld64 (hmem h2') (p_trapframe pr + o) = ld64 (hmem h) (p_trapframe pr + o)).
  { intros o H1 H2. rewrite T4, <- L2. apply ldn_ext. intros x Hx. apply I4. apply (own_tf _ _ _ _ _ _ _ _ Hu). unfold in_page, PGSIZE. lia. }
  assert (Hcs : forall c, c ∉ [Mstatus; Sepc; Scause; Stval; Mip; Satp] -> csrs_of h2' c = csrs_of h c).
  { intros c Hnc. rewrite !not_elem_of_cons in Hnc. rewrite T9 by set_solver. rewrite I3, L7 by tauto. done. }
  destruct (uservec_ok h2' T (p_pagetable pr) (p_trapframe pr) Tk kroot Ht) as (h3 & Hv & [E1 E2 E3 E4 E5 E6 E7 E8]);
    [intros r; unfold rget; rewrite T3; apply I2|done|rewrite T9, I3 by decide_closed; done|destruct Ho; split; by rewrite Hcs by decide_closed|apply Hu2|by rewrite Hw|apply Hu2|apply Hu2|].
  exists h3. split; [done|]. split; rewrite ?E3, ?E4, ?E5, ?E6, ?Hw, ?E7 by done; try congruence.
  - intros r Hr. rewrite E1 by done. unfold rget. by rewrite T3.
  - intros x Hx. rewrite E2 by done. by rewrite T4.
Qed.
End Cycle.

(** ** A process about to return to user mode *)

Module TrapExample.
Export KernExample.

(** Seven free pages, of which a table for the kernel and one for the process
    are built. *)
Definition links7 : mem := foldl (fun m i => st64 m (page i) (page (i + 1))) ∅ [0; 1; 2; 3; 4; 5].
Definition st7 : kst := Kst links7 (initlock "kmem") (page 0).
Definition pages7 : list Z := page <$> [0; 1; 2; 3; 4; 5; 6].
Definition st8 : kst := out_state st7 (proc_pagetable (page 9) st7).
Definition st9 : kst := out_state st8 (proc_pagetable (page 10) st8).

Lemma kinv7 : kinv st7 pages7.
Proof.
  split; [split; reflexivity| | |].
  - repeat (split; [vm_compute; reflexivity|]). vm_compute. reflexivity.
  - apply (bool_decide_unpack _). vm_compute. exact I.
  - repeat constructor; apply page_ok_ex; lia.
Qed.
Lemma pages7_ok p : p ∈ pages7 -> page_ok p /\ p <> page 9 /\ p <> page 10.
Proof.
  intros Hp. apply list_elem_of_fmap in Hp as (i & -> & Hi). rewrite !elem_of_cons, elem_of_nil in Hi.
  split; [apply page_ok_ex; lia|]. unfold page, PGSIZE. lia.
Qed.

(** A run of [proc_pagetable] that succeeds. *)
Lemma made s l tf r : kinv s l -> (forall p, p ∈ l -> page_ok p /\ p <> page 9 /\ p <> page 10) -> page_ok tf ->
  (match proc_pagetable tf s with Done r _ => r | _ => 0 end) = r -> r <> 0 ->
  let s' := out_state s (proc_pagetable tf s) in
  exists l' T, as_inv s' l' T r ∅ /\ only_pages l s s' /\ (forall p, tpage T p \/ p ∈ l' -> p ∈ l) /\
    forall va, 0 <= va < MAXVA -> pte_at (k_mem s') T va =
      if va / 4096 =? TRAPFRAME_page then tf_pte tf else if va / 4096 =? TRAMPOLINE_page then tramp_pte else 0.
Proof.
  intros Hk Hl Ht Hr Hr0. destruct (proc_pagetable_spec s l tf Hk) as (r' & s' & H & [l' HR] & Ho); [discriminate|discriminate|done|].
  rewrite H in Hr |- *. cbn [out_state] in *. subst r'. destruct HR as [[? _]|(_ & T & Hinv & Hown & Hp)]; [done|]. exists l', T. conjs; [done|done| |done].
  intros p Hp'. apply Hown. unfold owns. tauto.
Qed.
Lemma made_table s l T r tf : as_inv s l T r ∅ -> (forall va, 0 <= va < MAXVA -> pte_at (k_mem s) T va =
      if va / 4096 =? TRAPFRAME_page then tf_pte tf else if va / 4096 =? TRAMPOLINE_page then tramp_pte else 0) -> tramp_table (k_mem s) T r.
Proof. intros Hi Hp. split; [apply Hi|]. rewrite Hp; [reflexivity|vm_compute; by split]. Qed.

Lemma space_ex : exists T Tk, user_space (k_mem st9) T (page 3) (page 10) ∅ Tk (page 0).
Proof.
  destruct (made st7 pages7 (page 9) (page 0) kinv7 pages7_ok) as (l1 & T1 & I1 & _ & L1 & P1); [apply page_ok_ex; lia|vm_compute; reflexivity|discriminate|].
  fold st8 in I1, P1. destruct (made st8 l1 (page 10) (page 3)) as (l2 & T2 & I2 & O2 & L2 & P2); [apply I1|intros p Hp; apply pages7_ok; auto|apply page_ok_ex; lia|vm_compute; reflexivity|discriminate|].
  fold st9 in I2, O2, P2. exists T2, T1.
  assert (F : forall p x, tpage T1 p -> in_page p x -> mget (k_mem st9) x = mget (k_mem st8) x).
  { intros p x Hp Hx. apply O2. intros q Hq Hx'. assert (p = q) as ->; [|by apply (pt_free _ _ _ _ (as_pt _ _ _ _ _ I1) q Hp)].
    apply (page_disjoint p q x); try done; apply pages7_ok; apply L1; tauto. }
  destruct (made_table st8 l1 T1 (page 0) (page 9) I1 P1) as [W1 E1]. split.
  - split; [by apply (made_table st9 l2 T2 (page 3) (page 10))|rewrite P2; [reflexivity|vm_compute; by split]|apply page_ok_ex; lia|].
    intros Hp. destruct (pages7_ok (page 10)); [|tauto]. apply L1. right. apply L2. tauto.
  - intros va Hva Hns Hv. exfalso. rewrite P2 in Hv by done. destruct (Z.eqb_spec (va / 4096) TRAPFRAME_page); [apply Hns; by right|].
    destruct (Z.eqb_spec (va / 4096) TRAMPOLINE_page); [apply Hns; by left|]. done.
  - intros v pa Hx. done.
  - split; [by apply (wf_frame (k_mem st8))|by rewrite (pte_at_frame (k_mem st8))].
  - intros Hp. destruct (pages7_ok (page 10)); [|tauto]. apply L1. tauto.
Qed.

Definition kern9 : kern :=
  set_kn_fs (Fsst (fs_tx fs0) (fs_sb fs0) (fs_itlock fs0) (fs_it fs0) st9 0 0)
    (set_procs (set_pagetable (page 3) (set_trapframe (page 10) proc0) :: replicate 63 free_proc)
      (set_csrs (fun _ => Csrs 0 0 0 0 0 0 (MAKE_SATP (page 0))) (kern_with pipe0))).
(** The hart in a kernel state, with everything delegated and [a0] set for [userret]. *)
Definition hart9 (s : kern) : hart :=
  let c := kn_csrs s 0 in
  Hart (fun r => if decide (r = a0) then MAKE_SATP (page 3) else 0)
    (fun r => match r with
     | Satp => csr_satp c | Sepc => csr_sepc c | Stvec => csr_stvec c | Pmpcfg0 => 0xf | Pmpaddr0 => 0x3fffffffffffff
     | Mstatus => setb SIE_bit (sie (cs_cpu (my_cpu s))) (csr_sstatus c) | Medeleg => 0xb3ff | Mideleg => 0x222 | _ => 0 end)
    SMode 0 (kmem s).
Lemma runs_hart9 s : runs (hart9 s) s.
Proof.
  split; try done; unfold hart9; cbn [csrs_of]; unfold setb; destruct (sie _);
    rewrite ?Z.setbit_eq, ?Z.clearbit_eq, ?Z.setbit_neq, ?Z.clearbit_neq by done; done.
Qed.

Lemma trap_cycle_witness : exists s' hu h3, usertrapret kern9 = Done (MAKE_SATP (page 3)) s' /\
  run TRAMPOLINE trampoline userret (hart9 s') = Done tt hu /\ priv hu = UMode /\
  run TRAMPOLINE trampoline uservec (trap 8 0 hu) = Done tt h3 /\ pc h3 = usertrap_addr.
Proof.
  destruct space_ex as (T & Tk & U).
  destruct (trap_cycle kern9 0 (set_pagetable (page 3) (set_trapframe (page 10) proc0)) T ∅ Tk (page 0)) as (s' & H1 & H2);
    [split; [split; [discriminate|reflexivity]|reflexivity]|split; [discriminate|reflexivity]|split; [discriminate|reflexivity]|reflexivity|reflexivity|vm_compute; lia|reflexivity|exact U|].
  destruct (H2 (hart9 s') (runs_hart9 s') eq_refl (conj eq_refl eq_refl)) as (hu & H3 & R & H4).
  destruct (H4 hu 8 0 (rtc_refl _ _)) as (_ & _ & h3 & H5 & H6).
  - unfold delegated. rewrite (rs_priv _ _ _ _ _ R), (rs_csr _ _ _ _ _ R Medeleg) by discriminate. reflexivity.
  - exists s', hu, h3. exact (conj H1 (conj H3 (conj (rs_priv _ _ _ _ _ R) (conj H5 (tr_pc _ _ _ _ _ _ H6))))).
Defined.
End TrapExample.
