(* ===== verification/LowSpec.v ===== *)
(** * Interrupts in the kernel, and context switches

    [kernelvec] and [swtch] on a hart with the kernel's page table: an
    interrupt leaves the interrupted kernel code as it was, and [swtch] stores
    one context and continues with another.  The table of [kvmmake] maps the
    code, the data and the stacks as these need it. *)

From S2P Require Import Prelude Memory Riscv Spinlock Kalloc Vm VmWalk VmUser VmFree KvmSpec Kern Syscall Hart HartSpec Lowlevel TrapSpec.

(** ** The kernel's page table *)

Section Kernel.
Context `{HC : Ctx} `{HI : Image} `{HO : !ImageOk} `{LS : Lsyms}.

Definition KDATA : Z := Z.lor (Z.lor PTE_R PTE_W) PTE_V.
Definition KTEXT : Z := Z.lor (Z.lor PTE_R PTE_X) PTE_V.
(** The [n] bytes at [b] are mapped to [pb] with the flags [f], outside the
    pages of the table. *)
Record kmaps (m : mem) (T : tree) (f b pb n : Z) : Prop := {
  km_range : 0 <= b /\ b + n <= MAXVA /\ 0 <= pb /\ pb + n <= 2 ^ 56 - 4096;
  km_off : b mod 4096 = pb mod 4096;
  km_pte : forall o, 0 <= o < n -> pte_at m T (b + o) = Z.lor (PA2PTE ((pb + o) / 4096 * 4096)) f;
  km_apart : forall p x, tpage T p -> in_page p x -> ~ data pb n x
}.
(** The hart runs kernel code at [va], which is in memory at [pa]. *)
Record kernel_hart (T : tree) (root va pa : Z) (h : hart) : Prop := {
  kh_priv : priv h = SMode;
  kh_satp : csrs_of h Satp = MAKE_SATP root;
  kh_pmp : pmp_open h;
  kh_wf : wf (hmem h) T root;
  kh_text : kmaps (hmem h) T KTEXT va pa 1
}.

Lemma kmaps_frame m m' T f b pb n : kmaps m T f b pb n -> (forall p x, tpage T p -> in_page p x -> mget m' x = mget m x) -> kmaps m' T f b pb n.
Proof. intros [R O P A] Hm. split; try done. intros o Ho. rewrite (pte_at_frame m) by done. by apply P. Qed.
Lemma kernel_near T root va pa h h' P : kernel_hart T root va pa h -> near P h h' -> (forall p x, tpage T p -> in_page p x -> ~ P x) ->
  kernel_hart T root va pa h'.
Proof.
  intros [H1 H2 [H3 H4] H5 H6] [N1 N2 N3 N4 N5] HP. assert (Hm : forall p x, tpage T p -> in_page p x -> mget (hmem h') x = mget (hmem h) x) by (intros p x Hp Hx; apply N5; by eapply HP).
  split; [congruence|congruence|split; congruence|by apply (wf_frame (hmem h))|by apply (kmaps_frame (hmem h))].
Qed.

Lemma kmaps_xlate h T root va pa f b pb n a o : kernel_hart T root va pa h -> kmaps (hmem h) T f b pb n -> 0 <= o < n -> 0 <= f < 1024 -> grants SMode a f = true ->
  xlate h a (b + o) = Some (pb + o).
Proof.
  intros [H1 H2 H3 H4 _] [R O P _] Ho Hf Hg.
  rewrite (xlate_table h (hmem h) T root (b + o) a ((pb + o) / 4096 * 4096) f); try done.
  - f_equal. assert ((b + o) mod 4096 = (pb + o) mod 4096) by (rewrite <- Zplus_mod_idemp_l, O; apply Zplus_mod_idemp_l). Z.div_mod_to_equations. lia.
  - by rewrite H1.
  - lia.
  - by apply P.
  - Z.div_mod_to_equations. lia.
  - apply Z.mod_mul. lia.
  - by rewrite H1.
Qed.

Lemma kernel_window T root va pa h b pb n : kernel_hart T root va pa h -> kmaps (hmem h) T KDATA b pb n -> b mod 8 = 0 -> window va pa b pb n h.
Proof.
  intros K D H8.
  assert (G : forall h', near (data pb n) h h' -> kernel_hart T root va pa h' /\ kmaps (hmem h') T KDATA b pb n).
  { intros h' N. split; [apply (kernel_near _ _ _ _ _ _ _ K N), D|]. apply (kmaps_frame (hmem h)); [done|]. intros p x Hp Hx. apply N. by apply (km_apart _ _ _ _ _ _ D p). }
  split; [| |done|destruct D as [R _ _ _]; change MAXVA with (2 ^ 38) in R; lia].
  - intros h' N. destruct (G h' N) as [K' _]. rewrite <- (Z.add_0_r va), <- (Z.add_0_r pa). eapply (kmaps_xlate h' T root va pa KTEXT va pa 1 Fetch 0); [done|apply K'|lia|by vm_compute|done].
  - intros h' a o N Ha H1 H2. destruct (G h' N) as [K' D']. eapply (kmaps_xlate h' T root va pa KDATA b pb n a o); [done|done|lia|by vm_compute|by destruct a].
Qed.

(** The table of [kvmmake] maps the trampoline, the kernel's text and data,
    and the stacks as the code below needs them. *)
Section Kvm.
Context (s : kst) (l : list Z) (T : tree) (root : Z) (stk : list Z) (Hpt : pt_inv s l T root) (Hlen : length stk = 64%nat) (Hsk : stacks_ok l T stk).
Context (Hpte : forall va, 0 <= va < MAXVA -> pte_at (k_mem s) T va = kernel_pte stk va).

Lemma kvm_tramp : tramp_table (k_mem s) T root.
Proof.
  split; [apply Hpt|]. rewrite Hpte by (vm_compute; by split). destruct etext_range as [X1 X2]. destruct end_range as [X3 X4]. unfold kernel_pte, UART0, VIRTIO0, PLIC, PHYSTOP, KERNBASE in *.
  change TRAMPOLINE with (67108863 * 4096). change PGSIZE with 4096. split_within; done.
Qed.
Lemma tpage_range p x : tpage T p -> in_page p x -> image_end <= x < PHYSTOP.
Proof.
  intros [k Hk] Hx. destruct (wf_page _ _ _ (pt_wf _ _ _ _ Hpt) _ _ Hk) as [[Ha Hr] _]. destruct end_range as [X3 X4]. unfold in_page, PGSIZE, PHYSTOP, KERNBASE in *. Z.div_mod_to_equations. lia.
Qed.
Lemma kvm_text va : KERNBASE <= va < etext -> kmaps (k_mem s) T KTEXT va va 1.
Proof.
  intros Hva. destruct etext_range as [X1 X2]. destruct end_range as [X3 X4]. split; [change MAXVA with (67108864 * 4096); unfold PHYSTOP, KERNBASE in *; lia|done| |].
  - intros o Ho. replace o with 0 by lia. rewrite !Z.add_0_r. rewrite Hpte by (change MAXVA with (67108864 * 4096); unfold PHYSTOP, KERNBASE in *; lia).
    unfold kernel_pte, UART0, VIRTIO0, PLIC, PHYSTOP, KERNBASE, PGSIZE in *. split_within. simpl. unfold direct, KTEXT, RX. by rewrite <- Z.lor_assoc.
  - intros p x Hp Hx Hd. apply tpage_range in Hx; [|done]. unfold data in Hd. lia.
Qed.
(** Turning the table on: the code goes on where it is. *)
Lemma kvminithart_ok h : hmem h = k_mem s -> priv h = SMode -> pmp_open h -> 0 <= root < 2 ^ 56 ->
  exists h', kvminithart root h = Done tt h' /\ regs h' = regs h /\ hmem h' = hmem h /\ forall va, KERNBASE <= va < etext -> kernel_hart T root va va h'.
Proof.
  intros Hm Hp [O1 O2] Hr. set (h' := csr_put Satp (u64 (MAKE_SATP root)) h). exists h'. split; [|split; [done|split; [done|]]].
  - unfold kvminithart, sfence_vma. assert (Hu : priv h <> UMode) by (by rewrite Hp). rewrite (bind_Done _ _ _ _ _ (step_sfence h Hu)).
    assert (Hw : w_satp (MAKE_SATP root) h = Done tt h') by (unfold w_satp, csrw, bind, gets, csr_ok; by rewrite Hp). rewrite (bind_Done _ _ _ _ _ Hw). by apply step_sfence.
  - intros va Hva. split; [done|unfold h'; rewrite u64_small by (by apply MAKE_SATP_range); apply fn_lookup_insert|by split|cbn; rewrite Hm; apply Hpt|cbn; rewrite Hm; by apply kvm_text].
Qed.
Lemma kvm_data b n : etext <= b -> 0 <= n -> b + n <= PHYSTOP -> (forall p x, tpage T p -> in_page p x -> ~ data b n x) -> kmaps (k_mem s) T KDATA b b n.
Proof.
  intros Hb Hn Hbn Hap. destruct etext_range as [X1 X2]. destruct end_range as [X3 X4]. split; [change MAXVA with (67108864 * 4096); unfold PHYSTOP, KERNBASE in *; lia|done| |done].
  intros o Ho. rewrite Hpte by (change MAXVA with (67108864 * 4096); unfold PHYSTOP, KERNBASE in *; lia).
  unfold kernel_pte, UART0, VIRTIO0, PLIC, PHYSTOP, KERNBASE, PGSIZE in *. split_within. simpl. unfold direct, KDATA, RW. by rewrite <- Z.lor_assoc.
Qed.
Lemma kvm_stack p q o n : 0 <= p < 64 -> stk !! Z.to_nat p = Some q -> 0 <= o -> 0 <= n -> o + n <= 4096 -> kmaps (k_mem s) T KDATA (KSTACK p + o) (q + o) n.
Proof.
  intros Hp Hq Ho Hn Hon. pose proof (KSTACK_page p) as Ep. unfold STACK0 in Ep. destruct (sk_page _ _ _ Hsk q (list_elem_of_lookup_2 _ _ _ Hq)) as (Hok & _ & Hnt). destruct (page_ok_56 q Hok) as [Q1 Q2].
  pose proof (page_ok_pos q Hok) as Q3. split; [change MAXVA with (67108864 * 4096); lia|rewrite Ep; Z.div_mod_to_equations; lia| |].
  - intros i Hi. rewrite Hpte by (change MAXVA with (67108864 * 4096); lia). destruct (kernel_pte_stack stk p (KSTACK p + o + i) Hlen Hp) as [G _]. destruct G as (q' & Hq' & ->); [lia|].
    assert (q' = q) as -> by congruence. replace ((q + o + i) / 4096 * 4096) with q by (Z.div_mod_to_equations; lia). unfold KDATA, RW. by rewrite <- Z.lor_assoc.
  - intros p' x Hp' Hx Hd. apply Hnt. destruct Hp' as [k Hk]. destruct (wf_page _ _ _ (pt_wf _ _ _ _ Hpt) _ _ Hk) as [Hok' _].
    rewrite (page_disjoint q p' x); [by exists k|done|done|unfold in_page, data, PGSIZE in *; lia|done].
Qed.
End Kvm.

(** ** kernelvec *)

Definition kv_list : list reg :=
  [ra; sp; gp; tp; t0; t1; t2; s0; s1; a0; a1; a2; a3; a4; a5; a6; a7; s2; s3; s4; s5; s6; s7; s8; s9; s10; s11; t3; t4; t5; t6].
Definition kv_block : block := imap (fun i r => (r, 8 * Z.of_nat i)) kv_list.
(** All but [ra] and [sp], which are loaded first, and [tp], which is not. *)
Definition kv_rest : block := filter (fun x => x.1 <> ra /\ x.1 <> sp /\ x.1 <> tp) kv_block.

Lemma kernelvec_save_code : kernelvec_save = [Addi sp sp (-256)] ++ saves sp kv_block ++ [Call kerneltrap_addr kernelvec_back].
Proof. reflexivity. Qed.
Lemma kernelvec_restore_code : kernelvec_restore = [Ld ra 0 sp; Ld sp 8 sp] ++ loads sp kv_rest ++ [Addi sp sp 256; Sret].
Proof. reflexivity. Qed.
Lemma kv_facts : fits 256 kv_block /\ NoDup kv_block.*2 /\ fits 256 kv_rest /\ NoDup kv_rest.*1 /\ sp ∉ kv_rest.*1 /\ ra ∉ kv_rest.*1 /\ tp ∉ kv_rest.*1.
Proof. conjs; decide_closed. Qed.
(** The word of a register. *)
Definition kv_off (r : reg) : Z := match list_find (fun x => x.1 = r) kv_block with Some (_, x) => x.2 | None => 0 end.
Lemma kv_in r : r <> zero -> (r, kv_off r) ∈ kv_block.
Proof. intros H. apply (bool_decide_unpack _). destruct r; first [vm_compute; exact I|done]. Qed.
Lemma kv_in_rest r : r ∉ [zero; ra; sp; tp] -> (r, kv_off r) ∈ kv_rest.
Proof. intros H. rewrite !elem_of_cons, elem_of_nil in H. apply (bool_decide_unpack _). destruct r; first [vm_compute; exact I|exfalso; tauto]. Qed.

Lemma kernelvec_save_ok T root va pa h pb : kernel_hart T root va pa h -> regs_ok h -> 256 <= rget sp h -> rget sp h mod 8 = 0 ->
  kmaps (hmem h) T KDATA (rget sp h - 256) pb 256 ->
  exists h', run va pa kernelvec_save h = Done tt h' /\ pc h' = kerneltrap_addr /\ rget sp h' = rget sp h - 256 /\ near (data pb 256) h h' /\
    csrs_of h' = csrs_of h /\ ld64 (hmem h') (pb + kv_off sp) = rget sp h - 256 /\ forall r, r <> zero -> r <> sp -> ld64 (hmem h') (pb + kv_off r) = rget r h.
Proof.
  intros K Hr Hs1 Hs2 D. set (b := rget sp h - 256) in *. destruct kv_facts as (F1 & F2 & _). rewrite kernelvec_save_code.
  assert (W : window va pa b pb 256 h) by (eapply kernel_window; [done|done|unfold b; Z.div_mod_to_equations; lia]).
  set (h1 := rset sp b h). assert (Hsp : rget sp h1 = b) by (unfold h1; rewrite rget_rset_eq by done; apply u64_small; pose proof (Hr sp); unfold b; lia).
  cbn [app]. rewrite (run_cons _ _ _ _ _ h1 (win_fetch _ _ _ _ _ _ W h (near_refl _ _))) by done.
  pose proof (window_near _ _ _ _ _ _ _ W (near_rset _ sp b h)) as W1. fold h1 in W1. rewrite (run_saves _ _ _ _ _ _ _ _ _ W1 Hsp F1). set (h2 := set_hmem _ h1).
  assert (N2 : near (data pb 256) h h2) by (eapply near_trans; [apply (near_rset _ sp b)|by apply near_saved]).
  set (h3 := set_pc kerneltrap_addr (rset ra kernelvec_back h2)). rewrite (run_cons _ _ _ _ _ h3 (win_fetch _ _ _ _ _ _ W h2 N2)) by done.
  exists h3. assert (Wd : forall r, r <> zero -> ld64 (hmem h3) (pb + kv_off r) = rget r h1).
  { intros r Hz. apply (saved_word pb 256); [by apply regs_ok_rset|done|done|by apply kv_in]. }
  conjs; [done|done|done| |done|by rewrite Wd|].
  - eapply near_trans; [done|]. by split.
  - intros r Hz Hn. rewrite Wd by done. by apply rget_rset_ne.
Qed.

(** [kerneltrap] returns: it keeps [sp], the stack above it, and the page
    table, and has restored [sepc] and [sstatus].  [tp] may be another hart. *)
Record returned (T : tree) (root va pa b pb : Z) (h h' : hart) : Prop := {
  rt_hart : kernel_hart T root va pa h';
  rt_stack : kmaps (hmem h') T KDATA b pb 256;
  rt_sp : rget sp h' = rget sp h;
  rt_frame : forall x, data pb 256 x -> mget (hmem h') x = mget (hmem h) x;
  rt_sepc : csrs_of h' Sepc = csrs_of h Sepc;
  rt_spp : Z.testbit (csrs_of h' Mstatus) SPP_bit = Z.testbit (csrs_of h Mstatus) SPP_bit;
  rt_spie : Z.testbit (csrs_of h' Mstatus) SPIE_bit = Z.testbit (csrs_of h Mstatus) SPIE_bit
}.

(** [kerneltrap] of kernel/trap.c does restore them. *)
Lemma kerneltrap_restores vdi s s' : kerneltrap vdi s = Done tt s' ->
  csr_sepc (kn_csrs s' mycpu) = csr_sepc (kn_csrs s mycpu) /\ csr_sstatus (kn_csrs s' mycpu) = csr_sstatus (kn_csrs s mycpu).
Proof.
  unfold kerneltrap. intros H. apply bind_Done_inv in H as (sepc & s1 & E1 & H). apply bind_Done_inv in H as (sst & s2 & E2 & H).
  injection E1 as <- <-. injection E2 as <- <-. apply bind_Done_inv in H as (? & s3 & E3 & H). injection E3 as <- <-.
  do 7 (apply bind_Done_inv in H as (? & ? & _ & H)).
  apply bind_Done_inv in H as (? & s6 & E6 & H). injection E6 as _ <-. injection H as <-. cbn [kn_csrs set_csrs]. by rewrite !fn_lookup_insert.
Qed.

Lemma kernelvec_restore_ok T root va pa h b pb v : kernel_hart T root va pa h -> kmaps (hmem h) T KDATA b pb 256 -> b mod 8 = 0 ->
  rget sp h = b -> (forall r, r <> zero -> r <> sp -> ld64 (hmem h) (pb + kv_off r) = v r) -> ld64 (hmem h) (pb + kv_off sp) = b ->
  exists h', run va pa kernelvec_restore h = Done tt h' /\ (forall r, r ∉ [zero; tp; sp] -> rget r h' = v r) /\ rget sp h' = b + 256 /\ rget tp h' = rget tp h /\
    pc h' = csrs_of h Sepc /\ priv h' = (if Z.testbit (csrs_of h Mstatus) SPP_bit then SMode else UMode) /\ hmem h' = hmem h /\
    Z.testbit (csrs_of h' Mstatus) SIE_bit = Z.testbit (csrs_of h Mstatus) SPIE_bit.
Proof.
  intros K D H8 Hsp Hv Hvs. pose proof (kernel_window _ _ _ _ _ _ _ _ K D H8) as W. pose proof (win_fetch _ _ _ _ _ _ W) as F. destruct kv_facts as (_ & _ & F3 & F4 & F5 & F6 & F7).
  rewrite kernelvec_restore_code. cbn [app]. set (h1 := rset ra (ld64 (hmem h) (pb + 0)) h).
  rewrite (run_cons _ _ _ _ _ h1 (F h (near_refl _ _))) by (apply (step_ld _ _ _ _ _ sp h ra 0 W Hsp); (lia || done)).
  pose proof (window_near _ _ _ _ _ _ _ W (near_rset _ ra (ld64 (hmem h) (pb + 0)) h)) as W1. fold h1 in W1. set (h2 := rset sp (ld64 (hmem h) (pb + 8)) h1).
  rewrite (run_cons _ _ _ _ _ h2 (win_fetch _ _ _ _ _ _ W1 h1 (near_refl _ _))) by (apply (step_ld _ _ _ _ _ sp h1 sp 8 W1); (lia || done)).
  assert (B2 : rget sp h2 = b) by (unfold h2; rewrite rget_rset_eq by done; change 8 with (kv_off sp); rewrite Hvs; apply u64_small; destruct D as [R _ _ _]; change MAXVA with (2 ^ 38) in R; lia).
  pose proof (window_near _ _ _ _ _ _ _ W1 (near_rset _ sp (ld64 (hmem h) (pb + 8)) h1)) as W2. fold h2 in W2.
  rewrite (run_loads _ _ _ _ _ _ _ _ _ W2 B2 F3 F5). set (h3 := loaded pb kv_rest h2). destruct (csrs_loaded pb kv_rest h2) as [C3 P3]. fold h3 in C3, P3.
  set (h4 := rset sp (rget sp h3 + 256) h3). rewrite (run_cons _ _ _ _ _ h4 (win_fetch _ _ _ _ _ _ W2 h3 (near_loaded _ _ _ _))) by done.
  assert (N4 : near (data pb 256) h2 h4) by (eapply near_trans; [apply near_loaded|apply near_rset]).
  rewrite (run_cons _ _ _ _ _ (do_sret h4) (win_fetch _ _ _ _ _ _ W2 h4 N4)) by (apply step_sret; change (priv h3 <> UMode); rewrite P3; change (priv h <> UMode); by rewrite (kh_priv _ _ _ _ _ K)).
  exists (do_sret h4). unfold do_sret. cbn [pc priv hmem csrs_of]. change (csrs_of h4) with (csrs_of h3). rewrite C3. change (csrs_of h2) with (csrs_of h).
  assert (Rg : forall r, rget r (Hart (regs h4) (<[Mstatus := Z.clearbit (Z.setbit (setb SIE_bit (Z.testbit (csrs_of h Mstatus) SPIE_bit) (csrs_of h Mstatus)) SPIE_bit) SPP_bit]> (csrs_of h))
    (if Z.testbit (csrs_of h Mstatus) SPP_bit then SMode else UMode) (csrs_of h Sepc) (hmem h4)) = rget r h4) by done.
  conjs; rewrite ?Rg; [reflexivity|..].
  - intros r Hn. rewrite Rg. apply (not_elem_of_cons) in Hn as [Hz [Ht [Hs _]%not_elem_of_cons]%not_elem_of_cons]. unfold h4. rewrite rget_rset_ne by done.
      destruct (decide (r = ra)) as [->|Hra].
    + unfold h3. rewrite loaded_other by done. unfold h2, h1. rewrite rget_rset_ne, rget_rset_eq by done. rewrite u64_small by apply ld64_range. by apply (Hv ra).
    + unfold h3. rewrite (loaded_word pb kv_rest h2 r (kv_off r)); [exact (Hv r Hz Hs)|exact F4|apply kv_in_rest; rewrite !not_elem_of_cons; by split_and!; [..|apply not_elem_of_nil]|exact Hz].
  - unfold h4. rewrite rget_rset_eq by done. unfold h3. rewrite loaded_other, B2 by done. apply u64_small. destruct D as [R _ _ _]; change MAXVA with (2 ^ 38) in R; lia.
  - unfold h4. rewrite rget_rset_ne by done. unfold h3. rewrite loaded_other by done. unfold h2, h1. by rewrite !rget_rset_ne.
  - reflexivity.
  - reflexivity.
  - unfold h4. cbn [hmem rset set_regs]. unfold h3. by rewrite hmem_loaded.
  - rewrite fn_lookup_insert, Z.clearbit_neq, Z.setbit_neq by done. unfold setb. destruct (Z.testbit (csrs_of h Mstatus) SPIE_bit); [apply Z.setbit_eq|apply Z.clearbit_eq]; done.
Qed.

(** C10: an interrupt in the kernel is invisible to the code it interrupts.
    From any point of the kernel with 256 bytes of stack left, a delegated
    trap enters [kernelvec], which calls [kerneltrap] with interrupts off and
    writes to no memory but these 256 bytes.  If [kerneltrap] keeps what a C
    function keeps and restores [sepc] and [sstatus], [kernelvec] goes on at
    the interrupted instruction, in supervisor mode, with interrupts as they
    were and every register as it was, except for [tp]: it is the number of
    the hart on which [kerneltrap] returned. *)
Theorem kernelvec_transparent T root pa pb h cause tval :
  kernel_hart T root (csrs_of h Stvec) pa h -> regs_ok h -> 256 <= rget sp h -> rget sp h mod 8 = 0 ->
  kmaps (hmem h) T KDATA (rget sp h - 256) pb 256 -> delegated h cause = true ->
  pc (trap cause tval h) = csrs_of h Stvec /\
  exists h2, run (csrs_of h Stvec) pa kernelvec_save (trap cause tval h) = Done tt h2 /\ pc h2 = kerneltrap_addr /\ priv h2 = SMode /\
    Z.testbit (csrs_of h2 Mstatus) SIE_bit = false /\ Z.testbit (csrs_of h2 Mstatus) SPP_bit = true /\ csrs_of h2 Scause = cause /\
    (forall x, ~ data pb 256 x -> mget (hmem h2) x = mget (hmem h) x) /\
  forall h3, returned T root (csrs_of h Stvec) pa (rget sp h - 256) pb h2 h3 ->
  exists h4, run (csrs_of h Stvec) pa kernelvec_restore h3 = Done tt h4 /\ pc h4 = pc h /\ priv h4 = SMode /\ hmem h4 = hmem h3 /\
    Z.testbit (csrs_of h4 Mstatus) SIE_bit = Z.testbit (csrs_of h Mstatus) SIE_bit /\ rget tp h4 = rget tp h3 /\ forall r, r <> tp -> rget r h4 = rget r h.
Proof.
  intros K Hr Hs1 Hs2 D Hd. destruct (trap_s_ok cause tval h Hd) as (T1 & T2 & T3 & T4 & T5 & T6 & T7 & T8 & T8' & T9). set (h1 := trap cause tval h) in *. split; [done|].
  assert (Rg : forall r, rget r h1 = rget r h) by (intros r; unfold rget; by rewrite T3). rewrite (kh_priv _ _ _ _ _ K) in T8.
  assert (N : near (fun _ => False) h h1) by (split; [rewrite T1; by rewrite (kh_priv _ _ _ _ _ K)|apply T9; decide_closed..|intros x _; by rewrite T4]).
  assert (K1 : kernel_hart T root (csrs_of h Stvec) pa h1) by (apply (kernel_near _ _ _ _ _ _ _ K N); tauto).
  destruct (kernelvec_save_ok T root (csrs_of h Stvec) pa h1 pb K1) as (h2 & R2 & P2 & S2 & N2 & C2 & Vs & Vr); rewrite ?Rg, ?T4; [intros r; by rewrite Rg|done..|].
  exists h2. rewrite C2. conjs; [done|done|rewrite (near_priv _ _ _ N2); done|done|done|done|intros x Hx; by rewrite (near_mem _ _ _ N2), T4|].
  intros h3 [K3 D3 S3 F3 E3 Q3 I3]. rewrite Rg in S2, Vs.
  assert (Wd : forall r, ld64 (hmem h3) (pb + kv_off r) = ld64 (hmem h2) (pb + kv_off r)).
  { intros r. apply ldn_ext. intros x Hx. apply F3. unfold data. assert (0 <= kv_off r /\ kv_off r + 8 <= 256) by (destruct r; vm_compute; split; discriminate). lia. }
  destruct (kernelvec_restore_ok T root (csrs_of h Stvec) pa h3 (rget sp h - 256) pb (fun r => rget r h) K3 D3) as (h4 & R4 & V4 & S4 & T4' & P4 & M4 & H4 & I4).
  - Z.div_mod_to_equations. lia.
  - by rewrite S3.
  - intros r Hz Hn. by rewrite Wd, Vr, Rg.
  - by rewrite Wd.
  - rewrite Q3, C2, T8 in M4. rewrite I3, C2, T8' in I4. rewrite E3, C2, T5 in P4. exists h4. conjs; try done.
    intros r Hn. destruct (decide (r = zero)) as [->|Hz]; [done|]. destruct (decide (r = sp)) as [->|Hs]; [rewrite S4; lia|apply V4; rewrite !not_elem_of_cons; by split_and!; [..|apply not_elem_of_nil]].
Qed.

(** ** swtch *)

Definition saved_list : list reg := [s0; s1; s2; s3; s4; s5; s6; s7; s8; s9; s10; s11].
Definition swtch_block : block := imap (fun i r => (r, 8 * Z.of_nat i)) (ra :: sp :: saved_list).
Lemma swtch_code : swtch = saves a0 swtch_block ++ loads a1 swtch_block ++ [Jr ra].
Proof. reflexivity. Qed.
Lemma swtch_facts : fits 112 swtch_block /\ NoDup swtch_block.*2 /\ NoDup swtch_block.*1 /\ a0 ∉ swtch_block.*1 /\ a1 ∉ swtch_block.*1 /\ zero ∉ swtch_block.*1.
Proof. conjs; decide_closed. Qed.

(** The [struct context] in the registers, and at an address. *)
Definition ctx_of (h : hart) : context := Context (rget ra h) (rget sp h) ((fun r => rget r h) <$> saved_list).
Definition ctx_at (m : mem) (a : Z) : context := Context (ld64 m a) (ld64 m (a + 8)) ((fun i => ld64 m (a + 16 + 8 * i)) <$> upto 12).

(** The two agree when each register agrees with its word. *)
Lemma ctx_agree m a h : (forall r o, (r, o) ∈ swtch_block -> rget r h = ld64 m (a + o)) -> ctx_of h = ctx_at m a.
Proof.
  intros H. unfold ctx_of, ctx_at. f_equal; [rewrite <- (Z.add_0_r a); apply H; decide_closed|apply H; decide_closed|].
  change (upto 12) with [0; 1; 2; 3; 4; 5; 6; 7; 8; 9; 10; 11]. cbn [fmap list_fmap saved_list].
  rewrite (H s0 16), (H s1 24), (H s2 32), (H s3 40), (H s4 48), (H s5 56), (H s6 64), (H s7 72), (H s8 80), (H s9 88), (H s10 96), (H s11 104) by decide_closed.
  rewrite <- !Z.add_assoc. reflexivity.
Qed.
Lemma ctx_at_ext m m' a : (forall x, data a 112 x -> mget m' x = mget m x) -> ctx_at m' a = ctx_at m a.
Proof.
  intros H. assert (E : forall o, 0 <= o -> o + 8 <= 112 -> ld64 m' (a + o) = ld64 m (a + o)) by (intros o H1 H2; apply ldn_ext; intros x Hx; apply H; unfold data; lia).
  unfold ctx_at. f_equal; [rewrite <- (Z.add_0_r a); apply E; lia|apply E; lia|]. apply list_fmap_ext. intros n i Hi. apply list_elem_of_lookup_2, elem_upto in Hi.
  rewrite <- Z.add_assoc. apply E; lia.
Qed.

Record switched (pold pnew : Z) (h h' : hart) : Prop := {
  sw_saved : ctx_at (hmem h') pold = ctx_of h;
  sw_loaded : ctx_of h' = ctx_at (hmem h) pnew;
  sw_pc : pc h' = c_ra (ctx_at (hmem h) pnew);
  sw_mem : forall x, ~ data pold 112 x -> mget (hmem h') x = mget (hmem h) x;
  sw_rest : forall r, r ∉ ra :: sp :: saved_list -> rget r h' = rget r h;
  sw_priv : priv h' = priv h /\ csrs_of h' = csrs_of h
}.

Lemma swtch_ok T root va pa h pold pnew : kernel_hart T root va pa h -> regs_ok h ->
  kmaps (hmem h) T KDATA (rget a0 h) pold 112 -> kmaps (hmem h) T KDATA (rget a1 h) pnew 112 -> rget a0 h mod 8 = 0 -> rget a1 h mod 8 = 0 ->
  (forall x, data pold 112 x -> ~ data pnew 112 x) -> exists h', run va pa swtch h = Done tt h' /\ switched pold pnew h h'.
Proof.
  intros K Hr D0 D1 A0 A1 Hdj. destruct swtch_facts as (F1 & F2 & F3 & F4 & F5 & F6). rewrite swtch_code.
  rewrite (run_saves _ _ _ _ _ _ _ _ _ (kernel_window _ _ _ _ _ _ _ _ K D0 A0) eq_refl F1). set (h1 := set_hmem _ h).
  assert (N1 : near (data pold 112) h h1) by (by apply near_saved). pose proof (kernel_near _ _ _ _ _ _ _ K N1 (km_apart _ _ _ _ _ _ D0)) as K1.
  assert (D1' : kmaps (hmem h1) T KDATA (rget a1 h) pnew 112) by (apply (kmaps_frame (hmem h)); [done|]; intros p x Hp Hx; apply N1; by apply (km_apart _ _ _ _ _ _ D0 p)).
  pose proof (kernel_window _ _ _ _ _ _ _ _ K1 D1' A1) as W1. rewrite (run_loads _ _ _ _ _ a1 _ _ h1 W1 eq_refl F1 F5). set (h2 := loaded pnew swtch_block h1).
  rewrite (run_cons _ _ _ _ _ (set_pc (rget ra h2) h2) (win_fetch _ _ _ _ _ _ W1 h2 (near_loaded _ _ _ _))) by done.
  assert (Hm2 : hmem h2 = hmem h1) by apply hmem_loaded. destruct (csrs_loaded pnew swtch_block h1) as [C2 P2]. fold h2 in C2, P2.
  assert (Hnew : ctx_at (hmem h1) pnew = ctx_at (hmem h) pnew) by (apply ctx_at_ext; intros x Hx; apply N1; intros Hx'; by apply (Hdj x)).
  assert (Hctx : ctx_of h2 = ctx_at (hmem h) pnew).
  { rewrite <- Hnew. apply ctx_agree. intros r o Hin. apply (loaded_word pnew swtch_block h1 r o F3 Hin). intros ->. apply F6, list_elem_of_fmap. by exists (zero, o). }
  exists (set_pc (rget ra h2) h2). split; [done|]. split; cbn [hmem set_pc pc priv csrs_of].
  - rewrite Hm2. symmetry. apply ctx_agree. intros r o Hin. symmetry. by apply (saved_word pold 112).
  - done.
  - by rewrite <- Hctx.
  - intros x Hx. rewrite Hm2. by apply N1.
  - intros r Hn. change (rget r h2 = rget r h). unfold h2. by rewrite loaded_other.
  - done.
Qed.

(** C11: [swtch] stores the caller's context and continues the other thread
    where it was when its context was stored.  When the first context is
    later switched to, on any hart and in any state that kept its bytes, the
    stack pointer and the callee-saved registers are those of the first call
    and execution goes on at its return address. *)
Theorem swtch_resumes T root va pa h pold pnew : kernel_hart T root va pa h -> regs_ok h ->
  kmaps (hmem h) T KDATA (rget a0 h) pold 112 -> kmaps (hmem h) T KDATA (rget a1 h) pnew 112 -> rget a0 h mod 8 = 0 -> rget a1 h mod 8 = 0 ->
  (forall x, data pold 112 x -> ~ data pnew 112 x) ->
  exists h', run va pa swtch h = Done tt h' /\ switched pold pnew h h' /\
  forall h2 pother, kernel_hart T root va pa h2 -> regs_ok h2 -> kmaps (hmem h2) T KDATA (rget a0 h2) pother 112 ->
    rget a1 h2 = rget a0 h -> kmaps (hmem h2) T KDATA (rget a1 h2) pold 112 -> rget a0 h2 mod 8 = 0 -> (forall x, data pother 112 x -> ~ data pold 112 x) ->
    (forall x, data pold 112 x -> mget (hmem h2) x = mget (hmem h') x) ->
  exists h3, run va pa swtch h2 = Done tt h3 /\ ctx_of h3 = ctx_of h /\ pc h3 = rget ra h.
Proof.
  intros K Hr D0 D1 A0 A1 Hdj. destruct (swtch_ok T root va pa h pold pnew K Hr D0 D1 A0 A1 Hdj) as (h' & R & S). exists h'. split; [done|]. split; [done|].
  intros h2 pother K2 Hr2 D2 Ea D3 A2 Hdj2 Hk. destruct (swtch_ok T root va pa h2 pother pold K2 Hr2 D2 D3 A2) as (h3 & R3 & S3); [by rewrite Ea|done|].
  exists h3. split; [done|]. assert (E : ctx_at (hmem h2) pold = ctx_of h) by (rewrite <- (sw_saved _ _ _ _ S); by apply ctx_at_ext).
  by rewrite (sw_loaded _ _ _ _ S3), (sw_pc _ _ _ _ S3), E.
Qed.
End Kernel.
