(* ===== verification/TimerSpec.v ===== *)
(** * Booting a hart, and the timer: kernel/entry.S, kernel/start.c and
    [timervec] of kernel/kernelvec.S

    Machine mode uses physical addresses.  [start] leaves the hart in
    supervisor mode with everything that can be delegated delegated, and the
    timer set up so that [timervec] works; [timervec] keeps it so. *)

From S2P Require Import Prelude Memory Riscv Hart HartSpec Lowlevel.

Section Timer.
Context `{LS : Lsyms}.

(** ** Machine mode *)

Lemma xlate_m h a va : priv h = MMode -> xlate h a va = Some va.
Proof. intros H. unfold xlate, mmu, pmp_allows. rewrite !bool_decide_eq_true_2 by done. done. Qed.
Lemma window_m va b n h : priv h = MMode -> b mod 8 = 0 -> 0 <= b -> b + n <= 2 ^ 64 -> window va va b b n h.
Proof. intros Hp H8 H1 H2. split; [..|done]; [| |done]; intros h' ? **; apply xlate_m; destruct_and?; rewrite ?(near_priv _ _ _ H) in *; congruence. Qed.
Lemma csrr_m c h : priv h = MMode -> csrr c h = Done (csr_get h c) h.
Proof. intros H. unfold csrr, bind, gets, csr_ok. rewrite H. by destruct c. Qed.
Lemma csrw_m c v h : priv h = MMode -> csrw c v h = Done tt (csr_put c (u64 v) h).
Proof. intros H. unfold csrw, bind, gets, csr_ok. rewrite H. by destruct c. Qed.
Lemma loadn_m a h : priv h = MMode -> a mod 8 = 0 -> loadn 8 a h = Done (ld64 (hmem h) a) h.
Proof. intros H Ha. unfold loadn, bind, gets. change (Z.of_nat 8) with 8. rewrite Ha. simpl (0 =? 0). by rewrite xlate_m. Qed.
Lemma storen_m a v h : priv h = MMode -> a mod 8 = 0 -> storen 8 a v h = Done tt (set_hmem (st64 (hmem h) a v) h).
Proof. intros H Ha. unfold storen, bind, gets. change (Z.of_nat 8) with 8. rewrite Ha. simpl (0 =? 0). by rewrite xlate_m. Qed.

Lemma merge_spec mask old new n : 0 <= n -> Z.testbit (merge mask old new) n = if Z.testbit mask n then Z.testbit new n else Z.testbit old n.
Proof. intros H. unfold merge. rewrite Z.lor_spec, Z.ldiff_spec, Z.land_spec. destruct (Z.testbit mask n), (Z.testbit old n), (Z.testbit new n); done. Qed.
Lemma setb_spec n b x k : 0 <= n -> Z.testbit (setb n b x) k = if decide (k = n) then b else Z.testbit x k.
Proof.
  intros H. unfold setb. destruct (decide (k = n)) as [->|Hn]; destruct b; [by apply Z.setbit_eq|by apply Z.clearbit_eq|by apply Z.setbit_neq|by apply Z.clearbit_neq].
Qed.

(** ** Entering and leaving machine mode *)

(** What [mret] undoes: all but MPIE and MPP. *)
Lemma trap_m_mret cause h h2 : priv h <> MMode -> csrs_of h2 Mstatus = csrs_of (trap_m cause h) Mstatus ->
  priv (do_mret h2) = priv h /\ forall n, 0 <= n -> n ∉ [7; 11; 12] -> Z.testbit (csrs_of (do_mret h2) Mstatus) n = Z.testbit (csrs_of h Mstatus) n.
Proof.
  intros Hp E. set (st := csrs_of h Mstatus) in *.
  assert (B : forall n, 0 <= n -> Z.testbit (csrs_of h2 Mstatus) n =
    if decide (n = 3) then false else if Z.testbit (Z.shiftl 3 11) n then Z.testbit (Z.shiftl (mode_num (priv h)) 11) n else if decide (n = 7) then Z.testbit st 3 else Z.testbit st n).
  { intros n Hn. rewrite E. unfold trap_m. cbn [csrs_of]. rewrite fn_lookup_insert. fold (setb MIE_bit false (merge (Z.shiftl 3 MPP_bit) (setb MPIE_bit (Z.testbit (csrs_of h Mstatus) MIE_bit) (csrs_of h Mstatus)) (Z.shiftl (mode_num (priv h)) MPP_bit))).
    rewrite setb_spec by done. change MIE_bit with 3. destruct (decide (n = 3)); [done|]. rewrite merge_spec, setb_spec by done. done. }
  assert (Hm : Z.land (Z.shiftr (csrs_of h2 Mstatus) 11) 3 = mode_num (priv h)).
  { apply Z.bits_inj'. intros n Hn. rewrite Z.land_spec, Z.shiftr_spec, B by lia. rewrite decide_False by lia. rewrite !Z.shiftl_spec by lia. replace (n + 11 - 11) with n by lia.
    assert (C : n = 0 \/ n = 1 \/ 2 <= n) by lia. destruct C as [->|[->|C]]; [by destruct (priv h)..|].
    assert (Z.testbit 3 n = false) as -> by (apply Z.bits_above_log2; simpl; lia). rewrite andb_false_r. destruct (priv h); [by rewrite Z.bits_0|symmetry; apply Z.bits_above_log2; simpl; lia|done]. }
  unfold do_mret. cbn [priv csrs_of]. change MPP_bit with 11. rewrite Hm, fn_lookup_insert. split; [by destruct (priv h)|]. intros n Hn Hin.
  rewrite !not_elem_of_cons in Hin. rewrite merge_spec by done.
  assert (H0 : Z.testbit (Z.shiftl 3 11) n = false).
  { rewrite Z.shiftl_spec by done. assert (C : n < 11 \/ 13 <= n) by lia. destruct C; [by apply Z.testbit_neg_r; lia|apply Z.bits_above_log2; simpl; lia]. }
  rewrite H0, Z.setbit_neq by (change MPIE_bit with 7; lia). rewrite setb_spec by done. change MIE_bit with 3. change MPIE_bit with 7.
  destruct (decide (n = 3)) as [->|H3]; rewrite B by done; [done|]. rewrite decide_False, H0, decide_False by lia. done.
Qed.

(** ** timervec *)

Definition scratch (i : Z) : Z := timer_scratch + i * 40.
Definition INTERVAL : Z := 1000000.
Definition MTI : Z := 2 ^ 63 + 7.
(** [timer_scratch] is in the kernel's data. *)
Definition scratch_ok : Prop := KERNBASE <= timer_scratch /\ timer_scratch + 8 * 40 <= PHYSTOP /\ timer_scratch mod 8 = 0.
(** What [timerinit] sets up. *)
Record timer_ready (i : Z) (h : hart) : Prop := {
  tm_scratch : csrs_of h Mscratch = scratch i;
  tm_mtvec : csrs_of h Mtvec = timervec_addr;
  tm_cmp : ld64 (hmem h) (scratch i + 24) = CLINT_MTIMECMP i;
  tm_interval : ld64 (hmem h) (scratch i + 32) = INTERVAL;
  tm_deleg : csrs_of h Mideleg = MIDELEG_MASK;
  tm_mie : Z.testbit (csrs_of h Mie) 7 = true
}.

Definition timer_block : block := [(a1, 0); (a2, 8); (a3, 16)].
Lemma timervec_code : timervec = [Csrrw a0 Mscratch a0] ++ saves a0 timer_block ++ loads a0 [(a1, 24); (a2, 32)] ++
  [Ld a3 0 a1; Add a3 a3 a2; Sd a3 0 a1; Li a1 2; Csrw Sip a1] ++ loads a0 [(a3, 16); (a2, 8); (a1, 0)] ++ [Csrrw a0 Mscratch a0; Mret].
Proof. reflexivity. Qed.

Lemma run_m va i c h h' : priv h = MMode -> step i h = Done tt h' -> run va va (i :: c) h = run va va c h'.
Proof. intros H. apply run_cons. by apply xlate_m. Qed.
Lemma step_csrrw_m rd c rs h : priv h = MMode -> step (Csrrw rd c rs) h = Done tt (rset rd (csr_get h c) (csr_put c (u64 (rget rs h)) h)).
Proof. intros H. cbn [step]. unfold reg_, bind, gets. rewrite csrr_m, csrw_m by done. done. Qed.

(** The first half: [a1] to [a3] saved, the comparison register advanced. *)
Lemma timervec_front i h c : 0 <= i < 8 -> scratch_ok -> timer_ready i h -> regs_ok h -> priv h = MMode ->
  exists h', run timervec_addr timervec_addr ([Csrrw a0 Mscratch a0] ++ saves a0 timer_block ++ loads a0 [(a1, 24); (a2, 32)] ++ [Ld a3 0 a1; Add a3 a3 a2; Sd a3 0 a1] ++ c) h
      = run timervec_addr timervec_addr c h' /\
    priv h' = MMode /\ rget a0 h' = scratch i /\ csrs_of h' = <[Mscratch := rget a0 h]> (csrs_of h) /\
    hmem h' = st64 (saved (scratch i) timer_block h (hmem h)) (CLINT_MTIMECMP i) (u64 (ld64 (hmem h) (CLINT_MTIMECMP i) + INTERVAL)) /\
    forall r, r ∉ [a0; a1; a2; a3] -> rget r h' = rget r h.
Proof.
  intros Hi (Q1 & Q2 & Q3) R Hr Hp. set (b := scratch i) in *. set (cmp := CLINT_MTIMECMP i) in *.
  assert (Hb : KERNBASE <= b /\ b + 40 <= PHYSTOP /\ b mod 8 = 0) by (unfold b, scratch; conjs; [lia|lia|Z.div_mod_to_equations; lia]). destruct Hb as (Hb1 & Hb2 & Hb3). unfold PHYSTOP, KERNBASE in *.
  assert (Hc : 0x2004000 <= cmp <= 0x2004038 /\ cmp mod 8 = 0) by (unfold cmp, CLINT_MTIMECMP, CLINT; split; [lia|Z.div_mod_to_equations; lia]). destruct Hc as [Hc1 Hc2].
  cbn [app]. set (h2 := rset a0 b (csr_put Mscratch (u64 (rget a0 h)) h)).
  rewrite (run_m _ _ _ _ h2 Hp) by (rewrite step_csrrw_m by done; unfold csr_get; by rewrite (tm_scratch _ _ R)).
  assert (B2 : rget a0 h2 = b) by (unfold h2; rewrite rget_rset_eq by done; apply u64_small; lia).
  rewrite (run_saves timervec_addr timervec_addr b b 40 a0) by first [exact B2|decide_closed|apply window_m; (done || lia)]. set (h3 := set_hmem _ h2).
  rewrite (run_loads timervec_addr timervec_addr b b 40 a0) by first [exact B2|decide_closed|apply window_m; (done || lia)]. set (h4 := loaded b _ h3).
  destruct (csrs_loaded b [(a1, 24); (a2, 32)] h3) as [C4 P4]. fold h4 in C4, P4. assert (M4 : hmem h4 = hmem h3) by apply hmem_loaded.
  assert (V : forall r o, (r, o) ∈ [(a1, 24); (a2, 32)] -> rget r h4 = ld64 (hmem h) (b + o)).
  { intros r o Hin. unfold h4. assert (Hro : r <> zero /\ 24 <= o) by (rewrite !elem_of_cons, elem_of_nil in Hin; naive_solver lia).
    rewrite (loaded_word b _ h3 r o); [|decide_closed|done|apply Hro]. apply ldn_ext. intros x Hx. apply saved_outside. repeat constructor; cbn; lia. }
  assert (V1 : rget a1 h4 = cmp) by (rewrite (V a1 24) by decide_closed; apply R). assert (V2 : rget a2 h4 = INTERVAL) by (rewrite (V a2 32) by decide_closed; apply R).
  assert (Pm : priv h4 = MMode) by (by rewrite P4). assert (W4 : window timervec_addr timervec_addr cmp cmp 8 h4) by (apply window_m; (done || lia)).
  assert (Mc : ld64 (hmem h4) (cmp + 0) = ld64 (hmem h) cmp).
  { rewrite M4, Z.add_0_r. apply ldn_ext. intros x Hx. apply saved_outside. repeat constructor; cbn; lia. }
  set (h5 := rset a3 (ld64 (hmem h4) (cmp + 0)) h4). rewrite (run_m _ _ _ _ h5 Pm) by (apply (step_ld _ _ _ _ _ a1 h4 a3 0 W4 V1); (lia || done)).
  set (h6 := rset a3 (rget a3 h5 + rget a2 h5) h5). rewrite (run_m _ _ _ _ h6) by done.
  assert (V6 : rget a3 h6 = u64 (ld64 (hmem h) cmp + INTERVAL)).
  { unfold h6. rewrite rget_rset_eq by done. unfold h5. rewrite rget_rset_eq, rget_rset_ne by done. by rewrite V2, Mc, (u64_small (ld64 (hmem h) cmp)) by apply ld64_range. }
  assert (W6 : window timervec_addr timervec_addr cmp cmp 8 h6) by (apply window_m; (done || lia)).
  set (h7 := set_hmem (st64 (hmem h6) (cmp + 0) (rget a3 h6)) h6).
  rewrite (run_m _ _ _ _ h7) by first [done|apply (step_sd _ _ _ _ _ a1 h6 a3 0 W6); (lia || done)].
  exists h7. assert (Ro : forall r, r ∉ [a1; a2; a3] -> rget r h7 = rget r h2).
  { intros r Hn. change (rget r h6 = rget r h2). unfold h6, h5. rewrite !rget_rset_ne by set_solver. unfold h4. by rewrite loaded_other by set_solver. }
  conjs; [done|done|by rewrite Ro by decide_closed| | |].
  - change (csrs_of h7) with (csrs_of h4). rewrite C4. unfold h3, h2. cbn. by rewrite u64_small by (by apply rget_ok).
  - unfold h7. cbn [hmem set_hmem]. rewrite Z.add_0_r, V6. change (hmem h6) with (hmem h4). rewrite M4. reflexivity.
  - intros r Hn. rewrite Ro by set_solver. unfold h2. by rewrite rget_rset_ne by set_solver.
Qed.

Record forwarded (i : Z) (h h' : hart) : Prop := {
  fw_regs : forall r, rget r h' = rget r h;
  fw_pc : pc h' = pc h;
  fw_priv : priv h' = priv h;
  fw_ready : timer_ready i h';
  fw_pending : Z.testbit (csrs_of h' Mip) 1 = true;
  fw_cmp : ld64 (hmem h') (CLINT_MTIMECMP i) = u64 (ld64 (hmem h) (CLINT_MTIMECMP i) + INTERVAL);
  fw_mem : forall x, ~ data (scratch i) 24 x -> ~ data (CLINT_MTIMECMP i) 8 x -> mget (hmem h') x = mget (hmem h) x;
  fw_mstatus : forall n, 0 <= n -> n ∉ [7; 11; 12] -> Z.testbit (csrs_of h' Mstatus) n = Z.testbit (csrs_of h Mstatus) n;
  fw_csr : forall c, c ∉ [Mstatus; Mip; Mepc; Mcause] -> csrs_of h' c = csrs_of h c
}.

(** Up to [mret], in machine mode. *)
Lemma timervec_run i h1 : 0 <= i < 8 -> scratch_ok -> timer_ready i h1 -> regs_ok h1 -> priv h1 = MMode ->
  exists h6, run timervec_addr timervec_addr timervec h1 = Done tt (do_mret h6) /\
    csrs_of h6 = <[Mscratch := scratch i]> (<[Mip := merge (Z.land SIP_MASK MIDELEG_MASK) (csrs_of h1 Mip) 2]> (<[Mscratch := rget a0 h1]> (csrs_of h1))) /\
    hmem h6 = st64 (saved (scratch i) timer_block h1 (hmem h1)) (CLINT_MTIMECMP i) (u64 (ld64 (hmem h1) (CLINT_MTIMECMP i) + INTERVAL)) /\
    forall r, rget r h6 = rget r h1.
Proof.
  intros Hi Hq R Hr Hp. rewrite timervec_code.
  destruct (timervec_front i h1 (Li a1 2 :: Csrw Sip a1 :: loads a0 [(a3, 16); (a2, 8); (a1, 0)] ++ [Csrrw a0 Mscratch a0; Mret]) Hi Hq R Hr Hp) as (h2 & E & P2 & B2 & C2 & M2 & O2).
  cbn [app] in E |- *. rewrite E. clear E.
  rewrite (run_m _ _ _ _ (rset a1 2 h2)) by done. set (h3 := rset a1 2 h2).
  set (h4 := csr_put Sip 2 h3). rewrite (run_m _ _ _ _ h4) by first [done|apply step_csrw; unfold csr_ok; change (priv h3) with (priv h2); by rewrite P2].
  destruct Hq as (Q1 & Q2 & Q3). assert (Hb : KERNBASE <= scratch i /\ scratch i + 40 <= PHYSTOP /\ scratch i mod 8 = 0) by (unfold scratch; conjs; [lia|lia|Z.div_mod_to_equations; lia]). destruct Hb as (Hb1 & Hb2 & Hb3).
  unfold PHYSTOP, KERNBASE in *. assert (Hc : 0x2004000 <= CLINT_MTIMECMP i <= 0x2004038) by (unfold CLINT_MTIMECMP, CLINT; lia).
  rewrite (run_loads timervec_addr timervec_addr (scratch i) (scratch i) 40 a0) by first [exact B2|decide_closed|apply window_m; (done || lia)]. set (h5 := loaded (scratch i) _ h4).
  destruct (csrs_loaded (scratch i) [(a3, 16); (a2, 8); (a1, 0)] h4) as [C5 P5]. fold h5 in C5, P5. assert (M5 : hmem h5 = hmem h2) by (unfold h5; by rewrite hmem_loaded).
  set (h6 := rset a0 (csr_get h5 Mscratch) (csr_put Mscratch (u64 (rget a0 h5)) h5)).
  assert (Pm : priv h5 = MMode) by (by rewrite P5). rewrite (run_m _ _ _ _ h6 Pm) by (by apply step_csrrw_m).
  rewrite (run_m _ _ _ _ (do_mret h6)) by first [exact Pm|cbn [step]; unfold bind, gets; rewrite bool_decide_eq_true_2 by exact Pm; reflexivity].
  assert (C6 : csrs_of h6 = <[Mscratch := scratch i]> (<[Mip := merge (Z.land SIP_MASK MIDELEG_MASK) (csrs_of h1 Mip) 2]> (<[Mscratch := rget a0 h1]> (csrs_of h1)))).
  { unfold h6. cbn [csrs_of rset set_regs csr_put set_csrf]. rewrite C5. assert (B5 : rget a0 h5 = scratch i) by (unfold h5; rewrite loaded_other by decide_closed; exact B2).
    rewrite B5, u64_small by lia. unfold h4. cbn [csrs_of csr_put set_csrf]. change (csrs_of h3) with (csrs_of h2). rewrite C2. f_equal.
    rewrite !fn_lookup_insert_ne by done. by rewrite (tm_deleg _ _ R). }
  exists h6. split; [reflexivity|]. split; [exact C6|]. split; [exact (eq_trans M5 M2)|]. intros r.
  destruct (decide (r = zero)) as [->|Hz]; [done|]. destruct (decide (r = a0)) as [->|H0].
  { unfold h6. rewrite rget_rset_eq by done. unfold csr_get. rewrite C5. unfold h4. cbn [csrs_of csr_put set_csrf]. rewrite fn_lookup_insert_ne by done.
    change (csrs_of h3) with (csrs_of h2). rewrite C2, fn_lookup_insert. by apply u64_small, rget_ok. }
  unfold h6. rewrite rget_rset_ne by done. change (rget r h5 = rget r h1). destruct (decide (r ∈ [a1; a2; a3])) as [Hin|Hn].
  - assert (Ho : exists o, 0 <= o <= 16 /\ (r, o) ∈ timer_block /\ (r, o) ∈ [(a3, 16); (a2, 8); (a1, 0)]).
    { rewrite !elem_of_cons, elem_of_nil in Hin. destruct Hin as [->|[->|[->|[]]]]; [exists 0|exists 8|exists 16]; (split; [lia|split; decide_closed]). }
    destruct Ho as (o & Ho & Hi1 & Hi2). unfold h5. rewrite (loaded_word (scratch i) _ h4 r o); [|decide_closed|done|done]. change (hmem h4) with (hmem h2). rewrite M2.
    rewrite ld64_st64_ne by lia. apply (saved_word (scratch i) 40); [done|decide_closed|decide_closed|done].
  - unfold h5. rewrite loaded_other by (intros Hl; apply Hn; cbn in Hl; set_solver). unfold h4. change (rget r (csr_put Sip 2 h3)) with (rget r h3). unfold h3.
    rewrite rget_rset_ne by set_solver. apply O2. set_solver.
Qed.

Lemma timervec_ok i h tval : 0 <= i < 8 -> scratch_ok -> timer_ready i h -> regs_ok h -> priv h <> MMode ->
  pc (trap MTI tval h) = timervec_addr /\
  exists h', run timervec_addr timervec_addr timervec (trap MTI tval h) = Done tt h' /\ forwarded i h h'.
Proof.
  intros Hi Hq R Hr Hp. assert (Et : trap MTI tval h = trap_m MTI h).
  { unfold trap, delegated. rewrite (tm_deleg _ _ R). by rewrite andb_false_r. }
  rewrite Et. set (h1 := trap_m MTI h). assert (R1 : timer_ready i h1) by (destruct R; by split).
  split; [apply R|]. destruct (timervec_run i h1 Hi Hq R1 Hr eq_refl) as (h6 & E & C6 & M6 & V6). exists (do_mret h6). split; [done|].
  destruct (trap_m_mret MTI h h6 Hp) as [Pr St]; [rewrite C6; by rewrite !fn_lookup_insert_ne by done|].
  assert (Cs : forall c, c ∉ [Mstatus; Mip; Mepc; Mcause] -> csrs_of (do_mret h6) c = csrs_of h c).
  { intros c Hc. rewrite !not_elem_of_cons in Hc. destruct Hc as (Hc1 & Hc2 & Hc3 & Hc4 & _). unfold do_mret. cbn [csrs_of]. rewrite fn_lookup_insert_ne, C6 by done.
    destruct (decide (c = Mscratch)) as [->|Hs]; [rewrite fn_lookup_insert; symmetry; apply R|]. rewrite !fn_lookup_insert_ne by done. unfold h1, trap_m. cbn [csrs_of]. by rewrite !fn_lookup_insert_ne by done. }
  destruct Hq as (Q1 & Q2 & Q3). unfold PHYSTOP, KERNBASE in *. assert (Hb : 2147483648 <= scratch i) by (unfold scratch; lia).
  assert (Hc : 0x2004000 <= CLINT_MTIMECMP i <= 0x2004038) by (unfold CLINT_MTIMECMP, CLINT; lia).
  assert (Ms : forall x, ~ data (scratch i) 24 x -> ~ data (CLINT_MTIMECMP i) 8 x -> mget (hmem h6) x = mget (hmem h) x).
  { intros x H1 H2. rewrite M6. unfold data in *. rewrite mget_stn_ne by (change (Z.of_nat 8) with 8; lia). apply saved_outside. repeat constructor; cbn; lia. }
  assert (Wd : forall o, 24 <= o <= 32 -> ld64 (hmem h6) (scratch i + o) = ld64 (hmem h) (scratch i + o)) by (intros o Ho; apply ldn_ext; intros x Hx; apply Ms; unfold data; lia).
  split.
  - intros r. exact (V6 r).
  - unfold do_mret. cbn [pc]. rewrite C6, !fn_lookup_insert_ne by done. reflexivity.
  - done.
  - destruct R as [R2 R3 R4 R5 R6 R7]. split; try (by rewrite Cs by decide_closed); change (hmem (do_mret h6)) with (hmem h6); by rewrite Wd by lia.
  - unfold do_mret. cbn [csrs_of]. rewrite fn_lookup_insert_ne, C6 by done. rewrite fn_lookup_insert_ne, fn_lookup_insert by done. by rewrite merge_spec.
  - change (hmem (do_mret h6)) with (hmem h6). rewrite M6, ld64_st64_eq. apply u64_small, u64_range.
  - exact Ms.
  - exact St.
  - exact Cs.
Qed.

(** ** entry and start *)

(** Each hart gets the 4096 bytes of [stack0] below its [sp]. *)
Lemma entry_ok va h : priv h = MMode -> 0 <= csrs_of h Mhartid < 8 -> 0 <= stack0 -> stack0 + 8 * 4096 < 2 ^ 64 ->
  exists h', run va va entry h = Done tt h' /\ pc h' = start_addr /\ rget sp h' = stack0 + 4096 * (csrs_of h Mhartid + 1) /\
    priv h' = MMode /\ csrs_of h' = csrs_of h /\ hmem h' = hmem h.
Proof.
  intros Hp Hi H1 H2. unfold entry. rewrite !(run_m va (Li _ _) _ _ _) by done. rewrite (run_m va (Csrr _ _) _ _ _) by first [exact Hp|cbn [step]; unfold bind; by rewrite csrr_m by exact Hp].
  rewrite !(run_m va (Addi _ _ _) _ _ _), !(run_m va (Mul _ _ _) _ _ _), !(run_m va (Add _ _ _) _ _ _), !(run_m va (Call _ _) _ _ _) by done.
  eexists. split; [reflexivity|]. conjs; try done.
  change (rget sp (set_pc _ ?h)) with (rget sp h). autorewrite with hart. cbn [csr_get]. change (csrs_of (rset a0 (1024 * 4) (rset sp stack0 h)) Mhartid) with (csrs_of h Mhartid).
  rewrite !(u64_small (csrs_of h Mhartid)), (u64_small (csrs_of h Mhartid + 1)), (u64_small (1024 * 4)), (u64_small stack0) by lia. rewrite !u64_small by (rewrite ?u64_small; lia). lia.
Qed.

Record booted (i : Z) (h h' : hart) : Prop := {
  bt_priv : priv h' = SMode;
  bt_pc : pc h' = main_addr;
  bt_tp : rget tp h' = i;
  bt_regs : forall r, r <> tp -> rget r h' = rget r h;
  bt_satp : csrs_of h' Satp = 0;
  bt_pmp : pmp_open h';
  bt_medeleg : csrs_of h' Medeleg = MEDELEG_MASK;
  bt_sie : forall n, n ∈ [1; 5; 9] -> Z.testbit (csrs_of h' Mie) n = true;
  bt_timer : timer_ready i h';
  bt_cmp : ld64 (hmem h') (CLINT_MTIMECMP i) = u64 (ld64 (hmem h) CLINT_MTIME + INTERVAL);
  bt_mem : forall x, ~ data (scratch i + 24) 16 x -> ~ data (CLINT_MTIMECMP i) 8 x -> mget (hmem h') x = mget (hmem h) x
}.

(** [timerinit], called in machine mode. *)
Lemma timerinit_ok i h : 0 <= i < 8 -> scratch_ok -> priv h = MMode -> csrs_of h Mhartid = i -> csrs_of h Mideleg = MIDELEG_MASK -> 0 <= timervec_addr < 2 ^ 64 ->
  let m := hmem h in
  timerinit h = Done tt (Hart (regs h)
    (<[Mie := u64 (Z.lor (csrs_of h Mie) MIE_MTIE)]> (<[Mstatus := u64 (Z.lor (csrs_of h Mstatus) MSTATUS_MIE)]> (<[Mtvec := timervec_addr]> (<[Mscratch := scratch i]> (csrs_of h)))))
    MMode (pc h) (st64 (st64 (st64 m (CLINT_MTIMECMP i) (u64 (ld64 m CLINT_MTIME + INTERVAL))) (scratch i + 24) (CLINT_MTIMECMP i)) (scratch i + 32) INTERVAL)).
Proof.
  intros Hi (Q1 & Q2 & Q3) Hp Hid Hd Htv. cbv zeta. unfold timerinit, r_mhartid. rewrite (bind_Done _ _ _ _ _ (csrr_m Mhartid h Hp)). cbn [csr_get]. rewrite Hid.
  assert (i32 i = i) as -> by (unfold i32; rewrite Z.mod_small; lia). cbv zeta.
  rewrite (bind_Done _ _ _ _ _ (loadn_m CLINT_MTIME h Hp eq_refl)).
  assert (A1 : CLINT_MTIMECMP i mod 8 = 0) by (unfold CLINT_MTIMECMP, CLINT; Z.div_mod_to_equations; lia).
  assert (A2 : (timer_scratch + i * 40 + 8 * 3) mod 8 = 0 /\ (timer_scratch + i * 40 + 8 * 4) mod 8 = 0) by (split; Z.div_mod_to_equations; lia). destruct A2 as [A2 A3].
  rewrite (bind_Done _ _ _ _ _ (storen_m _ _ h Hp A1)). set (h1 := set_hmem _ h). assert (P1 : priv h1 = MMode) by done.
  rewrite (bind_Done _ _ _ _ _ (storen_m _ _ h1 P1 A2)). set (h2 := set_hmem _ h1). assert (P2 : priv h2 = MMode) by done.
  rewrite (bind_Done _ _ _ _ _ (storen_m _ _ h2 P2 A3)). set (h3 := set_hmem _ h2). assert (P3 : priv h3 = MMode) by done.
  unfold w_mscratch, w_mtvec, r_mstatus, w_mstatus, r_mie, w_mie.
  rewrite (bind_Done _ _ _ _ _ (csrw_m Mscratch _ h3 P3)). set (h4 := csr_put _ _ h3). assert (P4 : priv h4 = MMode) by done.
  rewrite (bind_Done _ _ _ _ _ (csrw_m Mtvec _ h4 P4)). set (h5 := csr_put _ _ h4). assert (P5 : priv h5 = MMode) by done.
  rewrite (bind_Done _ _ _ _ _ (csrr_m Mstatus h5 P5)), (bind_Done _ _ _ _ _ (csrw_m Mstatus _ h5 P5)). set (h6 := csr_put _ _ h5). assert (P6 : priv h6 = MMode) by done.
  rewrite (bind_Done _ _ _ _ _ (csrr_m Mie h6 P6)), (csrw_m Mie _ h6 P6). f_equal.
  unfold h6, h5, h4, h3, h2, h1, csr_put, csr_get, set_csrf, set_hmem. cbn [regs csrs_of priv pc hmem]. rewrite !fn_lookup_insert_ne by done. rewrite (u64_small timervec_addr) by done.
  unfold PHYSTOP, KERNBASE in *. rewrite (u64_small (timer_scratch + i * 40)) by lia. rewrite Hp. reflexivity.
Qed.

Lemma u64_bit x n : 0 <= n < 64 -> Z.testbit (u64 x) n = Z.testbit x n.
Proof. intros H. unfold u64. apply Z.mod_pow2_bits_low. lia. Qed.

(** The registers that [start] has written when it calls [timerinit]. *)
Definition start_csrs (f : csr -> Z) : csr -> Z :=
  <[Pmpcfg0 := 0xf]> (<[Pmpaddr0 := 0x3fffffffffffff]> (<[Mie := merge MIDELEG_MASK (f Mie) (u64 (Z.lor (Z.lor (Z.lor (Z.land (f Mie) MIDELEG_MASK) SIE_SEIE) SIE_STIE) SIE_SSIE))]>
    (<[Mideleg := MIDELEG_MASK]> (<[Medeleg := MEDELEG_MASK]> (<[Satp := 0]> (<[Mepc := main_addr]>
      (<[Mstatus := u64 (Z.lor (Z.land (f Mstatus) (u64 (Z.lnot MSTATUS_MPP_MASK))) MSTATUS_MPP_S)]> f))))))).

(** One access to a control register in machine mode. *)
Ltac csr_step Hp :=
  match goal with
  | |- bind (csrr ?c) _ ?s = _ => rewrite (bind_Done _ _ s _ _ (csrr_m c s Hp))
  | |- bind (csrw ?c ?v) _ ?s = _ => rewrite (bind_Done _ _ s _ _ (csrw_m c v s Hp))
  end.

Lemma start_run i h : 0 <= i < 8 -> scratch_ok -> priv h = MMode -> csrs_of h Mhartid = i -> 0 <= timervec_addr < 2 ^ 64 -> 0 <= main_addr < 2 ^ 64 ->
  exists h', timerinit (set_csrf (start_csrs (csrs_of h)) h) = Done tt h' /\ start h = Done tt (do_mret (rset tp i h')).
Proof.
  intros Hi Hq Hp Hid Htv Hma. set (h1 := set_csrf (start_csrs (csrs_of h)) h).
  pose proof (timerinit_ok i h1 Hi Hq Hp Hid eq_refl Htv) as Ht. cbv zeta in Ht. set (h2 := Hart _ _ _ _ _) in Ht. exists h2. split; [done|].
  assert (E1 : csr_put Pmpcfg0 (u64 0xf) (csr_put Pmpaddr0 (u64 0x3fffffffffffff) (csr_put Sie (u64 (Z.lor (Z.lor (Z.lor (Z.land (csrs_of h Mie) MIDELEG_MASK) SIE_SEIE) SIE_STIE) SIE_SSIE))
    (csr_put Mideleg (u64 0xffff) (csr_put Medeleg (u64 0xffff) (csr_put Satp (u64 0) (csr_put Mepc (u64 main_addr)
      (csr_put Mstatus (u64 (Z.lor (Z.land (csrs_of h Mstatus) (u64 (Z.lnot MSTATUS_MPP_MASK))) MSTATUS_MPP_S)) h))))))) = h1).
  { unfold h1, start_csrs, csr_put, set_csrf. cbn [regs csrs_of priv pc hmem]. rewrite fn_lookup_insert, !fn_lookup_insert_ne by done. by rewrite (u64_small main_addr) by done. }
  unfold start, r_mstatus, w_mstatus, w_mepc, w_satp, w_medeleg, w_mideleg, r_sie, w_sie, w_pmpaddr0, w_pmpcfg0, r_mhartid.
  repeat (csr_step Hp; cbv zeta).
  change (csr_get (csr_put Mideleg _ ?x) Sie) with (Z.land (csrs_of h Mie) MIDELEG_MASK). change (csr_get h Mstatus) with (csrs_of h Mstatus).
  rewrite E1. rewrite (bind_Done _ _ _ _ _ Ht). assert (P2 : priv h2 = MMode) by done. rewrite (bind_Done _ _ _ _ _ (csrr_m Mhartid h2 P2)).
  change (csr_get h2 Mhartid) with (csrs_of h Mhartid). rewrite Hid. assert (i32 i = i) as -> by (unfold i32; rewrite Z.mod_small; lia). reflexivity.
Qed.

(** [mret] after [start] enters supervisor mode. *)
Lemma start_mode x : num_mode (Z.land (Z.shiftr (u64 (Z.lor (u64 (Z.lor (Z.land x (u64 (Z.lnot MSTATUS_MPP_MASK))) MSTATUS_MPP_S)) MSTATUS_MIE)) MPP_bit) 3) = SMode.
Proof.
  assert (E : Z.land (Z.shiftr (u64 (Z.lor (u64 (Z.lor (Z.land x (u64 (Z.lnot MSTATUS_MPP_MASK))) MSTATUS_MPP_S)) MSTATUS_MIE)) MPP_bit) 3 = 1); [|by rewrite E].
  apply Z.bits_inj'. intros n Hn. rewrite Z.land_spec, Z.shiftr_spec by done. assert (C : n = 0 \/ n = 1 \/ 2 <= n) by lia. destruct C as [->|[->|C]].
  - by rewrite u64_bit, Z.lor_spec, u64_bit, Z.lor_spec, !orb_true_r by (vm_compute; by split).
  - rewrite u64_bit, Z.lor_spec, u64_bit, Z.lor_spec, Z.land_spec by (vm_compute; by split). change (Z.testbit (u64 (Z.lnot MSTATUS_MPP_MASK)) (1 + MPP_bit)) with false. by rewrite andb_false_r.
  - rewrite (Z.bits_above_log2 3), (Z.bits_above_log2 1) by (simpl; lia). apply andb_false_r.
Qed.

Lemma start_ok i h : 0 <= i < 8 -> scratch_ok -> priv h = MMode -> csrs_of h Mhartid = i -> 0 <= timervec_addr < 2 ^ 64 -> 0 <= main_addr < 2 ^ 64 ->
  exists h', start h = Done tt h' /\ booted i h h'.
Proof.
  intros Hi Hq Hp Hid Htv Hma. destruct (start_run i h Hi Hq Hp Hid Htv Hma) as (h2 & E2 & Es). exists (do_mret (rset tp i h2)). split; [done|].
  rewrite (timerinit_ok i (set_csrf (start_csrs (csrs_of h)) h) Hi Hq Hp Hid eq_refl Htv) in E2. injection E2 as E2. destruct Hq as (Q1 & Q2 & Q3). unfold PHYSTOP, KERNBASE in *.
  assert (Hb : 2147483648 <= scratch i) by (unfold scratch; lia). assert (Hc : 0x2004000 <= CLINT_MTIMECMP i <= 0x2004038) by (unfold CLINT_MTIMECMP, CLINT; lia).
  rewrite <- E2. split; unfold do_mret; cbn [priv pc csrs_of hmem rset set_regs set_csrf].
  - apply start_mode.
  - done.
  - change (rget tp (rset tp i h) = i). rewrite rget_rset_eq by done. apply u64_small. lia.
  - intros r Hr. by apply (rget_rset_ne tp r i h).
  - done.
  - done.
  - done.
  - intros n Hn. rewrite fn_lookup_insert_ne, fn_lookup_insert by done. unfold start_csrs. rewrite !fn_lookup_insert_ne, fn_lookup_insert by done.
    rewrite !elem_of_cons, elem_of_nil in Hn. destruct Hn as [->|[->|[->|[]]]]; rewrite u64_bit, Z.lor_spec, merge_spec by lia;
      change (Z.testbit MIDELEG_MASK _) with true; cbn iota; rewrite u64_bit, !Z.lor_spec by lia; by rewrite ?orb_true_r.
  - split; cbn [csrs_of hmem]; try done.
    + rewrite ld64_st64_ne by lia. rewrite ld64_st64_eq. apply u64_small. lia.
    + rewrite ld64_st64_eq. apply u64_small. unfold INTERVAL. lia.
    + rewrite fn_lookup_insert_ne, fn_lookup_insert by done. rewrite u64_bit, Z.lor_spec by lia. by rewrite orb_true_r.
  - rewrite !ld64_st64_ne by lia. rewrite ld64_st64_eq. apply u64_small, u64_range.
  - intros x H1 H2. unfold data in *. by rewrite !mget_stn_ne by (change (Z.of_nat 8) with 8; lia).
Qed.

(** C25: from power-on to the kernel's clock.  [start], entered in machine mode
    on hart [i], ends in supervisor mode at [main] with paging off, memory
    open to supervisor mode, all delegable traps delegated and enabled, the
    hart number in [tp], and the timer programmed.  From then on every
    machine timer interrupt goes to [timervec], which advances the comparison
    register by the interval, makes a supervisor software interrupt pending
    and returns to the interrupted code, with all registers, the mode, the
    supervisor status and all memory but its scratch area unchanged, and the
    timer ready for the next interrupt. *)
Theorem timer_interrupts i : 0 <= i < 8 -> scratch_ok -> 0 <= timervec_addr < 2 ^ 64 -> 0 <= main_addr < 2 ^ 64 ->
  (forall h, priv h = MMode -> csrs_of h Mhartid = i -> exists h', start h = Done tt h' /\ booted i h h') /\
  (forall h tval, timer_ready i h -> regs_ok h -> priv h <> MMode ->
    pc (trap MTI tval h) = timervec_addr /\ exists h', run timervec_addr timervec_addr timervec (trap MTI tval h) = Done tt h' /\ forwarded i h h').
Proof.
  intros Hi Hq Htv Hma. split; [intros h Hp Hid; by apply start_ok|]. intros h tval R Hr Hp. by apply timervec_ok.
Qed.
End Timer.
