(* ===== verification/LowExample.v ===== *)
(** * Runs of the low-level code

    A kernel page table with a text page and a data page, from the examples
    of the trap code, and the theorems on [kernelvec], [swtch], [start] and
    [timervec] on it. *)

From S2P Require Import Prelude Memory Riscv Spinlock Kalloc Vm VmWalk VmUser VmFree Hart Lowlevel HartSpec TrapSpec LowSpec TimerSpec Syscall.

Module LowExample.
Export TrapExample.
#[export] Instance lsyms : Lsyms :=
  {| stack0 := KERNBASE + 0x9000; timer_scratch := KERNBASE + 0x12000; start_addr := KERNBASE + 0x100; spin_addr := KERNBASE + 0x1a;
     main_addr := KERNBASE + 0x200; timervec_addr := KERNBASE + 0x2300; kerneltrap_addr := KERNBASE + 0x2400; kernelvec_back := KERNBASE + 0x2280 |}.

(** The table at [page 0] maps the trampoline as text and [page 9] as data. *)
Definition csrs8 (c : Hart.csr) : Z :=
  match c with Satp => MAKE_SATP (page 0) | Stvec => TRAMPOLINE | Pmpcfg0 => 0xf | Pmpaddr0 => 0x3fffffffffffff | Medeleg => 0xb3ff | Mideleg => 0x222 | Mstatus => 2 | _ => 0 end.
Definition hart8 (f : reg -> Z) (m : mem) : hart := Hart f csrs8 SMode (KERNBASE + 0x3000) m.

Lemma table8 : exists T, (forall f, kernel_hart T (page 0) TRAMPOLINE trampoline (hart8 f (k_mem st8))) /\
  (forall o n, 0 <= o -> 0 <= n -> o + n <= 4096 -> kmaps (k_mem st8) T KDATA (TRAPFRAME + o) (page 9 + o) n).
Proof.
  destruct (made st7 pages7 (page 9) (page 0) kinv7 pages7_ok) as (l & T & I & _ & L & P); [apply page_ok_ex; lia|vm_compute; reflexivity|discriminate|].
  fold st8 in I, P. exists T.
  assert (Ap : forall p x, tpage T p -> in_page p x -> page 0 <= x < page 7).
  { intros p x Hp Hx. assert (Hin : p ∈ pages7) by (apply L; tauto). apply list_elem_of_fmap in Hin as (i & -> & Hi). rewrite !elem_of_cons, elem_of_nil in Hi.
    unfold in_page, page, PGSIZE in *. lia. }
  split.
  - intros f. split; [done|done|done|apply I|]. split; [vm_compute; intuition discriminate|done| |].
    + intros o Ho. replace o with 0 by lia. cbn [hmem hart8]. rewrite P by (vm_compute; by split). vm_compute. reflexivity.
    + intros p x Hp Hx Hd. apply Ap in Hx; [|done]. revert Hx Hd. unfold data, page, PGSIZE. change trampoline with (KERNBASE + 0x7000). lia.
  - intros o n Ho Hn Hon. change TRAPFRAME with (67108862 * 4096). split.
    + change MAXVA with (67108864 * 4096). unfold page, PGSIZE, KERNBASE. lia.
    + unfold page, PGSIZE, KERNBASE. Z.div_mod_to_equations. lia.
    + intros o' Ho'. rewrite P by (change MAXVA with (67108864 * 4096); lia). replace ((67108862 * 4096 + o + o') / 4096) with 67108862 by (Z.div_mod_to_equations; lia).
      replace ((page 9 + o + o') / 4096 * 4096) with (page 9) by (unfold page, PGSIZE, KERNBASE; Z.div_mod_to_equations; lia).
      vm_compute. reflexivity.
    + intros p x Hp Hx Hd. apply Ap in Hx; [|done]. revert Hx Hd. unfold data, page, PGSIZE. lia.
Qed.

(** The kernel, with a stack that ends at the end of [page 9], is interrupted
    by a device. *)
Definition stack8 (r : reg) : Z := if decide (r = sp) then TRAPFRAME + 4096 else 5.
Lemma kernelvec_transparent_witness :
  pc (trap (2 ^ 63 + 9) 0 (hart8 stack8 (k_mem st8))) = TRAMPOLINE /\
  exists h2, run TRAMPOLINE trampoline kernelvec_save (trap (2 ^ 63 + 9) 0 (hart8 stack8 (k_mem st8))) = Done tt h2 /\ pc h2 = kerneltrap_addr.
Proof.
  destruct table8 as (T & K & D).
  destruct (kernelvec_transparent T (page 0) trampoline (page 9 + 3840) (hart8 stack8 (k_mem st8)) (2 ^ 63 + 9) 0 (K stack8)) as (E & h2 & R & P & _).
  - intros r. destruct r; vm_compute; split; (discriminate || reflexivity).
  - vm_compute. discriminate.
  - reflexivity.
  - exact (D 3840 256 ltac:(discriminate) ltac:(discriminate) ltac:(discriminate)).
  - reflexivity.
  - exact (conj E (ex_intro _ h2 (conj R P))).
Defined.

(** Two contexts in [page 9]: from the first to the second, and back. *)
Definition switch8 (old new : Z) (r : reg) : Z := if decide (r = a0) then TRAPFRAME + old else if decide (r = a1) then TRAPFRAME + new else 7.
Lemma switch8_ok f m old new : f = switch8 old new -> 0 <= old < 4096 -> 0 <= new < 4096 -> regs_ok (hart8 f m).
Proof. intros -> H1 H2 r. unfold rget, switch8. cbn [regs hart8]. change TRAPFRAME with (67108862 * 4096). destruct r; simpl; lia. Qed.

Lemma swtch_resumes_witness : exists h' h3, run TRAMPOLINE trampoline swtch (hart8 (switch8 0 112) (k_mem st8)) = Done tt h' /\
  run TRAMPOLINE trampoline swtch (hart8 (switch8 224 0) (hmem h')) = Done tt h3 /\ ctx_of h3 = ctx_of (hart8 (switch8 0 112) (k_mem st8)) /\ pc h3 = 7.
Proof.
  destruct table8 as (T & K & D). generalize dependent (k_mem st8). intros m K D.
  destruct (swtch_resumes T (page 0) TRAMPOLINE trampoline (hart8 (switch8 0 112) m) (page 9 + 0) (page 9 + 112) (K _)) as (h' & R & S & H).
  - apply (switch8_ok _ _ 0 112); [reflexivity|lia..].
  - apply (D 0 112); lia.
  - apply (D 112 112); lia.
  - reflexivity.
  - reflexivity.
  - unfold data. lia.
  - assert (N : near (data (page 9 + 0) 112) (hart8 (switch8 224 0) m) (hart8 (switch8 224 0) (hmem h'))) by (split; [reflexivity..|apply (sw_mem _ _ _ _ S)]).
    assert (Dk : forall o, 0 <= o -> o + 112 <= 4096 -> kmaps (hmem h') T KDATA (TRAPFRAME + o) (page 9 + o) 112).
    { intros o H1 H2. apply (kmaps_frame m); [apply D; lia|]. intros p x Hp Hx. apply (sw_mem _ _ _ _ S). apply (km_apart _ _ _ _ _ _ (D 0 112 ltac:(lia) ltac:(lia) ltac:(lia)) p x Hp Hx). }
    destruct (H (hart8 (switch8 224 0) (hmem h')) (page 9 + 224)) as (h3 & R3 & C3 & P3).
    + exact (kernel_near _ _ _ _ _ _ _ (K (switch8 224 0)) N (km_apart _ _ _ _ _ _ (D 0 112 ltac:(lia) ltac:(lia) ltac:(lia)))).
    + apply (switch8_ok _ _ 224 0); [reflexivity|lia..].
    + apply (Dk 224); lia.
    + reflexivity.
    + apply (Dk 0); lia.
    + reflexivity.
    + unfold data. lia.
    + intros x _. exact eq_refl.
    + exists h', h3. exact (conj R (conj R3 (conj C3 P3))).
Defined.

(** Hart 3 from power-on, and a timer interrupt in user mode. *)
Definition reset3 : hart := Hart (fun _ => 0) (fun c => if decide (c = Mhartid) then 3 else 0) MMode 0x1000 ∅.
Lemma timer_interrupts_witness : exists h1 h2, start reset3 = Done tt h1 /\ priv h1 = SMode /\
  run timervec_addr timervec_addr timervec (trap MTI 0 h1) = Done tt h2 /\ forwarded 3 h1 h2.
Proof.
  destruct (timer_interrupts 3) as [H1 H2]; [lia|split; [discriminate|split; [discriminate|reflexivity]]|split; [discriminate|reflexivity]|split; [discriminate|reflexivity]|].
  destruct (H1 reset3 eq_refl eq_refl) as (h1 & S1 & B). destruct (H2 h1 0 (bt_timer _ _ _ B)) as (_ & h2 & R2 & F2).
  - intros r. destruct (decide (r = tp)) as [->|Hr]; [rewrite (bt_tp _ _ _ B); lia|]. rewrite (bt_regs _ _ _ B r Hr). unfold rget. destruct (decide _); simpl; lia.
  - rewrite (bt_priv _ _ _ B). discriminate.
  - exists h1, h2. exact (conj S1 (conj (bt_priv _ _ _ B) (conj R2 F2))).
Defined.
End LowExample.
